(* ===== verification/_CoqProject ===== *)
-Q . S2P
Prelude.v
PyFloat.v
PyVal.v
PyText.v
PyJson.v
IsrModel.v
IsrRecords.v
IsrSerial.v
IsrSerialSpec.v
IsrVersioning.v
IsrLineage.v
TypedGraph.v
GraphSearch.v
GraphOrder.v
GraphCycles.v
GraphPaths.v
GraphOps.v
IsrValidation.v
IsrValidationSpec.v
IsrMetrics.v
IsrMetricsSpec.v
FinModels.v
FinLedger.v
FinPayments.v
FinRefunds.v
FinControls.v
FinRecon.v
FinCompliance.v
FinEngine.v
SetLedger.v
Settlement.v
SettlementSpec.v
GovModels.v
GovPolicy.v
GovPolicySpec.v
GovApproval.v
GovKernel.v
GovKernelSpec.v
GovVoting.v
GovEvidence.v
GovVersion.v
GovVersionSpec.v
GovLineage.v
Lease.v
RateLimit.v
KillSwitch.v
Pareto.v
EvoModels.v
ParetoSpec.v
SelfModels.v
SelfEngine.v
SelfParts.v
Genome.v
SelfMulti.v
Campaign.v
SelfEngineSpec.v
SelfMultiSpec.v
Promotion.v
SelfPartsSpec.v
GenomeSpec.v
CampaignSpec.v
PromotionSpec.v
EvoPopulation.v
EvoControl.v
EvoDiversity.v
EvoEngine.v
IsrAdapter.v
IsrAdapterSpec.v
IsrRoundTrip.v
EvoOperators.v
EvoMutation.v
Recombination.v
RecombinationSpec.v
EvoOperatorsSpec.v
EvoSelectSpec.v
EvoDiversitySpec.v
EvoSpec.v
EvoTrendSpec.v
EvoRunSpec.v
