(* ===== verification/Prelude.v ===== *)
(** * Tiannara: verification of the control-plane core

    The repository is an autonomous software platform written in Python.  This
    development verifies the parts of it that keep state under rules or compute
    what the rest relies on: the constitutional governance kernel
    ([constitutional_architecture/governance/]), the intermediate software
    representation ([constitutional_architecture/isr/]) and the engine that
    evolves it ([constitutional_architecture/engine/]), the two financial
    control planes of the product factory
    ([product_factory/marketplace_settlement/] and
    [product_factory/marketplace_financial_hardening/]), the self-evolution
    engines with their promotion control ([evolution/]), and the lease, the rate
    limiter and the kill switch of the API service ([autonomous-api/app/]).

    ** How the code is modelled

    A method of an object is a function [M S A = S -> res A * S] on the record
    [S] of the object's attributes: what it wrote before an exception stays
    written.  [res] is a value or an exception with its class and message;
    [try_catch] is a handler, [zoom] runs a method of an attribute that is an
    object, [for_each] is a loop for its effects.  A dict is the list of its
    items in insertion order ([dget], [dset], [ddel]; [dict_ok] says no key
    occurs twice), a set is a [gset] or the list of its members, [sorted] is the
    stable [sort_by].  Objects that several tables share live in a heap and are
    named by their address (refunds, [FinRefunds]; constitutions, [GovLineage])
    or are looked up under their id in one table (settlement batches,
    approvals).  Floats are IEEE binary64 ([SpecFloat]) with Python's [round],
    comparison and conversions; datetimes are integers, microseconds since the
    epoch; [Any] is the tagged union [pyval].  The uuid generator, the clock, the
    random generator and the text of a float are classes ([Env] of [FinModels],
    [Surroundings] of [EvoModels]), read through counters in [World]; adapters
    and gateways are ports, parameters that may answer, refuse or raise; sha256
    over canonical JSON, HMAC, the JSON text, regular expressions and other parts
    of Python's library are parameters.  A model has no definition of its own for
    code it cannot read.

    ** Files and what they model

    Shared:
    - [Prelude]: exceptions, the monad, [keeps] (a method preserves an
      invariant, with the tactic [keeps_steps] and the hint base [keeps]),
      truthiness, dicts, lists and sorting, the order of strings, weakest
      preconditions of method bodies ([wp], with the tactic [wp_step]), walks and
      reachability in a finite relation (the specification of the traversals);
    - [PyFloat]: floats; arithmetic on them is exact on integers below 2^53;
    - [PyVal]: dynamically typed values, [==], [in], [float(...)];
      [PyText]: digits, decimal texts, case; [PyJson]: documents and key order.

    Software representation ([constitutional_architecture/isr/]):
    - [IsrModel] (model/nodes.py, model/edges.py, eir/): node and edge types,
      the table of allowed connections, the records of a change;
    - [IsrRecords] (the other files of model/), [IsrSerial]
      (serialization/serializer.py and deserializer.py), [IsrSerialSpec];
    - [IsrVersioning] (versioning/hash.py, snapshot.py), [IsrLineage]
      (versioning/version.py, lineage.py);
    - [TypedGraph] (graph/typed_graph.py): the four dicts of a graph, its
      mutators and accessors;
    - [GraphSearch] (bfs, dfs), [GraphOrder] (topological_sort), [GraphCycles]
      (detect_cycles), [GraphPaths] (find_path): graph/traversal.py;
    - [GraphOps]: graph/operations.py and graph/queries.py;
    - [IsrValidation] (types/, validation/), [IsrValidationSpec];
    - [IsrMetrics] (metrics/, diff/), [IsrMetricsSpec];
    - [IsrAdapter] (the engine's isr_adapter.py, the graph of an ISR and back, an
      instance of the class [Adapter] of [EvoEngine]), [IsrAdapterSpec],
      [IsrRoundTrip].

    Evolution engine ([constitutional_architecture/engine/]):
    - [EvoModels] (fitness.py, individual.py, config.py), [EvoPopulation]
      (population_manager.py, elite_manager.py, lineage_tracker.py),
      [EvoControl] (evolution_events.py, convergence_detector.py,
      evolution_scheduler.py, evolution_metrics.py, adaptive_mutation.py),
      [EvoDiversity] (diversity_manager.py, novelty_search.py,
      pareto_optimizer.py), [EvoEngine] (mutation_registry.py,
      evolution_engine.py, over the class [Adapter] of what it uses of
      isr_adapter.py and of an ISR), [EvoOperators] (mutation_operators.py,
      crossover_engine.py), [EvoMutation] (evolution_memory.py,
      mutation_planner.py, mutation_validator.py, mutation_engine.py);
    - [EvoSelectSpec], [EvoDiversitySpec]: theorems on the parts; [EvoSpec],
      [EvoTrendSpec], [EvoRunSpec]: theorems on the engine;
      [EvoOperatorsSpec]: theorems on the operators, over any graph and over the
      graphs of ISRs.

    Self-evolution ([evolution/]):
    - [Pareto] (pareto.py), [ParetoSpec];
    - [SelfModels] (models.py, utils.py, history.py, governance.py), with an
      injective text of documents the samples use;
    - [SelfEngine] (engine.py, over the class [Parts] of the parts injected into
      it), [SelfParts] (the default parts: mutation.py, simulation.py,
      verification.py, fitness.py, governance_fitness_evaluator.py,
      core/governance_design.py, core/governance_fitness.py), [SelfMulti]
      (multi.py); [SelfEngineSpec], [SelfPartsSpec], [SelfMultiSpec];
    - [Genome] (genome.py, genome_mutations.py, the record of feedback.py),
      [GenomeSpec]; [Campaign] (memory.py, orchestration.py,
      multi_generation.py), [CampaignSpec];
    - [Promotion] (governance_safety.py, promotion.py, promotion_audit.py),
      [PromotionSpec];
    - [Recombination] (recombination.py, population.py), [RecombinationSpec].

    Financial hardening ([product_factory/marketplace_financial_hardening/]):
    - [FinModels] (models.py), [FinLedger] (ledger.py), [FinPayments]
      (payments.py), [FinRefunds] (refunds.py), [FinControls] (tax.py, fraud.py,
      sla.py), [FinRecon] (reconciliation.py), [FinCompliance] (compliance.py),
      [FinEngine] (engine.py: the coordinator that shares one
      ledger among all of them).

    Settlement ([product_factory/marketplace_settlement/]):
    - [SetLedger] (models.py, ledger.py, reconciliation.py), [Settlement]
      (gateway.py, settlement.py, engine.py), [SettlementSpec]: what each method
      can do and the theorems.

    Governance ([constitutional_architecture/governance/]):
    - [GovModels] (schemas.py), [GovPolicy] (policy_compiler.py,
      exception_manager.py, compliance.py), [GovPolicySpec], [GovApproval]
      (approval_workflow.py), [GovKernel] (audit.py, kernel.py),
      [GovKernelSpec], [GovVoting] (voting.py), [GovEvidence] (the evidence
      recorder of audit.py);
    - [GovVersion] (versioning.py, with the laws of its two repositories),
      [GovVersionSpec]; [GovLineage] (constitution.py, lineage.py and the
      theorems on them).

    API service ([autonomous-api/app/]): [Lease] (storage/lease.py), [RateLimit]
    (middleware/rate_limit.py), [KillSwitch] (core/governance/audit.py,
    core/runtime_control.py).

    ** What the theorems show

    Governance.  A decision of the compliance engine is a function of the
    matching rules, given by a reference definition (denials, evidence,
    approvals, constraints, in this order); exception uses stay within their
    bound; approval records are decided at most once and [approve] allows
    exactly when every requirement is met; the audit chain verifies after any
    sequence of kernel calls and is tamper evident as far as the digest has no
    collision; a vote approves exactly when every stage passes its rule, and
    does not depend on the order of the ballots.  The version store on a file
    refines the one in memory; a constitution has at most one ratified head
    after any calls, unless a write fails between the two of a ratification;
    recorded constitutions do not change but in their status; the chain of
    origins terminates with a trace.  Finalizing a refused evaluation turns it
    into ALLOW, approvers of a stage are not checked, and a late second ballot
    can stop a vote: these are stated as the code behaves.

    Representation.  A loaded ISR is well formed, survives a round trip, and a
    saved one loads again exactly when no event is without a pattern; snapshots
    are found under the hash they were saved by; the common ancestor of two
    versions is the nearest on both chains; validation is correct against
    reachability, cycles and the table of connections.  Graphs built by the
    mutators are consistent; search, topological sort, cycle detection and path
    finding are correct and complete against walks in the graph; several
    operations of operations.py always raise.

    Evolution engine.  Production of a generation terminates and fills it; a run
    of an initialised engine, for adapters and operators that return, makes all
    its generations and raises nothing but an overflow of [**]; with an evaluation that is a function of
    the ISR the best fitness never decreases; selection gives members of the
    population and a tournament its best contestant; the front of a generation
    is exactly the individuals nobody outperforms; the best fitness ever bounds
    every population seen; adapted weights and compatibilities stay within their
    bounds; ancestors are exactly the recorded individuals that parent links
    lead to.  Speciation never puts two individuals together, no mutation is
    ever counted and the refinement phase cannot be reached.  The graph of an ISR
    is well typed and a forest; going back to an ISR and forth again gives the
    graph restricted to what an ISR can hold; an operator that adds keeps a graph
    well typed; dependency depth is the length of the longest chain.

    Self-evolution.  Every call makes the one move of an abstract life cycle that
    is given for it, with its event, or leaves no trace; over any sequence of calls
    a promoted candidate was verified, evaluated and allowed by the governance
    decision on record; with the default parts (and digests without collision) it
    keeps the API names of the base unless breaking changes were asked for, and a
    valid report says exactly that the candidate is compatible; a mutation changes
    the entries it names, appends its record and fills in a missing governance
    design, and nothing else.  The candidate a selection picks becomes the last of
    its proposal, with its valid verification and passing fitness; a round of the
    evaluation always gives a record, whose reasons are those of the first part that
    was not content or raised.  A campaign keeps API names through all its
    generations, always comes to its end whatever the parts do, and its elites are
    earned.  A promotion request that was promoted was cleared by safety and by
    governance; the audited engine refines the engine, and its trail is tamper
    evident as far as the digest has no collision.  Generation of
    mutations takes the best genes, refinement keeps the genes it does not name.
    The children of a block crossover take every block from one of the parents, a
    domain crossover keeps the API names of named documents, an engine's offspring
    have distinct ids, and the selection of diverse candidates is greedy and ends
    with as many as asked for.  Guided by a genome, recombination loses the
    inactive families, and an offspring registered with an approved proposal is
    promoted with the reports of another candidate: stated as the code behaves.

    Pareto selection terminates in layers, respects dominance and size limits;
    the lease is exclusive until released and released on every exit of its
    scope; the limiter is a sliding window in bounded storage; the kill switch
    refines a boolean as long as its chain is intact and fails closed else.

    Settlement.  Over any sequence of calls a batch keeps all its amounts, moves
    only along its status graph, is paid at most once, and payouts and
    SETTLEMENT entries agree with the batches; execution is guarded by approval
    and reconciliation; ingestion books the first bookable event of each key.
    Two drafts over one period are both paid, an executed settlement makes the
    next reconciliation fail, and the negative-settlement flag has no effect.

    Financial hardening.  Ledger keys stay unique, webhooks and refund requests
    are idempotent, refunds follow their life cycle, reconciliation is healthy
    exactly when nothing mismatches, certification is sound; with the
    behaviours around thresholds, taxes and excess refunds stated as they are.

    Theorems over "any sequence of calls" are by induction on the reflexive
    transitive closure of a call relation, one constructor per method, with
    every argument, answer of a port and exception.  The calls that create an
    object assume its new id is not in use, which is what uuid4 documents.  Digests
    are of documents with their keys sorted: where digests matter, no collision
    means the same document up to the order of keys ([DigestLaws] of [SelfModels],
    or a hypothesis about the events of two chains only).

    ** Fuel

    Loops with a work list carry fuel that is proved sufficient: bfs runs with
    one more step than there are edges, dfs with one more than one more than
    nodes, topological_sort with the number of nodes, detect_cycles with
    one more than the nodes of the order, find_path with one more than the edges
    (and one more than the parents for reading the path back), get_subgraph with
    one more than the edges; the ancestors of a change with one more than the
    links, of a version with one more than the records, of an individual with
    one more than the parent links; the fronts of a Pareto sort with one more
    than the candidates; the production of a generation with the size of the
    population; the visit of dependencies in verification.py with one more than
    the services; the walk of a crossover over the owned nodes with one more than
    the edges.  All other loops are structural.

    ** Not modelled

    FastAPI routes (api.py of both marketplaces); the coercion of untyped JSON
    by NoopPaymentAdapter.normalize_event, NoopTaxAdapter.calculate_tax and
    PolicyCompiler.compile_rule; find_nodes_by_label (Unicode lower-casing) and
    non-ASCII letters in case changes; Python's recursion limit; evidence
    signing (a third-party package); FitnessVector.add and delta (the order of a
    set); handlers subscribed to the event bus; saving and loading of the
    adaptive weights; compilers and code generators, whose output is text;
    the engines of [evolution/] around feedback, compilers, analytics and
    observability, and its routes; everything outside the packages named above.
    [sum] of floats adds from the left with one rounding per step, as before
    CPython 3.12, where it compensates. *)

From Stdlib Require Export ZArith Lia Bool.
From stdpp Require Export base tactics list strings gmap sorting.

#[export] Set Default Goal Selector "!".

(* ------------------------------------------------------------------ *)
(** ** Exceptions and the state-and-exception monad                     *)
(* ------------------------------------------------------------------ *)

(** The exception classes the modelled code raises, with their message. *)
Inductive exn : Set :=
| ValueError (msg : string)
| KeyError (msg : string)
| PermissionError (msg : string)
| RuntimeError (msg : string)
| IndexError (msg : string)
| VotingError (msg : string)
| AttributeError (msg : string)
| PlainException (msg : string)
| ControlPlaneBusy (msg : string)
| TypeError (msg : string)
| OverflowError (msg : string)
| VersioningError (msg : string)
| OSError (msg : string)
| ZeroDivisionError (msg : string)
| InvalidStateError (msg : string)
| ProposalNotFoundError (msg : string)
| MutationError (msg : string)
| PromotionError (msg : string)
| RecursionError.

#[export] Instance exn_eq_dec : EqDecision exn.
Proof. solve_decision. Defined.

(** [str(exc)]; a KeyError shows its message quoted. *)
Definition exn_text (e : exn) : string :=
  match e with
  | ValueError m | PermissionError m | RuntimeError m | IndexError m | VotingError m
  | AttributeError m | PlainException m | ControlPlaneBusy m | TypeError m | OverflowError m
  | VersioningError m | OSError m | ZeroDivisionError m
  | InvalidStateError m | ProposalNotFoundError m | MutationError m | PromotionError m => m
  | KeyError m => "'" +:+ m +:+ "'"
  | RecursionError => "maximum recursion depth exceeded"
  end.

(** The outcome of a call: a value, or the exception that left it. *)
Inductive res (A : Type) : Type :=
| Ok (a : A)
| Raise (e : exn).
Arguments Ok {A} a.
Arguments Raise {A} e.

Definition is_ok {A} (r : res A) : bool :=
  match r with Ok _ => true | Raise _ => false end.

#[export] Instance res_ret : MRet res := fun A a => Ok a.
#[export] Instance res_bind : MBind res := fun A B f r =>
  match r with Ok a => f a | Raise e => Raise e end.
#[export] Instance res_fmap : FMap res := fun A B f r =>
  match r with Ok a => Ok (f a) | Raise e => Raise e end.

(** A method body: it reads and updates the object's state, and what it
    wrote before raising stays written. *)
Definition M (S A : Type) : Type := S -> res A * S.

#[export] Instance M_ret S : MRet (M S) := fun A a s => (Ok a, s).
#[export] Instance M_bind S : MBind (M S) := fun A B f m s =>
  match m s with
  | (Ok a, s') => f a s'
  | (Raise e, s') => (Raise e, s')
  end.

Definition raise {S A} (e : exn) : M S A := fun s => (Raise e, s).
Definition gets {S A} (f : S -> A) : M S A := fun s => (Ok (f s), s).
Definition modify {S} (f : S -> S) : M S unit := fun s => (Ok tt, f s).
Definition when {S} (b : bool) (m : M S unit) : M S unit :=
  if b then m else mret tt.
Definition lift_res {S A} (r : res A) : M S A := fun s => (r, s).

(** Run a method of a part of the state (an attribute that is an object). *)
Definition zoom {S C A} (get : S -> C) (put : C -> S -> S) (m : M C A) : M S A :=
  fun s => match m (get s) with (r, c) => (r, put c s) end.

(** The exception handler [try: m except Exception as e: h e]. *)
Definition try_catch {S A} (m : M S A) (h : exn -> M S A) : M S A := fun s =>
  match m s with
  | (Ok a, s') => (Ok a, s')
  | (Raise e, s') => h e s'
  end.

(** [for x in xs: body x]. *)
Fixpoint for_each {S A} (xs : list A) (body : A -> M S unit) : M S unit :=
  match xs with
  | [] => mret tt
  | x :: rest => body x ≫= fun _ => for_each rest body
  end.

Definition result_of {S A} (p : res A * S) : res A := p.1.
Definition state_of {S A} (p : res A * S) : S := p.2.

Lemma M_bind_Ok {S A B} (m : M S A) (f : A -> M S B) s a s' :
  m s = (Ok a, s') -> (m ≫= f) s = f a s'.
Proof. unfold mbind, M_bind. by intros ->. Qed.

Lemma M_bind_Raise {S A B} (m : M S A) (f : A -> M S B) s e s' :
  m s = (Raise e, s') -> (m ≫= f) s = (Raise e, s').
Proof. unfold mbind, M_bind. by intros ->. Qed.

Lemma M_bind_inv {S A B} (m : M S A) (f : A -> M S B) s b s' :
  (m ≫= f) s = (Ok b, s') -> exists a s1, m s = (Ok a, s1) /\ f a s1 = (Ok b, s').
Proof.
  unfold mbind, M_bind. destruct (m s) as [[a|e] s1] eqn:E; intros H; [eauto|discriminate].
Qed.

(** [keeps I m]: the method [m] preserves the invariant [I], however it ends. *)
Definition keeps {S A} (I : S -> Prop) (m : M S A) : Prop := forall s, I s -> I (m s).2.

Lemma keeps_ret {S A} (I : S -> Prop) (a : A) : keeps I (mret a).
Proof. intros s. done. Qed.
Lemma keeps_raise {S A} (I : S -> Prop) e : keeps I (raise (A := A) e).
Proof. intros s. done. Qed.
Lemma keeps_gets {S A} (I : S -> Prop) (f : S -> A) : keeps I (gets f).
Proof. intros s. done. Qed.
Lemma keeps_lift {S A} (I : S -> Prop) (r : res A) : keeps I (lift_res r).
Proof. intros s. done. Qed.
Lemma keeps_modify {S} (I : S -> Prop) (f : S -> S) :
  (forall s, I s -> I (f s)) -> keeps I (modify f).
Proof. intros Hf s. apply Hf. Qed.
Lemma keeps_bind {S A B} (I : S -> Prop) (m : M S A) (f : A -> M S B) :
  keeps I m -> (forall a, keeps I (f a)) -> keeps I (m ≫= f).
Proof.
  intros Hm Hf s Hs. unfold mbind, M_bind. specialize (Hm s Hs).
  destruct (m s) as [[a|e] s1]; [by apply Hf|done].
Qed.
Lemma keeps_when {S} (I : S -> Prop) (b : bool) m : keeps I m -> keeps I (when b m).
Proof. intros Hm. destruct b; [done|apply keeps_ret]. Qed.
Lemma keeps_for_each {S A} (I : S -> Prop) (xs : list A) body :
  (forall x, keeps I (body x)) -> keeps I (for_each xs body).
Proof.
  intros Hb. induction xs as [|x xs IH]; [apply keeps_ret|]. apply keeps_bind; auto.
Qed.
Lemma keeps_if {S A} (I : S -> Prop) (b : bool) (m1 m2 : M S A) :
  keeps I m1 -> keeps I m2 -> keeps I (if b then m1 else m2).
Proof. by destruct b. Qed.
Lemma keeps_zoom {S C A} (I : S -> Prop) (J : C -> Prop) get put (m : M C A) :
  (forall s, I s -> J (get s)) -> (forall c s, J c -> I s -> I (put c s)) -> keeps J m ->
  keeps I (zoom get put m).
Proof.
  intros Hg Hp Hm s Hs. unfold zoom. specialize (Hm (get s) (Hg s Hs)).
  destruct (m (get s)) as [r c]. by apply Hp.
Qed.

Create HintDb keeps.
#[export] Hint Resolve keeps_ret keeps_raise keeps_gets keeps_lift keeps_bind keeps_when
  keeps_for_each keeps_if : keeps.

(** Decompose a method body along its binds and branches. *)
Ltac keeps_steps :=
  repeat match goal with
  | |- forall _, _ => intro
  | |- keeps _ (mret _) => apply keeps_ret
  | |- keeps _ (raise _) => apply keeps_raise
  | |- keeps _ (gets _) => apply keeps_gets
  | |- keeps _ (lift_res _) => apply keeps_lift
  | |- keeps _ (when _ _) => apply keeps_when
  | |- keeps _ (_ ≫= _) => apply keeps_bind
  | |- keeps _ (if _ then _ else _) => apply keeps_if
  | |- keeps _ (match ?x with _ => _ end) => destruct x
  | |- keeps _ _ => progress cbv zeta
  end.

Ltac unfold_monad :=
  unfold mbind, M_bind, mret, M_ret, res_ret, res_bind, fmap, res_fmap,
    raise, gets, modify, when, lift_res, zoom in *; cbn beta iota in *.

(* ------------------------------------------------------------------ *)
(** ** Tactics                                                          *)
(* ------------------------------------------------------------------ *)

(** Case analysis on the scrutinee of a match of the goal or of a
    hypothesis, keeping the equation. *)
Ltac case_goal :=
  match goal with
  | |- context [match ?x with _ => _ end] =>
      lazymatch x with context [match _ with _ => _ end] => fail | _ => idtac end;
      let E := fresh "E" in destruct x eqn:E
  end.
Ltac case_hyp H :=
  match type of H with
  | context [match ?x with _ => _ end] =>
      lazymatch x with context [match _ with _ => _ end] => fail | _ => idtac end;
      let E := fresh "E" in destruct x eqn:E
  end.

(** Turn boolean equations of the context into propositions. *)
Ltac bool_hyps :=
  repeat match goal with
  | H : _ && _ = true |- _ => apply andb_true_iff in H; destruct H
  | H : _ || _ = false |- _ => apply orb_false_iff in H; destruct H
  | H : negb _ = true |- _ => apply negb_true_iff in H
  | H : negb _ = false |- _ => apply negb_false_iff in H
  | H : bool_decide _ = true |- _ => apply bool_decide_eq_true_1 in H
  | H : bool_decide _ = false |- _ => apply bool_decide_eq_false_1 in H
  end.

(* ------------------------------------------------------------------ *)
(** ** Truthiness of strings and optional strings                       *)
(* ------------------------------------------------------------------ *)

Definition truthy (s : string) : bool :=
  match s with EmptyString => false | _ => true end.

Definition otruthy (o : option string) : bool :=
  match o with Some s => truthy s | None => false end.

(** [a or b] on optional strings, and [o or ""]. *)
Definition oor (a b : option string) : option string := if otruthy a then a else b.
Definition or_empty (o : option string) : string :=
  match o with Some s => s | None => EmptyString end.

Lemma truthy_false s : truthy s = false <-> s = EmptyString.
Proof. by destruct s. Qed.

Lemma otruthy_true o : otruthy o = true <-> exists s, o = Some s /\ s <> EmptyString.
Proof.
  destruct o as [[|a s]|]; simpl; split; try done.
  - by intros (s & [= <-] & ?).
  - intros _. eexists; split; [done|done].
  - by intros (s & ? & ?).
Qed.

(* ------------------------------------------------------------------ *)
(** ** Dictionaries in insertion order                                  *)
(* ------------------------------------------------------------------ *)

(** A dict is the list of its items in insertion order: assigning to a key
    that is present keeps its position, a new key goes to the end. *)
Section PyDict.
Context {K V : Type} `{EqDecision K}.
Implicit Types (d : list (K * V)) (k : K) (v : V).

Fixpoint dget k d : option V :=
  match d with
  | [] => None
  | (k', v') :: d' => if decide (k = k') then Some v' else dget k d'
  end.

Fixpoint dset k v d : list (K * V) :=
  match d with
  | [] => [(k, v)]
  | (k', v') :: d' =>
      if decide (k = k') then (k', v) :: d' else (k', v') :: dset k v d'
  end.

Fixpoint ddel k d : list (K * V) :=
  match d with
  | [] => []
  | (k', v') :: d' => if decide (k = k') then d' else (k', v') :: ddel k d'
  end.

Definition dmem k d : bool := match dget k d with Some _ => true | None => false end.
Definition dkeys d : list K := map fst d.
Definition dvalues d : list V := map snd d.
Definition dget_or k d v : V := match dget k d with Some v' => v' | None => v end.

(** The representation invariant: no key twice. *)
Definition dict_ok d : Prop := NoDup (dkeys d).

Lemma dkeys_app d1 d2 : dkeys (d1 ++ d2) = dkeys d1 ++ dkeys d2.
Proof. apply map_app. Qed.

Lemma dvalues_app d1 d2 : dvalues (d1 ++ d2) = dvalues d1 ++ dvalues d2.
Proof. apply map_app. Qed.

Lemma dget_dset k k' v d :
  dget k' (dset k v d) = if decide (k' = k) then Some v else dget k' d.
Proof.
  induction d as [|[k0 v0] d IH]; simpl.
  - repeat case_decide; done.
  - destruct (decide (k = k0)) as [->|Hne]; simpl.
    + repeat case_decide; done.
    + rewrite IH. repeat case_decide; congruence.
Qed.

Lemma dget_dset_eq k v d : dget k (dset k v d) = Some v.
Proof. rewrite dget_dset. by rewrite decide_True. Qed.

Lemma dget_dset_ne k k' v d : k' <> k -> dget k' (dset k v d) = dget k' d.
Proof. intros. rewrite dget_dset. by rewrite decide_False. Qed.

Lemma dget_elem k v d : dget k d = Some v -> (k, v) ∈ d.
Proof.
  induction d as [|[k0 v0] d IH]; simpl; [done|].
  case_decide; intros; simplify_eq; [left|right; auto].
Qed.

Lemma dget_None k d : dget k d = None <-> k ∉ dkeys d.
Proof.
  induction d as [|[k0 v0] d IH]; simpl; [set_solver|].
  case_decide; subst; [set_solver|]. rewrite IH. set_solver.
Qed.

Lemma dget_Some_key k v d : dget k d = Some v -> k ∈ dkeys d.
Proof. intros H%dget_elem. by apply (list_elem_of_fmap_2 fst) in H. Qed.

Lemma elem_dget k v d : dict_ok d -> (k, v) ∈ d -> dget k d = Some v.
Proof.
  unfold dict_ok. induction d as [|[k0 v0] d IH]; simpl; [set_solver|].
  rewrite NoDup_cons, elem_of_cons. intros [Hn Hd] [E|E].
  - simplify_eq. by rewrite decide_True.
  - rewrite decide_False; [auto|]. intros ->. apply Hn.
    by apply (list_elem_of_fmap_2 fst) in E.
Qed.

Lemma dkeys_dset_in k v d : k ∈ dkeys d -> dkeys (dset k v d) = dkeys d.
Proof.
  induction d as [|[k0 v0] d IH]; simpl; [set_solver|]. rewrite elem_of_cons.
  intros H. case_decide; simpl; [done|]. f_equal. naive_solver.
Qed.

Lemma dset_fresh k v d : k ∉ dkeys d -> dset k v d = d ++ [(k, v)].
Proof.
  induction d as [|[k0 v0] d IH]; simpl; [done|]. intros H.
  rewrite decide_False by set_solver. f_equal. set_solver.
Qed.

Lemma dset_dset k v v' d : dset k v' (dset k v d) = dset k v' d.
Proof.
  induction d as [|[k0 v0] d IH]; simpl; [by rewrite decide_True|].
  case_decide; simpl; [by rewrite decide_True|]. by rewrite decide_False, IH.
Qed.

Lemma dkeys_dset_fresh k v d : k ∉ dkeys d -> dkeys (dset k v d) = dkeys d ++ [k].
Proof. intros. rewrite dset_fresh by done. unfold dkeys. by rewrite map_app. Qed.

Lemma dset_ok k v d : dict_ok d -> dict_ok (dset k v d).
Proof.
  unfold dict_ok. intros H. destruct (dget k d) eqn:E.
  - by rewrite dkeys_dset_in by eauto using dget_Some_key.
  - apply dget_None in E. rewrite dkeys_dset_fresh by done.
    apply NoDup_app. split_and!; [done|set_solver|by apply NoDup_singleton].
Qed.

Lemma elem_dkeys_dset k k' v d : k' ∈ dkeys (dset k v d) <-> k' = k \/ k' ∈ dkeys d.
Proof.
  destruct (dget k d) eqn:E.
  - apply dget_Some_key in E. rewrite dkeys_dset_in by done. set_solver.
  - apply dget_None in E. rewrite dkeys_dset_fresh by done. set_solver.
Qed.

Lemma dict_ok_nil : dict_ok [].
Proof. constructor. Qed.

Lemma dmem_true k d : dmem k d = true <-> k ∈ dkeys d.
Proof.
  unfold dmem. destruct (dget k d) eqn:E.
  - apply dget_Some_key in E. done.
  - apply dget_None in E. done.
Qed.

Lemma dmem_false k d : dmem k d = false <-> k ∉ dkeys d.
Proof. rewrite <- not_true_iff_false. by rewrite dmem_true. Qed.

Lemma dget_dmem k d v : dget k d = Some v -> dmem k d = true.
Proof. unfold dmem. by intros ->. Qed.

Lemma dvalues_dset_fresh k v d :
  k ∉ dkeys d -> dvalues (dset k v d) = dvalues d ++ [v].
Proof. intros. rewrite dset_fresh by done. unfold dvalues. by rewrite map_app. Qed.

Lemma elem_dvalues v d : v ∈ dvalues d <-> exists k, (k, v) ∈ d.
Proof.
  unfold dvalues. rewrite list_elem_of_fmap. split.
  - intros ([k v'] & -> & H). eauto.
  - intros [k H]. by exists (k, v).
Qed.

(** Assigning to a present key replaces its value where it stands. *)
Lemma dset_update k v d :
  k ∈ dkeys d -> dict_ok d ->
  dset k v d = map (fun p => if decide (p.1 = k) then (p.1, v) else p) d.
Proof.
  unfold dict_ok. induction d as [|[k0 v0] d IH]; simpl; [set_solver|].
  rewrite NoDup_cons, elem_of_cons. intros Hin [Hn Hd].
  destruct (decide (k = k0)) as [->|Hne].
  - rewrite decide_True by done. f_equal.
    rewrite (map_ext_in _ id); [by rewrite map_id|]. intros [k1 v1] H1%list_elem_of_In.
    apply (list_elem_of_fmap_2 fst) in H1. simpl in *. rewrite decide_False; [done|].
    by intros ->.
  - rewrite decide_False by congruence. f_equal. naive_solver.
Qed.

(** A dict comprehension [{k: f(k) for k in ks}] over distinct keys. *)
Definition dtable (f : K -> V) (ks : list K) : list (K * V) := map (fun k => (k, f k)) ks.

Lemma dkeys_dtable f ks : dkeys (dtable f ks) = ks.
Proof. unfold dkeys, dtable. by rewrite map_map, map_id. Qed.

Lemma dget_dtable f ks k : k ∈ ks -> dget k (dtable f ks) = Some (f k).
Proof.
  induction ks as [|k' ks IH]; simpl; [set_solver|]. rewrite elem_of_cons.
  case_decide; subst; [done|]. intros [|]; [done|auto].
Qed.

Lemma dget_dtable_None f ks k : k ∉ ks -> dget k (dtable f ks) = None.
Proof. intros. apply dget_None. by rewrite dkeys_dtable. Qed.

Lemma dtable_ext f f' ks : (forall k, k ∈ ks -> f k = f' k) -> dtable f ks = dtable f' ks.
Proof.
  intros H. apply map_ext_in. intros k Hk. f_equal. apply H. by apply list_elem_of_In.
Qed.

Lemma dset_dtable f ks k v :
  k ∈ ks -> NoDup ks ->
  dset k v (dtable f ks) = dtable (fun k' => if decide (k' = k) then v else f k') ks.
Proof.
  intros Hk Hnd. rewrite dset_update;
    [|by rewrite dkeys_dtable|unfold dict_ok; by rewrite dkeys_dtable].
  unfold dtable. rewrite map_map. apply map_ext. intros k'. simpl. by case_decide; subst.
Qed.
Lemma dkeys_ddel k k' d : k' ∈ dkeys (ddel k d) -> k' ∈ dkeys d.
Proof.
  induction d as [|[k0 v0] d IH]; simpl; [done|]. case_decide; simpl; [by right|].
  rewrite !elem_of_cons. naive_solver.
Qed.

Lemma ddel_ok k d : dict_ok d -> dict_ok (ddel k d).
Proof.
  unfold dict_ok. induction d as [|[k0 v0] d IH]; simpl; [done|]. rewrite NoDup_cons.
  intros [Hn Hd]. case_decide; [done|]. simpl. apply NoDup_cons. split; [|auto].
  intros Hin. by apply Hn, (dkeys_ddel k).
Qed.

Lemma dget_ddel k k' d : dict_ok d ->
  dget k' (ddel k d) = if decide (k' = k) then None else dget k' d.
Proof.
  unfold dict_ok. induction d as [|[k0 v0] d IH]; simpl; [by case_decide|].
  rewrite NoDup_cons. intros [Hn Hd]. destruct (decide (k = k0)) as [->|Hne]; simpl.
  - destruct (decide (k' = k0)) as [->|]; [by apply dget_None|done].
  - rewrite IH by done. destruct (decide (k' = k0)) as [->|]; [by rewrite decide_False|done].
Qed.
End PyDict.

#[export] Instance: Params (@dget) 3 := {}.

Create HintDb pydict.
#[export] Hint Resolve dset_ok dict_ok_nil dget_dset_eq : pydict.

(* ------------------------------------------------------------------ *)
(** ** Lists: membership tests, counting, sorting                       *)
(* ------------------------------------------------------------------ *)

Section PyList.
Context {A : Type}.
Implicit Types (l : list A).

(** [x in l]. *)
Definition mem `{EqDecision A} (x : A) l : bool := bool_decide (x ∈ l).

Lemma mem_true `{EqDecision A} x l : mem x l = true <-> x ∈ l.
Proof. apply bool_decide_eq_true. Qed.
Lemma mem_false `{EqDecision A} x l : mem x l = false <-> x ∉ l.
Proof. apply bool_decide_eq_false. Qed.

Lemma filter_none (p : A -> bool) l : (forall x, x ∈ l -> p x = false) -> List.filter p l = [].
Proof.
  induction l as [|x l IH]; intros Hp; [done|]. simpl. rewrite Hp by (by left).
  apply IH. intros y Hy. apply Hp. by right.
Qed.
Lemma filter_all (p : A -> bool) l : (forall x, x ∈ l -> p x = true) -> List.filter p l = l.
Proof.
  induction l as [|x l IH]; intros Hp; [done|]. simpl. rewrite Hp by (by left). f_equal.
  apply IH. intros y Hy. apply Hp. by right.
Qed.

(** [sorted(l, key=...)] is stable; inserting every element, the last one
    first, in front of the elements that are not smaller, is such a sort. *)
Fixpoint insert_by (leb : A -> A -> bool) x l : list A :=
  match l with
  | [] => [x]
  | y :: l' => if leb x y then x :: l else y :: insert_by leb x l'
  end.

Fixpoint sort_by (leb : A -> A -> bool) l : list A :=
  match l with
  | [] => []
  | x :: l' => insert_by leb x (sort_by leb l')
  end.

Lemma insert_by_perm leb x l : insert_by leb x l ≡ₚ x :: l.
Proof.
  induction l as [|y l IH]; simpl; [done|]. destruct (leb x y); [done|].
  rewrite IH. constructor.
Qed.

Lemma sort_by_perm leb l : sort_by leb l ≡ₚ l.
Proof. induction l as [|x l IH]; simpl; [done|]. by rewrite insert_by_perm, IH. Qed.

Lemma sort_by_elem leb x l : x ∈ sort_by leb l <-> x ∈ l.
Proof. by rewrite sort_by_perm. Qed.

Section Total.
Context (leb : A -> A -> bool).
Context (leb_total : forall x y, leb x y = false -> leb y x = true).

Lemma insert_by_sorted x l :
Sorted (fun a b => leb a b = true) l ->
Sorted (fun a b => leb a b = true) (insert_by leb x l).
Proof.
induction 1 as [|y l Hs IH Hhd]; simpl; [auto|].
destruct (leb x y) eqn:E; [auto|].
constructor; [done|]. destruct l as [|z l]; simpl in *; [auto|].
destruct (leb x z); auto. inversion Hhd; subst. auto.
Qed.

Lemma sort_by_sorted l : Sorted (fun a b => leb a b = true) (sort_by leb l).
Proof. induction l; simpl; auto using insert_by_sorted. Qed.

(** Two permutations of a list sort to the same list when the order is
  antisymmetric on it. *)
Lemma sort_by_permutation l1 l2 :
(forall x y z, leb x y = true -> leb y z = true -> leb x z = true) ->
(forall x y, x ∈ l1 -> y ∈ l1 -> leb x y = true -> leb y x = true -> x = y) ->
l1 ≡ₚ l2 -> sort_by leb l1 = sort_by leb l2.
Proof.
intros Htr Hanti HP.
assert (HP' : sort_by leb l1 ≡ₚ sort_by leb l2) by (by rewrite !sort_by_perm).
pose proof (sort_by_sorted l1) as S1. pose proof (sort_by_sorted l2) as S2.
apply Sorted_StronglySorted in S1, S2; [|by intros ???; eauto..].
assert (Hanti' : forall x y, x ∈ sort_by leb l1 -> y ∈ sort_by leb l1 ->
          leb x y = true -> leb y x = true -> x = y).
{ intros x y. rewrite !sort_by_elem. apply Hanti. }
revert HP' S1 S2 Hanti'. generalize (sort_by leb l1) (sort_by leb l2).
clear. intros l1. induction l1 as [|x l1 IH]; intros [|y l2] HP S1 S2 Ha.
- done.
- by apply Permutation_nil_l in HP.
- symmetry in HP. by apply Permutation_nil_l in HP.
- apply StronglySorted_inv in S1 as [S1 F1]. apply StronglySorted_inv in S2 as [S2 F2].
  rewrite Forall_forall in F1, F2.
  assert (x = y) as ->.
  { assert (Hx : x ∈ y :: l2) by (rewrite <- HP; left).
    assert (Hy : y ∈ x :: l1) by (rewrite HP; left).
    apply elem_of_cons in Hx as [->|Hx]; [done|].
    pose proof Hy as Hy'. apply elem_of_cons in Hy as [->|Hy]; [done|].
    apply Ha; [left|done|by apply F1|by apply F2]. }
  f_equal. apply IH; [by eapply Permutation.Permutation_cons_inv|done|done|].
  intros; apply Ha; set_solver.
Qed.
End Total.
End PyList.

(** [any(...)] and [all(...)] over a list are [existsb] and [forallb]. *)

(** The code-point order of strings, which Python's [<] uses. *)
Definition str_leb (a b : string) : bool :=
  match String.compare a b with Gt => false | _ => true end.
Definition str_ltb (a b : string) : bool :=
  match String.compare a b with Lt => true | _ => false end.

(** Lexicographic order of pairs of strings (tuple comparison). *)
Definition pair_leb (a b : string * string) : bool :=
  match String.compare a.1 b.1 with
  | Lt => true
  | Eq => str_leb a.2 b.2
  | Gt => false
  end.

Lemma string_compare_refl s : String.compare s s = Eq.
Proof.
  induction s as [|c s IH]; simpl; [done|]. unfold Ascii.compare. by rewrite N.compare_refl.
Qed.

Lemma string_compare_trans s1 s2 s3 :
  String.compare s1 s2 = Lt -> String.compare s2 s3 = Lt -> String.compare s1 s3 = Lt.
Proof.
  revert s2 s3. induction s1 as [|c1 s1 IH]; intros [|c2 s2] [|c3 s3]; simpl; try done.
  destruct (Ascii.compare c1 c2) eqn:E12; [apply Ascii.compare_eq_iff in E12 as ->| |done].
  - destruct (Ascii.compare c2 c3); [apply IH|done|done].
  - destruct (Ascii.compare c2 c3) eqn:E23; [apply Ascii.compare_eq_iff in E23 as ->; by rewrite E12| |done].
    intros _ _. unfold Ascii.compare in *.
    apply N.compare_lt_iff in E12, E23.
    assert (N.compare (Ascii.N_of_ascii c1) (Ascii.N_of_ascii c3) = Lt) as ->; [|done].
    apply N.compare_lt_iff. by eapply N.lt_trans.
Qed.
Lemma str_leb_total a b : str_leb a b = false -> str_leb b a = true.
Proof. unfold str_leb. rewrite (String.compare_antisym b a). by destruct (String.compare a b). Qed.
Lemma str_leb_refl a : str_leb a a = true.
Proof. unfold str_leb. by rewrite string_compare_refl. Qed.
Lemma str_leb_trans a b c : str_leb a b = true -> str_leb b c = true -> str_leb a c = true.
Proof.
  unfold str_leb. destruct (String.compare a b) eqn:E1; [apply String.compare_eq_iff in E1 as ->; done| |done].
  destruct (String.compare b c) eqn:E2; [apply String.compare_eq_iff in E2 as ->; by rewrite E1| |done].
  by rewrite (string_compare_trans a b c).
Qed.

(** * Weakest preconditions of method bodies

    [wp m Q E s]: run from [s], [m] ends with a value and a state in [Q], or with
    an exception and a state in [E].  The rules follow the way bodies are
    composed; [post] gives the postcondition with nothing said about exceptions. *)

Section Wp.
Context {S : Type}.
Implicit Types (s : S).

Definition wp {A} (m : M S A) (Q : A -> S -> Prop) (E : exn -> S -> Prop) s : Prop :=
  match m s with (Ok a, s') => Q a s' | (Raise e, s') => E e s' end.

Lemma wp_ret {A} (a : A) (Q : A -> S -> Prop) (E : exn -> S -> Prop) s : Q a s -> wp (mret a) Q E s.
Proof. done. Qed.
Lemma wp_raise {A} e (Q : A -> S -> Prop) (E : exn -> S -> Prop) s : E e s -> wp (raise e) Q E s.
Proof. done. Qed.
Lemma wp_gets {A} (f : S -> A) (Q : A -> S -> Prop) (E : exn -> S -> Prop) s :
  Q (f s) s -> wp (gets f) Q E s.
Proof. done. Qed.
Lemma wp_modify (f : S -> S) (Q : unit -> S -> Prop) (E : exn -> S -> Prop) s :
  Q tt (f s) -> wp (modify f) Q E s.
Proof. done. Qed.
Lemma wp_bind {A B} (m : M S A) (f : A -> M S B) (Q : B -> S -> Prop) (E : exn -> S -> Prop) s :
  wp m (fun a s' => wp (f a) Q E s') E s -> wp (m ≫= f) Q E s.
Proof. unfold wp, mbind, M_bind. by destruct (m s) as [[a|e] s']. Qed.
Lemma wp_lift {A} (r : res A) (Q : A -> S -> Prop) (E : exn -> S -> Prop) s :
  (forall a, r = Ok a -> Q a s) -> (forall e, r = Raise e -> E e s) -> wp (lift_res r) Q E s.
Proof. unfold wp, lift_res. destruct r; auto. Qed.
Lemma wp_when (b : bool) m (Q : unit -> S -> Prop) (E : exn -> S -> Prop) s :
  (b = true -> wp m Q E s) -> (b = false -> Q tt s) -> wp (when b m) Q E s.
Proof. destruct b; [intros H _; by apply H|intros _ H; by apply H]. Qed.
Lemma wp_try {A} (m : M S A) h (Q : A -> S -> Prop) (E : exn -> S -> Prop) s :
  wp m Q (fun e s' => wp (h e) Q E s') s -> wp (try_catch m h) Q E s.
Proof. unfold wp, try_catch. by destruct (m s) as [[a|e] s']. Qed.
Lemma wp_mono {A} (m : M S A) (Q Q' : A -> S -> Prop) (E E' : exn -> S -> Prop) s :
  wp m Q E s -> (forall a s', Q a s' -> Q' a s') -> (forall e s', E e s' -> E' e s') -> wp m Q' E' s.
Proof. unfold wp. destruct (m s) as [[a|e] s']; auto. Qed.
Lemma wp_conj {A} (m : M S A) (Q Q' : A -> S -> Prop) (E E' : exn -> S -> Prop) s :
  wp m Q E s -> wp m Q' E' s -> wp m (fun a s => Q a s /\ Q' a s) (fun e s => E e s /\ E' e s) s.
Proof. unfold wp. destruct (m s) as [[a|e] s']; auto. Qed.

(** A method of a part of the state. *)
Lemma wp_zoom {C A} (get : S -> C) (put : C -> S -> S) (m : M C A) (Q : A -> S -> Prop)
    (E : exn -> S -> Prop) s :
  match m (get s) with (Ok a, c) => Q a (put c s) | (Raise e, c) => E e (put c s) end ->
  wp (zoom get put m) Q E s.
Proof. unfold wp, zoom. by destruct (m (get s)) as [[a|e] c]. Qed.

(** What holds of any run of the part, whatever its result. *)
Lemma wp_zoom_any {C A} (get : S -> C) (put : C -> S -> S) (m : M C A) (Q : A -> S -> Prop)
    (E : exn -> S -> Prop) s :
  (forall a c, m (get s) = (Ok a, c) -> Q a (put c s)) ->
  (forall e c, m (get s) = (Raise e, c) -> E e (put c s)) ->
  wp (zoom get put m) Q E s.
Proof. unfold wp, zoom. destruct (m (get s)) as [[a|e] c]; auto. Qed.

Lemma wp_run {A} (m : M S A) (Q : A -> S -> Prop) (E : exn -> S -> Prop) s a s' :
  wp m Q E s -> m s = (Ok a, s') -> Q a s'.
Proof. unfold wp. intros Hw E1. by rewrite E1 in Hw. Qed.
Lemma keeps_of_wp {A} (I : S -> Prop) (m : M S A) : (forall s, I s -> wp m (fun _ => I) (fun _ => I) s) -> keeps I m.
Proof. intros Hm s Hs. specialize (Hm s Hs). unfold wp in Hm. by destruct (m s) as [[a|x] s']. Qed.
End Wp.

(** Symbolic execution along the body. *)
Ltac wp_step :=
  lazymatch goal with
  | |- wp (mret _) _ _ _ => apply wp_ret
  | |- wp (raise _) _ _ _ => apply wp_raise
  | |- wp (gets _) _ _ _ => apply wp_gets
  | |- wp (modify _) _ _ _ => apply wp_modify
  | |- wp (_ ≫= _) _ _ _ => apply wp_bind
  | |- wp (lift_res _) _ _ _ => apply wp_lift; intros
  | |- wp (try_catch _ _) _ _ _ => apply wp_try
  | |- wp (when _ _) _ _ _ => apply wp_when; intros
  | |- wp (if ?b then _ else _) _ _ _ => destruct b eqn:?
  | |- wp (match ?x with _ => _ end) _ _ _ => destruct x eqn:?
  end.

(** * Walks and cycles of a finite relation

    Generic facts the traversals share: reachability, cycles, the pigeonhole
    argument that a finite set in which everything has a predecessor contains
    a cycle, and counting occurrences. *)

Section Walks.
Context {A : Type} (R : A -> A -> Prop).

(** [walk x l y]: going from [x] through the nodes [l] ends at [y]. *)
Fixpoint walk (x : A) (l : list A) (y : A) : Prop :=
  match l with
  | [] => x = y
  | z :: l' => R x z /\ walk z l' y
  end.

Lemma walk_rtc x l y : walk x l y -> rtc R x y.
Proof.
  revert x. induction l as [|z l IH]; simpl; intros x.
  - by intros ->.
  - intros [H1 H2]. eauto using rtc_l.
Qed.

Lemma walk_tc x l y : l <> [] -> walk x l y -> tc R x y.
Proof.
  destruct l as [|z l]; [done|]. intros _ [H1 H2%walk_rtc]. by eapply tc_rtc_r; [apply tc_once|].
Qed.

Lemma walk_app x l1 y l2 z : walk x l1 y -> walk y l2 z -> walk x (l1 ++ l2) z.
Proof.
  revert x. induction l1 as [|w l1 IH]; simpl; intros x; [by intros ->|].
  intros [H1 H2] H. auto.
Qed.

Lemma walk_snoc x l y z : walk x l y -> R y z -> walk x (l ++ [z]) z.
Proof. intros H Hr. eapply walk_app; [done|]. simpl. auto. Qed.

(** A closed set that contains the start contains what it reaches. *)
Lemma closed_reach (S : A -> Prop) x y :
  (forall a b, S a -> R a b -> S b) -> S x -> rtc R x y -> S y.
Proof. intros Hc Hx H. induction H; eauto. Qed.
End Walks.

Lemma not_NoDup_split {A} `{EqDecision A} (l : list A) :
  ~ NoDup l -> exists l1 x l2 l3, l = l1 ++ x :: l2 ++ x :: l3.
Proof.
  induction l as [|x l IH]; intros H; [destruct H; constructor|].
  destruct (decide (x ∈ l)) as [Hin|Hin].
  - apply list_elem_of_split in Hin as (l2 & l3 & ->). by exists [], x, l2, l3.
  - destruct IH as (l1 & y & l2 & l3 & ->).
    { intros Hn. apply H. by constructor. }
    by exists (x :: l1), y, l2, l3.
Qed.

Section Cycle.
Context {A : Type} `{EqDecision A} (R : A -> A -> Prop) (S : list A).
Context (Hpred : forall x, x ∈ S -> exists y, y ∈ S /\ R y x).

(** Going backwards, a walk of any length inside [S]. *)
Lemma long_walk n x :
  x ∈ S -> exists y l, length l = n /\ walk R y l x /\ y ∈ S /\ (forall z, z ∈ l -> z ∈ S).
Proof.
  induction n as [|n IH]; intros Hx.
  - exists x, []. simpl. split_and!; [done|done|done|]. intros z Hz. by apply elem_of_nil in Hz.
  - destruct (IH Hx) as (y & l & Hl & Hw & Hy & Hin). destruct (Hpred y Hy) as (z & Hz & Hr).
    exists z, (y :: l). simpl. split_and!; [by f_equal|done|done|done|].
    intros w [->|Hw']%elem_of_cons; auto.
Qed.

Lemma walk_split x l1 y l2 z : walk R x (l1 ++ y :: l2) z -> walk R y l2 z.
Proof. revert x. induction l1; simpl; intros x [? ?]; eauto. Qed.

Lemma walk_prefix x l1 y l2 z : walk R x (l1 ++ y :: l2) z -> walk R x (l1 ++ [y]) y.
Proof. revert x. induction l1; simpl; intros x [? ?]; eauto. Qed.

Lemma cycle_exists x : x ∈ S -> exists y, tc R y y.
Proof.
  intros Hx. destruct (long_walk (Datatypes.S (length S)) x Hx) as (y & l & Hl & Hw & _ & Hin).
  destruct (not_NoDup_split l) as (l1 & z & l2 & l3 & ->).
  - intros Hnd.
    assert (length l <= length S)%nat; [|lia]. apply submseteq_length.
    by apply NoDup_submseteq.
  - exists z. apply walk_split in Hw. apply walk_prefix in Hw.
    eapply (walk_tc R z (l2 ++ [z])); [by destruct l2|done].
Qed.
End Cycle.

(** [l.count(x)]. *)
Fixpoint count {A} `{EqDecision A} (x : A) (l : list A) : nat :=
  match l with
  | [] => 0
  | y :: l' => (if decide (y = x) then 1 else 0) + count x l'
  end.

Lemma count_zero {A} `{EqDecision A} (x : A) l : count x l = 0%nat <-> x ∉ l.
Proof.
  induction l as [|y l IH]; simpl; [set_solver|].
  rewrite not_elem_of_cons. case_decide; subst; [naive_solver lia|]. naive_solver.
Qed.

Lemma count_app {A} `{EqDecision A} (x : A) l1 l2 :
  count x (l1 ++ l2) = (count x l1 + count x l2)%nat.
Proof. induction l1; simpl; lia. Qed.

Lemma filter_length_split {A} (p q r : A -> bool) (l : list A) :
  (forall a, a ∈ l -> p a = q a || r a) -> (forall a, a ∈ l -> q a && r a = false) ->
  length (List.filter p l) = (length (List.filter q l) + length (List.filter r l))%nat.
Proof.
  induction l as [|a l IH]; simpl; intros Hor Hand; [done|].
  pose proof (Hor a ltac:(left)) as H1. pose proof (Hand a ltac:(left)) as H2.
  specialize (IH (fun b Hb => Hor b (list_elem_of_further _ _ _ Hb))
                 (fun b Hb => Hand b (list_elem_of_further _ _ _ Hb))).
  destruct (p a), (q a), (r a); simpl in *; try done; lia.
Qed.
