(* ===== verification/PyFloat.v ===== *)
(** * Python's float: IEEE 754 binary64, executable

    The numbers the code calls [float] are binary64 numbers, represented by
    the Standard Library's [spec_float] at precision 53 and maximal exponent
    1024, so every operation below rounds the way CPython's does.  The file
    gives the comparisons (false on NaN), the arithmetic, [float(n)], decimal
    literals, [round(x, n)] and [int(x)], then the order lemmas, the
    exactness of integer arithmetic below 2^53, and bounds of ratios. *)

From Stdlib Require Import SpecFloat.
From S2P Require Import Prelude.

Abbreviation float := spec_float.
#[local] Open Scope Z_scope.

Definition f_prec : Z := 53.
Definition f_emax : Z := 1024.

(** ** Operations *)

Definition fzero : float := S754_zero false.
Definition fadd (x y : float) : float := SFadd f_prec f_emax x y.
Definition fsub (x y : float) : float := SFsub f_prec f_emax x y.
Definition fmul (x y : float) : float := SFmul f_prec f_emax x y.
Definition fdiv (x y : float) : float := SFdiv f_prec f_emax x y.
Definition fopp (x : float) : float := SFopp x.
Definition fabs (x : float) : float := SFabs x.

(** [x < y], [x <= y], [x == y]; [x > y] is [fltb y x]. *)
Definition fltb (x y : float) : bool := SFltb x y.
Definition fleb (x y : float) : bool := SFleb x y.
Definition feqb (x y : float) : bool := SFeqb x y.

(** [float(n)]. *)
Definition of_Z (n : Z) : float := binary_normalize f_prec f_emax n 0 false.
Definition of_nat (n : nat) : float := of_Z (Z.of_nat n).

(** The float nearest to [n / d]: the value of a decimal literal. *)
Definition of_ratio (n : Z) (d : positive) : float :=
  match n with
  | Z0 => fzero
  | Zpos p =>
      let '(m, e, l) := SFdiv_core_binary f_prec f_emax (Zpos p) 0 (Zpos d) 0 in
      binary_round_aux f_prec f_emax false m e l
  | Zneg p =>
      let '(m, e, l) := SFdiv_core_binary f_prec f_emax (Zpos p) 0 (Zpos d) 0 in
      binary_round_aux f_prec f_emax true m e l
  end.

(** Nearest integer to [n / d], ties to even. *)
Definition div_half_even (n d : Z) : Z :=
  let q := n / d in
  let r := n mod d in
  match Z.compare (2 * r) d with
  | Lt => q
  | Gt => q + 1
  | Eq => if Z.even q then q else q + 1
  end.

(** [round(x, k)] for [k >= 0]: the float nearest to the multiple of [10^-k]
    nearest to the exact value of [x]; a zero result keeps the sign of [x]. *)
Definition fround (x : float) (k : Z) : float :=
  match x with
  | S754_finite s m e =>
      let p10 := 10 ^ k in
      let n := if Z.leb 0 e then Zpos m * 2 ^ e * p10
               else div_half_even (Zpos m * p10) (2 ^ (- e)) in
      match n with
      | Zpos _ =>
          let y := of_ratio n (Z.to_pos p10) in if s then fopp y else y
      | _ => S754_zero s
      end
  | _ => x
  end.

(** [int(x)]: truncation; infinities and NaN raise. *)
Definition int_of_float (x : float) : res Z :=
  match x with
  | S754_zero _ => Ok 0%Z
  | S754_finite s m e =>
      let n := if Z.leb 0 e then Zpos m * 2 ^ e else Zpos m / 2 ^ (- e) in
      Ok (if s then - n else n)%Z
  | S754_infinity _ => Raise (ValueError "cannot convert float infinity to integer")
  | S754_nan => Raise (ValueError "cannot convert float NaN to integer")
  end.

(** [max(a, b)] and [min(a, b)] return the first argument on a tie. *)
Definition fmax2 (a b : float) : float := if fltb a b then b else a.
Definition fmin2 (a b : float) : float := if fltb b a then b else a.

(** [sum(xs)] starting from the float (or int) zero. *)
Definition fsum (xs : list float) : float := fold_left fadd xs fzero.

Definition is_nan (x : float) : bool := match x with S754_nan => true | _ => false end.

#[export] Instance float_eq_dec : EqDecision float.
Proof. solve_decision. Defined.

(** ** The order *)

(** The comparison is the lexicographic order of a triple of integers. *)
Definition fkey (x : float) : Z * Z * Z :=
  match x with
  | S754_infinity true => (-2, 0, 0)
  | S754_finite true m e => (-1, - e, - Zpos m)
  | S754_zero _ | S754_nan => (0, 0, 0)
  | S754_finite false m e => (1, e, Zpos m)
  | S754_infinity false => (2, 0, 0)
  end%Z.

Definition klt (a b : Z * Z * Z) : Prop :=
  let '(a1, a2, a3) := a in
  let '(b1, b2, b3) := b in
  (a1 < b1 \/ (a1 = b1 /\ (a2 < b2 \/ (a2 = b2 /\ a3 < b3))))%Z.

Lemma SFcompare_key x y :
  is_nan x = false -> is_nan y = false ->
  match SFcompare x y with
  | Some Lt => klt (fkey x) (fkey y)
  | Some Eq => fkey x = fkey y
  | Some Gt => klt (fkey y) (fkey x)
  | None => False
  end.
Proof.
  destruct x as [[]|[]| |[] m1 e1], y as [[]|[]| |[] m2 e2]; simpl; try done; intros _ _;
    try lia;
    destruct (Z.compare_spec e1 e2); subst; simpl; try lia;
    fold (Pos.compare m1 m2); destruct (Pos.compare_spec m1 m2); subst; simpl; try lia; done.
Qed.

Lemma SFcompare_nan_l x y : is_nan x = true -> SFcompare x y = None.
Proof. by destruct x. Qed.
Lemma SFcompare_nan_r x y : is_nan y = true -> SFcompare x y = None.
Proof. by destruct x, y. Qed.

Ltac fcase x y :=
  let Hx := fresh "Nx" in let Hy := fresh "Ny" in let K := fresh "K" in
  destruct (is_nan x) eqn:Hx;
    [rewrite (SFcompare_nan_l x y Hx) in *
    |destruct (is_nan y) eqn:Hy;
      [rewrite (SFcompare_nan_r x y Hy) in *
      |pose proof (SFcompare_key x y Hx Hy) as K;
       destruct (SFcompare x y) as [[]|]]].

Lemma klt_dec a b : klt a b \/ a = b \/ klt b a.
Proof.
  destruct a as [[a1 a2] a3], b as [[b1 b2] b3]. unfold klt.
  destruct (Z.lt_trichotomy a1 b1) as [?|[->|?]]; [lia| |lia].
  destruct (Z.lt_trichotomy a2 b2) as [?|[->|?]]; [lia| |lia].
  destruct (Z.lt_trichotomy a3 b3) as [?|[->|?]]; [lia|auto|lia].
Qed.

Lemma klt_irrefl a : ~ klt a a.
Proof. destruct a as [[a1 a2] a3]. unfold klt. lia. Qed.

Lemma klt_trans a b c : klt a b -> klt b c -> klt a c.
Proof. destruct a as [[a1 a2] a3], b as [[b1 b2] b3], c as [[c1 c2] c3]. unfold klt. lia. Qed.

Lemma fltb_spec x y :
  fltb x y = true <-> is_nan x = false /\ is_nan y = false /\ klt (fkey x) (fkey y).
Proof.
  unfold fltb, SFltb. fcase x y; try (split; [done|naive_solver]).
  all: split; try done; intros (_ & _ & Hk).
  - rewrite K in Hk. by destruct (klt_irrefl _ Hk).
  - destruct (klt_irrefl _ (klt_trans _ _ _ K Hk)).
Qed.

Lemma fleb_spec x y :
  fleb x y = true <-> is_nan x = false /\ is_nan y = false /\ ~ klt (fkey y) (fkey x).
Proof.
  unfold fleb, SFleb. fcase x y; try (split; [done|naive_solver]).
  all: split; try done; intros; split_and?; try done.
  - rewrite K. apply klt_irrefl.
  - intros Hk. destruct (klt_irrefl _ (klt_trans _ _ _ K Hk)).
Qed.

Lemma feqb_spec x y :
  feqb x y = true <-> is_nan x = false /\ is_nan y = false /\ fkey x = fkey y.
Proof.
  unfold feqb, SFeqb. fcase x y; try (split; [done|naive_solver]).
  all: split; try done; intros (_ & _ & Hk); rewrite Hk in K; by destruct (klt_irrefl _ K).
Qed.

Lemma fltb_irrefl x : fltb x x = false.
Proof. apply not_true_iff_false. intros (_ & _ & H)%fltb_spec. by apply klt_irrefl in H. Qed.

Lemma fltb_trans x y z : fltb x y = true -> fltb y z = true -> fltb x z = true.
Proof. rewrite !fltb_spec. intros (?&?&?) (?&?&?). eauto using klt_trans. Qed.

Lemma fltb_asym x y : fltb x y = true -> fltb y x = false.
Proof.
  intros H. apply not_true_iff_false. intros H'.
  pose proof (fltb_trans _ _ _ H H') as E. by rewrite fltb_irrefl in E.
Qed.

Lemma fleb_not_ltb x y :
  is_nan x = false -> is_nan y = false -> fleb x y = negb (fltb y x).
Proof.
  intros Hx Hy. pose proof (fleb_spec x y) as L. pose proof (fltb_spec y x) as R.
  destruct (fleb x y), (fltb y x); simpl; try done; naive_solver.
Qed.

Lemma fltb_fleb_trans x y z : fltb x y = true -> fleb y z = true -> fltb x z = true.
Proof.
  rewrite !fltb_spec, fleb_spec. intros (?&?&Hk) (?&?&Hn). split_and!; try done.
  destruct (klt_dec (fkey y) (fkey z)) as [|[<-|]]; [by eapply klt_trans|done|done].
Qed.

Lemma fleb_fltb_trans x y z : fleb x y = true -> fltb y z = true -> fltb x z = true.
Proof.
  rewrite !fltb_spec, fleb_spec. intros (?&?&Hn) (?&?&Hk). split_and!; try done.
  destruct (klt_dec (fkey x) (fkey y)) as [|[->|]]; [by eapply klt_trans|done|done].
Qed.

Lemma fleb_trans x y z : fleb x y = true -> fleb y z = true -> fleb x z = true.
Proof.
  rewrite !fleb_spec. intros (?&?&Hn) (?&?&Hk). split_and!; try done.
  intros Hz. destruct (klt_dec (fkey x) (fkey y)) as [Hl|[E|Hl]]; try done.
  - apply Hk. by eapply klt_trans.
  - apply Hk. by rewrite <- E.
Qed.

Lemma fltb_nan_false x y : fltb x y = true -> is_nan x = false /\ is_nan y = false.
Proof. by intros (?&?&?)%fltb_spec. Qed.

Lemma not_ltb_fleb x y : is_nan x = false -> is_nan y = false -> fltb x y = false -> fleb y x = true.
Proof. intros Hx Hy E. by rewrite fleb_not_ltb, E. Qed.
Lemma fleb_not_lt x y : fleb x y = true -> fltb y x = false.
Proof.
  intros H. pose proof (proj1 (fleb_spec x y) H) as (Hx & Hy & _).
  rewrite fleb_not_ltb in H by done. by destruct (fltb y x).
Qed.
Lemma fleb_refl x : is_nan x = false -> fleb x x = true.
Proof. intros Hx. apply not_ltb_fleb; auto using fltb_irrefl. Qed.

(** The comparisons only see the key. *)
Lemma fltb_key x x' y y' :
  is_nan x = is_nan x' -> is_nan y = is_nan y' -> fkey x = fkey x' -> fkey y = fkey y' ->
  fltb x y = fltb x' y'.
Proof. intros E1 E2 K1 K2. apply eq_true_iff_eq. by rewrite !fltb_spec, E1, E2, K1, K2. Qed.

(** Adding zero changes neither the value nor a comparison. *)
Lemma fadd_zero_key x : fkey (fadd x fzero) = fkey x /\ is_nan (fadd x fzero) = is_nan x.
Proof. by destruct x as [[]|[]| |[]]. Qed.

Lemma fltb_fadd_zero_l x y : fltb (fadd x fzero) y = fltb x y.
Proof. destruct (fadd_zero_key x). by apply fltb_key. Qed.
Lemma fltb_fadd_zero_r x y : fltb x (fadd y fzero) = fltb x y.
Proof. destruct (fadd_zero_key y). by apply fltb_key. Qed.

Create HintDb pyfloat.
#[export] Hint Resolve fltb_trans fleb_trans fltb_fleb_trans fleb_fltb_trans fltb_asym : pyfloat.

(** * Exactness of float arithmetic on integers

    Integers below 2^53 in absolute value are floats exactly, and adding,
    subtracting and comparing them gives the integer result: what the code
    relies on where it counts with floats. *)

#[local] Open Scope Z_scope.

Lemma digits2_pos_bounds p :
  2 ^ (Zpos (digits2_pos p) - 1) <= Zpos p < 2 ^ Zpos (digits2_pos p).
Proof.
  induction p as [p IH|p IH|]; simpl digits2_pos; [| |lia].
  all: rewrite Pos2Z.inj_succ.
  all: replace (Z.succ (Zpos (digits2_pos p)) - 1) with (Z.succ (Zpos (digits2_pos p) - 1)) by lia.
  all: rewrite !Z.pow_succ_r by lia; lia.
Qed.

Lemma digits2_pos_unique p d :
  0 < d -> 2 ^ (d - 1) <= Zpos p < 2 ^ d -> Zpos (digits2_pos p) = d.
Proof.
  intros Hd [H1 H2]. destruct (digits2_pos_bounds p) as [B1 B2].
  destruct (Z.lt_trichotomy (Zpos (digits2_pos p)) d) as [H|[H|H]]; [|done|].
  - assert (2 ^ Zpos (digits2_pos p) <= 2 ^ (d - 1)) by (apply Z.pow_le_mono_r; lia). lia.
  - assert (2 ^ d <= 2 ^ (Zpos (digits2_pos p) - 1)) by (apply Z.pow_le_mono_r; lia). lia.
Qed.

Lemma digits2_pos_shift p q k :
  0 <= k -> Zpos q = Zpos p * 2 ^ k -> Zpos (digits2_pos q) = Zpos (digits2_pos p) + k.
Proof.
  intros Hk E. destruct (digits2_pos_bounds p) as [B1 B2].
  apply digits2_pos_unique; [lia|]. rewrite E.
  replace (Zpos (digits2_pos p) + k - 1) with ((Zpos (digits2_pos p) - 1) + k) by lia.
  rewrite !Z.pow_add_r by lia.
  assert (0 < 2 ^ k) by (apply Z.pow_pos_nonneg; lia). nia.
Qed.

Lemma iter_pos_nat {A} (f : A -> A) n x : SpecFloat.iter_pos f n x = Nat.iter (Pos.to_nat n) f x.
Proof.
  revert x. induction n as [n IH|n IH|]; intros x; simpl SpecFloat.iter_pos.
  - rewrite !IH, Pos2Nat.inj_xI. rewrite <- Nat.iter_add, <- Nat.iter_succ_r.
    f_equal. lia.
  - rewrite !IH, Pos2Nat.inj_xO, <- Nat.iter_add. f_equal. lia.
  - done.
Qed.

Lemma shr_1_exact m :
  shr_1 {| shr_m := 2 * m; shr_r := false; shr_s := false |}
  = {| shr_m := m; shr_r := false; shr_s := false |}.
Proof. by destruct m. Qed.

Lemma iter_shr_exact n m :
  Nat.iter n shr_1 {| shr_m := m * 2 ^ Z.of_nat n; shr_r := false; shr_s := false |}
  = {| shr_m := m; shr_r := false; shr_s := false |}.
Proof.
  revert m. induction n as [|n IH]; intros m.
  - simpl. by rewrite Z.mul_1_r.
  - rewrite Nat2Z.inj_succ, Z.pow_succ_r by lia.
    rewrite Nat.iter_succ. replace (m * (2 * 2 ^ Z.of_nat n)) with ((2 * m) * 2 ^ Z.of_nat n) by lia.
    rewrite IH. apply shr_1_exact.
Qed.

(** Shifting out zeros is exact. *)
Lemma shr_exact m e n :
  0 <= n ->
  shr {| shr_m := m * 2 ^ n; shr_r := false; shr_s := false |} e n
  = ({| shr_m := m; shr_r := false; shr_s := false |}, e + n).
Proof.
  intros Hn. destruct n as [|p|p]; [| |lia]; simpl shr.
  - by rewrite Z.mul_1_r, Z.add_0_r.
  - rewrite iter_pos_nat. rewrite <- (Z2Nat.id (Zpos p)) at 1 by lia.
    by rewrite Z2Nat.inj_pos, iter_shr_exact.
Qed.

(** A dyadic number whose significant part fits in 53 bits is represented
    exactly: rounding it only normalises mantissa and exponent. *)
Lemma binary_round_aux_exact s p e t :
  Zpos (digits2_pos p) = f_prec -> -1074 <= e + t -> e + t <= 971 -> 0 <= t ->
  forall q, Zpos q = Zpos p * 2 ^ t ->
  binary_round_aux f_prec f_emax s (Zpos q) e loc_Exact = S754_finite s p (e + t).
Proof.
  intros Hd Hlo Hhi Ht q Hq. unfold binary_round_aux, shr_fexp.
  assert (Hdq : Zpos (digits2_pos q) = f_prec + t) by (rewrite (digits2_pos_shift p q t); lia).
  unfold Zdigits2. rewrite Hdq. simpl shr_record_of_loc.
  replace (fexp f_prec f_emax (f_prec + t + e) - e) with t
    by (unfold fexp, emin, f_prec, f_emax; lia).
  rewrite Hq, shr_exact by done. simpl shr_m. simpl loc_of_shr_record. simpl round_nearest_even.
  cbv beta iota zeta. simpl shr_record_of_loc. rewrite Hd.
  replace (fexp f_prec f_emax (f_prec + (e + t)) - (e + t)) with 0
    by (unfold fexp, emin, f_prec, f_emax; lia).
  simpl shr. simpl shr_m. cbv beta iota zeta.
  rewrite (proj2 (Z.leb_le _ _)) by (unfold f_prec, f_emax; lia). done.
Qed.

Lemma pos_iter_xO p d : Zpos (Pos.iter xO p d) = Zpos p * 2 ^ Zpos d.
Proof.
  induction d as [|d IH] using Pos.peano_ind.
  - simpl. lia.
  - rewrite Pos.iter_succ, Pos2Z.inj_xO, IH, Pos2Z.inj_succ, Z.pow_succ_r; lia.
Qed.

(** The normal form of the float of a positive integer below 2^53. *)
Definition norm_exp (p : positive) : Z := Zpos (digits2_pos p) - f_prec.

(** Rounding [p * 2^k] with exponent [-k]: the float of [p]. *)
Lemma binary_round_int s p q k :
  Zpos p < 2 ^ f_prec -> 0 <= k <= 1000 -> Zpos q = Zpos p * 2 ^ k ->
  binary_round f_prec f_emax s q (- k)
  = S754_finite s (Z.to_pos (Zpos p * 2 ^ (- norm_exp p))) (norm_exp p).
Proof.
  intros Hp Hk Hq. destruct (digits2_pos_bounds p) as [B1 B2].
  assert (Hd : Zpos (digits2_pos p) <= f_prec).
  { destruct (Z.le_gt_cases (Zpos (digits2_pos p)) f_prec); [done|].
    assert (2 ^ f_prec <= 2 ^ (Zpos (digits2_pos p) - 1)) by (apply Z.pow_le_mono_r; unfold f_prec in *; lia).
    lia. }
  assert (Hdq : Zpos (digits2_pos q) = Zpos (digits2_pos p) + k)
    by (apply digits2_pos_shift; [lia|done]).
  assert (Hn : 0 <= - norm_exp p) by (unfold norm_exp; lia).
  set (m := Z.to_pos (Zpos p * 2 ^ (- norm_exp p))).
  assert (Hm : Zpos m = Zpos p * 2 ^ (- norm_exp p)).
  { unfold m. rewrite Z2Pos.id; [done|]. assert (0 < 2 ^ (- norm_exp p)) by (apply Z.pow_pos_nonneg; lia). lia. }
  assert (Hdm : Zpos (digits2_pos m) = f_prec).
  { rewrite (digits2_pos_shift p m (- norm_exp p)); [unfold norm_exp; lia|done|done]. }
  unfold binary_round, shl_align. rewrite Hdq.
  replace (fexp f_prec f_emax (Zpos (digits2_pos p) + k + - k)) with (norm_exp p)
    by (unfold fexp, emin, norm_exp, f_prec, f_emax in *; lia).
  destruct (norm_exp p - - k) as [|d|d] eqn:E.
  - trans (S754_finite s m (- k + 0)); [|f_equal; lia].
    apply binary_round_aux_exact; [done|unfold norm_exp, f_prec in *; lia..|].
    rewrite Hm, Hq. replace (- norm_exp p) with k by lia. lia.
  - trans (S754_finite s m (- k + Zpos d)); [|f_equal; lia].
    apply binary_round_aux_exact; [done|unfold norm_exp, f_prec in *; lia..|].
    rewrite Hm, Hq, <- Z.mul_assoc, <- Z.pow_add_r by lia. f_equal. f_equal. lia.
  - trans (S754_finite s m (norm_exp p + 0)); [|f_equal; lia].
    apply binary_round_aux_exact; [done|unfold norm_exp, f_prec in *; lia..|].
    rewrite pos_iter_xO, Hm, Hq, <- Z.mul_assoc, <- Z.pow_add_r by lia.
    rewrite Z.pow_0_r, Z.mul_1_r. f_equal. f_equal. lia.
Qed.

Definition small (n : Z) : Prop := Z.abs n < 2 ^ f_prec.

Definition norm_float (s : bool) (p : positive) : float :=
  S754_finite s (Z.to_pos (Zpos p * 2 ^ (- norm_exp p))) (norm_exp p).

(** [float(n)] in normal form. *)
Lemma of_Z_norm n :
  small n ->
  of_Z n = match n with
           | Z0 => S754_zero false
           | Zpos p => norm_float false p
           | Zneg p => norm_float true p
           end.
Proof.
  unfold small, of_Z. intros Hn. destruct n as [|p|p]; simpl; [done| |].
  all: apply (binary_round_int _ p p 0); simpl in *; lia.
Qed.

(** Normalising an integer scaled by [2^k] at exponent [-k]. *)
Lemma binary_normalize_scaled n k :
  small n -> 0 <= k <= 1000 ->
  binary_normalize f_prec f_emax (n * 2 ^ k) (- k) false = of_Z n.
Proof.
  intros Hn Hk. rewrite of_Z_norm by done.
  assert (0 < 2 ^ k) by (apply Z.pow_pos_nonneg; lia).
  unfold small in Hn. destruct n as [|p|p].
  - rewrite Z.mul_0_l. done.
  - destruct (Zpos p * 2 ^ k) as [|q|q] eqn:E; [lia| |lia]. simpl.
    apply binary_round_int; [simpl in *; lia|lia|done].
  - destruct (Zneg p * 2 ^ k) as [|q|q] eqn:E; [lia|lia|]. simpl.
    apply binary_round_int; [simpl in *; lia|lia|lia].
Qed.

(** The signed significand of an aligned normal form. *)
Lemma norm_aligned p ez :
  Zpos p < 2 ^ f_prec -> ez <= norm_exp p ->
  Zpos (shl_align (Z.to_pos (Zpos p * 2 ^ (- norm_exp p))) (norm_exp p) ez).1
  = Zpos p * 2 ^ (- ez).
Proof.
  intros Hp He. destruct (digits2_pos_bounds p) as [B1 B2].
  assert (Hn : 0 <= - norm_exp p).
  { unfold norm_exp. destruct (Z.le_gt_cases (Zpos (digits2_pos p)) f_prec); [lia|].
    assert (2 ^ f_prec <= 2 ^ (Zpos (digits2_pos p) - 1)) by (apply Z.pow_le_mono_r; unfold f_prec in *; lia).
    lia. }
  assert (0 < 2 ^ (- norm_exp p)) by (apply Z.pow_pos_nonneg; lia).
  unfold shl_align. destruct (ez - norm_exp p) as [|d|d] eqn:E; [|lia|]; simpl.
  - rewrite Z2Pos.id by lia. f_equal. f_equal. lia.
  - rewrite pos_iter_xO, Z2Pos.id by lia.
    rewrite <- Z.mul_assoc, <- Z.pow_add_r by lia. f_equal. f_equal. lia.
Qed.

Lemma small_digits n p : small n -> Zpos p = Z.abs n -> Zpos p < 2 ^ f_prec.
Proof. unfold small. lia. Qed.

Lemma norm_exp_bounds p : Zpos p < 2 ^ f_prec -> -52 <= norm_exp p <= 0.
Proof.
  intros Hp. destruct (digits2_pos_bounds p) as [B1 B2]. unfold norm_exp.
  split; [unfold f_prec; lia|].
  destruct (Z.le_gt_cases (Zpos (digits2_pos p)) f_prec); [lia|].
  assert (2 ^ f_prec <= 2 ^ (Zpos (digits2_pos p) - 1)) by (apply Z.pow_le_mono_r; unfold f_prec in *; lia).
  lia.
Qed.

Ltac norm_scale p q :=
  let E := fresh "E" in
  rewrite !norm_aligned by (lia || done);
  match goal with
  | |- binary_normalize _ _ ?x ?e false = of_Z ?n =>
      replace x with (n * 2 ^ (- e)) by (simpl; lia);
      rewrite <- (Z.opp_involutive e) at 2; apply binary_normalize_scaled; [done|lia]
  end.

(** Addition and subtraction of integers below 2^53 are exact as long as
    the result is below 2^53. *)
Lemma fadd_of_Z a b : small a -> small b -> small (a + b) -> fadd (of_Z a) (of_Z b) = of_Z (a + b).
Proof.
  intros Ha Hb Hab. rewrite (of_Z_norm a), (of_Z_norm b) by done. unfold fadd.
  destruct a as [|p|p]; [by rewrite Z.add_0_l, of_Z_norm; [destruct b|]| |].
  all: destruct b as [|q|q]; [by rewrite Z.add_0_r, of_Z_norm| |].
  all: pose proof (norm_exp_bounds p); pose proof (norm_exp_bounds q).
  all: unfold small in Ha, Hb; simpl Z.abs in *; unfold norm_float; cbn [SFadd cond_Zopp].
  all: norm_scale p q.
Qed.

Lemma fsub_of_Z a b : small a -> small b -> small (a - b) -> fsub (of_Z a) (of_Z b) = of_Z (a - b).
Proof.
  intros Ha Hb Hab. rewrite (of_Z_norm a), (of_Z_norm b) by done. unfold fsub.
  destruct a as [|p|p].
  - destruct b as [|q|q]; [done| |].
    all: rewrite Z.sub_0_l; simpl Z.opp; rewrite of_Z_norm; [done|by unfold small in *].
  - destruct b as [|q|q]; [by rewrite Z.sub_0_r, of_Z_norm| |].
    all: pose proof (norm_exp_bounds p); pose proof (norm_exp_bounds q).
    all: unfold small in Ha, Hb; simpl Z.abs in *; unfold norm_float; cbn [SFsub cond_Zopp].
    all: norm_scale p q.
  - destruct b as [|q|q]; [by rewrite Z.sub_0_r, of_Z_norm| |].
    all: pose proof (norm_exp_bounds p); pose proof (norm_exp_bounds q).
    all: unfold small in Ha, Hb; simpl Z.abs in *; unfold norm_float; cbn [SFsub cond_Zopp].
    all: norm_scale p q.
Qed.

Lemma norm_key_lt p q :
  Zpos p < 2 ^ f_prec -> Zpos q < 2 ^ f_prec -> Zpos p < Zpos q ->
  klt (fkey (norm_float false p)) (fkey (norm_float false q)).
Proof.
  intros Hp Hq Hlt. unfold norm_float, fkey, klt. right. split; [done|].
  pose proof (norm_exp_bounds p Hp). pose proof (norm_exp_bounds q Hq).
  destruct (digits2_pos_bounds p) as [P1 P2]. destruct (digits2_pos_bounds q) as [Q1 Q2].
  destruct (Z.lt_trichotomy (norm_exp p) (norm_exp q)) as [L|[E|L]]; [by left| |].
  - right. split; [done|]. rewrite E.
    assert (0 < 2 ^ (- norm_exp q)) by (apply Z.pow_pos_nonneg; lia).
    rewrite !Z2Pos.id by lia. nia.
  - assert (2 ^ Zpos (digits2_pos q) <= 2 ^ (Zpos (digits2_pos p) - 1))
      by (apply Z.pow_le_mono_r; unfold norm_exp in *; lia). lia.
Qed.

Lemma fltb_of_Z a b : small a -> small b -> fltb (of_Z a) (of_Z b) = (a <? b).
Proof.
  assert (Hlt : forall a b, small a -> small b -> a < b -> fltb (of_Z a) (of_Z b) = true).
  { clear. intros a b Ha Hb Hlt. apply fltb_spec. rewrite !of_Z_norm by done.
    unfold small in *. destruct a as [|p|p], b as [|q|q]; simpl Z.abs in *; try lia.
    all: split_and!; try done.
    all: try (unfold fkey, klt, norm_float; lia).
    - by apply norm_key_lt.
    - assert (K : klt (fkey (norm_float false q)) (fkey (norm_float false p)))
        by (apply norm_key_lt; lia).
      revert K. unfold fkey, klt, norm_float. lia. }
  intros Ha Hb. destruct (Z.ltb_spec a b) as [H|H].
  - by apply Hlt.
  - apply not_true_iff_false. intros Hf. destruct (Z.eq_dec a b) as [->|Hne].
    + by rewrite fltb_irrefl in Hf.
    + rewrite (fltb_asym (of_Z b) (of_Z a)) in Hf; [done|]. apply Hlt; [done|done|lia].
Qed.

Lemma of_Z_not_nan n : small n -> is_nan (of_Z n) = false.
Proof. intros. rewrite of_Z_norm by done. by destruct n. Qed.

Lemma feqb_of_Z a b : small a -> small b -> feqb (of_Z a) (of_Z b) = (a =? b).
Proof.
  intros Ha Hb. apply eq_true_iff_eq. rewrite feqb_spec, Z.eqb_eq. split.
  - intros (Na & Nb & Hk). destruct (Z.lt_trichotomy a b) as [H|[H|H]]; [|done|].
    + apply Z.ltb_lt in H. rewrite <- fltb_of_Z in H by done. apply fltb_spec in H as (_&_&H).
      rewrite Hk in H. by apply klt_irrefl in H.
    + apply Z.ltb_lt in H. rewrite <- fltb_of_Z in H by done. apply fltb_spec in H as (_&_&H).
      rewrite Hk in H. by apply klt_irrefl in H.
  - intros ->. by rewrite of_Z_not_nan.
Qed.

(** ** Floats between 0 and 1 *)

Definition in_unit (x : float) : Prop :=
  match x with
  | S754_zero false => True
  | S754_finite false m e => e <= 0 /\ Zpos m <= 2 ^ (- e)
  | _ => False
  end.

Lemma shr_1_halves r : 0 <= shr_m r -> shr_m (shr_1 r) = shr_m r / 2.
Proof.
  destruct r as [m r s]. cbn [shr_m]. destruct m as [|[p|p|]|]; cbn [shr_1 shr_m]; try done; intros _.
  - rewrite (Pos2Z.inj_xI p), Z.add_comm, Z.mul_comm, Z.div_add by lia. done.
  - rewrite (Pos2Z.inj_xO p), Z.mul_comm, Z.div_mul; lia.
Qed.
Lemma iter_shr_halves n r : 0 <= shr_m r -> shr_m (Nat.iter n shr_1 r) = shr_m r / 2 ^ Z.of_nat n /\ 0 <= shr_m (Nat.iter n shr_1 r).
Proof.
  intros Hr. induction n as [|n [IH Hn]]; [cbn; rewrite Z.div_1_r; lia|]. cbn [Nat.iter nat_rect].
  change (nat_rect _ r (fun _ => shr_1) n) with (Nat.iter n shr_1 r) in *.
  rewrite shr_1_halves by done. rewrite IH, Z.div_div, Nat2Z.inj_succ, Z.pow_succ_r, (Z.mul_comm 2) by lia.
  split; [done|]. apply Z.div_pos; lia.
Qed.
(** Shifting to the precision divides by a power of two. *)
Lemma shr_fexp_divides m e l : 0 <= m ->
  exists r k, shr_fexp f_prec f_emax m e l = (r, e + k) /\ shr_m r = m / 2 ^ k /\ 0 <= k /\
    (k = 0 \/ e + k = fexp f_prec f_emax (Zdigits2 m + e)).
Proof.
  intros Hm. unfold shr_fexp, shr. assert (Hr : shr_m (shr_record_of_loc m l) = m) by (by destruct l as [|[]]).
  destruct (fexp f_prec f_emax (Zdigits2 m + e) - e) as [|k|k] eqn:Ek.
  - exists (shr_record_of_loc m l), 0. rewrite Z.add_0_r, Hr, Z.pow_0_r, Z.div_1_r. by split_and!; [..|left].
  - exists (SpecFloat.iter_pos shr_1 k (shr_record_of_loc m l)), (Zpos k). split; [done|].
    rewrite iter_pos_nat. destruct (iter_shr_halves (Pos.to_nat k) (shr_record_of_loc m l)) as [-> _]; [by rewrite Hr|].
    rewrite Hr, positive_nat_Z. split_and!; [done|lia|right; lia].
  - exists (shr_record_of_loc m l), 0. rewrite Z.add_0_r, Hr, Z.pow_0_r, Z.div_1_r. by split_and!; [..|left].
Qed.
Lemma div_pow_le m e k : 0 <= k -> e + k <= 0 -> m <= 2 ^ (- e) -> m / 2 ^ k <= 2 ^ (- (e + k)).
Proof.
  intros Hk He Hm. transitivity (2 ^ (- e) / 2 ^ k); [apply Z.div_le_mono; lia|].
  rewrite <- Z.pow_sub_r by lia. apply Z.eq_le_incl. f_equal. lia.
Qed.
Lemma div_pow_lt m e k : 0 <= k -> e + k <= 0 -> m < 2 ^ (- e) -> m / 2 ^ k < 2 ^ (- (e + k)).
Proof.
  intros Hk He Hm. apply Z.div_lt_upper_bound; [lia|]. rewrite <- Z.pow_add_r by lia.
  replace (k + - (e + k)) with (- e) by lia. done.
Qed.
Lemma nearest_near m l : round_nearest_even m l = m \/ round_nearest_even m l = m + 1.
Proof. unfold round_nearest_even. destruct l as [|[]]; auto. destruct (Z.even m); auto. Qed.
Lemma digits_le m k : 0 <= m -> m < 2 ^ k -> 0 <= k -> Zdigits2 m <= k.
Proof.
  intros Hm Hlt Hk. destruct m as [|p|]; cbn [Zdigits2]; [done| |lia]. destruct (digits2_pos_bounds p) as [B _].
  destruct (Z.le_gt_cases (Zpos (digits2_pos p)) k); [done|].
  assert (2 ^ k <= 2 ^ (Zpos (digits2_pos p) - 1)) by (apply Z.pow_le_mono_r; lia). lia.
Qed.

Lemma fexp_small x : x <= 1 -> fexp f_prec f_emax x <= -52.
Proof. unfold fexp, emin, f_prec, f_emax. lia. Qed.
Lemma round_below_one m e l : 0 <= m -> e <= 0 -> m < 2 ^ (- e) -> in_unit (binary_round_aux f_prec f_emax false m e l).
Proof.
  intros Hm He Hlt. unfold binary_round_aux.
  assert (Hd : Zdigits2 m <= - e) by (apply digits_le; lia). pose proof (fexp_small (Zdigits2 m + e)) as Hf.
  destruct (shr_fexp_divides m e l Hm) as (r1 & k1 & -> & S1 & K1 & E1). assert (He1 : e + k1 <= 0) by (destruct E1; lia).
  pose proof (div_pow_lt m e k1 K1 He1 Hlt) as B1. rewrite <- S1 in B1.
  assert (P1 : 0 <= shr_m r1) by (rewrite S1; apply Z.div_pos; lia).
  set (m1 := round_nearest_even _ _). assert (Hm1 : 0 <= m1 <= 2 ^ (- (e + k1))).
  { destruct (nearest_near (shr_m r1) (loc_of_shr_record r1)) as [E|E]; fold m1 in E; lia. }
  assert (Hd1 : Zdigits2 m1 <= - (e + k1) + 1).
  { apply digits_le; [lia| |lia]. rewrite Z.pow_add_r, Z.pow_1_r by lia.
    assert (1 <= 2 ^ (- (e + k1))) by (apply (Z.pow_le_mono_r 2 0); lia). lia. }
  pose proof (fexp_small (Zdigits2 m1 + (e + k1))) as Hf1.
  destruct (shr_fexp_divides m1 (e + k1) loc_Exact) as (r2 & k2 & -> & S2 & K2 & E2); [lia|].
  assert (He2 : e + k1 + k2 <= 0) by (destruct E2; lia).
  pose proof (div_pow_le m1 (e + k1) k2 K2 He2) as B2. rewrite <- S2 in B2.
  assert (P2 : 0 <= shr_m r2) by (rewrite S2; apply Z.div_pos; lia).
  destruct (shr_m r2) as [|q|q] eqn:Eq; [done| |lia].
  rewrite (proj2 (Z.leb_le _ _)) by (unfold f_prec, f_emax; lia). split; [done|]. apply B2. lia.
Qed.

(** A ratio of counts is between 0 and 1. *)
Lemma ratio_in_unit n d : 0 <= n -> n <= Zpos d -> in_unit (of_ratio n d).
Proof.
  intros Hn Hd. destruct n as [|p|]; [done| |lia]. unfold of_ratio, SFdiv_core_binary.
  change (Zdigits2 (Zpos p)) with (Zpos (digits2_pos p)). change (Zdigits2 (Zpos d)) with (Zpos (digits2_pos d)).
  assert (Hdig : Zpos (digits2_pos p) <= Zpos (digits2_pos d)).
  { destruct (digits2_pos_bounds d) as [_ B]. apply (digits_le (Zpos p)); lia. }
  set (e := Z.min _ _). assert (He : -1074 <= e <= -53).
  { unfold e, fexp, emin, f_prec, f_emax. lia. }
  replace (0 - 0 - e) with (- e) by lia. destruct (- e) as [|s|] eqn:Es; [lia| |lia].
  rewrite Z.shiftl_mul_pow2 by lia.
  destruct (Z.div_eucl (Zpos p * 2 ^ Zpos s) (Zpos d)) as [q r] eqn:Eq.
  pose proof (Z_div_mod (Zpos p * 2 ^ Zpos s) (Zpos d) eq_refl) as Hqr. rewrite Eq in Hqr. destruct Hqr as [Hq Hr].
  assert (Hpow : 0 < 2 ^ Zpos s) by (apply Z.pow_pos_nonneg; lia).
  destruct (Z.eq_dec (Zpos p) (Zpos d)) as [E|Hne].
  - rewrite E in Hq. assert (q = 2 ^ Zpos s /\ r = 0) as [-> ->].
    { generalize dependent (2 ^ Zpos s). intros P. intros. destruct (Z.lt_trichotomy q P) as [|[|]]; nia. }
    assert (new_location (Zpos d) 0 = loc_Exact) as ->.
    { unfold new_location, new_location_even, new_location_odd. by destruct (Z.even (Zpos d)). }
    rewrite <- (Z2Pos.id (2 ^ Zpos s)) by done.
    rewrite (binary_round_aux_exact false (2 ^ 52) e (Zpos s - 52)); [|done|lia..|].
    + split; [lia|]. replace (- (e + (Zpos s - 52))) with 52 by lia. done.
    + rewrite Z2Pos.id by done. change (Zpos (2 ^ 52)) with (2 ^ 52). rewrite <- Z.pow_add_r by lia. f_equal. lia.
  - apply round_below_one; [nia|lia|]. rewrite Es. nia.
Qed.

Definition nonneg_float (x : float) : Prop :=
  match x with S754_finite true _ _ | S754_infinity true => False | _ => True end.
Lemma binary_round_aux_sign m e l : nonneg_float (binary_round_aux f_prec f_emax false m e l).
Proof.
  unfold binary_round_aux. destruct (shr_fexp _ _ m e l) as [r1 e1]. destruct (shr_fexp _ _ _ e1 loc_Exact) as [r2 e2].
  destruct (shr_m r2); [done| |done]. by destruct (e2 <=? _).
Qed.
Lemma normalize_sign n e : 0 <= n -> nonneg_float (binary_normalize f_prec f_emax n e false).
Proof.
  intros Hn. destruct n as [|p|]; [done| |lia]. cbn. unfold binary_round. destruct (shl_align _ _ _). apply binary_round_aux_sign.
Qed.
Lemma aligned_value m e ez : ez <= e -> Zpos (fst (shl_align m e ez)) = Zpos m * 2 ^ (e - ez).
Proof.
  intros He. unfold shl_align. destruct (ez - e) as [|d|d] eqn:E; [|lia|]; cbn [fst].
  - replace (e - ez) with 0 by lia. lia.
  - rewrite pos_iter_xO. f_equal. f_equal. lia.
Qed.
(** One minus a number between 0 and 1 is not negative. *)
Lemma one_minus_unit x : in_unit x -> nonneg_float (fsub (of_Z 1) x).
Proof.
  assert (Hone : of_Z 1 = S754_finite false (2 ^ 52) (-52)) by (vm_compute; reflexivity).
  rewrite Hone. destruct x as [[]|[]| |[] m e]; try done. intros [He Hm].
  unfold fsub, SFsub. apply normalize_sign. cbn [cond_Zopp]. rewrite !aligned_value by lia.
  change (Zpos (2 ^ 52)) with (2 ^ 52). rewrite <- Z.pow_add_r by lia.
  assert (Zpos m * 2 ^ (e - Z.min (-52) e) <= 2 ^ (- e) * 2 ^ (e - Z.min (-52) e)) as Hle by (apply Z.mul_le_mono_nonneg_r; lia).
  rewrite <- Z.pow_add_r in Hle by lia.
  replace (52 + (-52 - Z.min (-52) e)) with (- e + (e - Z.min (-52) e)) by lia. lia.
Qed.
Lemma nonneg_above x : nonneg_float x -> fltb x (of_Z (-1)) = false.
Proof.
  intros Hx. destruct (fltb x (of_Z (-1))) eqn:E; [|done]. exfalso. apply fltb_spec in E as (Hn & _ & Hlt).
  assert (Hk : fkey (of_Z (-1)) = (-1, 52, - 2 ^ 52)) by (vm_compute; reflexivity).
  rewrite Hk in Hlt. destruct x as [[]|[]| |[] m e]; try done; vm_compute in Hlt; naive_solver lia.
Qed.
