(* ===== verification/PyVal.v ===== *)
(** * Dynamically typed values

    Values of fields annotated [Any] (attributes, payloads, contexts), as a
    tagged union, with equality [==], [in], and attribute lookup. *)

From Stdlib Require Import SpecFloat.
From S2P Require Import Prelude PyFloat.

Inductive pyval : Set :=
| VNone
| VBool (b : bool)
| VInt (n : Z)
| VFloat (x : spec_float)
| VStr (s : string)
| VList (vs : list pyval)
| VDict (items : list (string * pyval)).

(** The dict type of [dict[str, Any]]. *)
Abbreviation pydict := (list (string * pyval)).

(** The number behind a bool, int or float. *)
Definition num_of (v : pyval) : option (Z + float) :=
  match v with
  | VBool b => Some (inl (if b then 1 else 0)%Z)
  | VInt n => Some (inl n)
  | VFloat x => Some (inr x)
  | _ => None
  end.

(** Truth value. *)
Definition val_truthy (v : pyval) : bool :=
  match v with
  | VNone => false
  | VBool b => b
  | VInt n => negb (Z.eqb n 0)
  | VFloat x => negb (feqb x fzero)
  | VStr s => truthy s
  | VList vs => match vs with [] => false | _ => true end
  | VDict d => match d with [] => false | _ => true end
  end.

(** [float(v)]; [parse] is the conversion of a text. *)
Definition py_float (parse : string -> option float) (v : pyval) : res float :=
  match v with
  | VFloat x => Ok x
  | VInt n => match of_Z n with
              | SpecFloat.S754_infinity _ =>
                  Raise (OverflowError "int too large to convert to float")
              | x => Ok x
              end
  | VBool b => Ok (of_Z (if b then 1 else 0))
  | VStr s => match parse s with
              | Some x => Ok x
              | None => Raise (ValueError ("could not convert string to float: '" +:+ s +:+ "'"))
              end
  | _ => Raise (TypeError "float() argument must be a string or a real number")
  end.

(** [x == n] for a float and an int: Python compares the exact values. *)
Definition float_eqb_Z (x : float) (n : Z) : bool :=
  match x with
  | S754_zero _ => Z.eqb n 0
  | S754_finite s m e =>
      let v := if s then Zneg m else Zpos m in
      if Z.leb 0 e then Z.eqb (v * 2 ^ e) n else Z.eqb v (n * 2 ^ (- e))
  | _ => false
  end.

Definition num_eqb (a b : Z + float) : bool :=
  match a, b with
  | inl m, inl n => Z.eqb m n
  | inl n, inr x | inr x, inl n => float_eqb_Z x n
  | inr x, inr y => feqb x y
  end.

(** [a == b]: numbers by value (True is 1), texts, lists item by item, dicts
    by keys.  Two occurrences of one NaN object in equal lists, which Python
    compares by identity first, are not told apart from two NaNs. *)
Fixpoint py_eq (a b : pyval) {struct a} : bool :=
  match num_of a, num_of b with
  | Some m, Some n => num_eqb m n
  | None, None =>
      match a, b with
      | VNone, VNone => true
      | VStr s, VStr t => bool_decide (s = t)
      | VList vs, VList ws =>
          (fix list_eq (vs ws : list pyval) {struct vs} : bool :=
             match vs, ws with
             | [], [] => true
             | v :: vs', w :: ws' => py_eq v w && list_eq vs' ws'
             | _, _ => false
             end) vs ws
      | VDict d, VDict d' =>
          Nat.eqb (length d) (length d') &&
          (fix dict_eq (d : pydict) {struct d} : bool :=
             match d with
             | [] => true
             | (k, v) :: rest =>
                 match dget k d' with Some w => py_eq v w | None => false end && dict_eq rest
             end) d
      | _, _ => false
      end
  | _, _ => false
  end.

(** [sub in s]. *)
Fixpoint str_contains (sub s : string) : bool :=
  String.prefix sub s || match s with EmptyString => false | String _ s' => str_contains sub s' end.

(** [a in c]: a TypeError when [c] is no container, when a text is searched
    for something that is no text, or when a dict is searched for a value that
    is not hashable. *)
Definition py_in (a c : pyval) : res bool :=
  match c with
  | VList vs => Ok (existsb (py_eq a) vs)
  | VStr s => match a with
              | VStr sub => Ok (str_contains sub s)
              | _ => Raise (TypeError "'in <string>' requires string as left operand")
              end
  | VDict d => match a with
               | VStr k => Ok (dmem k d)
               | VList _ | VDict _ => Raise (TypeError "unhashable type")
               | _ => Ok false
               end
  | _ => Raise (TypeError "argument is not iterable")
  end.

Definition dot : Ascii.ascii := Ascii.ascii_of_nat 46.

(** [s.partition(".")] without the separator, and [s.split(".")]. *)
Fixpoint partition_dot (s : string) : string * string :=
  match s with
  | EmptyString => (EmptyString, EmptyString)
  | String c s' => if Ascii.eqb c dot then (EmptyString, s')
                   else let '(h, t) := partition_dot s' in (String c h, t)
  end.

Fixpoint split_dot (s : string) : list string :=
  match s with
  | EmptyString => [EmptyString]
  | String c s' =>
      if Ascii.eqb c dot then EmptyString :: split_dot s'
      else match split_dot s' with
           | p :: ps => String c p :: ps
           | [] => [String c EmptyString]
           end
  end.
