(* ===== verification/PyText.v ===== *)
(** * Text helpers of Python's library

    [str.strip], [int(text)], [str(n)], [repr(text)], [".".join(...)] on ASCII
    texts, with the facts the components share: printing an integer and reading
    it back, splitting what was joined. *)

From Stdlib Require Import Ascii.
From stdpp Require Import pretty.
From S2P Require Import Prelude PyFloat PyVal.
Open Scope Z_scope.

Definition code (c : Ascii.ascii) : Z := Z.of_nat (Ascii.nat_of_ascii c).

(** [c.isspace()] on ASCII. *)
Definition is_space (c : Ascii.ascii) : bool :=
  let n := code c in ((9 <=? n) && (n <=? 13)) || ((28 <=? n) && (n <=? 32)).

Definition is_digit (c : Ascii.ascii) : bool := (48 <=? code c) && (code c <=? 57).
Definition digit_val (c : Ascii.ascii) : Z := code c - 48.

Fixpoint lstrip (s : string) : string :=
  match s with
  | EmptyString => EmptyString
  | String c s' => if is_space c then lstrip s' else s
  end.

Fixpoint rstrip (s : string) : string :=
  match s with
  | EmptyString => EmptyString
  | String c s' =>
      match rstrip s' with
      | EmptyString => if is_space c then EmptyString else String c EmptyString
      | t => String c t
      end
  end.

Definition strip (s : string) : string := rstrip (lstrip s).

Fixpoint str_forall (p : Ascii.ascii -> bool) (s : string) : bool :=
  match s with EmptyString => true | String c s' => p c && str_forall p s' end.

(** [str.upper] and [str.lower] of an ASCII text. *)
Definition upper_char (c : Ascii.ascii) : Ascii.ascii :=
  let n := Ascii.nat_of_ascii c in
  if ((97 <=? n) && (n <=? 122))%nat then Ascii.ascii_of_nat (n - 32) else c.
Fixpoint upper (s : string) : string :=
  match s with EmptyString => EmptyString | String c s' => String (upper_char c) (upper s') end.
Definition lower_char (c : Ascii.ascii) : Ascii.ascii :=
  let n := Ascii.nat_of_ascii c in
  if ((65 <=? n) && (n <=? 90))%nat then Ascii.ascii_of_nat (n + 32) else c.
Fixpoint lower (s : string) : string :=
  match s with EmptyString => EmptyString | String c s' => String (lower_char c) (lower s') end.

(** ** [repr] of a text *)

Definition hex_digit (n : nat) : Ascii.ascii :=
  Ascii.ascii_of_nat (if (n <? 10)%nat then 48 + n else 87 + n).

Definition backslash : Ascii.ascii := Ascii.ascii_of_nat 92.
Definition squote : Ascii.ascii := Ascii.ascii_of_nat 39.
Definition dquote : Ascii.ascii := Ascii.ascii_of_nat 34.

Definition repr_char (quote c : Ascii.ascii) : string :=
  let esc x := String backslash (String x EmptyString) in
  let n := Ascii.nat_of_ascii c in
  if Ascii.eqb c quote || Ascii.eqb c backslash then esc c
  else if (n =? 9)%nat then esc "t"%char
  else if (n =? 10)%nat then esc "n"%char
  else if (n =? 13)%nat then esc "r"%char
  else if (n <? 32)%nat || (n =? 127)%nat then
    esc "x"%char +:+ String (hex_digit (n / 16)) (String (hex_digit (n mod 16)) EmptyString)
  else String c EmptyString.

Fixpoint repr_body (quote : Ascii.ascii) (s : string) : string :=
  match s with
  | EmptyString => EmptyString
  | String c s' => repr_char quote c +:+ repr_body quote s'
  end.

Definition has_char (c : Ascii.ascii) (s : string) : bool :=
  negb (str_forall (fun c' => negb (Ascii.eqb c' c)) s).

Definition str_repr (s : string) : string :=
  let quote := if has_char squote s && negb (has_char dquote s) then dquote else squote in
  String quote EmptyString +:+ repr_body quote s +:+ String quote EmptyString.

(** ** Integers *)

(** The digits of [int(text)]: groups of digits joined by single underscores. *)
Fixpoint int_digits (acc : Z) (after_digit : bool) (s : string) : option Z :=
  match s with
  | EmptyString => if after_digit then Some acc else None
  | String c s' =>
      if is_digit c then int_digits (10 * acc + digit_val c) true s'
      else if Ascii.eqb c "_"%char && after_digit then int_digits acc false s'
      else None
  end.

Definition py_int (s : string) : res Z :=
  let t := strip s in
  let '(sign, body) := match t with
                       | String c r => if Ascii.eqb c "-"%char then (-1, r)
                                       else if Ascii.eqb c "+"%char then (1, r) else (1, t)
                       | EmptyString => (1, t)
                       end in
  match int_digits 0 false body with
  | Some n => Ok (sign * n)
  | None => Raise (ValueError ("invalid literal for int() with base 10: " +:+ str_repr s))
  end.

(** [str(n)]. *)
Definition str_of_int (n : Z) : string := pretty n.

(** [".".join(parts)]. *)
Fixpoint join_dot (ps : list string) : string :=
  match ps with
  | [] => EmptyString
  | [p] => p
  | p :: ps' => p +:+ String dot EmptyString +:+ join_dot ps'
  end.

(** [[f(x) for x in xs]] where [f] may raise. *)
Fixpoint map_res {A B} (f : A -> res B) (xs : list A) : res (list B) :=
  match xs with
  | [] => Ok []
  | x :: xs' => y ← f x; ys ← map_res f xs'; mret (y :: ys)
  end.

Lemma map_res_returns {A B} (f : A -> res B) l : (forall a, exists b, f a = Ok b) -> exists bs, map_res f l = Ok bs.
Proof.
  intros Hf. induction l as [|a l [bs IH]]; [by eexists|]. cbn [map_res].
  destruct (Hf a) as [b E]. unfold_monad. rewrite E, IH. by eexists.
Qed.

(** ** Facts *)

Lemma str_cons_app c (s t : string) : String c s +:+ t = String c (s +:+ t).
Proof. done. Qed.
Lemma str_nil_app (t : string) : EmptyString +:+ t = t.
Proof. done. Qed.

Lemma str_forall_app p s t : str_forall p (s +:+ t) = str_forall p s && str_forall p t.
Proof.
  induction s as [|c s IH]; [done|]. rewrite str_cons_app. simpl. by rewrite IH, andb_assoc.
Qed.

Lemma str_forall_impl (p q : Ascii.ascii -> bool) s :
  (forall c, p c = true -> q c = true) -> str_forall p s = true -> str_forall q s = true.
Proof.
  intros Hpq. induction s as [|c s IH]; simpl; [done|]. intros [Hc Hs]%andb_true_iff.
  by rewrite Hpq, IH.
Qed.

Lemma str_app_nil_r (s : string) : s +:+ EmptyString = s.
Proof. induction s as [|c s IH]; [done|]. by rewrite str_cons_app, IH. Qed.

Lemma str_app_cons (s t : string) c :
  s +:+ String c t = (s +:+ String c EmptyString) +:+ t.
Proof. induction s as [|d s IH]; [done|]. by rewrite !str_cons_app, IH. Qed.

(** A text without spaces is its own [strip]. *)
Lemma strip_id s : str_forall (fun c => negb (is_space c)) s = true -> strip s = s.
Proof.
  unfold strip. intros H.
  assert (lstrip s = s) as ->.
  { destruct s as [|c s]; simpl in *; [done|]. apply andb_true_iff in H as [H _].
    apply negb_true_iff in H. by rewrite H. }
  induction s as [|c s IH]; simpl in *; [done|]. apply andb_true_iff in H as [Hc Hs].
  rewrite IH by done. apply negb_true_iff in Hc. destruct s; [by rewrite Hc|done].
Qed.

Lemma digit_not_space c : is_digit c = true -> negb (is_space c) = true.
Proof. unfold is_digit, is_space. lia. Qed.

Lemma digit_not_dot c : is_digit c = true -> negb (Ascii.eqb c dot) = true.
Proof. by destruct (Ascii.eqb_spec c dot) as [->|]. Qed.

Lemma pretty_N_char_digit n : (n < 10)%N ->
  is_digit (pretty_N_char n) = true /\ digit_val (pretty_N_char n) = Z.of_N n.
Proof.
  intros H. assert (exists k, (k < 10)%nat /\ n = N.of_nat k) as (k & Hk & ->)
    by (exists (N.to_nat n); lia).
  do 10 (destruct k as [|k]; [done|]). lia.
Qed.

Lemma pretty_N_go_ind (P : N -> string -> string -> Prop) :
  (forall s, P 0%N s s) ->
  (forall n s r, (0 < n)%N -> P (n / 10)%N (String (pretty_N_char (n mod 10)) s) r -> P n s r) ->
  forall n s, P n s (pretty_N_go n s).
Proof.
  intros H0 HS. induction n as [n IH] using (well_founded_induction N.lt_wf_0). intros s.
  destruct (decide (n = 0)%N) as [->|Hn]; [apply H0|].
  rewrite pretty_N_go_step by lia. apply HS; [lia|]. apply IH. apply N.div_lt; lia.
Qed.

Lemma pretty_N_go_digits n s :
  str_forall is_digit s = true -> str_forall is_digit (pretty_N_go n s) = true.
Proof.
  revert n s. apply (pretty_N_go_ind (fun n s r => str_forall is_digit s = true ->
    str_forall is_digit r = true)); [done|].
  intros n s r Hn IH Hs. apply IH. simpl. rewrite Hs.
  destruct (pretty_N_char_digit (n mod 10)) as [-> _]; [by apply N.mod_lt|done].
Qed.

Lemma int_digits_digit acc b n s : (n < 10)%N ->
  int_digits acc b (String (pretty_N_char n) s) = int_digits (10 * acc + Z.of_N n) true s.
Proof. intros H. destruct (pretty_N_char_digit n H) as [Hd Hv]. simpl. by rewrite Hd, Hv. Qed.

Lemma pretty_N_go_value b n s :
  n <> 0%N -> int_digits 0 b (pretty_N_go n s) = int_digits (Z.of_N n) true s.
Proof.
  revert s. induction n as [n IH] using (well_founded_induction N.lt_wf_0). intros s Hn.
  rewrite pretty_N_go_step by lia.
  assert (Hm : (n mod 10 < 10)%N) by (by apply N.mod_lt).
  assert (E10 : 10 * Z.of_N (n / 10) + Z.of_N (n mod 10) = Z.of_N n).
  { rewrite N2Z.inj_div, N2Z.inj_mod by done. symmetry. apply Z.div_mod. done. }
  destruct (decide (n / 10 = 0)%N) as [E|E].
  - rewrite E in *. rewrite pretty_N_go_0, int_digits_digit by done. by rewrite <- E10.
  - rewrite IH by (done || apply N.div_lt; lia). by rewrite int_digits_digit, E10.
Qed.

Lemma str_of_int_digits n : 0 <= n ->
  str_forall is_digit (str_of_int n) = true /\ str_of_int n <> EmptyString.
Proof.
  intros Hn. destruct n as [|p|p]; [done| |lia].
  change (str_of_int (Zpos p)) with (pretty_N_go (Npos p) EmptyString).
  split; [by apply pretty_N_go_digits|].
  intros E. pose proof (pretty_N_go_value true (Npos p) EmptyString ltac:(done)) as H.
  rewrite E in H. simpl in H. congruence.
Qed.

(** Printing and reading back an integer that is not negative. *)
Lemma py_int_str_of_int n : 0 <= n -> py_int (str_of_int n) = Ok n.
Proof.
  intros Hn. destruct (str_of_int_digits n Hn) as [Hd Hne]. unfold py_int.
  rewrite strip_id by (by apply (str_forall_impl is_digit); [apply digit_not_space|]).
  assert (Hv : int_digits 0 false (str_of_int n) = Some n).
  { destruct n as [|p|p]; [done| |lia].
    change (str_of_int (Zpos p)) with (pretty_N_go (Npos p) EmptyString).
    by rewrite pretty_N_go_value. }
  destruct (str_of_int n) as [|c r] eqn:E; [done|].
  simpl in Hd. apply andb_true_iff in Hd as [Hc _].
  destruct (Ascii.eqb_spec c "-"%char) as [->|_]; [done|].
  destruct (Ascii.eqb_spec c "+"%char) as [->|_]; [done|].
  rewrite Hv. f_equal. lia.
Qed.

Lemma split_dot_nodot s :
  str_forall (fun c => negb (Ascii.eqb c dot)) s = true -> split_dot s = [s].
Proof.
  induction s as [|c s IH]; simpl; [done|]. intros [Hc Hs]%andb_true_iff.
  apply negb_true_iff in Hc. by rewrite Hc, IH.
Qed.

Lemma split_dot_app p s :
  str_forall (fun c => negb (Ascii.eqb c dot)) p = true ->
  split_dot (p +:+ String dot EmptyString +:+ s) = p :: split_dot s.
Proof.
  induction p as [|c p IH]; [done|]. rewrite str_cons_app. simpl.
  intros [Hc Hp]%andb_true_iff. apply negb_true_iff in Hc. by rewrite Hc, IH.
Qed.

(** Splitting what was joined from parts without dots. *)
Lemma split_join_dot ps :
  Forall (fun p => str_forall (fun c => negb (Ascii.eqb c dot)) p = true) ps ->
  ps <> [] -> split_dot (join_dot ps) = ps.
Proof.
  induction 1 as [|p ps Hp Hps IH]; [done|]. intros _.
  destruct ps as [|q ps]; [by apply split_dot_nodot|].
  change (join_dot (p :: q :: ps)) with (p +:+ String dot EmptyString +:+ join_dot (q :: ps)).
  by rewrite split_dot_app, IH.
Qed.

Lemma map_res_ok {A B} (f : A -> res B) (g : A -> B) xs :
  (forall x, x ∈ xs -> f x = Ok (g x)) -> map_res f xs = Ok (map g xs).
Proof.
  induction xs as [|x xs IH]; intros H; [done|]. simpl. rewrite H by left.
  unfold mbind, res_bind. rewrite IH by (intros; apply H; by right). done.
Qed.
