(* ===== verification/PyJson.v ===== *)
(** * JSON values

    Documents are values of [PyVal] (dicts with text keys, lists, numbers,
    texts); the file holds the sorting of keys that [json.dumps(sort_keys=True)]
    and the canonical serializers do, reading a field of a document, and their
    laws. *)

From Stdlib Require Import SpecFloat.
From S2P Require Import Prelude PyFloat PyVal PyText.
Open Scope Z_scope.

(** [sort_keys=True] sorts the keys of every object. *)
Definition item_leb (p q : string * pyval) : bool := str_leb p.1 q.1.

Fixpoint sort_keys (v : pyval) : pyval :=
  match v with
  | VList vs => VList (map sort_keys vs)
  | VDict d => VDict (sort_by item_leb (map (fun p => (p.1, sort_keys p.2)) d))
  | _ => v
  end.

(** ** Sorting *)

Section SortKeys.
Context {A : Type} (leb : A -> A -> bool).

Lemma sort_by_id l : Sorted (fun a b => leb a b = true) l -> sort_by leb l = l.
Proof.
  induction 1 as [|x l Hs IH Hhd]; simpl; [done|]. rewrite IH.
  destruct Hhd as [|y l Hxy]; simpl; [done|]. by rewrite Hxy.
Qed.

Lemma sort_by_map (f : A -> A) l :
  (forall x y, leb (f x) (f y) = leb x y) -> sort_by leb (map f l) = map f (sort_by leb l).
Proof.
  intros Hf. induction l as [|x l IH]; simpl; [done|]. rewrite IH.
  generalize (sort_by leb l). clear -Hf. intros l.
  induction l as [|y l IH]; simpl; [done|]. rewrite Hf. destruct (leb x y); simpl; [done|].
  by rewrite IH.
Qed.
End SortKeys.

Lemma item_leb_total p q : item_leb p q = false -> item_leb q p = true.
Proof. apply str_leb_total. Qed.

Section PyvalInd.
Variable P : pyval -> Prop.
Hypothesis P_atom : forall v, match v with VList _ | VDict _ => False | _ => True end -> P v.
Hypothesis P_list : forall vs, Forall P vs -> P (VList vs).
Hypothesis P_dict : forall d, Forall (fun p => P p.2) d -> P (VDict d).

Fixpoint pyval_nested_ind (v : pyval) : P v.
Proof.
  destruct v as [| | | | |vs|d]; try (by apply P_atom).
  - apply P_list. induction vs; constructor; [apply pyval_nested_ind|done].
  - apply P_dict. induction d; constructor; [apply pyval_nested_ind|done].
Defined.
End PyvalInd.

Abbreviation sort_item := (fun p : string * pyval => (p.1, sort_keys p.2)).

Lemma sort_keys_idem v : sort_keys (sort_keys v) = sort_keys v.
Proof.
  induction v as [v Hv|vs IH|d IH] using pyval_nested_ind.
  - by destruct v.
  - simpl. f_equal. rewrite map_map. apply map_ext_in. intros v Hv%list_elem_of_In.
    rewrite Forall_forall in IH. by apply IH.
  - simpl. f_equal.
    rewrite <- (sort_by_map _ sort_item) by done.
    rewrite sort_by_id by (apply sort_by_sorted, item_leb_total).
    rewrite map_map. f_equal. apply map_ext_in. intros p Hp%list_elem_of_In.
    rewrite Forall_forall in IH. simpl. by rewrite IH.
Qed.


(** ** Reading a document *)

Definition type_name (v : pyval) : string :=
  match v with
  | VNone => "NoneType" | VBool _ => "bool" | VInt _ => "int" | VFloat _ => "float"
  | VStr _ => "str" | VList _ => "list" | VDict _ => "dict"
  end.

(** [v.get(k, default)]: only a dict has the method. *)
Definition get (k : string) (default v : pyval) : res pyval :=
  match v with
  | VDict d => Ok (dget_or k d default)
  | _ => Raise (AttributeError ("'" +:+ type_name v +:+ "' object has no attribute 'get'"))
  end.

(** The characters of an ASCII text. *)
Fixpoint chars (s : string) : list pyval :=
  match s with
  | EmptyString => []
  | String c s' => VStr (String c EmptyString) :: chars s'
  end.

(** [iter(v)]: the items of a list, the characters of a text, the keys of a dict. *)
Definition iter_of (v : pyval) : res (list pyval) :=
  match v with
  | VList vs => Ok vs
  | VStr s => Ok (chars s)
  | VDict d => Ok (map VStr (dkeys d))
  | _ => Raise (TypeError ("'" +:+ type_name v +:+ "' object is not iterable"))
  end.

(** [tuple(v.get(k, []))], and [tuple(f(x) for x in v.get(k, []))]. *)
Definition items (k : string) (v : pyval) : res (list pyval) :=
  x ← get k (VList []) v; iter_of x.
Definition each {A} (k : string) (f : pyval -> res A) (v : pyval) : res (list A) :=
  xs ← items k v; map_res f xs.

(** [str] and [repr] of a value. *)
Class Texts := { py_str : pyval -> string; py_repr : pyval -> string }.

(** [Class(v)] of a str enum: the member whose value [v] is. *)
Definition enum_of `{Texts} {E : Type} (class_name : string) (members : list (string * E))
    (v : pyval) : res E :=
  match (match v with VStr s => dget s members | _ => None end) with
  | Some e => Ok e
  | None => Raise (ValueError (py_repr v +:+ " is not a valid " +:+ class_name))
  end.

(** *** Laws *)

(** [dget], with a test of texts that computes. *)
Fixpoint field_of (k : string) (d : pydict) : option pyval :=
  match d with
  | [] => None
  | (k', v) :: d' => if String.eqb k k' then Some v else field_of k d'
  end.

Lemma field_of_dget k d : field_of k d = dget k d.
Proof.
  induction d as [|[k' v] d IH]; [done|]. cbn [field_of dget]. rewrite IH.
  destruct (String.eqb_spec k k'); [by rewrite decide_True|by rewrite decide_False].
Qed.

Lemma dget_perm {V} k (d d' : list (string * V)) : dict_ok d -> d ≡ₚ d' -> dget k d = dget k d'.
Proof.
  intros Hd HP. assert (Hd' : dict_ok d') by (unfold dict_ok, dkeys in *; by rewrite <- HP).
  destruct (dget k d) as [v|] eqn:E.
  - apply dget_elem in E. rewrite HP in E. symmetry. by apply elem_dget.
  - apply dget_None in E. symmetry. apply dget_None. unfold dkeys in *. by rewrite <- HP.
Qed.

Lemma dget_map_snd {V W} (f : V -> W) k (d : list (string * V)) :
  dget k (map (fun p => (p.1, f p.2)) d) = f <$> dget k d.
Proof. induction d as [|[k' v] d IH]; [done|]. simpl. case_decide; [done|]. exact IH. Qed.

Lemma dkeys_map_snd {V W} (f : V -> W) (d : list (string * V)) :
  dkeys (map (fun p => (p.1, f p.2)) d) = dkeys d.
Proof. unfold dkeys. by rewrite map_map. Qed.

(** Sorting keys does not change what is read, up to sorting it. *)
Lemma get_sorted k default d :
  dict_ok d ->
  get k default (sort_keys (VDict d))
  = Ok (match field_of k d with Some v => sort_keys v | None => default end).
Proof.
  intros Hd. cbn [sort_keys get]. unfold dget_or. rewrite field_of_dget.
  rewrite (dget_perm k _ (map sort_item d)), dget_map_snd.
  - by destruct (dget k d).
  - unfold dict_ok, dkeys in *. rewrite sort_by_perm. by rewrite map_map.
  - apply sort_by_perm.
Qed.

(** Documents with sorted keys. *)
Definition canonical (v : pyval) : Prop := sort_keys v = v.

Lemma canonical_sorted v : canonical (sort_keys v).
Proof. apply sort_keys_idem. Qed.

Lemma list_fixed {A} (f : A -> A) l x : map f l = l -> x ∈ l -> f x = x.
Proof.
  induction l as [|y l IH]; simpl; [intros _ H; by apply not_elem_of_nil in H|].
  injection 1 as Hy Hl. intros [->|Hx]%elem_of_cons; auto.
Qed.

Lemma canonical_list vs : canonical (VList vs) <-> Forall canonical vs.
Proof.
  unfold canonical. simpl. rewrite Forall_forall. split.
  - injection 1 as H. intros x Hx. by apply (list_fixed _ vs).
  - intros H. f_equal. rewrite <- (map_id vs) at 2. apply map_ext_in. intros x Hx. apply H.
    by apply list_elem_of_In.
Qed.

Lemma canonical_get k default v x :
  canonical v -> canonical default -> get k default v = Ok x -> canonical x.
Proof.
  intros Hv Hd. destruct v as [| | | | | |d]; try done. cbn [get]. injection 1 as <-.
  unfold dget_or. destruct (dget k d) as [y|] eqn:E; [|done].
  apply dget_elem in E. unfold canonical in Hv. cbn [sort_keys] in Hv. injection Hv as Hv.
  assert (Hin : (k, y) ∈ map sort_item d) by (rewrite <- (sort_by_perm item_leb), Hv; done).
  apply list_elem_of_In, in_map_iff in Hin as ([k' y'] & Heq & _). injection Heq as _ <-.
  apply canonical_sorted.
Qed.

Lemma canonical_iter v xs : canonical v -> iter_of v = Ok xs -> Forall canonical xs.
Proof.
  destruct v as [| | | |s|vs|d]; try done; intros Hv; injection 1 as <-.
  - clear. induction s; simpl; constructor; done.
  - by apply canonical_list.
  - clear. unfold dkeys. rewrite map_map. induction d; simpl; constructor; done.
Qed.

(** ** A codec of values and texts, for examples *)

Fixpoint bits_of (p : positive) : string :=
  match p with
  | xH => EmptyString
  | xO p' => String (Ascii.ascii_of_nat 48) (bits_of p')
  | xI p' => String (Ascii.ascii_of_nat 49) (bits_of p')
  end.
Fixpoint pos_of (s : string) : positive :=
  match s with
  | EmptyString => xH
  | String c s' => if Ascii.eqb c (Ascii.ascii_of_nat 48) then xO (pos_of s') else xI (pos_of s')
  end.

Lemma pos_of_bits p : pos_of (bits_of p) = p.
Proof. induction p as [p IH|p IH|]; simpl; by rewrite ?IH. Qed.


(** Values as trees of texts and integers. *)
Definition float_code (x : spec_float) : list Z :=
  match x with
  | S754_zero s => [0; if s then 1 else 0]
  | S754_infinity s => [1; if s then 1 else 0]
  | S754_nan => [2]
  | S754_finite s m e => [3; if s then 1 else 0; Zpos m; e]
  end.

Fixpoint tree_of (v : pyval) : gen_tree (string + Z) :=
  match v with
  | VNone => GenNode 0 []
  | VBool b => GenNode 1 [GenLeaf (inr (if b then 1 else 0))]
  | VInt n => GenNode 2 [GenLeaf (inr n)]
  | VFloat x => GenNode 3 (map (fun n => GenLeaf (inr n)) (float_code x))
  | VStr s => GenNode 4 [GenLeaf (inl s)]
  | VList vs => GenNode 5 (map tree_of vs)
  | VDict d => GenNode 6 (map (fun p => GenNode 7 [GenLeaf (inl p.1); tree_of p.2]) d)
  end.

Fixpoint of_tree (t : gen_tree (string + Z)) : pyval :=
  match t with
  | GenNode 1 [GenLeaf (inr n)] => VBool (Z.eqb n 1)
  | GenNode 2 [GenLeaf (inr n)] => VInt n
  | GenNode 3 [GenLeaf (inr 0); GenLeaf (inr s)] => VFloat (S754_zero (Z.eqb s 1))
  | GenNode 3 [GenLeaf (inr 1); GenLeaf (inr s)] => VFloat (S754_infinity (Z.eqb s 1))
  | GenNode 3 [GenLeaf (inr 2)] => VFloat S754_nan
  | GenNode 3 [GenLeaf (inr 3); GenLeaf (inr s); GenLeaf (inr (Zpos m)); GenLeaf (inr e)] =>
      VFloat (S754_finite (Z.eqb s 1) m e)
  | GenNode 4 [GenLeaf (inl s)] => VStr s
  | GenNode 5 ts => VList (map of_tree ts)
  | GenNode 6 ts => VDict (map (fun t => match t with
                                         | GenNode 7 [GenLeaf (inl k); t'] => (k, of_tree t')
                                         | _ => ("", VNone)
                                         end) ts)
  | _ => VNone
  end.

Lemma of_tree_of v : of_tree (tree_of v) = v.
Proof.
  induction v as [v Hv|vs IH|d IH] using pyval_nested_ind.
  - destruct v as [|[]|n|x|s| |]; try done. by destruct x as [[]|[]| |[] m e].
  - simpl. f_equal. rewrite map_map. rewrite <- (map_id vs) at 2. apply map_ext_in.
    intros v Hv%list_elem_of_In. rewrite Forall_forall in IH. by apply IH.
  - simpl. f_equal. rewrite map_map. rewrite <- (map_id d) at 2. apply map_ext_in.
    intros [k v] Hv%list_elem_of_In. rewrite Forall_forall in IH. f_equal. by apply (IH (k, v)).
Qed.

Definition value_text (v : pyval) : string := bits_of (encode (tree_of v)).
Definition text_value (s : string) : res pyval :=
  match decode (A := gen_tree (string + Z)) (pos_of s) with
  | Some t => Ok (of_tree t)
  | None => Raise (ValueError "not json")
  end.

Lemma text_value_text v : text_value (value_text v) = Ok v.
Proof. unfold text_value, value_text. by rewrite pos_of_bits, decode_encode, of_tree_of. Qed.
