(* ===== verification/IsrModel.v ===== *)
(** * The typed vocabulary of the ISR

    [constitutional_architecture/isr/model]: node types, edge types, edge
    attributes, and the table of the connections each edge type allows. *)

From Stdlib Require Import SpecFloat.
From S2P Require Import Prelude PyFloat PyVal PyText.

Inductive NodeType : Set :=
| N_SYSTEM | N_MODULE | N_ENTITY | N_SERVICE | N_WORKFLOW | N_POLICY | N_INTERFACE
| N_EVENT | N_DEPLOYMENT | N_CONSTRAINT | N_FIELD | N_OPERATION | N_STATE
| N_TRANSITION | N_RULE | N_PERMISSION | N_ENDPOINT | N_CONFIGURATION
| N_DOCUMENTATION | N_TEST_STRATEGY.

#[export] Instance NodeType_eq_dec : EqDecision NodeType.
Proof. solve_decision. Defined.

Definition is_container (t : NodeType) : bool :=
  mem t [N_SYSTEM; N_MODULE; N_ENTITY; N_SERVICE; N_WORKFLOW; N_POLICY; N_INTERFACE;
         N_DEPLOYMENT].

Definition is_leaf (t : NodeType) : bool :=
  mem t [N_FIELD; N_OPERATION; N_STATE; N_RULE; N_PERMISSION; N_ENDPOINT; N_CONFIGURATION].

Inductive EdgeType : Set :=
| E_OWNS | E_DEPENDS_ON | E_EMITS | E_CONSUMES | E_REFERENCES | E_IMPLEMENTS
| E_SECURED_BY | E_DEPLOYS_TO | E_ORCHESTRATES | E_CONSTRAINS | E_CONTAINS
| E_TRANSITIONS_TO | E_TRIGGERS | E_VALIDATES | E_DOCUMENTS | E_TESTS.

#[export] Instance EdgeType_eq_dec : EqDecision EdgeType.
Proof. solve_decision. Defined.

Inductive CouplingStrength : Set := TIGHT | MODERATE | LOOSE | NO_COUPLING.
Inductive CommunicationMode : Set := SYNC | ASYNC.
Inductive Criticality : Set := CRITICAL | HIGH | MEDIUM | LOW.

Record EdgeAttributes : Set := {
  coupling_strength : CouplingStrength;
  communication_mode : CommunicationMode;
  criticality : Criticality;
  latency_budget_ms : option float;
  ea_description : string;
  ea_metadata : list (string * string);
}.

Definition default_edge_attributes : EdgeAttributes := {|
  coupling_strength := MODERATE; communication_mode := SYNC; criticality := MEDIUM;
  latency_budget_ms := None; ea_description := ""; ea_metadata := [] |}.

Record EdgeDefinition : Set := {
  ed_type : EdgeType;
  valid_sources : list NodeType;
  valid_targets : list NodeType;
  min_cardinality : Z;
  max_cardinality : Z;
  ed_description : string;
}.

Definition edge_def t src tgt d : EdgeDefinition := {|
  ed_type := t; valid_sources := src; valid_targets := tgt;
  min_cardinality := 0; max_cardinality := -1; ed_description := d |}.

Definition is_valid_connection (d : EdgeDefinition) (source target : NodeType) : bool :=
  mem source (valid_sources d) && mem target (valid_targets d).

Definition EDGE_DEFINITIONS : list (EdgeType * EdgeDefinition) :=
  let entry t src tgt d := (t, edge_def t src tgt d) in
  [ entry E_OWNS
      [N_SYSTEM; N_MODULE; N_ENTITY; N_SERVICE; N_WORKFLOW; N_POLICY; N_INTERFACE; N_DEPLOYMENT]
      [N_MODULE; N_ENTITY; N_SERVICE; N_WORKFLOW; N_POLICY; N_INTERFACE; N_FIELD;
       N_OPERATION; N_STATE; N_RULE; N_PERMISSION; N_ENDPOINT; N_EVENT; N_CONSTRAINT;
       N_DEPLOYMENT; N_CONFIGURATION; N_DOCUMENTATION; N_TEST_STRATEGY]
      "Containment / responsibility relationship";
    entry E_DEPENDS_ON [N_SERVICE; N_MODULE; N_WORKFLOW] [N_SERVICE; N_MODULE; N_INTERFACE]
      "Runtime or build dependency";
    entry E_EMITS [N_SERVICE; N_WORKFLOW] [N_EVENT] "Produces a domain event";
    entry E_CONSUMES [N_SERVICE; N_WORKFLOW] [N_EVENT] "Subscribes to a domain event";
    entry E_REFERENCES [N_ENTITY; N_FIELD] [N_ENTITY] "Data relationship between entities";
    entry E_IMPLEMENTS [N_SERVICE] [N_INTERFACE] "Realises an interface contract";
    entry E_SECURED_BY [N_INTERFACE; N_ENDPOINT; N_SERVICE] [N_POLICY]
      "Protected by a security policy";
    entry E_DEPLOYS_TO [N_SERVICE; N_MODULE; N_SYSTEM] [N_DEPLOYMENT] "Infrastructure binding";
    entry E_ORCHESTRATES [N_WORKFLOW] [N_SERVICE; N_OPERATION]
      "Workflow coordination of services";
    entry E_CONSTRAINS [N_CONSTRAINT; N_POLICY]
      [N_ENTITY; N_SERVICE; N_INTERFACE; N_MODULE; N_FIELD; N_ENDPOINT]
      "Applies a rule or constraint";
    entry E_CONTAINS
      [N_SYSTEM; N_MODULE; N_ENTITY; N_SERVICE; N_WORKFLOW; N_POLICY; N_INTERFACE; N_DEPLOYMENT]
      [N_MODULE; N_ENTITY; N_SERVICE; N_WORKFLOW; N_POLICY; N_INTERFACE; N_FIELD;
       N_OPERATION; N_STATE; N_TRANSITION; N_RULE; N_PERMISSION; N_ENDPOINT; N_EVENT;
       N_CONSTRAINT; N_CONFIGURATION; N_DOCUMENTATION; N_TEST_STRATEGY]
      "Structural containment";
    entry E_TRANSITIONS_TO [N_STATE] [N_STATE] "State machine transition";
    entry E_TRIGGERS [N_TRANSITION; N_EVENT] [N_OPERATION; N_SERVICE; N_WORKFLOW]
      "Triggers an action";
    entry E_VALIDATES [N_CONSTRAINT; N_RULE] [N_FIELD; N_ENTITY; N_OPERATION]
      "Validates a field or operation";
    entry E_DOCUMENTS [N_DOCUMENTATION]
      [N_SYSTEM; N_MODULE; N_ENTITY; N_SERVICE; N_INTERFACE; N_WORKFLOW]
      "Documents an architectural element";
    entry E_TESTS [N_TEST_STRATEGY]
      [N_SERVICE; N_ENTITY; N_INTERFACE; N_WORKFLOW; N_MODULE]
      "Tests an architectural element" ].

(** * ISR: the representation of changes

    [isr/eir/taxonomy.py] and [isr/eir/model.py]: the categories and classes of
    transformations, the transformations the system knows, and the records of a
    change. *)

#[local] Open Scope Z_scope.

(** ** Taxonomy *)

Inductive MutationCategory : Set :=
| MC_STRUCTURAL | MC_TOPOLOGICAL | MC_STRATEGIC | MC_BEHAVIOURAL | MC_OPERATIONAL | MC_SECURITY
| MC_SCALABILITY | MC_RELIABILITY | MC_PERFORMANCE | MC_MAINTAINABILITY.
#[export] Instance MutationCategory_eq_dec : EqDecision MutationCategory.
Proof. solve_decision. Defined.

Inductive MutationClass : Set := CL_STRUCTURAL | CL_STRATEGIC | CL_ADDITIVE | CL_PARAMETRIC | CL_TOPOLOGICAL.
#[export] Instance MutationClass_eq_dec : EqDecision MutationClass.
Proof. solve_decision. Defined.

Definition risk_level (c : MutationClass) : string :=
  match c with
  | CL_STRUCTURAL => "high" | CL_STRATEGIC => "medium" | CL_ADDITIVE => "low" | CL_PARAMETRIC => "low"
  | CL_TOPOLOGICAL => "medium_high"
  end.
Definition requires_revalidation (c : MutationClass) : bool := mem c [CL_STRUCTURAL; CL_TOPOLOGICAL].

Definition KNOWN_TRANSFORMATIONS : list (string * (MutationCategory * MutationClass * string)) :=
  [("split_module", (MC_STRUCTURAL, CL_STRUCTURAL, "Split a module into two"));
   ("merge_services", (MC_STRUCTURAL, CL_STRUCTURAL, "Merge two services into one"));
   ("extract_interface", (MC_STRUCTURAL, CL_STRUCTURAL, "Extract an interface from a service"));
   ("replace_auth_strategy", (MC_SECURITY, CL_STRATEGIC, "Replace authentication strategy"));
   ("introduce_event_bus", (MC_TOPOLOGICAL, CL_TOPOLOGICAL, "Introduce event-driven communication"));
   ("introduce_cache", (MC_PERFORMANCE, CL_ADDITIVE, "Add caching layer"));
   ("add_read_replica", (MC_SCALABILITY, CL_ADDITIVE, "Add database read replica"));
   ("enable_cqrs", (MC_STRATEGIC, CL_STRATEGIC, "Enable CQRS pattern"));
   ("convert_sync_to_async", (MC_TOPOLOGICAL, CL_TOPOLOGICAL, "Convert synchronous call to async event"));
   ("add_rate_limiting", (MC_SECURITY, CL_ADDITIVE, "Add rate limiting"));
   ("add_audit_logging", (MC_SECURITY, CL_ADDITIVE, "Add audit logging"));
   ("add_circuit_breaker", (MC_RELIABILITY, CL_ADDITIVE, "Add circuit breaker pattern"));
   ("change_scaling_policy", (MC_SCALABILITY, CL_PARAMETRIC, "Modify scaling parameters"));
   ("adjust_ttl", (MC_PERFORMANCE, CL_PARAMETRIC, "Adjust cache/session TTL"));
   ("add_health_check", (MC_OPERATIONAL, CL_ADDITIVE, "Add health check endpoint"));
   ("introduce_event_sourcing", (MC_STRATEGIC, CL_STRATEGIC, "Enable event sourcing"))].

(** ** Records *)

Record Transformation : Set := {
  tf_id : string;
  tf_transformation_type : string;
  tf_category : MutationCategory;
  tf_mutation_class : MutationClass;
  tf_target_node_id : string;
  tf_description : string;
  tf_parameters : pydict;
  tf_fitness_impact : list (string * float);
  tf_reversible : bool;
  tf_inverse_transformation : option string;
  tf_rationale : pyval;
  tf_confidence : pyval;
}.

Record EIR : Set := {
  ei_id : string;
  ei_source_isr_hash : string;
  ei_target_isr_hash : string;
  ei_transformations : list Transformation;
  ei_proposed_by : string;
  ei_generation : Z;
  ei_fitness_delta : list (string * float);
  ei_created_at : Z;
  ei_metadata : pydict;
}.

Definition transformation_count (e : EIR) : Z := Z.of_nat (length (ei_transformations e)).
Definition is_reversible (e : EIR) : bool := forallb tf_reversible (ei_transformations e).
Fixpoint join_with (sep : string) (ss : list string) : string :=
  match ss with
  | [] => ""
  | [s] => s
  | s :: ss => s +:+ sep +:+ join_with sep ss
  end.
Definition summary (e : EIR) : string :=
  match ei_transformations e with
  | [] => "Empty transformation set"
  | ts => join_with "; " (List.filter truthy (map tf_description ts))
  end.
