(* ===== verification/IsrRecords.v ===== *)
(** * ISR: the records of the software model

    The dataclasses of [constitutional_architecture/isr/model/] as the serializer
    sees them, and [dataclasses.asdict] of each.  A dataclass does not check the
    types of its fields, so a field that holds no enum and no record of the
    model is a dynamically typed value.  The carriers of isr/semantics/ in a
    system and a module are held as [asdict] leaves them. *)

From S2P Require Import Prelude PyFloat PyVal PyText PyJson.
Open Scope Z_scope.

(** ** Enums *)

Inductive FieldType : Set := | FT_STRING | FT_TEXT | FT_INTEGER | FT_FLOAT | FT_DECIMAL
  | FT_BOOLEAN | FT_DATE | FT_DATETIME | FT_TIME | FT_UUID | FT_IDENTIFIER | FT_EMAIL | FT_URL
  | FT_ENUM | FT_JSON | FT_BINARY | FT_ARRAY | FT_REFERENCE.
Definition field_type_members : list (string * FieldType) :=
  [("string", FT_STRING); ("text", FT_TEXT); ("integer", FT_INTEGER); ("float", FT_FLOAT);
   ("decimal", FT_DECIMAL); ("boolean", FT_BOOLEAN); ("date", FT_DATE);
   ("datetime", FT_DATETIME); ("time", FT_TIME); ("uuid", FT_UUID);
   ("identifier", FT_IDENTIFIER); ("email", FT_EMAIL); ("url", FT_URL); ("enum", FT_ENUM);
   ("json", FT_JSON); ("binary", FT_BINARY); ("array", FT_ARRAY); ("reference", FT_REFERENCE)].
Definition field_type_value (e : FieldType) : string :=
  match e with | FT_STRING => "string" | FT_TEXT => "text" | FT_INTEGER => "integer"
  | FT_FLOAT => "float" | FT_DECIMAL => "decimal" | FT_BOOLEAN => "boolean" | FT_DATE => "date"
  | FT_DATETIME => "datetime" | FT_TIME => "time" | FT_UUID => "uuid"
  | FT_IDENTIFIER => "identifier" | FT_EMAIL => "email" | FT_URL => "url" | FT_ENUM => "enum"
  | FT_JSON => "json" | FT_BINARY => "binary" | FT_ARRAY => "array"
  | FT_REFERENCE => "reference" end.

Inductive FieldCardinality : Set := | FC_REQUIRED | FC_OPTIONAL | FC_LIST.
Definition field_cardinality_members : list (string * FieldCardinality) :=
  [("required", FC_REQUIRED); ("optional", FC_OPTIONAL); ("list", FC_LIST)].
Definition field_cardinality_value (e : FieldCardinality) : string :=
  match e with | FC_REQUIRED => "required" | FC_OPTIONAL => "optional" | FC_LIST => "list" end.

Inductive ConstraintScope : Set := | SC_SYSTEM | SC_MODULE | SC_ENTITY | SC_SERVICE | SC_FIELD
  | SC_INTERFACE | SC_GLOBAL.
Definition constraint_scope_members : list (string * ConstraintScope) :=
  [("system", SC_SYSTEM); ("module", SC_MODULE); ("entity", SC_ENTITY); ("service", SC_SERVICE);
   ("field", SC_FIELD); ("interface", SC_INTERFACE); ("global", SC_GLOBAL)].
Definition constraint_scope_value (e : ConstraintScope) : string :=
  match e with | SC_SYSTEM => "system" | SC_MODULE => "module" | SC_ENTITY => "entity"
  | SC_SERVICE => "service" | SC_FIELD => "field" | SC_INTERFACE => "interface"
  | SC_GLOBAL => "global" end.

Inductive ConstraintSeverity : Set := | SV_ERROR | SV_WARNING | SV_INFO.
Definition constraint_severity_members : list (string * ConstraintSeverity) :=
  [("error", SV_ERROR); ("warning", SV_WARNING); ("info", SV_INFO)].
Definition constraint_severity_value (e : ConstraintSeverity) : string :=
  match e with | SV_ERROR => "error" | SV_WARNING => "warning" | SV_INFO => "info" end.

Inductive OperationType : Set := | OT_COMMAND | OT_QUERY | OT_EVENT_HANDLER | OT_SCHEDULED
  | OT_INTERNAL.
Definition operation_type_members : list (string * OperationType) :=
  [("command", OT_COMMAND); ("query", OT_QUERY); ("event_handler", OT_EVENT_HANDLER);
   ("scheduled", OT_SCHEDULED); ("internal", OT_INTERNAL)].
Definition operation_type_value (e : OperationType) : string :=
  match e with | OT_COMMAND => "command" | OT_QUERY => "query"
  | OT_EVENT_HANDLER => "event_handler" | OT_SCHEDULED => "scheduled"
  | OT_INTERNAL => "internal" end.

Inductive StateType : Set := | ST_INITIAL | ST_INTERMEDIATE | ST_FINAL | ST_ERROR.
Definition state_type_members : list (string * StateType) :=
  [("initial", ST_INITIAL); ("intermediate", ST_INTERMEDIATE); ("final", ST_FINAL);
   ("error", ST_ERROR)].
Definition state_type_value (e : StateType) : string :=
  match e with | ST_INITIAL => "initial" | ST_INTERMEDIATE => "intermediate"
  | ST_FINAL => "final" | ST_ERROR => "error" end.

Inductive PolicyType : Set := | PT_AUTHENTICATION | PT_AUTHORIZATION | PT_ENCRYPTION
  | PT_RATE_LIMITING | PT_AUDIT | PT_DATA_RETENTION | PT_COMPLIANCE | PT_OPERATIONAL.
Definition policy_type_members : list (string * PolicyType) :=
  [("authentication", PT_AUTHENTICATION); ("authorization", PT_AUTHORIZATION);
   ("encryption", PT_ENCRYPTION); ("rate_limiting", PT_RATE_LIMITING); ("audit", PT_AUDIT);
   ("data_retention", PT_DATA_RETENTION); ("compliance", PT_COMPLIANCE);
   ("operational", PT_OPERATIONAL)].
Definition policy_type_value (e : PolicyType) : string :=
  match e with | PT_AUTHENTICATION => "authentication" | PT_AUTHORIZATION => "authorization"
  | PT_ENCRYPTION => "encryption" | PT_RATE_LIMITING => "rate_limiting" | PT_AUDIT => "audit"
  | PT_DATA_RETENTION => "data_retention" | PT_COMPLIANCE => "compliance"
  | PT_OPERATIONAL => "operational" end.

Inductive InterfaceType : Set := | IT_REST | IT_GRAPHQL | IT_GRPC | IT_EVENT_SUBSCRIPTION
  | IT_WEBSOCKET | IT_INTERNAL.
Definition interface_type_members : list (string * InterfaceType) :=
  [("rest", IT_REST); ("graphql", IT_GRAPHQL); ("grpc", IT_GRPC);
   ("event_subscription", IT_EVENT_SUBSCRIPTION); ("websocket", IT_WEBSOCKET);
   ("internal", IT_INTERNAL)].
Definition interface_type_value (e : InterfaceType) : string :=
  match e with | IT_REST => "rest" | IT_GRAPHQL => "graphql" | IT_GRPC => "grpc"
  | IT_EVENT_SUBSCRIPTION => "event_subscription" | IT_WEBSOCKET => "websocket"
  | IT_INTERNAL => "internal" end.

Inductive HttpMethod : Set := | HM_GET | HM_POST | HM_PUT | HM_PATCH | HM_DELETE | HM_HEAD
  | HM_OPTIONS.
Definition http_method_members : list (string * HttpMethod) :=
  [("GET", HM_GET); ("POST", HM_POST); ("PUT", HM_PUT); ("PATCH", HM_PATCH);
   ("DELETE", HM_DELETE); ("HEAD", HM_HEAD); ("OPTIONS", HM_OPTIONS)].
Definition http_method_value (e : HttpMethod) : string :=
  match e with | HM_GET => "GET" | HM_POST => "POST" | HM_PUT => "PUT" | HM_PATCH => "PATCH"
  | HM_DELETE => "DELETE" | HM_HEAD => "HEAD" | HM_OPTIONS => "OPTIONS" end.

Inductive EventPattern : Set := | EP_FIRE_AND_FORGET | EP_PUBLISH_SUBSCRIBE | EP_POINT_TO_POINT
  | EP_REQUEST_REPLY.
Definition event_pattern_members : list (string * EventPattern) :=
  [("fire_and_forget", EP_FIRE_AND_FORGET); ("publish_subscribe", EP_PUBLISH_SUBSCRIBE);
   ("point_to_point", EP_POINT_TO_POINT); ("request_reply", EP_REQUEST_REPLY)].
Definition event_pattern_value (e : EventPattern) : string :=
  match e with | EP_FIRE_AND_FORGET => "fire_and_forget"
  | EP_PUBLISH_SUBSCRIBE => "publish_subscribe" | EP_POINT_TO_POINT => "point_to_point"
  | EP_REQUEST_REPLY => "request_reply" end.

Inductive EventGuarantee : Set := | EG_AT_MOST_ONCE | EG_AT_LEAST_ONCE | EG_EXACTLY_ONCE.
Definition event_guarantee_members : list (string * EventGuarantee) :=
  [("at_most_once", EG_AT_MOST_ONCE); ("at_least_once", EG_AT_LEAST_ONCE);
   ("exactly_once", EG_EXACTLY_ONCE)].
Definition event_guarantee_value (e : EventGuarantee) : string :=
  match e with | EG_AT_MOST_ONCE => "at_most_once" | EG_AT_LEAST_ONCE => "at_least_once"
  | EG_EXACTLY_ONCE => "exactly_once" end.

Inductive ScalingStrategy : Set := | SS_HORIZONTAL | SS_VERTICAL | SS_AUTO | SS_NONE.
Definition scaling_strategy_members : list (string * ScalingStrategy) :=
  [("horizontal", SS_HORIZONTAL); ("vertical", SS_VERTICAL); ("auto", SS_AUTO);
   ("none", SS_NONE)].
Definition scaling_strategy_value (e : ScalingStrategy) : string :=
  match e with | SS_HORIZONTAL => "horizontal" | SS_VERTICAL => "vertical" | SS_AUTO => "auto"
  | SS_NONE => "none" end.

Inductive EnvironmentTier : Set := | ET_DEVELOPMENT | ET_STAGING | ET_PRODUCTION.
Definition environment_tier_members : list (string * EnvironmentTier) :=
  [("development", ET_DEVELOPMENT); ("staging", ET_STAGING); ("production", ET_PRODUCTION)].
Definition environment_tier_value (e : EnvironmentTier) : string :=
  match e with | ET_DEVELOPMENT => "development" | ET_STAGING => "staging"
  | ET_PRODUCTION => "production" end.

(** ** Records and [asdict] *)

(** None, or what becomes of the value. *)
Definition optional {A} (f : A -> pyval) (o : option A) : pyval :=
  match o with Some a => f a | None => VNone end.

Record FieldConstraint : Set := { fc_name : pyval; fc_constraint_type : pyval;
  fc_parameters : pyval; fc_message : pyval }.

Definition asdict_field_constraint (x : FieldConstraint) : pyval := VDict
  [("name", fc_name x); ("constraint_type", fc_constraint_type x);
   ("parameters", fc_parameters x); ("message", fc_message x)].

Record Field : Set := { fl_name : pyval; fl_field_type : FieldType;
  fl_cardinality : FieldCardinality; fl_description : pyval; fl_default_value : pyval;
  fl_constraints : list FieldConstraint; fl_enum_values : list pyval;
  fl_reference_target : pyval; fl_is_primary_key : pyval; fl_is_indexed : pyval;
  fl_metadata : pyval; fl_abstract_source_type : pyval }.

Definition asdict_field (x : Field) : pyval := VDict
  [("name", fl_name x); ("field_type", VStr (field_type_value (fl_field_type x)));
   ("cardinality", VStr (field_cardinality_value (fl_cardinality x)));
   ("description", fl_description x); ("default_value", fl_default_value x);
   ("constraints", VList (map asdict_field_constraint (fl_constraints x)));
   ("enum_values", VList (fl_enum_values x)); ("reference_target", fl_reference_target x);
   ("is_primary_key", fl_is_primary_key x); ("is_indexed", fl_is_indexed x);
   ("metadata", fl_metadata x); ("abstract_source_type", fl_abstract_source_type x)].

Record Constraint : Set := { cn_id : pyval; cn_name : pyval; cn_scope : ConstraintScope;
  cn_severity : ConstraintSeverity; cn_description : pyval; cn_rule_type : pyval;
  cn_parameters : pyval; cn_target_node_ids : list pyval; cn_message : pyval }.

Definition asdict_constraint (x : Constraint) : pyval := VDict
  [("id", cn_id x); ("name", cn_name x); ("scope", VStr (constraint_scope_value (cn_scope x)));
   ("severity", VStr (constraint_severity_value (cn_severity x)));
   ("description", cn_description x); ("rule_type", cn_rule_type x);
   ("parameters", cn_parameters x); ("target_node_ids", VList (cn_target_node_ids x));
   ("message", cn_message x)].

Record Relationship : Set := { re_target_entity_id : pyval; re_relationship_type : pyval;
  re_field_name : pyval; re_inverse_field_name : pyval; re_cascade_delete : pyval;
  re_description : pyval }.

Definition asdict_relationship (x : Relationship) : pyval := VDict
  [("target_entity_id", re_target_entity_id x); ("relationship_type", re_relationship_type x);
   ("field_name", re_field_name x); ("inverse_field_name", re_inverse_field_name x);
   ("cascade_delete", re_cascade_delete x); ("description", re_description x)].

Record Entity : Set := { en_id : pyval; en_name : pyval; en_description : pyval;
  en_fields : list Field; en_relationships : list Relationship;
  en_constraints : list Constraint; en_is_aggregate_root : pyval; en_is_value_object : pyval;
  en_metadata : pyval; en_owning_service_id : pyval; en_invariants : list pyval;
  en_consistency_posture : pyval }.

Definition asdict_entity (x : Entity) : pyval := VDict
  [("id", en_id x); ("name", en_name x); ("description", en_description x);
   ("fields", VList (map asdict_field (en_fields x)));
   ("relationships", VList (map asdict_relationship (en_relationships x)));
   ("constraints", VList (map asdict_constraint (en_constraints x)));
   ("is_aggregate_root", en_is_aggregate_root x); ("is_value_object", en_is_value_object x);
   ("metadata", en_metadata x); ("owning_service_id", en_owning_service_id x);
   ("invariants", VList (en_invariants x)); ("consistency_posture", en_consistency_posture x)].

Record Operation : Set := { op_id : pyval; op_name : pyval; op_operation_type : OperationType;
  op_description : pyval; op_input_schema : list Field; op_output_schema : list Field;
  op_is_idempotent : pyval; op_is_public : pyval; op_required_permissions : list pyval;
  op_metadata : pyval }.

Definition asdict_operation (x : Operation) : pyval := VDict
  [("id", op_id x); ("name", op_name x);
   ("operation_type", VStr (operation_type_value (op_operation_type x)));
   ("description", op_description x);
   ("input_schema", VList (map asdict_field (op_input_schema x)));
   ("output_schema", VList (map asdict_field (op_output_schema x)));
   ("is_idempotent", op_is_idempotent x); ("is_public", op_is_public x);
   ("required_permissions", VList (op_required_permissions x)); ("metadata", op_metadata x)].

Record ServiceDependency : Set := { sd_target_service_id : pyval; sd_dependency_type : pyval;
  sd_is_required : pyval; sd_description : pyval }.

Definition asdict_service_dependency (x : ServiceDependency) : pyval := VDict
  [("target_service_id", sd_target_service_id x); ("dependency_type", sd_dependency_type x);
   ("is_required", sd_is_required x); ("description", sd_description x)].

Record Service : Set := { sv_id : pyval; sv_name : pyval; sv_description : pyval;
  sv_operations : list Operation; sv_dependencies : list ServiceDependency;
  sv_emitted_events : list pyval; sv_consumed_events : list pyval; sv_is_stateless : pyval;
  sv_metadata : pyval; sv_domain_id : pyval; sv_responsibility_refs : list pyval;
  sv_exposed_capability_refs : list pyval; sv_communication_styles : list pyval }.

Definition asdict_service (x : Service) : pyval := VDict
  [("id", sv_id x); ("name", sv_name x); ("description", sv_description x);
   ("operations", VList (map asdict_operation (sv_operations x)));
   ("dependencies", VList (map asdict_service_dependency (sv_dependencies x)));
   ("emitted_events", VList (sv_emitted_events x));
   ("consumed_events", VList (sv_consumed_events x)); ("is_stateless", sv_is_stateless x);
   ("metadata", sv_metadata x); ("domain_id", sv_domain_id x);
   ("responsibility_refs", VList (sv_responsibility_refs x));
   ("exposed_capability_refs", VList (sv_exposed_capability_refs x));
   ("communication_styles", VList (sv_communication_styles x))].

Record WorkflowState : Set := { ws_id : pyval; ws_name : pyval; ws_state_type : StateType;
  ws_description : pyval; ws_entry_actions : list pyval; ws_exit_actions : list pyval;
  ws_metadata : pyval }.

Definition asdict_workflow_state (x : WorkflowState) : pyval := VDict
  [("id", ws_id x); ("name", ws_name x);
   ("state_type", VStr (state_type_value (ws_state_type x))); ("description", ws_description x);
   ("entry_actions", VList (ws_entry_actions x)); ("exit_actions", VList (ws_exit_actions x));
   ("metadata", ws_metadata x)].

Record WorkflowTransition : Set := { wt_id : pyval; wt_name : pyval; wt_from_state_id : pyval;
  wt_to_state_id : pyval; wt_trigger : pyval; wt_guard_condition : pyval;
  wt_actions : list pyval; wt_description : pyval; wt_metadata : pyval }.

Definition asdict_workflow_transition (x : WorkflowTransition) : pyval := VDict
  [("id", wt_id x); ("name", wt_name x); ("from_state_id", wt_from_state_id x);
   ("to_state_id", wt_to_state_id x); ("trigger", wt_trigger x);
   ("guard_condition", wt_guard_condition x); ("actions", VList (wt_actions x));
   ("description", wt_description x); ("metadata", wt_metadata x)].

Record Workflow : Set := { wf_id : pyval; wf_name : pyval; wf_description : pyval;
  wf_states : list WorkflowState; wf_transitions : list WorkflowTransition; wf_metadata : pyval }.

Definition asdict_workflow (x : Workflow) : pyval := VDict
  [("id", wf_id x); ("name", wf_name x); ("description", wf_description x);
   ("states", VList (map asdict_workflow_state (wf_states x)));
   ("transitions", VList (map asdict_workflow_transition (wf_transitions x)));
   ("metadata", wf_metadata x)].

Record PolicyRule : Set := { pr_id : pyval; pr_name : pyval; pr_description : pyval;
  pr_rule_type : pyval; pr_parameters : pyval; pr_priority : pyval }.

Definition asdict_policy_rule (x : PolicyRule) : pyval := VDict
  [("id", pr_id x); ("name", pr_name x); ("description", pr_description x);
   ("rule_type", pr_rule_type x); ("parameters", pr_parameters x); ("priority", pr_priority x)].

Record Permission : Set := { pm_id : pyval; pm_name : pyval; pm_description : pyval;
  pm_resource : pyval; pm_actions : list pyval; pm_conditions : list pyval }.

Definition asdict_permission (x : Permission) : pyval := VDict
  [("id", pm_id x); ("name", pm_name x); ("description", pm_description x);
   ("resource", pm_resource x); ("actions", VList (pm_actions x));
   ("conditions", VList (pm_conditions x))].

Record Policy : Set := { po_id : pyval; po_name : pyval; po_policy_type : PolicyType;
  po_description : pyval; po_strategy : pyval; po_roles : list pyval;
  po_rules : list PolicyRule; po_permissions : list Permission; po_metadata : pyval }.

Definition asdict_policy (x : Policy) : pyval := VDict
  [("id", po_id x); ("name", po_name x);
   ("policy_type", VStr (policy_type_value (po_policy_type x)));
   ("description", po_description x); ("strategy", po_strategy x);
   ("roles", VList (po_roles x)); ("rules", VList (map asdict_policy_rule (po_rules x)));
   ("permissions", VList (map asdict_permission (po_permissions x)));
   ("metadata", po_metadata x)].

Record Endpoint : Set := { ep_id : pyval; ep_name : pyval; ep_path : pyval;
  ep_method : HttpMethod; ep_description : pyval; ep_input_schema : list Field;
  ep_output_schema : list Field; ep_required_permissions : list pyval; ep_is_public : pyval;
  ep_rate_limit : pyval; ep_metadata : pyval }.

Definition asdict_endpoint (x : Endpoint) : pyval := VDict
  [("id", ep_id x); ("name", ep_name x); ("path", ep_path x);
   ("method", VStr (http_method_value (ep_method x))); ("description", ep_description x);
   ("input_schema", VList (map asdict_field (ep_input_schema x)));
   ("output_schema", VList (map asdict_field (ep_output_schema x)));
   ("required_permissions", VList (ep_required_permissions x)); ("is_public", ep_is_public x);
   ("rate_limit", ep_rate_limit x); ("metadata", ep_metadata x)].

Record Interface : Set := { if_id : pyval; if_name : pyval; if_interface_type : InterfaceType;
  if_description : pyval; if_version : pyval; if_endpoints : list Endpoint;
  if_secured_by_policy_id : pyval; if_is_internal : pyval; if_metadata : pyval }.

Definition asdict_interface (x : Interface) : pyval := VDict
  [("id", if_id x); ("name", if_name x);
   ("interface_type", VStr (interface_type_value (if_interface_type x)));
   ("description", if_description x); ("version", if_version x);
   ("endpoints", VList (map asdict_endpoint (if_endpoints x)));
   ("secured_by_policy_id", if_secured_by_policy_id x); ("is_internal", if_is_internal x);
   ("metadata", if_metadata x)].

Record Event : Set := { ev_id : pyval; ev_name : pyval; ev_description : pyval;
  ev_schema : list Field; ev_pattern : option EventPattern; ev_guarantee : EventGuarantee;
  ev_ordering_required : pyval; ev_ttl_seconds : pyval; ev_metadata : pyval;
  ev_ordering_semantics : pyval; ev_producer_service_id : pyval;
  ev_consumer_service_ids : list pyval; ev_payload_model_id : pyval }.

Definition asdict_event (x : Event) : pyval := VDict
  [("id", ev_id x); ("name", ev_name x); ("description", ev_description x);
   ("schema", VList (map asdict_field (ev_schema x)));
   ("pattern", optional (fun e => VStr (event_pattern_value e)) (ev_pattern x));
   ("guarantee", VStr (event_guarantee_value (ev_guarantee x)));
   ("ordering_required", ev_ordering_required x); ("ttl_seconds", ev_ttl_seconds x);
   ("metadata", ev_metadata x); ("ordering_semantics", ev_ordering_semantics x);
   ("producer_service_id", ev_producer_service_id x);
   ("consumer_service_ids", VList (ev_consumer_service_ids x));
   ("payload_model_id", ev_payload_model_id x)].

Record ScalingConfig : Set := { sg_strategy : ScalingStrategy; sg_min_instances : pyval;
  sg_max_instances : pyval; sg_target_cpu_percent : pyval; sg_target_memory_percent : pyval }.

Definition asdict_scaling_config (x : ScalingConfig) : pyval := VDict
  [("strategy", VStr (scaling_strategy_value (sg_strategy x)));
   ("min_instances", sg_min_instances x); ("max_instances", sg_max_instances x);
   ("target_cpu_percent", sg_target_cpu_percent x);
   ("target_memory_percent", sg_target_memory_percent x)].

Record NetworkingConfig : Set := { nc_expose_publicly : pyval; nc_internal_dns : pyval;
  nc_tls_required : pyval; nc_allowed_origins : list pyval; nc_port : pyval }.

Definition asdict_networking_config (x : NetworkingConfig) : pyval := VDict
  [("expose_publicly", nc_expose_publicly x); ("internal_dns", nc_internal_dns x);
   ("tls_required", nc_tls_required x); ("allowed_origins", VList (nc_allowed_origins x));
   ("port", nc_port x)].

Record MonitoringConfig : Set := { mc_health_check_path : pyval;
  mc_readiness_check_path : pyval; mc_metrics_enabled : pyval; mc_tracing_enabled : pyval;
  mc_structured_logging : pyval; mc_alert_rules : list pyval }.

Definition asdict_monitoring_config (x : MonitoringConfig) : pyval := VDict
  [("health_check_path", mc_health_check_path x);
   ("readiness_check_path", mc_readiness_check_path x);
   ("metrics_enabled", mc_metrics_enabled x); ("tracing_enabled", mc_tracing_enabled x);
   ("structured_logging", mc_structured_logging x); ("alert_rules", VList (mc_alert_rules x))].

Record StorageConfig : Set := { so_persistent_storage_required : pyval;
  so_storage_size_gb : pyval; so_backup_enabled : pyval; so_encryption_at_rest : pyval }.

Definition asdict_storage_config (x : StorageConfig) : pyval := VDict
  [("persistent_storage_required", so_persistent_storage_required x);
   ("storage_size_gb", so_storage_size_gb x); ("backup_enabled", so_backup_enabled x);
   ("encryption_at_rest", so_encryption_at_rest x)].

Record SecretsConfig : Set := { se_secrets : list pyval; se_rotation_policy_days : pyval;
  se_encryption_in_transit : pyval }.

Definition asdict_secrets_config (x : SecretsConfig) : pyval := VDict
  [("secrets", VList (se_secrets x)); ("rotation_policy_days", se_rotation_policy_days x);
   ("encryption_in_transit", se_encryption_in_transit x)].

Record Deployment : Set := { dp_id : pyval; dp_name : pyval; dp_description : pyval;
  dp_environment : EnvironmentTier; dp_scaling : ScalingConfig;
  dp_networking : NetworkingConfig; dp_monitoring : MonitoringConfig;
  dp_storage : StorageConfig; dp_secrets : SecretsConfig; dp_metadata : pyval }.

Definition asdict_deployment (x : Deployment) : pyval := VDict
  [("id", dp_id x); ("name", dp_name x); ("description", dp_description x);
   ("environment", VStr (environment_tier_value (dp_environment x)));
   ("scaling", asdict_scaling_config (dp_scaling x));
   ("networking", asdict_networking_config (dp_networking x));
   ("monitoring", asdict_monitoring_config (dp_monitoring x));
   ("storage", asdict_storage_config (dp_storage x));
   ("secrets", asdict_secrets_config (dp_secrets x)); ("metadata", dp_metadata x)].

Record Component : Set := { cp_component_id : pyval; cp_service_id : pyval; cp_name : pyval;
  cp_responsibility : pyval; cp_kind : pyval }.

Definition asdict_component (x : Component) : pyval := VDict
  [("component_id", cp_component_id x); ("service_id", cp_service_id x); ("name", cp_name x);
   ("responsibility", cp_responsibility x); ("kind", cp_kind x)].

Record ApiOperationContract : Set := { ao_name : pyval; ao_description : pyval;
  ao_semantics : pyval; ao_idempotent : pyval }.

Definition asdict_api_operation_contract (x : ApiOperationContract) : pyval := VDict
  [("name", ao_name x); ("description", ao_description x); ("semantics", ao_semantics x);
   ("idempotent", ao_idempotent x)].

Record ApiContract : Set := { ac_api_id : pyval; ac_name : pyval;
  ac_provider_service_id : pyval; ac_consumer_service_ids : list pyval;
  ac_interaction_style : pyval; ac_operations : list ApiOperationContract }.

Definition asdict_api_contract (x : ApiContract) : pyval := VDict
  [("api_id", ac_api_id x); ("name", ac_name x);
   ("provider_service_id", ac_provider_service_id x);
   ("consumer_service_ids", VList (ac_consumer_service_ids x));
   ("interaction_style", ac_interaction_style x);
   ("operations", VList (map asdict_api_operation_contract (ac_operations x)))].

(** The class [Module]. *)
Record ModuleISR : Set := { md_id : pyval; md_name : pyval; md_description : pyval;
  md_entities : list Entity; md_services : list Service; md_workflows : list Workflow;
  md_policies : list Policy; md_interfaces : list Interface; md_events : list Event;
  md_dependencies : list pyval; md_metadata : pyval; md_temporal_constraints : list pyval;
  md_data_migrations : list pyval; md_components : list Component;
  md_capability_refs : list pyval; md_api_contracts : list ApiContract;
  md_ubiquitous_language : list pyval }.

Definition asdict_module (x : ModuleISR) : pyval := VDict
  [("id", md_id x); ("name", md_name x); ("description", md_description x);
   ("entities", VList (map asdict_entity (md_entities x)));
   ("services", VList (map asdict_service (md_services x)));
   ("workflows", VList (map asdict_workflow (md_workflows x)));
   ("policies", VList (map asdict_policy (md_policies x)));
   ("interfaces", VList (map asdict_interface (md_interfaces x)));
   ("events", VList (map asdict_event (md_events x)));
   ("dependencies", VList (md_dependencies x)); ("metadata", md_metadata x);
   ("temporal_constraints", VList (md_temporal_constraints x));
   ("data_migrations", VList (md_data_migrations x));
   ("components", VList (map asdict_component (md_components x)));
   ("capability_refs", VList (md_capability_refs x));
   ("api_contracts", VList (map asdict_api_contract (md_api_contracts x)));
   ("ubiquitous_language", VList (md_ubiquitous_language x))].

Record SystemMetadata : Set := { sm_version : pyval; sm_authors : list pyval;
  sm_license : pyval; sm_description : pyval; sm_tags : list pyval }.

Definition asdict_system_metadata (x : SystemMetadata) : pyval := VDict
  [("version", sm_version x); ("authors", VList (sm_authors x)); ("license", sm_license x);
   ("description", sm_description x); ("tags", VList (sm_tags x))].

Record System : Set := { sy_id : pyval; sy_name : pyval; sy_description : pyval;
  sy_modules : list ModuleISR; sy_deployment : option Deployment; sy_metadata : SystemMetadata;
  sy_global_policies : list pyval; sy_constraints : list pyval;
  sy_business_capabilities : list pyval; sy_reliability_requirements : list pyval;
  sy_architectural_boundaries : list pyval; sy_requirements : list pyval;
  sy_requirement_graph_ref : pyval; sy_requirement_source_metadata : list pyval;
  sy_requirement_relations : list pyval; sy_intent_architecture_ref : pyval;
  sy_security_posture : pyval; sy_infrastructure_posture : pyval; sy_deployment_posture : pyval;
  sy_testing_posture : pyval; sy_documentation_posture : pyval; sy_operational_posture : pyval;
  sy_acceptance_criteria : list pyval; sy_deployment_intents : list pyval;
  sy_testing_anchors : list pyval; sy_documentation_intents : list pyval;
  sy_evolution_objectives : list pyval; sy_protected_regions : list pyval;
  sy_evolution_policies : list pyval; sy_architectural_decisions : list pyval;
  sy_security_threats : list pyval }.

Definition asdict_system (x : System) : pyval := VDict
  [("id", sy_id x); ("name", sy_name x); ("description", sy_description x);
   ("modules", VList (map asdict_module (sy_modules x)));
   ("deployment", optional asdict_deployment (sy_deployment x));
   ("metadata", asdict_system_metadata (sy_metadata x));
   ("global_policies", VList (sy_global_policies x)); ("constraints", VList (sy_constraints x));
   ("business_capabilities", VList (sy_business_capabilities x));
   ("reliability_requirements", VList (sy_reliability_requirements x));
   ("architectural_boundaries", VList (sy_architectural_boundaries x));
   ("requirements", VList (sy_requirements x));
   ("requirement_graph_ref", sy_requirement_graph_ref x);
   ("requirement_source_metadata", VList (sy_requirement_source_metadata x));
   ("requirement_relations", VList (sy_requirement_relations x));
   ("intent_architecture_ref", sy_intent_architecture_ref x);
   ("security_posture", sy_security_posture x);
   ("infrastructure_posture", sy_infrastructure_posture x);
   ("deployment_posture", sy_deployment_posture x); ("testing_posture", sy_testing_posture x);
   ("documentation_posture", sy_documentation_posture x);
   ("operational_posture", sy_operational_posture x);
   ("acceptance_criteria", VList (sy_acceptance_criteria x));
   ("deployment_intents", VList (sy_deployment_intents x));
   ("testing_anchors", VList (sy_testing_anchors x));
   ("documentation_intents", VList (sy_documentation_intents x));
   ("evolution_objectives", VList (sy_evolution_objectives x));
   ("protected_regions", VList (sy_protected_regions x));
   ("evolution_policies", VList (sy_evolution_policies x));
   ("architectural_decisions", VList (sy_architectural_decisions x));
   ("security_threats", VList (sy_security_threats x))].

Record ISRProvenance : Set := {
  pv_created_at : Z; pv_created_by : pyval; pv_parent_hash : pyval;
  pv_mutation_description : pyval; pv_evolution_run_id : pyval; pv_generation : pyval }.

Record ISR : Set := {
  is_system : System; is_version : pyval; is_provenance : ISRProvenance;
  is_content_hash : pyval }.

(** [isoformat] is the text of a datetime, which the serializer writes. *)
Definition asdict_isr_provenance (isoformat : Z -> string) (x : ISRProvenance) : pyval := VDict
  [("created_at", VStr (isoformat (pv_created_at x))); ("created_by", pv_created_by x);
   ("parent_hash", pv_parent_hash x); ("mutation_description", pv_mutation_description x);
   ("evolution_run_id", pv_evolution_run_id x); ("generation", pv_generation x)].

Definition asdict_isr (isoformat : Z -> string) (x : ISR) : pyval := VDict
  [("system", asdict_system (is_system x)); ("version", is_version x);
   ("provenance", asdict_isr_provenance isoformat (is_provenance x));
   ("_content_hash", is_content_hash x)].
