(* ===== verification/IsrSerial.v ===== *)
(** * ISR: serializer and deserializer

    [constitutional_architecture/isr/serialization/serializer.py] and
    [deserializer.py].  The clock's answer for the provenance of a loaded ISR and
    the JSON codec are arguments; texts that are iterated over are ASCII. *)

From S2P Require Import Prelude PyFloat PyVal PyText PyJson IsrRecords.
Open Scope Z_scope.

(** ** ISRSerializer *)

(** [ISRSerializer._to_dict]: enums that are texts stay as they are, tuples
    become lists, the items of dicts are sorted by key. *)
Definition to_dict (isoformat : Z -> string) (isr : ISR) : pyval :=
  sort_keys (asdict_isr isoformat isr).

Definition to_canonical_json (isoformat : Z -> string) (dumps : pyval -> string) (isr : ISR)
    : string := dumps (sort_keys (to_dict isoformat isr)).

(** ** ISRDeserializer *)

Section Deserializer.
Context `{Texts}.

(** [Field.__post_init__]. *)
Definition field_ok (f : Field) : bool :=
  match fl_field_type f with
  | FT_ENUM => match fl_enum_values f with [] => false | _ => true end
  | FT_REFERENCE => val_truthy (fl_reference_target f)
  | _ => true
  end.

Definition check_field (f : Field) : res Field :=
  if field_ok f then Ok f
  else Raise (ValueError ("Field '" +:+ py_str (fl_name f) +:+ "' is " +:+
    match fl_field_type f with
    | FT_ENUM => "ENUM but has no enum_values"
    | _ => "REFERENCE but has no reference_target"
    end)).

Definition deserialize_field_constraint (data : pyval) : res FieldConstraint :=
  name ← get "name" (VStr "") data;
  constraint_type ← get "constraint_type" (VStr "") data;
  parameters ← get "parameters" (VDict []) data;
  message ← get "message" (VStr "") data;
  mret {| fc_name := name; fc_constraint_type := constraint_type; fc_parameters := parameters;
       fc_message := message |}.

Definition deserialize_field (data : pyval) : res Field :=
  name ← get "name" (VStr "") data;
  field_type ← get "field_type" (VStr "string") data;
  field_type ← enum_of "FieldType" field_type_members field_type;
  cardinality ← get "cardinality" (VStr "required") data;
  cardinality ← enum_of "FieldCardinality" field_cardinality_members cardinality;
  description ← get "description" (VStr "") data;
  default_value ← get "default_value" VNone data;
  constraints ← each "constraints" deserialize_field_constraint data;
  enum_values ← items "enum_values" data;
  reference_target ← get "reference_target" VNone data;
  is_primary_key ← get "is_primary_key" (VBool false) data;
  is_indexed ← get "is_indexed" (VBool false) data;
  metadata ← get "metadata" (VDict []) data;
  check_field {| fl_name := name; fl_field_type := field_type; fl_cardinality := cardinality;
                 fl_description := description; fl_default_value := default_value;
                 fl_constraints := constraints; fl_enum_values := enum_values;
                 fl_reference_target := reference_target; fl_is_primary_key := is_primary_key;
                 fl_is_indexed := is_indexed; fl_metadata := metadata;
                 fl_abstract_source_type := VNone |}.

Definition deserialize_constraint (data : pyval) : res Constraint :=
  id ← get "id" (VStr "") data;
  name ← get "name" (VStr "") data;
  scope ← get "scope" (VStr "entity") data;
  scope ← enum_of "ConstraintScope" constraint_scope_members scope;
  severity ← get "severity" (VStr "error") data;
  severity ← enum_of "ConstraintSeverity" constraint_severity_members severity;
  description ← get "description" (VStr "") data;
  rule_type ← get "rule_type" (VStr "") data;
  parameters ← get "parameters" (VDict []) data;
  target_node_ids ← items "target_node_ids" data;
  message ← get "message" (VStr "") data;
  mret {| cn_id := id; cn_name := name; cn_scope := scope; cn_severity := severity;
       cn_description := description; cn_rule_type := rule_type; cn_parameters := parameters;
       cn_target_node_ids := target_node_ids; cn_message := message |}.

Definition deserialize_relationship (data : pyval) : res Relationship :=
  target_entity_id ← get "target_entity_id" (VStr "") data;
  relationship_type ← get "relationship_type" (VStr "") data;
  field_name ← get "field_name" (VStr "") data;
  inverse_field_name ← get "inverse_field_name" (VStr "") data;
  cascade_delete ← get "cascade_delete" (VBool false) data;
  description ← get "description" (VStr "") data;
  mret {| re_target_entity_id := target_entity_id; re_relationship_type := relationship_type;
       re_field_name := field_name; re_inverse_field_name := inverse_field_name;
       re_cascade_delete := cascade_delete; re_description := description |}.

Definition deserialize_entity (data : pyval) : res Entity :=
  id ← get "id" (VStr "") data;
  name ← get "name" (VStr "") data;
  description ← get "description" (VStr "") data;
  fields ← each "fields" deserialize_field data;
  relationships ← each "relationships" deserialize_relationship data;
  constraints ← each "constraints" deserialize_constraint data;
  is_aggregate_root ← get "is_aggregate_root" (VBool false) data;
  is_value_object ← get "is_value_object" (VBool false) data;
  metadata ← get "metadata" (VDict []) data;
  mret {| en_id := id; en_name := name; en_description := description; en_fields := fields;
       en_relationships := relationships; en_constraints := constraints;
       en_is_aggregate_root := is_aggregate_root; en_is_value_object := is_value_object;
       en_metadata := metadata; en_owning_service_id := VNone; en_invariants := [];
       en_consistency_posture := VStr "strong" |}.

Definition deserialize_operation (data : pyval) : res Operation :=
  id ← get "id" (VStr "") data;
  name ← get "name" (VStr "") data;
  operation_type ← get "operation_type" (VStr "command") data;
  operation_type ← enum_of "OperationType" operation_type_members operation_type;
  description ← get "description" (VStr "") data;
  is_idempotent ← get "is_idempotent" (VBool false) data;
  is_public ← get "is_public" (VBool true) data;
  required_permissions ← items "required_permissions" data;
  metadata ← get "metadata" (VDict []) data;
  mret {| op_id := id; op_name := name; op_operation_type := operation_type;
       op_description := description; op_input_schema := []; op_output_schema := [];
       op_is_idempotent := is_idempotent; op_is_public := is_public;
       op_required_permissions := required_permissions; op_metadata := metadata |}.

Definition deserialize_service_dependency (data : pyval) : res ServiceDependency :=
  target_service_id ← get "target_service_id" (VStr "") data;
  dependency_type ← get "dependency_type" (VStr "runtime") data;
  is_required ← get "is_required" (VBool true) data;
  description ← get "description" (VStr "") data;
  mret {| sd_target_service_id := target_service_id; sd_dependency_type := dependency_type;
       sd_is_required := is_required; sd_description := description |}.

Definition deserialize_service (data : pyval) : res Service :=
  id ← get "id" (VStr "") data;
  name ← get "name" (VStr "") data;
  description ← get "description" (VStr "") data;
  operations ← each "operations" deserialize_operation data;
  dependencies ← each "dependencies" deserialize_service_dependency data;
  emitted_events ← items "emitted_events" data;
  consumed_events ← items "consumed_events" data;
  is_stateless ← get "is_stateless" (VBool true) data;
  metadata ← get "metadata" (VDict []) data;
  mret {| sv_id := id; sv_name := name; sv_description := description; sv_operations := operations;
       sv_dependencies := dependencies; sv_emitted_events := emitted_events;
       sv_consumed_events := consumed_events; sv_is_stateless := is_stateless;
       sv_metadata := metadata; sv_domain_id := VNone; sv_responsibility_refs := [];
       sv_exposed_capability_refs := []; sv_communication_styles := [] |}.

Definition deserialize_workflow_state (data : pyval) : res WorkflowState :=
  id ← get "id" (VStr "") data;
  name ← get "name" (VStr "") data;
  state_type ← get "state_type" (VStr "intermediate") data;
  state_type ← enum_of "StateType" state_type_members state_type;
  description ← get "description" (VStr "") data;
  entry_actions ← items "entry_actions" data;
  exit_actions ← items "exit_actions" data;
  metadata ← get "metadata" (VDict []) data;
  mret {| ws_id := id; ws_name := name; ws_state_type := state_type; ws_description := description;
       ws_entry_actions := entry_actions; ws_exit_actions := exit_actions;
       ws_metadata := metadata |}.

Definition deserialize_workflow_transition (data : pyval) : res WorkflowTransition :=
  id ← get "id" (VStr "") data;
  name ← get "name" (VStr "") data;
  from_state_id ← get "from_state_id" (VStr "") data;
  to_state_id ← get "to_state_id" (VStr "") data;
  trigger ← get "trigger" (VStr "") data;
  guard_condition ← get "guard_condition" (VStr "") data;
  actions ← items "actions" data;
  description ← get "description" (VStr "") data;
  metadata ← get "metadata" (VDict []) data;
  mret {| wt_id := id; wt_name := name; wt_from_state_id := from_state_id;
       wt_to_state_id := to_state_id; wt_trigger := trigger;
       wt_guard_condition := guard_condition; wt_actions := actions;
       wt_description := description; wt_metadata := metadata |}.

Definition deserialize_workflow (data : pyval) : res Workflow :=
  id ← get "id" (VStr "") data;
  name ← get "name" (VStr "") data;
  description ← get "description" (VStr "") data;
  states ← each "states" deserialize_workflow_state data;
  transitions ← each "transitions" deserialize_workflow_transition data;
  metadata ← get "metadata" (VDict []) data;
  mret {| wf_id := id; wf_name := name; wf_description := description; wf_states := states;
       wf_transitions := transitions; wf_metadata := metadata |}.

Definition deserialize_policy_rule (data : pyval) : res PolicyRule :=
  id ← get "id" (VStr "") data;
  name ← get "name" (VStr "") data;
  description ← get "description" (VStr "") data;
  rule_type ← get "rule_type" (VStr "") data;
  parameters ← get "parameters" (VDict []) data;
  priority ← get "priority" (VInt 0) data;
  mret {| pr_id := id; pr_name := name; pr_description := description; pr_rule_type := rule_type;
       pr_parameters := parameters; pr_priority := priority |}.

Definition deserialize_permission (data : pyval) : res Permission :=
  id ← get "id" (VStr "") data;
  name ← get "name" (VStr "") data;
  description ← get "description" (VStr "") data;
  resource ← get "resource" (VStr "") data;
  actions ← items "actions" data;
  conditions ← items "conditions" data;
  mret {| pm_id := id; pm_name := name; pm_description := description; pm_resource := resource;
       pm_actions := actions; pm_conditions := conditions |}.

Definition deserialize_policy (data : pyval) : res Policy :=
  id ← get "id" (VStr "") data;
  name ← get "name" (VStr "") data;
  policy_type ← get "policy_type" (VStr "authentication") data;
  policy_type ← enum_of "PolicyType" policy_type_members policy_type;
  description ← get "description" (VStr "") data;
  strategy ← get "strategy" (VStr "") data;
  roles ← items "roles" data;
  rules ← each "rules" deserialize_policy_rule data;
  permissions ← each "permissions" deserialize_permission data;
  metadata ← get "metadata" (VDict []) data;
  mret {| po_id := id; po_name := name; po_policy_type := policy_type; po_description := description;
       po_strategy := strategy; po_roles := roles; po_rules := rules;
       po_permissions := permissions; po_metadata := metadata |}.

Definition deserialize_endpoint (data : pyval) : res Endpoint :=
  id ← get "id" (VStr "") data;
  name ← get "name" (VStr "") data;
  path ← get "path" (VStr "") data;
  method ← get "method" (VStr "GET") data;
  method ← enum_of "HttpMethod" http_method_members method;
  description ← get "description" (VStr "") data;
  required_permissions ← items "required_permissions" data;
  is_public ← get "is_public" (VBool false) data;
  rate_limit ← get "rate_limit" VNone data;
  metadata ← get "metadata" (VDict []) data;
  mret {| ep_id := id; ep_name := name; ep_path := path; ep_method := method;
       ep_description := description; ep_input_schema := []; ep_output_schema := [];
       ep_required_permissions := required_permissions; ep_is_public := is_public;
       ep_rate_limit := rate_limit; ep_metadata := metadata |}.

Definition deserialize_interface (data : pyval) : res Interface :=
  id ← get "id" (VStr "") data;
  name ← get "name" (VStr "") data;
  interface_type ← get "interface_type" (VStr "rest") data;
  interface_type ← enum_of "InterfaceType" interface_type_members interface_type;
  description ← get "description" (VStr "") data;
  version ← get "version" (VStr "1.0") data;
  endpoints ← each "endpoints" deserialize_endpoint data;
  secured_by_policy_id ← get "secured_by_policy_id" VNone data;
  is_internal ← get "is_internal" (VBool false) data;
  metadata ← get "metadata" (VDict []) data;
  mret {| if_id := id; if_name := name; if_interface_type := interface_type;
       if_description := description; if_version := version; if_endpoints := endpoints;
       if_secured_by_policy_id := secured_by_policy_id; if_is_internal := is_internal;
       if_metadata := metadata |}.

Definition deserialize_event (data : pyval) : res Event :=
  id ← get "id" (VStr "") data;
  name ← get "name" (VStr "") data;
  description ← get "description" (VStr "") data;
  schema ← each "schema" deserialize_field data;
  pattern ← get "pattern" (VStr "publish_subscribe") data;
  pattern ← enum_of "EventPattern" event_pattern_members pattern;
  guarantee ← get "guarantee" (VStr "at_least_once") data;
  guarantee ← enum_of "EventGuarantee" event_guarantee_members guarantee;
  ordering_required ← get "ordering_required" (VBool false) data;
  ttl_seconds ← get "ttl_seconds" VNone data;
  metadata ← get "metadata" (VDict []) data;
  mret {| ev_id := id; ev_name := name; ev_description := description; ev_schema := schema;
       ev_pattern := Some pattern; ev_guarantee := guarantee;
       ev_ordering_required := ordering_required; ev_ttl_seconds := ttl_seconds;
       ev_metadata := metadata; ev_ordering_semantics := VStr "none";
       ev_producer_service_id := VNone; ev_consumer_service_ids := [];
       ev_payload_model_id := VNone |}.

Definition deserialize_scaling_config (data : pyval) : res ScalingConfig :=
  strategy ← get "strategy" (VStr "auto") data;
  strategy ← enum_of "ScalingStrategy" scaling_strategy_members strategy;
  min_instances ← get "min_instances" (VInt 1) data;
  max_instances ← get "max_instances" (VInt 10) data;
  target_cpu_percent ← get "target_cpu_percent" (VFloat (of_Z 70)) data;
  target_memory_percent ← get "target_memory_percent" (VFloat (of_Z 80)) data;
  mret {| sg_strategy := strategy; sg_min_instances := min_instances;
       sg_max_instances := max_instances; sg_target_cpu_percent := target_cpu_percent;
       sg_target_memory_percent := target_memory_percent |}.

Definition deserialize_networking_config (data : pyval) : res NetworkingConfig :=
  expose_publicly ← get "expose_publicly" (VBool false) data;
  internal_dns ← get "internal_dns" (VStr "") data;
  tls_required ← get "tls_required" (VBool true) data;
  allowed_origins ← items "allowed_origins" data;
  port ← get "port" (VInt 8080) data;
  mret {| nc_expose_publicly := expose_publicly; nc_internal_dns := internal_dns;
       nc_tls_required := tls_required; nc_allowed_origins := allowed_origins; nc_port := port |}.

Definition deserialize_monitoring_config (data : pyval) : res MonitoringConfig :=
  health_check_path ← get "health_check_path" (VStr "/health") data;
  readiness_check_path ← get "readiness_check_path" (VStr "/ready") data;
  metrics_enabled ← get "metrics_enabled" (VBool true) data;
  tracing_enabled ← get "tracing_enabled" (VBool true) data;
  structured_logging ← get "structured_logging" (VBool true) data;
  alert_rules ← items "alert_rules" data;
  mret {| mc_health_check_path := health_check_path; mc_readiness_check_path := readiness_check_path;
       mc_metrics_enabled := metrics_enabled; mc_tracing_enabled := tracing_enabled;
       mc_structured_logging := structured_logging; mc_alert_rules := alert_rules |}.

Definition deserialize_storage_config (data : pyval) : res StorageConfig :=
  persistent_storage_required ← get "persistent_storage_required" (VBool false) data;
  storage_size_gb ← get "storage_size_gb" VNone data;
  backup_enabled ← get "backup_enabled" (VBool true) data;
  encryption_at_rest ← get "encryption_at_rest" (VBool true) data;
  mret {| so_persistent_storage_required := persistent_storage_required;
       so_storage_size_gb := storage_size_gb; so_backup_enabled := backup_enabled;
       so_encryption_at_rest := encryption_at_rest |}.

Definition deserialize_secrets_config (data : pyval) : res SecretsConfig :=
  secrets ← items "secrets" data;
  rotation_policy_days ← get "rotation_policy_days" (VInt 90) data;
  encryption_in_transit ← get "encryption_in_transit" (VBool true) data;
  mret {| se_secrets := secrets; se_rotation_policy_days := rotation_policy_days;
       se_encryption_in_transit := encryption_in_transit |}.

Definition deserialize_deployment (data : pyval) : res Deployment :=
  scaling_data ← get "scaling" (VDict []) data;
  networking_data ← get "networking" (VDict []) data;
  monitoring_data ← get "monitoring" (VDict []) data;
  storage_data ← get "storage" (VDict []) data;
  secrets_data ← get "secrets" (VDict []) data;
  id ← get "id" (VStr "") data;
  name ← get "name" (VStr "") data;
  description ← get "description" (VStr "") data;
  environment ← get "environment" (VStr "production") data;
  environment ← enum_of "EnvironmentTier" environment_tier_members environment;
  scaling ← deserialize_scaling_config scaling_data;
  networking ← deserialize_networking_config networking_data;
  monitoring ← deserialize_monitoring_config monitoring_data;
  storage ← deserialize_storage_config storage_data;
  secrets ← deserialize_secrets_config secrets_data;
  metadata ← get "metadata" (VDict []) data;
  mret {| dp_id := id; dp_name := name; dp_description := description; dp_environment := environment;
       dp_scaling := scaling; dp_networking := networking; dp_monitoring := monitoring;
       dp_storage := storage; dp_secrets := secrets; dp_metadata := metadata |}.

Definition deserialize_module (data : pyval) : res ModuleISR :=
  id ← get "id" (VStr "") data;
  name ← get "name" (VStr "") data;
  description ← get "description" (VStr "") data;
  entities ← each "entities" deserialize_entity data;
  services ← each "services" deserialize_service data;
  workflows ← each "workflows" deserialize_workflow data;
  policies ← each "policies" deserialize_policy data;
  interfaces ← each "interfaces" deserialize_interface data;
  events ← each "events" deserialize_event data;
  dependencies ← items "dependencies" data;
  metadata ← get "metadata" (VDict []) data;
  mret {| md_id := id; md_name := name; md_description := description; md_entities := entities;
       md_services := services; md_workflows := workflows; md_policies := policies;
       md_interfaces := interfaces; md_events := events; md_dependencies := dependencies;
       md_metadata := metadata; md_temporal_constraints := []; md_data_migrations := [];
       md_components := []; md_capability_refs := []; md_api_contracts := [];
       md_ubiquitous_language := [] |}.

Definition deserialize_system_metadata (data : pyval) : res SystemMetadata :=
  version ← get "version" (VStr "1.0") data;
  authors ← items "authors" data;
  license ← get "license" (VStr "") data;
  description ← get "description" (VStr "") data;
  tags ← items "tags" data;
  mret {| sm_version := version; sm_authors := authors; sm_license := license;
       sm_description := description; sm_tags := tags |}.

Definition deserialize_system (data : pyval) : res System :=
  modules ← each "modules" deserialize_module data;
  deployment_data ← get "deployment" VNone data;
  deployment ← (if val_truthy deployment_data then d ← deserialize_deployment deployment_data; mret (Some d) else mret None);
  metadata_data ← get "metadata" (VDict []) data;
  metadata ← deserialize_system_metadata metadata_data;
  id ← get "id" (VStr "") data;
  name ← get "name" (VStr "") data;
  description ← get "description" (VStr "") data;
  global_policies ← items "global_policies" data;
  mret {| sy_id := id; sy_name := name; sy_description := description; sy_modules := modules;
       sy_deployment := deployment; sy_metadata := metadata;
       sy_global_policies := global_policies; sy_constraints := [];
       sy_business_capabilities := []; sy_reliability_requirements := [];
       sy_architectural_boundaries := []; sy_requirements := [];
       sy_requirement_graph_ref := VNone; sy_requirement_source_metadata := [];
       sy_requirement_relations := []; sy_intent_architecture_ref := VNone;
       sy_security_posture := VNone; sy_infrastructure_posture := VNone;
       sy_deployment_posture := VNone; sy_testing_posture := VNone;
       sy_documentation_posture := VNone; sy_operational_posture := VNone;
       sy_acceptance_criteria := []; sy_deployment_intents := []; sy_testing_anchors := [];
       sy_documentation_intents := []; sy_evolution_objectives := [];
       sy_protected_regions := []; sy_evolution_policies := [];
       sy_architectural_decisions := []; sy_security_threats := [] |}.

(** [from_dict]: the creation time of the provenance is not read; a new one is
    taken from the clock. *)
Definition from_dict (now : Z) (data : pyval) : res ISR :=
  system_data ← get "system" (VDict []) data;
  system ← deserialize_system system_data;
  provenance_data ← get "provenance" (VDict []) data;
  created_by ← get "created_by" (VStr "") provenance_data;
  parent_hash ← get "parent_hash" VNone provenance_data;
  mutation_description ← get "mutation_description" (VStr "") provenance_data;
  evolution_run_id ← get "evolution_run_id" VNone provenance_data;
  generation ← get "generation" (VInt 0) provenance_data;
  version ← get "version" (VInt 1) data;
  mret {| is_system := system; is_version := version;
          is_provenance := {| pv_created_at := now; pv_created_by := created_by;
            pv_parent_hash := parent_hash; pv_mutation_description := mutation_description;
            pv_evolution_run_id := evolution_run_id; pv_generation := generation |};
          is_content_hash := VNone |}.

Definition from_json (loads : string -> res pyval) (now : Z) (text : string) : res ISR :=
  data ← loads text; from_dict now data.
End Deserializer.
