(* ===== verification/IsrSerialSpec.v ===== *)
(** * ISR: theorems on serialization

    What loading a saved ISR gives, for every ISR; what every loaded ISR is like;
    and when saving and loading is the identity. *)

From S2P Require Import Prelude PyFloat PyVal PyText PyJson IsrRecords IsrSerial.
Open Scope Z_scope.

(** ** What a reload makes of each record

    Fields the deserializer does not read fall back to their defaults; the keys
    of the dicts inside the others come back sorted. *)

Definition reload_field_constraint (x : FieldConstraint) : FieldConstraint :=
  {| fc_name := sort_keys (fc_name x); fc_constraint_type := sort_keys (fc_constraint_type x);
     fc_parameters := sort_keys (fc_parameters x); fc_message := sort_keys (fc_message x) |}.

Definition reload_field (x : Field) : Field :=
  {| fl_name := sort_keys (fl_name x); fl_field_type := fl_field_type x;
     fl_cardinality := fl_cardinality x; fl_description := sort_keys (fl_description x);
     fl_default_value := sort_keys (fl_default_value x);
     fl_constraints := map reload_field_constraint (fl_constraints x);
     fl_enum_values := map sort_keys (fl_enum_values x);
     fl_reference_target := sort_keys (fl_reference_target x);
     fl_is_primary_key := sort_keys (fl_is_primary_key x);
     fl_is_indexed := sort_keys (fl_is_indexed x); fl_metadata := sort_keys (fl_metadata x);
     fl_abstract_source_type := VNone |}.

Definition reload_constraint (x : Constraint) : Constraint :=
  {| cn_id := sort_keys (cn_id x); cn_name := sort_keys (cn_name x); cn_scope := cn_scope x;
     cn_severity := cn_severity x; cn_description := sort_keys (cn_description x);
     cn_rule_type := sort_keys (cn_rule_type x); cn_parameters := sort_keys (cn_parameters x);
     cn_target_node_ids := map sort_keys (cn_target_node_ids x);
     cn_message := sort_keys (cn_message x) |}.

Definition reload_relationship (x : Relationship) : Relationship :=
  {| re_target_entity_id := sort_keys (re_target_entity_id x);
     re_relationship_type := sort_keys (re_relationship_type x);
     re_field_name := sort_keys (re_field_name x);
     re_inverse_field_name := sort_keys (re_inverse_field_name x);
     re_cascade_delete := sort_keys (re_cascade_delete x);
     re_description := sort_keys (re_description x) |}.

Definition reload_entity (x : Entity) : Entity :=
  {| en_id := sort_keys (en_id x); en_name := sort_keys (en_name x);
     en_description := sort_keys (en_description x);
     en_fields := map reload_field (en_fields x);
     en_relationships := map reload_relationship (en_relationships x);
     en_constraints := map reload_constraint (en_constraints x);
     en_is_aggregate_root := sort_keys (en_is_aggregate_root x);
     en_is_value_object := sort_keys (en_is_value_object x);
     en_metadata := sort_keys (en_metadata x); en_owning_service_id := VNone;
     en_invariants := []; en_consistency_posture := VStr "strong" |}.

Definition reload_operation (x : Operation) : Operation :=
  {| op_id := sort_keys (op_id x); op_name := sort_keys (op_name x);
     op_operation_type := op_operation_type x; op_description := sort_keys (op_description x);
     op_input_schema := []; op_output_schema := [];
     op_is_idempotent := sort_keys (op_is_idempotent x);
     op_is_public := sort_keys (op_is_public x);
     op_required_permissions := map sort_keys (op_required_permissions x);
     op_metadata := sort_keys (op_metadata x) |}.

Definition reload_service_dependency (x : ServiceDependency) : ServiceDependency :=
  {| sd_target_service_id := sort_keys (sd_target_service_id x);
     sd_dependency_type := sort_keys (sd_dependency_type x);
     sd_is_required := sort_keys (sd_is_required x);
     sd_description := sort_keys (sd_description x) |}.

Definition reload_service (x : Service) : Service :=
  {| sv_id := sort_keys (sv_id x); sv_name := sort_keys (sv_name x);
     sv_description := sort_keys (sv_description x);
     sv_operations := map reload_operation (sv_operations x);
     sv_dependencies := map reload_service_dependency (sv_dependencies x);
     sv_emitted_events := map sort_keys (sv_emitted_events x);
     sv_consumed_events := map sort_keys (sv_consumed_events x);
     sv_is_stateless := sort_keys (sv_is_stateless x); sv_metadata := sort_keys (sv_metadata x);
     sv_domain_id := VNone; sv_responsibility_refs := []; sv_exposed_capability_refs := [];
     sv_communication_styles := [] |}.

Definition reload_workflow_state (x : WorkflowState) : WorkflowState :=
  {| ws_id := sort_keys (ws_id x); ws_name := sort_keys (ws_name x);
     ws_state_type := ws_state_type x; ws_description := sort_keys (ws_description x);
     ws_entry_actions := map sort_keys (ws_entry_actions x);
     ws_exit_actions := map sort_keys (ws_exit_actions x);
     ws_metadata := sort_keys (ws_metadata x) |}.

Definition reload_workflow_transition (x : WorkflowTransition) : WorkflowTransition :=
  {| wt_id := sort_keys (wt_id x); wt_name := sort_keys (wt_name x);
     wt_from_state_id := sort_keys (wt_from_state_id x);
     wt_to_state_id := sort_keys (wt_to_state_id x); wt_trigger := sort_keys (wt_trigger x);
     wt_guard_condition := sort_keys (wt_guard_condition x);
     wt_actions := map sort_keys (wt_actions x); wt_description := sort_keys (wt_description x);
     wt_metadata := sort_keys (wt_metadata x) |}.

Definition reload_workflow (x : Workflow) : Workflow :=
  {| wf_id := sort_keys (wf_id x); wf_name := sort_keys (wf_name x);
     wf_description := sort_keys (wf_description x);
     wf_states := map reload_workflow_state (wf_states x);
     wf_transitions := map reload_workflow_transition (wf_transitions x);
     wf_metadata := sort_keys (wf_metadata x) |}.

Definition reload_policy_rule (x : PolicyRule) : PolicyRule :=
  {| pr_id := sort_keys (pr_id x); pr_name := sort_keys (pr_name x);
     pr_description := sort_keys (pr_description x); pr_rule_type := sort_keys (pr_rule_type x);
     pr_parameters := sort_keys (pr_parameters x); pr_priority := sort_keys (pr_priority x) |}.

Definition reload_permission (x : Permission) : Permission :=
  {| pm_id := sort_keys (pm_id x); pm_name := sort_keys (pm_name x);
     pm_description := sort_keys (pm_description x); pm_resource := sort_keys (pm_resource x);
     pm_actions := map sort_keys (pm_actions x);
     pm_conditions := map sort_keys (pm_conditions x) |}.

Definition reload_policy (x : Policy) : Policy :=
  {| po_id := sort_keys (po_id x); po_name := sort_keys (po_name x);
     po_policy_type := po_policy_type x; po_description := sort_keys (po_description x);
     po_strategy := sort_keys (po_strategy x); po_roles := map sort_keys (po_roles x);
     po_rules := map reload_policy_rule (po_rules x);
     po_permissions := map reload_permission (po_permissions x);
     po_metadata := sort_keys (po_metadata x) |}.

Definition reload_endpoint (x : Endpoint) : Endpoint :=
  {| ep_id := sort_keys (ep_id x); ep_name := sort_keys (ep_name x);
     ep_path := sort_keys (ep_path x); ep_method := ep_method x;
     ep_description := sort_keys (ep_description x); ep_input_schema := [];
     ep_output_schema := [];
     ep_required_permissions := map sort_keys (ep_required_permissions x);
     ep_is_public := sort_keys (ep_is_public x); ep_rate_limit := sort_keys (ep_rate_limit x);
     ep_metadata := sort_keys (ep_metadata x) |}.

Definition reload_interface (x : Interface) : Interface :=
  {| if_id := sort_keys (if_id x); if_name := sort_keys (if_name x);
     if_interface_type := if_interface_type x; if_description := sort_keys (if_description x);
     if_version := sort_keys (if_version x);
     if_endpoints := map reload_endpoint (if_endpoints x);
     if_secured_by_policy_id := sort_keys (if_secured_by_policy_id x);
     if_is_internal := sort_keys (if_is_internal x); if_metadata := sort_keys (if_metadata x) |}.

Definition reload_event (x : Event) : Event :=
  {| ev_id := sort_keys (ev_id x); ev_name := sort_keys (ev_name x);
     ev_description := sort_keys (ev_description x);
     ev_schema := map reload_field (ev_schema x); ev_pattern := ev_pattern x;
     ev_guarantee := ev_guarantee x; ev_ordering_required := sort_keys (ev_ordering_required x);
     ev_ttl_seconds := sort_keys (ev_ttl_seconds x); ev_metadata := sort_keys (ev_metadata x);
     ev_ordering_semantics := VStr "none"; ev_producer_service_id := VNone;
     ev_consumer_service_ids := []; ev_payload_model_id := VNone |}.

Definition reload_scaling_config (x : ScalingConfig) : ScalingConfig :=
  {| sg_strategy := sg_strategy x; sg_min_instances := sort_keys (sg_min_instances x);
     sg_max_instances := sort_keys (sg_max_instances x);
     sg_target_cpu_percent := sort_keys (sg_target_cpu_percent x);
     sg_target_memory_percent := sort_keys (sg_target_memory_percent x) |}.

Definition reload_networking_config (x : NetworkingConfig) : NetworkingConfig :=
  {| nc_expose_publicly := sort_keys (nc_expose_publicly x);
     nc_internal_dns := sort_keys (nc_internal_dns x);
     nc_tls_required := sort_keys (nc_tls_required x);
     nc_allowed_origins := map sort_keys (nc_allowed_origins x);
     nc_port := sort_keys (nc_port x) |}.

Definition reload_monitoring_config (x : MonitoringConfig) : MonitoringConfig :=
  {| mc_health_check_path := sort_keys (mc_health_check_path x);
     mc_readiness_check_path := sort_keys (mc_readiness_check_path x);
     mc_metrics_enabled := sort_keys (mc_metrics_enabled x);
     mc_tracing_enabled := sort_keys (mc_tracing_enabled x);
     mc_structured_logging := sort_keys (mc_structured_logging x);
     mc_alert_rules := map sort_keys (mc_alert_rules x) |}.

Definition reload_storage_config (x : StorageConfig) : StorageConfig :=
  {| so_persistent_storage_required := sort_keys (so_persistent_storage_required x);
     so_storage_size_gb := sort_keys (so_storage_size_gb x);
     so_backup_enabled := sort_keys (so_backup_enabled x);
     so_encryption_at_rest := sort_keys (so_encryption_at_rest x) |}.

Definition reload_secrets_config (x : SecretsConfig) : SecretsConfig :=
  {| se_secrets := map sort_keys (se_secrets x);
     se_rotation_policy_days := sort_keys (se_rotation_policy_days x);
     se_encryption_in_transit := sort_keys (se_encryption_in_transit x) |}.

Definition reload_deployment (x : Deployment) : Deployment :=
  {| dp_id := sort_keys (dp_id x); dp_name := sort_keys (dp_name x);
     dp_description := sort_keys (dp_description x); dp_environment := dp_environment x;
     dp_scaling := reload_scaling_config (dp_scaling x);
     dp_networking := reload_networking_config (dp_networking x);
     dp_monitoring := reload_monitoring_config (dp_monitoring x);
     dp_storage := reload_storage_config (dp_storage x);
     dp_secrets := reload_secrets_config (dp_secrets x);
     dp_metadata := sort_keys (dp_metadata x) |}.

Definition reload_module (x : ModuleISR) : ModuleISR :=
  {| md_id := sort_keys (md_id x); md_name := sort_keys (md_name x);
     md_description := sort_keys (md_description x);
     md_entities := map reload_entity (md_entities x);
     md_services := map reload_service (md_services x);
     md_workflows := map reload_workflow (md_workflows x);
     md_policies := map reload_policy (md_policies x);
     md_interfaces := map reload_interface (md_interfaces x);
     md_events := map reload_event (md_events x);
     md_dependencies := map sort_keys (md_dependencies x);
     md_metadata := sort_keys (md_metadata x); md_temporal_constraints := [];
     md_data_migrations := []; md_components := []; md_capability_refs := [];
     md_api_contracts := []; md_ubiquitous_language := [] |}.

Definition reload_system_metadata (x : SystemMetadata) : SystemMetadata :=
  {| sm_version := sort_keys (sm_version x); sm_authors := map sort_keys (sm_authors x);
     sm_license := sort_keys (sm_license x); sm_description := sort_keys (sm_description x);
     sm_tags := map sort_keys (sm_tags x) |}.

Definition reload_system (x : System) : System :=
  {| sy_id := sort_keys (sy_id x); sy_name := sort_keys (sy_name x);
     sy_description := sort_keys (sy_description x);
     sy_modules := map reload_module (sy_modules x);
     sy_deployment := reload_deployment <$> sy_deployment x;
     sy_metadata := reload_system_metadata (sy_metadata x);
     sy_global_policies := map sort_keys (sy_global_policies x); sy_constraints := [];
     sy_business_capabilities := []; sy_reliability_requirements := [];
     sy_architectural_boundaries := []; sy_requirements := [];
     sy_requirement_graph_ref := VNone; sy_requirement_source_metadata := [];
     sy_requirement_relations := []; sy_intent_architecture_ref := VNone;
     sy_security_posture := VNone; sy_infrastructure_posture := VNone;
     sy_deployment_posture := VNone; sy_testing_posture := VNone;
     sy_documentation_posture := VNone; sy_operational_posture := VNone;
     sy_acceptance_criteria := []; sy_deployment_intents := []; sy_testing_anchors := [];
     sy_documentation_intents := []; sy_evolution_objectives := []; sy_protected_regions := [];
     sy_evolution_policies := []; sy_architectural_decisions := []; sy_security_threats := [] |}.
Definition reload (now : Z) (x : ISR) : ISR :=
  let p := is_provenance x in
  {| is_system := reload_system (is_system x); is_version := sort_keys (is_version x);
     is_provenance := {| pv_created_at := now; pv_created_by := sort_keys (pv_created_by p);
       pv_parent_hash := sort_keys (pv_parent_hash p);
       pv_mutation_description := sort_keys (pv_mutation_description p);
       pv_evolution_run_id := sort_keys (pv_evolution_run_id p);
       pv_generation := sort_keys (pv_generation p) |};
     is_content_hash := VNone |}.

(** ** When a reload succeeds *)

Definition reloadable_entity (x : Entity) : bool := forallb field_ok (en_fields x).
Definition reloadable_event (x : Event) : bool :=
  forallb field_ok (ev_schema x) && bool_decide (ev_pattern x <> None).
Definition reloadable_module (x : ModuleISR) : bool :=
  forallb reloadable_entity (md_entities x) && forallb reloadable_event (md_events x).
Definition reloadable (x : ISR) : bool := forallb reloadable_module (sy_modules (is_system x)).

(** A result that is a value, or a ValueError. *)
Definition outcome {A} (r : res A) (ok : bool) (a : A) : Prop :=
  if ok then r = Ok a else exists m, r = Raise (ValueError m).

Lemma outcome_bind {A B} (r : res A) (k : A -> res B) ok1 ok2 a b :
  outcome r ok1 a -> outcome (k a) ok2 b -> outcome (x ← r; k x) (ok1 && ok2) b.
Proof.
  unfold outcome. destruct ok1; simpl; [intros -> H; exact H|]. intros [m ->] _. by exists m.
Qed.

Lemma outcome_map {A C} (f : pyval -> res C) (g : A -> pyval) (ok : A -> bool) (h : A -> C) xs :
  (forall x, outcome (f (sort_keys (g x))) (ok x) (h x)) ->
  outcome (map_res f (map sort_keys (map g xs))) (forallb ok xs) (map h xs).
Proof.
  intros Hf. induction xs as [|x xs IH]; [done|]. cbn [map map_res forallb].
  eapply outcome_bind; [apply Hf|]. rewrite <- (andb_true_r (forallb ok xs)).
  eapply outcome_bind; [exact IH|done].
Qed.

Lemma map_res_eq {A C} (f : pyval -> res C) (g : A -> pyval) (h : A -> C) xs :
  (forall x, f (sort_keys (g x)) = Ok (h x)) ->
  map_res f (map sort_keys (map g xs)) = Ok (map h xs).
Proof.
  intros Hf. induction xs as [|x xs IH]; [done|]. cbn [map map_res]. rewrite Hf.
  unfold mbind, res_bind. by rewrite IH.
Qed.

(** The bind of two values. *)
Lemma res_bind_Ok {A B} (a : A) (k : A -> res B) : (x ← Ok a; k x) = k a.
Proof. done. Qed.

Lemma sort_keys_str s : sort_keys (VStr s) = VStr s.
Proof. done. Qed.
Lemma iter_sorted_list vs : iter_of (sort_keys (VList vs)) = Ok (map sort_keys vs).
Proof. done. Qed.

Create HintDb reload.
Create HintDb fixed.
Section Reload.
Context `{Texts}.

(** Reading a field of a saved record. *)
Ltac key_checks := apply (bool_decide_unpack _); vm_compute; exact I.
Ltac read_field :=
  rewrite get_sorted by key_checks; cbn [field_of String.eqb Ascii.eqb Bool.eqb];
  rewrite ?res_bind_Ok.
Ltac read_enum :=
  match goal with
  | |- context [enum_of ?c ?m (VStr (?val ?e))] =>
      let H := fresh in
      assert (H : enum_of c m (VStr (val e)) = Ok e) by (generalize e; intros []; reflexivity);
      rewrite H, ?res_bind_Ok; clear H
  end.
Ltac read_list :=
  erewrite map_res_eq by (intros; solve [eauto with reload]); rewrite ?res_bind_Ok.
Ltac read_fields :=
  unfold each, items;
  repeat first [read_field | rewrite iter_sorted_list, ?res_bind_Ok | rewrite sort_keys_str
               | read_enum | read_list].

Lemma reload_field_constraint_run x :
  deserialize_field_constraint (sort_keys (asdict_field_constraint x)) = Ok (reload_field_constraint x).
Proof. unfold deserialize_field_constraint, asdict_field_constraint. read_fields. reflexivity. Qed.
Hint Resolve reload_field_constraint_run : reload.

Lemma reload_constraint_run x :
  deserialize_constraint (sort_keys (asdict_constraint x)) = Ok (reload_constraint x).
Proof. unfold deserialize_constraint, asdict_constraint. read_fields. reflexivity. Qed.
Hint Resolve reload_constraint_run : reload.

Lemma reload_relationship_run x :
  deserialize_relationship (sort_keys (asdict_relationship x)) = Ok (reload_relationship x).
Proof. unfold deserialize_relationship, asdict_relationship. read_fields. reflexivity. Qed.
Hint Resolve reload_relationship_run : reload.

Lemma reload_operation_run x :
  deserialize_operation (sort_keys (asdict_operation x)) = Ok (reload_operation x).
Proof. unfold deserialize_operation, asdict_operation. read_fields. reflexivity. Qed.
Hint Resolve reload_operation_run : reload.

Lemma reload_service_dependency_run x :
  deserialize_service_dependency (sort_keys (asdict_service_dependency x)) = Ok (reload_service_dependency x).
Proof. unfold deserialize_service_dependency, asdict_service_dependency. read_fields. reflexivity. Qed.
Hint Resolve reload_service_dependency_run : reload.

Lemma reload_service_run x :
  deserialize_service (sort_keys (asdict_service x)) = Ok (reload_service x).
Proof. unfold deserialize_service, asdict_service. read_fields. reflexivity. Qed.
Hint Resolve reload_service_run : reload.

Lemma reload_workflow_state_run x :
  deserialize_workflow_state (sort_keys (asdict_workflow_state x)) = Ok (reload_workflow_state x).
Proof. unfold deserialize_workflow_state, asdict_workflow_state. read_fields. reflexivity. Qed.
Hint Resolve reload_workflow_state_run : reload.

Lemma reload_workflow_transition_run x :
  deserialize_workflow_transition (sort_keys (asdict_workflow_transition x)) = Ok (reload_workflow_transition x).
Proof. unfold deserialize_workflow_transition, asdict_workflow_transition. read_fields. reflexivity. Qed.
Hint Resolve reload_workflow_transition_run : reload.

Lemma reload_workflow_run x :
  deserialize_workflow (sort_keys (asdict_workflow x)) = Ok (reload_workflow x).
Proof. unfold deserialize_workflow, asdict_workflow. read_fields. reflexivity. Qed.
Hint Resolve reload_workflow_run : reload.

Lemma reload_policy_rule_run x :
  deserialize_policy_rule (sort_keys (asdict_policy_rule x)) = Ok (reload_policy_rule x).
Proof. unfold deserialize_policy_rule, asdict_policy_rule. read_fields. reflexivity. Qed.
Hint Resolve reload_policy_rule_run : reload.

Lemma reload_permission_run x :
  deserialize_permission (sort_keys (asdict_permission x)) = Ok (reload_permission x).
Proof. unfold deserialize_permission, asdict_permission. read_fields. reflexivity. Qed.
Hint Resolve reload_permission_run : reload.

Lemma reload_policy_run x :
  deserialize_policy (sort_keys (asdict_policy x)) = Ok (reload_policy x).
Proof. unfold deserialize_policy, asdict_policy. read_fields. reflexivity. Qed.
Hint Resolve reload_policy_run : reload.

Lemma reload_endpoint_run x :
  deserialize_endpoint (sort_keys (asdict_endpoint x)) = Ok (reload_endpoint x).
Proof. unfold deserialize_endpoint, asdict_endpoint. read_fields. reflexivity. Qed.
Hint Resolve reload_endpoint_run : reload.

Lemma reload_interface_run x :
  deserialize_interface (sort_keys (asdict_interface x)) = Ok (reload_interface x).
Proof. unfold deserialize_interface, asdict_interface. read_fields. reflexivity. Qed.
Hint Resolve reload_interface_run : reload.

Lemma reload_scaling_config_run x :
  deserialize_scaling_config (sort_keys (asdict_scaling_config x)) = Ok (reload_scaling_config x).
Proof. unfold deserialize_scaling_config, asdict_scaling_config. read_fields. reflexivity. Qed.
Hint Resolve reload_scaling_config_run : reload.

Lemma reload_networking_config_run x :
  deserialize_networking_config (sort_keys (asdict_networking_config x)) = Ok (reload_networking_config x).
Proof. unfold deserialize_networking_config, asdict_networking_config. read_fields. reflexivity. Qed.
Hint Resolve reload_networking_config_run : reload.

Lemma reload_monitoring_config_run x :
  deserialize_monitoring_config (sort_keys (asdict_monitoring_config x)) = Ok (reload_monitoring_config x).
Proof. unfold deserialize_monitoring_config, asdict_monitoring_config. read_fields. reflexivity. Qed.
Hint Resolve reload_monitoring_config_run : reload.

Lemma reload_storage_config_run x :
  deserialize_storage_config (sort_keys (asdict_storage_config x)) = Ok (reload_storage_config x).
Proof. unfold deserialize_storage_config, asdict_storage_config. read_fields. reflexivity. Qed.
Hint Resolve reload_storage_config_run : reload.

Lemma reload_secrets_config_run x :
  deserialize_secrets_config (sort_keys (asdict_secrets_config x)) = Ok (reload_secrets_config x).
Proof. unfold deserialize_secrets_config, asdict_secrets_config. read_fields. reflexivity. Qed.
Hint Resolve reload_secrets_config_run : reload.

Lemma reload_deployment_run x :
  deserialize_deployment (sort_keys (asdict_deployment x)) = Ok (reload_deployment x).
Proof.
  unfold deserialize_deployment, asdict_deployment. read_fields.
  rewrite reload_scaling_config_run, reload_networking_config_run, reload_monitoring_config_run.
  rewrite reload_storage_config_run, reload_secrets_config_run. reflexivity.
Qed.
Hint Resolve reload_deployment_run : reload.

Lemma reload_system_metadata_run x :
  deserialize_system_metadata (sort_keys (asdict_system_metadata x)) = Ok (reload_system_metadata x).
Proof. unfold deserialize_system_metadata, asdict_system_metadata. read_fields. reflexivity. Qed.
Hint Resolve reload_system_metadata_run : reload.


Lemma val_truthy_sorted v : val_truthy (sort_keys v) = val_truthy v.
Proof.
  destruct v as [| | | | |vs|d]; try done; cbn [sort_keys val_truthy]; [by destruct vs|].
  pose proof (sort_by_perm item_leb (map sort_item d)) as HP. destruct d as [|p d]; [done|].
  apply Permutation_length in HP. by destruct (sort_by _ _).
Qed.

Lemma field_ok_reload x : field_ok (reload_field x) = field_ok x.
Proof.
  unfold field_ok. cbn. rewrite val_truthy_sorted.
  destruct (fl_field_type x); try done. by destruct (fl_enum_values x).
Qed.

Lemma reload_field_run x :
  outcome (deserialize_field (sort_keys (asdict_field x))) (field_ok x) (reload_field x).
Proof.
  unfold deserialize_field, asdict_field. read_fields. rewrite <- field_ok_reload.
  match goal with |- outcome (check_field ?f) _ _ => change f with (reload_field x) end.
  unfold check_field, outcome. destruct (field_ok (reload_field x)); [done|by eexists].
Qed.

Lemma reload_entity_run x :
  outcome (deserialize_entity (sort_keys (asdict_entity x))) (reloadable_entity x) (reload_entity x).
Proof.
  unfold deserialize_entity, asdict_entity. read_fields.
  unfold reloadable_entity. rewrite <- (andb_true_r (forallb _ _)).
  eapply outcome_bind; [apply outcome_map, reload_field_run|reflexivity].
Qed.

Lemma reload_event_run x :
  outcome (deserialize_event (sort_keys (asdict_event x))) (reloadable_event x) (reload_event x).
Proof.
  unfold deserialize_event, asdict_event. read_fields.
  unfold reloadable_event. eapply outcome_bind; [apply outcome_map, reload_field_run|].
  destruct (ev_pattern x) as [p|] eqn:Ep; cbn [optional].
  - rewrite bool_decide_true by done. rewrite sort_keys_str, res_bind_Ok. read_fields. unfold outcome.
    unfold reload_event. by rewrite Ep.
  - rewrite bool_decide_false by tauto. eexists. reflexivity.
Qed.

Lemma reload_module_run x :
  outcome (deserialize_module (sort_keys (asdict_module x))) (reloadable_module x) (reload_module x).
Proof.
  unfold deserialize_module, asdict_module. read_fields.
  unfold reloadable_module. eapply outcome_bind; [apply outcome_map, reload_entity_run|].
  rewrite (map_res_eq _ _ _ _ reload_service_run), (map_res_eq _ _ _ _ reload_workflow_run).
  rewrite (map_res_eq _ _ _ _ reload_policy_run), (map_res_eq _ _ _ _ reload_interface_run).
  rewrite !res_bind_Ok, <- (andb_true_r (forallb reloadable_event _)).
  eapply outcome_bind; [apply outcome_map, reload_event_run|reflexivity].
Qed.

Lemma truthy_asdict_deployment d : val_truthy (sort_keys (asdict_deployment d)) = true.
Proof. by rewrite val_truthy_sorted. Qed.

Lemma reload_system_run x :
  outcome (deserialize_system (sort_keys (asdict_system x)))
    (forallb reloadable_module (sy_modules x)) (reload_system x).
Proof.
  unfold deserialize_system, asdict_system. read_fields.
  rewrite <- (andb_true_r (forallb _ _)).
  eapply outcome_bind; [apply outcome_map, reload_module_run|].
  unfold outcome, reload_system.
  destruct (sy_deployment x) as [d|]; cbn [optional]; rewrite !res_bind_Ok.
  - rewrite truthy_asdict_deployment, reload_deployment_run, !res_bind_Ok.
    rewrite reload_system_metadata_run. reflexivity.
  - cbn [sort_keys val_truthy]. unfold mret, res_ret. rewrite !res_bind_Ok.
    rewrite reload_system_metadata_run. reflexivity.
Qed.

Lemma reload_isr_run isoformat now i :
  outcome (from_dict now (to_dict isoformat i)) (reloadable i) (reload now i).
Proof.
  unfold from_dict, to_dict, asdict_isr, asdict_isr_provenance. read_fields.
  unfold reloadable. rewrite <- (andb_true_r (forallb _ _)).
  eapply outcome_bind; [apply reload_system_run|reflexivity].
Qed.

(** ** What is loaded *)

Lemma res_bind_inv {A B} (r : res A) (k : A -> res B) b :
  (x ← r; k x) = Ok b -> exists a, r = Ok a /\ k a = Ok b.
Proof. destruct r as [a|]; [|done]. by exists a. Qed.

Lemma map_res_inv {B} (f : pyval -> res B) vs ys :
  map_res f vs = Ok ys -> Forall2 (fun v y => f v = Ok y) vs ys.
Proof.
  revert ys. induction vs as [|v vs IH]; intros ys; cbn [map_res]; [by injection 1 as <-|].
  intros (y & Hy & (ys' & Hys & E)%res_bind_inv)%res_bind_inv. injection E as <-.
  constructor; auto.
Qed.

Lemma items_fixed k v xs : canonical v -> items k v = Ok xs -> map sort_keys xs = xs.
Proof.
  intros Hv (x & Hx & Hxs)%res_bind_inv.
  assert (Hc : Forall canonical xs).
  { eapply canonical_iter; [|exact Hxs]. eapply canonical_get; [exact Hv| |exact Hx]. done. }
  apply canonical_list in Hc. by injection Hc.
Qed.

(** Every record of a list is loaded from one of the values. *)
Lemma each_all {B} k (f : pyval -> res B) (P : B -> Prop) v ys :
  (forall u y, f u = Ok y -> P y) -> each k f v = Ok ys -> Forall P ys.
Proof.
  intros Hf (xs & _ & Hys%map_res_inv)%res_bind_inv.
  induction Hys; constructor; eauto.
Qed.

Lemma each_fixed {B} k (f : pyval -> res B) (h : B -> B) v ys :
  (forall u y, canonical u -> f u = Ok y -> h y = y) ->
  canonical v -> each k f v = Ok ys -> map h ys = ys.
Proof.
  intros Hf Hv (xs & Hxs & Hys%map_res_inv)%res_bind_inv.
  apply items_fixed in Hxs; [|done]. assert (Hc : canonical (VList xs)) by (unfold canonical; simpl; by f_equal).
  apply canonical_list in Hc. induction Hys; [done|]. apply Forall_cons in Hc as [Hc Hcs]. simpl.
  f_equal; [eauto|]. apply IHHys; [|done]. apply canonical_list in Hcs. by injection Hcs.
Qed.

Lemma get_fixed k default v x :
  canonical v -> sort_keys default = default -> get k default v = Ok x -> sort_keys x = x.
Proof. intros Hv Hd. by apply canonical_get. Qed.

Ltac inv_binds :=
  repeat match goal with
  | H : (_ ≫= _) = Ok _ |- _ =>
      let E := fresh "E" in apply res_bind_inv in H; destruct H as (? & E & H)
  end;
  match goal with H : mret _ = Ok _ |- _ => injection H as <- end.
Ltac nested :=
  repeat match goal with
  | E : get ?k ?default ?v = Ok ?d, F : _ ?d = Ok _ |- _ =>
      lazymatch goal with
      | _ : canonical d |- _ => fail
      | _ => assert (canonical d) by (eapply canonical_get; [| |exact E]; done)
      end
  end.
Ltac fixed_part :=
  first [ reflexivity
        | eapply get_fixed; [| |eassumption]; [eassumption|reflexivity]
        | eapply items_fixed; [|eassumption]; assumption
        | eapply each_fixed; [| |eassumption]; [solve [eauto with fixed]|assumption]
        | solve [eauto using get_fixed with fixed] ].
Ltac fixed := f_equal; fixed_part.

Lemma fixed_field_constraint v x : canonical v -> deserialize_field_constraint v = Ok x -> reload_field_constraint x = x.
Proof. unfold deserialize_field_constraint. intros Hv Hx. inv_binds. unfold reload_field_constraint. cbn. fixed. Qed.
Hint Resolve fixed_field_constraint : fixed.

Lemma fixed_field v x : canonical v -> deserialize_field v = Ok x -> reload_field x = x.
Proof.
  unfold deserialize_field. intros Hv Hx.
  repeat (apply res_bind_inv in Hx; destruct Hx as (? & ? & Hx)). unfold check_field in Hx.
  destruct (field_ok _); [|done]. injection Hx as <-. unfold reload_field. cbn. fixed.
Qed.
Hint Resolve fixed_field : fixed.

Lemma fixed_constraint v x : canonical v -> deserialize_constraint v = Ok x -> reload_constraint x = x.
Proof. unfold deserialize_constraint. intros Hv Hx. inv_binds. unfold reload_constraint. cbn. fixed. Qed.
Hint Resolve fixed_constraint : fixed.

Lemma fixed_relationship v x : canonical v -> deserialize_relationship v = Ok x -> reload_relationship x = x.
Proof. unfold deserialize_relationship. intros Hv Hx. inv_binds. unfold reload_relationship. cbn. fixed. Qed.
Hint Resolve fixed_relationship : fixed.

Lemma fixed_entity v x : canonical v -> deserialize_entity v = Ok x -> reload_entity x = x.
Proof. unfold deserialize_entity. intros Hv Hx. inv_binds. unfold reload_entity. cbn. fixed. Qed.
Hint Resolve fixed_entity : fixed.

Lemma fixed_operation v x : canonical v -> deserialize_operation v = Ok x -> reload_operation x = x.
Proof. unfold deserialize_operation. intros Hv Hx. inv_binds. unfold reload_operation. cbn. fixed. Qed.
Hint Resolve fixed_operation : fixed.

Lemma fixed_service_dependency v x : canonical v -> deserialize_service_dependency v = Ok x -> reload_service_dependency x = x.
Proof. unfold deserialize_service_dependency. intros Hv Hx. inv_binds. unfold reload_service_dependency. cbn. fixed. Qed.
Hint Resolve fixed_service_dependency : fixed.

Lemma fixed_service v x : canonical v -> deserialize_service v = Ok x -> reload_service x = x.
Proof. unfold deserialize_service. intros Hv Hx. inv_binds. unfold reload_service. cbn. fixed. Qed.
Hint Resolve fixed_service : fixed.

Lemma fixed_workflow_state v x : canonical v -> deserialize_workflow_state v = Ok x -> reload_workflow_state x = x.
Proof. unfold deserialize_workflow_state. intros Hv Hx. inv_binds. unfold reload_workflow_state. cbn. fixed. Qed.
Hint Resolve fixed_workflow_state : fixed.

Lemma fixed_workflow_transition v x : canonical v -> deserialize_workflow_transition v = Ok x -> reload_workflow_transition x = x.
Proof. unfold deserialize_workflow_transition. intros Hv Hx. inv_binds. unfold reload_workflow_transition. cbn. fixed. Qed.
Hint Resolve fixed_workflow_transition : fixed.

Lemma fixed_workflow v x : canonical v -> deserialize_workflow v = Ok x -> reload_workflow x = x.
Proof. unfold deserialize_workflow. intros Hv Hx. inv_binds. unfold reload_workflow. cbn. fixed. Qed.
Hint Resolve fixed_workflow : fixed.

Lemma fixed_policy_rule v x : canonical v -> deserialize_policy_rule v = Ok x -> reload_policy_rule x = x.
Proof. unfold deserialize_policy_rule. intros Hv Hx. inv_binds. unfold reload_policy_rule. cbn. fixed. Qed.
Hint Resolve fixed_policy_rule : fixed.

Lemma fixed_permission v x : canonical v -> deserialize_permission v = Ok x -> reload_permission x = x.
Proof. unfold deserialize_permission. intros Hv Hx. inv_binds. unfold reload_permission. cbn. fixed. Qed.
Hint Resolve fixed_permission : fixed.

Lemma fixed_policy v x : canonical v -> deserialize_policy v = Ok x -> reload_policy x = x.
Proof. unfold deserialize_policy. intros Hv Hx. inv_binds. unfold reload_policy. cbn. fixed. Qed.
Hint Resolve fixed_policy : fixed.

Lemma fixed_endpoint v x : canonical v -> deserialize_endpoint v = Ok x -> reload_endpoint x = x.
Proof. unfold deserialize_endpoint. intros Hv Hx. inv_binds. unfold reload_endpoint. cbn. fixed. Qed.
Hint Resolve fixed_endpoint : fixed.

Lemma fixed_interface v x : canonical v -> deserialize_interface v = Ok x -> reload_interface x = x.
Proof. unfold deserialize_interface. intros Hv Hx. inv_binds. unfold reload_interface. cbn. fixed. Qed.
Hint Resolve fixed_interface : fixed.

Lemma fixed_event v x : canonical v -> deserialize_event v = Ok x -> reload_event x = x.
Proof. unfold deserialize_event. intros Hv Hx. inv_binds. unfold reload_event. cbn. fixed. Qed.
Hint Resolve fixed_event : fixed.

Lemma fixed_scaling_config v x : canonical v -> deserialize_scaling_config v = Ok x -> reload_scaling_config x = x.
Proof. unfold deserialize_scaling_config. intros Hv Hx. inv_binds. unfold reload_scaling_config. cbn. fixed. Qed.
Hint Resolve fixed_scaling_config : fixed.

Lemma fixed_networking_config v x : canonical v -> deserialize_networking_config v = Ok x -> reload_networking_config x = x.
Proof. unfold deserialize_networking_config. intros Hv Hx. inv_binds. unfold reload_networking_config. cbn. fixed. Qed.
Hint Resolve fixed_networking_config : fixed.

Lemma fixed_monitoring_config v x : canonical v -> deserialize_monitoring_config v = Ok x -> reload_monitoring_config x = x.
Proof. unfold deserialize_monitoring_config. intros Hv Hx. inv_binds. unfold reload_monitoring_config. cbn. fixed. Qed.
Hint Resolve fixed_monitoring_config : fixed.

Lemma fixed_storage_config v x : canonical v -> deserialize_storage_config v = Ok x -> reload_storage_config x = x.
Proof. unfold deserialize_storage_config. intros Hv Hx. inv_binds. unfold reload_storage_config. cbn. fixed. Qed.
Hint Resolve fixed_storage_config : fixed.

Lemma fixed_secrets_config v x : canonical v -> deserialize_secrets_config v = Ok x -> reload_secrets_config x = x.
Proof. unfold deserialize_secrets_config. intros Hv Hx. inv_binds. unfold reload_secrets_config. cbn. fixed. Qed.
Hint Resolve fixed_secrets_config : fixed.

Lemma fixed_deployment v x : canonical v -> deserialize_deployment v = Ok x -> reload_deployment x = x.
Proof. unfold deserialize_deployment. intros Hv Hx. inv_binds. nested. unfold reload_deployment. cbn. fixed. Qed.
Hint Resolve fixed_deployment : fixed.

Lemma fixed_module v x : canonical v -> deserialize_module v = Ok x -> reload_module x = x.
Proof. unfold deserialize_module. intros Hv Hx. inv_binds. unfold reload_module. cbn. fixed. Qed.
Hint Resolve fixed_module : fixed.

Lemma fixed_system_metadata v x : canonical v -> deserialize_system_metadata v = Ok x -> reload_system_metadata x = x.
Proof. unfold deserialize_system_metadata. intros Hv Hx. inv_binds. unfold reload_system_metadata. cbn. fixed. Qed.
Hint Resolve fixed_system_metadata : fixed.


Lemma fixed_system v x : canonical v -> deserialize_system v = Ok x -> reload_system x = x.
Proof.
  unfold deserialize_system. intros Hv Hx. inv_binds. nested. unfold reload_system. cbn.
  match goal with E : get "deployment" VNone _ = Ok ?d |- _ =>
    assert (Hd : canonical d) by (eapply canonical_get; [| |exact E]; done) end.
  match goal with Ed : (if val_truthy ?d then _ else _) = Ok ?o |- _ =>
    assert (Ho : reload_deployment <$> o = o); [destruct (val_truthy d); [|by injection Ed as <-];
      apply res_bind_inv in Ed; destruct Ed as (y & Ey & Eo); injection Eo as <-; cbn; f_equal;
      by apply (fixed_deployment d)|] end.
  f_equal; first [exact Ho | fixed_part].
Qed.

(** Every loaded field satisfies the checks of its class, and every loaded event
    declares a pattern. *)
Lemma loaded_field v x : deserialize_field v = Ok x -> field_ok x = true.
Proof.
  unfold deserialize_field. intros Hx.
  repeat (apply res_bind_inv in Hx; destruct Hx as (? & ? & Hx)). unfold check_field in Hx.
  destruct (field_ok _) eqn:E; [|done]. by injection Hx as <-.
Qed.

Lemma loaded_list {B} k (f : pyval -> res B) (ok : B -> bool) v xs :
  (forall u y, f u = Ok y -> ok y = true) -> each k f v = Ok xs -> forallb ok xs = true.
Proof.
  intros Hf Hxs. apply forallb_forall. intros x Hx%list_elem_of_In. revert x Hx.
  apply Forall_forall. by eapply each_all.
Qed.

Lemma loaded_fields k v xs : each k deserialize_field v = Ok xs -> forallb field_ok xs = true.
Proof.
  apply loaded_list, loaded_field.
Qed.

Lemma loaded_entity v x : deserialize_entity v = Ok x -> reloadable_entity x = true.
Proof.
  unfold deserialize_entity. intros Hx. inv_binds. unfold reloadable_entity. cbn.
  by eapply loaded_fields.
Qed.

Lemma loaded_event v x : deserialize_event v = Ok x -> reloadable_event x = true.
Proof.
  unfold deserialize_event. intros Hx. inv_binds. unfold reloadable_event. cbn.
  apply andb_true_iff. split; [by eapply loaded_fields|reflexivity].
Qed.

Lemma loaded_module v x : deserialize_module v = Ok x -> reloadable_module x = true.
Proof.
  unfold deserialize_module. intros Hx. inv_binds. unfold reloadable_module. cbn.
  apply andb_true_iff. split; eapply loaded_list; eauto using loaded_entity, loaded_event.
Qed.

Lemma loaded_system v x :
  deserialize_system v = Ok x -> forallb reloadable_module (sy_modules x) = true.
Proof.
  unfold deserialize_system. intros Hx. inv_binds. cbn.
  eapply loaded_list; eauto using loaded_module.
Qed.

Lemma from_dict_inv now data i :
  from_dict now data = Ok i ->
  exists system_data provenance_data,
    get "system" (VDict []) data = Ok system_data /\
    get "provenance" (VDict []) data = Ok provenance_data /\
    deserialize_system system_data = Ok (is_system i) /\
    (canonical data -> reload now i = i).
Proof.
  unfold from_dict. intros Hi. inv_binds. eexists _, _. split; [eassumption|].
  split; [eassumption|]. split; [eassumption|]. intros Hc. nested. unfold reload. cbn.
  assert (Hp : canonical x1) by (eapply canonical_get; [| |exact E1]; done).
  f_equal; [by eapply fixed_system; [|eassumption]|fixed_part|].
  f_equal; eapply get_fixed; [| |eassumption| | |eassumption| | |eassumption| | |eassumption| | |eassumption]; done.
Qed.

(** ** Theorems *)

(** Saving an ISR and loading it again, for every ISR.  The load succeeds
    exactly when every field of an entity or an event passes the checks of its
    class and every event declares a pattern, and raises a ValueError otherwise.
    What it gives is the ISR with its dicts sorted and a new creation time, with
    everything the deserializer does not read back at its default: the schemas
    of operations and endpoints, ownership and posture of entities, the semantic
    fields of services and events, components and contracts of modules, and all
    carriers of the system. *)
Theorem saved_isr_reloads isoformat now i :
  if reloadable i then from_dict now (to_dict isoformat i) = Ok (reload now i)
  else exists m, from_dict now (to_dict isoformat i) = Raise (ValueError m).
Proof. exact (reload_isr_run isoformat now i). Qed.

(** Every ISR that [from_dict] returns, from any document, is well formed:
    all its fields pass the checks of their class, and all events declare a
    pattern, so it can be saved and loaded again. *)
Theorem loaded_isr_well_formed now data i :
  from_dict now data = Ok i -> reloadable i = true.
Proof.
  intros (sd & pd & _ & _ & Hs & _)%from_dict_inv. by eapply loaded_system.
Qed.

(** C34: an ISR loaded from a document with sorted keys, as the serializer
    writes them, survives saving and loading unchanged but for the creation
    time, which is the time of the load. *)
Theorem loaded_isr_round_trips isoformat now now' data i :
  canonical data -> from_dict now data = Ok i ->
  from_dict now' (to_dict isoformat i)
  = Ok {| is_system := is_system i; is_version := is_version i;
          is_provenance := {| pv_created_at := now';
            pv_created_by := pv_created_by (is_provenance i);
            pv_parent_hash := pv_parent_hash (is_provenance i);
            pv_mutation_description := pv_mutation_description (is_provenance i);
            pv_evolution_run_id := pv_evolution_run_id (is_provenance i);
            pv_generation := pv_generation (is_provenance i) |};
          is_content_hash := is_content_hash i |}.
Proof.
  intros Hc Hi. pose proof (reload_isr_run isoformat now' i) as Hr.
  apply from_dict_inv in Hi as (sd & pd & _ & _ & Hs & Hf). specialize (Hf Hc).
  apply loaded_system in Hs. unfold outcome, reloadable in Hr. rewrite Hs in Hr. rewrite Hr.
  f_equal. destruct i as [s v [t b p m r g] h]. revert Hf. unfold reload. cbn.
  injection 1. intros. f_equal; [congruence..| |done]. f_equal; congruence.
Qed.
End Reload.

(** ** Examples *)

#[local] Instance sample_texts : Texts := {| py_str _ := "value"; py_repr _ := "value" |}.

Definition sample_document : pyval := VDict
  [("provenance", VDict [("created_by", VStr "author"); ("generation", VInt 2)]);
   ("system", VDict
     [("id", VStr "s");
      ("modules", VList [VDict
        [("entities", VList [VDict
           [("fields", VList [VDict [("field_type", VStr "enum"); ("name", VStr "state");
                                     ("enum_values", VList [VStr "on"; VStr "off"])]]);
            ("id", VStr "e")]]);
         ("events", VList [VDict [("id", VStr "ev")]]); ("id", VStr "m");
         ("metadata", VDict [("a", VInt 1); ("b", VInt 2)])]]);
      ("name", VStr "shop")]);
   ("version", VInt 3)].

(** It has one module with one entity with one field, and one event. *)
Definition sample_shape (i : ISR) : list (nat * nat) :=
  map (fun m => (length (md_entities m), length (md_events m))) (sy_modules (is_system i)).

Lemma loaded_isr_well_formed_witness :
  exists i, from_dict 7 sample_document = Ok i /\ sample_shape i = [(1, 1)%nat] /\
    reloadable i = true.
Proof.
  eexists. split; [vm_compute; reflexivity|]. split; [reflexivity|].
  apply (loaded_isr_well_formed 7 sample_document). vm_compute. reflexivity.
Defined.

Lemma loaded_isr_round_trips_witness :
  canonical (sort_keys sample_document) /\
  exists i, from_dict 7 (sort_keys sample_document) = Ok i /\ sample_shape i = [(1, 1)%nat] /\
    from_dict 9 (to_dict (fun _ => "now") i)
    = Ok {| is_system := is_system i; is_version := is_version i;
            is_provenance := {| pv_created_at := 9;
              pv_created_by := pv_created_by (is_provenance i);
              pv_parent_hash := pv_parent_hash (is_provenance i);
              pv_mutation_description := pv_mutation_description (is_provenance i);
              pv_evolution_run_id := pv_evolution_run_id (is_provenance i);
              pv_generation := pv_generation (is_provenance i) |};
            is_content_hash := is_content_hash i |}.
Proof.
  split; [exact (canonical_sorted sample_document)|].
  eexists. split; [vm_compute; reflexivity|]. split; [reflexivity|].
  apply (loaded_isr_round_trips (fun _ => "now") 7 9 (sort_keys sample_document));
    [exact (canonical_sorted sample_document)|vm_compute; reflexivity].
Defined.
