(* ===== verification/IsrVersioning.v ===== *)
(** * ISR versioning: content hashes and snapshots

    [isr/versioning/hash.py] and [snapshot.py], on top of the serializer.  A
    storage directory is the list of its snapshot files, by stem; sha256 and the
    JSON text of a document are parameters, with the laws that JSON reads back
    what it wrote and that two documents do not share a hash. *)

From S2P Require Import Prelude PyFloat PyVal PyText PyJson IsrRecords IsrSerial IsrSerialSpec.
Open Scope Z_scope.

(** [json.dumps] with an indent and without, [json.loads], the hexadecimal
    sha256 of a text, [isoformat]. *)
Class Codec := {
  dumps_indented : pyval -> string;
  dumps_compact : pyval -> string;
  json_loads : string -> res pyval;
  sha256 : string -> string;
  isoformat : Z -> string;
}.

(** No dict in the value has a key twice, as no Python dict has. *)
Fixpoint keys_unique (v : pyval) : bool :=
  match v with
  | VList vs => forallb keys_unique vs
  | VDict d => bool_decide (NoDup (map fst d)) && forallb (fun p => keys_unique p.2) d
  | _ => true
  end.

Class CodecLaws `{Codec} : Prop := {
  loads_dumps v : canonical v -> keys_unique v = true -> json_loads (dumps_indented v) = Ok v;
  hash_injective v w :
    canonical v -> canonical w -> keys_unique v = true -> keys_unique w = true ->
    sha256 (dumps_compact v) = sha256 (dumps_compact w) -> v = w;
  isoformat_injective t u : isoformat t = isoformat u -> t = u;
}.

Abbreviation Snapshots := (list (string * string)).

Section Snapshots.
Context `{Texts, Codec}.

(** ** ContentHasher *)

Definition hash_isr (isr : ISR) : string := sha256 (to_canonical_json isoformat dumps_compact isr).
Definition short_hash (isr : ISR) (length_ : nat) : string := String.substring 0 length_ (hash_isr isr).
Definition verify_integrity (isr : ISR) (expected_hash : string) : bool :=
  bool_decide (hash_isr isr = expected_hash).

(** ** SnapshotStore *)

Definition to_json (isr : ISR) : string := dumps_indented (sort_keys (to_dict isoformat isr)).

Definition save (isr : ISR) : M Snapshots string :=
  let content_hash := hash_isr isr in
  present ← gets (dmem content_hash);
  _ ← when (negb present) (modify (dset content_hash (to_json isr)));
  mret content_hash.

Definition load (now : Z) (content_hash : string) : M Snapshots (option ISR) :=
  file ← gets (dget content_hash);
  match file with
  | None => mret None
  | Some json_str => isr ← lift_res (from_json json_loads now json_str); mret (Some isr)
  end.

Definition exists_snapshot (content_hash : string) (s : Snapshots) : bool := dmem content_hash s.
(** In the order of the directory. *)
Definition list_snapshots (s : Snapshots) : list string := dkeys s.

Definition delete_snapshot (content_hash : string) : M Snapshots bool :=
  present ← gets (dmem content_hash);
  _ ← when present (modify (ddel content_hash));
  mret present.

(** The calls that change the directory. *)
Inductive snapshot_call : Set :=
| S_save (isr : ISR)
| S_delete (content_hash : string).

Definition snapshot_step (c : snapshot_call) (s : Snapshots) : Snapshots :=
  match c with
  | S_save isr => (save isr s).2
  | S_delete h => (delete_snapshot h s).2
  end.

End Snapshots.

(** ** Laws *)

Definition deletes (h : string) (c : snapshot_call) : bool :=
  match c with S_delete h' => bool_decide (h' = h) | S_save _ => false end.

(** *** Values without repeated keys *)

Lemma forallb_Forall {A} (f : A -> bool) l : forallb f l = true <-> Forall (fun x => f x = true) l.
Proof. rewrite forallb_forall, Forall_forall. by setoid_rewrite list_elem_of_In. Qed.

Lemma keys_unique_list vs : keys_unique (VList vs) = true <-> Forall (fun v => keys_unique v = true) vs.
Proof. apply forallb_Forall. Qed.

Lemma keys_unique_dict d :
  keys_unique (VDict d) = true <-> dict_ok d /\ Forall (fun p => keys_unique p.2 = true) d.
Proof.
  simpl. by rewrite andb_true_iff, bool_decide_eq_true, forallb_Forall.
Qed.

Lemma keys_unique_sorted v : keys_unique v = true -> keys_unique (sort_keys v) = true.
Proof.
  induction v as [v Hv|vs IH|d IH] using pyval_nested_ind; [by destruct v| |]; cbn [sort_keys].
  - rewrite !keys_unique_list, Forall_map. intros H. rewrite Forall_forall in *. auto.
  - rewrite !keys_unique_dict. intros [Hn Hk]. split.
    + unfold dict_ok, dkeys in *. by rewrite sort_by_perm, map_map.
    + rewrite sort_by_perm, Forall_map. rewrite Forall_forall in *. intros p Hp. simpl. auto.
Qed.

(** *** Documents and files *)

Section SnapshotLaws.
Context `{Texts, CodecLaws}.

(** The document of an ISR: what the hash and the file are the text of. *)
Definition document (isr : ISR) : pyval := to_dict isoformat isr.
Definition isr_ok (isr : ISR) : Prop := keys_unique (asdict_isr isoformat isr) = true.

Lemma document_sorted isr : sort_keys (document isr) = document isr.
Proof. apply sort_keys_idem. Qed.

Lemma document_keys isr : isr_ok isr -> keys_unique (document isr) = true.
Proof. apply keys_unique_sorted. Qed.

Lemma hash_document i j : isr_ok i -> isr_ok j -> hash_isr i = hash_isr j -> document i = document j.
Proof.
  intros Hi%document_keys Hj%document_keys. unfold hash_isr, to_canonical_json.
  fold (document i) (document j). rewrite !document_sorted. intros Hh.
  apply hash_injective; [apply document_sorted..|done|done|done].
Qed.

Lemma from_to_json now isr :
  isr_ok isr -> from_json json_loads now (to_json isr) = from_dict now (document isr).
Proof.
  intros Hi%document_keys. unfold from_json, to_json. fold (document isr).
  rewrite document_sorted. by rewrite (loads_dumps _ (document_sorted isr) Hi).
Qed.

(** Every file holds the text of an ISR with the hash in its name. *)
Definition files_ok (s : Snapshots) : Prop :=
  dict_ok s /\
  forall h t, dget h s = Some t -> exists isr, isr_ok isr /\ h = hash_isr isr /\ t = to_json isr.

Definition call_ok (c : snapshot_call) : Prop :=
  match c with S_save isr => isr_ok isr | S_delete _ => True end.

Lemma save_run isr s :
  save isr s = (Ok (hash_isr isr),
    if dmem (hash_isr isr) s then s else dset (hash_isr isr) (to_json isr) s).
Proof. unfold save. unfold_monad. unfold gets, when, modify. by destruct (dmem _ s). Qed.

Lemma delete_run h s :
  delete_snapshot h s = (Ok (dmem h s), if dmem h s then ddel h s else s).
Proof. unfold delete_snapshot. unfold_monad. unfold gets, when, modify. by destruct (dmem _ s). Qed.

Lemma step_ok c s : call_ok c -> files_ok s -> files_ok (snapshot_step c s).
Proof.
  intros Hc [Hd Hf]. destruct c as [isr|h]; cbn [snapshot_step].
  - rewrite save_run. simpl. destruct (dmem _ s); [done|]. split; [by apply dset_ok|].
    intros h t. rewrite dget_dset. case_decide; [|by apply Hf]. injection 1 as <-. by exists isr.
  - rewrite delete_run. simpl. destruct (dmem h s); [|done]. split; [by apply ddel_ok|].
    intros h' t. rewrite dget_ddel by done. case_decide; [done|]. by apply Hf.
Qed.

(** A file is kept by every call but its own deletion. *)
Lemma step_keeps c h t s :
  files_ok s -> deletes h c = false -> dget h s = Some t -> dget h (snapshot_step c s) = Some t.
Proof.
  intros [Hd _] Hc Ht. destruct c as [isr|h']; cbn [snapshot_step].
  - rewrite save_run. simpl. destruct (dmem _ s) eqn:E; [done|]. rewrite dget_dset_ne; [done|].
    intros ->. apply dmem_false in E. by apply E, (dget_Some_key _ t).
  - rewrite delete_run. simpl. destruct (dmem h' s); [|done]. rewrite dget_ddel by done.
    apply bool_decide_eq_false in Hc. by rewrite decide_False.
Qed.

Lemma steps_keep h t calls s :
  files_ok s -> Forall call_ok calls -> existsb (deletes h) calls = false -> dget h s = Some t ->
  let s' := fold_left (fun s c => snapshot_step c s) calls s in
  files_ok s' /\ dget h s' = Some t.
Proof.
  intros Hs Hcs. revert s Hs. induction Hcs as [|c calls Hc Hcs IH]; intros s Hs Hn Ht; [done|].
  apply orb_false_iff in Hn as [Hne Hn]. apply IH; [by apply step_ok|done|].
  by apply step_keeps.
Qed.

(** What [save] leaves under the hash it returns. *)
Lemma saved_file i s : isr_ok i -> files_ok s ->
  exists j, isr_ok j /\ document j = document i /\ dget (hash_isr i) (save i s).2 = Some (to_json j).
Proof.
  intros Hi [_ Hf]. rewrite save_run. simpl. unfold dmem. destruct (dget _ s) as [t|] eqn:E.
  - destruct (Hf _ _ E) as (j & Hj & Hh & ->). exists j. repeat split; [done| |done].
    symmetry. by apply hash_document.
  - exists i. by rewrite dget_dset_eq.
Qed.

Lemma load_file now h s isr : isr_ok isr -> dget h s = Some (to_json isr) ->
  load now h s = (match from_dict now (document isr) with
                  | Ok i => Ok (Some i) | Raise e => Raise e
                  end, s).
Proof.
  intros Hi E. unfold load, lift_res. unfold_monad. unfold gets. rewrite E, from_to_json by done.
  by destruct (from_dict now _).
Qed.

Lemma document_created_at i :
  (p ← get "provenance" VNone (document i); get "created_at" VNone p)
  = Ok (VStr (isoformat (pv_created_at (is_provenance i)))).
Proof.
  unfold document, to_dict, asdict_isr. rewrite get_sorted by (apply (bool_decide_unpack _); vm_compute; exact I).
  cbn [field_of String.eqb Ascii.eqb Bool.eqb]. rewrite res_bind_Ok. unfold asdict_isr_provenance.
  rewrite get_sorted by (apply (bool_decide_unpack _); vm_compute; exact I).
  reflexivity.
Qed.

(** The hash covers the creation time. *)
Lemma hash_created_at i j : isr_ok i -> isr_ok j -> hash_isr i = hash_isr j ->
  pv_created_at (is_provenance i) = pv_created_at (is_provenance j).
Proof.
  intros Hi Hj Hh%hash_document; [|done..].
  pose proof (document_created_at i) as Ei. rewrite Hh, document_created_at in Ei.
  injection Ei as Ei%isoformat_injective. done.
Qed.

(** ** Theorems *)

(** C36: an ISR saved to any snapshot directory is found under the hash [save]
    returned, after any further saves and deletions of other snapshots: loading
    it gives what reloading the ISR gives, even if an ISR with the same hash had
    been saved first, and a ValueError exactly for the ISRs the deserializer
    refuses; loading leaves the directory as it is. *)
Theorem snapshot_round_trip now i calls s :
  isr_ok i -> files_ok s -> Forall call_ok calls -> existsb (deletes (hash_isr i)) calls = false ->
  let s' := fold_left (fun s c => snapshot_step c s) calls (save i s).2 in
  (save i s).1 = Ok (hash_isr i) /\
  if reloadable i then load now (hash_isr i) s' = (Ok (Some (reload now i)), s')
  else exists m, load now (hash_isr i) s' = (Raise (ValueError m), s').
Proof.
  intros Hi Hs Hcs Hn s'. split; [by rewrite save_run|].
  destruct (saved_file i s) as (j & Hj & Hd & Hf); [done..|].
  destruct (steps_keep (hash_isr i) (to_json j) calls (save i s).2) as [_ Hf']; [|done..|].
  { exact (step_ok (S_save i) s Hi Hs). }
  rewrite (load_file _ _ _ j) by done. rewrite Hd. unfold document.
  pose proof (reload_isr_run isoformat now i) as Ho. unfold outcome in Ho.
  destruct (reloadable i); [by rewrite Ho|]. destruct Ho as [m ->]. by exists m.
Qed.

(** An ISR that a snapshot gives back does not pass the integrity check against
    the hash it was saved under: the hash covers the creation time, and the
    loaded ISR has the time of the load. *)
Theorem loaded_snapshot_fails_integrity now i :
  isr_ok i -> isr_ok (reload now i) -> now <> pv_created_at (is_provenance i) ->
  verify_integrity (reload now i) (hash_isr i) = false.
Proof.
  intros Hi Hr Hne. apply bool_decide_eq_false. intros Hh. apply Hne.
  exact (hash_created_at _ _ Hr Hi Hh).
Qed.
End SnapshotLaws.

(** ** Examples *)

(** Texts are the codes of their documents, and hashes are the texts. *)
#[local] Instance plain_codec : Codec := {|
  dumps_indented := value_text; dumps_compact := value_text; json_loads := text_value;
  sha256 s := s; isoformat t := value_text (VInt t);
|}.

Lemma value_text_injective v w : value_text v = value_text w -> v = w.
Proof.
  intros E. assert (Ok v = Ok w) as [= ->]; [|done].
  by rewrite <- (text_value_text v), <- (text_value_text w), E.
Qed.

#[local] Instance plain_codec_laws : CodecLaws.
Proof.
  split.
  - intros v _ _. apply text_value_text.
  - intros v w _ _ _ _. apply value_text_injective.
  - intros t u E. by injection (value_text_injective _ _ E).
Qed.

#[local] Instance plain_texts : Texts := {| py_str _ := "value"; py_repr _ := "value" |}.

Lemma snapshot_round_trip_witness :
  exists i, from_dict 7 sample_document = Ok i /\ reloadable i = true /\
    let s' := fold_left (fun s c => snapshot_step c s) [S_delete "other"; S_save i]
                (save i []).2 in
    (save i []).1 = Ok (hash_isr i) /\ load 9 (hash_isr i) s' = (Ok (Some (reload 9 i)), s').
Proof.
  eexists. split; [vm_compute; reflexivity|]. split; [vm_compute; reflexivity|].
  match goal with |- context [reload 9 ?i] =>
    refine (snapshot_round_trip 9 i [S_delete "other"; S_save i] [] _ _ _ _) end.
  - vm_compute. reflexivity.
  - split; [constructor|done].
  - constructor; [exact I|]. constructor; [vm_compute; reflexivity|constructor].
  - vm_compute. reflexivity.
Defined.

Lemma loaded_snapshot_fails_integrity_witness :
  exists i, from_dict 7 sample_document = Ok i /\
    verify_integrity (reload 9 i) (hash_isr i) = false.
Proof.
  eexists. split; [vm_compute; reflexivity|].
  apply (loaded_snapshot_fails_integrity 9); [vm_compute; reflexivity..|done].
Defined.
