(* ===== verification/IsrLineage.v ===== *)
(** * ISR versioning: versions and their lineage

    [isr/versioning/version.py] and [lineage.py].  A tracker is a value passed
    from call to call; timestamps are integers.  The two loops that walk up the
    first parents carry fuel of one step more than there are records, which is
    proved to suffice. *)

From S2P Require Import Prelude PyFloat PyVal PyText PyJson IsrRecords IsrSerial IsrSerialSpec.
From Stdlib Require Import SpecFloat.
Open Scope Z_scope.

(** ** ISRVersion and LineageRecord *)

Abbreviation fitness_values := (list (string * spec_float)).

Record ISRVersion : Set := {
  vr_isr : ISR;
  vr_content_hash : string;
  vr_version_number : Z;
  vr_created_at : Z;
  vr_parent_hash : option string;
  vr_mutation_id : option string;
  vr_mutation_description : string;
  vr_fitness_vector : option fitness_values;
  vr_generation : Z;
  vr_tags : list string;
}.

Definition is_root (v : ISRVersion) : bool :=
  match vr_parent_hash v with None => true | Some _ => false end.
Definition version_short_hash (v : ISRVersion) : string :=
  String.substring 0 12 (vr_content_hash v).
Definition display_name (v : ISRVersion) : string :=
  "ISR-v" +:+ str_of_int (vr_version_number v) +:+ "-" +:+ version_short_hash v.

Record LineageRecord : Set := {
  lg_version : ISRVersion;
  lg_parent_hashes : list string;
  lg_child_hashes : list string;
  lg_mutation_applied : string;
  lg_fitness_before : option fitness_values;
  lg_fitness_after : option fitness_values;
  lg_timestamp : Z;
  lg_evolution_run_id : string;
  lg_reasoning : string;
}.

(** ** LineageTracker *)

Record LineageTracker : Set := {
  lt_versions : list (string * ISRVersion);
  lt_records : list (string * LineageRecord);
  lt_children : list (string * list string);
}.

Definition empty_tracker : LineageTracker :=
  {| lt_versions := []; lt_records := []; lt_children := [] |}.

Definition register (version : ISRVersion) (record : LineageRecord) (t : LineageTracker)
    : LineageTracker :=
  let h := vr_content_hash version in
  {| lt_versions := dset h version (lt_versions t);
     lt_records := dset h record (lt_records t);
     lt_children := fold_left (fun d p => dset p (dget_or p d [] ++ [h]) d)
                      (lg_parent_hashes record) (lt_children t) |}.

Section Queries.
Variable t : LineageTracker.

Definition get_version (content_hash : string) : option ISRVersion :=
  dget content_hash (lt_versions t).
Definition get_record (content_hash : string) : option LineageRecord :=
  dget content_hash (lt_records t).

Definition get_parent (content_hash : string) : option ISRVersion :=
  match get_record content_hash with
  | Some record => match lg_parent_hashes record with
                   | parent :: _ => get_version parent
                   | [] => None
                   end
  | None => None
  end.

Definition get_children (content_hash : string) : list ISRVersion :=
  omap get_version (dget_or content_hash (lt_children t) []).

(** The loops; [None] is fuel that ran out. *)
Fixpoint ancestors_loop (fuel : nat) (current : string) (visited : list string)
    (ancestors : list ISRVersion) : option (list ISRVersion) :=
  match fuel with
  | O => None
  | S fuel' =>
      if truthy current && negb (mem current visited) then
        match get_record current with
        | Some record =>
            match lg_parent_hashes record with
            | parent_hash :: _ =>
                ancestors_loop fuel' parent_hash (current :: visited)
                  match get_version parent_hash with
                  | Some parent => ancestors ++ [parent]
                  | None => ancestors
                  end
            | [] => Some ancestors
            end
        | None => Some ancestors
        end
      else Some ancestors
  end.

Definition get_ancestors (content_hash : string) : option (list ISRVersion) :=
  match ancestors_loop (S (length (lt_records t))) content_hash [] [] with
  | Some ancestors => Some (rev ancestors)
  | None => None
  end.

Fixpoint common_loop (fuel : nat) (ancestors_a : list string) (current : string)
    (visited : list string) : option (option ISRVersion) :=
  match fuel with
  | O => None
  | S fuel' =>
      if truthy current && negb (mem current visited) then
        if mem current ancestors_a then Some (get_version current)
        else match get_record current with
             | Some record =>
                 match lg_parent_hashes record with
                 | parent_hash :: _ => common_loop fuel' ancestors_a parent_hash (current :: visited)
                 | [] => Some None
                 end
             | None => Some None
             end
      else Some None
  end.

Definition get_common_ancestor (hash_a hash_b : string) : option (option ISRVersion) :=
  match get_ancestors hash_a with
  | Some ancestors =>
      common_loop (S (length (lt_records t))) (hash_a :: map vr_content_hash ancestors) hash_b []
  | None => None
  end.

Definition all_versions : list ISRVersion := dvalues (lt_versions t).
Definition root_versions : list ISRVersion := List.filter is_root (dvalues (lt_versions t)).
Definition latest_generation : Z :=
  match map vr_generation (dvalues (lt_versions t)) with
  | [] => 0
  | g :: gs => fold_left Z.max gs g
  end.
End Queries.

(** ** The chain of first parents *)

Section Chains.
Variable t : LineageTracker.

(** Where the loops go next. *)
Definition first_parent (h : string) : option string :=
  if truthy h then
    match get_record t h with
    | Some record => head (lg_parent_hashes record)
    | None => None
    end
  else None.

Definition reaches : string -> string -> Prop := rtc (fun x y => first_parent x = Some y).

Lemma reaches_step x y z : reaches x y -> first_parent y = Some z -> reaches x z.
Proof. intros Hxy Hyz. eapply rtc_r; [exact Hxy|exact Hyz]. Qed.

(** A set closed under first parents holds what its members reach. *)
Lemma reaches_closed (V : string -> Prop) x z :
  (forall y y', V y -> first_parent y = Some y' -> V y') -> V x -> reaches x z -> V z.
Proof. intros Hc Hx. induction 1; eauto. Qed.

Lemma first_parent_record h p : first_parent h = Some p -> h ∈ dkeys (lt_records t) /\ truthy h = true.
Proof.
  unfold first_parent, get_record. destruct (truthy h); [|done].
  destruct (dget h _) as [r|] eqn:E; [|done]. split; [|done]. by apply (dget_Some_key _ r).
Qed.

(** *** One step of the loops *)

Lemma ancestors_loop_step fuel h visited acc :
  ancestors_loop t (S fuel) h visited acc =
  if mem h visited then Some acc
  else match first_parent h with
       | Some p => ancestors_loop t fuel p (h :: visited)
                     (match get_version t p with Some v => acc ++ [v] | None => acc end)
       | None => Some acc
       end.
Proof.
  cbn [ancestors_loop]. unfold first_parent. destruct (truthy h); simpl; [|by destruct (mem _ _)].
  destruct (mem h visited); [done|]. simpl. destruct (get_record t h) as [r|]; [|done].
  by destruct (lg_parent_hashes r).
Qed.

Lemma common_loop_step fuel A h visited :
  truthy h = true ->
  common_loop t (S fuel) A h visited =
  if mem h visited then Some None
  else if mem h A then Some (get_version t h)
  else match first_parent h with
       | Some p => common_loop t fuel A p (h :: visited)
       | None => Some None
       end.
Proof.
  intros Hh. cbn [common_loop]. unfold first_parent. rewrite Hh. simpl.
  destruct (mem h visited); [done|]. simpl. destruct (mem h A); [done|].
  destruct (get_record t h) as [r|]; [|done]. by destruct (lg_parent_hashes r).
Qed.

(** *** What is visited *)

(** The walk from [start] has left [visited] behind and stands at [current]. *)
Record walked (start current : string) (visited : list string) : Prop := {
  wk_nodup : NoDup visited;
  wk_start : start = current \/ start ∈ visited;
  wk_next x : x ∈ visited -> exists y, first_parent x = Some y /\ (y = current \/ y ∈ visited);
  wk_reach x : x ∈ visited -> reaches start x;
  wk_current : reaches start current;
}.

Lemma walked_start start : walked start start [].
Proof.
  split; [constructor|by left| | |by apply rtc_refl]; intros x Hx; by apply not_elem_of_nil in Hx.
Qed.

Lemma walked_step start h p visited :
  walked start h visited -> (h ∉ visited) -> first_parent h = Some p ->
  walked start p (h :: visited).
Proof.
  intros [Hn Hs Hx Hr Hc] Hh Hp. split.
  - by constructor.
  - right. apply elem_of_cons. destruct Hs as [->|Hs]; auto.
  - intros x [->|Hin]%elem_of_cons; [exists p; auto|].
    destruct (Hx x Hin) as (y & Hy & Hor). exists y. split; [done|]. right.
    apply elem_of_cons. destruct Hor as [->|]; auto.
  - intros x [->|Hin]%elem_of_cons; auto.
  - by apply (reaches_step _ h).
Qed.

Lemma walked_bound start h visited :
  walked start h visited -> (length visited <= length (lt_records t))%nat.
Proof.
  intros W. replace (length (lt_records t)) with (length (dkeys (lt_records t))) by apply length_map.
  apply submseteq_length, NoDup_submseteq; [apply (wk_nodup _ _ _ W)|].
  intros x (y & Hy & _)%(wk_next _ _ _ W). by apply first_parent_record in Hy as [? _].
Qed.

(** What [start] reaches has been left behind or lies ahead. *)
Lemma walked_ahead start h visited z :
  walked start h visited -> reaches start z -> z ∈ visited \/ reaches h z.
Proof.
  intros W. apply (reaches_closed (fun z => z ∈ visited \/ reaches h z)).
  - intros x y [Hx|Hx] Hy; [|right; by apply (reaches_step _ x)].
    destruct (wk_next _ _ _ W _ Hx) as (y' & Hy' & Hor). rewrite Hy in Hy'. injection Hy' as <-.
    destruct Hor as [->|]; [right; apply rtc_refl|by left].
  - destruct (wk_start _ _ _ W) as [->|]; [right; apply rtc_refl|by left].
Qed.

(** At the end of a walk everything [start] reaches has been seen. *)
Lemma walked_end start h visited z :
  walked start h visited -> h ∈ visited \/ first_parent h = None ->
  reaches start z -> z = h \/ z ∈ visited.
Proof.
  intros W Hend. apply (reaches_closed (fun z => z = h \/ z ∈ visited)).
  - intros x y Hx Hy. destruct Hx as [->|Hx].
    + destruct Hend as [Hin|Hnone]; [|congruence].
      destruct (wk_next _ _ _ W _ Hin) as (y' & Hy' & Hor). rewrite Hy in Hy'. by injection Hy' as <-.
    + destruct (wk_next _ _ _ W _ Hx) as (y' & Hy' & Hor). rewrite Hy in Hy'. by injection Hy' as <-.
  - apply (wk_start _ _ _ W).
Qed.

(** *** The loops *)

(** The versions found so far are those of the next of the visited. *)
Definition found (visited : list string) (acc : list ISRVersion) : Prop := forall v,
  v ∈ acc <-> exists x y, x ∈ visited /\ first_parent x = Some y /\ get_version t y = Some v.

Lemma found_step h p visited acc : first_parent h = Some p -> found visited acc ->
  found (h :: visited) (match get_version t p with Some v => acc ++ [v] | None => acc end).
Proof.
  intros Hp Hf v. transitivity (v ∈ acc \/ get_version t p = Some v).
  - destruct (get_version t p) as [u|]; [|naive_solver].
    rewrite elem_of_app, list_elem_of_singleton. naive_solver.
  - rewrite (Hf v). setoid_rewrite elem_of_cons. naive_solver.
Qed.

Lemma ancestors_loop_ends start fuel h visited acc :
  walked start h visited -> found visited acc ->
  (S (length (lt_records t)) <= fuel + length visited)%nat ->
  exists acc', ancestors_loop t fuel h visited acc = Some acc' /\
    forall v, v ∈ acc' <-> exists x y, reaches start x /\ first_parent x = Some y /\ get_version t y = Some v.
Proof.
  assert (Hend : forall h visited acc, walked start h visited -> found visited acc ->
    h ∈ visited \/ first_parent h = None ->
    forall v, v ∈ acc <-> exists x y, reaches start x /\ first_parent x = Some y /\ get_version t y = Some v).
  { clear. intros h visited acc W Hf Hend v. rewrite (Hf v). split; intros (x & y & Hx & Hy & Hv).
    - exists x, y. split; [by apply (wk_reach _ _ _ W)|done].
    - exists x, y. split; [|done]. destruct (walked_end _ _ _ _ W Hend Hx) as [->|]; [|done].
      destruct Hend as [|Hnone]; [done|congruence]. }
  revert h visited acc. induction fuel as [|fuel IH]; intros h visited acc W Hf Hfuel.
  { apply walked_bound in W. lia. }
  rewrite ancestors_loop_step. destruct (mem h visited) eqn:Em.
  { apply mem_true in Em. exists acc. split; [done|]. apply (Hend h visited); auto. }
  apply mem_false in Em. destruct (first_parent h) as [p|] eqn:Ep.
  - apply IH; [by apply walked_step|by apply found_step|simpl; lia].
  - exists acc. split; [done|]. apply (Hend h visited); auto.
Qed.

(** The first of the set on the way, or nothing of it is. *)
Lemma common_loop_ends A start fuel h visited :
  walked start h visited -> (forall x, x ∈ visited -> x ∉ A) ->
  (S (length (lt_records t)) <= fuel + length visited)%nat ->
  exists r, common_loop t fuel A h visited = Some r /\
    ((exists c, c ∈ A /\ reaches start c /\ r = get_version t c /\
        forall z, z ∈ A -> reaches start z -> truthy z = true -> reaches c z) \/
     (r = None /\ forall z, z ∈ A -> reaches start z -> truthy z = false)).
Proof.
  revert h visited. induction fuel as [|fuel IH]; intros h visited W HA Hfuel.
  { apply walked_bound in W. lia. }
  assert (Hno : h ∈ visited \/ first_parent h = None -> h ∉ A \/ truthy h = false ->
    forall z, z ∈ A -> reaches start z -> truthy z = false).
  { intros Hend Hh z Hz Hsz. destruct (walked_end _ _ _ _ W Hend Hsz) as [->|Hin].
    - by destruct Hh.
    - by apply HA in Hin. }
  destruct (truthy h) eqn:Eh.
  2:{ exists None. split; [cbn [common_loop]; by rewrite Eh|]. right. split; [done|].
      apply Hno; [right; unfold first_parent; by rewrite Eh|by right]. }
  rewrite common_loop_step by done. destruct (mem h visited) eqn:Em.
  { apply mem_true in Em. exists None. split; [done|]. right. split; [done|]. apply Hno; auto. }
  destruct (mem h A) eqn:EA.
  { apply mem_true in EA. eexists. split; [done|]. left. exists h. split_and!; [done|apply (wk_current _ _ _ W)|done|].
    intros z Hz Hsz _.
    destruct (walked_ahead _ _ _ _ W Hsz) as [Hz'|]; [|done].    by apply HA in Hz'. }
  apply mem_false in Em, EA. destruct (first_parent h) as [p|] eqn:Ep.
  - apply IH; [by apply walked_step| |simpl; lia]. intros x [->|Hx]%elem_of_cons; auto.
  - exists None. split; [done|]. right. split; [done|]. apply Hno; auto.
Qed.

(** The tracker names every version by its content hash, and has a record of
    each. *)
Record tracker_ok : Prop := {
  to_named h v : get_version t h = Some v -> vr_content_hash v = h /\ truthy h = true;
  to_recorded h : get_record t h = None <-> get_version t h = None;
}.

Lemma ancestors_of h : exists vs, get_ancestors t h = Some vs /\
  forall v, v ∈ vs <-> exists x y, reaches h x /\ first_parent x = Some y /\ get_version t y = Some v.
Proof.
  destruct (ancestors_loop_ends h (S (length (lt_records t))) h [] []) as (vs & E & Hvs).
  - apply walked_start.
  - intros v. split; [intros Hv|intros (x & _ & Hx & _)]; by (apply not_elem_of_nil in Hv || apply not_elem_of_nil in Hx).
  - simpl. lia.
  - exists (rev vs). unfold get_ancestors. rewrite E. split; [done|]. intros v.
    rewrite list_elem_of_In, <- in_rev, <- list_elem_of_In. apply Hvs.
Qed.
End Chains.

Lemma register_ok v r t : tracker_ok t -> vr_content_hash v <> EmptyString -> tracker_ok (register v r t).
Proof.
  intros [Hn Hr] Hv. unfold register. split; intros h; unfold get_version, get_record in *; cbn [lt_versions lt_records].
  - intros u. rewrite dget_dset. case_decide as E; [|by apply Hn]. intros [= <-]. split; [done|].
    subst h. by destruct (vr_content_hash v).
  - rewrite !dget_dset. case_decide; [done|apply Hr].
Qed.

Lemma registered_ok regs :
  Forall (fun p => vr_content_hash p.1 <> EmptyString) regs ->
  tracker_ok (fold_left (fun t p => register p.1 p.2 t) regs empty_tracker).
Proof.
  intros Hregs. assert (H : tracker_ok empty_tracker) by (by split). revert H. generalize empty_tracker.
  induction Hregs as [|p regs Hp Hregs IH]; intros t Ht; [done|]. by apply IH, register_ok.
Qed.

(** The set [get_common_ancestor] looks in: the chain of the first hash. *)
Lemma chain_set t a vs z :
  tracker_ok t ->
  (forall v, v ∈ vs <-> exists x y, reaches t a x /\ first_parent t x = Some y /\ get_version t y = Some v) ->
  is_Some (get_version t z) -> (z ∈ a :: map vr_content_hash vs <-> reaches t a z).
Proof.
  intros Ht Hvs [v Hz]. rewrite elem_of_cons, list_elem_of_fmap. split.
  - intros [->|(u & -> & (x & y & Hx & Hy & Hu)%Hvs)]; [apply rtc_refl|].
    destruct (to_named t Ht y u Hu) as [-> _]. by apply (reaches_step _ _ x).
  - intros [->|(x & Hx & Hxz)]%rtc_inv_r; [by left|right]. exists v.
    split; [by destruct (to_named t Ht z v Hz)|]. apply Hvs. by exists x, z.
Qed.

Lemma unregistered_ends t c z : tracker_ok t -> get_version t c = None -> reaches t c z -> z = c.
Proof.
  intros Ht Hc [->|(y & Hy & _)]%rtc_inv; [done|]. apply (to_recorded t Ht) in Hc.
  unfold first_parent in Hy. rewrite Hc in Hy. by destruct (truthy c).
Qed.

(** ** Theorems *)

(** In every tracker built by registering versions (whose hashes are not
    empty), in any order and with any parents, cycles included, the common
    ancestor of two hashes is found whenever there is one, and it is the nearest:
    a registered version on the chain of first parents of both (each hash
    belonging to its own chain), from which the chain leads to every other such
    version. *)
Theorem common_ancestor_nearest regs a b :
  Forall (fun p => vr_content_hash p.1 <> EmptyString) regs ->
  let t := fold_left (fun t p => register p.1 p.2 t) regs empty_tracker in
  exists r, get_common_ancestor t a b = Some r /\
  match r with
  | Some v =>
      let c := vr_content_hash v in
      get_version t c = Some v /\ reaches t a c /\ reaches t b c /\
      forall z, is_Some (get_version t z) -> reaches t a z -> reaches t b z -> reaches t c z
  | None => forall z, is_Some (get_version t z) -> ~ (reaches t a z /\ reaches t b z)
  end.
Proof.
  intros Hregs t. pose proof (registered_ok regs Hregs) as Ht. fold t in Ht. clearbody t. clear regs Hregs.
  destruct (ancestors_of t a) as (vs & Evs & Hvs). unfold get_common_ancestor. rewrite Evs.
  set (A := a :: map vr_content_hash vs).
  pose proof (fun z => chain_set t a vs z Ht Hvs) as HA. fold A in HA. clearbody A.
  destruct (common_loop_ends t A b (S (length (lt_records t))) b []) as (r & Er & Hr).
  { apply walked_start. } { intros x Hx. by apply not_elem_of_nil in Hx. } { simpl. lia. }
  exists r. split; [exact Er|]. destruct Hr as [(c & HcA & Hbc & -> & Hnear)|[-> Hno]].
  - assert (Hz : forall z, is_Some (get_version t z) -> reaches t a z -> reaches t b z -> reaches t c z).
    { intros z Hz Haz Hbz. apply Hnear; [by apply HA|done|]. destruct Hz as [v Hv]. by apply (to_named t Ht) in Hv as [_ ?]. }
    destruct (get_version t c) as [v|] eqn:Ev.
    + destruct (to_named t Ht c v Ev) as [-> _]. split_and!; [done| |done..]. by apply HA; [eexists|].
    + intros z Hs [Haz Hbz]. apply (unregistered_ends t c z Ht Ev) in Hz; [|done..]. subst z.
      rewrite Ev in Hs. by destruct Hs.
  - intros z Hs [Haz Hbz]. assert (truthy z = false) by (apply Hno; [by apply HA|done]).
    destruct Hs as [v Hv]. apply (to_named t Ht) in Hv as [_ ?]. congruence.
Qed.

(** ** Examples *)

#[local] Instance lineage_texts : Texts := {| py_str _ := "value"; py_repr _ := "value" |}.

Definition registration (i : ISR) (h : string) (parents : list string) (generation : Z)
    : ISRVersion * LineageRecord :=
  let v := {| vr_isr := i; vr_content_hash := h; vr_version_number := generation + 1;
              vr_created_at := 0; vr_parent_hash := head parents; vr_mutation_id := None;
              vr_mutation_description := ""; vr_fitness_vector := None;
              vr_generation := generation; vr_tags := [] |} in
  (v, {| lg_version := v; lg_parent_hashes := parents; lg_child_hashes := [];
         lg_mutation_applied := ""; lg_fitness_before := None; lg_fitness_after := None;
         lg_timestamp := 0; lg_evolution_run_id := ""; lg_reasoning := "" |}).

(** Two lines from one base, which has a root. *)
Definition sample_registrations (i : ISR) : list (ISRVersion * LineageRecord) :=
  [registration i "root" [] 0; registration i "base" ["root"] 1;
   registration i "left" ["base"] 2; registration i "right" ["base"; "left"] 2].

Lemma common_ancestor_nearest_witness :
  exists i, from_dict 7 sample_document = Ok i /\
  let t := fold_left (fun t p => register p.1 p.2 t) (sample_registrations i) empty_tracker in
  option_map (option_map vr_content_hash) (get_common_ancestor t "left" "right")
  = Some (Some "base") /\
  exists r, get_common_ancestor t "left" "right" = Some r /\
  match r with
  | Some v =>
      let c := vr_content_hash v in
      get_version t c = Some v /\ reaches t "left" c /\ reaches t "right" c /\
      forall z, is_Some (get_version t z) -> reaches t "left" z -> reaches t "right" z -> reaches t c z
  | None => forall z, is_Some (get_version t z) -> ~ (reaches t "left" z /\ reaches t "right" z)
  end.
Proof.
  eexists. split; [vm_compute; reflexivity|]. split; [vm_compute; reflexivity|].
  apply common_ancestor_nearest. repeat (constructor; [done|]). constructor.
Defined.
