(* ===== verification/TypedGraph.v ===== *)
(** * The typed attributed graph of the ISR

    [isr/graph/typed_graph.py]: the four dictionaries of [TypedGraph], its
    mutators and accessors, the representation invariant they keep, and the
    specification of the adjacency lookups as filters of the edge table. *)

From S2P Require Import Prelude PyFloat PyVal IsrModel.

Record GraphNode : Set := {
  n_id : string;
  node_type : NodeType;
  label : string;
  n_attributes : list (string * pyval);
  parent_id : option string;
}.

Record GraphEdge : Set := {
  e_id : string;
  source_id : string;
  target_id : string;
  edge_type : EdgeType;
  e_attributes : EdgeAttributes;
  e_metadata : list (string * pyval);
}.

Record TypedGraph : Set := {
  g_nodes : list (string * GraphNode);
  g_edges : list (string * GraphEdge);
  g_adjacency : list (string * list string);
  g_reverse : list (string * list string);
}.

Definition empty_graph : TypedGraph :=
  {| g_nodes := []; g_edges := []; g_adjacency := []; g_reverse := [] |}.

(** [d.setdefault(k, [])]. *)
Definition setdefault_nil (k : string) (d : list (string * list string)) :=
  if dmem k d then d else dset k [] d.

Definition add_node (n : GraphNode) : M TypedGraph unit := fun g =>
  if dmem (n_id n) (g_nodes g)
  then (Raise (ValueError ("Node '" +:+ n_id n +:+ "' already exists")), g)
  else (Ok tt, {| g_nodes := dset (n_id n) n (g_nodes g);
                  g_edges := g_edges g;
                  g_adjacency := setdefault_nil (n_id n) (g_adjacency g);
                  g_reverse := setdefault_nil (n_id n) (g_reverse g) |}).

(** [table[k].append(x)]: a KeyError when the key is missing. *)
Definition append_at (k x : string) (d : list (string * list string)) :
    res (list (string * list string)) :=
  match dget k d with
  | Some xs => Ok (dset k (xs ++ [x]) d)
  | None => Raise (KeyError k)
  end.

Definition add_edge (e : GraphEdge) : M TypedGraph unit := fun g =>
  if dmem (e_id e) (g_edges g)
  then (Raise (ValueError ("Edge '" +:+ e_id e +:+ "' already exists")), g)
  else if negb (dmem (source_id e) (g_nodes g))
  then (Raise (ValueError ("Source node '" +:+ source_id e +:+ "' does not exist")), g)
  else if negb (dmem (target_id e) (g_nodes g))
  then (Raise (ValueError ("Target node '" +:+ target_id e +:+ "' does not exist")), g)
  else
    let g1 := {| g_nodes := g_nodes g; g_edges := dset (e_id e) e (g_edges g);
                 g_adjacency := g_adjacency g; g_reverse := g_reverse g |} in
    match append_at (source_id e) (e_id e) (g_adjacency g1) with
    | Raise x => (Raise x, g1)
    | Ok adj =>
        let g2 := {| g_nodes := g_nodes g1; g_edges := g_edges g1;
                     g_adjacency := adj; g_reverse := g_reverse g1 |} in
        match append_at (target_id e) (e_id e) (g_reverse g2) with
        | Raise x => (Raise x, g2)
        | Ok rev => (Ok tt, {| g_nodes := g_nodes g2; g_edges := g_edges g2;
                               g_adjacency := g_adjacency g2; g_reverse := rev |})
        end
    end.

Definition node_count (g : TypedGraph) : nat := length (g_nodes g).
Definition edge_count (g : TypedGraph) : nat := length (g_edges g).

Definition get_node (g : TypedGraph) (node_id : string) : option GraphNode :=
  dget node_id (g_nodes g).
Definition get_edge (g : TypedGraph) (edge_id : string) : option GraphEdge :=
  dget edge_id (g_edges g).

Definition nodes (g : TypedGraph) : list GraphNode := dvalues (g_nodes g).
Definition edges (g : TypedGraph) : list GraphEdge := dvalues (g_edges g).

Definition get_nodes_by_type (g : TypedGraph) (t : NodeType) : list GraphNode :=
  List.filter (fun n => bool_decide (node_type n = t)) (nodes g).
Definition get_edges_by_type (g : TypedGraph) (t : EdgeType) : list GraphEdge :=
  List.filter (fun e => bool_decide (edge_type e = t)) (edges g).

(** [[self._edges[eid] for eid in eids]]. *)
Fixpoint edges_of_ids (g : TypedGraph) (eids : list string) : res (list GraphEdge) :=
  match eids with
  | [] => Ok []
  | eid :: rest =>
      match dget eid (g_edges g) with
      | None => Raise (KeyError eid)
      | Some e => es ← edges_of_ids g rest; Ok (e :: es)
      end
  end.

Definition get_outgoing_edges (g : TypedGraph) (node_id : string) : res (list GraphEdge) :=
  edges_of_ids g (dget_or node_id (g_adjacency g) []).
Definition get_incoming_edges (g : TypedGraph) (node_id : string) : res (list GraphEdge) :=
  edges_of_ids g (dget_or node_id (g_reverse g) []).

Definition has_edge (g : TypedGraph) (src tgt : string) (t : EdgeType) : res bool :=
  (fix scan (eids : list string) : res bool :=
    match eids with
    | [] => Ok false
    | eid :: rest =>
        match dget eid (g_edges g) with
        | None => Raise (KeyError eid)
        | Some e =>
            if bool_decide (target_id e = tgt) && bool_decide (edge_type e = t)
            then Ok true else scan rest
        end
    end) (dget_or src (g_adjacency g) []).

Definition clone (g : TypedGraph) : res TypedGraph :=
  match (_ ← for_each (nodes g) add_node; for_each (edges g) add_edge) empty_graph with
  | (Ok _, g') => Ok g'
  | (Raise x, _) => Raise x
  end.

(** ** The representation invariant *)

(** The edges leaving (entering) a node, in insertion order. *)
Definition out_edges (g : TypedGraph) (k : string) : list GraphEdge :=
  List.filter (fun e => bool_decide (source_id e = k)) (edges g).
Definition in_edges (g : TypedGraph) (k : string) : list GraphEdge :=
  List.filter (fun e => bool_decide (target_id e = k)) (edges g).

(** An adjacency table: one entry per node, in the nodes' order, holding the
    ids of the edges selected for it. *)
Definition table_for (ks : list string) (sel : string -> list GraphEdge) :
    list (string * list string) :=
  dtable (fun k => map e_id (sel k)) ks.

Record graph_ok (g : TypedGraph) : Prop := {
  ok_nodes : dict_ok (g_nodes g);
  ok_edges : dict_ok (g_edges g);
  ok_node_ids : Forall (fun p => p.1 = n_id p.2) (g_nodes g);
  ok_edge_ids : Forall (fun p => p.1 = e_id p.2) (g_edges g);
  ok_sources : Forall (fun e => source_id e ∈ dkeys (g_nodes g)) (edges g);
  ok_targets : Forall (fun e => target_id e ∈ dkeys (g_nodes g)) (edges g);
  ok_adjacency : g_adjacency g = table_for (dkeys (g_nodes g)) (out_edges g);
  ok_reverse : g_reverse g = table_for (dkeys (g_nodes g)) (in_edges g);
}.

Lemma append_at_dtable ks (f : string -> list string) k x :
  NoDup ks -> k ∈ ks ->
  append_at k x (dtable f ks)
  = Ok (dtable (fun k' => if decide (k' = k) then f k' ++ [x] else f k') ks).
Proof.
  intros Hnd Hk. unfold append_at. rewrite dget_dtable, dset_dtable by done. f_equal.
  apply dtable_ext. intros k' _. by case_decide; subst.
Qed.

Lemma empty_graph_ok : graph_ok empty_graph.
Proof. split; simpl; try done; constructor. Qed.

Lemma edges_dset_fresh g e :
  e_id e ∉ dkeys (g_edges g) -> dvalues (dset (e_id e) e (g_edges g)) = edges g ++ [e].
Proof. apply dvalues_dset_fresh. Qed.

Lemma filter_snoc {A} (f : A -> bool) l x :
  List.filter f (l ++ [x]) = if f x then List.filter f l ++ [x] else List.filter f l.
Proof. rewrite List.filter_app. simpl. destruct (f x); [done|by rewrite app_nil_r]. Qed.

Lemma edge_endpoints g e :
  graph_ok g -> e ∈ edges g ->
  source_id e ∈ dkeys (g_nodes g) /\ target_id e ∈ dkeys (g_nodes g).
Proof.
  intros Hg He. split.
  - exact (proj1 (Forall_forall _ _) (ok_sources g Hg) e He).
  - exact (proj1 (Forall_forall _ _) (ok_targets g Hg) e He).
Qed.

Lemma out_edges_nil g k : graph_ok g -> k ∉ dkeys (g_nodes g) -> out_edges g k = [].
Proof.
  intros Hg Hk. unfold out_edges.
  destruct (List.filter _ _) as [|e l] eqn:E; [done|].
  assert (He : In e (e :: l)) by (by left). rewrite <- E in He.
  apply filter_In in He as [He Hs]. bool_hyps. subst.
  apply list_elem_of_In, (edge_endpoints g) in He as []; done.
Qed.

Lemma in_edges_nil g k : graph_ok g -> k ∉ dkeys (g_nodes g) -> in_edges g k = [].
Proof.
  intros Hg Hk. unfold in_edges.
  destruct (List.filter _ _) as [|e l] eqn:E; [done|].
  assert (He : In e (e :: l)) by (by left). rewrite <- E in He.
  apply filter_In in He as [He Hs]. bool_hyps. subst.
  apply list_elem_of_In, (edge_endpoints g) in He as []; done.
Qed.

(** ** What the mutators do on a well-formed graph *)

Lemma add_node_spec g n :
  graph_ok g ->
  match add_node n g with
  | (Ok _, g') => n_id n ∉ dkeys (g_nodes g) /\ graph_ok g' /\
      g_nodes g' = g_nodes g ++ [(n_id n, n)] /\ g_edges g' = g_edges g
  | (Raise e, g') => e = ValueError ("Node '" +:+ n_id n +:+ "' already exists") /\
      n_id n ∈ dkeys (g_nodes g) /\ g' = g
  end.
Proof.
  intros Hg. unfold add_node. destruct (dmem _ _) eqn:E.
  { apply dmem_true in E. done. }
  apply dmem_false in E. split; [done|]. simpl.
  rewrite dset_fresh by done. split; [|done].
  assert (Hs : forall sel, sel (n_id n) = [] ->
    setdefault_nil (n_id n) (table_for (dkeys (g_nodes g)) sel)
    = table_for (dkeys (g_nodes g) ++ [n_id n]) sel).
  { intros sel Hsel. unfold setdefault_nil, table_for.
    rewrite (proj2 (dmem_false _ _)) by (by rewrite dkeys_dtable).
    rewrite dset_fresh by (by rewrite dkeys_dtable).
    unfold dtable. rewrite map_app. simpl. by rewrite Hsel. }
  destruct Hg. split; simpl.
  - rewrite <- dset_fresh by done. by apply dset_ok.
  - done.
  - apply Forall_app. auto.
  - done.
  - apply (Forall_impl _ _ _ ok_sources0). intros e He. rewrite dkeys_app. apply elem_of_app. by left.
  - apply (Forall_impl _ _ _ ok_targets0). intros e He. rewrite dkeys_app. apply elem_of_app. by left.
  - rewrite dkeys_app. rewrite ok_adjacency0, Hs; [done|].
    apply out_edges_nil; [by split|done].
  - rewrite dkeys_app. rewrite ok_reverse0, Hs; [done|].
    apply in_edges_nil; [by split|done].
Qed.

Lemma add_edge_spec g e :
  graph_ok g ->
  match add_edge e g with
  | (Ok _, g') => e_id e ∉ dkeys (g_edges g) /\
      source_id e ∈ dkeys (g_nodes g) /\ target_id e ∈ dkeys (g_nodes g) /\
      graph_ok g' /\ g_nodes g' = g_nodes g /\ g_edges g' = g_edges g ++ [(e_id e, e)]
  | (Raise x, g') => g' = g /\ (exists m, x = ValueError m) /\
      (e_id e ∈ dkeys (g_edges g) \/ source_id e ∉ dkeys (g_nodes g) \/
       target_id e ∉ dkeys (g_nodes g))
  end.
Proof.
  intros Hg. unfold add_edge. destruct (dmem (e_id e) _) eqn:E1.
  { apply dmem_true in E1. eauto. }
  destruct (dmem (source_id e) _) eqn:E2; simpl.
  2: { apply dmem_false in E2. split_and!; eauto. }
  destruct (dmem (target_id e) _) eqn:E3; simpl.
  2: { apply dmem_false in E3. split_and!; eauto. }
  apply dmem_false in E1. apply dmem_true in E2, E3.
  pose proof (ok_nodes g Hg) as Hnd. unfold dict_ok in Hnd.
  rewrite (ok_adjacency g Hg). unfold table_for. rewrite append_at_dtable by done. simpl.
  rewrite (ok_reverse g Hg). unfold table_for. rewrite append_at_dtable by done. simpl.
  split_and!; try done; [|by rewrite dset_fresh].
  pose proof (edges_dset_fresh g e E1) as Hed.
  destruct Hg. split; simpl; try done.
  - by apply dset_ok.
  - rewrite dset_fresh by done. apply Forall_app. auto.
  - unfold edges. simpl. rewrite Hed. apply Forall_app. auto.
  - unfold edges. simpl. rewrite Hed. apply Forall_app. auto.
  - unfold table_for. apply dtable_ext. intros k _. unfold out_edges, edges. simpl.
    rewrite Hed, filter_snoc. repeat case_decide; case_bool_decide; subst; try done.
    by rewrite map_app.
  - unfold table_for. apply dtable_ext. intros k _. unfold in_edges, edges. simpl.
    rewrite Hed, filter_snoc. repeat case_decide; case_bool_decide; subst; try done.
    by rewrite map_app.
Qed.

(** ** What the accessors return on a well-formed graph *)

Lemma get_edge_of_edge g e : graph_ok g -> e ∈ edges g -> dget (e_id e) (g_edges g) = Some e.
Proof.
  intros Hg He. apply elem_dvalues in He as [k He].
  pose proof (proj1 (Forall_forall _ _) (ok_edge_ids g Hg) _ He) as Hid. simpl in Hid.
  rewrite <- Hid. apply elem_dget; [apply Hg|done].
Qed.

Lemma edges_of_ids_spec g es :
  graph_ok g -> (forall e, e ∈ es -> e ∈ edges g) -> edges_of_ids g (map e_id es) = Ok es.
Proof.
  intros Hg. induction es as [|e es IH]; simpl; [done|]. intros H.
  rewrite get_edge_of_edge by (done || (apply H; left)).
  rewrite IH; [done|]. intros. apply H. by right.
Qed.

Lemma filter_elem_edges g f e : e ∈ List.filter f (edges g) -> e ∈ edges g.
Proof. rewrite !list_elem_of_In, filter_In. tauto. Qed.

Lemma get_outgoing_edges_spec g k :
  graph_ok g -> get_outgoing_edges g k = Ok (out_edges g k).
Proof.
  intros Hg. unfold get_outgoing_edges, dget_or. rewrite (ok_adjacency g Hg). unfold table_for.
  destruct (decide (k ∈ dkeys (g_nodes g))) as [Hk|Hk].
  - rewrite dget_dtable by done. apply edges_of_ids_spec; [done|].
    intros e. apply filter_elem_edges.
  - rewrite dget_dtable_None by done. by rewrite out_edges_nil.
Qed.

Lemma get_incoming_edges_spec g k :
  graph_ok g -> get_incoming_edges g k = Ok (in_edges g k).
Proof.
  intros Hg. unfold get_incoming_edges, dget_or. rewrite (ok_reverse g Hg). unfold table_for.
  destruct (decide (k ∈ dkeys (g_nodes g))) as [Hk|Hk].
  - rewrite dget_dtable by done. apply edges_of_ids_spec; [done|].
    intros e. apply filter_elem_edges.
  - rewrite dget_dtable_None by done. by rewrite in_edges_nil.
Qed.

Create HintDb graph.
#[export] Hint Resolve empty_graph_ok : graph.
#[export] Hint Resolve ok_nodes ok_edges : graph.

(** ** Copies *)

(** A well-formed graph is determined by its node and edge tables. *)
Lemma graph_ok_eq g1 g2 :
  graph_ok g1 -> graph_ok g2 -> g_nodes g1 = g_nodes g2 -> g_edges g1 = g_edges g2 -> g1 = g2.
Proof.
  intros H1 H2 En Ee.
  assert (A : g_adjacency g1 = g_adjacency g2).
  { rewrite (ok_adjacency g1 H1), (ok_adjacency g2 H2). unfold out_edges, edges. by rewrite En, Ee. }
  assert (B : g_reverse g1 = g_reverse g2).
  { rewrite (ok_reverse g1 H1), (ok_reverse g2 H2). unfold in_edges, edges. by rewrite En, Ee. }
  destruct g1, g2. simpl in *. congruence.
Qed.

Lemma for_each_add_node ns g :
  graph_ok g -> NoDup (dkeys (g_nodes g) ++ map n_id ns) ->
  exists g', for_each ns add_node g = (Ok tt, g') /\ graph_ok g' /\
    g_nodes g' = g_nodes g ++ map (fun n => (n_id n, n)) ns /\ g_edges g' = g_edges g.
Proof.
  revert g. induction ns as [|n ns IH]; intros g Hg Hnd; simpl.
  { exists g. rewrite app_nil_r. done. }
  pose proof (add_node_spec g n Hg) as Hs. unfold mbind, M_bind.
  destruct (add_node n g) as [[[]|x] g1].
  - destruct Hs as (Hn & Hg1 & En & Ee).
    destruct (IH g1 Hg1) as (g' & -> & Hg' & En' & Ee').
    { rewrite En, dkeys_app, <- app_assoc. exact Hnd. }
    exists g'. split_and!; [done|done|by rewrite ?En', ?En, ?Ee', ?Ee, <- ?app_assoc..].
  - destruct Hs as (_ & Hin & _). simpl in Hnd. apply NoDup_app in Hnd as (_ & Hd & _).
    destruct (Hd _ Hin). left.
Qed.

Lemma for_each_add_edge es g :
  graph_ok g -> NoDup (dkeys (g_edges g) ++ map e_id es) ->
  Forall (fun e => source_id e ∈ dkeys (g_nodes g) /\ target_id e ∈ dkeys (g_nodes g)) es ->
  exists g', for_each es add_edge g = (Ok tt, g') /\ graph_ok g' /\
    g_nodes g' = g_nodes g /\ g_edges g' = g_edges g ++ map (fun e => (e_id e, e)) es.
Proof.
  revert g. induction es as [|e es IH]; intros g Hg Hnd Hin; simpl.
  { exists g. rewrite app_nil_r. done. }
  apply Forall_cons in Hin as [[Hs Ht] Hin].
  pose proof (add_edge_spec g e Hg) as Hsp. unfold mbind, M_bind.
  destruct (add_edge e g) as [[[]|x] g1].
  - destruct Hsp as (He & _ & _ & Hg1 & En & Ee).
    destruct (IH g1 Hg1) as (g' & -> & Hg' & En' & Ee').
    { rewrite Ee, dkeys_app, <- app_assoc. exact Hnd. }
    { by rewrite En. }
    exists g'. split_and!; [done|done|by rewrite ?En', ?En, ?Ee', ?Ee, <- ?app_assoc..].
  - destruct Hsp as (_ & _ & [Hd|[Hd|Hd]]); [|done|done].
    simpl in Hnd. apply NoDup_app in Hnd as (_ & Hnd & _). destruct (Hnd _ Hd). left.
Qed.

Lemma table_eta {V} (f : V -> string) (d : list (string * V)) :
  Forall (fun p => p.1 = f p.2) d -> map (fun v => (f v, v)) (dvalues d) = d.
Proof. induction 1 as [|[k v] d Hk Hd IH]; simpl in *; [done|]. by rewrite IH, Hk. Qed.

Lemma table_keys {V} (f : V -> string) (d : list (string * V)) :
  Forall (fun p => p.1 = f p.2) d -> map f (dvalues d) = dkeys d.
Proof. induction 1 as [|[k v] d Hk Hd IH]; simpl in *; [done|]. by rewrite IH, Hk. Qed.

Lemma clone_ok g : graph_ok g -> clone g = Ok g.
Proof.
  intros Hg. unfold clone.
  destruct (for_each_add_node (nodes g) empty_graph empty_graph_ok) as (g1 & E1 & H1 & N1 & D1).
  { simpl. unfold nodes. rewrite table_keys by apply Hg. apply Hg. }
  rewrite (M_bind_Ok _ _ _ _ _ E1).
  unfold nodes in N1. rewrite table_eta in N1 by apply Hg. simpl in N1, D1.
  destruct (for_each_add_edge (edges g) g1 H1) as (g2 & E2 & H2 & N2 & D2).
  { rewrite D1. simpl. unfold edges. rewrite table_keys by apply Hg. apply Hg. }
  { rewrite N1. apply Forall_forall. intros e. by apply edge_endpoints. }
  rewrite E2. f_equal. apply graph_ok_eq; [done|done|congruence|].
  rewrite D2, D1. unfold edges. simpl. apply table_eta, Hg.
Qed.

(** ** The graphs the code can build *)

Inductive built : TypedGraph -> Prop :=
| built_empty : built empty_graph
| built_node g n r g' : built g -> add_node n g = (r, g') -> built g'
| built_edge g e r g' : built g -> add_edge e g = (r, g') -> built g'.

Lemma built_ok g : built g -> graph_ok g.
Proof.
  induction 1 as [|g n r g' _ IH E|g e r g' _ IH E]; [auto with graph| |].
  - pose proof (add_node_spec g n IH) as Hs. rewrite E in Hs.
    destruct r; [tauto|]. by destruct Hs as (_ & _ & ->).
  - pose proof (add_edge_spec g e IH) as Hs. rewrite E in Hs.
    destruct r; [tauto|]. by destruct Hs as (-> & _).
Qed.
#[export] Hint Resolve built_ok : graph.

(** The graph a sequence of [add_node] and [add_edge] calls leaves. *)
Definition graph_of (ns : list GraphNode) (es : list GraphEdge) : TypedGraph :=
  fold_left (fun g e => (add_edge e g).2) es
    (fold_left (fun g n => (add_node n g).2) ns empty_graph).

Lemma graph_of_built ns es : built (graph_of ns es).
Proof.
  unfold graph_of.
  assert (H : built (fold_left (fun g n => (add_node n g).2) ns empty_graph)).
  { generalize built_empty. generalize empty_graph. induction ns as [|n ns IH]; simpl; [done|].
    intros g Hg. apply IH. destruct (add_node n g) eqn:E. by eapply built_node. }
  revert H. generalize (fold_left (fun g n => (add_node n g).2) ns empty_graph).
  induction es as [|e es IH]; simpl; [done|].
  intros g Hg. apply IH. destruct (add_edge e g) eqn:E. by eapply built_edge.
Qed.
#[export] Hint Resolve graph_of_built : graph.

(** A node and an edge of a given type with default attributes. *)
Definition sample_node (k : string) : GraphNode :=
  {| n_id := k; node_type := N_MODULE; label := k; n_attributes := []; parent_id := None |}.
Definition sample_edge (k a b : string) : GraphEdge :=
  {| e_id := k; source_id := a; target_id := b; edge_type := E_DEPENDS_ON;
     e_attributes := default_edge_attributes; e_metadata := [] |}.

(** Every graph reached by [add_node] and [add_edge] calls, failed ones
    included, satisfies the representation invariant: keys are unique and are
    the ids of the stored objects, every edge has both endpoints, the two
    adjacency tables are exactly the outgoing and incoming edges in insertion
    order; so the lookups never raise and [clone] returns an equal graph. *)
Theorem built_graph_consistent g :
  built g ->
  graph_ok g /\ clone g = Ok g /\
  (forall k, get_outgoing_edges g k
             = Ok (List.filter (fun e => bool_decide (source_id e = k)) (edges g))) /\
  (forall k, get_incoming_edges g k
             = Ok (List.filter (fun e => bool_decide (target_id e = k)) (edges g))).
Proof.
  intros Hg%built_ok. split_and!;
    auto using clone_ok, get_outgoing_edges_spec, get_incoming_edges_spec.
Qed.

Lemma built_graph_consistent_witness :
  clone (graph_of [sample_node "a"; sample_node "b"] [sample_edge "e" "a" "b"])
  = Ok (graph_of [sample_node "a"; sample_node "b"] [sample_edge "e" "a" "b"]).
Proof. apply built_graph_consistent, graph_of_built. Defined.
