(* ===== verification/GraphSearch.v ===== *)
(** * Breadth-first and depth-first search

    [GraphTraversal.bfs] and [GraphTraversal.dfs] of [isr/graph/traversal.py]:
    both return exactly the nodes reachable from the start through the edges
    the filter keeps, each once, and the loops end within the fuel given. *)

From S2P Require Import Prelude PyFloat PyVal IsrModel TypedGraph.

(** [if edge_filter and not edge_filter(edge): continue]. *)
Definition keeps (f : option (GraphEdge -> bool)) (e : GraphEdge) : bool :=
  match f with None => true | Some p => p e end.

(** The loop of [bfs]; [None] means the fuel ran out. *)
Fixpoint bfs_loop (fuel : nat) (g : TypedGraph) (f : option (GraphEdge -> bool))
    (visited : gset string) (result : list GraphNode) (queue : list string) :
    option (res (list GraphNode)) :=
  match queue with
  | [] => Some (Ok result)
  | node_id :: queue' =>
      match fuel with
      | O => None
      | S fuel' =>
          if decide (node_id ∈ visited) then bfs_loop fuel' g f visited result queue'
          else
            let visited' := {[node_id]} ∪ visited in
            let result' := match get_node g node_id with
                           | Some n => result ++ [n] | None => result end in
            match get_outgoing_edges g node_id with
            | Raise x => Some (Raise x)
            | Ok es =>
                bfs_loop fuel' g f visited' result'
                  (queue' ++ map target_id (List.filter
                     (fun e => keeps f e && negb (bool_decide (target_id e ∈ visited'))) es))
            end
      end
  end.

Definition bfs (g : TypedGraph) (start_id : string) (f : option (GraphEdge -> bool)) :
    option (res (list GraphNode)) :=
  bfs_loop (S (edge_count g)) g f ∅ [] [start_id].

(** The edge loop inside [_dfs]. *)
Fixpoint dfs_edges (f : option (GraphEdge -> bool))
    (visit : string -> gset string * list GraphNode ->
             option (res (gset string * list GraphNode)))
    (es : list GraphEdge) (st : gset string * list GraphNode) :
    option (res (gset string * list GraphNode)) :=
  match es with
  | [] => Some (Ok st)
  | e :: es' =>
      if keeps f e then
        match visit (target_id e) st with
        | Some (Ok st') => dfs_edges f visit es' st'
        | r => r
        end
      else dfs_edges f visit es' st
  end.

(** [_dfs]. *)
Fixpoint dfs_visit (fuel : nat) (g : TypedGraph) (f : option (GraphEdge -> bool))
    (node_id : string) (st : gset string * list GraphNode) :
    option (res (gset string * list GraphNode)) :=
  match fuel with
  | O => None
  | S fuel' =>
      let '(visited, result) := st in
      if decide (node_id ∈ visited) then Some (Ok st)
      else
        let visited' := {[node_id]} ∪ visited in
        let result' := match get_node g node_id with
                       | Some n => result ++ [n] | None => result end in
        match get_outgoing_edges g node_id with
        | Raise x => Some (Raise x)
        | Ok es => dfs_edges f (dfs_visit fuel' g f) es (visited', result')
        end
  end.

Definition dfs (g : TypedGraph) (start_id : string) (f : option (GraphEdge -> bool)) :
    option (res (list GraphNode)) :=
  match dfs_visit (S (S (node_count g))) g f start_id (∅, []) with
  | Some (Ok (_, result)) => Some (Ok result)
  | Some (Raise x) => Some (Raise x)
  | None => None
  end.

(** ** Reachability through the kept edges *)

Definition edge_step (g : TypedGraph) (f : option (GraphEdge -> bool)) (a b : string) : Prop :=
  exists e, e ∈ edges g /\ source_id e = a /\ target_id e = b /\ keeps f e = true.

Definition reach (g : TypedGraph) (f : option (GraphEdge -> bool)) : string -> string -> Prop :=
  rtc (edge_step g f).

(** The nodes of the graph among the visited ids, each once. *)
Definition lists_nodes (g : TypedGraph) (visited : gset string) (result : list GraphNode) : Prop :=
  NoDup (map n_id result) /\
  forall n, n ∈ result <-> get_node g (n_id n) = Some n /\ n_id n ∈ visited.

Lemma elem_out_edges g a e : e ∈ out_edges g a <-> e ∈ edges g /\ source_id e = a.
Proof.
  unfold out_edges. rewrite !list_elem_of_In, filter_In, bool_decide_eq_true. done.
Qed.

Lemma get_node_id g k n : graph_ok g -> get_node g k = Some n -> n_id n = k.
Proof.
  intros Hg H%dget_elem.
  pose proof (proj1 (Forall_forall _ _) (ok_node_ids g Hg) _ H). by simpl in *.
Qed.

Lemma lists_nodes_visit g visited result k :
  graph_ok g -> k ∉ visited -> lists_nodes g visited result ->
  lists_nodes g ({[k]} ∪ visited)
    (match get_node g k with Some n => result ++ [n] | None => result end).
Proof.
  intros Hg Hk [Hnd Hin]. destruct (get_node g k) as [n|] eqn:E.
  - pose proof (get_node_id _ _ _ Hg E) as Hid. split.
    + rewrite map_app. apply NoDup_app. split_and!; [done| |by apply NoDup_singleton].
      intros x Hx Hx'. apply list_elem_of_singleton in Hx' as ->.
      apply list_elem_of_fmap in Hx as (m & Hm & Hmr). apply Hin in Hmr as [_ Hv].
      rewrite <- Hm, Hid in Hv. done.
    + intros m. rewrite elem_of_app, list_elem_of_singleton, Hin, elem_of_union, elem_of_singleton.
      split; [intros [[? ?]| ->]; [tauto|]|].
      * rewrite Hid. auto.
      * intros [Hm [Hmk|Hv]]; [right|tauto]. rewrite Hmk, E in Hm. congruence.
  - split; [done|]. intros m. rewrite Hin, elem_of_union, elem_of_singleton.
    split; [tauto|]. intros [Hm [Hmk|Hv]]; [|tauto]. rewrite Hmk, E in Hm. done.
Qed.

(** ** Breadth-first search *)

(** Loop invariant: visited and queued ids are reachable, the successors of
    a visited id are visited or queued, the start is visited or queued. *)
Record bfs_inv (g : TypedGraph) f (start : string) (visited : gset string)
    (result : list GraphNode) (queue : list string) : Prop := {
  bi_lists : lists_nodes g visited result;
  bi_visited : forall v, v ∈ visited -> reach g f start v;
  bi_queue : forall q, q ∈ queue -> reach g f start q;
  bi_closed : forall v w, v ∈ visited -> edge_step g f v w -> w ∈ visited \/ w ∈ queue;
  bi_start : start ∈ visited \/ start ∈ queue;
}.

(** The edges not yet followed bound the remaining iterations. *)
Definition open_edges (g : TypedGraph) (visited : gset string) : nat :=
  length (List.filter (fun e => negb (bool_decide (source_id e ∈ visited))) (edges g)).

Lemma open_edges_visit g visited k :
  k ∉ visited ->
  open_edges g visited = (open_edges g ({[k]} ∪ visited) + length (out_edges g k))%nat.
Proof.
  intros Hk. apply filter_length_split; intros e _; repeat case_bool_decide; simpl; set_solver.
Qed.

Lemma elem_new_targets f (visited : gset string) es w :
  w ∈ map target_id (List.filter
        (fun e => keeps f e && negb (bool_decide (target_id e ∈ visited))) es) <->
  exists e, e ∈ es /\ keeps f e = true /\ target_id e = w /\ w ∉ visited.
Proof.
  rewrite list_elem_of_fmap. split.
  - intros (e & -> & He). apply list_elem_of_In, filter_In in He as [He Hb].
    bool_hyps. exists e. split_and!; [by apply list_elem_of_In|done..].
  - intros (e & He & Hk & <- & Hv). exists e. split; [done|].
    apply list_elem_of_In, filter_In. split; [by apply list_elem_of_In|].
    rewrite Hk. by rewrite bool_decide_eq_false_2.
Qed.

Lemma bfs_inv_visit g f start visited result k queue :
  graph_ok g -> k ∉ visited -> bfs_inv g f start visited result (k :: queue) ->
  bfs_inv g f start ({[k]} ∪ visited)
    (match get_node g k with Some n => result ++ [n] | None => result end)
    (queue ++ map target_id (List.filter
       (fun e => keeps f e && negb (bool_decide (target_id e ∈ ({[k]} ∪ visited : gset string))))
       (out_edges g k))).
Proof.
  intros Hg Hk [Hl Hv Hq Hc Hs].
  assert (Hrk : reach g f start k) by (apply Hq; left).
  split.
  - by apply lists_nodes_visit.
  - intros v. rewrite elem_of_union, elem_of_singleton. intros [->|]; auto.
  - intros q. rewrite elem_of_app, elem_new_targets. intros [H|(e & He & Hke & <- & _)].
    + apply Hq. by right.
    + apply elem_out_edges in He as [He Hsrc]. eapply rtc_r; [exact Hrk|]. by exists e.
  - intros v w Hvw Hst. destruct (decide (w ∈ ({[k]} ∪ visited : gset string))) as [|Hw]; [by left|].
    right. apply elem_of_app. rewrite elem_new_targets.
    apply elem_of_union in Hvw as [->%elem_of_singleton|Hvw].
    + right. destruct Hst as (e & He & Hsrc & Ht & Hke). exists e. rewrite elem_out_edges. done.
    + left. destruct (Hc v w Hvw Hst) as [|Hin]; [set_solver|].
      apply elem_of_cons in Hin as [->|]; [set_solver|done].
  - destruct Hs as [|[->|]%elem_of_cons]; [set_solver|set_solver|]. right. set_solver.
Qed.

Lemma bfs_loop_ok g f start :
  graph_ok g ->
  forall fuel visited result queue,
  bfs_inv g f start visited result queue ->
  (length queue + open_edges g visited <= fuel)%nat ->
  exists visited' result', bfs_loop fuel g f visited result queue = Some (Ok result') /\
    bfs_inv g f start visited' result' [].
Proof.
  intros Hg fuel. induction fuel as [|fuel IH]; intros visited result [|k queue] Hi Hf.
  - simpl. eauto.
  - simpl in Hf. lia.
  - simpl. eauto.
  - simpl. case_decide as Hk.
    + apply IH; [|simpl in *; lia]. destruct Hi as [Hl Hv Hq Hc Hs]. split; [done|done| | |].
      * intros. apply Hq. by right.
      * intros v w Hvw Hst. destruct (Hc v w Hvw Hst) as [|[->|]%elem_of_cons]; auto.
      * destruct Hs as [|[->|]%elem_of_cons]; auto.
    + rewrite get_outgoing_edges_spec by done. apply IH; [by apply bfs_inv_visit|].
      rewrite (open_edges_visit _ _ _ Hk) in Hf. rewrite length_app, length_map.
      pose proof (List.filter_length_le
        (fun e => keeps f e && negb (bool_decide (target_id e ∈ ({[k]} ∪ visited : gset string))))
        (out_edges g k)). simpl in Hf. lia.
Qed.

(** A visited set closed under steps that contains the start and only
    reachable ids is the set of reachable ids. *)
Lemma bfs_ok g start f :
  graph_ok g ->
  exists r, bfs g start f = Some (Ok r) /\ NoDup (map n_id r) /\
    forall n, n ∈ r <-> get_node g (n_id n) = Some n /\ reach g f start (n_id n).
Proof.
  intros Hg. unfold bfs.
  destruct (bfs_loop_ok g f start Hg (S (edge_count g)) ∅ [] [start]) as (vs & r & -> & Hi).
  - split; [split; [constructor|set_solver]|set_solver| |set_solver|set_solver].
    intros q ->%list_elem_of_singleton. apply rtc_refl.
  - unfold open_edges, edge_count. simpl. unfold edges, dvalues.
    etrans; [apply le_n_S, List.filter_length_le|]. by rewrite length_map.
  - destruct Hi as [[Hnd Hin] Hv Hq Hc Hs]. exists r. split_and!; [done|done|].
    intros n. rewrite Hin. split; intros [? Hr]; split; auto.
    apply (closed_reach (edge_step g f) (fun x => x ∈ vs) start); [|set_solver|done].
    intros a b Ha Hst. destruct (Hc a b Ha Hst); [done|set_solver].
Qed.

(** ** Depth-first search *)

(** The ids a search can meet. *)
Definition universe (g : TypedGraph) (start : string) : gset string :=
  {[start]} ∪ list_to_set (dkeys (g_nodes g)).

Definition dfs_post (g : TypedGraph) f (start : string) (roots : list string)
    (st st' : gset string * list GraphNode) : Prop :=
  st.1 ⊆ st'.1 /\ st'.1 ⊆ universe g start /\ lists_nodes g st'.1 st'.2 /\
  (forall r, r ∈ roots -> r ∈ st'.1) /\
  (forall v, v ∈ st'.1 -> v ∉ st.1 -> exists r, r ∈ roots /\ reach g f r v) /\
  (forall v w, v ∈ st'.1 -> v ∉ st.1 -> edge_step g f v w -> w ∈ st'.1).

Definition dfs_pre (g : TypedGraph) (start : string) (st : gset string * list GraphNode) : Prop :=
  st.1 ⊆ universe g start /\ lists_nodes g st.1 st.2.

Lemma dfs_post_refl g f start st : dfs_pre g start st -> dfs_post g f start [] st st.
Proof. intros [H1 H2]. unfold dfs_post. split_and!; try done; set_solver. Qed.

Lemma dfs_post_trans g f start r1 r2 s1 s2 s3 :
  dfs_post g f start r1 s1 s2 -> dfs_post g f start r2 s2 s3 ->
  dfs_post g f start (r1 ++ r2) s1 s3.
Proof.
  intros (A1 & A2 & A3 & A4 & A5 & A6) (B1 & B2 & B3 & B4 & B5 & B6). split_and!; try done.
  - set_solver.
  - intros r [|]%elem_of_app; auto.
  - intros v Hv Hn. destruct (decide (v ∈ s2.1)) as [Hs|Hs].
    + destruct (A5 v Hs Hn) as (r & ? & ?). exists r. set_solver.
    + destruct (B5 v Hv Hs) as (r & ? & ?). exists r. set_solver.
  - intros v w Hv Hn Hst. destruct (decide (v ∈ s2.1)) as [Hs|Hs]; eauto.
Qed.

Section DfsEdges.
Context (g : TypedGraph) (f : option (GraphEdge -> bool)) (start : string) (n : nat).
Context (visit : string -> gset string * list GraphNode ->
                 option (res (gset string * list GraphNode))).
Context (Hvisit : forall k st, k ∈ universe g start -> dfs_pre g start st ->
  (size (universe g start ∖ st.1) <= n)%nat ->
  exists st', visit k st = Some (Ok st') /\ dfs_post g f start [k] st st').

Lemma dfs_edges_ok es st :
  (forall e, e ∈ es -> target_id e ∈ universe g start) -> dfs_pre g start st ->
  (size (universe g start ∖ st.1) <= n)%nat ->
  exists st', dfs_edges f visit es st = Some (Ok st') /\
    dfs_post g f start (map target_id (List.filter (keeps f) es)) st st'.
Proof.
  revert st. induction es as [|e es IH]; intros st Ht Hp Hn; simpl.
  - eauto using dfs_post_refl.
  - destruct (keeps f e); [|apply IH; set_solver].
    destruct (Hvisit (target_id e) st) as (st1 & -> & P1); [apply Ht; left|done|done|].
    pose proof P1 as (A1 & A2 & A3 & _).
    destruct (IH st1) as (st2 & -> & P2); [set_solver|done| |].
    + etrans; [|exact Hn]. apply subseteq_size. set_solver.
    + exists st2. split; [done|]. by apply (dfs_post_trans _ _ _ [_] _ _ _ _ P1 P2).
Qed.
End DfsEdges.

Lemma dfs_visit_ok g f start :
  graph_ok g ->
  forall fuel k st, k ∈ universe g start -> dfs_pre g start st ->
  (size (universe g start ∖ st.1) < fuel)%nat ->
  exists st', dfs_visit fuel g f k st = Some (Ok st') /\ dfs_post g f start [k] st st'.
Proof.
  intros Hg fuel. induction fuel as [|fuel IH]; intros k [visited result] Hk [Hu Hl] Hf; [lia|].
  simpl in *. case_decide as Hkv.
  - eexists. split; [done|]. unfold dfs_post. simpl. split_and!; set_solver.
  - rewrite get_outgoing_edges_spec by done.
    set (st1 := ({[k]} ∪ visited, match get_node g k with
                                  | Some n => result ++ [n] | None => result end)).
    destruct (dfs_edges_ok g f start (pred fuel) (dfs_visit fuel g f)) with
      (es := out_edges g k) (st := st1) as (st2 & E & P).
    + intros k' st' ??. destruct fuel as [|fuel'].
      * assert (Hin : k ∈ universe g start ∖ visited) by (by apply elem_of_difference).
        rewrite (size_empty_inv (universe g start ∖ visited)) in Hin by lia.
        by apply not_elem_of_empty in Hin.
      * intros. apply IH; [done|done|]. simpl in *. lia.
    + intros e He. apply elem_out_edges in He as [He _]. apply edge_endpoints in He; [|done].
      unfold universe. apply elem_of_union_r. set_solver.
    + split; simpl; [set_solver|]. by apply lists_nodes_visit.
    + assert (size (universe g start ∖ ({[k]} ∪ visited)) < size (universe g start ∖ visited))%nat.
      { apply subset_size. set_solver. }
      simpl. lia.
    + exists st2. split; [exact E|]. destruct P as (A1 & A2 & A3 & A4 & A5 & A6). simpl in *.
      assert (Hstep : forall r, r ∈ map target_id (List.filter (keeps f) (out_edges g k)) <->
                edge_step g f k r).
      { intros r. rewrite list_elem_of_fmap. split.
        - intros (e & -> & He). apply list_elem_of_In, filter_In in He as [He ?].
          apply list_elem_of_In, elem_out_edges in He as []. by exists e.
        - intros (e & ? & ? & <- & ?). exists e. split; [done|].
          apply list_elem_of_In, filter_In. split; [|done].
          apply list_elem_of_In, elem_out_edges. done. }
      split_and!; simpl.
      * set_solver.
      * done.
      * done.
      * intros r ->%list_elem_of_singleton. set_solver.
      * intros v Hv Hn. exists k. split; [by left|].
        destruct (decide (v = k)) as [->|Hne]; [apply rtc_refl|].
        destruct (A5 v Hv) as (r & Hr & Hrv); [set_solver|].
        apply Hstep in Hr. by eapply rtc_l.
      * intros v w Hv Hn Hst. destruct (decide (v = k)) as [->|Hne].
        -- apply A4. by apply Hstep.
        -- eapply A6; [exact Hv|set_solver|done].
Qed.

Lemma dfs_ok g start f :
  graph_ok g ->
  exists r, dfs g start f = Some (Ok r) /\ NoDup (map n_id r) /\
    forall n, n ∈ r <-> get_node g (n_id n) = Some n /\ reach g f start (n_id n).
Proof.
  intros Hg. unfold dfs.
  destruct (dfs_visit_ok g f start Hg (S (S (node_count g))) start (∅, []))
    as ([vs r] & -> & (A1 & A2 & [Hnd Hin] & A4 & A5 & A6)).
  - unfold universe. set_solver.
  - split; simpl; [set_solver|]. split; [constructor|set_solver].
  - simpl. unfold universe, node_count. rewrite difference_empty_L.
    rewrite size_union_alt, size_singleton.
    assert (size ((list_to_set (dkeys (g_nodes g)) : gset string) ∖ {[start]})
            <= length (g_nodes g))%nat; [|lia].
    etrans; [apply subseteq_size, subseteq_difference_l; reflexivity|].
    rewrite size_list_to_set by apply Hg. unfold dkeys. by rewrite length_map.
  - simpl in *. exists r. split_and!; [done|done|]. intros n. rewrite Hin.
    split; intros [? Hr]; split; auto.
    + destruct (A5 _ Hr) as (x & ->%list_elem_of_singleton & ?); [set_solver|done].
    + apply (closed_reach (edge_step g f) (fun x => x ∈ vs) start); [|apply A4; by left|done].
      intros a b Ha Hst. eapply A6; [exact Ha|set_solver|done].
Qed.

(** On every graph the mutators can build, breadth-first and depth-first
    search both terminate without an error and return exactly the nodes
    reachable from the start through edges the filter keeps, each once; so
    they return the same set. *)
Theorem search_finds_reachable g start f :
  built g ->
  exists r1 r2, bfs g start f = Some (Ok r1) /\ dfs g start f = Some (Ok r2) /\
    NoDup (map n_id r1) /\ NoDup (map n_id r2) /\
    (forall n, n ∈ r1 <-> get_node g (n_id n) = Some n /\ reach g f start (n_id n)) /\
    (forall n, n ∈ r2 <-> n ∈ r1).
Proof.
  intros Hg%built_ok. destruct (bfs_ok g start f Hg) as (r1 & E1 & N1 & H1).
  destruct (dfs_ok g start f Hg) as (r2 & E2 & N2 & H2).
  exists r1, r2. split_and!; [done..|]. intros n. by rewrite H1, H2.
Qed.

Lemma search_finds_reachable_witness :
  exists r1 r2, bfs (graph_of [sample_node "a"; sample_node "b"] [sample_edge "e" "a" "b"]) "a" None
                = Some (Ok r1) /\ r1 = r2 /\ length r2 = 2%nat.
Proof.
  destruct (search_finds_reachable
    (graph_of [sample_node "a"; sample_node "b"] [sample_edge "e" "a" "b"]) "a" None)
    as (r1 & r2 & E1 & E2 & _); [apply graph_of_built|].
  exists r1, r2. vm_compute in E1, E2. injection E1 as <-. injection E2 as <-.
  split_and!; reflexivity.
Defined.
