(* ===== verification/GraphOrder.v ===== *)
(** * Topological sort

    [GraphTraversal.topological_sort] of [isr/graph/traversal.py]: Kahn's
    algorithm over the edges of one type.  It returns an ordering of all
    nodes in which every such edge goes forward, or raises exactly when these
    edges have a cycle. *)

From S2P Require Import Prelude PyFloat PyVal IsrModel TypedGraph.

(** [nodes = {n.id: n for n in graph.nodes()}]. *)
Definition node_table (g : TypedGraph) : list (string * GraphNode) :=
  fold_left (fun d n => dset (n_id n) n d) (nodes g) [].

(** [d[k] += delta]. *)
Definition incr (k : string) (delta : Z) (d : list (string * Z)) : res (list (string * Z)) :=
  match dget k d with
  | Some v => Ok (dset k (v + delta)%Z d)
  | None => Raise (KeyError k)
  end.

(** The first loop: adjacency lists and in-degrees of the typed edges. *)
Fixpoint topo_fill (t : EdgeType) (ns : list (string * GraphNode)) (es : list GraphEdge)
    (adjacency : list (string * list string)) (in_degree : list (string * Z)) :
    res (list (string * list string) * list (string * Z)) :=
  match es with
  | [] => Ok (adjacency, in_degree)
  | e :: es' =>
      if bool_decide (edge_type e = t) && (dmem (source_id e) ns && dmem (target_id e) ns) then
        adj ← append_at (source_id e) (target_id e) adjacency;
        deg ← incr (target_id e) 1 in_degree;
        topo_fill t ns es' adj deg
      else topo_fill t ns es' adjacency in_degree
  end.

(** [for neighbor in adjacency[node_id]: ...]. *)
Fixpoint topo_relax (neighbors : list string) (in_degree : list (string * Z))
    (queue : list string) : res (list (string * Z) * list string) :=
  match neighbors with
  | [] => Ok (in_degree, queue)
  | m :: rest =>
      deg ← incr m (-1) in_degree;
      match dget m deg with
      | None => Raise (KeyError m)
      | Some v => topo_relax rest deg (if Z.eqb v 0 then queue ++ [m] else queue)
      end
  end.

Fixpoint topo_loop (fuel : nat) (ns : list (string * GraphNode))
    (adjacency : list (string * list string)) (in_degree : list (string * Z))
    (queue : list string) (result : list GraphNode) : option (res (list GraphNode)) :=
  match queue with
  | [] => Some (Ok result)
  | node_id :: queue' =>
      match fuel with
      | O => None
      | S fuel' =>
          match dget node_id ns, dget node_id adjacency with
          | Some n, Some neighbors =>
              match topo_relax neighbors in_degree queue' with
              | Ok (deg, queue'') => topo_loop fuel' ns adjacency deg queue'' (result ++ [n])
              | Raise x => Some (Raise x)
              end
          | _, _ => Some (Raise (KeyError node_id))
          end
      end
  end.

Definition cycle_error : exn := ValueError "Cycle detected in dependency graph".

Definition topological_sort (g : TypedGraph) (t : EdgeType) : option (res (list GraphNode)) :=
  let ns := node_table g in
  match topo_fill t ns (edges g) (dtable (fun _ => []) (dkeys ns))
          (dtable (fun _ => 0%Z) (dkeys ns)) with
  | Raise x => Some (Raise x)
  | Ok (adjacency, in_degree) =>
      let queue := map fst (List.filter (fun p => Z.eqb p.2 0) in_degree) in
      match topo_loop (length ns) ns adjacency in_degree queue [] with
      | Some (Ok result) =>
          if Nat.eqb (length result) (length ns) then Some (Ok result)
          else Some (Raise cycle_error)
      | r => r
      end
  end.

(** ** The dependency relation *)

Definition dep (g : TypedGraph) (t : EdgeType) (a b : string) : Prop :=
  exists e, e ∈ edges g /\ edge_type e = t /\ source_id e = a /\ target_id e = b.

(** [before l a b]: the last occurrence of [b] in [l] comes after an [a]. *)
Definition before (l : list string) (a b : string) : Prop :=
  exists l1 l2 l3, l = l1 ++ a :: l2 ++ b :: l3.

Section Topo.
Context (g : TypedGraph) (t : EdgeType) (Hg : graph_ok g).

Notation keys := (dkeys (g_nodes g)).

Definition typed (e : GraphEdge) : bool := bool_decide (edge_type e = t).

Definition succs_in (es : list GraphEdge) (k : string) : list string :=
  map target_id (List.filter (fun e => typed e && bool_decide (source_id e = k)) es).

(** The typed edges into [k] whose source is not in [P]. *)
Definition npred (P : list string) (k : string) : nat :=
  length (List.filter (fun e => typed e && bool_decide (target_id e = k)
                                && negb (bool_decide (source_id e ∈ P))) (edges g)).

Lemma node_table_eq : node_table g = g_nodes g.
Proof.
  unfold node_table, nodes. pose proof (ok_nodes g Hg) as Hd.
  pose proof (ok_node_ids g Hg) as Hid. unfold dict_ok in Hd.
  enough (H : forall acc d, NoDup (dkeys (acc ++ d)) ->
            Forall (fun p => p.1 = n_id p.2) d ->
            fold_left (fun d n => dset (n_id n) n d) (dvalues d) acc = acc ++ d)
    by by apply (H []).
  clear. intros acc d. revert acc. induction d as [|[k n] d IH]; intros acc Hnd Hid; simpl.
  - by rewrite app_nil_r.
  - apply Forall_cons in Hid as [Hk Hid]. simpl in Hk. subst k.
    rewrite dset_fresh.
    + rewrite IH; [by rewrite <- app_assoc|by rewrite <- app_assoc|done].
    + rewrite dkeys_app in Hnd. apply NoDup_app in Hnd as (_ & Hnd & _).
      intros Hin. apply (Hnd _ Hin). left.
Qed.

Lemma incr_dtable f k z :
  k ∈ keys ->
  incr k z (dtable f keys)
  = Ok (dtable (fun k' => if decide (k' = k) then f k' + z else f k')%Z keys).
Proof.
  intros Hk. unfold incr. rewrite dget_dtable by done.
  rewrite dset_dtable; [|done|apply Hg]. f_equal.
  apply dtable_ext. intros k' _. by case_decide; subst.
Qed.

Definition indeg (es : list GraphEdge) (k : string) : nat :=
  length (List.filter (fun e => typed e && bool_decide (target_id e = k)) es).

Lemma topo_fill_ok es a d :
  (forall e, e ∈ es -> e ∈ edges g) ->
  topo_fill t (g_nodes g) es (dtable a keys) (dtable d keys)
  = Ok (dtable (fun k => a k ++ succs_in es k) keys,
        dtable (fun k => d k + Z.of_nat (indeg es k))%Z keys).
Proof.
  revert a d. induction es as [|e es IH]; intros a d Hes; cbn [topo_fill].
  { f_equal. f_equal; apply dtable_ext; intros k _; unfold succs_in, indeg; simpl.
    - by rewrite app_nil_r.
    - lia. }
  destruct (edge_endpoints g e Hg) as [Hs Ht]; [apply Hes; left|].
  rewrite !(proj2 (dmem_true _ _)), !andb_true_r by done. fold (typed e).
  assert (Hes' : forall e', e' ∈ es -> e' ∈ edges g) by (intros; apply Hes; by right).
  destruct (typed e) eqn:Ety.
  - rewrite append_at_dtable by (done || apply Hg). cbn [mbind res_bind].
    rewrite incr_dtable by done. cbn [mbind res_bind]. rewrite IH by done.
    f_equal. f_equal; apply dtable_ext; intros k _; unfold succs_in, indeg;
      cbn [List.filter]; rewrite Ety; simpl.
    + case_bool_decide; case_decide; subst; try done. by rewrite <- app_assoc.
    + case_bool_decide; case_decide; subst; simpl; try done; lia.
  - rewrite IH by done. f_equal.
    f_equal; apply dtable_ext; intros k _; unfold succs_in, indeg; cbn [List.filter];
      by rewrite Ety.
Qed.

(** Decrementing once per occurrence; a node is queued when it reaches 0. *)
Lemma topo_relax_ok ms d queue :
  (forall m, m ∈ ms -> m ∈ keys) ->
  (forall k, Z.of_nat (count k ms) <= d k)%Z ->
  exists new, topo_relax ms (dtable d keys) queue
    = Ok (dtable (fun k => d k - Z.of_nat (count k ms))%Z keys, queue ++ new) /\
    NoDup new /\ (forall k, k ∈ new <-> k ∈ ms /\ d k = Z.of_nat (count k ms)).
Proof.
  revert d queue. induction ms as [|m ms IH]; intros d queue Hk Hc; cbn [topo_relax].
  { exists []. rewrite app_nil_r. split_and!; [|constructor|set_solver].
    f_equal. f_equal. apply dtable_ext. intros; simpl; lia. }
  rewrite incr_dtable by (apply Hk; left). cbn [mbind res_bind].
  rewrite dget_dtable by (apply Hk; left). rewrite decide_True by done.
  set (d' := fun k' => if decide (k' = m) then (d k' + -1)%Z else d k').
  assert (Hd' : forall k, d' k = (d k - if decide (m = k) then 1 else 0)%Z).
  { intros k. unfold d'. repeat case_decide; subst; try done; lia. }
  destruct (IH d' (if Z.eqb (d m + -1) 0 then queue ++ [m] else queue)) as (new & -> & Hnd & Hnew).
  { intros; apply Hk; by right. }
  { intros k. specialize (Hc k). rewrite Hd'. simpl in Hc. case_decide; lia. }
  assert (Eext : dtable (fun k => d' k - Z.of_nat (count k ms))%Z keys
               = dtable (fun k => d k - Z.of_nat (count k (m :: ms)))%Z keys).
  { apply dtable_ext. intros k _. rewrite Hd'. simpl. case_decide; lia. }
  assert (Hm := Hc m). simpl in Hm. rewrite decide_True in Hm by done.
  assert (Hcz := count_zero m ms).
  assert (Hiff : forall k, k ∈ ms -> d' k = Z.of_nat (count k ms) <->
                   d k = Z.of_nat (count k (m :: ms))).
  { intros k _. rewrite Hd'. simpl. case_decide; lia. }
  destruct (Z.eqb_spec (d m + -1) 0) as [E|E].
  - exists (m :: new). rewrite Eext, <- app_assoc. split_and!; [done| |].
    + constructor; [|done]. rewrite Hnew. intros [Hin _]. assert (count m ms = 0)%nat by lia.
      by apply Hcz in Hin.
    + intros k. rewrite elem_of_cons, Hnew. split.
      * intros [->|[Hin Hd]]; [|split; [by right|by apply Hiff]].
        split; [left|]. simpl. rewrite decide_True by done. lia.
      * intros [[->|Hin]%elem_of_cons Hd]; [by left|right]. split; [done|by apply Hiff].
  - exists new. rewrite Eext. split_and!; [done|done|].
    intros k. rewrite Hnew, elem_of_cons. split.
    + intros [Hin Hd]. split; [by right|by apply Hiff].
    + intros [Hin Hd]. assert (k ∈ ms) as Hin'.
      { destruct Hin as [->|]; [|done]. apply dec_stable. intros Hn. apply Hcz in Hn.
        simpl in Hd. rewrite decide_True in Hd by done. lia. }
      split; [done|by apply Hiff].
Qed.

Lemma count_succs k n :
  count k (succs_in (edges g) n)
  = length (List.filter (fun e => typed e && bool_decide (target_id e = k)
                                  && bool_decide (source_id e = n)) (edges g)).
Proof.
  unfold succs_in. induction (edges g) as [|e es IH]; [done|]. cbn [List.filter].
  destruct (typed e); simpl; [|done].
  destruct (bool_decide_reflect (source_id e = n)); simpl.
  - case_decide; case_bool_decide; subst; try done; simpl; rewrite IH; done.
  - by rewrite andb_false_r.
Qed.

Lemma npred_step P n k :
  n ∉ P -> npred P k = (npred (P ++ [n]) k + count k (succs_in (edges g) n))%nat.
Proof.
  intros Hn. rewrite count_succs. apply filter_length_split; intros e _.
  - destruct (typed e && _); simpl; [|done].
    repeat case_bool_decide; simpl; try done; set_solver.
  - destruct (typed e && _); simpl; [|done].
    repeat case_bool_decide; simpl; try done; set_solver.
Qed.

Lemma npred_zero P k : npred P k = 0%nat <-> forall a, dep g t a k -> a ∈ P.
Proof.
  unfold npred. rewrite length_zero_iff_nil. split.
  - intros Hf a (e & He & Ht & <- & <-). apply dec_stable. intros Hn.
    apply list_elem_of_In in He.
    assert (Hin : In e []); [|done]. rewrite <- Hf. apply filter_In. split; [done|].
    unfold typed. by rewrite !bool_decide_eq_true_2, bool_decide_eq_false_2 by done.
  - intros H. destruct (List.filter _ _) as [|e l] eqn:E; [done|].
    assert (Hin : In e (e :: l)) by (by left). rewrite <- E in Hin.
    apply filter_In in Hin as [He [[Ht Hk]%andb_true_iff Hs]%andb_true_iff].
    unfold typed in Ht. bool_hyps. exfalso. apply Hs, H.
    exists e. split_and!; [by apply list_elem_of_In|done..].
Qed.

(** Loop invariant of Kahn's algorithm: [P] processed, [Q] queued. *)
Record topo_inv (P Q : list string) (d : string -> Z) (result : list GraphNode) : Prop := {
  ti_nodup : NoDup (P ++ Q);
  ti_keys : forall k, k ∈ P ++ Q -> k ∈ keys;
  ti_deg : forall k, d k = Z.of_nat (npred P k);
  ti_zero : forall k, k ∈ keys -> k ∈ P ++ Q <-> npred P k = 0%nat;
  ti_order : forall P1 x P2, P = P1 ++ x :: P2 -> npred P1 x = 0%nat;
  ti_result : Forall2 (fun k n => get_node g k = Some n) P result;
}.

Lemma topo_inv_step P n Q d result node :
  topo_inv P (n :: Q) d result -> get_node g n = Some node ->
  exists new,
    topo_relax (succs_in (edges g) n) (dtable d keys) Q
    = Ok (dtable (fun k => d k - Z.of_nat (count k (succs_in (edges g) n)))%Z keys, Q ++ new) /\
    topo_inv (P ++ [n]) (Q ++ new)
      (fun k => d k - Z.of_nat (count k (succs_in (edges g) n)))%Z (result ++ [node]).
Proof.
  intros [Hnd Hks Hdeg Hz Hord Hres] Hnode.
  assert (HnP : n ∉ P).
  { apply NoDup_app in Hnd as (_ & Hnd & _). intros Hin. apply (Hnd _ Hin). left. }
  destruct (topo_relax_ok (succs_in (edges g) n) d Q) as (new & E & Hnn & Hnew).
  { intros m Hm. apply list_elem_of_fmap in Hm as (e & -> & He).
    apply list_elem_of_In, filter_In in He as [He _].
    by apply list_elem_of_In, edge_endpoints in He as []. }
  { intros k. rewrite Hdeg, (npred_step P n k HnP). lia. }
  exists new. split; [done|].
  assert (Hnew' : forall k, k ∈ new <-> k ∈ succs_in (edges g) n /\ npred (P ++ [n]) k = 0%nat).
  { intros k. rewrite Hnew, Hdeg, (npred_step P n k HnP). split; intros []; split; auto; lia. }
  assert (Hnew0 : forall k, k ∈ new -> npred P k <> 0%nat).
  { intros k Hk. apply Hnew' in Hk as [Hk _]. rewrite (npred_step P n k HnP).
    assert (count k (succs_in (edges g) n) <> 0%nat) by (by (rewrite count_zero; intros Hc; apply Hc)). lia. }
  assert (Hnewk : forall k, k ∈ new -> k ∈ keys).
  { intros k Hk. apply Hnew' in Hk as [Hk _]. apply list_elem_of_fmap in Hk as (e & -> & He).
    apply list_elem_of_In, filter_In in He as [He _].
    by apply list_elem_of_In, edge_endpoints in He as []. }
  split.
  - rewrite <- app_assoc. simpl. rewrite app_comm_cons, app_assoc. apply NoDup_app.
    split_and!; [done| |done]. intros k Hk Hkn. apply (Hnew0 k Hkn). apply Hz; auto.
  - intros k. rewrite <- app_assoc. simpl. rewrite app_comm_cons, app_assoc.
    intros [|]%elem_of_app; auto.
  - intros k. rewrite Hdeg, (npred_step P n k HnP). lia.
  - intros k Hk. rewrite <- app_assoc. simpl. rewrite app_comm_cons, app_assoc, elem_of_app.
    rewrite Hz by done. rewrite Hnew', (npred_step P n k HnP).
    split; [intros [|[]]; lia|]. intros H0.
    destruct (decide (k ∈ succs_in (edges g) n)) as [|Hs]; [by right|left].
    apply count_zero in Hs. lia.
  - intros P1 x P2 HP. destruct P2 as [|y P2 _] using rev_ind.
    + apply app_inj_tail in HP as [<- <-]. apply Hz; [apply Hks|]; set_solver.
    + rewrite app_comm_cons, app_assoc in HP. apply app_inj_tail in HP as [-> _]. eauto.
  - apply Forall2_app; [done|]. by repeat constructor.
Qed.

Lemma nodup_keys_length P : NoDup P -> (forall k, k ∈ P -> k ∈ keys) ->
  (length P <= length (g_nodes g))%nat.
Proof.
  intros Hnd Hin. rewrite <- (length_map fst (g_nodes g)). fold (dkeys (g_nodes g)).
  apply submseteq_length. by apply NoDup_submseteq.
Qed.

Lemma topo_loop_ok fuel : forall P Q d result,
  topo_inv P Q d result -> (length (g_nodes g) <= length P + fuel)%nat ->
  exists P' d' r, topo_loop fuel (g_nodes g) (dtable (succs_in (edges g)) keys)
      (dtable d keys) Q result = Some (Ok r) /\ topo_inv P' [] d' r.
Proof.
  induction fuel as [|fuel IH]; intros P [|n Q] d result Hi Hf; simpl; eauto.
  - exfalso. pose proof (ti_nodup _ _ _ _ Hi) as Hnd.
    pose proof (nodup_keys_length _ Hnd (ti_keys _ _ _ _ Hi)) as Hl.
    rewrite length_app in Hl. simpl in Hl. lia.
  - assert (Hn : n ∈ keys) by (apply (ti_keys _ _ _ _ Hi); set_solver).
    destruct (dget n (g_nodes g)) as [node|] eqn:En; [|by apply dget_None in En].
    rewrite dget_dtable by done.
    destruct (topo_inv_step P n Q d result node Hi En) as (new & -> & Hi').
    apply IH in Hi' as (P' & d' & r & Hr & HP'); [eauto|]. rewrite length_app. simpl. lia.
Qed.

(** In a processed prefix every dependency path goes forward. *)
Lemma tc_before P Q d r a b P1 P2 :
  topo_inv P Q d r -> P = P1 ++ b :: P2 -> tc (dep g t) a b -> a ∈ P1.
Proof.
  intros Hi HP Htc. revert P1 P2 HP.
  induction Htc as [a b Hab|a b c Hab Hbc IH]; intros P1 P2 HP.
  - pose proof (ti_order _ _ _ _ Hi _ _ _ HP) as H0. rewrite npred_zero in H0. auto.
  - pose proof (IH _ _ HP) as Hb. apply list_elem_of_split in Hb as (l1 & l2 & ->).
    rewrite <- app_assoc in HP. simpl in HP.
    pose proof (ti_order _ _ _ _ Hi _ _ _ HP) as H0. rewrite npred_zero in H0.
    apply elem_of_app. left. auto.
Qed.

Lemma final_order P d r :
  topo_inv P [] d r -> length P = length (g_nodes g) ->
  P ≡ₚ keys /\ (forall a b, dep g t a b -> before P a b) /\ (forall a, ~ tc (dep g t) a a).
Proof.
  intros Hi Hlen. pose proof (ti_nodup _ _ _ _ Hi) as Hnd.
  pose proof (ti_keys _ _ _ _ Hi) as Hks. rewrite app_nil_r in Hnd, Hks.
  assert (HP : P ≡ₚ keys).
  { apply submseteq_length_Permutation; [by apply NoDup_submseteq|].
    unfold dkeys. rewrite length_map. lia. }
  assert (Hin : forall e, e ∈ edges g -> target_id e ∈ P).
  { intros e He. rewrite HP. by apply edge_endpoints in He as []. }
  split_and!; [done| |].
  - intros a b Hab. pose proof Hab as (e & He & _ & _ & <-).
    apply Hin, list_elem_of_split in He as (P1 & P2 & E).
    pose proof (tc_before _ _ _ _ a _ _ _ Hi E (tc_once _ _ _ Hab)) as Ha.
    apply list_elem_of_split in Ha as (l1 & l2 & ->).
    exists l1, l2, P2. by rewrite E, <- app_assoc.
  - intros a Htc. assert (Ha : a ∈ P).
    { clear -Htc Hin. induction Htc as [x y (e & He & _ & _ & <-)|]; auto. }
    apply list_elem_of_split in Ha as (P1 & P2 & E).
    pose proof (tc_before _ _ _ _ _ _ _ _ Hi E Htc) as Ha. subst P.
    apply NoDup_app in Hnd as (_ & Hnd & _). apply (Hnd _ Ha). left.
Qed.
Lemma topo_inv_init :
  topo_inv [] (map fst (List.filter (fun p => Z.eqb p.2 0)
                 (dtable (fun k => 0 + Z.of_nat (indeg (edges g) k))%Z keys)))
    (fun k => 0 + Z.of_nat (indeg (edges g) k))%Z [].
Proof.
  assert (Hn : forall k, npred [] k = indeg (edges g) k).
  { intros k. unfold npred, indeg. f_equal. apply filter_ext. intros e.
    rewrite (bool_decide_eq_false_2 (source_id e ∈ [])) by set_solver.
    simpl. by rewrite andb_true_r. }
  set (f := fun k => (0 + Z.of_nat (indeg (edges g) k))%Z).
  assert (Hq : map fst (List.filter (fun p => Z.eqb p.2 0) (dtable f keys))
               = List.filter (fun k => Z.eqb (f k) 0) keys).
  { unfold dtable. induction keys as [|k ks IH]; [done|]. simpl.
    destruct (Z.eqb (f k) 0); simpl; by rewrite IH. }
  rewrite Hq. split; simpl.
  - apply NoDup_ListNoDup, List.NoDup_filter, NoDup_ListNoDup, Hg.
  - intros k Hk. apply list_elem_of_In, filter_In in Hk as [Hk _]. by apply list_elem_of_In.
  - intros k. by rewrite Hn.
  - intros k Hk. rewrite Hn. rewrite list_elem_of_In, filter_In. unfold f.
    rewrite Z.eqb_eq, <- list_elem_of_In. split; [intros []; lia|]. intros ->. split; [done|lia].
  - intros P1 x P2 E. by destruct P1.
  - constructor.
Qed.

(** What the loop of [topological_sort] ends with. *)
Lemma topological_sort_run :
  exists P d r, topo_inv P [] d r /\
    topological_sort g t = Some (if Nat.eqb (length r) (length (g_nodes g)) then Ok r
                                 else Raise cycle_error).
Proof.
  unfold topological_sort. rewrite node_table_eq, (topo_fill_ok (edges g)) by auto.
  assert (E : dtable (fun k => [] ++ succs_in (edges g) k) keys
              = dtable (succs_in (edges g)) keys) by (by apply dtable_ext).
  rewrite E. pose proof topo_inv_init as Hi.
  destruct (topo_loop_ok (length (g_nodes g)) _ _ _ _ Hi) as (P' & d' & r & Hr & Hi');
    [simpl; lia|].
  exists P', d', r. split; [done|]. simpl in Hr |- *. rewrite Hr. by case_goal.
Qed.

Lemma topo_inv_lengths P d r : topo_inv P [] d r -> length r = length P.
Proof. intros Hi. symmetry. eapply Forall2_length, (ti_result _ _ _ _ Hi). Qed.

(** A run that leaves nodes out leaves a cycle among them. *)
Lemma short_run_cycle P d r :
  topo_inv P [] d r -> length P <> length (g_nodes g) -> exists a, tc (dep g t) a a.
Proof.
  intros Hi Hlen. pose proof (ti_nodup _ _ _ _ Hi) as Hnd. rewrite app_nil_r in Hnd.
  destruct (decide (Forall (fun k => k ∈ P) keys)) as [HF|HF].
  - exfalso. rewrite Forall_forall in HF. apply Hlen.
    assert (Hk : NoDup keys) by apply Hg.
    pose proof (nodup_keys_length P Hnd) as Hle.
    assert (length (g_nodes g) <= length P)%nat.
    { rewrite <- (length_map fst (g_nodes g)). apply submseteq_length.
      by apply NoDup_submseteq. }
    assert (length P <= length (g_nodes g))%nat; [|lia]. apply Hle. intros k Hk'.
    apply (ti_keys _ _ _ _ Hi). by rewrite app_nil_r.
  - apply not_Forall_Exists in HF; [|intros ?; apply _].
    apply Exists_exists in HF as (x & Hx & HxP).
    apply (cycle_exists (dep g t) (List.filter (fun k => negb (bool_decide (k ∈ P))) keys))
      with x.
    + intros y Hy. apply list_elem_of_In, filter_In in Hy as [Hy HyP]. bool_hyps.
      apply list_elem_of_In in Hy.
      assert (Hnz : npred P y <> 0%nat).
      { intros H0. apply (ti_zero _ _ _ _ Hi _ Hy) in H0. by rewrite app_nil_r in H0. }
      unfold npred in Hnz. destruct (List.filter _ (edges g)) as [|e l] eqn:E; [done|].
      assert (Hin : In e (e :: l)) by (by left). rewrite <- E in Hin.
      apply filter_In in Hin as [He [[Ht Hk]%andb_true_iff Hs]%andb_true_iff].
      unfold typed in Ht. bool_hyps. apply list_elem_of_In in He. exists (source_id e). split.
      * apply list_elem_of_In, filter_In. rewrite bool_decide_eq_false_2 by done.
        split; [|done]. apply list_elem_of_In. by apply edge_endpoints in He as [].
      * by exists e.
    + apply list_elem_of_In, filter_In. rewrite bool_decide_eq_false_2 by done.
      split; [by apply list_elem_of_In|done].
Qed.
End Topo.

(** The nodes of a result, by id. *)
Definition sorted_ids (r : list GraphNode) : list string := map n_id r.

Lemma topo_result_ids g t P d r :
  graph_ok g -> topo_inv g t P [] d r -> sorted_ids r = P.
Proof.
  intros Hg Hi. pose proof (ti_result _ _ _ _ _ _ Hi) as Hr. clear Hi.
  induction Hr as [|k n P' r Hk _ IH]; [done|]. simpl. f_equal; [|done].
  unfold get_node in Hk. apply dget_elem in Hk. pose proof (ok_node_ids g Hg) as Hid.
  rewrite Forall_forall in Hid. symmetry. apply (Hid _ Hk).
Qed.

(** On every graph the mutators can build, [topological_sort] returns an
    ordering of all the nodes in which every edge of the type goes forward, or
    raises its cycle error; it raises exactly when those edges have a cycle,
    and the queue loop never runs out of the given steps. *)
Theorem topological_sort_correct g t :
  built g ->
  match topological_sort g t with
  | Some (Ok r) =>
      sorted_ids r ≡ₚ dkeys (g_nodes g) /\
      (forall a b, dep g t a b -> before (sorted_ids r) a b) /\
      (forall a, ~ tc (dep g t) a a)
  | Some (Raise x) => x = cycle_error /\ exists a, tc (dep g t) a a
  | None => False
  end.
Proof.
  intros Hg%built_ok. destruct (topological_sort_run g t Hg) as (P & d & r & Hi & ->).
  pose proof (topo_inv_lengths g t P d r Hi) as Hl.
  destruct (Nat.eqb_spec (length r) (length (g_nodes g))) as [E|E].
  - rewrite (topo_result_ids g t P d r) by done. apply (final_order g t Hg P d r Hi). congruence.
  - split; [done|]. apply (short_run_cycle g t Hg P d r Hi). congruence.
Qed.

Lemma topological_sort_correct_witness :
  exists r, topological_sort (graph_of [sample_node "b"; sample_node "a"] [sample_edge "e" "a" "b"])
              E_DEPENDS_ON = Some (Ok r) /\ before (sorted_ids r) "a" "b".
Proof.
  pose proof (topological_sort_correct
    (graph_of [sample_node "b"; sample_node "a"] [sample_edge "e" "a" "b"]) E_DEPENDS_ON
    (graph_of_built _ _)) as H.
  destruct (topological_sort _ _) as [[r|x]|] eqn:E; [| |done].
  - exists r. split; [done|]. apply H. exists (sample_edge "e" "a" "b").
    split_and!; try reflexivity. vm_compute. left.
  - vm_compute in E. discriminate.
Defined.
