(* ===== verification/GraphCycles.v ===== *)
(** * Cycle detection

    [GraphTraversal.detect_cycles] of [isr/graph/traversal.py]: a depth-first
    search with a recursion stack.  Every list it reports is a cycle of the
    typed edges, and it reports none exactly when there is none, whatever the
    order in which the set of node ids is iterated. *)

From S2P Require Import Prelude PyFloat PyVal IsrModel TypedGraph GraphSearch GraphOrder.

(** [l.index(x)]. *)
Fixpoint index_of (x : string) (l : list string) : option nat :=
  match l with
  | [] => None
  | y :: l' => if decide (x = y) then Some O else S <$> index_of x l'
  end.

Record CycleState : Type := {
  visited : gset string;
  rec_stack : gset string;
  path : list string;
  cycles : list (list string);
}.

(** The adjacency lists of the typed edges. *)
Fixpoint cycle_fill (t : EdgeType) (ns : gset string) (es : list GraphEdge)
    (adjacency : list (string * list string)) : res (list (string * list string)) :=
  match es with
  | [] => Ok adjacency
  | e :: es' =>
      if bool_decide (edge_type e = t)
         && (bool_decide (source_id e ∈ ns) && bool_decide (target_id e ∈ ns)) then
        adj ← append_at (source_id e) (target_id e) adjacency;
        cycle_fill t ns es' adj
      else cycle_fill t ns es' adjacency
  end.

(** The loop over the neighbours inside [_dfs]. *)
Fixpoint cycle_edges (visit : string -> CycleState -> option (res CycleState))
    (neighbors : list string) (st : CycleState) : option (res CycleState) :=
  match neighbors with
  | [] => Some (Ok st)
  | m :: rest =>
      if negb (bool_decide (m ∈ visited st)) then
        match visit m st with
        | Some (Ok st') => cycle_edges visit rest st'
        | r => r
        end
      else if bool_decide (m ∈ rec_stack st) then
        match index_of m (path st) with
        | None => Some (Raise (ValueError (m +:+ " is not in list")))
        | Some cycle_start =>
            cycle_edges visit rest
              {| visited := visited st; rec_stack := rec_stack st; path := path st;
                 cycles := cycles st ++ [drop cycle_start (path st) ++ [m]] |}
        end
      else cycle_edges visit rest st
  end.

(** [_dfs]; [path.pop()] and [rec_stack.discard] at the end. *)
Fixpoint cycle_visit (fuel : nat) (adjacency : list (string * list string)) (node_id : string)
    (st : CycleState) : option (res CycleState) :=
  match fuel with
  | O => None
  | S fuel' =>
      let st1 := {| visited := {[node_id]} ∪ visited st;
                    rec_stack := {[node_id]} ∪ rec_stack st;
                    path := path st ++ [node_id]; cycles := cycles st |} in
      match cycle_edges (cycle_visit fuel' adjacency) (dget_or node_id adjacency []) st1 with
      | Some (Ok st2) =>
          Some (Ok {| visited := visited st2; rec_stack := rec_stack st2 ∖ {[node_id]};
                      path := removelast (path st2); cycles := cycles st2 |})
      | r => r
      end
  end.

Fixpoint cycle_roots (fuel : nat) (adjacency : list (string * list string))
    (order : list string) (st : CycleState) : option (res CycleState) :=
  match order with
  | [] => Some (Ok st)
  | k :: rest =>
      if bool_decide (k ∈ visited st) then cycle_roots fuel adjacency rest st
      else match cycle_visit fuel adjacency k st with
           | Some (Ok st') => cycle_roots fuel adjacency rest st'
           | r => r
           end
  end.

(** [order] is the order in which the set [nodes] is iterated. *)
Definition detect_cycles (g : TypedGraph) (t : EdgeType) (order : list string) :
    option (res (list (list string))) :=
  let ns : gset string := list_to_set order in
  match cycle_fill t ns (edges g) (dtable (fun _ => []) order) with
  | Raise x => Some (Raise x)
  | Ok adjacency =>
      match cycle_roots (S (length order)) adjacency order
              {| visited := ∅; rec_stack := ∅; path := []; cycles := [] |} with
      | Some (Ok st) => Some (Ok (cycles st))
      | Some (Raise x) => Some (Raise x)
      | None => None
      end
  end.

(** A closed walk: first and last element equal, every step a typed edge. *)
Definition is_cycle (g : TypedGraph) (t : EdgeType) (c : list string) : Prop :=
  exists a l, c = a :: l ++ [a] /\ walk (dep g t) a (l ++ [a]) a.

Lemma index_of_split x l :
  x ∈ l -> exists i, index_of x l = Some i /\ exists l2, drop i l = x :: l2 /\ 
    exists l1, l = l1 ++ x :: l2.
Proof.
  induction l as [|y l IH]; simpl; [set_solver|]. intros H.
  destruct (decide (x = y)) as [<-|Hne].
  { exists O. split; [done|]. exists l. split; [done|]. by exists []. }
  apply elem_of_cons in H as [|H]; [done|].
  destruct (IH H) as (i & -> & l2 & Hd & l1 & ->). exists (S i). split; [done|].
  exists l2. split; [done|]. by exists (y :: l1).
Qed.

Lemma sorted_walk {A} (R : A -> A -> Prop) x l z :
  Sorted R (x :: l) -> last (x :: l) = Some z -> walk R x l z.
Proof.
  revert x. induction l as [|y l IH]; intros x Hs Hl; [by injection Hl as ->|].
  apply Sorted_inv in Hs as [Hs Hh]. inversion Hh; subst. split; [done|]. by apply IH.
Qed.

Lemma sorted_snoc {A} (R : A -> A -> Prop) l x :
  Sorted R l -> (forall y, last l = Some y -> R y x) -> Sorted R (l ++ [x]).
Proof.
  induction 1 as [|y l Hs IH Hh]; intros Hl; [repeat constructor|]. simpl.
  destruct l as [|z l]; simpl.
  - repeat constructor. by apply Hl.
  - constructor; [apply IH; intros w Hw; by apply Hl|]. inversion Hh; by constructor.
Qed.

Lemma sorted_suffix {A} (R : A -> A -> Prop) l1 l2 : Sorted R (l1 ++ l2) -> Sorted R l2.
Proof. induction l1 as [|x l1 IH]; [done|]. simpl. intros [H _]%Sorted_inv. auto. Qed.

Lemma tc_first {A} (R : A -> A -> Prop) x y : tc R x y -> R x y \/ exists z, R x z /\ tc R z y.
Proof. destruct 1; eauto. Qed.

Section Cycles.
Context (g : TypedGraph) (t : EdgeType) (Hg : graph_ok g).
Context (order : list string) (Horder : order ≡ₚ dkeys (g_nodes g)).

Notation R := (dep g t).
Notation succs := (succs_in t (edges g)).

Lemma order_nodup : NoDup order.
Proof. rewrite Horder. apply Hg. Qed.

Lemma elem_succs a b : b ∈ succs a <-> R a b.
Proof.
  unfold succs_in. rewrite list_elem_of_fmap. split.
  - intros (e & -> & He). apply list_elem_of_In, filter_In in He as [He Hb].
    unfold typed in Hb. bool_hyps. exists e. split_and!; [by apply list_elem_of_In|done..].
  - intros (e & He & Ht & Hs & <-). exists e. split; [done|].
    apply list_elem_of_In, filter_In. split; [by apply list_elem_of_In|].
    unfold typed. by rewrite !bool_decide_eq_true_2 by done.
Qed.

Lemma dep_keys a b : R a b -> a ∈ order /\ b ∈ order.
Proof. rewrite Horder. intros (e & He & _ & <- & <-). by apply edge_endpoints. Qed.

Lemma cycle_fill_ok es a :
  (forall e, e ∈ es -> e ∈ edges g) ->
  cycle_fill t (list_to_set order) es (dtable a order)
  = Ok (dtable (fun k => a k ++ succs_in t es k) order).
Proof.
  revert a. induction es as [|e es IH]; intros a Hes; cbn [cycle_fill].
  { f_equal. apply dtable_ext. intros k _. unfold succs_in. simpl. by rewrite app_nil_r. }
  destruct (edge_endpoints g e Hg) as [Hs Ht]; [apply Hes; left|].
  assert (Hes' : forall e', e' ∈ es -> e' ∈ edges g) by (intros; apply Hes; by right).
  rewrite !(bool_decide_eq_true_2 (_ ∈ list_to_set order)), !andb_true_r
    by (rewrite elem_of_list_to_set, Horder; done).
  fold (typed t e). destruct (typed t e) eqn:Ety.
  - rewrite append_at_dtable by (apply order_nodup || by rewrite Horder).
    cbn [mbind res_bind]. rewrite IH by done.
    f_equal. apply dtable_ext. intros k _. unfold succs_in. cbn [List.filter]. rewrite Ety. simpl.
    case_bool_decide; case_decide; subst; try done. by rewrite <- app_assoc.
  - rewrite IH by done. f_equal. apply dtable_ext. intros k _. unfold succs_in.
    cbn [List.filter]. by rewrite Ety.
Qed.

(** Visited and no longer on the recursion stack. *)
Definition finished (st : CycleState) (a : string) : Prop :=
  a ∈ visited st /\ a ∉ rec_stack st.

Record cyc_inv (st : CycleState) : Prop := {
  ci_rec : forall a, a ∈ rec_stack st <-> a ∈ path st;
  ci_nodup : NoDup (path st);
  ci_vis : forall a, a ∈ path st -> a ∈ visited st;
  ci_keys : forall a, a ∈ visited st -> a ∈ order;
  ci_walk : Sorted R (path st);
  ci_sound : Forall (is_cycle g t) (cycles st);
  ci_complete : cycles st = [] -> forall a, finished st a ->
    (forall b, R a b -> finished st b) /\ ~ tc R a a;
}.

Record extends (st st' : CycleState) : Prop := {
  ex_path : path st' = path st;
  ex_rec : rec_stack st' = rec_stack st;
  ex_vis : visited st ⊆ visited st';
  ex_cycles : cycles st' = [] -> cycles st = [];
}.

Lemma extends_refl st : extends st st.
Proof. by split. Qed.

Lemma extends_trans st1 st2 st3 : extends st1 st2 -> extends st2 st3 -> extends st1 st3.
Proof. intros [] []. split; [congruence|congruence|set_solver|auto]. Qed.

Lemma extends_finished st st' a : extends st st' -> finished st a -> finished st' a.
Proof. intros [_ Hr Hv _] [H1 H2]. split; [set_solver|]. by rewrite Hr. Qed.

Definition unvisited (st : CycleState) : nat :=
  size ((list_to_set order : gset string) ∖ visited st).

Lemma unvisited_mono st st' : visited st ⊆ visited st' -> (unvisited st' <= unvisited st)%nat.
Proof. intros H. unfold unvisited. apply subseteq_size. set_solver. Qed.

(** What a visit of an unvisited node [n] promises. *)
Definition visit_ok (fuel : nat)
    (visit : string -> CycleState -> option (res CycleState)) : Prop :=
  forall n st, n ∈ order -> n ∉ visited st -> cyc_inv st ->
    (forall y, last (path st) = Some y -> R y n) -> (unvisited st <= fuel)%nat ->
    exists st', visit n st = Some (Ok st') /\ cyc_inv st' /\ extends st st' /\ n ∈ visited st'.

(** Reporting [path[path.index(m):] + [m]] when [m] closes the path. *)
Lemma report_cycle st n m :
  cyc_inv st -> last (path st) = Some n -> R n m -> m ∈ rec_stack st ->
  exists i, index_of m (path st) = Some i /\ is_cycle g t (drop i (path st) ++ [m]).
Proof.
  intros Hi Hl Hr Hm. apply (ci_rec _ Hi) in Hm.
  destruct (index_of_split m _ Hm) as (i & Hx & l2 & Hd & l1 & Hp).
  exists i. split; [done|]. rewrite Hd. exists m, l2. split; [done|].
  pose proof (ci_walk _ Hi) as Hs. rewrite Hp in Hs, Hl. apply sorted_suffix in Hs.
  apply (walk_snoc R m l2 n m); [|done]. apply sorted_walk; [done|].
  rewrite last_app_cons in Hl. done.
Qed.

Lemma cycle_edges_ok fuel visit n ms st :
  visit_ok fuel visit -> (forall m, m ∈ ms -> R n m) ->
  cyc_inv st -> last (path st) = Some n -> (unvisited st <= fuel)%nat ->
  exists st', cycle_edges visit ms st = Some (Ok st') /\ cyc_inv st' /\ extends st st' /\
    (cycles st' = [] -> forall m, m ∈ ms -> finished st' m).
Proof.
  intros Hv. revert st. induction ms as [|m ms IH]; intros st Hms Hi Hl Hf; cbn [cycle_edges].
  { exists st. split_and!; [done|done|apply extends_refl|set_solver]. }
  assert (Hm : R n m) by (apply Hms; left).
  assert (Hms' : forall m', m' ∈ ms -> R n m') by (intros; apply Hms; by right).
  case_bool_decide as Hvis; simpl.
  - case_bool_decide as Hrec.
    + destruct (report_cycle st n m Hi Hl Hm Hrec) as (i & -> & Hc).
      destruct (IH {| visited := visited st; rec_stack := rec_stack st; path := path st;
                      cycles := cycles st ++ [drop i (path st) ++ [m]] |})
        as (st' & -> & Hi' & Hex & _); [done| |done|done|].
      { destruct Hi. split; simpl; try done; [by apply Forall_app; auto|].
        intros H. by apply app_eq_nil in H as [_ ?]. }
      assert (Hne : cycles st' <> []).
      { intros H. apply (ex_cycles _ _ Hex), app_eq_nil in H. by destruct H. }
      exists st'. split_and!; [done|done| |done]. destruct Hex. by split.
    + destruct (IH st) as (st' & -> & Hi' & Hex & Hfin); [done..|].
      exists st'. split_and!; [done|done|done|]. intros H0 m' [->|Hin]%elem_of_cons; [|auto].
      by eapply extends_finished.
  - destruct (Hv m st) as (st1 & -> & Hi1 & Hex1 & Hm1); [by apply dep_keys in Hm as []|done..| |done|].
    { intros y. rewrite Hl. by intros [= <-]. }
    pose proof (unvisited_mono _ _ (ex_vis _ _ Hex1)) as Hle.
    destruct (IH st1) as (st' & -> & Hi' & Hex & Hfin);
      [done|done|by rewrite (ex_path _ _ Hex1)|lia|].
    exists st'. split_and!; [done|done|by eapply extends_trans|].
    intros H0 m' [->|Hin]%elem_of_cons; [|auto]. eapply extends_finished; [done|].
    split; [done|]. rewrite (ex_rec _ _ Hex1), (ci_rec _ Hi). by intros ?%(ci_vis _ Hi).
Qed.

(** Entering [n] keeps the invariant. *)
Lemma cyc_inv_enter n st :
  cyc_inv st -> n ∈ order -> n ∉ visited st ->
  (forall y, last (path st) = Some y -> R y n) ->
  cyc_inv {| visited := {[n]} ∪ visited st; rec_stack := {[n]} ∪ rec_stack st;
             path := path st ++ [n]; cycles := cycles st |}.
Proof.
  intros Hi Hn Hnv Hl. destruct Hi. split; simpl.
  - intros a. rewrite elem_of_union, elem_of_app, ci_rec0. set_solver.
  - apply NoDup_app. split_and!; [done| |by apply NoDup_singleton]. set_solver.
  - set_solver.
  - set_solver.
  - by apply sorted_snoc.
  - done.
  - intros H0 a [H1 H2]. simpl in *.
    destruct (ci_complete0 H0 a) as [Hc Ha]; [split; set_solver|]. split; [|done].
    intros b Hb. destruct (Hc b Hb). split; simpl; [set_solver|].
    intros [->%elem_of_singleton|]%elem_of_union; done.
Qed.

(** Leaving [n], when no cycle was found, its successors are finished. *)
Lemma cyc_inv_leave n l st :
  cyc_inv st -> path st = l ++ [n] ->
  (cycles st = [] -> forall m, R n m -> finished st m) ->
  cyc_inv {| visited := visited st; rec_stack := rec_stack st ∖ {[n]};
             path := removelast (path st); cycles := cycles st |}.
Proof.
  intros Hi Hp Hfin. destruct Hi. rewrite Hp, removelast_last in *.
  assert (Hnl : n ∉ l).
  { apply NoDup_app in ci_nodup0 as (_ & Hd & _). intros Hn. apply (Hd _ Hn). left. }
  split; simpl.
  - intros a. rewrite elem_of_difference, ci_rec0. set_solver.
  - by apply NoDup_app in ci_nodup0 as [].
  - intros a Ha. apply ci_vis0. set_solver.
  - done.
  - clear -ci_walk0. induction l as [|x l IH]; [constructor|].
    simpl in ci_walk0. apply Sorted_inv in ci_walk0 as [Hs Hh]. constructor; [auto|].
    destruct l; [constructor|]. inversion Hh; by constructor.
  - done.
  - intros H0 a [H1 H2]. simpl in H1, H2.
    assert (Hn : n ∈ visited st) by (apply ci_vis0; set_solver).
    assert (Hup : forall b, finished st b ->
              finished {| visited := visited st; rec_stack := rec_stack st ∖ {[n]};
                          path := l; cycles := cycles st |} b).
    { intros b []. split; simpl; [done|set_solver]. }
    destruct (decide (a ∈ rec_stack st)) as [Ha|Ha].
    + assert (a = n) as -> by set_solver. split; [eauto|].
      assert (Hrec : n ∈ rec_stack st) by done.
      assert (Hclosed : forall x, finished st x -> ~ rtc R x n).
      { intros x Hx Hxn. apply (closed_reach R (finished st) x n) in Hxn as [_ Hbad]; [done| |done].
        intros u v Hu. by apply ci_complete0. }
      intros Htc. apply tc_first in Htc as [Hnn|(x & Hx & Hxn)].
      * by destruct (Hfin H0 n Hnn).
      * apply (Hclosed x); [by apply Hfin|by apply tc_rtc].
    + destruct (ci_complete0 H0 a) as [Hc Hac]; [done|]. eauto.
Qed.

Lemma cycle_visit_ok fuel : visit_ok fuel (cycle_visit fuel (dtable succs order)).
Proof.
  induction fuel as [|fuel IH]; intros n st Hn Hnv Hi Hl Hf.
  - exfalso. assert (n ∈ (list_to_set order : gset string) ∖ visited st) by set_solver.
    unfold unvisited in Hf. assert (size ((list_to_set order : gset string) ∖ visited st) = 0%nat) by lia.
    apply size_empty_inv in H0. set_solver.
  - cbn [cycle_visit]. unfold dget_or. rewrite dget_dtable by done.
    set (st1 := {| visited := _; rec_stack := _; path := _; cycles := _ |}).
    assert (Hi1 : cyc_inv st1) by (by apply cyc_inv_enter).
    destruct (cycle_edges_ok fuel _ n (succs n) st1 IH) as (st2 & -> & Hi2 & Hex & Hfin).
    + intros m. by rewrite elem_succs.
    + done.
    + simpl. by rewrite last_snoc.
    + unfold unvisited in Hf |- *. subst st1. cbn [visited].
      assert ((list_to_set order : gset string) ∖ ({[n]} ∪ visited st)
              ⊂ list_to_set order ∖ visited st) as Hlt%subset_size by set_solver. lia.
    + pose proof (ex_path _ _ Hex) as Hp. simpl in Hp. eexists. split; [done|]. split_and!.
      * eapply cyc_inv_leave; [done..|]. intros H0 m Hm. apply Hfin; [done|]. by rewrite elem_succs.
      * destruct Hex as [_ Hr Hv Hc]. simpl in *. split; simpl.
        -- by rewrite Hp, removelast_last.
        -- rewrite Hr. assert (n ∉ rec_stack st); [|set_solver].
           rewrite (ci_rec _ Hi). by intros ?%(ci_vis _ Hi).
        -- set_solver.
        -- done.
      * simpl. pose proof (ex_vis _ _ Hex). subst st1. simpl in *. set_solver.
Qed.

Lemma cycle_roots_ok fuel ks st :
  (forall k, k ∈ ks -> k ∈ order) -> cyc_inv st -> path st = [] -> (unvisited st <= fuel)%nat ->
  exists st', cycle_roots fuel (dtable succs order) ks st = Some (Ok st') /\
    cyc_inv st' /\ extends st st' /\ (forall k, k ∈ ks -> k ∈ visited st').
Proof.
  revert st. induction ks as [|k ks IH]; intros st Hks Hi Hp Hf; cbn [cycle_roots].
  { exists st. split_and!; [done|done|apply extends_refl|set_solver]. }
  case_bool_decide as Hv.
  - destruct (IH st) as (st' & -> & Hi' & Hex & Hall); [set_solver|done..|].
    exists st'. split_and!; [done..|]. pose proof (ex_vis _ _ Hex). set_solver.
  - destruct (cycle_visit_ok fuel k st) as (st1 & -> & Hi1 & Hex1 & Hk);
      [set_solver|done|done|by rewrite Hp|done|].
    pose proof (unvisited_mono _ _ (ex_vis _ _ Hex1)).
    destruct (IH st1) as (st' & -> & Hi' & Hex & Hall);
      [set_solver|done|by rewrite (ex_path _ _ Hex1)|lia|].
    exists st'. split_and!; [done|done|by eapply extends_trans|].
    pose proof (ex_vis _ _ Hex). set_solver.
Qed.

Lemma detect_cycles_run :
  exists cs, detect_cycles g t order = Some (Ok cs) /\ Forall (is_cycle g t) cs /\
    (cs = [] -> forall a, ~ tc R a a).
Proof.
  unfold detect_cycles. rewrite (cycle_fill_ok (edges g)) by done.
  assert (E : dtable (fun k => [] ++ succs k) order = dtable succs order)
    by (by apply dtable_ext).
  rewrite E. set (st0 := {| visited := _; rec_stack := _; path := _; cycles := _ |}).
  destruct (cycle_roots_ok (S (length order)) order st0) as (st' & -> & Hi & Hex & Hall).
  - done.
  - split; simpl; [set_solver|apply NoDup_nil_2|set_solver|set_solver|constructor|constructor|].
    intros _ a []. set_solver.
  - done.
  - unfold unvisited. simpl. rewrite difference_empty_L. rewrite size_list_to_set by apply order_nodup. lia.
  - exists (cycles st'). split_and!; [done|apply Hi|]. intros H0 a Htc.
    assert (Ha : a ∈ order).
    { apply tc_first in Htc as [H|(x & H & _)]; by apply dep_keys in H as []. }
    apply (ci_complete _ Hi H0 a); [|done]. split; [auto|].
    rewrite (ex_rec _ _ Hex). simpl. set_solver.
Qed.
End Cycles.

Lemma detect_cycles_ok g t order :
  graph_ok g -> order ≡ₚ dkeys (g_nodes g) ->
  exists cs, detect_cycles g t order = Some (Ok cs) /\
    Forall (is_cycle g t) cs /\ (cs = [] <-> forall a, ~ tc (dep g t) a a).
Proof.
  intros Hg Ho. destruct (detect_cycles_run g t Hg order Ho) as (cs & -> & Hs & Hc).
  exists cs. split_and!; [done|done|]. split; [done|]. intros Hn.
  destruct cs as [|c cs]; [done|]. exfalso. apply Forall_cons in Hs as [(a & l & _ & Hw) _].
  apply (Hn a). eapply walk_tc; [|done]. by destruct l.
Qed.

(** On every graph the mutators can build and for every order in which the
    set of node ids may be iterated, [detect_cycles] terminates without an
    error, every list it reports is a closed walk of typed edges, and it
    reports none exactly when the typed edges have no cycle. *)
Theorem detect_cycles_correct g t order :
  built g -> order ≡ₚ dkeys (g_nodes g) ->
  exists cs, detect_cycles g t order = Some (Ok cs) /\
    Forall (is_cycle g t) cs /\ (cs = [] <-> forall a, ~ tc (dep g t) a a).
Proof. intros Hg%built_ok. by apply detect_cycles_ok. Qed.

Lemma detect_cycles_correct_witness :
  exists cs, detect_cycles
      (graph_of [sample_node "a"; sample_node "b"] [sample_edge "e" "a" "b"; sample_edge "f" "b" "a"])
      E_DEPENDS_ON ["b"; "a"] = Some (Ok cs) /\ cs = [["b"; "a"; "b"]].
Proof.
  destruct (detect_cycles_correct
      (graph_of [sample_node "a"; sample_node "b"] [sample_edge "e" "a" "b"; sample_edge "f" "b" "a"])
      E_DEPENDS_ON ["b"; "a"]) as (cs & E & _).
  - apply graph_of_built.
  - vm_compute. apply perm_swap.
  - exists cs. split; [done|]. vm_compute in E. by injection E as <-.
Defined.
