(* ===== verification/GraphPaths.v ===== *)
(** * Path finding

    [GraphTraversal.find_path] of [isr/graph/traversal.py]: a queue search
    that records parents, which a queued node may have overwritten until it is
    visited.  It returns a path of kept edges from the source to the target
    exactly when the target is reachable, and the parent chain it follows is
    never circular. *)

From S2P Require Import Prelude PyFloat PyVal IsrModel TypedGraph GraphSearch.

(** [while current is not None: path.append(current); current = parent[current]],
    then the reversed path. *)
Fixpoint chase (fuel : nat) (parent : list (string * option string)) (current : option string)
    (path : list string) : option (res (list string)) :=
  match current with
  | None => Some (Ok (reverse path))
  | Some c =>
      match fuel with
      | O => None
      | S fuel' =>
          match dget c parent with
          | None => Some (Raise (KeyError c))
          | Some p => chase fuel' parent p (path ++ [c])
          end
      end
  end.

(** The edge loop of [find_path]. *)
Fixpoint path_edges (f : option (GraphEdge -> bool)) (visited : gset string) (node_id : string)
    (es : list GraphEdge) (parent : list (string * option string)) (queue : list string) :
    list (string * option string) * list string :=
  match es with
  | [] => (parent, queue)
  | e :: es' =>
      if keeps f e && negb (bool_decide (target_id e ∈ visited)) then
        path_edges f visited node_id es' (dset (target_id e) (Some node_id) parent)
          (queue ++ [target_id e])
      else path_edges f visited node_id es' parent queue
  end.

Fixpoint path_loop (fuel : nat) (g : TypedGraph) (target : string)
    (f : option (GraphEdge -> bool)) (visited : gset string)
    (parent : list (string * option string)) (queue : list string) :
    option (res (option (list string))) :=
  match queue with
  | [] => Some (Ok None)
  | node_id :: queue' =>
      match fuel with
      | O => None
      | S fuel' =>
          if bool_decide (node_id = target) then
            match chase (S (length parent)) parent (Some target) [] with
            | Some (Ok p) => Some (Ok (Some p))
            | Some (Raise x) => Some (Raise x)
            | None => None
            end
          else if bool_decide (node_id ∈ visited) then
            path_loop fuel' g target f visited parent queue'
          else
            let visited' := {[node_id]} ∪ visited in
            match get_outgoing_edges g node_id with
            | Raise x => Some (Raise x)
            | Ok es =>
                let '(parent', queue'') := path_edges f visited' node_id es parent queue' in
                path_loop fuel' g target f visited' parent' queue''
            end
      end
  end.

Definition find_path (g : TypedGraph) (source target : string)
    (f : option (GraphEdge -> bool)) : option (res (option (list string))) :=
  path_loop (S (edge_count g)) g target f ∅ [(source, None)] [source].

(** The pairs of consecutive nodes of [p] are joined by kept edges. *)
Definition is_path (g : TypedGraph) (f : option (GraphEdge -> bool)) (source target : string)
    (p : list string) : Prop :=
  exists l, p = source :: l /\ walk (edge_step g f) source l target.

Lemma path_edges_queue f vs k es parent queue :
  (path_edges f vs k es parent queue).2
  = queue ++ map target_id (List.filter
      (fun e => keeps f e && negb (bool_decide (target_id e ∈ vs))) es).
Proof.
  revert parent queue. induction es as [|e es IH]; intros parent queue; simpl.
  { by rewrite app_nil_r. }
  destruct (keeps f e && _); [|done]. rewrite IH, <- app_assoc. done.
Qed.

Lemma path_edges_parent f vs k es parent queue x :
  dget x (path_edges f vs k es parent queue).1 = dget x parent \/
  (dget x (path_edges f vs k es parent queue).1 = Some (Some k) /\ x ∉ vs /\
   exists e, e ∈ es /\ keeps f e = true /\ target_id e = x).
Proof.
  revert parent queue. induction es as [|e es IH]; intros parent queue; simpl; [by left|].
  destruct (keeps f e && _) eqn:Ek; bool_hyps.
  - destruct (IH (dset (target_id e) (Some k) parent) (queue ++ [target_id e]))
      as [Hd|(Hd & Hx & e' & He' & ?)].
    + rewrite Hd, dget_dset. case_decide as E; [|by left]. subst.
      right. split_and!; [done|done|]. exists e. split_and!; [left|done|done].
    + right. split_and!; [done|done|]. exists e'. split; [by right|done].
  - destruct (IH parent queue) as [Hd|(Hd & Hx & e' & He' & ?)]; [by left|].
    right. split_and!; [done|done|]. exists e'. split; [by right|done].
Qed.

Lemma path_edges_keys f vs k es parent queue x :
  x ∈ dkeys (path_edges f vs k es parent queue).1 <->
  x ∈ dkeys parent \/ x ∈ map target_id (List.filter
      (fun e => keeps f e && negb (bool_decide (target_id e ∈ vs))) es).
Proof.
  revert parent queue. induction es as [|e es IH]; intros parent queue; simpl; [set_solver|].
  destruct (keeps f e && _); [|done]. rewrite IH, elem_dkeys_dset. simpl. set_solver.
Qed.

Section FindPath.
Context (g : TypedGraph) (f : option (GraphEdge -> bool)) (source target : string).
Context (Hg : graph_ok g).

Notation R := (edge_step g f).

(** The recorded parent of [x]: nothing for the source, otherwise a node
    visited before [x], one kept edge away. *)
Definition parent_ok (vs : list string) (x : string) (p : option string) : Prop :=
  match p with
  | None => x = source
  | Some y => R y x /\ y ∈ vs /\ forall l1 l2, vs = l1 ++ x :: l2 -> y ∈ l1
  end.

(** [vs] lists the visited nodes in the order of the visits. *)
Record path_inv (visited : gset string) (vs : list string)
    (parent : list (string * option string)) (queue : list string) : Prop := {
  pi_vs : forall x, x ∈ visited <-> x ∈ vs;
  pi_nodup : NoDup vs;
  pi_target : target ∉ vs;
  pi_parent : forall x p, dget x parent = Some p -> parent_ok vs x p;
  pi_queue : forall q, q ∈ queue -> q ∈ dkeys parent;
  pi_vkeys : forall v, v ∈ vs -> v ∈ dkeys parent;
  pi_closed : forall v w, v ∈ vs -> R v w -> w ∈ vs \/ w ∈ queue;
  pi_start : source ∈ vs \/ source ∈ queue;
}.

Lemma chase_visited visited vs parent queue :
  path_inv visited vs parent queue ->
  forall l1 x l2 fuel acc, vs = l1 ++ x :: l2 -> (length l1 < fuel)%nat ->
  exists l, chase fuel parent (Some x) acc = Some (Ok (source :: l ++ reverse acc)) /\
    walk R source l x.
Proof.
  intros Hi l1. remember (length l1) as n eqn:Hn. revert l1 Hn.
  induction n as [n IH] using lt_wf_ind. intros l1 -> x l2 fuel acc Hvs Hf.
  destruct fuel as [|fuel]; [lia|]. cbn [chase].
  destruct (dget x parent) as [p|] eqn:E.
  2: { apply dget_None in E. destruct E. apply (pi_vkeys _ _ _ _ Hi). set_solver. }
  pose proof (pi_parent _ _ _ _ Hi _ _ E) as Hp. destruct p as [y|]; simpl in Hp.
  - destruct Hp as (Hr & _ & Hbefore). specialize (Hbefore _ _ Hvs).
    apply list_elem_of_split in Hbefore as (a & b & ->).
    destruct (IH (length a)) with (l1 := a) (x := y) (l2 := b ++ x :: l2) (fuel := fuel)
      (acc := acc ++ [x]) as (l & Hc & Hw).
    + rewrite length_app. simpl. lia.
    + done.
    + by rewrite Hvs, <- app_assoc.
    + rewrite length_app in Hf. simpl in Hf. lia.
    + exists (l ++ [x]). rewrite Hc, reverse_app. rewrite <- app_assoc. split; [done|].
      by eapply walk_snoc.
  - exists []. subst x. destruct fuel; simpl; rewrite reverse_app; done.
Qed.

Lemma chase_target visited vs parent queue :
  path_inv visited vs parent (target :: queue) ->
  exists p, chase (S (length parent)) parent (Some target) [] = Some (Ok p) /\
    is_path g f source target p.
Proof.
  intros Hi. cbn [chase]. pose proof (pi_queue _ _ _ _ Hi target ltac:(left)) as Hk.
  destruct (dget target parent) as [p|] eqn:E; [|by apply dget_None in E].
  pose proof (pi_parent _ _ _ _ Hi _ _ E) as Hp. destruct p as [y|]; simpl in Hp.
  - destruct Hp as (Hr & Hy & _). apply list_elem_of_split in Hy as (l1 & l2 & Hvs).
    destruct (chase_visited _ _ _ _ Hi l1 y l2 (length parent) [target] Hvs) as (l & Hc & Hw).
    + assert (length vs <= length (dkeys parent))%nat as Hle.
      { apply submseteq_length, NoDup_submseteq; apply Hi. }
      unfold dkeys in Hle. rewrite length_map, Hvs, length_app in Hle. simpl in Hle. lia.
    + rewrite app_nil_l, Hc. eexists. split; [done|]. exists (l ++ [target]).
      split; [done|]. by eapply walk_snoc.
  - exists [target]. split; [by destruct (length parent)|]. exists []. by rewrite Hp.
Qed.

Lemma path_inv_skip visited vs parent k queue :
  path_inv visited vs parent (k :: queue) -> k ∈ visited -> path_inv visited vs parent queue.
Proof.
  intros Hi Hk%(pi_vs _ _ _ _ Hi). destruct Hi. split; try done.
  - intros; apply pi_queue0. by right.
  - intros v w Hv Hvw. destruct (pi_closed0 v w Hv Hvw) as [|[->|]%elem_of_cons]; auto.
  - destruct pi_start0 as [|[->|]%elem_of_cons]; auto.
Qed.

Lemma path_inv_visit visited vs parent k queue :
  path_inv visited vs parent (k :: queue) -> k ∉ visited -> k <> target ->
  let '(parent', queue') :=
    path_edges f ({[k]} ∪ visited) k (out_edges g k) parent queue in
  path_inv ({[k]} ∪ visited) (vs ++ [k]) parent' queue'.
Proof.
  intros Hi Hk Hkt.
  set (V := {[k]} ∪ visited : gset string).
  pose proof (path_edges_queue f V k (out_edges g k) parent queue) as Hq.
  pose proof (path_edges_parent f V k (out_edges g k) parent queue) as Hp.
  pose proof (path_edges_keys f V k (out_edges g k) parent queue) as Hkeys.
  destruct (path_edges _ _ _ _ _ _) as [parent' queue']. simpl in *. subst queue'.
  assert (HkN : k ∉ vs) by (by rewrite <- (pi_vs _ _ _ _ Hi)).
  pose proof (pi_queue _ _ _ _ Hi k ltac:(left)) as Hkk.
  destruct Hi. split.
  - intros x. unfold V. rewrite elem_of_union, elem_of_singleton, elem_of_app, pi_vs0. set_solver.
  - apply NoDup_app. split_and!; [done| |by apply NoDup_singleton]. set_solver.
  - set_solver.
  - intros x p Hx. destruct (Hp x) as [E|(E & HxV & e & He & Hke & Ht)]; rewrite E in Hx.
    + pose proof (pi_parent0 _ _ Hx) as Hok. destruct p as [y|]; [|done].
      destruct Hok as (Hr & Hy & Hb). split_and!; [done|set_solver|].
      intros l1 l2 Hvs. destruct l2 as [|z l2 _] using rev_ind.
      * apply app_inj_tail in Hvs as [<- <-]. done.
      * rewrite app_comm_cons, app_assoc in Hvs. apply app_inj_tail in Hvs as [-> _]. eauto.
    + injection Hx as <-. split_and!; [|set_solver|].
      * apply elem_out_edges in He as [He Hs]. by exists e.
      * intros l1 l2 Hvs. exfalso. apply HxV. unfold V.
        assert (x ∈ vs ++ [k]) by (rewrite Hvs; set_solver).
        rewrite elem_of_union, elem_of_singleton, pi_vs0. set_solver.
  - intros q. rewrite Hkeys. intros [Hin|Hin]%elem_of_app; [left; apply pi_queue0; by right|by right].
  - intros v. rewrite Hkeys. intros [Hin| ->%list_elem_of_singleton]%elem_of_app; left; auto.
  - intros v w Hv Hvw. rewrite !elem_of_app. apply elem_of_app in Hv as [Hv|Hv%list_elem_of_singleton]; [|subst v].
    + destruct (pi_closed0 v w Hv Hvw) as [|[->|]%elem_of_cons]; set_solver.
    + destruct Hvw as (e & He & Hs & <- & Hke).
      destruct (decide (target_id e ∈ V)) as [HV|HV].
      * left. unfold V in HV. rewrite elem_of_union, elem_of_singleton, pi_vs0 in HV. set_solver.
      * right. right. apply elem_new_targets. exists e. by rewrite elem_out_edges.
  - rewrite !elem_of_app. destruct pi_start0 as [|[->|]%elem_of_cons]; set_solver.
Qed.

Lemma path_loop_ok fuel : forall visited vs parent queue,
  path_inv visited vs parent queue ->
  (length queue + open_edges g visited <= fuel)%nat ->
  (exists p, path_loop fuel g target f visited parent queue = Some (Ok (Some p)) /\
     is_path g f source target p) \/
  (path_loop fuel g target f visited parent queue = Some (Ok None) /\ ~ rtc R source target).
Proof.
  assert (Hend : forall visited vs parent, path_inv visited vs parent [] -> ~ rtc R source target).
  { intros visited vs parent Hi Hr. apply (pi_target _ _ _ _ Hi).
    apply (closed_reach R (fun x => x ∈ vs) source); [|destruct (pi_start _ _ _ _ Hi); set_solver|done].
    intros a b Ha Hab. destruct (pi_closed _ _ _ _ Hi a b Ha Hab); [done|set_solver]. }
  induction fuel as [|fuel IH]; intros visited vs parent [|k queue] Hi Hf; simpl;
    [right; split; [done|]; by eapply Hend|simpl in Hf; lia|right; split; [done|]; by eapply Hend|].
  case_bool_decide as Ht.
  - left. subst k. destruct (chase_target _ _ _ _ Hi) as (p & E & Hp). simpl in E. rewrite E. eauto.
  - case_bool_decide as Hk.
    + apply IH with vs; [by eapply path_inv_skip|simpl in Hf; lia].
    + rewrite get_outgoing_edges_spec by done.
      pose proof (path_inv_visit _ _ _ _ _ Hi Hk Ht) as Hi'.
      pose proof (path_edges_queue f ({[k]} ∪ visited) k (out_edges g k) parent queue) as Hq.
      destruct (path_edges _ _ _ _ _ _) as [parent' queue']. simpl in Hq.
      apply IH with (vs ++ [k]); [done|]. subst queue'.
      rewrite (open_edges_visit _ _ _ Hk) in Hf. rewrite length_app, length_map.
      pose proof (List.filter_length_le
        (fun e => keeps f e && negb (bool_decide (target_id e ∈ ({[k]} ∪ visited : gset string))))
        (out_edges g k)). simpl in Hf. lia.
Qed.
End FindPath.

(** On every graph the mutators can build, [find_path] terminates without
    an error (in particular the parent chain it follows ends), returns a list
    that starts at the source, ends at the target and whose consecutive nodes
    are joined by kept edges, and returns [None] only when the target is not
    reachable. *)
Theorem find_path_correct g source target f :
  built g ->
  match find_path g source target f with
  | Some (Ok (Some p)) => is_path g f source target p
  | Some (Ok None) => ~ reach g f source target
  | _ => False
  end.
Proof.
  intros Hg%built_ok. unfold find_path.
  destruct (path_loop_ok g f source target Hg (S (edge_count g)) ∅ [] [(source, None)] [source])
    as [(p & -> & Hp)|(-> & Hn)]; [| |done|done].
  - split; try (simpl; set_solver).
    + constructor.
    + intros x p. simpl. case_decide; [|done]. by intros [= <-].
  - unfold open_edges, edge_count. simpl. unfold edges, dvalues.
    etrans; [apply le_n_S, List.filter_length_le|]. by rewrite length_map.
Qed.

Lemma find_path_correct_witness :
  is_path (graph_of [sample_node "a"; sample_node "b"; sample_node "c"]
             [sample_edge "e" "a" "b"; sample_edge "f" "b" "c"]) None "a" "c" ["a"; "b"; "c"].
Proof.
  pose proof (find_path_correct
    (graph_of [sample_node "a"; sample_node "b"; sample_node "c"]
             [sample_edge "e" "a" "b"; sample_edge "f" "b" "c"]) "a" "c" None
    (graph_of_built _ _)) as H.
  vm_compute in H |- *. exact H.
Defined.
