(* ===== verification/GraphOps.v ===== *)
(** * Graph operations and queries

    [isr/graph/operations.py] and [isr/graph/queries.py].  Every operation
    works on a clone; new edge ids come from [uuid4().hex[:12]].  The class
    [TypedGraph] has no [remove_node] and no [remove_edge], so every operation
    that reaches one of these calls raises an AttributeError. *)

From S2P Require Import Prelude PyFloat PyVal IsrModel TypedGraph GraphSearch GraphOrder.

(** The clone an operation works on, and the number of uuids drawn so far. *)
Record OpState : Type := { new_graph : TypedGraph; uuids : nat }.

Definition on_graph {A} (m : M TypedGraph A) : M OpState A :=
  zoom new_graph (fun g s => {| new_graph := g; uuids := uuids s |}) m.

(** A call of a method the class does not define. *)
Definition no_attribute {A} (name : string) : M OpState A :=
  raise (AttributeError ("'TypedGraph' object has no attribute '" +:+ name +:+ "'")).
Definition call_remove_node (node_id : string) : M OpState unit := no_attribute "remove_node".
Definition call_remove_edge (edge_id : string) : M OpState unit := no_attribute "remove_edge".

Section Operations.
(** The n-th uuid drawn, as its 32 hexadecimal digits. *)
Variable uuid_hex : nat -> string.

Definition new_edge_id : M OpState string := fun s =>
  (Ok ("edge-" +:+ String.substring 0 12 (uuid_hex (uuids s))),
   {| new_graph := new_graph s; uuids := S (uuids s) |}).

(** [new_graph = graph.clone(); ...; return new_graph]. *)
Definition with_clone (g : TypedGraph) (body : M OpState unit) : M nat TypedGraph := fun k =>
  match clone g with
  | Raise x => (Raise x, k)
  | Ok g' =>
      match body {| new_graph := g'; uuids := k |} with
      | (Ok _, s) => (Ok (new_graph s), uuids s)
      | (Raise x, s) => (Raise x, uuids s)
      end
  end.

Definition attributes_or_empty (a : option pydict) : pydict :=
  match a with Some d => d | None => [] end.

Definition op_add_node (g : TypedGraph) (node_id : string) (t : NodeType) (lbl : string)
    (parent : option string) (attributes : option pydict) : M nat TypedGraph :=
  with_clone g (on_graph (add_node
    {| n_id := node_id; node_type := t; label := lbl;
       n_attributes := attributes_or_empty attributes; parent_id := parent |})).

Definition op_remove_node (g : TypedGraph) (node_id : string) : M nat TypedGraph :=
  with_clone g (call_remove_node node_id).

(** [new_graph.add_edge(GraphEdge(id=f"edge-...", ...))]. *)
Definition add_fresh_edge (src tgt : string) (t : EdgeType) (attrs : EdgeAttributes) :
    M OpState unit :=
  edge_id ← new_edge_id;
  on_graph (add_edge {| e_id := edge_id; source_id := src; target_id := tgt; edge_type := t;
                        e_attributes := attrs; e_metadata := [] |}).

Definition op_add_edge (g : TypedGraph) (src tgt : string) (t : EdgeType)
    (attrs : option EdgeAttributes) : M nat TypedGraph :=
  with_clone g (add_fresh_edge src tgt t
    (match attrs with Some a => a | None => default_edge_attributes end)).

Definition op_remove_edge (g : TypedGraph) (edge_id : string) : M nat TypedGraph :=
  with_clone g (call_remove_edge edge_id).

Definition lift_graph {A} (f : TypedGraph -> res A) : M OpState A := fun s => (f (new_graph s), s).

Definition replace_node (g : TypedGraph) (old_node_id : string) (new_node : GraphNode) :
    M nat TypedGraph :=
  with_clone g (
    incoming ← lift_graph (fun g' => get_incoming_edges g' old_node_id);
    outgoing ← lift_graph (fun g' => get_outgoing_edges g' old_node_id);
    _ ← call_remove_node old_node_id;
    _ ← on_graph (add_node new_node);
    _ ← for_each incoming (fun e =>
          add_fresh_edge (source_id e) (n_id new_node) (edge_type e) (e_attributes e));
    for_each outgoing (fun e =>
          add_fresh_edge (n_id new_node) (target_id e) (edge_type e) (e_attributes e))).

Definition split_node (g : TypedGraph) (node_id : string) (child_nodes : list GraphNode)
    (edge_mapping : list (string * string)) : M nat TypedGraph :=
  with_clone g (
    original ← gets (fun s => get_node (new_graph s) node_id);
    match original with
    | None => raise (ValueError ("Node '" +:+ node_id +:+ "' not found"))
    | Some _ =>
        _ ← for_each child_nodes (fun c => on_graph (add_node c));
        outgoing ← lift_graph (fun g' => get_outgoing_edges g' node_id);
        for_each outgoing (fun e =>
          add_fresh_edge node_id (dget_or (target_id e) edge_mapping (target_id e))
            (edge_type e) (e_attributes e))
    end).

(** [for nid in node_ids: all_incoming.extend(...); all_outgoing.extend(...)]. *)
Fixpoint collect_edges (node_ids : list string) :
    M OpState (list GraphEdge * list GraphEdge) :=
  match node_ids with
  | [] => mret ([], [])
  | k :: rest =>
      inc ← lift_graph (fun g' => get_incoming_edges g' k);
      out ← lift_graph (fun g' => get_outgoing_edges g' k);
      more ← collect_edges rest;
      mret (inc ++ more.1, out ++ more.2)
  end.

(** Re-attach the edges whose other end is outside, one per (end, type). *)
Fixpoint reattach (key : GraphEdge -> string) (attach : GraphEdge -> M OpState unit)
    (node_ids : list string) (es : list GraphEdge) (seen : list (string * EdgeType)) :
    M OpState unit :=
  match es with
  | [] => mret tt
  | e :: rest =>
      if negb (mem (key e) node_ids) && negb (mem (key e, edge_type e) seen) then
        _ ← attach e;
        reattach key attach node_ids rest ((key e, edge_type e) :: seen)
      else reattach key attach node_ids rest seen
  end.

Definition merge_nodes (g : TypedGraph) (node_ids : list string) (merged_node : GraphNode) :
    M nat TypedGraph :=
  with_clone g (
    collected ← collect_edges node_ids;
    _ ← for_each node_ids call_remove_node;
    _ ← on_graph (add_node merged_node);
    _ ← reattach target_id (fun e =>
          add_fresh_edge (n_id merged_node) (target_id e) (edge_type e) (e_attributes e))
          node_ids collected.2 [];
    reattach source_id (fun e =>
          add_fresh_edge (source_id e) (n_id merged_node) (edge_type e) (e_attributes e))
          node_ids collected.1 []).

Definition retype_edge (g : TypedGraph) (edge_id : string) (new_edge_type : EdgeType) :
    M nat TypedGraph :=
  with_clone g (
    found ← gets (fun s => get_edge (new_graph s) edge_id);
    match found with
    | None => raise (ValueError ("Edge '" +:+ edge_id +:+ "' not found"))
    | Some e =>
        _ ← call_remove_edge edge_id;
        on_graph (add_edge {| e_id := edge_id; source_id := source_id e;
                              target_id := target_id e; edge_type := new_edge_type;
                              e_attributes := e_attributes e; e_metadata := e_metadata e |})
    end).
End Operations.

(** ** Queries *)

Definition find_modules (g : TypedGraph) := get_nodes_by_type g N_MODULE.
Definition find_services (g : TypedGraph) := get_nodes_by_type g N_SERVICE.
Definition find_entities (g : TypedGraph) := get_nodes_by_type g N_ENTITY.

(** The far ends of the DEPENDS_ON edges of a list, those that exist. *)
Definition dependency_ends (g : TypedGraph) (far : GraphEdge -> string) (es : list GraphEdge) :
    list GraphNode :=
  omap (fun e => if bool_decide (edge_type e = E_DEPENDS_ON) then get_node g (far e) else None) es.

Definition find_dependencies (g : TypedGraph) (node_id : string) : res (list GraphNode) :=
  es ← get_outgoing_edges g node_id; Ok (dependency_ends g target_id es).
Definition find_dependents (g : TypedGraph) (node_id : string) : res (list GraphNode) :=
  es ← get_incoming_edges g node_id; Ok (dependency_ends g source_id es).

Definition compute_in_degree (g : TypedGraph) (node_id : string) : res nat :=
  es ← get_incoming_edges g node_id; Ok (length es).
Definition compute_out_degree (g : TypedGraph) (node_id : string) : res nat :=
  es ← get_outgoing_edges g node_id; Ok (length es).

Fixpoint orphans_in (g : TypedGraph) (ns : list GraphNode) : res (list GraphNode) :=
  match ns with
  | [] => Ok []
  | n :: rest =>
      out ← get_outgoing_edges g (n_id n);
      inc ← (match out with [] => get_incoming_edges g (n_id n) | _ => Ok [] end);
      orphans ← orphans_in g rest;
      Ok (match out, inc with [], [] => n :: orphans | _, _ => orphans end)
  end.
Definition find_orphaned_nodes (g : TypedGraph) : res (list GraphNode) := orphans_in g (nodes g).

(** The edge loop of [get_subgraph]; the queue grows while it runs. *)
Fixpoint subgraph_edges (g : TypedGraph) (depth : Z) (es : list GraphEdge)
    (queue : list (string * Z)) : M TypedGraph (list (string * Z)) :=
  match es with
  | [] => mret queue
  | e :: rest =>
      match get_node g (target_id e) with
      | None => subgraph_edges g depth rest queue
      | Some target =>
          _ ← add_node target;
          _ ← add_edge e;
          subgraph_edges g depth rest (queue ++ [(target_id e, depth + 1)%Z])
      end
  end.

Fixpoint subgraph_loop (fuel : nat) (g : TypedGraph) (max_depth : Z) (visited : gset string)
    (queue : list (string * Z)) (subgraph : TypedGraph) : option (res TypedGraph) :=
  match queue with
  | [] => Some (Ok subgraph)
  | (node_id, depth) :: queue' =>
      match fuel with
      | O => None
      | S fuel' =>
          if bool_decide (node_id ∈ visited) then
            subgraph_loop fuel' g max_depth visited queue' subgraph
          else if Z.leb 0 max_depth && Z.ltb max_depth depth then
            subgraph_loop fuel' g max_depth visited queue' subgraph
          else
            let body : M TypedGraph (list (string * Z)) :=
              _ ← (match get_node g node_id with Some n => add_node n | None => mret tt end);
              es ← lift_res (get_outgoing_edges g node_id);
              subgraph_edges g depth es queue' in
            match body subgraph with
            | (Raise x, _) => Some (Raise x)
            | (Ok queue'', subgraph') =>
                subgraph_loop fuel' g max_depth ({[node_id]} ∪ visited) queue'' subgraph'
            end
      end
  end.

Definition get_subgraph (g : TypedGraph) (root_id : string) (max_depth : Z) :
    option (res TypedGraph) :=
  subgraph_loop (S (edge_count g)) g max_depth ∅ [(root_id, 0%Z)] empty_graph.

(** ** Lemmas *)

Lemma with_clone_built g body k :
  graph_ok g ->
  with_clone g body k = match body {| new_graph := g; uuids := k |} with
                        | (Ok _, s) => (Ok (new_graph s), uuids s)
                        | (Raise x, s) => (Raise x, uuids s)
                        end.
Proof. intros Hg. unfold with_clone. by rewrite clone_ok. Qed.

Lemma collect_edges_ok s ks :
  graph_ok (new_graph s) -> exists es, collect_edges ks s = (Ok es, s).
Proof.
  intros Hg. induction ks as [|k ks [es IH]]; [by eexists|].
  cbn [collect_edges]. unfold lift_graph, mbind, M_bind.
  rewrite get_incoming_edges_spec, get_outgoing_edges_spec by done. rewrite IH. by eexists.
Qed.

(** Queued nodes at depth [d], other than [r], already in the subgraph. *)
Definition queued_present (g sub : TypedGraph) (r : string) (d : Z) (queue : list (string * Z)) : Prop :=
  forall k z, (k, z) ∈ queue -> z = d /\ k <> r /\ k ∈ dkeys (g_nodes sub) /\ k ∈ dkeys (g_nodes g).

Lemma subgraph_edges_outcome g r d es queue sub :
  r ∈ dkeys (g_nodes sub) ->
  graph_ok g -> graph_ok sub -> (forall e, e ∈ es -> e ∈ edges g) ->
  queued_present g sub r (d + 1) queue ->
  match subgraph_edges g d es queue sub with
  | (Ok queue', sub') => graph_ok sub' /\ queued_present g sub' r (d + 1) queue' /\
      exists new, queue' = queue ++ new /\ (es <> [] -> new <> [])
  | (Raise x, _) => exists m, x = ValueError m
  end.
Proof.
  intros Hr Hg. revert queue sub Hr. induction es as [|e es IH]; intros queue sub Hr Hs Hes Hq;
    cbn [subgraph_edges].
  { split_and!; [done|done|]. exists []. by rewrite app_nil_r. }
  destruct (edge_endpoints g e Hg) as [_ Ht]; [apply Hes; left|].
  destruct (get_node g (target_id e)) as [tn|] eqn:E.
  2: { by apply dget_None in E. }
  pose proof (get_node_id _ _ _ Hg E) as Hid.
  unfold mbind, M_bind. pose proof (add_node_spec sub tn Hs) as Hn.
  destruct (add_node tn sub) as [[[]|x] sub1]; [|destruct Hn as [-> _]; by eexists].
  destruct Hn as (Hnew & Hs1 & En & _). pose proof (add_edge_spec sub1 e Hs1) as Hae.
  destruct (add_edge e sub1) as [[[]|x] sub2].
  2: { destruct Hae as (_ & [m ->] & _). by eexists. }
  destruct Hae as (_ & _ & _ & Hs2 & En2 & _).
  assert (Hq2 : queued_present g sub2 r (d + 1) (queue ++ [(target_id e, d + 1)%Z])).
  { intros k z [Hin|Hin]%elem_of_app.
    - destruct (Hq _ _ Hin) as (-> & ? & Hk & ?). split_and!; [done|done| |done].
      rewrite En2, En, dkeys_app. set_solver.
    - apply list_elem_of_singleton in Hin. injection Hin as -> ->.
      split_and!; [done|congruence| |done]. rewrite En2, En, dkeys_app, Hid. set_solver. }
  assert (Hr2 : r ∈ dkeys (g_nodes sub2)) by (rewrite En2, En, dkeys_app; set_solver).
  specialize (IH _ _ Hr2 Hs2 (fun e' He' => Hes _ (list_elem_of_further _ _ _ He')) Hq2).
  destruct (subgraph_edges g d es _ sub2) as [[q|x] sub']; [|done].
  destruct IH as (? & ? & new & -> & _). split_and!; [done|done|].
  exists ((target_id e, d + 1)%Z :: new). by rewrite <- app_assoc.
Qed.

(** A step that takes up a queued node already in the subgraph raises. *)
Lemma subgraph_loop_collision fuel g max_depth visited k d queue sub :
  graph_ok sub -> k ∉ visited -> k ∈ dkeys (g_nodes g) -> k ∈ dkeys (g_nodes sub) ->
  graph_ok g -> (Z.leb 0 max_depth && Z.ltb max_depth d = false) ->
  exists m, subgraph_loop (S fuel) g max_depth visited ((k, d) :: queue) sub
            = Some (Raise (ValueError m)).
Proof.
  intros Hs Hv Hk Hks Hg Hd. cbn [subgraph_loop].
  rewrite bool_decide_eq_false_2 by done. rewrite Hd.
  destruct (get_node g k) as [n|] eqn:E; [|by apply dget_None in E].
  pose proof (get_node_id _ _ _ Hg E) as <-. unfold mbind, M_bind.
  unfold add_node. rewrite (proj2 (dmem_true _ _)) by done. by eexists.
Qed.


Definition no_edges (g : TypedGraph) (n : GraphNode) : bool :=
  match out_edges g (n_id n), in_edges g (n_id n) with [], [] => true | _, _ => false end.

Lemma orphans_in_ok g ns : graph_ok g -> orphans_in g ns = Ok (List.filter (no_edges g) ns).
Proof.
  intros Hg. induction ns as [|n ns IH]; [done|]. cbn [orphans_in List.filter]. unfold no_edges at 1.
  rewrite get_outgoing_edges_spec, get_incoming_edges_spec by done. cbn [mbind res_bind].
  destruct (out_edges g (n_id n)); cbn [mbind res_bind]; rewrite IH; cbn [mbind res_bind];
    [by destruct (in_edges g (n_id n))|done].
Qed.

Lemma elem_in_edges g a e : e ∈ in_edges g a <-> e ∈ edges g /\ target_id e = a.
Proof. unfold in_edges. by rewrite !list_elem_of_In, filter_In, bool_decide_eq_true. Qed.

Lemma elem_dependency_ends g far es n :
  graph_ok g ->
  n ∈ dependency_ends g far es <->
  get_node g (n_id n) = Some n /\
  exists e, e ∈ es /\ edge_type e = E_DEPENDS_ON /\ far e = n_id n.
Proof.
  intros Hg. unfold dependency_ends. rewrite list_elem_of_omap. split.
  - intros (e & He & Hn). case_bool_decide; [|done].
    pose proof (get_node_id _ _ _ Hg Hn) as Hid. rewrite Hid. eauto.
  - intros (Hn & e & He & Ht & Hf). exists e. split; [done|].
    simpl. rewrite bool_decide_eq_true_2 by done. congruence.
Qed.

(** ** Properties *)

(** [get_subgraph] cannot return a subgraph: whenever the root has an
    outgoing edge and the depth is not limited to zero, it adds the edge's
    target to the subgraph, queues it, and adds it a second time when it is
    taken from the queue, so the call ends with the ValueError of
    [TypedGraph.add_node]. *)
Theorem get_subgraph_collides g root max_depth e :
  built g -> e ∈ edges g -> source_id e = root -> max_depth <> 0%Z ->
  exists m, get_subgraph g root max_depth = Some (Raise (ValueError m)).
Proof.
  intros Hg%built_ok He Hsrc Hd. unfold get_subgraph.
  destruct (edge_endpoints g e Hg He) as [Hr _]. rewrite Hsrc in Hr.
  cbn [subgraph_loop]. rewrite bool_decide_eq_false_2 by set_solver.
  assert (Hz : (Z.leb 0 max_depth && Z.ltb max_depth 0 = false)%Z) by lia.
  rewrite Hz. destruct (get_node g root) as [n|] eqn:E; [|by apply dget_None in E].
  pose proof (get_node_id _ _ _ Hg E) as Hid. unfold mbind, M_bind, lift_res.
  pose proof (add_node_spec empty_graph n empty_graph_ok) as Hn.
  destruct (add_node n empty_graph) as [[[]|x] sub]; [|destruct Hn as [-> _]; by eexists].
  destruct Hn as (_ & Hs & En & _). rewrite get_outgoing_edges_spec by done.
  pose proof (subgraph_edges_outcome g root 0 (out_edges g root) [] sub) as Ho.
  destruct (subgraph_edges g 0 _ [] sub) as [[q|x] sub'].
  - destruct Ho as (Hs' & Hq & new & -> & Hne).
    + rewrite En, Hid. left.
    + done.
    + done.
    + intros e'. rewrite elem_out_edges. tauto.
    + intros k z Hin. by apply elem_of_nil in Hin.
    + assert (Hin : e ∈ out_edges g root) by (by rewrite elem_out_edges).
      destruct new as [|[k z] new].
      { exfalso. apply Hne; [|done]. intros H0. rewrite H0 in Hin. by apply elem_of_nil in Hin. }
      destruct (Hq k z ltac:(left)) as (-> & Hk & Hks & Hkg).
      unfold edge_count. destruct (g_edges g) as [|p es'] eqn:Ee.
      { unfold edges in He. rewrite Ee in He. by apply elem_of_nil in He. }
      apply subgraph_loop_collision; [done|set_solver|done|done|done|].
      apply andb_false_iff. lia.
  - destruct Ho as [m ->]; [rewrite En, Hid; left|done|done| | |by eexists].
    + intros e'. rewrite elem_out_edges. tauto.
    + intros k z Hin. by apply elem_of_nil in Hin.
Qed.

Lemma get_subgraph_collides_witness :
  exists m, get_subgraph (graph_of [sample_node "a"; sample_node "b"] [sample_edge "e" "a" "b"])
              "a" (-1) = Some (Raise (ValueError m)).
Proof.
  apply (get_subgraph_collides _ _ _ (sample_edge "e" "a" "b")).
  - apply graph_of_built.
  - vm_compute. left.
  - reflexivity.
  - lia.
Defined.

(** The operations that remove or replace something never return a graph:
    [remove_node], [remove_edge], [replace_node], [merge_nodes] of a non-empty
    list, and [retype_edge] of an existing edge all end with the AttributeError
    of the missing method, and they draw no uuid before it. *)
Theorem removal_operations_raise uuid_hex g k node_id edge_id n e node_ids t :
  built g -> node_ids <> [] -> get_edge g edge_id = Some e ->
  let no_method name :=
    AttributeError ("'TypedGraph' object has no attribute '" +:+ name +:+ "'") in
  op_remove_node g node_id k = (Raise (no_method "remove_node"), k) /\
  op_remove_edge g edge_id k = (Raise (no_method "remove_edge"), k) /\
  replace_node uuid_hex g node_id n k = (Raise (no_method "remove_node"), k) /\
  merge_nodes uuid_hex g node_ids n k = (Raise (no_method "remove_node"), k) /\
  retype_edge g edge_id t k = (Raise (no_method "remove_edge"), k).
Proof.
  intros Hg%built_ok Hne He no_method.
  unfold op_remove_node, op_remove_edge, replace_node, merge_nodes, retype_edge.
  rewrite !with_clone_built by done. split_and!; [done|done| | |].
  - unfold lift_graph, mbind, M_bind. cbn [new_graph].
    rewrite get_incoming_edges_spec, get_outgoing_edges_spec by done. done.
  - destruct (collect_edges_ok {| new_graph := g; uuids := k |} node_ids Hg) as [es E].
    unfold mbind, M_bind. rewrite E. by destruct node_ids.
  - unfold gets, mbind, M_bind. cbn [new_graph]. by rewrite He.
Qed.

Lemma removal_operations_raise_witness :
  let g := graph_of [sample_node "a"; sample_node "b"] [sample_edge "e" "a" "b"] in
  retype_edge g "e" E_TESTS 0%nat
  = (Raise (AttributeError "'TypedGraph' object has no attribute 'remove_edge'"), 0%nat).
Proof.
  intros g.
  refine (proj2 (proj2 (proj2 (proj2 (removal_operations_raise (fun _ => "0") g 0%nat "a" "e"
    (sample_node "c") (sample_edge "e" "a" "b") ["a"] E_TESTS _ _ _))))).
  - apply graph_of_built.
  - discriminate.
  - reflexivity.
Defined.

(** The dependency queries answer for the edge table: [find_dependencies]
    and [find_dependents] return exactly the existing nodes at the far end of a
    DEPENDS_ON edge, [find_orphaned_nodes] exactly the nodes that no edge
    touches, and the degrees count the edges; none of them raises. *)
Theorem queries_correct g k :
  built g ->
  (exists ds, find_dependencies g k = Ok ds /\
     forall n, n ∈ ds <-> get_node g (n_id n) = Some n /\ dep g E_DEPENDS_ON k (n_id n)) /\
  (exists ds, find_dependents g k = Ok ds /\
     forall n, n ∈ ds <-> get_node g (n_id n) = Some n /\ dep g E_DEPENDS_ON (n_id n) k) /\
  (exists os, find_orphaned_nodes g = Ok os /\
     forall n, n ∈ os <-> n ∈ nodes g /\
       forall e, e ∈ edges g -> source_id e <> n_id n /\ target_id e <> n_id n) /\
  compute_in_degree g k
  = Ok (length (List.filter (fun e => bool_decide (target_id e = k)) (edges g))).
Proof.
  intros Hg%built_ok. unfold find_dependencies, find_dependents, find_orphaned_nodes, compute_in_degree.
  rewrite get_outgoing_edges_spec, get_incoming_edges_spec, orphans_in_ok by done.
  cbn [mbind res_bind]. split_and!; [| | |done]; eexists; (split; [reflexivity|]); intros n.
  - rewrite elem_dependency_ends by done. apply and_iff_compat_l. unfold dep.
    setoid_rewrite elem_out_edges. naive_solver.
  - rewrite elem_dependency_ends by done. apply and_iff_compat_l. unfold dep.
    setoid_rewrite elem_in_edges. naive_solver.
  - rewrite list_elem_of_In, filter_In, <- list_elem_of_In. apply and_iff_compat_l.
    unfold no_edges. pose proof (elem_out_edges g (n_id n)) as Ho.
    pose proof (elem_in_edges g (n_id n)) as Hi.
    destruct (out_edges g (n_id n)) as [|e1 l1].
    + destruct (in_edges g (n_id n)) as [|e2 l2].
      * split; [|done]. intros _ e He. split; intros Hs.
        -- specialize (proj2 (Ho e) (conj He Hs)). by rewrite elem_of_nil.
        -- specialize (proj2 (Hi e) (conj He Hs)). by rewrite elem_of_nil.
      * split; [done|]. intros H. destruct (proj1 (Hi e2) ltac:(left)) as [He2 Ht].
        by destruct (H e2 He2) as [_ []].
    + split; [done|]. intros H. destruct (proj1 (Ho e1) ltac:(left)) as [He1 Hs].
      by destruct (H e1 He1) as [[] _].
Qed.

Lemma queries_correct_witness :
  exists ds, find_dependencies (graph_of [sample_node "a"; sample_node "b"] [sample_edge "e" "a" "b"])
               "a" = Ok ds /\ sample_node "b" ∈ ds.
Proof.
  destruct (queries_correct
    (graph_of [sample_node "a"; sample_node "b"] [sample_edge "e" "a" "b"]) "a")
    as ((ds & E & H) & _); [apply graph_of_built|].
  exists ds. split; [exact E|]. apply H. split; [reflexivity|].
  exists (sample_edge "e" "a" "b"). split_and!; try reflexivity. vm_compute. left.
Defined.
