(* ===== verification/IsrValidation.v ===== *)
(** * ISR validation

    [isr/types/type_system.py], [isr/types/type_checker.py] and [isr/validation/]:
    the type system of connections, the six architectural invariants, the rules
    and the validator, over the verified traversals.  [None] is a traversal whose
    fuel ran out.  The order in which a set is iterated is an argument; labels are
    ASCII. *)

From S2P Require Import Prelude PyFloat PyVal PyText PyJson IsrModel TypedGraph.
From S2P Require Import GraphSearch GraphOrder GraphCycles.
Open Scope Z_scope.

(** A computation with traversals in it: out of fuel, an exception, or a value. *)
Definition run (A : Type) : Type := option (res A).
Definition lift_run {A} (r : res A) : run A := Some r.
Definition bind_run {A B} (m : run A) (k : A -> run B) : run B :=
  match m with
  | None => None
  | Some (Raise e) => Some (Raise e)
  | Some (Ok a) => k a
  end.
Notation "x ⇐ m ; k" := (bind_run m (fun x => k))
  (at level 20, m at level 100, k at level 200, right associativity).

Fixpoint map_run {A B} (f : A -> run B) (xs : list A) : run (list B) :=
  match xs with
  | [] => Some (Ok [])
  | x :: xs' => y ⇐ f x; ys ⇐ map_run f xs'; Some (Ok (y :: ys))
  end.

(** ** Names *)

Definition node_type_value (t : NodeType) : string :=
  match t with
  | N_SYSTEM => "system" | N_MODULE => "module" | N_ENTITY => "entity" | N_SERVICE => "service"
  | N_WORKFLOW => "workflow" | N_POLICY => "policy" | N_INTERFACE => "interface"
  | N_EVENT => "event" | N_DEPLOYMENT => "deployment" | N_CONSTRAINT => "constraint"
  | N_FIELD => "field" | N_OPERATION => "operation" | N_STATE => "state"
  | N_TRANSITION => "transition" | N_RULE => "rule" | N_PERMISSION => "permission"
  | N_ENDPOINT => "endpoint" | N_CONFIGURATION => "configuration"
  | N_DOCUMENTATION => "documentation" | N_TEST_STRATEGY => "test_strategy"
  end.

Definition edge_type_value (t : EdgeType) : string :=
  match t with
  | E_OWNS => "owns" | E_DEPENDS_ON => "depends_on" | E_EMITS => "emits"
  | E_CONSUMES => "consumes" | E_REFERENCES => "references" | E_IMPLEMENTS => "implements"
  | E_SECURED_BY => "secured_by" | E_DEPLOYS_TO => "deploys_to"
  | E_ORCHESTRATES => "orchestrates" | E_CONSTRAINS => "constrains" | E_CONTAINS => "contains"
  | E_TRANSITIONS_TO => "transitions_to" | E_TRIGGERS => "triggers"
  | E_VALIDATES => "validates" | E_DOCUMENTS => "documents" | E_TESTS => "tests"
  end.

(** [str(v)] inside an f-string. *)
Definition text_of `{Texts} (v : pyval) : string :=
  match v with VStr s => s | _ => py_str v end.

(** ** Diagnostics *)

Inductive DiagnosticSeverity : Set := DS_INFO | DS_WARNING | DS_ERROR | DS_FATAL.
#[export] Instance DiagnosticSeverity_eq_dec : EqDecision DiagnosticSeverity.
Proof. solve_decision. Defined.
Definition is_error_or_above (s : DiagnosticSeverity) : bool := mem s [DS_ERROR; DS_FATAL].

Record DiagnosticLocation : Set := {
  dl_node_id : string; dl_node_type : string; dl_path : string; dl_edge_id : option string }.
Definition default_location : DiagnosticLocation :=
  {| dl_node_id := ""; dl_node_type := ""; dl_path := ""; dl_edge_id := None |}.

Record Diagnostic : Set := {
  dg_code : string; dg_message : string; dg_severity : DiagnosticSeverity;
  dg_location : DiagnosticLocation; dg_suggested_fix : string;
  dg_related_nodes : list string; dg_documentation_url : string }.

Definition diagnostic (code message : string) (severity : DiagnosticSeverity)
    (location : DiagnosticLocation) (fix_ : string) : Diagnostic := {|
  dg_code := code; dg_message := message; dg_severity := severity; dg_location := location;
  dg_suggested_fix := fix_; dg_related_nodes := []; dg_documentation_url := "" |}.

Definition at_node (node_id node_type path : string) : DiagnosticLocation :=
  {| dl_node_id := node_id; dl_node_type := node_type; dl_path := path; dl_edge_id := None |}.
Definition at_edge (edge_id : string) : DiagnosticLocation :=
  {| dl_node_id := ""; dl_node_type := ""; dl_path := ""; dl_edge_id := Some edge_id |}.

Definition severity_name (s : DiagnosticSeverity) : string :=
  match s with
  | DS_INFO => "INFO" | DS_WARNING => "WARNING" | DS_ERROR => "ERROR" | DS_FATAL => "FATAL"
  end.

(** [Diagnostic.__str__]. *)
Definition diagnostic_text (d : Diagnostic) : string :=
  let path := dl_path (dg_location d) in
  "[" +:+ dg_code d +:+ "] " +:+ severity_name (dg_severity d) +:+
  (if truthy path then " at " +:+ path else "") +:+ ": " +:+ dg_message d +:+
  (if truthy (dg_suggested_fix d)
   then String (Ascii.ascii_of_nat 10) ("  Suggested fix: " +:+ dg_suggested_fix d) else "").

(** [DiagnosticsCollector]: the list of diagnostics added so far. *)
Definition collector_add (d : Diagnostic) : M (list Diagnostic) unit :=
  modify (fun ds => ds ++ [d]).
Definition collector_errors (ds : list Diagnostic) : list Diagnostic :=
  List.filter (fun d => is_error_or_above (dg_severity d)) ds.
Definition collector_warnings (ds : list Diagnostic) : list Diagnostic :=
  List.filter (fun d => bool_decide (dg_severity d = DS_WARNING)) ds.
Definition has_errors (ds : list Diagnostic) : bool :=
  existsb (fun d => is_error_or_above (dg_severity d)) ds.
Definition collector_clear : M (list Diagnostic) unit := modify (fun _ => []).

(** ** The type system *)

Record TypeViolation : Set := {
  tv_source_id : string; tv_source_type : NodeType; tv_edge_type : EdgeType;
  tv_target_id : string; tv_target_type : NodeType; tv_message : string;
  tv_severity : string; tv_suggested_fix : string }.

Record TypeCheckResult : Set := {
  tc_is_valid : bool; tc_violations : list TypeViolation; tc_warnings : list TypeViolation;
  tc_nodes_checked : nat; tc_edges_checked : nat }.

(** [_build_rules]: the set [_valid_rules] is the list without repetitions. *)
Definition build_rules : list (NodeType * EdgeType * NodeType) :=
  remove_dups (concat (map (fun '(edge_type, definition) =>
    concat (map (fun source => map (fun target => (source, edge_type, target))
                                 (valid_targets definition)) (valid_sources definition)))
    EDGE_DEFINITIONS)).

Section TypeSystem.
(** The order in which a set of node types is iterated. *)
Variable set_order : list NodeType -> list NodeType.

Definition is_valid_connection_rule (source : NodeType) (edge : EdgeType) (target : NodeType)
    : bool := mem (source, edge, target) build_rules.

Definition get_valid_targets (source : NodeType) (edge : EdgeType) : list NodeType :=
  set_order (remove_dups (map snd (List.filter
    (fun r => bool_decide (r.1.1 = source) && bool_decide (r.1.2 = edge)) build_rules))).
Definition get_valid_sources (edge : EdgeType) (target : NodeType) : list NodeType :=
  set_order (remove_dups (map (fun r => r.1.1) (List.filter
    (fun r => bool_decide (r.1.2 = edge) && bool_decide (r.2 = target)) build_rules))).

Definition check_connection (source : string) (source_type : NodeType) (edge : EdgeType)
    (target : string) (target_type : NodeType) : option TypeViolation :=
  if is_valid_connection_rule source_type edge target_type then None
  else
    let targets := get_valid_targets source_type edge in
    let sources := get_valid_sources edge target_type in
    let message := "Invalid edge '" +:+ edge_type_value edge +:+ "' from " +:+
      node_type_value source_type +:+ " '" +:+ source +:+ "' to " +:+
      node_type_value target_type +:+ " '" +:+ target +:+ "'." in
    let suggested_fix := match targets, sources with
      | _ :: _, _ => "Valid targets for " +:+ node_type_value source_type +:+ " --" +:+
          edge_type_value edge +:+ "--> are: " +:+
          String.concat ", " (map node_type_value targets) +:+ "."
      | [], _ :: _ => "Valid sources for --" +:+ edge_type_value edge +:+ "--> " +:+
          node_type_value target_type +:+ " are: " +:+
          String.concat ", " (map node_type_value sources) +:+ "."
      | [], [] => ""
      end in
    Some {| tv_source_id := source; tv_source_type := source_type; tv_edge_type := edge;
            tv_target_id := target; tv_target_type := target_type; tv_message := message;
            tv_severity := "error"; tv_suggested_fix := suggested_fix |}.

(** The body of the loop over the edges. *)
Definition check_edge (g : TypedGraph) (e : GraphEdge) : option TypeViolation :=
  match get_node g (source_id e), get_node g (target_id e) with
  | Some s, Some t =>
      check_connection (source_id e) (node_type s) (edge_type e) (target_id e) (node_type t)
  | s, t =>
      let type_or_system n := match n with Some x => node_type x | None => N_SYSTEM end in
      Some {| tv_source_id := source_id e; tv_source_type := type_or_system s;
              tv_edge_type := edge_type e; tv_target_id := target_id e;
              tv_target_type := type_or_system t;
              tv_message := "Edge '" +:+ e_id e +:+ "' references non-existent node";
              tv_severity := "error"; tv_suggested_fix := "" |}
  end.

Definition type_check (g : TypedGraph) : TypeCheckResult :=
  let found := omap (check_edge g) (edges g) in
  let is_warning v := bool_decide (tv_severity v = "warning") in
  let violations := List.filter (fun v => negb (is_warning v)) found in
  {| tc_is_valid := match violations with [] => true | _ => false end;
     tc_violations := violations; tc_warnings := List.filter is_warning found;
     tc_nodes_checked := node_count g; tc_edges_checked := length (edges g) |}.
End TypeSystem.

(** ** The invariants *)

Record InvariantResult : Set := {
  ir_invariant_name : string; ir_passed : bool; ir_diagnostics : list Diagnostic }.

(** [InvariantResult(name, len(diagnostics) == 0, tuple(diagnostics))]. *)
Definition invariant_result (name : string) (ds : list Diagnostic) : InvariantResult :=
  {| ir_invariant_name := name; ir_passed := match ds with [] => true | _ => false end;
     ir_diagnostics := ds |}.

Definition ARROW : string := " → ".

Definition check_dependency_acyclicity (g : TypedGraph) (order : list string)
    : run InvariantResult :=
  found ⇐ detect_cycles g E_DEPENDS_ON order;
  Some (Ok (invariant_result "dependency_acyclicity" (map (fun cycle =>
    diagnostic "ISR-INV-001"
      ("Circular dependency detected: " +:+ String.concat ARROW cycle) DS_ERROR
      {| dl_node_id := match cycle with c :: _ => c | [] => "" end; dl_node_type := "";
         dl_path := String.concat ARROW cycle; dl_edge_id := None |}
      "Break the cycle by introducing an interface, extracting a shared module, or using event-driven communication.")
    found))).

Abbreviation node_key := (string * NodeType * option string)%type.
Definition key_of (n : GraphNode) : node_key := (lower (label n), node_type n, parent_id n).

Fixpoint unique_loop (ns : list GraphNode) (seen : list (node_key * string)) : list Diagnostic :=
  match ns with
  | [] => []
  | node :: ns' =>
      match dget (key_of node) seen with
      | Some other =>
          if truthy (label node) then
            diagnostic "ISR-INV-002"
              ("Duplicate " +:+ node_type_value (node_type node) +:+ " '" +:+ label node +:+
               "' (IDs: '" +:+ other +:+ "' and '" +:+ n_id node +:+ "')") DS_ERROR
              (at_node (n_id node) (node_type_value (node_type node)) "")
              "Rename one of the duplicate nodes or merge them."
            :: unique_loop ns' seen
          else unique_loop ns' (dset (key_of node) (n_id node) seen)
      | None => unique_loop ns' (dset (key_of node) (n_id node) seen)
      end
  end.

Definition check_unique_identifiers (g : TypedGraph) : InvariantResult :=
  invariant_result "unique_identifiers" (unique_loop (nodes g) []).

Definition check_referential_integrity (g : TypedGraph) : InvariantResult :=
  let node_ids := map n_id (nodes g) in
  let missing e which node_id :=
    if mem node_id node_ids then []
    else [diagnostic "ISR-INV-003" ("Edge '" +:+ e_id e +:+ "' references non-existent " +:+
            which +:+ " '" +:+ node_id +:+ "'") DS_ERROR (at_edge (e_id e)) ""] in
  invariant_result "referential_integrity"
    (concat (map (fun e => missing e "source" (source_id e) ++ missing e "target" (target_id e))
               (edges g))).

Definition is_transition (e : GraphEdge) : bool := bool_decide (edge_type e = E_TRANSITIONS_TO).

Definition states_of (g : TypedGraph) (wf_node : GraphNode) : list GraphNode :=
  List.filter (fun n => bool_decide (node_type n = N_STATE)
                        && bool_decide (parent_id n = Some (n_id wf_node))) (nodes g).

Definition is_initial (s : GraphNode) : bool :=
  py_eq (dget_or "state_type" (n_attributes s) VNone) (VStr "initial").

(** The body of the loop over the workflows. *)
Definition check_workflow (g : TypedGraph) (wf_node : GraphNode) : run (list Diagnostic) :=
  match states_of g wf_node with
  | [] => Some (Ok [])
  | states =>
      match List.filter is_initial states with
      | [] => Some (Ok [diagnostic "ISR-INV-004"
                ("Workflow '" +:+ label wf_node +:+ "' has no initial state") DS_ERROR
                (at_node (n_id wf_node) "workflow" (label wf_node))
                "Add a state with state_type='initial'."])
      | initial_states =>
          visited ⇐ map_run (fun initial => bfs g (n_id initial) (Some is_transition))
                      initial_states;
          let reachable := map n_id (concat visited) in
          Some (Ok (map (fun state =>
            diagnostic "ISR-INV-004"
              ("State '" +:+ label state +:+ "' in workflow '" +:+ label wf_node +:+
               "' is not reachable from any initial state") DS_WARNING
              (at_node (n_id state) "state" (label wf_node +:+ " > " +:+ label state))
              "Add a transition to this state or remove it.")
            (List.filter (fun state => negb (mem (n_id state) reachable)) states)))
      end
  end.

Definition check_workflow_reachability (g : TypedGraph) : run InvariantResult :=
  diagnostics ⇐ map_run (check_workflow g) (get_nodes_by_type g N_WORKFLOW);
  Some (Ok (invariant_result "workflow_reachability" (concat diagnostics))).

Section Permissions.
Context `{Texts}.

(** [perm not in defined_permissions]: a set of texts; an unhashable value
    raises. *)
Definition undefined_permission (defined : list string) (perm : pyval) : res bool :=
  match perm with
  | VStr s => Ok (negb (mem s defined))
  | VList _ | VDict _ => Raise (TypeError ("unhashable type: '" +:+ type_name perm +:+ "'"))
  | _ => Ok true
  end.

Definition check_permission (defined : list string) (node : GraphNode) (perm : pyval)
    : res (list Diagnostic) :=
  undefined ← undefined_permission defined perm;
  mret (if undefined : bool then
    [diagnostic "ISR-INV-005"
       ("Endpoint '" +:+ label node +:+ "' references undefined permission '" +:+
        text_of perm +:+ "'") DS_ERROR
       (at_node (n_id node) "endpoint" (label node))
       ("Define permission '" +:+ text_of perm +:+ "' in a Policy.")]
  else []).

Definition check_endpoint (defined : list string) (node : GraphNode) : res (list Diagnostic) :=
  required_perms ← iter_of (dget_or "required_permissions" (n_attributes node) (VList []));
  found ← map_res (check_permission defined node) required_perms;
  mret (concat found).

Definition check_permission_consistency (g : TypedGraph) : res InvariantResult :=
  let defined_permissions := map label (get_nodes_by_type g N_PERMISSION) in
  found ← map_res (check_endpoint defined_permissions) (get_nodes_by_type g N_ENDPOINT);
  mret (invariant_result "permission_consistency" (concat found)).

(** The invariant passes whatever it finds. *)
Definition owns_entity (g : TypedGraph) (e : GraphEdge) : bool :=
  bool_decide (edge_type e = E_OWNS) &&
  match get_node g (target_id e) with
  | Some n => bool_decide (node_type n = N_ENTITY)
  | None => false
  end.

Definition check_module_has_entities (g : TypedGraph) : res InvariantResult :=
  found ← map_res (fun module_ =>
    es ← get_outgoing_edges g (n_id module_);
    mret (if existsb (owns_entity g) es then []
          else [diagnostic "ISR-INV-006" ("Module '" +:+ label module_ +:+ "' owns no entities")
                  DS_WARNING (at_node (n_id module_) "module" (label module_))
                  "Add entities to this module or reconsider its purpose."]))
    (get_nodes_by_type g N_MODULE);
  mret {| ir_invariant_name := "module_has_entities"; ir_passed := true;
          ir_diagnostics := concat found |}.

Definition check_all (g : TypedGraph) (order : list string) : run (list InvariantResult) :=
  r1 ⇐ check_dependency_acyclicity g order;
  r4 ⇐ check_workflow_reachability g;
  r5 ⇐ lift_run (check_permission_consistency g);
  r6 ⇐ lift_run (check_module_has_entities g);
  Some (Ok [r1; check_unique_identifiers g; check_referential_integrity g; r4; r5; r6]).
End Permissions.

(** ** Rules *)

Record RuleResult : Set := {
  rr_rule_name : string; rr_passed : bool; rr_diagnostics : list Diagnostic }.

(** The abstract class [ValidationRule]. *)
Record ValidationRule : Type := {
  rule_name : string; rule_description : string; rule_check : TypedGraph -> run RuleResult }.

Definition passed (name : string) : RuleResult :=
  {| rr_rule_name := name; rr_passed := true; rr_diagnostics := [] |}.

Definition CrossModuleReferenceRule : ValidationRule := {|
  rule_name := "cross_module_reference";
  rule_description := "Cross-module references must go through explicit interfaces";
  rule_check _ := Some (Ok (passed "cross_module_reference")) |}.

Definition DeploymentCompletenessRule : ValidationRule := {|
  rule_name := "deployment_completeness";
  rule_description := "Deployment configuration must satisfy minimum requirements";
  rule_check _ := Some (Ok (passed "deployment_completeness")) |}.

Definition check_interface (g : TypedGraph) (iface : GraphNode) : res (list Diagnostic) :=
  if val_truthy (dget_or "is_internal" (n_attributes iface) (VBool false)) then Ok []
  else
    es ← get_outgoing_edges g (n_id iface);
    mret (if existsb (fun e => bool_decide (edge_type e = E_SECURED_BY)) es then []
          else [diagnostic "ISR-SEC-001"
                  ("Public interface '" +:+ label iface +:+ "' has no security policy")
                  DS_WARNING (at_node (n_id iface) "interface" (label iface))
                  "Add a SECURED_BY edge to a Policy node."]).

Definition interface_security (g : TypedGraph) : res RuleResult :=
  found ← map_res (check_interface g) (get_nodes_by_type g N_INTERFACE);
  let ds := concat found in
  mret {| rr_rule_name := "interface_security";
          rr_passed := match ds with [] => true | _ => false end; rr_diagnostics := ds |}.

Definition InterfaceSecurityRule : ValidationRule := {|
  rule_name := "interface_security";
  rule_description := "Public interfaces must have a security policy";
  rule_check g := lift_run (interface_security g) |}.

(** ** The validator *)

Record ValidationResult : Set := {
  vr_is_valid : bool; vr_type_check : TypeCheckResult;
  vr_invariant_results : list InvariantResult; vr_rule_results : list RuleResult;
  vr_diagnostics : list Diagnostic }.

Definition violation_diagnostic (v : TypeViolation) : Diagnostic :=
  diagnostic "ISR-TYPE-001" (tv_message v) DS_ERROR
    (at_node (tv_source_id v) (node_type_value (tv_source_type v)) "") (tv_suggested_fix v).

Definition all_diagnostics (r : ValidationResult) : list Diagnostic :=
  vr_diagnostics r ++ concat (map ir_diagnostics (vr_invariant_results r))
  ++ concat (map rr_diagnostics (vr_rule_results r))
  ++ map violation_diagnostic (tc_violations (vr_type_check r)).

Definition errors (r : ValidationResult) : list Diagnostic :=
  List.filter (fun d => bool_decide (dg_severity d = DS_ERROR)) (all_diagnostics r).
Definition warnings (r : ValidationResult) : list Diagnostic :=
  List.filter (fun d => bool_decide (dg_severity d = DS_WARNING)) (all_diagnostics r).

Definition validate `{Texts} (set_order : list NodeType -> list NodeType) (rules : list ValidationRule)
    (g : TypedGraph) (order : list string) : run ValidationResult :=
  let type_result := type_check set_order g in
  invariant_results ⇐ check_all g order;
  rule_results ⇐ map_run (fun rule => rule_check rule g) rules;
  let has_type_errors := negb (tc_is_valid type_result) in
  let has_invariant_errors := existsb (fun r => negb (ir_passed r)) invariant_results in
  let has_rule_errors := existsb (fun r => negb (rr_passed r)) rule_results in
  Some (Ok {| vr_is_valid := negb has_type_errors && negb has_invariant_errors
                             && negb has_rule_errors;
              vr_type_check := type_result; vr_invariant_results := invariant_results;
              vr_rule_results := rule_results; vr_diagnostics := [] |}).
