(* ===== verification/IsrValidationSpec.v ===== *)
(** * ISR validation: theorems

    The validator against a reference definition of a well-formed architecture,
    composed from the theorems on cycle detection and search. *)

From S2P Require Import Prelude PyFloat PyVal PyText PyJson IsrModel TypedGraph.
From S2P Require Import GraphSearch GraphOrder GraphCycles IsrValidation.
Open Scope Z_scope.

(** ** Runs *)

Lemma map_run_ok {A B} (f : A -> run B) (P : A -> B -> Prop) xs :
  (forall x, x ∈ xs -> exists y, f x = Some (Ok y) /\ P x y) ->
  exists ys, map_run f xs = Some (Ok ys) /\ Forall2 P xs ys.
Proof.
  induction xs as [|x xs IH]; intros H; [by exists []|].
  destruct (H x) as (y & Ey & Hy); [by left|].
  destruct IH as (ys & Eys & Hys); [intros; apply H; by right|].
  exists (y :: ys). cbn [map_run]. rewrite Ey. cbn [bind_run]. rewrite Eys. split; [done|].
  by constructor.
Qed.

Lemma map_res_forall {A B} (f : A -> res B) (P : A -> B -> Prop) xs :
  (forall x, x ∈ xs -> exists y, f x = Ok y /\ P x y) ->
  exists ys, map_res f xs = Ok ys /\ Forall2 P xs ys.
Proof.
  induction xs as [|x xs IH]; intros H; [by exists []|].
  destruct (H x) as (y & Ey & Hy); [by left|].
  destruct IH as (ys & Eys & Hys); [intros; apply H; by right|].
  exists (y :: ys). cbn [map_res]. rewrite Ey. unfold mbind, res_bind. rewrite Eys.
  split; [done|]. by constructor.
Qed.

(** The findings of a loop are empty when those of every round are. *)
Lemma concat_nil_forall {A B} (Q : A -> Prop) (xs : list A) (ds : list (list B)) :
  Forall2 (fun x d => d = [] <-> Q x) xs ds -> concat ds = [] <-> Forall Q xs.
Proof.
  induction 1 as [|x d xs ds Hd _ IH]; simpl; [done|].
  rewrite Forall_cons, <- IH, <- Hd. destruct d; simpl; naive_solver.
Qed.

Lemma is_nil_true {A} (l : list A) : (match l with [] => true | _ => false end) = true <-> l = [].
Proof. by destruct l. Qed.

(** ** Well-formed architectures *)

(** A workflow with states has an initial state, and all its states are reachable
    from one by transitions. *)
Definition workflow_ok (g : TypedGraph) (w : GraphNode) : Prop :=
  states_of g w = [] \/
  (exists i, i ∈ states_of g w /\ is_initial i = true) /\
  forall s, s ∈ states_of g w ->
    exists i, i ∈ states_of g w /\ is_initial i = true /\
      reach g (Some is_transition) (n_id i) (n_id s).

Record well_formed (g : TypedGraph) : Prop := {
  wa_typed e : e ∈ edges g -> exists s t d,
    get_node g (source_id e) = Some s /\ get_node g (target_id e) = Some t /\
    dget (edge_type e) EDGE_DEFINITIONS = Some d /\
    is_valid_connection d (node_type s) (node_type t) = true;
  wa_acyclic a : ~ tc (dep g E_DEPENDS_ON) a a;
  wa_unique n m : n ∈ nodes g -> m ∈ nodes g -> n <> m -> label n <> "" -> key_of n <> key_of m;
  wa_workflows w : w ∈ nodes g -> node_type w = N_WORKFLOW -> workflow_ok g w;
  wa_permissions n ss : n ∈ nodes g -> node_type n = N_ENDPOINT ->
    dget_or "required_permissions" (n_attributes n) (VList []) = VList (map VStr ss) ->
    forall s, s ∈ ss -> exists p, p ∈ nodes g /\ node_type p = N_PERMISSION /\ label p = s;
}.

(** The permissions of every endpoint are a list of texts. *)
Definition permissions_typed (g : TypedGraph) : Prop :=
  forall n, n ∈ nodes g -> node_type n = N_ENDPOINT ->
    exists ss, dget_or "required_permissions" (n_attributes n) (VList []) = VList (map VStr ss).

Lemma by_type g t n : n ∈ get_nodes_by_type g t <-> n ∈ nodes g /\ node_type n = t.
Proof.
  unfold get_nodes_by_type. by rewrite list_elem_of_In, filter_In, <- list_elem_of_In, bool_decide_eq_true.
Qed.

(** ** Types *)

Lemma definitions_ok : dict_ok EDGE_DEFINITIONS.
Proof. apply (bool_decide_unpack _). vm_compute. exact I. Qed.

Lemma rule_of_definition s e t :
  is_valid_connection_rule s e t = true <->
  exists d, dget e EDGE_DEFINITIONS = Some d /\ is_valid_connection d s t = true.
Proof.
  unfold is_valid_connection_rule, build_rules. rewrite mem_true, elem_of_remove_dups.
  rewrite list_elem_of_In, in_concat. setoid_rewrite in_map_iff. split.
  - intros (l & ([e' d] & <- & Hd) & Hin). apply in_concat in Hin as (l' & Hl' & Hin).
    apply in_map_iff in Hl' as (s' & <- & Hs). apply in_map_iff in Hin as (t' & E & Ht).
    injection E as -> -> ->. exists d. split.
    + apply elem_dget; [exact definitions_ok|by apply list_elem_of_In].
    + unfold is_valid_connection. apply andb_true_iff. by rewrite !mem_true, !list_elem_of_In.
  - intros (d & Hd & Hv). unfold is_valid_connection in Hv.
    apply andb_true_iff in Hv as [Hs Ht]. rewrite mem_true, list_elem_of_In in Hs, Ht.
    eexists. split.
    + exists (e, d). split; [reflexivity|]. by apply list_elem_of_In, dget_elem.
    + apply in_concat. eexists. split; [|by apply in_map, Ht]. by apply in_map_iff; exists s.
Qed.

Lemma violations_are_errors set_order g e v :
  check_edge set_order g e = Some v -> tv_severity v = "error".
Proof.
  unfold check_edge. destruct (get_node g _), (get_node g _); try (by injection 1 as <-).
  unfold check_connection. destruct (is_valid_connection_rule _ _ _); [done|]. by injection 1 as <-.
Qed.

Lemma check_edge_none set_order g e :
  check_edge set_order g e = None <-> exists s t d,
    get_node g (source_id e) = Some s /\ get_node g (target_id e) = Some t /\
    dget (edge_type e) EDGE_DEFINITIONS = Some d /\
    is_valid_connection d (node_type s) (node_type t) = true.
Proof.
  unfold check_edge. destruct (get_node g (source_id e)) as [s|], (get_node g (target_id e)) as [t|];
    try (split; [done|intros (?&?&?&?&?&_); done]).
  unfold check_connection.
  pose proof (rule_of_definition (node_type s) (edge_type e) (node_type t)) as Hr.
  destruct (is_valid_connection_rule _ _ _).
  - split; [|done]. intros _. destruct (proj1 Hr eq_refl) as (d & ? & ?). by exists s, t, d.
  - split; [done|]. intros (s' & t' & d & Es & Et & Hd & Hv). simplify_eq.
    assert (false = true) by (apply Hr; eauto). done.
Qed.

Lemma type_check_valid set_order g :
  tc_is_valid (type_check set_order g) = true <->
  forall e, e ∈ edges g -> check_edge set_order g e = None.
Proof.
  cbn [type_check tc_is_valid]. rewrite is_nil_true. induction (edges g) as [|e es IH]; simpl.
  - split; [|done]. intros _ e He. by apply not_elem_of_nil in He.
  - setoid_rewrite elem_of_cons. destruct (check_edge set_order g e) as [v|] eqn:E.
    + cbn [List.filter]. rewrite (violations_are_errors _ _ _ _ E). cbn. split; [done|].
      intros H. rewrite H in E by (by left). done.
    + rewrite IH. naive_solver.
Qed.

(** ** Unique names *)

Lemma unique_loop_nil ns seen :
  unique_loop ns seen = [] <->
  forall i n, ns !! i = Some n -> truthy (label n) = true ->
    (key_of n ∉ dkeys seen) /\ forall j m, (j < i)%nat -> ns !! j = Some m -> key_of m <> key_of n.
Proof.
  revert seen. induction ns as [|x ns IH]; intros seen; cbn [unique_loop].
  { split; [|done]. intros _ i n Hi. by rewrite lookup_nil in Hi. }
  assert (Hstep : forall seen' : list (node_key * string), (forall k, k ∈ dkeys seen' <-> k = key_of x \/ k ∈ dkeys seen) ->
    ((key_of x ∉ dkeys seen) \/ truthy (label x) = false) ->
    (forall i n, ns !! i = Some n -> truthy (label n) = true -> (key_of n ∉ dkeys seen') /\
       forall j m, (j < i)%nat -> ns !! j = Some m -> key_of m <> key_of n) <->
    (forall i n, (x :: ns) !! i = Some n -> truthy (label n) = true -> (key_of n ∉ dkeys seen) /\
       forall j m, (j < i)%nat -> (x :: ns) !! j = Some m -> key_of m <> key_of n)).
  { intros seen' Hs Hx. split.
    - intros H [|i] n Hi Ht; [injection Hi as <-; split; [by destruct Hx; [|congruence]|lia]|].
      destruct (H i n Hi Ht) as [H1 H2]. rewrite Hs in H1. split; [tauto|].
      intros [|j] m Hj Hm; [injection Hm as <-; intros Hk; apply H1; by left|]. apply (H2 j); [lia|done].
    - intros H i n Hi Ht. destruct (H (S i) n Hi Ht) as [H1 H2]. split.
      + rewrite Hs. intros [E|E]; [|done]. apply (H2 0%nat x); [lia|done|done].
      + intros j m Hj Hm. apply (H2 (S j)); [lia|done]. }
  destruct (dget (key_of x) seen) as [other|] eqn:E.
  - destruct (truthy (label x)) eqn:Et.
    + split; [done|]. intros H. destruct (H 0%nat x eq_refl Et) as [H1 _].
      exfalso. apply H1. by eapply dget_Some_key.
    + rewrite IH. apply Hstep; [|by right]. intros k. apply elem_dkeys_dset.
  - rewrite IH. apply Hstep; [intros k; apply elem_dkeys_dset|]. left. by apply dget_None.
Qed.

Lemma truthy_lower s : truthy (lower s) = truthy s.
Proof. by destruct s. Qed.

Lemma truthy_nonempty s : truthy s = true <-> s <> "".
Proof. destruct s; simpl; [split; [done|by intros []]|split; [by intros|done]]. Qed.

Lemma node_ids_distinct g : graph_ok g -> NoDup (map n_id (nodes g)).
Proof.
  intros Hg. pose proof (ok_nodes g Hg) as Hd. pose proof (ok_node_ids g Hg) as Hi.
  unfold dict_ok, dkeys in Hd. unfold nodes, dvalues. rewrite map_map.
  replace (map (fun p => n_id p.2) (g_nodes g)) with (map fst (g_nodes g)); [done|].
  apply map_ext_in. intros p Hp%list_elem_of_In. by rewrite Forall_forall in Hi; apply Hi.
Qed.

Lemma get_node_of_node g n : graph_ok g -> n ∈ nodes g -> get_node g (n_id n) = Some n.
Proof.
  intros Hg Hn. apply elem_dvalues in Hn as [k Hn].
  pose proof (proj1 (Forall_forall _ _) (ok_node_ids g Hg) _ Hn) as Hid. simpl in Hid.
  rewrite <- Hid. apply elem_dget; [apply Hg|done].
Qed.

Lemma unique_identifiers_passed g :
  graph_ok g ->
  ir_passed (check_unique_identifiers g) = true <->
  forall n m, n ∈ nodes g -> m ∈ nodes g -> n <> m -> label n <> "" -> key_of n <> key_of m.
Proof.
  intros Hg. cbn [check_unique_identifiers invariant_result ir_passed].
  rewrite is_nil_true, unique_loop_nil. cbn [dkeys map]. split.
  - intros H n m Hn Hm Hne Hl Hk. apply list_elem_of_lookup in Hn as [i Hi], Hm as [j Hj].
    assert (Ht : truthy (label n) = true) by (by apply truthy_nonempty).
    destruct (lt_eq_lt_dec i j) as [[Hlt| ->]|Hlt].
    + assert (Ht' : truthy (label m) = true).
      { rewrite <- truthy_lower in Ht |- *. unfold key_of in Hk. congruence. }
      by apply (proj2 (H j m Hj Ht') i n Hlt Hi).
    + congruence.
    + by apply (proj2 (H i n Hi Ht) j m Hlt Hj).
  - intros H i n Hi Ht. split; [by apply not_elem_of_nil|]. intros j m Hj Hm Hk.
    apply (H n m); [by eapply list_elem_of_lookup_2..| |by apply truthy_nonempty|done].
    intros ->. pose proof (node_ids_distinct g Hg) as Hnd. apply NoDup_fmap_1 in Hnd.
    pose proof (NoDup_lookup _ _ _ _ Hnd Hi Hm). lia.
Qed.

Lemma referential_integrity_passed g :
  graph_ok g -> ir_passed (check_referential_integrity g) = true.
Proof.
  intros Hg. cbn [check_referential_integrity invariant_result ir_passed]. apply is_nil_true.
  apply List.concat_nil_Forall. rewrite Forall_forall. intros l Hl.
  apply list_elem_of_In, in_map_iff in Hl as (e & <- & He). apply list_elem_of_In in He.
  destruct (edge_endpoints g e Hg He) as [Hs Ht].
  assert (Hk : forall k, k ∈ dkeys (g_nodes g) -> mem k (map n_id (nodes g)) = true).
  { intros k Hk. apply mem_true. unfold nodes, dvalues. rewrite map_map.
    apply list_elem_of_In, in_map_iff. apply list_elem_of_In, in_map_iff in Hk as ([k' n] & Ek & Hk).
    exists (k', n). split; [|done]. simpl in *. subst k'. symmetry.
    apply list_elem_of_In in Hk. exact (proj1 (Forall_forall _ _) (ok_node_ids g Hg) _ Hk). }
  by rewrite !Hk by done.
Qed.

(** ** Workflows *)

Lemma elem_states g w s :
  s ∈ states_of g w <-> s ∈ nodes g /\ node_type s = N_STATE /\ parent_id s = Some (n_id w).
Proof.
  unfold states_of. by rewrite list_elem_of_In, filter_In, <- list_elem_of_In, andb_true_iff,
    !bool_decide_eq_true.
Qed.

Lemma filter_nil {A} (p : A -> bool) l : List.filter p l = [] <-> forall x, x ∈ l -> p x = false.
Proof.
  induction l as [|x l IH]; simpl; [split; [intros _ ? H; by apply not_elem_of_nil in H|done]|].
  setoid_rewrite elem_of_cons. destruct (p x) eqn:E; [split; [done|]|rewrite IH; naive_solver].
  intros H. rewrite H in E by (by left). done.
Qed.

Lemma elem_filter_list {A} (p : A -> bool) x l : x ∈ List.filter p l <-> x ∈ l /\ p x = true.
Proof. by rewrite list_elem_of_In, filter_In, <- list_elem_of_In. Qed.

Lemma check_workflow_spec g w :
  graph_ok g ->
  exists ds, check_workflow g w = Some (Ok ds) /\ (ds = [] <-> workflow_ok g w).
Proof.
  intros Hg. unfold check_workflow, workflow_ok.
  destruct (states_of g w) as [|s0 ss] eqn:Es; [exists []; split; [done|]; split; [by left|done]|].
  rewrite <- Es. destruct (List.filter is_initial (states_of g w)) as [|i0 is_] eqn:Ei.
  { eexists. split; [done|]. split; [done|]. intros [H|[(i & Hi & H) _]]; [by rewrite Es in H|].
    rewrite filter_nil in Ei. by rewrite Ei in H. }
  rewrite <- Ei.
  destruct (map_run_ok (fun initial => bfs g (n_id initial) (Some is_transition))
    (fun initial vs => forall n, n ∈ vs <->
       get_node g (n_id n) = Some n /\ reach g (Some is_transition) (n_id initial) (n_id n))
    (List.filter is_initial (states_of g w))) as (vss & -> & Hvs).
  { intros x _. destruct (bfs_ok g (n_id x) (Some is_transition) Hg) as (r & Hr & _ & Hin).
    by exists r. }
  cbn [bind_run]. eexists. split; [done|].
  assert (Hmap : forall l : list GraphNode, forall f : GraphNode -> Diagnostic, map f l = [] <-> l = [])
    by (intros []; done).
  rewrite Hmap, filter_nil.
  assert (Hreach : forall s, s ∈ states_of g w ->
    mem (n_id s) (map n_id (concat vss)) = true <->
    exists i, i ∈ states_of g w /\ is_initial i = true /\
      reach g (Some is_transition) (n_id i) (n_id s)).
  { intros s Hs. rewrite mem_true, list_elem_of_In, in_map_iff. split.
    - intros (n & En & Hn). apply in_concat in Hn as (vs & Hvs' & Hn).
      apply list_elem_of_In, list_elem_of_lookup in Hvs' as [k Hk].
      destruct (Forall2_lookup_r _ _ _ _ _ Hvs Hk) as (i & Hi & Hin).
      apply list_elem_of_lookup_2, elem_filter_list in Hi as [Hi1 Hi2]. exists i.
      split; [done|]. split; [done|]. rewrite <- En.
      apply list_elem_of_In in Hn. by apply (proj1 (Hin n) Hn).
    - intros (i & Hi1 & Hi2 & Hr). exists s. split; [done|].
      assert (Hi : i ∈ List.filter is_initial (states_of g w)) by (by apply elem_filter_list).
      apply list_elem_of_lookup in Hi as [k Hk].
      destruct (Forall2_lookup_l _ _ _ _ _ Hvs Hk) as (vs & Hk' & Hin).
      apply in_concat. exists vs. split; [by eapply list_elem_of_In, list_elem_of_lookup_2|].
      apply list_elem_of_In, Hin. split; [|done].
      apply get_node_of_node; [done|]. by apply elem_states in Hs as [? _]. }
  split.
  - intros H. right. split.
    + exists i0. apply (elem_filter_list is_initial). rewrite Ei. by left.
    + intros s Hs. apply Hreach; [done|]. specialize (H s Hs). by apply negb_false_iff in H.
  - intros [H|[_ H]] s Hs; [by rewrite H in Es|]. apply negb_false_iff, Hreach; auto.
Qed.

Lemma workflow_reachability_spec g :
  graph_ok g ->
  exists r, check_workflow_reachability g = Some (Ok r) /\
    (ir_passed r = true <-> forall w, w ∈ nodes g -> node_type w = N_WORKFLOW -> workflow_ok g w).
Proof.
  intros Hg. unfold check_workflow_reachability.
  destruct (map_run_ok (check_workflow g) (fun w ds => ds = [] <-> workflow_ok g w)
              (get_nodes_by_type g N_WORKFLOW)) as (dss & -> & Hds).
  { intros w _. apply check_workflow_spec, Hg. }
  eexists. split; [done|]. cbn [invariant_result ir_passed].
  rewrite is_nil_true, (concat_nil_forall _ _ _ Hds), Forall_forall.
  setoid_rewrite by_type. naive_solver.
Qed.

(** ** Permissions *)

Lemma texts_inj ss ss' : map VStr ss = map VStr ss' -> ss = ss'.
Proof.
  revert ss'. induction ss as [|s ss IH]; intros [|s' ss']; simpl; try done.
  injection 1 as -> Hrest. f_equal. by apply IH.
Qed.

Section Permissions.
Context `{Texts}.

Lemma check_endpoint_spec defined n ss :
  dget_or "required_permissions" (n_attributes n) (VList []) = VList (map VStr ss) ->
  exists ds, check_endpoint defined n = Ok ds /\ (ds = [] <-> forall s, s ∈ ss -> s ∈ defined).
Proof.
  intros E. unfold check_endpoint. rewrite E. cbn [iter_of].
  destruct (map_res_forall (check_permission defined n)
    (fun p ds => ds = [] <-> exists s, p = VStr s /\ s ∈ defined) (map VStr ss)) as (dss & Er & Hds).
  { intros p Hp. apply list_elem_of_In, in_map_iff in Hp as (s & <- & _).
    eexists. split; [reflexivity|]. cbn [mem undefined_permission].
    destruct (mem s defined) eqn:Em; cbn [negb].
    - apply mem_true in Em. split; [eauto|done].
    - apply mem_false in Em. split; [done|]. intros (s' & [= ->] & ?). done. }
  eexists. unfold mbind, res_bind. rewrite Er. split; [reflexivity|].
  rewrite (concat_nil_forall _ _ _ Hds), Forall_forall. split.
  - intros Hall s Hs. destruct (Hall (VStr s)) as (s' & [= ->] & ?); [|done].
    by apply list_elem_of_In, in_map, list_elem_of_In.
  - intros Hall p Hp. apply list_elem_of_In, in_map_iff in Hp as (s & <- & Hs).
    exists s. split; [done|]. by apply Hall, list_elem_of_In.
Qed.

Lemma permission_consistency_spec g :
  permissions_typed g ->
  exists r, check_permission_consistency g = Ok r /\
    (ir_passed r = true <->
     forall n ss, n ∈ nodes g -> node_type n = N_ENDPOINT ->
       dget_or "required_permissions" (n_attributes n) (VList []) = VList (map VStr ss) ->
       forall s, s ∈ ss -> exists p, p ∈ nodes g /\ node_type p = N_PERMISSION /\ label p = s).
Proof.
  intros Ht. unfold check_permission_consistency.
  set (defined := map label (get_nodes_by_type g N_PERMISSION)).
  assert (Hd : forall s, s ∈ defined <-> exists p, p ∈ nodes g /\ node_type p = N_PERMISSION /\ label p = s).
  { intros s. unfold defined. rewrite list_elem_of_In, in_map_iff.
    setoid_rewrite <- list_elem_of_In. setoid_rewrite by_type. naive_solver. }
  destruct (map_res_forall (check_endpoint defined)
    (fun n ds => ds = [] <-> forall ss,
       dget_or "required_permissions" (n_attributes n) (VList []) = VList (map VStr ss) ->
       forall s, s ∈ ss -> s ∈ defined) (get_nodes_by_type g N_ENDPOINT)) as (dss & Er & Hds).
  { intros n [Hn Htn]%by_type. destruct (Ht n Hn Htn) as [ss Hss].
    destruct (check_endpoint_spec defined n ss Hss) as (ds & E & Hnil). exists ds.
    split; [done|]. rewrite Hnil. split; [|by intros Hall; apply Hall].
    intros Hall ss' Hss'.
    rewrite Hss in Hss'. injection Hss' as Hss'.
    by apply texts_inj in Hss' as <-. }
  eexists. unfold mbind, res_bind. rewrite Er. split; [reflexivity|].
  cbn [invariant_result ir_passed]. rewrite is_nil_true, (concat_nil_forall _ _ _ Hds), Forall_forall.
  setoid_rewrite by_type. setoid_rewrite Hd. naive_solver.
Qed.

Lemma module_has_entities_spec g :
  graph_ok g -> exists r, check_module_has_entities g = Ok r /\ ir_passed r = true.
Proof.
  intros Hg. unfold check_module_has_entities.
  match goal with |- context [map_res ?f ?l] =>
    destruct (map_res_forall f (fun _ _ => True) l) as (ds & E & _) end.
  { intros m _. rewrite get_outgoing_edges_spec by done. by eexists. }
  unfold mbind, res_bind in *. rewrite E. by eexists.
Qed.

(** ** Cycles and rules *)

Lemma acyclicity_spec g order :
  graph_ok g -> order ≡ₚ dkeys (g_nodes g) ->
  exists r, check_dependency_acyclicity g order = Some (Ok r) /\
    (ir_passed r = true <-> forall a, ~ tc (dep g E_DEPENDS_ON) a a).
Proof.
  intros Hg Ho. unfold check_dependency_acyclicity.
  destruct (detect_cycles_ok g E_DEPENDS_ON order Hg Ho) as (cs & -> & _ & Hcs).
  eexists. split; [reflexivity|]. rewrite <- Hcs. cbn [invariant_result ir_passed].
  rewrite is_nil_true. by destruct cs.
Qed.

Lemma rules_pass g rules rs :
  Forall2 (fun rule res => rule_check rule g = Some (Ok res)) rules rs ->
  existsb (fun r => negb (rr_passed r)) rs = false <->
  forall rule res, rule ∈ rules -> rule_check rule g = Some (Ok res) -> rr_passed res = true.
Proof.
  induction 1 as [|rule res rules rs E _ IH]; cbn [existsb].
  - split; [|done]. intros _ ? ? H0. by apply not_elem_of_nil in H0.
  - rewrite orb_false_iff, negb_false_iff, IH. setoid_rewrite elem_of_cons. split.
    + intros [Hp Hall] rule' res' [->|Hin] E'; [congruence|eauto].
    + intros Hall. split; [by apply (Hall rule); [left|]|]. intros; eapply Hall; eauto.
Qed.

(** ** Theorems *)

(** C16: the validator accepts exactly the well-formed architectures.  On every
    graph the mutators can build, for every order in which its sets are iterated,
    when the endpoints' permissions are lists of texts and the rules return,
    [validate] terminates without an error; and its result is valid exactly when
    every edge connects nodes of types the table of connections allows, the
    dependencies have no cycle, no two nodes of one type and parent have equal
    names up to case, every workflow with states has an initial one and reaches
    all states, every permission an endpoint requires is defined, and every rule
    passes. *)
Theorem validate_correct set_order rules g order :
  built g -> order ≡ₚ dkeys (g_nodes g) -> permissions_typed g ->
  Forall (fun rule => exists res, rule_check rule g = Some (Ok res)) rules ->
  exists r, validate set_order rules g order = Some (Ok r) /\
    (vr_is_valid r = true <->
     well_formed g /\
     forall rule res, rule ∈ rules -> rule_check rule g = Some (Ok res) -> rr_passed res = true).
Proof.
  intros Hg%built_ok Ho Ht Hrules. unfold validate, check_all.
  destruct (acyclicity_spec g order Hg Ho) as (r1 & -> & Hpass).
  destruct (workflow_reachability_spec g Hg) as (r4 & -> & H4).
  destruct (permission_consistency_spec g Ht) as (r5 & -> & H5).
  destruct (module_has_entities_spec g Hg) as (r6 & -> & H6).
  cbn [bind_run lift_run].
  destruct (map_run_ok (fun rule => rule_check rule g)
    (fun rule res => rule_check rule g = Some (Ok res)) rules) as (rs & -> & Hrs).
  { intros rule Hin. rewrite Forall_forall in Hrules. destruct (Hrules rule Hin) as [res E].
    by exists res. }
  eexists. split; [reflexivity|]. cbn [vr_is_valid existsb]. rewrite !negb_involutive.
  rewrite H6, referential_integrity_passed by done. cbn [negb orb].
  rewrite !andb_true_iff, !negb_true_iff, !orb_false_iff, !negb_false_iff.
  rewrite type_check_valid, unique_identifiers_passed, H4, H5 by done.
  rewrite Hpass, rules_pass by done. setoid_rewrite check_edge_none. split.
  - intros [[Hty (Hcy & Hu & Hw & Hp & _)] Hru]. split; [|done]. by split.
  - intros [[Hty Hcy Hu Hw Hp] Hru]. split_and!; try done.
Qed.
End Permissions.

(** ** Examples *)

Definition node (id_ : string) (t : NodeType) (parent : option string)
    (attributes : list (string * pyval)) : GraphNode :=
  {| n_id := id_; node_type := t; label := id_; n_attributes := attributes; parent_id := parent |}.
Definition edge (id_ src tgt : string) (t : EdgeType) : GraphEdge :=
  {| e_id := id_; source_id := src; target_id := tgt; edge_type := t;
     e_attributes := default_edge_attributes; e_metadata := [] |}.

(** Two services, a workflow with two states, an endpoint with its permission. *)
Definition shop : TypedGraph := graph_of
  [node "orders" N_SERVICE None []; node "stock" N_SERVICE None [];
   node "checkout" N_WORKFLOW None [];
   node "start" N_STATE (Some "checkout") [("state_type", VStr "initial")];
   node "paid" N_STATE (Some "checkout") [];
   node "buy" N_ENDPOINT None [("required_permissions", VList [VStr "purchase"])];
   node "purchase" N_PERMISSION None []]
  [edge "e1" "orders" "stock" E_DEPENDS_ON; edge "e2" "start" "paid" E_TRANSITIONS_TO].

#[local] Instance sample_texts : Texts := {| py_str _ := "value"; py_repr _ := "value" |}.

Lemma shop_permissions : permissions_typed shop.
Proof.
  intros n Hn Ht. vm_compute in Hn.
  repeat (apply elem_of_cons in Hn as [->|Hn]; [vm_compute in Ht; first [discriminate Ht|by exists ["purchase"]]|]).
  by apply not_elem_of_nil in Hn.
Qed.

Lemma shop_order : dkeys (g_nodes shop) ≡ₚ dkeys (g_nodes shop).
Proof. reflexivity. Qed.

Lemma shop_rules :
  Forall (fun rule => exists res, rule_check rule shop = Some (Ok res)) [CrossModuleReferenceRule].
Proof. repeat constructor. by eexists. Qed.

Lemma validate_correct_witness :
  (built shop /\ permissions_typed shop) /\
  exists r, validate id [CrossModuleReferenceRule] shop (dkeys (g_nodes shop)) = Some (Ok r) /\
    vr_is_valid r = true /\ well_formed shop.
Proof.
  split; [exact (conj (graph_of_built _ _) shop_permissions)|].
  destruct (validate_correct id [CrossModuleReferenceRule] shop (dkeys (g_nodes shop))
    (graph_of_built _ _) shop_order shop_permissions shop_rules) as (r & E & Hr).
  assert (Hv : vr_is_valid r = true) by (vm_compute in E; injection E as <-; reflexivity).
  exists r. split; [exact E|]. split; [exact Hv|]. exact (proj1 (proj1 Hr Hv)).
Defined.

(** A graph can be invalid without any error among its diagnostics: an
    unreachable state is a warning, and makes the result invalid. *)
Lemma warning_makes_invalid :
  let g := graph_of [node "checkout" N_WORKFLOW None [];
                     node "start" N_STATE (Some "checkout") [("state_type", VStr "initial")];
                     node "paid" N_STATE (Some "checkout") []] [] in
  exists r, validate id [] g (dkeys (g_nodes g)) = Some (Ok r) /\
    vr_is_valid r = false /\ errors r = [] /\ length (warnings r) = 1%nat.
Proof. eexists. split; [vm_compute; reflexivity|]. split; [reflexivity|]. split; vm_compute; reflexivity. Qed.
