(* ===== verification/IsrMetrics.v ===== *)
(** * ISR: metrics of a graph

    [isr/metrics/complexity.py], [coupling.py], [cohesion.py] and
    [static_fitness.py].  A division of integers is the float nearest to their
    ratio; [None] is topological_sort out of fuel. *)

From Stdlib Require Import SpecFloat.
From S2P Require Import Prelude PyFloat PyVal PyText IsrModel TypedGraph GraphOrder.
From S2P Require Import IsrValidation.
Open Scope Z_scope.

(** ** Complexity *)

Definition graph_density (g : TypedGraph) : float :=
  let n := Z.of_nat (node_count g) in
  if n <=? 1 then fzero
  else
    let max_edges := n * (n - 1) in
    if max_edges =? 0 then fzero else fdiv (of_nat (edge_count g)) (of_Z max_edges).

(** [depth[edge.target_id] = max(depth[edge.target_id], depth[node.id] + 1)]. *)
Definition deepen (source : string) (depth : list (string * Z)) (e : GraphEdge) : list (string * Z) :=
  if bool_decide (edge_type e = E_DEPENDS_ON)
  then match dget (target_id e) depth with
       | Some d => dset (target_id e) (Z.max d (dget_or source depth 0 + 1)) depth
       | None => depth
       end
  else depth.
Fixpoint fill_depths (g : TypedGraph) (sorted_nodes : list GraphNode) (depth : list (string * Z))
    : res (list (string * Z)) :=
  match sorted_nodes with
  | [] => Ok depth
  | node :: rest =>
      outgoing ← get_outgoing_edges g (n_id node);
      fill_depths g rest (fold_left (deepen (n_id node)) outgoing depth)
  end.

(** [max(depth.values())]. *)
Definition max_value (depth : list (string * Z)) : Z :=
  match dvalues depth with [] => 0 | d :: rest => fold_left Z.max rest d end.

Definition max_dependency_depth (g : TypedGraph) : run Z :=
  match topological_sort g E_DEPENDS_ON with
  | None => None
  | Some (Raise (ValueError _)) => Some (Ok (-1))
  | Some (Raise x) => Some (Raise x)
  | Some (Ok sorted_nodes) =>
      match sorted_nodes with
      | [] => Some (Ok 0)
      | _ => Some (match fill_depths g sorted_nodes (dtable (fun _ => 0) (map n_id sorted_nodes)) with
                   | Ok depth => Ok (max_value depth)
                   | Raise (ValueError _) => Ok (-1)
                   | Raise x => Raise x
                   end)
      end
  end.

Definition node_count_by_type (g : TypedGraph) : list (string * Z) :=
  fold_left (fun counts node =>
    let type_name := node_type_value (node_type node) in
    dset type_name (dget_or type_name counts 0 + 1) counts) (nodes g) [].

Definition is_type (t : NodeType) (g : TypedGraph) (id : string) : bool :=
  match get_node g id with Some n => bool_decide (node_type n = t) | None => false end.

(** [sum(...)] of counts, each of which may raise. *)
Fixpoint sum_counts {A} (f : A -> res Z) (xs : list A) : res Z :=
  match xs with
  | [] => Ok 0
  | x :: rest => n ← f x; total ← sum_counts f rest; Ok (n + total)
  end.
Definition entities_of (g : TypedGraph) (module : GraphNode) : res Z :=
  outgoing ← get_outgoing_edges g (n_id module);
  Ok (Z.of_nat (length (List.filter (fun e => bool_decide (edge_type e = E_OWNS)
                                              && is_type N_ENTITY g (target_id e)) outgoing))).
Definition average_module_size (g : TypedGraph) : res float :=
  match get_nodes_by_type g N_MODULE with
  | [] => Ok fzero
  | modules => total ← sum_counts (entities_of g) modules; Ok (fdiv (of_Z total) (of_nat (length modules)))
  end.

Definition fclamp (x : float) : float := fmin2 (fmax2 x fzero) (of_Z 1).
Definition complexity_of (density : float) (depth nodes : Z) : float :=
  let norm_depth := fmin2 (fdiv (of_Z (Z.max depth 0)) (of_Z 10)) (of_Z 1) in
  let norm_size := fmin2 (fdiv (of_Z nodes) (of_Z 200)) (of_Z 1) in
  fclamp (fadd (fadd (fmul (of_ratio 4 10) density) (fmul (of_ratio 3 10) norm_depth))
               (fmul (of_ratio 3 10) norm_size)).
Definition compute_complexity_score (g : TypedGraph) : run float :=
  depth ⇐ max_dependency_depth g;
  Some (Ok (complexity_of (graph_density g) depth (Z.of_nat (node_count g)))).

(** ** Coupling *)

Definition owning (t : EdgeType) : bool := mem t [E_OWNS; E_CONTAINS].

(** [node_to_module]: what each module owns, the last owner winning. *)
Fixpoint node_to_module (g : TypedGraph) (modules : list GraphNode) (table : list (string * string))
    : res (list (string * string)) :=
  match modules with
  | [] => Ok table
  | module :: rest =>
      outgoing ← get_outgoing_edges g (n_id module);
      node_to_module g rest
        (fold_left (fun table e => if owning (edge_type e) then dset (target_id e) (n_id module) table
                                   else table) outgoing table)
  end.
(** The modules of the ends of an edge, if both have one whose id is not empty. *)
Definition module_ends (table : list (string * string)) (e : GraphEdge) : option (string * string) :=
  match dget (source_id e) table, dget (target_id e) table with
  | Some a, Some b => if truthy a && truthy b then Some (a, b) else None
  | _, _ => None
  end.
Definition inter_module_coupling (g : TypedGraph) : res float :=
  let modules := get_nodes_by_type g N_MODULE in
  if (length modules <=? 1)%nat then Ok fzero
  else
    table ← node_to_module g modules [];
    let deps := omap (module_ends table) (get_edges_by_type g E_DEPENDS_ON) in
    let cross := List.filter (fun p => negb (bool_decide (p.1 = p.2))) deps in
    match deps with
    | [] => Ok fzero
    | _ => Ok (fdiv (of_nat (length cross)) (of_nat (length deps)))
    end.

Definition dependencies_in (es : list GraphEdge) : Z :=
  Z.of_nat (length (List.filter (fun e => bool_decide (edge_type e = E_DEPENDS_ON)) es)).
Definition afferent_coupling (g : TypedGraph) (node_id : string) : res Z :=
  es ← get_incoming_edges g node_id; Ok (dependencies_in es).
Definition efferent_coupling (g : TypedGraph) (node_id : string) : res Z :=
  es ← get_outgoing_edges g node_id; Ok (dependencies_in es).
Definition instability_index (g : TypedGraph) (node_id : string) : res float :=
  ca ← afferent_coupling g node_id;
  ce ← efferent_coupling g node_id;
  Ok (if ca + ce =? 0 then fzero else fdiv (of_Z ce) (of_Z (ca + ce))).

Definition average_instability (g : TypedGraph) (services : list GraphNode) : res float :=
  match services with
  | [] => Ok fzero
  | _ => xs ← map_res (fun s => instability_index g (n_id s)) services;
         Ok (fdiv (fsum xs) (of_nat (length services)))
  end.
Definition compute_coupling_score (g : TypedGraph) : res float :=
  inter_module ← inter_module_coupling g;
  avg_instability ← average_instability g (get_nodes_by_type g N_SERVICE);
  Ok (fadd (fmul (of_ratio 6 10) inter_module) (fmul (of_ratio 4 10) avg_instability)).

(** ** Cohesion *)

(** The set of what a node owns, without repetition. *)
Definition owned_targets (es : list GraphEdge) : list string :=
  fold_left (fun owned e => if owning (edge_type e) && negb (mem (target_id e) owned)
                            then owned ++ [target_id e] else owned) es [].
Definition edges_into (g : TypedGraph) (owned : list string) (node_id : string) : res Z :=
  outgoing ← get_outgoing_edges g node_id;
  Ok (Z.of_nat (length (List.filter (fun e => mem (target_id e) owned) outgoing))).
Definition module_cohesion (g : TypedGraph) (module_id : string) : res float :=
  outgoing ← get_outgoing_edges g module_id;
  let owned_nodes := owned_targets outgoing in
  let n := Z.of_nat (length owned_nodes) in
  if n <=? 1 then Ok (of_Z 1)
  else
    internal_edges ← sum_counts (edges_into g owned_nodes) owned_nodes;
    Ok (if n * (n - 1) =? 0 then fzero else fdiv (of_Z internal_edges) (of_Z (n * (n - 1)))).
Definition average_cohesion (g : TypedGraph) : res float :=
  match get_nodes_by_type g N_MODULE with
  | [] => Ok fzero
  | modules => xs ← map_res (fun m => module_cohesion g (n_id m)) modules;
               Ok (fdiv (fsum xs) (of_nat (length modules)))
  end.
Definition compute_cohesion_score (g : TypedGraph) : res float := average_cohesion g.

(** ** StaticFitnessEvaluator *)

Record StaticFitness : Set := {
  sf_complexity : float; sf_coupling : float; sf_cohesion : float; sf_security_coverage : float;
  sf_scalability : float; sf_reliability : float; sf_deployment_completeness : float;
  sf_observability : float; sf_documentation : float; sf_maintainability : float;
  sf_extensibility : float; sf_architecture_quality : float;
}.
Definition static_to_dict (v : StaticFitness) : list (string * float) :=
  [("complexity", sf_complexity v); ("coupling", sf_coupling v); ("cohesion", sf_cohesion v);
   ("security_coverage", sf_security_coverage v); ("scalability", sf_scalability v);
   ("reliability", sf_reliability v); ("deployment_completeness", sf_deployment_completeness v);
   ("observability", sf_observability v); ("documentation", sf_documentation v);
   ("maintainability", sf_maintainability v); ("extensibility", sf_extensibility v);
   ("architecture_quality", sf_architecture_quality v)].

Definition static_composite_score (weights : option (list (string * float))) (v : StaticFitness) : res float :=
  let ws := match weights with
            | Some ws => ws
            | None => map (fun p => (p.1, fdiv (of_Z 1) (of_Z 12))) (static_to_dict v)
            end in
  let total := fsum (map (fun p => fmul (dget_or p.1 (static_to_dict v) fzero) p.2) ws) in
  match ws with
  | [] => Ok fzero
  | _ => let divisor := fsum (map snd ws) in
         if feqb divisor fzero then Raise (ZeroDivisionError "float division by zero")
         else Ok (fdiv total divisor)
  end.

(** The float nearest to [a / b], and the least of it and 1. *)
Definition ratio (a b : nat) : float := fdiv (of_nat a) (of_nat b).
Definition ratio1 (a b : nat) : float := fmin2 (ratio a b) (of_Z 1).

Definition evaluate_complexity (g : TypedGraph) : run float :=
  raw ⇐ compute_complexity_score g; Some (Ok (fsub (of_Z 1) raw)).
Definition evaluate_coupling (g : TypedGraph) : res float :=
  raw ← compute_coupling_score g; Ok (fsub (of_Z 1) raw).
Definition evaluate_cohesion (g : TypedGraph) : res float := compute_cohesion_score g.

Definition has_policy (g : TypedGraph) (iface : GraphNode) : res Z :=
  outgoing ← get_outgoing_edges g (n_id iface);
  Ok (if existsb (fun e => bool_decide (edge_type e = E_SECURED_BY)) outgoing then 1 else 0).
Definition evaluate_security (g : TypedGraph) : res float :=
  match get_nodes_by_type g N_INTERFACE with
  | [] => Ok (of_ratio 5 10)
  | interfaces => secured ← sum_counts (has_policy g) interfaces;
                  Ok (fdiv (of_Z secured) (of_nat (length interfaces)))
  end.
Definition evaluate_scalability (g : TypedGraph) : float :=
  match get_nodes_by_type g N_SERVICE with
  | [] => of_ratio 5 10
  | services =>
      ratio (length (List.filter (fun s => val_truthy (dget_or "is_stateless" (n_attributes s) (VBool true)))
                                 services)) (length services)
  end.
Definition evaluate_reliability (g : TypedGraph) : float :=
  match get_nodes_by_type g N_SERVICE with
  | [] => of_ratio 5 10
  | services =>
      let event_ratio := ratio1 (length (get_nodes_by_type g N_EVENT)) (Nat.max (length services) 1) in
      fadd (of_ratio 5 10) (fmul (of_ratio 5 10) event_ratio)
  end.
Definition evaluate_deployment (g : TypedGraph) : float :=
  match get_nodes_by_type g N_DEPLOYMENT with
  | [] => fzero
  | deployments => ratio1 (length deployments) 1
  end.
Definition evaluate_observability (g : TypedGraph) : float :=
  match get_nodes_by_type g N_DEPLOYMENT with [] => of_ratio 3 10 | _ => of_ratio 7 10 end.
Definition evaluate_documentation (g : TypedGraph) : float :=
  match get_nodes_by_type g N_MODULE with
  | [] => of_ratio 5 10
  | modules => ratio1 (length (get_nodes_by_type g N_DOCUMENTATION)) (length modules)
  end.
Definition evaluate_maintainability (g : TypedGraph) : res float :=
  avg_size ← average_module_size g;
  Ok (if fleb (of_Z 3) avg_size && fleb avg_size (of_Z 7) then of_Z 1
      else if fltb avg_size (of_Z 3) then of_ratio 7 10
      else fmax2 (of_ratio 3 10) (fsub (of_Z 1) (fmul (fsub avg_size (of_Z 7)) (of_ratio 1 10)))).
Definition evaluate_extensibility (g : TypedGraph) : float :=
  match get_nodes_by_type g N_SERVICE with
  | [] => of_ratio 5 10
  | services => ratio1 (length (get_nodes_by_type g N_INTERFACE)) (length services)
  end.
Definition evaluate_architecture_quality (g : TypedGraph) : run float :=
  cohesion ⇐ lift_run (evaluate_cohesion g);
  coupling ⇐ lift_run (evaluate_coupling g);
  complexity ⇐ evaluate_complexity g;
  Some (Ok (fdiv (fadd (fadd cohesion coupling) complexity) (of_Z 3))).

Definition evaluate (g : TypedGraph) : run StaticFitness :=
  complexity ⇐ evaluate_complexity g;
  coupling ⇐ lift_run (evaluate_coupling g);
  cohesion ⇐ lift_run (evaluate_cohesion g);
  security ⇐ lift_run (evaluate_security g);
  maintainability ⇐ lift_run (evaluate_maintainability g);
  quality ⇐ evaluate_architecture_quality g;
  Some (Ok {|
    sf_complexity := complexity; sf_coupling := coupling; sf_cohesion := cohesion;
    sf_security_coverage := security; sf_scalability := evaluate_scalability g;
    sf_reliability := evaluate_reliability g; sf_deployment_completeness := evaluate_deployment g;
    sf_observability := evaluate_observability g; sf_documentation := evaluate_documentation g;
    sf_maintainability := maintainability; sf_extensibility := evaluate_extensibility g;
    sf_architecture_quality := quality |}).

(** * ISR: structural and semantic differences of two graphs

    [isr/diff/structural_diff.py] and [semantic_diff.py]. *)

(** ** Equality of dataclasses: field by field, dicts by [==] *)

#[export] Instance CouplingStrength_eq_dec : EqDecision CouplingStrength.
Proof. solve_decision. Defined.
#[export] Instance CommunicationMode_eq_dec : EqDecision CommunicationMode.
Proof. solve_decision. Defined.
#[export] Instance Criticality_eq_dec : EqDecision Criticality.
Proof. solve_decision. Defined.

Definition node_eqb (a b : GraphNode) : bool :=
  bool_decide (n_id a = n_id b) && bool_decide (node_type a = node_type b) && bool_decide (label a = label b)
  && py_eq (VDict (n_attributes a)) (VDict (n_attributes b)) && bool_decide (parent_id a = parent_id b).
(** A NaN is equal to no budget, not even to the same object in the other edge. *)
Definition budget_eqb (a b : option float) : bool :=
  match a, b with Some x, Some y => feqb x y | None, None => true | _, _ => false end.
Definition attributes_eqb (a b : EdgeAttributes) : bool :=
  bool_decide (coupling_strength a = coupling_strength b)
  && bool_decide (communication_mode a = communication_mode b)
  && bool_decide (criticality a = criticality b)
  && budget_eqb (latency_budget_ms a) (latency_budget_ms b)
  && bool_decide (ea_description a = ea_description b)
  && py_eq (VDict (map (fun p => (p.1, VStr p.2)) (ea_metadata a)))
           (VDict (map (fun p => (p.1, VStr p.2)) (ea_metadata b))).
Definition edge_eqb (a b : GraphEdge) : bool :=
  bool_decide (e_id a = e_id b) && bool_decide (source_id a = source_id b)
  && bool_decide (target_id a = target_id b) && bool_decide (edge_type a = edge_type b)
  && attributes_eqb (e_attributes a) (e_attributes b)
  && py_eq (VDict (e_metadata a)) (VDict (e_metadata b)).

(** ** StructuralDiff

    [NodeChange] and [EdgeChange]: the kind, the item, and the item it replaces. *)

Record Change (A : Type) : Type := { ch_change_type : string; ch_item : A; ch_old_item : option A }.
Arguments ch_change_type {A}. Arguments ch_item {A}. Arguments ch_old_item {A}.
Abbreviation NodeChange := (Change GraphNode).
Abbreviation EdgeChange := (Change GraphEdge).

Record StructuralDiffResult : Type := { sd_node_changes : list NodeChange; sd_edge_changes : list EdgeChange }.

Section Changes.
Context {A : Type} (eqb : A -> A -> bool).

(** The two loops: items of b that are new or differ, then items of a that are gone. *)
Definition changed (a : list (string * A)) (p : string * A) : list (Change A) :=
  match dget p.1 a with
  | None => [{| ch_change_type := "added"; ch_item := p.2; ch_old_item := None |}]
  | Some old => if eqb p.2 old then []
                else [{| ch_change_type := "modified"; ch_item := p.2; ch_old_item := Some old |}]
  end.
Definition removed (b : list (string * A)) (p : string * A) : list (Change A) :=
  if dmem p.1 b then [] else [{| ch_change_type := "removed"; ch_item := p.2; ch_old_item := None |}].
Definition changes (a b : list (string * A)) : list (Change A) :=
  flat_map (changed a) b ++ flat_map (removed b) a.

Definition count_type (kind : string) (cs : list (Change A)) : Z :=
  Z.of_nat (length (List.filter (fun c => bool_decide (ch_change_type c = kind)) cs)).
End Changes.

(** [{n.id: n for n in items}]. *)
Definition by_id {A} (id : A -> string) (items : list A) : list (string * A) :=
  fold_left (fun d x => dset (id x) x d) items [].

Definition structural_diff (graph_a graph_b : TypedGraph) : StructuralDiffResult :=
  {| sd_node_changes := changes node_eqb (by_id n_id (nodes graph_a)) (by_id n_id (nodes graph_b));
     sd_edge_changes := changes edge_eqb (by_id e_id (edges graph_a)) (by_id e_id (edges graph_b)) |}.

Definition nodes_added (d : StructuralDiffResult) : Z := count_type "added" (sd_node_changes d).
Definition nodes_removed (d : StructuralDiffResult) : Z := count_type "removed" (sd_node_changes d).
Definition nodes_modified (d : StructuralDiffResult) : Z := count_type "modified" (sd_node_changes d).
Definition edges_added (d : StructuralDiffResult) : Z := count_type "added" (sd_edge_changes d).
Definition edges_removed (d : StructuralDiffResult) : Z := count_type "removed" (sd_edge_changes d).
Definition total_changes (d : StructuralDiffResult) : Z :=
  Z.of_nat (length (sd_node_changes d) + length (sd_edge_changes d)).

(** ** SemanticDiff *)

Record SemanticChange : Type := {
  sc_change_type : string;
  sc_description : string;
  sc_affected_nodes : list string;
  sc_rationale : string;
  sc_fitness_impact : list (string * float);
}.
Record SemanticDiffResult : Type := {
  sr_changes : list SemanticChange;
  sr_structural_diff : option StructuralDiffResult;
}.
Definition change_count (r : SemanticDiffResult) : Z := Z.of_nat (length (sr_changes r)).
Fixpoint join_semicolon (ss : list string) : string :=
  match ss with [] => "" | [s] => s | s :: ss => s +:+ "; " +:+ join_semicolon ss end.
Definition semantic_summary (r : SemanticDiffResult) : string :=
  match sr_changes r with
  | [] => "No architectural changes detected."
  | cs => join_semicolon (map sc_description cs)
  end.

Definition semantic_change (change_type description : string) (n : GraphNode) : SemanticChange :=
  {| sc_change_type := change_type; sc_description := description; sc_affected_nodes := [n_id n];
     sc_rationale := ""; sc_fitness_impact := [] |}.
Definition is_kind (kind : string) (c : NodeChange) : bool := bool_decide (ch_change_type c = kind).
Definition node_is (t : NodeType) (c : NodeChange) : bool := bool_decide (node_type (ch_item c) = t).

Definition detect_module_splits (d : StructuralDiffResult) : list SemanticChange :=
  map (fun c => semantic_change "module_extracted" ("Extracted new module '" +:+ label (ch_item c) +:+ "'") (ch_item c))
    (List.filter (fun c => is_kind "added" c && node_is N_MODULE c) (sd_node_changes d)).
Definition detect_event_introduction (d : StructuralDiffResult) : list SemanticChange :=
  map (fun c => semantic_change "event_introduced" ("Introduced event '" +:+ label (ch_item c) +:+ "'") (ch_item c))
    (List.filter (fun c => is_kind "added" c && node_is N_EVENT c) (sd_node_changes d)).
Definition detect_cache_addition (d : StructuralDiffResult) : list SemanticChange :=
  map (fun c => semantic_change "cache_introduced" ("Introduced cache '" +:+ label (ch_item c) +:+ "'") (ch_item c))
    (List.filter (fun c => is_kind "added" c && str_contains "cache" (lower (label (ch_item c))))
       (sd_node_changes d)).
Definition detect_security_changes (d : StructuralDiffResult) : list SemanticChange :=
  flat_map (fun c =>
    if negb (node_is N_POLICY c) then []
    else if is_kind "added" c
    then [semantic_change "policy_added" ("Added security policy '" +:+ label (ch_item c) +:+ "'") (ch_item c)]
    else if is_kind "modified" c
    then [semantic_change "policy_modified" ("Modified security policy '" +:+ label (ch_item c) +:+ "'") (ch_item c)]
    else []) (sd_node_changes d).

Definition semantic_diff (graph_a graph_b : TypedGraph) : SemanticDiffResult :=
  let structural := structural_diff graph_a graph_b in
  let found := detect_module_splits structural ++ detect_event_introduction structural ++
               detect_cache_addition structural ++ detect_security_changes structural in
  let found := match found with
    | [] => if 0 <? total_changes structural then
        [{| sc_change_type := "structural_modification";
            sc_description := "Structural modification: " +:+ str_of_int (nodes_added structural) +:+
              " nodes added, " +:+ str_of_int (nodes_removed structural) +:+ " removed, " +:+
              str_of_int (edges_added structural) +:+ " edges added, " +:+
              str_of_int (edges_removed structural) +:+ " removed";
            sc_affected_nodes := []; sc_rationale := ""; sc_fitness_impact := [] |}]
        else []
    | _ => found
    end in
  {| sr_changes := found; sr_structural_diff := Some structural |}.
