(* ===== verification/IsrMetricsSpec.v ===== *)
(** * ISR: theorems on the metrics

    The dependency depth is the length of the longest chain of dependencies; the
    evaluation of a graph never fails and does not depend on the ids of its
    edges. *)

From Stdlib Require Import SpecFloat.
From S2P Require Import Prelude PyFloat PyVal PyText IsrModel TypedGraph GraphOrder.
From S2P Require Import IsrValidation IsrMetrics.
Open Scope Z_scope.

(** ** The longest chain of dependencies *)

Lemma nodup_split_unique {A} (x : A) l1 l2 l3 l4 :
  NoDup (l1 ++ x :: l2) -> l1 ++ x :: l2 = l3 ++ x :: l4 -> l1 = l3 /\ l2 = l4.
Proof.
  revert l3. induction l1 as [|a l1 IH]; intros [|b l3] Hnd E; simpl in *.
  - by injection E.
  - injection E as <- E. apply NoDup_cons in Hnd as [Hx _]. subst l2. destruct Hx. set_solver.
  - injection E as -> E. apply NoDup_cons in Hnd as [Hx _]. destruct Hx. set_solver.
  - injection E as <- E. apply NoDup_cons in Hnd as [_ Hnd]. by destruct (IH l3 Hnd E) as [-> ->].
Qed.

Section Depth.
Context (g : TypedGraph) (Hg : graph_ok g).

Abbreviation R := (dep g E_DEPENDS_ON).

(** The state of the loop after the nodes [P]: every depth is the length of a
    chain that ends in the node, and edges from [P] are accounted for. *)
Record depth_ok (P : list string) (depth : list (string * Z)) : Prop := {
  dp_chain k d : dget k depth = Some d -> exists x l, walk R x l k /\ Z.of_nat (length l) = d;
  dp_edge a b da db : a ∈ P -> R a b -> dget a depth = Some da -> dget b depth = Some db -> da + 1 <= db;
}.

(** An edge of [n] whose target, if it is a dependency, has not been passed. *)
Definition ahead (P : list string) (n : string) (e : GraphEdge) : Prop :=
  e ∈ edges g /\ source_id e = n /\ (edge_type e = E_DEPENDS_ON -> target_id e ∉ n :: P).

Lemma deepen_ok P n e depth dn :
  depth_ok P depth -> ahead P n e -> dget n depth = Some dn ->
  depth_ok P (deepen n depth e) /\ dget n (deepen n depth e) = Some dn /\
  (edge_type e = E_DEPENDS_ON -> forall d, dget (target_id e) (deepen n depth e) = Some d -> dn + 1 <= d) /\
  (forall k d, dget k depth = Some d -> exists d', dget k (deepen n depth e) = Some d' /\ d <= d').
Proof.
  intros Hd (He & Hs & Ht) Hn. unfold deepen. case_bool_decide as Et;
    [|by split_and!; [done|done| |intros k d E; exists d; split; [done|lia]]].
  specialize (Ht Et). apply not_elem_of_cons in Ht as [Hne HP].
  destruct (dget (target_id e) depth) as [d|] eqn:E.
  2:{ split_and!; [done|done|congruence|]. intros k d Ek. exists d. split; [done|lia]. }
  unfold dget_or. rewrite Hn. set (new := Z.max d (dn + 1)).
  assert (Hr : R n (target_id e)) by (exists e; by rewrite Hs).
  split_and!.
  - split.
    + intros k z. rewrite dget_dset. case_decide as Ek; [|apply (dp_chain _ _ Hd)].
      intros [= <-]. subst k. unfold new. destruct (Z.max_spec d (dn + 1)) as [[_ ->]|[_ ->]].
      * destruct (dp_chain _ _ Hd n dn Hn) as (x & l & Hw & Hl).
        exists x, (l ++ [target_id e]). split; [by eapply walk_snoc|]. rewrite length_app. simpl. lia.
      * by apply (dp_chain _ _ Hd).
    + intros a b da db Ha Hab. rewrite !dget_dset. case_decide as Ea; [congruence|].
      case_decide as Eb; [|by apply (dp_edge _ _ Hd)].
      intros Hda [= <-]. subst b. pose proof (dp_edge _ _ Hd a _ da d Ha Hab Hda E). unfold new. lia.
  - rewrite dget_dset. by rewrite decide_False by done.
  - intros _ z. rewrite dget_dset, decide_True by done. intros [= <-]. unfold new. lia.
  - intros k z Ek. rewrite dget_dset. case_decide as Ek'; [|exists z; split; [done|lia]].
    subst k. exists new. split; [done|]. unfold new. rewrite E in Ek. injection Ek as ->. lia.
Qed.

Lemma deepen_all P n es depth dn :
  depth_ok P depth -> Forall (ahead P n) es -> dget n depth = Some dn ->
  let depth' := fold_left (deepen n) es depth in
  depth_ok P depth' /\ dget n depth' = Some dn /\
  (forall e, e ∈ es -> edge_type e = E_DEPENDS_ON ->
     forall d, dget (target_id e) depth' = Some d -> dget (target_id e) depth <> None -> dn + 1 <= d) /\
  (forall k d, dget k depth = Some d -> exists d', dget k depth' = Some d' /\ d <= d').
Proof.
  intros Hd Hes. revert depth Hd. induction Hes as [|e es He _ IH]; intros depth Hd Hn.
  { split_and!; [done|done| |intros k d E; exists d; split; [done|lia]].
    intros e He. by apply not_elem_of_nil in He. }
  destruct (deepen_ok P n e depth dn Hd He Hn) as (H1 & H2 & H3 & H4).
  destruct (IH _ H1 H2) as (I1 & I2 & I3 & I4). cbn [fold_left]. split_and!; [done|done| |].
  - intros e' He' Et d Ed Hk. destruct (dget (target_id e') depth) as [d0|] eqn:E0; [|done].
    destruct (H4 _ _ E0) as (d1 & E1 & _).
    apply elem_of_cons in He' as [->|He'].
    + destruct (I4 _ _ E1) as (d2 & E2 & Hle). specialize (H3 Et _ E1).
      rewrite E2 in Ed. injection Ed as <-. lia.
    + apply (I3 e' He' Et d Ed). congruence.
  - intros k d E. destruct (H4 k d E) as (d1 & E1 & Hle1). destruct (I4 k d1 E1) as (d2 & E2 & Hle2).
    exists d2. split; [done|lia].
Qed.

Lemma fill_depths_ok sorted P rest depth :
  sorted = P ++ map n_id rest -> NoDup sorted -> (forall a b, R a b -> before sorted a b) ->
  depth_ok P depth -> (forall k, k ∈ sorted -> dget k depth <> None) ->
  exists depth', fill_depths g rest depth = Ok depth' /\ depth_ok sorted depth' /\
    (forall k d, dget k depth = Some d -> exists d', dget k depth' = Some d' /\ d <= d').
Proof.
  intros Es Hnd Hb. revert P depth Es. induction rest as [|node rest IH]; intros P depth Es Hd Hk.
  { exists depth. rewrite app_nil_r in Es. subst P. split_and!; [done|done|].
    intros k d E. exists d. split; [done|lia]. }
  cbn [fill_depths]. rewrite get_outgoing_edges_spec by done. unfold_monad.
  set (n := n_id node) in *. cbn [map] in Es. fold n in Es.
  destruct (dget n depth) as [dn|] eqn:En; [|by destruct (Hk n); [rewrite Es; set_solver|]].
  assert (Hahead : Forall (ahead P n) (out_edges g n)).
  { apply Forall_forall. intros e He%list_elem_of_In. unfold out_edges in He.
    apply filter_In in He as [He Hs]. bool_hyps. apply list_elem_of_In in He. split_and!; [done..|].
    intros Et. assert (Hr : R n (target_id e)) by (exists e; by rewrite Hs).
    destruct (Hb _ _ Hr) as (l1 & l2 & l3 & E). rewrite Es in E, Hnd.
    destruct (nodup_split_unique n P (map n_id rest) l1 (l2 ++ target_id e :: l3)) as [-> E2]; [done|done|].
    rewrite E2 in Hnd. apply NoDup_app in Hnd as (_ & Hdis & Hnd2).
    apply NoDup_cons in Hnd2 as [Hn2 _]. apply not_elem_of_cons. split.
    - intros Ene. apply Hn2. rewrite Ene. set_solver.
    - intros HP. apply (Hdis _ HP). set_solver. }
  destruct (deepen_all P n (out_edges g n) depth dn Hd Hahead En) as (H1 & H2 & H3 & H4).
  set (depth1 := fold_left (deepen n) (out_edges g n) depth) in *.
  destruct (IH (P ++ [n]) depth1) as (depth' & E' & Hok & Hmono).
  - rewrite <- app_assoc. exact Es.
  - split; [apply H1|]. intros a b da db [Ha|Ha]%elem_of_app Hab Ea Eb; [by eapply (dp_edge _ _ H1)|].
    apply list_elem_of_singleton in Ha. subst a. rewrite H2 in Ea. injection Ea as <-.
    destruct Hab as (e & He & Et & Hs & Etg). subst b. apply (H3 e); [|done|done|].
    + unfold out_edges. apply list_elem_of_In, filter_In. split; [by apply list_elem_of_In|].
      by apply bool_decide_eq_true.
    + apply Hk. assert (Hr : R n (target_id e)) by by exists e.
      destruct (Hb _ _ Hr) as (l1 & l2 & l3 & ->). set_solver.
  - intros k Hks. specialize (Hk k Hks). destruct (dget k depth) as [d|] eqn:Ek; [|done].
    destruct (H4 k d Ek) as (d' & -> & _). done.
  - exists depth'. split_and!; [done|done|]. intros k d E.
    destruct (H4 k d E) as (d1 & E1 & Hle1). destruct (Hmono k d1 E1) as (d2 & E2 & Hle2).
    exists d2. split; [done|lia].
Qed.

Lemma fill_depths_keys rest depth depth' :
  fill_depths g rest depth = Ok depth' -> dkeys depth' = dkeys depth.
Proof.
  revert depth. induction rest as [|node rest IH]; intros depth; cbn [fill_depths]; [by intros [= ->]|].
  unfold_monad. destruct (get_outgoing_edges g (n_id node)) as [es|ex]; [|done].
  intros ->%IH. revert depth. induction es as [|e es IHe]; intros depth; [done|]. cbn [fold_left].
  rewrite IHe. unfold deepen. case_bool_decide; [|done].
  destruct (dget (target_id e) depth) as [d|] eqn:E; [|done].
  by apply dkeys_dset_in, (dget_Some_key _ d).
Qed.

Lemma max_value_spec (depth : list (string * Z)) : depth <> [] ->
  (exists k, (k, max_value depth) ∈ depth) /\ (forall k d, (k, d) ∈ depth -> d <= max_value depth).
Proof.
  assert (Hf : forall l z, (fold_left Z.max l z = z \/ fold_left Z.max l z ∈ l) /\
                z <= fold_left Z.max l z /\ forall d, d ∈ l -> d <= fold_left Z.max l z).
  { induction l as [|a l IH]; intros z; simpl.
    { split_and!; [by left|lia|]. intros d Hd. by apply not_elem_of_nil in Hd. }
    destruct (IH (Z.max z a)) as (H1 & H2 & H3). split_and!; [|lia|].
    - destruct H1 as [->|H1]; [|right; by right]. destruct (Z.max_spec z a) as [[_ ->]|[_ ->]]; [|by left].
      right. by left.
    - intros d [->|Hd]%elem_of_cons; [lia|by apply H3]. }
  intros Hne. unfold max_value, dvalues. destruct depth as [|[k0 d0] depth]; [done|]. cbn [map snd].
  destruct (Hf (map snd depth) d0) as (H1 & H2 & H3). split.
  - destruct H1 as [->|H1]; [exists k0; by left|]. apply list_elem_of_fmap in H1 as ([k d] & E & Hin).
    exists k. right. simpl in E. by rewrite E.
  - intros k d [E|Hin]%elem_of_cons; [injection E as -> ->; done|]. apply H3.
    apply list_elem_of_fmap. by exists (k, d).
Qed.
End Depth.

Lemma walk_last {A} (R : A -> A -> Prop) x l z y :
  walk R x (l ++ [z]) y -> y = z /\ exists w, walk R x l w /\ R w z.
Proof.
  revert x. induction l as [|a l IH]; intros x; cbn [app walk].
  - intros [H1 <-]. split; [done|]. by exists x.
  - intros [H1 H2]. destruct (IH a H2) as (E & w & Hw & Hr). split; [done|]. by exists w.
Qed.

(** No chain is longer than the depth of its end. *)
Lemma longest_bound g P depth x l y :
  depth_ok g P depth -> (forall k, k ∈ P -> dget k depth <> None) ->
  (forall a b, dep g E_DEPENDS_ON a b -> a ∈ P /\ b ∈ P) -> y ∈ P ->
  walk (dep g E_DEPENDS_ON) x l y -> exists d, dget y depth = Some d /\ Z.of_nat (length l) <= d.
Proof.
  intros Hd Hk Hin. revert y. induction l as [|z l IH] using rev_ind; intros y Hy Hw.
  - destruct (dget y depth) as [d|] eqn:Ey; [|by destruct (Hk y Hy)].
    exists d. split; [done|]. destruct (dp_chain _ _ _ Hd y d Ey) as (x' & l & _ & <-). simpl. lia.
  - apply walk_last in Hw as (-> & w & Hw & Hr). destruct (Hin _ _ Hr) as [HwP Hz].
    destruct (IH w HwP Hw) as (dw & Ew & Hle).
    destruct (dget z depth) as [d|] eqn:Ez; [|by destruct (Hk z Hz)]. exists d. split; [done|].
    pose proof (dp_edge _ _ _ Hd w z dw d HwP Hr Ew Ez). rewrite length_app. cbn [length]. lia.
Qed.

Lemma sorted_graph g : graph_ok g ->
  match topological_sort g E_DEPENDS_ON with
  | Some (Ok r) => map n_id r ≡ₚ dkeys (g_nodes g) /\
      (forall a b, dep g E_DEPENDS_ON a b -> before (map n_id r) a b) /\
      (forall a, ~ tc (dep g E_DEPENDS_ON) a a)
  | Some (Raise x) => x = cycle_error /\ exists a, tc (dep g E_DEPENDS_ON) a a
  | None => False
  end.
Proof.
  intros Hg. destruct (topological_sort_run g E_DEPENDS_ON Hg) as (P & d & r & Hi & ->).
  pose proof (topo_inv_lengths g _ P d r Hi) as Hl.
  destruct (Nat.eqb_spec (length r) (length (g_nodes g))) as [E|E].
  - fold (sorted_ids r). rewrite (topo_result_ids g _ P d r) by done.
    apply (final_order g _ Hg P d r Hi). congruence.
  - split; [done|]. apply (short_run_cycle g _ Hg P d r Hi). congruence.
Qed.

Lemma depth_run g : graph_ok g -> exists d, max_dependency_depth g = Some (Ok d) /\
  if decide (d = -1) then exists a, tc (dep g E_DEPENDS_ON) a a
  else (forall a, ~ tc (dep g E_DEPENDS_ON) a a) /\ 0 <= d /\
       (g_nodes g <> [] -> exists x l y, walk (dep g E_DEPENDS_ON) x l y /\ Z.of_nat (length l) = d) /\
       (forall x l y, walk (dep g E_DEPENDS_ON) x l y -> Z.of_nat (length l) <= d).
Proof.
  intros Hg. unfold max_dependency_depth. pose proof (sorted_graph g Hg) as Hs.
  destruct (topological_sort g E_DEPENDS_ON) as [[r|ex]|]; [| |done].
  2:{ destruct Hs as [-> Hc]. exists (-1). by split. }
  destruct Hs as (HP & Hb & Hac). set (ids := map n_id r) in *.
  assert (Hnd : NoDup ids) by (rewrite HP; apply (ok_nodes g Hg)).
  assert (Hends : forall a b, dep g E_DEPENDS_ON a b -> a ∈ ids /\ b ∈ ids).
  { intros a b Hab. destruct (Hb a b Hab) as (l1 & l2 & l3 & ->). split; set_solver. }
  set (start := dtable (fun _ => 0) ids).
  assert (Hstart : forall k, k ∈ ids -> dget k start = Some 0) by (intros k Hk; unfold start; by rewrite dget_dtable).
  assert (Hnone : forall k d, dget k start = Some d -> d = 0).
  { intros k d Ek. apply dget_elem in Ek. unfold start, dtable in Ek.
    apply list_elem_of_fmap in Ek as (? & [= _ ->] & _). done. }
  destruct (fill_depths_ok g Hg ids [] r start) as (depth & Ed & Hok & Hmono); [done|done|done| |by intros k Hk; rewrite Hstart|].
  { split; [|intros a b da db Ha; by apply not_elem_of_nil in Ha]. intros k d Ek. exists k, [].
    split; [done|]. by rewrite (Hnone k d Ek). }
  assert (Hin : forall k, k ∈ ids -> dget k depth <> None).
  { intros k Hk. destruct (Hmono k 0 (Hstart k Hk)) as (d' & -> & _). done. }
  fold start. rewrite Ed.
  destruct r as [|n0 r0] eqn:Er.
  { exists 0. split; [done|]. rewrite decide_False by done. split_and!; [done|lia| |].
    - intros Hne. destruct Hne. apply Permutation_nil in HP. unfold dkeys in HP. by apply map_eq_nil in HP.
    - intros x l y Hw. destruct l as [|z l]; [done|]. destruct Hw as [Hr _].
      apply Hends in Hr as [Hx _]. by apply not_elem_of_nil in Hx. }
  exists (max_value depth). split; [done|].
  assert (Hd0 : exists d0, dget (n_id n0) depth = Some d0).
  { destruct (Hmono (n_id n0) 0) as (d0 & E0 & _); [apply Hstart; by left|by exists d0]. }
  destruct Hd0 as [d0 Ed0]. assert (Hne : depth <> []) by (by intros ->).
  destruct (max_value_spec depth Hne) as [[k Hk] Hle].
  assert (Hpos : 0 <= max_value depth).
  { destruct (Hmono (n_id n0) 0) as (d1 & E1 & H1); [apply Hstart; by left|].
    apply dget_elem in E1. pose proof (Hle _ _ E1). lia. }
  rewrite decide_False by lia. split_and!; [done|done| |].
  - intros _. apply elem_dget in Hk; [|unfold dict_ok; rewrite (fill_depths_keys g _ _ _ Ed); unfold start; by rewrite dkeys_dtable].
    destruct (dp_chain _ _ _ Hok _ _ Hk) as (x & l & Hw & Hl). by exists x, l, k.
  - intros x l y Hw. destruct l as [|z l]; [simpl; lia|].
    assert (Hy : y ∈ ids).
    { destruct (exists_last (l := z :: l)) as (l' & z' & E); [done|]. rewrite E in Hw.
      apply walk_last in Hw as (-> & w & _ & Hr). by apply Hends in Hr as []. }
    destruct (longest_bound g ids depth x (z :: l) y Hok Hin Hends Hy Hw) as (d & Ey & Hl).
    apply dget_elem in Ey. pose proof (Hle _ _ Ey). lia.
Qed.

(** ** Evaluation *)

Definition same_ends (e e' : GraphEdge) : Prop :=
  source_id e = source_id e' /\ target_id e = target_id e' /\ edge_type e = edge_type e'.

Lemma filter_alike (p p' : GraphEdge -> bool) es es' :
  (forall e e', same_ends e e' -> p e = p' e') -> Forall2 same_ends es es' ->
  Forall2 same_ends (List.filter p es) (List.filter p' es').
Proof.
  intros Hp. induction 1 as [|e e' es es' He _ IH]; [constructor|]. simpl. rewrite (Hp e e' He).
  destruct (p' e'); [by constructor|done].
Qed.
Lemma count_alike (p p' : GraphEdge -> bool) es es' :
  (forall e e', same_ends e e' -> p e = p' e') -> Forall2 same_ends es es' ->
  length (List.filter p es) = length (List.filter p' es').
Proof. intros Hp Hes. by eapply Forall2_length, filter_alike. Qed.
Lemma fold_alike {A} (f f' : A -> GraphEdge -> A) es es' a :
  (forall a e e', same_ends e e' -> f a e = f' a e') -> Forall2 same_ends es es' ->
  fold_left f es a = fold_left f' es' a.
Proof.
  intros Hf Hes. revert a. induction Hes as [|e e' es es' He _ IH]; intros a; [done|].
  simpl. by rewrite (Hf a e e' He).
Qed.

(** The same nodes, and edges that differ in their ids and attributes only. *)
Record alike (g g' : TypedGraph) : Prop := {
  al_ok : graph_ok g;
  al_ok' : graph_ok g';
  al_nodes : g_nodes g = g_nodes g';
  al_edges : Forall2 same_ends (edges g) (edges g');
}.

Section Alike.
Context (g g' : TypedGraph) (Ha : alike g g').

Lemma out_alike k : Forall2 same_ends (out_edges g k) (out_edges g' k).
Proof. apply filter_alike; [|apply Ha]. by intros e e' (-> & _ & _). Qed.
Lemma in_alike k : Forall2 same_ends (in_edges g k) (in_edges g' k).
Proof. apply filter_alike; [|apply Ha]. by intros e e' (_ & -> & _). Qed.

Lemma outgoing k : get_outgoing_edges g k = Ok (out_edges g k) /\ get_outgoing_edges g' k = Ok (out_edges g' k).
Proof. split; apply get_outgoing_edges_spec; apply Ha. Qed.
Lemma incoming k : get_incoming_edges g k = Ok (in_edges g k) /\ get_incoming_edges g' k = Ok (in_edges g' k).
Proof. split; apply get_incoming_edges_spec; apply Ha. Qed.

Lemma nodes_alike : nodes g = nodes g'.
Proof. unfold nodes. by rewrite (al_nodes _ _ Ha). Qed.
Lemma by_type_alike t : get_nodes_by_type g t = get_nodes_by_type g' t.
Proof. unfold get_nodes_by_type. by rewrite nodes_alike. Qed.

Lemma sort_alike t : topological_sort g t = topological_sort g' t.
Proof.
  unfold topological_sort, node_table. rewrite nodes_alike.
  match goal with |- context [topo_fill t ?ns _ ?a ?d] =>
    assert (E : forall es es' adj deg, Forall2 same_ends es es' ->
      topo_fill t ns es adj deg = topo_fill t ns es' adj deg) end.
  { intros es es' adj deg Hes. revert adj deg. induction Hes as [|e e' es es' (H1 & H2 & H3) _ IH]; intros adj deg;
      [done|]. cbn [topo_fill]. rewrite H1, H2, H3. unfold_monad.
    repeat case_match; try done; apply IH. }
  rewrite (E _ _ _ _ (al_edges _ _ Ha)). done.
Qed.

(** *** Every metric is the same *)

Lemma depth_alike : max_dependency_depth g = max_dependency_depth g'.
Proof.
  unfold max_dependency_depth. rewrite sort_alike.
  assert (E : forall ns d, fill_depths g ns d = fill_depths g' ns d).
  { induction ns as [|n ns IH]; intros d; [done|]. cbn [fill_depths].
    destruct (outgoing (n_id n)) as [-> ->]. unfold_monad.
    rewrite (fold_alike (deepen (n_id n)) (deepen (n_id n)) _ (out_edges g' (n_id n))); [apply IH| |apply out_alike].
    intros a e e' (_ & H2 & H3). unfold deepen. by rewrite H2, H3. }
  destruct (topological_sort g' E_DEPENDS_ON) as [[[|n ns]|ex]|]; try done. by rewrite E.
Qed.

Lemma edge_count_alike : edge_count g = edge_count g'.
Proof.
  pose proof (Forall2_length _ _ _ (al_edges _ _ Ha)) as E. unfold edges, dvalues in E.
  by rewrite !length_map in E.
Qed.

Lemma complexity_alike : evaluate_complexity g = evaluate_complexity g'.
Proof.
  unfold evaluate_complexity, compute_complexity_score, graph_density, node_count.
  by rewrite depth_alike, edge_count_alike, (al_nodes _ _ Ha).
Qed.

Lemma sum_counts_ext {A} (f f' : A -> res Z) xs : (forall x, f x = f' x) -> sum_counts f xs = sum_counts f' xs.
Proof. intros Hf. induction xs as [|x xs IH]; [done|]. cbn [sum_counts]. by rewrite Hf, IH. Qed.
Lemma map_res_ext {A B} (f f' : A -> res B) xs : (forall x, f x = f' x) -> map_res f xs = map_res f' xs.
Proof. intros Hf. induction xs as [|x xs IH]; [done|]. cbn [map_res]. by rewrite Hf, IH. Qed.

Lemma size_alike : average_module_size g = average_module_size g'.
Proof.
  unfold average_module_size. rewrite (by_type_alike N_MODULE). destruct (get_nodes_by_type g' _); [done|].
  rewrite (sum_counts_ext (entities_of g) (entities_of g')); [done|].
  intros m. unfold entities_of. destruct (outgoing (n_id m)) as [-> ->]. unfold_monad.
  rewrite (count_alike _ (fun e => bool_decide (edge_type e = E_OWNS) && is_type N_ENTITY g' (target_id e))
             _ (out_edges g' (n_id m))); [done| |apply out_alike].
  intros e e' (_ & -> & ->). unfold is_type, get_node. by rewrite (al_nodes _ _ Ha).
Qed.

Lemma modules_alike ms table : node_to_module g ms table = node_to_module g' ms table.
Proof.
  revert table. induction ms as [|m ms IH]; intros table; [done|]. cbn [node_to_module].
  destruct (outgoing (n_id m)) as [-> ->]. unfold_monad. rewrite IH. f_equal.
  apply fold_alike; [|apply out_alike]. by intros a e e' (_ & -> & ->).
Qed.

Lemma ends_alike table es es' : Forall2 same_ends es es' -> omap (module_ends table) es = omap (module_ends table) es'.
Proof.
  induction 1 as [|e e' es es' (H1 & H2 & _) _ IH]; [done|]. cbn.
  unfold module_ends in *. by rewrite H1, H2, IH.
Qed.

Lemma dependencies_alike es es' : Forall2 same_ends es es' -> dependencies_in es = dependencies_in es'.
Proof.
  intros Hes. unfold dependencies_in. f_equal. apply count_alike; [|done]. by intros e e' (_ & _ & ->).
Qed.

Lemma inter_module_alike : inter_module_coupling g = inter_module_coupling g'.
Proof.
  unfold inter_module_coupling. rewrite by_type_alike. cbv zeta. destruct (_ <=? _)%nat; [done|].
  rewrite modules_alike. unfold_monad. destruct (node_to_module _ _ _) as [table|]; [|done].
  rewrite (ends_alike table _ (get_edges_by_type g' E_DEPENDS_ON)); [done|].
  apply filter_alike; [|apply Ha]. by intros e e' (_ & _ & ->).
Qed.

Lemma instability_alike ss : average_instability g ss = average_instability g' ss.
Proof.
  destruct ss as [|s ss]; [done|]. unfold average_instability.
  rewrite (map_res_ext (fun s => instability_index g (n_id s)) (fun s => instability_index g' (n_id s))); [done|].
  intros x. unfold instability_index, afferent_coupling, efferent_coupling.
  destruct (outgoing (n_id x)) as [-> ->], (incoming (n_id x)) as [-> ->]. unfold_monad.
  by rewrite (dependencies_alike _ _ (out_alike (n_id x))), (dependencies_alike _ _ (in_alike (n_id x))).
Qed.

Lemma coupling_alike : evaluate_coupling g = evaluate_coupling g'.
Proof.
  unfold evaluate_coupling, compute_coupling_score.
  by rewrite inter_module_alike, by_type_alike, instability_alike.
Qed.

Lemma cohesion_alike : evaluate_cohesion g = evaluate_cohesion g'.
Proof.
  unfold evaluate_cohesion, compute_cohesion_score, average_cohesion. rewrite by_type_alike.
  destruct (get_nodes_by_type g' _); [done|].
  rewrite (map_res_ext (fun m => module_cohesion g (n_id m)) (fun m => module_cohesion g' (n_id m))); [done|].
  intros m. unfold module_cohesion. destruct (outgoing (n_id m)) as [-> ->]. unfold_monad.
  assert (E : owned_targets (out_edges g (n_id m)) = owned_targets (out_edges g' (n_id m))).
  { apply fold_alike; [|apply out_alike]. by intros a e e' (_ & -> & ->). }
  rewrite E. rewrite (sum_counts_ext (edges_into g _) (edges_into g' (owned_targets (out_edges g' (n_id m))))); [done|].
  intros k. unfold edges_into. destruct (outgoing k) as [-> ->]. unfold_monad. f_equal. f_equal.
  apply count_alike; [|apply out_alike]. by intros e e' (_ & -> & _).
Qed.

Lemma exists_alike p es es' : (forall e e', same_ends e e' -> p e = p e') -> Forall2 same_ends es es' ->
  existsb p es = existsb p es'.
Proof. intros Hp. induction 1 as [|e e' es es' He _ IH]; [done|]. simpl. by rewrite (Hp e e' He), IH. Qed.

Lemma security_alike : evaluate_security g = evaluate_security g'.
Proof.
  unfold evaluate_security. rewrite by_type_alike. destruct (get_nodes_by_type g' _); [done|].
  rewrite (sum_counts_ext (has_policy g) (has_policy g')); [done|].
  intros i. unfold has_policy. destruct (outgoing (n_id i)) as [-> ->]. unfold_monad.
  rewrite (exists_alike _ _ (out_edges g' (n_id i))); [done| |apply out_alike]. by intros e e' (_ & _ & ->).
Qed.

Lemma evaluate_alike : evaluate g = evaluate g'.
Proof.
  unfold evaluate, evaluate_architecture_quality, evaluate_maintainability, evaluate_scalability,
    evaluate_reliability, evaluate_deployment, evaluate_observability, evaluate_documentation,
    evaluate_extensibility.
  by rewrite complexity_alike, coupling_alike, cohesion_alike, security_alike, size_alike, !by_type_alike.
Qed.
End Alike.

(** *** No metric fails *)

Section Total.
Context (g : TypedGraph) (Hg : graph_ok g).

Lemma sum_counts_total {A} (f : A -> res Z) xs : (forall x, exists n, f x = Ok n) -> exists n, sum_counts f xs = Ok n.
Proof.
  intros Hf. induction xs as [|x xs [n IH]]; [by eexists|]. cbn [sum_counts].
  destruct (Hf x) as [m E]. unfold_monad. rewrite E, IH. by eexists.
Qed.

Lemma entities_total m : exists n, entities_of g m = Ok n.
Proof. unfold entities_of. rewrite get_outgoing_edges_spec by done. by eexists. Qed.
Lemma size_total : exists x, average_module_size g = Ok x.
Proof.
  unfold average_module_size. destruct (get_nodes_by_type g N_MODULE) as [|m ms]; [by eexists|].
  destruct (sum_counts_total (entities_of g) (m :: ms) entities_total) as [n E].
  unfold_monad. rewrite E. by eexists.
Qed.
Lemma coupling_total : exists x, evaluate_coupling g = Ok x.
Proof.
  assert (Hm : forall ms table, exists t, node_to_module g ms table = Ok t).
  { induction ms as [|m ms IH]; intros table; [by eexists|]. cbn [node_to_module].
    rewrite get_outgoing_edges_spec by done. unfold_monad. apply IH. }
  assert (Hi : forall s, exists x, instability_index g (n_id s) = Ok x).
  { intros s. unfold instability_index, afferent_coupling, efferent_coupling.
    rewrite get_outgoing_edges_spec, get_incoming_edges_spec by done. by eexists. }
  assert (H1 : exists x, inter_module_coupling g = Ok x).
  { unfold inter_module_coupling. cbv zeta. destruct (_ <=? _)%nat; [by eexists|].
    destruct (Hm (get_nodes_by_type g N_MODULE) []) as [t Et]. unfold_monad. rewrite Et.
    case_match; by eexists. }
  assert (H2 : exists x, average_instability g (get_nodes_by_type g N_SERVICE) = Ok x).
  { unfold average_instability. destruct (get_nodes_by_type g N_SERVICE) as [|s ss]; [by eexists|].
    destruct (map_res_returns (fun s => instability_index g (n_id s)) (s :: ss)) as [xs E]; [apply Hi|].
    unfold_monad. rewrite E. by eexists. }
  destruct H1 as [x1 E1], H2 as [x2 E2]. unfold evaluate_coupling, compute_coupling_score. unfold_monad.
  rewrite E1, E2. by eexists.
Qed.
Lemma cohesion_total : exists x, evaluate_cohesion g = Ok x.
Proof.
  assert (Hm : forall m, exists x, module_cohesion g (n_id m) = Ok x).
  { intros m. unfold module_cohesion. rewrite get_outgoing_edges_spec by done. unfold_monad.
    case_match; [by eexists|]. set (owned := owned_targets _).
    destruct (sum_counts_total (edges_into g owned) owned) as [n E].
    { intros k. unfold edges_into. rewrite get_outgoing_edges_spec by done. by eexists. }
    rewrite E. by eexists. }
  unfold evaluate_cohesion, compute_cohesion_score, average_cohesion.
  destruct (get_nodes_by_type g N_MODULE) as [|m ms]; [by eexists|].
  destruct (map_res_returns (fun m => module_cohesion g (n_id m)) (m :: ms)) as [xs E]; [apply Hm|].
  unfold_monad. rewrite E. by eexists.
Qed.
Lemma security_total : exists x, evaluate_security g = Ok x.
Proof.
  unfold evaluate_security. destruct (get_nodes_by_type g N_INTERFACE) as [|i is_]; [by eexists|].
  destruct (sum_counts_total (has_policy g) (i :: is_)) as [n E].
  { intros x. unfold has_policy. rewrite get_outgoing_edges_spec by done. by eexists. }
  unfold_monad. rewrite E. by eexists.
Qed.

Lemma evaluate_total : exists v, evaluate g = Some (Ok v).
Proof.
  destruct (depth_run g Hg) as (d & Ed & _), coupling_total as [x1 E1], cohesion_total as [x2 E2].
  destruct security_total as [x3 E3], size_total as [x4 E4].
  unfold evaluate, evaluate_architecture_quality, evaluate_complexity, compute_complexity_score,
    evaluate_maintainability. rewrite Ed, E1, E2, E3, E4. cbn. by eexists.
Qed.
End Total.

(** C38: on every graph the mutators can build, the dependency depth is -1
    exactly when dependencies form a cycle, and otherwise the length of the
    longest chain of dependencies: there is a chain of this length (unless the
    graph is empty) and none is longer.  The sort it relies on never fails. *)
Theorem dependency_depth_is_longest_chain g : built g ->
  exists d, max_dependency_depth g = Some (Ok d) /\
  if decide (d = -1) then exists a, tc (dep g E_DEPENDS_ON) a a
  else (forall a, ~ tc (dep g E_DEPENDS_ON) a a) /\ 0 <= d /\
       (g_nodes g <> [] -> exists x l y, walk (dep g E_DEPENDS_ON) x l y /\ Z.of_nat (length l) = d) /\
       (forall x l y, walk (dep g E_DEPENDS_ON) x l y -> Z.of_nat (length l) <= d).
Proof.
  intros Hg%built_ok.
  destruct (depth_run g Hg) as (d & Ed & Hd). exists d. split; [exact Ed|]. exact Hd.
Qed.

(** ** Witnesses *)

Definition chain_graph : TypedGraph :=
  graph_of [sample_node "c"; sample_node "a"; sample_node "b"]
           [sample_edge "e1" "a" "b"; sample_edge "e2" "b" "c"; sample_edge "e3" "a" "c"].

Lemma dependency_depth_is_longest_chain_witness :
  exists d, max_dependency_depth chain_graph = Some (Ok d) /\ d = 2 /\
    forall x l y, walk (dep chain_graph E_DEPENDS_ON) x l y -> Z.of_nat (length l) <= 2.
Proof.
  destruct (dependency_depth_is_longest_chain chain_graph (graph_of_built _ _)) as (d & E & Hd).
  assert (E2 : d = 2) by (vm_compute in E; injection E as <-; reflexivity).
  exists d. split; [exact E|]. split; [exact E2|]. rewrite E2 in Hd.
  change (if decide (2 = -1) then exists a, tc (dep chain_graph E_DEPENDS_ON) a a
          else (forall a, ~ tc (dep chain_graph E_DEPENDS_ON) a a) /\ 0 <= 2 /\
               (g_nodes chain_graph <> [] -> exists x l y, walk (dep chain_graph E_DEPENDS_ON) x l y /\ Z.of_nat (length l) = 2) /\
               (forall x l y, walk (dep chain_graph E_DEPENDS_ON) x l y -> Z.of_nat (length l) <= 2)) in Hd.
  destruct (decide (2 = -1)) as [C|_]; [discriminate C|]. apply Hd.
Defined.

(** Cohesion counts every edge but divides by the pairs of nodes: parallel edges
    push it above 1. *)
Definition parallel_graph : TypedGraph :=
  let node t k := {| n_id := k; node_type := t; label := k; n_attributes := []; parent_id := None |} in
  let edge t k a b := {| e_id := k; source_id := a; target_id := b; edge_type := t;
                         e_attributes := default_edge_attributes; e_metadata := [] |} in
  graph_of [node N_MODULE "m"; node N_SERVICE "a"; node N_SERVICE "b"]
    [edge E_OWNS "o1" "m" "a"; edge E_OWNS "o2" "m" "b"; edge E_DEPENDS_ON "d1" "a" "b";
     edge E_DEPENDS_ON "d2" "a" "b"; edge E_EMITS "d3" "a" "b"].
Lemma cohesion_above_one : match evaluate parallel_graph with
  | Some (Ok v) => sf_cohesion v = of_ratio 15 10
  | _ => False end.
Proof. vm_compute. reflexivity. Qed.
