(* ===== verification/FinModels.v ===== *)
(** * Data of the marketplace financial control plane

    [product_factory/marketplace_financial_hardening/models.py]: the enums,
    records and policy; the clock and the identifier generator; the port to
    the governance kernel.  Timestamps are microseconds since the epoch.  The
    pydantic constructors draw the default id and creation time of a record
    from the environment in field order. *)

From S2P Require Import Prelude PyFloat PyVal.

(** ** The environment *)

(** What the code reads from outside: uuid4, the clock, and the text of a
    float in a message. *)
Class Env := {
  uuid_hex : nat -> string;
  clock : nat -> Z;
  float_repr : float -> string;
}.

(** How often the uuid generator and the clock have been read. *)
Record World : Set := { uuids_drawn : nat; clock_reads : nat }.
Definition world0 : World := {| uuids_drawn := 0; clock_reads := 0 |}.

Section Env.
Context `{Env}.

Definition utcnow : M World Z := fun w =>
  (Ok (clock (clock_reads w)),
   {| uuids_drawn := uuids_drawn w; clock_reads := S (clock_reads w) |}).

Definition new_id (prefix : string) : M World string := fun w =>
  (Ok (prefix +:+ "_" +:+ String.substring 0 16 (uuid_hex (uuids_drawn w))),
   {| uuids_drawn := S (uuids_drawn w); clock_reads := clock_reads w |}).
End Env.

(** ** Enums *)

Inductive PaymentStatus : Set :=
| PAY_CREATED | PAY_AUTHORIZED | PAY_CAPTURED | PAY_FAILED | PAY_REFUNDED
| PAY_PARTIALLY_REFUNDED | PAY_CANCELLED | PAY_REQUIRES_ACTION.

Definition payment_status_value (s : PaymentStatus) : string :=
  match s with
  | PAY_CREATED => "CREATED" | PAY_AUTHORIZED => "AUTHORIZED" | PAY_CAPTURED => "CAPTURED"
  | PAY_FAILED => "FAILED" | PAY_REFUNDED => "REFUNDED"
  | PAY_PARTIALLY_REFUNDED => "PARTIALLY_REFUNDED" | PAY_CANCELLED => "CANCELLED"
  | PAY_REQUIRES_ACTION => "REQUIRES_ACTION"
  end.

Inductive RefundStatus : Set :=
| REQUESTED | PENDING_APPROVAL | APPROVED | REJECTED | PROCESSING | COMPLETED | REFUND_FAILED.

Inductive LedgerEntryType : Set :=
| PAYMENT_CAPTURED | PAYMENT_FAILED | REFUND_REQUESTED | REFUND_APPROVED | REFUND_COMPLETED
| FEE_CHARGED | FEE_ADJUSTED | TAX_CALCULATED | TAX_ADJUSTED | PAYOUT_PLANNED | PAYOUT_COMPLETED.

Definition ledger_entry_type_value (t : LedgerEntryType) : string :=
  match t with
  | PAYMENT_CAPTURED => "PAYMENT_CAPTURED" | PAYMENT_FAILED => "PAYMENT_FAILED"
  | REFUND_REQUESTED => "REFUND_REQUESTED" | REFUND_APPROVED => "REFUND_APPROVED"
  | REFUND_COMPLETED => "REFUND_COMPLETED" | FEE_CHARGED => "FEE_CHARGED"
  | FEE_ADJUSTED => "FEE_ADJUSTED" | TAX_CALCULATED => "TAX_CALCULATED"
  | TAX_ADJUSTED => "TAX_ADJUSTED" | PAYOUT_PLANNED => "PAYOUT_PLANNED"
  | PAYOUT_COMPLETED => "PAYOUT_COMPLETED"
  end.

Inductive FraudAction : Set := FRAUD_ALLOW | FRAUD_REVIEW | FRAUD_HOLD | FRAUD_BLOCK.
Inductive SLAStatus : Set := SLA_OK | SLA_WARNING | SLA_BREACH.
Inductive SLAStatusOverall : Set := SLA_HEALTHY | SLA_DEGRADED | SLA_OVERALL_BREACH.

Inductive SLADomain : Set :=
| PAYMENT_WEBHOOK_PROCESSING_LATENCY | PAYMENT_EVENT_INGESTION_SUCCESS_RATE
| REFUND_PROCESSING_LATENCY | RECONCILIATION_FRESHNESS | FRAUD_ASSESSMENT_LATENCY
| TAX_CALCULATION_LATENCY | MARKETPLACE_API_AVAILABILITY | LISTING_PUBLICATION_LATENCY.

Definition sla_domain_value (d : SLADomain) : string :=
  match d with
  | PAYMENT_WEBHOOK_PROCESSING_LATENCY => "payment_webhook_processing_latency"
  | PAYMENT_EVENT_INGESTION_SUCCESS_RATE => "payment_event_ingestion_success_rate"
  | REFUND_PROCESSING_LATENCY => "refund_processing_latency"
  | RECONCILIATION_FRESHNESS => "reconciliation_freshness"
  | FRAUD_ASSESSMENT_LATENCY => "fraud_assessment_latency"
  | TAX_CALCULATION_LATENCY => "tax_calculation_latency"
  | MARKETPLACE_API_AVAILABILITY => "marketplace_api_availability"
  | LISTING_PUBLICATION_LATENCY => "listing_publication_latency"
  end.

Definition all_sla_domains : list SLADomain :=
  [ PAYMENT_WEBHOOK_PROCESSING_LATENCY; PAYMENT_EVENT_INGESTION_SUCCESS_RATE;
    REFUND_PROCESSING_LATENCY; RECONCILIATION_FRESHNESS; FRAUD_ASSESSMENT_LATENCY;
    TAX_CALCULATION_LATENCY; MARKETPLACE_API_AVAILABILITY; LISTING_PUBLICATION_LATENCY ].

Inductive SLAComparator : Set := LESS_THAN_MS | GREATER_THAN_RATE.

Inductive GovernanceAction : Set :=
| MARKETPLACE_FEE_CHANGE | MARKETPLACE_PRICING_POLICY_CHANGE | REFUND_ABOVE_THRESHOLD
| TAX_POLICY_CHANGE | FRAUD_POLICY_CHANGE | PAYOUT_POLICY_CHANGE | FINANCIAL_ROLLBACK
| MARKETPLACE_EMERGENCY_SUSPENSION | MARKETPLACE_DELISTING
| FINANCIAL_COMPLIANCE_CERTIFICATION.

Inductive ReconciliationMismatchKind : Set :=
| PAYMENT_EVENT_MISSING_LEDGER | LEDGER_MISSING_PAYMENT_EVENT | AMOUNT_MISMATCH
| CURRENCY_MISMATCH | STATUS_MISMATCH | DUPLICATE_IDEMPOTENCY_KEY
| REFUND_WITHOUT_ORIGINAL_PAYMENT | REFUND_EXCEEDS_CAPTURED | FEE_MISMATCH | TAX_MISMATCH.

Inductive ReconciliationSeverity : Set := SEV_LOW | SEV_MEDIUM | SEV_HIGH | SEV_CRITICAL.
Inductive ReconciliationStatus : Set := HEALTHY | MISMATCHES_DETECTED | RECON_FAILED.

#[export] Instance PaymentStatus_eq_dec : EqDecision PaymentStatus.
Proof. solve_decision. Defined.
#[export] Instance RefundStatus_eq_dec : EqDecision RefundStatus.
Proof. solve_decision. Defined.
#[export] Instance LedgerEntryType_eq_dec : EqDecision LedgerEntryType.
Proof. solve_decision. Defined.
#[export] Instance SLADomain_eq_dec : EqDecision SLADomain.
Proof. solve_decision. Defined.
#[export] Instance MismatchKind_eq_dec : EqDecision ReconciliationMismatchKind.
Proof. solve_decision. Defined.
#[export] Instance ReconSeverity_eq_dec : EqDecision ReconciliationSeverity.
Proof. solve_decision. Defined.

(** ** Records *)

Record PaymentWebhookEnvelope : Set := {
  env_provider : string;
  env_provider_event_id : string;
  env_idempotency_key : option string;
  env_signature : option string;
  env_timestamp : option Z;
  env_payload : pydict;
}.

Record PaymentIntent : Set := {
  pi_intent_id : string;
  pi_marketplace_id : string;
  pi_order_id : string;
  pi_listing_id : string;
  pi_tenant_id : string;
  pi_amount : float;
  pi_currency : string;
  pi_status : PaymentStatus;
  pi_provider : string;
  pi_provider_intent_id : option string;
  pi_created_at : Z;
  pi_updated_at : Z;
  pi_idempotency_key : option string;
  pi_approval_ref : option string;
  pi_governance_ref : option string;
}.

Record PaymentEvent : Set := {
  pe_event_id : string;
  pe_intent_id : option string;
  pe_marketplace_id : string;
  pe_order_id : string;
  pe_listing_id : string;
  pe_tenant_id : string;
  pe_provider : string;
  pe_provider_event_id : string;
  pe_status : PaymentStatus;
  pe_amount : float;
  pe_currency : string;
  pe_idempotency_key : option string;
  pe_timestamp : Z;
  pe_normalized : bool;
  pe_evidence_ref : option string;
  pe_audit_ref : option string;
}.

Record RefundRequest : Set := {
  rf_refund_id : string;
  rf_marketplace_id : string;
  rf_order_id : string;
  rf_listing_id : string;
  rf_tenant_id : string;
  rf_amount : float;
  rf_currency : string;
  rf_original_payment_event_id : option string;
  rf_reason_code : string;
  rf_reason : string;
  rf_requested_by : string;
  rf_status : RefundStatus;
  rf_governance_ref : option string;
  rf_approval_ref : option string;
  rf_created_at : Z;
  rf_updated_at : Z;
  rf_idempotency_key : option string;
  rf_completed_at : option Z;
}.

Record FinancialLedgerEntry : Set := {
  le_ledger_id : string;
  le_marketplace_id : string;
  le_order_id : option string;
  le_listing_id : option string;
  le_tenant_id : option string;
  le_entry_type : LedgerEntryType;
  le_amount : float;
  le_currency : string;
  le_status : string;
  le_idempotency_key : option string;
  le_source_event_id : option string;
  le_governance_ref : option string;
  le_actor : string;
  le_reason : string;
  le_evidence_ref : option string;
  le_created_at : Z;
}.

Record ReconciliationMismatch : Set := {
  mm_mismatch_id : string;
  mm_marketplace_id : string;
  mm_order_id : option string;
  mm_kind : ReconciliationMismatchKind;
  mm_severity : ReconciliationSeverity;
  mm_details : string;
  mm_evidence_refs : list string;
  mm_governance_ref : option string;
  mm_detected_at : Z;
}.

Record ReconciliationReport : Set := {
  rr_report_id : string;
  rr_marketplace_id : string;
  rr_generated_at : Z;
  rr_total_entries : nat;
  rr_mismatch_count : nat;
  rr_mismatches : list ReconciliationMismatch;
  rr_summary : list (ReconciliationMismatchKind * nat);
  rr_governance_ref : option string;
  rr_status : ReconciliationStatus;
}.

Record TaxCalculationRequest : Set := {
  tq_tax_request_id : string;
  tq_marketplace_id : string;
  tq_order_id : string;
  tq_listing_id : string;
  tq_tenant_id : string;
  tq_jurisdiction : string;
  tq_amounts : list pydict;
  tq_currency : string;
  tq_provider : string;
  tq_evidence_ref : option string;
}.

Record TaxCalculationResult : Set := {
  tr_tax_request_id : string;
  tr_provider : string;
  tr_jurisdiction : string;
  tr_tax_rate : float;
  tr_tax_amount : float;
  tr_currency : string;
  tr_provider_reference : option string;
  tr_calculated_at : Z;
  tr_evidence_ref : option string;
}.

Record FraudAssessment : Set := {
  fa_assessment_id : string;
  fa_listing_id : option string;
  fa_tenant_id : option string;
  fa_order_id : option string;
  fa_provider : string;
  fa_fraud_score : float;
  fa_risk_indicators : list string;
  fa_action : FraudAction;
  fa_provider_reference : option string;
  fa_timestamp : Z;
  fa_evidence_ref : option string;
  fa_governance_ref : option string;
}.

Record SLADefinition : Set := {
  sd_domain : SLADomain;
  sd_target_value : float;
  sd_comparator : SLAComparator;
  sd_window_seconds : Z;
  sd_warning_threshold_pct : float;
  sd_breach_threshold_pct : float;
  sd_severity_on_breach : ReconciliationSeverity;
}.

Record SLAStatusItem : Set := {
  si_domain : SLADomain;
  si_status : SLAStatus;
  si_current_value : float;
  si_target_value : float;
  si_breach_count : nat;
  si_last_breach_at : option Z;
}.

Record SLAStatusReport : Set := {
  sr_marketplace_id : string;
  sr_generated_at : Z;
  sr_items : list SLAStatusItem;
  sr_overall_status : SLAStatusOverall;
  sr_alerts : list string;
  sr_recommendations : list string;
}.

Record FinancialComplianceGate : Set := {
  gate_name : string;
  gate_passed : bool;
  gate_severity : string;
  gate_reason : string;
  gate_evidence_refs : list string;
}.

Record FinancialComplianceReport : Set := {
  cr_report_id : string;
  cr_marketplace_id : string;
  cr_scope : string;
  cr_status : string;
  cr_gates : list FinancialComplianceGate;
  cr_reasons : list string;
  cr_evidence_refs : list string;
  cr_prerequisite : option string;
  cr_certified_by : string;
  cr_created_at : Z;
  cr_expires_at : option Z;
  cr_revoked_at : option Z;
  cr_revocation_reason : option string;
}.

Record MarketplaceFinancialPolicy : Set := {
  pol_marketplace_id : string;
  auto_approve_refund_threshold_amount : float;
  auto_approve_refund_threshold_currency : string;
  auto_approve_small_refunds : bool;
  require_governance_for_refund_above_threshold : bool;
  require_governance_for_fee_changes : bool;
  require_governance_for_tax_policy : bool;
  require_governance_for_fraud_policy : bool;
  block_uncertified_products : bool;
  block_fraud_flagged_from_publication : bool;
  min_fraud_score_to_hold : float;
  min_fraud_score_to_block : float;
  payment_webhook_signature_required : bool;
  financial_certification_ttl_days : Z;
  require_human_financial_certification : bool;
  allow_conditional_financial_certification : bool;
  fail_closed_on_adapter_error : bool;
}.

Definition default_policy : MarketplaceFinancialPolicy := {|
  pol_marketplace_id := "marketplace_1";
  auto_approve_refund_threshold_amount := of_Z 50;
  auto_approve_refund_threshold_currency := "USD";
  auto_approve_small_refunds := true;
  require_governance_for_refund_above_threshold := true;
  require_governance_for_fee_changes := true;
  require_governance_for_tax_policy := true;
  require_governance_for_fraud_policy := true;
  block_uncertified_products := true;
  block_fraud_flagged_from_publication := true;
  min_fraud_score_to_hold := of_ratio 70 100;
  min_fraud_score_to_block := of_ratio 85 100;
  payment_webhook_signature_required := true;
  financial_certification_ttl_days := 90;
  require_human_financial_certification := true;
  allow_conditional_financial_certification := true;
  fail_closed_on_adapter_error := true;
|}.

Record GovernanceDecision : Set := {
  gd_action : GovernanceAction;
  gd_actor : string;
  gd_allowed : bool;
  gd_decision : string;
  gd_constraints : pydict;
  gd_approval_ref : option string;
  gd_audit_ref : string;
  gd_evidence_refs : list string;
  gd_evaluated_at : Z;
}.

Record FinancialAuditEvent : Set := {
  au_event_id : string;
  au_marketplace_id : string;
  au_action : string;
  au_actor : string;
  au_status : string;
  au_amount : option float;
  au_currency : option string;
  au_idempotency_key : option string;
  au_source_event_id : option string;
  au_governance_ref : option string;
  au_evidence_ref : option string;
  au_reason : string;
  au_created_at : Z;
}.

Record MarketplaceFinancialReadinessEvidence : Set := {
  slo_definitions : list string;
  runbooks : list string;
  incident_response_plans : list string;
  backup_restore_evidence : list string;
  observability_evidence : list string;
  dashboard_refs : list string;
  marketplace_metrics_refs : list string;
  payment_adapter_evidence : list string;
  fraud_evidence : list string;
  tax_evidence : list string;
  audit_evidence : list string;
}.

(** ** The governance port *)

(** [governance.evaluate(action, actor, context, evidence_refs)]: the caller
    may pass a None among the evidence references. *)
Definition GovernancePort : Type :=
  GovernanceAction -> string -> pydict -> list (option string) -> M World GovernanceDecision.

Section Defaults.
Context `{Env}.

(** [GovernanceDecision(action=..., actor=..., allowed=True,
    decision="APPROVED", evidence_refs=...)]. *)
Definition approved_decision (action : GovernanceAction) (actor : string)
    (evidence_refs : list string) : M World GovernanceDecision :=
  audit_ref ← new_id "gov_audit";
  now ← utcnow;
  mret {| gd_action := action; gd_actor := actor; gd_allowed := true; gd_decision := "APPROVED";
          gd_constraints := []; gd_approval_ref := None; gd_audit_ref := audit_ref;
          gd_evidence_refs := evidence_refs; gd_evaluated_at := now |}.
End Defaults.
