(* ===== verification/FinLedger.v ===== *)
(** * The financial ledger

    [product_factory/marketplace_financial_hardening/ledger.py]: an append-only
    ledger that ignores an entry whose idempotency key it has seen.  In every
    ledger it can reach the idempotency keys are unique, so
    [duplicate_idempotency_keys] is empty. *)

From S2P Require Import Prelude PyFloat PyVal FinModels.

Record FinancialLedgerEngine : Set := {
  fl_entries : list (string * FinancialLedgerEntry);
  fl_idempotency_keys : gset string;
  fl_audit_events : list FinancialAuditEvent;
}.

Definition empty_ledger : FinancialLedgerEngine :=
  {| fl_entries := []; fl_idempotency_keys := ∅; fl_audit_events := [] |}.

(** The ledger with the environment its methods read. *)
Record LedgerState : Set := { ls_world : World; ls_ledger : FinancialLedgerEngine }.

Definition in_world {A} (m : M World A) : M LedgerState A :=
  zoom ls_world (fun w s => {| ls_world := w; ls_ledger := ls_ledger s |}) m.

Section Ledger.
Context `{Env}.

(** [FinancialAuditEvent(...)]. *)
Definition new_audit_event (marketplace_id action actor status : string) (amount : option float)
    (currency idempotency_key source_event_id governance_ref evidence_ref : option string)
    (reason : string) : M World FinancialAuditEvent :=
  event_id ← new_id "audit";
  now ← utcnow;
  mret {| au_event_id := event_id; au_marketplace_id := marketplace_id; au_action := action;
          au_actor := actor; au_status := status; au_amount := amount; au_currency := currency;
          au_idempotency_key := idempotency_key; au_source_event_id := source_event_id;
          au_governance_ref := governance_ref; au_evidence_ref := evidence_ref;
          au_reason := reason; au_created_at := now |}.

Definition store_entry (e : FinancialLedgerEntry) (l : FinancialLedgerEngine) :
    FinancialLedgerEngine :=
  {| fl_entries := dset (le_ledger_id e) e (fl_entries l);
     fl_idempotency_keys :=
       match le_idempotency_key e with
       | Some k => if truthy k then {[k]} ∪ fl_idempotency_keys l else fl_idempotency_keys l
       | None => fl_idempotency_keys l
       end;
     fl_audit_events := fl_audit_events l |}.

Definition push_audit (a : FinancialAuditEvent) (l : FinancialLedgerEngine) :
    FinancialLedgerEngine :=
  {| fl_entries := fl_entries l; fl_idempotency_keys := fl_idempotency_keys l;
     fl_audit_events := fl_audit_events l ++ [a] |}.

Definition update_ledger (f : FinancialLedgerEngine -> FinancialLedgerEngine) :
    M LedgerState unit :=
  modify (fun s => {| ls_world := ls_world s; ls_ledger := f (ls_ledger s) |}).

(** Is the idempotency key set and already used? *)
Definition key_used (key : option string) (l : FinancialLedgerEngine) : bool :=
  match key with
  | Some k => truthy k && bool_decide (k ∈ fl_idempotency_keys l)
  | None => false
  end.

Definition ledger_append (e : FinancialLedgerEntry) : M LedgerState bool :=
  used ← gets (fun s => key_used (le_idempotency_key e) (ls_ledger s));
  if used : bool then mret false
  else
    _ ← update_ledger (store_entry e);
    a ← in_world (new_audit_event (le_marketplace_id e) "ledger_entry_appended"
          "financial_ledger" "OK" (Some (le_amount e)) (Some (le_currency e))
          (le_idempotency_key e) (le_source_event_id e) None (le_evidence_ref e)
          (ledger_entry_type_value (le_entry_type e)));
    _ ← update_ledger (push_audit a);
    mret true.

Definition record_audit (a : FinancialAuditEvent) : M LedgerState FinancialAuditEvent :=
  _ ← update_ledger (push_audit a); mret a.
End Ledger.

Definition ledger_get (ledger_id : string) (l : FinancialLedgerEngine) :
    option FinancialLedgerEntry := dget ledger_id (fl_entries l).

(** [if marketplace_id: result = [e for e in result if ...]]. *)
Definition in_marketplace (marketplace_id : option string) (es : list FinancialLedgerEntry) :
    list FinancialLedgerEntry :=
  match marketplace_id with
  | Some m => if truthy m
              then List.filter (fun e => bool_decide (le_marketplace_id e = m)) es else es
  | None => es
  end.

Definition by_order (order_id : string) (marketplace_id : option string)
    (l : FinancialLedgerEngine) : list FinancialLedgerEntry :=
  in_marketplace marketplace_id
    (List.filter (fun e => bool_decide (le_order_id e = Some order_id)) (dvalues (fl_entries l))).

Definition by_entry_type (t : LedgerEntryType) (marketplace_id : option string)
    (l : FinancialLedgerEngine) : list FinancialLedgerEntry :=
  in_marketplace marketplace_id
    (List.filter (fun e => bool_decide (le_entry_type e = t)) (dvalues (fl_entries l))).

Definition by_source_event (source_event_id : string) (marketplace_id : option string)
    (l : FinancialLedgerEngine) : list FinancialLedgerEntry :=
  in_marketplace marketplace_id
    (List.filter (fun e => bool_decide (le_source_event_id e = Some source_event_id))
       (dvalues (fl_entries l))).

(** The loop of [duplicate_idempotency_keys]: occurrences of each set key. *)
Fixpoint count_keys (es : list FinancialLedgerEntry) (seen : list (string * nat)) :
    list (string * nat) :=
  match es with
  | [] => seen
  | e :: rest =>
      match le_idempotency_key e with
      | Some k => if truthy k
                  then count_keys rest (dset k (dget_or k seen 0%nat + 1)%nat seen)
                  else count_keys rest seen
      | None => count_keys rest seen
      end
  end.

Definition duplicate_idempotency_keys (l : FinancialLedgerEngine) : list string :=
  map fst (List.filter (fun p => Nat.ltb 1 p.2) (count_keys (dvalues (fl_entries l)) [])).

Definition total_count (l : FinancialLedgerEngine) : nat := length (fl_entries l).

Definition ledger_report (marketplace_id : option string) (l : FinancialLedgerEngine) :
    list FinancialLedgerEntry := in_marketplace marketplace_id (dvalues (fl_entries l)).

(** ** The invariant of the ledger *)

(** The idempotency key of an entry when it is set. *)
Definition set_key (e : FinancialLedgerEntry) : option string :=
  match le_idempotency_key e with
  | Some k => if truthy k then Some k else None
  | None => None
  end.

Record ledger_ok (l : FinancialLedgerEngine) : Prop := {
  lo_dict : dict_ok (fl_entries l);
  lo_ids : forall i e, dget i (fl_entries l) = Some e -> le_ledger_id e = i;
  lo_known : forall i e k, dget i (fl_entries l) = Some e -> set_key e = Some k ->
    k ∈ fl_idempotency_keys l;
  lo_unique : forall i1 e1 i2 e2 k,
    dget i1 (fl_entries l) = Some e1 -> dget i2 (fl_entries l) = Some e2 ->
    set_key e1 = Some k -> set_key e2 = Some k -> i1 = i2;
}.

Lemma empty_ledger_ok : ledger_ok empty_ledger.
Proof. split; simpl; try done. constructor. Qed.

Lemma key_used_set e l :
  key_used (le_idempotency_key e) l
  = match set_key e with Some k => bool_decide (k ∈ fl_idempotency_keys l) | None => false end.
Proof. unfold key_used, set_key. destruct (le_idempotency_key e); [|done]. by destruct (truthy s). Qed.

Lemma store_entry_keys e l :
  fl_idempotency_keys (store_entry e l)
  = match set_key e with Some k => {[k]} ∪ fl_idempotency_keys l | None => fl_idempotency_keys l end.
Proof. unfold set_key. simpl. destruct (le_idempotency_key e); [|done]. by destruct (truthy s). Qed.

Lemma store_entry_ok e l :
  ledger_ok l -> key_used (le_idempotency_key e) l = false -> ledger_ok (store_entry e l).
Proof.
  intros Hl Hk. rewrite key_used_set in Hk.
  assert (Hnew : forall i e' k, dget i (fl_entries l) = Some e' -> set_key e' = Some k ->
            set_key e <> Some k).
  { intros i e' k Hi Hs He. rewrite He in Hk. bool_hyps. apply Hk. by eapply lo_known. }
  destruct Hl. split.
  - by apply dset_ok.
  - simpl. intros i e'. rewrite dget_dset. case_decide; [|by apply lo_ids0].
    by intros [= <-].
  - intros i e' k. rewrite store_entry_keys. simpl. rewrite dget_dset. case_decide.
    + intros [= <-] ->. set_solver.
    + intros Hi Hs. destruct (set_key e); [|by eapply lo_known0].
      apply elem_of_union_r. by eapply lo_known0.
  - simpl. intros i1 e1 i2 e2 k. rewrite !dget_dset. repeat case_decide; subst; try done.
    + intros [= <-] H2 Hs1 Hs2. by destruct (Hnew _ _ _ H2 Hs2).
    + intros H1 [= <-] Hs1 Hs2. by destruct (Hnew _ _ _ H1 Hs1).
    + apply lo_unique0.
Qed.

Lemma push_audit_ok a l : ledger_ok l -> ledger_ok (push_audit a l).
Proof. intros []. by split. Qed.

Create HintDb finledger.
#[export] Hint Resolve empty_ledger_ok store_entry_ok push_audit_ok : finledger.

Section LedgerSpec.
Context `{Env}.

(** What [append] does, on both branches. *)
Lemma ledger_append_run e s :
  if key_used (le_idempotency_key e) (ls_ledger s)
  then ledger_append e s = (Ok false, s)
  else exists a w, ledger_append e s
    = (Ok true, {| ls_world := w; ls_ledger := push_audit a (store_entry e (ls_ledger s)) |}).
Proof.
  unfold ledger_append. unfold_monad. destruct (key_used _ _); [done|].
  by eexists _, _.
Qed.

Lemma ledger_append_ok e s : ledger_ok (ls_ledger s) -> ledger_ok (ls_ledger (ledger_append e s).2).
Proof.
  intros Hl. pose proof (ledger_append_run e s) as Hr.
  destruct (key_used _ _) eqn:E; [by rewrite Hr|].
  destruct Hr as (a & w & ->). simpl. auto with finledger.
Qed.
End LedgerSpec.

(** ** Counting keys *)

Lemma count_keys_spec es seen k :
  dget_or k (count_keys es seen) 0%nat
  = (dget_or k seen 0 + count k (omap set_key es))%nat.
Proof.
  revert seen. induction es as [|e es IH]; intros seen; [simpl; lia|].
  cbn [count_keys omap list_omap]. unfold set_key at 1.
  destruct (le_idempotency_key e) as [k'|]; [|apply IH].
  destruct (truthy k'); [|apply IH]. rewrite IH. cbn [count]. unfold dget_or at 1.
  rewrite dget_dset. unfold dget_or. repeat case_decide; subst; try done; lia.
Qed.

Lemma count_keys_positive es seen k n :
  (forall k n, (k, n) ∈ seen -> (0 < n)%nat) -> dict_ok seen ->
  (k, n) ∈ count_keys es seen -> n = dget_or k (count_keys es seen) 0%nat.
Proof.
  intros Hp Hd Hin. assert (Hd' : dict_ok (count_keys es seen)).
  { clear Hin Hp. revert seen Hd. induction es as [|e es IH]; intros seen Hd; [done|].
    simpl. destruct (le_idempotency_key e) as [k'|]; [|auto].
    destruct (truthy k'); auto using dset_ok. }
  unfold dget_or. by rewrite (elem_dget k n).
Qed.

Lemma count_nodup (l : list string) k : NoDup l -> (count k l <= 1)%nat.
Proof.
  induction 1 as [|x l Hx Hl IH]; simpl; [lia|]. case_decide; [|lia].
  subst. apply count_zero in Hx. lia.
Qed.

Lemma duplicates_nil l :
  NoDup (omap set_key (dvalues (fl_entries l))) -> duplicate_idempotency_keys l = [].
Proof.
  intros Hnd. unfold duplicate_idempotency_keys.
  destruct (List.filter _ _) as [|[k n] ps] eqn:E; [done|]. exfalso.
  assert (Hin : In (k, n) ((k, n) :: ps)) by (by left). rewrite <- E in Hin.
  apply filter_In in Hin as [Hin Hlt]. apply list_elem_of_In in Hin.
  apply count_keys_positive in Hin; [|set_solver|apply dict_ok_nil].
  rewrite count_keys_spec in Hin. simpl in Hin.
  pose proof (count_nodup _ k Hnd). apply Nat.ltb_lt in Hlt. unfold dget_or in Hin. simpl in *. lia.
Qed.

Lemma entry_keys_nodup (d : list (string * FinancialLedgerEntry)) :
  dict_ok d ->
  (forall i1 e1 i2 e2 k, dget i1 d = Some e1 -> dget i2 d = Some e2 ->
    set_key e1 = Some k -> set_key e2 = Some k -> i1 = i2) ->
  NoDup (omap set_key (dvalues d)).
Proof.
  unfold dict_ok. induction d as [|[i e] d IH]; simpl; [intros; constructor|].
  rewrite NoDup_cons. intros [Hi Hd] Hu.
  assert (Hlift : forall i' e', dget i' d = Some e' -> dget i' ((i, e) :: d) = Some e').
  { intros i' e' Hg. simpl. rewrite decide_False; [done|]. intros ->.
    by apply dget_Some_key in Hg. }
  assert (IH' : NoDup (omap set_key (dvalues d))).
  { apply IH; [done|]. intros i1 e1 i2 e2 k H1 H2.
    exact (Hu i1 e1 i2 e2 k (Hlift _ _ H1) (Hlift _ _ H2)). }
  destruct (set_key e) as [k|] eqn:Ek; simpl; [|done].
  apply NoDup_cons. split; [|done]. intros Hin.
  apply list_elem_of_omap in Hin as (e' & He' & Hk'). apply elem_dvalues in He' as [i' He'].
  apply elem_dget in He'; [|done].
  assert (i = i') as ->.
  { apply (Hu i e i' e' k); [|by apply Hlift|done|done]. simpl. by rewrite decide_True. }
  by apply dget_Some_key in He'.
Qed.

Lemma ledger_ok_no_duplicates l : ledger_ok l -> duplicate_idempotency_keys l = [].
Proof. intros Hl. apply duplicates_nil, entry_keys_nodup; apply Hl. Qed.
