(* ===== verification/FinPayments.v ===== *)
(** * Payment webhooks

    [product_factory/marketplace_financial_hardening/payments.py]: the engine
    that validates a provider webhook, normalises it through an adapter,
    registers the event under its provider id and its idempotency key, and
    posts it to the ledger. *)

From Stdlib Require Import Ascii.
From S2P Require Import Prelude PyFloat PyVal PyText FinModels FinLedger.

(** ** The adapter interface *)

(** The dictionary an adapter returns: a field is [None] when the key is
    missing. *)
Record RawEvent : Set := {
  raw_provider : option string;
  raw_provider_event_id : option string;
  raw_raw_status : option string;
  raw_amount : option float;
  raw_currency : option string;
  raw_order_id : option string;
  raw_listing_id : option string;
  raw_tenant_id : option string;
  raw_marketplace_id : option string;
  raw_intent_id : option string;
  raw_idempotency_key : option string;
}.

Record PaymentProviderAdapter : Type := {
  normalize_event : pydict -> res RawEvent;
  verify_signature : PaymentWebhookEnvelope -> res bool;
}.

(** [NoopPaymentAdapter.verify_signature]. *)
Definition noop_verify_signature (e : PaymentWebhookEnvelope) : res bool :=
  Ok (otruthy (env_signature e)).

(** ** The engine *)

Record PaymentAdapterEngine : Set := {
  events_by_provider_event_id : list (string * PaymentEvent);
  events_by_idempotency : list (string * PaymentEvent);
  pay_audit_events : list FinancialAuditEvent;
}.

Definition empty_payments : PaymentAdapterEngine :=
  {| events_by_provider_event_id := []; events_by_idempotency := []; pay_audit_events := [] |}.

Record PaymentState : Set := {
  ps_world : World;
  ps_ledger : option FinancialLedgerEngine;
  ps_engine : PaymentAdapterEngine;
}.

Definition pay_in_world {A} (m : M World A) : M PaymentState A :=
  zoom ps_world
    (fun w s => {| ps_world := w; ps_ledger := ps_ledger s; ps_engine := ps_engine s |}) m.

Definition pay_update (f : PaymentAdapterEngine -> PaymentAdapterEngine) : M PaymentState unit :=
  modify (fun s =>
    {| ps_world := ps_world s; ps_ledger := ps_ledger s; ps_engine := f (ps_engine s) |}).

(** [if self.ledger: self.ledger.m(...)], else [d]. *)
Definition pay_with_ledger {A} (m : M LedgerState A) (d : M PaymentState A) : M PaymentState A :=
  fun s =>
    match ps_ledger s with
    | Some l =>
        match m {| ls_world := ps_world s; ls_ledger := l |} with
        | (r, s') => (r, {| ps_world := ls_world s'; ps_ledger := Some (ls_ledger s');
                            ps_engine := ps_engine s |})
        end
    | None => d s
    end.

Definition status_mapping : list (string * PaymentStatus) :=
  [ ("CREATED", PAY_CREATED); ("INITIALIZED", PAY_CREATED); ("AUTHORIZED", PAY_AUTHORIZED);
    ("AUTHENTICATED", PAY_AUTHORIZED); ("CAPTURED", PAY_CAPTURED); ("PAID", PAY_CAPTURED);
    ("SUCCEEDED", PAY_CAPTURED); ("COMPLETED", PAY_CAPTURED); ("FAILED", PAY_FAILED);
    ("DECLINED", PAY_FAILED); ("ERROR", PAY_FAILED); ("REFUNDED", PAY_REFUNDED);
    ("PARTIALLY_REFUNDED", PAY_PARTIALLY_REFUNDED); ("CANCELLED", PAY_CANCELLED);
    ("CANCELED", PAY_CANCELLED); ("REQUIRES_ACTION", PAY_REQUIRES_ACTION);
    ("REQUIRES_PAYMENT_METHOD", PAY_REQUIRES_ACTION) ].

Definition map_status (raw_status : string) : PaymentStatus :=
  dget_or (upper raw_status) status_mapping PAY_REQUIRES_ACTION.

Section Payments.
Context `{Env}.
Variables (adapter : PaymentProviderAdapter) (policy : MarketplaceFinancialPolicy).

Definition create_payment_intent (marketplace_id order_id listing_id tenant_id : string)
    (amount : float) (currency provider : string)
    (idempotency_key approval_ref governance_ref : option string) : M World PaymentIntent :=
  intent_id ← new_id "pi";
  created ← utcnow;
  updated ← utcnow;
  mret {| pi_intent_id := intent_id; pi_marketplace_id := marketplace_id; pi_order_id := order_id;
          pi_listing_id := listing_id; pi_tenant_id := tenant_id; pi_amount := amount;
          pi_currency := currency; pi_status := PAY_CREATED; pi_provider := provider;
          pi_provider_intent_id := None; pi_created_at := created; pi_updated_at := updated;
          pi_idempotency_key := idempotency_key; pi_approval_ref := approval_ref;
          pi_governance_ref := governance_ref |}.

Definition register_event (e : PaymentEvent) (p : PaymentAdapterEngine) : PaymentAdapterEngine :=
  {| events_by_provider_event_id :=
       dset (pe_provider_event_id e) e (events_by_provider_event_id p);
     events_by_idempotency :=
       match pe_idempotency_key e with
       | Some k => if truthy k then dset k e (events_by_idempotency p) else events_by_idempotency p
       | None => events_by_idempotency p
       end;
     pay_audit_events := pay_audit_events p |}.

Definition pay_audit (action marketplace_id actor status : string) (amount : option float)
    (currency idempotency_key source_event_id governance_ref evidence_ref : option string)
    (reason : string) : M PaymentState FinancialAuditEvent :=
  a ← pay_in_world (new_audit_event marketplace_id action actor status amount currency
        idempotency_key source_event_id governance_ref evidence_ref reason);
  _ ← pay_with_ledger (record_audit a)
        (_ ← pay_update (fun p =>
           {| events_by_provider_event_id := events_by_provider_event_id p;
              events_by_idempotency := events_by_idempotency p;
              pay_audit_events := pay_audit_events p ++ [a] |}); mret a);
  mret a.

(** The entry type [_ledgerize_payment] posts for a status, if any. *)
Definition payment_entry_type (s : PaymentStatus) : option LedgerEntryType :=
  match s with
  | PAY_CAPTURED | PAY_AUTHORIZED => Some PAYMENT_CAPTURED
  | PAY_FAILED | PAY_CANCELLED => Some PAYMENT_FAILED
  | _ => None
  end.

Definition payment_entry (e : PaymentEvent) (t : LedgerEntryType) :
    M World FinancialLedgerEntry :=
  ledger_id ← new_id "le";
  now ← utcnow;
  mret {| le_ledger_id := ledger_id; le_marketplace_id := pe_marketplace_id e;
          le_order_id := Some (pe_order_id e); le_listing_id := Some (pe_listing_id e);
          le_tenant_id := Some (pe_tenant_id e); le_entry_type := t; le_amount := pe_amount e;
          le_currency := pe_currency e; le_status := payment_status_value (pe_status e);
          le_idempotency_key := oor (pe_idempotency_key e) (Some (pe_event_id e));
          le_source_event_id := Some (pe_event_id e); le_governance_ref := None;
          le_actor := "system"; le_reason := ""; le_evidence_ref := pe_evidence_ref e;
          le_created_at := now |}.

Definition ledgerize_payment (e : PaymentEvent) : M PaymentState unit :=
  pay_with_ledger
    (match payment_entry_type (pe_status e) with
     | None => mret tt
     | Some t => entry ← in_world (payment_entry e t); _ ← ledger_append entry; mret tt
     end) (mret tt).

(** [PaymentEvent(...)] from the normalised event. *)
Definition build_event (envelope : PaymentWebhookEnvelope) (raw : RawEvent)
    (provider_event_id raw_status : string) : M World PaymentEvent :=
  event_id ← new_id "payev";
  now ← utcnow;
  let provider := default "unknown" (raw_provider raw) in
  mret {| pe_event_id := event_id;
          pe_intent_id := if otruthy (raw_intent_id raw) then raw_intent_id raw else None;
          pe_marketplace_id := or_empty (raw_marketplace_id raw);
          pe_order_id := or_empty (raw_order_id raw);
          pe_listing_id := or_empty (raw_listing_id raw);
          pe_tenant_id := or_empty (raw_tenant_id raw);
          pe_provider := provider; pe_provider_event_id := provider_event_id;
          pe_status := map_status raw_status; pe_amount := default fzero (raw_amount raw);
          pe_currency := default "USD" (raw_currency raw);
          pe_idempotency_key := oor (env_idempotency_key envelope) (raw_idempotency_key raw);
          pe_timestamp := now; pe_normalized := true;
          pe_evidence_ref := Some ("provider:" +:+ provider +:+ ":event:" +:+ provider_event_id);
          pe_audit_ref := None |}.

(** The event an earlier webhook registered under the envelope's
    idempotency key or the provider's event id. *)
Definition known_event (envelope : PaymentWebhookEnvelope) (provider_event_id : string)
    (p : PaymentAdapterEngine) : option PaymentEvent :=
  match (if otruthy (env_idempotency_key envelope)
         then dget (or_empty (env_idempotency_key envelope)) (events_by_idempotency p)
         else None) with
  | Some e => Some e
  | None => dget provider_event_id (events_by_provider_event_id p)
  end.

Definition reject_webhook (action audit_reason msg : string) : M PaymentState PaymentEvent :=
  _ ← pay_audit action "" "provider_webhook" "FAILED" None (Some "USD") None None None None
        audit_reason;
  raise (ValueError msg).

Definition ingest_webhook (envelope : PaymentWebhookEnvelope) : M PaymentState PaymentEvent :=
  if payment_webhook_signature_required policy && negb (otruthy (env_signature envelope)) then
    reject_webhook "webhook_rejected_unsigned" "Missing webhook signature."
      "Missing webhook signature; signature validation is required."
  else
    verified ← lift_res (verify_signature adapter envelope);
    if negb verified then
      reject_webhook "webhook_rejected_invalid_signature" "Invalid webhook signature."
        "Invalid webhook signature; provider event rejected."
    else
      raw ← lift_res (normalize_event adapter (env_payload envelope));
      if negb (otruthy (raw_provider_event_id raw)) || negb (otruthy (raw_raw_status raw)) then
        raise (ValueError
          "Invalid provider payment event: missing provider_event_id or status.")
      else
        let provider_event_id := or_empty (raw_provider_event_id raw) in
        known ← gets (fun s => known_event envelope provider_event_id (ps_engine s));
        match known with
        | Some e => mret e
        | None =>
            event ← pay_in_world
              (build_event envelope raw provider_event_id (or_empty (raw_raw_status raw)));
            _ ← pay_update (register_event event);
            _ ← ledgerize_payment event;
            _ ← pay_audit "payment_event_processed" (or_empty (raw_marketplace_id raw))
                  "provider_webhook" "OK" (Some (pe_amount event)) (Some (pe_currency event))
                  (pe_idempotency_key event) (Some (pe_event_id event)) None
                  (pe_evidence_ref event) "";
            mret event
        end.

Definition get_payment_status (provider_event_id idempotency_key : option string)
    (p : PaymentAdapterEngine) : option PaymentStatus :=
  let event :=
    if otruthy provider_event_id
    then dget (or_empty provider_event_id) (events_by_provider_event_id p) else None in
  let event :=
    match event with
    | Some e => Some e
    | None => if otruthy idempotency_key
              then dget (or_empty idempotency_key) (events_by_idempotency p) else None
    end in
  pe_status <$> event.

Definition processed_events (p : PaymentAdapterEngine) : list PaymentEvent :=
  dvalues (events_by_provider_event_id p).
End Payments.

(** ** What a webhook changes *)

(** Nothing but the audit trail and the environment differs. *)
Record only_audited (s s' : PaymentState) : Prop := {
  oa_provider : events_by_provider_event_id (ps_engine s')
                = events_by_provider_event_id (ps_engine s);
  oa_idempotency : events_by_idempotency (ps_engine s') = events_by_idempotency (ps_engine s);
  oa_entries : fl_entries <$> ps_ledger s' = fl_entries <$> ps_ledger s;
  oa_keys : fl_idempotency_keys <$> ps_ledger s' = fl_idempotency_keys <$> ps_ledger s;
}.

Lemma only_audited_refl s : only_audited s s.
Proof. by split. Qed.

Section PaymentSpec.
Context `{Env}.
Variables (adapter : PaymentProviderAdapter) (policy : MarketplaceFinancialPolicy).
Notation ingest := (ingest_webhook adapter policy).

Lemma pay_audit_run action mp actor st amount cur idem src gov ev reason s :
  exists a s', pay_audit action mp actor st amount cur idem src gov ev reason s = (Ok a, s') /\
    only_audited s s'.
Proof.
  unfold pay_audit, pay_in_world, pay_with_ledger, record_audit, update_ledger, pay_update.
  unfold_monad. destruct s as [w [l|] p]; simpl; eexists _, _; (split; [reflexivity|]); by split.
Qed.

Lemma ledgerize_tables e s :
  exists s', ledgerize_payment e s = (Ok tt, s') /\ ps_engine s' = ps_engine s.
Proof.
  unfold ledgerize_payment, pay_with_ledger. destruct s as [w [l|] p]; simpl.
  - destruct (payment_entry_type _) as [t|]; [|by eexists].
    unfold payment_entry, in_world, new_id, utcnow. unfold_monad.
    match goal with |- context [ledger_append ?en ?st] =>
      pose proof (ledger_append_run en st) as Hr; destruct (key_used _ _) end.
    + rewrite Hr. by eexists.
    + destruct Hr as (a & w' & ->). by eexists.
  - by eexists.
Qed.

(** The provider event id the adapter extracts from a valid envelope. *)
Definition valid_envelope (envelope : PaymentWebhookEnvelope) (pid : string) : Prop :=
  (payment_webhook_signature_required policy && negb (otruthy (env_signature envelope)) = false) /\
  verify_signature adapter envelope = Ok true /\
  exists raw, normalize_event adapter (env_payload envelope) = Ok raw /\
    otruthy (raw_raw_status raw) = true /\
    raw_provider_event_id raw = Some pid /\ truthy pid = true.

Ltac solve_audit :=
  match goal with |- context [pay_audit ?a ?b ?c ?d ?e ?f ?g ?h ?i ?j ?k ?st] =>
    destruct (pay_audit_run a b c d e f g h i j k st) as (x & s' & -> & Hs) end; done.

Lemma ingest_inv envelope s :
  match ingest envelope s with
  | (Raise _, s') => only_audited s s'
  | (Ok e, s') => exists pid, valid_envelope envelope pid /\
      ((known_event envelope pid (ps_engine s) = Some e /\ s' = s) \/
       (known_event envelope pid (ps_engine s) = None /\ pe_provider_event_id e = pid /\
        (otruthy (env_idempotency_key envelope) = true ->
         pe_idempotency_key e = env_idempotency_key envelope) /\
        events_by_provider_event_id (ps_engine s')
          = dset pid e (events_by_provider_event_id (ps_engine s)) /\
        events_by_idempotency (ps_engine s')
          = (if otruthy (pe_idempotency_key e)
             then dset (or_empty (pe_idempotency_key e)) e (events_by_idempotency (ps_engine s))
             else events_by_idempotency (ps_engine s))))
  end.
Proof.
  unfold ingest_webhook, reject_webhook, lift_res, gets, mbind, M_bind.
  destruct (payment_webhook_signature_required policy && _) eqn:Esig; [solve_audit|].
  destruct (verify_signature adapter envelope) as [[]|x] eqn:Ev; cbn [negb];
    [|solve_audit|apply only_audited_refl].
  destruct (normalize_event adapter (env_payload envelope)) as [raw|x] eqn:En;
    [|apply only_audited_refl].
  destruct (otruthy (raw_provider_event_id raw)) eqn:Ep; [|apply only_audited_refl].
  destruct (otruthy (raw_raw_status raw)) eqn:Er; [|apply only_audited_refl].
  cbn [negb orb]. apply otruthy_true in Ep as (pid & Ep & Hpid). rewrite Ep. cbn [or_empty].
  assert (Hval : valid_envelope envelope pid).
  { split_and!; [done|done|]. exists raw. split_and!; try done. by destruct pid. }
  destruct (known_event envelope pid (ps_engine s)) as [e|] eqn:Ek.
  { exists pid. auto. }
  unfold pay_in_world, zoom, build_event, new_id, utcnow, mbind, M_bind, mret, M_ret, pay_update, modify.
  cbn beta iota zeta. cbn [ps_world ps_ledger ps_engine].
  match goal with |- context [ledgerize_payment ?e ?st] =>
    destruct (ledgerize_tables e st) as (s1 & -> & H1) end.
  match goal with |- context [pay_audit ?a ?b ?c ?d ?e ?f ?g ?h ?i ?j ?k s1] =>
    destruct (pay_audit_run a b c d e f g h i j k s1) as (x & s2 & -> & Hs) end.
  destruct Hs as [Ha Hb _ _]. exists pid. split; [done|]. right.
  rewrite Ha, Hb, H1. cbn [ps_engine register_event events_by_provider_event_id
    events_by_idempotency pe_provider_event_id pe_idempotency_key].
  split_and!; [done|done| |done|].
  - unfold oor. by intros ->.
  - destruct (oor _ _) as [[|c k]|]; done.
Qed.

Lemma ingest_known envelope s pid e :
  valid_envelope envelope pid -> known_event envelope pid (ps_engine s) = Some e ->
  ingest envelope s = (Ok e, s).
Proof.
  intros (Hs & Hv & raw & Hn & Hr & Hp & Ht) Hk. unfold ingest_webhook. rewrite Hs, Hv.
  unfold lift_res, mbind, M_bind. cbn. rewrite Hn, Hp, Hr. cbn. rewrite Ht. cbn.
  unfold gets. by rewrite Hk.
Qed.
End PaymentSpec.

(** ** Properties *)

(** Webhook processing is idempotent: after a webhook was accepted,
    delivering it again returns the same event and changes nothing at all
    (no registration, no ledger entry, no audit event, no identifier drawn). *)
Theorem ingest_webhook_replay `{Env} adapter policy envelope s e s' :
  ingest_webhook adapter policy envelope s = (Ok e, s') ->
  ingest_webhook adapter policy envelope s' = (Ok e, s').
Proof.
  intros Hr. pose proof (ingest_inv adapter policy envelope s) as Hi. rewrite Hr in Hi.
  destruct Hi as (pid & Hv & [(Hk & ->)|(Hk & Hp & Hkey & Ha & Hb)]).
  { done. }
  apply ingest_known with pid; [done|]. unfold known_event in *. rewrite Ha, Hb.
  destruct (otruthy (env_idempotency_key envelope)) eqn:Et.
  - rewrite Hkey, Et by done. by rewrite dget_dset_eq.
  - by rewrite dget_dset_eq.
Qed.

(** An environment, an adapter and a webhook for the witnesses. *)
#[export] Instance sample_env : Env :=
  { uuid_hex n := String (Ascii.ascii_of_nat (97 + n)) "0123456789abcdef";
    clock n := Z.of_nat n; float_repr x := "x" }.

Definition sample_raw : RawEvent := {|
  raw_provider := Some "acme"; raw_provider_event_id := Some "evt_1"; raw_raw_status := Some "paid";
  raw_amount := Some (of_Z 40); raw_currency := None; raw_order_id := Some "order_1";
  raw_listing_id := None; raw_tenant_id := Some "tenant_1"; raw_marketplace_id := Some "m";
  raw_intent_id := None; raw_idempotency_key := None |}.
Definition sample_adapter : PaymentProviderAdapter := {|
  normalize_event := fun _ => Ok sample_raw; verify_signature := noop_verify_signature |}.
Definition sample_envelope : PaymentWebhookEnvelope := {|
  env_provider := "acme"; env_provider_event_id := "evt_1"; env_idempotency_key := Some "k1";
  env_signature := Some "sig"; env_timestamp := None; env_payload := [] |}.
Definition sample_payments : PaymentState :=
  {| ps_world := world0; ps_ledger := Some empty_ledger; ps_engine := empty_payments |}.
Definition after_webhook : PaymentState :=
  (ingest_webhook sample_adapter default_policy sample_envelope sample_payments).2.

Lemma ingest_webhook_replay_witness :
  exists e, ingest_webhook sample_adapter default_policy sample_envelope after_webhook
            = (Ok e, after_webhook) /\ pe_status e = PAY_CAPTURED.
Proof.
  destruct (ingest_webhook sample_adapter default_policy sample_envelope sample_payments).1
    as [e|x] eqn:E; [|vm_compute in E; discriminate].
  exists e. split.
  - apply (ingest_webhook_replay _ _ _ sample_payments). unfold after_webhook.
    rewrite <- E. apply surjective_pairing.
  - vm_compute in E. injection E as <-. reflexivity.
Defined.

(** A rejected webhook (unsigned, badly signed, without event id or
    status, or not normalisable) leaves the registered events and the ledger
    entries as they were; an accepted one either returns an event registered
    before, changing nothing, or registers one new event under its provider id
    and its idempotency key. *)
Theorem ingest_webhook_outcome `{Env} adapter policy envelope s :
  match ingest_webhook adapter policy envelope s with
  | (Raise _, s') =>
      processed_events (ps_engine s') = processed_events (ps_engine s) /\
      fl_entries <$> ps_ledger s' = fl_entries <$> ps_ledger s
  | (Ok e, s') =>
      (s' = s /\ (e ∈ processed_events (ps_engine s) \/
                  exists k, dget k (events_by_idempotency (ps_engine s)) = Some e)) \/
      (dget (pe_provider_event_id e) (events_by_provider_event_id (ps_engine s)) = None /\
       processed_events (ps_engine s') = processed_events (ps_engine s) ++ [e])
  end.
Proof.
  pose proof (ingest_inv adapter policy envelope s) as Hi.
  destruct (ingest_webhook _ _ _ s) as [[e|x] s'].
  - destruct Hi as (pid & _ & [(Hk & ->)|(Hk & Hp & Hkey & Ha & Hb)]).
    + left. split; [done|]. unfold known_event in Hk.
      destruct (if otruthy _ then _ else None) as [e'|] eqn:E.
      * injection Hk as ->. destruct (otruthy (env_idempotency_key envelope)); [|done]. right. eauto.
      * left. apply dget_elem in Hk. apply elem_dvalues. eauto.
    + right. assert (Hn : dget pid (events_by_provider_event_id (ps_engine s)) = None).
      { unfold known_event in Hk. by destruct (if otruthy _ then _ else None). }
      rewrite Hp. split; [done|]. unfold processed_events. rewrite Ha.
      apply dvalues_dset_fresh. by apply dget_None.
  - destruct Hi as [Ha _ Hc _]. unfold processed_events. by rewrite Ha.
Qed.
