(* ===== verification/FinRefunds.v ===== *)
(** * Refund governance

    [product_factory/marketplace_financial_hardening/refunds.py].  A refund is
    an object shared by two tables (by id and by idempotency key) and changed
    in place, so the engine keeps a heap of refund objects and the tables hold
    addresses into it. *)

From S2P Require Import Prelude PyFloat PyVal FinModels FinLedger FinPayments.

Record RefundGovernanceEngine : Set := {
  rf_heap : list RefundRequest;
  rf_refunds : list (string * nat);
  rf_by_idempotency : list (string * nat);
  rf_audit_events : list FinancialAuditEvent;
}.

Definition empty_refunds : RefundGovernanceEngine :=
  {| rf_heap := []; rf_refunds := []; rf_by_idempotency := []; rf_audit_events := [] |}.

Record RefundState : Set := {
  rs_world : World;
  rs_ledger : option FinancialLedgerEngine;
  rs_engine : RefundGovernanceEngine;
}.

Definition rf_in_world {A} (m : M World A) : M RefundState A :=
  zoom rs_world
    (fun w s => {| rs_world := w; rs_ledger := rs_ledger s; rs_engine := rs_engine s |}) m.

Definition rf_update (f : RefundGovernanceEngine -> RefundGovernanceEngine) : M RefundState unit :=
  modify (fun s =>
    {| rs_world := rs_world s; rs_ledger := rs_ledger s; rs_engine := f (rs_engine s) |}).

(** [if self.ledger: self.ledger.m(...)], else [d]. *)
Definition rf_with_ledger {A} (m : M LedgerState A) (d : M RefundState A) : M RefundState A :=
  fun s =>
    match rs_ledger s with
    | Some l =>
        match m {| ls_world := rs_world s; ls_ledger := l |} with
        | (r, s') => (r, {| rs_world := ls_world s'; rs_ledger := Some (ls_ledger s');
                            rs_engine := rs_engine s |})
        end
    | None => d s
    end.

(** ** Assignments to fields of a refund object *)

Definition set_status (v : RefundStatus) (r : RefundRequest) : RefundRequest :=
  {| rf_refund_id := rf_refund_id r; rf_marketplace_id := rf_marketplace_id r;
     rf_order_id := rf_order_id r; rf_listing_id := rf_listing_id r;
     rf_tenant_id := rf_tenant_id r; rf_amount := rf_amount r; rf_currency := rf_currency r;
     rf_original_payment_event_id := rf_original_payment_event_id r;
     rf_reason_code := rf_reason_code r; rf_reason := rf_reason r;
     rf_requested_by := rf_requested_by r; rf_status := v;
     rf_governance_ref := rf_governance_ref r; rf_approval_ref := rf_approval_ref r;
     rf_created_at := rf_created_at r; rf_updated_at := rf_updated_at r;
     rf_idempotency_key := rf_idempotency_key r; rf_completed_at := rf_completed_at r |}.

Definition set_refs (gov approval : option string) (r : RefundRequest) : RefundRequest :=
  {| rf_refund_id := rf_refund_id r; rf_marketplace_id := rf_marketplace_id r;
     rf_order_id := rf_order_id r; rf_listing_id := rf_listing_id r;
     rf_tenant_id := rf_tenant_id r; rf_amount := rf_amount r; rf_currency := rf_currency r;
     rf_original_payment_event_id := rf_original_payment_event_id r;
     rf_reason_code := rf_reason_code r; rf_reason := rf_reason r;
     rf_requested_by := rf_requested_by r; rf_status := rf_status r;
     rf_governance_ref := gov; rf_approval_ref := approval;
     rf_created_at := rf_created_at r; rf_updated_at := rf_updated_at r;
     rf_idempotency_key := rf_idempotency_key r; rf_completed_at := rf_completed_at r |}.

Definition set_times (updated : Z) (completed : option Z) (r : RefundRequest) : RefundRequest :=
  {| rf_refund_id := rf_refund_id r; rf_marketplace_id := rf_marketplace_id r;
     rf_order_id := rf_order_id r; rf_listing_id := rf_listing_id r;
     rf_tenant_id := rf_tenant_id r; rf_amount := rf_amount r; rf_currency := rf_currency r;
     rf_original_payment_event_id := rf_original_payment_event_id r;
     rf_reason_code := rf_reason_code r; rf_reason := rf_reason r;
     rf_requested_by := rf_requested_by r; rf_status := rf_status r;
     rf_governance_ref := rf_governance_ref r; rf_approval_ref := rf_approval_ref r;
     rf_created_at := rf_created_at r; rf_updated_at := updated;
     rf_idempotency_key := rf_idempotency_key r; rf_completed_at := completed |}.

Definition set_reason (reason : string) (r : RefundRequest) : RefundRequest :=
  {| rf_refund_id := rf_refund_id r; rf_marketplace_id := rf_marketplace_id r;
     rf_order_id := rf_order_id r; rf_listing_id := rf_listing_id r;
     rf_tenant_id := rf_tenant_id r; rf_amount := rf_amount r; rf_currency := rf_currency r;
     rf_original_payment_event_id := rf_original_payment_event_id r;
     rf_reason_code := rf_reason_code r; rf_reason := reason;
     rf_requested_by := rf_requested_by r; rf_status := rf_status r;
     rf_governance_ref := rf_governance_ref r; rf_approval_ref := rf_approval_ref r;
     rf_created_at := rf_created_at r; rf_updated_at := rf_updated_at r;
     rf_idempotency_key := rf_idempotency_key r; rf_completed_at := rf_completed_at r |}.

Definition set_governance_ref (gov : option string) (r : RefundRequest) : RefundRequest :=
  set_refs gov (rf_approval_ref r) r.
Definition set_updated_at (now : Z) (r : RefundRequest) : RefundRequest :=
  set_times now (rf_completed_at r) r.
Definition set_completed_at (now : Z) (r : RefundRequest) : RefundRequest :=
  set_times (rf_updated_at r) (Some now) r.

Section Refunds.
Context `{Env}.
Variables (policy : MarketplaceFinancialPolicy) (governance : option GovernancePort).

(** [_governance_decision]. *)
Definition governance_decision (action : GovernanceAction) (actor : string)
    (evidence_refs : list (option string)) (context : pydict) : M World GovernanceDecision :=
  match governance with
  | None => approved_decision action actor []
  | Some evaluate => evaluate action actor context evidence_refs
  end.

(** Read the object at an address. *)
Definition deref (a : nat) : M RefundState RefundRequest := fun s =>
  match rf_heap (rs_engine s) !! a with
  | Some r => (Ok r, s)
  | None => (Raise (RuntimeError "dangling refund"), s)
  end.

(** Change the object at an address. *)
Definition assign (a : nat) (f : RefundRequest -> RefundRequest) : M RefundState unit :=
  rf_update (fun e =>
    {| rf_heap := alter f a (rf_heap e); rf_refunds := rf_refunds e;
       rf_by_idempotency := rf_by_idempotency e; rf_audit_events := rf_audit_events e |}).

(** [refund.updated_at = utcnow()] and [refund.completed_at = utcnow()]. *)
Definition touch (a : nat) : M RefundState unit :=
  now ← rf_in_world utcnow; assign a (set_updated_at now).
Definition complete_now (a : nat) : M RefundState unit :=
  now ← rf_in_world utcnow; assign a (set_completed_at now).

(** [RefundRequest(...)], a new object. *)
Definition new_refund (marketplace_id order_id listing_id tenant_id : string) (amount : float)
    (currency requested_by : string) (original_payment_event_id : option string)
    (reason_code reason : string) (idempotency_key : option string) : M RefundState nat :=
  refund_id ← rf_in_world (new_id "refund");
  created ← rf_in_world utcnow;
  updated ← rf_in_world utcnow;
  a ← gets (fun s => length (rf_heap (rs_engine s)));
  _ ← rf_update (fun e =>
    {| rf_heap := rf_heap e ++
         [{| rf_refund_id := refund_id; rf_marketplace_id := marketplace_id;
             rf_order_id := order_id; rf_listing_id := listing_id; rf_tenant_id := tenant_id;
             rf_amount := amount; rf_currency := currency;
             rf_original_payment_event_id := original_payment_event_id;
             rf_reason_code := reason_code; rf_reason := reason;
             rf_requested_by := requested_by; rf_status := REQUESTED;
             rf_governance_ref := None; rf_approval_ref := None; rf_created_at := created;
             rf_updated_at := updated; rf_idempotency_key := idempotency_key;
             rf_completed_at := None |}];
       rf_refunds := rf_refunds e; rf_by_idempotency := rf_by_idempotency e;
       rf_audit_events := rf_audit_events e |});
  mret a.

(** [_store]. *)
Definition store_refund (a : nat) : M RefundState unit :=
  r ← deref a;
  rf_update (fun e =>
    {| rf_heap := rf_heap e;
       rf_refunds := dset (rf_refund_id r) a (rf_refunds e);
       rf_by_idempotency :=
         if otruthy (rf_idempotency_key r)
         then dset (or_empty (rf_idempotency_key r)) a (rf_by_idempotency e)
         else rf_by_idempotency e;
       rf_audit_events := rf_audit_events e |}).

Definition refund_entry (t : LedgerEntryType) (r : RefundRequest) (key : string) :
    M World FinancialLedgerEntry :=
  ledger_id ← new_id "le";
  now ← utcnow;
  mret {| le_ledger_id := ledger_id; le_marketplace_id := rf_marketplace_id r;
          le_order_id := Some (rf_order_id r); le_listing_id := Some (rf_listing_id r);
          le_tenant_id := Some (rf_tenant_id r); le_entry_type := t; le_amount := rf_amount r;
          le_currency := rf_currency r; le_status := ledger_entry_type_value t;
          le_idempotency_key := Some key;
          le_source_event_id := rf_original_payment_event_id r; le_governance_ref := None;
          le_actor := "system"; le_reason := ""; le_evidence_ref := Some (rf_refund_id r);
          le_created_at := now |}.

(** [_append_ledger_entry], with the key [prefix + refund.refund_id]. *)
Definition append_ledger_entry (t : LedgerEntryType) (a : nat) (prefix : string) :
    M RefundState unit :=
  r ← deref a;
  rf_with_ledger
    (e ← in_world (refund_entry t r (prefix +:+ rf_refund_id r)); _ ← ledger_append e; mret tt)
    (mret tt).

(** [_audit]. *)
Definition rf_audit (action marketplace_id actor status : string) (amount : float)
    (currency : string) (governance_ref evidence_ref : option string) (reason : string) :
    M RefundState unit :=
  ev ← rf_in_world (new_audit_event marketplace_id action actor status (Some amount)
         (Some currency) None None governance_ref evidence_ref reason);
  rf_with_ledger (_ ← record_audit ev; mret tt)
    (rf_update (fun e =>
       {| rf_heap := rf_heap e; rf_refunds := rf_refunds e;
          rf_by_idempotency := rf_by_idempotency e;
          rf_audit_events := rf_audit_events e ++ [ev] |})).

(** APPROVED and COMPLETED in a row, with their ledger entries. *)
Definition complete_refund (a : nat) : M RefundState unit :=
  _ ← append_ledger_entry REFUND_APPROVED a "refapp_";
  _ ← assign a (set_status COMPLETED);
  _ ← complete_now a;
  _ ← touch a;
  append_ledger_entry REFUND_COMPLETED a "refcomp_".

Definition above_threshold (currency : string) (amount : float) : bool :=
  bool_decide (currency = auto_approve_refund_threshold_currency policy)
  && fltb (auto_approve_refund_threshold_amount policy) amount.

(** The automatic approval of a small refund. *)
Definition auto_complete (a : nat) (marketplace_id requested_by refund_id : string)
    (amount : float) (currency : string) (d : GovernanceDecision) : M RefundState unit :=
  _ ← assign a (set_status APPROVED);
  _ ← assign a (fun r => set_refs (rf_governance_ref r)
        (oor (gd_approval_ref d) (Some ("auto:" +:+ requested_by))) r);
  _ ← assign a (set_governance_ref (Some (gd_audit_ref d)));
  _ ← touch a;
  _ ← complete_refund a;
  rf_audit "refund_auto_completed" marketplace_id requested_by "OK" amount currency
    (Some (gd_audit_ref d)) (Some refund_id) "".

(** Status, time stamp and audit event of a refusal or of a pending refund. *)
Definition settle_status (a : nat) (v : RefundStatus)
    (action marketplace_id actor audit_status : string) (amount : float) (currency : string)
    (governance_ref evidence_ref : option string) (reason : string) : M RefundState unit :=
  _ ← assign a (set_status v);
  _ ← touch a;
  rf_audit action marketplace_id actor audit_status amount currency governance_ref evidence_ref
    reason.

Definition request_refund (marketplace_id order_id listing_id tenant_id : string)
    (amount : float) (currency requested_by : string) (original_payment_event_id : option string)
    (reason_code reason : string) (idempotency_key : option string) : M RefundState nat :=
  known ← gets (fun s =>
    if otruthy idempotency_key
    then dget (or_empty idempotency_key) (rf_by_idempotency (rs_engine s)) else None);
  match known with
  | Some a => mret a
  | None =>
      let above := above_threshold currency amount in
      a ← new_refund marketplace_id order_id listing_id tenant_id amount currency requested_by
            original_payment_event_id reason_code reason idempotency_key;
      _ ← store_refund a;
      _ ← append_ledger_entry REFUND_REQUESTED a "refreq_";
      r ← deref a;
      let refund_id := rf_refund_id r in
      if negb above && auto_approve_small_refunds policy then
        d ← rf_in_world (governance_decision REFUND_ABOVE_THRESHOLD requested_by
              [Some refund_id]
              [("refund_id", VStr refund_id); ("amount", VFloat amount);
               ("currency", VStr currency)]);
        _ ← when (gd_allowed d)
              (auto_complete a marketplace_id requested_by refund_id amount currency d);
        mret a
      else if above then
        d ← rf_in_world (governance_decision REFUND_ABOVE_THRESHOLD requested_by
              [Some refund_id; original_payment_event_id]
              [("refund_id", VStr refund_id); ("amount", VFloat amount);
               ("currency", VStr currency); ("order_id", VStr order_id)]);
        _ ← assign a (set_governance_ref (Some (gd_audit_ref d)));
        if negb (gd_allowed d) then
          _ ← settle_status a REJECTED "refund_above_threshold_denied" marketplace_id requested_by
                "DENIED" amount currency (Some (gd_audit_ref d)) (Some refund_id)
                "Governance denied refund above threshold.";
          raise (ValueError
            "Refund above threshold requires governance approval, which was denied.")
        else
          _ ← settle_status a PENDING_APPROVAL "refund_above_threshold_pending_approval"
                marketplace_id requested_by "PENDING" amount currency (Some (gd_audit_ref d))
                (Some refund_id) "";
          mret a
      else
        _ ← settle_status a PENDING_APPROVAL "refund_requested_pending_approval" marketplace_id
              requested_by "PENDING" amount currency None (Some refund_id) "";
        mret a
  end.

(** [self._refunds.get(refund_id)], a KeyError when there is none. *)
Definition find_refund (refund_id : string) : M RefundState nat :=
  found ← gets (fun s => dget refund_id (rf_refunds (rs_engine s)));
  match found with
  | Some a => mret a
  | None => raise (KeyError ("Refund request not found: " +:+ refund_id))
  end.

(** From APPROVED to COMPLETED, with the ledger entries and the audit event. *)
Definition finish_approval (a : nat) (r : RefundRequest) (approver_id : string)
    (approval_ref : option string) : M RefundState unit :=
  _ ← assign a (set_status APPROVED);
  _ ← assign a (fun r => set_refs (rf_governance_ref r)
        (oor approval_ref (Some ("approval:" +:+ approver_id))) r);
  _ ← touch a;
  _ ← complete_refund a;
  rf_audit "refund_completed" (rf_marketplace_id r) approver_id "OK" (rf_amount r)
    (rf_currency r) None (Some (rf_refund_id r)) "".

Definition approve_refund (refund_id approver_id : string) (approval_ref : option string) :
    M RefundState nat :=
  a ← find_refund refund_id;
  r ← deref a;
  if negb (bool_decide (rf_status r = PENDING_APPROVAL)) then
    raise (ValueError "Refund must be pending approval to approve.")
  else
    _ ← (if require_governance_for_refund_above_threshold policy then
           d ← rf_in_world (governance_decision REFUND_ABOVE_THRESHOLD approver_id
                 [Some (rf_refund_id r)]
                 [("refund_id", VStr refund_id); ("amount", VFloat (rf_amount r))]);
           if negb (gd_allowed d) then
             _ ← settle_status a REJECTED "refund_approval_denied" (rf_marketplace_id r)
                   approver_id "DENIED" (rf_amount r) (rf_currency r) (Some (gd_audit_ref d))
                   (Some refund_id) "Governance denied refund approval.";
             raise (ValueError "Refund approval denied by governance.")
           else assign a (set_governance_ref (Some (gd_audit_ref d)))
         else mret tt);
    _ ← finish_approval a r approver_id approval_ref;
    mret a.

Definition reject_refund (refund_id approver_id reason : string) : M RefundState nat :=
  a ← find_refund refund_id;
  r ← deref a;
  if negb (bool_decide (rf_status r = PENDING_APPROVAL)) then
    raise (ValueError "Refund must be pending approval to reject.")
  else
    _ ← assign a (set_status REJECTED);
    _ ← assign a (set_reason reason);
    _ ← touch a;
    _ ← rf_audit "refund_rejected" (rf_marketplace_id r) approver_id "REJECTED" (rf_amount r)
          (rf_currency r) None (Some refund_id) reason;
    mret a.

Definition get_refund (refund_id : string) : M RefundState RefundRequest :=
  a ← find_refund refund_id; deref a.
End Refunds.

(** ** How an operation changes the heap *)

(** What a refund was requested for never changes. *)
Record same_terms (r r' : RefundRequest) : Prop := {
  st_id : rf_refund_id r' = rf_refund_id r;
  st_marketplace : rf_marketplace_id r' = rf_marketplace_id r;
  st_order : rf_order_id r' = rf_order_id r;
  st_amount : rf_amount r' = rf_amount r;
  st_currency : rf_currency r' = rf_currency r;
  st_event : rf_original_payment_event_id r' = rf_original_payment_event_id r;
  st_key : rf_idempotency_key r' = rf_idempotency_key r;
}.

Lemma same_terms_refl r : same_terms r r.
Proof. by split. Qed.

Lemma same_terms_trans r1 r2 r3 : same_terms r1 r2 -> same_terms r2 r3 -> same_terms r1 r3.
Proof. intros [] []. split; congruence. Qed.

(** From [s] to [s'] at most the object at [a] changes, from [r] to [r']. *)
Record changed (a : nat) (s s' : RefundState) (r r' : RefundRequest) : Prop := {
  ch_before : rf_heap (rs_engine s) !! a = Some r;
  ch_after : rf_heap (rs_engine s') !! a = Some r';
  ch_others : forall b, b <> a -> rf_heap (rs_engine s') !! b = rf_heap (rs_engine s) !! b;
  ch_refunds : rf_refunds (rs_engine s') = rf_refunds (rs_engine s);
  ch_keys : rf_by_idempotency (rs_engine s') = rf_by_idempotency (rs_engine s);
  ch_terms : same_terms r r';
}.

Lemma changed_refl a s r : rf_heap (rs_engine s) !! a = Some r -> changed a s s r r.
Proof. intros. split; try done. Qed.

Lemma changed_trans a s1 s2 s3 r1 r2 r3 :
  changed a s1 s2 r1 r2 -> changed a s2 s3 r2 r3 -> changed a s1 s3 r1 r3.
Proof.
  intros [] []. split; try done; try congruence.
  - intros b Hb. rewrite ch_others1, ch_others0; done.
  - by eapply same_terms_trans.
Qed.

(** [m] succeeds from [s] and changes the object at [a] to one in [Q]. *)
Definition runs (a : nat) (m : M RefundState unit) (s : RefundState) (r : RefundRequest)
    (Q : RefundRequest -> Prop) : Prop :=
  exists s' r', m s = (Ok tt, s') /\ changed a s s' r r' /\ Q r'.

Lemma runs_bind a m1 m2 s r Q1 Q2 :
  runs a m1 s r Q1 ->
  (forall s1 r1, changed a s s1 r r1 -> Q1 r1 -> runs a m2 s1 r1 Q2) ->
  runs a (m1 ≫= fun _ => m2) s r Q2.
Proof.
  intros (s1 & r1 & E1 & C1 & H1) H2. destruct (H2 _ _ C1 H1) as (s2 & r2 & E2 & C2 & HQ).
  exists s2, r2. split; [by rewrite (M_bind_Ok _ _ _ _ _ E1)|].
  split; [by eapply changed_trans|done].
Qed.

Lemma runs_weaken a m s r (Q Q' : RefundRequest -> Prop) :
  runs a m s r Q -> (forall r', Q r' -> Q' r') -> runs a m s r Q'.
Proof. intros (s' & r' & ? & ? & ?) Hw. exists s', r'. auto. Qed.

Section RefundSpec.
Context `{Env}.
Variables (policy : MarketplaceFinancialPolicy) (governance : option GovernancePort).

Lemma assign_runs a f s r :
  rf_heap (rs_engine s) !! a = Some r -> same_terms r (f r) ->
  runs a (assign a f) s r (fun r' => r' = f r).
Proof.
  intros Ha Ht. unfold assign, rf_update. unfold_monad.
  eexists _, (f r). split; [done|]. split; [|done]. split; simpl; try done.
  - by rewrite list_lookup_alter_eq, Ha.
  - intros b Hb. by rewrite list_lookup_alter_ne.
Qed.

(** [x = utcnow()] stored into a field. *)
Lemma stamp_runs a (f : Z -> RefundRequest -> RefundRequest) s r :
  rf_heap (rs_engine s) !! a = Some r -> (forall now, same_terms r (f now r)) ->
  runs a (now ← rf_in_world utcnow; assign a (f now)) s r (fun r' => exists now, r' = f now r).
Proof.
  intros Ha Ht.
  set (now := clock (clock_reads (rs_world s))).
  set (s1 := {| rs_world := {| uuids_drawn := uuids_drawn (rs_world s);
                               clock_reads := S (clock_reads (rs_world s)) |};
                rs_ledger := rs_ledger s; rs_engine := rs_engine s |}).
  destruct (assign_runs a (f now) s1 r) as (s' & r' & E & C & ->); [done|done|].
  exists s', (f now r). split; [exact E|]. split; [by destruct C|by eexists].
Qed.

Lemma touch_runs a s r :
  rf_heap (rs_engine s) !! a = Some r ->
  runs a (touch a) s r (fun r' => exists now, r' = set_updated_at now r).
Proof. intros. by apply stamp_runs. Qed.

Lemma complete_now_runs a s r :
  rf_heap (rs_engine s) !! a = Some r ->
  runs a (complete_now a) s r (fun r' => exists now, r' = set_completed_at now r).
Proof. intros. by apply stamp_runs. Qed.

Lemma append_runs t a prefix s r :
  rf_heap (rs_engine s) !! a = Some r ->
  runs a (append_ledger_entry t a prefix) s r (fun r' => r' = r).
Proof.
  intros Ha. unfold append_ledger_entry, deref, rf_with_ledger, refund_entry, in_world, new_id, utcnow.
  unfold runs. unfold_monad. rewrite Ha.
  destruct (rs_ledger s) as [l|]; [|eexists _, r; split; [done|]; split; [by apply changed_refl|done]].
  match goal with |- context [ledger_append ?en ?st] =>
    pose proof (ledger_append_run en st) as Hr; destruct (key_used _ _) end.
  - rewrite Hr. eexists _, r. split; [done|]. by repeat split.
  - destruct Hr as (x & w & ->). eexists _, r. split; [done|]. by repeat split.
Qed.

Lemma rf_audit_runs action mp actor st amount cur gov ev reason a s r :
  rf_heap (rs_engine s) !! a = Some r ->
  runs a (rf_audit action mp actor st amount cur gov ev reason) s r (fun r' => r' = r).
Proof.
  intros Ha. unfold rf_audit, rf_in_world, rf_with_ledger, new_audit_event, new_id, utcnow,
    record_audit, update_ledger, rf_update, runs. unfold_monad.
  destruct s as [w [l|] e]; simpl in *; eexists _, r; (split; [done|]); by repeat split.
Qed.
Lemma complete_refund_runs a s r :
  rf_heap (rs_engine s) !! a = Some r ->
  runs a (complete_refund a) s r (fun r' => rf_status r' = COMPLETED /\
    rf_approval_ref r' = rf_approval_ref r /\ rf_governance_ref r' = rf_governance_ref r /\
    is_Some (rf_completed_at r')).
Proof.
  intros Ha. unfold complete_refund.
  eapply runs_bind; [by apply append_runs|]. intros s1 r1 C1 ->.
  eapply runs_bind; [apply assign_runs; [by eapply ch_after|by split]|]. intros s2 r2 C2 ->.
  eapply runs_bind; [apply complete_now_runs; by eapply ch_after|]. intros s3 r3 C3 [t3 ->].
  eapply runs_bind; [apply touch_runs; by eapply ch_after|]. intros s4 r4 C4 [t4 ->].
  destruct (append_runs REFUND_COMPLETED a "refcomp_" s4 _ (ch_after _ _ _ _ _ C4))
    as (s5 & r5 & E5 & C5 & ->).
  exists s5, (set_updated_at t4 (set_completed_at t3 (set_status COMPLETED r))).
  split; [done|]. split; [done|]. by repeat split.
Qed.

Lemma find_refund_run id s :
  find_refund id s
  = match dget id (rf_refunds (rs_engine s)) with
    | Some a => (Ok a, s)
    | None => (Raise (KeyError ("Refund request not found: " +:+ id)), s)
    end.
Proof. unfold find_refund. unfold_monad. by destruct (dget _ _). Qed.

Lemma changed_world a s w r :
  rf_heap (rs_engine s) !! a = Some r ->
  changed a s {| rs_world := w; rs_ledger := rs_ledger s; rs_engine := rs_engine s |} r r.
Proof. intros Ha. by split. Qed.

(** Everything [approve_refund] can do. *)
Inductive approve_outcome (id : string) (s : RefundState) : res nat -> RefundState -> Prop :=
| approve_unchanged x s' :
    rs_engine s' = rs_engine s -> rs_ledger s' = rs_ledger s -> approve_outcome id s (Raise x) s'
| approve_denied a s' r r' :
    dget id (rf_refunds (rs_engine s)) = Some a -> changed a s s' r r' ->
    rf_status r = PENDING_APPROVAL -> rf_status r' = REJECTED ->
    approve_outcome id s (Raise (ValueError "Refund approval denied by governance.")) s'
| approve_completed a s' r r' :
    dget id (rf_refunds (rs_engine s)) = Some a -> changed a s s' r r' ->
    rf_status r = PENDING_APPROVAL -> rf_status r' = COMPLETED -> is_Some (rf_completed_at r') ->
    approve_outcome id s (Ok a) s'.

Lemma finish_approval_runs a r0 approver ref s r :
  rf_heap (rs_engine s) !! a = Some r ->
  runs a (finish_approval a r0 approver ref) s r
    (fun r' => rf_status r' = COMPLETED /\ is_Some (rf_completed_at r')).
Proof.
  intros Ha. unfold finish_approval.
  eapply runs_bind; [apply assign_runs; [done|by split]|]. intros s1 r1 C1 ->.
  eapply runs_bind; [apply assign_runs; [by eapply ch_after|by split]|]. intros s2 r2 C2 ->.
  eapply runs_bind; [apply touch_runs; by eapply ch_after|]. intros s3 r3 C3 [t3 ->].
  eapply runs_bind; [apply complete_refund_runs; by eapply ch_after|].
  intros s4 r4 C4 (H1 & _ & _ & H2).
  eapply runs_weaken; [apply rf_audit_runs; by eapply ch_after|]. by intros r5 ->.
Qed.

Lemma auto_complete_runs a mp who id amount cur d s r :
  rf_heap (rs_engine s) !! a = Some r ->
  runs a (auto_complete a mp who id amount cur d) s r (fun r' => rf_status r' = COMPLETED).
Proof.
  intros Ha. unfold auto_complete.
  eapply runs_bind; [apply assign_runs; [done|by split]|]. intros s1 r1 C1 ->.
  eapply runs_bind; [apply assign_runs; [by eapply ch_after|by split]|]. intros s2 r2 C2 ->.
  eapply runs_bind; [apply assign_runs; [by eapply ch_after|by split]|]. intros s3 r3 C3 ->.
  eapply runs_bind; [apply touch_runs; by eapply ch_after|]. intros s4 r4 C4 [t4 ->].
  eapply runs_bind; [apply complete_refund_runs; by eapply ch_after|].
  intros s5 r5 C5 (H1 & _).
  eapply runs_weaken; [apply rf_audit_runs; by eapply ch_after|]. by intros r6 ->.
Qed.

Lemma settle_status_runs a v action mp actor st amount cur gov ev reason s r :
  rf_heap (rs_engine s) !! a = Some r ->
  runs a (settle_status a v action mp actor st amount cur gov ev reason) s r
    (fun r' => rf_status r' = v).
Proof.
  intros Ha. unfold settle_status.
  eapply runs_bind; [apply assign_runs; [done|by split]|]. intros s1 r1 C1 ->.
  eapply runs_bind; [apply touch_runs; by eapply ch_after|]. intros s3 r3 C3 [t3 ->].
  eapply runs_weaken; [apply rf_audit_runs; by eapply ch_after|]. by intros r5 ->.
Qed.

(** Continue after a run. *)
Lemma runs_then {A} a (m : M RefundState unit) (k : M RefundState A) s r Q :
  runs a m s r Q -> exists s' r', changed a s s' r r' /\ Q r' /\ (m ≫= fun _ => k) s = k s'.
Proof.
  intros (s' & r' & E & C & HQ). exists s', r'. split; [done|]. split; [done|].
  by rewrite (M_bind_Ok _ _ _ _ _ E).
Qed.

Lemma finish_approval_outcome id a r s s1 r1 approver ref :
  dget id (rf_refunds (rs_engine s)) = Some a -> rf_status r = PENDING_APPROVAL ->
  changed a s s1 r r1 ->
  let '(o, s') := (_ ← finish_approval a r approver ref; mret a) s1 in approve_outcome id s o s'.
Proof.
  intros Hid Hst C1.
  destruct (runs_then _ _ (mret a) _ _ _
    (finish_approval_runs a r approver ref s1 r1 (ch_after _ _ _ _ _ C1)))
    as (s' & r' & C & (H1 & H2) & ->).
  eapply approve_completed; eauto using changed_trans.
Qed.

Lemma approve_refund_outcome id approver ref s :
  let '(o, s') := approve_refund policy governance id approver ref s in approve_outcome id s o s'.
Proof.
  unfold approve_refund. unfold mbind at 1, M_bind at 1. rewrite find_refund_run.
  destruct (dget id (rf_refunds (rs_engine s))) as [a|] eqn:Eid; [|by constructor].
  unfold deref, mbind at 1, M_bind at 1.
  destruct (rf_heap (rs_engine s) !! a) as [r|] eqn:Er; [|by constructor].
  case_bool_decide as Hst; cbn [negb]; [|by constructor].
  destruct (require_governance_for_refund_above_threshold policy).
  2: { apply (finish_approval_outcome id a r s s r); [done|done|by apply changed_refl]. }
  unfold rf_in_world, zoom, mbind at 1, M_bind at 1. unfold mbind at 1, M_bind at 1.
  destruct (governance_decision _ _ _ _ _ _) as [[d|x] w]; [|by constructor].
  pose proof (changed_world a s w r Er) as C0.
  set (s0 := {| rs_world := w; rs_ledger := rs_ledger s; rs_engine := rs_engine s |}) in *.
  destruct (gd_allowed d); cbn [negb].
  - destruct (assign_runs a (set_governance_ref (Some (gd_audit_ref d))) s0 r)
      as (s1 & r1 & -> & C1 & _); [done|by split|].
    apply (finish_approval_outcome id a r s s1 r1); [done|done|by eapply changed_trans].
  - unfold mbind at 1, M_bind at 1.
    match goal with |- context [settle_status a ?v ?b ?c ?d ?e ?f ?g ?h ?i ?j s0] =>
      destruct (settle_status_runs a v b c d e f g h i j s0 r Er) as (s1 & r1 & -> & C1 & H1) end.
    eapply approve_denied; eauto using changed_trans.
Qed.

(** Everything [reject_refund] can do. *)
Inductive reject_outcome (id reason : string) (s : RefundState) : res nat -> RefundState -> Prop :=
| reject_unchanged x : reject_outcome id reason s (Raise x) s
| reject_done a s' r r' :
    dget id (rf_refunds (rs_engine s)) = Some a -> changed a s s' r r' ->
    rf_status r = PENDING_APPROVAL -> rf_status r' = REJECTED ->
    reject_outcome id reason s (Ok a) s'.

Lemma reject_refund_outcome id approver reason s :
  let '(o, s') := reject_refund id approver reason s in reject_outcome id reason s o s'.
Proof.
  unfold reject_refund. unfold mbind at 1, M_bind at 1. rewrite find_refund_run.
  destruct (dget id (rf_refunds (rs_engine s))) as [a|] eqn:Eid; [|by constructor].
  unfold deref, mbind at 1, M_bind at 1.
  destruct (rf_heap (rs_engine s) !! a) as [r|] eqn:Er; [|by constructor].
  case_bool_decide as Hst; cbn [negb]; [|by constructor].
  unfold mbind, M_bind.
  destruct (assign_runs a (set_status REJECTED) s r) as (s1 & r1 & -> & C1 & ->); [done|by split|].
  destruct (assign_runs a (set_reason reason) s1 _ (ch_after _ _ _ _ _ C1))
    as (s2 & r2 & -> & C2 & ->); [by split|].
  destruct (touch_runs a s2 _ (ch_after _ _ _ _ _ C2)) as (s3 & r3 & -> & C3 & [now ->]).
  match goal with |- context [rf_audit ?b ?c ?d ?e ?f ?g ?h ?i ?j s3] =>
    destruct (rf_audit_runs b c d e f g h i j a s3 _ (ch_after _ _ _ _ _ C3))
      as (s4 & r4 & -> & C4 & ->) end.
  eapply reject_done; eauto using changed_trans.
Qed.

(** The state after a request stored one new object [r']. *)
Record created (s s' : RefundState) (r' : RefundRequest) : Prop := {
  cr_heap : rf_heap (rs_engine s') = rf_heap (rs_engine s) ++ [r'];
  cr_refunds : rf_refunds (rs_engine s')
    = dset (rf_refund_id r') (length (rf_heap (rs_engine s))) (rf_refunds (rs_engine s));
  cr_keys : rf_by_idempotency (rs_engine s')
    = (if otruthy (rf_idempotency_key r')
       then dset (or_empty (rf_idempotency_key r')) (length (rf_heap (rs_engine s)))
              (rf_by_idempotency (rs_engine s))
       else rf_by_idempotency (rs_engine s));
}.

Lemma created_lookup s s' r : created s s' r ->
  rf_heap (rs_engine s') !! length (rf_heap (rs_engine s)) = Some r.
Proof. intros [-> _ _]. by rewrite lookup_app_r, Nat.sub_diag by lia. Qed.

Lemma created_changed s s1 s2 r1 r2 :
  created s s1 r1 -> changed (length (rf_heap (rs_engine s))) s1 s2 r1 r2 -> created s s2 r2.
Proof.
  intros C D. pose proof C as [Ha Hb Hc]. destruct D as [D1 D2 D3 D4 D5 [T1 _ _ _ _ _ T7]].
  split.
  - apply list_eq. intros b. destruct (decide (b = length (rf_heap (rs_engine s)))) as [->|Hne].
    + by rewrite D2, lookup_app_r, Nat.sub_diag by lia.
    + rewrite D3, Ha by done. destruct (decide (b < length (rf_heap (rs_engine s)))%nat).
      * by rewrite !lookup_app_l by done.
      * rewrite !lookup_ge_None_2; [done|..]; rewrite length_app; simpl; lia.
  - by rewrite D4, Hb, T1.
  - by rewrite D5, Hc, T7.
Qed.

Lemma new_refund_stored mp o l tn amount cur who pe rc reason key s :
  exists s1 r, (a ← new_refund mp o l tn amount cur who pe rc reason key;
                _ ← store_refund a; mret a) s = (Ok (length (rf_heap (rs_engine s))), s1) /\
    created s s1 r /\ rf_amount r = amount /\ rf_currency r = cur /\
    rf_idempotency_key r = key /\ rf_status r = REQUESTED /\ rs_ledger s1 = rs_ledger s.
Proof.
  unfold new_refund, store_refund, deref, rf_in_world, new_id, utcnow, rf_update. unfold_monad.
  cbn [rs_engine rf_heap]. rewrite lookup_app_r, Nat.sub_diag by lia. simpl.
  eexists _, _. split; [reflexivity|]. split; [by split|]. by repeat split.
Qed.

(** Some evaluation of the governance port refuses, or raises. *)
Definition governance_denies : Prop :=
  exists act actor refs ctx w d w',
    governance_decision governance act actor refs ctx w = (Ok d, w') /\ gd_allowed d = false.
Definition governance_fails : Prop :=
  exists act actor refs ctx w x w',
    governance_decision governance act actor refs ctx w = (Raise x, w').

(** The port answers an evaluation that carries the payment event as evidence. *)
Definition governance_answers (pe : option string) : Prop :=
  exists actor id ctx w d w',
    governance_decision governance REFUND_ABOVE_THRESHOLD actor [Some id; pe] ctx w = (Ok d, w').

(** Everything [request_refund] can do. *)
Inductive request_outcome (amount : float) (cur : string) (pe key : option string)
    (s : RefundState) : res nat -> RefundState -> Prop :=
| request_known a :
    otruthy key = true -> dget (or_empty key) (rf_by_idempotency (rs_engine s)) = Some a ->
    request_outcome amount cur pe key s (Ok a) s
| request_new o s' r' :
    created s s' r' -> rf_amount r' = amount -> rf_currency r' = cur ->
    rf_idempotency_key r' = key ->
    match rf_status r' with
    | COMPLETED => above_threshold policy cur amount = false /\
                   auto_approve_small_refunds policy = true /\ is_ok o = true
    | REQUESTED => (above_threshold policy cur amount = false /\
                    auto_approve_small_refunds policy = true /\ governance_denies) \/
                   (is_ok o = false /\ governance_fails)
    | PENDING_APPROVAL => ((above_threshold policy cur amount = true /\ governance_answers pe) \/
                           (above_threshold policy cur amount = false /\
                            auto_approve_small_refunds policy = false)) /\ is_ok o = true
    | REJECTED => above_threshold policy cur amount = true /\ is_ok o = false /\
                  governance_denies /\ governance_answers pe
    | _ => False
    end ->
    (is_ok o = true -> o = Ok (length (rf_heap (rs_engine s)))) ->
    request_outcome amount cur pe key s o s'.

Lemma request_refund_outcome mp o l tn amount cur who pe rc reason key s :
  let '(r, s') := request_refund policy governance mp o l tn amount cur who pe rc reason key s in
  request_outcome amount cur pe key s r s'.
Proof.
  unfold request_refund. unfold gets, mbind at 1, M_bind at 1.
  destruct (if otruthy key then _ else None) as [a|] eqn:Ek.
  { destruct (otruthy key) eqn:Et; [|done]. by constructor. }
  set (above := above_threshold policy cur amount).
  destruct (new_refund_stored mp o l tn amount cur who pe rc reason key s)
    as (s1 & r1 & E1 & C1 & A1 & U1 & K1 & S1 & _).
  set (a := length (rf_heap (rs_engine s))) in *.
  assert (Hsplit : forall (k : nat -> M RefundState nat),
    (a ← new_refund mp o l tn amount cur who pe rc reason key; _ ← store_refund a; k a) s
    = k a s1).
  { intros k. revert E1. unfold mbind, M_bind.
    destruct (new_refund _ _ _ _ _ _ _ _ _ _ _ s) as [[a'|] s2]; [|done].
    destruct (store_refund a' s2) as [[[]|] s3]; [|done]. unfold mret, M_ret.
    by intros [= -> ->]. }
  rewrite Hsplit. clear Hsplit E1.
  pose proof (created_lookup _ _ _ C1) as L1. fold a in L1.
  destruct (append_runs REFUND_REQUESTED a "refreq_" s1 r1 L1) as (s2 & r2 & E2 & D2 & ->).
  unfold mbind at 1, M_bind at 1. rewrite E2.
  unfold deref, mbind at 1, M_bind at 1. rewrite (ch_after _ _ _ _ _ D2).
  assert (Hend : forall s' r' o', changed a s2 s' r1 r' ->
    match rf_status r' with
    | COMPLETED => above = false /\ auto_approve_small_refunds policy = true /\ is_ok o' = true
    | REQUESTED => (above = false /\ auto_approve_small_refunds policy = true /\ governance_denies) \/
                   (is_ok o' = false /\ governance_fails)
    | PENDING_APPROVAL => ((above = true /\ governance_answers pe) \/
                           (above = false /\ auto_approve_small_refunds policy = false)) /\
                          is_ok o' = true
    | REJECTED => above = true /\ is_ok o' = false /\ governance_denies /\ governance_answers pe
    | _ => False
    end -> (is_ok o' = true -> o' = Ok a) -> request_outcome amount cur pe key s o' s').
  { intros s' r' o' D Hs Ho. pose proof (changed_trans _ _ _ _ _ _ _ D2 D) as D'.
    pose proof (ch_terms _ _ _ _ _ D') as [T1 T2 T3 T4 T5 T6 T7].
    apply request_new with r'; [by eapply created_changed|congruence..|done|done]. }
  pose proof (ch_after _ _ _ _ _ D2) as L2.
  assert (Hworld : forall w, changed a s2
    {| rs_world := w; rs_ledger := rs_ledger s2; rs_engine := rs_engine s2 |} r1 r1)
    by (intros; by apply changed_world).
  destruct (negb above && auto_approve_small_refunds policy) eqn:Eauto.
  - bool_hyps. unfold rf_in_world, zoom, mbind at 1, M_bind at 1.
    match goal with |- context [governance_decision ?b0 ?c0 ?d0 ?e0 ?f0 ?g0] =>
      destruct (governance_decision b0 c0 d0 e0 f0 g0) as [[d|x] w] eqn:Eg end.
    2: { eapply Hend; [apply Hworld|rewrite S1; right; split; [done|by repeat eexists]|done]. }
    destruct (gd_allowed d) eqn:Ed; cbn [when].
    + destruct (runs_then _ _ (mret a) _ _ _
        (auto_complete_runs a mp who (rf_refund_id r1) amount cur d _ r1
          (ch_after _ _ _ _ _ (Hworld w)))) as (s3 & r3 & D3 & H3 & ->).
      apply Hend with r3; [by eapply changed_trans|by rewrite H3|done].
    + eapply Hend; [apply Hworld| |done]. rewrite S1. left. split_and!; [done|done|].
      by repeat eexists.
  - destruct above eqn:Eab.
    + unfold rf_in_world, zoom. unfold mbind at 1, M_bind at 1.
      match goal with |- context [governance_decision ?b0 ?c0 ?d0 ?e0 ?f0 ?g0] =>
        destruct (governance_decision b0 c0 d0 e0 f0 g0) as [[d|x] w] eqn:Eg end.
      2: { eapply Hend; [apply Hworld|rewrite S1; right; split; [done|by repeat eexists]|done]. }
      unfold mbind at 1, M_bind at 1.
      match goal with |- context [assign a ?f ?st] =>
        destruct (assign_runs a f st r1 L2) as (s3 & r3 & -> & D3 & ->); [by split|] end.
      pose proof (changed_trans _ _ _ _ _ _ _ (Hworld w) D3) as D3'.
      destruct (gd_allowed d) eqn:Ed; cbn [negb].
      * match goal with |- context [settle_status a ?v ?b ?c ?d ?e ?f ?g ?h ?i ?j] =>
          destruct (runs_then _ _ (mret a) _ _ _
            (settle_status_runs a v b c d e f g h i j s3 _ (ch_after _ _ _ _ _ D3)))
            as (s4 & r4 & D4 & H4 & ->) end.
        apply Hend with r4; [by eapply changed_trans| |done]. rewrite H4. split; [|done]. left.
        split; [done|by repeat eexists].
      * unfold mbind at 1, M_bind at 1.
        match goal with |- context [settle_status a ?v ?b ?c ?d ?e ?f ?g ?h ?i ?j] =>
          destruct (settle_status_runs a v b c d e f g h i j s3 _ (ch_after _ _ _ _ _ D3))
            as (s4 & r4 & -> & D4 & H4) end.
        apply Hend with r4; [by eapply changed_trans| |done]. rewrite H4.
        split_and!; [done|done|by repeat eexists|by repeat eexists].
    + match goal with |- context [settle_status a ?v ?b ?c ?d ?e ?f ?g ?h ?i ?j] =>
        destruct (runs_then _ _ (mret a) _ _ _
          (settle_status_runs a v b c d e f g h i j s2 _ L2)) as (s4 & r4 & D4 & H4 & ->) end.
      apply Hend with r4; [done|rewrite H4; simpl in Eauto; auto|done].
Qed.
End RefundSpec.

(** ** Properties *)

(** One call of the engine, whatever its arguments and its outcome. *)
Inductive refund_call `{Env} (policy : MarketplaceFinancialPolicy)
    (governance : option GovernancePort) (s : RefundState) : RefundState -> Prop :=
| call_request mp o l tn amount cur who pe rc reason key r s' :
    request_refund policy governance mp o l tn amount cur who pe rc reason key s = (r, s') ->
    refund_call policy governance s s'
| call_approve id approver ref r s' :
    approve_refund policy governance id approver ref s = (r, s') ->
    refund_call policy governance s s'
| call_reject id approver reason r s' :
    reject_refund id approver reason s = (r, s') -> refund_call policy governance s s'.

Definition lifecycle (r r' : RefundRequest) : Prop :=
  same_terms r r' /\
  (rf_status r' = rf_status r \/
   (rf_status r = PENDING_APPROVAL /\ (rf_status r' = COMPLETED \/ rf_status r' = REJECTED))).

Lemma lifecycle_refl r : lifecycle r r.
Proof. split; [apply same_terms_refl|by left]. Qed.

Lemma lifecycle_trans r1 r2 r3 : lifecycle r1 r2 -> lifecycle r2 r3 -> lifecycle r1 r3.
Proof.
  intros [T1 S1] [T2 S2]. split; [by eapply same_terms_trans|].
  destruct S1 as [S1|[S1 S1']], S2 as [S2|[S2 S2']].
  - left. congruence.
  - right. split; congruence || done.
  - right. rewrite S2. auto.
  - destruct S1' as [E|E]; congruence.
Qed.

Lemma changed_lifecycle a s s' r r' b rb :
  changed a s s' r r' -> rf_status r = PENDING_APPROVAL ->
  (rf_status r' = COMPLETED \/ rf_status r' = REJECTED) ->
  rf_heap (rs_engine s) !! b = Some rb ->
  exists rb', rf_heap (rs_engine s') !! b = Some rb' /\ lifecycle rb rb'.
Proof.
  intros [H1 H2 H3 _ _ HT] Hp Hq Hb. destruct (decide (b = a)) as [->|Hne].
  - exists r'. split; [done|]. rewrite H1 in Hb. injection Hb as <-. split; auto.
  - exists rb. rewrite H3 by done. split; [done|apply lifecycle_refl].
Qed.

Lemma refund_call_lifecycle `{Env} policy governance s s' b rb :
  refund_call policy governance s s' -> rf_heap (rs_engine s) !! b = Some rb ->
  exists rb', rf_heap (rs_engine s') !! b = Some rb' /\ lifecycle rb rb'.
Proof.
  intros Hc Hb. destruct Hc as [mp o l tn amount cur who pe rc reason key r s' E
    |id approver ref r s' E|id approver reason r s' E].
  - pose proof (request_refund_outcome policy governance mp o l tn amount cur who pe rc reason key s)
      as Ho. rewrite E in Ho. destruct Ho as [|o' s' r' [C _ _]]; [eauto using lifecycle_refl|].
    exists rb. rewrite C, lookup_app_l by (by eapply lookup_lt_Some).
    split; [done|apply lifecycle_refl].
  - pose proof (approve_refund_outcome policy governance id approver ref s) as Ho.
    rewrite E in Ho. destruct Ho as [x s' C _| |].
    + exists rb. rewrite C. split; [done|apply lifecycle_refl].
    + eapply changed_lifecycle; eauto.
    + eapply changed_lifecycle; eauto.
  - pose proof (reject_refund_outcome id approver reason s) as Ho.
    rewrite E in Ho. destruct Ho; [eauto using lifecycle_refl|eapply changed_lifecycle; eauto].
Qed.

(** Through any sequence of request, approve and reject calls, with any
    arguments, any answers of the governance port and any exceptions, a stored
    refund keeps its amount, currency, order and identity, and its status
    either stays or goes from PENDING_APPROVAL to COMPLETED or REJECTED: a
    completed or rejected refund never changes again, and a refund left in
    REQUESTED can never be approved or rejected. *)
Theorem refund_lifecycle `{Env} policy governance s s' b r :
  rtc (refund_call policy governance) s s' ->
  rf_heap (rs_engine s) !! b = Some r ->
  exists r', rf_heap (rs_engine s') !! b = Some r' /\
    rf_amount r' = rf_amount r /\ rf_currency r' = rf_currency r /\
    rf_order_id r' = rf_order_id r /\ rf_refund_id r' = rf_refund_id r /\
    (rf_status r' = rf_status r \/
     (rf_status r = PENDING_APPROVAL /\ (rf_status r' = COMPLETED \/ rf_status r' = REJECTED))).
Proof.
  intros Hr Hb. assert (Hl : exists r', rf_heap (rs_engine s') !! b = Some r' /\ lifecycle r r').
  { revert r Hb. induction Hr as [s|s s1 s' Hc _ IH]; intros r Hb; [eauto using lifecycle_refl|].
    destruct (refund_call_lifecycle _ _ _ _ _ _ Hc Hb) as (r1 & Hb1 & L1).
    destruct (IH r1 Hb1) as (r' & Hb' & L'). eauto using lifecycle_trans. }
  destruct Hl as (r' & Hb' & [[] Hs]). exists r'. by split_and!.
Qed.

(** Repeating a refund request with the same idempotency key returns the
    refund of the first request and changes nothing, whatever the other
    arguments of the second request are. *)
Theorem request_refund_idempotent `{Env} policy governance mp o l tn amount cur who pe rc reason key
    mp2 o2 l2 tn2 amount2 cur2 by2 pe2 rc2 reason2 s a s' :
  otruthy key = true ->
  request_refund policy governance mp o l tn amount cur who pe rc reason key s = (Ok a, s') ->
  request_refund policy governance mp2 o2 l2 tn2 amount2 cur2 by2 pe2 rc2 reason2 key s'
  = (Ok a, s').
Proof.
  intros Hk E.
  pose proof (request_refund_outcome policy governance mp o l tn amount cur who pe rc reason key s)
    as Ho. rewrite E in Ho.
  assert (Hd : dget (or_empty key) (rf_by_idempotency (rs_engine s')) = Some a).
  { inversion Ho as [a' Ht Hd|o' s1 r' [C1 C2 C3] _ _ K _ Hok]; subst; [done|].
    rewrite C3, Hk. specialize (Hok eq_refl). injection Hok as ->. by rewrite dget_dset_eq. }
  unfold request_refund, gets, mbind, M_bind. by rewrite Hk, Hd.
Qed.

(** A request above the threshold (threshold currency, larger amount) is
    never completed by the request itself; a request in any other currency is
    never above the threshold, so under automatic approval and a governance
    that allows, it is completed at once whatever its amount. *)
Theorem request_refund_threshold `{Env} policy governance mp o l tn amount cur who pe rc reason s :
  (forall act actor refs ctx w, exists d w',
     governance_decision governance act actor refs ctx w = (Ok d, w') /\ gd_allowed d = true) ->
  auto_approve_small_refunds policy = true ->
  exists s' r', request_refund policy governance mp o l tn amount cur who pe rc reason None s
    = (Ok (length (rf_heap (rs_engine s))), s') /\
    rf_heap (rs_engine s') = rf_heap (rs_engine s) ++ [r'] /\
    rf_amount r' = amount /\
    rf_status r' = (if bool_decide (cur = auto_approve_refund_threshold_currency policy)
                       && fltb (auto_approve_refund_threshold_amount policy) amount
                    then PENDING_APPROVAL else COMPLETED).
Proof.
  intros Hgov Hauto.
  pose proof (request_refund_outcome policy governance mp o l tn amount cur who pe rc reason None s)
    as Ho. destruct (request_refund _ _ _ _ _ _ _ _ _ _ _ _ None s) as [out s'].
  assert (Hnd : ~ governance_denies governance).
  { intros (act & actor & refs & ctx & w & d & w' & E & Ed).
    destruct (Hgov act actor refs ctx w) as (d2 & w2 & E2 & Ed2). congruence. }
  assert (Hnf : ~ governance_fails governance).
  { intros (act & actor & refs & ctx & w & x & w' & E).
    destruct (Hgov act actor refs ctx w) as (d2 & w2 & E2 & Ed2). congruence. }
  destruct Ho as [|out s' r' [C _ _] HA _ _ Hst Hok]; [done|].
  fold (above_threshold policy cur amount). exists s', r'.
  destruct (rf_status r') eqn:Es; try done.
  - destruct Hst as [(_ & _ & ?)|[_ ?]]; done.
  - destruct Hst as [[[Hab _]|[_ Hab]] Ht]; [|congruence]. rewrite Hab.
    destruct out; [|done]. by rewrite (Hok eq_refl).
  - by destruct Hst as (_ & _ & ? & _).
  - destruct Hst as (Hab & _ & Ht). rewrite Hab. destruct out; [|done]. by rewrite (Hok eq_refl).
Qed.

(** ** A sample run *)

Definition sample_refunds : RefundState :=
  {| rs_world := world0; rs_ledger := Some empty_ledger; rs_engine := empty_refunds |}.
Definition ask (amount : Z) (cur : string) (key : option string) : M RefundState nat :=
  request_refund default_policy None "m" "order_1" "l" "t" (of_Z amount) cur "buyer" (Some "evt")
    "" "" key.
Definition after_request : RefundState := (ask 200 "USD" (Some "k") sample_refunds).2.
Definition sample_refund_id : string := "refund_a0123456789abcde".
Definition after_approval : RefundState :=
  (approve_refund default_policy None sample_refund_id "boss" None after_request).2.

Lemma refund_lifecycle_witness :
  exists r, rf_heap (rs_engine after_approval) !! 0%nat = Some r /\ rf_status r = COMPLETED /\
    rf_amount r = of_Z 200.
Proof.
  destruct (rf_heap (rs_engine after_request) !! 0%nat) as [r|] eqn:E; [|vm_compute in E; discriminate].
  destruct (refund_lifecycle default_policy None after_request after_approval 0%nat r)
    as (r' & Hr' & Ha & _ & _ & _ & Hs).
  - apply rtc_once. eapply call_approve. apply surjective_pairing.
  - exact E.
  - exists r'. split; [exact Hr'|]. split.
    + vm_compute in Hr'. injection Hr' as <-. reflexivity.
    + rewrite Ha. vm_compute in E. injection E as <-. reflexivity.
Defined.

Lemma request_refund_idempotent_witness :
  ask 7 "EUR" (Some "k") after_request = (Ok 0%nat, after_request).
Proof.
  apply (request_refund_idempotent default_policy None "m" "order_1" "l" "t" (of_Z 200) "USD"
    "buyer" (Some "evt") "" "" (Some "k") "m" "order_1" "l" "t" (of_Z 7) "EUR" "buyer" (Some "evt")
    "" "" sample_refunds 0%nat after_request).
  - reflexivity.
  - vm_compute. reflexivity.
Defined.

Lemma request_refund_threshold_witness :
  exists r, rf_heap (rs_engine (ask 1000000 "EUR" None sample_refunds).2) = [r] /\
    rf_status r = COMPLETED.
Proof.
  destruct (request_refund_threshold default_policy None "m" "order_1" "l" "t" (of_Z 1000000) "EUR"
    "buyer" (Some "evt") "" "" sample_refunds) as (s' & r & E & Hh & _ & Hs).
  - intros. eexists _, _. split; reflexivity.
  - reflexivity.
  - exists r. unfold ask. rewrite E. split; [exact Hh|]. rewrite Hs. vm_compute. reflexivity.
Defined.
