(* ===== verification/FinControls.v ===== *)
(** * Tax, fraud and service-level controls

    [product_factory/marketplace_financial_hardening/tax.py], [fraud.py] and
    [sla.py]. *)

From S2P Require Import Prelude PyFloat PyVal FinModels FinLedger.

(** ** Tax *)

(** The tax adapter: [calculate_tax] and [validate_tax_registration]. *)
Record TaxProviderAdapter : Type := {
  adapter_calculate_tax : TaxCalculationRequest -> res TaxCalculationResult;
  adapter_validate_tax_registration : string -> res bool;
}.

Record TaxState : Set := { tx_world : World; tx_ledger : option FinancialLedgerEngine }.

Section Tax.
Context `{Env}.
Variable adapter : TaxProviderAdapter.

Definition tax_entry (request : TaxCalculationRequest) (result : TaxCalculationResult) :
    M World FinancialLedgerEntry :=
  ledger_id ← new_id "le";
  now ← utcnow;
  mret {| le_ledger_id := ledger_id; le_marketplace_id := tq_marketplace_id request;
          le_order_id := Some (tq_order_id request);
          le_listing_id := Some (tq_listing_id request);
          le_tenant_id := Some (tq_tenant_id request); le_entry_type := TAX_CALCULATED;
          le_amount := tr_tax_amount result; le_currency := tr_currency result;
          le_status := "POSTED";
          le_idempotency_key := Some ("tax_" +:+ tq_tax_request_id request);
          le_source_event_id := Some (tq_tax_request_id request); le_governance_ref := None;
          le_actor := "system"; le_reason := "";
          le_evidence_ref := oor (tr_evidence_ref result) (tq_evidence_ref request);
          le_created_at := now |}.

Definition ledgerize_tax (request : TaxCalculationRequest) (result : TaxCalculationResult) :
    M TaxState unit := fun s =>
  match tx_ledger s with
  | None => (Ok tt, s)
  | Some l =>
      match (e ← in_world (tax_entry request result); ledger_append e)
              {| ls_world := tx_world s; ls_ledger := l |} with
      | (r, s') => ((fun _ => tt) <$> r,
                    {| tx_world := ls_world s'; tx_ledger := Some (ls_ledger s') |})
      end
  end.

Definition calculate_tax (request : TaxCalculationRequest) : M TaxState TaxCalculationResult :=
  result ← lift_res (adapter_calculate_tax adapter request);
  _ ← when (fltb fzero (tr_tax_amount result)) (ledgerize_tax request result);
  mret result.

Definition validate_tax_registration (tax_id : string) : res bool :=
  adapter_validate_tax_registration adapter tax_id.
End Tax.

(** [getattr(self, "_calculations", [])]: the attribute is never assigned. *)
Definition recent_calculations : list TaxCalculationResult := [].

(** ** Fraud *)

(** The dictionary a fraud adapter returns; [None] is a missing key. *)
Record RawAssessment : Set := {
  ra_provider : option string;
  ra_fraud_score : option float;
  ra_risk_indicators : option (list string);
  ra_provider_reference : option string;
}.

Definition FraudProviderAdapter : Type :=
  string -> string -> option string -> pydict -> res RawAssessment.

(** [NoopFraudAdapter.assess]. *)
Definition noop_fraud_adapter : FraudProviderAdapter := fun _ _ _ _ =>
  Ok {| ra_provider := Some "noop"; ra_fraud_score := Some fzero; ra_risk_indicators := Some [];
        ra_provider_reference := None |}.

Record FraudControlEngine : Set := {
  fc_world : World;
  fc_assessments : list (string * FraudAssessment);
  held_listings : list string;
  blocked_listings : list string;
}.

Definition empty_fraud (w : World) : FraudControlEngine :=
  {| fc_world := w; fc_assessments := []; held_listings := []; blocked_listings := [] |}.

(** [l.remove(x)]: the first occurrence. *)
Fixpoint remove_first (x : string) (l : list string) : list string :=
  match l with
  | [] => []
  | y :: l' => if decide (x = y) then l' else y :: remove_first x l'
  end.

(** [if x not in l: l.append(x)]. *)
Definition append_new (x : string) (l : list string) : list string :=
  if mem x l then l else l ++ [x].

Section Fraud.
Context `{Env}.
Variables (adapter : FraudProviderAdapter) (policy : MarketplaceFinancialPolicy).

Definition map_action (fraud_score : float) : FraudAction :=
  if fleb (min_fraud_score_to_block policy) fraud_score then FRAUD_BLOCK
  else if fleb (min_fraud_score_to_hold policy) fraud_score then FRAUD_HOLD
  else if fleb (of_ratio 40 100) fraud_score then FRAUD_REVIEW
  else FRAUD_ALLOW.

Definition fc_in_world {A} (m : M World A) : M FraudControlEngine A :=
  zoom fc_world (fun w s => {| fc_world := w; fc_assessments := fc_assessments s;
                               held_listings := held_listings s;
                               blocked_listings := blocked_listings s |}) m.

Definition build_assessment (listing_id tenant_id : string) (order_id : option string)
    (raw : RawAssessment) (fraud_score : float) (action : FraudAction) :
    M World FraudAssessment :=
  assessment_id ← new_id "frd";
  now ← utcnow;
  mret {| fa_assessment_id := assessment_id; fa_listing_id := Some listing_id;
          fa_tenant_id := Some tenant_id; fa_order_id := order_id;
          fa_provider := default "unknown" (ra_provider raw);
          fa_fraud_score := fround (fmax2 fzero (fmin2 (of_Z 1) fraud_score)) 4;
          fa_risk_indicators := default [] (ra_risk_indicators raw);
          fa_action := action; fa_provider_reference := ra_provider_reference raw;
          fa_timestamp := now; fa_evidence_ref := None; fa_governance_ref := None |}.

(** Enforcement of the action on the listing lists. *)
Definition enforce_action (action : FraudAction) (listing_id : string)
    (s : FraudControlEngine) : FraudControlEngine :=
  match action with
  | FRAUD_HOLD =>
      {| fc_world := fc_world s; fc_assessments := fc_assessments s;
         held_listings := append_new listing_id (held_listings s);
         blocked_listings := blocked_listings s |}
  | FRAUD_BLOCK =>
      {| fc_world := fc_world s; fc_assessments := fc_assessments s;
         held_listings := remove_first listing_id (held_listings s);
         blocked_listings := append_new listing_id (blocked_listings s) |}
  | _ => s
  end.

Definition assess (listing_id tenant_id : string) (order_id : option string)
    (context : option pydict) : M FraudControlEngine FraudAssessment :=
  raw ← lift_res (adapter listing_id tenant_id order_id
          (match context with Some c => c | None => [] end));
  let fraud_score := default fzero (ra_fraud_score raw) in
  let action := map_action fraud_score in
  assessment ← fc_in_world
    (build_assessment listing_id tenant_id order_id raw fraud_score action);
  _ ← modify (fun s =>
        {| fc_world := fc_world s;
           fc_assessments := dset (fa_assessment_id assessment) assessment (fc_assessments s);
           held_listings := held_listings s; blocked_listings := blocked_listings s |});
  _ ← modify (enforce_action action listing_id);
  mret assessment.
End Fraud.

Definition is_blocked (listing_id : string) (s : FraudControlEngine) : bool :=
  mem listing_id (blocked_listings s).
Definition is_held (listing_id : string) (s : FraudControlEngine) : bool :=
  mem listing_id (held_listings s).
Definition assessments (s : FraudControlEngine) : list FraudAssessment :=
  dvalues (fc_assessments s).

(** ** Service levels *)

Record Observation : Set := { ob_value : float; ob_success : bool; ob_at : Z }.

Record SLAMonitorEngine : Set := {
  sla_world : World;
  sla_observations : list (SLADomain * list Observation);
  sla_breach_counts : list (SLADomain * nat);
  sla_last_breach_at : list (SLADomain * option Z);
}.

Definition sla_definition (d : SLADomain) (target : float) (c : SLAComparator) : SLADefinition :=
  {| sd_domain := d; sd_target_value := target; sd_comparator := c; sd_window_seconds := 300;
     sd_warning_threshold_pct := of_ratio 8 10; sd_breach_threshold_pct := of_ratio 95 100;
     sd_severity_on_breach := SEV_HIGH |}.

Definition DEFAULT_SLA_DEFINITIONS : list SLADefinition :=
  [ sla_definition PAYMENT_WEBHOOK_PROCESSING_LATENCY (of_Z 500) LESS_THAN_MS;
    sla_definition PAYMENT_EVENT_INGESTION_SUCCESS_RATE (of_ratio 99 100) GREATER_THAN_RATE;
    sla_definition REFUND_PROCESSING_LATENCY (of_Z 1000) LESS_THAN_MS;
    sla_definition RECONCILIATION_FRESHNESS (of_Z 900) LESS_THAN_MS;
    sla_definition FRAUD_ASSESSMENT_LATENCY (of_Z 200) LESS_THAN_MS;
    sla_definition TAX_CALCULATION_LATENCY (of_Z 500) LESS_THAN_MS;
    sla_definition MARKETPLACE_API_AVAILABILITY (of_ratio 999 1000) GREATER_THAN_RATE;
    sla_definition LISTING_PUBLICATION_LATENCY (of_Z 3000) LESS_THAN_MS ].

(** [{d.domain: d for d in ...}]. *)
Definition definitions_of (ds : list SLADefinition) : list (SLADomain * SLADefinition) :=
  fold_left (fun acc d => dset (sd_domain d) d acc) ds [].

Definition new_sla (w : World) : SLAMonitorEngine :=
  {| sla_world := w; sla_observations := [];
     sla_breach_counts := dtable (fun _ => 0%nat) all_sla_domains;
     sla_last_breach_at := dtable (fun _ => None) all_sla_domains |}.

Section Sla.
Context `{Env}.

Definition sla_in_world {A} (m : M World A) : M SLAMonitorEngine A :=
  zoom sla_world (fun w s => {| sla_world := w; sla_observations := sla_observations s;
                                sla_breach_counts := sla_breach_counts s;
                                sla_last_breach_at := sla_last_breach_at s |}) m.

Definition sla_record (domain : SLADomain) (value : float) (success : bool)
    (recorded_at : option Z) : M SLAMonitorEngine unit :=
  at_ ← (match recorded_at with Some t => mret t | None => sla_in_world utcnow end);
  modify (fun s =>
    {| sla_world := sla_world s;
       sla_observations :=
         dset domain (dget_or domain (sla_observations s) []
                      ++ [{| ob_value := value; ob_success := success; ob_at := at_ |}])
           (sla_observations s);
       sla_breach_counts := sla_breach_counts s;
       sla_last_breach_at := sla_last_breach_at s |}).

(** Observations of the last [window_seconds], at the time of the call. *)
Definition sla_prune (domain : SLADomain) (d : SLADefinition) :
    M SLAMonitorEngine (list Observation) :=
  now ← sla_in_world utcnow;
  gets (fun s => List.filter
    (fun o => Z.leb (now - ob_at o) (sd_window_seconds d * 1000000))
    (dget_or domain (sla_observations s) [])).

Definition sla_breach (domain : SLADomain) : M SLAMonitorEngine unit :=
  _ ← modify (fun s =>
    {| sla_world := sla_world s; sla_observations := sla_observations s;
       sla_breach_counts :=
         dset domain (dget_or domain (sla_breach_counts s) 0 + 1)%nat (sla_breach_counts s);
       sla_last_breach_at := sla_last_breach_at s |});
  now ← sla_in_world utcnow;
  modify (fun s =>
    {| sla_world := sla_world s; sla_observations := sla_observations s;
       sla_breach_counts := sla_breach_counts s;
       sla_last_breach_at := dset domain (Some now) (sla_last_breach_at s) |}).

(** [successes / len(recent)] for a non-empty list. *)
Definition success_rate (recent : list Observation) : float :=
  of_ratio (Z.of_nat (length (List.filter ob_success recent))) (Pos.of_nat (length recent)).

(** The status a list of recent observations deserves. *)
Definition classify (d : SLADefinition) (recent : list Observation) : SLAStatus :=
  match last recent with
  | None => SLA_WARNING
  | Some latest =>
      let current := match sd_comparator d with
                     | LESS_THAN_MS => ob_value latest
                     | GREATER_THAN_RATE => success_rate recent
                     end in
      let warning := fmul (sd_target_value d) (sd_warning_threshold_pct d) in
      match sd_comparator d with
      | LESS_THAN_MS =>
          if fltb (sd_target_value d) current then SLA_BREACH
          else if fltb warning current then SLA_WARNING else SLA_OK
      | GREATER_THAN_RATE =>
          if fltb current (sd_target_value d) then SLA_BREACH
          else if fltb current warning then SLA_WARNING else SLA_OK
      end
  end.

Definition sla_evaluate (domain : SLADomain) (d : SLADefinition) :
    M SLAMonitorEngine SLAStatus :=
  recent ← sla_prune domain d;
  let st := classify d recent in
  _ ← when (match st with SLA_BREACH => true | _ => false end) (sla_breach domain);
  mret st.

(** The current value shown for a domain. *)
Definition current_value (d : SLADefinition) (recent : list Observation) : float :=
  match last recent with
  | None => sd_target_value d
  | Some latest => match sd_comparator d with
                   | LESS_THAN_MS => ob_value latest
                   | GREATER_THAN_RATE => success_rate recent
                   end
  end.

Definition sla_item (p : SLADomain * SLADefinition) : M SLAMonitorEngine SLAStatusItem :=
  recent ← sla_prune p.1 p.2;
  st ← sla_evaluate p.1 p.2;
  s ← gets (fun s => s);
  mret {| si_domain := p.1; si_status := st;
          si_current_value := fround (current_value p.2 recent) 4;
          si_target_value := sd_target_value p.2;
          si_breach_count := dget_or p.1 (sla_breach_counts s) 0%nat;
          si_last_breach_at := dget_or p.1 (sla_last_breach_at s) None |}.

Fixpoint sla_items (ps : list (SLADomain * SLADefinition)) :
    M SLAMonitorEngine (list SLAStatusItem) :=
  match ps with
  | [] => mret []
  | p :: rest => i ← sla_item p; more ← sla_items rest; mret (i :: more)
  end.

(** One step of the overall status over the items. *)
Definition overall_step (o : SLAStatusOverall) (st : SLAStatus) : SLAStatusOverall :=
  match st, o with
  | SLA_BREACH, _ => SLA_OVERALL_BREACH
  | SLA_WARNING, SLA_HEALTHY => SLA_DEGRADED
  | _, _ => o
  end.

Definition is_breach (i : SLAStatusItem) : bool :=
  match si_status i with SLA_BREACH => true | _ => false end.

Definition get_sla_report (marketplace_id : string)
    (definitions : list (SLADomain * SLADefinition)) : M SLAMonitorEngine SLAStatusReport :=
  items ← sla_items definitions;
  let overall := fold_left overall_step (map si_status items) SLA_HEALTHY in
  let breaches := map (fun i => "SLA breach on " +:+ sla_domain_value (si_domain i))
                    (List.filter is_breach items) in
  let recommendations :=
    (match overall with
     | SLA_OVERALL_BREACH => ["Investigate SLA breaches and escalate if sustained."]
     | _ => [] end) ++
    (match breaches with
     | [] => [] | _ => ["Run governance review for repeated SLA breaches."] end) in
  now ← sla_in_world utcnow;
  mret {| sr_marketplace_id := marketplace_id; sr_generated_at := now; sr_items := items;
          sr_overall_status := overall; sr_alerts := breaches;
          sr_recommendations := recommendations |}.
End Sla.

(** ** Properties of the fraud control *)

Definition action_severity (a : FraudAction) : nat :=
  match a with FRAUD_ALLOW => 0 | FRAUD_REVIEW => 1 | FRAUD_HOLD => 2 | FRAUD_BLOCK => 3 end.

(** With thresholds in increasing order (0.40, hold, block) a higher fraud
    score never gets a milder action, and a score that is not a number gets
    ALLOW. *)
Theorem map_action_monotone policy x y :
  fleb (of_ratio 40 100) (min_fraud_score_to_hold policy) = true ->
  fleb (min_fraud_score_to_hold policy) (min_fraud_score_to_block policy) = true ->
  fleb x y = true ->
  (action_severity (map_action policy x) <= action_severity (map_action policy y))%nat /\
  map_action policy SpecFloat.S754_nan = FRAUD_ALLOW.
Proof.
  intros H1 H2 Hxy.
  assert (Hnan : forall t, fleb t SpecFloat.S754_nan = false) by (by intros [| | |]).
  split; [|unfold map_action; by rewrite !Hnan].
  unfold map_action. destruct (fleb (min_fraud_score_to_block policy) x) eqn:Eb.
  { by rewrite (fleb_trans _ _ _ Eb Hxy). }
  destruct (fleb (min_fraud_score_to_hold policy) x) eqn:Eh.
  { rewrite (fleb_trans _ _ _ Eh Hxy). destruct (fleb (min_fraud_score_to_block policy) y); simpl; lia. }
  destruct (fleb (of_ratio 40 100) x) eqn:Er.
  { rewrite (fleb_trans _ _ _ Er Hxy).
    destruct (fleb (min_fraud_score_to_block policy) y), (fleb (min_fraud_score_to_hold policy) y);
      simpl; lia. }
  simpl. lia.
Qed.

Lemma map_action_monotone_witness :
  (action_severity (map_action default_policy (of_ratio 72 100)) <= 3)%nat /\
  map_action default_policy SpecFloat.S754_nan = FRAUD_ALLOW.
Proof.
  apply (map_action_monotone default_policy (of_ratio 72 100) (of_ratio 90 100));
    vm_compute; reflexivity.
Defined.

Lemma append_new_elem x l y : y ∈ append_new x l <-> y = x \/ y ∈ l.
Proof. unfold append_new. destruct (mem x l) eqn:E; [apply mem_true in E|]; set_solver. Qed.

Lemma append_new_nodup x l : NoDup l -> NoDup (append_new x l).
Proof.
  intros Hl. unfold append_new. destruct (mem x l) eqn:E; [done|]. apply mem_false in E.
  apply NoDup_app. split_and!; [done|set_solver|apply NoDup_singleton].
Qed.

Lemma remove_first_elem x l y : y ∈ remove_first x l -> y ∈ l.
Proof. induction l as [|z l IH]; simpl; [done|]. case_decide; set_solver. Qed.

Lemma remove_first_spec x l : NoDup l -> x ∉ remove_first x l /\ NoDup (remove_first x l).
Proof.
  induction 1 as [|y l Hy Hl [IH1 IH2]]; simpl; [split; [set_solver|constructor]|].
  case_decide; [by subst|]. split; [set_solver|]. constructor; [|done].
  intros Hin. by apply remove_first_elem in Hin.
Qed.

(** The lists of the fraud control, reached from the empty ones by any
    assessments. *)
Record fraud_lists_ok (s : FraudControlEngine) : Prop := {
  fl_held : NoDup (held_listings s);
  fl_blocked : NoDup (blocked_listings s);
}.

Lemma enforce_action_lists a k s :
  fraud_lists_ok s ->
  fraud_lists_ok (enforce_action a k s) /\
  (forall x, x ∈ blocked_listings s -> x ∈ blocked_listings (enforce_action a k s)) /\
  (a = FRAUD_BLOCK -> k ∈ blocked_listings (enforce_action a k s) /\
                      k ∉ held_listings (enforce_action a k s)) /\
  (a = FRAUD_HOLD -> k ∈ held_listings (enforce_action a k s)).
Proof.
  intros [H1 H2]. destruct a; simpl; split_and!; try done.
  - split; simpl; [by apply append_new_nodup|done].
  - intros _. rewrite append_new_elem. by left.
  - split; simpl; [by apply remove_first_spec|by apply append_new_nodup].
  - intros x. rewrite append_new_elem. by right.
  - intros _. rewrite append_new_elem. split; [by left|]. by apply remove_first_spec.
Qed.

(** Fraud enforcement: an assessment keeps the held and blocked lists
    duplicate free and never unblocks a listing; the assessed listing is
    blocked (and no longer held) when the mapped action is BLOCK and held when
    it is HOLD; an adapter that raises leaves everything unchanged. *)
Theorem fraud_enforcement `{Env} adapter policy listing tenant order ctx s :
  fraud_lists_ok s ->
  match assess adapter policy listing tenant order ctx s with
  | (Raise _, s') => s' = s
  | (Ok a, s') =>
      fraud_lists_ok s' /\
      (forall x, is_blocked x s = true -> is_blocked x s' = true) /\
      (fa_action a = FRAUD_BLOCK -> is_blocked listing s' = true /\ is_held listing s' = false) /\
      (fa_action a = FRAUD_HOLD -> is_held listing s' = true)
  end.
Proof.
  intros Hs. unfold assess, lift_res, mbind, M_bind.
  destruct (adapter _ _ _ _) as [raw|x]; [|done].
  unfold fc_in_world, zoom, build_assessment, new_id, utcnow, modify, mret, M_ret, mbind, M_bind.
  cbn beta iota zeta. cbn [fc_world fa_action fa_assessment_id fc_assessments held_listings blocked_listings].
  set (a := map_action policy (default fzero (ra_fraud_score raw))).
  match goal with |- context [enforce_action a listing ?st] =>
    destruct (enforce_action_lists a listing st) as (H1 & H2 & H3 & H4); [by destruct Hs|] end.
  unfold is_blocked, is_held. split_and!; [done| | |].
  - intros x. rewrite !mem_true. apply H2.
  - intros Ha. rewrite mem_true, mem_false. by apply H3.
  - intros Ha. rewrite mem_true. by apply H4.
Qed.

(** ** Properties of the service-level monitor *)

Lemma overall_fold ss o :
  fold_left overall_step ss o
  = match o with
    | SLA_OVERALL_BREACH => SLA_OVERALL_BREACH
    | _ => if existsb (fun s => match s with SLA_BREACH => true | _ => false end) ss
           then SLA_OVERALL_BREACH
           else match o with
                | SLA_DEGRADED => SLA_DEGRADED
                | _ => if forallb (fun s => match s with SLA_OK => true | _ => false end) ss
                       then SLA_HEALTHY else SLA_DEGRADED
                end
    end.
Proof.
  revert o. induction ss as [|s ss IH]; intros o; simpl; [by destruct o|].
  rewrite IH. by destruct o, s; simpl.
Qed.

(** The statuses of a report. *)
Definition report_statuses (r : SLAStatusReport) : list SLAStatus := map si_status (sr_items r).

(** A service-level report never fails and is consistent with its items:
    one item per defined domain, overall BREACH exactly when some item is in
    breach, HEALTHY exactly when all are OK, one alert per breached item. *)
Theorem sla_report_consistent `{Env} marketplace_id definitions s :
  exists r s', get_sla_report marketplace_id definitions s = (Ok r, s') /\
    map si_domain (sr_items r) = dkeys definitions /\
    (sr_overall_status r = SLA_OVERALL_BREACH <-> SLA_BREACH ∈ report_statuses r) /\
    (sr_overall_status r = SLA_HEALTHY <-> forall st, st ∈ report_statuses r -> st = SLA_OK) /\
    length (sr_alerts r) = length (List.filter is_breach (sr_items r)).
Proof.
  assert (Hitems : forall ps s, exists is_ s', sla_items ps s = (Ok is_, s') /\
            map si_domain is_ = dkeys ps).
  { induction ps as [|p ps IH]; intros s0; [by eexists [], _|].
    assert (Hi : exists i s1, sla_item p s0 = (Ok i, s1) /\ si_domain i = p.1).
    { unfold sla_item, sla_evaluate, sla_prune, sla_breach, sla_in_world, utcnow. unfold_monad.
      destruct (classify _ _); by eexists _, _. }
    destruct Hi as (i & s1 & E & Hd). destruct (IH s1) as (is_ & s2 & E2 & Hm).
    exists (i :: is_), s2. cbn [sla_items]. rewrite (M_bind_Ok _ _ _ _ _ E), (M_bind_Ok _ _ _ _ _ E2).
    split; [done|]. simpl. by rewrite Hd, Hm. }
  destruct (Hitems definitions s) as (is_ & s1 & E & Hm).
  unfold get_sla_report. rewrite (M_bind_Ok _ _ _ _ _ E).
  eexists _, _. split; [reflexivity|]. unfold report_statuses. cbn [sr_items sr_overall_status sr_alerts].
  rewrite length_map, overall_fold. split_and!; [done| | |done].
  - destruct (existsb _ _) eqn:Ex.
    + apply existsb_exists in Ex as (x & Hx%list_elem_of_In & Ht). by destruct x.
    + split; [by destruct (forallb _ _)|]. intros Hin.
      assert (existsb (fun s => match s with SLA_BREACH => true | _ => false end)
                (map si_status is_) = true); [|congruence].
      apply existsb_exists. exists SLA_BREACH. by rewrite <- list_elem_of_In.
  - destruct (existsb _ _) eqn:Ex.
    + apply existsb_exists in Ex as (x & Hx%list_elem_of_In & Ht). split; [done|].
      intros Hall. by rewrite (Hall x Hx) in Ht.
    + destruct (forallb _ _) eqn:Ef.
      * split; [|done]. intros _ st Hst%list_elem_of_In.
        rewrite forallb_forall in Ef. specialize (Ef st Hst). by destruct st.
      * split; [done|]. intros Hall.
        assert (forallb (fun s => match s with SLA_OK => true | _ => false end)
                  (map si_status is_) = true); [|congruence].
        apply forallb_forall. intros x Hx%list_elem_of_In. by rewrite (Hall x Hx).
Qed.

Definition is_warning (s : SLAStatus) : bool :=
  match s with SLA_WARNING => true | _ => false end.

(** For a rate objective whose warning level (target times warning
    percentage) does not exceed its target, as both default rate objectives,
    the warning status is unreachable while there are observations: a rate
    that is not a breach is at least the target. *)
Theorem rate_warning_unreachable d recent :
  sd_comparator d = GREATER_THAN_RATE -> recent <> [] ->
  fltb (sd_target_value d) (fmul (sd_target_value d) (sd_warning_threshold_pct d)) = false ->
  is_nan (sd_target_value d) = false ->
  is_nan (fmul (sd_target_value d) (sd_warning_threshold_pct d)) = false ->
  is_warning (classify d recent) = false.
Proof.
  intros Hc Hne Hw Hn2 Hn3. unfold classify. rewrite Hc. cbn zeta.
  destruct (last recent) as [o|] eqn:El; [|by apply last_None in El].
  destruct (fltb (success_rate recent) (sd_target_value d)) eqn:E1; [done|].
  destruct (fltb (success_rate recent) (fmul (sd_target_value d) (sd_warning_threshold_pct d)))
    eqn:E2; [|reflexivity]. exfalso.
  assert (E3 : fltb (success_rate recent) (sd_target_value d) = true); [|congruence].
  eapply fltb_fleb_trans; [exact E2|]. rewrite fleb_not_ltb by done. by rewrite Hw.
Qed.

Lemma rate_warning_unreachable_witness :
  is_warning (classify (sla_definition MARKETPLACE_API_AVAILABILITY (of_ratio 999 1000)
    GREATER_THAN_RATE) [{| ob_value := fzero; ob_success := true; ob_at := 0 |}]) = false.
Proof.
  apply rate_warning_unreachable; [reflexivity|discriminate|vm_compute; reflexivity..].
Defined.

(** A fraud adapter with a fixed score. *)
Definition fixed_score (x : float) : FraudProviderAdapter := fun _ _ _ _ =>
  Ok {| ra_provider := None; ra_fraud_score := Some x; ra_risk_indicators := None;
        ra_provider_reference := None |}.

#[local] Instance control_env : Env :=
  {| uuid_hex n := "0123456789abcdef"; clock n := Z.of_nat n; float_repr x := "x" |}.

Lemma fraud_enforcement_witness :
  exists a s', assess (fixed_score (of_ratio 9 10)) default_policy "l" "t" None None (empty_fraud world0)
    = (Ok a, s') /\ is_blocked "l" s' = true /\ is_held "l" s' = false.
Proof.
  pose proof (fraud_enforcement (fixed_score (of_ratio 9 10)) default_policy "l" "t" None None
    (empty_fraud world0)) as H.
  destruct (assess _ _ _ _ _ _ _) as [[a|x] s'] eqn:E.
  - exists a, s'. split; [reflexivity|]. destruct H as (_ & _ & H & _).
    + split; constructor.
    + apply H. vm_compute in E. injection E as <- _. reflexivity.
  - vm_compute in E. discriminate.
Defined.
