(* ===== verification/FinRecon.v ===== *)
(** * Reconciliation of payments against the ledger

    [product_factory/marketplace_financial_hardening/reconciliation.py].  The
    mismatches are computed in the order of the code, without their random id
    and detection time, and stamped afterwards in the same order: nothing else
    reads the generator in between. *)

From S2P Require Import Prelude PyFloat PyVal FinModels FinLedger FinPayments FinControls.

(** A mismatch before its id and time are drawn. *)
Record MismatchSpec : Set := {
  ms_marketplace_id : string;
  ms_order_id : option string;
  ms_kind : ReconciliationMismatchKind;
  ms_severity : ReconciliationSeverity;
  ms_details : string;
  ms_evidence_refs : list string;
}.

Record ReconciliationState : Set := {
  rc_world : World;
  rc_ledger : FinancialLedgerEngine;
  rc_payments : PaymentAdapterEngine;
  rc_reports : list (string * ReconciliationReport);
}.

Definition opt_list (o : option string) : list string :=
  match o with Some s => if truthy s then [s] else [] | None => [] end.

(** [if marketplace_id: events = [...]]. *)
Definition events_in (marketplace_id : option string) (es : list PaymentEvent) :
    list PaymentEvent :=
  match marketplace_id with
  | Some m => if truthy m
              then List.filter (fun e => bool_decide (pe_marketplace_id e = m)) es else es
  | None => es
  end.

Definition is_payment_type (t : LedgerEntryType) : bool :=
  mem t [PAYMENT_CAPTURED; PAYMENT_FAILED].
Definition is_refund_type (t : LedgerEntryType) : bool :=
  mem t [REFUND_APPROVED; REFUND_COMPLETED].

(** [ledger_payment_entries]: the first payment entry of each source event. *)
Fixpoint payment_entries (es : list FinancialLedgerEntry)
    (acc : list (string * FinancialLedgerEntry)) : list (string * FinancialLedgerEntry) :=
  match es with
  | [] => acc
  | e :: rest =>
      if otruthy (le_source_event_id e) && is_payment_type (le_entry_type e) then
        let k := or_empty (le_source_event_id e) in
        payment_entries rest (if dmem k acc then acc else dset k e acc)
      else payment_entries rest acc
  end.

Definition has_payment_status (e : PaymentEvent) : bool :=
  mem (pe_status e) [PAY_CAPTURED; PAY_AUTHORIZED; PAY_FAILED; PAY_CANCELLED].

Section Mismatches.
Context `{Env}.

(** The mismatches of one payment event. *)
Definition event_mismatches (table : list (string * FinancialLedgerEntry)) (e : PaymentEvent) :
    list MismatchSpec :=
  if has_payment_status e then
    let spec kind sev details refs :=
      {| ms_marketplace_id := pe_marketplace_id e; ms_order_id := Some (pe_order_id e);
         ms_kind := kind; ms_severity := sev; ms_details := details; ms_evidence_refs := refs |} in
    match dget (pe_event_id e) table with
    | None =>
        [spec PAYMENT_EVENT_MISSING_LEDGER SEV_HIGH
           ("Payment event " +:+ pe_event_id e +:+ " has no corresponding ledger entry.")
           (opt_list (pe_evidence_ref e))]
    | Some entry =>
        (if fltb (of_ratio 1 10000) (fabs (fsub (le_amount entry) (pe_amount e)))
         then [spec AMOUNT_MISMATCH SEV_MEDIUM
                 ("Amount mismatch for " +:+ pe_event_id e +:+ ": event="
                  +:+ float_repr (pe_amount e) +:+ ", ledger=" +:+ float_repr (le_amount entry)
                  +:+ ".") (opt_list (pe_evidence_ref e))]
         else []) ++
        (if negb (bool_decide (le_currency entry = pe_currency e))
         then [spec CURRENCY_MISMATCH SEV_LOW
                 ("Currency mismatch for " +:+ pe_event_id e +:+ ": event="
                  +:+ pe_currency e +:+ ", ledger=" +:+ le_currency entry +:+ ".") []]
         else []) ++
        (if negb (bool_decide (le_status entry = payment_status_value (pe_status e)))
         then [spec STATUS_MISMATCH SEV_MEDIUM
                 ("Status mismatch for " +:+ pe_event_id e +:+ ": event="
                  +:+ payment_status_value (pe_status e) +:+ ", ledger=" +:+ le_status entry
                  +:+ ".") []]
         else [])
    end
  else [].

Definition entry_spec (e : FinancialLedgerEntry) kind sev details refs : MismatchSpec :=
  {| ms_marketplace_id := le_marketplace_id e; ms_order_id := le_order_id e; ms_kind := kind;
     ms_severity := sev; ms_details := details; ms_evidence_refs := refs |}.

(** Payment entries whose event is not among the processed events. *)
Definition orphan_mismatches (event_ids : list string)
    (table : list (string * FinancialLedgerEntry)) : list MismatchSpec :=
  omap (fun p =>
    if mem p.1 event_ids then None
    else Some (entry_spec p.2 LEDGER_MISSING_PAYMENT_EVENT SEV_MEDIUM
      ("Ledger entry " +:+ le_ledger_id p.2 +:+ " references missing payment event "
       +:+ p.1 +:+ ".") (opt_list (le_evidence_ref p.2)))) table.

Definition duplicate_mismatches (marketplace_id : option string) (l : FinancialLedgerEngine) :
    list MismatchSpec :=
  map (fun k =>
    {| ms_marketplace_id := or_empty marketplace_id; ms_order_id := None;
       ms_kind := DUPLICATE_IDEMPOTENCY_KEY; ms_severity := SEV_CRITICAL;
       ms_details := "Duplicate idempotency key in ledger: " +:+ k +:+ ".";
       ms_evidence_refs := [k] |}) (duplicate_idempotency_keys l).

(** [d[k] = d.get(k, 0.0) + x]. *)
Definition add_amount (k : string) (x : float) (d : list (string * float)) :
    list (string * float) := dset k (fadd (dget_or k d fzero) x) d.

(** Captured and refunded amounts by order, and refunds whose payment was
    not processed. *)
Fixpoint sum_by_order (processed : list string) (es : list FinancialLedgerEntry)
    (captured refunded : list (string * float)) (ms : list MismatchSpec) :
    list (string * float) * list (string * float) * list MismatchSpec :=
  match es with
  | [] => (captured, refunded, ms)
  | e :: rest =>
      if otruthy (le_order_id e) then
        let o := or_empty (le_order_id e) in
        sum_by_order processed rest
          (if bool_decide (le_entry_type e = PAYMENT_CAPTURED)
           then add_amount o (le_amount e) captured else captured)
          (if is_refund_type (le_entry_type e)
           then add_amount o (le_amount e) refunded else refunded)
          (if is_refund_type (le_entry_type e) && otruthy (le_source_event_id e)
              && negb (mem (or_empty (le_source_event_id e)) processed)
           then ms ++ [entry_spec e REFUND_WITHOUT_ORIGINAL_PAYMENT SEV_HIGH
                  ("Refund ledger entry " +:+ le_ledger_id e
                   +:+ " references a payment event that was not captured.") []]
           else ms)
      else sum_by_order processed rest captured refunded ms
  end.

(** Orders whose refunds exceed their captures. *)
Definition excess_mismatches (marketplace_id : option string)
    (captured refunded : list (string * float)) : list MismatchSpec :=
  omap (fun p =>
    let c := dget_or p.1 captured fzero in
    if fltb (fadd c (of_ratio 1 10000)) p.2
    then Some {| ms_marketplace_id := or_empty marketplace_id; ms_order_id := Some p.1;
                 ms_kind := REFUND_EXCEEDS_CAPTURED; ms_severity := SEV_HIGH;
                 ms_details := "Refunded amount " +:+ float_repr p.2
                   +:+ " exceeds captured amount " +:+ float_repr c +:+ " for order "
                   +:+ p.1 +:+ "."; ms_evidence_refs := [] |}
    else None) refunded.

(** Tax entries without a calculation. *)
Definition tax_mismatches (es : list FinancialLedgerEntry) : list MismatchSpec :=
  let tax_calc_ids := map (fun c => Some (tr_tax_request_id c)) recent_calculations in
  omap (fun e =>
    if bool_decide (le_entry_type e = TAX_CALCULATED)
       && negb (bool_decide (le_source_event_id e ∈ tax_calc_ids))
    then Some (entry_spec e TAX_MISMATCH SEV_MEDIUM
      ("Tax ledger entry " +:+ le_ledger_id e
       +:+ " has no corresponding tax calculation.") [])
    else None) es.

(** All the mismatches of a run, in order. *)
Definition find_mismatches (has_tax_engine : bool) (marketplace_id : option string)
    (l : FinancialLedgerEngine) (p : PaymentAdapterEngine) : list MismatchSpec :=
  let events := events_in marketplace_id (processed_events p) in
  let entries := ledger_report marketplace_id l in
  let table := payment_entries entries [] in
  let processed := map pe_event_id (List.filter has_payment_status events) in
  let '(captured, refunded, without_payment) := sum_by_order processed entries [] [] [] in
  concat (map (event_mismatches table) events)
  ++ orphan_mismatches (map pe_event_id events) table
  ++ duplicate_mismatches marketplace_id l
  ++ without_payment
  ++ excess_mismatches marketplace_id captured refunded
  ++ (if has_tax_engine then tax_mismatches entries else []).

Fixpoint stamp_mismatches (specs : list MismatchSpec) : M World (list ReconciliationMismatch) :=
  match specs with
  | [] => mret []
  | sp :: rest =>
      mismatch_id ← new_id "mismatch";
      now ← utcnow;
      more ← stamp_mismatches rest;
      mret ({| mm_mismatch_id := mismatch_id; mm_marketplace_id := ms_marketplace_id sp;
               mm_order_id := ms_order_id sp; mm_kind := ms_kind sp;
               mm_severity := ms_severity sp; mm_details := ms_details sp;
               mm_evidence_refs := ms_evidence_refs sp; mm_governance_ref := None;
               mm_detected_at := now |} :: more)
  end.

Definition is_severe (m : ReconciliationMismatch) : bool :=
  mem (mm_severity m) [SEV_HIGH; SEV_CRITICAL].

(** [summary]: how many mismatches of each kind. *)
Definition summarize (ms : list ReconciliationMismatch) :
    list (ReconciliationMismatchKind * nat) :=
  fold_left (fun d m => dset (mm_kind m) (dget_or (mm_kind m) d 0 + 1)%nat d) ms [].

Definition rc_in_world {A} (m : M World A) : M ReconciliationState A :=
  zoom rc_world (fun w s => {| rc_world := w; rc_ledger := rc_ledger s;
                               rc_payments := rc_payments s; rc_reports := rc_reports s |}) m.

Definition run_reconciliation (has_tax_engine : bool) (governance : option GovernancePort)
    (marketplace_id : option string) : M ReconciliationState ReconciliationReport :=
  specs ← gets (fun s => find_mismatches has_tax_engine marketplace_id (rc_ledger s) (rc_payments s));
  entries ← gets (fun s => ledger_report marketplace_id (rc_ledger s));
  mismatches ← rc_in_world (stamp_mismatches specs);
  let status := match mismatches with [] => HEALTHY | _ => MISMATCHES_DETECTED end in
  outcome ←
    (match governance with
     | Some evaluate =>
         if existsb is_severe mismatches then
           d ← rc_in_world (evaluate FINANCIAL_ROLLBACK "reconciliation"
                 [("mismatch_count", VInt (Z.of_nat (length mismatches))); ("severe", VBool true)]
                 (map (fun m => Some (mm_mismatch_id m)) mismatches));
           mret (Some (gd_audit_ref d), if gd_allowed d then status else RECON_FAILED)
         else mret (None, status)
     | None => mret (None, status)
     end);
  report_id ← rc_in_world (new_id "recon");
  now ← rc_in_world utcnow;
  let report :=
    {| rr_report_id := report_id; rr_marketplace_id := or_empty marketplace_id;
       rr_generated_at := now; rr_total_entries := length entries;
       rr_mismatch_count := length mismatches; rr_mismatches := mismatches;
       rr_summary := summarize mismatches; rr_governance_ref := outcome.1;
       rr_status := outcome.2 |} in
  _ ← modify (fun s => {| rc_world := rc_world s; rc_ledger := rc_ledger s;
                          rc_payments := rc_payments s;
                          rc_reports := dset report_id report (rc_reports s) |});
  mret report.

Definition latest_report (s : ReconciliationState) : option ReconciliationReport :=
  last (dvalues (rc_reports s)).
End Mismatches.

(** ** What a healthy reconciliation means *)

(** The amounts of the entries of an order selected by [f], in ledger order. *)
Definition order_amounts (f : LedgerEntryType -> bool) (o : string)
    (es : list FinancialLedgerEntry) : list float :=
  map le_amount (List.filter (fun e =>
    bool_decide (le_order_id e = Some o) && f (le_entry_type e)) es).

Definition is_capture (t : LedgerEntryType) : bool := bool_decide (t = PAYMENT_CAPTURED).

(** The ledger's payment entry for an event: the first one naming it. *)
Definition first_payment_entry (es : list FinancialLedgerEntry) (k : string) :
    option FinancialLedgerEntry :=
  List.find (fun e => bool_decide (le_source_event_id e = Some k)
                      && is_payment_type (le_entry_type e)) es.

(** Amount within a ten-thousandth, same currency, same status. *)
Definition agrees (entry : FinancialLedgerEntry) (e : PaymentEvent) : Prop :=
  fltb (of_ratio 1 10000) (fabs (fsub (le_amount entry) (pe_amount e))) = false /\
  le_currency entry = pe_currency e /\ le_status entry = payment_status_value (pe_status e).

Lemma dget_or_dset (k k' : string) (x d0 : float) d :
  dget_or k' (dset k x d) d0 = if decide (k' = k) then x else dget_or k' d d0.
Proof. unfold dget_or. rewrite dget_dset. by case_decide. Qed.

Lemma payment_entries_get es acc k :
  truthy k = true ->
  dget k (payment_entries es acc)
  = match dget k acc with Some e => Some e | None => first_payment_entry es k end.
Proof.
  intros Hk. revert acc. induction es as [|e es IH]; intros acc; simpl; [by destruct (dget k acc)|].
  unfold first_payment_entry. cbn [List.find].
  destruct (le_source_event_id e) as [sid|]; simpl.
  2: { rewrite IH. by destruct (dget k acc). }
  destruct (is_payment_type (le_entry_type e)); [|rewrite !andb_false_r, IH; by destruct (dget k acc)].
  destruct (truthy sid) eqn:Et; simpl.
  - rewrite IH. case_bool_decide as Ek.
    + injection Ek as ->. unfold dmem. destruct (dget k acc) eqn:Eg; [by rewrite Eg|].
      by rewrite dget_dset_eq.
    + unfold dmem. destruct (dget sid acc); [by destruct (dget k acc)|].
      rewrite dget_dset_ne by congruence. by destruct (dget k acc).
  - rewrite IH. case_bool_decide as Ek; [|by destruct (dget k acc)].
    injection Ek as ->. congruence.
Qed.

Lemma payment_entries_truthy es acc k :
  (forall k, k ∈ dkeys acc -> truthy k = true) -> k ∈ dkeys (payment_entries es acc) ->
  truthy k = true.
Proof.
  revert acc. induction es as [|e es IH]; intros acc Ha; simpl; [auto|].
  destruct (otruthy _) eqn:Et; simpl; [|by apply IH].
  destruct (is_payment_type _); [|by apply IH]. apply IH.
  intros k'. destruct (dmem _ _); [apply Ha|]. rewrite elem_dkeys_dset.
  intros [->|]; [|auto]. by destruct (le_source_event_id e).
Qed.

Section Healthy.
Context `{Env}.

Lemma event_mismatches_nil table e :
  event_mismatches table e = [] <->
  (has_payment_status e = true ->
   exists entry, dget (pe_event_id e) table = Some entry /\ agrees entry e).
Proof.
  unfold event_mismatches, agrees. destruct (has_payment_status e); [|done].
  destruct (dget _ table) as [entry|];
    [|split; [done|]; intros Hx; by destruct (Hx eq_refl) as (? & ? & _)].
  rewrite !app_nil. split.
  - intros (H1 & H2 & H3) _. exists entry. split; [done|].
    destruct (fltb _ _); [done|]. repeat case_bool_decide; done.
  - intros Hx. destruct (Hx eq_refl) as (entry' & [= <-] & H1 & H2 & H3).
    by rewrite H1, !bool_decide_eq_true_2.
Qed.

Lemma omap_nil {A B} (f : A -> option B) l : omap f l = [] <-> forall x, x ∈ l -> f x = None.
Proof.
  split.
  - intros Hn x Hx. destruct (f x) as [y|] eqn:E; [|done].
    assert (Hy : y ∈ omap f l) by (apply list_elem_of_omap; eauto).
    rewrite Hn in Hy. by apply elem_of_nil in Hy.
  - intros Hn. destruct (omap f l) as [|y ys] eqn:E; [done|].
    assert (Hy : y ∈ omap f l) by (rewrite E; left).
    apply list_elem_of_omap in Hy as (x & Hx & Hf). by rewrite Hn in Hf.
Qed.

Lemma concat_nil_iff {A B} (f : A -> list B) l :
  concat (map f l) = [] <-> forall x, x ∈ l -> f x = [].
Proof.
  induction l as [|x l IH]; simpl; [split; [|done]; intros _ x Hx; by apply elem_of_nil in Hx|].
  rewrite app_nil, IH. setoid_rewrite elem_of_cons.
  naive_solver.
Qed.

Lemma order_amounts_cons f o e es :
  order_amounts f o (e :: es)
  = if bool_decide (le_order_id e = Some o) && f (le_entry_type e)
    then le_amount e :: order_amounts f o es else order_amounts f o es.
Proof. unfold order_amounts. cbn [List.filter]. by destruct (_ && _). Qed.

Lemma sum_add f o e (d : list (string * float)) es :
  truthy o = true ->
  fold_left fadd (order_amounts f o (e :: es)) (dget_or o d fzero)
  = fold_left fadd (order_amounts f o es)
      (dget_or o (if otruthy (le_order_id e) && f (le_entry_type e)
                  then add_amount (or_empty (le_order_id e)) (le_amount e) d else d) fzero).
Proof.
  intros Ho. rewrite order_amounts_cons. destruct (le_order_id e) as [o'|]; simpl; [|done].
  destruct (f (le_entry_type e)); [|by rewrite !andb_false_r]. rewrite !andb_true_r.
  unfold add_amount. case_bool_decide as E.
  - injection E as ->. rewrite Ho. simpl. by rewrite dget_or_dset, decide_True.
  - destruct (truthy o'); simpl; [|done]. rewrite dget_or_dset, decide_False by congruence. done.
Qed.

Lemma sum_captured processed es c r m o :
  truthy o = true ->
  dget_or o (sum_by_order processed es c r m).1.1 fzero
  = fold_left fadd (order_amounts is_capture o es) (dget_or o c fzero).
Proof.
  intros Ho. revert c r m. induction es as [|e es IH]; intros c r m; [done|].
  rewrite sum_add by done. cbn [sum_by_order]. destruct (otruthy (le_order_id e)); [|apply IH].
  by rewrite IH.
Qed.

Lemma sum_refunded processed es c r m o :
  truthy o = true ->
  dget_or o (sum_by_order processed es c r m).1.2 fzero
  = fold_left fadd (order_amounts is_refund_type o es) (dget_or o r fzero).
Proof.
  intros Ho. revert c r m. induction es as [|e es IH]; intros c r m; [done|].
  rewrite sum_add by done. cbn [sum_by_order]. destruct (otruthy (le_order_id e)); [|apply IH].
  by rewrite IH.
Qed.

Lemma sum_refunded_keys processed es c r m :
  dict_ok r ->
  dict_ok (sum_by_order processed es c r m).1.2 /\
  forall o, o ∈ dkeys (sum_by_order processed es c r m).1.2 <->
    o ∈ dkeys r \/ (truthy o = true /\ order_amounts is_refund_type o es <> []).
Proof.
  revert c r m. induction es as [|e es IH]; intros c r m Hr; [split; [done|]; naive_solver|].
  cbn [sum_by_order]. setoid_rewrite order_amounts_cons.
  destruct (le_order_id e) as [o'|]; simpl; [|by apply IH].
  destruct (truthy o') eqn:Et.
  - destruct (is_refund_type (le_entry_type e)).
    + destruct (IH (if bool_decide (le_entry_type e = PAYMENT_CAPTURED)
        then add_amount o' (le_amount e) c else c) (add_amount o' (le_amount e) r)
        (if true && otruthy (le_source_event_id e)
            && negb (mem (or_empty (le_source_event_id e)) processed)
         then m ++ [entry_spec e REFUND_WITHOUT_ORIGINAL_PAYMENT SEV_HIGH
                ("Refund ledger entry " +:+ le_ledger_id e
                 +:+ " references a payment event that was not captured.") []]
         else m)) as [H1 H2]; [by apply dset_ok|].
      split; [exact H1|]. intros o. rewrite H2. unfold add_amount. rewrite elem_dkeys_dset, andb_true_r.
      destruct (decide (o = o')) as [->|Hne];
        [rewrite bool_decide_eq_true_2 by done|rewrite bool_decide_eq_false_2 by congruence].
      * split; intros _; [right; split; [exact Et|discriminate]|]. left. by left.
      * split.
        -- intros [[->|Hin]|Hin]; [done|by left|by right].
        -- intros [Hin|Hin]; [left; by right|by right].
    + setoid_rewrite andb_false_r. by apply IH.
  - destruct (IH c r m Hr) as [H1 H2]. split; [done|]. intros o. rewrite H2.
    destruct (decide (o = o')) as [->|Hne];
      [rewrite bool_decide_eq_true_2 by done|by rewrite bool_decide_eq_false_2 by congruence].
    rewrite Et. split; (intros [|[? _]]; [by left|done]).
Qed.

(** The entry at the head does not matter. *)
Ltac skip_entry :=
  split; intros [Hm Hall]; (split; [exact Hm|]);
    [intros e' k' [->|He']; [intros; simpl in *; congruence|eauto]|eauto].

Lemma sum_missing processed es c r m :
  (sum_by_order processed es c r m).2 = [] <->
  m = [] /\ forall e k, e ∈ es -> otruthy (le_order_id e) = true ->
     is_refund_type (le_entry_type e) = true -> le_source_event_id e = Some k ->
     truthy k = true -> k ∈ processed.
Proof.
  revert c r m. induction es as [|e es IH]; intros c r m.
  { simpl. split; [intros ->|by intros [-> _]]. split; [done|]. intros e k He. by apply elem_of_nil in He. }
  cbn [sum_by_order]. destruct (otruthy (le_order_id e)) eqn:Eo.
  - rewrite IH. setoid_rewrite elem_of_cons.
    destruct (is_refund_type (le_entry_type e)) eqn:Er; simpl; [|skip_entry].
    destruct (le_source_event_id e) as [k|] eqn:Es; simpl; [|skip_entry].
    destruct (truthy k) eqn:Ek; simpl; [|skip_entry].
    destruct (mem k processed) eqn:Em; simpl.
    + apply mem_true in Em. split; [intros [-> H1]|intros [-> H1]]; (split; [done|]); [|eauto].
      intros e' k' [->|He']; [|eauto]. intros _ _ H2 _. rewrite Es in H2. by injection H2 as <-.
    + apply mem_false in Em. split; [intros [Hm _]; by destruct m|].
      intros [_ H1]. destruct Em. eapply (H1 e k); eauto.
  - rewrite IH. setoid_rewrite elem_of_cons. skip_entry.
Qed.

Lemma orphans_nil ids table :
  orphan_mismatches ids table = [] <-> forall k, k ∈ dkeys table -> k ∈ ids.
Proof.
  unfold orphan_mismatches. rewrite omap_nil. split.
  - intros Hn k Hk. apply list_elem_of_fmap in Hk as (p & -> & Hp). specialize (Hn p Hp).
    simpl in Hn. destruct (mem p.1 ids) eqn:E; [by apply mem_true in E|done].
  - intros Hn p Hp. rewrite (proj2 (mem_true _ _)); [done|]. apply Hn.
    by apply list_elem_of_fmap_2.
Qed.

Lemma excess_nil mp c r :
  dict_ok r ->
  excess_mismatches mp c r = [] <->
  forall o, o ∈ dkeys r ->
    fltb (fadd (dget_or o c fzero) (of_ratio 1 10000)) (dget_or o r fzero) = false.
Proof.
  intros Hr. unfold excess_mismatches. rewrite omap_nil. split.
  - intros Hn o Ho. apply list_elem_of_fmap in Ho as ([o' x] & -> & Hp). specialize (Hn _ Hp).
    simpl in *. unfold dget_or at 2. rewrite (elem_dget _ _ _ Hr Hp). by destruct (fltb _ x).
  - intros Hn [o x] Hp. specialize (Hn o (list_elem_of_fmap_2 fst _ _ Hp)). simpl in *.
    unfold dget_or in Hn at 2. rewrite (elem_dget _ _ _ Hr Hp) in Hn. by rewrite Hn.
Qed.

Lemma tax_nil es :
  tax_mismatches es = [] <-> forall e, e ∈ es -> le_entry_type e <> TAX_CALCULATED.
Proof.
  unfold tax_mismatches. rewrite omap_nil. split; intros Hn e He; specialize (Hn e He).
  - cbv beta in Hn. intros Ht. rewrite bool_decide_eq_true_2 in Hn by exact Ht.
    rewrite bool_decide_eq_false_2 in Hn by apply not_elem_of_nil. discriminate.
  - by rewrite bool_decide_eq_false_2.
Qed.

(** The conditions a healthy reconciliation stands for. *)
Record reconciled (has_tax_engine : bool) (marketplace_id : option string)
    (l : FinancialLedgerEngine) (p : PaymentAdapterEngine) : Prop := {
  rec_events : forall e, e ∈ events_in marketplace_id (processed_events p) ->
    has_payment_status e = true -> truthy (pe_event_id e) = true ->
    exists entry, first_payment_entry (ledger_report marketplace_id l) (pe_event_id e) = Some entry
      /\ agrees entry e;
  rec_entries : forall k, truthy k = true ->
    is_Some (first_payment_entry (ledger_report marketplace_id l) k) ->
    k ∈ map pe_event_id (events_in marketplace_id (processed_events p));
  rec_keys : duplicate_idempotency_keys l = [];
  rec_refunds : forall e k, e ∈ ledger_report marketplace_id l ->
    otruthy (le_order_id e) = true -> is_refund_type (le_entry_type e) = true ->
    le_source_event_id e = Some k -> truthy k = true ->
    k ∈ map pe_event_id (List.filter has_payment_status
          (events_in marketplace_id (processed_events p)));
  rec_amounts : forall o, truthy o = true ->
    order_amounts is_refund_type o (ledger_report marketplace_id l) <> [] ->
    fltb (fadd (fsum (order_amounts is_capture o (ledger_report marketplace_id l)))
               (of_ratio 1 10000))
         (fsum (order_amounts is_refund_type o (ledger_report marketplace_id l))) = false;
  rec_tax : has_tax_engine = true -> forall e, e ∈ ledger_report marketplace_id l ->
    le_entry_type e <> TAX_CALCULATED;
}.

Lemma find_mismatches_nil has_tax mp l p :
  (forall e, e ∈ processed_events p -> truthy (pe_event_id e) = true) ->
  find_mismatches has_tax mp l p = [] <-> reconciled has_tax mp l p.
Proof.
  intros Hids. unfold find_mismatches.
  set (entries := ledger_report mp l). set (events := events_in mp (processed_events p)).
  set (processed := map pe_event_id (List.filter has_payment_status events)).
  pose proof (sum_captured processed entries [] [] []) as Hc.
  pose proof (sum_refunded processed entries [] [] []) as Hr.
  pose proof (sum_refunded_keys processed entries [] [] [] dict_ok_nil) as [Hd Hk].
  pose proof (sum_missing processed entries [] [] []) as Hm.
  destruct (sum_by_order processed entries [] [] []) as [[c r] m]. cbn [fst snd] in *.
  rewrite !app_nil, concat_nil_iff, orphans_nil, Hm, (excess_nil mp c r Hd).
  assert (Hev : forall e, e ∈ events -> truthy (pe_event_id e) = true).
  { intros e He. apply Hids. subst events. unfold events_in in He. destruct mp as [mm|]; [|done].
    destruct (truthy mm); [|done]. rewrite list_elem_of_In, filter_In, <- list_elem_of_In in He.
    tauto. }
  assert (Htab : forall k, k ∈ dkeys (payment_entries entries []) <->
            truthy k = true /\ is_Some (first_payment_entry entries k)).
  { intros k. split.
    - intros Hin. assert (Hkt : truthy k = true) by (eapply payment_entries_truthy; [|done]; set_solver).
      split; [done|]. apply dmem_true in Hin. unfold dmem in Hin.
      rewrite payment_entries_get in Hin by done. simpl in Hin.
      by destruct (first_payment_entry entries k).
    - intros [Hkt [x Hx]]. apply dmem_true. unfold dmem. rewrite payment_entries_get by done.
      simpl. by rewrite Hx. }
  assert (Hdup : duplicate_mismatches mp l = [] <-> duplicate_idempotency_keys l = []).
  { unfold duplicate_mismatches. split; [apply map_eq_nil|by intros ->]. }
  assert (Htax : (if has_tax then tax_mismatches entries else []) = [] <->
            (has_tax = true -> forall e, e ∈ entries -> le_entry_type e <> TAX_CALCULATED)).
  { destruct has_tax; [rewrite tax_nil; naive_solver|naive_solver]. }
  rewrite Hdup, Htax. split.
  - intros (H1 & H2 & H3 & (_ & H4) & H5 & H6). split.
    + intros e He Hst Ht. specialize (H1 e He). rewrite event_mismatches_nil in H1.
      destruct (H1 Hst) as (entry & Hg & Ha). rewrite payment_entries_get in Hg by done. eauto.
    + intros k Ht Hs. apply H2, Htab. auto.
    + exact H3.
    + exact H4.
    + intros o Ht Hne. specialize (H5 o). rewrite Hc, Hr in H5 by done. apply H5, Hk. auto.
    + exact H6.
  - intros [H1 H2 H3 H4 H5 H6]. split_and!; [| |exact H3|done|exact H4| |exact H6].
    + intros e He. rewrite event_mismatches_nil. intros Hst.
      destruct (H1 e He Hst (Hev e He)) as (entry & Hg & Ha). exists entry.
      by rewrite payment_entries_get by auto.
    + intros k [Ht Hs]%Htab. auto.
    + intros o Ho. apply Hk in Ho as [Ho|[Ht Hne]]; [by apply elem_of_nil in Ho|].
      rewrite Hc, Hr by done. by apply H5.
Qed.

Lemma stamp_run specs w :
  exists ms w', stamp_mismatches specs w = (Ok ms, w') /\
    length ms = length specs /\ map mm_kind ms = map ms_kind specs /\
    map mm_order_id ms = map ms_order_id specs.
Proof.
  revert w. induction specs as [|sp specs IH]; intros w; [by eexists [], _|].
  cbn [stamp_mismatches]. unfold new_id, utcnow, mbind, M_bind. cbn beta iota.
  match goal with |- context [stamp_mismatches specs ?w] =>
    destruct (IH w) as (ms & w' & -> & H1 & H2 & H3) end.
  eexists (_ :: ms), w'. split; [reflexivity|]. simpl. by rewrite H1, H2, H3.
Qed.
End Healthy.

(** ** Properties *)

(** A reconciliation without mismatch means what it should: every payment
    event that moves money has a ledger entry with its amount (to a
    ten-thousandth), currency and status; every payment entry of the ledger
    has its event; no idempotency key repeats; every refund entry names a
    processed payment; for no order the sum of the approved and completed
    refund entries exceeds the captured amount; and, with a tax engine, the
    ledger holds no tax entry.  The report is HEALTHY exactly then, whatever
    the governance port answers. *)
Theorem reconciliation_healthy_iff `{Env} has_tax governance mp s r s' :
  (forall e, e ∈ processed_events (rc_payments s) -> truthy (pe_event_id e) = true) ->
  run_reconciliation has_tax governance mp s = (Ok r, s') ->
  rr_status r = HEALTHY <-> reconciled has_tax mp (rc_ledger s) (rc_payments s).
Proof.
  intros Hids Hrun. rewrite <- (find_mismatches_nil has_tax mp _ _ Hids).
  unfold run_reconciliation, gets, mbind, M_bind, rc_in_world, zoom in Hrun.
  destruct (stamp_run (find_mismatches has_tax mp (rc_ledger s) (rc_payments s)) (rc_world s))
    as (ms & w & E & Hlen & _ & _).
  rewrite E in Hrun. cbn beta iota zeta in Hrun.
  assert (Hst : forall o : option string * ReconciliationStatus,
    (ms = [] -> o.2 = HEALTHY) -> (o.2 = HEALTHY -> ms = []) ->
    o.2 = HEALTHY <-> find_mismatches has_tax mp (rc_ledger s) (rc_payments s) = []).
  { intros o H1 H2. rewrite <- length_zero_iff_nil, <- Hlen, length_zero_iff_nil. tauto. }
  destruct governance as [evaluate|].
  - destruct (existsb is_severe ms) eqn:Ex.
    + cbn [rc_world rc_ledger rc_payments rc_reports] in Hrun.
      destruct (evaluate _ _ _ _ w) as [[d|x] w']; [|discriminate].
      injection Hrun as <- _.
      apply (Hst (Some (gd_audit_ref d), if gd_allowed d then _ else RECON_FAILED)); simpl;
        [by intros ->|]. by destruct (gd_allowed d), ms.
    + injection Hrun as <- _. apply (Hst (None, _)); simpl; by destruct ms.
  - injection Hrun as <- _. apply (Hst (None, _)); simpl; by destruct ms.
Qed.

Definition sample_recon : ReconciliationState :=
  {| rc_world := ps_world after_webhook; rc_ledger := default empty_ledger (ps_ledger after_webhook);
     rc_payments := ps_engine after_webhook; rc_reports := [] |}.

Lemma reconciliation_healthy_iff_witness :
  reconciled true (Some "m") (rc_ledger sample_recon) (rc_payments sample_recon).
Proof.
  destruct (run_reconciliation true None (Some "m") sample_recon) as [[r|x] s'] eqn:E.
  - apply (reconciliation_healthy_iff true None (Some "m") sample_recon r s').
    + intros e He. assert (Hs : Forall (fun e => truthy (pe_event_id e) = true)
        (processed_events (rc_payments sample_recon))) by (vm_compute; repeat constructor).
      exact (proj1 (Forall_forall _ _) Hs e He).
    + exact E.
    + vm_compute in E. injection E as <- _. reflexivity.
  - vm_compute in E. discriminate.
Defined.

(** With a tax engine configured, no ledger that holds a tax entry can
    reconcile: [recent_calculations] is always empty, so each such entry is
    reported as TAX_MISMATCH and the report is not HEALTHY, although the entry
    was posted by a calculation of that very engine. *)
Theorem recorded_tax_never_reconciles `{Env} governance mp s r s' e :
  e ∈ ledger_report mp (rc_ledger s) -> le_entry_type e = TAX_CALCULATED ->
  run_reconciliation true governance mp s = (Ok r, s') ->
  rr_status r <> HEALTHY /\ TAX_MISMATCH ∈ map mm_kind (rr_mismatches r).
Proof.
  intros He Ht Hrun.
  assert (Hin : TAX_MISMATCH ∈ map ms_kind (find_mismatches true mp (rc_ledger s) (rc_payments s))).
  { unfold find_mismatches. destruct (sum_by_order _ _ _ _ _) as [[c x] m].
    rewrite !map_app, !elem_of_app. do 5 right.
    apply list_elem_of_fmap. eexists (entry_spec e TAX_MISMATCH SEV_MEDIUM _ []). split; [done|].
    unfold tax_mismatches. apply list_elem_of_omap. exists e. split; [done|].
    rewrite bool_decide_eq_true_2, bool_decide_eq_false_2 by (done || apply not_elem_of_nil).
    reflexivity. }
  unfold run_reconciliation, gets, mbind, M_bind, rc_in_world, zoom in Hrun.
  destruct (stamp_run (find_mismatches true mp (rc_ledger s) (rc_payments s)) (rc_world s))
    as (ms & w & E & Hlen & Hk & _).
  rewrite E in Hrun. cbn beta iota zeta in Hrun. rewrite <- Hk in Hin.
  assert (Hne : ms <> []) by (intros ->; by apply elem_of_nil in Hin).
  destruct governance as [evaluate|].
  - destruct (existsb is_severe ms).
    + cbn [rc_world rc_ledger rc_payments rc_reports] in Hrun.
      destruct (evaluate _ _ _ _ w) as [[d|x] w']; [|discriminate].
      injection Hrun as <- _. simpl. split; [by destruct (gd_allowed d), ms|done].
    + injection Hrun as <- _. simpl. split; [by destruct ms|done].
  - injection Hrun as <- _. simpl. split; [by destruct ms|done].
Qed.

Definition sample_tax_request : TaxCalculationRequest := {|
  tq_tax_request_id := "txreq_1"; tq_marketplace_id := "m"; tq_order_id := "order_1";
  tq_listing_id := "l"; tq_tenant_id := "t"; tq_jurisdiction := "FR"; tq_amounts := [];
  tq_currency := "EUR"; tq_provider := "p"; tq_evidence_ref := None |}.
Definition sample_tax_adapter : TaxProviderAdapter := {|
  adapter_calculate_tax := fun q =>
    Ok {| tr_tax_request_id := tq_tax_request_id q; tr_provider := "p"; tr_jurisdiction := "FR";
          tr_tax_rate := of_ratio 2 10; tr_tax_amount := of_Z 8; tr_currency := "EUR";
          tr_provider_reference := None; tr_calculated_at := 0; tr_evidence_ref := None |};
  adapter_validate_tax_registration := fun _ => Ok true |}.
Definition taxed_ledger : FinancialLedgerEngine :=
  default empty_ledger (tx_ledger
    (calculate_tax sample_tax_adapter sample_tax_request
       {| tx_world := world0; tx_ledger := Some empty_ledger |}).2).

Lemma recorded_tax_never_reconciles_witness :
  exists r, (run_reconciliation true None None
      {| rc_world := world0; rc_ledger := taxed_ledger; rc_payments := empty_payments;
         rc_reports := [] |}).1 = Ok r /\ rr_status r <> HEALTHY.
Proof.
  destruct (run_reconciliation true None None _) as [[r|x] s'] eqn:E;
    [|vm_compute in E; discriminate].
  exists r. split; [reflexivity|].
  destruct (dvalues (fl_entries taxed_ledger)) as [|e es] eqn:El; [vm_compute in El; discriminate|].
  refine (proj1 (recorded_tax_never_reconciles None None _ r s' e _ _ E)).
  - cbn [rc_ledger]. unfold ledger_report, in_marketplace. rewrite El. left.
  - vm_compute in El. injection El as <- _. reflexivity.
Defined.
