(* ===== verification/FinCompliance.v ===== *)
(** * Financial compliance certification

    [product_factory/marketplace_financial_hardening/compliance.py]: ten gates
    and the status they give a certification report, its expiry and its
    revocation. *)

From S2P Require Import Prelude PyFloat PyVal FinModels FinLedger FinPayments FinRecon.

(** The report of the Phase 26.8 engine, as far as the gate reads it. *)
Record LearningReport : Set := {
  lr_revoked_at : bool;
  lr_expires_at : option Z;
  lr_status : string;
  lr_id : string;
}.

(** The parts the certification looks at: which engines are wired, the
    ledger, the latest reconciliation report and the Phase 26.8 engine with its
    latest report. *)
Record ComplianceView : Set := {
  cv_payment_engine : bool;
  cv_refund_engine : bool;
  cv_ledger : option FinancialLedgerEngine;
  cv_reconciliation : option (option ReconciliationReport);
  cv_tax_engine : bool;
  cv_fraud_engine : bool;
  cv_sla_engine : bool;
  cv_governance : bool;
  cv_learning : option (option LearningReport);
}.

Record ComplianceState : Set := {
  ce_world : World;
  ce_reports : list (string * FinancialComplianceReport);
}.

Definition gate (name : string) (passed : bool) (severity reason : string) (refs : list string) :
    FinancialComplianceGate :=
  {| gate_name := name; gate_passed := passed; gate_severity := severity; gate_reason := reason;
     gate_evidence_refs := refs |}.

Definition gate_payment_adapter_health (v : ComplianceView) :=
  if cv_payment_engine v
  then gate "payment_adapter_health" true "INFO" "Payment adapter engine is present." []
  else gate "payment_adapter_health" false "HIGH" "Payment adapter engine is missing." [].

Definition gate_refund_governance_evidence (v : ComplianceView) :=
  if cv_refund_engine v
  then gate "refund_governance_evidence" true "INFO" "Refund governance engine is present." []
  else gate "refund_governance_evidence" false "HIGH" "Refund governance engine is missing." [].

Definition gate_ledger_integrity (v : ComplianceView) :=
  match cv_ledger v with
  | None => gate "ledger_integrity" false "HIGH" "Financial ledger is missing." []
  | Some l =>
      match duplicate_idempotency_keys l with
      | [] => gate "ledger_integrity" true "INFO" "Ledger idempotency integrity verified." []
      | ds => gate "ledger_integrity" false "HIGH"
                ("Ledger contains duplicate idempotency keys: " +:+ String.concat ", " ds) []
      end
  end.

Definition gate_reconciliation_health (v : ComplianceView) :=
  match cv_reconciliation v with
  | None => gate "reconciliation_health" false "MEDIUM" "Reconciliation engine is not configured." []
  | Some None => gate "reconciliation_health" false "MEDIUM" "No reconciliation has been run." []
  | Some (Some r) =>
      match rr_status r with
      | HEALTHY => gate "reconciliation_health" true "INFO" "Latest reconciliation is healthy."
                     [rr_report_id r]
      | st =>
          if existsb is_severe (rr_mismatches r)
             || (match st with RECON_FAILED => true | _ => false end)
          then gate "reconciliation_health" false "HIGH"
                 "Reconciliation detected severe mismatches." [rr_report_id r]
          else gate "reconciliation_health" false "MEDIUM"
                 "Reconciliation has minor mismatches." [rr_report_id r]
      end
  end.

Definition gate_tax_adapter_evidence (v : ComplianceView) :=
  if cv_tax_engine v
  then gate "tax_adapter_evidence" true "INFO" "Tax adapter engine is present." []
  else gate "tax_adapter_evidence" false "MEDIUM" "Tax adapter engine is not configured." [].

Definition gate_fraud_control_evidence (v : ComplianceView) :=
  if cv_fraud_engine v
  then gate "fraud_control_evidence" true "INFO" "Fraud control engine is present." []
  else gate "fraud_control_evidence" false "HIGH" "Fraud control engine is missing." [].

Definition gate_sla_monitoring_evidence (v : ComplianceView) :=
  if cv_sla_engine v
  then gate "sla_monitoring_evidence" true "INFO" "SLA monitoring engine is present." []
  else gate "sla_monitoring_evidence" false "MEDIUM" "SLA monitoring engine is not configured." [].

(** [str(n)] of a length. *)
Fixpoint digits (fuel n : nat) : string :=
  let d := String (Ascii.ascii_of_nat (48 + n mod 10)) EmptyString in
  match fuel with
  | O => d
  | S fuel' => if Nat.ltb n 10 then d else digits fuel' (n / 10) +:+ d
  end.
Definition str_of_nat (n : nat) : string := digits n n.

Definition gate_audit_trail_integrity (v : ComplianceView) :=
  match cv_ledger v with
  | None => gate "audit_trail_integrity" false "MEDIUM"
              "Ledger is not configured; no audit trail available." []
  | Some l =>
      match fl_audit_events l with
      | [] => gate "audit_trail_integrity" false "MEDIUM" "Financial audit trail is empty." []
      | es => gate "audit_trail_integrity" true "INFO" "Financial audit trail is present."
                [str_of_nat (length es)]
      end
  end.

Definition gate_governance_policy_evidence (v : ComplianceView) :=
  if cv_governance v
  then gate "governance_policy_evidence" true "INFO" "Governance controls are configured." []
  else gate "governance_policy_evidence" false "HIGH" "Governance controls are not configured." [].

Section Compliance.
Context `{Env}.
Variable policy : MarketplaceFinancialPolicy.

Definition gate_production_learning_certification (v : ComplianceView) :
    M World FinancialComplianceGate :=
  let name := "production_learning_certification" in
  match cv_learning v with
  | None => mret (gate name false "MEDIUM"
      "Phase 26.8 production learning certification engine is not wired." [])
  | Some None => mret (gate name false "MEDIUM"
      "No Phase 26.8 production learning certification report found." [])
  | Some (Some r) =>
      if lr_revoked_at r then
        mret (gate name false "HIGH" "Phase 26.8 certification has been revoked." [])
      else
        expired ← (match lr_expires_at r with
                   | None => mret false
                   | Some t => now ← utcnow; mret (Z.ltb t now)
                   end);
        mret (if expired : bool
              then gate name false "HIGH" "Phase 26.8 certification has expired." []
              else if mem (lr_status r) ["CERTIFIED"; "CONDITIONALLY_CERTIFIED"]
              then gate name true "INFO"
                     "Phase 26.8 production learning certification is valid." [lr_id r]
              else gate name false "HIGH"
                     "Phase 26.8 production learning certification is not valid." [])
  end.

Definition all_gates (v : ComplianceView) : M World (list FinancialComplianceGate) :=
  learning ← gate_production_learning_certification v;
  mret [ gate_payment_adapter_health v; gate_refund_governance_evidence v;
         gate_ledger_integrity v; gate_reconciliation_health v; gate_tax_adapter_evidence v;
         gate_fraud_control_evidence v; gate_sla_monitoring_evidence v;
         gate_audit_trail_integrity v; gate_governance_policy_evidence v; learning ].

Definition failing (severities : list string) (g : FinancialComplianceGate) : bool :=
  negb (gate_passed g) && mem (gate_severity g) severities.

(** [[g.reason for g in gs if g.reason]]. *)
Definition gate_reasons (gs : list FinancialComplianceGate) : list string :=
  List.filter truthy (map gate_reason gs).

(** The status and the reasons the gates give. *)
Definition certification_status (certified_by : string) (gates : list FinancialComplianceGate) :
    string * list string :=
  let failures := List.filter (failing ["HIGH"; "CRITICAL"]) gates in
  let warnings := List.filter (failing ["MEDIUM"; "INFO"]) gates in
  let '(status, reasons) :=
    match failures with
    | _ :: _ => ("NOT_CERTIFIED", gate_reasons failures)
    | [] =>
        match warnings with
        | _ :: _ => if allow_conditional_financial_certification policy
                    then ("CONDITIONALLY_CERTIFIED", gate_reasons warnings)
                    else ("CERTIFIED", [])
        | [] => ("CERTIFIED", [])
        end
    end in
  if require_human_financial_certification policy
     && negb (bool_decide (certified_by = "human")) && bool_decide (status = "CERTIFIED")
  then ("CONDITIONALLY_CERTIFIED",
        reasons ++ ["Human certification is required for financial certification."])
  else (status, reasons).

Definition evidence_refs_of (e : MarketplaceFinancialReadinessEvidence) : list string :=
  slo_definitions e ++ runbooks e ++ incident_response_plans e ++ backup_restore_evidence e
  ++ observability_evidence e ++ dashboard_refs e ++ marketplace_metrics_refs e
  ++ payment_adapter_evidence e ++ fraud_evidence e ++ tax_evidence e ++ audit_evidence e.

Definition ce_in_world {A} (m : M World A) : M ComplianceState A :=
  zoom ce_world (fun w s => {| ce_world := w; ce_reports := ce_reports s |}) m.

Definition day_us : Z := 86400 * 1000000.

Definition certify (v : ComplianceView) (marketplace_id certified_by : string)
    (evidence : option MarketplaceFinancialReadinessEvidence)
    (prerequisite : option string) : M ComplianceState FinancialComplianceReport :=
  gates ← ce_in_world (all_gates v);
  let '(status, reasons) := certification_status certified_by gates in
  now ← ce_in_world utcnow;
  let expires_at := (now + financial_certification_ttl_days policy * day_us)%Z in
  report_id ← ce_in_world (new_id "financial_certification");
  created ← ce_in_world utcnow;
  let report :=
    {| cr_report_id := report_id; cr_marketplace_id := marketplace_id;
       cr_scope := "financial_operations"; cr_status := status; cr_gates := gates;
       cr_reasons := reasons;
       cr_evidence_refs := match evidence with Some e => evidence_refs_of e | None => [] end;
       cr_prerequisite := prerequisite; cr_certified_by := certified_by;
       cr_created_at := created; cr_expires_at := Some expires_at; cr_revoked_at := None;
       cr_revocation_reason := None |} in
  _ ← modify (fun s => {| ce_world := ce_world s;
                          ce_reports := dset report_id report (ce_reports s) |});
  mret report.

Definition compliance_report (report_id : string) : M ComplianceState FinancialComplianceReport :=
  found ← gets (fun s => dget report_id (ce_reports s));
  match found with
  | Some r => mret r
  | None => raise (KeyError ("Financial compliance report not found: " +:+ report_id))
  end.

Definition revoke (report_id reason revoked_by : string) :
    M ComplianceState FinancialComplianceReport :=
  r ← compliance_report report_id;
  now ← ce_in_world utcnow;
  let r' :=
    {| cr_report_id := cr_report_id r; cr_marketplace_id := cr_marketplace_id r;
       cr_scope := cr_scope r; cr_status := "REVOKED"; cr_gates := cr_gates r;
       cr_reasons := cr_reasons r; cr_evidence_refs := cr_evidence_refs r;
       cr_prerequisite := cr_prerequisite r; cr_certified_by := revoked_by;
       cr_created_at := cr_created_at r; cr_expires_at := cr_expires_at r;
       cr_revoked_at := Some now; cr_revocation_reason := Some reason |} in
  _ ← modify (fun s => {| ce_world := ce_world s;
                          ce_reports := dset report_id r' (ce_reports s) |});
  mret r'.

Definition latest_certification (s : ComplianceState) : option FinancialComplianceReport :=
  last (dvalues (ce_reports s)).
End Compliance.

(** ** Properties *)

Lemma filter_nil_forall {A} (f : A -> bool) l :
  List.filter f l = [] <-> forall x, x ∈ l -> f x = false.
Proof.
  induction l as [|x l IH]; simpl.
  - split; [|done]. intros _ x Hx. by apply elem_of_nil in Hx.
  - setoid_rewrite elem_of_cons. destruct (f x) eqn:E.
    + split; [done|]. intros Hall. rewrite (Hall x) in E by auto. done.
    + rewrite IH. split; [intros Hall y [->|Hy]; auto|auto].
Qed.

(** A CERTIFIED report means that no gate failed with severity HIGH or
    CRITICAL, that a human certified it when the policy requires one, and, when
    the policy admits conditional certification, that every gate of severity
    MEDIUM or INFO passed too; NOT_CERTIFIED is given exactly when some gate
    failed with severity HIGH or CRITICAL. *)
Theorem certification_status_sound policy certified_by gates :
  ((certification_status policy certified_by gates).1 = "CERTIFIED" ->
   (forall g, g ∈ gates -> failing ["HIGH"; "CRITICAL"] g = false) /\
   (require_human_financial_certification policy = true -> certified_by = "human") /\
   (allow_conditional_financial_certification policy = true ->
    forall g, g ∈ gates -> failing ["MEDIUM"; "INFO"] g = false)) /\
  ((certification_status policy certified_by gates).1 = "NOT_CERTIFIED" <->
   exists g, g ∈ gates /\ failing ["HIGH"; "CRITICAL"] g = true).
Proof.
  unfold certification_status.
  destruct (List.filter (failing ["HIGH"; "CRITICAL"]) gates) as [|f fs] eqn:Ef.
  - rewrite filter_nil_forall in Ef. split.
    + destruct (List.filter (failing ["MEDIUM"; "INFO"]) gates) as [|x xs] eqn:Ew.
      * rewrite filter_nil_forall in Ew. simpl.
        destruct (require_human_financial_certification policy); simpl; [|by intros _].
        case_bool_decide; simpl; [|done]. by intros _.
      * destruct (allow_conditional_financial_certification policy); simpl;
          [by rewrite andb_false_r|].
        destruct (require_human_financial_certification policy); simpl; [|by intros _].
        case_bool_decide; simpl; [|done]. by intros _.
    + split.
      * destruct (List.filter _ gates); simpl;
          [|destruct (allow_conditional_financial_certification policy); simpl];
          repeat case_goal; done.
      * intros (g & Hg & Hf). by rewrite (Ef g Hg) in Hf.
  - simpl. rewrite andb_false_r. simpl. split; [done|]. split; [|done]. intros _.
    exists f. assert (Hin : In f (f :: fs)) by (by left). rewrite <- Ef in Hin.
    apply filter_In in Hin. by rewrite list_elem_of_In.
Qed.

(** Forbidding conditional certification makes it easier to be certified:
    under such a policy a report with failed MEDIUM gates (no reconciliation
    run, no audit trail, no Phase 26.8 engine) and no failed HIGH gate is
    CERTIFIED, while the same gates give CONDITIONALLY_CERTIFIED when
    conditional certification is allowed. *)
Theorem forbidding_conditional_certifies policy gates g :
  allow_conditional_financial_certification policy = false ->
  (forall x, x ∈ gates -> failing ["HIGH"; "CRITICAL"] x = false) ->
  g ∈ gates -> failing ["MEDIUM"; "INFO"] g = true ->
  certification_status policy "human" gates = ("CERTIFIED", []) /\
  forall policy', allow_conditional_financial_certification policy' = true ->
    (certification_status policy' "human" gates).1 = "CONDITIONALLY_CERTIFIED".
Proof.
  intros Ha Hh Hg Hf. unfold certification_status.
  rewrite (proj2 (filter_nil_forall _ gates) Hh).
  destruct (List.filter (failing ["MEDIUM"; "INFO"]) gates) as [|x xs] eqn:Ew.
  { rewrite filter_nil_forall in Ew. by rewrite (Ew g Hg) in Hf. }
  rewrite Ha. split.
  - by rewrite andb_false_r.
  - intros policy' ->. by rewrite andb_false_r.
Qed.

(** The policy of the next witness: no conditional certification. *)
Definition strict_policy : MarketplaceFinancialPolicy := {|
  pol_marketplace_id := "m"; auto_approve_refund_threshold_amount := of_Z 50;
  auto_approve_refund_threshold_currency := "USD"; auto_approve_small_refunds := true;
  require_governance_for_refund_above_threshold := true;
  require_governance_for_fee_changes := true; require_governance_for_tax_policy := true;
  require_governance_for_fraud_policy := true; block_uncertified_products := true;
  block_fraud_flagged_from_publication := true; min_fraud_score_to_hold := of_ratio 70 100;
  min_fraud_score_to_block := of_ratio 85 100; payment_webhook_signature_required := true;
  financial_certification_ttl_days := 90; require_human_financial_certification := true;
  allow_conditional_financial_certification := false; fail_closed_on_adapter_error := true |}.

Definition bare_view : ComplianceView := {|
  cv_payment_engine := true; cv_refund_engine := true; cv_ledger := Some empty_ledger;
  cv_reconciliation := Some None; cv_tax_engine := true; cv_fraud_engine := true;
  cv_sla_engine := true; cv_governance := true; cv_learning := None |}.
Definition bare_gates : list FinancialComplianceGate :=
  match (all_gates bare_view world0).1 with Ok gs => gs | Raise _ => [] end.

Lemma forbidding_conditional_certifies_witness :
  certification_status strict_policy "human" bare_gates = ("CERTIFIED", []).
Proof.
  apply (forbidding_conditional_certifies strict_policy bare_gates
    (gate_audit_trail_integrity bare_view)).
  - reflexivity.
  - intros x Hx. apply (proj1 (filter_nil_forall (failing ["HIGH"; "CRITICAL"]) bare_gates)).
    + vm_compute. reflexivity.
    + exact Hx.
  - apply list_elem_of_In. do 7 right. left. reflexivity.
  - vm_compute. reflexivity.
Defined.
