(* ===== verification/FinEngine.v ===== *)
(** * The marketplace financial hardening engine

    [product_factory/marketplace_financial_hardening/engine.py]: the
    coordinator that owns one ledger and shares it between the payment, refund,
    tax, fraud, service-level, reconciliation and compliance engines. *)

From S2P Require Import Prelude PyFloat PyVal FinModels FinLedger FinPayments FinRefunds.
From S2P Require Import FinControls FinRecon FinCompliance.

(** ** The default governance *)

(** [list(evidence_refs)] validated as a list of strings: a None among them is
    a pydantic ValidationError, a subclass of ValueError. *)
Fixpoint validated_refs (refs : list (option string)) : option (list string) :=
  match refs with
  | [] => Some []
  | None :: _ => None
  | Some r :: rest => cons r <$> validated_refs rest
  end.

Definition default_governance `{Env} : GovernancePort := fun action actor _ refs =>
  match validated_refs refs with
  | Some rs => approved_decision action actor rs
  | None => raise (ValueError "validation error for GovernanceDecision: evidence_refs")
  end.

(** ** The coordinator *)

Record FinancialHardeningEngine : Set := {
  fe_world : World;
  fe_ledger : FinancialLedgerEngine;
  fe_payments : PaymentAdapterEngine;
  fe_refunds : RefundGovernanceEngine;
  fe_fraud : FraudControlEngine;
  fe_sla : SLAMonitorEngine;
  fe_recon_reports : list (string * ReconciliationReport);
  fe_certifications : list (string * FinancialComplianceReport);
}.

Definition new_engine (w : World) : FinancialHardeningEngine :=
  {| fe_world := w; fe_ledger := empty_ledger; fe_payments := empty_payments;
     fe_refunds := empty_refunds; fe_fraud := empty_fraud w; fe_sla := new_sla w;
     fe_recon_reports := []; fe_certifications := [] |}.

(** Running a method of one of the engines on the shared ledger and clock. *)
Definition on_payments {A} (m : M PaymentState A) : M FinancialHardeningEngine A :=
  zoom (fun s => {| ps_world := fe_world s; ps_ledger := Some (fe_ledger s);
                    ps_engine := fe_payments s |})
    (fun c s => {| fe_world := ps_world c; fe_ledger := default (fe_ledger s) (ps_ledger c);
                   fe_payments := ps_engine c; fe_refunds := fe_refunds s; fe_fraud := fe_fraud s;
                   fe_sla := fe_sla s; fe_recon_reports := fe_recon_reports s;
                   fe_certifications := fe_certifications s |}) m.

Definition on_refunds {A} (m : M RefundState A) : M FinancialHardeningEngine A :=
  zoom (fun s => {| rs_world := fe_world s; rs_ledger := Some (fe_ledger s);
                    rs_engine := fe_refunds s |})
    (fun c s => {| fe_world := rs_world c; fe_ledger := default (fe_ledger s) (rs_ledger c);
                   fe_payments := fe_payments s; fe_refunds := rs_engine c; fe_fraud := fe_fraud s;
                   fe_sla := fe_sla s; fe_recon_reports := fe_recon_reports s;
                   fe_certifications := fe_certifications s |}) m.

Definition on_tax {A} (m : M TaxState A) : M FinancialHardeningEngine A :=
  zoom (fun s => {| tx_world := fe_world s; tx_ledger := Some (fe_ledger s) |})
    (fun c s => {| fe_world := tx_world c; fe_ledger := default (fe_ledger s) (tx_ledger c);
                   fe_payments := fe_payments s; fe_refunds := fe_refunds s; fe_fraud := fe_fraud s;
                   fe_sla := fe_sla s; fe_recon_reports := fe_recon_reports s;
                   fe_certifications := fe_certifications s |}) m.

Definition on_fraud {A} (m : M FraudControlEngine A) : M FinancialHardeningEngine A :=
  zoom (fun s => {| fc_world := fe_world s; fc_assessments := fc_assessments (fe_fraud s);
                    held_listings := held_listings (fe_fraud s);
                    blocked_listings := blocked_listings (fe_fraud s) |})
    (fun c s => {| fe_world := fc_world c; fe_ledger := fe_ledger s; fe_payments := fe_payments s;
                   fe_refunds := fe_refunds s; fe_fraud := c; fe_sla := fe_sla s;
                   fe_recon_reports := fe_recon_reports s;
                   fe_certifications := fe_certifications s |}) m.

Definition on_sla {A} (m : M SLAMonitorEngine A) : M FinancialHardeningEngine A :=
  zoom (fun s => {| sla_world := fe_world s; sla_observations := sla_observations (fe_sla s);
                    sla_breach_counts := sla_breach_counts (fe_sla s);
                    sla_last_breach_at := sla_last_breach_at (fe_sla s) |})
    (fun c s => {| fe_world := sla_world c; fe_ledger := fe_ledger s; fe_payments := fe_payments s;
                   fe_refunds := fe_refunds s; fe_fraud := fe_fraud s; fe_sla := c;
                   fe_recon_reports := fe_recon_reports s;
                   fe_certifications := fe_certifications s |}) m.

Definition on_recon {A} (m : M ReconciliationState A) : M FinancialHardeningEngine A :=
  zoom (fun s => {| rc_world := fe_world s; rc_ledger := fe_ledger s; rc_payments := fe_payments s;
                    rc_reports := fe_recon_reports s |})
    (fun c s => {| fe_world := rc_world c; fe_ledger := rc_ledger c; fe_payments := rc_payments c;
                   fe_refunds := fe_refunds s; fe_fraud := fe_fraud s; fe_sla := fe_sla s;
                   fe_recon_reports := rc_reports c;
                   fe_certifications := fe_certifications s |}) m.

Definition on_compliance {A} (m : M ComplianceState A) : M FinancialHardeningEngine A :=
  zoom (fun s => {| ce_world := fe_world s; ce_reports := fe_certifications s |})
    (fun c s => {| fe_world := ce_world c; fe_ledger := fe_ledger s; fe_payments := fe_payments s;
                   fe_refunds := fe_refunds s; fe_fraud := fe_fraud s; fe_sla := fe_sla s;
                   fe_recon_reports := fe_recon_reports s; fe_certifications := ce_reports c |}) m.

Section Engine.
Context `{Env}.
Variables (policy : MarketplaceFinancialPolicy) (governance : option GovernancePort).
Variables (payment_adapter : PaymentProviderAdapter) (tax_adapter : TaxProviderAdapter).
Variable learning : option (option LearningReport).

(** [self.governance = governance or DefaultGovernanceAdapter()]. *)
Definition engine_governance : GovernancePort := default default_governance governance.

Definition process_payment_webhook (envelope : PaymentWebhookEnvelope) :
    M FinancialHardeningEngine PaymentEvent :=
  event ← on_payments (ingest_webhook payment_adapter policy envelope);
  let failed := mem (payment_status_value (pe_status event)) ["FAILED"; "CANCELLED"] in
  _ ← on_sla (sla_record PAYMENT_EVENT_INGESTION_SUCCESS_RATE
        (if failed then fzero else of_Z 1) (negb failed) None);
  mret event.

Definition engine_request_refund (marketplace_id order_id listing_id tenant_id : string)
    (amount : float) (currency requested_by : string) (original_payment_event_id : option string)
    (reason_code reason : string) (idempotency_key : option string) :
    M FinancialHardeningEngine nat :=
  on_refunds (request_refund policy (Some engine_governance) marketplace_id order_id listing_id
    tenant_id amount currency requested_by original_payment_event_id reason_code reason
    idempotency_key).

Definition engine_approve_refund (refund_id approver_id : string) (approval_ref : option string) :
    M FinancialHardeningEngine nat :=
  on_refunds (approve_refund policy (Some engine_governance) refund_id approver_id approval_ref).

Definition engine_reject_refund (refund_id approver_id reason : string) :
    M FinancialHardeningEngine nat :=
  on_refunds (reject_refund refund_id approver_id reason).

Definition engine_calculate_tax (request : TaxCalculationRequest) :
    M FinancialHardeningEngine TaxCalculationResult :=
  on_tax (calculate_tax tax_adapter request).

(** The engine is wired without a fraud adapter, so with the no-op one. *)
Definition engine_assess_fraud (listing_id tenant_id : string) (order_id : option string)
    (context : option pydict) : M FinancialHardeningEngine FraudAssessment :=
  on_fraud (assess noop_fraud_adapter policy listing_id tenant_id order_id context).

Definition engine_run_reconciliation (marketplace_id : option string) :
    M FinancialHardeningEngine ReconciliationReport :=
  on_recon (run_reconciliation true (Some engine_governance) marketplace_id).

Definition latest_reconciliation_report (s : FinancialHardeningEngine) :
    option ReconciliationReport := last (dvalues (fe_recon_reports s)).

(** What the compliance engine sees of the coordinator. *)
Definition compliance_view (s : FinancialHardeningEngine) : ComplianceView := {|
  cv_payment_engine := true; cv_refund_engine := true; cv_ledger := Some (fe_ledger s);
  cv_reconciliation := Some (latest_reconciliation_report s); cv_tax_engine := true;
  cv_fraud_engine := true; cv_sla_engine := true; cv_governance := true;
  cv_learning := learning |}.

Definition engine_certify (certified_by : string)
    (evidence : option MarketplaceFinancialReadinessEvidence) (prerequisite : option string) :
    M FinancialHardeningEngine FinancialComplianceReport :=
  view ← gets compliance_view;
  on_compliance (certify policy view (pol_marketplace_id policy) certified_by evidence
    prerequisite).

Definition latest_certification_report (s : FinancialHardeningEngine) :
    option FinancialComplianceReport := last (dvalues (fe_certifications s)).

Definition revoke_certification (report_id reason revoked_by : string) :
    M FinancialHardeningEngine FinancialComplianceReport :=
  on_compliance (revoke report_id reason revoked_by).

Definition sla_report : M FinancialHardeningEngine SLAStatusReport :=
  on_sla (get_sla_report "marketplace_1" (definitions_of DEFAULT_SLA_DEFINITIONS)).
End Engine.

(** ** The ledger of the whole engine *)

(** One call of the coordinator that may write to the ledger. *)
Inductive engine_call `{Env} policy governance payment_adapter tax_adapter
    (s : FinancialHardeningEngine) : FinancialHardeningEngine -> Prop :=
| call_webhook envelope :
    engine_call policy governance payment_adapter tax_adapter s
      (process_payment_webhook policy payment_adapter envelope s).2
| call_engine_request mp o l tn amount cur who pe rc reason key :
    engine_call policy governance payment_adapter tax_adapter s
      (engine_request_refund policy governance mp o l tn amount cur who pe rc reason key s).2
| call_engine_approve id approver ref :
    engine_call policy governance payment_adapter tax_adapter s
      (engine_approve_refund policy governance id approver ref s).2
| call_engine_reject id approver reason :
    engine_call policy governance payment_adapter tax_adapter s
      (engine_reject_refund id approver reason s).2
| call_tax request :
    engine_call policy governance payment_adapter tax_adapter s
      (engine_calculate_tax tax_adapter request s).2
| call_fraud listing tenant order ctx :
    engine_call policy governance payment_adapter tax_adapter s
      (engine_assess_fraud policy listing tenant order ctx s).2
| call_reconcile mp :
    engine_call policy governance payment_adapter tax_adapter s
      (engine_run_reconciliation governance mp s).2.

(** ** The ledger stays sound through every call *)

Definition optional_ledger_ok (o : option FinancialLedgerEngine) : Prop :=
  forall l, o = Some l -> ledger_ok l.

Section LedgerInvariant.
Context `{Env}.

Notation led := (fun s : LedgerState => ledger_ok (ls_ledger s)).
Notation rled := (fun s : RefundState => optional_ledger_ok (rs_ledger s)).
Notation pled := (fun s : PaymentState => optional_ledger_ok (ps_ledger s)).
Notation tled := (fun s : TaxState => optional_ledger_ok (tx_ledger s)).

Lemma in_world_keeps {A} (m : M World A) : keeps led (in_world m).
Proof. apply (keeps_zoom led (fun _ => True)); done. Qed.

Lemma ledger_append_keeps e : keeps led (ledger_append e).
Proof. intros s. apply ledger_append_ok. Qed.

Lemma record_audit_keeps a : keeps led (record_audit a).
Proof.
  unfold record_audit, update_ledger. keeps_steps. apply keeps_modify. intros s Hs. simpl.
  by apply push_audit_ok.
Qed.

Lemma rf_in_world_keeps {A} (m : M World A) : keeps rled (rf_in_world m).
Proof. apply (keeps_zoom rled (fun _ => True)); done. Qed.

Lemma rf_update_keeps f : keeps rled (rf_update f).
Proof. by apply keeps_modify. Qed.

Lemma deref_keeps a : keeps rled (deref a).
Proof. intros s Hs. unfold deref. by destruct (_ !! a). Qed.

Lemma rf_with_ledger_keeps {A} (m : M LedgerState A) d :
  keeps led m -> keeps rled d -> keeps rled (rf_with_ledger m d).
Proof.
  intros Hm Hd s Hs. specialize (Hd s Hs). unfold rf_with_ledger.
  destruct (rs_ledger s) as [l|] eqn:E; [|exact Hd].
  specialize (Hm {| ls_world := rs_world s; ls_ledger := l |} (Hs l eq_refl)).
  destruct (m _) as [r s']. intros l' [= <-]. exact Hm.
Qed.

Lemma append_ledger_entry_keeps t a prefix : keeps rled (append_ledger_entry t a prefix).
Proof.
  unfold append_ledger_entry. keeps_steps; [apply deref_keeps|].
  apply rf_with_ledger_keeps; keeps_steps; auto using in_world_keeps, ledger_append_keeps.
Qed.

Lemma rf_audit_keeps action mp actor st amount cur gov ev reason :
  keeps rled (rf_audit action mp actor st amount cur gov ev reason).
Proof.
  unfold rf_audit. keeps_steps; [apply rf_in_world_keeps|].
  apply rf_with_ledger_keeps; keeps_steps; auto using record_audit_keeps, rf_update_keeps.
Qed.

Hint Resolve rf_in_world_keeps rf_update_keeps deref_keeps append_ledger_entry_keeps
  rf_audit_keeps : keeps.

Lemma settle_status_keeps a v action mp actor st amount cur gov ev reason :
  keeps rled (settle_status a v action mp actor st amount cur gov ev reason).
Proof. unfold settle_status, touch, assign. keeps_steps; auto with keeps. Qed.

Lemma complete_refund_keeps a : keeps rled (complete_refund a).
Proof. unfold complete_refund, complete_now, touch, assign. keeps_steps; auto with keeps. Qed.

Hint Resolve settle_status_keeps complete_refund_keeps : keeps.

Lemma request_refund_keeps policy gov mp o l tn amount cur who pe rc reason key :
  keeps rled (request_refund policy gov mp o l tn amount cur who pe rc reason key).
Proof.
  unfold request_refund, new_refund, store_refund, auto_complete, touch, assign.
  keeps_steps; auto with keeps.
Qed.

Lemma approve_refund_keeps policy gov id approver ref :
  keeps rled (approve_refund policy gov id approver ref).
Proof.
  unfold approve_refund, find_refund, finish_approval, touch, assign. keeps_steps; auto with keeps.
Qed.

Lemma reject_refund_keeps id approver reason : keeps rled (reject_refund id approver reason).
Proof. unfold reject_refund, find_refund, touch, assign. keeps_steps; auto with keeps. Qed.

Lemma pay_in_world_keeps {A} (m : M World A) : keeps pled (pay_in_world m).
Proof. apply (keeps_zoom pled (fun _ => True)); done. Qed.

Lemma pay_update_keeps f : keeps pled (pay_update f).
Proof. by apply keeps_modify. Qed.

Lemma pay_with_ledger_keeps {A} (m : M LedgerState A) d :
  keeps led m -> keeps pled d -> keeps pled (pay_with_ledger m d).
Proof.
  intros Hm Hd s Hs. specialize (Hd s Hs). unfold pay_with_ledger.
  destruct (ps_ledger s) as [l|] eqn:E; [|exact Hd].
  specialize (Hm {| ls_world := ps_world s; ls_ledger := l |} (Hs l eq_refl)).
  destruct (m _) as [r s']. intros l' [= <-]. exact Hm.
Qed.

Lemma pay_audit_keeps action mp actor st amount cur k src gov ev reason :
  keeps pled (pay_audit action mp actor st amount cur k src gov ev reason).
Proof.
  unfold pay_audit. keeps_steps; [apply pay_in_world_keeps|].
  apply pay_with_ledger_keeps; keeps_steps; auto using record_audit_keeps, pay_update_keeps.
Qed.

Lemma ingest_webhook_keeps adapter policy envelope : keeps pled (ingest_webhook adapter policy envelope).
Proof.
  unfold ingest_webhook, reject_webhook, ledgerize_payment.
  keeps_steps; auto using pay_audit_keeps, pay_in_world_keeps, pay_update_keeps.
  apply pay_with_ledger_keeps; keeps_steps; auto using in_world_keeps, ledger_append_keeps.
Qed.

Lemma calculate_tax_keeps adapter request : keeps tled (calculate_tax adapter request).
Proof.
  unfold calculate_tax. keeps_steps. intros s Hs. unfold ledgerize_tax.
  destruct (tx_ledger s) as [l|] eqn:E; [|intros l Hl; simpl in Hl; congruence].
  assert (Hm : keeps led (e ← in_world (tax_entry request a); ledger_append e)).
  { keeps_steps; auto using in_world_keeps, ledger_append_keeps. }
  specialize (Hm {| ls_world := tx_world s; ls_ledger := l |} (Hs l eq_refl)).
  destruct ((e ← _; ledger_append e) _) as [r s']. intros l' [= <-]. exact Hm.
Qed.
End LedgerInvariant.

Section EngineInvariant.
Context `{Env}.
Variables (policy : MarketplaceFinancialPolicy) (governance : option GovernancePort).
Variables (payment_adapter : PaymentProviderAdapter) (tax_adapter : TaxProviderAdapter).

Notation eled := (fun s : FinancialHardeningEngine => ledger_ok (fe_ledger s)).

Lemma default_ledger_ok l o : ledger_ok l -> optional_ledger_ok o -> ledger_ok (default l o).
Proof. intros Hl Ho. destruct o as [l'|]; [by apply Ho|done]. Qed.

Lemma on_refunds_keeps {A} (m : M RefundState A) :
  keeps (fun s => optional_ledger_ok (rs_ledger s)) m -> keeps eled (on_refunds m).
Proof.
  apply keeps_zoom.
  - intros s Hs l [= <-]. exact Hs.
  - intros c s Hc Hs. by apply default_ledger_ok.
Qed.

Lemma engine_call_keeps s s' :
  engine_call policy governance payment_adapter tax_adapter s s' -> ledger_ok (fe_ledger s) ->
  ledger_ok (fe_ledger s').
Proof.
  intros Hc Hs. revert Hs.
  destruct Hc as [envelope|mp o l tn amount cur who pe rc reason key|id approver ref
    |id approver reason|request|listing tenant order ctx|mp].
  - revert s. change (keeps eled (process_payment_webhook policy payment_adapter envelope)).
    unfold process_payment_webhook. keeps_steps.
    + eapply keeps_zoom; [| |apply ingest_webhook_keeps].
      * intros s Hs l [= <-]. exact Hs.
      * intros c s Hc Hs. by apply default_ledger_ok.
    + by apply (keeps_zoom eled (fun _ => True)).
  - apply (on_refunds_keeps _ (request_refund_keeps _ _ _ _ _ _ _ _ _ _ _ _ _)).
  - apply (on_refunds_keeps _ (approve_refund_keeps _ _ _ _ _)).
  - apply (on_refunds_keeps _ (reject_refund_keeps _ _ _)).
  - revert s. change (keeps eled (engine_calculate_tax tax_adapter request)).
    eapply keeps_zoom; [| |apply calculate_tax_keeps].
    + intros s Hs l [= <-]. exact Hs.
    + intros c s Hc Hs. by apply default_ledger_ok.
  - revert s. by apply (keeps_zoom eled (fun _ => True)).
  - revert s. change (keeps eled (engine_run_reconciliation governance mp)).
    apply (keeps_zoom eled (fun s => ledger_ok (rc_ledger s))); [done|done|].
    unfold run_reconciliation, rc_in_world. keeps_steps; try (by apply keeps_modify);
      apply (keeps_zoom _ (fun _ => True)); done.
Qed.
End EngineInvariant.

(** ** Properties *)

(** Through any sequence of webhooks, refund calls, tax calculations, fraud
    assessments and reconciliations, successful or not, with any adapters and
    any governance, the shared ledger never holds two entries with the same
    idempotency key: each captured payment, refund step and tax calculation is
    posted at most once, so neither the reconciliation nor the certification
    gate can ever find a duplicate. *)
Theorem engine_ledger_unique_keys `{Env} policy governance payment_adapter tax_adapter w s :
  rtc (engine_call policy governance payment_adapter tax_adapter) (new_engine w) s ->
  duplicate_idempotency_keys (fe_ledger s) = [] /\
  gate_passed (gate_ledger_integrity (compliance_view None s)) = true /\
  forall i1 e1 i2 e2 k,
    ledger_get i1 (fe_ledger s) = Some e1 -> ledger_get i2 (fe_ledger s) = Some e2 ->
    le_idempotency_key e1 = Some k -> le_idempotency_key e2 = Some k -> truthy k = true -> i1 = i2.
Proof.
  intros Hr. assert (Hl : ledger_ok (fe_ledger s)).
  { assert (H0 : ledger_ok (fe_ledger (new_engine w))) by apply empty_ledger_ok.
    revert H0. induction Hr; eauto using engine_call_keeps. }
  assert (Hd := ledger_ok_no_duplicates _ Hl). split_and!.
  - exact Hd.
  - unfold gate_ledger_integrity. simpl. by rewrite Hd.
  - intros i1 e1 i2 e2 k H1 H2 K1 K2 Hk. apply (lo_unique _ Hl i1 e1 i2 e2 k); try done;
      unfold set_key; by rewrite ?K1, ?K2, Hk.
Qed.

Lemma engine_ledger_unique_keys_witness :
  duplicate_idempotency_keys (fe_ledger
    (process_payment_webhook default_policy sample_adapter sample_envelope (new_engine world0)).2)
  = [].
Proof.
  apply (engine_ledger_unique_keys default_policy None sample_adapter sample_tax_adapter world0).
  apply rtc_once. apply call_webhook.
Defined.

(** Under the default governance adapter a refund above the threshold that
    names no original payment event cannot be requested: the None among the
    evidence references is rejected, the call raises, and the refund it has
    already stored and posted stays in REQUESTED, from where no call can move
    it. *)
Theorem large_refund_without_event_raises `{Env} policy mp o l tn amount cur who rc reason s :
  above_threshold policy cur amount = true ->
  exists x s' r, engine_request_refund policy None mp o l tn amount cur who None rc reason None s
    = (Raise x, s') /\
    rf_heap (fe_refunds s') = rf_heap (fe_refunds s) ++ [r] /\
    rf_status r = REQUESTED /\ rf_amount r = amount.
Proof.
  intros Hab. unfold engine_request_refund, on_refunds, zoom, engine_governance. simpl.
  set (s0 := {| rs_world := fe_world s; rs_ledger := Some (fe_ledger s); rs_engine := fe_refunds s |}).
  pose proof (request_refund_outcome policy (Some default_governance) mp o l tn amount cur who None
    rc reason None s0) as Ho.
  destruct (request_refund _ _ _ _ _ _ _ _ _ _ _ _ _ s0) as [out s'].
  assert (Hno : ~ governance_answers (Some default_governance) None).
  { intros (actor & id & ctx & w & d & w' & E). discriminate E. }
  destruct Ho as [|out s' r [C _ _] HA _ _ Hst Hok]; [done|].
  destruct (rf_status r) eqn:Es; try done.
  - destruct Hst as [(? & _)|[Hf _]]; [congruence|]. destruct out as [|x]; [done|].
    exists x. eexists _, r. split; [reflexivity|]. by simpl.
  - destruct Hst as [[[_ ?]|[? _]] _]; [done|congruence].
  - by destruct Hst as (_ & _ & _ & ?).
  - destruct Hst as [? _]. congruence.
Qed.

Lemma large_refund_without_event_raises_witness :
  exists r, rf_heap (fe_refunds (engine_request_refund default_policy None "m" "order_1" "l" "t"
      (of_Z 200) "USD" "buyer" None "" "" None (new_engine world0)).2) = [r] /\
    rf_status r = REQUESTED.
Proof.
  destruct (large_refund_without_event_raises default_policy "m" "order_1" "l" "t" (of_Z 200) "USD"
    "buyer" "" "" (new_engine world0)) as (x & s' & r & E & Hh & Hs & _).
  - vm_compute. reflexivity.
  - exists r. rewrite E. split; [exact Hh|exact Hs].
Defined.

(** The engine after a captured payment of 40 and its full refund. *)
Definition paid_and_refunded : FinancialHardeningEngine :=
  let s1 := (process_payment_webhook default_policy sample_adapter sample_envelope
               (new_engine world0)).2 in
  (engine_request_refund default_policy None "m" "order_1" "" "tenant_1" (of_Z 40) "USD" "buyer"
     None "" "" None s1).2.

(** A full refund is reported as exceeding the payment: after a captured
    payment of 40 and one completed refund of 40 on the same order, the
    reconciliation, which adds the REFUND_APPROVED and the REFUND_COMPLETED
    entry of the same refund, reports REFUND_EXCEEDS_CAPTURED. *)
Theorem full_refund_reported_as_excess :
  map rf_status (rf_heap (fe_refunds paid_and_refunded)) = [COMPLETED] /\
  exists r, (engine_run_reconciliation None (Some "m") paid_and_refunded).1 = Ok r /\
    map mm_kind (rr_mismatches r) = [REFUND_EXCEEDS_CAPTURED] /\
    rr_status r = MISMATCHES_DETECTED.
Proof.
  split; [vm_compute; reflexivity|].
  destruct (engine_run_reconciliation None (Some "m") paid_and_refunded) as [[r|x] s'] eqn:E;
    vm_compute in E; [|discriminate].
  exists r. split; [done|]. injection E as <- _. split; reflexivity.
Qed.
