(* ===== verification/SetLedger.v ===== *)
(** * Settlement: models, ledger and reconciliation

    [product_factory/marketplace_settlement/models.py], [ledger.py] and
    [reconciliation.py].  Names shared with the financial hardening package
    (LedgerEntryType, ReconciliationStatus, ...) are those of this package
    here. *)

From S2P Require Import Prelude PyFloat PyVal FinModels.

(** ** Models *)

Inductive FinancialEventType : Set :=
| EV_PAYMENT_CAPTURED | EV_PAYMENT_FAILED | EV_REFUND_ISSUED | EV_REFUND_FAILED
| EV_FEE_CHARGED | EV_TAX_CHARGED | EV_CHARGEBACK_OPENED | EV_ADJUSTMENT
| EV_PAYOUT_REQUESTED | EV_PAYOUT_COMPLETED.

Definition event_type_value (t : FinancialEventType) : string :=
  match t with
  | EV_PAYMENT_CAPTURED => "PAYMENT_CAPTURED" | EV_PAYMENT_FAILED => "PAYMENT_FAILED"
  | EV_REFUND_ISSUED => "REFUND_ISSUED" | EV_REFUND_FAILED => "REFUND_FAILED"
  | EV_FEE_CHARGED => "FEE_CHARGED" | EV_TAX_CHARGED => "TAX_CHARGED"
  | EV_CHARGEBACK_OPENED => "CHARGEBACK_OPENED" | EV_ADJUSTMENT => "ADJUSTMENT"
  | EV_PAYOUT_REQUESTED => "PAYOUT_REQUESTED" | EV_PAYOUT_COMPLETED => "PAYOUT_COMPLETED"
  end.

Inductive LedgerEntryType : Set :=
| CREDIT | DEBIT | FEE | TAX | ADJUSTMENT | SETTLEMENT.

Definition entry_type_value (t : LedgerEntryType) : string :=
  match t with
  | CREDIT => "CREDIT" | DEBIT => "DEBIT" | FEE => "FEE" | TAX => "TAX"
  | ADJUSTMENT => "ADJUSTMENT" | SETTLEMENT => "SETTLEMENT"
  end.

Inductive ReconciliationStatus : Set := RS_OK | RS_WARN | RS_FAIL.
Inductive MismatchStatus : Set := OPEN | RESOLVED.
Inductive SettlementStatus : Set :=
| ST_DRAFT | ST_PENDING_GOVERNANCE | ST_APPROVED | ST_SETTLING | ST_SETTLED | ST_FAILED
| ST_REVERSED.

#[export] Instance FinancialEventType_eq_dec : EqDecision FinancialEventType.
Proof. solve_decision. Defined.
#[export] Instance SetLedgerEntryType_eq_dec : EqDecision LedgerEntryType.
Proof. solve_decision. Defined.
#[export] Instance MismatchStatus_eq_dec : EqDecision MismatchStatus.
Proof. solve_decision. Defined.
#[export] Instance SettlementStatus_eq_dec : EqDecision SettlementStatus.
Proof. solve_decision. Defined.

Record FinancialEvent : Set := {
  ev_id : string;
  ev_idempotency_key : string;
  ev_event_type : FinancialEventType;
  ev_marketplace_id : string;
  ev_tenant_id : string;
  ev_order_id : option string;
  ev_amount : float;
  ev_currency : string;
  ev_payload : pydict;
  ev_occurred_at : Z;
}.

Record LedgerEntry : Set := {
  en_id : string;
  en_event_id : option string;
  en_idempotency_key : string;
  en_entry_type : LedgerEntryType;
  en_marketplace_id : string;
  en_tenant_id : string;
  en_order_id : option string;
  en_amount : float;
  en_currency : string;
  en_created_at : Z;
}.

Record ReconciliationMismatch : Set := {
  mi_id : string;
  mi_marketplace_id : string;
  mi_mismatch_type : string;
  mi_severity : string;
  mi_entity_id : option string;
  mi_expected : string;
  mi_observed : string;
  mi_details : list (string * string);
  mi_status : MismatchStatus;
  mi_resolved_by : option string;
  mi_resolved_at : option Z;
}.

(** A report refers to the open mismatches, objects of the engine's table, by
    their ids. *)
Record ReconciliationReport : Set := {
  rp_id : string;
  rp_marketplace_id : string;
  rp_period_start : Z;
  rp_period_end : Z;
  rp_status : ReconciliationStatus;
  rp_mismatches : list string;
  rp_generated_at : Z;
}.

Record SettlementBatch : Set := {
  sb_id : string;
  sb_marketplace_id : string;
  sb_tenant_id : string;
  sb_currency : string;
  sb_period_start : Z;
  sb_period_end : Z;
  sb_gross_amount : float;
  sb_refund_amount : float;
  sb_fee_amount : float;
  sb_tax_amount : float;
  sb_net_amount : float;
  sb_entry_ids : list string;
  sb_status : SettlementStatus;
  sb_governance_ref : option string;
  sb_provider_ref : option string;
  sb_created_at : Z;
  sb_executed_at : option Z;
}.

Record PayoutInstruction : Set := {
  po_id : string;
  po_settlement_batch_id : string;
  po_participant_id : string;
  po_amount : float;
  po_currency : string;
  po_status : string;
  po_provider_ref : option string;
  po_created_at : Z;
}.

(** [min_settlement_amount] is validated to be at least 0 and
    [max_batch_entries] at least 1. *)
Record SettlementPolicy : Set := {
  require_governance_for_settlement : bool;
  allow_negative_settlement : bool;
  allow_negative_balances : bool;
  min_settlement_amount : float;
  max_batch_entries : nat;
  settlement_currency : string;
}.

Definition default_settlement_policy : SettlementPolicy := {|
  require_governance_for_settlement := true; allow_negative_settlement := false;
  allow_negative_balances := false; min_settlement_amount := fzero;
  max_batch_entries := Z.to_nat 5000; settlement_currency := "USD" |}.

(** ** The ledger *)

Record SettlementLedger : Set := {
  sl_events : list FinancialEvent;
  sl_entries : list LedgerEntry;
  sl_idempotency_keys : gset string;
}.

Definition empty_settlement_ledger : SettlementLedger :=
  {| sl_events := []; sl_entries := []; sl_idempotency_keys := ∅ |}.

Record LedgerWorld : Set := { lw_world : World; lw_ledger : SettlementLedger }.

(** [_entry_type_for_event]. *)
Definition entry_type_for_event (e : FinancialEvent) : option LedgerEntryType :=
  match ev_event_type e with
  | EV_PAYMENT_CAPTURED => Some CREDIT
  | EV_REFUND_ISSUED | EV_CHARGEBACK_OPENED | EV_PAYOUT_COMPLETED => Some DEBIT
  | EV_FEE_CHARGED => Some FEE
  | EV_TAX_CHARGED => Some TAX
  | EV_ADJUSTMENT => Some ADJUSTMENT
  | _ => None
  end.

Section SetLedger.
Context `{Env}.
Variable parse_float : string -> option float.

(** [_signed_amount]. *)
Definition signed_amount (e : FinancialEvent) : res float :=
  match ev_event_type e with
  | EV_PAYMENT_CAPTURED => Ok (ev_amount e)
  | EV_REFUND_ISSUED | EV_CHARGEBACK_OPENED | EV_FEE_CHARGED | EV_TAX_CHARGED
  | EV_PAYOUT_COMPLETED => Ok (fopp (ev_amount e))
  | EV_ADJUSTMENT =>
      py_float parse_float (dget_or "signed_amount" (ev_payload e) (VFloat (ev_amount e)))
  | _ => Ok fzero
  end.

Definition lw_in_world {A} (m : M World A) : M LedgerWorld A :=
  zoom lw_world (fun w s => {| lw_world := w; lw_ledger := lw_ledger s |}) m.

(** [LedgerEntry(...)] with a fresh id and creation time. *)
Definition new_entry (event_id : option string) (idempotency_key : string) (t : LedgerEntryType)
    (marketplace_id tenant_id : string) (order_id : option string) (amount : float)
    (currency : string) : M World LedgerEntry :=
  id ← new_id "ledger_entry";
  now ← utcnow;
  mret {| en_id := id; en_event_id := event_id; en_idempotency_key := idempotency_key;
          en_entry_type := t; en_marketplace_id := marketplace_id; en_tenant_id := tenant_id;
          en_order_id := order_id; en_amount := amount; en_currency := currency;
          en_created_at := now |}.

Definition ingest_event (e : FinancialEvent) : M LedgerWorld (option LedgerEntry) :=
  seen ← gets (fun s => bool_decide (ev_idempotency_key e ∈ sl_idempotency_keys (lw_ledger s)));
  if seen : bool then mret None
  else
    match entry_type_for_event e with
    | None => mret None
    | Some t =>
        amount ← lift_res (signed_amount e);
        entry ← lw_in_world (new_entry (Some (ev_id e)) (ev_idempotency_key e) t
                  (ev_marketplace_id e) (ev_tenant_id e) (ev_order_id e) amount (ev_currency e));
        _ ← modify (fun s =>
          {| lw_world := lw_world s;
             lw_ledger := {| sl_events := sl_events (lw_ledger s) ++ [e];
                             sl_entries := sl_entries (lw_ledger s) ++ [entry];
                             sl_idempotency_keys :=
                               {[ev_idempotency_key e]} ∪ sl_idempotency_keys (lw_ledger s) |} |});
        mret (Some entry)
    end.
End SetLedger.

Definition entries_for_period (marketplace_id : string) (period_start period_end : Z)
    (tenant_id : option string) (l : SettlementLedger) : list LedgerEntry :=
  List.filter (fun e =>
    bool_decide (en_marketplace_id e = marketplace_id)
    && negb (otruthy tenant_id && negb (bool_decide (Some (en_tenant_id e) = tenant_id)))
    && Z.leb period_start (en_created_at e) && Z.leb (en_created_at e) period_end)
    (sl_entries l).

Definition balance (marketplace_id tenant_id currency : string) (l : SettlementLedger) : float :=
  fround (fold_left (fun total e => fadd total (en_amount e))
    (List.filter (fun e => bool_decide (en_marketplace_id e = marketplace_id)
       && bool_decide (en_tenant_id e = tenant_id) && bool_decide (en_currency e = currency))
       (sl_entries l)) fzero) 2.

Definition append_entry (e : LedgerEntry) (l : SettlementLedger) : SettlementLedger :=
  {| sl_events := sl_events l; sl_entries := sl_entries l ++ [e];
     sl_idempotency_keys := if truthy (en_idempotency_key e)
                            then {[en_idempotency_key e]} ∪ sl_idempotency_keys l
                            else sl_idempotency_keys l |}.

(** ** Reconciliation *)

Record SetReconciliation : Set := {
  sr_mismatches : list (string * ReconciliationMismatch);
  sr_reports : list ReconciliationReport;
}.

Definition empty_reconciliation : SetReconciliation :=
  {| sr_mismatches := []; sr_reports := [] |}.

(** [LEDGER_REQUIRED_EVENTS]. *)
Definition ledger_required (t : FinancialEventType) : bool :=
  mem t [EV_PAYMENT_CAPTURED; EV_REFUND_ISSUED; EV_FEE_CHARGED; EV_TAX_CHARGED;
         EV_CHARGEBACK_OPENED; EV_ADJUSTMENT; EV_PAYOUT_COMPLETED].

(** [_build_mismatch]. *)
Definition mismatch_id (marketplace_id mismatch_type : string) (entity_id : option string) :
    string :=
  "mismatch:" +:+ marketplace_id +:+ ":" +:+ mismatch_type +:+ ":"
  +:+ or_empty (oor entity_id (Some "unknown")).

Definition build_mismatch (marketplace_id mismatch_type severity : string)
    (entity_id : option string) (expected observed : string) (details : list (string * string)) :
    ReconciliationMismatch :=
  {| mi_id := mismatch_id marketplace_id mismatch_type entity_id;
     mi_marketplace_id := marketplace_id; mi_mismatch_type := mismatch_type;
     mi_severity := severity; mi_entity_id := entity_id; mi_expected := expected;
     mi_observed := observed; mi_details := details; mi_status := OPEN;
     mi_resolved_by := None; mi_resolved_at := None |}.

(** [_balances_by_tenant]. *)
Definition balances_by_tenant (marketplace_id : string) (l : SettlementLedger) :
    list ((string * string) * float) :=
  fold_left (fun d e =>
    let key := (en_tenant_id e, en_currency e) in
    dset key (fround (fadd (dget_or key d fzero) (en_amount e)) 2) d)
    (List.filter (fun e => bool_decide (en_marketplace_id e = marketplace_id)) (sl_entries l)) [].

Section SetRecon.
Context `{Env}.
Variable policy : SettlementPolicy.

(** The mismatches of a run, in the order of the code. *)
Definition new_mismatches (marketplace_id : string) (period_start period_end : Z)
    (l : SettlementLedger) : list ReconciliationMismatch :=
  let entries := entries_for_period marketplace_id period_start period_end None l in
  let events := List.filter (fun e => bool_decide (ev_marketplace_id e = marketplace_id)
                  && Z.leb period_start (ev_occurred_at e)
                  && Z.leb (ev_occurred_at e) period_end) (sl_events l) in
  let event_ids := map ev_id events in
  let ledger_event_ids := omap (fun e => if otruthy (en_event_id e) then en_event_id e else None)
                            entries in
  omap (fun e =>
    if ledger_required (ev_event_type e) && negb (mem (ev_id e) ledger_event_ids)
    then Some (build_mismatch marketplace_id "MISSING_LEDGER_ENTRY" "HIGH" (Some (ev_id e))
           "ledger_entry" "missing"
           [("event_type", event_type_value (ev_event_type e));
            ("idempotency_key", ev_idempotency_key e)])
    else None) events
  ++ omap (fun e =>
    if otruthy (en_event_id e) && negb (mem (or_empty (en_event_id e)) event_ids)
    then Some (build_mismatch marketplace_id "ORPHAN_LEDGER_ENTRY" "HIGH" (Some (en_id e))
           "financial_event" "missing"
           [("entry_type", entry_type_value (en_entry_type e));
            ("idempotency_key", en_idempotency_key e)])
    else None) entries
  ++ omap (fun p =>
    if fltb p.2 fzero && negb (allow_negative_balances policy)
    then Some (build_mismatch marketplace_id "NEGATIVE_BALANCE" "HIGH"
           (Some (p.1.1 +:+ ":" +:+ p.1.2)) ">=0" (float_repr p.2)
           [("tenant_id", p.1.1); ("currency", p.1.2)])
    else None) (balances_by_tenant marketplace_id l).

(** [if mismatch.id not in self.mismatches: self.mismatches[mismatch.id] = mismatch]. *)
Definition add_mismatches (ms : list ReconciliationMismatch)
    (table : list (string * ReconciliationMismatch)) : list (string * ReconciliationMismatch) :=
  fold_left (fun t m => if dmem (mi_id m) t then t else dset (mi_id m) m t) ms table.

Definition open_mismatches (marketplace_id : string)
    (table : list (string * ReconciliationMismatch)) : list ReconciliationMismatch :=
  List.filter (fun m => bool_decide (mi_marketplace_id m = marketplace_id)
                        && bool_decide (mi_status m = OPEN)) (dvalues table).

Definition with_severity (sev : string) (ms : list ReconciliationMismatch) :
    list ReconciliationMismatch :=
  List.filter (fun m => bool_decide (mi_severity m = sev)) ms.

(** The state of a reconciliation run. *)
Record ReconWorld : Set := { rw_world : World; rw_recon : SetReconciliation }.

Definition rw_in_world {A} (m : M World A) : M ReconWorld A :=
  zoom rw_world (fun w s => {| rw_world := w; rw_recon := rw_recon s |}) m.

Definition run (l : SettlementLedger) (marketplace_id : string) (period_start period_end : Z) :
    M ReconWorld ReconciliationReport :=
  _ ← modify (fun s =>
    {| rw_world := rw_world s;
       rw_recon := {| sr_mismatches :=
                        add_mismatches (new_mismatches marketplace_id period_start period_end l)
                          (sr_mismatches (rw_recon s));
                      sr_reports := sr_reports (rw_recon s) |} |});
  open ← gets (fun s => open_mismatches marketplace_id (sr_mismatches (rw_recon s)));
  let status := match with_severity "HIGH" open with
                | _ :: _ => RS_FAIL
                | [] => match with_severity "WARNING" open with
                        | _ :: _ => RS_WARN | [] => RS_OK end
                end in
  id ← rw_in_world (new_id "reconciliation_report");
  now ← rw_in_world utcnow;
  let report := {| rp_id := id; rp_marketplace_id := marketplace_id;
                   rp_period_start := period_start; rp_period_end := period_end;
                   rp_status := status; rp_mismatches := map mi_id open;
                   rp_generated_at := now |} in
  _ ← modify (fun s =>
    {| rw_world := rw_world s;
       rw_recon := {| sr_mismatches := sr_mismatches (rw_recon s);
                      sr_reports := sr_reports (rw_recon s) ++ [report] |} |});
  mret report.

(** The field updates of [resolve_mismatch]. *)
Definition resolved (actor_id notes : string) (m : ReconciliationMismatch) :
    ReconciliationMismatch :=
  {| mi_id := mi_id m; mi_marketplace_id := mi_marketplace_id m;
     mi_mismatch_type := mi_mismatch_type m; mi_severity := mi_severity m;
     mi_entity_id := mi_entity_id m; mi_expected := mi_expected m;
     mi_observed := mi_observed m;
     mi_details := dset "resolution_notes" notes (mi_details m);
     mi_status := RESOLVED; mi_resolved_by := Some actor_id;
     mi_resolved_at := mi_resolved_at m |}.

Definition resolve_mismatch (id actor_id notes : string) :
    M SetReconciliation ReconciliationMismatch := fun s =>
  match dget id (sr_mismatches s) with
  | None => (Raise (KeyError ("Mismatch not found: " +:+ id)), s)
  | Some m =>
      let m' := resolved actor_id notes m in
      (Ok m', {| sr_mismatches := dset id m' (sr_mismatches s); sr_reports := sr_reports s |})
  end.
End SetRecon.

Definition latest_report (marketplace_id : string) (s : SetReconciliation) :
    option ReconciliationReport :=
  last (List.filter (fun r => bool_decide (rp_marketplace_id r = marketplace_id)) (sr_reports s)).

Definition has_blocking_mismatches (marketplace_id : string) (s : SetReconciliation) : bool :=
  existsb (fun m => bool_decide (mi_marketplace_id m = marketplace_id)
                    && bool_decide (mi_status m = OPEN)
                    && bool_decide (mi_severity m = "HIGH")) (dvalues (sr_mismatches s)).
