(* ===== verification/Settlement.v ===== *)
(** * Settlement: the gateways, the settlement engine and their coordination

    [product_factory/marketplace_settlement/gateway.py], [settlement.py] and
    [engine.py].  The engine shares its ledger and its reconciliation engine
    with the coordinator, so one state holds all of them; the governance
    gateway and the settlement adapter are ports.  A batch is known by its id:
    the objects of [self.batches] are the entries of the dict. *)

From S2P Require Import Prelude PyFloat PyVal FinModels SetLedger.

(** ** gateway.py *)

Inductive DecisionKind : Set := ALLOW | DENY | REQUIRE_APPROVAL.

#[export] Instance DecisionKind_eq_dec : EqDecision DecisionKind.
Proof. solve_decision. Defined.

Record GovernanceDecision : Set := {
  dc_decision : DecisionKind;
  dc_reason : string;
  dc_approval_ref : option string;
}.

(** [evaluate_action(action, context)] and [execute_settlement(batch)]. *)
Definition GovernanceGateway : Type := string -> pydict -> M World GovernanceDecision.
Definition SettlementAdapter : Type := SettlementBatch -> M World string.

Definition StaticGovernanceGateway (decision : DecisionKind) (reason : string) :
    GovernanceGateway := fun _ _ =>
  mret {| dc_decision := decision; dc_reason := reason; dc_approval_ref := None |}.

Definition StaticSettlementAdapter : SettlementAdapter := fun b =>
  mret ("static_settlement:" +:+ sb_id b).

(** ** The state *)

Record SettlementState : Set := {
  ss_world : World;
  ss_ledger : SettlementLedger;
  ss_recon : SetReconciliation;
  ss_batches : list (string * SettlementBatch);
  ss_payouts : list PayoutInstruction;
  ss_settled : gset string;
}.

Definition empty_settlement : SettlementState := {|
  ss_world := world0; ss_ledger := empty_settlement_ledger; ss_recon := empty_reconciliation;
  ss_batches := []; ss_payouts := []; ss_settled := ∅ |}.

Definition ss_in_world {A} (m : M World A) : M SettlementState A :=
  zoom ss_world (fun w s =>
    {| ss_world := w; ss_ledger := ss_ledger s; ss_recon := ss_recon s;
       ss_batches := ss_batches s; ss_payouts := ss_payouts s; ss_settled := ss_settled s |}) m.

Definition put_batch (id : string) (b : SettlementBatch) (s : SettlementState) : SettlementState :=
  {| ss_world := ss_world s; ss_ledger := ss_ledger s; ss_recon := ss_recon s;
     ss_batches := dset id b (ss_batches s); ss_payouts := ss_payouts s;
     ss_settled := ss_settled s |}.

(** The field assignments of the methods. *)
Definition set_batch (status : SettlementStatus) (gov prov : option string) (ex : option Z)
    (b : SettlementBatch) : SettlementBatch :=
  {| sb_id := sb_id b; sb_marketplace_id := sb_marketplace_id b; sb_tenant_id := sb_tenant_id b;
     sb_currency := sb_currency b; sb_period_start := sb_period_start b;
     sb_period_end := sb_period_end b; sb_gross_amount := sb_gross_amount b;
     sb_refund_amount := sb_refund_amount b; sb_fee_amount := sb_fee_amount b;
     sb_tax_amount := sb_tax_amount b; sb_net_amount := sb_net_amount b;
     sb_entry_ids := sb_entry_ids b; sb_status := status; sb_governance_ref := gov;
     sb_provider_ref := prov; sb_created_at := sb_created_at b; sb_executed_at := ex |}.

Definition set_batch_status (st : SettlementStatus) (b : SettlementBatch) : SettlementBatch :=
  set_batch st (sb_governance_ref b) (sb_provider_ref b) (sb_executed_at b) b.
Definition set_batch_governance_ref (g : option string) (b : SettlementBatch) : SettlementBatch :=
  set_batch (sb_status b) g (sb_provider_ref b) (sb_executed_at b) b.
Definition set_batch_executed (ref : string) (b : SettlementBatch) : SettlementBatch :=
  set_batch ST_SETTLED (sb_governance_ref b) (Some ref)
    (match sb_executed_at b with Some t => Some t | None => Some (sb_created_at b) end) b.

(** ** settlement.py: SettlementEngine *)

(** [get_batch]. *)
Definition get_batch (id : string) : M SettlementState SettlementBatch := fun s =>
  match dget id (ss_batches s) with
  | Some b => (Ok b, s)
  | None => (Raise (KeyError ("Settlement batch not found: " +:+ id)), s)
  end.

(** The totals of the loop of [create_batch]. *)
Record Totals : Set := {
  t_gross : float; t_refund : float; t_fee : float; t_tax : float; t_net : float
}.

Definition zero_totals : Totals :=
  {| t_gross := fzero; t_refund := fzero; t_fee := fzero; t_tax := fzero; t_net := fzero |}.

Definition add_entry (t : Totals) (e : LedgerEntry) : Totals :=
  let when_type k (x : float) y :=
    if bool_decide (en_entry_type e = k) then fadd x y else x in
  {| t_gross := when_type CREDIT (t_gross t) (en_amount e);
     t_refund := when_type DEBIT (t_refund t) (fabs (en_amount e));
     t_fee := when_type FEE (t_fee t) (fabs (en_amount e));
     t_tax := when_type TAX (t_tax t) (fabs (en_amount e));
     t_net := fadd (t_net t) (en_amount e) |}.

Definition totals (es : list LedgerEntry) : Totals := fold_left add_entry es zero_totals.

(** The entries a batch of the period takes. *)
Definition unsettled_entries (marketplace_id tenant_id currency : string) (period_start period_end : Z)
    (s : SettlementState) : list LedgerEntry :=
  List.filter (fun e => negb (bool_decide (en_id e ∈ ss_settled s))
                        && bool_decide (en_currency e = currency))
    (entries_for_period marketplace_id period_start period_end (Some tenant_id) (ss_ledger s)).

Section Engine.
Context `{Env}.
Variable policy : SettlementPolicy.
Variable governance_gateway : option GovernanceGateway.
Variable settlement_adapter : option SettlementAdapter.

(** The checks of [create_batch] and its rounded net amount and status. *)
Definition batch_terms (es : list LedgerEntry) : res (float * SettlementStatus) :=
  match es with
  | [] => Raise (ValueError "No unsettled ledger entries found for period.")
  | _ =>
      if (max_batch_entries policy <? length es)%nat then
        Raise (ValueError "Settlement batch exceeds maximum entry count.")
      else
        let net := fround (t_net (totals es)) 2 in
        if fltb net (min_settlement_amount policy) then
          Raise (ValueError "Settlement amount is below minimum threshold.")
        else Ok (net, if fltb net fzero && negb (allow_negative_settlement policy)
                      then ST_FAILED else ST_DRAFT)
  end.

Definition create_batch (marketplace_id tenant_id currency : string) (period_start period_end : Z)
    (actor_id : string) : M SettlementState SettlementBatch :=
  es ← gets (unsettled_entries marketplace_id tenant_id currency period_start period_end);
  terms ← lift_res (batch_terms es);
  id ← ss_in_world (new_id "settlement_batch");
  now ← ss_in_world utcnow;
  let t := totals es in
  let batch :=
    {| sb_id := id; sb_marketplace_id := marketplace_id; sb_tenant_id := tenant_id;
       sb_currency := currency; sb_period_start := period_start; sb_period_end := period_end;
       sb_gross_amount := fround (t_gross t) 2; sb_refund_amount := fround (t_refund t) 2;
       sb_fee_amount := fround (t_fee t) 2; sb_tax_amount := fround (t_tax t) 2;
       sb_net_amount := terms.1; sb_entry_ids := map en_id es; sb_status := terms.2;
       sb_governance_ref := None; sb_provider_ref := None; sb_created_at := now;
       sb_executed_at := None |} in
  _ ← modify (put_batch id batch);
  mret batch.

(** The context of the governance evaluation. *)
Definition approval_context (b : SettlementBatch) (actor_id : string) : pydict :=
  [("batch_id", VStr (sb_id b)); ("marketplace_id", VStr (sb_marketplace_id b));
   ("tenant_id", VStr (sb_tenant_id b)); ("net_amount", VFloat (sb_net_amount b));
   ("currency", VStr (sb_currency b)); ("actor_id", VStr actor_id)].

Definition approve_settlement (id actor_id : string) (approval_ref : option string) :
    M SettlementState SettlementBatch :=
  b ← get_batch id;
  if negb (mem (sb_status b) [ST_DRAFT; ST_PENDING_GOVERNANCE]) then
    raise (ValueError "Settlement batch cannot be approved.")
  else if require_governance_for_settlement policy then
    match governance_gateway with
    | None => raise (PermissionError "Governance gateway is required for settlement approval.")
    | Some gateway =>
        d ← ss_in_world (gateway "MARKETPLACE_SETTLEMENT_APPROVAL" (approval_context b actor_id));
        match dc_decision d with
        | DENY =>
            _ ← modify (put_batch id (set_batch_status ST_FAILED b));
            raise (PermissionError ("Settlement approval denied: " +:+ dc_reason d))
        | REQUIRE_APPROVAL =>
            let b' := set_batch_governance_ref (dc_approval_ref d)
                        (set_batch_status ST_PENDING_GOVERNANCE b) in
            _ ← modify (put_batch id b');
            mret b'
        | ALLOW =>
            let b' := set_batch_status ST_APPROVED
                        (set_batch_governance_ref (oor (dc_approval_ref d) approval_ref) b) in
            _ ← modify (put_batch id b');
            mret b'
        end
    end
  else
    let b' := set_batch_status ST_APPROVED b in
    _ ← modify (put_batch id b');
    mret b'.

(** The SETTLEMENT entry of an executed batch, and the entries it settles. *)
Definition post_settlement (b : SettlementBatch) : M SettlementState unit :=
  entry ← ss_in_world (new_entry (Some (sb_id b)) ("settlement:" +:+ sb_id b) SETTLEMENT
            (sb_marketplace_id b) (sb_tenant_id b) None (fopp (sb_net_amount b)) (sb_currency b));
  modify (fun s =>
    {| ss_world := ss_world s; ss_ledger := append_entry entry (ss_ledger s);
       ss_recon := ss_recon s; ss_batches := ss_batches s; ss_payouts := ss_payouts s;
       ss_settled := ss_settled s ∪ list_to_set (sb_entry_ids b) |}).

Definition add_payout (b : SettlementBatch) (provider_ref : string) : M SettlementState unit :=
  id ← ss_in_world (new_id "payout_instruction");
  now ← ss_in_world utcnow;
  modify (fun s =>
    {| ss_world := ss_world s; ss_ledger := ss_ledger s; ss_recon := ss_recon s;
       ss_batches := ss_batches s;
       ss_payouts := ss_payouts s ++
         [{| po_id := id; po_settlement_batch_id := sb_id b; po_participant_id := sb_tenant_id b;
             po_amount := sb_net_amount b; po_currency := sb_currency b; po_status := "COMPLETED";
             po_provider_ref := Some provider_ref; po_created_at := now |}];
       ss_settled := ss_settled s |}).

Definition latest_failed (marketplace_id : string) (r : SetReconciliation) : bool :=
  match latest_report marketplace_id r with
  | Some report => match rp_status report with RS_FAIL => true | _ => false end
  | None => false
  end.

Definition execute_settlement (id actor_id : string) : M SettlementState SettlementBatch :=
  b ← get_batch id;
  if negb (bool_decide (sb_status b = ST_APPROVED)) then
    raise (ValueError "Settlement batch must be approved before execution.")
  else
    blocking ← gets (fun s => has_blocking_mismatches (sb_marketplace_id b) (ss_recon s));
    if blocking : bool then
      raise (PermissionError "Settlement blocked by unresolved reconciliation mismatches.")
    else
      failed ← gets (fun s => latest_failed (sb_marketplace_id b) (ss_recon s));
      if failed : bool then
        raise (PermissionError "Settlement blocked because latest reconciliation failed.")
      else
        match settlement_adapter with
        | None => raise (PermissionError "Settlement adapter is not configured.")
        | Some adapter =>
            let settling := set_batch_status ST_SETTLING b in
            _ ← modify (put_batch id settling);
            provider_ref ← try_catch (ss_in_world (adapter settling)) (fun exc =>
              _ ← modify (put_batch id (set_batch_status ST_FAILED settling));
              raise (RuntimeError ("Settlement execution failed: " +:+ exn_text exc)));
            _ ← when (negb (feqb (sb_net_amount settling) fzero)) (post_settlement settling);
            _ ← add_payout settling provider_ref;
            let b' := set_batch_executed provider_ref settling in
            _ ← modify (put_batch id b');
            mret b'
        end.

(** ** engine.py: MarketplaceSettlementEngine *)

Variable parse_float : string -> option float.

Definition engine_ingest_event (e : FinancialEvent) :
    M SettlementState (option LedgerEntry) := fun s =>
  match ingest_event parse_float e
          {| lw_world := ss_world s; lw_ledger := ss_ledger s |} with
  | (r, lw) => (r, {| ss_world := lw_world lw; ss_ledger := lw_ledger lw; ss_recon := ss_recon s;
                      ss_batches := ss_batches s; ss_payouts := ss_payouts s;
                      ss_settled := ss_settled s |})
  end.

Definition engine_run (marketplace_id : string) (period_start period_end : Z) :
    M SettlementState ReconciliationReport := fun s =>
  match run policy (ss_ledger s) marketplace_id period_start period_end
          {| rw_world := ss_world s; rw_recon := ss_recon s |} with
  | (r, rw) => (r, {| ss_world := rw_world rw; ss_ledger := ss_ledger s; ss_recon := rw_recon rw;
                      ss_batches := ss_batches s; ss_payouts := ss_payouts s;
                      ss_settled := ss_settled s |})
  end.

Definition engine_resolve_mismatch (id actor_id notes : string) :
    M SettlementState ReconciliationMismatch :=
  zoom ss_recon (fun r s =>
    {| ss_world := ss_world s; ss_ledger := ss_ledger s; ss_recon := r;
       ss_batches := ss_batches s; ss_payouts := ss_payouts s; ss_settled := ss_settled s |})
    (resolve_mismatch id actor_id notes).

Definition settlement_report (s : SettlementState) : list (string * nat) :=
  [("ledger_entries", length (sl_entries (ss_ledger s)));
   ("financial_events", length (sl_events (ss_ledger s)));
   ("reconciliation_reports", length (sr_reports (ss_recon s)));
   ("open_mismatches",
     length (List.filter (fun m => bool_decide (mi_status m = OPEN))
               (dvalues (sr_mismatches (ss_recon s)))));
   ("settlement_batches", length (ss_batches s));
   ("payout_instructions", length (ss_payouts s))].
End Engine.
