(* ===== verification/SettlementSpec.v ===== *)
(** * Settlement: properties of batches, payouts, ledger and reconciliation

    What the methods of Settlement.v and SetLedger.v guarantee over any
    sequence of calls, and the behaviours the code did not mean. *)

From S2P Require Import Prelude PyFloat PyVal FinModels SetLedger Settlement.

(** ** Outcomes of the methods *)

(** The ledger, the payouts and the settled entries stay. *)
Record same_books (s s' : SettlementState) : Prop := {
  bk_ledger : ss_ledger s' = ss_ledger s;
  bk_payouts : ss_payouts s' = ss_payouts s;
  bk_settled : ss_settled s' = ss_settled s;
}.

Lemma same_books_refl s : same_books s s.
Proof. by split. Qed.
#[export] Hint Resolve same_books_refl : core.

(** The amounts and the identity of a batch. *)
Record same_batch (b b' : SettlementBatch) : Prop := {
  sm_id : sb_id b' = sb_id b;
  sm_marketplace : sb_marketplace_id b' = sb_marketplace_id b;
  sm_tenant : sb_tenant_id b' = sb_tenant_id b;
  sm_currency : sb_currency b' = sb_currency b;
  sm_net : sb_net_amount b' = sb_net_amount b;
  sm_entries : sb_entry_ids b' = sb_entry_ids b;
  sm_period_start : sb_period_start b' = sb_period_start b;
  sm_period_end : sb_period_end b' = sb_period_end b;
  sm_gross : sb_gross_amount b' = sb_gross_amount b;
  sm_refund : sb_refund_amount b' = sb_refund_amount b;
  sm_fee : sb_fee_amount b' = sb_fee_amount b;
  sm_tax : sb_tax_amount b' = sb_tax_amount b;
  sm_created : sb_created_at b' = sb_created_at b;
}.

Lemma same_batch_refl b : same_batch b b.
Proof. by split. Qed.
Lemma same_batch_trans b1 b2 b3 : same_batch b1 b2 -> same_batch b2 b3 -> same_batch b1 b3.
Proof. intros [] []. split; congruence. Qed.
Lemma same_batch_set st g p x b : same_batch b (set_batch st g p x b).
Proof. by split. Qed.
#[export] Hint Resolve same_batch_refl same_batch_set : core.

Section Outcomes.
Context `{Env}.
Variable policy : SettlementPolicy.
Variable governance_gateway : option GovernanceGateway.
Variable settlement_adapter : option SettlementAdapter.

(** The id the next batch gets. *)
Definition next_batch_id (s : SettlementState) : string :=
  "settlement_batch_" +:+ String.substring 0 16 (uuid_hex (uuids_drawn (ss_world s))).

(** Everything [create_batch] can do. *)
Inductive create_outcome (m t cur : string) (ps pe : Z) (s : SettlementState) :
    res SettlementBatch -> SettlementState -> Prop :=
| create_refused x :
    batch_terms policy (unsettled_entries m t cur ps pe s) = Raise x ->
    create_outcome m t cur ps pe s (Raise x) s
| create_made net st b s' :
    batch_terms policy (unsettled_entries m t cur ps pe s) = Ok (net, st) ->
    sb_id b = next_batch_id s -> sb_status b = st -> sb_net_amount b = net ->
    sb_entry_ids b = map en_id (unsettled_entries m t cur ps pe s) ->
    sb_marketplace_id b = m -> sb_tenant_id b = t -> sb_currency b = cur ->
    ss_batches s' = dset (next_batch_id s) b (ss_batches s) ->
    ss_recon s' = ss_recon s -> same_books s s' ->
    create_outcome m t cur ps pe s (Ok b) s'.

Lemma create_batch_outcome m t cur ps pe actor s :
  let '(r, s') := create_batch policy m t cur ps pe actor s in
  create_outcome m t cur ps pe s r s'.
Proof.
  unfold create_batch. unfold gets, mbind at 1, M_bind at 1, lift_res, mbind at 1, M_bind at 1.
  destruct (batch_terms _ _) as [[net st]|x] eqn:E; [|by constructor].
  unfold ss_in_world, new_id, utcnow. unfold_monad. by eapply create_made.
Qed.

Lemma batch_terms_status es net st :
  batch_terms policy es = Ok (net, st) -> st = ST_FAILED \/ st = ST_DRAFT.
Proof.
  unfold batch_terms. destruct es; [done|]. repeat case_match; intros; simplify_eq; auto.
Qed.

Lemma get_batch_run id s :
  get_batch id s = match dget id (ss_batches s) with
                   | Some b => (Ok b, s)
                   | None => (Raise (KeyError ("Settlement batch not found: " +:+ id)), s)
                   end.
Proof. done. Qed.

(** Everything [approve_settlement] can do. *)
Inductive approve_outcome (id : string) (s : SettlementState) :
    res SettlementBatch -> SettlementState -> Prop :=
| approve_refused x s' :
    ss_batches s' = ss_batches s -> ss_recon s' = ss_recon s -> same_books s s' ->
    approve_outcome id s (Raise x) s'
| approve_moved b st g o s' :
    dget id (ss_batches s) = Some b ->
    (sb_status b = ST_DRAFT \/ sb_status b = ST_PENDING_GOVERNANCE) ->
    st = ST_FAILED \/ st = ST_PENDING_GOVERNANCE \/ st = ST_APPROVED ->
    ss_batches s' = dset id (set_batch st g (sb_provider_ref b) (sb_executed_at b) b)
                      (ss_batches s) ->
    ss_recon s' = ss_recon s -> same_books s s' ->
    approve_outcome id s o s'.

Lemma approve_settlement_outcome id actor ref s :
  let '(r, s') := approve_settlement policy governance_gateway id actor ref s in
  approve_outcome id s r s'.
Proof.
  unfold approve_settlement. unfold mbind at 1, M_bind at 1. rewrite get_batch_run.
  destruct (dget id (ss_batches s)) as [b|] eqn:Eb; [|by apply approve_refused].
  destruct (mem (sb_status b) _) eqn:Em; [|by apply approve_refused]; cbn [negb].
  apply mem_true in Em. rewrite !elem_of_cons in Em.
  assert (Hst : sb_status b = ST_DRAFT \/ sb_status b = ST_PENDING_GOVERNANCE).
  { destruct Em as [?|[?|?%not_elem_of_nil]]; [by left|by right|done]. }
  destruct (require_governance_for_settlement policy).
  2: { by apply approve_moved with b ST_APPROVED (sb_governance_ref b); [|tauto|tauto|..]. }
  destruct governance_gateway as [gw|]; [|by apply approve_refused].
  unfold ss_in_world, zoom, mbind at 1, M_bind at 1.
  destruct (gw _ _ _) as [[d|x] w]; [|by apply approve_refused].
  destruct (dc_decision d).
  - by apply approve_moved with b ST_APPROVED (oor (dc_approval_ref d) ref); [|tauto|tauto|..].
  - by apply approve_moved with b ST_FAILED (sb_governance_ref b); [|tauto|tauto|..].
  - by apply approve_moved with b ST_PENDING_GOVERNANCE (dc_approval_ref d); [|tauto|tauto|..].
Qed.

(** The guards of [execute_settlement], in the order of the code. *)
Definition execution_error (id : string) (s : SettlementState) : option exn :=
  match dget id (ss_batches s) with
  | None => Some (KeyError ("Settlement batch not found: " +:+ id))
  | Some b =>
      if negb (bool_decide (sb_status b = ST_APPROVED)) then
        Some (ValueError "Settlement batch must be approved before execution.")
      else if has_blocking_mismatches (sb_marketplace_id b) (ss_recon s) then
        Some (PermissionError "Settlement blocked by unresolved reconciliation mismatches.")
      else if latest_failed (sb_marketplace_id b) (ss_recon s) then
        Some (PermissionError "Settlement blocked because latest reconciliation failed.")
      else match settlement_adapter with
           | None => Some (PermissionError "Settlement adapter is not configured.")
           | Some _ => None
           end
  end.

(** The entry an executed batch posts. *)
Definition settlement_entry (b : SettlementBatch) (e : LedgerEntry) : Prop :=
  en_event_id e = Some (sb_id b) /\ en_idempotency_key e = "settlement:" +:+ sb_id b /\
  en_entry_type e = SETTLEMENT /\ en_marketplace_id e = sb_marketplace_id b /\
  en_tenant_id e = sb_tenant_id b /\ en_amount e = fopp (sb_net_amount b) /\
  en_currency e = sb_currency b.

(** What an execution adds to the books. *)
Inductive posted (b : SettlementBatch) (s s' : SettlementState) : Prop :=
| posted_entry e :
    feqb (sb_net_amount b) fzero = false -> settlement_entry b e ->
    ss_ledger s' = append_entry e (ss_ledger s) ->
    ss_settled s' = ss_settled s ∪ list_to_set (sb_entry_ids b) -> posted b s s'
| posted_nothing :
    feqb (sb_net_amount b) fzero = true -> ss_ledger s' = ss_ledger s ->
    ss_settled s' = ss_settled s -> posted b s s'.

(** Everything [execute_settlement] can do. *)
Inductive execute_outcome (id : string) (s : SettlementState) :
    res SettlementBatch -> SettlementState -> Prop :=
| execute_refused x : execution_error id s = Some x -> execute_outcome id s (Raise x) s
| execute_failed b a x w s' :
    execution_error id s = None -> dget id (ss_batches s) = Some b ->
    settlement_adapter = Some a ->
    a (set_batch_status ST_SETTLING b) (ss_world s) = (Raise x, w) ->
    sb_status b = ST_APPROVED ->
    ss_batches s' = dset id (set_batch_status ST_FAILED b) (ss_batches s) ->
    ss_recon s' = ss_recon s -> same_books s s' ->
    execute_outcome id s
      (Raise (RuntimeError ("Settlement execution failed: " +:+ exn_text x))) s'
| execute_done b ref po s' :
    execution_error id s = None -> dget id (ss_batches s) = Some b ->
    sb_status b = ST_APPROVED ->
    ss_batches s' = dset id (set_batch_executed ref b) (ss_batches s) ->
    ss_payouts s' = ss_payouts s ++ [po] -> po_settlement_batch_id po = sb_id b ->
    po_participant_id po = sb_tenant_id b -> po_amount po = sb_net_amount b ->
    po_currency po = sb_currency b -> po_status po = "COMPLETED" ->
    posted b s s' -> ss_recon s' = ss_recon s ->
    execute_outcome id s (Ok (set_batch_executed ref b)) s'.

Lemma execute_settlement_outcome id actor s :
  let '(r, s') := execute_settlement settlement_adapter id actor s in
  execute_outcome id s r s'.
Proof.
  unfold execute_settlement. unfold mbind at 1, M_bind at 1. rewrite get_batch_run.
  pose proof (execute_refused id s) as Href. pose proof (execute_failed id s) as Hfail.
  pose proof (execute_done id s) as Hdone. unfold execution_error in *.
  destruct (dget id (ss_batches s)) as [b|] eqn:Eb; [|by apply Href].
  case_bool_decide as Hst; cbn [negb] in *; [|by apply Href].
  unfold gets. unfold mbind at 1, M_bind at 1.
  destruct (has_blocking_mismatches _ _); [by apply Href|].
  unfold mbind at 1, M_bind at 1. destruct (latest_failed _ _); [by apply Href|].
  destruct settlement_adapter as [ad|]; [|by apply Href].
  unfold modify. unfold mbind at 1, M_bind at 1. unfold try_catch, ss_in_world.
  unfold mbind at 1, M_bind at 1. unfold zoom at 1.
  cbn [put_batch ss_world]. destruct (ad _ (ss_world s)) as [[ref|x] w] eqn:Ew.
  2: { unfold_monad. apply (Hfail b ad x w); try done. simpl. by rewrite dset_dset. }
  cbn [sb_net_amount set_batch_status set_batch].
  destruct (feqb (sb_net_amount b) fzero) eqn:E0; cbn [negb when];
    unfold post_settlement, add_payout, ss_in_world, new_entry, new_id, utcnow; unfold_monad;
    (eapply (Hdone b ref); try reflexivity; try done; [simpl; by rewrite dset_dset|]).
  2: { eapply posted_entry; [done| |reflexivity..]. unfold settlement_entry. by split_and!. }
  by apply posted_nothing.
Qed.

Variable parse_float : string -> option float.

(** Everything [ingest_event] can do. *)
Definition bookable (e : FinancialEvent) : bool :=
  match entry_type_for_event e with
  | Some _ => is_ok (signed_amount parse_float e)
  | None => false
  end.

(** The entry [en] books the event [e]. *)
Definition booked (e : FinancialEvent) (en : LedgerEntry) : Prop :=
  en_event_id en = Some (ev_id e) /\ en_idempotency_key en = ev_idempotency_key e /\
  entry_type_for_event e = Some (en_entry_type en) /\
  signed_amount parse_float e = Ok (en_amount en) /\
  en_marketplace_id en = ev_marketplace_id e /\ en_tenant_id en = ev_tenant_id e /\
  en_order_id en = ev_order_id e /\ en_currency en = ev_currency e.

Inductive ingest_outcome (e : FinancialEvent) (s : SettlementLedger) :
    res (option LedgerEntry) -> SettlementLedger -> Prop :=
| ingest_seen :
    ev_idempotency_key e ∈ sl_idempotency_keys s -> ingest_outcome e s (Ok None) s
| ingest_unbookable r :
    bookable e = false -> (forall en, r <> Ok (Some en)) -> ingest_outcome e s r s
| ingest_booked en :
    ev_idempotency_key e ∉ sl_idempotency_keys s -> bookable e = true -> booked e en ->
    ingest_outcome e s (Ok (Some en))
      {| sl_events := sl_events s ++ [e]; sl_entries := sl_entries s ++ [en];
         sl_idempotency_keys := {[ev_idempotency_key e]} ∪ sl_idempotency_keys s |}.

Lemma ingest_event_outcome e s :
  let '(r, s') := ingest_event parse_float e s in ingest_outcome e (lw_ledger s) r (lw_ledger s').
Proof.
  unfold ingest_event. unfold gets, mbind at 1, M_bind at 1.
  case_bool_decide as Hk; [by apply ingest_seen|].
  destruct (entry_type_for_event e) as [t|] eqn:Et.
  2: { apply ingest_unbookable; [unfold bookable; by rewrite Et|done]. }
  unfold lift_res, mbind at 1, M_bind at 1.
  destruct (signed_amount parse_float e) as [x|x] eqn:Ex.
  2: { apply ingest_unbookable; [unfold bookable; by rewrite Et, Ex|done]. }
  unfold lw_in_world, new_entry, new_id, utcnow. unfold_monad.
  apply ingest_booked; [done|unfold bookable; by rewrite Et, Ex|by split_and!].
Qed.
End Outcomes.

(** ** Calls *)

(** One call of the engine, whatever its arguments and its outcome.  A new
    batch gets an id no batch has: the documented behaviour of uuid4. *)
Inductive settlement_call `{Env} (policy : SettlementPolicy) (gw : option GovernanceGateway)
    (ad : option SettlementAdapter) (parse_float : string -> option float)
    (s : SettlementState) : SettlementState -> Prop :=
| call_ingest e r s' :
    engine_ingest_event parse_float e s = (r, s') ->
    settlement_call policy gw ad parse_float s s'
| call_run m ps pe r s' :
    engine_run policy m ps pe s = (r, s') -> settlement_call policy gw ad parse_float s s'
| call_resolve id actor notes r s' :
    engine_resolve_mismatch id actor notes s = (r, s') ->
    settlement_call policy gw ad parse_float s s'
| call_create m t cur ps pe actor r s' :
    dget (next_batch_id s) (ss_batches s) = None ->
    create_batch policy m t cur ps pe actor s = (r, s') ->
    settlement_call policy gw ad parse_float s s'
| call_approve id actor ref r s' :
    approve_settlement policy gw id actor ref s = (r, s') ->
    settlement_call policy gw ad parse_float s s'
| call_execute id actor r s' :
    execute_settlement ad id actor s = (r, s') ->
    settlement_call policy gw ad parse_float s s'.

(** The moves of a batch status that a caller can observe. *)
Inductive status_move : SettlementStatus -> SettlementStatus -> Prop :=
| move_pending s : s = ST_DRAFT \/ s = ST_PENDING_GOVERNANCE -> status_move s ST_PENDING_GOVERNANCE
| move_approved s : s = ST_DRAFT \/ s = ST_PENDING_GOVERNANCE -> status_move s ST_APPROVED
| move_denied s : s = ST_DRAFT \/ s = ST_PENDING_GOVERNANCE -> status_move s ST_FAILED
| move_settled : status_move ST_APPROVED ST_SETTLED
| move_failed : status_move ST_APPROVED ST_FAILED.

(** The effect of a call on batches, payouts and ledger entries. *)
Inductive call_effect (s s' : SettlementState) : Prop :=
| effect_books ens :
    ss_batches s' = ss_batches s -> ss_payouts s' = ss_payouts s ->
    sl_entries (ss_ledger s') = sl_entries (ss_ledger s) ++ ens ->
    Forall (fun e => en_entry_type e <> SETTLEMENT) ens -> call_effect s s'
| effect_created id b :
    dget id (ss_batches s) = None -> sb_id b = id ->
    sb_status b = ST_FAILED \/ sb_status b = ST_DRAFT ->
    ss_batches s' = dset id b (ss_batches s) -> same_books s s' -> call_effect s s'
| effect_moved id b b' :
    dget id (ss_batches s) = Some b -> same_batch b b' ->
    status_move (sb_status b) (sb_status b') -> sb_status b' <> ST_SETTLED ->
    ss_batches s' = dset id b' (ss_batches s) -> same_books s s' -> call_effect s s'
| effect_paid id b b' po :
    dget id (ss_batches s) = Some b -> same_batch b b' ->
    sb_status b = ST_APPROVED -> sb_status b' = ST_SETTLED ->
    ss_batches s' = dset id b' (ss_batches s) -> ss_payouts s' = ss_payouts s ++ [po] ->
    po_settlement_batch_id po = sb_id b -> po_amount po = sb_net_amount b -> posted b s s' ->
    call_effect s s'.

Lemma effect_same s s' :
  ss_batches s' = ss_batches s -> same_books s s' -> call_effect s s'.
Proof.
  intros Hb [Hl Hp _]. apply effect_books with []; [done|done| |by constructor].
  by rewrite Hl, app_nil_r.
Qed.

Lemma ingest_effect `{Env} pf e s r s' :
  engine_ingest_event pf e s = (r, s') -> call_effect s s'.
Proof.
  unfold engine_ingest_event. intros E.
  pose proof (ingest_event_outcome pf e {| lw_world := ss_world s; lw_ledger := ss_ledger s |}) as Ho.
  destruct (ingest_event _ _ _) as [r' lw]. cbn [lw_ledger] in Ho. injection E as <- <-.
  revert Ho. generalize (eq_refl (lw_ledger lw)). generalize (lw_ledger lw) at 2 3.
  intros l El Ho. destruct Ho as [Hk|r0 Hb Hr|en Hk Hb Hbk].
  1, 2: by apply effect_same.
  apply effect_books with [en]; simpl; [done|done|by rewrite El|].
  constructor; [|by constructor]. destruct Hbk as (_ & _ & Ht & _). intros Hs. rewrite Hs in Ht.
  unfold entry_type_for_event in Ht. by destruct (ev_event_type e).
Qed.

Lemma run_effect `{Env} policy m ps pe s r s' :
  engine_run policy m ps pe s = (r, s') -> call_effect s s'.
Proof.
  unfold engine_run. destruct (run _ _ _ _ _ _) as [r' rw]. intros [= <- <-].
  by apply effect_same.
Qed.

Lemma resolve_effect id actor notes s r s' :
  engine_resolve_mismatch id actor notes s = (r, s') -> call_effect s s'.
Proof.
  unfold engine_resolve_mismatch, zoom. destruct (resolve_mismatch _ _ _ _) as [r' rw].
  intros [= <- <-]. by apply effect_same.
Qed.

Lemma call_has_effect `{Env} policy gw ad pf s s' :
  settlement_call policy gw ad pf s s' -> call_effect s s'.
Proof.
  intros [e r s1 E|m ps pe r s1 E|id actor notes r s1 E|m t cur ps pe actor r s1 Hf E
    |id actor ref r s1 E|id actor r s1 E].
  - by eapply ingest_effect.
  - by eapply run_effect.
  - by eapply resolve_effect.
  - pose proof (create_batch_outcome policy m t cur ps pe actor s) as Ho. rewrite E in Ho.
    destruct Ho as [|net st b s1 Ht Hid Hst _ _ _ _ _ Hb _ Hk]; [by apply effect_same|].
    eapply effect_created; [done|done| |done|done]. rewrite Hst. by eapply batch_terms_status.
  - pose proof (approve_settlement_outcome policy gw id actor ref s) as Ho. rewrite E in Ho.
    destruct Ho as [x s1 Hb _ Hk|b st g o s1 Hd Hs Hst Hb _ Hk]; [by apply effect_same|].
    eapply effect_moved; [done|apply same_batch_set| | |done|done].
    + cbn [sb_status set_batch]. destruct Hst as [->|[->| ->]]; by constructor.
    + by destruct Hst as [->|[->| ->]].
  - pose proof (execute_settlement_outcome ad id actor s) as Ho. rewrite E in Ho.
    destruct Ho as [|b a x w s1 _ Hd _ _ Hs Hb _ Hk|b ref po s1 _ Hd Hs Hb Hp Hi _ Ha _ _ Hpo _];
      [by apply effect_same| |].
    + eapply effect_moved; [done|apply same_batch_set|rewrite Hs; apply move_failed|done|done|done].
    + by eapply effect_paid.
Qed.

(** ** Invariants *)

(** What was paid out and booked as settlement for a batch id. *)
Definition payouts_of (id : string) (s : SettlementState) : list float :=
  map po_amount (List.filter (fun p => bool_decide (po_settlement_batch_id p = id)) (ss_payouts s)).
Definition settlements_of (id : string) (s : SettlementState) : list float :=
  map en_amount (List.filter (fun e => bool_decide (en_entry_type e = SETTLEMENT)
                                      && bool_decide (en_event_id e = Some id))
                   (sl_entries (ss_ledger s))).

(** Of a batch: what must have been paid out and booked for it. *)
Definition payouts_due (o : option SettlementBatch) : list float :=
  match o with
  | Some b => if bool_decide (sb_status b = ST_SETTLED) then [sb_net_amount b] else []
  | None => []
  end.
Definition settlements_due (o : option SettlementBatch) : list float :=
  match o with
  | Some b => if bool_decide (sb_status b = ST_SETTLED) && negb (feqb (sb_net_amount b) fzero)
              then [fopp (sb_net_amount b)] else []
  | None => []
  end.

Record books_balance (s : SettlementState) : Prop := {
  bb_ids : forall id b, dget id (ss_batches s) = Some b -> sb_id b = id;
  bb_payouts : forall id, payouts_of id s = payouts_due (dget id (ss_batches s));
  bb_settlements : forall id, settlements_of id s = settlements_due (dget id (ss_batches s));
}.

Lemma books_balance_empty : books_balance empty_settlement.
Proof. by split. Qed.

Lemma filter_app_map {A B} (p : A -> bool) (f : A -> B) l x :
  map f (List.filter p (l ++ [x])) = map f (List.filter p l) ++ (if p x then [f x] else []).
Proof. rewrite List.filter_app, map_app. simpl. by destruct (p x). Qed.

Lemma settlements_of_ledger id s s' :
  ss_ledger s' = ss_ledger s -> settlements_of id s' = settlements_of id s.
Proof. unfold settlements_of. by intros ->. Qed.
Lemma payouts_of_same id s s' :
  ss_payouts s' = ss_payouts s -> payouts_of id s' = payouts_of id s.
Proof. unfold payouts_of. by intros ->. Qed.

Lemma settlements_of_books id s s' ens :
  sl_entries (ss_ledger s') = sl_entries (ss_ledger s) ++ ens ->
  Forall (fun e => en_entry_type e <> SETTLEMENT) ens ->
  settlements_of id s' = settlements_of id s.
Proof.
  unfold settlements_of. intros -> HF. rewrite List.filter_app, map_app.
  rewrite (filter_none _ ens), app_nil_r; [done|].
  intros e He. rewrite Forall_forall in HF. by rewrite bool_decide_eq_false_2 by auto.
Qed.

Lemma payouts_due_open b : sb_status b <> ST_SETTLED ->
  payouts_due (Some b) = [] /\ settlements_due (Some b) = [].
Proof. intros Hs. unfold payouts_due, settlements_due. by rewrite bool_decide_eq_false_2. Qed.

Lemma status_move_open s1 s2 : status_move s1 s2 -> s1 <> ST_SETTLED.
Proof. intros [? [|]|? [|]|? [|]| |]; by subst. Qed.

Lemma balance_moved s s' id b' :
  books_balance s -> sb_id b' = id ->
  payouts_due (dget id (ss_batches s)) = [] -> settlements_due (dget id (ss_batches s)) = [] ->
  sb_status b' <> ST_SETTLED -> ss_batches s' = dset id b' (ss_batches s) ->
  same_books s s' -> books_balance s'.
Proof.
  intros [I1 I2 I3] Hid Hp Hd Hs Hb [K1 K2 _].
  destruct (payouts_due_open b' Hs) as [D1 D2]. split.
  - intros id' b. rewrite Hb, dget_dset. case_decide; [intros [= <-]; congruence|apply I1].
  - intros id'. rewrite (payouts_of_same _ _ _ K2), I2, Hb, dget_dset. case_decide; [|done].
    subst id'. by rewrite Hp, D1.
  - intros id'. rewrite (settlements_of_ledger _ _ _ K1), I3, Hb, dget_dset. case_decide; [|done].
    subst id'. by rewrite Hd, D2.
Qed.

Lemma posted_settlements id b s s' :
  posted b s s' ->
  settlements_of id s' = settlements_of id s ++
    (if bool_decide (sb_id b = id) && negb (feqb (sb_net_amount b) fzero)
     then [fopp (sb_net_amount b)] else []).
Proof.
  intros [e E0 (H1 & _ & H3 & _ & _ & H6 & _) HL _|E0 HL _].
  - unfold settlements_of. rewrite HL. cbn [append_entry sl_entries]. rewrite filter_app_map.
    rewrite H3, H1, H6, E0, bool_decide_eq_true_2 by done. cbn [andb negb]. rewrite andb_true_r.
    f_equal. repeat case_bool_decide; naive_solver.
  - rewrite E0, andb_false_r, app_nil_r. by apply settlements_of_ledger.
Qed.

Lemma balance_paid s s' id b b' po :
  books_balance s -> dget id (ss_batches s) = Some b -> same_batch b b' ->
  sb_status b = ST_APPROVED -> sb_status b' = ST_SETTLED ->
  ss_batches s' = dset id b' (ss_batches s) -> ss_payouts s' = ss_payouts s ++ [po] ->
  po_settlement_batch_id po = sb_id b -> po_amount po = sb_net_amount b -> posted b s s' ->
  books_balance s'.
Proof.
  intros [I1 I2 I3] Hd [M1 _ _ _ M5 _] Hs Hs' Hb Hp Hpo Ha Hpost.
  assert (Hid : sb_id b = id) by auto.
  destruct (payouts_due_open b ltac:(congruence)) as [D1 D2]. split.
  - intros id' b0. rewrite Hb, dget_dset. case_decide; [intros [= <-]; congruence|apply I1].
  - intros id'. unfold payouts_of. rewrite Hp, filter_app_map, Hpo, Ha, Hid.
    fold (payouts_of id' s). rewrite I2, Hb, dget_dset.
    destruct (decide (id' = id)) as [->|Hne].
    + rewrite bool_decide_eq_true_2, Hd, D1 by done. simpl.
      by rewrite bool_decide_eq_true_2, M5 by done.
    + by rewrite bool_decide_eq_false_2, app_nil_r by congruence.
  - intros id'. rewrite (posted_settlements id' b s s' Hpost), I3, Hb, dget_dset, Hid.
    destruct (decide (id' = id)) as [->|Hne].
    + rewrite bool_decide_eq_true_2, Hd, D2 by done. simpl.
      by rewrite bool_decide_eq_true_2, M5 by done.
    + by rewrite bool_decide_eq_false_2, app_nil_r by congruence.
Qed.

Lemma call_effect_balance s s' : call_effect s s' -> books_balance s -> books_balance s'.
Proof.
  intros [ens Hb Hp He HF|id b Hd Hid Hs Hb Hk|id b b' Hd HM Hm Hs Hb Hk
    |id b b' po Hd HM Hs Hs' Hb Hp Hpo Ha Hpost] I.
  - destruct I as [I1 I2 I3]. split; intros id; rewrite Hb; [apply I1|..].
    + by rewrite (payouts_of_same _ _ _ Hp).
    + by rewrite (settlements_of_books _ _ _ _ He HF).
  - eapply (balance_moved s s' id b); eauto; rewrite ?Hd; try done. by destruct Hs as [-> | ->].
  - destruct (payouts_due_open b (status_move_open _ _ Hm)) as [D1 D2].
    eapply (balance_moved s s' id b'); eauto; rewrite ?Hd; try done.
    rewrite (sm_id _ _ HM). by apply (bb_ids s I).
  - by eapply (balance_paid s s' id b b' po).
Qed.

Lemma reachable_balance `{Env} policy gw ad pf s :
  rtc (settlement_call policy gw ad pf) empty_settlement s -> books_balance s.
Proof.
  intros Hr. pose proof books_balance_empty as I. revert Hr I. generalize empty_settlement.
  intros s0. induction 1 as [|s0 s1 s2 Hc _ IH]; [done|]. intros I. apply IH.
  by eapply call_effect_balance; [eapply call_has_effect|].
Qed.

(** A batch after more calls. *)
Definition batch_history (b b' : SettlementBatch) : Prop :=
  same_batch b b' /\ rtc status_move (sb_status b) (sb_status b') /\
  (sb_status b = ST_SETTLED \/ sb_status b = ST_FAILED -> b' = b).

Lemma batch_history_refl b : batch_history b b.
Proof. by repeat split. Qed.

Lemma batch_history_trans b1 b2 b3 :
  batch_history b1 b2 -> batch_history b2 b3 -> batch_history b1 b3.
Proof.
  intros (M1 & R1 & T1) (M2 & R2 & T2). split; [by eapply same_batch_trans|].
  split; [by etransitivity|]. intros Ht. specialize (T1 Ht). subst. auto.
Qed.

Lemma status_move_terminal s1 s2 :
  status_move s1 s2 -> s1 = ST_SETTLED \/ s1 = ST_FAILED -> False.
Proof. intros [? [|]|? [|]|? [|]| |] [|]; by subst. Qed.

Lemma history_of_set s s' id id' b b0 b' :
  ss_batches s' = dset id b' (ss_batches s) -> dget id (ss_batches s) = Some b ->
  same_batch b b' -> status_move (sb_status b) (sb_status b') ->
  dget id' (ss_batches s) = Some b0 ->
  exists b1, dget id' (ss_batches s') = Some b1 /\ batch_history b0 b1.
Proof.
  intros Hb Hd HM Hm Hd'. rewrite Hb, dget_dset. case_decide as Heq.
  - exists b'. split; [done|]. subst id'. rewrite Hd in Hd'. injection Hd' as <-.
    split; [done|]. split; [by apply rtc_once|].
    intros Ht. by destruct (status_move_terminal _ _ Hm).
  - exists b0. split; [done|apply batch_history_refl].
Qed.

Lemma call_effect_history s s' id b :
  call_effect s s' -> dget id (ss_batches s) = Some b ->
  exists b', dget id (ss_batches s') = Some b' /\ batch_history b b'.
Proof.
  intros [ens Hb _ _ _|id0 b0 Hd _ _ Hb _|id0 b0 b' Hd HM Hm _ Hb _
    |id0 b0 b' po Hd HM Hs Hs' Hb _ _ _ _] Hid.
  - exists b. rewrite Hb. split; [done|apply batch_history_refl].
  - exists b. rewrite Hb, dget_dset_ne by congruence. split; [done|apply batch_history_refl].
  - by eapply history_of_set.
  - eapply history_of_set; eauto. rewrite Hs, Hs'. constructor.
Qed.

(** ** What stays settled and when a batch is paid *)

(** C26: through any sequence of engine calls (ingestion, reconciliation,
    resolution, creation, approval, execution, with any answers of the ports
    and any exceptions) a batch keeps its identity, marketplace, tenant, currency
    and period, all its amounts, its entries and its creation time; its status only moves from DRAFT or PENDING_GOVERNANCE to
    PENDING_GOVERNANCE, APPROVED or FAILED and from APPROVED to SETTLED or
    FAILED; a SETTLED or FAILED batch never changes again. *)
Theorem batch_lifecycle `{Env} policy gw ad pf s s' id b :
  rtc (settlement_call policy gw ad pf) s s' ->
  dget id (ss_batches s) = Some b ->
  exists b', dget id (ss_batches s') = Some b' /\
    sb_id b' = sb_id b /\ sb_marketplace_id b' = sb_marketplace_id b /\ sb_tenant_id b' = sb_tenant_id b /\
    sb_currency b' = sb_currency b /\ sb_period_start b' = sb_period_start b /\ sb_period_end b' = sb_period_end b /\
    sb_gross_amount b' = sb_gross_amount b /\ sb_refund_amount b' = sb_refund_amount b /\
    sb_fee_amount b' = sb_fee_amount b /\ sb_tax_amount b' = sb_tax_amount b /\
    sb_net_amount b' = sb_net_amount b /\ sb_entry_ids b' = sb_entry_ids b /\ sb_created_at b' = sb_created_at b /\
    rtc status_move (sb_status b) (sb_status b') /\
    (sb_status b = ST_SETTLED \/ sb_status b = ST_FAILED -> b' = b).
Proof.
  intros Hr Hb.
  assert (Hh : exists b', dget id (ss_batches s') = Some b' /\ batch_history b b').
  { revert b Hb. induction Hr as [s|s s1 s' Hc _ IH]; intros b Hb;
      [eauto using batch_history_refl|].
    destruct (call_effect_history s s1 id b) as (b1 & Hb1 & H1); [by eapply call_has_effect|done|].
    destruct (IH b1 Hb1) as (b' & Hb' & H'). eauto using batch_history_trans. }
  destruct Hh as (b' & Hb' & [] & Hm & Ht). exists b'. by split_and!.
Qed.

(** C15: in every state the engine can reach, each batch is paid at most once
    and the ledger agrees with the payouts: a SETTLED batch has exactly one
    payout, of its net amount, and exactly one SETTLEMENT entry of minus that
    amount (none when the net amount is zero); a batch in any other status has
    neither. *)
Theorem batch_paid_at_most_once `{Env} policy gw ad pf s id b :
  rtc (settlement_call policy gw ad pf) empty_settlement s ->
  dget id (ss_batches s) = Some b ->
  payouts_of id s = (if decide (sb_status b = ST_SETTLED) then [sb_net_amount b] else []) /\
  settlements_of id s =
    (if decide (sb_status b = ST_SETTLED /\ feqb (sb_net_amount b) fzero = false)
     then [fopp (sb_net_amount b)] else []).
Proof.
  intros Hr Hb. apply reachable_balance in Hr as [_ I2 I3]. rewrite I2, I3, Hb.
  unfold payouts_due, settlements_due.
  case_bool_decide; case_decide; try done; destruct (feqb _ _); repeat case_decide; naive_solver.
Qed.

Lemma has_blocking_spec m r :
  has_blocking_mismatches m r = true <->
  exists mm, mm ∈ dvalues (sr_mismatches r) /\ mi_marketplace_id mm = m /\ mi_status mm = OPEN /\
    mi_severity mm = "HIGH".
Proof.
  unfold has_blocking_mismatches. rewrite existsb_exists. split; intros (mm & Hin & Hm).
  - exists mm. bool_hyps. by rewrite list_elem_of_In.
  - exists mm. rewrite <- list_elem_of_In. destruct Hm as (-> & -> & ->).
    by rewrite !bool_decide_eq_true_2.
Qed.

(** The conditions under which a batch may be executed. *)
Definition may_execute (ad : option SettlementAdapter) (b : SettlementBatch)
    (s : SettlementState) : Prop :=
  sb_status b = ST_APPROVED /\ ad <> None /\
  (forall mm, mm ∈ dvalues (sr_mismatches (ss_recon s)) ->
     mi_marketplace_id mm = sb_marketplace_id b -> mi_status mm = OPEN ->
     mi_severity mm <> "HIGH") /\
  (forall r, latest_report (sb_marketplace_id b) (ss_recon s) = Some r -> rp_status r <> RS_FAIL).

Lemma execution_error_spec ad id s :
  execution_error ad id s = None <->
  exists b, dget id (ss_batches s) = Some b /\ may_execute ad b s.
Proof.
  unfold execution_error, may_execute. destruct (dget id (ss_batches s)) as [b|].
  2: { split; [done|]. by intros (? & ? & _). }
  case_bool_decide as Hs; cbn [negb].
  2: { split; [done|]. intros (? & ? & ? & _). by simplify_eq. }
  destruct (has_blocking_mismatches _ _) eqn:Eb.
  { split; [done|]. apply has_blocking_spec in Eb as (mm & ? & ? & ? & ?).
    intros (? & ? & _ & _ & Hn & _). simplify_eq. by destruct (Hn mm). }
  unfold latest_failed. destruct (latest_report _ _) as [r|] eqn:Er; [destruct (rp_status r) eqn:Es|].
  all: destruct ad as [a|]; (split; [try done|try by intros (? & ? & ? & ? & ?)]).
  all: try (intros (b0 & ? & ? & ? & ? & Hr); simplify_eq; by destruct (Hr _ Er)).
  all: intros _; exists b; split_and!; try done; try (by intros; simplify_eq; congruence).
  all: intros mm ? ? ? ?; apply not_true_iff_false in Eb; destruct Eb; apply has_blocking_spec; eauto.
Qed.

(** Executing a batch succeeds only when the batch exists and is APPROVED,
    no HIGH mismatch of its marketplace is open, the latest reconciliation
    report of the marketplace is not FAIL, and an adapter is configured; it
    then adds one payout of the net amount.  When one of these fails the state
    stays as it is; when they hold and the execution does not succeed, the
    adapter raised, the batch is FAILED, and nothing is paid or booked. *)
Theorem execution_guarded `{Env} ad id actor s r s' :
  execute_settlement ad id actor s = (r, s') ->
  (is_ok r = true /\ exists b po, dget id (ss_batches s) = Some b /\ may_execute ad b s /\
     ss_payouts s' = ss_payouts s ++ [po] /\ po_amount po = sb_net_amount b /\
     po_settlement_batch_id po = sb_id b) \/
  (is_ok r = false /\ s' = s /\
     ~ exists b, dget id (ss_batches s) = Some b /\ may_execute ad b s) \/
  (is_ok r = false /\ ss_payouts s' = ss_payouts s /\ ss_ledger s' = ss_ledger s /\
     exists b b' a, dget id (ss_batches s) = Some b /\ may_execute ad b s /\ ad = Some a /\
       is_ok (a (set_batch_status ST_SETTLING b) (ss_world s)).1 = false /\
       dget id (ss_batches s') = Some b' /\ sb_status b' = ST_FAILED).
Proof.
  intros E. pose proof (execute_settlement_outcome ad id actor s) as Ho. rewrite E in Ho.
  destruct Ho as [x Hx|b a x w s' Hx Hb Ha Hw Hs Hbs _ [HL HP _]
    |b ref po s' Hx Hb Hs Hbs HP Hpo _ Hamt _ _ _ _].
  - right. left. split_and!; [done|done|]. rewrite <- execution_error_spec. by rewrite Hx.
  - right. right. apply execution_error_spec in Hx as (b0 & Hb0 & Hm).
    rewrite Hb in Hb0. injection Hb0 as <-.
    split_and!; [done|done|done|]. eexists b, _, a. rewrite Hw, Hbs, dget_dset_eq.
    by split_and!.
  - left. apply execution_error_spec in Hx as (b0 & Hb0 & Hm).
    rewrite Hb in Hb0. injection Hb0 as <-. split; [done|]. exists b, po. by split_and!.
Qed.

(** ** Two drafts over one period *)

Lemma approve_static `{Env} policy reason id actor s b :
  dget id (ss_batches s) = Some b -> sb_status b = ST_DRAFT ->
  exists b' s',
    approve_settlement policy (Some (StaticGovernanceGateway ALLOW reason)) id actor None s
      = (Ok b', s') /\
    ss_batches s' = dset id b' (ss_batches s) /\ same_batch b b' /\ sb_status b' = ST_APPROVED /\
    ss_recon s' = ss_recon s /\ same_books s s'.
Proof.
  intros Hb Hs. unfold approve_settlement. rewrite (M_bind_Ok _ _ _ b s) by (by rewrite get_batch_run, Hb).
  rewrite Hs. unfold mem. rewrite bool_decide_eq_true_2 by set_solver. cbn [negb].
  destruct (require_governance_for_settlement policy); unfold ss_in_world, StaticGovernanceGateway;
    unfold_monad; by eexists _, _.
Qed.

Lemma execute_static `{Env} id actor s b :
  dget id (ss_batches s) = Some b -> sb_status b = ST_APPROVED ->
  has_blocking_mismatches (sb_marketplace_id b) (ss_recon s) = false ->
  latest_failed (sb_marketplace_id b) (ss_recon s) = false ->
  exists b' s' po, execute_settlement (Some StaticSettlementAdapter) id actor s = (Ok b', s') /\
    ss_batches s' = dset id b' (ss_batches s) /\ ss_recon s' = ss_recon s /\
    ss_payouts s' = ss_payouts s ++ [po] /\ po_amount po = sb_net_amount b /\ same_batch b b'.
Proof.
  intros Hb Hs Hm Hl.
  assert (Hx : execution_error (Some StaticSettlementAdapter) id s = None).
  { unfold execution_error. by rewrite Hb, Hs, Hm, Hl. }
  pose proof (execute_settlement_outcome (Some StaticSettlementAdapter) id actor s) as Ho.
  destruct (execute_settlement _ _ _ _) as [r s'].
  destruct Ho as [x Hx'|b0 a x w s' _ _ [= <-] [=] _ _ _ _
    |b0 ref po s' _ Hb0 _ Hbs HP _ _ Hamt _ _ _ Hr].
  - congruence.
  - rewrite Hb in Hb0. injection Hb0 as <-. by exists (set_batch_executed ref b), s', po.
Qed.

(** Approve and execute one batch. *)
Definition settle_one `{Env} policy (id actor : string) : M SettlementState SettlementBatch :=
  _ ← approve_settlement policy (Some (StaticGovernanceGateway ALLOW "")) id actor None;
  execute_settlement (Some StaticSettlementAdapter) id actor.

Lemma settle_one_pays `{Env} policy id actor s b :
  dget id (ss_batches s) = Some b -> sb_status b = ST_DRAFT ->
  has_blocking_mismatches (sb_marketplace_id b) (ss_recon s) = false ->
  latest_failed (sb_marketplace_id b) (ss_recon s) = false ->
  exists b' s' po, settle_one policy id actor s = (Ok b', s') /\ ss_recon s' = ss_recon s /\
    ss_payouts s' = ss_payouts s ++ [po] /\ po_amount po = sb_net_amount b /\ same_batch b b' /\
    forall id', id' <> id -> dget id' (ss_batches s') = dget id' (ss_batches s).
Proof.
  intros Hb Hs Hm Hl.
  destruct (approve_static policy "" id actor s b Hb Hs) as (b1 & s1 & E1 & B1 & M1 & S1 & R1 & K1).
  destruct (execute_static id actor s1 b1) as (b2 & s2 & po & E2 & B2 & R2 & P2 & A2 & M2).
  - by rewrite B1, dget_dset_eq.
  - done.
  - by rewrite R1, (sm_marketplace _ _ M1).
  - by rewrite R1, (sm_marketplace _ _ M1).
  - exists b2, s2, po. unfold settle_one. rewrite (M_bind_Ok _ _ _ _ _ E1).
    split_and!; [done|congruence| |by rewrite A2, (sm_net _ _ M1)|by eapply same_batch_trans|].
    + by rewrite P2, (bk_payouts _ _ K1).
    + intros id' Hne. by rewrite B2, B1, !dget_dset_ne.
Qed.

Lemma unsettled_entries_same m t cur ps pe s s' :
  ss_ledger s' = ss_ledger s -> ss_settled s' = ss_settled s ->
  unsettled_entries m t cur ps pe s' = unsettled_entries m t cur ps pe s.
Proof. unfold unsettled_entries. by intros -> ->. Qed.

(** Creating a batch does not reserve its entries: repeating the call
    creates a second batch of the same entries and the same net amount, and
    when both are approved and executed (a governance that allows, no blocking
    mismatch, two different ids) the same entries are paid out twice. *)
Theorem same_entries_paid_twice `{Env} policy m t cur ps pe actor s b1 s1 :
  create_batch policy m t cur ps pe actor s = (Ok b1, s1) ->
  sb_status b1 = ST_DRAFT ->
  has_blocking_mismatches m (ss_recon s) = false -> latest_failed m (ss_recon s) = false ->
  next_batch_id s1 <> next_batch_id s ->
  exists b2 b1' b2' s2 s3 s4 p1 p2,
    create_batch policy m t cur ps pe actor s1 = (Ok b2, s2) /\
    settle_one policy (sb_id b1) actor s2 = (Ok b1', s3) /\
    settle_one policy (sb_id b2) actor s3 = (Ok b2', s4) /\
    sb_entry_ids b2' = sb_entry_ids b1' /\
    ss_payouts s4 = ss_payouts s ++ [p1; p2] /\
    po_amount p1 = sb_net_amount b1 /\ po_amount p2 = sb_net_amount b1.
Proof.
  intros E1 Hs Hm Hl Hne.
  pose proof (create_batch_outcome policy m t cur ps pe actor s) as Ho1. rewrite E1 in Ho1.
  inversion Ho1 as [|net st b s' Ht Hid Hst Hnet Hen Hmk _ _ Hb Hr HK]; subst. destruct HK as [KL KP KS].
  pose proof (create_batch_outcome policy (sb_marketplace_id b1) t cur ps pe actor s1) as Ho2.
  destruct (create_batch policy (sb_marketplace_id b1) t cur ps pe actor s1) as [o s2].
  pose proof (unsettled_entries_same (sb_marketplace_id b1) t cur ps pe s s1 KL KS) as HU.
  destruct Ho2 as [x Hx|net2 st2 b2 s2 Ht2 Hid2 Hst2 Hnet2 Hen2 Hmk2 _ _ Hb2 Hr2 HK2].
  { rewrite HU in Hx. congruence. }
  rewrite HU in Ht2, Hen2. rewrite Ht in Ht2. injection Ht2 as E2n E2s. destruct HK2 as [KL2 KP2 KS2].
  destruct (settle_one_pays policy (sb_id b1) actor s2 b1) as (b1' & s3 & p1 & F1 & R1 & P1 & A1 & M1 & O1).
  - rewrite Hb2, dget_dset_ne by congruence. by rewrite Hb, Hid, dget_dset_eq.
  - done.
  - by rewrite Hr2, Hr.
  - by rewrite Hr2, Hr.
  - destruct (settle_one_pays policy (sb_id b2) actor s3 b2) as (b2' & s4 & p2 & F2 & R2 & P2 & A2 & M2 & _).
    + rewrite O1 by congruence. by rewrite Hb2, Hid2, dget_dset_eq.
    + congruence.
    + by rewrite Hmk2, R1, Hr2, Hr.
    + by rewrite Hmk2, R1, Hr2, Hr.
    + exists b2, b1', b2', s2, s3, s4, p1, p2. split_and!; [done|done|done| | |done|congruence].
      * by rewrite (sm_entries _ _ M2), (sm_entries _ _ M1), Hen2, Hen.
      * by rewrite P2, P1, KP2, KP, <- app_assoc.
Qed.

(** ** A negative net amount *)

(** [policy] with the other value of [allow_negative_settlement]. *)
Definition flip_negative (p : SettlementPolicy) : SettlementPolicy :=
  {| require_governance_for_settlement := require_governance_for_settlement p;
     allow_negative_settlement := negb (allow_negative_settlement p);
     allow_negative_balances := allow_negative_balances p;
     min_settlement_amount := min_settlement_amount p; max_batch_entries := max_batch_entries p;
     settlement_currency := settlement_currency p |}.

(** The minimum amount, which the policy model keeps at 0 or more, makes
    [allow_negative_settlement] meaningless: a negative net amount is refused
    whatever the flag says, no created batch starts FAILED, and flipping the
    flag never changes the result of a creation. *)
Theorem negative_flag_ineffective `{Env} policy m t cur ps pe actor s :
  fleb fzero (min_settlement_amount policy) = true ->
  create_batch (flip_negative policy) m t cur ps pe actor s
    = create_batch policy m t cur ps pe actor s /\
  (forall b s', create_batch policy m t cur ps pe actor s = (Ok b, s') ->
     sb_status b = ST_DRAFT /\ fltb (sb_net_amount b) fzero = false).
Proof.
  intros Hmin.
  assert (Hn : forall x, fltb x (min_settlement_amount policy) = false -> fltb x fzero = false).
  { intros x Hx. destruct (fltb x fzero) eqn:E; [|done].
    by rewrite (fltb_fleb_trans _ _ _ E Hmin) in Hx. }
  assert (Hterms : forall es, batch_terms (flip_negative policy) es = batch_terms policy es).
  { intros es. unfold batch_terms. cbn [max_batch_entries min_settlement_amount flip_negative].
    destruct es; [done|]. destruct (_ <? _)%nat; [done|]. cbv zeta. destruct (fltb _ (min_settlement_amount policy)) eqn:E;
      [done|]. by rewrite (Hn _ E). }
  split; [unfold create_batch; unfold_monad; by rewrite Hterms|].
  intros b s' E. pose proof (create_batch_outcome policy m t cur ps pe actor s) as Ho.
  rewrite E in Ho. inversion Ho as [|net st b' s1 Ht _ Hst Hnet _ _ _ _ _ _ _]; subst.
  revert Ht. unfold batch_terms. destruct (unsettled_entries _ _ _ _ _ _); [done|].
  destruct (_ <? _)%nat; [done|]. cbv zeta.
  destruct (fltb _ (min_settlement_amount policy)) eqn:Ef; [done|]. rewrite (Hn _ Ef). intros [= Hq <-]. split; [done|]. rewrite <- Hq. by apply Hn.
Qed.

(** ** Reconciliation after a settlement *)

Lemma elem_dvalues_add ms table v :
  v ∈ dvalues table -> v ∈ dvalues (add_mismatches ms table).
Proof.
  revert table. induction ms as [|x ms IH]; intros table Hv; [done|].
  cbn [add_mismatches fold_left]. apply IH. destruct (dmem (mi_id x) table) eqn:E; [done|].
  apply dmem_false in E. rewrite dvalues_dset_fresh by done. set_solver.
Qed.

Lemma add_mismatches_new ms table m :
  m ∈ ms -> dget (mi_id m) table = None ->
  exists m', m' ∈ ms /\ m' ∈ dvalues (add_mismatches ms table).
Proof.
  revert table. induction ms as [|x ms IH]; intros table Hm Hd; [by apply elem_of_nil in Hm|].
  destruct (decide (mi_id x = mi_id m)) as [Heq|Hne].
  - exists x. split; [left|]. cbn [add_mismatches fold_left]. apply elem_dvalues_add.
    unfold dmem. rewrite Heq, Hd. apply dget_None in Hd. rewrite dvalues_dset_fresh by done.
    set_solver.
  - apply elem_of_cons in Hm as [->|Hm]; [done|]. cbn [add_mismatches fold_left].
    destruct (IH (if dmem (mi_id x) table then table else dset (mi_id x) x table) Hm)
      as (m' & Hm' & Hv).
    + destruct (dmem (mi_id x) table); [done|]. by rewrite dget_dset_ne by congruence.
    + exists m'. split; [by right|done].
Qed.

Lemma new_mismatches_blocking `{Env} policy m ps pe l mm :
  mm ∈ new_mismatches policy m ps pe l ->
  mi_marketplace_id mm = m /\ mi_status mm = OPEN /\ mi_severity mm = "HIGH".
Proof.
  unfold new_mismatches. rewrite !elem_of_app, !list_elem_of_omap.
  intros [(x & _ & Hx)|[(x & _ & Hx)|(x & _ & Hx)]]; revert Hx; case_match; intros; simplify_eq;
    by split_and!.
Qed.

(** An entry of the period whose event the ledger does not hold. *)
Lemma orphan_detected `{Env} policy m ps pe l e id :
  e ∈ sl_entries l -> en_marketplace_id e = m -> (ps <= en_created_at e <= pe)%Z ->
  en_event_id e = Some id -> id <> EmptyString ->
  (forall ev, ev ∈ sl_events l -> ev_marketplace_id ev = m -> ev_id ev <> id) ->
  exists mm, mm ∈ new_mismatches policy m ps pe l /\
    mi_id mm = mismatch_id m "ORPHAN_LEDGER_ENTRY" (Some (en_id e)).
Proof.
  intros He Hm Hp Hid Hne Hev.
  exists (build_mismatch m "ORPHAN_LEDGER_ENTRY" "HIGH" (Some (en_id e)) "financial_event" "missing"
           [("entry_type", entry_type_value (en_entry_type e));
            ("idempotency_key", en_idempotency_key e)]).
  split; [|done]. unfold new_mismatches. rewrite !elem_of_app. right. left.
  apply list_elem_of_omap. exists e. split.
  - unfold entries_for_period. apply list_elem_of_In, List.filter_In.
    rewrite <- list_elem_of_In. split; [done|]. rewrite bool_decide_eq_true_2 by done. simpl. lia.
  - rewrite Hid. cbn [otruthy or_empty]. destruct (truthy id) eqn:Et; [|by apply truthy_false in Et].
    destruct (mem id _) eqn:Emem; [|done]. exfalso. apply mem_true, list_elem_of_fmap in Emem.
    destruct Emem as (ev & Heq & Hin%list_elem_of_In%List.filter_In).
    destruct Hin as [Hin Hf]. bool_hyps. apply list_elem_of_In in Hin.
    by apply (Hev ev); [| |symmetry].
Qed.

Lemma with_severity_high m table :
  has_blocking_mismatches m {| sr_mismatches := table; sr_reports := [] |} = true ->
  with_severity "HIGH" (open_mismatches m table) <> [].
Proof.
  rewrite has_blocking_spec. intros (mm & Hin & Hm & Ho & Hs) Hnil. cbn in Hin.
  assert (Hi : In mm (with_severity "HIGH" (open_mismatches m table))).
  { unfold with_severity, open_mismatches. rewrite !List.filter_In, <- list_elem_of_In.
    by rewrite Hm, Ho, Hs, !bool_decide_eq_true_2. }
  by rewrite Hnil in Hi.
Qed.

Lemma engine_run_fails `{Env} policy m ps pe s mm :
  mm ∈ new_mismatches policy m ps pe (ss_ledger s) ->
  dget (mi_id mm) (sr_mismatches (ss_recon s)) = None ->
  exists report s', engine_run policy m ps pe s = (Ok report, s') /\ rp_status report = RS_FAIL /\
    has_blocking_mismatches m (ss_recon s') = true.
Proof.
  intros Hmm Hd. destruct (add_mismatches_new _ _ _ Hmm Hd) as (m' & Hin & Hv).
  apply new_mismatches_blocking in Hin as (H1 & H2 & H3).
  assert (Hb : forall rs, has_blocking_mismatches m
    {| sr_mismatches := add_mismatches (new_mismatches policy m ps pe (ss_ledger s))
                          (sr_mismatches (ss_recon s)); sr_reports := rs |} = true).
  { intros rs. apply has_blocking_spec. by exists m'. }
  pose proof (with_severity_high _ _ (Hb [])) as Hne.
  unfold engine_run, run, rw_in_world, new_id, utcnow. unfold_monad.
  cbn [rw_recon sr_mismatches].
  destruct (with_severity "HIGH" _) as [|x xs]; [done|].
  eexists _, _. split; [reflexivity|]. split; [done|apply Hb].
Qed.

(** Executing a batch of a non-zero net amount makes the next
    reconciliation of the marketplace fail: the SETTLEMENT entry carries the
    batch id as its event id, the ledger holds no such event, so a run over a
    period that contains the entry reports it as an orphan, the report is
    FAIL, and from then on no batch of the marketplace can be executed. *)
Theorem settlement_blocks_marketplace `{Env} policy ad id actor s b s1 ps pe :
  execute_settlement ad id actor s = (Ok b, s1) ->
  feqb (sb_net_amount b) fzero = false -> sb_id b <> EmptyString ->
  (forall ev, ev ∈ sl_events (ss_ledger s) -> ev_id ev <> sb_id b) ->
  exists entry, last (sl_entries (ss_ledger s1)) = Some entry /\
    en_amount entry = fopp (sb_net_amount b) /\
    ((ps <= en_created_at entry <= pe)%Z ->
     dget (mismatch_id (sb_marketplace_id b) "ORPHAN_LEDGER_ENTRY" (Some (en_id entry)))
       (sr_mismatches (ss_recon s)) = None ->
     exists report s2, engine_run policy (sb_marketplace_id b) ps pe s1 = (Ok report, s2) /\
       rp_status report = RS_FAIL /\
       forall id' actor' b', dget id' (ss_batches s2) = Some b' ->
         sb_marketplace_id b' = sb_marketplace_id b ->
         is_ok (execute_settlement ad id' actor' s2).1 = false).
Proof.
  intros E Hnz Hne Hev. pose proof (execute_settlement_outcome ad id actor s) as Ho. rewrite E in Ho.
  inversion Ho as [| |b0 ref po s' _ Hb _ _ _ _ _ _ _ _ Hpost Hr]; subst. clear Ho.
  cbn [sb_net_amount sb_id sb_marketplace_id set_batch_executed set_batch] in *.
  destruct Hpost as [e _ (H1 & _ & _ & H4 & _ & H6 & _) HL _|E0]; [|congruence].
  exists e. rewrite HL. cbn [append_entry sl_entries]. split; [by rewrite last_snoc|].
  split; [done|]. intros Hp Hd.
  destruct (orphan_detected policy (sb_marketplace_id b0) ps pe (ss_ledger s1) e (sb_id b0))
    as (mm & Hmm & Hid); try done.
  - rewrite HL. cbn. set_solver.
  - intros ev Hin _. apply Hev. by rewrite HL in Hin.
  - destruct (engine_run_fails policy (sb_marketplace_id b0) ps pe s1 mm) as (report & s2 & Er & Hst & Hbl);
      [done|by rewrite Hid, Hr|].
    exists report, s2. split_and!; [done|done|]. intros id' actor' b' Hb' Hm'.
    pose proof (execute_settlement_outcome ad id' actor' s2) as Ho.
    destruct (execute_settlement ad id' actor' s2) as [r s3].
    destruct Ho as [| |b1 ref1 po1 s3 Hx]; [done|done|]. exfalso.
    unfold execution_error in Hx. rewrite Hb', Hm', Hbl in Hx. by repeat case_match.
Qed.

(** ** Ingestion *)

(** [for e in es: ledger.ingest_event(e)], an exception leaving the event out. *)
Fixpoint ingest_all `{Env} pf (es : list FinancialEvent) (s : LedgerWorld) : LedgerWorld :=
  match es with
  | [] => s
  | e :: es' => ingest_all pf es' (ingest_event pf e s).2
  end.

(** The events a stream books: the first bookable one of each key. *)
Fixpoint accepted (pf : string -> option float) (seen : list string) (es : list FinancialEvent) :
    list FinancialEvent :=
  match es with
  | [] => []
  | e :: es' =>
      if mem (ev_idempotency_key e) seen || negb (bookable pf e) then accepted pf seen es'
      else e :: accepted pf (ev_idempotency_key e :: seen) es'
  end.

Lemma ingest_all_accepted `{Env} pf es s seen :
  (forall k, k ∈ sl_idempotency_keys (lw_ledger s) <-> k ∈ seen) ->
  exists ens, Forall2 (booked pf) (accepted pf seen es) ens /\
    sl_events (lw_ledger (ingest_all pf es s)) = sl_events (lw_ledger s) ++ accepted pf seen es /\
    sl_entries (lw_ledger (ingest_all pf es s)) = sl_entries (lw_ledger s) ++ ens.
Proof.
  revert s seen. induction es as [|e es IH]; intros s seen Hk; cbn [ingest_all accepted].
  { exists []. by rewrite !app_nil_r. }
  pose proof (ingest_event_outcome pf e s) as Ho.
  destruct (ingest_event pf e s) as [r s1]. cbn [snd] in *.
  remember (lw_ledger s1) as l1 eqn:E1. destruct Ho as [Hin|r Hb _|en Hn Hb Hbk].
  - apply Hk, mem_true in Hin. rewrite Hin. simpl.
    destruct (IH s1 seen) as (ens & HF & H1 & H2); [by rewrite <- E1|]. rewrite <- E1 in H1, H2. eauto.
  - rewrite Hb, orb_true_r.
    destruct (IH s1 seen) as (ens & HF & H1 & H2); [by rewrite <- E1|]. rewrite <- E1 in H1, H2. eauto.
  - rewrite Hk in Hn. rewrite Hb. apply mem_false in Hn. rewrite Hn. simpl.
    destruct (IH s1 (ev_idempotency_key e :: seen)) as (ens & HF & H1 & H2).
    { intros k. rewrite <- E1. simpl. rewrite elem_of_union, elem_of_singleton, elem_of_cons. by rewrite Hk. }
    rewrite <- E1 in H1, H2. exists (en :: ens). split; [by constructor|].
    rewrite H1, H2. simpl. by rewrite <- !app_assoc.
Qed.

(** C27: the ledger after a stream of events holds exactly the first bookable
    event of each idempotency key, in order, and for each of them one entry of
    the type and the signed amount of the event, with its key, its event id and
    its parties: repeated keys, unbookable types and adjustments whose amount
    does not convert leave nothing. *)
Theorem ingestion_books_first_of_each_key `{Env} pf es w :
  let l := lw_ledger (ingest_all pf es {| lw_world := w; lw_ledger := empty_settlement_ledger |}) in
  sl_events l = accepted pf [] es /\
  Forall2 (booked pf) (accepted pf [] es) (sl_entries l) /\
  NoDup (map ev_idempotency_key (sl_events l)).
Proof.
  intros l. destruct (ingest_all_accepted pf es
    {| lw_world := w; lw_ledger := empty_settlement_ledger |} []) as (ens & HF & H1 & H2).
  { intros k. cbn. set_solver. }
  cbn [lw_ledger empty_settlement_ledger sl_events sl_entries app] in H1, H2. fold l in H1, H2.
  rewrite H1, H2. split_and!; [done|done|]. clear.
  assert (Hg : forall seen, NoDup (map ev_idempotency_key (accepted pf seen es)) /\
    forall k, k ∈ seen -> k ∉ map ev_idempotency_key (accepted pf seen es)).
  { induction es as [|e es IH]; intros seen; simpl; [split; [constructor|set_solver]|].
    destruct (_ || _) eqn:E; [apply IH|]. bool_hyps. apply mem_false in H.
    destruct (IH (ev_idempotency_key e :: seen)) as [H1 H2]. simpl. split.
    - constructor; [|done]. apply H2. by left.
    - intros k Hk. rewrite not_elem_of_cons. split; [by intros ->|]. apply H2. by right. }
  apply Hg.
Qed.

(** ** A sample marketplace *)

#[local] Instance settlement_env : Env :=
  { uuid_hex n := String (Ascii.ascii_of_nat (97 + n)) "0123456789abcdef";
    clock n := Z.of_nat n; float_repr x := "x" }.

Definition sample_event (id key : string) (t : FinancialEventType) (amount : Z) : FinancialEvent :=
  {| ev_id := id; ev_idempotency_key := key; ev_event_type := t; ev_marketplace_id := "m";
     ev_tenant_id := "t"; ev_order_id := None; ev_amount := of_Z amount; ev_currency := "USD";
     ev_payload := []; ev_occurred_at := 0 |}.

Definition sample_gateway : option GovernanceGateway := Some (StaticGovernanceGateway ALLOW "").
Definition sample_settler : option SettlementAdapter := Some StaticSettlementAdapter.
Definition no_parse : string -> option float := fun _ => None.

(** A sale of 100 and a fee of 5 are booked, a batch is drafted, approved and
    executed. *)
Definition set1 : SettlementState :=
  (engine_ingest_event no_parse (sample_event "e1" "k1" EV_PAYMENT_CAPTURED 100) empty_settlement).2.
Definition set2 : SettlementState :=
  (engine_ingest_event no_parse (sample_event "e2" "k2" EV_FEE_CHARGED 5) set1).2.
Definition draft (s : SettlementState) : res SettlementBatch * SettlementState :=
  create_batch default_settlement_policy "m" "t" "USD" 0 1000 "actor" s.
Definition set3 : SettlementState := (draft set2).2.
Definition sample_batch_id : string := "settlement_batch_c0123456789abcde".
Definition set4 : SettlementState :=
  (approve_settlement default_settlement_policy sample_gateway sample_batch_id "boss" None set3).2.
Definition set5 : SettlementState := (execute_settlement sample_settler sample_batch_id "actor" set4).2.

Lemma settlement_and_payout_calls :
  rtc (settlement_call default_settlement_policy sample_gateway sample_settler no_parse) set3 set5.
Proof.
  apply (rtc_l _ _ set4); [exact (call_approve _ _ _ _ _ _ _ _ _ _ (surjective_pairing _))|].
  apply rtc_once. exact (call_execute _ _ _ _ _ _ _ _ _ (surjective_pairing _)).
Qed.

Lemma sample_calls :
  rtc (settlement_call default_settlement_policy sample_gateway sample_settler no_parse)
    empty_settlement set5.
Proof.
  apply (rtc_l _ _ set1); [exact (call_ingest _ _ _ _ _ _ _ _ (surjective_pairing _))|].
  apply (rtc_l _ _ set2); [exact (call_ingest _ _ _ _ _ _ _ _ (surjective_pairing _))|].
  apply (rtc_l _ _ set3).
  { apply (call_create _ _ _ _ _ "m" "t" "USD" 0 1000 "actor" (draft set2).1).
    - vm_compute. reflexivity.
    - exact (surjective_pairing _). }
  apply settlement_and_payout_calls.
Qed.

Lemma batch_lifecycle_witness :
  exists b, dget sample_batch_id (ss_batches set5) = Some b /\ sb_net_amount b = of_Z 95 /\
    rtc status_move ST_DRAFT (sb_status b) /\ sb_status b = ST_SETTLED.
Proof.
  destruct (dget sample_batch_id (ss_batches set3)) as [b|] eqn:E; [|vm_compute in E; discriminate].
  destruct (batch_lifecycle default_settlement_policy sample_gateway sample_settler no_parse
    set3 set5 sample_batch_id b) as (b' & Hb' & _ & _ & _ & _ & _ & _ & _ & _ & _ & _ & Hn & _ & _ & Hm & _).
  - exact settlement_and_payout_calls.
  - exact E.
  - exists b'. rewrite Hn. vm_compute in E. injection E as <-. split_and!; [exact Hb'|reflexivity|exact Hm|].
    vm_compute in Hb'. injection Hb' as <-. reflexivity.
Defined.

Lemma batch_paid_at_most_once_witness :
  payouts_of sample_batch_id set5 = [of_Z 95] /\
  settlements_of sample_batch_id set5 = [fopp (of_Z 95)].
Proof.
  destruct (dget sample_batch_id (ss_batches set5)) as [b|] eqn:E; [|vm_compute in E; discriminate].
  destruct (batch_paid_at_most_once default_settlement_policy sample_gateway sample_settler no_parse
    set5 sample_batch_id b sample_calls E) as [H1 H2].
  rewrite H1, H2. vm_compute in E. injection E as <-. split; reflexivity.
Defined.

Lemma execution_guarded_witness :
  exists b po, dget sample_batch_id (ss_batches set4) = Some b /\ ss_payouts set5 = [po] /\
    po_amount po = sb_net_amount b.
Proof.
  destruct (execution_guarded sample_settler sample_batch_id "actor" set4 _ set5
    (surjective_pairing _)) as [(_ & b & po & Hb & _ & Hp & Ha & _)|[(Hr & _)|(Hr & _)]].
  - exists b, po. split_and!; [exact Hb|exact Hp|exact Ha].
  - vm_compute in Hr. discriminate.
  - vm_compute in Hr. discriminate.
Defined.

Lemma same_entries_paid_twice_witness :
  exists s p1 p2, ss_payouts s = [p1; p2] /\ po_amount p1 = of_Z 95 /\ po_amount p2 = of_Z 95 /\
    balance "m" "t" "USD" (ss_ledger set2) = of_Z 95.
Proof.
  destruct (draft set2) as [[b|x] s1] eqn:E; [|vm_compute in E; discriminate].
  destruct (same_entries_paid_twice default_settlement_policy "m" "t" "USD" 0 1000 "actor" set2 b s1 E)
    as (b2 & b1' & b2' & s2 & s3 & s4 & p1 & p2 & _ & _ & _ & _ & Hp & H1 & H2).
  - vm_compute in E. injection E as <- <-. reflexivity.
  - reflexivity.
  - reflexivity.
  - vm_compute in E. injection E as <- <-. vm_compute. discriminate.
  - exists s4, p1, p2. rewrite H1, H2. vm_compute in E. injection E as <- <-.
    split_and!; [exact Hp|reflexivity|reflexivity|vm_compute; reflexivity].
Defined.

Definition refund_only : SettlementState :=
  (engine_ingest_event no_parse (sample_event "e1" "k1" EV_REFUND_ISSUED 7) empty_settlement).2.

Lemma negative_flag_ineffective_witness :
  create_batch (flip_negative default_settlement_policy) "m" "t" "USD" 0 1000 "actor" refund_only
  = (Raise (ValueError "Settlement amount is below minimum threshold."), refund_only).
Proof.
  destruct (negative_flag_ineffective default_settlement_policy "m" "t" "USD" 0 1000 "actor" refund_only)
    as [-> _]; reflexivity.
Defined.

Lemma settlement_blocks_marketplace_witness :
  exists report s, engine_run default_settlement_policy "m" 0 1000 set5 = (Ok report, s) /\
    rp_status report = RS_FAIL.
Proof.
  destruct (execute_settlement sample_settler sample_batch_id "actor" set4) as [[b|x] s5] eqn:E;
    [|vm_compute in E; discriminate].
  destruct (settlement_blocks_marketplace default_settlement_policy sample_settler sample_batch_id
    "actor" set4 b s5 0 1000 E) as (e & He & _ & Hf).
  - vm_compute in E. injection E as <- _. reflexivity.
  - vm_compute in E. injection E as <- _. discriminate.
  - intros ev Hev. vm_compute in E. injection E as <- _. vm_compute in Hev.
    repeat (apply elem_of_cons in Hev as [->|Hev]; [discriminate|]). by apply elem_of_nil in Hev.
  - assert (Es : set5 = s5) by (unfold set5; by rewrite E). rewrite Es.
    destruct Hf as (report & s2 & Hr & Hst & _).
    + rewrite <- Es in He. vm_compute in He. injection He as <-. simpl. lia.
    + reflexivity.
    + exists report, s2. split; [|exact Hst]. rewrite <- Hr. vm_compute in E. by injection E as <- _.
Defined.
