(* ===== verification/GovModels.v ===== *)
(** * Governance: the normative data model

    [constitutional_architecture/governance/schemas.py]: decisions, rules,
    conditions, requests, approvals, audit events and exceptions.  Timestamps
    are microseconds since the epoch; sha256 over the canonical JSON of a record
    is a parameter of the operations that hash. *)

From S2P Require Import Prelude PyFloat PyVal FinModels.

Inductive Decision : Set :=
| ALLOW | DENY | REQUIRE_APPROVAL | REQUIRE_EVIDENCE | ALLOW_WITH_CONSTRAINTS.

Definition decision_value (d : Decision) : string :=
  match d with
  | ALLOW => "ALLOW" | DENY => "DENY" | REQUIRE_APPROVAL => "REQUIRE_APPROVAL"
  | REQUIRE_EVIDENCE => "REQUIRE_EVIDENCE" | ALLOW_WITH_CONSTRAINTS => "ALLOW_WITH_CONSTRAINTS"
  end.

Inductive PolicySetStatus : Set := PS_DRAFT | PS_ACTIVE | PS_DEPRECATED | PS_REVOKED.

Inductive RuleEffect : Set :=
| EFF_ALLOW | EFF_DENY | EFF_REQUIRE_APPROVAL | EFF_REQUIRE_EVIDENCE
| EFF_ALLOW_WITH_CONSTRAINTS.

Inductive FailureMode : Set := FM_DENY | FM_ESCALATE | FM_ALLOW_WITH_EXCEPTION.

Inductive ConditionOperator : Set :=
| EQUALS | NOT_EQUALS | OP_IN | NOT_IN | EXISTS | NOT_EXISTS | GREATER_THAN | LESS_THAN | MATCHES.

Definition operator_value (o : ConditionOperator) : string :=
  match o with
  | EQUALS => "EQUALS" | NOT_EQUALS => "NOT_EQUALS" | OP_IN => "IN" | NOT_IN => "NOT_IN"
  | EXISTS => "EXISTS" | NOT_EXISTS => "NOT_EXISTS" | GREATER_THAN => "GREATER_THAN"
  | LESS_THAN => "LESS_THAN" | MATCHES => "MATCHES"
  end.

Inductive ApproverType : Set :=
| AT_HUMAN | AT_ROLE | AT_ORGANIZATION | AT_AUTONOMOUS_AGENT | AT_FEDERATION_COUNCIL.

Definition approver_type_value (a : ApproverType) : string :=
  match a with
  | AT_HUMAN => "HUMAN" | AT_ROLE => "ROLE" | AT_ORGANIZATION => "ORGANIZATION"
  | AT_AUTONOMOUS_AGENT => "AUTONOMOUS_AGENT" | AT_FEDERATION_COUNCIL => "FEDERATION_COUNCIL"
  end.

Inductive TimeoutPolicy : Set := DENY_ON_TIMEOUT | ESCALATE_ON_TIMEOUT | ALLOW_ON_TIMEOUT.

Inductive ActorType : Set :=
| ACTOR_HUMAN | ACTOR_SERVICE | ACTOR_AUTONOMOUS_AGENT | ACTOR_ORGANIZATION | ACTOR_PLUGIN
| ACTOR_EXTERNAL_SYSTEM.

Definition actor_type_value (a : ActorType) : string :=
  match a with
  | ACTOR_HUMAN => "HUMAN" | ACTOR_SERVICE => "SERVICE"
  | ACTOR_AUTONOMOUS_AGENT => "AUTONOMOUS_AGENT" | ACTOR_ORGANIZATION => "ORGANIZATION"
  | ACTOR_PLUGIN => "PLUGIN" | ACTOR_EXTERNAL_SYSTEM => "EXTERNAL_SYSTEM"
  end.

Inductive EvaluationOutcome : Set :=
| MATCHED_ALLOW | MATCHED_DENY | MATCHED_REQUIRE_APPROVAL | MATCHED_REQUIRE_EVIDENCE
| NOT_MATCHED | EVALUATION_ERROR.

Inductive ApprovalDecision : Set := AD_APPROVED | AD_REJECTED | AD_ABSTAINED | AD_EXPIRED.

Definition approval_decision_value (d : ApprovalDecision) : string :=
  match d with
  | AD_APPROVED => "APPROVED" | AD_REJECTED => "REJECTED" | AD_ABSTAINED => "ABSTAINED"
  | AD_EXPIRED => "EXPIRED"
  end.

Inductive ApprovalStatus : Set := AS_PENDING | AS_APPROVED | AS_REJECTED | AS_ABSTAINED | AS_EXPIRED.

Definition approval_status_value (s : ApprovalStatus) : string :=
  match s with
  | AS_PENDING => "PENDING" | AS_APPROVED => "APPROVED" | AS_REJECTED => "REJECTED"
  | AS_ABSTAINED => "ABSTAINED" | AS_EXPIRED => "EXPIRED"
  end.

Inductive ExceptionStatus : Set := EX_ACTIVE | EX_REVOKED | EX_EXPIRED.

#[export] Instance Decision_eq_dec : EqDecision Decision.
Proof. solve_decision. Defined.
#[export] Instance PolicySetStatus_eq_dec : EqDecision PolicySetStatus.
Proof. solve_decision. Defined.
#[export] Instance RuleEffect_eq_dec : EqDecision RuleEffect.
Proof. solve_decision. Defined.
#[export] Instance ApproverType_eq_dec : EqDecision ApproverType.
Proof. solve_decision. Defined.
#[export] Instance TimeoutPolicy_eq_dec : EqDecision TimeoutPolicy.
Proof. solve_decision. Defined.
#[export] Instance EvaluationOutcome_eq_dec : EqDecision EvaluationOutcome.
Proof. solve_decision. Defined.
#[export] Instance ApprovalStatus_eq_dec : EqDecision ApprovalStatus.
Proof. solve_decision. Defined.
#[export] Instance ExceptionStatus_eq_dec : EqDecision ExceptionStatus.
Proof. solve_decision. Defined.

Record ApprovalRequirement : Set := {
  aq_approver_type : ApproverType;
  aq_approver_id : option string;
  aq_required : bool;
  aq_timeout_policy : TimeoutPolicy;
  aq_timeout_duration : option string;
}.

Record Condition : Set := {
  cn_field : string;
  cn_operator : ConditionOperator;
  cn_value : pyval;
}.

Record Constraint : Set := { ct_name : string; ct_enforced : bool; ct_value : pyval }.

Record Actor : Set := {
  ac_actor_type : ActorType;
  ac_actor_id : string;
  ac_roles : list string;
  ac_delegated_authority : list string;
}.

Record PolicyRule : Set := {
  pr_id : string;
  pr_name : string;
  pr_description : string;
  pr_effect : RuleEffect;
  pr_priority : Z;
  pr_subject_types : list string;
  pr_actions : list string;
  pr_conditions : list Condition;
  pr_required_evidence : list string;
  pr_required_approvals : list ApprovalRequirement;
  pr_constraints : list Constraint;
  pr_failure_mode : FailureMode;
}.

Record PolicySetISR : Set := {
  ps_id : string;
  ps_version : string;
  ps_name : string;
  ps_constitution_id : string;
  ps_constitution_version : string;
  ps_status : PolicySetStatus;
  ps_policy_rules : list PolicyRule;
  ps_applies_to : list string;
  ps_created_at : Z;
  ps_created_by : string;
  ps_content_hash : string;
}.

Record GovernanceEvaluationRequest : Set := {
  rq_subject_type : string;
  rq_subject_id : string;
  rq_action : string;
  rq_actor : Actor;
  rq_context : pydict;
  rq_evidence_refs : list string;
  rq_requested_exceptions : list string;
}.

Record PolicyEvaluation : Set := {
  ev_policy_set_id : string;
  ev_policy_set_version : string;
  ev_rule_id : string;
  ev_rule_name : string;
  ev_outcome : EvaluationOutcome;
  ev_explanation : string;
}.

Record GovernanceDecision : Set := {
  gv_decision : Decision;
  gv_reason : string;
  gv_evaluated_policies : list PolicyEvaluation;
  gv_required_approvals : list ApprovalRequirement;
  gv_required_evidence : list string;
  gv_constraints : list Constraint;
  gv_exceptions_applied : list string;
  gv_decision_hash : string;
  gv_created_at : Z;
}.

Record ApprovalRecord : Set := {
  ar_id : string;
  ar_evaluation_id : string;
  ar_requirement : ApprovalRequirement;
  ar_approver_type : string;
  ar_approver_id : string;
  ar_status : ApprovalStatus;
  ar_decision : option ApprovalDecision;
  ar_comments : option string;
  ar_approved_constraints : list Constraint;
  ar_created_at : Z;
  ar_decided_at : option Z;
  ar_signature : option string;
}.

Record AuditEvent : Set := {
  ae_id : string;
  ae_event_type : string;
  ae_actor : Actor;
  ae_subject_type : string;
  ae_subject_id : string;
  ae_action : string;
  ae_decision_id : option string;
  ae_approval_ids : list string;
  ae_evidence_refs : list string;
  ae_context : pydict;
  ae_timestamp : Z;
  ae_previous_event_hash : string;
  ae_event_hash : string;
}.

Record ExceptionScope : Set := {
  sc_subject_types : list string;
  sc_actions : list string;
  sc_subject_ids : list string;
  sc_actor_ids : list string;
  sc_max_uses : option Z;
  sc_environment : option string;
}.

Definition empty_scope : ExceptionScope :=
  {| sc_subject_types := []; sc_actions := []; sc_subject_ids := []; sc_actor_ids := [];
     sc_max_uses := None; sc_environment := None |}.

(** [covers]: an empty list, or environment, restricts nothing. *)
Definition listed (x : string) (xs : list string) : bool :=
  match xs with [] => true | _ => mem x xs end.

Definition covers (s : ExceptionScope) (r : GovernanceEvaluationRequest) : bool :=
  listed (rq_subject_type r) (sc_subject_types s)
  && listed (rq_action r) (sc_actions s)
  && listed (rq_subject_id r) (sc_subject_ids s)
  && listed (ac_actor_id (rq_actor r)) (sc_actor_ids s)
  && match sc_environment s with
     | Some e => negb (truthy e) || py_eq (dget_or "environment" (rq_context r) VNone) (VStr e)
     | None => true
     end.

Record GovernanceException : Set := {
  gx_id : string;
  gx_name : string;
  gx_justification : string;
  gx_scope : ExceptionScope;
  gx_granted_by : string;
  gx_granted_at : Z;
  gx_expires_at : Z;
  gx_status : ExceptionStatus;
  gx_constraints : list Constraint;
  gx_audit_ref : string;
  gx_use_count : Z;
}.

(** [f"{prefix}_{uuid.uuid4().hex[:10]}"]. *)
Definition short_id `{Env} (prefix : string) : M World string := fun w =>
  (Ok (prefix +:+ "_" +:+ String.substring 0 10 (uuid_hex (uuids_drawn w))),
   {| uuids_drawn := S (uuids_drawn w); clock_reads := clock_reads w |}).
