(* ===== verification/GovPolicy.v ===== *)
(** * Governance: policy sets, exceptions and the compliance engine

    [constitutional_architecture/governance/policy_compiler.py] (the policy set
    manager and the rule checks), [exception_manager.py] and [compliance.py],
    the policy decision point. *)

From S2P Require Import Prelude PyFloat PyVal FinModels GovModels.

(** ** What the code takes from Python *)

(** A resolved field: a plain value, the actor of the request, or its type (an
    enum member, which is a text). *)
Inductive fval : Set := FPy (v : pyval) | FActor (a : Actor) | FActorType (t : ActorType).

(** Attribute lookup on values of built-in types and beyond the fields of the
    actor, [str], [repr], the conversion of a text to a float, and
    [re.search]. *)
Class Builtins := {
  builtin_attr : fval -> string -> pyval;
  py_str : fval -> string;
  py_repr : fval -> string;
  parse_float : string -> option float;
  re_search : string -> string -> res bool;
}.

(** The state: the policy sets, the ids made immutable, the exceptions. *)
Record GovState : Set := {
  gs_world : World;
  gs_policy_sets : list (string * PolicySetISR);
  gs_immutable : gset string;
  gs_exceptions : list (string * GovernanceException);
}.

Definition empty_gov : GovState :=
  {| gs_world := world0; gs_policy_sets := []; gs_immutable := ∅; gs_exceptions := [] |}.

Definition gs_in_world {A} (m : M World A) : M GovState A :=
  zoom gs_world (fun w s =>
    {| gs_world := w; gs_policy_sets := gs_policy_sets s; gs_immutable := gs_immutable s;
       gs_exceptions := gs_exceptions s |}) m.

Definition put_policy_set (id : string) (p : PolicySetISR) (s : GovState) : GovState :=
  {| gs_world := gs_world s; gs_policy_sets := dset id p (gs_policy_sets s);
     gs_immutable := gs_immutable s; gs_exceptions := gs_exceptions s |}.
Definition put_exceptions (d : list (string * GovernanceException)) (s : GovState) : GovState :=
  {| gs_world := gs_world s; gs_policy_sets := gs_policy_sets s; gs_immutable := gs_immutable s;
     gs_exceptions := d |}.

(** ** policy_compiler.py *)

Definition known_field (f : string) : bool :=
  String.prefix "actor." f || String.prefix "context." f || String.prefix "subject." f.

(** [validate_rule]; PolicyCompilationError is a ValueError.  The operator of
    a compiled condition is a member of the enum, hence supported. *)
Definition validate_rule (r : PolicyRule) : res unit :=
  let fail msg := Raise (ValueError ("Rule " +:+ pr_id r +:+ msg)) in
  match pr_subject_types r, pr_actions r with
  | [], _ => fail " has no subject_types."
  | _, [] => fail " has no actions."
  | _, _ =>
      match List.find (fun c => negb (known_field (cn_field c))) (pr_conditions r) with
      | Some c => fail (" condition field " +:+ cn_field c
                        +:+ " must start with actor., context., or subject.")
      | None =>
          match pr_effect r, pr_required_approvals r, pr_required_evidence r with
          | EFF_REQUIRE_APPROVAL, [], _ => fail " is REQUIRE_APPROVAL but has no approvals."
          | EFF_REQUIRE_EVIDENCE, _, [] => fail " is REQUIRE_EVIDENCE but has no evidence list."
          | _, _, _ => Ok tt
          end
      end
  end.

Definition set_ps_status (st : PolicySetStatus) (p : PolicySetISR) : PolicySetISR :=
  {| ps_id := ps_id p; ps_version := ps_version p; ps_name := ps_name p;
     ps_constitution_id := ps_constitution_id p;
     ps_constitution_version := ps_constitution_version p; ps_status := st;
     ps_policy_rules := ps_policy_rules p; ps_applies_to := ps_applies_to p;
     ps_created_at := ps_created_at p; ps_created_by := ps_created_by p;
     ps_content_hash := ps_content_hash p |}.

(** [self._policy_sets[policy_set_id]]. *)
Definition get_policy_set (id : string) : M GovState PolicySetISR := fun s =>
  match dget id (gs_policy_sets s) with
  | Some p => (Ok p, s)
  | None => (Raise (KeyError id), s)
  end.

Definition activate (id : string) : M GovState PolicySetISR :=
  p ← get_policy_set id;
  if bool_decide (ps_status p = PS_REVOKED) then
    raise (ValueError "A revoked policy set cannot be activated.")
  else
    let p' := set_ps_status PS_ACTIVE p in
    _ ← modify (put_policy_set id p');
    _ ← modify (fun s =>
      {| gs_world := gs_world s; gs_policy_sets := gs_policy_sets s;
         gs_immutable := {[id]} ∪ gs_immutable s; gs_exceptions := gs_exceptions s |});
    mret p'.

Definition set_status_of (st : PolicySetStatus) (id : string) : M GovState PolicySetISR :=
  p ← get_policy_set id;
  let p' := set_ps_status st p in
  _ ← modify (put_policy_set id p');
  mret p'.

Definition deprecate (id : string) : M GovState PolicySetISR := set_status_of PS_DEPRECATED id.
Definition revoke_policy_set (id : string) : M GovState PolicySetISR := set_status_of PS_REVOKED id.

(** The order of [candidates.sort(key=lambda pr: (priority, id))]. *)
Definition rule_leb (a b : PolicySetISR * PolicyRule) : bool :=
  match Z.compare (pr_priority a.2) (pr_priority b.2) with
  | Lt => true
  | Eq => str_leb (pr_id a.2) (pr_id b.2)
  | Gt => false
  end.

Definition rules_for (subject_type action : string) (active_only : bool) (s : GovState) :
    list (PolicySetISR * PolicyRule) :=
  sort_by rule_leb
    (List.concat (map (fun p =>
       if active_only && negb (bool_decide (ps_status p = PS_ACTIVE)) then []
       else map (fun r => (p, r))
              (List.filter (fun r => mem subject_type (pr_subject_types r)
                                     && mem action (pr_actions r)) (ps_policy_rules p)))
       (dvalues (gs_policy_sets s)))).

Definition active_sets (s : GovState) : list PolicySetISR :=
  sort_by (fun a b => str_leb (ps_id a) (ps_id b))
    (List.filter (fun p => bool_decide (ps_status p = PS_ACTIVE)) (dvalues (gs_policy_sets s))).

Definition is_immutable (id : string) (s : GovState) : bool := bool_decide (id ∈ gs_immutable s).

(** ** exception_manager.py *)

Definition set_gx (st : ExceptionStatus) (uses : Z) (e : GovernanceException) : GovernanceException :=
  {| gx_id := gx_id e; gx_name := gx_name e; gx_justification := gx_justification e;
     gx_scope := gx_scope e; gx_granted_by := gx_granted_by e; gx_granted_at := gx_granted_at e;
     gx_expires_at := gx_expires_at e; gx_status := st; gx_constraints := gx_constraints e;
     gx_audit_ref := gx_audit_ref e; gx_use_count := uses |}.

Section Exceptions.
Context `{Env}.

(** Seven days in microseconds. *)
Definition week : Z := 7 * 86400 * 1000000.

Definition create_exception (require_justification : bool) (name justification : string)
    (scope : option ExceptionScope) (granted_by : string) (expires_at : option Z)
    (max_uses : option Z) (environment : option string) : M GovState GovernanceException :=
  if require_justification && negb (truthy justification) then
    raise (ValueError "A governance exception requires a justification.")
  else
    id ← gs_in_world (short_id "exc");
    expires ← match expires_at with
              | Some t => mret t
              | None => now ← gs_in_world utcnow; mret (now + week)%Z
              end;
    granted_at ← gs_in_world utcnow;
    let sc := match scope with Some sc => sc | None => empty_scope end in
    let e := {| gx_id := id; gx_name := name; gx_justification := justification;
                gx_scope := {| sc_subject_types := sc_subject_types sc; sc_actions := sc_actions sc;
                               sc_subject_ids := sc_subject_ids sc; sc_actor_ids := sc_actor_ids sc;
                               sc_max_uses := match max_uses with Some n => Some n
                                                                | None => sc_max_uses sc end;
                               sc_environment := match environment with Some v => Some v
                                                                      | None => sc_environment sc end |};
                gx_granted_by := granted_by; gx_granted_at := granted_at; gx_expires_at := expires;
                gx_status := EX_ACTIVE; gx_constraints := []; gx_audit_ref := "";
                gx_use_count := 0 |} in
    _ ← modify (fun s => put_exceptions (dset id e (gs_exceptions s)) s);
    mret e.

Definition get_exception (id : string) : M GovState GovernanceException := fun s =>
  match dget id (gs_exceptions s) with
  | Some e => (Ok e, s)
  | None => (Raise (KeyError id), s)
  end.

Definition revoke_exception (id : string) : M GovState GovernanceException :=
  e ← get_exception id;
  let e' := set_gx EX_REVOKED (gx_use_count e) e in
  _ ← modify (fun s => put_exceptions (dset id e' (gs_exceptions s)) s);
  mret e'.

(** An expired exception is marked when it is seen. *)
Definition expire (now : Z) (e : GovernanceException) : GovernanceException :=
  if bool_decide (gx_status e = EX_ACTIVE) && Z.leb (gx_expires_at e) now
  then set_gx EX_EXPIRED (gx_use_count e) e else e.

Definition applies (now : Z) (r : GovernanceEvaluationRequest) (e : GovernanceException) : bool :=
  negb (bool_decide (gx_status e = EX_REVOKED))
  && negb (Z.leb (gx_expires_at e) now)
  && covers (gx_scope e) r
  && match sc_max_uses (gx_scope e) with
     | Some n => negb (Z.leb n (gx_use_count e))
     | None => true
     end.

Definition by_id (es : list GovernanceException) : list GovernanceException :=
  sort_by (fun a b => str_leb (gx_id a) (gx_id b)) es.

Definition applicable_to (r : GovernanceEvaluationRequest) : M GovState (list GovernanceException) :=
  now ← gs_in_world utcnow;
  matches ← gets (fun s => List.filter (applies now r) (by_id (dvalues (gs_exceptions s))));
  _ ← modify (fun s =>
    put_exceptions (map (fun p => (p.1, expire now p.2)) (gs_exceptions s)) s);
  mret matches.

Definition record_use (id : string) : M GovState unit :=
  e ← get_exception id;
  modify (fun s => put_exceptions (dset id (set_gx (gx_status e) (gx_use_count e + 1) e)
                                     (gs_exceptions s)) s).

Definition all_exceptions (s : GovState) : list GovernanceException := by_id (dvalues (gs_exceptions s)).
End Exceptions.

(** ** compliance.py *)

Section Compliance.
Context `{Env, Builtins}.
(** sha256 of the canonical JSON of a decision without its hash and its time. *)
Variable decision_digest : GovernanceDecision -> string.

Definition is_none (v : fval) : bool := match v with FPy VNone => true | _ => false end.

(** A value as Python compares it: an enum member is its text. *)
Definition plain (v : fval) : option pyval :=
  match v with
  | FPy v => Some v
  | FActorType t => Some (VStr (actor_type_value t))
  | FActor _ => None
  end.

Definition actor_attr (a : Actor) (name : string) : fval :=
  if bool_decide (name = "actor_type") then FActorType (ac_actor_type a)
  else if bool_decide (name = "actor_id") then FPy (VStr (ac_actor_id a))
  else if bool_decide (name = "roles") then FPy (VList (map VStr (ac_roles a)))
  else if bool_decide (name = "delegated_authority") then
    FPy (VList (map VStr (ac_delegated_authority a)))
  else FPy (builtin_attr (FActor a) name).

(** One step of the dotted path: [value.get(part)] or [getattr(value, part, None)]. *)
Definition step_field (v : fval) (part : string) : fval :=
  match v with
  | FPy (VDict d) => FPy (dget_or part d VNone)
  | FActor a => actor_attr a part
  | _ => FPy (builtin_attr v part)
  end.

Definition resolve_field (field : string) (r : GovernanceEvaluationRequest) : fval :=
  let '(head, tail) := partition_dot field in
  let start :=
    if bool_decide (head = "actor") then Some (FActor (rq_actor r))
    else if bool_decide (head = "context") then Some (FPy (VDict (rq_context r)))
    else if bool_decide (head = "subject") then
      Some (FPy (VDict [("id", VStr (rq_subject_id r)); ("type", VStr (rq_subject_type r))]))
    else None in
  match start with
  | None => FPy VNone
  | Some v => if truthy tail then fold_left step_field (split_dot tail) v else v
  end.

Definition resolve_value (v : pyval) (r : GovernanceEvaluationRequest) : fval :=
  match v with
  | VStr s => if String.prefix "actor." s || String.prefix "context." s
              then resolve_field s r else FPy v
  | _ => FPy v
  end.

Definition fval_eq (a b : fval) : bool :=
  match plain a, plain b with
  | Some v, Some w => py_eq v w
  | None, None => true
  | _, _ => false
  end.

(** [actual in (expected or [])]; an actor is a non-empty iterable of pairs. *)
Definition fval_in (actual expected : fval) : res bool :=
  match plain expected with
  | None => Ok false
  | Some e =>
      let c := if val_truthy e then e else VList [] in
      match plain actual with
      | Some v => py_in v c
      | None => match c with
                | VList _ => Ok false
                | VStr _ => Raise (TypeError "'in <string>' requires string as left operand")
                | VDict _ => Raise (TypeError "unhashable type")
                | _ => Raise (TypeError "argument is not iterable")
                end
      end
  end.

Definition fval_float (v : fval) : res float :=
  match plain v with
  | Some v => py_float parse_float v
  | None => Raise (TypeError "float() argument must be a string or a real number")
  end.

Definition compare_op (op : ConditionOperator) (actual expected : fval) : res bool :=
  match op with
  | EQUALS => Ok (fval_eq actual expected)
  | NOT_EQUALS => Ok (negb (fval_eq actual expected))
  | OP_IN => fval_in actual expected
  | NOT_IN => b ← fval_in actual expected; mret (negb b)
  | GREATER_THAN => x ← fval_float actual; y ← fval_float expected; mret (fltb y x)
  | LESS_THAN => x ← fval_float actual; y ← fval_float expected; mret (fltb x y)
  | MATCHES => re_search (py_str expected) (py_str actual)
  | EXISTS | NOT_EXISTS => Ok false
  end.

(** [_eval_condition]. *)
Definition eval_condition (c : Condition) (r : GovernanceEvaluationRequest) : res (bool * string) :=
  let actual := resolve_field (cn_field c) r in
  let expected := resolve_value (cn_value c) r in
  let op := cn_operator c in
  match op with
  | EXISTS => Ok (Bool.eqb (match cn_value c with VBool true => true | _ => false end)
                    (negb (is_none actual)),
                  if is_none actual then "missing" else "exists")
  | NOT_EXISTS => Ok (is_none actual, if is_none actual then "not exists" else "present")
  | _ =>
      if is_none actual then Ok (false, cn_field c +:+ " is missing")
      else
        let shown := py_repr actual +:+ " " +:+ operator_value op +:+ " " +:+ py_repr expected in
        match compare_op op actual expected with
        | Ok b => Ok (b, shown)
        | Raise (TypeError _) | Raise (ValueError _) => Ok (false, "cannot compare " +:+ shown)
        | Raise e => Raise e
        end
  end.

(** [_evaluate_rule]: the first condition that fails. *)
Fixpoint failed_condition (cs : list Condition) (r : GovernanceEvaluationRequest) :
    res (option string) :=
  match cs with
  | [] => Ok None
  | c :: cs' =>
      p ← eval_condition c r;
      if p.1 : bool then failed_condition cs' r
      else mret (Some ("condition " +:+ cn_field c +:+ " not satisfied (" +:+ p.2 +:+ ")"))
  end.

Definition rule_outcome (rule : PolicyRule) : EvaluationOutcome * string :=
  match pr_effect rule with
  | EFF_DENY => (MATCHED_DENY, "deny rule " +:+ pr_name rule +:+ " matched")
  | EFF_REQUIRE_APPROVAL => (MATCHED_REQUIRE_APPROVAL, "requires approval: " +:+ pr_name rule)
  | EFF_REQUIRE_EVIDENCE => (MATCHED_REQUIRE_EVIDENCE, "requires evidence: " +:+ pr_name rule)
  | EFF_ALLOW_WITH_CONSTRAINTS => (MATCHED_ALLOW, "allow with constraints: " +:+ pr_name rule)
  | EFF_ALLOW => (MATCHED_ALLOW, "allow rule " +:+ pr_name rule +:+ " matched")
  end.

Definition evaluate_rule (rule : PolicyRule) (r : GovernanceEvaluationRequest) :
    res (EvaluationOutcome * string) :=
  f ← failed_condition (pr_conditions rule) r;
  match f with
  | Some explanation => mret (NOT_MATCHED, explanation)
  | None => mret (rule_outcome rule)
  end.

(** The variables of the loop of [evaluate]. *)
Record Found : Set := {
  fo_evaluations : list PolicyEvaluation;
  fo_denied_by : list PolicyRule;
  fo_approval : option PolicyRule;
  fo_evidence : option PolicyRule;
  fo_constraints : option PolicyRule;
  fo_allow : bool;
}.

Definition found0 : Found := {| fo_evaluations := []; fo_denied_by := []; fo_approval := None;
  fo_evidence := None; fo_constraints := None; fo_allow := false |}.

Definition first_of {A} (a b : option A) : option A := match a with Some _ => a | None => b end.

(** One iteration, for a rule with its outcome. *)
Definition add_rule (suppressed : bool) (f : Found) (p : PolicySetISR) (rule : PolicyRule)
    (outcome : EvaluationOutcome) (explanation : string) : Found :=
  let text := match outcome with
              | MATCHED_DENY => if suppressed then explanation +:+ " [suppressed by exception]"
                                else explanation
              | _ => explanation
              end in
  {| fo_evaluations := fo_evaluations f ++
       [{| ev_policy_set_id := ps_id p; ev_policy_set_version := ps_version p;
           ev_rule_id := pr_id rule; ev_rule_name := pr_name rule; ev_outcome := outcome;
           ev_explanation := text |}];
     fo_denied_by := match outcome with
                     | MATCHED_DENY => if suppressed then fo_denied_by f
                                       else fo_denied_by f ++ [rule]
                     | _ => fo_denied_by f
                     end;
     fo_approval := match outcome with
                    | MATCHED_REQUIRE_APPROVAL => first_of (fo_approval f) (Some rule)
                    | _ => fo_approval f
                    end;
     fo_evidence := match outcome with
                    | MATCHED_REQUIRE_EVIDENCE => first_of (fo_evidence f) (Some rule)
                    | _ => fo_evidence f
                    end;
     fo_constraints := match outcome with
                       | MATCHED_ALLOW => match pr_constraints rule with
                                          | [] => fo_constraints f | _ => Some rule end
                       | _ => fo_constraints f
                       end;
     fo_allow := match outcome with MATCHED_ALLOW => true | _ => fo_allow f end |}.

Fixpoint evaluate_rules (suppressed : bool) (r : GovernanceEvaluationRequest) (f : Found)
    (rules : list (PolicySetISR * PolicyRule)) : res Found :=
  match rules with
  | [] => Ok f
  | (p, rule) :: rules' =>
      o ← evaluate_rule rule r;
      evaluate_rules suppressed r (add_rule suppressed f p rule o.1 o.2) rules'
  end.

(** [_unique_approvals]: the first requirement of each approver. *)
Definition approval_key (q : ApprovalRequirement) : string * string :=
  (approver_type_value (aq_approver_type q), or_empty (aq_approver_id q)).

Fixpoint unique_approvals (seen : list (string * string)) (qs : list ApprovalRequirement) :
    list ApprovalRequirement :=
  match qs with
  | [] => []
  | q :: qs' => if mem (approval_key q) seen then unique_approvals seen qs'
                else q :: unique_approvals (approval_key q :: seen) qs'
  end.

Definition missing_evidence (f : Found) (r : GovernanceEvaluationRequest) : list string :=
  match fo_evidence f with
  | Some rule => List.filter (fun e => negb (mem e (rq_evidence_refs r))) (pr_required_evidence rule)
  | None => []
  end.

(** [_resolve]: decision, reason, approvals, evidence and constraints. *)
Definition resolve (r : GovernanceEvaluationRequest) (f : Found) :
    Decision * string * list ApprovalRequirement * list string * list Constraint :=
  match fo_denied_by f with
  | _ :: _ =>
      (DENY, "denied by: " +:+ String.concat "; " (map pr_name (fo_denied_by f)), [], [], [])
  | [] =>
      match missing_evidence f r with
      | _ :: _ =>
          (REQUIRE_EVIDENCE,
           "missing required evidence: " +:+ String.concat ", " (missing_evidence f r), [],
           sort_by str_leb (missing_evidence f r), [])
      | [] =>
          match fo_approval f with
          | Some rule =>
              (REQUIRE_APPROVAL, "approval required by " +:+ pr_name rule,
               unique_approvals [] (pr_required_approvals rule), [], pr_constraints rule)
          | None =>
              match fo_constraints f with
              | Some rule =>
                  (ALLOW_WITH_CONSTRAINTS, "allowed with constraints by " +:+ pr_name rule, [], [],
                   pr_constraints rule)
              | None =>
                  (ALLOW, if fo_allow f then "allowed by policy"
                          else "no policy matched; allow by default", [], [], [])
              end
          end
      end
  end.

Definition with_digest (d : GovernanceDecision) : GovernanceDecision :=
  {| gv_decision := gv_decision d; gv_reason := gv_reason d;
     gv_evaluated_policies := gv_evaluated_policies d;
     gv_required_approvals := gv_required_approvals d;
     gv_required_evidence := gv_required_evidence d; gv_constraints := gv_constraints d;
     gv_exceptions_applied := gv_exceptions_applied d; gv_decision_hash := decision_digest d;
     gv_created_at := gv_created_at d |}.

Definition evaluate (r : GovernanceEvaluationRequest) : M GovState GovernanceDecision :=
  rules ← gets (rules_for (rq_subject_type r) (rq_action r) true);
  applicable ← applicable_to r;
  let applied_ids := sort_by str_leb (map gx_id applicable) in
  _ ← for_each applicable (fun e => record_use (gx_id e));
  let suppressed := existsb (fun e => covers (gx_scope e) r) applicable in
  f ← lift_res (evaluate_rules suppressed r found0 rules);
  let '(decision, reason, approvals, evidence, constraints) := resolve r f in
  now ← gs_in_world utcnow;
  mret (with_digest
    {| gv_decision := decision; gv_reason := reason; gv_evaluated_policies := fo_evaluations f;
       gv_required_approvals := approvals; gv_required_evidence := evidence;
       gv_constraints := constraints; gv_exceptions_applied := applied_ids;
       gv_decision_hash := ""; gv_created_at := now |}).
End Compliance.
