(* ===== verification/GovPolicySpec.v ===== *)
(** * Governance: what the compliance engine decides

    The decision of [ComplianceEngine.evaluate] as a function of the rules that
    match, and the accounting of exception uses over any sequence of calls. *)

From S2P Require Import Prelude PyFloat PyVal FinModels GovModels GovPolicy.

Section Spec.
Context `{Env, Builtins}.
Variable decision_digest : GovernanceDecision -> string.

(** ** The rules that match *)

Definition rule_matches (r : GovernanceEvaluationRequest) (rule : PolicyRule) : bool :=
  match failed_condition (pr_conditions rule) r with Ok None => true | _ => false end.

(** The matching rules of an effect, in evaluation order. *)
Definition hits (effects : list RuleEffect) (r : GovernanceEvaluationRequest)
    (rules : list PolicyRule) : list PolicyRule :=
  List.filter (fun rule => rule_matches r rule && mem (pr_effect rule) effects) rules.

Definition has_constraints (rule : PolicyRule) : bool :=
  match pr_constraints rule with [] => false | _ => true end.

(** The reference decision: denials win unless an exception applies, then the
    evidence of the first evidence rule, then the first approval rule, then the
    constraints of an allowing rule. *)
Definition reference_decision (exempt : bool) (r : GovernanceEvaluationRequest)
    (rules : list PolicyRule) : Decision :=
  if negb exempt && bool_decide (hits [EFF_DENY] r rules <> []) then DENY
  else if match hits [EFF_REQUIRE_EVIDENCE] r rules with
          | rule :: _ => existsb (fun e => negb (mem e (rq_evidence_refs r))) (pr_required_evidence rule)
          | [] => false
          end then REQUIRE_EVIDENCE
  else if bool_decide (hits [EFF_REQUIRE_APPROVAL] r rules <> []) then REQUIRE_APPROVAL
  else if existsb has_constraints (hits [EFF_ALLOW; EFF_ALLOW_WITH_CONSTRAINTS] r rules)
       then ALLOW_WITH_CONSTRAINTS
  else ALLOW.

Lemma evaluate_rule_cases r rule o :
  evaluate_rule rule r = Ok o ->
  (rule_matches r rule = true /\ o = rule_outcome rule) \/
  (rule_matches r rule = false /\ o.1 = NOT_MATCHED).
Proof.
  unfold evaluate_rule, rule_matches. destruct (failed_condition _ r) as [[x|]|e]; simpl; [| |done].
  - intros [= <-]. by right.
  - intros [= <-]. by left.
Qed.

(** What the loop over the rules accumulates. *)
Record collects (sup : bool) (r : GovernanceEvaluationRequest) (f f' : Found)
    (rules : list PolicyRule) : Prop := {
  co_denied : fo_denied_by f' = fo_denied_by f ++ (if sup then [] else hits [EFF_DENY] r rules);
  co_approval : fo_approval f'
    = first_of (fo_approval f) (head (hits [EFF_REQUIRE_APPROVAL] r rules));
  co_evidence : fo_evidence f'
    = first_of (fo_evidence f) (head (hits [EFF_REQUIRE_EVIDENCE] r rules));
  co_constraints : fo_constraints f' = None <->
    fo_constraints f = None /\
    existsb has_constraints (hits [EFF_ALLOW; EFF_ALLOW_WITH_CONSTRAINTS] r rules) = false;
}.

Lemma hits_cons effects r rule rules :
  hits effects r (rule :: rules) =
  if rule_matches r rule && mem (pr_effect rule) effects then rule :: hits effects r rules
  else hits effects r rules.
Proof. done. Qed.

Lemma first_of_assoc {A} (a b c : option A) : first_of (first_of a b) c = first_of a (first_of b c).
Proof. by destruct a. Qed.

Lemma evaluate_rules_collects sup r f rules f' :
  evaluate_rules sup r f rules = Ok f' -> collects sup r f f' (map snd rules).
Proof.
  revert f. induction rules as [|[p rule] rules IH]; intros f; simpl.
  { intros [= <-]. split; simpl; [by destruct sup; rewrite app_nil_r|by destruct (fo_approval f)
      |by destruct (fo_evidence f)|tauto]. }
  destruct (evaluate_rule rule r) as [o|x] eqn:E; [|done]. cbn. intros Hf.
  destruct (IH _ Hf) as [C1 C2 C3 C4]. clear IH Hf.
  destruct (evaluate_rule_cases _ _ _ E) as [[Hm ->]|[Hm Ho]].
  - unfold rule_outcome in *.
    split; rewrite ?C1, ?C2, ?C3, ?C4, !hits_cons, Hm; destruct (pr_effect rule); simpl;
      rewrite ?first_of_assoc; simpl; try done;
      try (destruct sup; by rewrite <- ?app_assoc, ?app_nil_r).
    all: change (has_constraints rule) with (match pr_constraints rule with [] => false | _ => true end);
      destruct (pr_constraints rule); simpl; naive_solver.
  - split; rewrite ?C1, ?C2, ?C3, ?C4, !hits_cons, Hm; simpl; unfold add_rule; rewrite Ho; simpl; done.
Qed.

Lemma existsb_filter {A} (p : A -> bool) l :
  existsb p l = match List.filter p l with [] => false | _ => true end.
Proof. induction l as [|x l IH]; simpl; [done|]. by destruct (p x). Qed.

Lemma resolve_decision sup r rules f :
  evaluate_rules sup r found0 rules = Ok f ->
  (resolve r f).1.1.1.1 = reference_decision sup r (map snd rules) /\
  (resolve r f).1.1.2 =
    match reference_decision sup r (map snd rules), hits [EFF_REQUIRE_APPROVAL] r (map snd rules) with
    | REQUIRE_APPROVAL, rule :: _ => unique_approvals [] (pr_required_approvals rule)
    | _, _ => []
    end.
Proof.
  intros E. destruct (evaluate_rules_collects _ _ _ _ _ E) as [C1 C2 C3 C4].
  cbn [fo_denied_by fo_approval fo_evidence fo_constraints found0 first_of app] in *.
  unfold resolve, reference_decision, missing_evidence. rewrite C1, C2, C3.
  destruct sup; cbn [negb andb].
  2: destruct (hits [EFF_DENY] r (map snd rules)) as [|d ds];
     [rewrite bool_decide_eq_false_2 by (intros Hn; by apply Hn)
     |by rewrite bool_decide_eq_true_2 by done].
  all: destruct (hits [EFF_REQUIRE_EVIDENCE] r (map snd rules)) as [|ev evs]; cbn [head];
    [|rewrite (existsb_filter (fun e => negb (mem e (rq_evidence_refs r))));
      destruct (List.filter _ (pr_required_evidence ev)); [|done]].
  all: cbn [negb]; destruct (hits [EFF_REQUIRE_APPROVAL] r (map snd rules)) as [|a al]; cbn [head];
    [rewrite bool_decide_eq_false_2 by (intros Hn; by apply Hn)
    |by rewrite bool_decide_eq_true_2 by done].
  all: destruct (existsb has_constraints _); destruct (fo_constraints f); try done; naive_solver.
Qed.
End Spec.

(** ** Exceptions in their table *)

(** Every exception is stored once, under its id. *)
Definition table_ok (d : list (string * GovernanceException)) : Prop :=
  dict_ok d /\ Forall (fun p => gx_id p.2 = p.1) d.

Definition use_once (e : GovernanceException) : GovernanceException :=
  set_gx (gx_status e) (gx_use_count e + 1) e.

(** [e] after an evaluation of [r] at [now]. *)
Definition after_evaluation (now : Z) (r : GovernanceEvaluationRequest) (e : GovernanceException) :
    GovernanceException :=
  if applies now r e then use_once e else expire now e.

Lemma table_ok_map (f : GovernanceException -> GovernanceException) d :
  (forall e, gx_id (f e) = gx_id e) -> table_ok d -> table_ok (map (fun p => (p.1, f p.2)) d).
Proof.
  intros Hf [Hd Hi]. split.
  - unfold dict_ok, dkeys. by rewrite map_map.
  - apply Forall_map. eapply Forall_impl; [exact Hi|]. intros p Hp. simpl. by rewrite Hf.
Qed.

Lemma table_ok_dset id e d : gx_id e = id -> table_ok d -> table_ok (dset id e d).
Proof.
  intros He [Hd Hi]. split; [by apply dset_ok|]. clear Hd.
  induction d as [|[k v] d IH]; simpl; [by repeat constructor|].
  apply Forall_cons in Hi as [Hk Hi]. case_decide; constructor; simpl in *; auto; congruence.
Qed.

(** Update of the entries whose key is listed. *)
Definition update_keys (ids : list string) (f : GovernanceException -> GovernanceException)
    (d : list (string * GovernanceException)) : list (string * GovernanceException) :=
  map (fun p => (p.1, if mem p.1 ids then f p.2 else p.2)) d.

Lemma dset_update_keys id e d :
  dict_ok d -> dget id d = Some e -> dset id (use_once e) d = update_keys [id] use_once d.
Proof.
  intros Hd He. rewrite dset_update; [|by eapply dget_Some_key|done]. unfold update_keys.
  apply map_ext_in. intros [k v] Hin%list_elem_of_In. simpl.
  unfold mem. destruct (decide (k = id)) as [->|Hne].
  - rewrite bool_decide_eq_true_2 by by left. f_equal. f_equal.
    apply elem_dget in Hin; [congruence|done].
  - rewrite bool_decide_eq_false_2; [done|]. set_solver.
Qed.

Lemma record_use_run id e s :
  dict_ok (gs_exceptions s) -> dget id (gs_exceptions s) = Some e ->
  record_use id s = (Ok tt, put_exceptions (update_keys [id] use_once (gs_exceptions s)) s).
Proof.
  intros Hd He. unfold record_use, get_exception. unfold mbind, M_bind. rewrite He.
  unfold modify. by rewrite <- (dset_update_keys id e).
Qed.

Lemma record_uses_run es s :
  dict_ok (gs_exceptions s) -> NoDup (map gx_id es) ->
  (forall e, e ∈ es -> is_Some (dget (gx_id e) (gs_exceptions s))) ->
  for_each es (fun e => record_use (gx_id e)) s
  = (Ok tt, put_exceptions (update_keys (map gx_id es) use_once (gs_exceptions s)) s).
Proof.
  revert s. induction es as [|e es IH]; intros s Hd Hnd Hin.
  { simpl. unfold mret, M_ret. f_equal. destruct s as [w p i d]. unfold put_exceptions. simpl. f_equal.
    unfold update_keys. simpl. rewrite (map_ext _ id); [by rewrite map_id|]. by intros []. }
  cbn [map] in Hnd. apply NoDup_cons in Hnd as [Hne Hnd].
  destruct (Hin e) as [e0 He0]; [by left|]. cbn [for_each].
  rewrite (M_bind_Ok _ _ _ _ _ (record_use_run _ _ _ Hd He0)).
  rewrite IH; [|..|done|].
  - f_equal. unfold put_exceptions. f_equal. simpl. unfold update_keys. rewrite map_map.
    apply map_ext. intros [k v]. simpl. f_equal. unfold mem.
    destruct (decide (k = gx_id e)) as [->|Hk].
    + rewrite (bool_decide_eq_false_2 (gx_id e ∈ map gx_id es)) by done.
      by rewrite !bool_decide_eq_true_2 by by left.
    + rewrite (bool_decide_eq_false_2 (k ∈ [gx_id e])) by set_solver.
      case_bool_decide; case_bool_decide; try done; set_solver.
  - unfold dict_ok, dkeys, update_keys. simpl. by rewrite map_map.
  - intros e' He'. destruct (Hin e') as [e1 He1]; [by right|]. cbn [put_exceptions gs_exceptions].
    destruct (dget (gx_id e') (update_keys _ _ _)) eqn:E; [eauto|]. apply dget_None in E.
    apply dget_Some_key in He1. unfold update_keys, dkeys in E. by rewrite map_map in E.
Qed.

(** The exceptions that apply, and the table without the expired ones. *)
Lemma applies_not_expired now r e : applies now r e = true -> expire now e = e.
Proof.
  unfold applies, expire. intros H. bool_hyps.
  match goal with H : Z.leb _ _ = false |- _ => rewrite H end. by rewrite andb_false_r.
Qed.

Section Evaluate.
Context `{Env, Builtins}.
Variable decision_digest : GovernanceDecision -> string.

Definition now_of (s : GovState) : Z := clock (clock_reads (gs_world s)).

(** Some exception applies to the request. *)
Definition exempt (r : GovernanceEvaluationRequest) (s : GovState) : bool :=
  existsb (applies (now_of s) r) (dvalues (gs_exceptions s)).

Lemma applicable_covers now r es :
  existsb (fun e => covers (gx_scope e) r) (List.filter (applies now r) es)
  = existsb (applies now r) es.
Proof.
  induction es as [|e es IH]; simpl; [done|]. destruct (applies now r e) eqn:E; [|done]. simpl.
  unfold applies in E. bool_hyps.
  match goal with H : covers _ _ = true |- _ => by rewrite H end.
Qed.

Lemma existsb_perm {A} (p : A -> bool) l1 l2 : l1 ≡ₚ l2 -> existsb p l1 = existsb p l2.
Proof.
  induction 1; simpl; [done|congruence| |congruence]. destruct (p x), (p y); done.
Qed.

Lemma evaluate_uses r s :
  table_ok (gs_exceptions s) ->
  exists w, for_each (List.filter (applies (now_of s) r) (by_id (dvalues (gs_exceptions s))))
              (fun e => record_use (gx_id e)) (applicable_to r s).2
    = (Ok tt, put_exceptions (map (fun p => (p.1, after_evaluation (now_of s) r p.2)) (gs_exceptions s))
                {| gs_world := w; gs_policy_sets := gs_policy_sets s; gs_immutable := gs_immutable s;
                   gs_exceptions := [] |}).
Proof.
  intros [Hd Hi]. rewrite Forall_forall in Hi.
  unfold applicable_to, gs_in_world, utcnow. unfold_monad. cbn [gs_exceptions]. fold (now_of s).
  eexists. cbn [snd]. rewrite record_uses_run; cbn [put_exceptions gs_exceptions].
  - f_equal. unfold put_exceptions. cbn. f_equal. unfold update_keys. rewrite map_map.
    apply map_ext_in. intros [k e] Hin%list_elem_of_In. simpl. f_equal.
    assert (Hk : gx_id e = k) by (apply (Hi (k, e) Hin)).
    unfold after_evaluation. destruct (applies (now_of s) r e) eqn:Ea.
    + rewrite (applies_not_expired _ _ _ Ea).
      assert (mem k (map gx_id (List.filter (applies (now_of s) r) (by_id (dvalues (gs_exceptions s))))) = true) as ->; [|done].
      apply mem_true, list_elem_of_fmap. exists e. split; [done|].
      apply list_elem_of_In, List.filter_In. split; [|done].
      apply list_elem_of_In. unfold by_id. rewrite sort_by_elem. apply elem_dvalues. eauto.
    + assert (mem k (map gx_id (List.filter (applies (now_of s) r) (by_id (dvalues (gs_exceptions s))))) = false) as ->; [|done].
      apply mem_false. intros (e' & He' & Hin')%list_elem_of_fmap.
      apply list_elem_of_In, List.filter_In in Hin' as [Hin' Ha].
      apply list_elem_of_In in Hin'. unfold by_id in Hin'. rewrite sort_by_elem in Hin'.
      apply elem_dvalues in Hin' as [k' Hin'].
      assert (k' = k) as -> by (rewrite He'; symmetry; apply (Hi (k', e') Hin')).
      apply elem_dget in Hin, Hin'; [congruence|done..].
  - unfold dict_ok, dkeys. by rewrite map_map.
  - assert (Hp : map gx_id (List.filter (applies (now_of s) r) (by_id (dvalues (gs_exceptions s))))
              ⊆+ map gx_id (dvalues (gs_exceptions s))).
    { apply (fmap_submseteq gx_id). transitivity (by_id (dvalues (gs_exceptions s)));
        [|apply Permutation_submseteq, sort_by_perm].
      apply sublist_submseteq. generalize (by_id (dvalues (gs_exceptions s))). clear. intros l.
      induction l as [|e l IH]; simpl; [constructor|]. destruct (applies _ _ _); by constructor. }
    apply submseteq_Permutation in Hp as [k Hk].
    cut (NoDup (map gx_id (dvalues (gs_exceptions s)))); [rewrite Hk; by intros (? & _)%NoDup_app|].
    assert (map gx_id (dvalues (gs_exceptions s)) = dkeys (gs_exceptions s)) as ->; [|done].
    unfold dvalues, dkeys. rewrite map_map. apply map_ext_in. intros p Hin%list_elem_of_In. by apply Hi.
  - intros e Hin%list_elem_of_In%List.filter_In. destruct Hin as [Hin _].
    apply list_elem_of_In in Hin. unfold by_id in Hin. rewrite sort_by_elem in Hin.
    apply elem_dvalues in Hin as [k Hin]. pose proof (Hi (k, e) Hin) as Hk. simpl in Hk. rewrite Hk.
    destruct (dget k _) eqn:E; [eauto|]. apply dget_None in E. exfalso. apply E.
    unfold dkeys. rewrite map_map. by apply (list_elem_of_fmap_2 fst) in Hin.
Qed.

(** The state after the exceptions were accounted for. *)
Lemma evaluate_steps r s :
  table_ok (gs_exceptions s) ->
  exists w, forall o s', evaluate decision_digest r s = (o, s') ->
    gs_exceptions s' = map (fun p => (p.1, after_evaluation (now_of s) r p.2)) (gs_exceptions s) /\
    match evaluate_rules (exempt r s) r found0 (rules_for (rq_subject_type r) (rq_action r) true s) with
    | Ok f => exists d now, o = Ok (with_digest decision_digest d) /\
        gv_decision d = (resolve r f).1.1.1.1 /\ gv_required_approvals d = (resolve r f).1.1.2 /\
        gv_created_at d = now /\ s' = put_exceptions (gs_exceptions s')
          {| gs_world := w; gs_policy_sets := gs_policy_sets s; gs_immutable := gs_immutable s;
             gs_exceptions := [] |}
    | Raise x => o = Raise x
    end.
Proof.
  intros Ht. destruct (evaluate_uses r s Ht) as [w Hu].
  exists {| uuids_drawn := uuids_drawn w; clock_reads := S (clock_reads w) |}. intros o s' E.
  unfold evaluate in E. unfold gets in E. unfold mbind at 1, M_bind at 1 in E.
  unfold mbind at 1, M_bind at 1 in E.
  destruct (applicable_to r s) as [oa sa] eqn:Ea. cbn [snd] in Hu.
  assert (oa = Ok (List.filter (applies (now_of s) r) (by_id (dvalues (gs_exceptions s))))) as ->.
  { unfold applicable_to, gs_in_world, utcnow in Ea. unfold_monad. by injection Ea as <- _. }
  unfold mbind at 1, M_bind at 1 in E. rewrite Hu in E. clear Hu Ea.
  rewrite applicable_covers in E. unfold by_id in E.
  rewrite (existsb_perm _ _ _ (sort_by_perm _ (dvalues (gs_exceptions s)))) in E.
  fold (exempt r s) in E. unfold lift_res in E. unfold mbind at 1, M_bind at 1 in E.
  destruct (evaluate_rules _ _ _ _) as [f|x]; [|by injection E as <- <-].
  destruct (resolve r f) as [[[[dec reason] approvals] evidence] constraints] eqn:Er.
  unfold gs_in_world, utcnow in E. unfold_monad. injection E as <- <-.
  split; [done|]. eexists _, _. split; [reflexivity|]. by repeat split.
Qed.
End Evaluate.

(** ** Properties *)

(** C1: the engine decides as its documentation orders: over the matching
    rules of the active policy sets, taken by priority and id, a matching DENY
    rule denies unless an exception applies; otherwise the evidence of the
    first evidence rule must be present; otherwise the first approval rule
    requires its approvals; otherwise a matching allowing rule with constraints
    imposes them; otherwise the request is allowed, also when no rule matches. *)
Theorem evaluate_decides_by_reference `{Env, Builtins} digest r s d s' :
  table_ok (gs_exceptions s) ->
  evaluate digest r s = (Ok d, s') ->
  let rules := map snd (rules_for (rq_subject_type r) (rq_action r) true s) in
  gv_decision d = reference_decision (exempt r s) r rules /\
  gv_required_approvals d =
    match gv_decision d, hits [EFF_REQUIRE_APPROVAL] r rules with
    | REQUIRE_APPROVAL, rule :: _ => unique_approvals [] (pr_required_approvals rule)
    | _, _ => []
    end.
Proof.
  intros Ht E. destruct (evaluate_steps digest r s Ht) as [w Hw].
  destruct (Hw _ _ E) as [_ Hd]. clear Hw.
  destruct (evaluate_rules _ _ _ _) as [f|x] eqn:Ef; [|done].
  destruct Hd as (d0 & now & [= ->] & Hdec & Happ & _). cbn [with_digest gv_decision gv_required_approvals].
  destruct (resolve_decision _ _ _ _ Ef) as [R1 R2].
  by rewrite Hdec, Happ, R1, R2.
Qed.

(** A call of the managers, whatever its arguments and its outcome. *)
Inductive gov_call `{Env, Builtins} (digest : GovernanceDecision -> string) (s : GovState) :
    GovState -> Prop :=
| gov_evaluate r o s' : evaluate digest r s = (o, s') -> gov_call digest s s'
| gov_create_exception j n t sc g e m v o s' :
    create_exception j n t sc g e m v s = (o, s') -> gov_call digest s s'
| gov_revoke_exception id o s' : revoke_exception id s = (o, s') -> gov_call digest s s'
| gov_record_use id o s' e :
    (* outside an evaluation, of an exception with uses left *)
    dget id (gs_exceptions s) = Some e ->
    (forall n, sc_max_uses (gx_scope e) = Some n -> (gx_use_count e < n)%Z) ->
    record_use id s = (o, s') -> gov_call digest s s'
| gov_activate id o s' : activate id s = (o, s') -> gov_call digest s s'
| gov_set_status st id o s' : set_status_of st id s = (o, s') -> gov_call digest s s'.

(** The uses of an exception stay within its bound. *)
Definition within_uses (e : GovernanceException) : Prop :=
  (0 <= gx_use_count e)%Z /\
  forall n, sc_max_uses (gx_scope e) = Some n -> (gx_use_count e <= Z.max 0 n)%Z.

Definition exceptions_ok (s : GovState) : Prop :=
  table_ok (gs_exceptions s) /\ Forall (fun p => within_uses p.2) (gs_exceptions s).

Lemma exceptions_ok_same s s' :
  gs_exceptions s' = gs_exceptions s -> exceptions_ok s -> exceptions_ok s'.
Proof. unfold exceptions_ok. by intros ->. Qed.

Lemma exceptions_ok_dset id e s s' :
  gs_exceptions s' = dset id e (gs_exceptions s) -> gx_id e = id -> within_uses e ->
  exceptions_ok s -> exceptions_ok s'.
Proof.
  unfold exceptions_ok. intros -> He Hw [Ht Hu]. split; [by apply table_ok_dset|].
  clear Ht. induction (gs_exceptions s) as [|[k v] d IH]; simpl; [by apply Forall_singleton|].
  apply Forall_cons in Hu as [Hk Hu]. case_decide; constructor; simpl in *; auto.
Qed.

Lemma after_evaluation_within now r e : within_uses e -> within_uses (after_evaluation now r e).
Proof.
  intros [H0 Hn]. unfold after_evaluation. destruct (applies now r e) eqn:Ea.
  - unfold applies in Ea. bool_hyps. split; simpl; [lia|]. intros n Hn'.
    match goal with H : match sc_max_uses _ with _ => _ end = true |- _ => rewrite Hn' in H end.
    bool_hyps. match goal with H : Z.leb _ _ = false |- _ => apply Z.leb_gt in H end. lia.
  - unfold expire. by destruct (_ && _).
Qed.

Lemma after_evaluation_id now r e : gx_id (after_evaluation now r e) = gx_id e.
Proof. unfold after_evaluation, expire. by repeat case_match. Qed.

Lemma gov_call_ok `{Env, Builtins} digest s s' :
  gov_call digest s s' -> exceptions_ok s -> exceptions_ok s'.
Proof.
  intros Hc I. pose proof I as [Ht Hu]. destruct Hc as [r o s' E|j n t sc g e m v o s' E|id o s' E
    |id o s' e He Hn E|id o s' E|st id o s' E].
  - destruct (evaluate_steps digest r s Ht) as [w Hw]. destruct (Hw _ _ E) as [Hx _].
    unfold exceptions_ok. rewrite Hx. split.
    + apply table_ok_map; [apply after_evaluation_id|done].
    + apply Forall_map. eapply Forall_impl; [exact Hu|]. intros p. apply after_evaluation_within.
  - unfold create_exception, gs_in_world, short_id, utcnow in E. destruct (_ && _).
    { by injection E as <- <-. }
    destruct e; unfold_monad; injection E as <- <-; (eapply exceptions_ok_dset;
      [reflexivity|reflexivity|split; simpl; [lia|intros; lia]|done]).
  - unfold revoke_exception, get_exception in E. unfold_monad.
    destruct (dget id (gs_exceptions s)) as [e|] eqn:He; injection E as <- <-; [|done].
    destruct Ht as [Hd Hi]. apply dget_elem in He. rewrite Forall_forall in Hi, Hu.
    eapply exceptions_ok_dset; [reflexivity|by apply (Hi (id, e))|by apply (Hu (id, e))|done].
  - unfold record_use, get_exception in E. unfold_monad. rewrite He in E. injection E as <- <-.
    destruct Ht as [Hd Hi]. apply dget_elem in He. rewrite Forall_forall in Hi, Hu.
    eapply exceptions_ok_dset; [reflexivity|by apply (Hi (id, e))| |done].
    destruct (Hu (id, e) He) as [H1 _]. split; simpl in *; [lia|]. intros n Hn'. specialize (Hn n Hn'). lia.
  - unfold activate, get_policy_set in E. unfold_monad.
    destruct (dget id (gs_policy_sets s)); [|by injection E as <- <-].
    case_bool_decide; injection E as <- <-; done.
  - unfold set_status_of, get_policy_set in E. unfold_monad.
    destruct (dget id (gs_policy_sets s)); by injection E as <- <-.
Qed.

Lemma gov_calls_ok `{Env, Builtins} digest s0 s :
  rtc (gov_call digest) s0 s -> exceptions_ok s0 -> exceptions_ok s.
Proof.
  induction 1 as [|s0 s1 s2 Hc _ IH]; [done|]. intros I. apply IH. by eapply gov_call_ok.
Qed.

(** In every state the managers can reach, an exception has been used at
    most [max_uses] times; an evaluation, whatever its outcome, adds one use to
    exactly the exceptions that apply (not revoked, not expired, covering the
    request, with uses left), also when no DENY rule matched, and leaves a
    revoked exception as it is. *)
Theorem exception_uses_bounded `{Env, Builtins} digest s id e :
  rtc (gov_call digest) empty_gov s ->
  dget id (gs_exceptions s) = Some e ->
  (0 <= gx_use_count e)%Z /\
  (forall n, sc_max_uses (gx_scope e) = Some n -> (gx_use_count e <= Z.max 0 n)%Z) /\
  (forall r o s', evaluate digest r s = (o, s') ->
     exists e', dget id (gs_exceptions s') = Some e' /\
       gx_use_count e' = (gx_use_count e + if applies (now_of s) r e then 1 else 0)%Z /\
       (gx_status e = EX_REVOKED -> e' = e)).
Proof.
  intros Hr He. assert (I : exceptions_ok s).
  { eapply gov_calls_ok; [exact Hr|]. by repeat constructor. }
  destruct I as [Ht Hu]. pose proof (dget_elem _ _ _ He) as Hin. rewrite Forall_forall in Hu.
  destruct (Hu _ Hin) as [H1 H2]. split_and!; [done|done|]. intros r o s' E.
  destruct (evaluate_steps digest r s Ht) as [w Hw]. destruct (Hw _ _ E) as [Hx _].
  exists (after_evaluation (now_of s) r e). split_and!.
  - rewrite Hx. apply elem_dget.
    + unfold dict_ok, dkeys. rewrite map_map. apply Ht.
    + apply list_elem_of_fmap. by exists (id, e).
  - unfold after_evaluation, expire, use_once. destruct (applies _ _ _); simpl; [done|].
    destruct (_ && _); simpl; lia.
  - intros Hrev. unfold after_evaluation, applies, expire. by rewrite Hrev.
Qed.

(** ** A sample *)

#[local] Instance gov_env : Env :=
  { uuid_hex n := String (Ascii.ascii_of_nat (97 + n)) "0123456789abcdef";
    clock n := Z.of_nat n; float_repr x := "x" }.
#[local] Instance gov_builtins : Builtins :=
  { builtin_attr _ _ := VNone; py_str _ := ""; py_repr _ := ""; parse_float _ := None;
    re_search _ _ := Ok false }.

Definition sample_rule : PolicyRule := {|
  pr_id := "r1"; pr_name := "no prod"; pr_description := ""; pr_effect := EFF_DENY;
  pr_priority := 100; pr_subject_types := ["GENOME"]; pr_actions := ["DEPLOY"];
  pr_conditions := [{| cn_field := "context.environment"; cn_operator := EQUALS;
                       cn_value := VStr "prod" |}];
  pr_required_evidence := []; pr_required_approvals := []; pr_constraints := [];
  pr_failure_mode := FM_DENY |}.
Definition sample_set : PolicySetISR := {|
  ps_id := "p1"; ps_version := "0.1.0"; ps_name := ""; ps_constitution_id := "c";
  ps_constitution_version := "0.1.0"; ps_status := PS_ACTIVE; ps_policy_rules := [sample_rule];
  ps_applies_to := []; ps_created_at := 0; ps_created_by := ""; ps_content_hash := "" |}.
Definition sample_request : GovernanceEvaluationRequest := {|
  rq_subject_type := "GENOME"; rq_subject_id := "g"; rq_action := "DEPLOY";
  rq_actor := {| ac_actor_type := ACTOR_HUMAN; ac_actor_id := "ann"; ac_roles := [];
                 ac_delegated_authority := [] |};
  rq_context := [("environment", VStr "prod")]; rq_evidence_refs := [];
  rq_requested_exceptions := [] |}.
Definition sample_gov : GovState := put_policy_set "p1" sample_set empty_gov.
Definition no_digest (d : GovernanceDecision) : string := "".

Lemma evaluate_decides_by_reference_witness :
  exists d, (evaluate no_digest sample_request sample_gov).1 = Ok d /\ gv_decision d = DENY.
Proof.
  destruct (evaluate no_digest sample_request sample_gov) as [[d|x] s'] eqn:E;
    [|vm_compute in E; discriminate].
  exists d. split; [reflexivity|].
  destruct (evaluate_decides_by_reference no_digest sample_request sample_gov d s') as [-> _].
  - split; constructor.
  - exact E.
  - vm_compute. reflexivity.
Defined.

Definition with_exception : GovState :=
  (create_exception true "exc" "drill" None "ann" None (Some 1%Z) None empty_gov).2.
Definition sample_exception_id : string := "exc_a012345678".

Lemma exception_uses_bounded_witness :
  exists e, dget sample_exception_id
      (gs_exceptions (evaluate no_digest sample_request with_exception).2) = Some e /\
    gx_use_count e = 1%Z.
Proof.
  destruct (dget sample_exception_id (gs_exceptions with_exception)) as [e|] eqn:He;
    [|vm_compute in He; discriminate].
  destruct (exception_uses_bounded no_digest with_exception sample_exception_id e) as (_ & _ & H).
  - apply rtc_once. eapply gov_create_exception. apply surjective_pairing.
  - exact He.
  - destruct (H sample_request _ _ (surjective_pairing _)) as (e' & He' & Hc & _).
    exists e'. split; [exact He'|]. rewrite Hc. vm_compute in He. injection He as <-. reflexivity.
Defined.
