(* ===== verification/GovApproval.v ===== *)
(** * Governance: the approval workflow engine

    [constitutional_architecture/governance/approval_workflow.py]: approval
    requests, decisions, timeouts, and the decision an evaluation reaches once
    its approvals are in.  Durations are read as ASCII text. *)

From S2P Require Import Prelude PyFloat PyVal FinModels GovModels.

(** ** Durations *)

Definition char_in (c : Ascii.ascii) (s : string) : bool :=
  existsb (Ascii.eqb c) (String.list_ascii_of_string s).
Definition is_digit (c : Ascii.ascii) : bool := char_in c "0123456789".

Definition upper_char (c : Ascii.ascii) : Ascii.ascii :=
  let n := Ascii.nat_of_ascii c in
  if (97 <=? n)%nat && (n <=? 122)%nat then Ascii.ascii_of_nat (n - 32) else c.
Definition is_space (c : Ascii.ascii) : bool :=
  let n := Ascii.nat_of_ascii c in
  ((9 <=? n)%nat && (n <=? 13)%nat) || ((28 <=? n)%nat && (n <=? 32)%nat).

Fixpoint drop_spaces (cs : list Ascii.ascii) : list Ascii.ascii :=
  match cs with c :: cs' => if is_space c then drop_spaces cs' else cs | [] => [] end.
(** [duration.strip().upper()]. *)
Definition strip_upper (s : string) : list Ascii.ascii :=
  map upper_char (rev (drop_spaces (rev (drop_spaces (String.list_ascii_of_string s))))).

(** [float(number)] for a text of digits and dots: at most one dot, and a
    digit. *)
Definition digits_value (cs : list Ascii.ascii) : Z :=
  fold_left (fun n c => 10 * n + Z.of_nat (Ascii.nat_of_ascii c - 48))%Z cs 0%Z.
Fixpoint split_number (cs : list Ascii.ascii) : list Ascii.ascii * list Ascii.ascii :=
  match cs with
  | [] => ([], [])
  | c :: cs' => if Ascii.eqb c dot then ([], cs')
                else let '(a, b) := split_number cs' in (c :: a, b)
  end.
Definition parse_number (cs : list Ascii.ascii) : res float :=
  let '(a, b) := split_number cs in
  if forallb is_digit (a ++ b) && (0 <? length (a ++ b))%nat
  then Ok (of_ratio (digits_value (a ++ b)) (Z.to_pos (10 ^ Z.of_nat (length b))))
  else Raise (ValueError ("could not convert string to float: '"
                          +:+ String.string_of_list_ascii cs +:+ "'")).

(** [_parse_duration]: the loop over the characters, with the total and the
    number being read. *)
Definition invalid_duration (duration : string) : exn :=
  ValueError ("Invalid duration: " +:+ duration).

Definition unit_seconds (c : Ascii.ascii) : Z :=
  if char_in c "D" then 86400 else if char_in c "H" then 3600 else if char_in c "M" then 60 else 1.

Fixpoint duration_loop (duration : string) (total : float) (number : list Ascii.ascii)
    (cs : list Ascii.ascii) : res (float * list Ascii.ascii) :=
  match cs with
  | [] => Ok (total, number)
  | c :: cs' =>
      if is_digit c || Ascii.eqb c dot then duration_loop duration total (number ++ [c]) cs'
      else if char_in c "HMSD" then
        match number with
        | [] => Raise (invalid_duration duration)
        | _ =>
            value ← parse_number number;
            duration_loop duration
              (fadd total (if char_in c "S" then value else fmul value (of_Z (unit_seconds c)))) [] cs'
        end
      else duration_loop duration total number cs'
  end.

Definition parse_duration (duration : string) : res float :=
  p ← duration_loop duration fzero [] (strip_upper duration);
  match p.2 with
  | [] => if feqb p.1 fzero then Raise (invalid_duration duration) else mret p.1
  | _ => mret p.1
  end.

(** ** ApprovalWorkflowEngine *)

Record ApprovalState : Set := {
  aw_world : World;
  aw_approvals : list (string * ApprovalRecord);
  aw_evaluation_approvals : list (string * list string);
  aw_now : option Z;
}.

Definition empty_approvals : ApprovalState :=
  {| aw_world := world0; aw_approvals := []; aw_evaluation_approvals := []; aw_now := None |}.

Definition aw_in_world {A} (m : M World A) : M ApprovalState A :=
  zoom aw_world (fun w s =>
    {| aw_world := w; aw_approvals := aw_approvals s;
       aw_evaluation_approvals := aw_evaluation_approvals s; aw_now := aw_now s |}) m.

Definition put_approval (r : ApprovalRecord) (s : ApprovalState) : ApprovalState :=
  {| aw_world := aw_world s; aw_approvals := dset (ar_id r) r (aw_approvals s);
     aw_evaluation_approvals := aw_evaluation_approvals s; aw_now := aw_now s |}.

Definition set_clock (now : Z) (s : ApprovalState) : ApprovalState :=
  {| aw_world := aw_world s; aw_approvals := aw_approvals s;
     aw_evaluation_approvals := aw_evaluation_approvals s; aw_now := Some now |}.

Definition set_record (st : ApprovalStatus) (d : option ApprovalDecision) (comments : option string)
    (cs : list Constraint) (at_ : option Z) (r : ApprovalRecord) : ApprovalRecord :=
  {| ar_id := ar_id r; ar_evaluation_id := ar_evaluation_id r; ar_requirement := ar_requirement r;
     ar_approver_type := ar_approver_type r; ar_approver_id := ar_approver_id r; ar_status := st;
     ar_decision := d; ar_comments := comments; ar_approved_constraints := cs;
     ar_created_at := ar_created_at r; ar_decided_at := at_; ar_signature := ar_signature r |}.

Definition status_of_decision (d : ApprovalDecision) : ApprovalStatus :=
  match d with AD_APPROVED => AS_APPROVED | AD_REJECTED => AS_REJECTED | _ => AS_ABSTAINED end.

(** [datetime.timestamp()]. *)
Definition timestamp (t : Z) : float := of_ratio t 1000000.
Definition default_timeout : float := of_Z (48 * 3600).

Definition same_approver (q : ApprovalRequirement) (r : ApprovalRecord) : bool :=
  bool_decide (aq_approver_type (ar_requirement r) = aq_approver_type q)
  && bool_decide (or_empty (aq_approver_id (ar_requirement r)) = or_empty (aq_approver_id q)).

Definition has_status (st : ApprovalStatus) (r : ApprovalRecord) : bool :=
  bool_decide (ar_status r = st).

(** The loop of [approve] over the requirements. *)
Fixpoint decide_requirements (records : list ApprovalRecord) (required : list ApprovalRequirement) :
    Decision :=
  match required with
  | [] => ALLOW
  | q :: rest =>
      let matching := List.filter (same_approver q) records in
      match matching with
      | [] => REQUIRE_APPROVAL
      | _ =>
          if existsb (has_status AS_REJECTED) matching then DENY
          else if existsb (fun r => has_status AS_EXPIRED r
                   && bool_decide (aq_timeout_policy (ar_requirement r) = DENY_ON_TIMEOUT)) matching
          then DENY
          else if aq_required q && negb (existsb (has_status AS_APPROVED) matching)
          then REQUIRE_APPROVAL
          else decide_requirements records rest
      end
  end.

Section Approvals.
Context `{Env}.

(** [self._now or datetime.now(...)]. *)
Definition engine_now : M ApprovalState Z :=
  o ← gets aw_now;
  match o with Some t => mret t | None => aw_in_world utcnow end.

Definition new_approval (evaluation_id : string) (q : ApprovalRequirement) :
    M ApprovalState ApprovalRecord :=
  id ← aw_in_world (short_id "approval");
  now ← aw_in_world utcnow;
  let r := {| ar_id := id; ar_evaluation_id := evaluation_id; ar_requirement := q;
              ar_approver_type := approver_type_value (aq_approver_type q);
              ar_approver_id := or_empty (aq_approver_id q); ar_status := AS_PENDING;
              ar_decision := None; ar_comments := None; ar_approved_constraints := [];
              ar_created_at := now; ar_decided_at := None; ar_signature := None |} in
  _ ← modify (put_approval r);
  mret r.

Fixpoint new_approvals (evaluation_id : string) (qs : list ApprovalRequirement) :
    M ApprovalState (list ApprovalRecord) :=
  match qs with
  | [] => mret []
  | q :: qs' => r ← new_approval evaluation_id q; rs ← new_approvals evaluation_id qs'; mret (r :: rs)
  end.

Definition create_approval_request (evaluation_id : string) (qs : list ApprovalRequirement) :
    M ApprovalState (list ApprovalRecord) :=
  records ← new_approvals evaluation_id qs;
  _ ← modify (fun s =>
    {| aw_world := aw_world s; aw_approvals := aw_approvals s;
       aw_evaluation_approvals := dset evaluation_id (map ar_id records) (aw_evaluation_approvals s);
       aw_now := aw_now s |});
  mret records.

Definition get_approval (id : string) : M ApprovalState ApprovalRecord := fun s =>
  match dget id (aw_approvals s) with
  | Some r => (Ok r, s)
  | None => (Raise (KeyError id), s)
  end.

Definition submit_decision (id : string) (d : ApprovalDecision) (comments : option string)
    (approved_constraints : list Constraint) : M ApprovalState ApprovalRecord :=
  r ← get_approval id;
  if negb (has_status AS_PENDING r) then
    raise (ValueError ("Approval " +:+ id +:+ " is already "
                       +:+ approval_status_value (ar_status r) +:+ "."))
  else
    now ← engine_now;
    let r' := set_record (status_of_decision d) (Some d) comments approved_constraints (Some now) r in
    _ ← modify (put_approval r');
    mret r'.

(** [_is_expired]. *)
Definition is_expired (r : ApprovalRecord) (now : Z) : res bool :=
  timeout ← (if otruthy (aq_timeout_duration (ar_requirement r))
             then parse_duration (or_empty (aq_timeout_duration (ar_requirement r)))
             else mret default_timeout);
  mret (fltb (fadd (timestamp (ar_created_at r)) timeout) (timestamp now)).

(** [refresh_timeouts]: the records in the order of the dict. *)
Definition refresh_one (now : Z) (r : ApprovalRecord) : M ApprovalState unit :=
  if negb (has_status AS_PENDING r) then mret tt
  else
    expired ← lift_res (is_expired r now);
    when expired (modify (put_approval
      (set_record AS_EXPIRED (Some AD_EXPIRED) (ar_comments r) (ar_approved_constraints r)
         (ar_decided_at r) r))).

Definition refresh_timeouts : M ApprovalState unit :=
  now ← engine_now;
  rs ← gets (fun s => dvalues (aw_approvals s));
  for_each rs (refresh_one now).

Definition approvals_for (evaluation_id : string) (s : ApprovalState) : res (list ApprovalRecord) :=
  fold_right (fun id acc =>
    match dget id (aw_approvals s) with
    | Some r => rs ← acc; mret (r :: rs)
    | None => Raise (KeyError id)
    end) (Ok []) (dget_or evaluation_id (aw_evaluation_approvals s) []).

Definition records_for (evaluation_id : string) : M ApprovalState (list ApprovalRecord) :=
  fun s => (approvals_for evaluation_id s, s).

Definition approve (evaluation_id : string) (required : list ApprovalRequirement) :
    M ApprovalState Decision :=
  _ ← refresh_timeouts;
  records ← records_for evaluation_id;
  mret (decide_requirements records required).

Definition all_approvals (status : option ApprovalStatus) (s : ApprovalState) :
    list ApprovalRecord :=
  let records := sort_by (fun a b => Z.leb (ar_created_at a) (ar_created_at b))
                   (dvalues (aw_approvals s)) in
  match status with
  | Some st => List.filter (has_status st) records
  | None => records
  end.
End Approvals.
