(* ===== verification/GovKernel.v ===== *)
(** * Governance: the audit framework and the kernel

    [constitutional_architecture/governance/audit.py] (AuditFramework, the
    hash-chained event store and the decision dossiers) and [kernel.py], the
    facade that evaluates, collects approvals, finalizes and audits.  The
    approval records are the objects of the approval engine: the audit store
    keeps their ids. *)

From S2P Require Import Prelude PyFloat PyVal FinModels GovModels GovPolicy GovApproval.

(** ** The audit store *)

Record Dossier : Set := {
  ds_request : GovernanceEvaluationRequest;
  ds_decision : GovernanceDecision;
  ds_approval_ids : list string;
  ds_final_decision : option string;
}.

Record AuditState : Set := {
  au_events : list AuditEvent;
  au_by_id : list (string * AuditEvent);
  au_dossiers : list (string * Dossier);
  au_approvals : list string;
}.

Definition empty_audit : AuditState :=
  {| au_events := []; au_by_id := []; au_dossiers := []; au_approvals := [] |}.

(** [decision_id_of]. *)
Definition decision_id_of (d : GovernanceDecision) : string :=
  "decision_" +:+ String.substring 0 16 (gv_decision_hash d).

Definition set_hashes (previous hash : string) (e : AuditEvent) : AuditEvent :=
  {| ae_id := ae_id e; ae_event_type := ae_event_type e; ae_actor := ae_actor e;
     ae_subject_type := ae_subject_type e; ae_subject_id := ae_subject_id e;
     ae_action := ae_action e; ae_decision_id := ae_decision_id e;
     ae_approval_ids := ae_approval_ids e; ae_evidence_refs := ae_evidence_refs e;
     ae_context := ae_context e; ae_timestamp := ae_timestamp e;
     ae_previous_event_hash := previous; ae_event_hash := hash |}.

(** The fields the hash covers: all but the hash itself. *)
Definition payload (e : AuditEvent) : AuditEvent := set_hashes (ae_previous_event_hash e) "" e.

Definition set_dossier (ids : list string) (final : option string) (d : Dossier) : Dossier :=
  {| ds_request := ds_request d; ds_decision := ds_decision d; ds_approval_ids := ids;
     ds_final_decision := final |}.

Definition put_dossiers (d : list (string * Dossier)) (a : AuditState) : AuditState :=
  {| au_events := au_events a; au_by_id := au_by_id a; au_dossiers := d;
     au_approvals := au_approvals a |}.

(** [record_decision_dossier]: the markers of an earlier pass win. *)
Definition record_decision_dossier (d : GovernanceDecision) (r : GovernanceEvaluationRequest)
    (approval_ids : list string) (a : AuditState) : AuditState :=
  let id := decision_id_of d in
  let fresh := {| ds_request := r; ds_decision := d; ds_approval_ids := approval_ids;
                  ds_final_decision := None |} in
  let dossier := match dget id (au_dossiers a) with
                 | Some old =>
                     set_dossier
                       (match ds_approval_ids old with [] => approval_ids | ids => ids end)
                       (if otruthy (ds_final_decision old) then ds_final_decision old else None) fresh
                 | None => fresh
                 end in
  put_dossiers (dset id dossier (au_dossiers a)) a.

Definition attach_approval_ids (id : string) (ids : list string) (a : AuditState) : AuditState :=
  match dget id (au_dossiers a) with
  | Some d => put_dossiers (dset id (set_dossier ids (ds_final_decision d) d) (au_dossiers a)) a
  | None => a
  end.

Definition finalize_dossier_decision (id value : string) (a : AuditState) : AuditState :=
  match dget id (au_dossiers a) with
  | Some d => put_dossiers (dset id (set_dossier (ds_approval_ids d) (Some value) d) (au_dossiers a)) a
  | None => a
  end.

Definition record_approval (id : string) (a : AuditState) : AuditState :=
  {| au_events := au_events a; au_by_id := au_by_id a; au_dossiers := au_dossiers a;
     au_approvals := if mem id (au_approvals a) then au_approvals a else au_approvals a ++ [id] |}.

Section Audit.
Context `{Env}.
(** sha256 of the canonical JSON of an event without its hash. *)
Variable event_digest : AuditEvent -> string.

(** [AuditFramework.record]. *)
Definition audit_record (event_type : string) (actor : Actor)
    (subject_type subject_id action : string) (decision_id : option string)
    (approval_ids evidence_refs : list string) (context : pydict) :
    M (World * AuditState) AuditEvent := fun s =>
  let '(id, w1) := short_id "audit" s.1 in
  let '(now, w2) := utcnow w1 in
  match id, now with
  | Ok id, Ok now =>
      let previous := match last (au_events s.2) with Some e => ae_event_hash e | None => "" end in
      let e0 := {| ae_id := id; ae_event_type := event_type; ae_actor := actor;
                   ae_subject_type := subject_type; ae_subject_id := subject_id;
                   ae_action := action; ae_decision_id := decision_id;
                   ae_approval_ids := approval_ids; ae_evidence_refs := evidence_refs;
                   ae_context := context; ae_timestamp := now;
                   ae_previous_event_hash := previous; ae_event_hash := "" |} in
      let e := set_hashes previous (event_digest (payload e0)) e0 in
      (Ok e, (w2, {| au_events := au_events s.2 ++ [e]; au_by_id := dset id e (au_by_id s.2);
                     au_dossiers := au_dossiers s.2; au_approvals := au_approvals s.2 |}))
  | _, _ => (Raise (RuntimeError ""), s)
  end.

(** [verify_chain_detail]: the index of the first broken event. *)
Fixpoint first_broken (previous : string) (index : nat) (es : list AuditEvent) : option nat :=
  match es with
  | [] => None
  | e :: es' =>
      if negb (bool_decide (ae_previous_event_hash e = previous)) then Some index
      else if negb (bool_decide (event_digest (payload e) = ae_event_hash e)) then Some index
      else first_broken (ae_event_hash e) (S index) es'
  end.

Definition verify_chain_detail (a : AuditState) : bool * option nat :=
  match first_broken "" 0 (au_events a) with
  | None => (true, None)
  | Some i => (false, Some i)
  end.

Definition verify_chain (a : AuditState) : bool := (verify_chain_detail a).1.

(** [query]. *)
Definition wanted (filter : option string) (value : string) : bool :=
  match filter with Some f => bool_decide (value = f) | None => true end.

Definition query (subject_id subject_type actor_id action event_type decision_id : option string)
    (from_time to_time : option Z) (a : AuditState) : list AuditEvent :=
  List.filter (fun e =>
    wanted subject_id (ae_subject_id e) && wanted subject_type (ae_subject_type e)
    && wanted actor_id (ac_actor_id (ae_actor e)) && wanted action (ae_action e)
    && wanted event_type (ae_event_type e)
    && match decision_id with Some d => bool_decide (ae_decision_id e = Some d) | None => true end
    && match from_time with Some t => Z.leb t (ae_timestamp e) | None => true end
    && match to_time with Some t => Z.leb (ae_timestamp e) t | None => true end) (au_events a).

(** [list_evaluations]: the dossiers with their ids. *)
Definition list_evaluations (subject_id subject_type actor_id action decision : option string)
    (a : AuditState) : list (string * Dossier) :=
  sort_by (fun x y => Z.leb (gv_created_at (ds_decision x.2)) (gv_created_at (ds_decision y.2)))
    (List.filter (fun p =>
       wanted subject_id (rq_subject_id (ds_request p.2))
       && wanted subject_type (rq_subject_type (ds_request p.2))
       && wanted actor_id (ac_actor_id (rq_actor (ds_request p.2)))
       && wanted action (rq_action (ds_request p.2))
       && wanted decision (decision_value (gv_decision (ds_decision p.2)))) (au_dossiers a)).

(** [reconstruct]: the dossier, its approvals as they are now, its events. *)
Definition reconstruct (id : string) (approvals : list (string * ApprovalRecord)) (a : AuditState) :
    res (Dossier * list ApprovalRecord * list AuditEvent) :=
  match dget id (au_dossiers a) with
  | None => Raise (KeyError ("Unknown decision " +:+ id))
  | Some d =>
      Ok (d, omap (fun i => if mem i (au_approvals a) then dget i approvals else None)
               (ds_approval_ids d),
          List.filter (fun e => bool_decide (ae_decision_id e = Some id)) (au_events a))
  end.
End Audit.

(** ** The kernel *)

Record KernelState : Set := {
  ks_gov : GovState;
  ks_approvals : ApprovalState;
  ks_audit : AuditState;
}.

Definition empty_kernel : KernelState :=
  {| ks_gov := empty_gov; ks_approvals := empty_approvals; ks_audit := empty_audit |}.

Definition KERNEL_SERVICE_ACTOR : Actor := {|
  ac_actor_type := ACTOR_SERVICE; ac_actor_id := "governance_kernel";
  ac_roles := ["governance_kernel"]; ac_delegated_authority := [] |}.

(** One world: the clock and the identifiers of the policy part and of the
    approval part advance together. *)
Definition set_world_gov (w : World) (s : GovState) : GovState :=
  {| gs_world := w; gs_policy_sets := gs_policy_sets s; gs_immutable := gs_immutable s;
     gs_exceptions := gs_exceptions s |}.
Definition set_world_approvals (w : World) (s : ApprovalState) : ApprovalState :=
  {| aw_world := w; aw_approvals := aw_approvals s;
     aw_evaluation_approvals := aw_evaluation_approvals s; aw_now := aw_now s |}.

Definition in_gov {A} (m : M GovState A) : M KernelState A :=
  zoom ks_gov (fun g s => {| ks_gov := g;
    ks_approvals := set_world_approvals (gs_world g) (ks_approvals s); ks_audit := ks_audit s |}) m.
Definition in_approvals {A} (m : M ApprovalState A) : M KernelState A :=
  zoom ks_approvals (fun a s => {| ks_gov := set_world_gov (aw_world a) (ks_gov s);
    ks_approvals := a; ks_audit := ks_audit s |}) m.
Definition in_audit {A} (m : M (World * AuditState) A) : M KernelState A :=
  zoom (fun s => (gs_world (ks_gov s), ks_audit s)) (fun p s =>
    {| ks_gov := set_world_gov p.1 (ks_gov s);
       ks_approvals := set_world_approvals p.1 (ks_approvals s); ks_audit := p.2 |}) m.
Definition change_audit (f : AuditState -> AuditState) : M KernelState unit :=
  modify (fun s => {| ks_gov := ks_gov s; ks_approvals := ks_approvals s;
                      ks_audit := f (ks_audit s) |}).

Section Kernel.
Context `{Env, Builtins}.
Variable decision_digest : GovernanceDecision -> string.
Variable event_digest : AuditEvent -> string.

Definition kernel_evaluate (r : GovernanceEvaluationRequest) : M KernelState GovernanceDecision :=
  d ← in_gov (evaluate decision_digest r);
  _ ← change_audit (record_decision_dossier d r []);
  _ ← in_audit (audit_record event_digest "POLICY_EVALUATED" (rq_actor r) (rq_subject_type r)
        (rq_subject_id r) (rq_action r) (Some (decision_id_of d)) [] (rq_evidence_refs r)
        [("decision", VStr (decision_value (gv_decision d)))]);
  mret d.

Definition kernel_create_approvals (evaluation : GovernanceDecision) :
    M KernelState (list string) :=
  records ← in_approvals (create_approval_request (decision_id_of evaluation)
              (gv_required_approvals evaluation));
  _ ← for_each records (fun r => change_audit (record_approval (ar_id r)));
  mret (map ar_id records).

Definition kernel_submit_approval (id : string) (d : ApprovalDecision) (comments : option string)
    (actor : option Actor) : M KernelState ApprovalRecord :=
  record ← in_approvals (submit_decision id d comments []);
  _ ← change_audit (record_approval (ar_id record));
  _ ← match actor with
      | Some a =>
          _ ← in_audit (audit_record event_digest "APPROVAL_DECIDED" a "GOVERNANCE_APPROVAL" id
                (approval_decision_value d) (Some (ar_evaluation_id record)) [] []
                [("decision", VStr (approval_decision_value d));
                 ("comments", VStr (or_empty comments))]);
          mret tt
      | None => mret tt
      end;
  mret record.

Definition set_decision (dec : Decision) (d : GovernanceDecision) : GovernanceDecision :=
  {| gv_decision := dec; gv_reason := gv_reason d;
     gv_evaluated_policies := gv_evaluated_policies d;
     gv_required_approvals := gv_required_approvals d;
     gv_required_evidence := gv_required_evidence d; gv_constraints := gv_constraints d;
     gv_exceptions_applied := gv_exceptions_applied d; gv_decision_hash := gv_decision_hash d;
     gv_created_at := gv_created_at d |}.

Definition kernel_finalize (evaluation : GovernanceDecision)
    (subject_type subject_id action : string) (actor : Actor) : M KernelState GovernanceDecision :=
  let id := decision_id_of evaluation in
  final ← in_approvals (approve id (gv_required_approvals evaluation));
  records ← in_approvals (records_for id);
  let approval_ids := map ar_id records in
  _ ← change_audit (attach_approval_ids id approval_ids);
  _ ← change_audit (finalize_dossier_decision id (decision_value final));
  _ ← in_audit (audit_record event_digest "ACTION_FINALIZED" actor subject_type subject_id action
        (Some id) approval_ids [] [("final_decision", VStr (decision_value final))]);
  mret (set_decision final evaluation).

Definition kernel_revoke_exception (id : string) (actor : option Actor) :
    M KernelState GovernanceException :=
  e ← in_gov (revoke_exception id);
  _ ← in_audit (audit_record event_digest "EXCEPTION_REVOKED"
        (match actor with Some a => a | None => KERNEL_SERVICE_ACTOR end)
        "GOVERNANCE_EXCEPTION" id "REVOKE_EXCEPTION" None [] []
        [("exception_name", VStr (gx_name e))]);
  mret e.

(** [audit_chain_intact] and [audit_chain_detail]. *)
Definition audit_chain_intact (s : KernelState) : bool := verify_chain event_digest (ks_audit s).
Definition audit_chain_detail (s : KernelState) : bool * option nat :=
  verify_chain_detail event_digest (ks_audit s).
End Kernel.
