(* ===== verification/GovKernelSpec.v ===== *)
(** * Governance: approvals, finalization and the audit chain

    The life of an approval record, what [approve] and [finalize] decide, and
    the integrity of the hash-chained audit events. *)

From S2P Require Import Prelude PyFloat PyVal FinModels GovModels GovPolicy GovPolicySpec GovApproval GovKernel.

(** ** The life of an approval *)

(** Every record is stored under its id. *)
Definition approvals_ok (s : ApprovalState) : Prop :=
  forall id r, dget id (aw_approvals s) = Some r -> ar_id r = id.

(** [r'] is [r] after more calls: what was asked stays, and a decided record
    stays as it is. *)
Definition approval_history (r r' : ApprovalRecord) : Prop :=
  ar_id r' = ar_id r /\ ar_requirement r' = ar_requirement r /\
  ar_evaluation_id r' = ar_evaluation_id r /\ ar_created_at r' = ar_created_at r /\
  (ar_status r <> AS_PENDING -> r' = r).

Lemma approval_history_refl r : approval_history r r.
Proof. by repeat split. Qed.

Lemma approval_history_trans r1 r2 r3 :
  approval_history r1 r2 -> approval_history r2 r3 -> approval_history r1 r3.
Proof.
  intros (A1 & B1 & C1 & D1 & E1) (A2 & B2 & C2 & D2 & E2). split_and!; try congruence.
  intros Hs. rewrite <- (E1 Hs) in Hs |- *. by apply E2.
Qed.

(** A step of the store in which records only move along their history. *)
Definition approvals_step (s s' : ApprovalState) : Prop :=
  (approvals_ok s -> approvals_ok s') /\
  forall id r, approvals_ok s -> dget id (aw_approvals s) = Some r ->
    exists r', dget id (aw_approvals s') = Some r' /\ approval_history r r'.

Lemma approvals_step_same s s' : aw_approvals s' = aw_approvals s -> approvals_step s s'.
Proof.
  intros E. split; [unfold approvals_ok; by rewrite E|]. intros id r _ Hr. exists r.
  rewrite E. split; [done|apply approval_history_refl].
Qed.

Lemma approvals_step_trans s1 s2 s3 :
  approvals_step s1 s2 -> approvals_step s2 s3 -> approvals_step s1 s3.
Proof.
  intros [O1 H1] [O2 H2]. split; [auto|]. intros id r O Hr.
  destruct (H1 id r O Hr) as (r2 & Hr2 & L2). destruct (H2 id r2 (O1 O) Hr2) as (r3 & Hr3 & L3).
  eauto using approval_history_trans.
Qed.

(** Deciding or expiring a pending record. *)
Lemma put_approval_step s r st d c cs t :
  approvals_ok s -> dget (ar_id r) (aw_approvals s) = Some r -> ar_status r = AS_PENDING ->
  approvals_step s (put_approval (set_record st d c cs t r) s).
Proof.
  intros O Hr Hp. split.
  - intros _ id r'. cbn. rewrite dget_dset. case_decide; [intros [= <-]; done|apply O].
  - intros id r0 _ Hr0. cbn. rewrite dget_dset. case_decide as Hid.
    + subst id. rewrite Hr in Hr0. injection Hr0 as <-. eexists. split; [reflexivity|].
      by split_and!.
    + exists r0. split; [done|apply approval_history_refl].
Qed.

Section Steps.
Context `{Env}.

Lemma engine_now_run s : exists t w, engine_now s = (Ok t,
  {| aw_world := w; aw_approvals := aw_approvals s;
     aw_evaluation_approvals := aw_evaluation_approvals s; aw_now := aw_now s |}).
Proof.
  unfold engine_now, aw_in_world, utcnow, gets. unfold mbind, M_bind. destruct (aw_now s) as [t|] eqn:E.
  - exists t, (aw_world s). rewrite <- E. by destruct s.
  - unfold_monad. rewrite <- E. by eexists _, _.
Qed.

Lemma submit_decision_step id d c cs s :
  approvals_ok s -> approvals_step s (submit_decision id d c cs s).2.
Proof.
  intros O. unfold submit_decision. unfold get_approval, mbind at 1, M_bind at 1.
  destruct (dget id (aw_approvals s)) as [r|] eqn:Er; [|by apply approvals_step_same].
  unfold has_status. case_bool_decide as Hp; cbn [negb]; [|by apply approvals_step_same].
  destruct (engine_now_run s) as (t & w & E). rewrite (M_bind_Ok _ _ _ _ _ E). unfold_monad. cbn [snd].
  pose proof (O id r Er) as Hid.
  apply (put_approval_step {| aw_world := w; aw_approvals := aw_approvals s;
    aw_evaluation_approvals := aw_evaluation_approvals s; aw_now := aw_now s |}); [exact O| |done].
  cbn. by rewrite Hid.
Qed.

Lemma refresh_one_cases now r s :
  (refresh_one now r s).2 = s \/
  (ar_status r = AS_PENDING /\
   (refresh_one now r s).2 = put_approval (set_record AS_EXPIRED (Some AD_EXPIRED) (ar_comments r)
     (ar_approved_constraints r) (ar_decided_at r) r) s).
Proof.
  unfold refresh_one. destruct (has_status AS_PENDING r) eqn:Ep; cbn [negb]; [|by left].
  apply bool_decide_eq_true_1 in Ep. unfold lift_res, mbind, M_bind.
  destruct (is_expired r now) as [[]|x]; [by right|by left..].
Qed.

(** Refreshing the records of a snapshot: those not yet visited are unchanged. *)
Lemma refresh_loop_step now rs s :
  approvals_ok s -> NoDup (map ar_id rs) ->
  (forall r, r ∈ rs -> dget (ar_id r) (aw_approvals s) = Some r) ->
  approvals_step s (for_each rs (refresh_one now) s).2.
Proof.
  revert s. induction rs as [|r rs IH]; intros s O Hnd Hin; [by apply approvals_step_same|].
  cbn [map] in Hnd. apply NoDup_cons in Hnd as [Hr Hnd]. cbn [for_each].
  pose proof (Hin r (list_elem_of_here _ _)) as Hget.
  unfold mbind at 1, M_bind at 1. pose proof (refresh_one_cases now r s) as Hc.
  destruct (refresh_one now r s) as [[[]|x] s1]; cbn [snd] in Hc;
    destruct Hc as [->|[Ep ->]]; try (by apply approvals_step_same); try (by apply put_approval_step).
  - apply IH; [done|done|]. intros r' Hr'. apply Hin. by right.
  - pose proof (put_approval_step s r AS_EXPIRED (Some AD_EXPIRED) (ar_comments r)
      (ar_approved_constraints r) (ar_decided_at r) O Hget Ep) as Hstep.
    eapply approvals_step_trans; [exact Hstep|]. apply IH; [by apply Hstep|done|].
    intros r' Hr'. cbn. rewrite dget_dset_ne; [apply Hin; by right|].
    intros Heq. apply Hr. rewrite <- Heq. by apply (list_elem_of_fmap_2 ar_id).
Qed.

Lemma refresh_timeouts_step s :
  dict_ok (aw_approvals s) -> approvals_ok s -> approvals_step s (refresh_timeouts s).2.
Proof.
  intros Hd O. unfold refresh_timeouts. destruct (engine_now_run s) as (t & w & E).
  rewrite (M_bind_Ok _ _ _ _ _ E). unfold gets. unfold mbind, M_bind.
  set (s1 := {| aw_world := w |}). eapply approvals_step_trans; [by apply (approvals_step_same s s1)|].
  assert (Hval : forall r, r ∈ dvalues (aw_approvals s) -> dget (ar_id r) (aw_approvals s) = Some r).
  { intros r Hr. apply elem_dvalues in Hr as [k Hk]. pose proof (elem_dget _ _ _ Hd Hk) as Hg.
    by rewrite (O _ _ Hg). }
  apply refresh_loop_step; [exact O| |exact Hval].
  change (NoDup (map ar_id (dvalues (aw_approvals s)))).
  assert (map ar_id (dvalues (aw_approvals s)) = dkeys (aw_approvals s)) as ->; [|done].
  unfold dvalues, dkeys. rewrite map_map. apply map_ext_in. intros [k r] Hin%list_elem_of_In.
  apply elem_dget in Hin; [|done]. by apply (O k r).
Qed.

Lemma approve_same eid q s :
  (approve eid q s).2 = (refresh_timeouts s).2.
Proof.
  unfold approve. unfold mbind, M_bind. destruct (refresh_timeouts s) as [[[]|x] s1]; [|done].
  unfold records_for. by destruct (approvals_for eid s1).
Qed.

(** The ids the next requests get. *)
Definition next_approval_id (s : ApprovalState) (k : nat) : string :=
  "approval_" +:+ String.substring 0 10 (uuid_hex (uuids_drawn (aw_world s) + k)).

Lemma new_approvals_step eid qs s :
  approvals_ok s ->
  (forall k, (k < length qs)%nat -> dget (next_approval_id s k) (aw_approvals s) = None) ->
  approvals_step s (new_approvals eid qs s).2 /\ is_ok (new_approvals eid qs s).1 = true.
Proof.
  assert (Hg : forall s0, approvals_ok s -> approvals_step s0 s -> 
    (forall k id r, (k < length qs)%nat -> dget id (aw_approvals s0) = Some r ->
       next_approval_id s k <> id) ->
    approvals_step s0 (new_approvals eid qs s).2 /\ is_ok (new_approvals eid qs s).1 = true).
  2: { intros O Hf. apply Hg; [done|by apply approvals_step_same|].
       intros k id r Hk Hr <-. by rewrite Hf in Hr. }
  revert s. induction qs as [|q qs IH]; intros s s0 O Hst Hf; [by split|].
  cbn [new_approvals]. unfold new_approval, aw_in_world, short_id, utcnow.
  unfold zoom, modify, mret, M_ret. unfold mbind, M_bind. cbn [aw_approvals aw_world uuids_drawn clock_reads].
  match goal with |- context [new_approvals eid qs ?s1] => set (s2 := s1) end.
  specialize (IH s2 s0).
  destruct (new_approvals eid qs s2) as [[rs|x] s3]; cbn [fst snd is_ok] in *.
  all: destruct IH as [IH1 IH2]; [| | |by split].
  all: try (intros id r; cbn; rewrite dget_dset; case_decide; [intros [= <-]; done|apply O]).
  all: try (intros k id r Hk Hr; unfold next_approval_id; cbn -[String.substring];
    specialize (Hf (S k) id r ltac:(simpl; lia) Hr); unfold next_approval_id in Hf;
    by rewrite <- Nat.add_succ_r).
  all: split; [intros _ id r; cbn; rewrite dget_dset; case_decide; [intros [= <-]; done|apply O]|].
  all: intros id r O0 Hr; destruct Hst as [_ Hst]; destruct (Hst id r O0 Hr) as (r' & Hr' & L').
  all: exists r'; split; [|done]; cbn -[String.substring]; rewrite dget_dset_ne; [done|].
  all: pose proof (Hf 0%nat id r ltac:(simpl; lia) Hr) as Hne; unfold next_approval_id in Hne.
  all: rewrite Nat.add_0_r in Hne; by apply not_eq_sym.
Qed.
End Steps.

(** ** Calls of the approval engine *)

(** One call, whatever its arguments and its outcome; a request draws ids that
    no approval has, the documented behaviour of uuid4. *)
Inductive approval_call `{Env} (s : ApprovalState) : ApprovalState -> Prop :=
| call_request eid qs r s' :
    (forall k, (k < length qs)%nat -> dget (next_approval_id s k) (aw_approvals s) = None) ->
    create_approval_request eid qs s = (r, s') -> approval_call s s'
| call_submit id d c cs r s' : submit_decision id d c cs s = (r, s') -> approval_call s s'
| call_approve eid qs r s' : approve eid qs s = (r, s') -> approval_call s s'
| call_set_clock t : approval_call s (set_clock t s).

Definition approvals_dict (s : ApprovalState) : Prop := dict_ok (aw_approvals s).

Lemma put_approval_dict r : keeps approvals_dict (modify (put_approval r)).
Proof. apply keeps_modify. intros s Hs. unfold approvals_dict. cbn. by apply dset_ok. Qed.

Lemma aw_in_world_dict {A} (m : M World A) : keeps approvals_dict (aw_in_world m).
Proof. intros s Hs. unfold aw_in_world, zoom. by destruct (m (aw_world s)). Qed.
#[export] Hint Resolve put_approval_dict aw_in_world_dict : keeps.

Lemma engine_now_dict `{Env} : keeps approvals_dict engine_now.
Proof. unfold engine_now. keeps_steps. apply aw_in_world_dict. Qed.

Lemma approve_dict `{Env} eid qs : keeps approvals_dict (approve eid qs).
Proof.
  unfold approve, refresh_timeouts, refresh_one. keeps_steps; auto with keeps.
  all: first [apply engine_now_dict|by intros s Hs
             |apply keeps_for_each; intros r; keeps_steps; auto with keeps].
Qed.

Lemma submit_decision_dict `{Env} id d c cs : keeps approvals_dict (submit_decision id d c cs).
Proof.
  unfold submit_decision. keeps_steps; auto using engine_now_dict with keeps.
  intros s Hs. unfold get_approval. by destruct (dget id _).
Qed.

Lemma new_approvals_dict `{Env} eid qs : keeps approvals_dict (new_approvals eid qs).
Proof.
  induction qs as [|q qs IH]; cbn [new_approvals]; [apply keeps_ret|].
  unfold new_approval. keeps_steps; auto with keeps.
Qed.

Lemma create_request_dict `{Env} eid qs : keeps approvals_dict (create_approval_request eid qs).
Proof.
  unfold create_approval_request. keeps_steps; auto using new_approvals_dict.
  apply keeps_modify. by intros s Hs.
Qed.

Lemma approval_call_step `{Env} s s' :
  approval_call s s' -> approvals_dict s -> approvals_ok s ->
  approvals_dict s' /\ approvals_step s s'.
Proof.
  intros [eid qs r s1 Hf E|id d c cs r s1 E|eid qs r s1 E|t] Hd O.
  - split; [pose proof (create_request_dict eid qs s Hd) as Hk; by rewrite E in Hk|].
    destruct (new_approvals_step eid qs s O Hf) as [Hst _]. unfold create_approval_request in E.
    unfold mbind at 1, M_bind at 1 in E. destruct (new_approvals eid qs s) as [[rs|x] s2].
    + unfold modify in E. unfold_monad. injection E as _ <-.
      apply (approvals_step_trans _ s2); [exact Hst|by apply approvals_step_same].
    + by injection E as _ <-.
  - split; [pose proof (submit_decision_dict id d c cs s Hd) as Hk; by rewrite E in Hk|].
    pose proof (submit_decision_step id d c cs s O) as Hs. by rewrite E in Hs.
  - split; [pose proof (approve_dict eid qs s Hd) as Hk; by rewrite E in Hk|].
    pose proof (refresh_timeouts_step s Hd O) as Hs. pose proof (approve_same eid qs s) as Ha.
    rewrite E in Ha. cbn in Ha. by rewrite <- Ha in Hs.
  - split; [done|]. by apply approvals_step_same.
Qed.

Lemma approval_calls_step `{Env} s s' :
  rtc approval_call s s' -> approvals_dict s -> approvals_ok s ->
  approvals_dict s' /\ approvals_step s s'.
Proof.
  induction 1 as [s|s s1 s' Hc _ IH]; intros Hd O; [split; [done|by apply approvals_step_same]|].
  destruct (approval_call_step _ _ Hc Hd O) as [Hd1 H1]. destruct (IH Hd1 (proj1 H1 O)) as [Hd2 H2].
  split; [done|by eapply approvals_step_trans].
Qed.

(** Through any sequence of requests, decisions, approvals (which expire
    pending records) and clock changes, an approval record keeps its id, its
    requirement and the evaluation it belongs to, and once it is decided or
    expired it never changes: a second decision is always refused. *)
Theorem approval_decided_once `{Env} s s' id r :
  rtc approval_call empty_approvals s -> rtc approval_call s s' ->
  dget id (aw_approvals s) = Some r ->
  exists r', dget id (aw_approvals s') = Some r' /\
    ar_requirement r' = ar_requirement r /\ ar_evaluation_id r' = ar_evaluation_id r /\
    (ar_status r <> AS_PENDING ->
     r' = r /\ forall d c cs, exists m, submit_decision id d c cs s' = (Raise (ValueError m), s')).
Proof.
  intros H0 H1 Hr.
  destruct (approval_calls_step _ _ H0) as [Hd [O _]]; [constructor|done|].
  assert (Ho : approvals_ok s) by (by apply O).
  destruct (approval_calls_step _ _ H1 Hd Ho) as [_ [_ Hst]].
  destruct (Hst id r Ho Hr) as (r' & Hr' & (_ & A & B & _ & C)).
  exists r'. split_and!; [done|done|done|]. intros Hs. split; [by apply C|].
  intros d c cs. unfold submit_decision, get_approval, mbind, M_bind. rewrite Hr', (C Hs).
  unfold has_status. rewrite bool_decide_eq_false_2 by done. by eexists.
Qed.

(** ** What [approve] decides *)

(** The requirement is met by the records. *)
Definition requirement_met (records : list ApprovalRecord) (q : ApprovalRequirement) : Prop :=
  (exists r, r ∈ records /\ same_approver q r = true /\
     (aq_required q = true -> ar_status r = AS_APPROVED)) /\
  (forall r, r ∈ records -> same_approver q r = true ->
     ar_status r <> AS_REJECTED /\
     (ar_status r = AS_EXPIRED -> aq_timeout_policy (ar_requirement r) <> DENY_ON_TIMEOUT)).

Lemma existsb_false {A} (p : A -> bool) l :
  existsb p l = false <-> forall x, x ∈ l -> p x = false.
Proof.
  rewrite <- not_true_iff_false, existsb_exists. split.
  - intros H x Hx. destruct (p x) eqn:E; [|done]. destruct H. exists x. by rewrite <- list_elem_of_In.
  - intros H (x & Hx & Hp). rewrite <- list_elem_of_In in Hx. rewrite (H x Hx) in Hp. done.
Qed.

Lemma matching_elem q records r :
  r ∈ List.filter (same_approver q) records <-> r ∈ records /\ same_approver q r = true.
Proof. by rewrite !list_elem_of_In, List.filter_In. Qed.

Lemma decide_requirements_allow records required :
  decide_requirements records required = ALLOW <-> Forall (requirement_met records) required.
Proof.
  induction required as [|q required IH]; simpl; [by split; [constructor|]|].
  rewrite Forall_cons, <- IH. clear IH.
  assert (Hm : requirement_met records q <->
    (exists r, r ∈ List.filter (same_approver q) records /\ (aq_required q = true -> ar_status r = AS_APPROVED)) /\
    existsb (has_status AS_REJECTED) (List.filter (same_approver q) records) = false /\
    existsb (fun r => has_status AS_EXPIRED r && bool_decide (aq_timeout_policy (ar_requirement r) = DENY_ON_TIMEOUT))
      (List.filter (same_approver q) records) = false).
  { rewrite !existsb_false. unfold requirement_met, has_status. setoid_rewrite matching_elem.
    split.
    - intros [(r & H1 & H2 & H3) H4]. split; [eauto|]. split; intros x [Hx1 Hx2].
      + apply bool_decide_eq_false_2. by apply H4.
      + destruct (H4 x Hx1 Hx2) as [_ H5]. apply andb_false_iff. rewrite !bool_decide_eq_false.
        destruct (decide (ar_status x = AS_EXPIRED)); [right; auto|by left].
    - intros ((r & [H1 H2] & H3) & H4 & H5). split; [eauto|]. intros x Hx1 Hx2. split.
      + specialize (H4 x (conj Hx1 Hx2)). by apply bool_decide_eq_false_1 in H4.
      + intros Hs Ht. specialize (H5 x (conj Hx1 Hx2)). rewrite Hs, Ht in H5. done. }
  rewrite Hm. clear Hm. destruct (List.filter (same_approver q) records) as [|r0 rs] eqn:E.
  { split; [done|]. intros [[(r & Hr & _) _] _]. by apply elem_of_nil in Hr. }
  assert (Hne : exists r, r ∈ List.filter (same_approver q) records) by (exists r0; rewrite E; left).
  rewrite <- E. clear E. destruct (existsb (has_status AS_REJECTED) _) eqn:Er; [naive_solver|].
  destruct (existsb (fun r => _ && _) _) eqn:Ex; [naive_solver|].
  destruct (aq_required q) eqn:Eq; simpl.
  - destruct (existsb (has_status AS_APPROVED) _) eqn:Ea; simpl.
    + apply existsb_exists in Ea as (r & Hr%list_elem_of_In & Hs). apply bool_decide_eq_true_1 in Hs.
      split; [intros; split; [|done]; split; [by exists r|done]|by intros [_ ?]].
    + split; [done|]. intros [[(r & Hr & Hs) _] _]. rewrite existsb_false in Ea. specialize (Ea r Hr).
      unfold has_status in Ea. rewrite (Hs eq_refl) in Ea. done.
  - split; [|by intros [_ ?]]. intros ?. split; [|done]. split; [|done].
    destruct Hne as [r Hr]. by exists r.
Qed.

(** An evaluation is allowed after its approvals exactly when every
    requirement has a matching record of the evaluation, an APPROVED one if it
    is required, and no matching record is REJECTED or has EXPIRED under
    DENY_ON_TIMEOUT; so a required approval whose records have all expired
    never allows, whatever their timeout policy, ALLOW_ON_TIMEOUT included. *)
Theorem approve_allows_iff `{Env} eid required s d s' :
  approve eid required s = (Ok d, s') ->
  exists records, approvals_for eid s' = Ok records /\
    (d = ALLOW <-> Forall (requirement_met records) required) /\
    (forall q, q ∈ required -> aq_required q = true ->
       (forall r, r ∈ records -> same_approver q r = true -> ar_status r = AS_EXPIRED) ->
       d <> ALLOW).
Proof.
  intros E. unfold approve in E. apply M_bind_inv in E as ([] & s1 & _ & E).
  apply M_bind_inv in E as (records & s2 & E2 & E). unfold records_for in E2. injection E2 as E2 <-.
  unfold mret, M_ret in E. injection E as <- <-. exists records. rewrite decide_requirements_allow.
  split_and!; [done|done|]. intros q Hq Hreq Hexp HF. rewrite decide_requirements_allow in HF. rewrite Forall_forall in HF.
  destruct (HF q Hq) as [(r & Hr & Hs & Ha) _]. rewrite (Hexp r Hr Hs) in Ha. by specialize (Ha Hreq).
Qed.

(** ** Finalizing an evaluation *)

Section Finalize.
Context `{Env, Builtins}.
Variable decision_digest : GovernanceDecision -> string.
Variable event_digest : AuditEvent -> string.

(** A refused evaluation asks for no approvals. *)
Lemma evaluate_refused_no_approvals r s d s' :
  evaluate decision_digest r s = (Ok d, s') ->
  gv_decision d = DENY \/ gv_decision d = REQUIRE_EVIDENCE -> gv_required_approvals d = [].
Proof.
  unfold evaluate. intros E Hd.
  apply M_bind_inv in E as (rules & s1 & _ & E). apply M_bind_inv in E as (es & s2 & _ & E).
  apply M_bind_inv in E as ([] & s3 & _ & E). apply M_bind_inv in E as (f & s4 & _ & E).
  unfold resolve in E. revert E. repeat case_match; intros E; simplify_eq;
    apply M_bind_inv in E as (now & s5 & _ & E); unfold mret, M_ret in E; injection E as <- _;
    simpl in *; try done; by destruct Hd.
Qed.

Lemma audit_record_ok t a st si ac d ids refs c s :
  is_ok (audit_record event_digest t a st si ac d ids refs c s).1 = true.
Proof. done. Qed.

Lemma kernel_evaluate_decision r s d s' :
  kernel_evaluate decision_digest event_digest r s = (Ok d, s') ->
  (exists g, evaluate decision_digest r (ks_gov s) = (Ok d, g)) /\
  aw_approvals (ks_approvals s') = aw_approvals (ks_approvals s) /\
  aw_evaluation_approvals (ks_approvals s') = aw_evaluation_approvals (ks_approvals s).
Proof.
  intros E. unfold kernel_evaluate in E. apply M_bind_inv in E as (d1 & s1 & E1 & E).
  unfold in_gov, zoom in E1. destruct (evaluate _ _ _) as [o g] eqn:Ev. injection E1 as -> <-.
  unfold change_audit, modify, in_audit, zoom, audit_record, short_id, utcnow in E. unfold_monad.
  injection E as <- <-. by split; [exists g|].
Qed.

End Finalize.

(** C14: finalizing an evaluation that was denied, or that misses evidence,
    turns it into ALLOW: such a decision lists no required approvals, so the
    approval engine has nothing to object; on an engine without approvals the
    finalization does return, with the decision ALLOW. *)
Theorem refused_evaluation_finalized_as_allow `{Env, Builtins} digest edigest r s d s1 st si ac actor :
  kernel_evaluate digest edigest r s = (Ok d, s1) ->
  gv_decision d = DENY \/ gv_decision d = REQUIRE_EVIDENCE ->
  let '(o, s2) := kernel_finalize edigest d st si ac actor s1 in
  (forall f, o = Ok f -> gv_decision f = ALLOW) /\
  (aw_approvals (ks_approvals s) = [] -> aw_evaluation_approvals (ks_approvals s) = [] ->
   is_ok o = true).
Proof.
  intros E Hd. apply kernel_evaluate_decision in E as ((g & Ev) & Ha & He).
  pose proof (evaluate_refused_no_approvals _ _ _ _ _ Ev Hd) as Hreq.
  destruct (kernel_finalize edigest d st si ac actor s1) as [o s2] eqn:Ef. split.
  - intros f ->. unfold kernel_finalize in Ef. apply M_bind_inv in Ef as (final & s3 & E1 & Ef).
    assert (final = ALLOW) as ->.
    { unfold in_approvals, zoom in E1. rewrite Hreq in E1.
      destruct (approve _ [] _) as [o1 a1] eqn:Eap. injection E1 as -> _.
      unfold approve in Eap. apply M_bind_inv in Eap as ([] & a2 & _ & Eap).
      apply M_bind_inv in Eap as (records & a3 & _ & Eap). unfold mret, M_ret in Eap. by injection Eap. }
    apply M_bind_inv in Ef as (records & s4 & _ & Ef). apply M_bind_inv in Ef as ([] & s5 & _ & Ef).
    apply M_bind_inv in Ef as ([] & s6 & _ & Ef). apply M_bind_inv in Ef as (e & s7 & _ & Ef).
    unfold mret, M_ret in Ef. by injection Ef as <- _.
  - intros Ha0 He0. rewrite Ha0 in Ha. rewrite He0 in He.
    unfold kernel_finalize in Ef. rewrite Hreq in Ef. unfold in_approvals, approve, refresh_timeouts, records_for,
      approvals_for, gets, zoom in Ef. unfold mbind at 1, M_bind at 1 in Ef.
    unfold mbind at 1, M_bind at 1 in Ef. unfold mbind at 1, M_bind at 1 in Ef.
    destruct (engine_now_run (ks_approvals s1)) as (t & w & En). rewrite En in Ef. unfold_monad.
    cbn [aw_approvals aw_evaluation_approvals] in Ef. rewrite Ha, He in Ef.
    cbn [dvalues map for_each dget_or dget fold_right] in Ef. unfold_monad. cbn in Ef.
    unfold change_audit, modify, in_audit, zoom, audit_record, short_id, utcnow in Ef.
    unfold_monad. cbn in Ef. by injection Ef as <- _.
Qed.

(** ** The audit chain *)

Section Chain.
Variable event_digest : AuditEvent -> string.

Definition chain_ok (a : AuditState) : Prop := first_broken event_digest "" 0 (au_events a) = None.

Definition last_hash (previous : string) (es : list AuditEvent) : string :=
  match last es with Some e => ae_event_hash e | None => previous end.

Lemma first_broken_app previous i es e :
  first_broken event_digest previous i (es ++ [e]) = None <->
  first_broken event_digest previous i es = None /\
  ae_previous_event_hash e = last_hash previous es /\ event_digest (payload e) = ae_event_hash e.
Proof.
  revert previous i. induction es as [|x es IH]; intros previous i; simpl.
  - repeat case_bool_decide; simpl; naive_solver.
  - repeat case_bool_decide; cbn [negb]; try (split; [done|by intros [? _]]).
    rewrite IH. unfold last_hash. destruct es as [|y es]; [done|].
    cbn [last]. by destruct (last (y :: es)) eqn:El; [|apply last_None in El].
Qed.

Lemma audit_record_chain `{Env} t a st si ac d ids refs c :
  keeps (fun s => chain_ok s.2) (audit_record event_digest t a st si ac d ids refs c).
Proof.
  intros [w s] Hs. unfold audit_record, short_id, utcnow. cbn [fst snd] in *.
  unfold chain_ok in *. cbn [au_events]. apply first_broken_app. split; [done|].
  split; [done|]. reflexivity.
Qed.

Lemma in_audit_chain `{Env} {A} (m : M (World * AuditState) A) :
  keeps (fun s => chain_ok s.2) m -> keeps (fun s => chain_ok (ks_audit s)) (in_audit m).
Proof. intros Hm. by apply (keeps_zoom _ (fun s => chain_ok s.2)). Qed.

Lemma change_audit_chain f :
  (forall a, au_events (f a) = au_events a) -> keeps (fun s => chain_ok (ks_audit s)) (change_audit f).
Proof. intros Hf. apply keeps_modify. intros s Hs. unfold chain_ok in *. cbn. by rewrite Hf. Qed.

Lemma in_gov_chain {A} (m : M GovState A) : keeps (fun s => chain_ok (ks_audit s)) (in_gov m).
Proof. intros s Hs. unfold in_gov, zoom. by destruct (m (ks_gov s)). Qed.
Lemma in_approvals_chain {A} (m : M ApprovalState A) :
  keeps (fun s => chain_ok (ks_audit s)) (in_approvals m).
Proof. intros s Hs. unfold in_approvals, zoom. by destruct (m (ks_approvals s)). Qed.

Lemma dossier_events d r ids a : au_events (record_decision_dossier d r ids a) = au_events a.
Proof. done. Qed.
Lemma attach_events id ids a : au_events (attach_approval_ids id ids a) = au_events a.
Proof. unfold attach_approval_ids. by case_match. Qed.
Lemma finalize_events id v a : au_events (finalize_dossier_decision id v a) = au_events a.
Proof. unfold finalize_dossier_decision. by case_match. Qed.
End Chain.

Create HintDb chain.
#[export] Hint Resolve in_audit_chain audit_record_chain change_audit_chain in_gov_chain
  in_approvals_chain dossier_events attach_events finalize_events : chain.

(** A call of the kernel, whatever its arguments and its outcome. *)
Inductive kernel_call `{Env, Builtins} (digest : GovernanceDecision -> string)
    (edigest : AuditEvent -> string) (s : KernelState) : KernelState -> Prop :=
| kernel_evaluates r o s' : kernel_evaluate digest edigest r s = (o, s') -> kernel_call digest edigest s s'
| kernel_creates d o s' : kernel_create_approvals d s = (o, s') -> kernel_call digest edigest s s'
| kernel_submits id d c a o s' :
    kernel_submit_approval edigest id d c a s = (o, s') -> kernel_call digest edigest s s'
| kernel_finalizes d st si ac a o s' :
    kernel_finalize edigest d st si ac a s = (o, s') -> kernel_call digest edigest s s'
| kernel_revokes id a o s' :
    kernel_revoke_exception edigest id a s = (o, s') -> kernel_call digest edigest s s'.

Lemma kernel_call_chain `{Env, Builtins} digest edigest s s' :
  kernel_call digest edigest s s' -> chain_ok edigest (ks_audit s) -> chain_ok edigest (ks_audit s').
Proof.
  assert (Hall : forall A (m : M KernelState A) o s', m s = (o, s') ->
    keeps (fun s => chain_ok edigest (ks_audit s)) m -> chain_ok edigest (ks_audit s) ->
    chain_ok edigest (ks_audit s')).
  { intros A m o s1 E Hm Hs. specialize (Hm s Hs). by rewrite E in Hm. }
  intros [r o s1 E|d o s1 E|id d c a o s1 E|d st si ac a o s1 E|id a o s1 E];
    (eapply Hall; [exact E|]); clear Hall E.
  - unfold kernel_evaluate. keeps_steps; auto with chain.
  - unfold kernel_create_approvals. keeps_steps; auto with chain.
    apply keeps_for_each. intros x. by apply change_audit_chain.
  - unfold kernel_submit_approval. keeps_steps; auto with chain.
  - unfold kernel_finalize. keeps_steps; auto with chain.
  - unfold kernel_revoke_exception. keeps_steps; auto with chain.
Qed.

Lemma kernel_calls_chain `{Env, Builtins} digest edigest s s' :
  rtc (kernel_call digest edigest) s s' -> chain_ok edigest (ks_audit s) -> chain_ok edigest (ks_audit s').
Proof. induction 1; eauto using kernel_call_chain. Qed.

(** After any sequence of kernel calls (evaluations, approvals,
    finalizations, revocations, with any outcome) the audit chain verifies. *)
Theorem audit_chain_always_intact `{Env, Builtins} digest edigest s :
  rtc (kernel_call digest edigest) empty_kernel s ->
  audit_chain_intact edigest s = true /\ audit_chain_detail edigest s = (true, None).
Proof.
  intros Hr. pose proof (kernel_calls_chain _ _ _ _ Hr eq_refl) as Hc. unfold chain_ok in Hc.
  unfold audit_chain_intact, audit_chain_detail, verify_chain, verify_chain_detail.
  rewrite Hc. by split.
Qed.

Lemma payload_inj e1 e2 :
  payload e1 = payload e2 -> ae_event_hash e1 = ae_event_hash e2 -> e1 = e2.
Proof. destruct e1, e2. unfold payload, set_hashes. simpl. intros H1 H2. injection H1. intros. by subst. Qed.

(** C35: the chain is tamper evident: two stores of the same number of events
    whose chains both verify and which end in the same hash hold the same
    events, provided the digest has no collision among their payloads; so any
    change of a recorded event either breaks the verification or changes the
    last hash. *)
Theorem audit_chain_tamper_evident edigest a1 a2 :
  (forall e1 e2, e1 ∈ au_events a1 -> e2 ∈ au_events a2 ->
     edigest (payload e1) = edigest (payload e2) -> payload e1 = payload e2) ->
  verify_chain edigest a1 = true -> verify_chain edigest a2 = true ->
  length (au_events a1) = length (au_events a2) ->
  last_hash "" (au_events a1) = last_hash "" (au_events a2) ->
  au_events a1 = au_events a2.
Proof.
  unfold verify_chain, verify_chain_detail.
  destruct (first_broken edigest "" 0 (au_events a1)) eqn:E1; [done|].
  destruct (first_broken edigest "" 0 (au_events a2)) eqn:E2; [done|]. intros Hinj _ _.
  revert Hinj E1 E2. generalize (au_events a1) (au_events a2). intros l1.
  induction l1 as [|e1 l1 IH] using rev_ind; intros l2 Hinj E1 E2 Hlen Hlast.
  { by destruct l2. }
  destruct l2 as [|e2 l2 _] using rev_ind; [rewrite length_app in Hlen; simpl in Hlen; lia|].
  rewrite !length_app in Hlen. simpl in Hlen.
  apply first_broken_app in E1 as (E1 & P1 & D1). apply first_broken_app in E2 as (E2 & P2 & D2).
  unfold last_hash in Hlast. rewrite !last_snoc in Hlast.
  assert (e1 = e2) as ->.
  { apply payload_inj; [|done]. apply Hinj; [set_solver..|congruence]. }
  f_equal. apply IH; [|done|done|lia|congruence]. intros; apply Hinj; set_solver.
Qed.

(** ** A sample kernel *)

#[local] Existing Instance gov_env.
#[local] Existing Instance gov_builtins.

Definition human_q : ApprovalRequirement := {|
  aq_approver_type := AT_HUMAN; aq_approver_id := Some "ann"; aq_required := true;
  aq_timeout_policy := ALLOW_ON_TIMEOUT; aq_timeout_duration := Some "PT1S" |}.
Definition requested : ApprovalState := (create_approval_request "eval" [human_q] empty_approvals).2.
Definition approved : ApprovalState :=
  (submit_decision "approval_a012345678" AD_APPROVED None [] requested).2.
Definition overdue : ApprovalState := set_clock 5000000 requested.

Example hours_parse : parse_duration "pt48h " = Ok (of_Z 172800).
Proof. reflexivity. Qed.
Example zero_is_invalid : parse_duration "PT0H" = Raise (ValueError "Invalid duration: PT0H").
Proof. reflexivity. Qed.
Example missing_unit_is_zero : parse_duration "PT48" = Ok fzero.
Proof. reflexivity. Qed.

Lemma approval_decided_once_witness :
  exists m, submit_decision "approval_a012345678" AD_REJECTED None [] approved
            = (Raise (ValueError m), approved).
Proof.
  assert (Hr : rtc approval_call empty_approvals approved).
  { apply (rtc_l _ _ requested).
    - apply (call_request _ "eval" [human_q] (create_approval_request "eval" [human_q] empty_approvals).1);
        [reflexivity|apply surjective_pairing].
    - apply rtc_once.
      exact (call_submit _ "approval_a012345678" AD_APPROVED None [] _ _ (surjective_pairing _)). }
  destruct (dget "approval_a012345678" (aw_approvals approved)) as [r|] eqn:E;
    [|vm_compute in E; discriminate].
  destruct (approval_decided_once approved approved "approval_a012345678" r Hr (rtc_refl _ _) E)
    as (r' & _ & _ & _ & H).
  destruct H as [_ H]; [|apply H]. vm_compute in E. injection E as <-. discriminate.
Defined.

Lemma approve_allows_iff_witness :
  exists d, (approve "eval" [human_q] overdue).1 = Ok d /\ d <> ALLOW.
Proof.
  destruct (approve "eval" [human_q] overdue) as [[d|x] s'] eqn:E; [|vm_compute in E; discriminate].
  exists d. split; [reflexivity|].
  destruct (approve_allows_iff "eval" [human_q] overdue d s' E) as (records & Hr & _ & H).
  apply (H human_q); [by left|reflexivity|]. intros r Hin _.
  vm_compute in E. injection E as _ <-. vm_compute in Hr. injection Hr as <-.
  apply list_elem_of_singleton in Hin as ->. reflexivity.
Defined.

Definition kernel0 : KernelState :=
  {| ks_gov := sample_gov; ks_approvals := empty_approvals; ks_audit := empty_audit |}.
Definition event_text (e : AuditEvent) : string := ae_id e.

Lemma refused_evaluation_finalized_as_allow_witness :
  exists d f, (kernel_evaluate no_digest event_text sample_request kernel0).1 = Ok d /\
    gv_decision d = DENY /\
    (kernel_finalize event_text d "GENOME" "g" "DEPLOY" KERNEL_SERVICE_ACTOR
       (kernel_evaluate no_digest event_text sample_request kernel0).2).1 = Ok f /\
    gv_decision f = ALLOW.
Proof.
  destruct (kernel_evaluate no_digest event_text sample_request kernel0) as [[d|x] s1] eqn:E;
    [|vm_compute in E; discriminate].
  assert (Hd : gv_decision d = DENY) by (vm_compute in E; injection E as <- _; reflexivity).
  pose proof (refused_evaluation_finalized_as_allow no_digest event_text sample_request kernel0 d s1
    "GENOME" "g" "DEPLOY" KERNEL_SERVICE_ACTOR E (or_introl Hd)) as H.
  cbn [snd]. destruct (kernel_finalize event_text d "GENOME" "g" "DEPLOY" KERNEL_SERVICE_ACTOR s1)
    as [[f|x] s2] eqn:Ef.
  - exists d, f. destruct H as [H _]. split_and!; [reflexivity|exact Hd|by rewrite Ef|by apply H].
  - destruct H as [_ H]. specialize (H eq_refl eq_refl). discriminate.
Defined.

Definition kernel1 : KernelState := (kernel_evaluate no_digest event_text sample_request empty_kernel).2.

Lemma audit_chain_always_intact_witness :
  audit_chain_intact event_text kernel1 = true /\ length (au_events (ks_audit kernel1)) = 1%nat.
Proof.
  split; [|reflexivity]. apply (audit_chain_always_intact no_digest event_text kernel1).
  apply rtc_once. exact (kernel_evaluates _ _ _ sample_request _ _ (surjective_pairing _)).
Defined.

(** A store read back from its events. *)
Definition restored (a : AuditState) : AuditState :=
  {| au_events := map (fun e => set_hashes (ae_previous_event_hash e) (ae_event_hash e) e) (au_events a);
     au_by_id := []; au_dossiers := []; au_approvals := [] |}.

Lemma audit_chain_tamper_evident_witness :
  au_events (ks_audit kernel1) = au_events (restored (ks_audit kernel1)).
Proof.
  apply (audit_chain_tamper_evident event_text).
  - intros e1 e2 H1 H2 _. vm_compute in H1, H2.
    apply list_elem_of_singleton in H1 as ->. apply list_elem_of_singleton in H2 as ->. reflexivity.
  - vm_compute. reflexivity.
  - vm_compute. reflexivity.
  - reflexivity.
  - vm_compute. reflexivity.
Defined.
