(* ===== verification/GovVoting.v ===== *)
(** * Governance: votes over approval workflows

    [constitutional_architecture/governance/voting.py] with the workflow
    records of [schemas.py]: ballots, tally strategies and the multi-stage
    vote. *)

From S2P Require Import Prelude PyFloat.

(** ** Data *)

Inductive VotingRuleKind : Set := UNANIMITY | SIMPLE_MAJORITY | WEIGHTED_MAJORITY.

#[export] Instance VotingRuleKind_eq_dec : EqDecision VotingRuleKind.
Proof. solve_decision. Defined.

Definition voting_rule_value (r : VotingRuleKind) : string :=
  match r with
  | UNANIMITY => "unanimity" | SIMPLE_MAJORITY => "simple_majority"
  | WEIGHTED_MAJORITY => "weighted_majority"
  end.

Record ApprovalStageISR : Set := {
  st_stage_id : string;
  st_approvers : list string;
  st_rule : VotingRuleKind;
  st_weights : list (string * float);
}.

Record ApprovalWorkflowISR : Set := {
  wf_workflow_id : string;
  wf_purpose : string;
  wf_stages : list ApprovalStageISR;
  wf_quorum : Z;
  wf_deadline : option Z;
  wf_escalation_target : option string;
}.

Record Ballot : Set := {
  bl_ballot_id : string;
  bl_stage_id : string;
  bl_voter : string;
  bl_approve : bool;
  bl_cast_at : Z;
}.

Record StageResult : Set := {
  sg_stage_id : string;
  sg_approved : bool;
  sg_votes_for : float;
  sg_votes_against : float;
  sg_participating : nat;
  sg_quorum_met : bool;
  sg_reason : string;
}.

Record VoteOutcome : Set := {
  vo_workflow_ref : string;
  vo_approved : bool;
  vo_decided_at : Z;
  vo_reason : string;
  vo_stage_results : list StageResult;
}.

(** ** Tally strategies *)

(** [evaluate(stage, ballots, quorum)]. *)
Definition TallyStrategy : Type := ApprovalStageISR -> list Ballot -> Z -> StageResult.

Definition quorum_not_met (s : ApprovalStageISR) (bs : list Ballot) : StageResult :=
  {| sg_stage_id := st_stage_id s; sg_approved := false; sg_votes_for := fzero;
     sg_votes_against := fzero; sg_participating := length bs; sg_quorum_met := false;
     sg_reason := "quorum_not_met" |}.

Definition stage_result (s : ApprovalStageISR) (bs : list Ballot) (ok : bool) (f a : float)
    (reason : string) : StageResult :=
  {| sg_stage_id := st_stage_id s; sg_approved := ok; sg_votes_for := f; sg_votes_against := a;
     sg_participating := length bs; sg_quorum_met := true; sg_reason := reason |}.

(** [float(sum(1 for b in ballots if b.approve))] and the other ballots. *)
Definition votes_for (bs : list Ballot) : float := of_nat (length (List.filter bl_approve bs)).
Definition votes_against (bs : list Ballot) : float := fsub (of_nat (length bs)) (votes_for bs).

Definition UnanimityTally : TallyStrategy := fun s bs quorum =>
  if (Z.of_nat (length bs) <? quorum)%Z then quorum_not_met s bs
  else if fltb fzero (votes_against bs) then
    stage_result s bs false (votes_for bs) (votes_against bs) "unanimity_broken"
  else stage_result s bs true (votes_for bs) fzero "unanimous".

Definition SimpleMajorityTally : TallyStrategy := fun s bs quorum =>
  if (Z.of_nat (length bs) <? quorum)%Z then quorum_not_met s bs
  else
    let approved := fltb (votes_against bs) (votes_for bs) in
    stage_result s bs approved (votes_for bs) (votes_against bs)
      (if approved then "simple_majority" else "tie_or_minority").

Definition weight_sum (s : ApprovalStageISR) (bs : list Ballot) : float :=
  fsum (map (fun b => dget_or (bl_voter b) (st_weights s) (of_Z 1)) bs).

Definition WeightedMajorityTally : TallyStrategy := fun s bs quorum =>
  if (Z.of_nat (length bs) <? quorum)%Z then quorum_not_met s bs
  else
    let f := weight_sum s (List.filter bl_approve bs) in
    let a := weight_sum s (List.filter (fun b => negb (bl_approve b)) bs) in
    let total := fadd f a in
    let approved := fltb fzero total && fltb (fdiv total (of_Z 2)) f in
    stage_result s bs approved f a
      (if approved then "weighted_majority" else "weighted_tie_or_minority").

Definition default_strategies : list (VotingRuleKind * TallyStrategy) :=
  [(UNANIMITY, UnanimityTally); (SIMPLE_MAJORITY, SimpleMajorityTally);
   (WEIGHTED_MAJORITY, WeightedMajorityTally)].

(** ** VotingSystem *)

(** The order of [sorted(ballots, key=lambda b: (b.stage_id, b.ballot_id))]. *)
Definition ballot_key (b : Ballot) : string * string := (bl_stage_id b, bl_ballot_id b).
Definition ballot_leb (a b : Ballot) : bool := pair_leb (ballot_key a) (ballot_key b).

Definition late (deadline : option Z) (b : Ballot) : bool :=
  match deadline with Some d => (d <? bl_cast_at b)%Z | None => false end.

(** The loop of [_group_valid_ballots]. *)
Fixpoint group_loop (deadline : option Z) (known : list string) (seen : list (string * string))
    (valid : list (string * list Ballot)) (bs : list Ballot) : res (list (string * list Ballot)) :=
  match bs with
  | [] => Ok valid
  | b :: bs' =>
      if negb (mem (bl_stage_id b) known) then
        Raise (VotingError ("unknown_stage:" +:+ bl_stage_id b))
      else if mem (bl_stage_id b, bl_voter b) seen then
        Raise (VotingError ("duplicate_voter:" +:+ bl_voter b +:+ ":stage:" +:+ bl_stage_id b))
      else if late deadline b then group_loop deadline known seen valid bs'
      else group_loop deadline known ((bl_stage_id b, bl_voter b) :: seen)
             (dset (bl_stage_id b) (dget_or (bl_stage_id b) valid [] ++ [b]) valid) bs'
  end.

Definition group_valid_ballots (w : ApprovalWorkflowISR) (ballots : list Ballot) :
    res (list (string * list Ballot)) :=
  group_loop (wf_deadline w) (map st_stage_id (wf_stages w)) [] [] (sort_by ballot_leb ballots).

(** The loop over the stages, in declared order. *)
Fixpoint run_stages (strategies : list (VotingRuleKind * TallyStrategy)) (w : ApprovalWorkflowISR)
    (now : Z) (by_stage : list (string * list Ballot)) (results : list StageResult)
    (stages : list ApprovalStageISR) : VoteOutcome :=
  match stages with
  | [] => {| vo_workflow_ref := wf_workflow_id w; vo_approved := true; vo_decided_at := now;
             vo_reason := "all_stages_approved"; vo_stage_results := results |}
  | s :: stages' =>
      match dget (st_rule s) strategies with
      | None => {| vo_workflow_ref := wf_workflow_id w; vo_approved := false; vo_decided_at := now;
                   vo_reason := "no_strategy_for_rule:" +:+ voting_rule_value (st_rule s);
                   vo_stage_results := results |}
      | Some strategy =>
          let r := strategy s (dget_or (st_stage_id s) by_stage []) (wf_quorum w) in
          if sg_approved r then run_stages strategies w now by_stage (results ++ [r]) stages'
          else {| vo_workflow_ref := wf_workflow_id w; vo_approved := false; vo_decided_at := now;
                  vo_reason := "stage_rejected:" +:+ st_stage_id s +:+ ":" +:+ sg_reason r;
                  vo_stage_results := results ++ [r] |}
      end
  end.

(** [VotingSystem(strategies)]: no or no strategies are the default ones. *)
Definition VotingSystem (strategies : list (VotingRuleKind * TallyStrategy)) :
    list (VotingRuleKind * TallyStrategy) :=
  match strategies with [] => default_strategies | _ => strategies end.

Definition conduct_vote (strategies : list (VotingRuleKind * TallyStrategy))
    (w : ApprovalWorkflowISR) (ballots : list Ballot) (now : Z) : res VoteOutcome :=
  let refuse reason := Ok {| vo_workflow_ref := wf_workflow_id w; vo_approved := false;
    vo_decided_at := now; vo_reason := reason; vo_stage_results := [] |} in
  if match wf_deadline w with Some d => (d <? now)%Z | None => false end then
    refuse "deadline_expired"
  else match wf_stages w with
       | [] => refuse "workflow_has_no_stages"
       | _ =>
           by_stage ← group_valid_ballots w ballots;
           mret (run_stages (VotingSystem strategies) w now by_stage [] (wf_stages w))
       end.

(** ** The ballots of a stage *)

(** The on-time ballots of a stage, in the order of their ids. *)
Definition stage_ballots (deadline : option Z) (id : string) (bs : list Ballot) : list Ballot :=
  List.filter (fun b => bool_decide (bl_stage_id b = id) && negb (late deadline b)) bs.

Lemma group_loop_spec dl known bs seen valid r :
  group_loop dl known seen valid bs = Ok r ->
  (forall b, b ∈ bs -> bl_stage_id b ∈ known) /\
  (forall id, dget_or id r [] = dget_or id valid [] ++ stage_ballots dl id bs) /\
  (forall id, NoDup (map bl_voter (stage_ballots dl id bs))) /\
  (forall b, b ∈ bs -> late dl b = false -> (bl_stage_id b, bl_voter b) ∉ seen).
Proof.
  revert seen valid. induction bs as [|b bs IH]; intros seen valid H; simpl in H.
  { injection H as <-. split_and!; [set_solver| |constructor|set_solver].
    intros. by rewrite app_nil_r. }
  destruct (mem (bl_stage_id b) known) eqn:Ek; [|done]; cbn [negb] in H. apply mem_true in Ek.
  destruct (mem (bl_stage_id b, bl_voter b) seen) eqn:Es; [done|]. apply mem_false in Es.
  destruct (late dl b) eqn:El; destruct (IH _ _ H) as (H1 & H2 & H3 & H4).
  - split_and!.
    + intros b0 [->|?]%elem_of_cons; auto.
    + intros id. rewrite H2. unfold stage_ballots. simpl. by rewrite El, andb_false_r.
    + intros id. unfold stage_ballots. simpl. rewrite El, andb_false_r. apply H3.
    + intros b0 [->|?]%elem_of_cons; [congruence|auto].
  - split_and!.
    + intros b0 [->|?]%elem_of_cons; auto.
    + intros id. rewrite H2. unfold dget_or at 1 3. rewrite dget_dset. unfold stage_ballots. simpl.
      rewrite El, andb_true_r. destruct (decide (id = bl_stage_id b)) as [->|Hne].
      * rewrite bool_decide_eq_true_2 by done. by rewrite <- app_assoc.
      * by rewrite bool_decide_eq_false_2 by congruence.
    + intros id. unfold stage_ballots. simpl. rewrite El, andb_true_r.
      case_bool_decide as Hid; [|apply H3]. simpl. constructor; [|apply H3]. subst id.
      intros (b0 & Hv & Hin%list_elem_of_In)%list_elem_of_fmap.
      apply List.filter_In in Hin as [Hin Hp%andb_true_iff]. apply list_elem_of_In in Hin.
      destruct Hp as [Hp%bool_decide_eq_true_1 Hl%negb_true_iff].
      apply (H4 b0 Hin Hl). rewrite Hp, <- Hv. left.
    + intros b0 [->|Hb]%elem_of_cons Hl Hin; [done|]. apply (H4 b0 Hb Hl). by right.
Qed.

Lemma run_stages_approved strategies w now by_stage results stages :
  vo_approved (run_stages strategies w now by_stage results stages) = true <->
  forall s, s ∈ stages -> exists t, dget (st_rule s) strategies = Some t /\
    sg_approved (t s (dget_or (st_stage_id s) by_stage []) (wf_quorum w)) = true.
Proof.
  revert results. induction stages as [|s stages IH]; intros results; simpl; [set_solver|].
  setoid_rewrite elem_of_cons.
  destruct (dget (st_rule s) strategies) as [t|] eqn:Et.
  2: { split; [done|]. intros H. destruct (H s) as (t & Ht & _); [by left|congruence]. }
  destruct (sg_approved _) eqn:Ea.
  - rewrite IH. split; intros H; [|auto]. intros s' [->|Hs]; eauto.
  - split; [done|]. intros H. destruct (H s) as (t' & Ht' & Ha); [by left|congruence].
Qed.

(** ** The order of ballots *)

Lemma pair_leb_spec a b :
  pair_leb a b = true <-> a = b \/ String.compare a.1 b.1 = Lt \/
    (a.1 = b.1 /\ String.compare a.2 b.2 = Lt).
Proof.
  destruct a as [a1 a2], b as [b1 b2]. unfold pair_leb, str_leb. simpl.
  destruct (String.compare a1 b1) eqn:E1.
  - apply String.compare_eq_iff in E1 as ->.
    destruct (String.compare a2 b2) eqn:E2.
    + apply String.compare_eq_iff in E2 as ->. by split; [left|].
    + split; [auto|done].
    + split; [done|]. intros [[= ->]|[?|[_ ?]]]; [|done|done]. by rewrite string_compare_refl in E2.
  - split; [auto|done].
  - split; [done|]. intros [[= -> ->]|[?|[-> ?]]]; [|done|]; by rewrite string_compare_refl in E1.
Qed.

Lemma pair_leb_total a b : pair_leb a b = false -> pair_leb b a = true.
Proof.
  unfold pair_leb, str_leb. rewrite (String.compare_antisym b.1 a.1), (String.compare_antisym b.2 a.2).
  by destruct (String.compare a.1 b.1), (String.compare a.2 b.2).
Qed.

Lemma pair_leb_trans a b c : pair_leb a b = true -> pair_leb b c = true -> pair_leb a c = true.
Proof.
  rewrite !pair_leb_spec. intros [->|[H1|[H1 H1']]] [->|[H2|[H2 H2']]]; auto.
  - right. left. by eapply string_compare_trans.
  - right. left. by rewrite <- H2.
  - right. left. by rewrite H1.
  - right. right. split; [congruence|by eapply string_compare_trans].
Qed.

Lemma pair_leb_antisym a b : pair_leb a b = true -> pair_leb b a = true -> a = b.
Proof.
  rewrite !pair_leb_spec. intros [->|H1] H2; [done|]. destruct H2 as [->|H2]; [done|].
  assert (Hx : forall s, String.compare s s = Lt -> False) by (intros s; by rewrite string_compare_refl).
  exfalso. destruct H1 as [H1|[H1 H1']], H2 as [H2|[H2 H2']].
  - eapply Hx, string_compare_trans; eauto.
  - rewrite H2 in H1. eauto.
  - rewrite H1 in H2. eauto.
  - eapply Hx, string_compare_trans; eauto.
Qed.

Lemma NoDup_map_inj {A B} (f : A -> B) l x y :
  NoDup (map f l) -> x ∈ l -> y ∈ l -> f x = f y -> x = y.
Proof.
  induction l as [|z l IH]; simpl; [set_solver|]. rewrite NoDup_cons, !elem_of_cons.
  intros [Hz Hnd] [->|Hx] [->|Hy] Hf; [done| | |auto].
  - destruct Hz. rewrite Hf. by apply (list_elem_of_fmap_2 f).
  - destruct Hz. rewrite <- Hf. by apply (list_elem_of_fmap_2 f).
Qed.

Lemma sort_ballots_perm bs1 bs2 :
  NoDup (map ballot_key bs1) -> bs1 ≡ₚ bs2 -> sort_by ballot_leb bs1 = sort_by ballot_leb bs2.
Proof.
  intros Hnd HP. apply sort_by_permutation; [| | |done].
  - intros x y. apply pair_leb_total.
  - intros x y z. apply pair_leb_trans.
  - intros x y Hx Hy H1 H2. pose proof (pair_leb_antisym _ _ H1 H2) as Hk.
    by apply (NoDup_map_inj ballot_key bs1).
Qed.

Lemma stage_ballots_perm dl id bs1 bs2 : bs1 ≡ₚ bs2 -> stage_ballots dl id bs1 ≡ₚ stage_ballots dl id bs2.
Proof.
  unfold stage_ballots. induction 1 as [|x l1 l2 _ IH|x y l|l1 l2 l3 _ IH1 _ IH2]; simpl.
  - done.
  - by destruct (_ && _); rewrite IH.
  - destruct (_ && _), (_ && _); try done. apply perm_swap.
  - by rewrite IH1.
Qed.

(** ** Counting votes exactly *)

Lemma filter_split (bs : list Ballot) :
  (length (List.filter bl_approve bs) + length (List.filter (fun b => negb (bl_approve b)) bs)
   = length bs)%nat.
Proof. induction bs as [|b bs IH]; simpl; [done|]. destruct (bl_approve b); simpl; lia. Qed.

Lemma small_nat n : (Z.of_nat n < 2 ^ f_prec)%Z -> small (Z.of_nat n).
Proof. unfold small. lia. Qed.

Lemma votes_against_count bs :
  (Z.of_nat (length bs) < 2 ^ f_prec)%Z ->
  votes_against bs = of_nat (length (List.filter (fun b => negb (bl_approve b)) bs)).
Proof.
  intros Hs. pose proof (filter_split bs). unfold votes_against, votes_for, of_nat.
  rewrite fsub_of_Z; [f_equal; lia|apply small_nat; lia..|].
  replace (_ - _)%Z with (Z.of_nat (length (List.filter (fun b => negb (bl_approve b)) bs))) by lia.
  apply small_nat. lia.
Qed.

(** A stage passes with the ballots [bs]: what each rule promises. *)
Definition stage_passes (s : ApprovalStageISR) (quorum : Z) (bs : list Ballot) : Prop :=
  (quorum <= Z.of_nat (length bs))%Z /\
  match st_rule s with
  | UNANIMITY => Forall (fun b => bl_approve b = true) bs
  | SIMPLE_MAJORITY => (length bs < 2 * length (List.filter bl_approve bs))%nat
  | WEIGHTED_MAJORITY =>
      let f := weight_sum s (List.filter bl_approve bs) in
      let total := fadd f (weight_sum s (List.filter (fun b => negb (bl_approve b)) bs)) in
      fltb fzero total = true /\ fltb (fdiv total (of_Z 2)) f = true
  end.

Lemma no_against (bs : list Ballot) :
  length (List.filter (fun b => negb (bl_approve b)) bs) = 0%nat <->
  Forall (fun b => bl_approve b = true) bs.
Proof.
  induction bs as [|b bs IH]; simpl; [split; [constructor|done]|]. rewrite Forall_cons.
  destruct (bl_approve b); simpl; [rewrite IH; naive_solver|]. split; [done|naive_solver].
Qed.

Lemma default_tally_passes s quorum bs :
  (Z.of_nat (length bs) < 2 ^ f_prec)%Z ->
  (exists t, dget (st_rule s) default_strategies = Some t /\ sg_approved (t s bs quorum) = true)
  <-> stage_passes s quorum bs.
Proof.
  intros Hs. pose proof (votes_against_count bs Hs) as Ha. pose proof (filter_split bs) as Hf.
  unfold stage_passes, default_strategies. simpl.
  destruct (st_rule s); simpl; (split; [intros (t & [= <-] & H)|intros [Hq H]; eexists; split; [done|]]);
    unfold UnanimityTally, SimpleMajorityTally, WeightedMajorityTally in *;
    (destruct (Z.ltb_spec (Z.of_nat (length bs)) quorum); [done || lia|]).
  all: rewrite ?Ha in *; unfold votes_for, of_nat in *.
  - split; [lia|]. apply no_against.
    change fzero with (of_Z 0) in H. rewrite fltb_of_Z in H by (done || (apply small_nat; lia)).
    destruct (Z.ltb_spec 0 (Z.of_nat (length (List.filter (λ b, negb (bl_approve b)) bs)))); [done|lia].
  - apply no_against in H. change fzero with (of_Z 0). rewrite fltb_of_Z by (done || (apply small_nat; lia)).
    destruct (Z.ltb_spec 0 (Z.of_nat (length (List.filter (λ b, negb (bl_approve b)) bs)))); [lia|done].
  - split; [lia|]. cbn [sg_approved stage_result] in H.
    rewrite fltb_of_Z in H by (apply small_nat; lia). apply Z.ltb_lt in H. lia.
  - cbn [sg_approved stage_result]. rewrite fltb_of_Z by (apply small_nat; lia). apply Z.ltb_lt. lia.
  - split; [lia|]. by apply andb_true_iff in H.
  - by apply andb_true_iff.
Qed.

(** ** Properties *)

(** The outcome of a vote does not depend on the order in which the
    ballots are given, as long as no two ballots share stage and ballot id:
    every permutation gives the same outcome, or the same error. *)
Theorem vote_order_independent strategies w bs1 bs2 now :
  NoDup (map ballot_key bs1) -> bs1 ≡ₚ bs2 ->
  conduct_vote strategies w bs1 now = conduct_vote strategies w bs2 now.
Proof.
  intros Hnd HP. unfold conduct_vote, group_valid_ballots. by rewrite (sort_ballots_perm bs1 bs2).
Qed.

Lemma group_valid_ballots_spec w bs r :
  group_valid_ballots w bs = Ok r ->
  (forall b, b ∈ bs -> bl_stage_id b ∈ map st_stage_id (wf_stages w)) /\
  (forall id, dget_or id r [] = stage_ballots (wf_deadline w) id (sort_by ballot_leb bs)) /\
  (forall id, NoDup (map bl_voter (stage_ballots (wf_deadline w) id bs))).
Proof.
  intros H. apply group_loop_spec in H as (H1 & H2 & H3 & _). split_and!.
  - intros b Hb. apply H1. by rewrite sort_by_elem.
  - intros id. by rewrite H2.
  - intros id. specialize (H3 id).
    by rewrite (Permutation_map bl_voter (stage_ballots_perm (wf_deadline w) id _ _ (sort_by_perm ballot_leb bs)))
      in H3.
Qed.

(** With the default strategies a vote that renders a decision approves
    exactly when the deadline has not passed, the workflow has a stage, and
    every stage passes with its on-time ballots: the quorum is reached and all
    approve (UNANIMITY), strictly more than half approve (SIMPLE_MAJORITY) or
    the approving weight is more than half of the positive total weight
    (WEIGHTED_MAJORITY); and no voter is counted twice in a stage. *)
Theorem vote_approval_iff w bs now o :
  conduct_vote [] w bs now = Ok o ->
  (Z.of_nat (length bs) < 2 ^ f_prec)%Z ->
  (vo_approved o = true <->
   (forall d, wf_deadline w = Some d -> (now <= d)%Z) /\ wf_stages w <> [] /\
   forall s, s ∈ wf_stages w ->
     let bs_s := stage_ballots (wf_deadline w) (st_stage_id s) (sort_by ballot_leb bs) in
     NoDup (map bl_voter bs_s) /\ stage_passes s (wf_quorum w) bs_s).
Proof.
  intros E Hsmall. unfold conduct_vote in E.
  destruct (match wf_deadline w with Some d => (d <? now)%Z | None => false end) eqn:Ed.
  { injection E as <-. split; [done|]. intros (Hd & _). destruct (wf_deadline w) as [d|]; [|done].
    specialize (Hd d eq_refl). apply Z.ltb_lt in Ed. lia. }
  assert (Hd : forall d, wf_deadline w = Some d -> (now <= d)%Z).
  { intros d Hd. rewrite Hd in Ed. apply Z.ltb_ge in Ed. lia. }
  destruct (wf_stages w) as [|s0 ss] eqn:Es.
  { injection E as <-. split; [done|]. by intros (_ & Hn & _). }
  destruct (group_valid_ballots w bs) as [r|x] eqn:Eg; [|done]. unfold mbind, res_bind, mret, res_ret in E.
  assert (o = run_stages default_strategies w now r [] (s0 :: ss)) as -> by (cbn [VotingSystem] in E; congruence).
  pose proof Eg as Eg'. apply group_loop_spec in Eg' as (_ & _ & Hv & _).
  apply group_valid_ballots_spec in Eg as (_ & Hr & _).
  rewrite (run_stages_approved _ _ _ _ [] (s0 :: ss)).
  assert (Hlen : forall id, (Z.of_nat (length (stage_ballots (wf_deadline w) id (sort_by ballot_leb bs)))
                             < 2 ^ f_prec)%Z).
  { intros id. unfold stage_ballots. pose proof (List.filter_length_le (fun b =>
      bool_decide (bl_stage_id b = id) && negb (late (wf_deadline w) b)) (sort_by ballot_leb bs)) as Hl.
    rewrite (Permutation_length (sort_by_perm ballot_leb bs)) in Hl. lia. }
  split.
  - intros H. split; [done|]. split; [done|]. intros s Hs. split; [apply Hv|].
    apply default_tally_passes; [done|]. rewrite <- Hr. by apply H.
  - intros (_ & _ & H) s Hs. rewrite Hr. apply default_tally_passes; [done|]. by apply H.
Qed.

(** [w] with other approvers in its stages. *)
Definition set_approvers (f : ApprovalStageISR -> list string) (w : ApprovalWorkflowISR) :
    ApprovalWorkflowISR :=
  {| wf_workflow_id := wf_workflow_id w; wf_purpose := wf_purpose w;
     wf_stages := map (fun s => {| st_stage_id := st_stage_id s; st_approvers := f s;
                                   st_rule := st_rule s; st_weights := st_weights s |}) (wf_stages w);
     wf_quorum := wf_quorum w; wf_deadline := wf_deadline w;
     wf_escalation_target := wf_escalation_target w |}.

Lemma default_tally_approvers s a t bs q :
  dget (st_rule s) default_strategies = Some t ->
  t {| st_stage_id := st_stage_id s; st_approvers := a; st_rule := st_rule s;
       st_weights := st_weights s |} bs q = t s bs q.
Proof. unfold default_strategies. destruct (st_rule s); intros [= <-]; reflexivity. Qed.

Lemma run_stages_approvers w f now by_stage results stages :
  run_stages default_strategies (set_approvers f w) now by_stage results
    (map (fun s => {| st_stage_id := st_stage_id s; st_approvers := f s;
                      st_rule := st_rule s; st_weights := st_weights s |}) stages)
  = run_stages default_strategies w now by_stage results stages.
Proof.
  revert results. induction stages as [|s stages IH]; intros results; [done|]. cbn [map run_stages].
  cbn [st_rule st_stage_id set_approvers wf_quorum wf_workflow_id].
  destruct (dget (st_rule s) default_strategies) as [t|] eqn:E; [|done].
  rewrite (default_tally_approvers s (f s) t) by done. cbv zeta.
  destruct (sg_approved _); [apply IH|done].
Qed.

(** The approvers a stage names are never looked at: whoever they are,
    the same ballots give the same outcome, so a ballot of a voter who is not
    an approver counts like any other. *)
Theorem approvers_not_checked w f bs now :
  conduct_vote [] (set_approvers f w) bs now = conduct_vote [] w bs now.
Proof.
  unfold conduct_vote, VotingSystem. cbn [wf_deadline set_approvers wf_workflow_id].
  destruct (match wf_deadline w with Some d => _ | None => _ end); [done|].
  cbn [wf_stages set_approvers]. destruct (wf_stages w) as [|s ss] eqn:Es; [done|].
  assert (Hg : group_valid_ballots (set_approvers f w) bs = group_valid_ballots w bs).
  { unfold group_valid_ballots. cbn [wf_deadline wf_stages set_approvers]. rewrite map_map.
    by f_equal. }
  rewrite Hg. destruct (group_valid_ballots w bs) as [r|x]; [|done].
  unfold mbind, res_bind, mret, res_ret. f_equal. apply (run_stages_approvers w f now r [] (s :: ss)).
Qed.

Lemma late_not_on_time d b : (d < bl_cast_at b)%Z -> late (Some d) b = true.
Proof. simpl. intros. by apply Z.ltb_lt. Qed.

(** A second ballot of a voter that comes after the deadline is dropped
    only when its id sorts first; when the id of the on-time ballot sorts
    first, the late ballot is a duplicate and the whole vote raises. *)
Theorem late_ballot_raises w bs_on bs_late d now :
  wf_deadline w = Some d -> (now <= d)%Z ->
  bl_stage_id bs_on ∈ map st_stage_id (wf_stages w) ->
  bl_stage_id bs_late = bl_stage_id bs_on -> bl_voter bs_late = bl_voter bs_on ->
  (bl_cast_at bs_on <= d)%Z -> (d < bl_cast_at bs_late)%Z ->
  bl_ballot_id bs_late <> bl_ballot_id bs_on ->
  conduct_vote [] w [bs_on; bs_late] now =
    if ballot_leb bs_on bs_late
    then Raise (VotingError ("duplicate_voter:" +:+ bl_voter bs_on +:+ ":stage:" +:+ bl_stage_id bs_on))
    else conduct_vote [] w [bs_on] now.
Proof.
  intros Hd Hnow Hk Hst Hv Hon Hlate Hne.
  assert (L1 : late (Some d) bs_on = false) by (simpl; apply Z.ltb_ge; lia).
  pose proof (late_not_on_time d bs_late Hlate) as L2.
  unfold conduct_vote, group_valid_ballots. rewrite Hd.
  assert ((d <? now)%Z = false) as -> by (apply Z.ltb_ge; lia).
  destruct (wf_stages w) as [|s ss] eqn:Es; [by apply elem_of_nil in Hk|].
  apply mem_true in Hk. cbn [sort_by insert_by].
  destruct (ballot_leb bs_on bs_late); cbn [group_loop]; rewrite ?Hst, ?Hv, Hk, L1, ?L2; cbn [negb].
  - cbn [mem]. unfold mem at 1. rewrite bool_decide_eq_false_2 by set_solver.
    unfold mem. by rewrite bool_decide_eq_true_2 by left.
  - done.
Qed.

(** ** A sample workflow *)

Definition sample_stage (rule : VotingRuleKind) : ApprovalStageISR :=
  {| st_stage_id := "board"; st_approvers := ["alice"; "bob"]; st_rule := rule; st_weights := [] |}.
Definition sample_workflow (rule : VotingRuleKind) : ApprovalWorkflowISR :=
  {| wf_workflow_id := "w"; wf_purpose := ""; wf_stages := [sample_stage rule]; wf_quorum := 2;
     wf_deadline := Some 10%Z; wf_escalation_target := None |}.
Definition sample_ballot (id voter : string) (approve : bool) (t : Z) : Ballot :=
  {| bl_ballot_id := id; bl_stage_id := "board"; bl_voter := voter; bl_approve := approve;
     bl_cast_at := t |}.
Definition sample_ballots : list Ballot :=
  [sample_ballot "b3" "carol" true 1; sample_ballot "b1" "mallory" true 2;
   sample_ballot "b2" "dave" false 3].

Lemma vote_order_independent_witness :
  conduct_vote [] (sample_workflow SIMPLE_MAJORITY) (rev sample_ballots) 5
  = conduct_vote [] (sample_workflow SIMPLE_MAJORITY) sample_ballots 5.
Proof.
  apply (vote_order_independent [] (sample_workflow SIMPLE_MAJORITY) (rev sample_ballots)).
  - by apply (bool_decide_unpack _).
  - symmetry. apply Permutation_rev.
Defined.

Lemma vote_approval_iff_witness :
  exists o, conduct_vote [] (sample_workflow SIMPLE_MAJORITY) sample_ballots 5 = Ok o /\
    vo_approved o = true.
Proof.
  destruct (conduct_vote [] (sample_workflow SIMPLE_MAJORITY) sample_ballots 5) as [o|x] eqn:E;
    [|vm_compute in E; discriminate].
  exists o. split; [reflexivity|]. apply (vote_approval_iff _ _ _ _ E).
  - vm_compute. reflexivity.
  - split; [|split].
    + intros d [= <-]. lia.
    + discriminate.
    + intros s Hs. apply list_elem_of_singleton in Hs as ->. split.
      * by apply (bool_decide_unpack _).
      * split; vm_compute; [discriminate|lia].
Defined.

Lemma late_ballot_raises_witness :
  conduct_vote [] (sample_workflow UNANIMITY)
    [sample_ballot "b1" "alice" true 1; sample_ballot "b2" "alice" true 11] 5
  = Raise (VotingError "duplicate_voter:alice:stage:board").
Proof.
  rewrite (late_ballot_raises (sample_workflow UNANIMITY) _ _ 10 5);
    [reflexivity|reflexivity|lia|by left|reflexivity|reflexivity|simpl; lia|simpl; lia|discriminate].
Defined.
