(* ===== verification/GovEvidence.v ===== *)
(** * Governance: the evidence ledger and the compliance report log

    The second half of [constitutional_architecture/governance/audit.py]
    (AuditEvidenceRecorder, ComplianceReportLog) with its records from
    [schemas.py].  sha256 over the canonical JSON of a payload is the parameter
    [canonical_payload_hash]. *)

From S2P Require Import Prelude PyFloat PyVal FinModels GovModels.

Record AuditEvidenceISR : Set := {
  ev_evidence_id : string;
  ev_recorded_at : Z;
  ev_actor : string;
  ev_event_kind : string;
  ev_subject_ref : string;
  ev_payload_hash : string;
  ev_chain_link : option string;
  ev_signature : option string;
  ev_signer_id : option string;
}.

Record ComplianceReportISR : Set := {
  cr_report_id : string;
  cr_policy_set_ref : string;
  cr_subject : string;
  cr_evaluated_at : Z;
  cr_outcome : string;
  cr_violations : list pyval;
  cr_evidence_refs : list string;
}.

(** [self._entries] of the recorder. *)
Abbreviation EvidenceEntries := (list (AuditEvidenceISR * pydict)).

(** [f"ev-{uuid.uuid4().hex[:12]}"]. *)
Definition evidence_id `{Env} : M World string := fun w =>
  (Ok ("ev-" +:+ String.substring 0 12 (uuid_hex (uuids_drawn w))),
   {| uuids_drawn := S (uuids_drawn w); clock_reads := clock_reads w |}).

Definition optional_text (o : option string) : pyval :=
  match o with Some s => VStr s | None => VNone end.

(** [{**payload, "chain_link": link}]. *)
Definition linked_payload (payload : pydict) (link : option string) : pydict :=
  dset "chain_link" (optional_text link) payload.

Section Recorder.
Context `{Env}.
Variable canonical_payload_hash : pydict -> string.

Definition last_evidence_id (es : EvidenceEntries) : option string :=
  ev_evidence_id ∘ fst <$> last es.

Definition record (actor event_kind subject_ref : string) (payload : pydict) (recorded_at : Z)
    : M (EvidenceEntries * World) AuditEvidenceISR :=
  chain_link ← gets (fun s => last_evidence_id s.1);
  let payload_hash := canonical_payload_hash (linked_payload payload chain_link) in
  id ← zoom snd (fun w s => (s.1, w)) evidence_id;
  let evidence := {| ev_evidence_id := id; ev_recorded_at := recorded_at; ev_actor := actor;
    ev_event_kind := event_kind; ev_subject_ref := subject_ref;
    ev_payload_hash := payload_hash; ev_chain_link := chain_link;
    ev_signature := None; ev_signer_id := None |} in
  _ ← modify (fun s => (s.1 ++ [(evidence, payload)], s.2));
  mret evidence.

Fixpoint verify_entries (previous_id : option string) (es : EvidenceEntries) : bool :=
  match es with
  | [] => true
  | (e, payload) :: es' =>
      bool_decide (ev_chain_link e = previous_id)
      && bool_decide (canonical_payload_hash (linked_payload payload previous_id)
                      = ev_payload_hash e)
      && verify_entries (Some (ev_evidence_id e)) es'
  end.

Definition verify_chain (es : EvidenceEntries) : bool := verify_entries None es.
Definition verify_signatures (es : EvidenceEntries) : option bool := None.
Definition entries (es : EvidenceEntries) : list AuditEvidenceISR := map fst es.
End Recorder.

(** ** ComplianceReportLog *)

Definition report_append (r : ComplianceReportISR) : M (list ComplianceReportISR) unit :=
  reports ← gets id;
  if existsb (fun e => bool_decide (cr_report_id e = cr_report_id r)) reports
  then raise (ValueError ("duplicate_report_id:" +:+ cr_report_id r))
  else modify (fun rs => rs ++ [r]).

(** [self._reports[-limit:]]: a slice from [-limit], which for [limit = 0] is
    the whole list and for a negative limit drops the first [-limit] reports. *)
Definition report_latest (limit : Z) (reports : list ComplianceReportISR)
    : list ComplianceReportISR :=
  let n := Z.of_nat (length reports) in
  let start := (if - limit <? 0 then Z.max 0 (n - limit) else - limit)%Z in
  drop (Z.to_nat start) reports.

(** ** The ledger verifies, and what its verification covers *)

Section Spec.
Context `{Env}.
Variable canonical_payload_hash : pydict -> string.
Abbreviation verifies := (verify_entries canonical_payload_hash).

Lemma verify_entries_app prev es1 es2 :
  verifies prev (es1 ++ es2)
  = verifies prev es1 && verifies (match last es1 with
                                   | Some e => Some (ev_evidence_id e.1)
                                   | None => prev end) es2.
Proof.
  revert prev. induction es1 as [|[e p] es1 IH]; intros prev; simpl; [done|].
  rewrite IH, !andb_assoc. f_equal. destruct es1 as [|[e' p'] es1]; [done|].
  change (last ((e, p) :: (e', p') :: es1)) with (last ((e', p') :: es1)).
  by destruct (last ((e', p') :: es1)) eqn:E; [|apply last_None in E].
Qed.

Lemma record_verifies actor kind subject payload at_ s :
  verifies None s.1 = true ->
  verifies None (record canonical_payload_hash actor kind subject payload at_ s).2.1 = true.
Proof.
  destruct s as [es w]. simpl. intros Hs. unfold record. unfold_monad. simpl.
  rewrite verify_entries_app, Hs. simpl. unfold last_evidence_id.
  destruct (last es) as [[e p]|]; simpl;
    rewrite !(proj2 (bool_decide_eq_true _) eq_refl); done.
Qed.

Lemma verify_chain_prefix es1 es2 : verifies None (es1 ++ es2) = true -> verifies None es1 = true.
Proof. rewrite verify_entries_app. by intros [? _]%andb_true_iff. Qed.

(** What links the entries of a chain that verifies. *)
Lemma verify_entries_link prev es i e p :
  verifies prev es = true -> es !! i = Some (e, p) ->
  ev_chain_link e = match i with
                    | O => prev
                    | S j => ev_evidence_id ∘ fst <$> es !! j
                    end.
Proof.
  revert prev i. induction es as [|[e0 p0] es IH]; intros prev i Hv Hi; [done|].
  simpl in Hv. bool_hyps. destruct i as [|i]; simpl in Hi; [by simplify_eq|].
  rewrite (IH (Some (ev_evidence_id e0)) i) by done. by destruct i.
Qed.

(** An entry stands where its link says. *)
Lemma entry_position es es0 e p i :
  NoDup (map (ev_evidence_id ∘ fst) es) ->
  verifies None es = true -> verifies None (es0 ++ [(e, p)]) = true ->
  es0 `prefix_of` es -> es !! i = Some (e, p) -> i = length es0.
Proof.
  intros Hnd Hv Hv' Hpre Hi.
  pose proof (verify_entries_link _ _ _ _ _ Hv Hi) as H1.
  assert (Hlast : (es0 ++ [(e, p)]) !! length es0 = Some (e, p)) by (by rewrite list_lookup_middle).
  pose proof (verify_entries_link _ _ _ _ _ Hv' Hlast) as H2. rewrite H1 in H2.
  destruct i as [|i], (length es0) as [|n] eqn:En; [done| | |].
  - destruct (lookup_lt_is_Some_2 (es0 ++ [(e, p)]) n) as [y Hy];
      [rewrite length_app; simpl; lia|]. by rewrite Hy in H2.
  - apply lookup_lt_Some in Hi as Hl.
    destruct (lookup_lt_is_Some_2 es i) as [y Hy]; [lia|]. by rewrite Hy in H2.
  - apply lookup_lt_Some in Hi as Hl.
    destruct (lookup_lt_is_Some_2 es i) as [y Hy]; [lia|].
    destruct (lookup_lt_is_Some_2 es0 n) as [z Hz]; [lia|].
    rewrite lookup_app_l, Hy, Hz in H2 by lia. simpl in H2.
    apply (prefix_lookup_Some _ _ _ _ Hz) in Hpre. f_equal.
    eapply (NoDup_lookup _ i n (ev_evidence_id y.1) Hnd);
      change (map ?f) with (fmap (M := list) f); rewrite list_lookup_fmap.
    + by rewrite Hy.
    + rewrite Hpre. simpl. unfold compose in H2. congruence.
Qed.

(** The chain of the ledger pins down its order.  Take a ledger with
    pairwise distinct evidence ids that verifies, and any list of entries out of
    it, reordered, spliced or with repetitions: if that list verifies it is a
    prefix of the ledger.  So every reordering, insertion and inner deletion is
    detected; cutting off the end is the one change verification cannot see. *)
Theorem evidence_order_tamper_evident es es' :
  NoDup (map (ev_evidence_id ∘ fst) es) ->
  verify_chain canonical_payload_hash es = true ->
  (forall x, x ∈ es' -> x ∈ es) ->
  verify_chain canonical_payload_hash es' = true <-> es' `prefix_of` es.
Proof.
  intros Hnd Hv Hsub. split; [|intros [k ->]; by eapply verify_chain_prefix].
  induction es' as [|[e p] es0 IH] using rev_ind; intros Hv'; [apply prefix_nil|].
  assert (Hpre : es0 `prefix_of` es).
  { apply IH; [|by eapply verify_chain_prefix]. intros x Hx. apply Hsub. set_solver. }
  assert (Hx : (e, p) ∈ es) by (apply Hsub; set_solver).
  apply list_elem_of_lookup_1 in Hx as [i Hi].
  assert (i = length es0) as ->.
  { by eapply entry_position. }
  destruct Hpre as [k ->]. rewrite lookup_app_r, Nat.sub_diag in Hi by done.
  destruct k as [|y k]; simplify_eq/=. exists k. by rewrite <- app_assoc.
Qed.

(** The hash of an entry covers its payload and its link only: rewriting
    who acted, on what, which kind of event it was and when, in every entry,
    leaves the verdict of [verify_chain] unchanged. *)
Theorem evidence_metadata_not_covered (actor kind subject : AuditEvidenceISR -> string)
    (time : AuditEvidenceISR -> Z) es :
  let rewrite_entry e := {| ev_evidence_id := ev_evidence_id e; ev_recorded_at := time e;
    ev_actor := actor e; ev_event_kind := kind e; ev_subject_ref := subject e;
    ev_payload_hash := ev_payload_hash e; ev_chain_link := ev_chain_link e;
    ev_signature := ev_signature e; ev_signer_id := ev_signer_id e |} in
  verify_chain canonical_payload_hash (map (fun '(e, p) => (rewrite_entry e, p)) es)
  = verify_chain canonical_payload_hash es.
Proof.
  intros f. unfold verify_chain. generalize (@None string).
  induction es as [|[e p] es IH]; intros prev; simpl; [done|]. by rewrite IH.
Qed.
End Spec.

(** A ledger of two entries, with a digest that counts the items. *)
Definition sample_digest (p : pydict) : string := if (length p <=? 1)%nat then "short" else "long".
Definition sample_evidence (id : string) (hash : string) (link : option string)
    : AuditEvidenceISR :=
  {| ev_evidence_id := id; ev_recorded_at := 0; ev_actor := "a"; ev_event_kind := "k";
     ev_subject_ref := "s"; ev_payload_hash := hash; ev_chain_link := link;
     ev_signature := None; ev_signer_id := None |}.
Definition sample_ledger : EvidenceEntries :=
  [(sample_evidence "ev-1" "short" None, []);
   (sample_evidence "ev-2" "long" (Some "ev-1"), [("x", VInt 1)])].

Lemma evidence_order_tamper_evident_witness :
  verify_chain sample_digest sample_ledger = true
  /\ verify_chain sample_digest (reverse sample_ledger) = false.
Proof.
  split; [reflexivity|]. apply not_true_iff_false.
  rewrite (evidence_order_tamper_evident sample_digest sample_ledger).
  - intros [k Hk]. discriminate Hk.
  - apply (bool_decide_eq_true_1 _). reflexivity.
  - reflexivity.
  - intros x. by rewrite elem_of_reverse.
Defined.
