(* ===== verification/GovVersion.v ===== *)
(** * Governance: the constitutional version chain

    [constitutional_architecture/governance/versioning.py] with its records from
    [schemas.py]: the repository interface as a class with its two
    implementations (a dict in memory, a JSON document on disk) and the
    VersionManager over any of them.  The disk keeps the document a JSON text
    stands for; pydantic's [model_dump] and [model_validate] are the class
    [VersionCodec]. *)

From S2P Require Import Prelude PyFloat PyVal PyText FinModels GovModels GovVoting GovEvidence.
From S2P Require Import PyJson.
Open Scope Z_scope.

(** ** Records *)

Inductive VersionStatus : Set := V_PROPOSED | V_RATIFIED | V_SUPERSEDED | V_RETIRED.

#[export] Instance VersionStatus_eq_dec : EqDecision VersionStatus.
Proof. solve_decision. Defined.

Definition version_status_value (s : VersionStatus) : string :=
  match s with
  | V_PROPOSED => "proposed" | V_RATIFIED => "ratified" | V_SUPERSEDED => "superseded"
  | V_RETIRED => "retired"
  end.

Inductive ChangeKind : Set := AMENDMENT | EMERGENCY_PATCH | RESTATEMENT.

Definition change_kind_value (k : ChangeKind) : string :=
  match k with
  | AMENDMENT => "amendment" | EMERGENCY_PATCH => "emergency_patch" | RESTATEMENT => "restatement"
  end.

Record ConstitutionVersionISR : Set := {
  cv_version_id : string;
  cv_semver : string;
  cv_status : VersionStatus;
  cv_policy_set_ref : string;
  cv_proposed_by : string;
  cv_proposed_at : Z;
  cv_predecessor_ref : option string;
  cv_ratification_workflow_ref : option string;
  cv_lineage_ref : option string;
  cv_effective_at : option Z;
}.

#[export] Instance ConstitutionVersionISR_eq_dec : EqDecision ConstitutionVersionISR.
Proof. solve_decision. Defined.

Record ChangeLineageISR : Set := {
  cl_lineage_id : string;
  cl_change_kind : ChangeKind;
  cl_parent_version_refs : list string;
  cl_authorizing_workflow_ref : string;
  cl_summary : string;
  cl_created_at : Z;
}.

(** ** Semantic versions *)

Abbreviation semver := (Z * Z * Z)%type.

Definition all_digits (s : string) : bool := truthy s && str_forall is_digit s.
Definition digits_val (s : string) : Z :=
  match int_digits 0 false s with Some n => n | None => 0 end.

(** [^(\d+)\.(\d+)\.(\d+)$] on the stripped text. *)
Definition parse_semver (value : string) : res semver :=
  let invalid := Raise (VersioningError ("invalid semver:" +:+ str_repr value)) in
  match split_dot (strip value) with
  | [a; b; c] =>
      if all_digits a && all_digits b && all_digits c
      then Ok (digits_val a, digits_val b, digits_val c)
      else invalid
  | _ => invalid
  end.

(** Tuple comparison. *)
Definition semver_leb (x y : semver) : bool :=
  let '(a, b, c) := x in
  let '(a', b', c') := y in
  (a <? a') || ((a =? a') && ((b <? b') || ((b =? b') && (c <=? c')))).

(** ** The repository interface *)

Class ConstitutionVersionRepository (R : Type) := {
  repo_add : ConstitutionVersionISR -> M R unit;
  repo_replace : ConstitutionVersionISR -> M R unit;
  repo_get : string -> M R (option ConstitutionVersionISR);
  repo_all : M R (list ConstitutionVersionISR);
}.

(** *** In memory *)

Abbreviation InMemory := (list (string * ConstitutionVersionISR)).

Definition mem_add (v : ConstitutionVersionISR) : M InMemory unit :=
  versions ← gets id;
  if dmem (cv_version_id v) versions
  then raise (VersioningError ("duplicate_version_id:" +:+ cv_version_id v))
  else modify (dset (cv_version_id v) v).

Definition mem_replace (v : ConstitutionVersionISR) : M InMemory unit :=
  versions ← gets id;
  if dmem (cv_version_id v) versions then modify (dset (cv_version_id v) v)
  else raise (VersioningError ("unknown_version_id:" +:+ cv_version_id v)).

Definition mem_get (version_id : string) : M InMemory (option ConstitutionVersionISR) :=
  gets (dget version_id).
Definition mem_all : M InMemory (list ConstitutionVersionISR) := gets dvalues.

#[export] Instance InMemoryConstitutionVersionRepository :
  ConstitutionVersionRepository InMemory := {|
  repo_add := mem_add; repo_replace := mem_replace; repo_get := mem_get; repo_all := mem_all |}.

(** *** On disk *)

(** What the file holds: a JSON object, other JSON, or nothing that can be
    opened and decoded. *)
Inductive document : Set :=
| Items (d : pydict)
| OtherJson
| Unreadable.

Record FileBacked : Set := { fb_file : option document; fb_writes : nat }.

(** [model_dump(mode="json")] and [model_validate] of pydantic. *)
Class VersionCodec := {
  model_dump : ConstitutionVersionISR -> pyval;
  model_validate : pyval -> res ConstitutionVersionISR;
}.

(** Whether the n-th write reaches [os.replace], or an OSError stops it. *)
Class Disk := { write_succeeds : nat -> bool }.

Section FileBacked.
Context `{VersionCodec, Disk}.

Definition file_read : M FileBacked pydict := gets (fun r =>
  match fb_file r with Some (Items d) => d | _ => [] end).

Definition file_write (data : pydict) : M FileBacked unit := fun r =>
  let n := fb_writes r in
  if write_succeeds n then
    (Ok tt, {| fb_file := Some (Items (sort_by item_leb (map (fun p => (p.1, sort_keys p.2)) data)));
               fb_writes := S n |})
  else (Raise (OSError "write failed"), {| fb_file := fb_file r; fb_writes := S n |}).

Definition file_add (v : ConstitutionVersionISR) : M FileBacked unit :=
  data ← file_read;
  if dmem (cv_version_id v) data
  then raise (VersioningError ("duplicate_version_id:" +:+ cv_version_id v))
  else file_write (dset (cv_version_id v) (model_dump v) data).

Definition file_replace (v : ConstitutionVersionISR) : M FileBacked unit :=
  data ← file_read;
  if dmem (cv_version_id v) data
  then file_write (dset (cv_version_id v) (model_dump v) data)
  else raise (VersioningError ("unknown_version_id:" +:+ cv_version_id v)).

(** [raw is not None]: a null under the key reads as absent. *)
Definition file_get (version_id : string) : M FileBacked (option ConstitutionVersionISR) :=
  data ← file_read;
  match dget version_id data with
  | None | Some VNone => mret None
  | Some raw => v ← lift_res (model_validate raw); mret (Some v)
  end.

Definition file_all : M FileBacked (list ConstitutionVersionISR) :=
  data ← file_read; lift_res (map_res model_validate (dvalues data)).

#[export] Instance FileBackedConstitutionVersionRepository :
  ConstitutionVersionRepository FileBacked := {|
  repo_add := file_add; repo_replace := file_replace; repo_get := file_get; repo_all := file_all |}.
End FileBacked.

(** ** VersionManager *)

Record VersionManager (R : Type) : Type := {
  vm_repo : R;
  vm_evidence : option EvidenceEntries;
  vm_lineages : list ChangeLineageISR;
  vm_proposals : list (string * (ChangeKind * string));
  vm_world : World;
}.
Arguments vm_repo {R}. Arguments vm_evidence {R}. Arguments vm_lineages {R}.
Arguments vm_proposals {R}. Arguments vm_world {R}.

(** A manager over a repository, with or without a ledger. *)
Definition new_manager {R} (repo : R) (evidence : option EvidenceEntries) (w : World)
    : VersionManager R :=
  {| vm_repo := repo; vm_evidence := evidence; vm_lineages := []; vm_proposals := [];
     vm_world := w |}.

Section Manager.
Context `{Env} {R : Type} `{ConstitutionVersionRepository R}.
Variable canonical_payload_hash : pydict -> string.
Implicit Types (m : VersionManager R).

Definition put_repo (r : R) m : VersionManager R := {|
  vm_repo := r; vm_evidence := vm_evidence m; vm_lineages := vm_lineages m;
  vm_proposals := vm_proposals m; vm_world := vm_world m |}.
Definition put_evidence (e : option EvidenceEntries) (w : World) m : VersionManager R := {|
  vm_repo := vm_repo m; vm_evidence := e; vm_lineages := vm_lineages m;
  vm_proposals := vm_proposals m; vm_world := w |}.
Definition add_lineage (l : ChangeLineageISR) m : VersionManager R := {|
  vm_repo := vm_repo m; vm_evidence := vm_evidence m; vm_lineages := vm_lineages m ++ [l];
  vm_proposals := vm_proposals m; vm_world := vm_world m |}.
Definition set_proposal (id : string) (p : ChangeKind * string) m : VersionManager R := {|
  vm_repo := vm_repo m; vm_evidence := vm_evidence m; vm_lineages := vm_lineages m;
  vm_proposals := dset id p (vm_proposals m); vm_world := vm_world m |}.

Definition in_repo {A} (op : M R A) : M (VersionManager R) A := zoom vm_repo put_repo op.

(** [f"{prefix}-{uuid4().hex}"]. *)
Definition full_id (prefix : string) : M (VersionManager R) string := fun m =>
  (Ok (prefix +:+ "-" +:+ uuid_hex (uuids_drawn (vm_world m))),
   put_evidence (vm_evidence m)
     {| uuids_drawn := S (uuids_drawn (vm_world m)); clock_reads := clock_reads (vm_world m) |} m).

Definition manager_record (event_kind : string) (v : ConstitutionVersionISR) (now : Z)
    (extra : pydict) : M (VersionManager R) unit := fun m =>
  match vm_evidence m with
  | None => (Ok tt, m)
  | Some es =>
      let payload := foldl (fun d p => dset p.1 p.2 d) [("semver", VStr (cv_semver v))] extra in
      match record canonical_payload_hash "version_manager" event_kind (cv_version_id v) payload now
              (es, vm_world m) with
      | (r, (es', w')) => (_ ← r; mret tt, put_evidence (Some es') w' m)
      end
  end.

Definition current : M (VersionManager R) (option ConstitutionVersionISR) :=
  all ← in_repo repo_all;
  match List.filter (fun v => bool_decide (cv_status v = V_RATIFIED)) all with
  | [] => mret None
  | [v] => mret (Some v)
  | _ => raise (VersioningError "multiple_ratified_heads_detected")
  end.

(** The loop of [propose] over the existing versions. *)
Definition check_increases (semver_text : string) (candidate : semver)
    (all : list ConstitutionVersionISR) : M (VersionManager R) unit :=
  for_each all (fun existing =>
    s ← lift_res (parse_semver (cv_semver existing));
    when (semver_leb candidate s)
      (raise (VersioningError ("semver_must_strictly_increase:" +:+ semver_text +:+ "<="
                               +:+ cv_semver existing)))).

Definition propose (semver_text policy_set_ref proposed_by : string) (change_kind : ChangeKind)
    (summary : string) (now : Z) : M (VersionManager R) ConstitutionVersionISR :=
  candidate ← lift_res (parse_semver semver_text);
  all ← in_repo repo_all;
  _ ← check_increases semver_text candidate all;
  head ← current;
  id ← full_id "cv";
  let version := {| cv_version_id := id; cv_semver := semver_text; cv_status := V_PROPOSED;
    cv_policy_set_ref := policy_set_ref; cv_proposed_by := proposed_by; cv_proposed_at := now;
    cv_predecessor_ref := cv_version_id <$> head; cv_ratification_workflow_ref := None;
    cv_lineage_ref := None; cv_effective_at := None |} in
  _ ← in_repo (repo_add version);
  _ ← modify (set_proposal id (change_kind, summary));
  _ ← manager_record "version_proposed" version now
        [("change_kind", VStr (change_kind_value change_kind)); ("summary", VStr summary)];
  mret version.

(** [model_copy(update=...)]. *)
Definition ratify_version (workflow_ref lineage_ref : string) (now : Z)
    (v : ConstitutionVersionISR) : ConstitutionVersionISR := {|
  cv_version_id := cv_version_id v; cv_semver := cv_semver v; cv_status := V_RATIFIED;
  cv_policy_set_ref := cv_policy_set_ref v; cv_proposed_by := cv_proposed_by v;
  cv_proposed_at := cv_proposed_at v; cv_predecessor_ref := cv_predecessor_ref v;
  cv_ratification_workflow_ref := Some workflow_ref; cv_lineage_ref := Some lineage_ref;
  cv_effective_at := Some now |}.

Definition supersede_version (v : ConstitutionVersionISR) : ConstitutionVersionISR := {|
  cv_version_id := cv_version_id v; cv_semver := cv_semver v; cv_status := V_SUPERSEDED;
  cv_policy_set_ref := cv_policy_set_ref v; cv_proposed_by := cv_proposed_by v;
  cv_proposed_at := cv_proposed_at v; cv_predecessor_ref := cv_predecessor_ref v;
  cv_ratification_workflow_ref := cv_ratification_workflow_ref v;
  cv_lineage_ref := cv_lineage_ref v; cv_effective_at := cv_effective_at v |}.

Definition ratify (version_id : string) (outcome : VoteOutcome) (now : Z)
    : M (VersionManager R) ConstitutionVersionISR :=
  found ← in_repo (repo_get version_id);
  match found with
  | None => raise (VersioningError ("unknown_version_id:" +:+ version_id))
  | Some version =>
      if bool_decide (cv_status version <> V_PROPOSED) then
        raise (VersioningError ("only_proposed_versions_can_be_ratified:"
                                +:+ version_status_value (cv_status version)))
      else if negb (vo_approved outcome) then
        raise (VersioningError ("ratification_requires_approved_vote:" +:+ vo_reason outcome))
      else
        proposals ← gets vm_proposals;
        let '(change_kind, summary) := dget_or version_id proposals (AMENDMENT, EmptyString) in
        head ← current;
        lineage_id ← full_id "cl";
        let lineage := {| cl_lineage_id := lineage_id; cl_change_kind := change_kind;
          cl_parent_version_refs := match head with Some h => [cv_version_id h] | None => [] end;
          cl_authorizing_workflow_ref := vo_workflow_ref outcome;
          cl_summary := if truthy summary then summary else "ratify " +:+ cv_semver version;
          cl_created_at := now |} in
        _ ← modify (add_lineage lineage);
        let ratified := ratify_version (vo_workflow_ref outcome) lineage_id now version in
        _ ← in_repo (repo_replace ratified);
        _ ← match head with
            | Some h => in_repo (repo_replace (supersede_version h))
            | None => mret tt
            end;
        _ ← manager_record "version_ratified" ratified now
              [("workflow_ref", VStr (vo_workflow_ref outcome))];
        mret ratified
  end.

Definition semver_entry_leb (p q : semver * ConstitutionVersionISR) : bool := semver_leb p.1 q.1.

Definition history : M (VersionManager R) (list ConstitutionVersionISR) :=
  all ← in_repo repo_all;
  keyed ← lift_res (map_res (fun v => k ← parse_semver (cv_semver v); mret (k, v)) all);
  mret (map snd (sort_by semver_entry_leb keyed)).

Definition lineage : M (VersionManager R) (list ChangeLineageISR) := gets vm_lineages.

(** ** The calls of a client *)

Inductive call : Type :=
| C_propose (semver_text policy_set_ref proposed_by : string) (change_kind : ChangeKind)
    (summary : string) (now : Z)
| C_ratify (version_id : string) (outcome : VoteOutcome) (now : Z)
| C_current
| C_history
| C_lineage.

Inductive response : Type :=
| R_version (v : ConstitutionVersionISR)
| R_current (v : option ConstitutionVersionISR)
| R_history (vs : list ConstitutionVersionISR)
| R_lineage (ls : list ChangeLineageISR).

Definition exec (c : call) : M (VersionManager R) response :=
  match c with
  | C_propose t p b k s now => v ← propose t p b k s now; mret (R_version v)
  | C_ratify id o now => v ← ratify id o now; mret (R_version v)
  | C_current => v ← current; mret (R_current v)
  | C_history => vs ← history; mret (R_history vs)
  | C_lineage => ls ← lineage; mret (R_lineage ls)
  end.

(** A client's calls, one after the other, whatever each of them answers. *)
Fixpoint exec_all (cs : list call) m : list (res response) * VersionManager R :=
  match cs with
  | [] => ([], m)
  | c :: cs' => let (r, m1) := exec c m in
                let (rs, m2) := exec_all cs' m1 in
                (r :: rs, m2)
  end.
End Manager.

(** * Governance: what a version repository promises

    The laws of the repository interface of versioning.py, with respect to a
    map of versions, and the proofs that the dict in memory and the JSON document
    on disk (while it accepts writes) keep them. *)

(** ** What a version repository promises *)

Class RepositoryReads (R : Type) `{ConstitutionVersionRepository R}
    (view : R -> gmap string ConstitutionVersionISR -> Prop) : Prop := {
  law_view_fun r m1 m2 : view r m1 -> view r m2 -> m1 = m2;
  law_get r m id : view r m -> repo_get id r = (Ok (m !! id), r);
  law_all r m : view r m ->
    exists l, repo_all r = (Ok l, r) /\ l ≡ₚ (map_to_list m).*2;
}.

Class RepositoryLaws (R : Type) `{ConstitutionVersionRepository R}
    (view : R -> gmap string ConstitutionVersionISR -> Prop) : Prop := {
  laws_reads :: RepositoryReads R view;
  law_add_new r m v : view r m -> m !! cv_version_id v = None ->
    exists r', repo_add v r = (Ok tt, r') /\ view r' (<[cv_version_id v := v]> m);
  law_add_dup r m v : view r m -> is_Some (m !! cv_version_id v) ->
    repo_add v r = (Raise (VersioningError ("duplicate_version_id:" +:+ cv_version_id v)), r);
  law_replace r m v : view r m -> is_Some (m !! cv_version_id v) ->
    exists r', repo_replace v r = (Ok tt, r') /\ view r' (<[cv_version_id v := v]> m);
  law_replace_unknown r m v : view r m -> m !! cv_version_id v = None ->
    repo_replace v r = (Raise (VersioningError ("unknown_version_id:" +:+ cv_version_id v)), r);
}.

(** *** The dict in memory *)

Lemma dget_lookup {V} (d : list (string * V)) k :
  dget k d = (list_to_map d : gmap string V) !! k.
Proof.
  induction d as [|[k0 v0] d IH]; simpl; [done|].
  case_decide; subst; [by rewrite lookup_insert_eq|by rewrite lookup_insert_ne].
Qed.

Lemma dvalues_map_to_list {V} (d : list (string * V)) :
  dict_ok d -> dvalues d ≡ₚ (map_to_list (list_to_map d : gmap string V)).*2.
Proof. intros Hd. by rewrite map_to_list_to_map. Qed.

Definition mem_view (d : InMemory) (m : gmap string ConstitutionVersionISR) : Prop :=
  dict_ok d /\ m = list_to_map d.

Lemma list_to_map_dset {V} k (v : V) (d : list (string * V)) :
  (list_to_map (dset k v d) : gmap string V) = <[k := v]> (list_to_map d).
Proof.
  apply map_eq. intros k'. rewrite <- dget_lookup, dget_dset.
  case_decide; subst; [by rewrite lookup_insert_eq|by rewrite lookup_insert_ne, dget_lookup].
Qed.

Lemma dmem_lookup {V} k (d : list (string * V)) :
  dmem k d = bool_decide (is_Some ((list_to_map d : gmap string V) !! k)).
Proof.
  unfold dmem. rewrite dget_lookup. destruct (_ !! k); [done|].
  symmetry. apply bool_decide_eq_false. by intros [? ?].
Qed.

#[export] Instance mem_reads : RepositoryReads InMemory mem_view.
Proof.
  split.
  - intros r m1 m2 [_ ->] [_ ->]. done.
  - intros r m id [Hr ->]. simpl. unfold mem_get, gets. by rewrite dget_lookup.
  - intros r m [Hr ->]. eexists. split; [done|]. by apply dvalues_map_to_list.
Qed.

#[export] Instance mem_laws : RepositoryLaws InMemory mem_view.
Proof.
  split; [apply _|..].
  - intros r m v [Hr ->] Hn. eexists. simpl. unfold mem_add. unfold_monad.
    unfold id. rewrite dmem_lookup, Hn. simpl. split; [done|]. split; [by apply dset_ok|].
    by rewrite list_to_map_dset.
  - intros r m v [Hr ->] Hs. simpl. unfold mem_add. unfold_monad.
    unfold id. rewrite dmem_lookup, bool_decide_true by done. done.
  - intros r m v [Hr ->] Hs. eexists. simpl. unfold mem_replace. unfold_monad.
    unfold id. rewrite dmem_lookup, bool_decide_true by done. split; [done|]. split; [by apply dset_ok|].
    by rewrite list_to_map_dset.
  - intros r m v [Hr ->] Hn. simpl. unfold mem_replace. unfold_monad.
    unfold id. by rewrite dmem_lookup, Hn.
Qed.

(** *** The document on disk *)

(** What pydantic documents: an object is dumped, and the dump validates back,
    whatever the order of its keys. *)
Class CodecLaws `{VersionCodec} : Prop := {
  codec_dict v : exists d, model_dump v = VDict d;
  codec_roundtrip v : model_validate (sort_keys (model_dump v)) = Ok v;
}.

Definition file_items (r : FileBacked) : pydict :=
  match fb_file r with Some (Items d) => d | _ => [] end.

Section FileLaws.
Context `{CodecLaws} `{Disk}.

Abbreviation stored := (fun v => sort_keys (model_dump v)).

Definition file_view (r : FileBacked) (m : gmap string ConstitutionVersionISR) : Prop :=
  dict_ok (file_items r) /\ list_to_map (file_items r) = stored <$> m.

Lemma stored_inj v w : stored v = stored w -> v = w.
Proof.
  intros E. pose proof (codec_roundtrip v) as Hv. pose proof (codec_roundtrip w) as Hw.
  rewrite E in Hv. congruence.
Qed.

Lemma map_res_perm (xs : list pyval) vs :
  xs ≡ₚ map stored vs -> exists l, map_res model_validate xs = Ok l /\ l ≡ₚ vs.
Proof.
  intros (vs' & -> & HP)%Permutation.Permutation_map_inv. exists vs'. split; [|done].
  clear HP. induction vs' as [|v vs' IH]; [done|].
  simpl. rewrite codec_roundtrip. unfold mbind, res_bind. by rewrite IH.
Qed.

Lemma file_write_view r m v :
  file_view r m -> write_succeeds (fb_writes r) = true ->
  exists r', file_write (dset (cv_version_id v) (model_dump v) (file_items r)) r = (Ok tt, r')
    /\ file_view r' (<[cv_version_id v := v]> m) /\ fb_writes r' = S (fb_writes r).
Proof.
  intros [Hd Hm] Hw. unfold file_write. rewrite Hw. eexists. split; [done|].
  split; [|done]. unfold file_view, file_items at 1. cbn [fb_file].
  set (d := dset _ _ _). assert (Hok : dict_ok (map sort_item d)).
  { unfold dict_ok, dkeys. rewrite map_map. by apply dset_ok. }
  split; [unfold dict_ok, dkeys; by rewrite sort_by_perm|].
  unfold file_items at 1. cbn [fb_file].
  rewrite (list_to_map_proper _ (map sort_item d)); [|unfold dict_ok, dkeys in Hok; by rewrite sort_by_perm|apply sort_by_perm].
  assert (Hf : (list_to_map (map sort_item d) : gmap string pyval) = sort_keys <$> list_to_map d).
  { clear. induction d as [|[k w] d IH]; simpl; [by rewrite fmap_empty|].
    by rewrite IH, fmap_insert. }
  rewrite Hf. unfold d. rewrite list_to_map_dset, Hm, !fmap_insert. f_equal.
  rewrite <- map_fmap_compose. apply map_fmap_ext. intros i w _. apply sort_keys_idem.
Qed.

Lemma file_dmem r m k : file_view r m -> dmem k (file_items r) = bool_decide (is_Some (m !! k)).
Proof.
  intros [_ Hm]. rewrite dmem_lookup, Hm, lookup_fmap. apply bool_decide_ext. by rewrite fmap_is_Some.
Qed.

Lemma file_read_items r : file_read r = (Ok (file_items r), r).
Proof. done. Qed.

#[export] Instance file_reads : RepositoryReads FileBacked file_view.
Proof.
  split.
  - intros r m1 m2 [_ E1] [_ E2]. rewrite E1 in E2.
    apply map_eq. intros i. apply (f_equal (lookup i)) in E2. rewrite !lookup_fmap in E2.
    destruct (m1 !! i), (m2 !! i); simplify_eq/=; [|done]. f_equal. by apply stored_inj.
  - intros r m id [Hd Hm]. simpl. unfold file_get. rewrite (M_bind_Ok _ _ _ _ _ (file_read_items r)).
    rewrite dget_lookup, Hm, lookup_fmap. destruct (m !! id) as [v|]; simpl; [|done].
    destruct (codec_dict v) as [d Ed]. rewrite Ed. simpl.
    change (VDict (sort_by item_leb (map sort_item d))) with (sort_keys (VDict d)).
    unfold mbind, M_bind, lift_res. by rewrite <- Ed, codec_roundtrip.
  - intros r m [Hd Hm].
    destruct (map_res_perm (dvalues (file_items r)) (map_to_list m).*2) as (l & E & HP).
    { rewrite dvalues_map_to_list, Hm by done. rewrite map_to_list_fmap, <- list_fmap_compose.
      change (map ?f) with (fmap (M := list) f). by rewrite <- list_fmap_compose. }
    exists l. split; [|done]. simpl. unfold file_all. rewrite (M_bind_Ok _ _ _ _ _ (file_read_items r)).
    unfold lift_res.
    by rewrite E.
Qed.
(** The laws hold while the disk accepts the writes. *)
Lemma file_laws : (forall n, write_succeeds n = true) -> RepositoryLaws FileBacked file_view.
Proof.
  intros Hw. split; [apply _|..].
  - intros r m v Hv Hn. destruct (file_write_view r m v Hv (Hw _)) as (r' & E & V & _).
    exists r'. split; [|done]. simpl. unfold file_add. rewrite (M_bind_Ok _ _ _ _ _ (file_read_items r)).
    rewrite (file_dmem _ _ _ Hv), Hn. simpl. by rewrite E.
  - intros r m v Hv Hs. simpl. unfold file_add. rewrite (M_bind_Ok _ _ _ _ _ (file_read_items r)).
    by rewrite (file_dmem _ _ _ Hv), bool_decide_true.
  - intros r m v Hv Hs. destruct (file_write_view r m v Hv (Hw _)) as (r' & E & V & _).
    exists r'. split; [|done]. simpl. unfold file_replace. rewrite (M_bind_Ok _ _ _ _ _ (file_read_items r)).
    rewrite (file_dmem _ _ _ Hv), bool_decide_true by done. by rewrite E.
  - intros r m v Hv Hn. simpl. unfold file_replace. rewrite (M_bind_Ok _ _ _ _ _ (file_read_items r)).
    by rewrite (file_dmem _ _ _ Hv), Hn.
Qed.
End FileLaws.
