(* ===== verification/GovVersionSpec.v ===== *)
(** * Governance: theorems on the version chain

    The VersionManager of versioning.py proved against the repository interface:
    the disk-backed manager refines the one in memory, the invariant of the
    chain, what proposing and ratifying do, and what happens when the disk fails
    or the process restarts. *)

From S2P Require Import Prelude PyFloat PyVal PyText FinModels GovModels GovVoting GovEvidence.
From S2P Require Import PyJson GovVersion GovPolicySpec.
Open Scope Z_scope.

(** ** Lists of versions in any order *)

Lemma filter_perm_cases {A} (p : A -> bool) l1 l2 : l1 ≡ₚ l2 ->
  (List.filter p l1 = [] /\ List.filter p l2 = []) \/
  (exists x, List.filter p l1 = [x] /\ List.filter p l2 = [x]) \/
  (exists x y k x' y' k', List.filter p l1 = x :: y :: k /\ List.filter p l2 = x' :: y' :: k').
Proof.
  intros HP. assert (HF : List.filter p l1 ≡ₚ List.filter p l2).
  { clear -HP. induction HP as [|x l l' HP IH|x y l|l1 l2 l3 HP1 IH1 HP2 IH2]; simpl; [done| | |by rewrite IH1].
    - by destruct (p x); [constructor|].
    - destruct (p x), (p y); by try constructor. }
  revert HF. generalize (List.filter p l1) (List.filter p l2). intros [|x [|y k]] k2 HF.
  - left. by apply Permutation_nil_l in HF as ->.
  - right. left. exists x. by apply Permutation_singleton_l in HF as ->.
  - do 2 right. apply Permutation_length in HF as Hl.
    destruct k2 as [|x' [|y' k']]; [done|done|]. by exists x, y, k, x', y', k'.
Qed.

(** The test of one existing version in the loop of [propose]. *)
Definition below (candidate : semver) (v : ConstitutionVersionISR) : bool :=
  match parse_semver (cv_semver v) with Ok s => negb (semver_leb candidate s) | Raise _ => false end.

Lemma parse_semver_raise t e :
  parse_semver t = Raise e -> e = VersioningError ("invalid semver:" +:+ str_repr t).
Proof.
  unfold parse_semver. destruct (split_dot _) as [|a [|b [|c [|]]]]; try congruence.
  destruct (_ && _); congruence.
Qed.

Lemma check_increases_run {R} `{ConstitutionVersionRepository R} text c all
    (m : VersionManager R) :
  if forallb (below c) all then check_increases text c all m = (Ok tt, m)
  else exists t, check_increases text c all m = (Raise (VersioningError t), m).
Proof.
  induction all as [|v all IH]; [done|].
  unfold check_increases in *. cbn [for_each forallb]. unfold below at 1.
  unfold_monad. destruct (parse_semver (cv_semver v)) as [s|e] eqn:E.
  - destruct (semver_leb c s); simpl; [by eexists|exact IH].
  - simpl. apply parse_semver_raise in E as ->. by eexists.
Qed.

(** ** Two managers over repositories with the same versions *)

Section TwoManagers.
Context `{Env} {R1 R2 : Type} `{RepositoryLaws R1 view1} `{RepositoryLaws R2 view2}.
Variable canonical_payload_hash : pydict -> string.
Abbreviation VM1 := (VersionManager R1).
Abbreviation VM2 := (VersionManager R2).

Definition same_manager (s1 : VM1) (s2 : VM2) : Prop :=
  (exists m, view1 (vm_repo s1) m /\ view2 (vm_repo s2) m) /\
  vm_evidence s1 = vm_evidence s2 /\ vm_lineages s1 = vm_lineages s2 /\
  vm_proposals s1 = vm_proposals s2 /\ vm_world s1 = vm_world s2.

(** Two answers agree: the same value, or the same exception up to the text
    of a VersioningError, which names the first offending version it met. *)
Definition same_exn (e1 e2 : exn) : Prop :=
  e1 = e2 \/ exists t1 t2, e1 = VersioningError t1 /\ e2 = VersioningError t2.

Definition same_answer {A} (Q : A -> A -> Prop) (r1 r2 : res A) : Prop :=
  match r1, r2 with
  | Ok a, Ok b => Q a b
  | Raise e1, Raise e2 => same_exn e1 e2
  | _, _ => False
  end.

Definition sim {A} (Q : A -> A -> Prop) (p1 : M VM1 A) (p2 : M VM2 A) : Prop :=
  forall s1 s2, same_manager s1 s2 ->
    same_answer Q (p1 s1).1 (p2 s2).1 /\ same_manager (p1 s1).2 (p2 s2).2.

Lemma sim_bind {A B} (Q : A -> A -> Prop) (Q' : B -> B -> Prop) p1 p2 f1 f2 :
  sim Q p1 p2 -> (forall a b, Q a b -> sim Q' (f1 a) (f2 b)) -> sim Q' (p1 ≫= f1) (p2 ≫= f2).
Proof.
  intros Hp Hf s1 s2 Hs. specialize (Hp s1 s2 Hs). unfold mbind, M_bind.
  destruct (p1 s1) as [[a|e1] t1], (p2 s2) as [[b|e2] t2]; simpl in Hp;
    destruct Hp as [HQ HS]; [exact (Hf _ _ HQ _ _ HS)|done|done|done].
Qed.

Lemma sim_ret {A} (Q : A -> A -> Prop) a b : Q a b -> sim Q (mret a) (mret b).
Proof. intros ? s1 s2 Hs. done. Qed.
Lemma sim_raise {A} (Q : A -> A -> Prop) e : sim Q (raise e) (raise e).
Proof. intros s1 s2 Hs. split; [by left|done]. Qed.
Lemma sim_lift {A} (r : res A) : sim eq (lift_res r) (lift_res r).
Proof. intros s1 s2 Hs. split; [destruct r; [done|by left]|done]. Qed.

Lemma sim_add v : sim eq (in_repo (repo_add v)) (in_repo (repo_add v)).
Proof.
  intros s1 s2 ((m & V1 & V2) & He). unfold in_repo, zoom.
  destruct (m !! cv_version_id v) eqn:E.
  - rewrite (law_add_dup _ _ v V1), (law_add_dup _ _ v V2) by done.
    split; [by left|]. split; [by exists m|done].
  - destruct (law_add_new _ _ v V1 E) as (r1 & -> & W1).
    destruct (law_add_new _ _ v V2 E) as (r2 & -> & W2). split; [done|]. split; [by eexists|done].
Qed.

Lemma sim_replace v : sim eq (in_repo (repo_replace v)) (in_repo (repo_replace v)).
Proof.
  intros s1 s2 ((m & V1 & V2) & He). unfold in_repo, zoom.
  destruct (m !! cv_version_id v) eqn:E.
  - destruct (law_replace _ _ v V1) as (r1 & -> & W1); [done|].
    destruct (law_replace _ _ v V2) as (r2 & -> & W2); [done|]. split; [done|].
    split; [by eexists|done].
  - rewrite (law_replace_unknown _ _ v V1), (law_replace_unknown _ _ v V2) by done.
    split; [by left|]. split; [by exists m|done].
Qed.

Lemma sim_get id : sim eq (in_repo (repo_get id)) (in_repo (repo_get id)).
Proof.
  intros s1 s2 ((m & V1 & V2) & He). unfold in_repo, zoom.
  rewrite (law_get _ _ id V1), (law_get _ _ id V2). split; [done|]. split; [by exists m|done].
Qed.

Lemma sim_all : sim (≡ₚ) (in_repo repo_all) (in_repo repo_all).
Proof.
  intros s1 s2 ((m & V1 & V2) & He). unfold in_repo, zoom.
  destruct (law_all _ _ V1) as (l1 & -> & HP1). destruct (law_all _ _ V2) as (l2 & -> & HP2).
  split; [exact (Permutation_trans HP1 (Permutation_sym HP2))|]. split; [by exists m|done].
Qed.

Lemma sim_full_id p : sim eq (full_id p) (full_id p).
Proof.
  intros s1 s2 (Hv & He & Hl & Hp & Hw). unfold full_id. simpl. rewrite Hw. split; [done|].
  unfold same_manager. simpl. by rewrite He.
Qed.

Lemma sim_record kind v now extra :
  sim eq (manager_record canonical_payload_hash kind v now extra)
    (manager_record canonical_payload_hash kind v now extra).
Proof.
  intros s1 s2 (Hv & He & Hl & Hp & Hw). unfold manager_record. rewrite He, Hw.
  destruct (vm_evidence s2) as [es|] eqn:E2; [|split; [done|unfold same_manager; simpl; by rewrite E2]].
  destruct (record _ _ _ _ _ _ _) as [r [es' w']].
  split; [|unfold same_manager; by simpl]. destruct r; [done|by left].
Qed.

Lemma sim_current : sim eq current current.
Proof.
  eapply sim_bind; [apply sim_all|]. intros l1 l2 HP.
  destruct (filter_perm_cases (fun v => bool_decide (cv_status v = V_RATIFIED)) l1 l2 HP)
    as [[-> ->]|[(x & -> & ->)|(x & y & k & x' & y' & k' & -> & ->)]];
    [by apply sim_ret..|apply sim_raise].
Qed.

Lemma sim_check text c l1 l2 : l1 ≡ₚ l2 -> sim eq (check_increases text c l1) (check_increases text c l2).
Proof.
  intros HP s1 s2 Hs. pose proof (check_increases_run text c l1 s1) as H1'.
  pose proof (check_increases_run text c l2 s2) as H2'.
  assert (forallb (below c) l1 = forallb (below c) l2) as Eb.
  { apply eq_true_iff_eq. rewrite !forallb_forall. by setoid_rewrite HP. }
  rewrite Eb in H1'. destruct (forallb (below c) l2).
  - by rewrite H1', H2'.
  - destruct H1' as [t1 ->], H2' as [t2 ->]. split; [|done]. right. by eexists _, _.
Qed.

Lemma sim_modify (f1 : VM1 -> VM1) (f2 : VM2 -> VM2) :
  (forall s1 s2, same_manager s1 s2 -> same_manager (f1 s1) (f2 s2)) ->
  sim eq (modify f1) (modify f2).
Proof. intros Hf s1 s2 Hs. split; [done|by apply Hf]. Qed.

Lemma sim_propose t p b k sm now :
  sim eq (propose canonical_payload_hash t p b k sm now) (propose canonical_payload_hash t p b k sm now).
Proof.
  eapply sim_bind; [apply sim_lift|]. intros c ? <-.
  eapply sim_bind; [apply sim_all|]. intros l1 l2 HP.
  eapply sim_bind; [by apply sim_check|]. intros _ _ _.
  eapply sim_bind; [apply sim_current|]. intros h ? <-.
  eapply sim_bind; [apply sim_full_id|]. intros id ? <-.
  eapply sim_bind; [apply sim_add|]. intros _ _ _.
  eapply sim_bind; [apply sim_modify|].
  { intros s1 s2 (Hv & He & Hl & Hp & Hw). unfold same_manager. simpl. by rewrite He, Hl, Hp, Hw. }
  intros _ _ _. eapply sim_bind; [apply sim_record|]. intros _ _ _. by apply sim_ret.
Qed.

Lemma sim_ratify id o now :
  sim eq (ratify canonical_payload_hash id o now) (ratify canonical_payload_hash id o now).
Proof.
  eapply sim_bind; [apply sim_get|]. intros [v|] ? <-; [|apply sim_raise].
  case_bool_decide; [apply sim_raise|]. destruct (negb _); [apply sim_raise|].
  apply (sim_bind eq).
  { intros s1 s2 (Hv & He & Hl & Hp & Hw). split; [done|]. done. }
  intros ps ? <-. destruct (dget_or _ _ _) as [k sm].
  eapply sim_bind; [apply sim_current|]. intros h ? <-.
  eapply sim_bind; [apply sim_full_id|]. intros lid ? <-.
  eapply sim_bind; [apply sim_modify|].
  { intros s1 s2 (Hv & He & Hl & Hp & Hw). unfold same_manager. simpl. by rewrite He, Hl, Hp, Hw. }
  intros _ _ _. eapply sim_bind; [apply sim_replace|]. intros _ _ _.
  apply (sim_bind eq). { destruct h; [apply sim_replace|by apply sim_ret]. }
  intros _ _ _. eapply sim_bind; [apply sim_record|]. intros _ _ _. by apply sim_ret.
Qed.
End TwoManagers.

(** ** The chain *)

(** Versions sit under their ids, their semvers parse and are pairwise
    distinct, and at most one of them is ratified. *)
Record chain_ok (m : gmap string ConstitutionVersionISR) : Prop := {
  ck_keyed id v : m !! id = Some v -> cv_version_id v = id;
  ck_parse id v : m !! id = Some v -> exists s, parse_semver (cv_semver v) = Ok s;
  ck_distinct i j v w : m !! i = Some v -> m !! j = Some w ->
    parse_semver (cv_semver v) = parse_semver (cv_semver w) -> i = j;
  ck_head i j v w : m !! i = Some v -> m !! j = Some w ->
    cv_status v = V_RATIFIED -> cv_status w = V_RATIFIED -> i = j;
}.

Definition is_head (m : gmap string ConstitutionVersionISR) (h : option ConstitutionVersionISR)
    : Prop :=
  match h with
  | Some v => m !! cv_version_id v = Some v /\ cv_status v = V_RATIFIED
  | None => forall id v, m !! id = Some v -> cv_status v <> V_RATIFIED
  end.

(** The candidate is greater than every version there is. *)
Definition above (c : semver) (m : gmap string ConstitutionVersionISR) : Prop :=
  forall id v s, m !! id = Some v -> parse_semver (cv_semver v) = Ok s -> semver_leb c s = false.

Lemma chain_ok_empty : chain_ok ∅.
Proof. split; intros *; by rewrite lookup_empty. Qed.

Lemma is_head_unique m h h' : chain_ok m -> is_head m h -> is_head m h' -> h = h'.
Proof.
  intros Hm. destruct h as [v|], h' as [w|]; simpl; [|naive_solver..].
  intros [Hv Sv] [Hw Sw]. pose proof (ck_head m Hm _ _ _ _ Hv Hw Sv Sw). congruence.
Qed.

Lemma semver_leb_refl s : semver_leb s s = true.
Proof. destruct s as [[a b] c]. simpl. lia. Qed.

Lemma chain_ok_add m v c :
  chain_ok m -> m !! cv_version_id v = None -> parse_semver (cv_semver v) = Ok c ->
  above c m -> cv_status v = V_PROPOSED -> chain_ok (<[cv_version_id v := v]> m).
Proof.
  intros Hm Hn Hc Ha Hs. split; intros *; rewrite ?lookup_insert_Some.
  - intros [[? ?]|[? ?]]; [congruence|by eapply ck_keyed].
  - intros [[<- <-]|[? ?]]; [by exists c|by eapply ck_parse].
  - intros [[<- <-]|[? H1]] [[<- <-]|[? H2]]; [done| | |by eapply ck_distinct]; intros E.
    + rewrite Hc in E. symmetry in E. pose proof (Ha _ _ _ H2 E). by rewrite semver_leb_refl in H0.
    + rewrite Hc in E. pose proof (Ha _ _ _ H1 E). by rewrite semver_leb_refl in H0.
  - intros [[<- <-]|[? H1]] [[<- <-]|[? H2]]; [done|congruence|congruence|by eapply ck_head].
Qed.

(** Replacing versions by versions with the same ids and semvers. *)
Lemma chain_ok_update m m' :
  chain_ok m ->
  (forall id v', m' !! id = Some v' -> exists v, m !! id = Some v /\
     cv_version_id v' = cv_version_id v /\ cv_semver v' = cv_semver v) ->
  (forall i j v w, m' !! i = Some v -> m' !! j = Some w ->
     cv_status v = V_RATIFIED -> cv_status w = V_RATIFIED -> i = j) ->
  chain_ok m'.
Proof.
  intros Hm Hs Hh. split; [| | |done].
  - intros id v' (v & Hv & -> & _)%Hs. by eapply ck_keyed.
  - intros id v' (v & Hv & _ & ->)%Hs. by eapply ck_parse.
  - intros i j v' w' (v & Hv & _ & ->)%Hs (w & Hw & _ & ->)%Hs. by eapply ck_distinct.
Qed.

(** The map after a ratification. *)
Definition supersede (h : option ConstitutionVersionISR) (m : gmap string ConstitutionVersionISR)
    : gmap string ConstitutionVersionISR :=
  match h with Some v => <[cv_version_id v := supersede_version v]> m | None => m end.

Lemma chain_ok_ratify m v h wf lid now :
  chain_ok m -> m !! cv_version_id v = Some v -> cv_status v = V_PROPOSED -> is_head m h ->
  let m' := supersede h (<[cv_version_id v := ratify_version wf lid now v]> m) in
  chain_ok m' /\ is_head m' (Some (ratify_version wf lid now v)).
Proof.
  intros Hm Hv Hs Hh m'.
  assert (Hl : forall id w, m' !! id = Some w ->
    (id = cv_version_id v /\ w = ratify_version wf lid now v) \/
    (id <> cv_version_id v /\ m !! id = Some w /\ cv_status w <> V_RATIFIED) \/
    (exists w0, id <> cv_version_id v /\ m !! id = Some w0 /\ w = supersede_version w0)).
  { intros id w. unfold m'. destruct h as [x|]; simpl in *.
    - destruct Hh as [Hx Sx]. rewrite lookup_insert_Some.
      intros [[<- <-]|[Hne [[<- <-]|[Hne' H2]]%lookup_insert_Some]]; [| |].
      + right; right. exists x. split; [|done]. intros E. rewrite E in Hx. congruence.
      + by left.
      + right; left. split; [done|]. split; [done|]. intros Sw. apply Hne.
        by eapply (ck_head m Hm _ _ _ _ Hx H2).
    - intros [[<- <-]|[Hne' H2]]%lookup_insert_Some; [by left|right; left; eauto]. }
  split; [apply (chain_ok_update m); [done| |]|].
  - intros id w [[-> ->]|[(? & ? & ?)|(w0 & ? & ? & ->)]]%Hl; eauto.
  - intros i j x y [[-> ->]|[(? & ? & ?)|(w0 & ? & ? & ->)]]%Hl
      [[-> ->]|[(? & ? & ?)|(w1 & ? & ? & ->)]]%Hl; done.
  - split; [|done]. unfold m'. destruct h as [x|]; simpl in *; [|by rewrite lookup_insert_eq].
    destruct Hh as [Hx Sx].
    rewrite lookup_insert_ne; [by rewrite lookup_insert_eq|]. intros E. rewrite E in Hx. congruence.
Qed.

Lemma NoDup_filter_list {A} (p : A -> bool) l : NoDup l -> NoDup (List.filter p l).
Proof.
  induction 1 as [|x l Hx Hl IH]; simpl; [constructor|]. destruct (p x); [|done].
  constructor; [|done]. rewrite list_elem_of_In, filter_In, <- list_elem_of_In. naive_solver.
Qed.

Lemma NoDup_versions m : chain_ok m -> NoDup (map_to_list m).*2.
Proof.
  intros Hm. apply (NoDup_fmap_1 cv_version_id).
  assert (E : cv_version_id <$> (map_to_list m).*2 = (map_to_list m).*1).
  { rewrite <- list_fmap_compose. apply list_fmap_ext. intros i [id v] Hi.
    apply list_elem_of_lookup_2, elem_of_map_to_list in Hi. by apply (ck_keyed m Hm). }
  rewrite E. apply NoDup_fst_map_to_list.
Qed.

Section Reads.
Context `{Env} {R : Type} `{RepositoryReads R view}.
Variable canonical_payload_hash : pydict -> string.
Implicit Types (s : VersionManager R) (m : gmap string ConstitutionVersionISR).

(** The chain a manager's repository holds. *)
Definition holds s m : Prop := view (vm_repo s) m /\ chain_ok m.

(** The id the next version or lineage gets. *)
Definition next_id (prefix : string) s : string :=
  prefix +:+ "-" +:+ uuid_hex (uuids_drawn (vm_world s)).

Lemma put_repo_same s : put_repo (vm_repo s) s = s.
Proof. by destruct s. Qed.

Lemma run_all s m : view (vm_repo s) m ->
  exists l, in_repo repo_all s = (Ok l, s) /\ l ≡ₚ (map_to_list m).*2.
Proof.
  intros Hv. destruct (law_all _ _ Hv) as (l & E & HP). exists l. split; [|done].
  unfold in_repo, zoom. by rewrite E, put_repo_same.
Qed.

Lemma elem_all m l v : l ≡ₚ (map_to_list m).*2 -> v ∈ l <-> exists id, m !! id = Some v.
Proof.
  intros HP. rewrite HP, list_elem_of_fmap. split.
  - intros ([id w] & -> & Hx%elem_of_map_to_list). by exists id.
  - intros [id Hx%elem_of_map_to_list]. by exists (id, v).
Qed.

Lemma run_current s m : holds s m -> exists h, is_head m h /\ current s = (Ok h, s).
Proof.
  intros [Hv Hm]. destruct (run_all s m Hv) as (l & E & HP).
  unfold current. rewrite (M_bind_Ok _ _ _ _ _ E).
  assert (Hin : forall v, v ∈ List.filter (fun v => bool_decide (cv_status v = V_RATIFIED)) l <->
            m !! cv_version_id v = Some v /\ cv_status v = V_RATIFIED).
  { intros v. rewrite list_elem_of_In, filter_In, <- list_elem_of_In, (elem_all m l v HP), bool_decide_eq_true.
    split; [|intros [? ?]; by eauto]. intros [[id Hi] ?]. by rewrite (ck_keyed m Hm _ _ Hi). }
  assert (Hnd : NoDup (List.filter (fun v => bool_decide (cv_status v = V_RATIFIED)) l)).
  { apply NoDup_filter_list. rewrite HP. by apply NoDup_versions. }
  destruct (List.filter _ l) as [|v [|w k]].
  - exists None. split; [|done]. intros id v Hi Sv. apply (not_elem_of_nil v), Hin.
    by rewrite (ck_keyed m Hm _ _ Hi).
  - exists (Some v). split; [|done]. apply Hin. by left.
  - exfalso. apply NoDup_cons in Hnd as [Hn _]. apply Hn.
    destruct (proj1 (Hin v)) as [Hv1 Sv]; [by left|]. destruct (proj1 (Hin w)) as [Hw Sw]; [by right; left|].
    pose proof (ck_head m Hm _ _ _ _ Hv1 Hw Sv Sw) as Ei. rewrite Ei in Hv1.
    assert (v = w) as <- by congruence. by left.
Qed.

(** One step of a method body whose outcome is known. *)
Ltac run E := rewrite (M_bind_Ok _ _ _ _ _ E); cbn beta.

Definition draw_id s : VersionManager R :=
  put_evidence (vm_evidence s)
    {| uuids_drawn := S (uuids_drawn (vm_world s)); clock_reads := clock_reads (vm_world s) |} s.

Lemma run_full_id p s : full_id p s = (Ok (next_id p s), draw_id s).
Proof. done. Qed.
Lemma run_in_repo {A} (op : M R A) s a r :
  op (vm_repo s) = (Ok a, r) -> in_repo op s = (Ok a, put_repo r s).
Proof. unfold in_repo, zoom. by intros ->. Qed.
Lemma run_modify (f : VersionManager R -> VersionManager R) s : modify f s = (Ok tt, f s).
Proof. done. Qed.
Lemma run_lift_ok {A} (a : A) s : lift_res (Ok a) s = (Ok a, s).
Proof. done. Qed.

(** Recording in the ledger changes nothing but the ledger and its ids. *)
Lemma run_record kind v now extra s :
  exists e w, manager_record canonical_payload_hash kind v now extra s = (Ok tt, put_evidence e w s).
Proof.
  unfold manager_record. destruct (vm_evidence s) as [es|] eqn:E.
  - unfold record. unfold_monad. simpl. by do 2 eexists.
  - exists None, (vm_world s). rewrite <- E. by destruct s.
Qed.

(** The lineage node of a ratification. *)
Definition ratification_lineage (o : VoteOutcome) (now : Z) s (v : ConstitutionVersionISR)
    (h : option ConstitutionVersionISR) : ChangeLineageISR :=
  let '(kind, summary) := dget_or (cv_version_id v) (vm_proposals s) (AMENDMENT, EmptyString) in
  {| cl_lineage_id := next_id "cl" s; cl_change_kind := kind;
     cl_parent_version_refs := match h with Some x => [cv_version_id x] | None => [] end;
     cl_authorizing_workflow_ref := vo_workflow_ref o;
     cl_summary := if truthy summary then summary else "ratify " +:+ cv_semver v;
     cl_created_at := now |}.

(** Ratification up to the first replacement. *)
Lemma run_ratify_prefix o now s m v :
  holds s m -> m !! cv_version_id v = Some v -> cv_status v = V_PROPOSED ->
  vo_approved o = true ->
  exists h, is_head m h /\
  let v' := ratify_version (vo_workflow_ref o) (next_id "cl" s) now v in
  ratify canonical_payload_hash (cv_version_id v) o now s
  = (_ ← in_repo (repo_replace v');
     _ ← match h with Some x => in_repo (repo_replace (supersede_version x)) | None => mret tt end;
     _ ← manager_record canonical_payload_hash "version_ratified" v' now
           [("workflow_ref", VStr (vo_workflow_ref o))];
     mret v') (add_lineage (ratification_lineage o now s v h) (draw_id s)).
Proof.
  intros Hs Hv Hst Ho. destruct (run_current s m Hs) as (h & Hh & Eh). exists h.
  split; [done|]. cbv zeta. unfold ratify.
  pose proof (law_get (vm_repo s) m (cv_version_id v) (proj1 Hs)) as Eg. rewrite Hv in Eg.
  apply run_in_repo in Eg. rewrite put_repo_same in Eg. run Eg.
  rewrite bool_decide_false by (intros Hn; by apply Hn). rewrite Ho. cbn [negb].
  run (eq_refl : gets vm_proposals s = (Ok (vm_proposals s), s)).
  unfold ratification_lineage. destruct (dget_or _ _ _) as [k sm].
  run Eh. run (run_full_id "cl" s).
  by erewrite M_bind_Ok by apply run_modify.
Qed.

End Reads.

(** One step of a method body whose outcome is known. *)
Ltac run E := rewrite (M_bind_Ok _ _ _ _ _ E); cbn beta.

Section OneManager.
Context `{Env} {R : Type} `{RepositoryLaws R view}.
Variable canonical_payload_hash : pydict -> string.
Implicit Types (s : VersionManager R) (m : gmap string ConstitutionVersionISR).
#[local] Abbreviation holds := (@holds R view).

(** The version [propose] makes. *)
Definition proposed_version (text policy by_ : string) (now : Z) (id : string)
    (h : option ConstitutionVersionISR) : ConstitutionVersionISR := {|
  cv_version_id := id; cv_semver := text; cv_status := V_PROPOSED; cv_policy_set_ref := policy;
  cv_proposed_by := by_; cv_proposed_at := now; cv_predecessor_ref := cv_version_id <$> h;
  cv_ratification_workflow_ref := None; cv_lineage_ref := None; cv_effective_at := None |}.

Lemma forallb_below c m l : chain_ok m -> l ≡ₚ (map_to_list m).*2 ->
  forallb (below c) l = true <-> above c m.
Proof.
  intros Hm HP. rewrite forallb_forall. split.
  - intros Hl id v s Hi Hs. assert (Hin : In v l) by (apply list_elem_of_In, (elem_all m l v HP); eauto).
    apply Hl in Hin. unfold below in Hin. rewrite Hs in Hin. by apply negb_true_iff.
  - intros Ha v Hin%list_elem_of_In. apply (elem_all m l v HP) in Hin as [id Hi].
    destruct (ck_parse m Hm _ _ Hi) as [s Hs]. unfold below. rewrite Hs.
    apply negb_true_iff. by eapply Ha.
Qed.

(** [propose] up to the repository. *)
Lemma run_propose_prefix text policy by_ kind summary now s m c h :
  holds s m -> parse_semver text = Ok c -> is_head m h -> current s = (Ok h, s) ->
  let v := proposed_version text policy by_ now (next_id "cv" s) h in
  (above c m -> propose canonical_payload_hash text policy by_ kind summary now s
    = (_ ← in_repo (repo_add v);
       _ ← modify (set_proposal (next_id "cv" s) (kind, summary));
       _ ← manager_record canonical_payload_hash "version_proposed" v now
             [("change_kind", VStr (change_kind_value kind)); ("summary", VStr summary)];
       mret v) (draw_id s)) /\
  (~ above c m -> exists t, propose canonical_payload_hash text policy by_ kind summary now s
                            = (Raise (VersioningError t), s)).
Proof.
  intros [Hv Hm] Ec Hh Eh. destruct (run_all s m Hv) as (l & El & HP). cbv zeta. unfold propose.
  rewrite Ec. pose proof (check_increases_run text c l s) as Hc.
  pose proof (forallb_below c m l Hm HP) as Hb. split.
  - intros Ha. rewrite (proj2 Hb Ha) in Hc.
    run (run_lift_ok c s). run El. run Hc. run Eh. by run (run_full_id "cv" s).
  - intros Ha. destruct (forallb (below c) l); [by destruct Ha; apply Hb|].
    destruct Hc as [t Hc]. exists t. run (run_lift_ok c s). run El.
    by rewrite (M_bind_Raise _ _ _ _ _ Hc).
Qed.

(** [propose] on any repository that keeps its contract: an ill-formed
    semver is refused; a semver that is not greater than every version there is
    (proposed, ratified or superseded) is refused and nothing changes; otherwise,
    when the drawn id is new, the version is appended as PROPOSED with the
    ratified head as its predecessor, and its change kind is remembered. *)
Theorem propose_appends text policy by_ kind summary now s m :
  holds s m ->
  match parse_semver text with
  | Raise e => propose canonical_payload_hash text policy by_ kind summary now s = (Raise e, s)
  | Ok c =>
      exists h, is_head m h /\
      let v := proposed_version text policy by_ now (next_id "cv" s) h in
      (above c m -> m !! next_id "cv" s = None ->
       exists s', propose canonical_payload_hash text policy by_ kind summary now s = (Ok v, s') /\
         holds s' (<[next_id "cv" s := v]> m) /\ vm_lineages s' = vm_lineages s /\
         vm_proposals s' = dset (next_id "cv" s) (kind, summary) (vm_proposals s)) /\
      (~ above c m ->
       exists t, propose canonical_payload_hash text policy by_ kind summary now s
                 = (Raise (VersioningError t), s))
  end.
Proof.
  intros Hs. pose proof Hs as [Hv Hm].
  destruct (parse_semver text) as [c|e] eqn:Ec; [|unfold propose; by rewrite Ec].
  destruct (run_current s m Hs) as (h & Hh & Eh). exists h. split; [done|].
  destruct (run_propose_prefix text policy by_ kind summary now s m c h Hs Ec Hh Eh) as [Hok Hbad].
  split; [|exact Hbad]. intros Ha Hn. rewrite (Hok Ha). clear Hok Hbad.
  set (v := proposed_version _ _ _ _ _ _).
  destruct (law_add_new (vm_repo s) m v Hv Hn) as (r' & Er & Vr).
  apply (run_in_repo _ (draw_id s)) in Er. run Er.
  erewrite M_bind_Ok by apply run_modify. cbn beta.
  edestruct (run_record (R := R) canonical_payload_hash "version_proposed" v now) as (e & w & Ew). run Ew.
  eexists. split; [done|]. split; [|done]. split; [done|]. by apply (chain_ok_add m v c).
Qed.

Lemma run_ratify o now s m v :
  holds s m -> m !! cv_version_id v = Some v -> cv_status v = V_PROPOSED ->
  vo_approved o = true ->
  exists h s', is_head m h /\
  let v' := ratify_version (vo_workflow_ref o) (next_id "cl" s) now v in
  let m' := supersede h (<[cv_version_id v := v']> m) in
  ratify canonical_payload_hash (cv_version_id v) o now s = (Ok v', s') /\
  holds s' m' /\ is_head m' (Some v') /\
  vm_lineages s' = vm_lineages s ++ [ratification_lineage o now s v h] /\
  vm_proposals s' = vm_proposals s.
Proof.
  intros Hs Hv Hst Ho. destruct (run_ratify_prefix canonical_payload_hash o now s m v Hs Hv Hst Ho) as (h & Hh & E).
  destruct Hs as [Hview Hm]. exists h. cbv zeta in E |- *. rewrite E. clear E.
  set (v' := ratify_version _ _ _ _). set (s1 := add_lineage _ _).
  assert (Hi : cv_version_id v' = cv_version_id v) by done.
  destruct (law_replace (vm_repo s1) m v' Hview) as (r1 & E1 & V1); [by rewrite Hi, Hv|].
  apply run_in_repo in E1. run E1. rewrite Hi in V1.
  set (m' := supersede h _).
  assert (E2 : exists s2, (match h with Some x => in_repo (repo_replace (supersede_version x))
                           | None => mret tt end) (put_repo r1 s1) = (Ok tt, s2)
            /\ view (vm_repo s2) m' /\ vm_lineages s2 = vm_lineages s1
            /\ vm_proposals s2 = vm_proposals s1).
  { destruct h as [x|]; [|by exists (put_repo r1 s1)].
    destruct Hh as [Hx Sx].
    destruct (law_replace r1 _ (supersede_version x) V1) as (r2 & E2 & V2).
    { simpl. rewrite lookup_insert_ne; [by rewrite Hx|]. intros Ei. rewrite Ei in Hv. congruence. }
    exists (put_repo r2 (put_repo r1 s1)). split; [by apply run_in_repo|done]. }
  destruct E2 as (s2 & E2 & V2 & L2 & P2). run E2.
  destruct (run_record (R := R) canonical_payload_hash "version_ratified" v' now [("workflow_ref", VStr (vo_workflow_ref o))] s2)
    as (e & w & E3). run E3.
  destruct (chain_ok_ratify m v h (vo_workflow_ref o) (next_id "cl" s) now Hm Hv Hst Hh) as [K1 K2].
  eexists. split_and!; [done|done|split; [exact V2|done]|done|done|done].
Qed.

(** [ratify], all cases: an unknown id, a version that is not PROPOSED and
    a vote that did not approve are refused and nothing changes.  Otherwise the
    version becomes the only RATIFIED one, the previous head becomes
    SUPERSEDED, every other version is untouched, and one lineage node naming
    the previous head and the vote is appended.  The vote is any approved
    outcome: nothing ties it to the version. *)
Theorem ratify_effect version_id o now s m :
  holds s m ->
  let result := ratify canonical_payload_hash version_id o now s in
  match m !! version_id with
  | None => result = (Raise (VersioningError ("unknown_version_id:" +:+ version_id)), s)
  | Some v =>
      if bool_decide (cv_status v <> V_PROPOSED) then
        result = (Raise (VersioningError ("only_proposed_versions_can_be_ratified:"
                                          +:+ version_status_value (cv_status v))), s)
      else if negb (vo_approved o) then
        result = (Raise (VersioningError ("ratification_requires_approved_vote:"
                                          +:+ vo_reason o)), s)
      else exists h s', is_head m h /\
        let v' := ratify_version (vo_workflow_ref o) (next_id "cl" s) now v in
        result = (Ok v', s') /\ holds s' (supersede h (<[version_id := v']> m)) /\
        is_head (supersede h (<[version_id := v']> m)) (Some v') /\
        vm_lineages s' = vm_lineages s ++ [ratification_lineage o now s v h]
  end.
Proof.
  intros Hs result. unfold result. clear result.
  pose proof (law_get (vm_repo s) m version_id (proj1 Hs)) as Eg.
  apply run_in_repo in Eg. rewrite put_repo_same in Eg.
  destruct (m !! version_id) as [v|] eqn:Ev; [|unfold ratify; by run Eg].
  case_bool_decide as Est; [unfold ratify; run Eg; by rewrite bool_decide_true|].
  destruct (negb (vo_approved o)) eqn:Eo.
  { unfold ratify. run Eg. by rewrite bool_decide_false, Eo by auto. }
  pose proof (ck_keyed m (proj2 Hs) _ _ Ev) as <-.
  destruct (run_ratify o now s m v Hs Ev) as (h & s' & H');
    [by auto using dec_stable|by apply negb_false_iff|].
  exists h, s'. cbv zeta in H'. naive_solver.
Qed.

(** The head can move backwards: of two proposed versions, ratify the newer
    one and then the older one (each with an approved vote).  The older version
    becomes the head, and the newer one is SUPERSEDED by it. *)
Theorem ratifying_an_older_version_rolls_back old new o1 o2 t1 t2 s m co cn :
  holds s m ->
  m !! cv_version_id old = Some old -> m !! cv_version_id new = Some new ->
  cv_status old = V_PROPOSED -> cv_status new = V_PROPOSED ->
  parse_semver (cv_semver old) = Ok co -> parse_semver (cv_semver new) = Ok cn ->
  semver_leb cn co = false -> vo_approved o1 = true -> vo_approved o2 = true ->
  exists s1 s2 m2 new' old',
    ratify canonical_payload_hash (cv_version_id new) o1 t1 s = (Ok new', s1) /\
    ratify canonical_payload_hash (cv_version_id old) o2 t2 s1 = (Ok old', s2) /\
    holds s2 m2 /\ current s2 = (Ok (Some old'), s2) /\ cv_semver old' = cv_semver old /\
    m2 !! cv_version_id new = Some (supersede_version new').
Proof.
  intros Hs Ho Hn So Sn Po Pn Hlt A1 A2.
  assert (Hne : cv_version_id old <> cv_version_id new).
  { intros E. rewrite E, Hn in Ho. simplify_eq. rewrite Po in Pn. simplify_eq.
    by rewrite semver_leb_refl in Hlt. }
  destruct (run_ratify o1 t1 s m new Hs Hn Sn A1) as (h1 & s1 & Hh1 & E1 & Hs1 & Hd1 & _).
  set (new' := ratify_version _ _ _ new) in *. set (m1 := supersede h1 _) in *.
  assert (Ho1 : m1 !! cv_version_id old = Some old).
  { unfold m1. destruct h1 as [x|]; simpl.
    - destruct Hh1 as [Hx Sx]. rewrite lookup_insert_ne, lookup_insert_ne by congruence. done.
    - by rewrite lookup_insert_ne. }
  destruct (run_ratify o2 t2 s1 m1 old Hs1 Ho1 So A2) as (h2 & s2 & Hh2 & E2 & Hs2 & Hd2 & _).
  rewrite (is_head_unique m1 h2 (Some new') (proj2 Hs1) Hh2 Hd1) in *.
  destruct (run_current s2 _ Hs2) as (h3 & Hh3 & E3).
  rewrite (is_head_unique _ h3 _ (proj2 Hs2) Hh3 Hd2) in E3.
  do 5 eexists. split_and!; [exact E1|exact E2|exact Hs2|exact E3|done|].
  simpl. by rewrite lookup_insert_eq.
Qed.

(** Being greater than every version is decided by a scan. *)
Lemma above_dec c s m : holds s m -> above c m \/ ~ above c m.
Proof.
  intros [Hv Hm]. destruct (run_all s m Hv) as (l & _ & HP). rewrite <- (forallb_below c m l Hm HP).
  by destruct (forallb _ _); [left|right].
Qed.

(** Every call keeps the chain well-formed. *)
Lemma propose_holds t p b k sm now s m :
  holds s m -> exists m', holds (propose canonical_payload_hash t p b k sm now s).2 m'.
Proof.
  intros Hs. destruct (parse_semver t) as [c|e] eqn:Ec;
    [|exists m; unfold propose; by rewrite Ec].
  destruct (run_current s m Hs) as (h & Hh & Eh).
  destruct (run_propose_prefix t p b k sm now s m c h Hs Ec Hh Eh) as [Hok Hbad].
  destruct (above_dec c s m Hs) as [Ha|Ha]; [|destruct (Hbad Ha) as [x ->]; by exists m].
  rewrite (Hok Ha). set (v := proposed_version _ _ _ _ _ _).
  destruct (m !! cv_version_id v) eqn:Ed.
  - assert (Er : in_repo (repo_add v) (draw_id s) = (Raise (VersioningError
        ("duplicate_version_id:" +:+ cv_version_id v)), draw_id s)).
    { unfold in_repo, zoom. rewrite (law_add_dup (vm_repo (draw_id s)) m v (proj1 Hs)) by done.
      by rewrite put_repo_same. }
    rewrite (M_bind_Raise _ _ _ _ _ Er). by exists m.
  - destruct (law_add_new (vm_repo s) m v (proj1 Hs) Ed) as (r' & Er & Vr).
    apply (run_in_repo _ (draw_id s)) in Er. run Er.
    erewrite M_bind_Ok by apply run_modify. cbn beta.
    edestruct (run_record (R := R) canonical_payload_hash "version_proposed" v now) as (e & w & Ew). run Ew.
    eexists. split; [exact Vr|]. by apply (chain_ok_add m v c); [apply Hs|..].
Qed.

Lemma ratify_holds id o now s m :
  holds s m -> exists m', holds (ratify canonical_payload_hash id o now s).2 m'.
Proof.
  intros Hs. pose proof (law_get (vm_repo s) m id (proj1 Hs)) as Eg.
  apply run_in_repo in Eg. rewrite put_repo_same in Eg.
  destruct (m !! id) as [v|] eqn:Ev; [|unfold ratify; run Eg; by exists m].
  pose proof (ck_keyed m (proj2 Hs) _ _ Ev) as <-.
  destruct (decide (cv_status v = V_PROPOSED)) as [Est|Est];
    [|unfold ratify; run Eg; rewrite bool_decide_true by done; by exists m].
  destruct (vo_approved o) eqn:Eo;
    [|unfold ratify; run Eg; rewrite bool_decide_false, Eo by auto; by exists m].
  destruct (run_ratify o now s m v Hs Ev Est Eo) as (h & s' & Hh & -> & Hs' & _). by eexists.
Qed.

Lemma exec_holds c s m : holds s m -> exists m', holds (exec canonical_payload_hash c s).2 m'.
Proof.
  intros Hs. destruct c as [t p b k sm now|id o now| | |]; simpl.
  - destruct (propose_holds t p b k sm now s m Hs) as [m' Hm']. exists m'.
    unfold mbind, M_bind. by destruct (propose _ _ _ _ _ _ _ s) as [[] ?].
  - destruct (ratify_holds id o now s m Hs) as [m' Hm']. exists m'.
    unfold mbind, M_bind. by destruct (ratify _ _ _ _ s) as [[] ?].
  - destruct (run_current s m Hs) as (h & _ & E). run E. by exists m.
  - exists m. destruct (run_all s m (proj1 Hs)) as (l & E & _). unfold history, mbind, M_bind, lift_res.
    rewrite E. by destruct (map_res _ l).
  - by exists m.
Qed.

Lemma exec_all_holds cs s m :
  holds s m -> exists m', holds (exec_all canonical_payload_hash cs s).2 m'.
Proof.
  revert s m. induction cs as [|c cs IH]; intros s m Hs; simpl; [by exists m|].
  destruct (exec_holds c s m Hs) as [m1 Hm1].
  destruct (exec _ c s) as [r s1]. destruct (IH s1 m1 Hm1) as [m2 Hm2].
  destruct (exec_all _ cs s1) as [rs s2]. by exists m2.
Qed.
End OneManager.

(** C20: However a client calls it, a manager over any repository that keeps its
    contract, starting from an empty chain, keeps the chain well-formed:
    versions under their ids, semvers that parse and are pairwise distinct, at
    most one RATIFIED version, which [current] returns without an error. *)
Theorem version_chain_invariant `{Env} {R} `{RepositoryLaws R view} digest cs
    (s : VersionManager R) :
  view (vm_repo s) ∅ ->
  exists m h, holds (view := view) (exec_all digest cs s).2 m /\ is_head m h /\
    current (exec_all digest cs s).2 = (Ok h, (exec_all digest cs s).2).
Proof.
  intros Hv. destruct (exec_all_holds digest cs s ∅) as [m Hm].
  { split; [done|apply chain_ok_empty]. }
  destruct (run_current _ m Hm) as (h & Hh & E). by exists m, h.
Qed.

(** ** Refinement: the disk-backed manager and the one in memory *)

Lemma semver_leb_total x y : semver_leb x y = false -> semver_leb y x = true.
Proof. destruct x as [[a b] c], y as [[a' b'] c']. simpl. lia. Qed.
Lemma semver_leb_trans x y z :
  semver_leb x y = true -> semver_leb y z = true -> semver_leb x z = true.
Proof. destruct x as [[a b] c], y as [[a' b'] c'], z as [[a'' b''] c'']. simpl. lia. Qed.
Lemma semver_leb_antisym x y : semver_leb x y = true -> semver_leb y x = true -> x = y.
Proof.
  destruct x as [[a b] c], y as [[a' b'] c']. simpl. intros.
  assert (a = a' /\ b = b' /\ c = c') by lia. naive_solver.
Qed.

Definition semver_of (v : ConstitutionVersionISR) : semver :=
  match parse_semver (cv_semver v) with Ok s => s | Raise _ => (0, 0, 0) end.

Lemma keyed_versions m l : chain_ok m -> l ≡ₚ (map_to_list m).*2 ->
  map_res (fun v => k ← parse_semver (cv_semver v); mret (k, v)) l
  = Ok (map (fun v => (semver_of v, v)) l).
Proof.
  intros Hm HP. apply map_res_ok. intros v Hv. apply (elem_all m l v HP) in Hv as [id Hi].
  destruct (ck_parse m Hm _ _ Hi) as [s Hs]. unfold semver_of. by rewrite Hs.
Qed.

Lemma sorted_versions m l1 l2 : chain_ok m ->
  l1 ≡ₚ (map_to_list m).*2 -> l2 ≡ₚ (map_to_list m).*2 ->
  sort_by semver_entry_leb (map (fun v => (semver_of v, v)) l1)
  = sort_by semver_entry_leb (map (fun v => (semver_of v, v)) l2).
Proof.
  intros Hm H1 H2. apply sort_by_permutation.
  - intros x y. apply semver_leb_total.
  - intros x y z. apply semver_leb_trans.
  - intros x y Hx Hy. change (map ?f) with (fmap (M := list) f) in Hx, Hy.
    apply list_elem_of_fmap in Hx as (v & -> & Hv). apply list_elem_of_fmap in Hy as (w & -> & Hw).
    intros L1 L2. pose proof (semver_leb_antisym _ _ L1 L2) as E. simpl in E.
    apply (elem_all m l1 _ H1) in Hv as [i Hi]. apply (elem_all m l1 _ H1) in Hw as [j Hj].
    assert (i = j) as ->; [|congruence]. apply (ck_distinct m Hm i j v w Hi Hj).
    destruct (ck_parse m Hm _ _ Hi) as [s Hs], (ck_parse m Hm _ _ Hj) as [t Ht].
    unfold semver_of in E. rewrite Hs, Ht in E |- *. by subst.
  - change (map ?f) with (fmap (M := list) f). by rewrite H1, H2.
Qed.

Section Refinement.
Context `{Env} {R1 R2 : Type} `{RepositoryLaws R1 view1} `{RepositoryLaws R2 view2}.
Variable digest : pydict -> string.
Abbreviation same := (@same_manager R1 R2 view1 view2).

Lemma sim_history s1 s2 m :
  view1 (vm_repo s1) m -> view2 (vm_repo s2) m -> chain_ok m ->
  exists vs, history s1 = (Ok vs, s1) /\ history s2 = (Ok vs, s2).
Proof.
  intros V1 V2 Hm. destruct (run_all s1 m V1) as (l1 & E1 & P1).
  destruct (run_all s2 m V2) as (l2 & E2 & P2).
  exists (map snd (sort_by semver_entry_leb (map (fun v => (semver_of v, v)) l1))).
  unfold history. run E1. run E2.
  rewrite (keyed_versions m l1), (keyed_versions m l2) by done.
  split; [done|]. by rewrite (sorted_versions m l1 l2).
Qed.

Lemma sim_exec c s1 s2 m :
  view1 (vm_repo s1) m -> chain_ok m -> same s1 s2 ->
  same_answer eq (exec digest c s1).1 (exec digest c s2).1 /\
  same (exec digest c s1).2 (exec digest c s2).2.
Proof.
  intros V1 Hm Hs. revert s1 s2 V1 Hs.
  assert (Hret : forall A (f : A -> response) (p1 : M (VersionManager R1) A)
      (p2 : M (VersionManager R2) A), sim (view1 := view1) (view2 := view2) eq p1 p2 ->
      sim (view1 := view1) (view2 := view2) eq (p1 ≫= (fun a => mret (f a))) (p2 ≫= (fun a => mret (f a)))).
  { intros A f p1 p2 Hp. apply (sim_bind eq); [done|]. intros a ? <-. by apply sim_ret. }
  intros s1 s2 V1 Hs. destruct c as [t p b k sm now|id o now| | |]; simpl.
  - apply Hret; [apply sim_propose|done].
  - apply Hret; [apply sim_ratify|done].
  - apply Hret; [apply sim_current|done].
  - pose proof Hs as [(m' & W1 & W2) _].
    rewrite (law_view_fun _ _ _ W1 V1) in W2.
    destruct (sim_history s1 s2 m V1 W2 Hm) as (vs & E1 & E2). run E1. by run E2.
  - split; [|done]. f_equal. apply Hs.
Qed.

Lemma sim_exec_all cs s1 s2 m :
  view1 (vm_repo s1) m -> chain_ok m -> same s1 s2 ->
  Forall2 (same_answer eq) (exec_all digest cs s1).1 (exec_all digest cs s2).1 /\
  same (exec_all digest cs s1).2 (exec_all digest cs s2).2.
Proof.
  revert s1 s2 m. induction cs as [|c cs IH]; intros s1 s2 m V1 Hm Hs; simpl; [by split|].
  destruct (sim_exec c s1 s2 m V1 Hm Hs) as [Ha Hs'].
  destruct (exec_holds digest c s1 m (conj V1 Hm)) as (m' & V1' & Hm').
  destruct (exec digest c s1) as [r1 t1], (exec digest c s2) as [r2 t2]. simpl in *.
  destruct (IH t1 t2 m' V1' Hm' Hs') as [Has Hs2].
  destruct (exec_all digest cs t1) as [rs1 u1], (exec_all digest cs t2) as [rs2 u2].
  simpl in *. split; [by constructor|done].
Qed.
End Refinement.

(** C2: "Drop-in": over a disk that accepts its writes, a manager on the JSON
    document answers every sequence of calls like a manager on the dict in
    memory, version by version, up to the text of a VersioningError (the two
    list existing versions in different orders, so a refused semver may name
    another version), and ends with the same versions, ledger and lineages. *)
Theorem file_backed_manager_refines_in_memory `{Env} `{CodecLaws} `{Disk} digest cs evidence w :
  (forall n, write_succeeds n = true) ->
  let p1 := exec_all digest cs (new_manager ([] : InMemory) evidence w) in
  let p2 := exec_all digest cs (new_manager {| fb_file := None; fb_writes := 0 |} evidence w) in
  Forall2 (same_answer eq) p1.1 p2.1 /\
  same_manager (view1 := mem_view) (view2 := file_view) p1.2 p2.2.
Proof.
  intros Hw. pose proof (file_laws Hw).
  apply (sim_exec_all digest cs _ _ ∅).
  - by split; [apply dict_ok_nil|].
  - apply chain_ok_empty.
  - split_and!; [|done..]. exists ∅. split; [by split; [apply dict_ok_nil|]|].
    split; [apply dict_ok_nil|]. by rewrite fmap_empty.
Qed.

(** ** The disk fails, the file is lost, the process restarts *)

(** Two ratified versions: [current] raises, so does every command, and none
    of them changes anything. *)
Section TwoHeads.
Context `{Env} {R : Type} `{RepositoryReads R view}.
Variable digest : pydict -> string.
Implicit Types (t : VersionManager R).

Definition two_heads (m : gmap string ConstitutionVersionISR) : Prop :=
  exists i j v w, m !! i = Some v /\ m !! j = Some w /\ v <> w /\
    cv_status v = V_RATIFIED /\ cv_status w = V_RATIFIED.

Definition multiple_heads : exn := VersioningError "multiple_ratified_heads_detected".

Lemma run_current_two t m :
  view (vm_repo t) m -> two_heads m -> current t = (Raise multiple_heads, t).
Proof.
  intros Hv (i & j & v & w & Hi & Hj & Hne & Sv & Sw).
  destruct (run_all t m Hv) as (l & E & HP). unfold current. run E.
  assert (Hin : forall x, (exists k, m !! k = Some x) -> cv_status x = V_RATIFIED ->
      x ∈ List.filter (fun v => bool_decide (cv_status v = V_RATIFIED)) l).
  { intros x Hx Sx. rewrite list_elem_of_In, filter_In, <- list_elem_of_In, bool_decide_eq_true.
    split; [by apply (elem_all m l x HP)|done]. }
  pose proof (Hin v (ex_intro _ i Hi) Sv) as H1'. pose proof (Hin w (ex_intro _ j Hj) Sw) as H2'.
  destruct (List.filter _ l) as [|x [|y k]]; [by apply not_elem_of_nil in H1'| |done].
  apply list_elem_of_singleton in H1', H2'. congruence.
Qed.

Lemma blocked t m c :
  view (vm_repo t) m -> two_heads m ->
  match c with
  | C_propose _ _ _ _ _ _ | C_ratify _ _ _ | C_current => exists e, exec digest c t = (Raise e, t)
  | _ => (exec digest c t).2 = t
  end.
Proof.
  intros Hv H2'. pose proof (run_current_two t m Hv H2') as Ec.
  destruct (run_all t m Hv) as (l & El & _). destruct c as [tx p b k sm now|id o now| | |]; simpl.
  - unfold propose. destruct (parse_semver tx) as [c|e]; [|by exists e].
    pose proof (check_increases_run tx c l t) as Hc. destruct (forallb (below c) l).
    + exists multiple_heads. apply M_bind_Raise. run (run_lift_ok c t). run El. run Hc.
      by apply M_bind_Raise.
    + destruct Hc as [x Hc]. eexists. apply M_bind_Raise. run (run_lift_ok c t). run El.
      by apply M_bind_Raise.
  - pose proof (law_get (vm_repo t) m id Hv) as Eg. apply run_in_repo in Eg.
    rewrite put_repo_same in Eg. unfold ratify.
    destruct (m !! id) as [v|]; [|eexists; apply M_bind_Raise; by run Eg].
    destruct (decide (cv_status v = V_PROPOSED)) as [Est|Est];
      [|eexists; apply M_bind_Raise; run Eg; by rewrite bool_decide_true].
    destruct (vo_approved o) eqn:Eo.
    + exists multiple_heads. apply M_bind_Raise. run Eg. rewrite bool_decide_false by auto.
      cbn [negb]. run (eq_refl : gets vm_proposals t = (Ok (vm_proposals t), t)).
      destruct (dget_or _ _ _). by apply M_bind_Raise.
    + eexists. apply M_bind_Raise. run Eg. by rewrite bool_decide_false by auto.
  - eexists. by apply M_bind_Raise.
  - unfold history, mbind, M_bind, lift_res. rewrite El. by destruct (map_res _ l).
  - done.
Qed.
End TwoHeads.

(** [ratify] writes the new head and the old one in two separate writes.
    When the disk takes the first and refuses the second, the call raises, and
    the file holds two RATIFIED versions from then on: any manager over that
    file, also after a restart, answers [current], every [propose] and every
    [ratify] with an exception and leaves the file as it is. *)
Theorem interrupted_ratification_blocks_the_chain `{Env} `{CodecLaws} `{Disk} digest o now
    (s : VersionManager FileBacked) m v h :
  holds (view := file_view) s m -> m !! cv_version_id v = Some v -> cv_status v = V_PROPOSED ->
  vo_approved o = true -> is_head m (Some h) ->
  write_succeeds (fb_writes (vm_repo s)) = true ->
  write_succeeds (S (fb_writes (vm_repo s))) = false ->
  exists s', ratify digest (cv_version_id v) o now s = (Raise (OSError "write failed"), s') /\
  forall t, vm_repo t = vm_repo s' ->
    forall c, match c with
      | C_propose _ _ _ _ _ _ | C_ratify _ _ _ | C_current => exists e, exec digest c t = (Raise e, t)
      | _ => (exec digest c t).2 = t
      end.
Proof.
  intros Hs Hv Sv Ho Hh W1 W2.
  destruct (run_ratify_prefix digest o now s m v Hs Hv Sv Ho) as (h' & Hh' & E).
  rewrite (is_head_unique m h' (Some h) (proj2 Hs) Hh' Hh) in E. cbv zeta in E. rewrite E. clear E h' Hh'.
  destruct Hh as [Hx Sx]. set (v' := ratify_version _ _ _ v). set (s1 := add_lineage _ _).
  destruct (file_write_view (vm_repo s) m v' (proj1 Hs) W1) as (r1 & E1 & V1 & Hn1).
  assert (Er1 : in_repo (repo_replace v') s1 = (Ok tt, put_repo r1 s1)).
  { apply run_in_repo. simpl. unfold file_replace.
    rewrite (M_bind_Ok _ _ _ _ _ (file_read_items (vm_repo s))).
    by rewrite (file_dmem _ _ _ (proj1 Hs)), bool_decide_true by (simpl; by rewrite Hv). }
  run Er1. set (r2 := {| fb_file := fb_file r1; fb_writes := S (fb_writes r1) |}).
  assert (Hne : cv_version_id v <> cv_version_id h).
  { intros Ei. rewrite Ei in Hv. congruence. }
  set (m1 := <[cv_version_id v' := v']> m) in *.
  assert (Hh1 : m1 !! cv_version_id h = Some h) by (unfold m1; by rewrite lookup_insert_ne).
  assert (Er2 : in_repo (repo_replace (supersede_version h)) (put_repo r1 s1)
                = (Raise (OSError "write failed"), put_repo r2 (put_repo r1 s1))).
  { unfold in_repo, zoom. simpl. unfold file_replace.
    rewrite (M_bind_Ok _ _ _ _ _ (file_read_items r1)), (file_dmem _ _ _ V1), bool_decide_true
      by (simpl; by rewrite Hh1).
    unfold file_write. cbv zeta. rewrite Hn1, W2. unfold r2. by rewrite Hn1. }
  rewrite (M_bind_Raise _ _ _ _ _ Er2). eexists. split; [done|].
  intros t Ht c. apply (blocked digest t m1); [by rewrite Ht|].
  exists (cv_version_id v'), (cv_version_id h), v', h. split_and!; [|done| |done|done].
  - unfold m1. by rewrite lookup_insert_eq.
  - intros Ev. rewrite <- Ev in Hne. done.
Qed.

(** A file that cannot be read or decoded counts as an empty chain, and the
    next proposal, whatever its semver, overwrites it. *)
Lemma unreadable_file_is_overwritten `{Env} `{CodecLaws} `{Disk} digest text policy by_ kind summary
    now (s : VersionManager FileBacked) c :
  (forall n, write_succeeds n = true) -> fb_file (vm_repo s) = Some Unreadable ->
  parse_semver text = Ok c ->
  let v := proposed_version text policy by_ now (next_id "cv" s) None in
  exists s', propose digest text policy by_ kind summary now s = (Ok v, s') /\
    file_view (vm_repo s') {[ next_id "cv" s := v ]}.
Proof.
  intros Hw Hf Hc v. pose proof (file_laws Hw).
  assert (Hs : holds (view := file_view) s ∅).
  { split; [|apply chain_ok_empty]. unfold file_view, file_items. rewrite Hf.
    split; [apply dict_ok_nil|by rewrite fmap_empty]. }
  destruct (run_current s ∅ Hs) as (h & Hh & Eh).
  assert (h = None) as ->.
  { destruct h as [x|]; [|done]. destruct Hh as [Hx _]. by rewrite lookup_empty in Hx. }
  destruct (run_propose_prefix digest text policy by_ kind summary now s ∅ c None Hs Hc Hh Eh)
    as [Hok _].
  rewrite Hok by (intros ???; by rewrite lookup_empty). fold v.
  destruct (law_add_new (vm_repo s) ∅ v (proj1 Hs)) as (r' & Er & Vr); [by rewrite lookup_empty|].
  apply (run_in_repo _ (draw_id s)) in Er. run Er. erewrite M_bind_Ok by apply run_modify. cbn beta.
  edestruct (run_record (R := FileBacked) digest "version_proposed" v now) as (e & w & Ew). run Ew.
  eexists. split; [done|]. by rewrite <- insert_empty.
Qed.

(** The change kind and the summary of a proposal live in the process only: a
    manager restarted over the same chain ratifies every open proposal as an
    AMENDMENT with a default summary. *)
Lemma restart_forgets_change_kind `{Env} `{RepositoryLaws R view} digest o now
    (s : VersionManager R) m v evidence w :
  holds (view := view) s m -> m !! cv_version_id v = Some v -> cv_status v = V_PROPOSED ->
  vo_approved o = true ->
  exists v' t l, ratify digest (cv_version_id v) o now (new_manager (vm_repo s) evidence w) = (Ok v', t) /\
    vm_lineages t = [l] /\ cl_change_kind l = AMENDMENT /\ cl_summary l = "ratify " +:+ cv_semver v.
Proof.
  intros Hs Hv Sv Ho.
  destruct (run_ratify digest o now (new_manager (vm_repo s) evidence w) m v Hs Hv Sv Ho)
    as (h & t & _ & E & _ & _ & Hl & _).
  eexists _, t, _. split; [exact E|]. split; [exact Hl|]. done.
Qed.

(** ** Witnesses *)

#[local] Existing Instance gov_env.

(** A codec in the manner of pydantic's: a dict with one item per field. *)
Definition opt_int (o : option Z) : pyval := match o with Some n => VInt n | None => VNone end.

Definition sample_dump (v : ConstitutionVersionISR) : pyval := VDict
  [("version_id", VStr (cv_version_id v)); ("semver", VStr (cv_semver v));
   ("status", VStr (version_status_value (cv_status v)));
   ("policy_set_ref", VStr (cv_policy_set_ref v)); ("proposed_by", VStr (cv_proposed_by v));
   ("proposed_at", VInt (cv_proposed_at v));
   ("predecessor_ref", optional_text (cv_predecessor_ref v));
   ("ratification_workflow_ref", optional_text (cv_ratification_workflow_ref v));
   ("lineage_ref", optional_text (cv_lineage_ref v)); ("effective_at", opt_int (cv_effective_at v))].

Definition sample_status (t : string) : VersionStatus :=
  if bool_decide (t = "proposed") then V_PROPOSED else if bool_decide (t = "ratified") then V_RATIFIED
  else if bool_decide (t = "superseded") then V_SUPERSEDED else V_RETIRED.

Definition sample_validate (raw : pyval) : res ConstitutionVersionISR :=
  match raw with
  | VDict d =>
      let text k := match dget k d with Some (VStr t) => t | _ => EmptyString end in
      let int k := match dget k d with Some (VInt n) => n | _ => 0 end in
      let otext k := match dget k d with Some (VStr t) => Some t | _ => None end in
      let oint k := match dget k d with Some (VInt n) => Some n | _ => None end in
      Ok {| cv_version_id := text "version_id"; cv_semver := text "semver";
            cv_status := sample_status (text "status"); cv_policy_set_ref := text "policy_set_ref";
            cv_proposed_by := text "proposed_by"; cv_proposed_at := int "proposed_at";
            cv_predecessor_ref := otext "predecessor_ref";
            cv_ratification_workflow_ref := otext "ratification_workflow_ref";
            cv_lineage_ref := otext "lineage_ref"; cv_effective_at := oint "effective_at" |}
  | _ => Raise (ValueError "validation error")
  end.

#[local] Instance sample_codec : VersionCodec :=
  {| model_dump := sample_dump; model_validate := sample_validate |}.

#[local] Instance sample_codec_laws : CodecLaws.
Proof.
  split; [by eexists|]. intros [id sv st ps pb pt [pr|] [rw|] [lr|] [ea|]]; by destruct st.
Qed.

Definition sample_outcome : VoteOutcome :=
  {| vo_workflow_ref := "wf"; vo_approved := true; vo_decided_at := 5;
     vo_reason := "all_stages_approved"; vo_stage_results := [] |}.

Definition sample_calls : list call :=
  [C_propose "1.0.0" "ps" "alice" AMENDMENT "first" 1;
   C_propose "2.0.0" "ps" "bob" RESTATEMENT "second" 2].

Definition sample_manager : VersionManager InMemory :=
  (exec_all sample_digest sample_calls (new_manager [] (Some []) world0)).2.

Lemma sample_manager_holds :
  holds (view := mem_view) sample_manager (list_to_map (vm_repo sample_manager)).
Proof.
  destruct (exec_all_holds (view := mem_view) sample_digest sample_calls
    (new_manager [] (Some []) world0) ∅) as (m & [Hd ->] & Hm).
  { split; [by split; [apply dict_ok_nil|]|apply chain_ok_empty]. }
  by split.
Qed.

Definition sample_version (i : nat) : ConstitutionVersionISR :=
  nth i (dvalues (vm_repo sample_manager)) (proposed_version "" "" "" 0 "" None).

Lemma propose_appends_witness :
  exists t, propose sample_digest "1.5.0" "ps" "carol" AMENDMENT "" 3 sample_manager
            = (Raise (VersioningError t), sample_manager).
Proof.
  pose proof (propose_appends (view := mem_view) sample_digest "1.5.0" "ps" "carol" AMENDMENT "" 3
    sample_manager _ sample_manager_holds) as H.
  cbn beta iota in H.
  replace (parse_semver "1.5.0") with (Ok (1, 5, 0)) in H by reflexivity.
  destruct H as (h & _ & _ & Hbad). apply Hbad. intros Ha.
  specialize (Ha (cv_version_id (sample_version 1)) (sample_version 1) (2, 0, 0)).
  discriminate Ha; reflexivity.
Defined.

Lemma ratify_effect_witness :
  exists v s', ratify sample_digest (cv_version_id (sample_version 0)) sample_outcome 9 sample_manager
               = (Ok v, s') /\ cv_status v = V_RATIFIED.
Proof.
  pose proof (ratify_effect (view := mem_view) sample_digest (cv_version_id (sample_version 0))
    sample_outcome 9 sample_manager _ sample_manager_holds) as H.
  cbv zeta in H.
  replace (list_to_map (vm_repo sample_manager) !! cv_version_id (sample_version 0))
    with (Some (sample_version 0)) in H by reflexivity.
  destruct H as (h & s' & _ & H & _). exists (ratify_version "wf" (next_id "cl" sample_manager) 9
    (sample_version 0)), s'. split; [exact H|reflexivity].
Defined.

Lemma ratifying_an_older_version_rolls_back_witness :
  exists s1 s2 new' old',
    ratify sample_digest (cv_version_id (sample_version 1)) sample_outcome 3 sample_manager
      = (Ok new', s1) /\
    ratify sample_digest (cv_version_id (sample_version 0)) sample_outcome 4 s1 = (Ok old', s2) /\
    cv_semver old' = "1.0.0".
Proof.
  destruct (ratifying_an_older_version_rolls_back (view := mem_view) sample_digest
    (sample_version 0) (sample_version 1) sample_outcome sample_outcome 3 4 sample_manager _
    (1, 0, 0) (2, 0, 0) sample_manager_holds) as (s1 & s2 & m2 & new' & old' & E1 & E2 & _ & _ & Es & _);
    try (vm_compute; reflexivity).
  exists s1, s2, new', old'. split; [exact E1|]. split; [exact E2|]. rewrite Es. reflexivity.
Defined.

Lemma version_chain_invariant_witness :
  exists m h, holds (view := mem_view) sample_manager m /\ is_head m h /\
    current sample_manager = (Ok h, sample_manager).
Proof.
  apply (version_chain_invariant (view := mem_view) sample_digest sample_calls
    (new_manager [] (Some []) world0)).
  split; [apply dict_ok_nil|reflexivity].
Defined.

Section FileWitness.
#[local] Instance good_disk : Disk := {| write_succeeds n := true |}.

Definition sample_file_calls : list call :=
  [C_propose "1.0.0" "ps" "alice" AMENDMENT "first" 1;
   C_ratify ("cv-" +:+ uuid_hex 0) sample_outcome 2;
   C_propose "2.0.0" "ps" "bob" RESTATEMENT "second" 3].

Definition sample_file_manager : VersionManager FileBacked :=
  (exec_all sample_digest sample_file_calls
    (new_manager {| fb_file := None; fb_writes := 0 |} None world0)).2.

Lemma file_backed_manager_refines_in_memory_witness :
  let p1 := exec_all sample_digest sample_file_calls (new_manager ([] : InMemory) None world0) in
  let p2 := exec_all sample_digest sample_file_calls
              (new_manager {| fb_file := None; fb_writes := 0 |} None world0) in
  Forall2 (same_answer eq) p1.1 p2.1 /\ forallb is_ok p1.1 = true.
Proof.
  split; [|reflexivity].
  apply (file_backed_manager_refines_in_memory sample_digest sample_file_calls None world0).
  reflexivity.
Defined.

Definition sample_file_list : list (string * ConstitutionVersionISR) :=
  omap (fun p => match sample_validate p.2 with Ok v => Some (p.1, v) | _ => None end)
    (file_items (vm_repo sample_file_manager)).
Definition sample_file_map : gmap string ConstitutionVersionISR := list_to_map sample_file_list.

(** The file after the sample calls, and the map it stands for. *)
Lemma sample_file_view : file_view (vm_repo sample_file_manager) sample_file_map.
Proof.
  split.
  - apply (bool_decide_eq_true_1 (NoDup _)). vm_compute. reflexivity.
  - unfold sample_file_map. rewrite <- list_to_map_fmap. f_equal.
Qed.

Lemma sample_file_holds : holds (view := file_view) sample_file_manager sample_file_map.
Proof.
  pose proof (file_laws (fun n => eq_refl)) as HL. split; [apply sample_file_view|].
  assert (Hx : exists m, holds (view := file_view) sample_file_manager m).
  { apply (exec_all_holds (view := file_view) sample_digest sample_file_calls _ ∅).
    split; [split; [apply dict_ok_nil|by rewrite fmap_empty]|apply chain_ok_empty]. }
  destruct Hx as (m & Hv & Hm).
  by rewrite (law_view_fun _ _ _ sample_file_view Hv).
Qed.
End FileWitness.

Section FailingDisk.
#[local] Instance failing_disk : Disk := {| write_succeeds n := Nat.eqb n 3 |}.

Definition sample_file_version (i : nat) : ConstitutionVersionISR :=
  match sample_file_map !! ("cv-" +:+ uuid_hex i) with
  | Some v => v | None => proposed_version "" "" "" 0 "" None end.

Lemma interrupted_ratification_blocks_the_chain_witness :
  exists s', ratify sample_digest (cv_version_id (sample_file_version 2)) sample_outcome 9
               sample_file_manager = (Raise (OSError "write failed"), s') /\
    exists e, exec sample_digest C_current s' = (Raise e, s').
Proof.
  destruct (interrupted_ratification_blocks_the_chain sample_digest sample_outcome 9
    sample_file_manager sample_file_map (sample_file_version 2) (sample_file_version 0)
    sample_file_holds) as (s' & E & Hb);
    [vm_compute; reflexivity|vm_compute; reflexivity|reflexivity|split; vm_compute; reflexivity
    |vm_compute; reflexivity|vm_compute; reflexivity|].
  exists s'. split; [exact E|]. exact (Hb s' eq_refl C_current).
Defined.
End FailingDisk.
