(* ===== verification/GovLineage.v ===== *)
(** * Governance: artifact lineage and the constitution store

    [constitutional_architecture/governance/lineage.py] (LineageRepository) and
    [constitution.py] (ConstitutionManager), with their records from
    [schemas.py].  A constitution object is shared between the table of current
    constitutions and the table of versions: the former holds the version text
    under which the latter holds the object.  sha256 over canonical JSON is the
    parameter [constitution_digest]. *)

From S2P Require Import Prelude PyFloat PyVal PyText FinModels GovModels GovPolicySpec.
Open Scope Z_scope.

(** ** LineageRepository *)

Record ChangeLineage : Set := {
  ln_id : string;
  ln_parent_artifact_type : string;
  ln_parent_artifact_id : string;
  ln_parent_artifact_hash : string;
  ln_child_artifact_type : string;
  ln_child_artifact_id : string;
  ln_child_artifact_hash : string;
  ln_change_type : string;
  ln_cause_ref : option string;
  ln_decision_ref : option string;
  ln_approval_refs : list string;
  ln_evidence_refs : list string;
  ln_rollback_plan_ref : option string;
  ln_created_at : Z;
}.

Record LineageRepository : Set := {
  lr_links : list ChangeLineage;
  lr_by_id : list (string * ChangeLineage);
  lr_world : World;
}.

Definition lr_put_world (w : World) (r : LineageRepository) : LineageRepository :=
  {| lr_links := lr_links r; lr_by_id := lr_by_id r; lr_world := w |}.
Definition lr_append (l : ChangeLineage) (r : LineageRepository) : LineageRepository :=
  {| lr_links := lr_links r ++ [l]; lr_by_id := dset (ln_id l) l (lr_by_id r);
     lr_world := lr_world r |}.

(** An artifact is named by its type and its id. *)
Abbreviation artifact := (string * string)%type.
Definition ln_parent (l : ChangeLineage) : artifact :=
  (ln_parent_artifact_type l, ln_parent_artifact_id l).
Definition ln_child (l : ChangeLineage) : artifact :=
  (ln_child_artifact_type l, ln_child_artifact_id l).

(** [x or []] on an optional list. *)
Definition or_nil {A} (o : option (list A)) : list A :=
  match o with Some xs => xs | None => [] end.

Definition lineage_record `{Env} (parent : artifact) (parent_hash : string) (child : artifact)
    (child_hash change_type : string) (cause_ref decision_ref : option string)
    (approval_refs evidence_refs : option (list string)) (rollback_plan_ref : option string)
    : M LineageRepository ChangeLineage :=
  id ← zoom lr_world lr_put_world (short_id "lineage");
  created_at ← zoom lr_world lr_put_world utcnow;
  let link := {| ln_id := id; ln_parent_artifact_type := parent.1;
    ln_parent_artifact_id := parent.2; ln_parent_artifact_hash := parent_hash;
    ln_child_artifact_type := child.1; ln_child_artifact_id := child.2;
    ln_child_artifact_hash := child_hash; ln_change_type := change_type;
    ln_cause_ref := cause_ref; ln_decision_ref := decision_ref;
    ln_approval_refs := or_nil approval_refs; ln_evidence_refs := or_nil evidence_refs;
    ln_rollback_plan_ref := rollback_plan_ref; ln_created_at := created_at |} in
  _ ← modify (lr_append link);
  mret link.

Definition trace_backward (a : artifact) (links : list ChangeLineage) : list ChangeLineage :=
  List.filter (fun l => bool_decide (ln_child_artifact_type l = a.1)
                        && bool_decide (ln_child_artifact_id l = a.2)) links.
Definition trace_forward (a : artifact) (links : list ChangeLineage) : list ChangeLineage :=
  List.filter (fun l => bool_decide (ln_parent_artifact_type l = a.1)
                        && bool_decide (ln_parent_artifact_id l = a.2)) links.
Definition by_decision (d : string) (links : list ChangeLineage) : list ChangeLineage :=
  List.filter (fun l => bool_decide (ln_decision_ref l = Some d)) links.

(** The loop of [ancestors]; [None] is fuel that ran out. *)
Fixpoint ancestors_loop (fuel : nat) (links : list ChangeLineage) (seen : list artifact)
    (current : artifact) (chain : list ChangeLineage) : option (list ChangeLineage) :=
  match fuel with
  | O => None
  | S fuel' =>
      if mem current seen then Some chain
      else match trace_backward current links with
           | [] => Some chain
           | link :: _ =>
               ancestors_loop fuel' links (current :: seen) (ln_parent link) (chain ++ [link])
           end
  end.

Definition ancestors (links : list ChangeLineage) (a : artifact) : option (list ChangeLineage) :=
  ancestors_loop (S (length links)) links [] a [].

(** ** ConstitutionManager *)

Inductive ConstitutionStatus : Set :=
| CS_DRAFT | CS_UNDER_REVIEW | CS_ACTIVE | CS_DEPRECATED | CS_REVOKED.

#[export] Instance ConstitutionStatus_eq_dec : EqDecision ConstitutionStatus.
Proof. solve_decision. Defined.

Inductive InvariantSeverity : Set := IS_BLOCKING | IS_CRITICAL | IS_MAJOR | IS_ADVISORY.

Record Invariant : Set := {
  in_id : string;
  in_name : string;
  in_description : string;
  in_severity : InvariantSeverity;
  in_enforceable : bool;
  in_rule_ref : option string;
}.

Record ExceptionPolicy : Set := {
  ep_allow_exceptions : bool;
  ep_max_duration : option string;
  ep_requires_justification : bool;
}.

Definition default_exception_policy : ExceptionPolicy := {|
  ep_allow_exceptions := true; ep_max_duration := Some "P30D";
  ep_requires_justification := true |}.

Record ConstitutionISR : Set := {
  co_id : string;
  co_version : string;
  co_name : string;
  co_description : string;
  co_status : ConstitutionStatus;
  co_parent_id : option string;
  co_parent_version : option string;
  co_invariants : list Invariant;
  co_policy_domains : list string;
  co_approval_requirements : list ApprovalRequirement;
  co_exception_policy : ExceptionPolicy;
  co_effective_at : option Z;
  co_created_at : Z;
  co_created_by : string;
  co_content_hash : string;
  co_signature : option string;
}.

Definition co_set_status (st : ConstitutionStatus) (c : ConstitutionISR) : ConstitutionISR := {|
  co_id := co_id c; co_version := co_version c; co_name := co_name c;
  co_description := co_description c; co_status := st; co_parent_id := co_parent_id c;
  co_parent_version := co_parent_version c; co_invariants := co_invariants c;
  co_policy_domains := co_policy_domains c;
  co_approval_requirements := co_approval_requirements c;
  co_exception_policy := co_exception_policy c; co_effective_at := co_effective_at c;
  co_created_at := co_created_at c; co_created_by := co_created_by c;
  co_content_hash := co_content_hash c; co_signature := co_signature c |}.

Definition co_set_effective (t : Z) (c : ConstitutionISR) : ConstitutionISR := {|
  co_id := co_id c; co_version := co_version c; co_name := co_name c;
  co_description := co_description c; co_status := co_status c; co_parent_id := co_parent_id c;
  co_parent_version := co_parent_version c; co_invariants := co_invariants c;
  co_policy_domains := co_policy_domains c;
  co_approval_requirements := co_approval_requirements c;
  co_exception_policy := co_exception_policy c; co_effective_at := Some t;
  co_created_at := co_created_at c; co_created_by := co_created_by c;
  co_content_hash := co_content_hash c; co_signature := co_signature c |}.

Definition co_set_hash (h : string) (c : ConstitutionISR) : ConstitutionISR := {|
  co_id := co_id c; co_version := co_version c; co_name := co_name c;
  co_description := co_description c; co_status := co_status c; co_parent_id := co_parent_id c;
  co_parent_version := co_parent_version c; co_invariants := co_invariants c;
  co_policy_domains := co_policy_domains c;
  co_approval_requirements := co_approval_requirements c;
  co_exception_policy := co_exception_policy c; co_effective_at := co_effective_at c;
  co_created_at := co_created_at c; co_created_by := co_created_by c;
  co_content_hash := h; co_signature := co_signature c |}.

(** The payload [recompute_hash] digests. *)
Record ConstitutionContent : Set := {
  cc_id : string; cc_version : string; cc_name : string; cc_description : string;
  cc_parent_id : option string; cc_parent_version : option string;
  cc_invariants : list Invariant; cc_policy_domains : list string;
  cc_approval_requirements : list ApprovalRequirement; cc_exception_policy : ExceptionPolicy;
}.

Definition constitution_content (c : ConstitutionISR) : ConstitutionContent := {|
  cc_id := co_id c; cc_version := co_version c; cc_name := co_name c;
  cc_description := co_description c; cc_parent_id := co_parent_id c;
  cc_parent_version := co_parent_version c; cc_invariants := co_invariants c;
  cc_policy_domains := co_policy_domains c;
  cc_approval_requirements := co_approval_requirements c;
  cc_exception_policy := co_exception_policy c |}.

(** [cm_constitutions] holds the version of the current object of an id. *)
Record ConstitutionManager : Set := {
  cm_constitutions : list (string * string);
  cm_versions : list (string * list (string * ConstitutionISR));
  cm_world : World;
}.

Definition empty_constitutions (w : World) : ConstitutionManager :=
  {| cm_constitutions := []; cm_versions := []; cm_world := w |}.

Section Constitutions.
Context `{Env}.
Variable constitution_digest : ConstitutionContent -> string.

Definition cm_put_world (w : World) (m : ConstitutionManager) : ConstitutionManager := {|
  cm_constitutions := cm_constitutions m; cm_versions := cm_versions m; cm_world := w |}.

Definition in_cm_world {A} (op : M World A) : M ConstitutionManager A :=
  zoom cm_world cm_put_world op.

Definition versions_of (id : string) (m : ConstitutionManager) : list (string * ConstitutionISR) :=
  dget_or id (cm_versions m) [].

(** Both assignments of [create]. *)
Definition store_constitution (c : ConstitutionISR) (m : ConstitutionManager)
    : ConstitutionManager := {|
  cm_constitutions := dset (co_id c) (co_version c) (cm_constitutions m);
  cm_versions := dset (co_id c) (dset (co_version c) c (versions_of (co_id c) m)) (cm_versions m);
  cm_world := cm_world m |}.

(** [self._constitutions[id]]. *)
Definition current_constitution (id : string) (m : ConstitutionManager) : option ConstitutionISR :=
  match dget id (cm_constitutions m) with
  | Some v => dget v (versions_of id m)
  | None => None
  end.

Definition constitution_get (id : string) : M ConstitutionManager ConstitutionISR := fun m =>
  match current_constitution id m with
  | Some c => (Ok c, m)
  | None => (Raise (KeyError id), m)
  end.

Definition get_version (id version : string) : M ConstitutionManager ConstitutionISR := fun m =>
  match dget id (cm_versions m) with
  | None => (Raise (KeyError id), m)
  | Some vs => match dget version vs with
               | Some c => (Ok c, m)
               | None => (Raise (KeyError version), m)
               end
  end.

Definition incr_last (ns : list Z) : list Z :=
  match rev ns with n :: rest => rev rest ++ [n + 1] | [] => [] end.

Definition next_version (parent_id : option string) : M ConstitutionManager string :=
  match parent_id with
  | None => mret "0.1.0"
  | Some p =>
      parent ← constitution_get p;
      parts ← lift_res (map_res py_int (split_dot (co_version parent)));
      mret (join_dot (map str_of_int (incr_last parts)))
  end.

(** [ConstitutionISR(...)], before its hash is computed. *)
Definition new_constitution (id version name description : string)
    (invariants : option (list Invariant)) (policy_domains : option (list string))
    (exception_policy : option ExceptionPolicy) (parent_id parent_version : option string)
    (created_by : string) (created_at : Z) : ConstitutionISR := {|
  co_id := id; co_version := version; co_name := name; co_description := description;
  co_status := CS_DRAFT; co_parent_id := parent_id; co_parent_version := parent_version;
  co_invariants := or_nil invariants; co_policy_domains := or_nil policy_domains;
  co_approval_requirements := [];
  co_exception_policy := match exception_policy with
                         | Some p => p | None => default_exception_policy end;
  co_effective_at := None; co_created_at := created_at; co_created_by := created_by;
  co_content_hash := EmptyString; co_signature := None |}.

Definition create (name description : string) (invariants : option (list Invariant))
    (policy_domains : option (list string)) (exception_policy : option ExceptionPolicy)
    (parent_id parent_version : option string) (created_by : string)
    : M ConstitutionManager ConstitutionISR :=
  known ← gets cm_constitutions;
  if match parent_id with Some p => negb (dmem p known) | None => false end
  then raise (KeyError ("Parent constitution " +:+ or_empty parent_id +:+ " does not exist."))
  else
    version ← next_version parent_id;
    (* [parent_id or self._new_id()] *)
    id ← (if otruthy parent_id then mret (or_empty parent_id)
          else in_cm_world (short_id "constitution"));
    created_at ← in_cm_world utcnow;
    let c := new_constitution id version name description invariants policy_domains
      exception_policy parent_id parent_version created_by created_at in
    let c := co_set_hash (constitution_digest (constitution_content c)) c in
    _ ← modify (store_constitution c);
    mret c.

(** Mutate the current object of an id. *)
Definition update_current (id : string) (f : ConstitutionISR -> ConstitutionISR)
    (m : ConstitutionManager) : ConstitutionManager :=
  match dget id (cm_constitutions m) with
  | Some v => {| cm_constitutions := cm_constitutions m;
                 cm_versions := match dget v (versions_of id m) with
                                | Some c => dset id (dset v (f c) (versions_of id m)) (cm_versions m)
                                | None => cm_versions m
                                end;
                 cm_world := cm_world m |}
  | None => m
  end.

Definition activate (id : string) : M ConstitutionManager ConstitutionISR :=
  c ← constitution_get id;
  if bool_decide (co_status c = CS_REVOKED)
  then raise (ValueError "A revoked constitution cannot be activated.")
  else
    _ ← modify (update_current id (co_set_status CS_ACTIVE));
    now ← in_cm_world utcnow;
    _ ← modify (update_current id (co_set_effective now));
    constitution_get id.

Definition under_review (id : string) : M ConstitutionManager ConstitutionISR :=
  c ← constitution_get id;
  if bool_decide (co_status c = CS_ACTIVE)
  then raise (ValueError "An active constitution cannot return to review.")
  else _ ← modify (update_current id (co_set_status CS_UNDER_REVIEW)); constitution_get id.

Definition deprecate (id : string) : M ConstitutionManager ConstitutionISR :=
  c ← constitution_get id;
  if bool_decide (co_status c = CS_REVOKED)
  then raise (ValueError "A revoked constitution cannot be deprecated.")
  else _ ← modify (update_current id (co_set_status CS_DEPRECATED)); constitution_get id.

Definition revoke (id : string) : M ConstitutionManager ConstitutionISR :=
  c ← constitution_get id;
  _ ← modify (update_current id (co_set_status CS_REVOKED)); constitution_get id.

(** The current objects, in the order of the table. *)
Definition current_constitutions (m : ConstitutionManager) : list ConstitutionISR :=
  omap (fun p => dget p.2 (versions_of p.1 m)) (cm_constitutions m).

Definition co_id_leb (a b : ConstitutionISR) : bool := str_leb (co_id a) (co_id b).

Definition active (m : ConstitutionManager) : list ConstitutionISR :=
  sort_by co_id_leb (List.filter (fun c => bool_decide (co_status c = CS_ACTIVE))
                       (current_constitutions m)).
Definition constitution_list (m : ConstitutionManager) : list ConstitutionISR :=
  sort_by co_id_leb (current_constitutions m).
End Constitutions.

(** * Governance: theorems on artifact lineage and the constitution store

    [ancestors] terminates on every set of links, cycles included, with a
    traced chain; recorded constitution versions are never overwritten and
    their content never changes; the two ways around the life cycle. *)

(** ** Lineage *)

(** [chain] goes backwards from [a], through the first recorded link of every
    artifact on the way. *)
Fixpoint traces (links : list ChangeLineage) (a : artifact) (chain : list ChangeLineage) : Prop :=
  match chain with
  | [] => True
  | l :: rest => head (trace_backward a links) = Some l /\ traces links (ln_parent l) rest
  end.

Definition chain_end (a : artifact) (chain : list ChangeLineage) : artifact :=
  match last chain with Some l => ln_parent l | None => a end.

Lemma chain_end_cons a x chain : chain_end a (x :: chain) = chain_end (ln_parent x) chain.
Proof. unfold chain_end. rewrite last_cons. by destruct (last chain). Qed.

Lemma traces_snoc links a chain l :
  traces links a chain -> head (trace_backward (chain_end a chain) links) = Some l ->
  traces links a (chain ++ [l]).
Proof.
  revert a. induction chain as [|x chain IH]; intros a; simpl; [done|].
  intros [Hx Hc] Hl. split; [done|]. apply IH; [done|].
  by rewrite chain_end_cons in Hl.
Qed.

Lemma chain_end_snoc a chain l : chain_end a (chain ++ [l]) = ln_parent l.
Proof. unfold chain_end. by rewrite last_snoc. Qed.

Lemma trace_backward_head a links l :
  head (trace_backward a links) = Some l -> l ∈ links /\ ln_child l = a.
Proof.
  intros H. assert (Hin : In l (trace_backward a links)).
  { destruct (trace_backward a links); simplify_eq/=. by left. }
  apply filter_In in Hin as [Hin Hb]. bool_hyps. split; [by apply list_elem_of_In|].
  destruct a. unfold ln_child. simpl in *. by subst.
Qed.

(** Links with distinct children out of [links] are no more than [links]. *)
Lemma distinct_children_bound links chain :
  NoDup (map ln_child chain) -> (forall l, l ∈ chain -> l ∈ links) ->
  (length chain <= length links)%nat.
Proof.
  intros Hnd Hsub. apply submseteq_length, NoDup_submseteq; [|done].
  change (map ?f) with (fmap (M := list) f) in Hnd. by apply NoDup_fmap_1 in Hnd.
Qed.

Lemma elem_of_rev {A} (x : A) l : x ∈ rev l <-> x ∈ l.
Proof. by rewrite !list_elem_of_In, <- in_rev. Qed.

Lemma ancestors_loop_spec links a fuel chain :
  traces links a chain -> NoDup (map ln_child chain) -> (forall l, l ∈ chain -> l ∈ links) ->
  (length chain + fuel = S (length links))%nat ->
  exists chain', ancestors_loop fuel links (rev (map ln_child chain)) (chain_end a chain) chain
                 = Some chain' /\
    traces links a chain' /\ NoDup (map ln_child chain') /\
    (trace_backward (chain_end a chain') links = [] \/ chain_end a chain' ∈ map ln_child chain').
Proof.
  revert chain. induction fuel as [|fuel IH]; intros chain Ht Hnd Hsub Hf; simpl.
  { pose proof (distinct_children_bound links chain Hnd Hsub). lia. }
  destruct (mem _ _) eqn:Em.
  { exists chain. split_and!; [done..|]. right. apply mem_true in Em.
    by apply elem_of_rev. }
  destruct (trace_backward _ _) as [|l ls] eqn:El; [exists chain; split_and!; auto|].
  assert (Hl : head (trace_backward (chain_end a chain) links) = Some l) by (by rewrite El).
  destruct (trace_backward_head _ _ _ Hl) as [Hin Hc].
  assert (Hmap : map ln_child (chain ++ [l]) = map ln_child chain ++ [chain_end a chain])
    by (by rewrite map_app, <- Hc).
  destruct (IH (chain ++ [l])) as (chain' & E & Hres).
  - by apply traces_snoc.
  - rewrite Hmap. apply NoDup_app. split_and!; [done| |by apply NoDup_singleton].
    intros x Hx ->%list_elem_of_singleton. apply mem_false in Em. apply Em.
    by apply elem_of_rev.
  - intros x [Hx| ->%list_elem_of_singleton]%elem_of_app; auto.
  - rewrite length_app. simpl. lia.
  - exists chain'. split; [|done]. rewrite Hmap, rev_app_distr, chain_end_snoc in E. exact E.
Qed.

(** [ancestors] terminates on every set of links (the fuel of one step
    more than there are links suffices, also when the links have cycles).  Its
    answer goes backwards from the artifact through the first recorded link of
    every artifact on the way, visits no artifact twice, and ends at an artifact
    without a recorded origin or at one it has visited. *)
Theorem ancestors_terminate_with_a_trace links a :
  exists chain, ancestors links a = Some chain /\ traces links a chain /\
    NoDup (map ln_child chain) /\
    (trace_backward (chain_end a chain) links = [] \/ chain_end a chain ∈ map ln_child chain).
Proof.
  apply (ancestors_loop_spec links a (S (length links)) []); [done|constructor| |done].
  intros l Hl. by apply not_elem_of_nil in Hl.
Qed.

(** ** The versions of a constitution *)

(** The version texts: 0.1.0, 0.1.1, ... *)
Definition ver (n : nat) : string := join_dot ["0"; "1"; str_of_int (Z.of_nat n)].

Lemma str_of_int_nodot n : 0 <= n ->
  str_forall (fun c => negb (Ascii.eqb c dot)) (str_of_int n) = true.
Proof.
  intros Hn. destruct (str_of_int_digits n Hn) as [Hd _].
  by apply (str_forall_impl is_digit); [apply digit_not_dot|].
Qed.

Lemma split_ver n : split_dot (ver n) = ["0"; "1"; str_of_int (Z.of_nat n)].
Proof.
  unfold ver. apply split_join_dot; [|done]. repeat constructor. apply str_of_int_nodot. lia.
Qed.

Lemma parts_ver n : map_res py_int (split_dot (ver n)) = Ok [0; 1; Z.of_nat n].
Proof.
  rewrite split_ver. cbn [map_res]. change (py_int "0") with (Ok 0). change (py_int "1") with (Ok 1).
  rewrite py_int_str_of_int by lia. done.
Qed.

Lemma ver_inj n m : ver n = ver m -> n = m.
Proof.
  intros E. pose proof (parts_ver n) as Hn. rewrite E, parts_ver in Hn.
  injection Hn as Hn. lia.
Qed.

Lemma next_ver n : join_dot (map str_of_int (incr_last [0; 1; Z.of_nat n])) = ver (S n).
Proof.
  unfold ver. cbn [incr_last rev app map].
  by replace (Z.of_nat n + 1) with (Z.of_nat (S n)) by lia.
Qed.

Section Constitutions.
Context `{Env}.
Variable constitution_digest : ConstitutionContent -> string.
Implicit Types (m : ConstitutionManager).

(** The versions of an id are 0.1.0 up to the current one, in order; objects
    sit under their id and version, with the hash of their content. *)
Record cm_ok m : Prop := {
  ck_chain id v : dget id (cm_constitutions m) = Some v ->
    exists n, v = ver n /\ dkeys (versions_of id m) = map ver (seq 0 (S n));
  ck_dict : dict_ok (cm_constitutions m);
  ck_named : dget EmptyString (cm_constitutions m) = None;
  ck_objects id v c : dget v (versions_of id m) = Some c ->
    co_id c = id /\ co_version c = v /\
    co_content_hash c = constitution_digest (constitution_content c);
}.

(** Everything recorded in [m] is still there in [m'], with the same content. *)
Definition keeps_records m m' : Prop := forall id v c,
  dget v (versions_of id m) = Some c ->
  exists c', dget v (versions_of id m') = Some c' /\
    constitution_content c' = constitution_content c /\ co_content_hash c' = co_content_hash c.

#[local] Instance keeps_records_preorder : PreOrder keeps_records.
Proof.
  split; [intros m id v c Hc; by exists c|].
  intros m1 m2 m3 H12 H23 id v c Hc. destruct (H12 id v c Hc) as (c2 & H2 & E2 & F2).
  destruct (H23 id v c2 H2) as (c3 & H3 & E3 & F3). exists c3. by rewrite E3, F3.
Qed.

(** An update of status or dates. *)
Definition inert (f : ConstitutionISR -> ConstitutionISR) : Prop := forall c,
  constitution_content (f c) = constitution_content c /\
  co_content_hash (f c) = co_content_hash c.

Lemma inert_status st : inert (co_set_status st).
Proof. by intros c. Qed.
Lemma inert_effective t : inert (co_set_effective t).
Proof. by intros c. Qed.

Lemma content_id c c' : constitution_content c = constitution_content c' ->
  co_id c = co_id c' /\ co_version c = co_version c'.
Proof. intros E. by injection E. Qed.

Lemma versions_update id f m c v id' :
  dget id (cm_constitutions m) = Some v -> dget v (versions_of id m) = Some c ->
  versions_of id' (update_current id f m)
  = if decide (id' = id) then dset v (f c) (versions_of id m) else versions_of id' m.
Proof.
  intros Hv Hc. unfold update_current. rewrite Hv, Hc. unfold versions_of, dget_or. cbn [cm_versions].
  rewrite dget_dset. by case_decide.
Qed.

(** The object of an id after an update. *)
Lemma current_update id f m c :
  current_constitution id m = Some c -> current_constitution id (update_current id f m) = Some (f c).
Proof.
  unfold current_constitution. destruct (dget id (cm_constitutions m)) as [v|] eqn:Hv; [|done].
  intros Hc. assert (Hk : dget id (cm_constitutions (update_current id f m)) = Some v).
  { unfold update_current. by rewrite Hv. }
  rewrite Hk, (versions_update id f m c v) by done. by rewrite decide_True, dget_dset_eq.
Qed.

Lemma update_current_ok id f m : inert f -> cm_ok m -> cm_ok (update_current id f m).
Proof.
  intros Hf Hm. destruct (dget id (cm_constitutions m)) as [v|] eqn:Hv;
    [|unfold update_current; by rewrite Hv].
  destruct (dget v (versions_of id m)) as [c|] eqn:Hc;
    [|unfold update_current; rewrite Hv, Hc; by destruct m].
  split; [intros id' v'| | |intros id' v'].
  - rewrite (versions_update id f m c v) by done. unfold update_current at 1. rewrite Hv. cbn [cm_constitutions].
    intros Hv'. destruct (ck_chain m Hm _ _ Hv') as (n & -> & Hk). exists n. split; [done|].
    case_decide; subst; [|done]. by rewrite dkeys_dset_in by (by eapply dget_Some_key).
  - unfold update_current. rewrite Hv. exact (ck_dict m Hm).
  - unfold update_current. rewrite Hv. exact (ck_named m Hm).
  - intros c'. rewrite (versions_update id f m c v) by done. case_decide as Ei; [subst id'|by apply ck_objects].
    rewrite dget_dset. case_decide; [|by apply ck_objects]. intros [= <-]. subst v'.
    destruct (Hf c) as [E1 E2]. destruct (ck_objects m Hm _ _ _ Hc) as (I & V & D).
    destruct (content_id _ _ E1) as [-> ->]. by rewrite E1, E2.
Qed.

Lemma update_current_records id f m : inert f -> cm_ok m -> keeps_records m (update_current id f m).
Proof.
  intros Hf Hm id' v' c' Hc'. destruct (dget id (cm_constitutions m)) as [v|] eqn:Hv;
    [|exists c'; unfold update_current; by rewrite Hv].
  destruct (dget v (versions_of id m)) as [c|] eqn:Hc;
    [|exists c'; unfold update_current; rewrite Hv, Hc; by destruct m].
  rewrite (versions_update id f m c v) by done. case_decide as Ei; [subst id'|by exists c'].
  rewrite dget_dset. case_decide as Ev; [subst v'|by exists c'].
  simplify_eq. exists (f c'). split; [done|apply Hf].
Qed.

(** Storing a version that is not there yet. *)
Lemma store_ok c m n :
  cm_ok m -> co_id c <> EmptyString -> co_version c = ver n -> dkeys (versions_of (co_id c) m) = map ver (seq 0 n) ->
  co_content_hash c = constitution_digest (constitution_content c) ->
  cm_ok (store_constitution c m) /\ keeps_records m (store_constitution c m).
Proof.
  intros Hm Hne Hv Hk Hh.
  assert (Hver : forall id, versions_of id (store_constitution c m)
            = if decide (id = co_id c) then dset (co_version c) c (versions_of (co_id c) m)
              else versions_of id m).
  { intros id. unfold versions_of at 1, dget_or, store_constitution. cbn [cm_versions].
    rewrite dget_dset. by case_decide. }
  assert (Hfresh : co_version c ∉ dkeys (versions_of (co_id c) m)).
  { rewrite Hk, Hv. intros Hin%list_elem_of_In. apply in_map_iff in Hin as (k & E & Hi%in_seq).
    apply ver_inj in E. lia. }
  split; [split; [intros id v| | |intros id v]|intros id v].
  - unfold store_constitution at 1. cbn [cm_constitutions]. rewrite Hver, dget_dset.
    case_decide; [|by apply ck_chain]. intros [= <-]. exists n. split; [done|].
    by rewrite dkeys_dset_fresh, Hk, Hv, seq_S, map_app.
  - apply dset_ok. exact (ck_dict m Hm).
  - unfold store_constitution. cbn [cm_constitutions]. rewrite dget_dset_ne by done. exact (ck_named m Hm).
  - intros c'. rewrite Hver. case_decide; [subst id|by apply ck_objects].
    rewrite dget_dset. case_decide; [|by apply ck_objects]. intros [= <-]. by subst v.
  - intros c' Hc'. exists c'. split; [|done]. rewrite Hver. case_decide; [subst id|done].
    rewrite dget_dset_ne; [done|]. intros ->. by apply dget_Some_key in Hc'.
Qed.

(** *** Calls *)

(** What every call keeps, seen from [m0]. *)
Definition records_ok m0 m : Prop := cm_ok m /\ keeps_records m0 m.

Lemma records_ok_world m0 w m : records_ok m0 m -> records_ok m0 (cm_put_world w m).
Proof.
  intros [[H1 H2 H3 H4] Hk]. split; [by split|]. exact Hk.
Qed.

Lemma store_world c w m n :
  cm_ok m -> co_id c <> EmptyString -> co_version c = ver n ->
  dkeys (versions_of (co_id c) m) = map ver (seq 0 n) ->
  co_content_hash c = constitution_digest (constitution_content c) ->
  records_ok m (store_constitution c (cm_put_world w m)).
Proof.
  intros Hm Hne Hv Hk Hh.
  destruct (records_ok_world m w m) as [Hw _]; [by split; [|reflexivity]|].
  exact (store_ok c (cm_put_world w m) n Hw Hne Hv Hk Hh).
Qed.

Lemma keeps_update m0 id f : inert f -> keeps (records_ok m0) (modify (update_current id f)).
Proof.
  intros Hf. apply keeps_modify. intros m [Hm Hk]. split; [by apply update_current_ok|].
  by etrans; [|apply update_current_records].
Qed.

Lemma keeps_get m0 id : keeps (records_ok m0) (constitution_get id).
Proof. intros m Hm. unfold constitution_get. by destruct (current_constitution id m). Qed.

Lemma keeps_cm_world {A} m0 (op : M World A) : keeps (records_ok m0) (in_cm_world op).
Proof.
  unfold in_cm_world. apply (keeps_zoom _ (fun _ => True)); [done| |done].
  intros w m _. apply records_ok_world.
Qed.

#[local] Hint Resolve keeps_update keeps_get keeps_cm_world inert_status inert_effective : keeps.

Lemma keeps_activate m0 id : keeps (records_ok m0) (activate id).
Proof. unfold activate. keeps_steps; auto with keeps. Qed.
Lemma keeps_under_review m0 id : keeps (records_ok m0) (under_review id).
Proof. unfold under_review. keeps_steps; auto with keeps. Qed.
Lemma keeps_deprecate m0 id : keeps (records_ok m0) (deprecate id).
Proof. unfold deprecate. keeps_steps; auto with keeps. Qed.
Lemma keeps_revoke m0 id : keeps (records_ok m0) (revoke id).
Proof. unfold revoke. keeps_steps; auto with keeps. Qed.

(** The id a root constitution gets. *)
Definition root_id m : string :=
  "constitution" +:+ "_" +:+ String.substring 0 10 (uuid_hex (uuids_drawn (cm_world m))).

(** The next version of a known parent. *)
Lemma next_version_run p m n :
  cm_ok m -> dget p (cm_constitutions m) = Some (ver n) ->
  next_version (Some p) m = (Ok (ver (S n)), m).
Proof.
  intros Hm Hp. destruct (ck_chain m Hm _ _ Hp) as (k & Ek & Hk). apply ver_inj in Ek as <-.
  destruct (dget (ver n) (versions_of p m)) as [c|] eqn:Hc.
  2:{ apply dget_None in Hc. destruct Hc. rewrite Hk. apply list_elem_of_In, in_map_iff.
      exists n. split; [done|]. apply in_seq. lia. }
  unfold next_version. assert (Hg : constitution_get p m = (Ok c, m)).
  { unfold constitution_get, current_constitution. by rewrite Hp, Hc. }
  rewrite (M_bind_Ok _ _ _ _ _ Hg). destruct (ck_objects m Hm _ _ _ Hc) as (_ & -> & _).
  unfold lift_res. rewrite parts_ver. unfold mbind, M_bind. cbn beta iota. by rewrite next_ver.
Qed.

Lemma named_id p v m : cm_ok m -> dget p (cm_constitutions m) = Some v -> p <> EmptyString.
Proof. intros Hm Hp ->. by rewrite (ck_named m Hm) in Hp. Qed.

Definition revision name desc invs doms pol p pver by_ n m : ConstitutionISR :=
  let c := new_constitution p (ver (S n)) name desc invs doms pol (Some p) pver by_
             (clock (clock_reads (cm_world m))) in
  co_set_hash (constitution_digest (constitution_content c)) c.

Lemma create_revision_run name desc invs doms pol p pver by_ m n :
  cm_ok m -> dget p (cm_constitutions m) = Some (ver n) ->
  create constitution_digest name desc invs doms pol (Some p) pver by_ m
  = (Ok (revision name desc invs doms pol p pver by_ n m),
     store_constitution (revision name desc invs doms pol p pver by_ n m)
       (cm_put_world {| uuids_drawn := uuids_drawn (cm_world m);
                        clock_reads := S (clock_reads (cm_world m)) |} m)).
Proof.
  intros Hm Hp. unfold create.
  rewrite (M_bind_Ok _ _ _ _ _ (eq_refl : gets cm_constitutions m = (Ok (cm_constitutions m), m))).
  unfold dmem. rewrite Hp. cbn [negb otruthy or_empty].
  rewrite (M_bind_Ok _ _ _ _ _ (next_version_run p m n Hm Hp)).
  assert (truthy p = true) as -> by (pose proof (named_id p _ m Hm Hp); by destruct p).
  done.
Qed.

Lemma create_ok name desc invs doms pol parent pver by_ m :
  cm_ok m -> (parent = None -> dget (root_id m) (cm_versions m) = None) ->
  records_ok m (create constitution_digest name desc invs doms pol parent pver by_ m).2.
Proof.
  intros Hm Hfresh. assert (Hm0 : records_ok m m) by (split; [done|reflexivity]).
  unfold create. rewrite (M_bind_Ok _ _ _ _ _ (eq_refl : gets cm_constitutions m = (Ok (cm_constitutions m), m))).
  destruct parent as [p|]; cbn [otruthy or_empty].
  - destruct (dmem p (cm_constitutions m)) eqn:Ep; cbn [negb]; [|done].
    unfold dmem in Ep. destruct (dget p (cm_constitutions m)) as [v|] eqn:Hp; [|done].
    destruct (ck_chain m Hm _ _ Hp) as (n & -> & Hk).
    pose proof (create_revision_run name desc invs doms pol p pver by_ m n Hm Hp) as Er.
    unfold create in Er. unfold dmem in Er. unfold mbind at 1, M_bind at 1 in Er.
    unfold gets at 1 in Er. cbn beta iota in Er. rewrite Hp in Er. cbn [negb otruthy or_empty] in Er.
    rewrite Er. apply (store_world _ _ m (S n)); try done. by eapply named_id.
  - cbn [next_version]. unfold in_cm_world, short_id, utcnow. unfold_monad. cbn beta iota. cbn [snd].
    apply (store_world _ _ m 0); [done|done|done| |done].
    + change (dkeys (match dget (root_id m) (cm_versions m) with Some v => v | None => [] end) = []).
      by rewrite Hfresh.
Qed.

(** One call, whatever its arguments and its outcome; a root constitution draws
    an id that is not in use. *)
Inductive constitution_call m : ConstitutionManager -> Prop :=
| call_create name desc invs doms pol parent pver by_ r m' :
    (parent = None -> dget (root_id m) (cm_versions m) = None) ->
    create constitution_digest name desc invs doms pol parent pver by_ m = (r, m') ->
    constitution_call m m'
| call_activate id r m' : activate id m = (r, m') -> constitution_call m m'
| call_under_review id r m' : under_review id m = (r, m') -> constitution_call m m'
| call_deprecate id r m' : deprecate id m = (r, m') -> constitution_call m m'
| call_revoke id r m' : revoke id m = (r, m') -> constitution_call m m'.

Lemma constitution_call_ok m m' : constitution_call m m' -> cm_ok m -> records_ok m m'.
Proof.
  intros Hc Hm. assert (H0 : records_ok m m) by (split; [done|reflexivity]).
  destruct Hc as [name desc invs doms pol parent pver by_ r m' Hf E|id r m' E|id r m' E|id r m' E|id r m' E].
  - pose proof (create_ok name desc invs doms pol parent pver by_ m Hm Hf) as Hr. by rewrite E in Hr.
  - pose proof (keeps_activate m id m H0) as Hr. by rewrite E in Hr.
  - pose proof (keeps_under_review m id m H0) as Hr. by rewrite E in Hr.
  - pose proof (keeps_deprecate m id m H0) as Hr. by rewrite E in Hr.
  - pose proof (keeps_revoke m id m H0) as Hr. by rewrite E in Hr.
Qed.

Lemma constitution_calls_ok m m' : rtc constitution_call m m' -> cm_ok m -> records_ok m m'.
Proof.
  induction 1 as [m|m m1 m' Hc _ IH]; intros Hm; [by split; [|reflexivity]|].
  destruct (constitution_call_ok m m1 Hc Hm) as [Hm1 Hk1]. destruct (IH Hm1) as [Hm' Hk].
  split; [done|by etrans].
Qed.

Lemma empty_ok w : cm_ok (empty_constitutions w).
Proof. split; [done|apply dict_ok_nil|done|done]. Qed.
End Constitutions.

(** Over any sequence of calls, a recorded version of a constitution is
    never overwritten or dropped: it stays under its id and version with the
    same content and with the hash of that content.  The versions of an id are
    0.1.0, 0.1.1, ... without gaps, and the current one is the last. *)
Theorem recorded_versions_immutable `{Env} digest w m m' id v c :
  rtc (constitution_call digest) (empty_constitutions w) m ->
  rtc (constitution_call digest) m m' ->
  dget v (versions_of id m) = Some c ->
  (exists c', dget v (versions_of id m') = Some c' /\
     constitution_content c' = constitution_content c /\
     co_content_hash c' = digest (constitution_content c)) /\
  (forall current, dget id (cm_constitutions m') = Some current ->
     exists n, current = ver n /\ dkeys (versions_of id m') = map ver (seq 0 (S n))).
Proof.
  intros H1 H2 Hc. destruct (constitution_calls_ok digest _ _ H1 (empty_ok digest w)) as [Hm _].
  destruct (constitution_calls_ok digest _ _ H2 Hm) as [Hm' Hk]. split; [|apply (ck_chain digest m' Hm')].
  destruct (Hk id v c Hc) as (c' & Hc' & E & Eh). exists c'. split_and!; [done|done|].
  destruct (ck_objects digest m Hm _ _ _ Hc) as (_ & _ & <-). done.
Qed.

Lemma constitution_get_run id m c :
  current_constitution id m = Some c -> constitution_get id m = (Ok c, m).
Proof. unfold constitution_get. by intros ->. Qed.

(** Revocation is not final: the guard of [activate] refuses a REVOKED
    constitution, but [under_review] does not, and after it [activate]
    succeeds. *)
Theorem revoked_constitution_reactivated `{Env} id m c :
  current_constitution id m = Some c -> co_status c = CS_REVOKED ->
  activate id m = (Raise (ValueError "A revoked constitution cannot be activated."), m) /\
  exists c1 m1 c2 m2, under_review id m = (Ok c1, m1) /\ activate id m1 = (Ok c2, m2) /\
    co_status c2 = CS_ACTIVE /\ constitution_content c2 = constitution_content c.
Proof.
  intros Hc Hs. pose proof (constitution_get_run id m c Hc) as Hg.
  split; [unfold activate; rewrite (M_bind_Ok _ _ _ _ _ Hg); by rewrite bool_decide_true|].
  pose proof (current_update id (co_set_status CS_UNDER_REVIEW) m c Hc) as H1.
  set (m1 := update_current id (co_set_status CS_UNDER_REVIEW) m) in *.
  assert (E1 : under_review id m = (Ok (co_set_status CS_UNDER_REVIEW c), m1)).
  { unfold under_review. rewrite (M_bind_Ok _ _ _ _ _ Hg), bool_decide_false by (by rewrite Hs).
    by apply constitution_get_run. }
  pose proof (current_update id (co_set_status CS_ACTIVE) m1 _ H1) as H2.
  set (m2 := update_current id (co_set_status CS_ACTIVE) m1) in *.
  set (m3 := cm_put_world {| uuids_drawn := uuids_drawn (cm_world m2);
                             clock_reads := S (clock_reads (cm_world m2)) |} m2).
  pose proof (current_update id (co_set_effective (clock (clock_reads (cm_world m2)))) m3 _ H2) as H3.
  eexists _, m1, _, _. split; [exact E1|]. split.
  - unfold activate. rewrite (M_bind_Ok _ _ _ _ _ (constitution_get_run id m1 _ H1)).
    rewrite bool_decide_false by done.
    exact (constitution_get_run id _ _ H3).
  - done.
Qed.

(** Creating a revision replaces the current object of the id by a DRAFT at
    once: whatever the status of the constitution was, ACTIVE included, it is no
    longer among the active ones, and the version that was in force is no longer
    the one [activate], [deprecate] and [revoke] act on. *)
Theorem revision_takes_constitution_out_of_force `{Env} digest w m id c name desc invs doms pol pver by_ :
  rtc (constitution_call digest) (empty_constitutions w) m ->
  current_constitution id m = Some c ->
  exists c' m', create digest name desc invs doms pol (Some id) pver by_ m = (Ok c', m') /\
    co_status c' = CS_DRAFT /\ current_constitution id m' = Some c' /\
    forall x, x ∈ active m' -> co_id x <> id.
Proof.
  intros Hr Hc. destruct (constitution_calls_ok digest _ _ Hr (empty_ok digest w)) as [Hm _].
  unfold current_constitution in Hc. destruct (dget id (cm_constitutions m)) as [v|] eqn:Hv; [|done].
  destruct (ck_chain digest m Hm _ _ Hv) as (n & -> & _).
  pose proof (create_ok digest name desc invs doms pol (Some id) pver by_ m Hm ltac:(done)) as [Hm' _].
  rewrite (create_revision_run digest name desc invs doms pol id pver by_ m n Hm Hv) in *.
  set (c' := revision _ _ _ _ _ _ _ _ _ _ _) in *. set (m' := store_constitution _ _) in *.
  assert (Hid : co_id c' = id) by done.
  assert (Hc' : current_constitution id m' = Some c').
  { unfold current_constitution, m', store_constitution at 1. cbn [cm_constitutions].
    rewrite Hid, dget_dset_eq. unfold versions_of, dget_or. cbn [cm_versions store_constitution].
    by rewrite Hid, !dget_dset_eq. }
  exists c', m'. split_and!; [done|done|done|].
  intros x Hx Ex. unfold active in Hx. apply sort_by_elem, list_elem_of_In, filter_In in Hx as [Hin Hst].
  apply list_elem_of_In, list_elem_of_omap in Hin as ([i v] & Hiv & Hx). simpl in Hx.
  destruct (ck_objects digest m' Hm' _ _ _ Hx) as (Hi & _). rewrite Ex in Hi. subst i.
  apply (elem_dget _ _ _ (ck_dict digest m' Hm')) in Hiv.
  unfold current_constitution in Hc'. rewrite Hiv in Hc'. by simplify_eq.
Qed.

(** ** Witnesses *)

#[local] Existing Instance gov_env.

Definition sample_hash (c : ConstitutionContent) : string := cc_id c +:+ "@" +:+ cc_version c.

Definition after_create : ConstitutionManager :=
  (create sample_hash "Charter" "" None None None None None "gk" (empty_constitutions world0)).2.
Definition charter_id : string := root_id (empty_constitutions world0).
Definition charter : ConstitutionISR :=
  match current_constitution charter_id after_create with
  | Some c => c
  | None => new_constitution "" "" "" "" None None None None None "" 0
  end.
Definition after_activate : ConstitutionManager := (activate charter_id after_create).2.

Lemma create_reached : rtc (constitution_call sample_hash) (empty_constitutions world0) after_create.
Proof.
  apply rtc_once. eapply (call_create _ _ "Charter" "" None None None None None "gk").
  - reflexivity.
  - apply surjective_pairing.
Defined.

Lemma recorded_versions_immutable_witness :
  exists c', dget "0.1.0" (versions_of charter_id after_activate) = Some c' /\
    constitution_content c' = constitution_content charter.
Proof.
  destruct (recorded_versions_immutable sample_hash world0 after_create after_activate charter_id
    "0.1.0" charter create_reached) as [(c' & E & Ec & _) _].
  - apply rtc_once. exact (call_activate _ _ charter_id _ _ (surjective_pairing _)).
  - reflexivity.
  - exists c'. split; [exact E|exact Ec].
Defined.

Definition after_revoke : ConstitutionManager := (revoke charter_id after_activate).2.

Lemma revoked_constitution_reactivated_witness :
  exists c1 m1 c2 m2, under_review charter_id after_revoke = (Ok c1, m1) /\
    activate charter_id m1 = (Ok c2, m2) /\ co_status c2 = CS_ACTIVE.
Proof.
  destruct (revoked_constitution_reactivated charter_id after_revoke
    (co_set_status CS_REVOKED (co_set_effective 1 (co_set_status CS_ACTIVE charter))))
    as (_ & c1 & m1 & c2 & m2 & E1 & E2 & E3 & _); [vm_compute; reflexivity|reflexivity|].
  exists c1, m1, c2, m2. split; [exact E1|]. split; [exact E2|exact E3].
Defined.

Lemma revision_takes_constitution_out_of_force_witness :
  exists c' m', create sample_hash "Charter II" "" None None None (Some charter_id) None "gk"
                  after_activate = (Ok c', m') /\
    co_status c' = CS_DRAFT /\ length (active after_activate) = 1%nat.
Proof.
  destruct (revision_takes_constitution_out_of_force sample_hash world0 after_activate charter_id
    (co_set_effective 1 (co_set_status CS_ACTIVE charter)) "Charter II" "" None None None None "gk")
    as (c' & m' & E & Es & _).
  - apply (rtc_r _ after_create); [exact create_reached|].
    exact (call_activate _ _ charter_id _ _ (surjective_pairing _)).
  - vm_compute. reflexivity.
  - exists c', m'. split; [exact E|]. split; [exact Es|]. vm_compute. reflexivity.
Defined.
