(* ===== verification/Lease.v ===== *)
(** * API service: the control-plane lease

    [autonomous-api/app/storage/lease.py].  The table holds one row under the one
    key the code uses; [BEGIN IMMEDIATE] makes every call one transaction, so
    processes interleave call by call.  A call reads the clock before it opens
    its transaction. *)

From S2P Require Import Prelude PyFloat PyVal FinModels.
Open Scope Z_scope.

Record LeaseRow : Set := {
  le_owner_token : string;
  le_owner_run_id : string;
  le_acquired_at : Z;
  le_heartbeat_at : Z;
  le_expires_at : Z;
}.

Record LeaseDB : Set := { ld_row : option LeaseRow; ld_world : World }.

Definition LEASE_SECONDS : Z := 300.
Definition BUSY_MESSAGE : string := "another authoritative evolution operation is already active".
Definition LOST_MESSAGE : string := "control-plane lease ownership was lost".

(** [now + timedelta(seconds=n)]: a datetime ends with the year 9999. *)
Definition datetime_max : Z := 253402300799999999.
Definition datetime_min : Z := -62135596800000000.
Definition add_seconds (now n : Z) : res Z :=
  let t := now + n * 1000000 in
  if (datetime_min <=? t) && (t <=? datetime_max) then Ok t
  else Raise (OverflowError "date value out of range").

Section Lease.
Context `{Env}.

Definition put_row (row : option LeaseRow) (d : LeaseDB) : LeaseDB :=
  {| ld_row := row; ld_world := ld_world d |}.
Definition ld_put_world (w : World) (d : LeaseDB) : LeaseDB :=
  {| ld_row := ld_row d; ld_world := w |}.
Definition in_world {A} (op : M World A) : M LeaseDB A := zoom ld_world ld_put_world op.

(** [str(uuid.uuid4())]: the digits with their dashes. *)
Definition uuid_text (hex : string) : string :=
  String.substring 0 8 hex +:+ "-" +:+ String.substring 8 4 hex +:+ "-" +:+
  String.substring 12 4 hex +:+ "-" +:+ String.substring 16 4 hex +:+ "-" +:+
  String.substring 20 12 hex.
Definition new_token : M World string := fun w =>
  (Ok (uuid_text (uuid_hex (uuids_drawn w))),
   {| uuids_drawn := S (uuids_drawn w); clock_reads := clock_reads w |}).

Definition acquire_control_plane_lease (owner_run_id : string) (lease_seconds : Z)
    (allow_stale_takeover : bool) : M LeaseDB string :=
  if lease_seconds <=? 0 then raise (ValueError "lease_seconds must be positive")
  else
    owner_token ← in_world new_token;
    now ← in_world utcnow;
    expires ← lift_res (add_seconds now lease_seconds);
    row ← gets ld_row;
    let mine := {| le_owner_token := owner_token; le_owner_run_id := owner_run_id;
                   le_acquired_at := now; le_heartbeat_at := now; le_expires_at := expires |} in
    match row with
    | Some r =>
        if (now <? le_expires_at r) || negb allow_stale_takeover
        then raise (ControlPlaneBusy BUSY_MESSAGE)
        else _ ← modify (put_row (Some mine)); mret owner_token
    | None => _ ← modify (put_row (Some mine)); mret owner_token
    end.

Definition heartbeat_control_plane_lease (owner_token : string) (lease_seconds : Z)
    : M LeaseDB unit :=
  now ← in_world utcnow;
  expires ← lift_res (add_seconds now lease_seconds);
  row ← gets ld_row;
  match row with
  | Some r =>
      if bool_decide (le_owner_token r = owner_token) then
        modify (put_row (Some {| le_owner_token := le_owner_token r;
          le_owner_run_id := le_owner_run_id r; le_acquired_at := le_acquired_at r;
          le_heartbeat_at := now; le_expires_at := expires |}))
      else raise (ControlPlaneBusy LOST_MESSAGE)
  | None => raise (ControlPlaneBusy LOST_MESSAGE)
  end.

Definition release_control_plane_lease (owner_token : string) : M LeaseDB unit :=
  row ← gets ld_row;
  match row with
  | Some r => when (bool_decide (le_owner_token r = owner_token)) (modify (put_row None))
  | None => mret tt
  end.

(** The clock is read only when there is a row. *)
Definition lease_is_live : M LeaseDB bool :=
  row ← gets ld_row;
  match row with
  | Some r => now ← in_world utcnow; mret (now <? le_expires_at r)
  | None => mret false
  end.

(** [try: m finally: f]: the exception of [f] wins over that of [m]. *)
Definition try_finally {S A} (m : M S A) (f : M S unit) : M S A := fun s =>
  match m s with
  | (r, s1) => match f s1 with
               | (Ok _, s2) => (r, s2)
               | (Raise e, s2) => (Raise e, s2)
               end
  end.

(** [with control_plane_lease(owner_run_id=...) as token: body]. *)
Definition control_plane_lease {A} (owner_run_id : string) (body : string -> M LeaseDB A)
    : M LeaseDB A :=
  token ← acquire_control_plane_lease owner_run_id LEASE_SECONDS false;
  try_finally (body token) (release_control_plane_lease token).

(** The calls of all processes, in the order of their transactions. *)
Inductive lease_call : Set :=
| L_acquire (owner_run_id : string) (lease_seconds : Z) (allow_stale_takeover : bool)
| L_heartbeat (owner_token : string) (lease_seconds : Z)
| L_release (owner_token : string)
| L_is_live.

Inductive lease_answer : Set := A_token (t : string) | A_unit | A_bool (b : bool).

Definition lease_exec (c : lease_call) : M LeaseDB lease_answer :=
  match c with
  | L_acquire o n b => t ← acquire_control_plane_lease o n b; mret (A_token t)
  | L_heartbeat t n => _ ← heartbeat_control_plane_lease t n; mret A_unit
  | L_release t => _ ← release_control_plane_lease t; mret A_unit
  | L_is_live => b ← lease_is_live; mret (A_bool b)
  end.

Fixpoint lease_run (cs : list lease_call) (d : LeaseDB) : list (res lease_answer) * LeaseDB :=
  match cs with
  | [] => ([], d)
  | c :: cs' => let (r, d1) := lease_exec c d in
                let (rs, d2) := lease_run cs' d1 in (r :: rs, d2)
  end.
End Lease.

(** ** Who holds the lease *)

Lemma add_seconds_ok now n :
  datetime_min <= now + n * 1000000 <= datetime_max -> add_seconds now n = Ok (now + n * 1000000).
Proof. intros H. unfold add_seconds. by rewrite (proj2 (andb_true_iff _ _)) by lia. Qed.

Section Spec.
Context `{Env}.
Implicit Types (d : LeaseDB).

Definition holder d : option string := le_owner_token <$> ld_row d.

(** A call of another process: it does not release [t], nor takes over. *)
Definition bystander (t : string) (c : lease_call) : Prop :=
  match c with
  | L_acquire _ _ takeover => takeover = false
  | L_release t' => t' <> t
  | _ => True
  end.

(** An acquisition that did not succeed. *)
Definition refused_acquire (c : lease_call) (r : res lease_answer) : Prop :=
  match c with L_acquire _ _ _ => is_ok r = false | _ => True end.

Lemma acquire_held o n takeover d r :
  ld_row d = Some r -> (takeover = false \/ clock (clock_reads (ld_world d)) < le_expires_at r) ->
  let (a, d') := acquire_control_plane_lease o n takeover d in
  is_ok a = false /\ ld_row d' = Some r.
Proof.
  intros Hr Ht. unfold acquire_control_plane_lease. destruct (n <=? 0); [done|].
  unfold in_world, new_token, utcnow, lift_res. unfold_monad. cbn.
  destruct (add_seconds _ _) as [e|x]; [|done]. rewrite Hr.
  destruct Ht as [-> |Hlt]; [by rewrite orb_true_r|].
  apply Z.ltb_lt in Hlt. by rewrite Hlt.
Qed.

Lemma bystander_step t c d :
  holder d = Some t -> bystander t c ->
  holder (lease_exec c d).2 = Some t /\ refused_acquire c (lease_exec c d).1.
Proof.
  unfold holder. intros Hd Hc. destruct (ld_row d) as [r|] eqn:Er; [|done].
  injection Hd as Ht. destruct c as [o n b|t' n|t'|]; simpl in *.
  - subst b. pose proof (acquire_held o n false d r Er (or_introl eq_refl)) as Ha.
    unfold mbind, M_bind. destruct (acquire_control_plane_lease o n false d) as [[tok|e] d'];
      destruct Ha as [Ha Hd']; [done|]. simpl. by rewrite Hd', <- Ht.
  - unfold heartbeat_control_plane_lease, in_world, utcnow, lift_res. unfold_monad. cbn.
    destruct (add_seconds _ _) as [e|x]; cbn; [|by rewrite Er, <- Ht].
    rewrite Er. case_bool_decide; cbn; [by rewrite <- Ht|by rewrite Er, <- Ht].
  - unfold release_control_plane_lease. unfold_monad. rewrite Er.
    case_bool_decide; [congruence|]. cbn. by rewrite Er, <- Ht.
  - unfold lease_is_live, in_world, utcnow. unfold_monad. rewrite Er. cbn. by rewrite Er, <- Ht.
Qed.

Lemma heartbeat_keeps_holder t t' n d :
  holder d = Some t -> holder (heartbeat_control_plane_lease t' n d).2 = Some t.
Proof.
  intros Hd. destruct (bystander_step t (L_heartbeat t' n) d Hd I) as [Hh _].
  simpl in Hh. unfold mbind, M_bind in Hh.
  by destruct (heartbeat_control_plane_lease t' n d) as [[] ?].
Qed.

(** C28: Mutual exclusion.  Once a process holds the lease, then over every
    interleaving of calls of any processes in which nobody presents its token for
    release and nobody takes over, it still holds it, and every acquisition is
    refused; how much time passes makes no difference, so a holder that
    died without releasing blocks all later acquisitions, and no caller in the
    repository asks for a takeover. *)
Theorem lease_held_until_released t cs d :
  holder d = Some t -> Forall (bystander t) cs ->
  holder (lease_run cs d).2 = Some t /\ Forall2 refused_acquire cs (lease_run cs d).1.
Proof.
  intros Hd Hcs. revert d Hd. induction Hcs as [|c cs Hc _ IH]; intros d Hd; simpl; [by split|].
  destruct (bystander_step t c d Hd Hc) as [Hd1 Hr].
  destruct (lease_exec c d) as [r d1]. simpl in *. destruct (IH d1 Hd1) as [Hd2 Hrs].
  destruct (lease_run cs d1) as [rs d2]. by split; [|constructor].
Qed.

(** [acquire_control_plane_lease] on every branch: it succeeds exactly when
    the duration is positive and representable and either nobody has a row, or
    takeover is allowed and the row has expired at the time the call read; then
    the caller's fresh token is the holder, until now plus the duration.
    Otherwise it raises and the row is unchanged. *)
Theorem acquire_iff o n takeover d :
  let now := clock (clock_reads (ld_world d)) in
  let token := uuid_text (uuid_hex (uuids_drawn (ld_world d))) in
  let (a, d') := acquire_control_plane_lease o n takeover d in
  (is_ok a = true <->
     0 < n /\ now + n * 1000000 <= datetime_max /\ datetime_min <= now + n * 1000000 /\
     (ld_row d = None \/ takeover = true /\ exists r, ld_row d = Some r /\ le_expires_at r <= now)) /\
  (is_ok a = true -> a = Ok token /\
     ld_row d' = Some {| le_owner_token := token; le_owner_run_id := o; le_acquired_at := now;
                         le_heartbeat_at := now; le_expires_at := now + n * 1000000 |}) /\
  (is_ok a = false -> ld_row d' = ld_row d).
Proof.
  cbv zeta. unfold acquire_control_plane_lease. destruct (Z.leb_spec n 0) as [Hn|Hn].
  { simpl. split_and!; [|done..]. split; [done|lia]. }
  unfold in_world, new_token, utcnow, lift_res, add_seconds. unfold_monad. cbn.
  destruct ((datetime_min <=? _) && _) eqn:Eb; cbn.
  2:{ split_and!; [|done..]. split; [done|]. apply andb_false_iff in Eb. lia. }
  apply andb_true_iff in Eb. destruct (ld_row d) as [r|] eqn:Er; cbn.
  - destruct (Z.ltb_spec (clock (clock_reads (ld_world d))) (le_expires_at r)) as [Hl|Hl]; cbn.
    + split_and!; [|done..]. split; [done|]. intros (_ & _ & _ & [?|(_ & r' & [= <-] & ?)]); [done|lia].
    + destruct takeover; cbn.
      * split_and!; [|done..]. split; [|done]. intros _. split_and!; [lia..|]. right. eauto.
      * split_and!; [|done..]. split; [done|]. by intros (_ & _ & _ & [?|[? _]]).
  - split_and!; [|done..]. split; [|done]. intros _. split_and!; [lia..|by left].
Qed.

(** [with control_plane_lease]: when nobody has a row (and the clock is within
    range), the body runs as the holder, and however it ends, with a value or an
    exception, the lease is free again and the outcome is the body's, as long as
    the body leaves the holder unchanged (heartbeats do). *)
Theorem scoped_lease_is_released {A} o (body : string -> M LeaseDB A) d :
  ld_row d = None ->
  datetime_min <= clock (clock_reads (ld_world d)) <= datetime_max - LEASE_SECONDS * 1000000 ->
  (forall t d1, holder d1 = Some t -> holder (body t d1).2 = Some t) ->
  exists t d1, holder d1 = Some t /\
    (control_plane_lease o body d).1 = (body t d1).1 /\
    ld_row (control_plane_lease o body d).2 = None.
Proof.
  intros Hd Hnow Hbody. unfold control_plane_lease.
  set (t := uuid_text (uuid_hex (uuids_drawn (ld_world d)))).
  assert (Ha : exists d1, acquire_control_plane_lease o LEASE_SECONDS false d = (Ok t, d1)
            /\ holder d1 = Some t).
  { unfold acquire_control_plane_lease. change (LEASE_SECONDS <=? 0) with false.
    unfold in_world, new_token, utcnow, lift_res. unfold_monad. cbn -[LEASE_SECONDS add_seconds].
    rewrite add_seconds_ok by (unfold LEASE_SECONDS, datetime_min, datetime_max in *; lia).
    cbn. rewrite Hd. by eexists. }
  destruct Ha as (d1 & Ea & Hh). exists t, d1. split; [done|].
  rewrite (M_bind_Ok _ _ _ _ _ Ea). unfold try_finally. specialize (Hbody t d1 Hh).
  destruct (body t d1) as [r d2]. simpl in Hbody. unfold holder in Hbody.
  unfold release_control_plane_lease. unfold_monad.
  destruct (ld_row d2) as [row|]; [|done]. injection Hbody as ->.
  by rewrite bool_decide_true.
Qed.

(** A heartbeat of the holder does not ask whether the lease is still live:
    it renews an expired one, and a duration of zero or less, which [acquire]
    refuses, makes the lease expire at once. *)
Theorem heartbeat_ignores_expiry t n d r :
  ld_row d = Some r -> le_owner_token r = t ->
  let now := clock (clock_reads (ld_world d)) in
  datetime_min <= now + n * 1000000 <= datetime_max ->
  exists d', heartbeat_control_plane_lease t n d = (Ok tt, d') /\
    le_expires_at <$> ld_row d' = Some (now + n * 1000000) /\ holder d' = Some t.
Proof.
  intros Hd Ht now Hnow.
  unfold heartbeat_control_plane_lease, in_world, utcnow, lift_res. unfold_monad.
  cbn -[add_seconds]. fold now. rewrite add_seconds_ok by done. cbn. rewrite Hd.
  rewrite bool_decide_true by done. eexists. split; [done|]. unfold holder. cbn. by subst t.
Qed.
End Spec.

(** ** Witnesses *)

#[local] Instance lease_env : Env :=
  { uuid_hex n := String (Ascii.ascii_of_nat (97 + n)) "0123456789abcdef0123456789abcde";
    clock n := 1000000 * Z.of_nat n; float_repr x := "x" }.

Definition free_lease : LeaseDB := {| ld_row := None; ld_world := world0 |}.
Definition held_lease : LeaseDB := (acquire_control_plane_lease "run" 5 false free_lease).2.
Definition held_token : string := uuid_text (uuid_hex 0).
Definition held_row : LeaseRow :=
  {| le_owner_token := held_token; le_owner_run_id := "run"; le_acquired_at := 0;
     le_heartbeat_at := 0; le_expires_at := 5000000 |}.

Definition bystanders : list lease_call :=
  [L_is_live; L_acquire "other" 300 false; L_heartbeat "x" 300; L_is_live; L_is_live; L_is_live;
   L_acquire "late" 300 false].

Lemma lease_held_until_released_witness :
  holder (lease_run bystanders held_lease).2 = Some held_token /\
  (lease_is_live (lease_run bystanders held_lease).2).1 = Ok false.
Proof.
  split; [|vm_compute; reflexivity].
  apply (lease_held_until_released held_token bystanders held_lease); [reflexivity|].
  repeat constructor.
Defined.

Lemma scoped_lease_is_released_witness :
  ld_row (control_plane_lease "run" (fun t => heartbeat_control_plane_lease t 10) free_lease).2
  = None.
Proof.
  destruct (scoped_lease_is_released "run" (fun t => heartbeat_control_plane_lease t 10) free_lease)
    as (t & d1 & _ & _ & E); [reflexivity|vm_compute; by split|exact (fun t d1 =>
      heartbeat_keeps_holder t t 10 d1)|exact E].
Defined.

Lemma heartbeat_ignores_expiry_witness :
  exists d', heartbeat_control_plane_lease held_token (-1) held_lease = (Ok tt, d') /\
    le_expires_at <$> ld_row d' = Some 0 /\ holder d' = Some held_token.
Proof.
  replace 0 with (clock (clock_reads (ld_world held_lease)) + -1 * 1000000)
    by (vm_compute; reflexivity).
  apply (heartbeat_ignores_expiry held_token (-1) held_lease held_row); [reflexivity..|].
  vm_compute. by split.
Defined.
