(* ===== verification/RateLimit.v ===== *)
(** * API service: the rate limiter

    [autonomous-api/app/middleware/rate_limit.py]: the sliding-window limiter and
    the middleware's choice of limiter.  The clock's answer is an argument;
    windows are below 2^53 seconds, so comparing with them as floats is exact. *)

From S2P Require Import Prelude PyFloat PyVal.
Open Scope Z_scope.

Record RateLimiter : Set := {
  rl_max_requests : Z;
  rl_window_seconds : Z;
  rl_requests : list (string * list float);
}.

Record RateLimitInfo : Set := {
  ri_limit : Z;
  ri_remaining : Z;
  ri_retry_after : Z;
  ri_window_seconds : Z;
}.

Definition new_limiter (max_requests window_seconds : Z) : RateLimiter :=
  {| rl_max_requests := max_requests; rl_window_seconds := window_seconds; rl_requests := [] |}.

Definition put_requests (d : list (string * list float)) (l : RateLimiter) : RateLimiter :=
  {| rl_max_requests := rl_max_requests l; rl_window_seconds := rl_window_seconds l;
     rl_requests := d |}.

(** [current_time - t < self.window_seconds]. *)
Definition in_window (window : Z) (now t : float) : bool := fltb (fsub now t) (of_Z window).

(** [min(xs)]: the first smallest element. *)
Definition list_min (xs : list float) : res float :=
  match xs with
  | [] => Raise (ValueError "min() iterable argument is empty")
  | x :: xs' => Ok (fold_left fmin2 xs' x)
  end.

Definition is_rate_limited (now : float) (client_ip : string)
    : M RateLimiter (bool * RateLimitInfo) :=
  limiter ← gets id;
  let w := rl_window_seconds limiter in
  let requests := if dmem client_ip (rl_requests limiter) then rl_requests limiter
                  else dset client_ip [] (rl_requests limiter) in
  let recent := List.filter (in_window w now) (dget_or client_ip requests []) in
  let requests := dset client_ip recent requests in
  _ ← modify (put_requests requests);
  if rl_max_requests limiter <=? Z.of_nat (length recent) then
    oldest_request ← lift_res (list_min recent);
    left ← lift_res (int_of_float (fsub (of_Z w) (fsub now oldest_request)));
    mret (true, {| ri_limit := rl_max_requests limiter; ri_remaining := 0;
                   ri_retry_after := left + 1; ri_window_seconds := w |})
  else
    let recent := recent ++ [now] in
    _ ← modify (put_requests (dset client_ip recent requests));
    mret (false, {| ri_limit := rl_max_requests limiter;
                    ri_remaining := rl_max_requests limiter - Z.of_nat (length recent);
                    ri_retry_after := 0; ri_window_seconds := w |}).

(** The clients are all trimmed before the empty ones are deleted. *)
Definition cleanup (now : float) : M RateLimiter unit :=
  modify (fun l =>
    let trimmed := map (fun '(ip, ts) => (ip, List.filter (in_window (rl_window_seconds l) now) ts))
                     (rl_requests l) in
    let stale_ips := map fst (List.filter (fun '(_, ts) => match ts with [] => true | _ => false end)
                                trimmed) in
    put_requests (fold_left (fun d ip => ddel ip d) stale_ips trimmed) l).

(** ** The middleware *)

Record RateLimits : Set := { evolution_limiter : RateLimiter; general_limiter : RateLimiter }.

Definition initial_limits : RateLimits :=
  {| evolution_limiter := new_limiter 20 60; general_limiter := new_limiter 100 60 |}.

(** The verdict of [dispatch] on a request: [inl] is the 429 response with its
    info, [inr] is the info that goes into the headers of the response. *)
Definition dispatch (now : float) (client : option string) (path : string)
    : M RateLimits (RateLimitInfo + RateLimitInfo) :=
  let client_ip := match client with Some h => h | None => "unknown" end in
  verdict ← (if str_contains "/evolve" path
             then zoom evolution_limiter
                    (fun l s => {| evolution_limiter := l; general_limiter := general_limiter s |})
                    (is_rate_limited now client_ip)
             else zoom general_limiter
                    (fun l s => {| evolution_limiter := evolution_limiter s; general_limiter := l |})
                    (is_rate_limited now client_ip));
  let '(is_limited, info) := verdict : bool * RateLimitInfo in
  mret (if is_limited then inl info else inr info).

Definition cleanup_old_entries (now now' : float) : M RateLimits unit :=
  _ ← zoom evolution_limiter
        (fun l s => {| evolution_limiter := l; general_limiter := general_limiter s |}) (cleanup now);
  zoom general_limiter
    (fun l s => {| evolution_limiter := evolution_limiter s; general_limiter := l |}) (cleanup now').

(** ** Calls of one limiter *)

Inductive limiter_call : Set :=
| RL_request (now : float) (client_ip : string)
| RL_cleanup (now : float).

Definition call_time (c : limiter_call) : float :=
  match c with RL_request now _ | RL_cleanup now => now end.

(** Whether each request was limited; [None] for a call that raised. *)
Fixpoint limiter_run (cs : list limiter_call) (l : RateLimiter) : list (option bool) * RateLimiter :=
  match cs with
  | [] => ([], l)
  | RL_request now ip :: cs' =>
      let (r, l1) := is_rate_limited now ip l in
      let (rs, l2) := limiter_run cs' l1 in
      ((match r with Ok (b, _) => Some b | Raise _ => None end) :: rs, l2)
  | RL_cleanup now :: cs' => limiter_run cs' (cleanup now l).2
  end.

(** The reference: all accepted requests are remembered, and a request is
    limited when as many of its client as the limit lie in the window. *)
Fixpoint reference_run (max window : Z) (cs : list limiter_call) (log : list (string * float))
    : list (option bool) :=
  match cs with
  | [] => []
  | RL_request now ip :: cs' =>
      let recent := List.filter (fun p => bool_decide (p.1 = ip) && in_window window now p.2) log in
      if max <=? Z.of_nat (length recent)
      then Some true :: reference_run max window cs' log
      else Some false :: reference_run max window cs' (log ++ [(ip, now)])
  | RL_cleanup _ :: cs' => reference_run max window cs' log
  end.

(** ** The limiter against the reference *)

(** What is known of the clock over a trace: the window only moves forward
    (a time that has left the window of one call is outside the windows of the
    later ones), and remaining times are finite. *)
Record timeline (window : Z) (all times : list float) : Prop := {
  tl_forward : ForallOrdPairs (fun c c' => forall t, t ∈ all ->
    in_window window c' t = true -> in_window window c t = true) times;
  tl_finite c t : c ∈ times -> t ∈ all -> in_window window c t = true ->
    is_ok (int_of_float (fsub (of_Z window) (fsub c t))) = true;
}.

Lemma filter_filter_sub {A} (p q : A -> bool) l :
  (forall x, x ∈ l -> q x = true -> p x = true) ->
  List.filter q (List.filter p l) = List.filter q l.
Proof.
  induction l as [|x l IH]; intros H; simpl; [done|].
  destruct (p x) eqn:Ep; simpl; [by rewrite IH by (intros; apply H; set_solver)|].
  destruct (q x) eqn:Eq; [|apply IH; intros; apply H; set_solver].
  rewrite (H x) in Ep; [done|left|done].
Qed.

Lemma elem_of_filter_sub {A} (p : A -> bool) l x : x ∈ List.filter p l -> x ∈ l /\ p x = true.
Proof. rewrite !list_elem_of_In. apply filter_In. Qed.

Lemma list_min_elem xs : xs <> [] -> exists x, list_min xs = Ok x /\ x ∈ xs.
Proof.
  destruct xs as [|x xs]; [done|]. intros _. eexists. split; [done|].
  revert x. induction xs as [|y xs IH]; intros x; simpl; [by left|].
  specialize (IH (fmin2 x y)). unfold fmin2 in IH |- *. destruct (fltb y x); set_solver.
Qed.

(** The times of a client in a log. *)
Definition times_of (ip : string) (log : list (string * float)) : list float :=
  map snd (List.filter (fun p => bool_decide (p.1 = ip)) log).

Lemma times_of_count ip (p : float -> bool) log :
  length (List.filter (fun q => bool_decide (q.1 = ip) && p q.2) log)
  = length (List.filter p (times_of ip log)).
Proof.
  unfold times_of. induction log as [|[i t] log IH]; simpl; [done|].
  destruct (bool_decide (i = ip)); simpl; [|done]. destruct (p t); simpl; by rewrite IH.
Qed.

Lemma times_of_snoc ip ip' t log :
  times_of ip (log ++ [(ip', t)]) = if decide (ip = ip') then times_of ip log ++ [t] else times_of ip log.
Proof.
  unfold times_of. rewrite List.filter_app, map_app. simpl.
  case_decide as E; [subst; by rewrite bool_decide_true|].
  rewrite bool_decide_false by congruence. by rewrite app_nil_r.
Qed.

(** *** Deleting the empty clients *)

Lemma dget_ddels {V} ks k (d : list (string * V)) : dict_ok d ->
  dict_ok (fold_left (fun d k => ddel k d) ks d) /\
  dget k (fold_left (fun d k => ddel k d) ks d) = if decide (k ∈ ks) then None else dget k d.
Proof.
  revert d. induction ks as [|k0 ks IH]; intros d Hd; cbn [fold_left]; [by rewrite decide_False by set_solver|].
  destruct (IH (ddel k0 d)) as [H1 H2]; [by apply ddel_ok|]. split; [done|]. rewrite H2, dget_ddel by done.
  destruct (decide (k ∈ ks)); [by rewrite decide_True by set_solver|].
  destruct (decide (k = k0)) as [->|]; [by rewrite decide_True by set_solver|].
  by rewrite decide_False by set_solver.
Qed.

Lemma cleanup_client now l ip :
  dict_ok (rl_requests l) ->
  dict_ok (rl_requests (cleanup now l).2) /\
  dget_or ip (rl_requests (cleanup now l).2) []
  = List.filter (in_window (rl_window_seconds l) now) (dget_or ip (rl_requests l) []).
Proof.
  intros Hd. unfold cleanup, modify. simpl.
  set (trim := fun p : string * list float => let '(i, ts) := p in
                 (i, List.filter (in_window (rl_window_seconds l) now) ts)).
  set (trimmed := map trim (rl_requests l)).
  set (stale := map fst _).
  assert (Ht : forall d : list (string * list float), dkeys (map trim d) = dkeys d /\
    forall k, dget k (map trim d) = List.filter (in_window (rl_window_seconds l) now) <$> dget k d).
  { induction d as [|[k0 v0] d [IH1 IH2]]; [done|]. simpl. rewrite IH1. split; [done|].
    intros k. case_decide; [done|apply IH2]. }
  destruct (Ht (rl_requests l)) as [Hk Hg].
  assert (Htd : dict_ok trimmed) by (unfold dict_ok, trimmed; by rewrite Hk).
  destruct (dget_ddels stale ip trimmed Htd) as [H1 H2]. split; [done|].
  unfold dget_or at 1. rewrite H2. unfold dget_or. fold trimmed in Hg.
  destruct (decide (ip ∈ stale)) as [Hs|Hs].
  - apply list_elem_of_fmap in Hs as ([i ts] & -> & Hin). apply elem_of_filter_sub in Hin as [Hin Hts].
    apply (elem_dget _ _ _ Htd) in Hin. simpl. rewrite Hg in Hin. destruct ts; [|done].
    destruct (dget i (rl_requests l)); simplify_eq/=; by rewrite ?Hin.
  - rewrite Hg. by destruct (dget ip (rl_requests l)).
Qed.

(** *** One request *)

Abbreviation client_times ip l := (dget_or ip (rl_requests l) []).

Definition recent_of (now : float) (ip : string) (l : RateLimiter) : list float :=
  List.filter (in_window (rl_window_seconds l) now) (client_times ip l).

Lemma trim_client now ip l :
  List.filter (in_window (rl_window_seconds l) now)
    (dget_or ip (if dmem ip (rl_requests l) then rl_requests l else dset ip [] (rl_requests l)) [])
  = recent_of now ip l.
Proof.
  unfold recent_of. f_equal. unfold dmem, dget_or at 1.
  destruct (dget ip (rl_requests l)) eqn:E; [by unfold dget_or; rewrite E|].
  rewrite dget_dset_eq. unfold dget_or. by rewrite E.
Qed.

(** What a request answers, and the table it leaves. *)
Lemma request_run now ip l :
  let recent := recent_of now ip l in
  let limited := rl_max_requests l <=? Z.of_nat (length recent) in
  let (r, l') := is_rate_limited now ip l in
  rl_max_requests l' = rl_max_requests l /\ rl_window_seconds l' = rl_window_seconds l /\
  (dict_ok (rl_requests l) -> dict_ok (rl_requests l')) /\
  (forall ip', client_times ip' l' = if decide (ip' = ip) then
     (if limited then recent else recent ++ [now]) else client_times ip' l) /\
  (limited = false -> exists info, r = Ok (false, info)) /\
  (limited = true -> (forall t, t ∈ recent ->
      is_ok (int_of_float (fsub (of_Z (rl_window_seconds l)) (fsub now t))) = true) ->
    recent <> [] -> exists info, r = Ok (true, info)).
Proof.
  cbv zeta. unfold is_rate_limited. unfold_monad. unfold id. rewrite trim_client.
  set (recent := recent_of now ip l).
  set (d0 := if dmem ip (rl_requests l) then _ else _).
  assert (Hd0 : dict_ok (rl_requests l) -> dict_ok d0).
  { intros Hd. unfold d0. destruct (dmem ip (rl_requests l)); [done|by apply dset_ok]. }
  assert (Hg0 : forall ip', dget_or ip' d0 [] = client_times ip' l).
  { intros ip'. unfold d0, dmem, dget_or. destruct (dget ip (rl_requests l)) eqn:E; [done|].
    rewrite dget_dset. case_decide; [subst; by rewrite E|done]. }
  assert (Hset : forall ts ip', dget_or ip' (dset ip ts d0) [] = if decide (ip' = ip) then ts else client_times ip' l).
  { intros ts ip'. unfold dget_or at 1. rewrite dget_dset. case_decide; [done|]. apply Hg0. }
  destruct (Z.leb_spec (rl_max_requests l) (Z.of_nat (length recent))) as [Hl|Hl].
  - destruct (list_min recent) as [oldest|e] eqn:Em; cbn.
    + assert (Ho : oldest ∈ recent).
      { destruct (list_min_elem recent) as (x & Ex & Hx); [by intros E; rewrite E in Em|]. congruence. }
      destruct (int_of_float _) as [n|e] eqn:Ei; cbn.
      * split_and!; [done|done|auto using dset_ok|apply Hset|done|by eexists].
      * split_and!; [done|done|auto using dset_ok|apply Hset|done|].
        intros _ Hok _. specialize (Hok oldest Ho). by rewrite Ei in Hok.
    + split_and!; [done|done|auto using dset_ok|apply Hset|done|].
      intros _ _ Hne. destruct (list_min_elem recent Hne) as (x & Ex & _). congruence.
  - cbn. split_and!; [done|done|auto using dset_ok| |by eexists|lia].
    intros ip'. unfold dget_or at 1. rewrite dget_dset. case_decide; [done|].
    pose proof (Hset recent ip') as Hs. by rewrite decide_False in Hs.
Qed.

(** *** The run *)

(** The table agrees with the log on every window still to come. *)
Definition agrees (all : list float) (l : RateLimiter) (log : list (string * float))
    (later : list float) : Prop :=
  dict_ok (rl_requests l) /\ forall ip,
    (forall t, t ∈ client_times ip l -> t ∈ all) /\
    (forall c, c ∈ later -> List.filter (in_window (rl_window_seconds l) c) (client_times ip l)
                            = List.filter (in_window (rl_window_seconds l) c) (times_of ip log)).

(** Trimming at one time does not change later windows. *)
Lemma trim_later w (all : list float) c (l later : list float) :
  Forall (fun c' => forall t, t ∈ all -> in_window w c' t = true -> in_window w c t = true) later ->
  (forall t, t ∈ l -> t ∈ all) ->
  forall c', c' ∈ later ->
  List.filter (in_window w c') (List.filter (in_window w c) l) = List.filter (in_window w c') l.
Proof.
  intros Hf Hl c' Hc'. rewrite Forall_forall in Hf. apply filter_filter_sub.
  intros t Ht Hw. by apply (Hf c' Hc'); [apply Hl|].
Qed.

Lemma filter_snoc_if {A} (p : A -> bool) l x :
  List.filter p (l ++ [x]) = List.filter p l ++ (if p x then [x] else []).
Proof. rewrite List.filter_app. simpl. by destruct (p x). Qed.

#[local] Arguments cleanup : simpl never.

Lemma limiter_run_reference all max w cs l log :
  0 < max -> rl_max_requests l = max -> rl_window_seconds l = w ->
  timeline w all (map call_time cs) -> (forall c, c ∈ map call_time cs -> c ∈ all) ->
  agrees all l log (map call_time cs) ->
  (limiter_run cs l).1 = reference_run max w cs log.
Proof.
  intros Hmax. revert l log. induction cs as [|c cs IH]; intros l log El Ew [Hf Hr] Hall [Hd Ha]; [done|].
  simpl in Hf, Hall. inversion_clear Hf as [|? ? Hf1 Hf2].
  assert (Htl : timeline w all (map call_time cs)).
  { split; [done|]. intros c' t Hc'. apply Hr. simpl. by right. }
  assert (Hall' : forall c', c' ∈ map call_time cs -> c' ∈ all) by (intros; apply Hall; by right).
  destruct c as [now ip|now]; simpl in *.
  - pose proof (request_run now ip l) as Hq. cbv zeta in Hq.
    destruct (is_rate_limited now ip l) as [r l'].
    destruct Hq as (E1 & E2 & Hd' & Hc' & Hno & Hyes).
    assert (Erec : recent_of now ip l = List.filter (in_window w now) (times_of ip log)).
    { unfold recent_of. rewrite Ew. rewrite <- Ew. apply Ha. by left. }
    rewrite times_of_count, <- Erec. rewrite El in *.
    assert (Hsub : forall t, t ∈ recent_of now ip l -> t ∈ all).
    { intros t Ht. apply elem_of_filter_sub in Ht as [Ht _]. by apply (Ha ip). }
    assert (Hlater : forall c' ip', c' ∈ map call_time cs ->
      List.filter (in_window w c') (client_times ip' l') =
      List.filter (in_window w c') (times_of ip' (if max <=? Z.of_nat (length (recent_of now ip l))
                                                  then log else log ++ [(ip, now)]))).
    { intros c' ip' Hin. rewrite Hc'. rewrite <- Ew.
      destruct (max <=? _) eqn:El'; [|rewrite times_of_snoc]; case_decide as Ei; try subst ip';
        try (rewrite <- (proj2 (Ha _)) by (by right)); rewrite ?filter_snoc_if;
        try (rewrite <- (proj2 (Ha _)) by (by right)); try done.
      all: unfold recent_of; rewrite Ew in *; by rewrite (trim_later w all now _ (map call_time cs)); [|done|apply Ha|]. }
    assert (Hsub' : forall ip' t, t ∈ client_times ip' l' -> t ∈ all).
    { intros ip' t. rewrite Hc'. case_decide; [|by apply Ha]. destruct (max <=? _); [auto|].
      rewrite elem_of_app, list_elem_of_singleton. intros [?| ->]; [auto|apply Hall; by left]. }
    destruct (limiter_run cs l') as [rs l2] eqn:Erun. simpl.
    destruct (max <=? Z.of_nat (length (recent_of now ip l))) eqn:Elim.
    + destruct (Hyes eq_refl) as [info ->].
      * intros t Ht. rewrite Ew. apply Hr; [by left|by apply Hsub|].
        rewrite <- Ew. by apply elem_of_filter_sub in Ht as [_ ?].
      * intros En. rewrite En in Elim. apply Z.leb_le in Elim. cbn in Elim. lia.
      * f_equal. change rs with (rs, l2).1. rewrite <- Erun. apply IH; [congruence..|done|done|].
        split; [auto|]. intros ip'. split; [apply Hsub'|]. intros c' Hin. rewrite E2, Ew. by apply Hlater.
    + destruct (Hno eq_refl) as [info ->]. f_equal. change rs with (rs, l2).1. rewrite <- Erun.
      apply IH; [congruence..|done|done|].
      split; [auto|]. intros ip'. split; [apply Hsub'|]. intros c' Hin. rewrite E2, Ew. by apply Hlater.
  - apply (IH (cleanup now l).2); [done|done|done|done|]. split; [exact (proj1 (cleanup_client now l EmptyString Hd))|].
    intros ip. destruct (cleanup_client now l ip Hd) as [_ ->]. split.
    + intros t Ht. apply elem_of_filter_sub in Ht as [Ht _]. by apply (Ha ip).
    + intros c' Hin. change (rl_window_seconds (cleanup now l).2) with (rl_window_seconds l).
      rewrite <- (proj2 (Ha ip)) by (by right). rewrite Ew.
      by rewrite (trim_later w all now _ (map call_time cs)); [|done|apply Ha|].
Qed.

(** C29: The limiter is a sliding-window limiter.  Over any trace of requests of
    any clients and clean-ups, on a clock that moves forward, a request is
    limited exactly when at least [max_requests] accepted requests of its client
    lie within the window before it, as in the reference that never forgets an
    accepted request; trimming and clean-up never change an answer, and no call
    raises. *)
Theorem limiter_is_sliding_window max w cs :
  0 < max -> timeline w (map call_time cs) (map call_time cs) ->
  (limiter_run cs (new_limiter max w)).1 = reference_run max w cs [].
Proof.
  intros Hmax Ht. apply (limiter_run_reference (map call_time cs)); [done..|].
  split; [apply dict_ok_nil|]. intros ip. split; [|done]. intros t Hin. by apply not_elem_of_nil in Hin.
Qed.

(** *** Whole seconds *)

Lemma in_window_Z w a b : small w -> small a -> small b -> small (a - b) ->
  in_window w (of_Z a) (of_Z b) = (a - b <? w).
Proof. intros. unfold in_window. by rewrite fsub_of_Z, fltb_of_Z. Qed.

Lemma int_of_float_of_Z n : small n -> int_of_float (of_Z n) = Ok n.
Proof.
  intros Hn. rewrite of_Z_norm by done. unfold small in Hn.
  assert (Hp : forall p, Z.abs (Zpos p) < 2 ^ f_prec -> forall s : bool,
            int_of_float (norm_float s p) = Ok (if s then Zneg p else Zpos p)).
  { intros p Hlt s. pose proof (norm_exp_bounds p Hlt) as Hb. unfold norm_float, int_of_float.
    assert (0 < 2 ^ (- norm_exp p)) by (apply Z.pow_pos_nonneg; lia).
    rewrite Z2Pos.id by nia. destruct (Z.leb_spec 0 (norm_exp p)) as [H0|H0].
    - assert (norm_exp p = 0) as -> by lia. simpl. rewrite !Z.mul_1_r. by destruct s.
    - rewrite Z.div_mul by lia. by destruct s. }
  destruct n as [|p|p]; [done|by rewrite (Hp p)|by rewrite (Hp p)].
Qed.

(** A clock of whole seconds that does not go back makes a timeline. *)
Lemma seconds_timeline w ns :
  0 <= w < 2 ^ 52 -> Sorted Z.le ns -> Forall (fun n => 0 <= n < 2 ^ 52) ns ->
  timeline w (map of_Z ns) (map of_Z ns).
Proof.
  intros Hw Hs Hns. assert (H52 : 2 ^ f_prec = 2 * 2 ^ 52) by done.
  assert (Hsm : forall n, n ∈ ns -> 0 <= n < 2 ^ 52) by (by rewrite <- Forall_forall).
  assert (Hin : forall a b, a ∈ ns -> b ∈ ns -> in_window w (of_Z a) (of_Z b) = (a - b <? w)).
  { intros a b Ha%Hsm Hb%Hsm. apply in_window_Z; unfold small; lia. }
  assert (Hel : forall t, t ∈ map of_Z ns -> exists n, t = of_Z n /\ n ∈ ns).
  { intros t (n & -> & Hn)%list_elem_of_fmap. eauto. }
  split.
  - apply Sorted_StronglySorted in Hs; [|intros ???; lia].
    assert (Hsub : forall n, n ∈ ns -> n ∈ ns) by done. revert Hs Hsub. clear Hns.
    generalize ns at 1 2 5. intros ns' Hs. induction Hs as [|n ns' Hs IH Hf]; intros Hsub; [constructor|].
    constructor; [|apply IH; intros; apply Hsub; by right].
    apply Forall_forall. intros c' (n' & -> & Hn')%list_elem_of_fmap t (m & -> & Hm)%Hel.
    rewrite Forall_forall in Hf. specialize (Hf n' Hn').
    rewrite !Hin by (try done; apply Hsub; by (left || right)). lia.
  - intros c t (a & -> & Ha)%Hel (b & -> & Hb)%Hel _. apply Hsm in Ha, Hb.
    rewrite fsub_of_Z, fsub_of_Z, int_of_float_of_Z; [done|unfold small; lia..].
Qed.

Lemma recent_bound now ip l :
  (length (recent_of now ip l) <= length (client_times ip l))%nat.
Proof. unfold recent_of. induction (client_times ip l) as [|t ts IH]; simpl; [done|]. destruct (in_window _ _ t); simpl; lia. Qed.

(** Bounds on any clock, also one that jumps: the limiter never stores more
    than [max_requests] times of a client, and a request that passes is told a
    remaining budget between 0 and [max_requests] - 1. *)
Theorem limiter_storage_bounded max w cs :
  0 < max ->
  let l := (limiter_run cs (new_limiter max w)).2 in
  (forall ip, Z.of_nat (length (client_times ip l)) <= max) /\
  (forall now ip info l', is_rate_limited now ip l = (Ok (false, info), l') ->
     0 <= ri_remaining info < max).
Proof.
  intros Hmax.
  assert (Hinv : forall l, dict_ok (rl_requests l) -> rl_max_requests l = max ->
    (forall ip, Z.of_nat (length (client_times ip l)) <= max) ->
    let l' := (limiter_run cs l).2 in rl_max_requests l' = max /\
    forall ip, Z.of_nat (length (client_times ip l')) <= max).
  { induction cs as [|[now ip|now] cs IH]; intros l Hd El Hl; [done| |].
    - cbn [limiter_run]. pose proof (request_run now ip l) as Hq. cbv zeta in Hq.
      destruct (is_rate_limited now ip l) as [r l1]. destruct Hq as (E1 & _ & Hd1 & Hc1 & _).
      specialize (IH l1). destruct (limiter_run cs l1) as [rs l2]. apply IH; [auto|congruence|].
      intros ip'. rewrite Hc1. case_decide; [|done]. pose proof (recent_bound now ip l). specialize (Hl ip).
      destruct (Z.leb_spec (rl_max_requests l) (Z.of_nat (length (recent_of now ip l)))); [lia|].
      rewrite length_app. simpl. lia.
    - cbn [limiter_run]. apply IH; [exact (proj1 (cleanup_client now l EmptyString Hd))|done|].
      intros ip. rewrite (proj2 (cleanup_client now l ip Hd)).
      pose proof (recent_bound now ip l). specialize (Hl ip). unfold recent_of in *. lia. }
  cbv zeta. destruct (Hinv (new_limiter max w)) as [Em Hb]; [apply dict_ok_nil|done|cbn; lia|].
  split; [done|]. set (l := (limiter_run cs _).2) in *. intros now ip info l' E.
  unfold is_rate_limited in E. unfold_monad. unfold id in E. rewrite trim_client in E.
  destruct (Z.leb_spec (rl_max_requests l) (Z.of_nat (length (recent_of now ip l)))).
  - case_hyp E; [|done]. cbn in E. case_hyp E; [|done]. done.
  - injection E as <- _. cbn. rewrite length_app. simpl. lia.
Qed.

(** ** Witnesses *)

Definition sample_seconds : list Z := [0; 10; 20; 65; 66].
Definition sample_trace : list limiter_call :=
  [RL_request (of_Z 0) "a"; RL_request (of_Z 10) "a"; RL_request (of_Z 20) "a";
   RL_cleanup (of_Z 65); RL_request (of_Z 66) "a"].

Lemma limiter_is_sliding_window_witness :
  (limiter_run sample_trace (new_limiter 2 60)).1 = [Some false; Some false; Some true; Some false].
Proof.
  rewrite (limiter_is_sliding_window 2 60 sample_trace).
  - vm_compute. reflexivity.
  - lia.
  - apply (seconds_timeline 60 sample_seconds); [lia|repeat constructor; lia|].
    repeat constructor; lia.
Defined.

Lemma limiter_storage_bounded_witness :
  Z.of_nat (length (client_times "a" (limiter_run sample_trace (new_limiter 2 60)).2)) <= 2.
Proof. apply (limiter_storage_bounded 2 60 sample_trace). lia. Defined.
