(* ===== verification/KillSwitch.v ===== *)
(** * API service: the signed governance audit and the kill switch

    [autonomous-api/app/core/governance/audit.py] and
    [autonomous-api/app/core/runtime_control.py].  The database is the table of
    audit rows (unique per candidate and sequence) and the table of events;
    sha256 and HMAC over the canonical text, the JSON codec and the text of a
    datetime are the class [AuditBuiltins]. *)

From S2P Require Import Prelude PyFloat PyVal PyText PyJson FinModels.
Open Scope Z_scope.

Record AuditRecord : Set := {
  au_candidate_id : string;
  au_sequence : Z;
  au_event_type : string;
  au_payload : string;
  au_previous_hash : string;
  au_record_hash : string;
  au_signature : string;
}.

(** sha256 of the canonical material, HMAC with a key, JSON, [isoformat]. *)
Class AuditBuiltins := {
  material_hash : string -> Z -> string -> string -> string -> string;
  hmac_hex : string -> string -> string;
  json_dumps : pydict -> string;
  json_loads : string -> res pydict;
  isoformat : Z -> string;
}.

(** An AuditIntegrityError is a RuntimeError. *)
Definition AuditIntegrityError (msg : string) : exn := RuntimeError msg.

Definition RUNTIME_SCOPE : string := "__runtime__".
Definition ACTIVATE_EVENT : string := "RuntimeKillSwitchActivated".
Definition DEACTIVATE_EVENT : string := "RuntimeKillSwitchDeactivated".

Section Signer.
Context `{AuditBuiltins}.

(** [GovernanceAuditSigner(key)]. *)
Definition make_signer (key : string) : res string :=
  if truthy key then Ok key
  else Raise (ValueError "governance audit signing key must be configured").

Definition sign (key candidate_id : string) (sequence : Z) (event_type payload previous_hash : string)
    : string * string :=
  let record_hash := material_hash candidate_id sequence event_type payload previous_hash in
  (record_hash, hmac_hex key record_hash).

Definition audit_place (r : AuditRecord) : string :=
  " at " +:+ au_candidate_id r +:+ ":" +:+ str_of_int (au_sequence r).

Definition verify_record (key : string) (r : AuditRecord) : res unit :=
  let '(expected_hash, expected_signature) :=
    sign key (au_candidate_id r) (au_sequence r) (au_event_type r) (au_payload r)
      (au_previous_hash r) in
  if bool_decide (au_record_hash r <> expected_hash)
  then Raise (AuditIntegrityError ("governance audit hash mismatch" +:+ audit_place r))
  else if bool_decide (au_signature r <> expected_signature)
  then Raise (AuditIntegrityError ("governance audit signature mismatch" +:+ audit_place r))
  else Ok tt.

Fixpoint verify_from (key expected_previous : string) (expected_sequence : Z)
    (records : list AuditRecord) : res unit :=
  match records with
  | [] => Ok tt
  | r :: rs =>
      if bool_decide (au_sequence r <> expected_sequence)
      then Raise (AuditIntegrityError ("governance audit sequence gap" +:+ audit_place r))
      else if bool_decide (au_previous_hash r <> expected_previous)
      then Raise (AuditIntegrityError ("governance audit predecessor mismatch" +:+ audit_place r))
      else _ ← verify_record key r;
           verify_from key (au_record_hash r) (expected_sequence + 1) rs
  end.

Definition verify_audit_chain (records : list AuditRecord) (key : string) : res unit :=
  verify_from key EmptyString 1 records.
End Signer.

(** ** runtime_control.py *)

Record KillSwitchState : Set := {
  ks_enabled : bool;
  ks_reason : pyval;
  ks_activated_by : pyval;
  ks_activated_at : pyval;
  ks_deactivated_by : pyval;
  ks_deactivated_at : pyval;
}.

Record RuntimeDB : Set := {
  db_audit : list AuditRecord;
  db_events : list (string * string * string);
  db_world : World;
}.

Section RuntimeControl.
Context `{Env, AuditBuiltins}.
(** [GOVERNANCE_AUDIT_SIGNING_KEY]. *)
Variable signing_key : string.

Definition sequence_leb (a b : AuditRecord) : bool := au_sequence a <=? au_sequence b.

Definition scope_rows (d : RuntimeDB) : list AuditRecord :=
  sort_by sequence_leb
    (List.filter (fun r => bool_decide (au_candidate_id r = RUNTIME_SCOPE)) (db_audit d)).

Definition runtime_records : M RuntimeDB (list AuditRecord) :=
  records ← gets scope_rows;
  key ← lift_res (make_signer signing_key);
  _ ← lift_res (verify_audit_chain records key);
  mret records.

Definition kill_switch_off : KillSwitchState := {|
  ks_enabled := false; ks_reason := VStr EmptyString; ks_activated_by := VNone;
  ks_activated_at := VNone; ks_deactivated_by := VNone; ks_deactivated_at := VNone |}.

Definition get_kill_switch : M RuntimeDB KillSwitchState :=
  records ← runtime_records;
  match last records with
  | None => mret kill_switch_off
  | Some r =>
      latest ← lift_res (json_loads (au_payload r));
      if bool_decide (au_event_type r = ACTIVATE_EVENT) then
        mret {| ks_enabled := true; ks_reason := dget_or "reason" latest (VStr EmptyString);
                ks_activated_by := dget_or "actor" latest VNone;
                ks_activated_at := dget_or "at" latest VNone;
                ks_deactivated_by := VNone; ks_deactivated_at := VNone |}
      else if bool_decide (au_event_type r = DEACTIVATE_EVENT) then
        mret {| ks_enabled := false; ks_reason := dget_or "reason" latest (VStr EmptyString);
                ks_activated_by := dget_or "previous_activated_by" latest VNone;
                ks_activated_at := dget_or "previous_activated_at" latest VNone;
                ks_deactivated_by := dget_or "actor" latest VNone;
                ks_deactivated_at := dget_or "at" latest VNone |}
      else raise (RuntimeError "unknown runtime kill-switch event; refusing to infer state")
  end.

(** The reason is appended to the message when it is true; a reason that is no
    text, which no command records, is not shown. *)
Definition assert_evolution_enabled : M RuntimeDB unit :=
  state ← get_kill_switch;
  when (ks_enabled state)
    (raise (RuntimeError ("runtime evolution kill switch is active" +:+
       match ks_reason state with
       | VStr t => if truthy t then ": " +:+ t else EmptyString
       | _ => EmptyString
       end))).

Definition append_record (r : AuditRecord) (payload_text : string) (d : RuntimeDB) : RuntimeDB := {|
  db_audit := db_audit d ++ [r];
  db_events := db_events d ++ [(RUNTIME_SCOPE, au_event_type r, payload_text)];
  db_world := db_world d |}.

Definition append_event (event_type : string) (payload : pydict) : M RuntimeDB unit :=
  let payload_text := json_dumps payload in
  key ← lift_res (make_signer signing_key);
  rows ← gets scope_rows;
  let '(sequence, previous_hash) := match last rows with
                                    | Some p => (au_sequence p + 1, au_record_hash p)
                                    | None => (1, EmptyString)
                                    end in
  let '(record_hash, signature) :=
    sign key RUNTIME_SCOPE sequence event_type payload_text previous_hash in
  modify (append_record {| au_candidate_id := RUNTIME_SCOPE; au_sequence := sequence;
    au_event_type := event_type; au_payload := payload_text; au_previous_hash := previous_hash;
    au_record_hash := record_hash; au_signature := signature |} payload_text).

Definition db_put_world (w : World) (d : RuntimeDB) : RuntimeDB :=
  {| db_audit := db_audit d; db_events := db_events d; db_world := w |}.

Definition now_text : M RuntimeDB string :=
  t ← zoom db_world db_put_world utcnow; mret (isoformat t).

Definition activate_kill_switch (reason actor : string) : M RuntimeDB KillSwitchState :=
  current ← get_kill_switch;
  if ks_enabled current then mret current
  else
    now ← now_text;
    _ ← append_event ACTIVATE_EVENT
          [("reason", VStr reason); ("actor", VStr actor); ("at", VStr now)];
    get_kill_switch.

Definition deactivate_kill_switch (actor reason : string) : M RuntimeDB KillSwitchState :=
  current ← get_kill_switch;
  if negb (ks_enabled current) then mret current
  else
    now ← now_text;
    _ ← append_event DEACTIVATE_EVENT
          [("reason", if truthy reason then VStr reason else ks_reason current);
           ("actor", VStr actor); ("at", VStr now);
           ("previous_activated_by", ks_activated_by current);
           ("previous_activated_at", ks_activated_at current)];
    get_kill_switch.
End RuntimeControl.

(** ** The switch the log stands for *)

(** The abstract switch: what each command makes of the state at a time. *)
Inductive switch_call : Set :=
| SW_activate (reason actor : string)
| SW_deactivate (actor reason : string).

Definition switch_step (c : switch_call) (now : string) (st : KillSwitchState) : KillSwitchState :=
  match c with
  | SW_activate reason actor =>
      if ks_enabled st then st
      else {| ks_enabled := true; ks_reason := VStr reason; ks_activated_by := VStr actor;
              ks_activated_at := VStr now; ks_deactivated_by := VNone;
              ks_deactivated_at := VNone |}
  | SW_deactivate actor reason =>
      if ks_enabled st then
        {| ks_enabled := false; ks_reason := if truthy reason then VStr reason else ks_reason st;
           ks_activated_by := ks_activated_by st; ks_activated_at := ks_activated_at st;
           ks_deactivated_by := VStr actor; ks_deactivated_at := VStr now |}
      else st
  end.

(** A command that has an effect reads the clock once. *)
Definition effective (c : switch_call) (st : KillSwitchState) : bool :=
  match c with SW_activate _ _ => negb (ks_enabled st) | SW_deactivate _ _ => ks_enabled st end.

Fixpoint switch_run `{Env, AuditBuiltins} (cs : list switch_call) (reads : nat) (st : KillSwitchState)
    : list KillSwitchState :=
  match cs with
  | [] => []
  | c :: cs' =>
      let st' := switch_step c (isoformat (clock reads)) st in
      st' :: switch_run cs' (if effective c st then S reads else reads) st'
  end.

Definition switch_exec `{Env, AuditBuiltins} (key : string) (c : switch_call)
    : M RuntimeDB KillSwitchState :=
  match c with
  | SW_activate reason actor => activate_kill_switch key reason actor
  | SW_deactivate actor reason => deactivate_kill_switch key actor reason
  end.

Fixpoint switch_exec_all `{Env, AuditBuiltins} (key : string) (cs : list switch_call) (d : RuntimeDB)
    : list (res KillSwitchState) * RuntimeDB :=
  match cs with
  | [] => ([], d)
  | c :: cs' => let (r, d1) := switch_exec key c d in
                let (rs, d2) := switch_exec_all key cs' d1 in (r :: rs, d2)
  end.

(** *** Appending to the log *)

Lemma insert_by_snoc {A} (leb : A -> A -> bool) y l x :
  leb y x = true -> insert_by leb y (l ++ [x]) = insert_by leb y l ++ [x].
Proof.
  intros Hyx. induction l as [|z l IH]; simpl; [by rewrite Hyx|].
  destruct (leb y z); [done|]. by rewrite IH.
Qed.

Lemma sort_by_snoc {A} (leb : A -> A -> bool) l x :
  (forall y, y ∈ l -> leb y x = true) -> sort_by leb (l ++ [x]) = sort_by leb l ++ [x].
Proof.
  induction l as [|y l IH]; intros H; simpl; [done|]. rewrite IH by (intros; apply H; by right).
  apply insert_by_snoc, H. by left.
Qed.

Section Spec.
Context `{Env, AuditBuiltins}.
Variable key : string.
Hypothesis key_set : truthy key = true.
Implicit Types (d : RuntimeDB).

Lemma verify_from_app prev n rs1 rs2 :
  verify_from key prev n (rs1 ++ rs2)
  = (_ ← verify_from key prev n rs1;
     verify_from key (match last rs1 with Some r => au_record_hash r | None => prev end)
       (n + Z.of_nat (length rs1)) rs2).
Proof.
  revert prev n. induction rs1 as [|r rs1 IH]; intros prev n; simpl.
  - unfold mbind, res_bind. by rewrite Z.add_0_r.
  - case_bool_decide; [done|]. case_bool_decide; [done|]. unfold mbind, res_bind in *.
    destruct (verify_record key r); [|done]. rewrite IH.
    destruct (verify_from key (au_record_hash r) (n + 1) rs1); [|done].
    rewrite last_cons. replace (n + 1 + Z.of_nat (length rs1)) with (n + Z.of_nat (S (length rs1))) by lia.
    by destruct (last rs1).
Qed.

(** In a chain that verifies, sequence numbers count from the start. *)
Lemma verify_from_sequences prev n rs i r :
  verify_from key prev n rs = Ok tt -> rs !! i = Some r -> au_sequence r = n + Z.of_nat i.
Proof.
  revert prev n i. induction rs as [|r0 rs IH]; intros prev n i Hv Hi; [done|]. simpl in Hv.
  case_bool_decide as E1; [done|]. case_bool_decide; [done|].
  unfold mbind, res_bind in Hv. destruct (verify_record key r0); [|done].
  destruct i as [|i]; simplify_eq/=; [lia|].
  rewrite (IH _ _ _ Hv Hi). lia.
Qed.

Definition chain_intact d : Prop := verify_audit_chain (scope_rows d) key = Ok tt.

Lemma records_run d : chain_intact d -> runtime_records key d = (Ok (scope_rows d), d).
Proof.
  intros Hd. unfold runtime_records, make_signer, gets, lift_res. unfold_monad. rewrite key_set.
  unfold chain_intact in Hd. by rewrite Hd.
Qed.

(** The record [append_event] writes. *)
Definition next_record (event_type : string) (payload : pydict) d : AuditRecord :=
  let text := json_dumps payload in
  let '(n, prev) := match last (scope_rows d) with
                    | Some p => (au_sequence p + 1, au_record_hash p) | None => (1, EmptyString) end in
  let '(h, s) := sign key RUNTIME_SCOPE n event_type text prev in
  {| au_candidate_id := RUNTIME_SCOPE; au_sequence := n; au_event_type := event_type;
     au_payload := text; au_previous_hash := prev; au_record_hash := h; au_signature := s |}.

Lemma append_run event_type payload d :
  append_event key event_type payload d
  = (Ok tt, append_record (next_record event_type payload d) (json_dumps payload) d).
Proof.
  unfold append_event, next_record, make_signer, gets, lift_res. unfold_monad. rewrite key_set.
  by destruct (last (scope_rows d)).
Qed.

Lemma append_intact event_type payload text d :
  chain_intact d ->
  let d' := append_record (next_record event_type payload d) text d in
  scope_rows d' = scope_rows d ++ [next_record event_type payload d] /\ chain_intact d'.
Proof.
  intros Hd. cbv zeta. set (r := next_record event_type payload d).
  assert (Hr : au_candidate_id r = RUNTIME_SCOPE /\
            au_sequence r = 1 + Z.of_nat (length (scope_rows d)) /\
            au_previous_hash r = match last (scope_rows d) with
                                 | Some p => au_record_hash p | None => EmptyString end /\
            verify_record key r = Ok tt).
  { unfold r, next_record, verify_record. destruct (last (scope_rows d)) as [p|] eqn:El; simpl.
    - split_and!; [done| |done|by rewrite !bool_decide_false by auto].
      rewrite last_lookup in El. pose proof (verify_from_sequences _ _ _ _ _ Hd El) as ->.
      apply lookup_lt_Some in El. lia.
    - split_and!; [done| |done|by rewrite !bool_decide_false by auto].
      apply last_None in El. by rewrite El. }
  destruct Hr as (Hc & Hn & Hp & Hv).
  assert (Hs : scope_rows (append_record r text d) = scope_rows d ++ [r]).
  { unfold scope_rows at 1, append_record. cbn [db_audit].
    rewrite List.filter_app. simpl. rewrite bool_decide_true by done. apply sort_by_snoc.
    intros y Hy. assert (Hin : y ∈ scope_rows d) by (by apply sort_by_elem).
    apply list_elem_of_lookup_1 in Hin as [i Hi].
    pose proof (verify_from_sequences _ _ _ _ _ Hd Hi). apply lookup_lt_Some in Hi.
    unfold sequence_leb. lia. }
  split; [done|]. unfold chain_intact, verify_audit_chain. rewrite Hs, verify_from_app.
  unfold chain_intact, verify_audit_chain in Hd. rewrite Hd. unfold mbind, res_bind. cbn [verify_from].
  rewrite !bool_decide_false by (rewrite ?Hn, ?Hp; auto). unfold mbind, res_bind. by rewrite Hv.
Qed.

(** *** Reading it back *)

Definition textual (v : pyval) : Prop := match v with VStr _ | VNone => True | _ => False end.

(** What the JSON codec documents, for the payloads in use. *)
Definition json_law : Prop := forall p,
  dict_ok p -> Forall (fun kv => textual kv.2) p ->
  exists q, json_loads (json_dumps p) = Ok q /\ forall k, dget k q = dget k p.
Hypothesis json_ok : json_law.

(** The log is intact and stands for a state. *)
Definition stands_for d (st : KillSwitchState) : Prop :=
  chain_intact d /\ get_kill_switch key d = (Ok st, d) /\
  textual (ks_reason st) /\ textual (ks_activated_by st) /\ textual (ks_activated_at st).

Definition state_of_event (activated : bool) (p : pydict) : KillSwitchState :=
  if activated then
    {| ks_enabled := true; ks_reason := dget_or "reason" p (VStr EmptyString);
       ks_activated_by := dget_or "actor" p VNone; ks_activated_at := dget_or "at" p VNone;
       ks_deactivated_by := VNone; ks_deactivated_at := VNone |}
  else
    {| ks_enabled := false; ks_reason := dget_or "reason" p (VStr EmptyString);
       ks_activated_by := dget_or "previous_activated_by" p VNone;
       ks_activated_at := dget_or "previous_activated_at" p VNone;
       ks_deactivated_by := dget_or "actor" p VNone; ks_deactivated_at := dget_or "at" p VNone |}.

Lemma get_after_append (activated : bool) p d :
  chain_intact d -> dict_ok p -> Forall (fun kv => textual kv.2) p ->
  let e := if activated then ACTIVATE_EVENT else DEACTIVATE_EVENT in
  let d' := append_record (next_record e p d) (json_dumps p) d in
  chain_intact d' /\ get_kill_switch key d' = (Ok (state_of_event activated p), d').
Proof.
  intros Hd Hok Htx e d'. destruct (append_intact e p (json_dumps p) d Hd) as [Hs Hd'].
  fold d' in Hs, Hd'. split; [done|]. unfold get_kill_switch.
  rewrite (M_bind_Ok _ _ _ _ _ (records_run d' Hd')), Hs, last_snoc.
  destruct (json_ok p Hok Htx) as (q & Hq & Hget).
  assert (Hpl : au_payload (next_record e p d) = json_dumps p
             /\ au_event_type (next_record e p d) = e).
  { unfold next_record. by destruct (last (scope_rows d)). }
  destruct Hpl as [-> ->]. unfold lift_res. rewrite Hq. unfold mbind, M_bind.
  unfold state_of_event, dget_or. rewrite !Hget. by destruct activated.
Qed.

Lemma switch_exec_spec c d st :
  stands_for d st ->
  let reads := clock_reads (db_world d) in
  let st' := switch_step c (isoformat (clock reads)) st in
  exists d', switch_exec key c d = (Ok st', d') /\ stands_for d' st' /\
    clock_reads (db_world d') = (if effective c st then S reads else reads).
Proof.
  intros (Hd & Hg & T1 & T2 & T3). cbv zeta.
  set (d1 := db_put_world {| uuids_drawn := uuids_drawn (db_world d);
                             clock_reads := S (clock_reads (db_world d)) |} d).
  assert (Hd1 : chain_intact d1) by exact Hd.
  set (now := isoformat (clock (clock_reads (db_world d)))).
  assert (Hnow : now_text d = (Ok now, d1)) by done.
  destruct c as [reason actor|actor reason]; unfold switch_exec, effective.
  - unfold activate_kill_switch. rewrite (M_bind_Ok _ _ _ _ _ Hg). unfold switch_step.
    destruct (ks_enabled st) eqn:Een; [by exists d; split_and!|].
    rewrite (M_bind_Ok _ _ _ _ _ Hnow), (M_bind_Ok _ _ _ _ _ (append_run _ _ d1)).
    destruct (get_after_append true [("reason", VStr reason); ("actor", VStr actor); ("at", VStr now)]
      d1 Hd1) as [Hc E]; [by apply (bool_decide_eq_true_1 (NoDup _))|by repeat constructor|].
    eexists. split; [exact E|]. split; [|done]. by split_and!.
  - unfold deactivate_kill_switch. rewrite (M_bind_Ok _ _ _ _ _ Hg). unfold switch_step.
    destruct (ks_enabled st) eqn:Een; cbn [negb]; [|by exists d; split_and!].
    rewrite (M_bind_Ok _ _ _ _ _ Hnow), (M_bind_Ok _ _ _ _ _ (append_run _ _ d1)).
    destruct (get_after_append false
      [("reason", if truthy reason then VStr reason else ks_reason st); ("actor", VStr actor);
       ("at", VStr now); ("previous_activated_by", ks_activated_by st);
       ("previous_activated_at", ks_activated_at st)] d1 Hd1) as [Hc E].
    { by apply (bool_decide_eq_true_1 (NoDup _)). }
    { repeat constructor; try done. simpl. by destruct (truthy reason). }
    eexists. split; [exact E|]. split; [|done].
    split_and!; [done|exact E| |done|done]. simpl. by destruct (truthy reason).
Qed.
End Spec.

(** C3: The signed log implements the switch.  From an empty log (and a key that
    is set), every sequence of activate and deactivate commands answers exactly
    like the abstract switch in memory: activating an active switch keeps the
    first reason, actor and time; deactivating keeps who had activated it; the
    chain verifies throughout, and evolution is refused exactly while the switch
    is on. *)
Theorem kill_switch_refines_switch `{Env, AuditBuiltins} key cs w :
  truthy key = true -> json_law ->
  let d0 := {| db_audit := []; db_events := []; db_world := w |} in
  let (rs, d) := switch_exec_all key cs d0 in
  rs = map Ok (switch_run cs (clock_reads w) kill_switch_off) /\
  chain_intact key d /\
  exists st, last (kill_switch_off :: switch_run cs (clock_reads w) kill_switch_off) = Some st /\
    get_kill_switch key d = (Ok st, d) /\
    is_ok (assert_evolution_enabled key d).1 = negb (ks_enabled st).
Proof.
  intros Hkey Hjson d0.
  assert (Hgen : forall d st, stands_for key d st ->
    let (rs, d') := switch_exec_all key cs d in
    rs = map Ok (switch_run cs (clock_reads (db_world d)) st) /\
    exists st', last (st :: switch_run cs (clock_reads (db_world d)) st) = Some st' /\
      stands_for key d' st').
  { induction cs as [|c cs IH]; intros d st Hst; [by split; [|exists st]|].
    destruct (switch_exec_spec key Hkey Hjson c d st Hst) as (d1 & E & Hst1 & Hr). cbv zeta in E, Hst1.
    cbn [switch_exec_all]. rewrite E. specialize (IH d1 _ Hst1).
    destruct (switch_exec_all key cs d1) as [rs d2]. destruct IH as [-> (st' & Hl & Hst')].
    rewrite Hr in *. split; [done|]. exists st'. split; [|done].
    cbn [switch_run]. by rewrite last_cons, Hl. }
  destruct (switch_exec_all key cs d0) as [rs d] eqn:E.
  assert (Hoff : stands_for key d0 kill_switch_off).
  { split; [done|]. split; [|done]. unfold get_kill_switch, runtime_records, make_signer.
    unfold lift_res, gets. unfold_monad. by rewrite Hkey. }
  pose proof (Hgen d0 kill_switch_off Hoff) as Hr. rewrite E in Hr.
  destruct Hr as [-> (st & Hl & Hd & Hg & _)]. split; [done|]. split; [done|].
  exists st. split; [exact Hl|]. split; [done|].
  unfold assert_evolution_enabled. rewrite (M_bind_Ok _ _ _ _ _ Hg). by destruct (ks_enabled st).
Qed.

(** Fail closed: when the audit rows of the runtime scope do not verify, be
    it a gap, a wrong link, hash or signature, reading the switch, asking for
    permission to evolve, activating and deactivating all raise, and nothing is
    written. *)
Theorem broken_chain_fails_closed `{Env, AuditBuiltins} key d e reason actor :
  truthy key = true -> verify_audit_chain (scope_rows d) key = Raise e ->
  get_kill_switch key d = (Raise e, d) /\ assert_evolution_enabled key d = (Raise e, d) /\
  activate_kill_switch key reason actor d = (Raise e, d) /\
  deactivate_kill_switch key actor reason d = (Raise e, d).
Proof.
  intros Hkey Hv. assert (Hg : get_kill_switch key d = (Raise e, d)).
  { unfold get_kill_switch. apply M_bind_Raise. unfold runtime_records, make_signer, gets, lift_res.
    unfold_monad. rewrite Hkey. by rewrite Hv. }
  split_and!; [done|by apply M_bind_Raise..].
Qed.

(** ** Witnesses *)

(** A codec for payloads of texts and nulls, by way of their code numbers. *)
Definition sample_dumps (p : pydict) : string :=
  bits_of (encode (map (fun kv => (kv.1, match kv.2 with VStr t => Some t | _ => None end)) p)).
Definition sample_loads (s : string) : res pydict :=
  match decode (A := list (string * option string)) (pos_of s) with
  | Some l => Ok (map (fun kv => (kv.1, match kv.2 with Some t => VStr t | None => VNone end)) l)
  | None => Raise (ValueError "not json")
  end.

#[local] Instance sample_builtins : AuditBuiltins := {|
  material_hash c n e p prev := c +:+ str_of_int n +:+ e +:+ p +:+ prev;
  hmac_hex k h := k +:+ h;
  json_dumps := sample_dumps; json_loads := sample_loads; isoformat := str_of_int |}.

#[local] Instance sample_env : Env :=
  { uuid_hex n := "0"; clock n := Z.of_nat n; float_repr x := "x" }.

Lemma sample_json_law : json_law.
Proof.
  intros p _ Ht. exists p. split; [|done]. simpl. unfold sample_loads, sample_dumps.
  rewrite pos_of_bits, decode_encode, map_map. f_equal. clear -Ht.
  induction Ht as [|[k v] p Hv Ht IH]; [done|]. cbn [map fst snd]. f_equal; [by destruct v|exact IH].
Qed.

Definition sample_commands : list switch_call :=
  [SW_activate "drill" "alice"; SW_activate "again" "bob"; SW_deactivate "carol" ""].

Lemma kill_switch_refines_switch_witness :
  (switch_exec_all "k" sample_commands {| db_audit := []; db_events := []; db_world := world0 |}).1
  = map Ok (switch_run sample_commands 0 kill_switch_off).
Proof.
  pose proof (kill_switch_refines_switch "k" sample_commands world0 eq_refl sample_json_law) as H.
  cbv zeta in H. destruct (switch_exec_all _ _ _) as [rs d]. exact (proj1 H).
Defined.

Definition forged_db : RuntimeDB := {|
  db_audit := [{| au_candidate_id := RUNTIME_SCOPE; au_sequence := 1;
                  au_event_type := DEACTIVATE_EVENT; au_payload := "{}";
                  au_previous_hash := ""; au_record_hash := "forged"; au_signature := "" |}];
  db_events := []; db_world := world0 |}.

Lemma broken_chain_fails_closed_witness :
  exists e, assert_evolution_enabled "k" forged_db = (Raise e, forged_db).
Proof.
  eexists. apply (broken_chain_fails_closed "k" forged_db _ "" ""); [reflexivity|].
  vm_compute. reflexivity.
Defined.
