(* ===== verification/Pareto.v ===== *)
(** * Evolution: Pareto selection

    [evolution/pareto.py] with its records from [evolution/models.py].  The time
    stamp of a result is an argument; NaN values, for which Python's sort follows
    no order, are outside the theorems but not outside the definitions. *)

From S2P Require Import Prelude PyFloat PyVal.
Open Scope Z_scope.

(** ** Records *)

Record FitnessEvaluation : Set := {
  fe_id : string;
  fe_candidate_id : string;
  fe_objectives : list (string * float);
  fe_constraints : list (string * bool);
  fe_passed : bool;
  fe_notes : list string;
  fe_created_at : string;
}.

Record SimulationIssue : Set := { is_severity : string; is_code : string; is_message : string }.

Record VerificationReport : Set := {
  vf_candidate_id : string;
  vf_valid : bool;
  vf_issues : list SimulationIssue;
  vf_created_at : string;
}.

Record CandidateEvaluationRecord : Set := {
  ce_candidate_id : string;
  ce_simulation_id : option string;
  ce_verification : option VerificationReport;
  ce_fitness : option FitnessEvaluation;
  ce_feasible : bool;
  ce_reasons : list string;
  ce_created_at : string;
}.

Record ParetoSelectionPolicy : Set := {
  po_objectives : list string;
  po_max_selected : Z;
  po_min_objective_value : float;
  po_epsilon : float;
  po_require_constraints : bool;
}.

Record ParetoCandidate : Set := {
  pc_candidate_id : string;
  pc_rank : Z;
  pc_crowding_distance : float;
  pc_objectives : list (string * float);
}.

Record ParetoSelectionResult : Set := {
  pr_proposal_id : string;
  pr_objectives : list string;
  pr_fronts : list (list ParetoCandidate);
  pr_selected_candidate_ids : list string;
  pr_selected_candidate_id : option string;
  pr_created_at : string;
}.

(** The values of the candidates, by candidate id. *)
Abbreviation vector := (list (string * float)).
Abbreviation candidates := (list (string * vector)).

Definition LARGE_CROWDING_DISTANCE : float := of_Z 1000000000.

(** [float(a.get(objective, 0.0))]. *)
Definition value_of (a : vector) (objective : string) : float := dget_or objective a fzero.
Definition vector_of (vs : candidates) (id : string) : vector := dget_or id vs [].

(** ** Dominance *)

Fixpoint dominates_loop (a b : vector) (objectives : list string) (epsilon : float)
    (at_least_one_better : bool) : bool :=
  match objectives with
  | [] => at_least_one_better
  | objective :: rest =>
      let a_value := value_of a objective in
      let b_value := value_of b objective in
      if fltb (fadd a_value epsilon) b_value then false
      else dominates_loop a b rest epsilon
             (if fltb (fadd b_value epsilon) a_value then true else at_least_one_better)
  end.

Definition dominates (a b : vector) (objectives : list string) (epsilon : float) : bool :=
  dominates_loop a b objectives epsilon false.

(** ** Non-dominated sorting *)

Section Sort.
Variable values : candidates.
Variable objectives : list string.
Variable epsilon : float.

Definition beats (a b : string) : bool :=
  dominates (vector_of values a) (vector_of values b) objectives epsilon.

Record sort_state : Set := {
  so_count : list (string * Z);
  so_dominated : list (string * list string);
}.

(** The body of the inner loop for one pair. *)
Definition compare_pair (candidate_id : string) (s : sort_state) (other_id : string) : sort_state :=
  if bool_decide (candidate_id = other_id) then s
  else if beats candidate_id other_id then
    {| so_count := so_count s;
       so_dominated := dset candidate_id (dget_or candidate_id (so_dominated s) [] ++ [other_id])
                         (so_dominated s) |}
  else if beats other_id candidate_id then
    {| so_count := dset candidate_id (dget_or candidate_id (so_count s) 0 + 1) (so_count s);
       so_dominated := so_dominated s |}
  else s.

(** The outer loop: the state and the first front. *)
Definition scan_candidate (candidate_ids : list string) (acc : sort_state * list string)
    (candidate_id : string) : sort_state * list string :=
  let '(s, first_front) := acc in
  let s := fold_left (compare_pair candidate_id) candidate_ids s in
  (s, if dget_or candidate_id (so_count s) 0 =? 0 then first_front ++ [candidate_id]
      else first_front).

Definition initial_state (candidate_ids : list string) : sort_state := {|
  so_count := dtable (fun _ => 0) candidate_ids;
  so_dominated := dtable (fun _ => []) candidate_ids |}.

(** One front: take a dominator away from everything it dominates. *)
Definition release (acc : list (string * Z) * list string) (dominated_id : string)
    : list (string * Z) * list string :=
  let '(count, next_front) := acc in
  let n := dget_or dominated_id count 0 - 1 in
  (dset dominated_id n count, if n =? 0 then next_front ++ [dominated_id] else next_front).

Definition release_all (dominated : list (string * list string))
    (acc : list (string * Z) * list string) (candidate_id : string)
    : list (string * Z) * list string :=
  fold_left release (dget_or candidate_id dominated []) acc.

(** The [while True] loop; [None] is fuel that ran out. *)
Fixpoint peel (fuel : nat) (dominated : list (string * list string)) (count : list (string * Z))
    (fronts : list (list string)) (current_front : list string) : option (list (list string)) :=
  match fuel with
  | O => None
  | S fuel' =>
      let '(count, next_front) := fold_left (release_all dominated) current_front (count, []) in
      match next_front with
      | [] => Some fronts
      | _ => peel fuel' dominated count (fronts ++ [next_front]) next_front
      end
  end.

Definition non_dominated_sort : option (list (list string)) :=
  let candidate_ids := dkeys values in
  match candidate_ids with
  | [] => Some []
  | _ =>
      let '(s, first_front) :=
        fold_left (scan_candidate candidate_ids) candidate_ids (initial_state candidate_ids, []) in
      match first_front with
      | [] => Some []
      | _ => peel (S (length candidate_ids)) (so_dominated s) (so_count s) [first_front] first_front
      end
  end.
End Sort.

(** ** Crowding distance *)

Section Crowding.
Variable objectives : list string.
Variable values : candidates.

Definition objective_leb (objective : string) (x y : string) : bool :=
  negb (fltb (value_of (vector_of values y) objective) (value_of (vector_of values x) objective)).

(** [distances[ids[i]] += (next - previous) / range] for the inner ids. *)
Fixpoint add_gaps (objective : string) (range_value : float) (sorted_ids : list string)
    (distances : vector) : vector :=
  match sorted_ids with
  | previous_id :: ((id :: (next_id :: _)) as rest) =>
      let gap := fdiv (fsub (value_of (vector_of values next_id) objective)
                         (value_of (vector_of values previous_id) objective)) range_value in
      add_gaps objective range_value rest
        (dset id (fadd (dget_or id distances fzero) gap) distances)
  | _ => distances
  end.

Definition crowd_objective (front : list string) (distances : vector) (objective : string) : vector :=
  let sorted_ids := sort_by (objective_leb objective) front in
  match sorted_ids, last sorted_ids with
  | first_id :: _, Some last_id =>
      let min_value := value_of (vector_of values first_id) objective in
      let max_value := value_of (vector_of values last_id) objective in
      let distances := dset first_id LARGE_CROWDING_DISTANCE distances in
      let distances := dset last_id LARGE_CROWDING_DISTANCE distances in
      if feqb max_value min_value then distances
      else add_gaps objective (fsub max_value min_value) sorted_ids distances
  | _, _ => distances
  end.

Definition crowding_distance (front : list string) : vector :=
  if (length front <=? 2)%nat then dtable (fun _ => LARGE_CROWDING_DISTANCE) front
  else fold_left (crowd_objective front) objectives (dtable (fun _ => fzero) front).
End Crowding.

(** ** Selection *)

(** The filters of [select_pareto]. *)
Definition selectable (policy : ParetoSelectionPolicy) (e : CandidateEvaluationRecord) : bool :=
  match ce_fitness e with
  | None => false
  | Some fitness =>
      ce_feasible e
      && (negb (po_require_constraints policy) || forallb id (dvalues (fe_constraints fitness)))
      && negb (existsb (fun v => fltb v (po_min_objective_value policy))
                 (dvalues (fe_objectives fitness)))
  end.

Definition objectives_of (e : CandidateEvaluationRecord) : list (string * float) :=
  match ce_fitness e with Some f => fe_objectives f | None => [] end.

(** [policy.objectives], or the sorted set of all objective names. *)
Definition selection_objectives (policy : ParetoSelectionPolicy)
    (es : list CandidateEvaluationRecord) : list string :=
  match po_objectives policy with
  | [] => sort_by str_leb (remove_dups (concat (map (fun e => dkeys (objectives_of e)) es)))
  | os => os
  end.

(** A dict comprehension over the objectives. *)
Definition objective_vector (objectives : list string) (e : CandidateEvaluationRecord) : vector :=
  fold_left (fun d o => dset o (value_of (objectives_of e) o) d) objectives [].

Definition candidate_values (objectives : list string) (es : list CandidateEvaluationRecord)
    : candidates :=
  fold_left (fun d e => dset (ce_candidate_id e) (objective_vector objectives e) d) es [].

(** Tuple comparison of the sort keys: the first pair that differs decides. *)
Fixpoint floats_compare (xs ys : list float) : comparison :=
  match xs, ys with
  | x :: xs', y :: ys' => if feqb x y then floats_compare xs' ys'
                          else if fltb x y then Lt else Gt
  | [], [] => Eq
  | [], _ => Lt
  | _, [] => Gt
  end.

Definition front_key (objectives : list string) (values : candidates) (distances : vector)
    (id : string) : list float :=
  fopp (value_of distances id) ::
  map (fun o => fopp (value_of (vector_of values id) o)) objectives.

Definition front_leb (objectives : list string) (values : candidates) (distances : vector)
    (a b : string) : bool :=
  match floats_compare (front_key objectives values distances a)
          (front_key objectives values distances b) with
  | Lt => true | Eq => str_leb a b | Gt => false
  end.

(** [if len(selected) < max_selected: selected.append(id)] for each id. *)
Definition take_selected (max_selected : Z) (selected ids : list string) : list string :=
  fold_left (fun sel id => if Z.of_nat (length sel) <? max_selected then sel ++ [id] else sel)
    ids selected.

Fixpoint select_fronts (objectives : list string) (values : candidates) (max_selected : Z)
    (rank : Z) (fronts : list (list string)) (models : list (list ParetoCandidate))
    (selected : list string) : list (list ParetoCandidate) * list string :=
  match fronts with
  | [] => (models, selected)
  | front_ids :: rest =>
      let distances := crowding_distance objectives values front_ids in
      let sorted_front := sort_by (front_leb objectives values distances) front_ids in
      let models := models ++ [map (fun id => {| pc_candidate_id := id; pc_rank := rank;
        pc_crowding_distance := value_of distances id; pc_objectives := vector_of values id |})
        sorted_front] in
      let selected := take_selected max_selected selected sorted_front in
      if max_selected <=? Z.of_nat (length selected) then (models, selected)
      else select_fronts objectives values max_selected (rank + 1) rest models selected
  end.

Definition select_pareto (proposal_id : string) (evaluations : list CandidateEvaluationRecord)
    (policy : ParetoSelectionPolicy) (created_at : string) : option ParetoSelectionResult :=
  let feasible := List.filter (selectable policy) evaluations in
  match feasible with
  | [] => Some {| pr_proposal_id := proposal_id; pr_objectives := po_objectives policy;
                  pr_fronts := []; pr_selected_candidate_ids := [];
                  pr_selected_candidate_id := None; pr_created_at := created_at |}
  | _ =>
      let objectives := selection_objectives policy feasible in
      let values := candidate_values objectives feasible in
      fronts ← non_dominated_sort values objectives (po_epsilon policy);
      let '(models, selected) :=
        select_fronts objectives values (po_max_selected policy) 0 fronts [] [] in
      Some {| pr_proposal_id := proposal_id; pr_objectives := objectives; pr_fronts := models;
              pr_selected_candidate_ids := selected; pr_selected_candidate_id := head selected;
              pr_created_at := created_at |}
  end.
