(* ===== verification/EvoModels.v ===== *)
(** * Evolution engine: fitness vectors, individuals, configuration

    [constitutional_architecture/engine/fitness.py], [individual.py] and
    [config.py], and what the engine reads from outside: uuid4, the clocks, the
    random generator and the float functions of the C library.  The engine is
    parametric in the ISRs it evolves, which it reaches through isr_adapter.py:
    [Individual I] holds an ISR of type [I]. *)

From Stdlib Require Import SpecFloat.
From S2P Require Import Prelude PyFloat PyVal PyText IsrModel TypedGraph.
Open Scope Z_scope.

(** ** What is read from outside

    The n-th answer of each source.  [random_bits] stands for the bits
    [random._randbelow] draws and [random_unit] for [random.random()]; the other
    methods of [random.Random] are defined from them as the library does.
    [power] is [**] on floats, which may raise an OverflowError. *)
Class Surroundings := {
  uuid_hex : nat -> string;
  clock : nat -> Z;
  perf_counter : nat -> float;
  random_bits : nat -> nat;
  random_unit : nat -> float;
  power : float -> float -> res float;
  sqrt : float -> float;
  log2 : float -> float;
}.

(** How often each has been read. *)
Record World : Set := { w_uuids : nat; w_clock : nat; w_perf : nat; w_random : nat }.
Definition world0 : World := {| w_uuids := 0; w_clock := 0; w_perf := 0; w_random := 0 |}.

Section Outside.
Context `{Surroundings}.

(** [f"{prefix}-{uuid.uuid4().hex[:n]}"]. *)
Definition new_id (prefix : string) (n : nat) : M World string := fun w =>
  (Ok (prefix +:+ "-" +:+ String.substring 0 n (uuid_hex (w_uuids w))),
   {| w_uuids := S (w_uuids w); w_clock := w_clock w; w_perf := w_perf w; w_random := w_random w |}).
Definition now : M World Z := fun w =>
  (Ok (clock (w_clock w)),
   {| w_uuids := w_uuids w; w_clock := S (w_clock w); w_perf := w_perf w; w_random := w_random w |}).
Definition read_perf : M World float := fun w =>
  (Ok (perf_counter (w_perf w)),
   {| w_uuids := w_uuids w; w_clock := w_clock w; w_perf := S (w_perf w); w_random := w_random w |}).

Definition draw {A} (f : nat -> A) : M World A := fun w =>
  (Ok (f (w_random w)),
   {| w_uuids := w_uuids w; w_clock := w_clock w; w_perf := w_perf w; w_random := S (w_random w) |}).

(** [random.random()], [uniform(0, b)]. *)
Definition rng_random : M World float := draw random_unit.
Definition rng_uniform (b : float) : M World float :=
  u ← draw random_unit; mret (fadd fzero (fmul (fsub b fzero) u)).

(** [random.choice(xs)]: any item can come. *)
Definition rng_choice {A} (xs : list A) : M World A :=
  match xs with
  | [] => raise (IndexError "Cannot choose from an empty sequence")
  | x :: _ => j ← draw (fun n => (random_bits n mod length xs)%nat); mret (nth j xs x)
  end.

(** [random.sample(xs, k)]: items drawn one after the other from those left, so
    any selection of [k] positions can come, in any order. *)
Fixpoint sample_loop {A} (k : nat) (pool : list A) : M World (list A) :=
  match k, pool with
  | S k', x :: _ =>
      j ← draw (fun n => (random_bits n mod length pool)%nat);
      rest ← sample_loop k' (take j pool ++ drop (S j) pool);
      mret (nth j pool x :: rest)
  | _, _ => mret []
  end.
Definition rng_sample {A} (xs : list A) (k : Z) : M World (list A) :=
  if (0 <=? k) && (k <=? Z.of_nat (length xs)) then sample_loop (Z.to_nat k) xs
  else raise (ValueError "Sample larger than population or is negative").
End Outside.

(** ** Slices and sorting *)

(** [xs[:n]], and [xs[-n:]] for the positive bounds the engine uses. *)
Definition first_items {A} (n : Z) (xs : list A) : list A :=
  take (Z.to_nat (if n <? 0 then Z.of_nat (length xs) + n else n)) xs.
Definition last_items {A} (n : nat) (xs : list A) : list A := drop (length xs - n) xs.

Section ByKey.
Context {A : Type} (key : A -> float).

(** [sorted(xs, key=key)], and with [reverse=True], which is stable too. *)
Definition sorted_by : list A -> list A := sort_by (fun a b => negb (fltb (key b) (key a))).
Definition sorted_down : list A -> list A := sort_by (fun a b => negb (fltb (key a) (key b))).

(** [max(xs, key=key)]. *)
Definition max_by (xs : list A) : res A :=
  match xs with
  | [] => Raise (ValueError "max() iterable argument is empty")
  | x :: rest => Ok (fold_left (fun best y => if fltb (key best) (key y) then y else best) rest x)
  end.
End ByKey.

(** [max(xs)] and [min(xs)] of the floats of a list that is not empty. *)
Definition max_of (x : float) (xs : list float) : float := fold_left fmax2 xs x.
Definition min_of (x : float) (xs : list float) : float := fold_left fmin2 xs x.

(** ** FitnessVector *)

Record FitnessVector : Set := { fv_values : list (string * float) }.

Definition fitness_get (dimension : string) (default : float) (v : FitnessVector) : float :=
  dget_or dimension (fv_values v) default.
Definition dimensions (v : FitnessVector) : list string := dkeys (fv_values v).
Definition dimension_count (v : FitnessVector) : Z := Z.of_nat (length (fv_values v)).

(** [set(self.values.keys()) != set(other.values.keys())]. *)
Definition same_dimensions (a b : FitnessVector) : bool :=
  forallb (fun d => dmem d (fv_values b)) (dimensions a)
  && forallb (fun d => dmem d (fv_values a)) (dimensions b).

Fixpoint dominates_loop (values other : list (string * float)) (at_least_one_better : bool) : bool :=
  match values with
  | [] => at_least_one_better
  | (dim, x) :: rest =>
      let y := dget_or dim other fzero in
      if fltb x y then false
      else dominates_loop rest other (if fltb y x then true else at_least_one_better)
  end.
Definition dominates (a b : FitnessVector) : res bool :=
  if negb (same_dimensions a b)
  then Raise (ValueError "Cannot compare fitness vectors with different dimensions")
  else Ok (dominates_loop (fv_values a) (fv_values b) false).

Definition ftwo : float := of_Z 2.
Definition fhalf : float := of_ratio 1 2.
Definition fone : float := of_Z 1.

Section Distance.
Context `{Surroundings}.

Definition distance (a b : FitnessVector) : res float :=
  if negb (same_dimensions a b)
  then Raise (ValueError "Cannot compute distance for different dimensions")
  else squares ← map_res (fun p => power (fsub p.2 (dget_or p.1 (fv_values b) fzero)) ftwo)
                   (fv_values a);
       power (fsum squares) fhalf.
End Distance.

Definition composite_score (weights : option (list (string * float))) (v : FitnessVector) : float :=
  match fv_values v with
  | [] => fzero
  | values =>
      let ws := match weights with Some ws => ws | None => map (fun p => (p.1, fone)) values end in
      let total_weight := fsum (map (fun p => dget_or p.1 ws fzero) values) in
      if feqb total_weight fzero then fzero
      else fdiv (fsum (map (fun p => fmul p.2 (dget_or p.1 ws fzero)) values)) total_weight
  end.

Definition scale (factor : float) (v : FitnessVector) : FitnessVector :=
  {| fv_values := map (fun p => (p.1, fmul p.2 factor)) (fv_values v) |}.
Definition fitness_zero (dims : list string) : FitnessVector :=
  {| fv_values := fold_left (fun d k => dset k fzero d) dims [] |}.
Definition fitness_from_dict (data : list (string * float)) : FitnessVector := {| fv_values := data |}.
Definition fitness_to_dict (v : FitnessVector) : list (string * float) := fv_values v.

(** ** Individual *)

Section Individual.
Variable I : Set.

Record Individual : Set := {
  in_id : string;
  in_isr : I;
  in_fitness : FitnessVector;
  in_parent_ids : list string;
  in_generation : Z;
  in_mutation_history : list string;
  in_species_id : string;
  in_novelty_score : float;
  in_age : Z;
  in_created_at : Z;
  in_is_elite : bool;
  in_tags : list string;
  in_fitness_history : list FitnessVector;
}.
End Individual.

Arguments in_id {I}. Arguments in_isr {I}. Arguments in_fitness {I}. Arguments in_parent_ids {I}.
Arguments in_generation {I}. Arguments in_mutation_history {I}. Arguments in_species_id {I}.
Arguments in_novelty_score {I}. Arguments in_age {I}. Arguments in_created_at {I}.
Arguments in_is_elite {I}. Arguments in_tags {I}. Arguments in_fitness_history {I}.

Section Individuals.
Context {I : Set}.
Implicit Types (x : Individual I).

Definition composite_fitness x : float := composite_score None (in_fitness x).

Definition with_fitness (new_fitness : FitnessVector) x : Individual I :=
  {| in_id := in_id x; in_isr := in_isr x; in_fitness := new_fitness;
     in_parent_ids := in_parent_ids x; in_generation := in_generation x;
     in_mutation_history := in_mutation_history x; in_species_id := in_species_id x;
     in_novelty_score := in_novelty_score x; in_age := in_age x; in_created_at := in_created_at x;
     in_is_elite := in_is_elite x; in_tags := in_tags x;
     in_fitness_history := in_fitness_history x ++ [new_fitness] |}.
Definition with_age (new_age : Z) x : Individual I :=
  {| in_id := in_id x; in_isr := in_isr x; in_fitness := in_fitness x;
     in_parent_ids := in_parent_ids x; in_generation := in_generation x;
     in_mutation_history := in_mutation_history x; in_species_id := in_species_id x;
     in_novelty_score := in_novelty_score x; in_age := new_age; in_created_at := in_created_at x;
     in_is_elite := in_is_elite x; in_tags := in_tags x;
     in_fitness_history := in_fitness_history x |}.
Definition with_species (species_id : string) x : Individual I :=
  {| in_id := in_id x; in_isr := in_isr x; in_fitness := in_fitness x;
     in_parent_ids := in_parent_ids x; in_generation := in_generation x;
     in_mutation_history := in_mutation_history x; in_species_id := species_id;
     in_novelty_score := in_novelty_score x; in_age := in_age x; in_created_at := in_created_at x;
     in_is_elite := in_is_elite x; in_tags := in_tags x;
     in_fitness_history := in_fitness_history x |}.
Definition with_elite (is_elite : bool) x : Individual I :=
  {| in_id := in_id x; in_isr := in_isr x; in_fitness := in_fitness x;
     in_parent_ids := in_parent_ids x; in_generation := in_generation x;
     in_mutation_history := in_mutation_history x; in_species_id := in_species_id x;
     in_novelty_score := in_novelty_score x; in_age := in_age x; in_created_at := in_created_at x;
     in_is_elite := is_elite; in_tags := in_tags x;
     in_fitness_history := in_fitness_history x |}.
(** The copy of novelty_search.py. *)
Definition with_novelty (novelty_score : float) x : Individual I :=
  {| in_id := in_id x; in_isr := in_isr x; in_fitness := in_fitness x;
     in_parent_ids := in_parent_ids x; in_generation := in_generation x;
     in_mutation_history := in_mutation_history x; in_species_id := in_species_id x;
     in_novelty_score := novelty_score; in_age := in_age x; in_created_at := in_created_at x;
     in_is_elite := in_is_elite x; in_tags := in_tags x;
     in_fitness_history := in_fitness_history x |}.

(** A new individual: the fields the constructor calls of the engine leave out
    have their defaults; [created_at] reads the clock. *)
Definition new_individual `{Surroundings} (id : string) (isr : I) (fitness : FitnessVector)
    (parent_ids : list string) (generation : Z) (mutation_history : list string)
    : M World (Individual I) :=
  created_at ← now;
  mret {| in_id := id; in_isr := isr; in_fitness := fitness; in_parent_ids := parent_ids;
          in_generation := generation; in_mutation_history := mutation_history;
          in_species_id := ""; in_novelty_score := fzero; in_age := 0; in_created_at := created_at;
          in_is_elite := false; in_tags := []; in_fitness_history := [] |}.
End Individuals.

(** ** EvolutionConfig *)

Record EvolutionConfig : Set := {
  cf_run_id : string;
  cf_seed : Z;
  cf_population_size : Z;
  cf_elite_count : Z;
  cf_max_generations : Z;
  cf_mutation_rate : float;
  cf_crossover_rate : float;
  cf_max_mutations_per_individual : Z;
  cf_selection_algorithm : string;
  cf_tournament_size : Z;
  cf_diversity_threshold : float;
  cf_novelty_weight : float;
  cf_speciation_enabled : bool;
  cf_species_compatibility_threshold : float;
  cf_convergence_window : Z;
  cf_convergence_threshold : float;
  cf_stagnation_limit : Z;
  cf_fitness_dimensions : list string;
  cf_adaptive_learning_rate : float;
  cf_adaptive_min_weight : float;
  cf_adaptive_max_weight : float;
  cf_knowledge_base_enabled : bool;
  cf_knowledge_base_version : string;
  cf_deterministic : bool;
  cf_created_at : Z;
  cf_description : string;
}.

Definition default_config (created_at : Z) : EvolutionConfig := {|
  cf_run_id := ""; cf_seed := 42; cf_population_size := 50; cf_elite_count := 5;
  cf_max_generations := 100; cf_mutation_rate := of_ratio 3 10; cf_crossover_rate := of_ratio 2 10;
  cf_max_mutations_per_individual := 3; cf_selection_algorithm := "tournament";
  cf_tournament_size := 5; cf_diversity_threshold := of_ratio 15 100;
  cf_novelty_weight := of_ratio 1 10; cf_speciation_enabled := true;
  cf_species_compatibility_threshold := of_ratio 3 10; cf_convergence_window := 20;
  cf_convergence_threshold := of_ratio 1 1000; cf_stagnation_limit := 30;
  cf_fitness_dimensions := ["complexity"; "coupling"; "cohesion"; "security_coverage"; "scalability";
    "reliability"; "deployment_completeness"; "observability"; "documentation"; "maintainability";
    "extensibility"; "architecture_quality"];
  cf_adaptive_learning_rate := of_ratio 5 100; cf_adaptive_min_weight := of_ratio 1 100;
  cf_adaptive_max_weight := fone; cf_knowledge_base_enabled := true; cf_knowledge_base_version := "";
  cf_deterministic := true; cf_created_at := created_at; cf_description := "" |}.

(** [__post_init__]. *)
Definition check_config (c : EvolutionConfig) : res unit :=
  if cf_population_size c <? 2 then Raise (ValueError "Population size must be at least 2")
  else if cf_population_size c <=? cf_elite_count c
  then Raise (ValueError "Elite count must be less than population size")
  else if negb (fleb fzero (cf_mutation_rate c) && fleb (cf_mutation_rate c) fone)
  then Raise (ValueError "Mutation rate must be in [0.0, 1.0]")
  else if negb (fleb fzero (cf_crossover_rate c) && fleb (cf_crossover_rate c) fone)
  then Raise (ValueError "Crossover rate must be in [0.0, 1.0]")
  else Ok tt.
