(* ===== verification/ParetoSpec.v ===== *)
(** * Evolution: theorems on Pareto selection

    Dominance against its definition; the fronts of the fast sort against the
    layers of the dominance relation, with the termination of its loop; what
    selection returns; and the tolerance that makes dominance cyclic. *)

From S2P Require Import Prelude PyFloat PyVal Pareto.
Open Scope Z_scope.

#[local] Opaque fltb fadd.

(** ** Dominance *)

Lemma dominates_loop_true a b objectives eps better :
  dominates_loop a b objectives eps better = true <->
  (forall o, o ∈ objectives -> fltb (fadd (value_of a o) eps) (value_of b o) = false) /\
  (better = true \/ exists o, o ∈ objectives /\ fltb (fadd (value_of b o) eps) (value_of a o) = true).
Proof.
  revert better. induction objectives as [|o os IH]; intros better; cbn [dominates_loop].
  - split; [intros ->; split; [set_solver|by left]|]. intros [_ [?|(o & ? & _)]]; [done|set_solver].
  - destruct (fltb (fadd (value_of a o) eps) (value_of b o)) eqn:E1.
    { split; [done|]. intros [Hf _]. rewrite (Hf o) in E1; [done|by left]. }
    rewrite IH. setoid_rewrite elem_of_cons. split.
    + intros [Hf Hex]. split; [intros o' [->|?]; auto|].
      destruct (fltb (fadd (value_of b o) eps) (value_of a o)) eqn:E2; [right; eauto|].
      destruct Hex as [?|(o' & ? & ?)]; [by left|right; eauto].
    + intros [Hf Hex]. split; [auto|].
      destruct Hex as [?|(o' & [->|?] & E)]; [|rewrite E; by left|right; eauto].
      left. by destruct (fltb (fadd (value_of b o) eps) (value_of a o)).
Qed.

Lemma dominates_true a b objectives eps :
  dominates a b objectives eps = true <->
  (forall o, o ∈ objectives -> fltb (fadd (value_of a o) eps) (value_of b o) = false) /\
  (exists o, o ∈ objectives /\ fltb (fadd (value_of b o) eps) (value_of a o) = true).
Proof.
  unfold dominates. rewrite dominates_loop_true. split; intros [Hf Hex]; (split; [done|]).
  - by destruct Hex.
  - by right.
Qed.

(** For every tolerance no two candidates dominate each other. *)
Lemma dominates_asym a b objectives eps :
  dominates a b objectives eps = true -> dominates b a objectives eps = false.
Proof.
  rewrite dominates_true. intros [_ (o & Ho & Hlt)]. apply not_true_iff_false.
  rewrite dominates_true. intros [Hf _]. rewrite (Hf o Ho) in Hlt. done.
Qed.

(** Values that are numbers. *)
Definition numeric (objectives : list string) (v : vector) : Prop :=
  forall o, o ∈ objectives -> is_nan (value_of v o) = false.


Lemma dominates_trans a b c objectives :
  numeric objectives a -> numeric objectives b -> numeric objectives c ->
  dominates a b objectives fzero = true -> dominates b c objectives fzero = true ->
  dominates a c objectives fzero = true.
Proof.
  intros Na Nb Nc. rewrite !dominates_true. intros [A1 (o & Ho & A2)] [B1 _].
  assert (Hcb : forall o, o ∈ objectives -> fleb (value_of c o) (value_of b o) = true).
  { intros o' Ho'. apply not_ltb_fleb; [by apply Nb|by apply Nc|].
    by rewrite <- fltb_fadd_zero_l, B1. }
  split.
  - intros o' Ho'. rewrite fltb_fadd_zero_l. apply fleb_not_lt.
    eapply fleb_trans; [by apply Hcb|]. apply not_ltb_fleb; [by apply Na|by apply Nb|].
    by rewrite <- fltb_fadd_zero_l, A1.
  - exists o. split; [done|]. rewrite fltb_fadd_zero_l in A2 |- *.
    eapply fleb_fltb_trans; [by apply Hcb|done].
Qed.

(** ** The fast sort *)

Section Fronts.
Variable values : candidates.
Variable objectives : list string.
Variable epsilon : float.
Hypothesis keys_distinct : dict_ok values.

Abbreviation ids := (dkeys values).
Abbreviation dom := (beats values objectives epsilon).

Lemma beats_irrefl a : dom a a = false.
Proof.
  destruct (dom a a) eqn:E; [|done]. unfold beats in E. pose proof (dominates_asym _ _ _ _ E). congruence.
Qed.

(** The dominators of a candidate, and what it dominates. *)
Definition dominators (d : string) : list string := List.filter (fun o => dom o d) ids.
Definition dominated (c : string) : list string := List.filter (dom c) ids.

Lemma elem_dominators o d : o ∈ dominators d <-> o ∈ ids /\ dom o d = true.
Proof. unfold dominators. by rewrite list_elem_of_In, filter_In, <- list_elem_of_In. Qed.
Lemma elem_dominated c d : d ∈ dominated c <-> d ∈ ids /\ dom c d = true.
Proof. unfold dominated. by rewrite list_elem_of_In, filter_In, <- list_elem_of_In. Qed.

Lemma NoDup_List_filter {A} (p : A -> bool) l : NoDup l -> NoDup (List.filter p l).
Proof.
  induction 1 as [|x l Hx Hl IH]; simpl; [constructor|]. destruct (p x); [|done].
  constructor; [|done]. rewrite list_elem_of_In, filter_In, <- list_elem_of_In. naive_solver.
Qed.

(** *** The scan *)

Lemma compare_pairs c others fc fs :
  c ∈ ids ->
  fold_left (compare_pair values objectives epsilon c) others
    {| so_count := dtable fc ids; so_dominated := dtable fs ids |}
  = {| so_count := dtable (fun d => if decide (d = c)
         then fc c + Z.of_nat (length (List.filter (fun o => dom o c) others)) else fc d) ids;
       so_dominated := dtable (fun d => if decide (d = c)
         then fs c ++ List.filter (dom c) others else fs d) ids |}.
Proof.
  intros Hc. revert fc fs. induction others as [|o others IH]; intros fc fs; cbn [fold_left List.filter].
  { f_equal; apply dtable_ext; intros d _; case_decide; subst; [simpl; lia|done|by rewrite app_nil_r|done]. }
  unfold compare_pair at 2. case_bool_decide as E; [subst o|].
  { rewrite IH, !beats_irrefl. done. }
  cbn [so_count so_dominated]. destruct (dom c o) eqn:E1.
  { unfold dget_or. rewrite dget_dtable, dset_dtable by done. rewrite IH.
    assert (dom o c = false) as -> by (unfold beats in *; by apply dominates_asym).
    f_equal; apply dtable_ext; intros d _; case_decide; subst; try done.
    rewrite decide_True by done. by rewrite <- app_assoc. }
  destruct (dom o c) eqn:E2; [|by rewrite IH].
  unfold dget_or. rewrite dget_dtable, dset_dtable by done. rewrite IH.
  f_equal; apply dtable_ext; intros d _; case_decide; subst; try done.
  rewrite decide_True by done. cbn [length]. lia.
Qed.

Lemma scan_all todo done_ fc fs first :
  ids = done_ ++ todo ->
  (forall d, d ∈ done_ -> fc d = Z.of_nat (length (dominators d)) /\ fs d = dominated d) ->
  (forall d, d ∈ todo -> fc d = 0 /\ fs d = []) ->
  first = List.filter (fun d => bool_decide (dominators d = [])) done_ ->
  fold_left (scan_candidate values objectives epsilon ids) todo
    ({| so_count := dtable fc ids; so_dominated := dtable fs ids |}, first)
  = ({| so_count := dtable (fun d => Z.of_nat (length (dominators d))) ids;
        so_dominated := dtable dominated ids |},
     List.filter (fun d => bool_decide (dominators d = [])) ids).
Proof.
  revert done_ fc fs first. induction todo as [|c todo IH]; intros done_ fc fs first Hids Hd Ht Hf.
  { rewrite app_nil_r in Hids. cbn [fold_left]. subst first. f_equal; [|by rewrite Hids].
    f_equal; apply dtable_ext; intros d Hdin; rewrite Hids in Hdin; by apply Hd. }
  assert (Hc : c ∈ ids) by (rewrite Hids; set_solver).
  assert (Hcn : (c ∉ done_) /\ (c ∉ todo)).
  { unfold dict_ok in keys_distinct. rewrite Hids in keys_distinct.
    apply NoDup_app in keys_distinct as (_ & Hx & [Hy _]%NoDup_cons). split; [|done].
    intros Hin. apply (Hx c Hin). by left. }
  destruct Hcn as [Hcd Hct]. assert (Hfc : fc c = 0 /\ fs c = []) by (apply Ht; by left).
  destruct Hfc as [Hfc Hfs].
  cbn [fold_left]. unfold scan_candidate at 2. rewrite compare_pairs by done. cbn [so_count].
  unfold dget_or. rewrite dget_dtable by done. rewrite decide_True by done. rewrite Hfc.
  apply (IH (done_ ++ [c])).
  - by rewrite Hids, <- app_assoc.
  - intros d. rewrite elem_of_app, list_elem_of_singleton. intros [Hdin| ->].
    + rewrite !decide_False by (intros ->; done). by apply Hd.
    + rewrite !decide_True by done. rewrite Hfs. split; [done|]. done.
  - intros d Hdin. rewrite !decide_False by (intros ->; done). apply Ht. by right.
  - rewrite List.filter_app, <- Hf. cbn [List.filter].
    change (List.filter (fun o => dom o c) ids) with (dominators c).
    destruct (dominators c) as [|x l] eqn:Ed; [by rewrite bool_decide_true|].
    rewrite bool_decide_false by done. rewrite app_nil_r.
    destruct (Z.eqb_spec (0 + Z.of_nat (length (x :: l))) 0); [simpl in *; lia|done].
Qed.

(** *** Peeling off the fronts *)

(** How many dominators of [d] are not among the processed candidates. *)
Definition waiting (P : list string) (d : string) : Z :=
  Z.of_nat (length (List.filter (fun o => negb (mem o P)) (dominators d))).

Lemma filter_removed {A} `{EqDecision A} (l : list A) (P : list A) c :
  NoDup l -> c ∉ P ->
  Z.of_nat (length (List.filter (fun o => negb (mem o (P ++ [c]))) l))
  = Z.of_nat (length (List.filter (fun o => negb (mem o P)) l)) - (if decide (c ∈ l) then 1 else 0).
Proof.
  intros Hnd Hc. induction Hnd as [|x l Hx Hl IH]; [by rewrite decide_False by set_solver|].
  cbn [List.filter]. destruct (decide (x = c)) as [->|Hne].
  - assert (mem c (P ++ [c]) = true) as -> by (apply mem_true; set_solver).
    assert (mem c P = false) as -> by (by apply mem_false). cbn [negb length].
    rewrite IH, (decide_False (P := c ∈ l)), decide_True by (done || by left). lia.
  - assert (mem x (P ++ [c]) = mem x P) as ->.
    { unfold mem. apply bool_decide_ext. set_solver. }
    assert (Hcl : c ∈ x :: l <-> c ∈ l) by set_solver.
    destruct (negb (mem x P)); cbn [length];
      destruct (decide (c ∈ l)), (decide (c ∈ x :: l)); tauto || lia.
Qed.

Lemma NoDup_dominators d : NoDup (dominators d).
Proof. apply NoDup_List_filter, keys_distinct. Qed.

Lemma waiting_step P c d :
  c ∈ ids -> c ∉ P ->
  waiting (P ++ [c]) d = waiting P d - (if decide (d ∈ dominated c) then 1 else 0) \/ d ∉ ids.
Proof.
  intros Hc Hn. destruct (decide (d ∈ ids)) as [Hd|Hd]; [left|by right].
  unfold waiting. rewrite filter_removed by (done || apply NoDup_dominators).
  f_equal. destruct (decide (c ∈ dominators d)) as [H1|H1], (decide (d ∈ dominated c)) as [H2|H2]; try done.
  - exfalso. apply H2, elem_dominated. by apply elem_dominators in H1 as [_ ?].
  - exfalso. apply H1, elem_dominators. by apply elem_dominated in H2 as [_ ?].
Qed.

(** Nobody waits for anybody exactly when all dominators are processed. *)
Lemma waiting_zero P d : waiting P d = 0 <-> forall o, o ∈ dominators d -> o ∈ P.
Proof.
  unfold waiting. rewrite (Nat2Z.inj_iff _ 0), length_zero_iff_nil. split.
  - intros E o Ho. destruct (mem o P) eqn:Em; [by apply mem_true|].
    assert (Hin : In o (List.filter (fun o => negb (mem o P)) (dominators d))).
    { apply filter_In. split; [by apply list_elem_of_In|]. by rewrite Em. }
    by rewrite E in Hin.
  - intros H. destruct (List.filter _ _) as [|x l] eqn:E; [done|].
    assert (Hin : In x (List.filter (fun o => negb (mem o P)) (dominators d))) by (rewrite E; by left).
    apply filter_In in Hin as [Hin Hx]. apply list_elem_of_In, H, mem_true in Hin. by rewrite Hin in Hx.
Qed.

Lemma release_list ds f nf :
  NoDup ds -> (forall d, d ∈ ds -> d ∈ ids) ->
  fold_left release ds (dtable f ids, nf)
  = (dtable (fun d => if decide (d ∈ ds) then f d - 1 else f d) ids,
     nf ++ List.filter (fun d => f d - 1 =? 0) ds).
Proof.
  revert f nf. induction ds as [|d ds IH]; intros f nf Hnd Hin; cbn [fold_left List.filter].
  { by rewrite app_nil_r. }
  apply NoDup_cons in Hnd as [Hd Hnd]. unfold release at 2, dget_or.
  rewrite dget_dtable, dset_dtable by (done || apply Hin; by left).
  rewrite IH by (done || intros; apply Hin; by right). f_equal.
  - apply dtable_ext. intros x _. destruct (decide (x = d)) as [->|Hne].
    + rewrite decide_False, decide_True by (done || by left). done.
    + destruct (decide (x ∈ ds)); [by rewrite decide_True by (by right)|].
      by rewrite decide_False by set_solver.
  - assert (Hf : forall l, d ∉ l -> List.filter (fun x => (if decide (x = d) then f d - 1 else f x) - 1 =? 0) l
                = List.filter (fun x => f x - 1 =? 0) l).
    { intros l. induction l as [|x l IHl]; intros Hl; [done|]. cbn [List.filter].
      rewrite decide_False, IHl by set_solver. done. }
    rewrite Hf by done. destruct (f d - 1 =? 0); [by rewrite <- app_assoc|done].
Qed.

(** The loop's invariant: [P] processed, [todo] the rest of the current
    front, [next] the next front so far. *)
Record peel_ok (P todo next : list string) : Prop := {
  pk_nodup : NoDup (P ++ todo ++ next);
  pk_sub x : x ∈ P ++ todo ++ next -> x ∈ ids;
  pk_free x : x ∈ P ++ todo ++ next -> forall o, o ∈ dominators x -> o ∈ P;
  pk_closed x : x ∈ ids -> (forall o, o ∈ dominators x -> o ∈ P) -> x ∈ P ++ todo ++ next;
}.

Lemma peel_step P c todo next :
  peel_ok P (c :: todo) next ->
  exists next',
    release_all (dtable dominated ids) (dtable (waiting P) ids, next) c
    = (dtable (waiting (P ++ [c])) ids, next') /\
    peel_ok (P ++ [c]) todo next' /\
    (forall x, x ∈ next' -> x ∈ next \/ c ∈ dominators x).
Proof.
  intros [Hnd Hsub Hfree Hcl].
  assert (Hc : c ∈ ids) by (apply Hsub; set_solver).
  assert (HcP : c ∉ P).
  { apply NoDup_app in Hnd as (_ & Hx & _). intros Hin. apply (Hx c Hin). set_solver. }
  set (new := List.filter (fun d => waiting P d - 1 =? 0) (dominated c)).
  assert (Hnew : forall x, x ∈ new <-> x ∈ ids /\ dom c x = true /\ waiting (P ++ [c]) x = 0).
  { intros x. unfold new. rewrite list_elem_of_In, filter_In, <- list_elem_of_In, elem_dominated, Z.eqb_eq.
    split.
    - intros [[Hx Hd] Hw]. destruct (waiting_step P c x Hc HcP) as [->|?]; [|done].
      rewrite decide_True by (by apply elem_dominated). auto.
    - intros (Hx & Hd & Hw). split; [done|]. destruct (waiting_step P c x Hc HcP) as [Hw'|?]; [|done].
      rewrite decide_True in Hw' by (by apply elem_dominated). lia. }
  exists (next ++ new). split; [|split].
  - unfold release_all, dget_or. rewrite dget_dtable by done.
    rewrite release_list; [|apply NoDup_List_filter, keys_distinct|by intros d [? _]%elem_dominated].
    f_equal. apply dtable_ext. intros d Hd. destruct (waiting_step P c d Hc HcP) as [->|?]; [|done].
    case_decide; lia.
  - assert (Hfresh : forall x, x ∈ new -> x ∉ P ++ (c :: todo) ++ next).
    { intros x (Hx & Hd & _)%Hnew Hin. apply HcP, (Hfree x Hin), elem_dominators. done. }
    split.
    + replace ((P ++ [c]) ++ todo ++ next ++ new) with ((P ++ (c :: todo) ++ next) ++ new)
        by (by rewrite <- !app_assoc).
      apply NoDup_app. split_and!; [done|intros x Hx Hin; by apply (Hfresh x Hin)|].
      apply NoDup_List_filter, NoDup_List_filter, keys_distinct.
    + intros x Hx. rewrite !elem_of_app in Hx.
      destruct (decide (x ∈ new)) as [Hin|Hin]; [by apply Hnew in Hin as [? _]|].
      apply Hsub. set_solver.
    + intros x Hx o Ho. destruct (decide (x ∈ new)) as [Hin|Hin].
      * apply Hnew in Hin as (_ & _ & Hw). by apply (waiting_zero (P ++ [c]) x).
      * apply elem_of_app. left. apply (Hfree x); [set_solver|done].
    + intros x Hx Hall. destruct (decide (c ∈ dominators x)) as [Hd|Hd].
      * assert (x ∈ new); [|set_solver]. apply Hnew. split; [done|].
        split; [by apply elem_dominators in Hd as [_ ?]|]. by apply waiting_zero.
      * assert (x ∈ P ++ (c :: todo) ++ next); [|set_solver]. apply Hcl; [done|].
        intros o Ho. specialize (Hall o Ho). apply elem_of_app in Hall as [?|Hoc]; [done|].
        apply list_elem_of_singleton in Hoc as ->. done.
  - intros x [?|Hin]%elem_of_app; [by left|right]. apply Hnew in Hin as (_ & Hd & _).
    by apply elem_dominators.
Qed.

Lemma peel_front P front next :
  peel_ok P front next ->
  exists next',
    fold_left (release_all (dtable dominated ids)) front (dtable (waiting P) ids, next)
    = (dtable (waiting (P ++ front)) ids, next') /\
    peel_ok (P ++ front) [] next' /\
    (forall x, x ∈ next' -> x ∈ next \/ exists o, o ∈ front /\ o ∈ dominators x).
Proof.
  revert P next. induction front as [|c front IH]; intros P next Hok.
  { exists next. rewrite app_nil_r. split; [done|]. split; [done|]. by left. }
  destruct (peel_step P c front next Hok) as (n1 & E1 & Hok1 & Hn1).
  destruct (IH (P ++ [c]) n1 Hok1) as (n2 & E2 & Hok2 & Hn2). rewrite <- app_assoc in *.
  exists n2. cbn [fold_left]. rewrite E1. split; [exact E2|]. split; [exact Hok2|].
  intros x Hx. destruct (Hn2 x Hx) as [Hx1|(o & ? & ?)]; [|right; exists o; set_solver].
  destruct (Hn1 x Hx1) as [?|?]; [by left|right; exists c; set_solver].
Qed.

(** *** The layers of dominance *)

(** Front by front: everybody's dominators lie in earlier fronts, somebody's in
    the one before; nobody occurs twice and no front is empty. *)
Record layered (fronts : list (list string)) : Prop := {
  ly_nodup : NoDup (concat fronts);
  ly_sub x : x ∈ concat fronts -> x ∈ ids;
  ly_free k f x : fronts !! k = Some f -> x ∈ f ->
    forall o, o ∈ dominators x -> o ∈ concat (take k fronts);
  ly_tight k f x : fronts !! S k = Some f -> x ∈ f ->
    exists g o, fronts !! k = Some g /\ o ∈ g /\ o ∈ dominators x;
  ly_full : Forall (fun f => f <> []) fronts;
}.

(** All candidates whose dominators have been placed are placed. *)
Definition complete (fronts : list (list string)) : Prop :=
  forall x, x ∈ ids -> (forall o, o ∈ dominators x -> o ∈ concat fronts) -> x ∈ concat fronts.

Lemma concat_length fronts :
  Forall (fun f : list string => f <> []) fronts -> (length fronts <= length (concat fronts))%nat.
Proof.
  induction 1 as [|f fs Hf _ IH]; simpl; [done|]. rewrite length_app. destruct f; [done|]. simpl. lia.
Qed.

Lemma layered_length fronts : layered fronts -> (length fronts <= length ids)%nat.
Proof.
  intros [Hnd Hsub _ _ Hfull]. etrans; [by apply concat_length|].
  by apply submseteq_length, NoDup_submseteq.
Qed.

Lemma layered_snoc fronts current next :
  layered (fronts ++ [current]) ->
  peel_ok (concat fronts ++ current) [] next -> next <> [] ->
  (forall x, x ∈ next -> exists o, o ∈ current /\ o ∈ dominators x) ->
  layered ((fronts ++ [current]) ++ [next]).
Proof.
  intros [Hnd Hsub Hfree Htight Hfull] [Pnd Psub Pfree _] Hne Hdom.
  assert (Hcc : concat (fronts ++ [current]) = concat fronts ++ current)
    by (rewrite concat_app; simpl; by rewrite app_nil_r).
  assert (Hc : concat ((fronts ++ [current]) ++ [next]) = (concat fronts ++ current) ++ next)
    by (rewrite concat_app, Hcc; simpl; by rewrite app_nil_r).
  split.
  - by rewrite Hc.
  - intros x. rewrite Hc. apply Psub.
  - intros k f x Hk Hx o Ho. apply lookup_app_Some in Hk as [Hk|[Hlen Hk]].
    + rewrite take_app_le by (apply lookup_lt_Some in Hk; lia). by eapply Hfree.
    + apply list_lookup_singleton_Some in Hk as [Hz <-].
      rewrite take_app_le, take_ge by lia. rewrite Hcc. apply (Pfree x); [set_solver|done].
  - intros k f x Hk Hx. apply lookup_app_Some in Hk as [Hk|[Hlen Hk]].
    + destruct (Htight k f x Hk Hx) as (g & o & Hg & Hog & Hod). exists g, o.
      split; [by apply lookup_app_l_Some|done].
    + apply list_lookup_singleton_Some in Hk as [Hz <-]. destruct (Hdom x Hx) as (o & Ho & Hod).
      exists current, o. split; [|done]. rewrite length_app in Hlen, Hz. simpl in *.
      rewrite lookup_app_l by (rewrite length_app; simpl; lia).
      rewrite lookup_app_r by lia. by replace (k - length fronts)%nat with 0%nat by lia.
  - apply Forall_app. split; [done|]. by repeat constructor.
Qed.

Lemma peel_layers fuel fronts current :
  layered (fronts ++ [current]) -> peel_ok (concat fronts) current [] ->
  (length ids + 1 <= fuel + length fronts)%nat ->
  exists fronts', peel fuel (dtable dominated ids) (dtable (waiting (concat fronts)) ids)
                    (fronts ++ [current]) current = Some fronts' /\
    layered fronts' /\ complete fronts' /\ (fronts ++ [current]) `prefix_of` fronts'.
Proof.
  revert fronts current. induction fuel as [|fuel IH]; intros fronts current Hl Hp Hf.
  { pose proof (layered_length _ Hl) as Hlen. rewrite length_app in Hlen. simpl in Hlen. lia. }
  destruct (peel_front (concat fronts) current [] Hp) as (next & E & Hok & Hdom).
  cbn [peel]. rewrite E.
  assert (Hcc : concat (fronts ++ [current]) = concat fronts ++ current)
    by (rewrite concat_app; simpl; by rewrite app_nil_r).
  destruct next as [|x next].
  - exists (fronts ++ [current]). split; [done|]. split; [done|]. split; [|done].
    intros y Hy Hall. rewrite Hcc in *. destruct Hok as [_ _ _ Hcl].
    specialize (Hcl y Hy Hall). by rewrite !app_nil_r in Hcl.
  - set (nx := x :: next) in *.
    assert (Hl' : layered ((fronts ++ [current]) ++ [nx])).
    { apply layered_snoc; [done..|]. intros y Hy. destruct (Hdom y Hy) as [Hn|?]; [|done].
      by apply not_elem_of_nil in Hn. }
    rewrite <- Hcc in *. destruct (IH (fronts ++ [current]) nx Hl') as (fr & Efr & H1 & H2 & H3).
    + destruct Hok as [O1 O2 O3 O4]. split; rewrite ?app_nil_r in *; done.
    + rewrite length_app. simpl. lia.
    + exists fr. split; [exact Efr|]. split; [done|]. split; [done|].
      etrans; [|exact H3]. by apply prefix_app_r.
Qed.

(** The sort returns fronts, for every tolerance. *)
Lemma sort_layers :
  exists fronts, non_dominated_sort values objectives epsilon = Some fronts /\
    layered fronts /\ complete fronts /\
    (forall x, x ∈ ids -> dominators x = [] -> exists f, fronts !! 0%nat = Some f /\ x ∈ f) /\
    (forall f x, fronts !! 0%nat = Some f -> x ∈ f -> dominators x = []).
Proof.
  unfold non_dominated_sort. destruct ids as [|i0 ids0] eqn:Eids.
  { exists []. split; [done|]. split; [|split; [|split]].
    - split; [constructor|by intros ? ?%not_elem_of_nil|by intros []|by intros []|constructor].
    - intros x Hx. rewrite Eids in Hx. by apply not_elem_of_nil in Hx.
    - intros x Hx. by apply not_elem_of_nil in Hx.
    - by intros. }
  rewrite <- Eids. clear Eids i0 ids0.
  unfold initial_state. rewrite (scan_all ids [] (fun _ => 0) (fun _ => []) []) by (done || set_solver).
  set (first := List.filter _ ids).
  assert (Hfirst : forall x, x ∈ first <-> x ∈ ids /\ dominators x = []).
  { intros x. unfold first. by rewrite list_elem_of_In, filter_In, <- list_elem_of_In, bool_decide_eq_true. }
  destruct first as [|x0 first0] eqn:Ef.
  { exists []. split; [done|]. split; [|split; [|split]].
    - split; [constructor|by intros ? ?%not_elem_of_nil|by intros []|by intros []|constructor].
    - intros x Hx Hall. apply Hfirst. split; [done|]. destruct (dominators x) as [|o l] eqn:Ed; [done|].
      exfalso. apply (not_elem_of_nil o), Hall. by left.
    - intros x Hx Hd. exfalso. apply (not_elem_of_nil x), Hfirst. done.
    - by intros. }
  rewrite <- Ef in *. cbn [so_dominated so_count].
  assert (Hcat : concat [first] = first) by apply app_nil_r.
  assert (Hnd : NoDup first) by (subst first; apply NoDup_List_filter, keys_distinct).
  destruct (peel_layers (S (length ids)) [] first) as (fronts & E & Hl & Hc & Hpre).
  - cbn [app]. split; rewrite ?Hcat.
    + done.
    + by intros x [? _]%Hfirst.
    + intros [|k] f x Hk Hx o Ho; [|by destruct k]. injection Hk as <-. apply Hfirst in Hx as [_ Hx].
      by rewrite Hx in Ho.
    + intros k f x Hk. by destruct k.
    + constructor; [|constructor]. by rewrite Ef.
  - split; cbn [concat app]; rewrite ?app_nil_r.
    + done.
    + by intros x [? _]%Hfirst.
    + intros x [_ Hx]%Hfirst o Ho. by rewrite Hx in Ho.
    + intros x Hx Hall. apply Hfirst. split; [done|]. destruct (dominators x) as [|o l] eqn:Ed; [done|].
      exfalso. apply (not_elem_of_nil o), Hall. by left.
  - simpl. lia.
  - assert (Hwait : dtable (waiting (concat [])) ids
                    = dtable (fun d => Z.of_nat (length (dominators d))) ids).
    { apply dtable_ext. intros d _. unfold waiting. f_equal. f_equal.
      induction (dominators d) as [|o l IHl]; [done|]. simpl in *. by rewrite IHl. }
    rewrite Hwait in E. exists fronts. cbn [app] in E.
    destruct Hpre as [rest Hpre]. split; [exact E|]. split; [done|]. split; [done|].
    split.
    + intros x Hx Hd. exists first. split; [by rewrite Hpre|]. by apply Hfirst.
    + intros f x Hf Hx. rewrite Hpre in Hf. injection Hf as <-. by apply Hfirst in Hx as [_ ?].
Qed.
End Fronts.

(** *** Everybody is ranked when the tolerance is zero *)

Definition all_numeric (values : candidates) (objectives : list string) : Prop :=
  Forall (fun p => numeric objectives p.2) values.

Lemma vector_of_numeric values objectives x :
  all_numeric values objectives -> numeric objectives (vector_of values x).
Proof.
  intros H o Ho. unfold vector_of, dget_or. destruct (dget x values) as [v|] eqn:E; [|done].
  apply dget_elem in E. unfold all_numeric in H. rewrite Forall_forall in H. by apply (H _ E).
Qed.

Lemma dominators_shrink values objectives o x :
  dict_ok values -> all_numeric values objectives ->
  o ∈ dominators values objectives fzero x ->
  (length (dominators values objectives fzero o) < length (dominators values objectives fzero x))%nat.
Proof.
  intros Hok Hn Ho. change (length (o :: dominators values objectives fzero o)
    <= length (dominators values objectives fzero x))%nat.
  apply submseteq_length, NoDup_submseteq.
  - apply NoDup_cons. split; [|by apply NoDup_dominators].
    intros [_ H]%elem_dominators. by rewrite beats_irrefl in H.
  - intros y [->|Hy]%elem_of_cons; [done|]. apply elem_dominators in Ho as [_ Ho].
    apply elem_dominators in Hy as [Hy Hyo]. apply elem_dominators. split; [done|].
    unfold beats in *. eapply dominates_trans; [..|exact Hyo|exact Ho]; by apply vector_of_numeric.
Qed.

Lemma complete_is_everyone values objectives fronts :
  dict_ok values -> all_numeric values objectives ->
  complete values objectives fzero fronts ->
  forall x, x ∈ dkeys values -> x ∈ concat fronts.
Proof.
  intros Hok Hn Hc x. remember (length (dominators values objectives fzero x)) as n eqn:E.
  revert x E. induction (lt_wf n) as [n _ IH]. intros x -> Hx. apply Hc; [done|].
  intros o Ho. eapply IH; [|done|by apply elem_dominators in Ho as [? _]].
  by apply dominators_shrink.
Qed.

(** ** Selection *)

Lemma take_selected_spec m sel ids :
  (length sel <= Z.to_nat m)%nat ->
  take_selected m sel ids = take (Z.to_nat m) (sel ++ ids).
Proof.
  unfold take_selected. revert sel. induction ids as [|x ids IH]; intros sel Hl; cbn [fold_left].
  { by rewrite app_nil_r, take_ge. }
  destruct (Z.ltb_spec (Z.of_nat (length sel)) m).
  - rewrite IH by (rewrite length_app; simpl; lia). by rewrite <- app_assoc.
  - rewrite IH by done. by rewrite !take_app_le, !take_ge by lia.
Qed.

Definition sorted_front (objectives : list string) (values : candidates) (f : list string)
    : list string :=
  sort_by (front_leb objectives values (crowding_distance objectives values f)) f.

Lemma select_fronts_selected objectives values m rank fronts models sel :
  (length sel <= Z.to_nat m)%nat ->
  (select_fronts objectives values m rank fronts models sel).2
  = take (Z.to_nat m) (sel ++ concat (map (sorted_front objectives values) fronts)).
Proof.
  revert rank models sel. induction fronts as [|f fronts IH]; intros rank models sel Hl; cbn [select_fronts map concat].
  { by rewrite app_nil_r, take_ge. }
  rewrite take_selected_spec by done. fold (sorted_front objectives values f).
  set (sel' := take _ (sel ++ sorted_front objectives values f)).
  assert (Hsel : take (Z.to_nat m) (sel' ++ concat (map (sorted_front objectives values) fronts))
    = take (Z.to_nat m) (sel ++ sorted_front objectives values f ++
                           concat (map (sorted_front objectives values) fronts))).
  { rewrite (app_assoc sel). unfold sel'. set (l1 := sel ++ _).
    destruct (decide (length l1 <= Z.to_nat m)%nat); [by rewrite (take_ge l1)|].
    rewrite !take_app_le by (rewrite ?length_take; lia). by rewrite take_take, Nat.min_id. }
  assert (Hlen : (length sel' <= Z.to_nat m)%nat) by (unfold sel'; rewrite length_take; lia).
  destruct (Z.leb_spec m (Z.of_nat (length sel'))); [|by rewrite IH].
  cbn [snd]. rewrite <- Hsel, take_app_le, take_ge by lia. done.
Qed.

Lemma sorted_front_elem objectives values x f : x ∈ sorted_front objectives values f <-> x ∈ f.
Proof. apply sort_by_elem. Qed.

Lemma concat_sorted_perm objectives values fronts :
  concat (map (sorted_front objectives values) fronts) ≡ₚ concat fronts.
Proof.
  induction fronts as [|f fs IH]; [done|]. cbn [map concat]. rewrite IH. by apply Permutation_app_tail, sort_by_perm.
Qed.

Lemma lookup_concat {A} (L : list (list A)) i x :
  concat L !! i = Some x ->
  exists k g, L !! k = Some g /\ x ∈ g /\ (length (concat (take k L)) <= i)%nat.
Proof.
  revert i. induction L as [|g L IH]; intros i; cbn [concat]; [done|].
  intros [H|[Hl H]]%lookup_app_Some.
  - exists 0%nat, g. split; [done|]. split; [by eapply list_elem_of_lookup_2|simpl; lia].
  - destruct (IH _ H) as (k & g' & Hk & Hx & Hle). exists (S k), g'. split; [done|]. split; [done|].
    cbn [take concat]. rewrite length_app. lia.
Qed.

Lemma concat_take_prefix {A} (L : list (list A)) k : concat (take k L) `prefix_of` concat L.
Proof. exists (concat (drop k L)). by rewrite <- concat_app, take_drop. Qed.

(** A candidate comes after everything that beats it. *)
Lemma ordered_after values objectives epsilon fronts i x y :
  layered values objectives epsilon fronts ->
  concat (map (sorted_front objectives values) fronts) !! i = Some x ->
  y ∈ dominators values objectives epsilon x ->
  exists j, (j < i)%nat /\ concat (map (sorted_front objectives values) fronts) !! j = Some y.
Proof.
  intros Hl Hi Hy. apply lookup_concat in Hi as (k & g & Hk & Hx & Hle).
  change (map ?f) with (fmap (M := list) f) in Hk. rewrite list_lookup_fmap, fmap_Some in Hk.
  destruct Hk as (f & Hf & ->).
  apply sorted_front_elem in Hx.
  pose proof (ly_free _ _ _ _ Hl k f x Hf Hx y Hy) as Hin.
  rewrite <- (concat_sorted_perm objectives values) in Hin.
  apply list_elem_of_lookup in Hin as [j Hj]. exists j.
  rewrite <- firstn_map in Hj. split.
  - apply lookup_lt_Some in Hj. lia.
  - destruct (concat_take_prefix (map (sorted_front objectives values) fronts) k) as [rest E].
    rewrite E. by apply lookup_app_l_Some.
Qed.

Lemma candidate_values_keys objectives es x :
  x ∈ dkeys (candidate_values objectives es) <-> exists e, e ∈ es /\ ce_candidate_id e = x.
Proof.
  unfold candidate_values.
  enough (forall d, x ∈ dkeys (fold_left (fun d e => dset (ce_candidate_id e) (objective_vector objectives e) d) es d)
          <-> x ∈ dkeys d \/ exists e, e ∈ es /\ ce_candidate_id e = x) as ->.
  { split; [intros [H|?]; [by apply not_elem_of_nil in H|done]|by right]. }
  induction es as [|e es IH]; intros d; cbn [fold_left].
  { split; [by left|]. intros [?|(e & H & _)]; [done|by apply not_elem_of_nil in H]. }
  rewrite IH, elem_dkeys_dset. setoid_rewrite elem_of_cons. naive_solver.
Qed.

Lemma candidate_values_ok objectives es : dict_ok (candidate_values objectives es).
Proof.
  unfold candidate_values. generalize (dict_ok_nil (K := string) (V := vector)). generalize (@nil (string * vector)).
  induction es as [|e es IH]; intros d Hd; cbn [fold_left]; [done|]. apply IH. by apply dset_ok.
Qed.

(** What [select_pareto] returns, on both of its branches. *)
Lemma select_pareto_result proposal es policy time :
  let feasible := List.filter (selectable policy) es in
  let objectives := selection_objectives policy feasible in
  let values := candidate_values objectives feasible in
  exists fronts r,
    select_pareto proposal es policy time = Some r /\
    non_dominated_sort values objectives (po_epsilon policy) = Some fronts /\
    layered values objectives (po_epsilon policy) fronts /\
    pr_selected_candidate_ids r
    = take (Z.to_nat (po_max_selected policy)) (concat (map (sorted_front objectives values) fronts)) /\
    pr_selected_candidate_id r = head (pr_selected_candidate_ids r).
Proof.
  intros feasible objectives values.
  destruct (sort_layers values objectives (po_epsilon policy)) as (fronts & E & Hl & _).
  { apply candidate_values_ok. }
  exists fronts. unfold select_pareto. fold feasible. fold objectives. fold values.
  destruct feasible as [|e es'] eqn:Ef.
  { eexists. split; [reflexivity|]. split; [exact E|]. split; [done|]. injection E as <-.
    cbn. by rewrite take_nil. }
  pose proof (select_fronts_selected objectives values (po_max_selected policy) 0 fronts [] []
                (Nat.le_0_l _)) as Hs.
  rewrite E. cbn [mbind option_bind].
  destruct (select_fronts _ _ _ _ _ _ _) as [models sel]. eexists. split; [reflexivity|].
  split; [reflexivity|]. split; [done|]. split; [exact Hs|reflexivity].
Qed.

(** ** Theorems *)

(** C19: for every tolerance [non_dominated_sort] terminates (its loop within one
    round per candidate) and returns the layers of the dominance relation: no
    candidate occurs twice, everything that beats a candidate lies in an earlier
    front, something that beats it in the front just before, and a candidate
    whose dominators are all ranked is ranked. *)
Theorem non_dominated_sort_layers values objectives epsilon (Hkeys : dict_ok values) :
  exists fronts, non_dominated_sort values objectives epsilon = Some fronts /\
    layered values objectives epsilon fronts /\ complete values objectives epsilon fronts.
Proof.
  destruct (sort_layers values objectives epsilon Hkeys) as (fronts & E & Hl & Hc & _).
  by exists fronts.
Qed.

(** With tolerance zero and values that are numbers every candidate is
    ranked exactly once, and the first front consists of the candidates that
    no candidate dominates. *)
Theorem zero_tolerance_ranks_everyone values objectives
    (Hkeys : dict_ok values) (Hnum : all_numeric values objectives) :
  exists fronts, non_dominated_sort values objectives fzero = Some fronts /\
    concat fronts ≡ₚ dkeys values /\
    forall x, (exists f, fronts !! 0%nat = Some f /\ x ∈ f) <->
      x ∈ dkeys values /\ forall y, y ∈ dkeys values -> beats values objectives fzero y x = false.
Proof.
  destruct (sort_layers values objectives fzero Hkeys) as (fronts & E & Hl & Hc & H1 & H2).
  exists fronts. split; [done|]. split.
  - apply NoDup_Permutation; [apply Hl|done|]. intros x. split; [apply Hl|].
    by apply (complete_is_everyone values objectives).
  - intros x. split.
    + intros (f & Hf & Hx). split.
      * apply (ly_sub _ _ _ _ Hl). apply list_elem_of_In, in_concat. exists f.
        split; [by eapply list_elem_of_In, list_elem_of_lookup_2|by apply list_elem_of_In].
      * intros y Hy. apply not_true_iff_false. intros Hb.
        apply (not_elem_of_nil y). rewrite <- (H2 f x Hf Hx). by apply elem_dominators.
    + intros [Hx Hno]. apply H1; [done|]. destruct (dominators _ _ _ x) as [|y l] eqn:Ed; [done|].
      assert (Hy : y ∈ dominators values objectives fzero x) by (rewrite Ed; by left).
      apply elem_dominators in Hy as [Hy Hb]. by rewrite Hno in Hb.
Qed.

(** C30: [select_pareto] always returns; it selects at most [max_selected]
    candidates, none twice, each the candidate of an evaluation that passes
    every filter; and a selected candidate comes after every candidate that
    dominates it, so nothing dominated is selected in place of what dominates
    it. *)
Theorem selection_respects_dominance proposal es policy time :
  let feasible := List.filter (selectable policy) es in
  let objectives := selection_objectives policy feasible in
  let values := candidate_values objectives feasible in
  exists r, select_pareto proposal es policy time = Some r /\
    (length (pr_selected_candidate_ids r) <= Z.to_nat (po_max_selected policy))%nat /\
    NoDup (pr_selected_candidate_ids r) /\
    (forall x, x ∈ pr_selected_candidate_ids r ->
       exists e, e ∈ es /\ selectable policy e = true /\ ce_candidate_id e = x) /\
    (forall i x y, pr_selected_candidate_ids r !! i = Some x -> y ∈ dkeys values ->
       beats values objectives (po_epsilon policy) y x = true ->
       exists j, (j < i)%nat /\ pr_selected_candidate_ids r !! j = Some y).
Proof.
  intros feasible objectives values.
  destruct (select_pareto_result proposal es policy time) as (fronts & r & E & _ & Hl & Hs & _).
  fold feasible in Hl, Hs. fold objectives in Hl, Hs. fold values in Hl, Hs.
  exists r. split; [done|]. rewrite Hs. split; [rewrite length_take; lia|]. split.
  { eapply sublist_NoDup; [|apply sublist_take]. rewrite concat_sorted_perm. apply Hl. }
  split.
  - intros x Hx. apply subseteq_take in Hx. rewrite concat_sorted_perm in Hx.
    apply (ly_sub _ _ _ _ Hl), candidate_values_keys in Hx as (e & He & <-).
    apply list_elem_of_In, filter_In in He as [He Hsel]. exists e. by rewrite list_elem_of_In.
  - intros i x y Hi Hy Hb. apply lookup_take_Some in Hi as [Hi Hlt].
    destruct (ordered_after _ _ _ _ i x y Hl Hi) as (j & Hj & Hy'); [by apply elem_dominators|].
    exists j. split; [done|]. apply lookup_take_Some. split; [done|lia].
Qed.

(** *** Examples *)

Definition quarter (n : Z) : float := of_ratio n 4.

Definition three_values (a b c : Z) : vector :=
  [("cost", quarter a); ("latency", quarter b); ("quality", quarter c)].

Definition evaluation (cid : string) (v : vector) : CandidateEvaluationRecord := {|
  ce_candidate_id := cid; ce_simulation_id := None; ce_verification := None;
  ce_fitness := Some {| fe_id := "f"; fe_candidate_id := cid; fe_objectives := v;
                        fe_constraints := [("invariants", true)]; fe_passed := true;
                        fe_notes := []; fe_created_at := "t" |};
  ce_feasible := true; ce_reasons := []; ce_created_at := "t" |}.

(** Three candidates, each better than the next by two quarters in one objective
    and worse by one quarter in the two others. *)
Definition cycle_evaluations : list CandidateEvaluationRecord :=
  [evaluation "a" (three_values 1 2 3); evaluation "b" (three_values 2 3 1);
   evaluation "c" (three_values 3 1 2)].

Definition policy_with (epsilon : float) : ParetoSelectionPolicy := {|
  po_objectives := []; po_max_selected := 2; po_min_objective_value := fzero;
  po_epsilon := epsilon; po_require_constraints := true |}.

(** A tolerance can make dominance cyclic: three candidates that pass every
    filter, with a tolerance of a quarter, beat each other in a circle, so the
    first front is empty and [select_pareto] returns no front and no candidate;
    with tolerance zero the same three are all in the first front. *)
Theorem tolerance_cycle_selects_nobody proposal time :
  forallb (selectable (policy_with (quarter 1))) cycle_evaluations = true /\
  select_pareto proposal cycle_evaluations (policy_with (quarter 1)) time
  = Some {| pr_proposal_id := proposal; pr_objectives := ["cost"; "latency"; "quality"];
            pr_fronts := []; pr_selected_candidate_ids := [];
            pr_selected_candidate_id := None; pr_created_at := time |} /\
  exists r, select_pareto proposal cycle_evaluations (policy_with fzero) time = Some r /\
    length (pr_fronts r) = 1%nat /\ length (pr_selected_candidate_ids r) = 2%nat.
Proof.
  split; [vm_compute; reflexivity|]. split; [vm_compute; reflexivity|].
  eexists. split; [vm_compute; reflexivity|]. split; reflexivity.
Qed.

(** Two candidates of which the first dominates the second. *)
Definition example_values : candidates :=
  [("low", three_values 1 1 1); ("high", three_values 2 1 2)].

Lemma non_dominated_sort_layers_witness :
  dict_ok example_values /\
  exists fronts, non_dominated_sort example_values ["cost"; "quality"] fzero = Some fronts /\
    layered example_values ["cost"; "quality"] fzero fronts /\
    complete example_values ["cost"; "quality"] fzero fronts.
Proof.
  assert (H : dict_ok example_values) by (apply (bool_decide_unpack _); vm_compute; exact I).
  split; [exact H|]. exact (non_dominated_sort_layers _ _ _ H).
Defined.

Lemma example_numeric : all_numeric example_values ["cost"; "quality"].
Proof.
  unfold all_numeric. repeat constructor; intros o Ho;
    repeat (apply elem_of_cons in Ho as [->|Ho]; [vm_compute; reflexivity|]);
    by apply not_elem_of_nil in Ho.
Qed.

Lemma zero_tolerance_ranks_everyone_witness :
  (dict_ok example_values /\ all_numeric example_values ["cost"; "quality"]) /\
  exists fronts, non_dominated_sort example_values ["cost"; "quality"] fzero = Some fronts /\
    concat fronts ≡ₚ dkeys example_values /\
    forall x, (exists f, fronts !! 0%nat = Some f /\ x ∈ f) <->
      x ∈ dkeys example_values /\
      forall y, y ∈ dkeys example_values -> beats example_values ["cost"; "quality"] fzero y x = false.
Proof.
  assert (H : dict_ok example_values) by (apply (bool_decide_unpack _); vm_compute; exact I).
  split; [exact (conj H example_numeric)|].
  exact (zero_tolerance_ranks_everyone _ _ H example_numeric).
Defined.
