(* ===== verification/SelfModels.v ===== *)
(** * Self-evolution: records, identifiers, history

    [evolution/models.py], [evolution/utils.py], [evolution/history.py] and
    [evolution/governance.py].  The records of candidates' fitness and
    verification are in [Pareto].  An ISR is a document; sha256, canonical JSON
    and the text of a time are parameters, and so is what the HTTP client of the
    governance kernel gets back. *)

From Stdlib Require Import SpecFloat.
From S2P Require Import Prelude PyFloat PyVal PyText PyJson EvoModels Pareto.
Open Scope Z_scope.

(** ** What is read from outside *)

Class Digests := {
  sha256_hex : string -> string;
  canonical_json : pyval -> string;
  iso_format : Z -> string;
}.

Section Utils.
Context `{Surroundings, Digests}.

Definition digest (payload : pyval) : string := sha256_hex (canonical_json payload).
Definition deterministic_id (prefix : string) (payload : pydict) : string :=
  prefix +:+ "_" +:+ digest (VDict payload).
(** [utcnow().isoformat()]. *)
Definition timestamp : M World string := t ← now; mret (iso_format t).
End Utils.

(** The digest has no collision: [canonical_json] sorts the keys of every dict, so
    documents of the same digest are the same up to the order of keys. *)
Class DigestLaws `{Digests} : Prop := {
  law_digest_injective v w : digest v = digest w -> sort_keys v = sort_keys w;
}.
(** ** Records *)

Inductive EvolutionTargetType : Set :=
| APPLICATION_ARCHITECTURE | PLATFORM_CORE | COMPILER_PIPELINE | ISR_SCHEMA | OPTIMIZATION_STRATEGY.
Definition target_type_value (t : EvolutionTargetType) : string :=
  match t with
  | APPLICATION_ARCHITECTURE => "APPLICATION_ARCHITECTURE" | PLATFORM_CORE => "PLATFORM_CORE"
  | COMPILER_PIPELINE => "COMPILER_PIPELINE" | ISR_SCHEMA => "ISR_SCHEMA"
  | OPTIMIZATION_STRATEGY => "OPTIMIZATION_STRATEGY"
  end.
#[export] Instance EvolutionTargetType_eq_dec : EqDecision EvolutionTargetType.
Proof. solve_decision. Defined.

Inductive ProposalStatus : Set :=
| DRAFT | MUTATED | SIMULATED | VERIFIED | EVALUATED | PENDING_APPROVAL | APPROVED | REJECTED
| PROMOTED | ROLLED_BACK | FAILED.
Definition proposal_status_value (s : ProposalStatus) : string :=
  match s with
  | DRAFT => "DRAFT" | MUTATED => "MUTATED" | SIMULATED => "SIMULATED" | VERIFIED => "VERIFIED"
  | EVALUATED => "EVALUATED" | PENDING_APPROVAL => "PENDING_APPROVAL" | APPROVED => "APPROVED"
  | REJECTED => "REJECTED" | PROMOTED => "PROMOTED" | ROLLED_BACK => "ROLLED_BACK" | FAILED => "FAILED"
  end.
#[export] Instance ProposalStatus_eq_dec : EqDecision ProposalStatus.
Proof. solve_decision. Defined.

Inductive MutationOperationType : Set := SET_VALUE | ADD_ITEM | REMOVE_ITEM | MERGE_OBJECT.
Definition operation_type_value (t : MutationOperationType) : string :=
  match t with
  | SET_VALUE => "SET_VALUE" | ADD_ITEM => "ADD_ITEM" | REMOVE_ITEM => "REMOVE_ITEM"
  | MERGE_OBJECT => "MERGE_OBJECT"
  end.

Record MutationOperationSpec : Set := {
  os_operation : MutationOperationType;
  os_path : string;
  os_value : pyval;
  os_rationale : string;
}.
Record MutationSpec : Set := {
  ms_id : option string;
  ms_operator : string;
  ms_chromosome_family : string;
  ms_gene_id : string;
  ms_operations : list MutationOperationSpec;
  ms_rationale : string;
}.
Record EvolutionProposalRequest : Set := {
  rq_title : string;
  rq_description : string;
  rq_target_type : EvolutionTargetType;
  rq_target_ref : string;
  rq_base_isr : pydict;
  rq_mutation : MutationSpec;
  rq_high_impact : bool;
  rq_allow_breaking_changes : bool;
  rq_environment : string;
}.
Record CandidateArchitecture : Set := {
  ca_id : string;
  ca_proposal_id : string;
  ca_mutation_spec_id : string;
  ca_base_isr_hash : string;
  ca_content_hash : string;
  ca_isr : pydict;
  ca_created_at : string;
}.
Record SimulationResult : Set := {
  sm_id : string;
  sm_candidate_id : string;
  sm_status : string;
  sm_metrics : pydict;
  sm_issues : list SimulationIssue;
  sm_logs : list string;
  sm_created_at : string;
}.
Record GovernanceDecision : Set := {
  gd_decision : string;
  gd_reason : string;
  gd_constraints : list pydict;
  gd_required_approvals : list pydict;
}.
Record ApprovalRecord : Set := {
  ap_approver_id : string;
  ap_decision : string;
  ap_comments : string;
  ap_governance_ref : option string;
  ap_created_at : string;
}.
Record RollbackPlan : Set := {
  rp_parent_isr_hash : string;
  rp_steps : list string;
  rp_automated : bool;
}.
Record PromotionRecord : Set := {
  pm_id : string;
  pm_proposal_id : string;
  pm_candidate_id : string;
  pm_environment : string;
  pm_promoted_content_hash : string;
  pm_rollback_plan : RollbackPlan;
  pm_compilation_ref : option string;
  pm_status : string;
  pm_rolled_back_at : option string;
  pm_rollback_reason : option string;
  pm_created_at : string;
}.
(** [ep_promotion] is the address of the record, which the table of promotions
    holds too. *)
Record EvolutionProposal : Set := {
  ep_id : string;
  ep_status : ProposalStatus;
  ep_request : EvolutionProposalRequest;
  ep_candidate_ids : list string;
  ep_simulation_ids : list string;
  ep_verification : option VerificationReport;
  ep_fitness : option FitnessEvaluation;
  ep_governance_decision : option GovernanceDecision;
  ep_approval : option ApprovalRecord;
  ep_promotion : option nat;
  ep_selected_candidate_id : option string;
  ep_error : option string;
  ep_created_at : string;
  ep_updated_at : string;
}.
Record GenerateCandidatesRequest : Set := {
  gc_mutations : list MutationSpec;
  gc_include_base_mutation : bool;
}.

(** ** [model_dump(mode="json")] *)

Definition opt_str (o : option string) : pyval := match o with Some s => VStr s | None => VNone end.
Definition dump_operation (o : MutationOperationSpec) : pyval :=
  VDict [("operation", VStr (operation_type_value (os_operation o))); ("path", VStr (os_path o));
         ("value", os_value o); ("rationale", VStr (os_rationale o))].
Definition dump_mutation (m : MutationSpec) : pydict :=
  [("id", opt_str (ms_id m)); ("operator", VStr (ms_operator m));
   ("chromosome_family", VStr (ms_chromosome_family m)); ("gene_id", VStr (ms_gene_id m));
   ("operations", VList (map dump_operation (ms_operations m))); ("rationale", VStr (ms_rationale m))].
Definition dump_issue (i : SimulationIssue) : pyval :=
  VDict [("severity", VStr (is_severity i)); ("code", VStr (is_code i)); ("message", VStr (is_message i))].
Definition dump_verification (v : VerificationReport) : pyval :=
  VDict [("candidate_id", VStr (vf_candidate_id v)); ("valid", VBool (vf_valid v));
         ("issues", VList (map dump_issue (vf_issues v))); ("created_at", VStr (vf_created_at v))].
Definition dump_fitness (f : FitnessEvaluation) : pyval :=
  VDict [("id", VStr (fe_id f)); ("candidate_id", VStr (fe_candidate_id f));
         ("objectives", VDict (map (fun p => (p.1, VFloat p.2)) (fe_objectives f)));
         ("constraints", VDict (map (fun p => (p.1, VBool p.2)) (fe_constraints f)));
         ("passed", VBool (fe_passed f)); ("notes", VList (map VStr (fe_notes f)));
         ("created_at", VStr (fe_created_at f))].

(** ** EvolutionHistoryRepository *)

Record EvolutionEvent : Set := {
  ev_id : string;
  ev_proposal_id : string;
  ev_event_type : string;
  ev_actor_id : string;
  ev_details : pydict;
  ev_timestamp : string;
  ev_previous_event_hash : string;
  ev_event_hash : string;
}.
Record EvolutionHistory : Set := { hi_events : list EvolutionEvent; hi_last_event_hash : string }.
Definition empty_history : EvolutionHistory := {| hi_events := []; hi_last_event_hash := "genesis" |}.

Section History.
Context `{Surroundings, Digests}.

Definition event_content (id proposal_id event_type actor_id : string) (details : pydict)
    (time previous : string) : pydict :=
  [("event_id", VStr id); ("proposal_id", VStr proposal_id); ("event_type", VStr event_type);
   ("actor_id", VStr actor_id); ("details", VDict details); ("timestamp", VStr time);
   ("previous_event_hash", VStr previous)].
Definition make_event (proposal_id event_type actor_id : string) (details : pydict) (time previous : string) :
    EvolutionEvent :=
  let event_id := deterministic_id "evolution_event"
    [("proposal_id", VStr proposal_id); ("event_type", VStr event_type); ("timestamp", VStr time);
     ("previous_event_hash", VStr previous)] in
  {| ev_id := event_id; ev_proposal_id := proposal_id; ev_event_type := event_type; ev_actor_id := actor_id;
     ev_details := details; ev_timestamp := time; ev_previous_event_hash := previous;
     ev_event_hash := digest (VDict (event_content event_id proposal_id event_type actor_id details time previous)) |}.
Definition append_history (e : EvolutionEvent) (h : EvolutionHistory) : EvolutionHistory :=
  {| hi_events := hi_events h ++ [e]; hi_last_event_hash := ev_event_hash e |}.
Definition list_events (proposal_id : option string) (h : EvolutionHistory) : list EvolutionEvent :=
  if otruthy proposal_id
  then List.filter (fun e => bool_decide (ev_proposal_id e = or_empty proposal_id)) (hi_events h)
  else hi_events h.
End History.

(** ** Governance clients

    A client answers a decision or raises. *)
Section Clients.
Context `{Surroundings}.

Definition GovernanceClient : Type := EvolutionProposal -> pydict -> M World GovernanceDecision.
Definition plain_decision (decision reason : string) : GovernanceDecision :=
  {| gd_decision := decision; gd_reason := reason; gd_constraints := []; gd_required_approvals := [] |}.
Definition static_client (decision reason : string) : GovernanceClient :=
  fun _ _ => mret (plain_decision decision reason).
(** [post] is the request, the status check and the parsing of the answer. *)
Definition kernel_payload (p : EvolutionProposal) (context : pydict) : pydict :=
  [("subject_type", VStr "EVOLUTION_PROPOSAL"); ("subject_id", VStr (ep_id p)); ("action", VStr "EVOLVE_ISR");
   ("actor", VDict [("actor_type", VStr "AUTONOMOUS_AGENT"); ("actor_id", VStr "self_evolution_engine");
                    ("roles", VList [VStr "evolution_proposer"]); ("delegated_authority", VList [])]);
   ("context", VDict context); ("evidence_refs", VList [VStr ("evolution_proposal:" +:+ ep_id p)])].
Definition kernel_client (post : pydict -> M World GovernanceDecision) : GovernanceClient := fun p context =>
  try_catch (post (kernel_payload p context))
    (fun e => mret (plain_decision "DENY" ("Governance Kernel unavailable or error: " +:+ exn_text e))).
End Clients.

(** * A compact text of documents

    An injective text of documents (with their keys sorted) whose length is about that of the texts in them,
    with the digests made of it: the samples of the self-evolution files, where a
    digest occurs in the document of the next one. *)

(** The length in binary, a semicolon, the text. *)
Definition packet (s : string) : string := bits_of (Pos.of_succ_nat (String.length s)) +:+ ";" +:+ s.
Definition token_text (t : nat * nat + (string + Z)) : string :=
  match t with
  | inl p => "n" +:+ bits_of (encode p)
  | inr (inl s) => "s" +:+ s
  | inr (inr n) => "z" +:+ bits_of (encode n)
  end.
Definition packets (ss : list string) : string := fold_right (fun s acc => packet s +:+ acc) "" ss.
Definition compact_text (v : pyval) : string := packets (map token_text (gen_tree_to_list (tree_of v))).

Lemma bits_of_stop p q r t : bits_of p +:+ ";" +:+ r = bits_of q +:+ ";" +:+ t -> p = q /\ r = t.
Proof.
  revert q. induction p as [p IH|p IH|]; intros [q|q|]; cbn; intros E; try discriminate E.
  - injection E as E. by destruct (IH q E) as [-> ->].
  - injection E as E. by destruct (IH q E) as [-> ->].
  - split; [done|]. by injection E.
Qed.
Lemma same_length_app (s s' r t : string) : String.length s = String.length s' -> s +:+ r = s' +:+ t -> s = s' /\ r = t.
Proof.
  revert s'. induction s as [|c s IH]; intros [|c' s']; cbn; try done. intros [= Hl] [= -> E].
  by destruct (IH s' Hl E) as [-> ->].
Qed.
Lemma text_app_assoc (a b c : string) : (a +:+ b) +:+ c = a +:+ (b +:+ c).
Proof. induction a as [|x a IH]; [done|]. change (String x ((a +:+ b) +:+ c) = String x (a +:+ (b +:+ c))). by rewrite IH. Qed.
Lemma text_app_inj (a b1 b2 : string) : a +:+ b1 = a +:+ b2 -> b1 = b2.
Proof. by apply same_length_app. Qed.
Lemma packet_injective s s' r t : packet s +:+ r = packet s' +:+ t -> s = s' /\ r = t.
Proof.
  unfold packet. rewrite !text_app_assoc. intros (El & E)%bits_of_stop. apply same_length_app; [lia|done].
Qed.
Lemma packets_injective ss ss' : packets ss = packets ss' -> ss = ss'.
Proof.
  assert (Hne : forall s r, packet s +:+ r <> "").
  { intros s r. unfold packet. rewrite text_app_assoc. by destruct (bits_of _). }
  revert ss'. induction ss as [|s ss IH]; intros [|s' ss']; cbn; intros E; [done| | |].
  - by apply eq_sym, Hne in E.
  - by apply Hne in E.
  - apply packet_injective in E as [-> E]. by rewrite (IH _ E).
Qed.
Lemma bits_of_injective p q : bits_of p = bits_of q -> p = q.
Proof. intros E. by rewrite <- (pos_of_bits p), <- (pos_of_bits q), E. Qed.
Lemma token_text_injective t t' : token_text t = token_text t' -> t = t'.
Proof.
  destruct t as [p|[s|n]], t' as [p'|[s'|n']]; intros E; try discriminate E.
  - injection E as E. by apply bits_of_injective, (inj encode) in E as ->.
  - injection E as E. change (s = s') in E. by subst.
  - injection E as E. by apply bits_of_injective, (inj encode) in E as ->.
Qed.
Lemma compact_text_injective v w : compact_text v = compact_text w -> v = w.
Proof.
  intros E%packets_injective. apply (list_fmap_eq_inj _ token_text_injective) in E.
  rewrite <- (of_tree_of v), <- (of_tree_of w). f_equal.
  assert (Ht : Some (tree_of v) = Some (tree_of w)); [|by injection Ht].
  pose proof (gen_tree_of_to_list [] [] (tree_of v)) as Hv. pose proof (gen_tree_of_to_list [] [] (tree_of w)) as Hw.
  rewrite E in Hv. cbn in Hv, Hw. congruence.
Qed.

(** An id determines what it was made of, up to the order of keys. *)
Lemma deterministic_id_injective `{DigestLaws} prefix x y :
  deterministic_id prefix x = deterministic_id prefix y -> sort_keys (VDict x) = sort_keys (VDict y).
Proof. unfold deterministic_id. intros E. by do 2 apply text_app_inj in E; apply law_digest_injective in E. Qed.

Definition compact_digests : Digests := {|
  sha256_hex t := "#" +:+ t; canonical_json v := compact_text (sort_keys v); iso_format := str_of_int |}.
#[local] Existing Instance compact_digests.
Lemma compact_digest_laws : DigestLaws.
Proof.
  split. intros v w E. apply compact_text_injective.
  change ("#" +:+ compact_text (sort_keys v) = "#" +:+ compact_text (sort_keys w)) in E. injection E as E. exact E.
Qed.
(** A world that counts. *)
Definition counting_world : Surroundings := {|
  uuid_hex n := str_of_int (Z.of_nat n); clock n := Z.of_nat n; perf_counter _ := fzero;
  random_bits _ := 0%nat; random_unit _ := fzero; power x _ := Ok x; sqrt x := x; log2 x := x |}.
