(* ===== verification/SelfEngine.v ===== *)
(** * Self-evolution: the engine

    [evolution/engine.py].  The proposals are found under their ids; a promotion
    record is shared by the table of promotions and its proposal, so promotions
    live in a heap.  The mutation engine, the simulator, the verifier, the fitness
    evaluator and the governance client are injected and may answer or raise. *)

From Stdlib Require Import SpecFloat.
From S2P Require Import Prelude PyFloat PyVal PyText PyJson EvoModels Pareto SelfModels.
Open Scope Z_scope.

(** ** The injected parts *)

Class Parts `{Surroundings} := {
  part_mutation : pydict -> MutationSpec -> M World pydict;
  part_simulator : CandidateArchitecture -> M World SimulationResult;
  part_verifier : CandidateArchitecture -> EvolutionProposal -> M World VerificationReport;
  part_fitness : CandidateArchitecture -> SimulationResult -> option VerificationReport -> M World FitnessEvaluation;
  part_governance : option GovernanceClient;
}.

Definition HIGH_IMPACT_TARGETS : list EvolutionTargetType := [PLATFORM_CORE; COMPILER_PIPELINE; ISR_SCHEMA].

Record EvolutionPolicy : Set := {
  ey_require_governance_for_high_impact : bool;
  ey_require_approval_for_high_impact : bool;
  ey_require_approval_for_platform_core : bool;
  ey_auto_approve_when_governance_allow : bool;
}.
Definition default_policy : EvolutionPolicy := {|
  ey_require_governance_for_high_impact := true; ey_require_approval_for_high_impact := true;
  ey_require_approval_for_platform_core := true; ey_auto_approve_when_governance_allow := true |}.

Record SelfEvolutionEngine : Set := {
  se_world : World;
  se_history : EvolutionHistory;
  se_policy : EvolutionPolicy;
  se_proposals : list (string * EvolutionProposal);
  se_candidates : list (string * CandidateArchitecture);
  se_simulations : list (string * SimulationResult);
  se_promotions : list (string * nat);
  se_heap : list PromotionRecord;
}.
Definition new_self_engine (policy : EvolutionPolicy) (w : World) : SelfEvolutionEngine := {|
  se_world := w; se_history := empty_history; se_policy := policy; se_proposals := [];
  se_candidates := []; se_simulations := []; se_promotions := []; se_heap := [] |}.

(** ** Assignments *)

Definition put_se_world (w : World) (s : SelfEvolutionEngine) : SelfEvolutionEngine := {|
  se_world := w; se_history := se_history s; se_policy := se_policy s; se_proposals := se_proposals s;
  se_candidates := se_candidates s; se_simulations := se_simulations s; se_promotions := se_promotions s;
  se_heap := se_heap s |}.
Definition put_history (h : EvolutionHistory) (s : SelfEvolutionEngine) : SelfEvolutionEngine := {|
  se_world := se_world s; se_history := h; se_policy := se_policy s; se_proposals := se_proposals s;
  se_candidates := se_candidates s; se_simulations := se_simulations s; se_promotions := se_promotions s;
  se_heap := se_heap s |}.
Definition put_proposals (ps : list (string * EvolutionProposal)) (s : SelfEvolutionEngine) : SelfEvolutionEngine := {|
  se_world := se_world s; se_history := se_history s; se_policy := se_policy s; se_proposals := ps;
  se_candidates := se_candidates s; se_simulations := se_simulations s; se_promotions := se_promotions s;
  se_heap := se_heap s |}.
Definition put_candidate (c : CandidateArchitecture) (s : SelfEvolutionEngine) : SelfEvolutionEngine := {|
  se_world := se_world s; se_history := se_history s; se_policy := se_policy s; se_proposals := se_proposals s;
  se_candidates := dset (ca_id c) c (se_candidates s); se_simulations := se_simulations s;
  se_promotions := se_promotions s; se_heap := se_heap s |}.
Definition put_simulation (r : SimulationResult) (s : SelfEvolutionEngine) : SelfEvolutionEngine := {|
  se_world := se_world s; se_history := se_history s; se_policy := se_policy s; se_proposals := se_proposals s;
  se_candidates := se_candidates s; se_simulations := dset (sm_id r) r (se_simulations s);
  se_promotions := se_promotions s; se_heap := se_heap s |}.
(** A new promotion record, at the next address. *)
Definition alloc_promotion (r : PromotionRecord) (s : SelfEvolutionEngine) : SelfEvolutionEngine := {|
  se_world := se_world s; se_history := se_history s; se_policy := se_policy s; se_proposals := se_proposals s;
  se_candidates := se_candidates s; se_simulations := se_simulations s;
  se_promotions := dset (pm_id r) (length (se_heap s)) (se_promotions s); se_heap := se_heap s ++ [r] |}.
Definition store_promotion (a : nat) (r : PromotionRecord) (s : SelfEvolutionEngine) : SelfEvolutionEngine := {|
  se_world := se_world s; se_history := se_history s; se_policy := se_policy s; se_proposals := se_proposals s;
  se_candidates := se_candidates s; se_simulations := se_simulations s; se_promotions := se_promotions s;
  se_heap := <[a := r]> (se_heap s) |}.

(** Attributes of a proposal. *)
Definition set_status (st : ProposalStatus) (error : option string) (p : EvolutionProposal) : EvolutionProposal := {|
  ep_id := ep_id p; ep_status := st; ep_request := ep_request p; ep_candidate_ids := ep_candidate_ids p;
  ep_simulation_ids := ep_simulation_ids p; ep_verification := ep_verification p; ep_fitness := ep_fitness p;
  ep_governance_decision := ep_governance_decision p; ep_approval := ep_approval p; ep_promotion := ep_promotion p;
  ep_selected_candidate_id := ep_selected_candidate_id p; ep_error := error; ep_created_at := ep_created_at p;
  ep_updated_at := ep_updated_at p |}.
Definition set_updated (t : string) (p : EvolutionProposal) : EvolutionProposal := {|
  ep_id := ep_id p; ep_status := ep_status p; ep_request := ep_request p; ep_candidate_ids := ep_candidate_ids p;
  ep_simulation_ids := ep_simulation_ids p; ep_verification := ep_verification p; ep_fitness := ep_fitness p;
  ep_governance_decision := ep_governance_decision p; ep_approval := ep_approval p; ep_promotion := ep_promotion p;
  ep_selected_candidate_id := ep_selected_candidate_id p; ep_error := ep_error p; ep_created_at := ep_created_at p;
  ep_updated_at := t |}.
Definition set_candidates (ids : list string) (p : EvolutionProposal) : EvolutionProposal := {|
  ep_id := ep_id p; ep_status := ep_status p; ep_request := ep_request p; ep_candidate_ids := ids;
  ep_simulation_ids := ep_simulation_ids p; ep_verification := ep_verification p; ep_fitness := ep_fitness p;
  ep_governance_decision := ep_governance_decision p; ep_approval := ep_approval p; ep_promotion := ep_promotion p;
  ep_selected_candidate_id := ep_selected_candidate_id p; ep_error := ep_error p; ep_created_at := ep_created_at p;
  ep_updated_at := ep_updated_at p |}.
Definition set_simulations (ids : list string) (p : EvolutionProposal) : EvolutionProposal := {|
  ep_id := ep_id p; ep_status := ep_status p; ep_request := ep_request p; ep_candidate_ids := ep_candidate_ids p;
  ep_simulation_ids := ids; ep_verification := ep_verification p; ep_fitness := ep_fitness p;
  ep_governance_decision := ep_governance_decision p; ep_approval := ep_approval p; ep_promotion := ep_promotion p;
  ep_selected_candidate_id := ep_selected_candidate_id p; ep_error := ep_error p; ep_created_at := ep_created_at p;
  ep_updated_at := ep_updated_at p |}.
(** [verification], [fitness], [governance_decision], [approval], [promotion]. *)
Definition set_reports (v : option VerificationReport) (f : option FitnessEvaluation) (p : EvolutionProposal) : EvolutionProposal := {|
  ep_id := ep_id p; ep_status := ep_status p; ep_request := ep_request p; ep_candidate_ids := ep_candidate_ids p;
  ep_simulation_ids := ep_simulation_ids p; ep_verification := v; ep_fitness := f;
  ep_governance_decision := ep_governance_decision p; ep_approval := ep_approval p; ep_promotion := ep_promotion p;
  ep_selected_candidate_id := ep_selected_candidate_id p; ep_error := ep_error p; ep_created_at := ep_created_at p;
  ep_updated_at := ep_updated_at p |}.
Definition set_verdicts (d : option GovernanceDecision) (a : option ApprovalRecord) (m : option nat) (p : EvolutionProposal) : EvolutionProposal := {|
  ep_id := ep_id p; ep_status := ep_status p; ep_request := ep_request p; ep_candidate_ids := ep_candidate_ids p;
  ep_simulation_ids := ep_simulation_ids p; ep_verification := ep_verification p; ep_fitness := ep_fitness p;
  ep_governance_decision := d; ep_approval := a; ep_promotion := m;
  ep_selected_candidate_id := ep_selected_candidate_id p; ep_error := ep_error p; ep_created_at := ep_created_at p;
  ep_updated_at := ep_updated_at p |}.
Definition set_selected (c : option string) (p : EvolutionProposal) : EvolutionProposal := {|
  ep_id := ep_id p; ep_status := ep_status p; ep_request := ep_request p; ep_candidate_ids := ep_candidate_ids p;
  ep_simulation_ids := ep_simulation_ids p; ep_verification := ep_verification p; ep_fitness := ep_fitness p;
  ep_governance_decision := ep_governance_decision p; ep_approval := ep_approval p; ep_promotion := ep_promotion p;
  ep_selected_candidate_id := c; ep_error := ep_error p; ep_created_at := ep_created_at p;
  ep_updated_at := ep_updated_at p |}.

Section Engine.
Context `{Surroundings, Digests, !Parts}.

Definition in_world {A} (m : M World A) : M SelfEvolutionEngine A := zoom se_world put_se_world m.
Definition stamp : M SelfEvolutionEngine string := in_world timestamp.

(** [self.history.record(...)]. *)
Definition record_event (proposal_id event_type actor_id : string) (details : pydict) : M SelfEvolutionEngine unit :=
  t ← stamp;
  h ← gets se_history;
  modify (put_history (append_history (make_event proposal_id event_type actor_id details t (hi_last_event_hash h)) h)).

(** [p.x = ...] on the proposal found under an id. *)
Definition update_proposal (proposal_id : string) (f : EvolutionProposal -> EvolutionProposal) :
    M SelfEvolutionEngine unit :=
  modify (fun s => match dget proposal_id (se_proposals s) with
                   | Some p => put_proposals (dset proposal_id (f p) (se_proposals s)) s
                   | None => s
                   end).
(** [proposal.updated_at = utcnow().isoformat()]. *)
Definition touch (proposal_id : string) : M SelfEvolutionEngine unit :=
  t ← stamp; update_proposal proposal_id (set_updated t).

Definition get_proposal (proposal_id : string) : M SelfEvolutionEngine EvolutionProposal :=
  ps ← gets se_proposals;
  match dget proposal_id ps with
  | Some p => mret p
  | None => raise (ProposalNotFoundError ("Evolution proposal not found: " +:+ proposal_id))
  end.
Definition latest_candidate (p : EvolutionProposal) : M SelfEvolutionEngine CandidateArchitecture :=
  cs ← gets se_candidates;
  let selected := if otruthy (ep_selected_candidate_id p) then dget (or_empty (ep_selected_candidate_id p)) cs else None in
  match selected with
  | Some c => mret c
  | None =>
      match last (ep_candidate_ids p) with
      | None => raise (InvalidStateError "Proposal has no candidates.")
      | Some id => match dget id cs with
                   | Some c => mret c
                   | None => raise (InvalidStateError ("Candidate not found: " +:+ id))
                   end
      end
  end.
Definition latest_simulation (p : EvolutionProposal) : M SelfEvolutionEngine SimulationResult :=
  ss ← gets se_simulations;
  match last (ep_simulation_ids p) with
  | None => raise (InvalidStateError "Proposal has no simulations.")
  | Some id => match dget id ss with
               | Some r => mret r
               | None => raise (InvalidStateError ("Simulation not found: " +:+ id))
               end
  end.
(** The guard of a step. *)
Definition require_status (allowed : list ProposalStatus) (msg : string) (p : EvolutionProposal) :
    M SelfEvolutionEngine unit :=
  when (negb (mem (ep_status p) allowed)) (raise (InvalidStateError msg)).

(** ** Proposal, mutation, simulation, verification, fitness *)

(** [if not spec.id: spec.id = deterministic_id(...)]. *)
Definition with_mutation_id (m : MutationSpec) : MutationSpec :=
  if otruthy (ms_id m) then m
  else {| ms_id := Some (deterministic_id "mutation" (dump_mutation m)); ms_operator := ms_operator m;
          ms_chromosome_family := ms_chromosome_family m; ms_gene_id := ms_gene_id m;
          ms_operations := ms_operations m; ms_rationale := ms_rationale m |}.
Definition with_mutation (m : MutationSpec) (r : EvolutionProposalRequest) : EvolutionProposalRequest := {|
  rq_title := rq_title r; rq_description := rq_description r; rq_target_type := rq_target_type r;
  rq_target_ref := rq_target_ref r; rq_base_isr := rq_base_isr r; rq_mutation := m;
  rq_high_impact := rq_high_impact r; rq_allow_breaking_changes := rq_allow_breaking_changes r;
  rq_environment := rq_environment r |}.

Definition propose (request : EvolutionProposalRequest) (actor_id : string) : M SelfEvolutionEngine EvolutionProposal :=
  created_at ← stamp;
  let request := with_mutation (with_mutation_id (rq_mutation request)) request in
  let base_isr_hash := digest (VDict (rq_base_isr request)) in
  let proposal_id := deterministic_id "evolution_proposal"
    [("title", VStr (rq_title request)); ("target_type", VStr (target_type_value (rq_target_type request)));
     ("target_ref", VStr (rq_target_ref request)); ("base_isr_hash", VStr base_isr_hash);
     ("mutation_id", opt_str (ms_id (rq_mutation request))); ("created_at", VStr created_at)] in
  let proposal := {|
    ep_id := proposal_id; ep_status := DRAFT; ep_request := request; ep_candidate_ids := [];
    ep_simulation_ids := []; ep_verification := None; ep_fitness := None; ep_governance_decision := None;
    ep_approval := None; ep_promotion := None; ep_selected_candidate_id := None; ep_error := None;
    ep_created_at := created_at; ep_updated_at := created_at |} in
  _ ← modify (fun s => put_proposals (dset proposal_id proposal (se_proposals s)) s);
  _ ← record_event proposal_id "proposal_created" actor_id
        [("title", VStr (rq_title request)); ("target_type", VStr (target_type_value (rq_target_type request)))];
  mret proposal.

(** The candidate of a mutated ISR; the record refuses a missing mutation id. *)
Definition make_candidate (proposal_id : string) (spec : MutationSpec) (base_isr mutated_isr : pydict) :
    M SelfEvolutionEngine CandidateArchitecture :=
  let content_hash := digest (VDict mutated_isr) in
  let candidate_id := deterministic_id "candidate"
    [("proposal_id", VStr proposal_id); ("mutation_id", opt_str (ms_id spec)); ("content_hash", VStr content_hash)] in
  created_at ← stamp;
  match ms_id spec with
  | None => raise (ValueError "1 validation error for CandidateArchitecture")
  | Some spec_id =>
      mret {| ca_id := candidate_id; ca_proposal_id := proposal_id; ca_mutation_spec_id := spec_id;
              ca_base_isr_hash := digest (VDict base_isr); ca_content_hash := content_hash;
              ca_isr := mutated_isr; ca_created_at := created_at |}
  end.

Definition mutate (proposal_id actor_id : string) : M SelfEvolutionEngine CandidateArchitecture :=
  p ← get_proposal proposal_id;
  _ ← require_status [DRAFT; FAILED] "Mutation is only allowed for DRAFT or FAILED proposals." p;
  let base_isr := rq_base_isr (ep_request p) in
  let spec := rq_mutation (ep_request p) in
  mutated_isr ← try_catch (in_world (part_mutation base_isr spec)) (fun e =>
    match e with
    | MutationError msg =>
        _ ← update_proposal proposal_id (set_status FAILED (Some msg));
        _ ← touch proposal_id;
        _ ← record_event proposal_id "mutation_failed" actor_id [("error", VStr msg)];
        raise e
    | _ => raise e
    end);
  candidate ← make_candidate proposal_id spec base_isr mutated_isr;
  _ ← modify (put_candidate candidate);
  _ ← update_proposal proposal_id (fun p =>
        set_status MUTATED None (set_candidates (ep_candidate_ids p ++ [ca_id candidate]) p));
  _ ← touch proposal_id;
  _ ← record_event proposal_id "candidate_mutated" actor_id [("candidate_id", VStr (ca_id candidate))];
  mret candidate.

Definition simulate (proposal_id actor_id : string) : M SelfEvolutionEngine SimulationResult :=
  p ← get_proposal proposal_id;
  _ ← require_status [MUTATED] "Simulation is only allowed after mutation." p;
  candidate ← latest_candidate p;
  simulation ← in_world (part_simulator candidate);
  _ ← modify (put_simulation simulation);
  _ ← update_proposal proposal_id (fun p =>
        let p := set_simulations (ep_simulation_ids p ++ [sm_id simulation]) p in
        if bool_decide (sm_status simulation = "FAILED")
        then set_status FAILED (Some "Architecture simulation failed.") p
        else set_status SIMULATED None p);
  _ ← touch proposal_id;
  _ ← record_event proposal_id "simulation_completed" actor_id
        [("simulation_id", VStr (sm_id simulation)); ("status", VStr (sm_status simulation))];
  mret simulation.

Definition verify (proposal_id actor_id : string) : M SelfEvolutionEngine VerificationReport :=
  p ← get_proposal proposal_id;
  _ ← require_status [SIMULATED] "Verification is only allowed after successful simulation." p;
  candidate ← latest_candidate p;
  verification ← in_world (part_verifier candidate p);
  _ ← update_proposal proposal_id (fun p =>
        let p := set_reports (Some verification) (ep_fitness p) p in
        if vf_valid verification then set_status VERIFIED None p
        else set_status FAILED (Some "Verification failed.") p);
  _ ← touch proposal_id;
  _ ← record_event proposal_id "verification_completed" actor_id [("valid", VBool (vf_valid verification))];
  mret verification.

Definition evaluate_fitness (proposal_id actor_id : string) : M SelfEvolutionEngine FitnessEvaluation :=
  p ← get_proposal proposal_id;
  _ ← require_status [VERIFIED] "Fitness evaluation is only allowed after verification." p;
  candidate ← latest_candidate p;
  simulation ← latest_simulation p;
  fitness ← in_world (part_fitness candidate simulation (ep_verification p));
  _ ← update_proposal proposal_id (fun p =>
        let p := set_reports (ep_verification p) (Some fitness) p in
        if fe_passed fitness then set_status EVALUATED None p
        else set_status FAILED (Some "Fitness constraints were not satisfied.") p);
  _ ← touch proposal_id;
  _ ← record_event proposal_id "fitness_evaluated" actor_id
        [("fitness_id", VStr (fe_id fitness)); ("passed", VBool (fe_passed fitness))];
  mret fitness.

(** ** Approval *)

Definition high_impact (r : EvolutionProposalRequest) : bool :=
  rq_high_impact r || mem (rq_target_type r) HIGH_IMPACT_TARGETS.
Definition approval_context (p : EvolutionProposal) : pydict :=
  [("proposal_id", VStr (ep_id p)); ("title", VStr (rq_title (ep_request p)));
   ("target_type", VStr (target_type_value (rq_target_type (ep_request p))));
   ("target_ref", VStr (rq_target_ref (ep_request p))); ("high_impact", VBool (high_impact (ep_request p)));
   ("fitness", match ep_fitness p with Some f => dump_fitness f | None => VNone end);
   ("verification", match ep_verification p with Some v => dump_verification v | None => VNone end)].
Definition decide_governance (policy : EvolutionPolicy) (p : EvolutionProposal) : M World GovernanceDecision :=
  match part_governance with
  | Some client => client p (approval_context p)
  | None =>
      if high_impact (ep_request p) && ey_require_governance_for_high_impact policy
      then mret (plain_decision "DENY" "Governance client is unavailable for high-impact evolution.")
      else mret (plain_decision "ALLOW" "Governance client is not configured.")
  end.
Definition forced_approval (policy : EvolutionPolicy) (r : EvolutionProposalRequest) : bool :=
  high_impact r && (ey_require_approval_for_high_impact policy
    || (bool_decide (rq_target_type r = PLATFORM_CORE) && ey_require_approval_for_platform_core policy)).
(** The status and the error that follow a decision. *)
Definition submitted (policy : EvolutionPolicy) (d : GovernanceDecision) (p : EvolutionProposal) : EvolutionProposal :=
  if bool_decide (gd_decision d = "DENY") then set_status REJECTED (Some (gd_reason d)) p
  else if bool_decide (gd_decision d = "REQUIRE_APPROVAL") then set_status PENDING_APPROVAL (ep_error p) p
  else if forced_approval policy (ep_request p) then set_status PENDING_APPROVAL (ep_error p) p
  else if ey_auto_approve_when_governance_allow policy then set_status APPROVED (ep_error p) p
  else set_status PENDING_APPROVAL (ep_error p) p.

Definition submit_for_approval (proposal_id actor_id : string) : M SelfEvolutionEngine EvolutionProposal :=
  p ← get_proposal proposal_id;
  _ ← require_status [EVALUATED] "Approval submission is only allowed after fitness evaluation." p;
  policy ← gets se_policy;
  decision ← in_world (decide_governance policy p);
  _ ← update_proposal proposal_id (fun p =>
        submitted policy decision (set_verdicts (Some decision) (ep_approval p) (ep_promotion p) p));
  _ ← touch proposal_id;
  p ← get_proposal proposal_id;
  _ ← record_event proposal_id "approval_submitted" actor_id
        [("decision", VStr (gd_decision decision)); ("status", VStr (proposal_status_value (ep_status p)))];
  get_proposal proposal_id.

Definition approve (proposal_id approver_id decision comments : string) : M SelfEvolutionEngine EvolutionProposal :=
  p ← get_proposal proposal_id;
  _ ← require_status [PENDING_APPROVAL] "Approval is only allowed for PENDING_APPROVAL proposals." p;
  _ ← when (negb (mem decision ["APPROVED"; "REJECTED"]))
        (raise (InvalidStateError "Approval decision must be APPROVED or REJECTED."));
  created_at ← stamp;
  let approval := {| ap_approver_id := approver_id; ap_decision := decision; ap_comments := comments;
                     ap_governance_ref := None; ap_created_at := created_at |} in
  _ ← update_proposal proposal_id (fun p =>
        let p := set_verdicts (ep_governance_decision p) (Some approval) (ep_promotion p) p in
        if bool_decide (decision = "APPROVED") then set_status APPROVED None p
        else set_status REJECTED (Some (if truthy comments then comments else "Proposal rejected by approver.")) p);
  _ ← touch proposal_id;
  _ ← record_event proposal_id "approval_decided" approver_id [("decision", VStr decision)];
  get_proposal proposal_id.

(** ** Promotion *)

Definition rollback_steps : list string :=
  ["Restore parent ISR hash as authoritative ISR."; "Mark promoted candidate as rolled back.";
   "Emit rollback audit event."; "Notify governed systems."].
Definition new_promotion (proposal_id environment : string) (c : CandidateArchitecture) (t : string) : PromotionRecord := {|
  pm_id := deterministic_id "promotion" [("proposal_id", VStr proposal_id); ("candidate_id", VStr (ca_id c));
                                         ("environment", VStr environment)];
  pm_proposal_id := proposal_id; pm_candidate_id := ca_id c; pm_environment := environment;
  pm_promoted_content_hash := ca_content_hash c;
  pm_rollback_plan := {| rp_parent_isr_hash := ca_base_isr_hash c; rp_steps := rollback_steps; rp_automated := false |};
  pm_compilation_ref := None; pm_status := "ACTIVE"; pm_rolled_back_at := None; pm_rollback_reason := None;
  pm_created_at := t |}.

Definition promote (proposal_id environment actor_id : string) : M SelfEvolutionEngine PromotionRecord :=
  p ← get_proposal proposal_id;
  _ ← require_status [APPROVED] "Promotion is only allowed for APPROVED proposals." p;
  _ ← when (negb (match ep_verification p with Some v => vf_valid v | None => false end))
        (raise (InvalidStateError "Cannot promote without valid verification."));
  _ ← when (negb (match ep_fitness p with Some f => fe_passed f | None => false end))
        (raise (InvalidStateError "Cannot promote without passing fitness evaluation."));
  candidate ← latest_candidate p;
  t ← stamp;
  let promotion := new_promotion proposal_id environment candidate t in
  address ← gets (fun s => length (se_heap s));
  _ ← modify (alloc_promotion promotion);
  _ ← update_proposal proposal_id (fun p =>
        set_status PROMOTED (ep_error p)
          (set_verdicts (ep_governance_decision p) (ep_approval p) (Some address) p));
  _ ← touch proposal_id;
  _ ← record_event proposal_id "promotion_completed" actor_id
        [("promotion_id", VStr (pm_id promotion)); ("environment", VStr environment)];
  mret promotion.

Definition rolled_back (t reason : string) (r : PromotionRecord) : PromotionRecord := {|
  pm_id := pm_id r; pm_proposal_id := pm_proposal_id r; pm_candidate_id := pm_candidate_id r;
  pm_environment := pm_environment r; pm_promoted_content_hash := pm_promoted_content_hash r;
  pm_rollback_plan := pm_rollback_plan r; pm_compilation_ref := pm_compilation_ref r;
  pm_status := "ROLLED_BACK"; pm_rolled_back_at := Some t; pm_rollback_reason := Some reason;
  pm_created_at := pm_created_at r |}.
Definition find_promotion (promotion_id : string) (s : SelfEvolutionEngine) : option (nat * PromotionRecord) :=
  a ← dget promotion_id (se_promotions s); r ← se_heap s !! a; Some (a, r).
Definition rollback (promotion_id reason actor_id : string) : M SelfEvolutionEngine PromotionRecord :=
  found ← gets (find_promotion promotion_id);
  match found with
  | None => raise (ProposalNotFoundError ("Promotion not found: " +:+ promotion_id))
  | Some (a, r) =>
      if bool_decide (pm_status r <> "ACTIVE")
      then raise (InvalidStateError "Only active promotions can be rolled back.")
      else
        t ← stamp;
        let r := rolled_back t reason r in
        _ ← modify (store_promotion a r);
        ps ← gets se_proposals;
        match dget (pm_proposal_id r) ps with
        | None => mret r
        | Some p =>
            _ ← update_proposal (pm_proposal_id r) (fun p => set_status ROLLED_BACK (ep_error p) p);
            _ ← touch (pm_proposal_id r);
            _ ← record_event (ep_id p) "rollback_completed" actor_id
                  [("promotion_id", VStr promotion_id); ("reason", VStr reason)];
            mret r
        end
  end.

(** ** Metrics *)

Definition count_status (counts : list (string * Z)) (p : EvolutionProposal) : list (string * Z) :=
  let k := proposal_status_value (ep_status p) in dset k (dget_or k counts 0 + 1) counts.
Definition metrics (s : SelfEvolutionEngine) : pydict :=
  let count {A} (xs : list A) := VInt (Z.of_nat (length xs)) in
  [("proposal_count", count (se_proposals s)); ("candidate_count", count (se_candidates s));
   ("simulation_count", count (se_simulations s)); ("promotion_count", count (se_promotions s));
   ("status_counts", VDict (map (fun p => (p.1, VInt p.2)) (fold_left count_status (dvalues (se_proposals s)) [])));
   ("history_event_count", count (hi_events (se_history s)))].
End Engine.
