(* ===== verification/SelfParts.v ===== *)
(** * Self-evolution: the parts the engine comes with

    [evolution/mutation.py], [evolution/simulation.py], [evolution/verification.py],
    [evolution/fitness.py], [evolution/governance_fitness_evaluator.py],
    [evolution/core/governance_design.py], [evolution/core/governance_fitness.py] and
    the readers of an ISR in [evolution/utils.py].  An ISR is a document that is
    copied before it is changed; the result of a mutation shares the values of its
    operations with the request, so a later operation on a path below one of them
    changes the request too: here the result is right and the request is left as it
    was. *)

From Stdlib Require Import SpecFloat.
From S2P Require Import Prelude PyFloat PyVal PyText PyJson IsrModel IsrValidation EvoModels Pareto SelfModels SelfEngine.
Open Scope Z_scope.

(** ** Reading an ISR

    A generator yields items and ends, or raises after some of them. *)
Definition gen (A : Type) : Type := list A * option exn.
Definition gen_of {A} (r : res (list A)) : gen A :=
  match r with Ok xs => (xs, None) | Raise e => ([], Some e) end.
(** One generator after the other. *)
Definition gen_app {A} (g1 g2 : gen A) : gen A :=
  match g1 with (xs, None) => (xs ++ g2.1, g2.2) | (xs, Some e) => (xs, Some e) end.
Fixpoint gen_concat {A B} (f : A -> gen B) (xs : list A) : gen B :=
  match xs with [] => ([], None) | x :: xs => gen_app (f x) (gen_concat f xs) end.
(** [for x in g: yield from f x]. *)
Definition gen_bind {A B} (g : gen A) (f : A -> gen B) : gen B := gen_app (gen_concat f g.1) ([], g.2).
(** [list(g)]. *)
Definition gen_list {A} (g : gen A) : res (list A) := match g with (xs, None) => Ok xs | (_, Some e) => Raise e end.

(** [d.get(k, []) or []]. *)
Definition get_or_empty (k : string) (d : pydict) : pyval :=
  let v := dget_or k d (VList []) in if val_truthy v then v else VList [].
(** The service of an item: a dict, or the name of one. *)
Definition as_service (v : pyval) : gen pydict :=
  match v with
  | VDict d => ([d], None)
  | VStr s => ([[("name", VStr s)]], None)
  | _ => ([], None)
  end.
Definition services_in (d : pydict) : gen pydict := gen_bind (gen_of (iter_of (get_or_empty "services" d))) as_service.
Definition iter_services (isr : pydict) : gen pydict :=
  gen_app (gen_bind (gen_of (iter_of (get_or_empty "domains" isr)))
             (fun domain => match domain with VDict d => services_in d | _ => ([], None) end))
    (services_in isr).
Definition models_in (d : pydict) : gen pyval := gen_of (iter_of (get_or_empty "data_models" d)).
Definition iter_data_models (isr : pydict) : gen pyval := gen_app (models_in isr) (gen_bind (iter_services isr) models_in).

Section Names.
Context `{Texts}.
Definition api_names (v : pyval) : gen string :=
  match v with
  | VStr s => ([s], None)
  | VDict d => let name := dget_or "name" d VNone in if val_truthy name then ([text_of name], None) else ([], None)
  | _ => ([], None)
  end.
(** A set, as the list of its members. *)
Definition collect_api_names (isr : pydict) : res (list string) :=
  gen_list (gen_bind (gen_bind (iter_services isr) (fun s => gen_of (iter_of (get_or_empty "apis" s)))) api_names).
End Names.

(** ** MutationEngine *)

Definition split_path (path : string) : list string := List.filter truthy (split_dot path).
(** The position a segment names in a list. *)
Definition list_index (segment : string) : res Z :=
  match py_int segment with
  | Ok n => Ok n
  | Raise _ => Raise (MutationError ("List index must be numeric: " +:+ segment))
  end.
Definition in_range (segment : string) (vs : list pyval) : res nat :=
  n ← list_index segment;
  if (n <? 0) || (Z.of_nat (length vs) <=? n) then Raise (MutationError ("List index out of range: " +:+ segment))
  else Ok (Z.to_nat n).
(** The child a segment names, and the container with another child there. *)
Definition child_at (segment : string) (v : pyval) : res (pyval * (pyval -> pyval)) :=
  match v with
  | VDict d => match dget segment d with
               | Some child => Ok (child, fun c => VDict (dset segment c d))
               | None => Raise (MutationError ("Path segment not found: " +:+ segment))
               end
  | VList vs =>
      i ← in_range segment vs;
      Ok (default VNone (vs !! i), fun c => VList (<[i := c]> vs))
  | _ => Raise (MutationError ("Cannot traverse path segment " +:+ segment +:+ " on non-container."))
  end.
(** Change the container at the end of a path. *)
Fixpoint update_at (segments : list string) (f : pyval -> res pyval) (v : pyval) : res pyval :=
  match segments with
  | [] => f v
  | s :: segments =>
      '(child, rebuild) ← child_at s v;
      child' ← update_at segments f child;
      Ok (rebuild child')
  end.
(** Change the parent of a path, given its key. *)
Definition at_parent (path : string) (f : string -> pyval -> res pyval) (v : pyval) : res pyval :=
  let segments := split_path path in
  match last segments with
  | None => Raise (MutationError "Mutation path must not be empty.")
  | Some key => update_at (take (length segments - 1) segments) (f key) v
  end.

Definition set_value (value : pyval) (key : string) (parent : pyval) : res pyval :=
  match parent with
  | VDict d => Ok (VDict (dset key value d))
  | VList vs =>
      n ← list_index key;
      if n =? Z.of_nat (length vs) then Ok (VList (vs ++ [value]))
      else if (0 <=? n) && (n <? Z.of_nat (length vs)) then Ok (VList (<[Z.to_nat n := value]> vs))
      else Raise (MutationError ("List index out of range: " +:+ key))
  | _ => Raise (MutationError "Cannot set value on non-container parent.")
  end.
Definition remove_item (key : string) (parent : pyval) : res pyval :=
  match parent with
  | VDict d => if dmem key d then Ok (VDict (ddel key d)) else Raise (MutationError ("Key not found for removal: " +:+ key))
  | VList vs => i ← in_range key vs; Ok (VList (delete i vs))
  | _ => Raise (MutationError "Cannot remove item from non-container parent.")
  end.
(** [d.update(d')]. *)
Definition dupdate (d d' : pydict) : pydict := fold_left (fun acc kv => dset kv.1 kv.2 acc) d' d.
Definition merge_object (value : pyval) (key : string) (parent : pyval) : res pyval :=
  match parent with
  | VDict d => Ok (VDict (dset key (match dget key d, value with
                                    | Some (VDict existing), VDict new => VDict (dupdate existing new)
                                    | _, _ => value
                                    end) d))
  | _ => Raise (MutationError "MERGE_OBJECT can only be applied to dictionary parents.")
  end.
Definition add_item (path : string) (value container : pyval) : res pyval :=
  match container with
  | VList vs => Ok (VList (vs ++ [value]))
  | _ => Raise (MutationError ("ADD_ITEM target path must be a list: " +:+ path))
  end.
Definition apply_operation (o : MutationOperationSpec) (candidate : pyval) : res pyval :=
  match os_operation o with
  | SET_VALUE => at_parent (os_path o) (set_value (os_value o)) candidate
  | ADD_ITEM => update_at (split_path (os_path o)) (add_item (os_path o) (os_value o)) candidate
  | REMOVE_ITEM => at_parent (os_path o) remove_item candidate
  | MERGE_OBJECT => at_parent (os_path o) (merge_object (os_value o)) candidate
  end.
Fixpoint apply_operations (os : list MutationOperationSpec) (candidate : pyval) : res pyval :=
  match os with
  | [] => Ok candidate
  | o :: os => c ← apply_operation o candidate; apply_operations os c
  end.
Definition baseline_governance_design : pydict :=
  [("design_id", VStr "baseline_governance_v1"); ("voting_rule", VStr "simple_majority"); ("quorum", VInt 1);
   ("approval_stage_count", VInt 1); ("policy_rule_count", VInt 3); ("fail_closed_default", VBool true);
   ("exception_max_severity", VStr "high"); ("exception_review_required", VBool true);
   ("audit_chaining_required", VBool true); ("compliance_evaluation_required", VBool true);
   ("versioning_strategy", VStr "semver_chain")].
(** [d.setdefault(k, v)]. *)
Definition dsetdefault (k : string) (v : pyval) (d : pydict) : pydict := if dmem k d then d else dset k v d.
Definition mutation_entry (spec : MutationSpec) : pyval :=
  VDict [("mutation_id", opt_str (ms_id spec)); ("operator", VStr (ms_operator spec));
         ("chromosome_family", VStr (ms_chromosome_family spec)); ("gene_id", VStr (ms_gene_id spec));
         ("rationale", VStr (ms_rationale spec))].
(** [candidate["evolution"]["mutations"].append(...)], with its defaults. *)
Definition record_provenance (spec : MutationSpec) (candidate : pydict) : res pydict :=
  let candidate := dsetdefault "evolution" (VDict []) candidate in
  match dget_or "evolution" candidate VNone with
  | VDict evolution =>
      let evolution := dsetdefault "mutations" (VList []) evolution in
      match dget_or "mutations" evolution VNone with
      | VList mutations =>
          Ok (dset "evolution" (VDict (dset "mutations" (VList (mutations ++ [mutation_entry spec])) evolution)) candidate)
      | v => Raise (AttributeError ("'" +:+ type_name v +:+ "' object has no attribute 'append'"))
      end
  | v => Raise (AttributeError ("'" +:+ type_name v +:+ "' object has no attribute 'setdefault'"))
  end.
Definition apply_mutation (base_isr : pydict) (spec : MutationSpec) : res pydict :=
  candidate ← apply_operations (ms_operations spec) (VDict base_isr);
  match candidate with
  | VDict d =>
      d ← record_provenance spec d;
      Ok (dsetdefault "governance" (VDict baseline_governance_design) d)
  | _ => Raise (AttributeError ("'" +:+ type_name candidate +:+ "' object has no attribute 'setdefault'"))
  end.

(** ** ArchitectureSimulator *)

Inductive Color : Set := WHITE | GRAY | BLACK.
#[export] Instance Color_eq_dec : EqDecision Color.
Proof. solve_decision. Defined.
Abbreviation dgraph := (list (string * list string)).
Abbreviation colors := (list (string * Color)).

(** The loop over the neighbors of a node, which is black at its end. *)
Fixpoint visit_each (graph : dgraph) (visit : colors -> string -> option (bool * colors)) (node : string)
    (neighbors : list string) (color : colors) : option (bool * colors) :=
  match neighbors with
  | [] => Some (false, dset node BLACK color)
  | n :: neighbors =>
      if negb (dmem n graph) then visit_each graph visit node neighbors color
      else match dget_or n color WHITE with
           | GRAY => Some (true, color)
           | BLACK => visit_each graph visit node neighbors color
           | WHITE => match visit color n with
                      | Some (false, color) => visit_each graph visit node neighbors color
                      | r => r
                      end
           end
  end.
(** [visit]; the depth of its recursion is bounded by the number of nodes. *)
Fixpoint visit (graph : dgraph) (fuel : nat) (color : colors) (node : string) : option (bool * colors) :=
  match fuel with
  | O => None
  | S fuel => visit_each graph (visit graph fuel) node (dget_or node graph []) (dset node GRAY color)
  end.
Fixpoint visit_all (graph : dgraph) (nodes : list string) (color : colors) : option bool :=
  match nodes with
  | [] => Some false
  | n :: nodes =>
      if bool_decide (dget_or n color WHITE = WHITE)
      then match visit graph (S (length graph)) color n with
           | Some (false, color) => visit_all graph nodes color
           | Some (true, _) => Some true
           | None => None
           end
      else visit_all graph nodes color
  end.
Definition has_dependency_cycle (graph : dgraph) : option bool :=
  visit_all graph (dkeys graph) (map (fun n => (n, WHITE)) (dkeys graph)).

(** [len(v)]. *)
Definition py_len (v : pyval) : res Z :=
  match v with
  | VStr s => Ok (Z.of_nat (String.length s))
  | VList vs => Ok (Z.of_nat (length vs))
  | VDict d => Ok (Z.of_nat (length d))
  | _ => Raise (TypeError ("object of type '" +:+ type_name v +:+ "' has no len()"))
  end.
Definition issue (severity code message : string) : SimulationIssue :=
  {| is_severity := severity; is_code := code; is_message := message |}.
Definition missing_fields (isr : pydict) : list SimulationIssue :=
  concat (map (fun k => if val_truthy (dget_or k isr VNone) then []
                        else [issue "ERROR" "ISR_MISSING_REQUIRED_FIELD" ("ISR is missing required field: " +:+ k)])
            ["isr_id"; "version"; "name"]).
Definition has_error (issues : list SimulationIssue) : bool := existsb (fun i => bool_decide (is_severity i = "ERROR")) issues.

Section Parts.
Context `{Surroundings, Digests, Texts}.

(** The counts and the graph of the services: [(api_count, dependency_count, graph)]. *)
Definition scan_service (acc : Z * Z * dgraph) (service : pydict) : res (Z * Z * dgraph) :=
  let '(apis_so_far, dependencies_so_far, graph) := acc in
  apis ← py_len (get_or_empty "apis" service);
  let dependencies := get_or_empty "depends_on" service in
  count ← py_len dependencies;
  let name := dget_or "name" service VNone in
  if val_truthy name then
    names ← iter_of dependencies;
    Ok (apis_so_far + apis, dependencies_so_far + count, dset (text_of name) (map text_of names) graph)
  else Ok (apis_so_far + apis, dependencies_so_far + count, graph).
Fixpoint scan_services (services : list pydict) (acc : Z * Z * dgraph) : res (Z * Z * dgraph) :=
  match services with
  | [] => Ok acc
  | s :: services => acc ← scan_service acc s; scan_services services acc
  end.

(** The search for a cycle does not run out of fuel; the recursion error stands for
    it if it did.  Python's recursion limit is not modelled. *)
Definition run_simulation (candidate : CandidateArchitecture) : M World SimulationResult :=
  let isr := ca_isr candidate in
  services ← lift_res (gen_list (iter_services isr));
  models ← lift_res (gen_list (iter_data_models isr));
  '(api_count, dependency_count, graph) ← lift_res (scan_services services (0, 0, []));
  match has_dependency_cycle graph with
  | None => raise RecursionError
  | Some cyclic =>
      let issues := missing_fields isr
        ++ (if cyclic then [issue "ERROR" "DEPENDENCY_CYCLE" "Service dependency cycle detected."] else []) in
      let count {A} (xs : list A) := Z.of_nat (length xs) in
      let metrics := [("service_count", VInt (count services)); ("api_count", VInt api_count);
                      ("data_model_count", VInt (count models)); ("dependency_count", VInt dependency_count);
                      ("complexity", VInt (count services + api_count + count models + dependency_count))] in
      let status := if has_error issues then "FAILED" else "PASSED" in
      let id := deterministic_id "simulation"
        [("candidate_id", VStr (ca_id candidate)); ("metrics", VDict metrics); ("issues", VList (map dump_issue issues))] in
      created_at ← timestamp;
      mret {| sm_id := id; sm_candidate_id := ca_id candidate; sm_status := status; sm_metrics := metrics;
              sm_issues := issues; sm_logs := ["Simulation completed with status " +:+ status +:+ "."];
              sm_created_at := created_at |}
  end.

(** ** ConstitutionalVerifier *)

Definition has_provenance (isr : pydict) : res bool :=
  let metadata := dget_or "evolution" isr VNone in
  if val_truthy metadata then ms ← get "mutations" VNone metadata; Ok (val_truthy ms) else Ok false.
Definition removed_names (base candidate : list string) : list string :=
  sort_by str_leb (remove_dups (List.filter (fun x => negb (mem x candidate)) base)).
Definition verification_issues (candidate : CandidateArchitecture) (base_isr : pydict) (allow_breaking : bool) :
    res (list SimulationIssue) :=
  let isr := ca_isr candidate in
  provenance ← has_provenance isr;
  base_names ← collect_api_names base_isr;
  names ← collect_api_names isr;
  let removed := removed_names base_names names in
  Ok (missing_fields isr
      ++ (if bool_decide (ca_content_hash candidate = ca_base_isr_hash candidate)
          then [issue "ERROR" "NO_ARCHITECTURAL_CHANGE" "Candidate ISR is identical to base ISR."] else [])
      ++ (if (provenance : bool) then []
          else [issue "ERROR" "MISSING_EVOLUTION_PROVENANCE" "Candidate ISR does not contain evolution provenance."])
      ++ match removed with
         | [] => []
         | _ => [issue (if allow_breaking then "WARNING" else "ERROR") "PUBLIC_API_REMOVED"
                   ("Public APIs were removed: " +:+ join_with ", " removed)]
         end).
Definition run_verification (candidate : CandidateArchitecture) (p : EvolutionProposal) : M World VerificationReport :=
  issues ← lift_res (verification_issues candidate (rq_base_isr (ep_request p)) (rq_allow_breaking_changes (ep_request p)));
  created_at ← timestamp;
  mret {| vf_candidate_id := ca_id candidate; vf_valid := negb (has_error issues); vf_issues := issues;
          vf_created_at := created_at |}.
End Parts.

(** ** Fitness *)

(** [float(text)]. *)
Class FloatText := { parse_float : string -> option float }.
Section Fitness.
Context `{Surroundings, Digests, Texts, FloatText}.

Definition one : float := of_Z 1.
Definition threshold : float := of_ratio 2 10.
Definition ready (b : bool) : float := if b then one else fzero.
Definition present (k : string) (isr : pydict) : bool := val_truthy (dget_or k isr VNone).
Definition architecture_objectives (isr : pydict) (complexity : float) (valid : bool) : list (string * float) :=
  map (fun p => (p.1, fround p.2 4))
    [("simplicity", fmax2 fzero (fsub one (fdiv complexity (of_Z 50))));
     ("modularity", ready (val_truthy (get_or_empty "domains" isr) || val_truthy (get_or_empty "services" isr)));
     ("security_readiness", ready (present "security" isr)); ("observability_readiness", ready (present "observability" isr));
     ("deployment_readiness", ready (present "deployment" isr)); ("testability", ready (present "testing" isr));
     ("compatibility", ready valid)].
Definition base_fitness (candidate : CandidateArchitecture) (simulation : SimulationResult)
    (verification : option VerificationReport) : M World FitnessEvaluation :=
  complexity ← lift_res (py_float parse_float (dget_or "complexity" (sm_metrics simulation) (VInt 0)));
  valid ← lift_res (match verification with
                    | Some v => Ok (vf_valid v)
                    | None => Raise (AttributeError "'NoneType' object has no attribute 'valid'")
                    end);
  let objectives := architecture_objectives (ca_isr candidate) complexity valid in
  let constraints := [("simulation_passed", bool_decide (sm_status simulation = "PASSED")); ("verification_valid", valid);
                      ("complexity_within_limit", fleb complexity (of_Z 100))] in
  let notes := concat (map (fun p => if fltb p.2 threshold then ["Objective below threshold: " +:+ p.1] else []) objectives) in
  let passed := forallb id (dvalues constraints) && forallb (fun x => fleb threshold x) (dvalues objectives) in
  let fitness_id := deterministic_id "fitness"
    [("candidate_id", VStr (ca_id candidate)); ("objectives", VDict (map (fun p => (p.1, VFloat p.2)) objectives));
     ("constraints", VDict (map (fun p => (p.1, VBool p.2)) constraints))] in
  created_at ← timestamp;
  mret {| fe_id := fitness_id; fe_candidate_id := ca_id candidate; fe_objectives := objectives; fe_constraints := constraints;
          fe_passed := passed; fe_notes := notes; fe_created_at := created_at |}.

(** *** The fitness of a governance design *)

Definition VOTING_RULE_RIGOR : list (string * float) :=
  [("unanimity", one); ("weighted_majority", of_ratio 7 10); ("simple_majority", of_ratio 5 10)].
Definition SEVERITY_TOLERANCE : list (string * float) :=
  [("low", one); ("medium", of_ratio 7 10); ("high", of_ratio 4 10); ("critical", of_ratio 1 10)].
Definition VERSIONING_RIGOR : list (string * float) :=
  [("semver_chain", one); ("date_based", of_ratio 7 10); ("monotonic_counter", of_ratio 5 10)].
Record GovernanceDesignFitnessConfig : Set := {
  gf_max_meaningful_quorum : positive;
  gf_max_meaningful_stages : positive;
  gf_target_policy_rule_count : Z;
  gf_permissive_policy_factor : float;
  gf_no_review_factor : float;
  gf_no_audit_floor : float;
  gf_no_compliance_floor : float;
}.
Definition default_design_config : GovernanceDesignFitnessConfig := {|
  gf_max_meaningful_quorum := 5; gf_max_meaningful_stages := 3; gf_target_policy_rule_count := 10;
  gf_permissive_policy_factor := of_ratio 6 10; gf_no_review_factor := of_ratio 7 10; gf_no_audit_floor := of_ratio 2 10;
  gf_no_compliance_floor := of_ratio 2 10 |}.
Definition ALL_OBJECTIVES : list string :=
  ["constitutional_currency"; "compliance_posture"; "exception_hygiene"; "audit_integrity"; "ratification_rigor"; "policy_coverage"].

(** [n / d] of integers. *)
Definition int_ratio (n : Z) (d : positive) : res float :=
  match of_ratio n d with
  | S754_infinity _ => Raise (OverflowError "integer division result too large for a float")
  | x => Ok x
  end.
(** A validated count, and a required flag. *)
Definition count_of (k : string) (default : Z) (design : pydict) : Z :=
  match dget k design with Some (VInt n) => n | Some _ => default | None => default end.
Definition flag_of (k : string) (design : pydict) : bool := val_truthy (dget_or k design (VBool true)).
Definition text_field (k default : string) (design : pydict) : string := text_of (dget_or k design (VStr default)).

Definition ratification_rigor (config : GovernanceDesignFitnessConfig) (design : pydict) : res float :=
  let voting := dget_or (text_field "voting_rule" "simple_majority" design) VOTING_RULE_RIGOR (of_ratio 5 10) in
  quorum ← int_ratio (count_of "quorum" 1 design) (gf_max_meaningful_quorum config);
  stages ← int_ratio (count_of "approval_stage_count" 1 design) (gf_max_meaningful_stages config);
  Ok (fdiv (fadd (fadd voting (fmin2 one quorum)) (fmin2 one stages)) (of_Z 3)).
Definition policy_coverage (config : GovernanceDesignFitnessConfig) (design : pydict) : res float :=
  coverage ← match gf_target_policy_rule_count config with
             | Zpos target => x ← int_ratio (count_of "policy_rule_count" 0 design) target; Ok (fmin2 one x)
             | _ => Ok one
             end;
  Ok (fmul coverage (if flag_of "fail_closed_default" design then one else gf_permissive_policy_factor config)).
Definition exception_hygiene (config : GovernanceDesignFitnessConfig) (design : pydict) : float :=
  fmul (dget_or (text_field "exception_max_severity" "high" design) SEVERITY_TOLERANCE (of_ratio 4 10))
    (if flag_of "exception_review_required" design then one else gf_no_review_factor config).
Definition audit_integrity (config : GovernanceDesignFitnessConfig) (design : pydict) : float :=
  if flag_of "audit_chaining_required" design then one else gf_no_audit_floor config.
Definition compliance_posture (config : GovernanceDesignFitnessConfig) (design : pydict) : float :=
  if flag_of "compliance_evaluation_required" design then one else gf_no_compliance_floor config.
Definition constitutional_currency (design : pydict) : float :=
  dget_or (text_field "versioning_strategy" "semver_chain" design) VERSIONING_RIGOR (of_ratio 5 10).
Definition evaluate_design (config : GovernanceDesignFitnessConfig) (design : pydict) : res (list (string * float)) :=
  rigor ← ratification_rigor config design;
  coverage ← policy_coverage config design;
  Ok [("ratification_rigor", rigor); ("policy_coverage", coverage); ("exception_hygiene", exception_hygiene config design);
      ("audit_integrity", audit_integrity config design); ("compliance_posture", compliance_posture config design);
      ("constitutional_currency", constitutional_currency design)].
(** An int that is no bool, and at least the bound. *)
Definition int_at_least (bound : Z) (v : pyval) : bool := match v with VInt n => bound <=? n | _ => false end.
Definition validate_design (design : pydict) : bool :=
  match design with [] => false | _ => true end
  && dmem "design_id" design && dmem "voting_rule" design
  && match dget "design_id" design with Some (VStr s) => truthy (strip s) | _ => false end
  && dmem (text_of (dget_or "voting_rule" design VNone)) VOTING_RULE_RIGOR
  && dmem (text_field "exception_max_severity" "high" design) SEVERITY_TOLERANCE
  && dmem (text_field "versioning_strategy" "semver_chain" design) VERSIONING_RIGOR
  && int_at_least 1 (dget_or "quorum" design (VInt 1)) && int_at_least 1 (dget_or "approval_stage_count" design (VInt 1))
  && int_at_least 0 (dget_or "policy_rule_count" design (VInt 0)).
Definition fail_closed_governance_objectives : list (string * float) := map (fun name => (name, fzero)) ALL_OBJECTIVES.
(** Whatever is raised, the objectives are those that fail. *)
Definition governance_objectives_for (config : GovernanceDesignFitnessConfig) (isr : pydict) : list (string * float) :=
  match dget "governance" isr with
  | Some (VDict design) =>
      if validate_design design
      then match evaluate_design config design with Ok objectives => objectives | Raise _ => fail_closed_governance_objectives end
      else fail_closed_governance_objectives
  | _ => fail_closed_governance_objectives
  end.
Definition merge_objectives (base governance : list (string * float)) : list (string * float) :=
  fold_left (fun acc p => dset p.1 p.2 acc) governance base.
Definition governance_fitness (config : GovernanceDesignFitnessConfig) (candidate : CandidateArchitecture)
    (simulation : SimulationResult) (verification : option VerificationReport) : M World FitnessEvaluation :=
  base ← base_fitness candidate simulation verification;
  mret {| fe_id := fe_id base; fe_candidate_id := fe_candidate_id base;
          fe_objectives := merge_objectives (fe_objectives base) (governance_objectives_for config (ca_isr candidate));
          fe_constraints := fe_constraints base; fe_passed := fe_passed base; fe_notes := fe_notes base;
          fe_created_at := fe_created_at base |}.

(** The parts an engine has when none are given. *)
Definition default_parts (client : option GovernanceClient) : Parts := {|
  part_mutation base_isr spec := lift_res (apply_mutation base_isr spec);
  part_simulator := run_simulation;
  part_verifier := run_verification;
  part_fitness := governance_fitness default_design_config;
  part_governance := client |}.
End Fitness.
