(* ===== verification/Genome.v ===== *)
(** * Self-evolution: genomes and the mutations they suggest

    [evolution/genome.py] and [evolution/genome_mutations.py]: feedback moves the
    priorities of the genes of a genome, and the active genes of the highest
    priority choose the mutations of the next generation. *)

From Stdlib Require Import SpecFloat.
From S2P Require Import Prelude PyFloat PyVal PyText PyJson EvoModels SelfModels SelfParts.
Open Scope Z_scope.

(** ** Genes *)

Inductive ChromosomeFamily : Set :=
| ARCHITECTURE | PERSISTENCE | INFRASTRUCTURE | SECURITY | MESSAGING | OBSERVABILITY | AI | TESTING
| DEPLOYMENT | FRONTEND | BACKEND | GOVERNANCE | DOCUMENTATION | PERFORMANCE | RELIABILITY.
#[export] Instance ChromosomeFamily_eq_dec : EqDecision ChromosomeFamily.
Proof. solve_decision. Defined.
Definition family_value (f : ChromosomeFamily) : string :=
  match f with
  | ARCHITECTURE => "Architecture" | PERSISTENCE => "Persistence" | INFRASTRUCTURE => "Infrastructure"
  | SECURITY => "Security" | MESSAGING => "Messaging" | OBSERVABILITY => "Observability" | AI => "AI"
  | TESTING => "Testing" | DEPLOYMENT => "Deployment" | FRONTEND => "Frontend" | BACKEND => "Backend"
  | GOVERNANCE => "Governance" | DOCUMENTATION => "Documentation" | PERFORMANCE => "Performance"
  | RELIABILITY => "Reliability"
  end.
(** The members of the enum in their order. *)
Definition all_families : list ChromosomeFamily :=
  [ARCHITECTURE; PERSISTENCE; INFRASTRUCTURE; SECURITY; MESSAGING; OBSERVABILITY; AI; TESTING; DEPLOYMENT; FRONTEND;
   BACKEND; GOVERNANCE; DOCUMENTATION; PERFORMANCE; RELIABILITY].
Definition OBJECTIVE_TO_CHROMOSOME_FAMILY : list (string * ChromosomeFamily) :=
  [("reliability", RELIABILITY); ("security_posture", SECURITY); ("performance_efficiency", PERFORMANCE);
   ("cost_efficiency", INFRASTRUCTURE); ("user_satisfaction", FRONTEND); ("operational_stability", OBSERVABILITY)].

Record GenomeGene : Set := {
  gn_gene_id : string;
  gn_chromosome_family : ChromosomeFamily;
  gn_description : string;
  gn_priority : float;
  gn_active : bool;
  gn_tags : list string;
}.
Record ArchitecturalGenome : Set := {
  ag_id : string;
  ag_version : Z;
  ag_base_ref : option string;
  ag_genes : list GenomeGene;
  ag_created_at : string;
}.
Record GenePriorityUpdate : Set := {
  gu_gene_id : string;
  gu_chromosome_family : ChromosomeFamily;
  gu_old_priority : float;
  gu_new_priority : float;
  gu_delta : float;
  gu_reason : string;
}.
Record GenomeRefinementPlan : Set := {
  gp_id : string;
  gp_genome_id : string;
  gp_updates : list GenePriorityUpdate;
  gp_new_genes : list string;
  gp_deactivated_genes : list string;
  gp_rationale : string;
  gp_created_at : string;
}.
Record GenomeRefinementPolicy : Set := {
  rf_priority_increment : float;
  rf_max_priority : float;
  rf_min_priority : float;
  rf_default_new_gene_priority : float;
  rf_create_missing_genes : bool;
}.
Definition default_refinement_policy : GenomeRefinementPolicy := {|
  rf_priority_increment := of_ratio 15 100; rf_max_priority := one; rf_min_priority := fzero;
  rf_default_new_gene_priority := of_ratio 5 10; rf_create_missing_genes := true |}.
Record GenomeRefinementRecommendation : Set := {
  gr_id : string;
  gr_objective : string;
  gr_chromosome_family : string;
  gr_gene_id : string;
  gr_action : string;
  gr_rationale : string;
  gr_target_refs : list string;
  gr_signal_ids : list string;
  gr_evidence_refs : list string;
}.

Definition set_priority (p : float) (g : GenomeGene) : GenomeGene := {|
  gn_gene_id := gn_gene_id g; gn_chromosome_family := gn_chromosome_family g; gn_description := gn_description g;
  gn_priority := p; gn_active := gn_active g; gn_tags := gn_tags g |}.
Definition deactivate (g : GenomeGene) : GenomeGene := {|
  gn_gene_id := gn_gene_id g; gn_chromosome_family := gn_chromosome_family g; gn_description := gn_description g;
  gn_priority := gn_priority g; gn_active := false; gn_tags := gn_tags g |}.
Definition dump_gene (g : GenomeGene) : pyval :=
  VDict [("gene_id", VStr (gn_gene_id g)); ("chromosome_family", VStr (family_value (gn_chromosome_family g)));
         ("description", VStr (gn_description g)); ("priority", VFloat (gn_priority g)); ("active", VBool (gn_active g));
         ("tags", VList (map VStr (gn_tags g)))].

(** ** Refinement *)

(** [ChromosomeFamily(text)], then by the objective. *)
Definition resolve_chromosome_family (r : GenomeRefinementRecommendation) : ChromosomeFamily :=
  match find (fun f => bool_decide (family_value f = gr_chromosome_family r)) all_families with
  | Some f => f
  | None => dget_or (gr_objective r) OBJECTIVE_TO_CHROMOSOME_FAMILY GOVERNANCE
  end.

(** The local variables of the loop. *)
Record Refinement : Set := {
  re_genes : list (string * GenomeGene);
  re_updates : list GenePriorityUpdate;
  re_new : list string;
  re_deactivated : list string;
}.
(** The gene a recommendation names, made when it is missing and may be. *)
Definition find_or_create (policy : GenomeRefinementPolicy) (r : GenomeRefinementRecommendation) (gene_id : string)
    (s : Refinement) : option (GenomeGene * Refinement) :=
  match dget gene_id (re_genes s) with
  | Some g => Some (g, s)
  | None =>
      if rf_create_missing_genes policy then
        let g := {| gn_gene_id := gene_id; gn_chromosome_family := resolve_chromosome_family r;
                    gn_description := gr_rationale r; gn_priority := rf_default_new_gene_priority policy;
                    gn_active := true; gn_tags := ["feedback-created"] |} in
        Some (g, {| re_genes := dset gene_id g (re_genes s); re_updates := re_updates s;
                    re_new := re_new s ++ [gene_id]; re_deactivated := re_deactivated s |})
      else None
  end.
(** The priority an action gives. *)
Definition new_priority (policy : GenomeRefinementPolicy) (action : string) (old : float) : float :=
  if bool_decide (action = "STRENGTHEN") then fmin2 (rf_max_priority policy) (fadd old (rf_priority_increment policy))
  else if bool_decide (action = "DEPRIORITIZE") then fmax2 (rf_min_priority policy) (fsub old (rf_priority_increment policy))
  else old.
Definition refine_gene (policy : GenomeRefinementPolicy) (s : Refinement) (r : GenomeRefinementRecommendation) : Refinement :=
  let family := resolve_chromosome_family r in
  let gene_id := if truthy (gr_gene_id r) then gr_gene_id r else lower (family_value family) +:+ "_" +:+ gr_objective r in
  match find_or_create policy r gene_id s with
  | None => s
  | Some (gene, s) =>
      let action := upper (gr_action r) in
      let old := gn_priority gene in
      let new := new_priority policy action old in
      let disable := bool_decide (action = "DISABLE") in
      let gene := if disable then deactivate gene else gene in
      let changed := negb (feqb new old) in
      {| re_genes := dset gene_id (if changed then set_priority new gene else gene) (re_genes s);
         re_updates := re_updates s
           ++ (if changed then [{| gu_gene_id := gene_id; gu_chromosome_family := family; gu_old_priority := old;
                                   gu_new_priority := new; gu_delta := fsub new old; gu_reason := gr_rationale r |}] else []);
         re_new := re_new s;
         re_deactivated := re_deactivated s ++ (if disable then [gene_id] else []) |}
  end.

Section Refine.
Context `{Surroundings, Digests}.

Definition genes_by_id (genes : list GenomeGene) : list (string * GenomeGene) :=
  fold_left (fun d g => dset (gn_gene_id g) g d) genes [].
(** A genome without recommendations is answered itself. *)
Definition refine (genome : ArchitecturalGenome) (recommendations : list GenomeRefinementRecommendation)
    (policy : GenomeRefinementPolicy) : M World (GenomeRefinementPlan * ArchitecturalGenome) :=
  let count := Z.of_nat (length recommendations) in
  match recommendations with
  | [] =>
      t ← timestamp;
      mret ({| gp_id := deterministic_id "genome_refinement_plan"
                 [("genome_id", VStr (ag_id genome)); ("recommendation_count", VInt 0)];
               gp_genome_id := ag_id genome; gp_updates := []; gp_new_genes := []; gp_deactivated_genes := [];
               gp_rationale := "No feedback recommendations supplied."; gp_created_at := t |}, genome)
  | _ =>
      let s := fold_left (refine_gene policy) recommendations
                 {| re_genes := genes_by_id (ag_genes genome); re_updates := []; re_new := []; re_deactivated := [] |} in
      let genes := dvalues (re_genes s) in
      let version := ag_version genome + 1 in
      t ← timestamp;
      let refined := {|
        ag_id := deterministic_id "architectural_genome"
          [("base_genome_id", VStr (ag_id genome)); ("version", VInt version); ("genes", VList (map dump_gene genes))];
        ag_version := version; ag_base_ref := Some (ag_id genome); ag_genes := genes; ag_created_at := t |} in
      t ← timestamp;
      mret ({| gp_id := deterministic_id "genome_refinement_plan"
                 [("genome_id", VStr (ag_id genome)); ("refined_genome_id", VStr (ag_id refined));
                  ("recommendation_count", VInt count)];
               gp_genome_id := ag_id genome; gp_updates := re_updates s; gp_new_genes := re_new s;
               gp_deactivated_genes := re_deactivated s;
               gp_rationale := "Refined genome using " +:+ str_of_int count +:+ " feedback recommendation(s).";
               gp_created_at := t |}, refined)
  end.

Definition default_gene (family : ChromosomeFamily) : GenomeGene := {|
  gn_gene_id := lower (family_value family) +:+ "_gene"; gn_chromosome_family := family;
  gn_description := "Default " +:+ family_value family +:+ " chromosome gene."; gn_priority := of_ratio 5 10;
  gn_active := true; gn_tags := [] |}.
Definition create_default_genome (target_ref : string) : M World ArchitecturalGenome :=
  let genes := map default_gene all_families in
  t ← timestamp;
  mret {| ag_id := deterministic_id "architectural_genome"
            [("target_ref", VStr target_ref); ("version", VInt 1); ("genes", VList (map dump_gene genes))];
          ag_version := 1; ag_base_ref := Some target_ref; ag_genes := genes; ag_created_at := t |}.
End Refine.

(** ** Targeted mutations *)

Record MutationTemplate : Set := {
  mt_name : string;
  mt_chromosome_family : ChromosomeFamily;
  mt_description : string;
  mt_operations : list MutationOperationSpec;
}.
(** A template of one operation that merges an object into a block. *)
Definition strengthen (name : string) (family : ChromosomeFamily) (description path : string) (value : pydict)
    (rationale : string) : ChromosomeFamily * MutationTemplate :=
  (family, {| mt_name := name; mt_chromosome_family := family; mt_description := description;
              mt_operations := [{| os_operation := MERGE_OBJECT; os_path := path; os_value := VDict value;
                                   os_rationale := rationale |}] |}).
Definition yes (k : string) : string * pyval := (k, VBool true).
Definition enabled (k : string) : string * pyval := (k, VStr "enabled").
Definition full_governance_design : pydict :=
  [("design_id", VStr "governance_design_v1"); ("voting_rule", VStr "unanimity"); ("quorum", VInt 5);
   ("approval_stage_count", VInt 3); ("policy_rule_count", VInt 10); yes "fail_closed_default";
   ("exception_max_severity", VStr "low"); yes "exception_review_required"; yes "audit_chaining_required";
   yes "compliance_evaluation_required"; ("versioning_strategy", VStr "semver_chain")].
Definition DEFAULT_MUTATION_TEMPLATES : list (ChromosomeFamily * MutationTemplate) :=
  [strengthen "strengthen_architecture" ARCHITECTURE "Strengthen modular architectural boundaries." "architecture"
     [yes "modularity"; yes "bounded_contexts"; yes "explicit_interfaces"]
     "Improve architectural clarity and evolvability.";
   strengthen "strengthen_reliability" RELIABILITY "Strengthen resilience and failure recovery policies." "reliability"
     [enabled "retry_policy"; yes "circuit_breaker"; yes "health_checks"; yes "bulkheads"]
     "Improve reliability based on operational feedback.";
   strengthen "strengthen_security" SECURITY "Strengthen security posture." "security"
     [yes "least_privilege"; yes "audit_logging"; yes "encryption_in_transit"; yes "secrets_management"]
     "Improve security posture based on findings.";
   strengthen "strengthen_performance" PERFORMANCE "Strengthen performance policies." "performance"
     [enabled "caching"; ("timeout_policy", VStr "standard"); yes "load_shedding"]
     "Improve performance based on operational signals.";
   strengthen "strengthen_observability" OBSERVABILITY "Strengthen observability and operational visibility." "observability"
     [yes "metrics"; yes "tracing"; yes "structured_logging"; yes "alerting"]
     "Improve observability based on operational feedback.";
   strengthen "strengthen_testing" TESTING "Strengthen testability and verification policies." "testing"
     [yes "contract_tests"; yes "integration_tests"; yes "property_based_tests"] "Improve architecture testability.";
   strengthen "strengthen_deployment" DEPLOYMENT "Strengthen deployment safety." "deployment"
     [yes "canary"; yes "rollback"; yes "zero_downtime"] "Improve deployment safety and reversibility.";
   strengthen "strengthen_persistence" PERSISTENCE "Strengthen persistence integrity and migration policy." "persistence"
     [("migration_strategy", VStr "versioned"); enabled "backup_policy"; yes "integrity_checks"]
     "Improve persistence safety.";
   strengthen "strengthen_infrastructure" INFRASTRUCTURE "Strengthen infrastructure resilience and cost control."
     "infrastructure" [yes "autoscaling"; yes "cost_controls"; yes "resilience_zones"]
     "Improve infrastructure resilience and efficiency.";
   strengthen "strengthen_messaging" MESSAGING "Strengthen event and messaging reliability." "messaging"
     [yes "event_contracts"; yes "dead_letter_queues"; yes "idempotent_consumers"] "Improve messaging reliability.";
   strengthen "strengthen_backend" BACKEND "Strengthen backend service contracts." "backend"
     [yes "api_contracts"; yes "idempotency"; yes "validation"] "Improve backend contract strength.";
   strengthen "strengthen_frontend" FRONTEND "Strengthen frontend quality and accessibility." "frontend"
     [("accessibility", VStr "AA"); yes "performance_budget"; yes "error_boundary"] "Improve frontend quality.";
   strengthen "strengthen_governance" GOVERNANCE "Strengthen governance and auditability." "governance"
     full_governance_design
     "Express a fully-governed constitutional design so the candidate scores the six governance objectives at their maximum.";
   strengthen "strengthen_documentation" DOCUMENTATION "Strengthen documentation and operability." "documentation"
     [yes "runbooks"; yes "architecture_decision_records"; yes "operational_guides"] "Improve documentation quality.";
   strengthen "strengthen_ai" AI "Strengthen AI governance and observability." "ai"
     [yes "model_governance"; yes "model_observability"; yes "fallback_behavior"] "Improve AI safety and governability."].

(** The sort key [(-priority, gene_id)]. *)
Definition gene_leb (g h : GenomeGene) : bool :=
  let p := fopp (gn_priority g) in
  let q := fopp (gn_priority h) in
  if feqb p q then str_leb (gn_gene_id g) (gn_gene_id h) else fltb p q.
Definition active_genes (genome : ArchitecturalGenome) : list GenomeGene :=
  sort_by gene_leb (List.filter gn_active (ag_genes genome)).
Definition targeted_spec (family : ChromosomeFamily) (gene_id rationale : string) (t : MutationTemplate) : MutationSpec := {|
  ms_id := None; ms_operator := "genome_targeted_mutator"; ms_chromosome_family := family_value family;
  ms_gene_id := gene_id; ms_operations := mt_operations t; ms_rationale := rationale |}.
Definition gene_spec (g : GenomeGene) (t : MutationTemplate) : MutationSpec :=
  targeted_spec (gn_chromosome_family g) (gn_gene_id g)
    ("Feedback-driven refinement for " +:+ family_value (gn_chromosome_family g) +:+ ": " +:+ gn_description g) t.
(** The loop, with the families used and the specifications made so far. *)
Fixpoint generate_specs (templates : list (ChromosomeFamily * MutationTemplate)) (max_mutations : Z)
    (genes : list GenomeGene) (used : list ChromosomeFamily) (specs : list MutationSpec) : list MutationSpec :=
  match genes with
  | [] => specs
  | g :: genes =>
      if max_mutations <=? Z.of_nat (length specs) then specs
      else match dget (gn_chromosome_family g) templates with
           | None => generate_specs templates max_mutations genes used specs
           | Some t =>
               if mem (gn_chromosome_family g) used then generate_specs templates max_mutations genes used specs
               else generate_specs templates max_mutations genes (gn_chromosome_family g :: used) (specs ++ [gene_spec g t])
           end
  end.
Definition generate (templates : list (ChromosomeFamily * MutationTemplate)) (genome : ArchitecturalGenome)
    (max_mutations : Z) : res (list MutationSpec) :=
  match generate_specs templates max_mutations (active_genes genome) [] [] with
  | [] =>
      match dget ARCHITECTURE templates with
      | Some t => Ok [targeted_spec ARCHITECTURE "architecture_gene" "Fallback architecture strengthening mutation." t]
      | None => Raise (KeyError "<ChromosomeFamily.ARCHITECTURE: 'Architecture'>")
      end
  | specs => Ok specs
  end.
