(* ===== verification/SelfMulti.v ===== *)
(** * Self-evolution: several candidates for a proposal

    [evolution/multi.py]: candidates from several mutations, their evaluation and
    Pareto selection, on top of the engine it is given, whose tables it writes. *)

From Stdlib Require Import SpecFloat.
From S2P Require Import Prelude PyFloat PyVal PyText PyJson EvoModels Pareto SelfModels SelfEngine.
Open Scope Z_scope.

Definition TERMINAL_STATES : list ProposalStatus := [APPROVED; PENDING_APPROVAL; REJECTED; PROMOTED; ROLLED_BACK].

Record MultiCandidateEvolutionEngine : Set := {
  mc_base : SelfEvolutionEngine;
  mc_evaluations : list (string * list (string * CandidateEvaluationRecord));
  mc_selections : list (string * ParetoSelectionResult);
}.
Definition new_multi_engine (base : SelfEvolutionEngine) : MultiCandidateEvolutionEngine :=
  {| mc_base := base; mc_evaluations := []; mc_selections := [] |}.
Definition put_base (b : SelfEvolutionEngine) (s : MultiCandidateEvolutionEngine) : MultiCandidateEvolutionEngine :=
  {| mc_base := b; mc_evaluations := mc_evaluations s; mc_selections := mc_selections s |}.
Definition put_evaluations (es : list (string * list (string * CandidateEvaluationRecord)))
    (s : MultiCandidateEvolutionEngine) : MultiCandidateEvolutionEngine :=
  {| mc_base := mc_base s; mc_evaluations := es; mc_selections := mc_selections s |}.
Definition put_selection (proposal_id : string) (r : ParetoSelectionResult)
    (s : MultiCandidateEvolutionEngine) : MultiCandidateEvolutionEngine :=
  {| mc_base := mc_base s; mc_evaluations := mc_evaluations s;
     mc_selections := dset proposal_id r (mc_selections s) |}.
Definition on_base {A} (m : M SelfEvolutionEngine A) : M MultiCandidateEvolutionEngine A := zoom mc_base put_base m.

Section Multi.
Context `{Surroundings, Digests, !Parts}.

(** ** Generation *)

(** [if candidate_id not in proposal.candidate_ids: ...append(candidate_id)]. *)
Definition add_candidate_id (id : string) (p : EvolutionProposal) : EvolutionProposal :=
  if mem id (ep_candidate_ids p) then p else set_candidates (ep_candidate_ids p ++ [id]) p.

Definition generate_one (proposal_id : string) (base_isr : pydict) (spec : MutationSpec) :
    M SelfEvolutionEngine CandidateArchitecture :=
  let spec := with_mutation_id spec in
  mutated_isr ← in_world (part_mutation base_isr spec);
  let content_hash := digest (VDict mutated_isr) in
  let candidate_id := deterministic_id "candidate"
    [("proposal_id", VStr proposal_id); ("mutation_id", opt_str (ms_id spec)); ("content_hash", VStr content_hash)] in
  cs ← gets se_candidates;
  match dget candidate_id cs with
  | Some existing =>
      _ ← update_proposal proposal_id (add_candidate_id candidate_id);
      mret existing
  | None =>
      candidate ← make_candidate proposal_id spec base_isr mutated_isr;
      _ ← modify (put_candidate candidate);
      _ ← update_proposal proposal_id (add_candidate_id (ca_id candidate));
      mret candidate
  end.
Fixpoint generate_loop (proposal_id : string) (base_isr : pydict) (specs : list MutationSpec)
    (created : list CandidateArchitecture) : M SelfEvolutionEngine (list CandidateArchitecture) :=
  match specs with
  | [] => mret created
  | spec :: specs =>
      c ← generate_one proposal_id base_isr spec;
      generate_loop proposal_id base_isr specs (created ++ [c])
  end.

Definition generate_candidates (proposal_id : string) (request : GenerateCandidatesRequest) (actor_id : string) :
    M SelfEvolutionEngine (list CandidateArchitecture) :=
  p ← get_proposal proposal_id;
  _ ← when (mem (ep_status p) TERMINAL_STATES)
        (raise (InvalidStateError "Cannot generate candidates for a proposal in a terminal state."));
  let specs := (if gc_include_base_mutation request then [rq_mutation (ep_request p)] else []) ++ gc_mutations request in
  match specs with
  | [] => raise (InvalidStateError "At least one mutation specification is required.")
  | _ =>
      created ← generate_loop proposal_id (rq_base_isr (ep_request p)) specs [];
      _ ← update_proposal proposal_id (fun p => set_status MUTATED None (set_selected None p));
      _ ← touch proposal_id;
      _ ← record_event proposal_id "multi_candidates_generated" actor_id
            [("candidate_count", VInt (Z.of_nat (length created)));
             ("candidate_ids", VList (map (fun c => VStr (ca_id c)) created))];
      mret created
  end.

(** ** Evaluation

    The local variables of a round, which keep what was assigned before an
    exception. *)
Record Trial : Set := {
  tr_engine : SelfEvolutionEngine;
  tr_simulation : option SimulationResult;
  tr_verification : option VerificationReport;
  tr_fitness : option FitnessEvaluation;
  tr_feasible : bool;
  tr_reasons : list string;
}.
Definition new_trial (s : SelfEvolutionEngine) : Trial := {|
  tr_engine := s; tr_simulation := None; tr_verification := None; tr_fitness := None; tr_feasible := false;
  tr_reasons := [] |}.
Definition put_engine (s : SelfEvolutionEngine) (t : Trial) : Trial := {|
  tr_engine := s; tr_simulation := tr_simulation t; tr_verification := tr_verification t; tr_fitness := tr_fitness t;
  tr_feasible := tr_feasible t; tr_reasons := tr_reasons t |}.
Definition put_reason (r : string) (t : Trial) : Trial := {|
  tr_engine := tr_engine t; tr_simulation := tr_simulation t; tr_verification := tr_verification t;
  tr_fitness := tr_fitness t; tr_feasible := tr_feasible t; tr_reasons := tr_reasons t ++ [r] |}.
Definition put_locals (sm : option SimulationResult) (v : option VerificationReport) (f : option FitnessEvaluation)
    (b : bool) (t : Trial) : Trial := {|
  tr_engine := tr_engine t; tr_simulation := sm; tr_verification := v; tr_fitness := f; tr_feasible := b;
  tr_reasons := tr_reasons t |}.
Definition in_engine {A} (m : M SelfEvolutionEngine A) : M Trial A := zoom tr_engine put_engine m.

Definition add_simulation_id (id : string) (p : EvolutionProposal) : EvolutionProposal :=
  if mem id (ep_simulation_ids p) then p else set_simulations (ep_simulation_ids p ++ [id]) p.

Definition trial_body (proposal_id : string) (candidate : CandidateArchitecture) : M Trial unit :=
  simulation ← in_engine (in_world (part_simulator candidate));
  _ ← modify (put_locals (Some simulation) None None false);
  _ ← in_engine (modify (put_simulation simulation));
  _ ← in_engine (update_proposal proposal_id (add_simulation_id (sm_id simulation)));
  if bool_decide (sm_status simulation <> "PASSED") then modify (put_reason "simulation_failed")
  else
    p ← in_engine (get_proposal proposal_id);
    verification ← in_engine (in_world (part_verifier candidate p));
    _ ← modify (put_locals (Some simulation) (Some verification) None false);
    if negb (vf_valid verification) then modify (put_reason "verification_failed")
    else
      fitness ← in_engine (in_world (part_fitness candidate simulation (Some verification)));
      _ ← modify (put_locals (Some simulation) (Some verification) (Some fitness) false);
      if negb (fe_passed fitness) then modify (put_reason "fitness_failed")
      else modify (put_locals (Some simulation) (Some verification) (Some fitness) true).
Definition run_trial (proposal_id candidate_id : string) (candidate : CandidateArchitecture) :
    M SelfEvolutionEngine CandidateEvaluationRecord := fun s =>
  let '(_, t) := try_catch (trial_body proposal_id candidate) (fun e => modify (put_reason (exn_text e))) (new_trial s) in
  (created_at ← stamp;
   mret {| ce_candidate_id := candidate_id; ce_simulation_id := option_map sm_id (tr_simulation t);
           ce_verification := tr_verification t; ce_fitness := tr_fitness t; ce_feasible := tr_feasible t;
           ce_reasons := tr_reasons t; ce_created_at := created_at |}) (tr_engine t).

(** [evaluations], the dict of the proposal, in the table. *)
Definition evaluations_of (proposal_id : string) (s : MultiCandidateEvolutionEngine) :
    list (string * CandidateEvaluationRecord) := dget_or proposal_id (mc_evaluations s) [].
Definition evaluate_one (proposal_id : string) (force : bool) (candidate_id : string) :
    M MultiCandidateEvolutionEngine unit :=
  evaluations ← gets (evaluations_of proposal_id);
  cs ← gets (fun s => se_candidates (mc_base s));
  if dmem candidate_id evaluations && negb force then mret tt
  else match dget candidate_id cs with
       | None => mret tt
       | Some candidate =>
           r ← on_base (run_trial proposal_id candidate_id candidate);
           modify (fun s => put_evaluations
             (dset proposal_id (dset candidate_id r (evaluations_of proposal_id s)) (mc_evaluations s)) s)
       end.

Definition evaluate_candidates (proposal_id actor_id : string) (force : bool) :
    M MultiCandidateEvolutionEngine (list CandidateEvaluationRecord) :=
  p ← on_base (get_proposal proposal_id);
  match ep_candidate_ids p with
  | [] => raise (InvalidStateError "Proposal has no candidates.")
  | ids =>
      _ ← modify (fun s => if dmem proposal_id (mc_evaluations s) then s
                           else put_evaluations (dset proposal_id [] (mc_evaluations s)) s);
      _ ← for_each ids (evaluate_one proposal_id force);
      all_evaluations ← gets (fun s => dvalues (evaluations_of proposal_id s));
      let feasible := List.filter ce_feasible all_evaluations in
      _ ← on_base (update_proposal proposal_id (fun p =>
            if existsb ce_feasible all_evaluations then set_status EVALUATED None p
            else set_status FAILED (Some "No feasible candidates were produced.") p));
      _ ← on_base (touch proposal_id);
      _ ← on_base (record_event proposal_id "multi_candidates_evaluated" actor_id
            [("candidate_count", VInt (Z.of_nat (length all_evaluations)));
             ("feasible_count", VInt (Z.of_nat (length feasible)))]);
      mret all_evaluations
  end.

(** ** Selection *)

(** [ids.remove(x)] and [ids.append(x)]. *)
Fixpoint remove_first (x : string) (ids : list string) : list string :=
  match ids with
  | [] => []
  | y :: ids => if bool_decide (x = y) then ids else y :: remove_first x ids
  end.
Definition move_last (x : string) (p : EvolutionProposal) : EvolutionProposal :=
  if mem x (ep_candidate_ids p) then set_candidates (remove_first x (ep_candidate_ids p) ++ [x]) p else p.
(** The selected candidate and its reports become those of the proposal. *)
Definition adopt (evaluation : option CandidateEvaluationRecord) (x : string) (p : EvolutionProposal) : EvolutionProposal :=
  let p := move_last x (set_selected (Some x) p) in
  match evaluation with
  | None => p
  | Some e => set_reports (match ce_verification e with Some v => Some v | None => ep_verification p end)
                (match ce_fitness e with Some f => Some f | None => ep_fitness p end) p
  end.

(** The sort of the candidates does not run out of fuel; if it did, the recursion
    error stands for it. *)
Definition select_candidates (proposal_id : string) (policy : ParetoSelectionPolicy) (actor_id : string) :
    M MultiCandidateEvolutionEngine ParetoSelectionResult :=
  _ ← on_base (get_proposal proposal_id);
  evaluations ← gets (evaluations_of proposal_id);
  match evaluations with
  | [] => raise (InvalidStateError "Candidates must be evaluated before Pareto selection.")
  | _ =>
      created_at ← on_base stamp;
      match select_pareto proposal_id (dvalues evaluations) policy created_at with
      | None => raise RecursionError
      | Some result =>
          _ ← modify (put_selection proposal_id result);
          _ ← when (otruthy (pr_selected_candidate_id result))
                (let x := or_empty (pr_selected_candidate_id result) in
                 on_base (update_proposal proposal_id (adopt (dget x evaluations) x)));
          _ ← on_base (touch proposal_id);
          _ ← on_base (record_event proposal_id "pareto_selection_completed" actor_id
                [("selected_candidate_id", opt_str (pr_selected_candidate_id result));
                 ("selected_candidate_ids", VList (map VStr (pr_selected_candidate_ids result)));
                 ("objectives", VList (map VStr (pr_objectives result)))]);
          mret result
      end
  end.

(** ** Queries *)

Definition get_evaluations (proposal_id : string) : M MultiCandidateEvolutionEngine (list CandidateEvaluationRecord) :=
  _ ← on_base (get_proposal proposal_id);
  gets (fun s => dvalues (evaluations_of proposal_id s)).
Definition get_pareto_result (proposal_id : string) : M MultiCandidateEvolutionEngine (option ParetoSelectionResult) :=
  _ ← on_base (get_proposal proposal_id);
  gets (fun s => dget proposal_id (mc_selections s)).
End Multi.
