(* ===== verification/Campaign.v ===== *)
(** * Self-evolution: campaigns over generations

    [evolution/memory.py], [evolution/orchestration.py] and
    [evolution/multi_generation.py].  The orchestrator drives the engine and the
    candidate engine on top of it, which are taken to be the two that share their
    tables; a campaign is an object of the orchestrator's table, which the campaign
    engine assigns to as well. *)

From Stdlib Require Import SpecFloat.
From S2P Require Import Prelude PyFloat PyVal PyText PyJson EvoModels Pareto SelfModels SelfEngine SelfMulti Genome.
Open Scope Z_scope.

(** ** InMemoryEvolutionaryMemory *)

Record GenerationSummary : Set := {
  gs_id : string;
  gs_campaign_id : string;
  gs_generation_index : Z;
  gs_proposal_id : string;
  gs_genome_id : string;
  gs_selected_candidate_id : option string;
  gs_status : string;
  gs_objectives : list (string * float);
  gs_constraints : list (string * bool);
  gs_elite_count : Z;
  gs_created_at : string;
}.
Record EliteRecord : Set := {
  el_id : string;
  el_campaign_id : string;
  el_generation_index : Z;
  el_proposal_id : string;
  el_candidate_id : string;
  el_genome_id : string;
  el_isr_content_hash : string;
  el_objectives : list (string * float);
  el_constraints : list (string * bool);
  el_created_at : string;
}.
Record CampaignTrend : Set := {
  ct_campaign_id : string;
  ct_generation_count : Z;
  ct_objective_trends : list (string * list (option float));
  ct_selected_candidate_ids : list (option string);
  ct_elite_count : Z;
}.
(** At least one elite is kept. *)
Record MemoryPolicy : Set := { yp_max_elites : positive; yp_dedupe_by_content_hash : bool }.
Definition default_memory_policy : MemoryPolicy := {| yp_max_elites := 50; yp_dedupe_by_content_hash := true |}.

(** The sets of hashes are lists without repetition. *)
Record InMemoryEvolutionaryMemory : Set := {
  im_policy : MemoryPolicy;
  im_summaries : list (string * list GenerationSummary);
  im_elites : list (string * list EliteRecord);
  im_hashes : list (string * list string);
}.
Definition new_memory (policy : MemoryPolicy) : InMemoryEvolutionaryMemory :=
  {| im_policy := policy; im_summaries := []; im_elites := []; im_hashes := [] |}.

Definition save_generation_summary (s : GenerationSummary) (m : InMemoryEvolutionaryMemory) : InMemoryEvolutionaryMemory := {|
  im_policy := im_policy m;
  im_summaries := dset (gs_campaign_id s) (dget_or (gs_campaign_id s) (im_summaries m) [] ++ [s]) (im_summaries m);
  im_elites := im_elites m; im_hashes := im_hashes m |}.
(** [hashes.add(h)] and [hashes.discard(h)]. *)
Definition set_add (h : string) (hs : list string) : list string := if mem h hs then hs else hs ++ [h].
Definition set_discard (h : string) (hs : list string) : list string := List.filter (fun x => negb (bool_decide (x = h))) hs.
(** [while len(elites) > max_elites: removed = elites.pop(0); ...]. *)
Fixpoint trim (max_elites : nat) (elites : list EliteRecord) (hashes : list string) : list EliteRecord * list string :=
  match elites with
  | e :: rest => if (max_elites <? length elites)%nat then trim max_elites rest (set_discard (el_isr_content_hash e) hashes)
                 else (elites, hashes)
  | [] => ([], hashes)
  end.
Definition save_elite (e : EliteRecord) : M InMemoryEvolutionaryMemory bool := fun m =>
  let id := el_campaign_id e in
  let elites := dget_or id (im_elites m) [] in
  let hashes := dget_or id (im_hashes m) [] in
  let put es hs := {| im_policy := im_policy m; im_summaries := im_summaries m; im_elites := dset id es (im_elites m);
                      im_hashes := dset id hs (im_hashes m) |} in
  if yp_dedupe_by_content_hash (im_policy m) && mem (el_isr_content_hash e) hashes then (Ok false, put elites hashes)
  else let '(es, hs) := trim (Pos.to_nat (yp_max_elites (im_policy m))) (elites ++ [e]) (set_add (el_isr_content_hash e) hashes) in
       (Ok true, put es hs).
Definition list_generation_summaries (campaign_id : string) (m : InMemoryEvolutionaryMemory) : list GenerationSummary :=
  sort_by (fun s t => gs_generation_index s <=? gs_generation_index t) (dget_or campaign_id (im_summaries m) []).
Definition list_elites (campaign_id : string) (m : InMemoryEvolutionaryMemory) : list EliteRecord :=
  dget_or campaign_id (im_elites m) [].
Definition get_trend (campaign_id : string) (m : InMemoryEvolutionaryMemory) : CampaignTrend :=
  let summaries := list_generation_summaries campaign_id m in
  let names := sort_by str_leb (remove_dups (concat (map (fun s => dkeys (gs_objectives s)) summaries))) in
  {| ct_campaign_id := campaign_id; ct_generation_count := Z.of_nat (length summaries);
     ct_objective_trends := dtable (fun n => map (fun s => dget n (gs_objectives s)) summaries) names;
     ct_selected_candidate_ids := map gs_selected_candidate_id summaries;
     ct_elite_count := Z.of_nat (length (list_elites campaign_id m)) |}.

(** ** EvolutionOrchestrator *)

Record EvolutionCampaignRequest : Set := {
  cq_name : string;
  cq_description : string;
  cq_target_ref : string;
  cq_target_type : EvolutionTargetType;
  cq_base_isr : pydict;
  cq_feedback_recommendations : list GenomeRefinementRecommendation;
  cq_initial_genome : option ArchitecturalGenome;
  cq_max_mutations_per_generation : Z;
  cq_selection_policy : ParetoSelectionPolicy;
  cq_high_impact : bool;
  cq_allow_breaking_changes : bool;
  cq_auto_submit_for_approval : bool;
}.
Record GenerationResult : Set := {
  ge_generation_index : Z;
  ge_proposal_id : string;
  ge_genome_id : string;
  ge_mutation_spec_ids : list string;
  ge_selected_candidate_id : option string;
  ge_pareto_result : option ParetoSelectionResult;
  ge_status : string;
  ge_error : option string;
  ge_created_at : string;
}.
Record EvolutionCampaign : Set := {
  ec_id : string;
  ec_name : string;
  ec_description : string;
  ec_target_ref : string;
  ec_target_type : EvolutionTargetType;
  ec_base_isr : pydict;
  ec_genome : ArchitecturalGenome;
  ec_feedback_recommendations : list GenomeRefinementRecommendation;
  ec_max_mutations_per_generation : Z;
  ec_selection_policy : ParetoSelectionPolicy;
  ec_high_impact : bool;
  ec_allow_breaking_changes : bool;
  ec_auto_submit_for_approval : bool;
  ec_status : string;
  ec_generations : list GenerationResult;
  ec_created_at : string;
  ec_updated_at : string;
}.
(** The attributes of a campaign that are assigned to. *)
Definition set_campaign (isr : pydict) (genome : ArchitecturalGenome) (status : string) (gs : list GenerationResult)
    (t : string) (c : EvolutionCampaign) : EvolutionCampaign := {|
  ec_id := ec_id c; ec_name := ec_name c; ec_description := ec_description c; ec_target_ref := ec_target_ref c;
  ec_target_type := ec_target_type c; ec_base_isr := isr; ec_genome := genome;
  ec_feedback_recommendations := ec_feedback_recommendations c;
  ec_max_mutations_per_generation := ec_max_mutations_per_generation c; ec_selection_policy := ec_selection_policy c;
  ec_high_impact := ec_high_impact c; ec_allow_breaking_changes := ec_allow_breaking_changes c;
  ec_auto_submit_for_approval := ec_auto_submit_for_approval c; ec_status := status; ec_generations := gs;
  ec_created_at := ec_created_at c; ec_updated_at := t |}.
Definition set_base_isr (isr : pydict) (c : EvolutionCampaign) : EvolutionCampaign :=
  set_campaign isr (ec_genome c) (ec_status c) (ec_generations c) (ec_updated_at c) c.
Definition set_genome (g : ArchitecturalGenome) (c : EvolutionCampaign) : EvolutionCampaign :=
  set_campaign (ec_base_isr c) g (ec_status c) (ec_generations c) (ec_updated_at c) c.
Definition set_campaign_status (st : string) (c : EvolutionCampaign) : EvolutionCampaign :=
  set_campaign (ec_base_isr c) (ec_genome c) st (ec_generations c) (ec_updated_at c) c.
Definition add_generation (g : GenerationResult) (c : EvolutionCampaign) : EvolutionCampaign :=
  set_campaign (ec_base_isr c) (ec_genome c) (ec_status c) (ec_generations c ++ [g]) (ec_updated_at c) c.
Definition set_campaign_updated (t : string) (c : EvolutionCampaign) : EvolutionCampaign :=
  set_campaign (ec_base_isr c) (ec_genome c) (ec_status c) (ec_generations c) t c.

Record EvolutionOrchestrator : Set := {
  or_multi : MultiCandidateEvolutionEngine;
  or_policy : GenomeRefinementPolicy;
  or_campaigns : list (string * EvolutionCampaign);
}.
Definition new_orchestrator (m : MultiCandidateEvolutionEngine) (policy : GenomeRefinementPolicy) : EvolutionOrchestrator :=
  {| or_multi := m; or_policy := policy; or_campaigns := [] |}.
Definition put_multi (m : MultiCandidateEvolutionEngine) (s : EvolutionOrchestrator) : EvolutionOrchestrator :=
  {| or_multi := m; or_policy := or_policy s; or_campaigns := or_campaigns s |}.
Definition put_campaigns (cs : list (string * EvolutionCampaign)) (s : EvolutionOrchestrator) : EvolutionOrchestrator :=
  {| or_multi := or_multi s; or_policy := or_policy s; or_campaigns := cs |}.
Definition on_multi {A} (m : M MultiCandidateEvolutionEngine A) : M EvolutionOrchestrator A := zoom or_multi put_multi m.
Definition on_engine {A} (m : M SelfEvolutionEngine A) : M EvolutionOrchestrator A := on_multi (on_base m).

Section Orchestrator.
Context `{Surroundings, Digests, !Parts}.

Definition get_campaign (campaign_id : string) : M EvolutionOrchestrator EvolutionCampaign :=
  cs ← gets or_campaigns;
  match dget campaign_id cs with
  | Some c => mret c
  | None => raise (KeyError ("Evolution campaign not found: " +:+ campaign_id))
  end.
Definition update_campaign (campaign_id : string) (f : EvolutionCampaign -> EvolutionCampaign) : M EvolutionOrchestrator unit :=
  modify (fun s => match dget campaign_id (or_campaigns s) with
                   | Some c => put_campaigns (dset campaign_id (f c) (or_campaigns s)) s
                   | None => s
                   end).
(** [campaign.updated_at = utcnow().isoformat()]. *)
Definition touch_campaign (campaign_id : string) : M EvolutionOrchestrator unit :=
  t ← on_engine stamp; update_campaign campaign_id (set_campaign_updated t).

Definition create_campaign (request : EvolutionCampaignRequest) (actor_id : string) :
    M EvolutionOrchestrator EvolutionCampaign :=
  genome ← match cq_initial_genome request with
           | Some g => mret g
           | None => on_engine (in_world (create_default_genome (cq_target_ref request)))
           end;
  created_at ← on_engine stamp;
  let campaign_id := deterministic_id "evolution_campaign"
    [("name", VStr (cq_name request)); ("target_ref", VStr (cq_target_ref request)); ("genome_id", VStr (ag_id genome));
     ("created_at", VStr created_at)] in
  let campaign := {|
    ec_id := campaign_id; ec_name := cq_name request; ec_description := cq_description request;
    ec_target_ref := cq_target_ref request; ec_target_type := cq_target_type request; ec_base_isr := cq_base_isr request;
    ec_genome := genome; ec_feedback_recommendations := cq_feedback_recommendations request;
    ec_max_mutations_per_generation := cq_max_mutations_per_generation request;
    ec_selection_policy := cq_selection_policy request; ec_high_impact := cq_high_impact request;
    ec_allow_breaking_changes := cq_allow_breaking_changes request;
    ec_auto_submit_for_approval := cq_auto_submit_for_approval request; ec_status := "ACTIVE"; ec_generations := [];
    ec_created_at := created_at; ec_updated_at := created_at |} in
  _ ← modify (fun s => put_campaigns (dset campaign_id campaign (or_campaigns s)) s);
  _ ← on_engine (record_event campaign_id "evolution_campaign_created" actor_id
        [("campaign_id", VStr campaign_id); ("target_ref", VStr (ec_target_ref campaign)); ("genome_id", VStr (ag_id genome))]);
  mret campaign.

(** The request of a generation's proposal. *)
Definition generation_request (c : EvolutionCampaign) (index : Z) (mutation : MutationSpec) : EvolutionProposalRequest := {|
  rq_title := ec_name c +:+ " - Generation " +:+ str_of_int index;
  rq_description := if truthy (ec_description c) then ec_description c else "Feedback-driven evolution campaign generation.";
  rq_target_type := ec_target_type c; rq_target_ref := ec_target_ref c; rq_base_isr := ec_base_isr c; rq_mutation := mutation;
  rq_high_impact := ec_high_impact c; rq_allow_breaking_changes := ec_allow_breaking_changes c;
  rq_environment := "development" |}.
(** Proposing and generating give every specification its id. *)
Definition spec_id (m : MutationSpec) : string := or_empty (oor (ms_id (with_mutation_id m)) (Some "pending_mutation_id")).
(** The part of a generation that works on a proposal. *)
Definition evolve (c : EvolutionCampaign) (index : Z) (base : MutationSpec) (others : list MutationSpec) (actor_id : string) :
    M MultiCandidateEvolutionEngine (EvolutionProposal * ParetoSelectionResult) :=
  proposal ← on_base (propose (generation_request c index base) actor_id);
  let id := ep_id proposal in
  _ ← on_base (generate_candidates id {| gc_mutations := others; gc_include_base_mutation := true |} actor_id);
  _ ← evaluate_candidates id actor_id false;
  result ← select_candidates id (ec_selection_policy c) actor_id;
  refreshed ← on_base (get_proposal id);
  refreshed ← (if ec_auto_submit_for_approval c && bool_decide (ep_status refreshed = EVALUATED)
               then on_base (submit_for_approval id actor_id) else mret refreshed);
  mret (refreshed, result).
Definition run_generation (campaign_id actor_id : string) (feedback : option (list GenomeRefinementRecommendation)) :
    M EvolutionOrchestrator GenerationResult :=
  campaign ← get_campaign campaign_id;
  policy ← gets or_policy;
  let recommendations := match feedback with
                         | Some (r :: rs) => r :: rs
                         | _ => ec_feedback_recommendations campaign
                         end in
  '(plan, refined) ← on_engine (in_world (refine (ec_genome campaign) recommendations policy));
  _ ← update_campaign campaign_id (set_genome refined);
  specs ← lift_res (generate DEFAULT_MUTATION_TEMPLATES refined (ec_max_mutations_per_generation campaign));
  match specs with
  | [] => raise (IndexError "list index out of range")
  | base :: others =>
      let index := Z.of_nat (length (ec_generations campaign)) + 1 in
      '(refreshed, result) ← on_multi (evolve campaign index base others actor_id);
      t ← on_engine stamp;
      let generation := {|
        ge_generation_index := index; ge_proposal_id := ep_id refreshed; ge_genome_id := ag_id refined;
        ge_mutation_spec_ids := map spec_id specs; ge_selected_candidate_id := pr_selected_candidate_id result;
        ge_pareto_result := Some result; ge_status := proposal_status_value (ep_status refreshed);
        ge_error := ep_error refreshed; ge_created_at := t |} in
      _ ← update_campaign campaign_id (add_generation generation);
      _ ← touch_campaign campaign_id;
      _ ← on_engine (record_event (ep_id refreshed) "evolution_generation_completed" actor_id
            [("campaign_id", VStr campaign_id); ("generation_index", VInt index); ("genome_id", VStr (ag_id refined));
             ("selected_candidate_id", opt_str (pr_selected_candidate_id result));
             ("status", VStr (proposal_status_value (ep_status refreshed)))]);
      mret generation
  end.
End Orchestrator.

(** ** MultiGenerationCampaignEngine *)

Record CampaignStopPolicy : Set := {
  sp_max_generations : Z;
  sp_require_feasible_candidate : bool;
  sp_min_objective_improvement : float;
  sp_stagnation_limit : Z;
  sp_carry_forward_selected_candidate : bool;
}.
Definition default_stop_policy : CampaignStopPolicy := {|
  sp_max_generations := 2; sp_require_feasible_candidate := true; sp_min_objective_improvement := fzero;
  sp_stagnation_limit := 0; sp_carry_forward_selected_candidate := true |}.
Record CampaignRunResult : Set := {
  cr_campaign_id : string;
  cr_generations_run : Z;
  cr_stop_reason : string;
  cr_status : string;
  cr_summaries : list GenerationSummary;
  cr_elite_count : Z;
  cr_completed_at : string;
}.
Record MultiGenerationCampaignEngine : Set := {
  mg_orchestrator : EvolutionOrchestrator;
  mg_memory : InMemoryEvolutionaryMemory;
  mg_stop_policy : CampaignStopPolicy;
}.
Definition new_campaign_engine (o : EvolutionOrchestrator) (m : InMemoryEvolutionaryMemory) (p : CampaignStopPolicy) :
  MultiGenerationCampaignEngine := {| mg_orchestrator := o; mg_memory := m; mg_stop_policy := p |}.
Definition put_orchestrator (o : EvolutionOrchestrator) (s : MultiGenerationCampaignEngine) : MultiGenerationCampaignEngine :=
  {| mg_orchestrator := o; mg_memory := mg_memory s; mg_stop_policy := mg_stop_policy s |}.
Definition put_memory (m : InMemoryEvolutionaryMemory) (s : MultiGenerationCampaignEngine) : MultiGenerationCampaignEngine :=
  {| mg_orchestrator := mg_orchestrator s; mg_memory := m; mg_stop_policy := mg_stop_policy s |}.
Definition orchestrate {A} (m : M EvolutionOrchestrator A) : M MultiGenerationCampaignEngine A :=
  zoom mg_orchestrator put_orchestrator m.
Definition remember {A} (m : M InMemoryEvolutionaryMemory A) : M MultiGenerationCampaignEngine A := zoom mg_memory put_memory m.

(** [sum(values) / len(values)], scaled by the share of constraints that hold. *)
Definition diagnostic_score (objectives : list (string * float)) (constraints : list (string * bool)) : float :=
  match dvalues objectives with
  | [] => fzero
  | values =>
      let base := fdiv (fsum values) (of_nat (length values)) in
      let score := match dvalues constraints with
                   | [] => base
                   | holds => fmul base (of_ratio (Z.of_nat (length (List.filter id holds))) (Pos.of_nat (length holds)))
                   end in
      fround score 6
  end.

Section Campaigns.
Context `{Surroundings, Digests, !Parts}.

Definition get_selected_evaluation (g : GenerationResult) : M MultiGenerationCampaignEngine (option CandidateEvaluationRecord) :=
  if negb (otruthy (ge_selected_candidate_id g)) then mret None
  else evaluations ← orchestrate (on_multi (get_evaluations (ge_proposal_id g)));
       mret (find (fun e => bool_decide (Some (ce_candidate_id e) = ge_selected_candidate_id g)) evaluations).
(** [base_engine.candidates.get(selected_candidate_id)]. *)
Definition selected_candidate (g : GenerationResult) : M MultiGenerationCampaignEngine (option CandidateArchitecture) :=
  if otruthy (ge_selected_candidate_id g)
  then gets (fun s => dget (or_empty (ge_selected_candidate_id g)) (se_candidates (mc_base (or_multi (mg_orchestrator s)))))
  else mret None.
Definition fitness_objectives (e : option CandidateEvaluationRecord) : list (string * float) :=
  match e with Some e => match ce_fitness e with Some f => fe_objectives f | None => [] end | None => [] end.
Definition fitness_constraints (e : option CandidateEvaluationRecord) : list (string * bool) :=
  match e with Some e => match ce_fitness e with Some f => fe_constraints f | None => [] end | None => [] end.
Definition record_generation (campaign_id : string) (g : GenerationResult) : M MultiGenerationCampaignEngine GenerationSummary :=
  evaluation ← get_selected_evaluation g;
  let objectives := fitness_objectives evaluation in
  let constraints := fitness_constraints evaluation in
  let feasible := match evaluation with Some e => ce_feasible e | None => false end in
  let summary_id := deterministic_id "generation_summary"
    [("campaign_id", VStr campaign_id); ("generation_index", VInt (ge_generation_index g));
     ("proposal_id", VStr (ge_proposal_id g))] in
  elites ← gets (fun s => list_elites campaign_id (mg_memory s));
  t ← orchestrate (on_engine stamp);
  let summary := {|
    gs_id := summary_id; gs_campaign_id := campaign_id; gs_generation_index := ge_generation_index g;
    gs_proposal_id := ge_proposal_id g; gs_genome_id := ge_genome_id g;
    gs_selected_candidate_id := ge_selected_candidate_id g; gs_status := ge_status g; gs_objectives := objectives;
    gs_constraints := constraints; gs_elite_count := Z.of_nat (length elites); gs_created_at := t |} in
  _ ← remember (modify (save_generation_summary summary));
  candidate ← (if feasible then selected_candidate g else mret None);
  _ ← match candidate with
      | None => mret tt
      | Some c =>
          t ← orchestrate (on_engine stamp);
          _ ← remember (save_elite {|
                el_id := deterministic_id "elite_candidate"
                  [("campaign_id", VStr campaign_id); ("candidate_id", VStr (ca_id c)); ("content_hash", VStr (ca_content_hash c))];
                el_campaign_id := campaign_id; el_generation_index := ge_generation_index g;
                el_proposal_id := ge_proposal_id g; el_candidate_id := ca_id c; el_genome_id := ge_genome_id g;
                el_isr_content_hash := ca_content_hash c; el_objectives := objectives; el_constraints := constraints;
                el_created_at := t |});
          mret tt
      end;
  mret summary.

(** [campaign.status = ...; campaign.updated_at = ...]. *)
Definition fail_campaign (campaign_id : string) : M MultiGenerationCampaignEngine unit :=
  orchestrate (_ ← update_campaign campaign_id (set_campaign_status "FAILED"); touch_campaign campaign_id).
Definition carry_forward (campaign_id : string) (g : GenerationResult) : M MultiGenerationCampaignEngine unit :=
  candidate ← selected_candidate g;
  match candidate with
  | Some c => orchestrate (update_campaign campaign_id (set_base_isr (ca_isr c)))
  | None => mret tt
  end.
(** The number of generations in a row that improved too little. *)
Definition stagnate (policy : CampaignStopPolicy) (previous : option float) (diagnostic : float) (count : Z) : Z :=
  match previous with
  | Some p => if fltb (fsub diagnostic p) (sp_min_objective_improvement policy) then count + 1 else 0
  | None => count
  end.
(** One round of the loop: it ends the loop, with the summary of its generation when
    there is one, or goes on with the diagnostic and the count of stagnation. *)
Inductive Turn : Set :=
| Stopped (summary : option GenerationSummary) (reason : string)
| Went (summary : GenerationSummary) (diagnostic : float) (count : Z).
Definition run_turn (campaign_id actor_id : string) (feedback : option (list GenomeRefinementRecommendation))
    (policy : CampaignStopPolicy) (previous : option float) (count : Z) : M MultiGenerationCampaignEngine Turn :=
  outcome ← try_catch (g ← orchestrate (run_generation campaign_id actor_id feedback); mret (inl g)) (fun e => mret (inr e));
  match outcome with
  | inr e => _ ← fail_campaign campaign_id; mret (Stopped None ("generation_failed: " +:+ exn_text e))
  | inl generation =>
      campaign ← orchestrate (get_campaign campaign_id);
      summary ← record_generation (ec_id campaign) generation;
      _ ← when (sp_carry_forward_selected_candidate policy) (carry_forward campaign_id generation);
      if bool_decide (ge_selected_candidate_id generation = None) && sp_require_feasible_candidate policy
      then _ ← fail_campaign campaign_id; mret (Stopped (Some summary) "no_feasible_candidate")
      else
        let diagnostic := diagnostic_score (gs_objectives summary) (gs_constraints summary) in
        let watch := (0 <? sp_stagnation_limit policy) && bool_decide (is_Some previous) in
        let count := if watch then stagnate policy previous diagnostic count else count in
        if watch && (sp_stagnation_limit policy <=? count) then mret (Stopped (Some summary) "stagnation")
        else mret (Went summary diagnostic count)
  end.
(** The loop over the generations; it answers the summaries and why it stopped. *)
Fixpoint run_generations (n : nat) (campaign_id actor_id : string) (feedback : option (list GenomeRefinementRecommendation))
    (policy : CampaignStopPolicy) (summaries : list GenerationSummary) (previous : option float) (count : Z) :
    M MultiGenerationCampaignEngine (list GenerationSummary * option string) :=
  match n with
  | O => mret (summaries, None)
  | S n =>
      turn ← run_turn campaign_id actor_id feedback policy previous count;
      match turn with
      | Stopped summary reason => mret (summaries ++ option_list summary, Some reason)
      | Went summary diagnostic count =>
          run_generations n campaign_id actor_id feedback policy (summaries ++ [summary]) (Some diagnostic) count
      end
  end.
Definition run_campaign (campaign_id actor_id : string) (feedback : option (list GenomeRefinementRecommendation))
    (stop_policy : option CampaignStopPolicy) : M MultiGenerationCampaignEngine CampaignRunResult :=
  default_policy ← gets mg_stop_policy;
  let policy := default default_policy stop_policy in
  campaign ← orchestrate (get_campaign campaign_id);
  '(summaries, stopped) ← run_generations (Z.to_nat (sp_max_generations policy)) campaign_id actor_id feedback policy [] None 0;
  let stop_reason := default "max_generations_reached" stopped in
  _ ← orchestrate (update_campaign campaign_id (fun c =>
        if bool_decide (ec_status c <> "FAILED") then set_campaign_status "COMPLETED" c else c));
  _ ← orchestrate (touch_campaign campaign_id);
  campaign ← orchestrate (get_campaign campaign_id);
  elites ← gets (fun s => list_elites (ec_id campaign) (mg_memory s));
  let elite_count := Z.of_nat (length elites) in
  t ← orchestrate (on_engine stamp);
  _ ← orchestrate (on_engine (record_event (ec_id campaign) "multi_generation_campaign_completed" actor_id
        [("campaign_id", VStr (ec_id campaign)); ("generations_run", VInt (Z.of_nat (length summaries)));
         ("stop_reason", VStr stop_reason); ("status", VStr (ec_status campaign)); ("elite_count", VInt elite_count)]));
  mret {| cr_campaign_id := ec_id campaign; cr_generations_run := Z.of_nat (length summaries);
          cr_stop_reason := stop_reason; cr_status := ec_status campaign; cr_summaries := summaries;
          cr_elite_count := elite_count; cr_completed_at := t |}.
End Campaigns.
