(* ===== verification/SelfEngineSpec.v ===== *)
(** * Self-evolution: theorems on the engine

    Every call of the engine is a step of a small state machine on the proposal it
    names, or leaves no trace; what holds of a promotion follows by induction on
    the calls. *)

From Stdlib Require Import SpecFloat.
From S2P Require Import Prelude PyFloat PyVal PyText PyJson EvoModels Pareto SelfModels SelfEngine.
Open Scope Z_scope.

Section Spec.
Context `{Surroundings, Digests, !Parts}.
Implicit Types (s : SelfEvolutionEngine) (p : EvolutionProposal) (c : CandidateArchitecture).

(** ** The shape of a call *)

(** Only the outside world has moved. *)
Definition quiet (s s' : SelfEvolutionEngine) : Prop := exists w, s' = put_se_world w s.
(** The kind of an event, its actor and its details. *)
Record happening : Set := Happening { hp_type : string; hp_actor : string; hp_details : pydict }.
(** Just this event about a proposal was appended to the history. *)
Definition recorded (proposal_id : string) (e : happening) (h h' : EvolutionHistory) : Prop := exists t,
  h' = append_history (make_event proposal_id (hp_type e) (hp_actor e) (hp_details e) t (hi_last_event_hash h)) h.
(** A proposal was assigned to, its update time set, an event recorded; the tables
    beside the proposals are the given ones. *)
Record changed (proposal_id : string) (e : happening) (p' : EvolutionProposal)
    (cs : list (string * CandidateArchitecture)) (sims : list (string * SimulationResult))
    (pms : list (string * nat)) (heap : list PromotionRecord) (s s' : SelfEvolutionEngine) : Prop := {
  cg_proposals : exists t, se_proposals s' = dset proposal_id (set_updated t p') (se_proposals s);
  cg_history : recorded proposal_id e (se_history s) (se_history s');
  cg_policy : se_policy s' = se_policy s;
  cg_candidates : se_candidates s' = cs;
  cg_simulations : se_simulations s' = sims;
  cg_promotions : se_promotions s' = pms;
  cg_heap : se_heap s' = heap;
}.

Lemma quiet_refl s : quiet s s.
Proof. exists (se_world s). by destruct s. Qed.
Lemma quiet_put w s : quiet s (put_se_world w s).
Proof. by exists w. Qed.

(** ** Rules for the parts of a body *)

Lemma wp_in_world {A} (m : M World A) (Q : A -> SelfEvolutionEngine -> Prop) (E : exn -> SelfEvolutionEngine -> Prop) s :
  (forall a w, Q a (put_se_world w s)) -> (forall x w, E x (put_se_world w s)) -> wp (in_world m) Q E s.
Proof. intros HQ HE. apply wp_zoom_any; auto. Qed.
Lemma wp_stamp (Q : string -> SelfEvolutionEngine -> Prop) E s :
  (forall t w, Q t (put_se_world w s)) -> wp stamp Q E s.
Proof. intros HQ. unfold stamp. apply wp_zoom_any; [auto|]. intros e w. unfold timestamp. by unfold_monad. Qed.
Lemma wp_get_proposal proposal_id (Q : EvolutionProposal -> SelfEvolutionEngine -> Prop) (E : exn -> SelfEvolutionEngine -> Prop) s :
  (forall p, dget proposal_id (se_proposals s) = Some p -> Q p s) ->
  (dget proposal_id (se_proposals s) = None -> E (ProposalNotFoundError ("Evolution proposal not found: " +:+ proposal_id)) s) ->
  wp (get_proposal proposal_id) Q E s.
Proof. intros HQ HE. unfold get_proposal. do 2 wp_step. wp_step; wp_step; auto. Qed.
Lemma wp_require allowed msg p (Q : unit -> SelfEvolutionEngine -> Prop) (E : exn -> SelfEvolutionEngine -> Prop) s :
  (ep_status p ∈ allowed -> Q tt s) -> ((ep_status p ∉ allowed) -> E (InvalidStateError msg) s) ->
  wp (require_status allowed msg p) Q E s.
Proof.
  intros HQ HE. unfold require_status. apply wp_when.
  - intros Hm%negb_true_iff. wp_step. apply HE. by apply mem_false.
  - intros Hm%negb_false_iff. apply HQ. by apply mem_true.
Qed.

(** The candidate [latest_candidate] finds. *)
Definition latest (cs : list (string * CandidateArchitecture)) (p : EvolutionProposal) : option CandidateArchitecture :=
  match (if otruthy (ep_selected_candidate_id p) then dget (or_empty (ep_selected_candidate_id p)) cs else None) with
  | Some c => Some c
  | None => id ← last (ep_candidate_ids p); dget id cs
  end.
Lemma wp_latest_candidate p (Q : CandidateArchitecture -> SelfEvolutionEngine -> Prop) (E : exn -> SelfEvolutionEngine -> Prop) s :
  (forall c, latest (se_candidates s) p = Some c -> Q c s) ->
  (latest (se_candidates s) p = None -> forall m, E (InvalidStateError m) s) ->
  wp (latest_candidate p) Q E s.
Proof.
  intros HQ HE. unfold latest_candidate. do 2 wp_step. cbv zeta. unfold latest in *.
  destruct (if otruthy _ then _ else _) as [c|]; [wp_step; by apply HQ|].
  destruct (last (ep_candidate_ids p)) as [id|]; [|wp_step; by apply HE]. cbn in *.
  destruct (dget id (se_candidates s)); wp_step; by auto.
Qed.
(** The simulation [latest_simulation] finds. *)
Definition newest (sims : list (string * SimulationResult)) (p : EvolutionProposal) : option SimulationResult :=
  id ← last (ep_simulation_ids p); dget id sims.
Lemma wp_latest_simulation p (Q : SimulationResult -> SelfEvolutionEngine -> Prop) (E : exn -> SelfEvolutionEngine -> Prop) s :
  (forall r, newest (se_simulations s) p = Some r -> Q r s) -> (forall m, E (InvalidStateError m) s) -> wp (latest_simulation p) Q E s.
Proof.
  unfold newest. intros HQ HE. unfold latest_simulation. do 2 wp_step. destruct (last (ep_simulation_ids p)) as [id|]; [|wp_step; auto].
  cbn in HQ. destruct (dget id (se_simulations s)); wp_step; auto.
Qed.

(** The tail of every method: assign, touch, record. *)
Lemma wp_assign proposal_id f {A} (k : M SelfEvolutionEngine A)
    (Q : A -> SelfEvolutionEngine -> Prop) (E : exn -> SelfEvolutionEngine -> Prop) s p :
  dget proposal_id (se_proposals s) = Some p ->
  (forall t w, wp k Q E (put_proposals (dset proposal_id (set_updated t (f p)) (se_proposals s)) (put_se_world w s))) ->
  wp (_ ← update_proposal proposal_id f; _ ← touch proposal_id; k) Q E s.
Proof.
  intros Hp Hk. wp_step. unfold update_proposal. wp_step. rewrite Hp.
  wp_step. unfold touch. wp_step. apply wp_stamp. intros t w. unfold update_proposal. wp_step.
  cbn. rewrite dget_dset_eq. unfold put_proposals. cbn. rewrite dset_dset. apply Hk.
Qed.
Lemma wp_record proposal_id event_type actor details {A} (k : M SelfEvolutionEngine A)
    (Q : A -> SelfEvolutionEngine -> Prop) (E : exn -> SelfEvolutionEngine -> Prop) s :
  (forall t w, let e := make_event proposal_id event_type actor details t (hi_last_event_hash (se_history s)) in
     wp k Q E (put_history (append_history e (se_history s)) (put_se_world w s))) ->
  wp (_ ← record_event proposal_id event_type actor details; k) Q E s.
Proof.
  intros Hk. wp_step. unfold record_event. wp_step. apply wp_stamp. intros t w. do 3 wp_step. apply Hk.
Qed.
Lemma wp_conclude proposal_id f event_type actor details {A} (k : M SelfEvolutionEngine A)
    (Q : A -> SelfEvolutionEngine -> Prop) (E : exn -> SelfEvolutionEngine -> Prop) s p :
  dget proposal_id (se_proposals s) = Some p ->
  (forall s', changed proposal_id (Happening event_type actor details) (f p) (se_candidates s) (se_simulations s) (se_promotions s) (se_heap s) s s' ->
     wp k Q E s') ->
  wp (_ ← update_proposal proposal_id f; _ ← touch proposal_id;
      _ ← record_event proposal_id event_type actor details; k) Q E s.
Proof.
  intros Hp Hk. eapply wp_assign; [exact Hp|]. intros t w. apply wp_record. intros t' w'. cbv zeta.
  apply Hk. split; cbn; try done; by eexists.
Qed.
Lemma changed_get proposal_id e p' cs sims pms heap s s' : changed proposal_id e p' cs sims pms heap s s' ->
  exists t, dget proposal_id (se_proposals s') = Some (set_updated t p').
Proof. intros [(t & ->) _ _ _ _ _ _]. exists t. apply dget_dset_eq. Qed.
(** The parts of the state that a call moved before its tail do not matter. *)
Lemma changed_quiet proposal_id e p' cs sims pms heap s s1 s' :
  se_proposals s1 = se_proposals s -> se_history s1 = se_history s -> se_policy s1 = se_policy s ->
  changed proposal_id e p' cs sims pms heap s1 s' -> changed proposal_id e p' cs sims pms heap s s'.
Proof. intros Ep Eh Ey [P Hh Y C S' M' G]. split; congruence || (rewrite <- ?Ep, <- ?Eh; done). Qed.

(** ** The state machine

    What a call may do to the proposal it names, and to the tables beside it.
    [decision_allows] is the reading of a decision in [submit_for_approval]. *)
Definition approval_needed (policy : EvolutionPolicy) (d : GovernanceDecision) (r : EvolutionProposalRequest) : bool :=
  bool_decide (gd_decision d = "REQUIRE_APPROVAL") || forced_approval policy r
  || negb (ey_auto_approve_when_governance_allow policy).

(** A candidate's hash is that of its ISR, and its id that of its hash. *)
Definition genuine (c : CandidateArchitecture) : Prop :=
  ca_content_hash c = digest (VDict (ca_isr c)) /\ exists mutation_id,
  ca_id c = deterministic_id "candidate" [("proposal_id", VStr (ca_proposal_id c)); ("mutation_id", mutation_id);
                                          ("content_hash", VStr (ca_content_hash c))].

Inductive self_call : Set :=
| C_propose (request : EvolutionProposalRequest) (actor_id : string)
| C_mutate (proposal_id actor_id : string)
| C_simulate (proposal_id actor_id : string)
| C_verify (proposal_id actor_id : string)
| C_evaluate (proposal_id actor_id : string)
| C_submit (proposal_id actor_id : string)
| C_approve (proposal_id approver_id decision comments : string)
| C_promote (proposal_id environment actor_id : string)
| C_rollback (promotion_id reason actor_id : string).

(** The approval [approve] records. *)
Definition approval_by (approver decision comments t : string) : ApprovalRecord := {|
  ap_approver_id := approver; ap_decision := decision; ap_comments := comments; ap_governance_ref := None; ap_created_at := t |}.

(** [move id s p s' call raised]: from [s], the call [call], ending with the exception
    [raised] if any, leads to [s'] by this change of the proposal [p] found under
    [id].  Each rule is for one call: the proposal is the one the call names (or, for
    a rollback, the one of the promotion it names), the parts were asked in the
    world of [s], and the event carries the actor of the call. *)
Inductive move (proposal_id : string) (s : SelfEvolutionEngine) (p : EvolutionProposal) (s' : SelfEvolutionEngine) :
    self_call -> option exn -> Prop :=
| mv_mutated actor c w : (ep_status p = DRAFT \/ ep_status p = FAILED) ->
    part_mutation (rq_base_isr (ep_request p)) (rq_mutation (ep_request p)) (se_world s) = (Ok (ca_isr c), w) ->
    ca_proposal_id c = proposal_id -> genuine c ->
    changed proposal_id (Happening "candidate_mutated" actor [("candidate_id", VStr (ca_id c))])
      (set_status MUTATED None (set_candidates (ep_candidate_ids p ++ [ca_id c]) p))
      (dset (ca_id c) c (se_candidates s)) (se_simulations s) (se_promotions s) (se_heap s) s s' ->
    move proposal_id s p s' (C_mutate proposal_id actor) None
| mv_mutation_failed actor m w : (ep_status p = DRAFT \/ ep_status p = FAILED) ->
    part_mutation (rq_base_isr (ep_request p)) (rq_mutation (ep_request p)) (se_world s) = (Raise (MutationError m), w) ->
    changed proposal_id (Happening "mutation_failed" actor [("error", VStr m)]) (set_status FAILED (Some m) p)
      (se_candidates s) (se_simulations s) (se_promotions s) (se_heap s) s s' ->
    move proposal_id s p s' (C_mutate proposal_id actor) (Some (MutationError m))
| mv_simulated actor c r w : ep_status p = MUTATED -> latest (se_candidates s) p = Some c ->
    part_simulator c (se_world s) = (Ok r, w) ->
    changed proposal_id
      (Happening "simulation_completed" actor [("simulation_id", VStr (sm_id r)); ("status", VStr (sm_status r))])
      (if bool_decide (sm_status r = "FAILED")
       then set_status FAILED (Some "Architecture simulation failed.") (set_simulations (ep_simulation_ids p ++ [sm_id r]) p)
       else set_status SIMULATED None (set_simulations (ep_simulation_ids p ++ [sm_id r]) p))
      (se_candidates s) (dset (sm_id r) r (se_simulations s)) (se_promotions s) (se_heap s) s s' ->
    move proposal_id s p s' (C_simulate proposal_id actor) None
| mv_verified actor c v w : ep_status p = SIMULATED -> latest (se_candidates s) p = Some c ->
    part_verifier c p (se_world s) = (Ok v, w) ->
    changed proposal_id (Happening "verification_completed" actor [("valid", VBool (vf_valid v))])
      (if vf_valid v then set_status VERIFIED None (set_reports (Some v) (ep_fitness p) p)
       else set_status FAILED (Some "Verification failed.") (set_reports (Some v) (ep_fitness p) p))
      (se_candidates s) (se_simulations s) (se_promotions s) (se_heap s) s s' ->
    move proposal_id s p s' (C_verify proposal_id actor) None
| mv_evaluated actor c r f w : ep_status p = VERIFIED -> latest (se_candidates s) p = Some c ->
    newest (se_simulations s) p = Some r -> part_fitness c r (ep_verification p) (se_world s) = (Ok f, w) ->
    changed proposal_id (Happening "fitness_evaluated" actor [("fitness_id", VStr (fe_id f)); ("passed", VBool (fe_passed f))])
      (if fe_passed f then set_status EVALUATED None (set_reports (ep_verification p) (Some f) p)
       else set_status FAILED (Some "Fitness constraints were not satisfied.") (set_reports (ep_verification p) (Some f) p))
      (se_candidates s) (se_simulations s) (se_promotions s) (se_heap s) s s' ->
    move proposal_id s p s' (C_evaluate proposal_id actor) None
| mv_submitted actor d w : ep_status p = EVALUATED -> decide_governance (se_policy s) p (se_world s) = (Ok d, w) ->
    (let q := submitted (se_policy s) d (set_verdicts (Some d) (ep_approval p) (ep_promotion p) p) in
     changed proposal_id (Happening "approval_submitted" actor
         [("decision", VStr (gd_decision d)); ("status", VStr (proposal_status_value (ep_status q)))]) q
       (se_candidates s) (se_simulations s) (se_promotions s) (se_heap s) s s') ->
    move proposal_id s p s' (C_submit proposal_id actor) None
| mv_approved approver comments t : ep_status p = PENDING_APPROVAL ->
    changed proposal_id (Happening "approval_decided" approver [("decision", VStr "APPROVED")])
      (set_status APPROVED None
         (set_verdicts (ep_governance_decision p) (Some (approval_by approver "APPROVED" comments t)) (ep_promotion p) p))
      (se_candidates s) (se_simulations s) (se_promotions s) (se_heap s) s s' ->
    move proposal_id s p s' (C_approve proposal_id approver "APPROVED" comments) None
| mv_rejected approver comments t : ep_status p = PENDING_APPROVAL ->
    changed proposal_id (Happening "approval_decided" approver [("decision", VStr "REJECTED")])
      (set_status REJECTED (Some (if truthy comments then comments else "Proposal rejected by approver."))
         (set_verdicts (ep_governance_decision p) (Some (approval_by approver "REJECTED" comments t)) (ep_promotion p) p))
      (se_candidates s) (se_simulations s) (se_promotions s) (se_heap s) s s' ->
    move proposal_id s p s' (C_approve proposal_id approver "REJECTED" comments) None
| mv_promoted environment actor c v f t : ep_status p = APPROVED -> latest (se_candidates s) p = Some c ->
    ep_verification p = Some v -> vf_valid v = true -> ep_fitness p = Some f -> fe_passed f = true ->
    (let r := new_promotion proposal_id environment c t in
     changed proposal_id (Happening "promotion_completed" actor
         [("promotion_id", VStr (pm_id r)); ("environment", VStr environment)])
       (set_status PROMOTED (ep_error p)
         (set_verdicts (ep_governance_decision p) (ep_approval p) (Some (length (se_heap s))) p))
       (se_candidates s) (se_simulations s) (dset (pm_id r) (length (se_heap s)) (se_promotions s)) (se_heap s ++ [r]) s s') ->
    move proposal_id s p s' (C_promote proposal_id environment actor) None
| mv_rolled_back promotion_id reason actor a r t : find_promotion promotion_id s = Some (a, r) -> pm_status r = "ACTIVE" ->
    pm_proposal_id r = proposal_id ->
    changed proposal_id (Happening "rollback_completed" actor
        [("promotion_id", VStr promotion_id); ("reason", VStr reason)])
      (set_status ROLLED_BACK (ep_error p) p)
      (se_candidates s) (se_simulations s) (se_promotions s) (<[a := rolled_back t reason r]> (se_heap s)) s s' ->
    move proposal_id s p s' (C_rollback promotion_id reason actor) None.

(** ** Every call is a move or leaves no trace *)

Definition forget {A} (m : M SelfEvolutionEngine A) : M SelfEvolutionEngine unit := _ ← m; mret tt.
Definition perform (c : self_call) : M SelfEvolutionEngine unit :=
  match c with
  | C_propose request actor => forget (propose request actor)
  | C_mutate id actor => forget (mutate id actor)
  | C_simulate id actor => forget (simulate id actor)
  | C_verify id actor => forget (verify id actor)
  | C_evaluate id actor => forget (evaluate_fitness id actor)
  | C_submit id actor => forget (submit_for_approval id actor)
  | C_approve id approver decision comments => forget (approve id approver decision comments)
  | C_promote id environment actor => forget (promote id environment actor)
  | C_rollback id reason actor => forget (rollback id reason actor)
  end.

(** A new proposal is a draft without candidates. *)
Record drafted (p : EvolutionProposal) : Prop := {
  df_status : ep_status p = DRAFT;
  df_candidates : ep_candidate_ids p = [];
  df_promotion : ep_promotion p = None;
  df_selected : ep_selected_candidate_id p = None;
}.
Record created (p : EvolutionProposal) (actor : string) (s s' : SelfEvolutionEngine) : Prop := {
  cr_proposals : se_proposals s' = dset (ep_id p) p (se_proposals s);
  cr_history : recorded (ep_id p) (Happening "proposal_created" actor
    [("title", VStr (rq_title (ep_request p))); ("target_type", VStr (target_type_value (rq_target_type (ep_request p))))])
    (se_history s) (se_history s');
  cr_policy : se_policy s' = se_policy s;
  cr_candidates : se_candidates s' = se_candidates s;
  cr_simulations : se_simulations s' = se_simulations s;
  cr_promotions : se_promotions s' = se_promotions s;
  cr_heap : se_heap s' = se_heap s;
}.
Definition proposed (call : self_call) (s s' : SelfEvolutionEngine) : Prop := exists request actor p,
  call = C_propose request actor /\ propose request actor s = (Ok p, s') /\
  ep_request p = with_mutation (with_mutation_id (rq_mutation request)) request /\ drafted p /\ created p actor s s'.
(** A rollback of a promotion whose proposal is gone marks the promotion and records
    nothing. *)
Definition orphan_rolled_back (call : self_call) (s s' : SelfEvolutionEngine) : Prop := exists promotion_id reason actor a r t w,
  call = C_rollback promotion_id reason actor /\ find_promotion promotion_id s = Some (a, r) /\ pm_status r = "ACTIVE" /\
  dget (pm_proposal_id r) (se_proposals s) = None /\ s' = store_promotion a (rolled_back t reason r) (put_se_world w s).
(** The call moved the proposal it is about. *)
Definition moved (call : self_call) (raised : option exn) (s s' : SelfEvolutionEngine) : Prop := exists proposal_id p,
  dget proposal_id (se_proposals s) = Some p /\ move proposal_id s p s' call raised.
(** A mutation that failed: the proposal it names is marked FAILED with the message. *)
Definition mutation_failed (call : self_call) (x : exn) (s s' : SelfEvolutionEngine) : Prop := exists proposal_id actor m q,
  call = C_mutate proposal_id actor /\ x = MutationError m /\ moved call (Some x) s s' /\
  dget proposal_id (se_proposals s') = Some q /\ ep_status q = FAILED /\ ep_error q = Some m.
Lemma find_promotion_heap promotion_id s a r : find_promotion promotion_id s = Some (a, r) -> se_heap s !! a = Some r.
Proof.
  unfold find_promotion. destruct (dget promotion_id (se_promotions s)) as [a'|]; [|done]. cbn.
  destruct (se_heap s !! a') as [r'|] eqn:Ea; [|done]. cbn. congruence.
Qed.

Definition traceless (s : SelfEvolutionEngine) (x : exn) (s' : SelfEvolutionEngine) : Prop := quiet s s'.
Lemma wp_guard proposal_id allowed msg {A} (k : EvolutionProposal -> M SelfEvolutionEngine A)
    (Q : A -> SelfEvolutionEngine -> Prop) s (E : exn -> SelfEvolutionEngine -> Prop) :
  (forall x, E x s) ->
  (forall p, dget proposal_id (se_proposals s) = Some p -> ep_status p ∈ allowed -> wp (k p) Q E s) ->
  wp (p ← get_proposal proposal_id; _ ← require_status allowed msg p; k p) Q E s.
Proof.
  intros HE Hk. apply wp_bind, wp_get_proposal; [|auto]. intros p Hp. apply wp_bind, wp_require; auto.
Qed.

Lemma in_world_run {A} (m : M World A) (Q : A -> SelfEvolutionEngine -> Prop) (E : exn -> SelfEvolutionEngine -> Prop) s :
  (forall a w', m (se_world s) = (Ok a, w') -> Q a (put_se_world w' s)) ->
  (forall x w', m (se_world s) = (Raise x, w') -> E x (put_se_world w' s)) -> wp (in_world m) Q E s.
Proof. intros HQ HE. apply wp_zoom. destruct (m (se_world s)) as [[a|x] w] eqn:Em; auto. Qed.
(** Ends a body that made a move: the rule, after the changes before its tail. *)
Ltac moves Hp Hs rule :=
  eexists _, _; split; [exact Hp|]; eapply rule; [..|eapply changed_quiet; [..|exact Hs]]; try done.

Lemma mutate_moves proposal_id actor s (call := C_mutate proposal_id actor) :
  wp (mutate proposal_id actor) (fun _ => moved call None s) (fun x s' => quiet s s' \/ mutation_failed call x s s') s.
Proof.
  unfold mutate. apply wp_guard; [intros; left; apply quiet_refl|]. intros p Hp Hst.
  assert (Hst' : ep_status p = DRAFT \/ ep_status p = FAILED) by (rewrite !elem_of_cons, elem_of_nil in Hst; tauto).
  apply wp_bind, wp_try, in_world_run.
  - intros isr w Em. unfold make_candidate. apply wp_bind. cbv zeta. apply wp_bind, wp_stamp. intros t w'.
    destruct (ms_id _) as [spec_id|].
    + wp_step. wp_step. wp_step. eapply wp_conclude; [exact Hp|]. intros s' Hc. wp_step.
      moves Hp Hc mv_mutated. split; [done|by eexists].
    + wp_step. left. by exists w'.
  - intros x w Em. destruct x; try (wp_step; left; by eexists).
    eapply wp_conclude; [exact Hp|]. intros s' Hc. wp_step. right. apply changed_quiet with (s := s) in Hc; [|done..].
    destruct (changed_get _ _ _ _ _ _ _ _ _ Hc) as [t Hq]. eexists _, _, _, _. split_and!; [done|done| |exact Hq|done|done].
    exists proposal_id, p. split; [done|]. by eapply mv_mutation_failed.
Qed.
Lemma simulate_moves proposal_id actor s :
  wp (simulate proposal_id actor) (fun _ => moved (C_simulate proposal_id actor) None s) (traceless s) s.
Proof.
  unfold simulate. apply wp_guard; [intros; apply quiet_refl|]. intros p Hp Hst%list_elem_of_singleton.
  apply wp_bind, wp_latest_candidate; [|intros; apply quiet_refl]. intros c Hc.
  apply wp_bind, in_world_run; [|intros; apply quiet_put]. intros r w Er. wp_step. wp_step.
  eapply wp_conclude; [exact Hp|]. intros s' Hs. wp_step. by moves Hp Hs mv_simulated.
Qed.
Lemma verify_moves proposal_id actor s :
  wp (verify proposal_id actor) (fun _ => moved (C_verify proposal_id actor) None s) (traceless s) s.
Proof.
  unfold verify. apply wp_guard; [intros; apply quiet_refl|]. intros p Hp Hst%list_elem_of_singleton.
  apply wp_bind, wp_latest_candidate; [|intros; apply quiet_refl]. intros c Hc.
  apply wp_bind, in_world_run; [|intros; apply quiet_put]. intros v w' Ev.
  eapply wp_conclude; [exact Hp|]. intros s' Hs. wp_step. by moves Hp Hs mv_verified.
Qed.
Lemma evaluate_moves proposal_id actor s :
  wp (evaluate_fitness proposal_id actor) (fun _ => moved (C_evaluate proposal_id actor) None s) (traceless s) s.
Proof.
  unfold evaluate_fitness. apply wp_guard; [intros; apply quiet_refl|]. intros p Hp Hst%list_elem_of_singleton.
  apply wp_bind, wp_latest_candidate; [|intros; apply quiet_refl]. intros c Hc.
  apply wp_bind, wp_latest_simulation; [|intros; apply quiet_refl]. intros r Hr.
  apply wp_bind, in_world_run; [|intros; apply quiet_put]. intros f w' Ef.
  eapply wp_conclude; [exact Hp|]. intros s' Hs. wp_step. by moves Hp Hs mv_evaluated.
Qed.
Lemma submit_moves proposal_id actor s :
  wp (submit_for_approval proposal_id actor) (fun _ => moved (C_submit proposal_id actor) None s) (traceless s) s.
Proof.
  unfold submit_for_approval. apply wp_guard; [intros; apply quiet_refl|]. intros p Hp Hst%list_elem_of_singleton.
  do 2 wp_step. apply wp_bind, in_world_run; [|intros; apply quiet_put]. intros d w' Ed.
  eapply wp_assign; [exact Hp|]. intros t w. apply wp_bind, wp_get_proposal; cbn; rewrite dget_dset_eq; [|done].
  intros p' [= <-]. apply wp_record. intros t' w2. cbv zeta. apply wp_get_proposal; cbn; rewrite dget_dset_eq; [|done].
  intros _ _. exists proposal_id, p. split; [done|]. eapply mv_submitted; [done|exact Ed|].
  split; cbn; try done; by eexists.
Qed.
Lemma approve_moves proposal_id approver decision comments s :
  wp (approve proposal_id approver decision comments)
     (fun _ => moved (C_approve proposal_id approver decision comments) None s) (traceless s) s.
Proof.
  unfold approve. apply wp_guard; [intros; apply quiet_refl|]. intros p Hp Hst%list_elem_of_singleton.
  wp_step. apply wp_when; [intros; wp_step; apply quiet_refl|]. intros Hd%negb_false_iff%mem_true.
  rewrite !elem_of_cons, elem_of_nil in Hd. apply wp_bind, wp_stamp. intros t w. cbv zeta.
  eapply wp_conclude; [exact Hp|]. intros s' Hs. apply changed_quiet with (s := s) in Hs; [|done..].
  pose proof (changed_get _ _ _ _ _ _ _ _ _ Hs) as [t' Hget].
  apply wp_get_proposal; [|by rewrite Hget]. intros _ _. exists proposal_id, p. split; [done|].
  destruct Hd as [->|[->|[]]].
  - rewrite bool_decide_eq_true_2 in Hs by done. by apply (mv_approved _ _ _ _ _ _ t).
  - rewrite bool_decide_eq_false_2 in Hs by done. by apply (mv_rejected _ _ _ _ _ _ t).
Qed.
Lemma promote_moves proposal_id environment actor s :
  wp (promote proposal_id environment actor) (fun _ => moved (C_promote proposal_id environment actor) None s) (traceless s) s.
Proof.
  unfold promote. apply wp_guard; [intros; apply quiet_refl|]. intros p Hp Hst%list_elem_of_singleton.
  wp_step. apply wp_when; [intros; wp_step; apply quiet_refl|]. intros Hv%negb_false_iff.
  wp_step. apply wp_when; [intros; wp_step; apply quiet_refl|]. intros Hf%negb_false_iff.
  destruct (ep_verification p) as [v|] eqn:Ev; [|done]. destruct (ep_fitness p) as [f|] eqn:Ef; [|done].
  apply wp_bind, wp_latest_candidate; [|intros; apply quiet_refl]. intros c Hc.
  apply wp_bind, wp_stamp. intros t w. cbv zeta. do 4 wp_step.
  eapply wp_conclude; [exact Hp|]. intros s' Hs. wp_step. exists proposal_id, p. split; [done|].
  eapply (mv_promoted _ _ _ _ environment actor c v f t); try done. cbv zeta. eapply changed_quiet; [..|exact Hs]; done.
Qed.
Definition keyed (s : SelfEvolutionEngine) : Prop := forall k p, dget k (se_proposals s) = Some p -> ep_id p = k.
Lemma rollback_moves promotion_id reason actor s (call := C_rollback promotion_id reason actor) : keyed s ->
  wp (rollback promotion_id reason actor) (fun _ s' => moved call None s s' \/ orphan_rolled_back call s s') (traceless s) s.
Proof.
  intros Hk. unfold rollback. do 2 wp_step. destruct (find_promotion promotion_id s) as [[a r]|] eqn:E; [|wp_step; apply quiet_refl].
  destruct (decide (pm_status r = "ACTIVE")) as [Hst|Hst];
    [rewrite bool_decide_eq_false_2 by auto|rewrite bool_decide_eq_true_2 by done; wp_step; apply quiet_refl].
  apply wp_bind, wp_stamp. intros t w. cbv zeta. do 4 wp_step. cbn [store_promotion put_se_world se_proposals rolled_back pm_proposal_id].
  destruct (dget (pm_proposal_id r) (se_proposals s)) as [p|] eqn:Ep.
  - eapply wp_assign; [exact Ep|]. intros t1 w1. apply wp_record. intros t2 w2. cbv zeta. wp_step. left.
    exists (pm_proposal_id r), p. split; [done|]. eapply (mv_rolled_back _ _ _ _ promotion_id reason actor a r t); try done.
    split; cbn; try done; [by exists t1|]. rewrite (Hk _ _ Ep). by eexists.
  - wp_step. right. by exists promotion_id, reason, actor, a, r, t, w.
Qed.

Lemma propose_moves request actor s :
  wp (propose request actor) (fun p s' => ep_request p = with_mutation (with_mutation_id (rq_mutation request)) request /\
    drafted p /\ created p actor s s') (traceless s) s.
Proof.
  unfold propose. apply wp_bind, wp_stamp. intros t w. cbv zeta. do 2 wp_step. apply wp_record. intros t' w'.
  cbv zeta. wp_step. split; [done|]. split; [done|]. split; try done. by eexists.
Qed.
Lemma wp_forget {A} (m : M SelfEvolutionEngine A) (Q : unit -> SelfEvolutionEngine -> Prop) E s :
  wp m (fun _ => Q tt) E s -> wp (forget m) Q E s.
Proof. intros Hm. apply wp_bind. eapply wp_mono; [exact Hm|done|done]. Qed.

Lemma call_shape call s : keyed s ->
  wp (perform call) (fun _ s' => moved call None s s' \/ proposed call s s' \/ orphan_rolled_back call s s')
     (fun x s' => quiet s s' \/ mutation_failed call x s s') s.
Proof.
  intros Hk. assert (Hq : forall x s', traceless s x s' -> quiet s s' \/ mutation_failed call x s s') by (by left).
  destruct call as [request actor| | | | | | | |]; [|apply wp_forget; (eapply wp_mono; [first
    [apply mutate_moves|apply simulate_moves|apply verify_moves|apply evaluate_moves
    |apply submit_moves|apply approve_moves|apply promote_moves|by apply rollback_moves]| |]); cbn; auto..].
  - pose proof (propose_moves request actor s) as Hw. unfold wp, perform, forget in *. unfold_monad.
    destruct (propose request actor s) as [[p|x] s'] eqn:E; [|by left]. right. left. by exists request, actor, p.
  - intros _ s' [?|?]; auto.
Qed.


(** ** What a promotion rests on *)

(** The verifier and the fitness evaluator name the candidate they judge. *)
Class PartLaws : Prop := {
  law_verifier c p w v w' : part_verifier c p w = (Ok v, w') -> vf_candidate_id v = ca_id c;
  law_fitness c r v w f w' : part_fitness c r v w = (Ok f, w') -> fe_candidate_id f = ca_id c;
}.
Context `{!PartLaws}.

(** The reports are about the last candidate, as the parts gave them: [judged] and
    [measured] say for which arguments. *)
Definition judged (v : VerificationReport) (c : CandidateArchitecture) (r : EvolutionProposalRequest) : Prop :=
  exists p0 w w', part_verifier c p0 w = (Ok v, w') /\ ep_request p0 = r.
Definition measured (f : FitnessEvaluation) (c : CandidateArchitecture) (v : option VerificationReport) : Prop :=
  exists r w w', part_fitness c r v w = (Ok f, w').
Definition verified (p : EvolutionProposal) : Prop := exists v c,
  ep_verification p = Some v /\ vf_valid v = true /\ last (ep_candidate_ids p) = Some (ca_id c) /\ genuine c /\
  vf_candidate_id v = ca_id c /\ judged v c (ep_request p).
Definition evaluated (p : EvolutionProposal) : Prop := exists f c,
  ep_fitness p = Some f /\ fe_passed f = true /\ last (ep_candidate_ids p) = Some (ca_id c) /\ genuine c /\
  fe_candidate_id f = ca_id c /\ measured f c (ep_verification p).
(** Governance did not deny, and an approver approved where that is needed. *)
Definition governed (policy : EvolutionPolicy) (p : EvolutionProposal) : Prop := exists d,
  ep_governance_decision p = Some d /\ gd_decision d <> "DENY" /\
  (approval_needed policy d (ep_request p) = true -> exists a, ep_approval p = Some a /\ ap_decision a = "APPROVED").

Record proposal_ok (policy : EvolutionPolicy) (p : EvolutionProposal) : Prop := {
  po_selected : ep_selected_candidate_id p = None;
  po_verified : ep_status p ∈ [VERIFIED; EVALUATED; PENDING_APPROVAL; APPROVED; PROMOTED; ROLLED_BACK] -> verified p;
  po_evaluated : ep_status p ∈ [EVALUATED; PENDING_APPROVAL; APPROVED; PROMOTED; ROLLED_BACK] -> evaluated p;
  po_pending : ep_status p = PENDING_APPROVAL -> exists d, ep_governance_decision p = Some d /\ gd_decision d <> "DENY";
  po_governed : ep_status p ∈ [APPROVED; PROMOTED; ROLLED_BACK] -> governed policy p;
  po_promotion : ep_promotion p <> None -> ep_status p ∈ [PROMOTED; ROLLED_BACK];
}.
(** The proposal and its promotion record agree. *)
Record paired (k : string) (p : EvolutionProposal) (r : PromotionRecord) : Prop := {
  pa_proposal : pm_proposal_id r = k;
  pa_candidate : last (ep_candidate_ids p) = Some (pm_candidate_id r);
  pa_status : (ep_status p = PROMOTED /\ pm_status r = "ACTIVE") \/ (ep_status p = ROLLED_BACK /\ pm_status r = "ROLLED_BACK");
}.
Record engine_ok (s : SelfEvolutionEngine) : Prop := {
  eo_keyed : keyed s;
  eo_candidates k c : dget k (se_candidates s) = Some c -> ca_id c = k /\ genuine c;
  eo_each k p : dget k (se_proposals s) = Some p -> proposal_ok (se_policy s) p;
  eo_promoted k p a : dget k (se_proposals s) = Some p -> ep_promotion p = Some a ->
    exists r, se_heap s !! a = Some r /\ paired k p r;
  eo_records a r : se_heap s !! a = Some r ->
    exists p, dget (pm_proposal_id r) (se_proposals s) = Some p /\ ep_promotion p = Some a;
}.

Lemma latest_is_last s p c : engine_ok s -> ep_selected_candidate_id p = None ->
  latest (se_candidates s) p = Some c -> last (ep_candidate_ids p) = Some (ca_id c) /\ genuine c.
Proof.
  intros Hs Hsel. unfold latest. rewrite Hsel. cbn. destruct (last (ep_candidate_ids p)) as [id|]; [|done]. cbn.
  intros Hc. by apply (eo_candidates s Hs) in Hc as [<- ?].
Qed.

(** The proposal after a move. *)
(** Membership of a known status in a list of them. *)
Ltac statuses :=
  first
    [ apply (bool_decide_unpack _); vm_compute; exact I
    | intros; match goal with
      | Hin : _ ∈ _ :: _ |- _ => exfalso; apply (bool_decide_eq_true_2 _) in Hin; vm_compute in Hin; discriminate Hin
      end
    | intros; discriminate ].
Lemma move_proposal_ok proposal_id s p s' call raised : engine_ok s -> dget proposal_id (se_proposals s) = Some p ->
  move proposal_id s p s' call raised ->
  exists p' t, se_proposals s' = dset proposal_id (set_updated t p') (se_proposals s) /\
    ep_id p' = ep_id p /\ proposal_ok (se_policy s) p'.
Proof.
  intros Hs Hp Hm. destruct (eo_each s Hs _ _ Hp) as [P1 P2 P3 P4 P5 P6].
  assert (Hno : (ep_status p ∉ [PROMOTED; ROLLED_BACK]) -> ep_promotion p = None).
  { intros Hst. destruct (ep_promotion p) eqn:Ep; [|done]. destruct Hst. by apply P6. }
  destruct Hm as [actor c w0 Hst Em _ Hgen Hc|actor m w0 Hst Em Hc|actor c r w0 Hst Hl Er Hc|actor c v w0 Hst Hl Ev Hc|actor c r f w0 Hst Hl Hnew Ef Hc
                 |actor d w0 Hst Ed Hc|approver comments t1 Hst Hc|approver comments t1 Hst Hc|en actor c v f t1 Hst Hl Ev Hv Ef Hf Hc
                 |promotion_id reason actor a r t1 Hfind Ha Hpid Hc];
    destruct (cg_proposals _ _ _ _ _ _ _ _ _ Hc) as [t0 Et];
    (eexists _, t0; split; [exact Et|]; split; [try done|]).
  all: try (by unfold submitted; repeat case_match).
  all: try apply find_promotion_heap in Hfind as Hr.
  - split; cbn; [done|statuses..| |]; [statuses|]. rewrite Hno; [done|]. destruct Hst as [-> | ->]; statuses.
  - split; cbn; [done|statuses..|]. rewrite Hno; [done|]. destruct Hst as [-> | ->]; statuses.
  - case_match; (split; cbn; [done|statuses..|]; rewrite Hno; [done|]; rewrite Hst; statuses).
  - destruct (latest_is_last s p c Hs P1 Hl) as [El Hgen]. pose proof (law_verifier _ _ _ _ _ Ev) as Eid.
    destruct (vf_valid v) eqn:Hv; (split; cbn; [done| |statuses..|]; [try statuses|rewrite Hno; [done|]; rewrite Hst; statuses]).
    intros _. exists v, c. split_and!; try done. by exists p, (se_world s), w0.
  - destruct (latest_is_last s p c Hs P1 Hl) as [El Hgen]. pose proof (law_fitness _ _ _ _ _ _ Ef) as Eid.
    assert (Hver : verified p) by (apply P2; rewrite Hst; statuses).
    destruct (fe_passed f) eqn:Hf; (split; cbn; [done|try statuses|try statuses|statuses..|];
      [..|rewrite Hno; [done|]; rewrite Hst; statuses]); intros _; [done|exists f, c; split_and!; try done; by exists r, (se_world s), w0].
  - unfold submitted. assert (Hnone : ep_promotion p = None) by (apply Hno; rewrite Hst; statuses).
    assert (Hver : verified p) by (apply P2; rewrite Hst; statuses).
    assert (Heva : evaluated p) by (apply P3; rewrite Hst; statuses).
    case_bool_decide as Hd; [split; cbn; [done|statuses..|by rewrite Hnone]|].
    assert (Hpend : proposal_ok (se_policy s) (set_status PENDING_APPROVAL (ep_error p)
              (set_verdicts (Some d) (ep_approval p) (ep_promotion p) p))).
    { split; cbn; [done|done|done| |statuses|by rewrite Hnone]. intros _. by exists d. }
    case_bool_decide as Hr; [done|]. destruct (forced_approval _ _) eqn:Hf; [done|].
    destruct (ey_auto_approve_when_governance_allow _) eqn:Hauto; [|done].
    split; cbn; [done|done|done|statuses| |by rewrite Hnone]. intros _. exists d. split_and!; [done|done|].
    unfold approval_needed. cbn in *. rewrite bool_decide_eq_false_2 by done. rewrite Hf, Hauto. done.
  - assert (Hnone : ep_promotion p = None) by (apply Hno; rewrite Hst; statuses).
    destruct (P4 Hst) as (d & Ed & Hd).
    split; cbn; [done|intros _; apply P2; rewrite Hst; statuses|intros _; apply P3; rewrite Hst; statuses|statuses| |by rewrite Hnone].
    intros _. exists d. split_and!; [done|done|]. intros _. by eexists.
  - assert (Hnone : ep_promotion p = None) by (apply Hno; rewrite Hst; statuses).
    split; cbn; [done|statuses..|by rewrite Hnone].
  - split; cbn; [done|intros _; apply P2; rewrite Hst; statuses|intros _; apply P3; rewrite Hst; statuses|statuses| |intros; statuses].
    intros _. apply P5. rewrite Hst. statuses.
  - destruct (eo_records s Hs a r Hr) as (p0 & Hp0 & Ha0). rewrite Hpid, Hp in Hp0. injection Hp0 as <-.
    pose proof (P6 ltac:(by rewrite Ha0)) as Hst.
    assert (Hst' : ep_status p = PROMOTED \/ ep_status p = ROLLED_BACK) by (rewrite !elem_of_cons, elem_of_nil in Hst; tauto).
    split; cbn; [done| | |statuses| |intros; statuses]; intros _;
      [apply P2|apply P3|apply P5]; destruct Hst' as [-> | ->]; statuses.
Qed.

Lemma changed_ok proposal_id ev p p' cs sims pms heap s s' : engine_ok s ->
  dget proposal_id (se_proposals s) = Some p ->
  changed proposal_id ev p' cs sims pms heap s s' -> ep_id p' = ep_id p -> proposal_ok (se_policy s) p' ->
  (forall k c, dget k cs = Some c -> ca_id c = k /\ genuine c) ->
  (forall a, ep_promotion p' = Some a -> exists r, heap !! a = Some r /\ paired proposal_id p' r) ->
  (forall k q a, k <> proposal_id -> dget k (se_proposals s) = Some q -> ep_promotion q = Some a -> heap !! a = se_heap s !! a) ->
  (forall a r, heap !! a = Some r -> (pm_proposal_id r = proposal_id /\ ep_promotion p' = Some a) \/
                                     (pm_proposal_id r <> proposal_id /\ se_heap s !! a = Some r)) ->
  engine_ok s'.
Proof.
  intros Hs Hp [(t & Et) _ Ey Ec _ _ Eh] Eid Hok Hcs Hmine Hothers Hrecords.
  assert (Hget : forall k, dget k (se_proposals s') = if decide (k = proposal_id) then Some (set_updated t p') else dget k (se_proposals s)).
  { intros k. rewrite Et. apply dget_dset. }
  split.
  - intros k q. rewrite Hget. destruct (decide (k = proposal_id)) as [->|Hne].
    + intros [= <-]. cbn. rewrite Eid. by apply (eo_keyed s Hs).
    + by apply (eo_keyed s Hs).
  - by rewrite Ec.
  - intros k q. rewrite Hget, Ey. destruct (decide (k = proposal_id)) as [->|Hne]; [|by apply (eo_each s Hs)].
    intros [= <-]. destruct Hok as [O1 O2 O3 O4 O5 O6]. by split.
  - intros k q a. rewrite Hget, Eh. destruct (decide (k = proposal_id)) as [->|Hne].
    + intros [= <-]. cbn. intros Ha. destruct (Hmine a Ha) as (r & Hr & [R1 R2 R3]). exists r. split; [done|by split].
    + intros Hq Ha. rewrite (Hothers k q a) by done. by apply (eo_promoted s Hs).
  - intros a r. rewrite Eh, Hget. intros Hr. destruct (Hrecords a r Hr) as [[E Ha]|[Hne Hr']].
    + rewrite decide_True by done. by eexists.
    + rewrite decide_False by done. by apply (eo_records s Hs).
Qed.
(** A move of a proposal without a promotion that leaves the promotions. *)
Lemma unpromoted_ok proposal_id ev p p' cs sims s s' : engine_ok s ->
  dget proposal_id (se_proposals s) = Some p -> (ep_status p ∉ [PROMOTED; ROLLED_BACK]) ->
  changed proposal_id ev p' cs sims (se_promotions s) (se_heap s) s s' -> ep_id p' = ep_id p ->
  ep_promotion p' = ep_promotion p -> proposal_ok (se_policy s) p' ->
  (forall k c, dget k cs = Some c -> ca_id c = k /\ genuine c) -> engine_ok s'.
Proof.
  intros Hs Hp Hst Hc Eid Epm Hok Hcs.
  assert (Hnone : ep_promotion p = None).
  { destruct (ep_promotion p) eqn:E; [|done]. destruct Hst. apply (po_promotion _ _ (eo_each s Hs _ _ Hp)). by rewrite E. }
  eapply (changed_ok proposal_id ev p p'); try done; [by rewrite Epm, Hnone|].
  intros a r Hr. destruct (decide (pm_proposal_id r = proposal_id)) as [E|]; [|by right].
  destruct (eo_records s Hs a r Hr) as (q & Hq & Ha). rewrite E, Hp in Hq. injection Hq as <-. congruence.
Qed.
Lemma dset_candidates_genuine c cs : genuine c -> (forall k c, dget k cs = Some c -> ca_id c = k /\ genuine c) ->
  forall k c', dget k (dset (ca_id c) c cs) = Some c' -> ca_id c' = k /\ genuine c'.
Proof. intros Hc Hcs k c'. rewrite dget_dset. case_decide; [by intros [= <-]|apply Hcs]. Qed.

Lemma set_updated_inj t t' p1 p2 (ps : list (string * EvolutionProposal)) (proposal_id : string) :
  dset proposal_id (set_updated t p1) ps = dset proposal_id (set_updated t' p2) ps ->
  set_updated t p1 = set_updated t' p2.
Proof.
  intros E. apply (f_equal (dget proposal_id)) in E. rewrite !dget_dset_eq in E. by apply (inj Some) in E.
Qed.
Lemma updated_ok policy t p : proposal_ok policy (set_updated t p) -> proposal_ok policy p.
Proof. intros [O1 O2 O3 O4 O5 O6]. by split. Qed.
Lemma ok_updated policy t p : proposal_ok policy p -> proposal_ok policy (set_updated t p).
Proof. intros [O1 O2 O3 O4 O5 O6]. by split. Qed.

Lemma move_ok proposal_id s p s' call raised : engine_ok s -> dget proposal_id (se_proposals s) = Some p ->
  move proposal_id s p s' call raised -> engine_ok s'.
Proof.
  intros Hs Hp Hm. destruct (move_proposal_ok proposal_id s p s' call raised Hs Hp Hm) as (q & t & Eq & Eid & Hq).
  assert (Hok : forall ev p' cs sims pms heap, changed proposal_id ev p' cs sims pms heap s s' -> proposal_ok (se_policy s) p').
  { intros ev p' cs sims pms heap [(t' & E) _ _ _ _ _ _]. rewrite Eq in E. apply set_updated_inj in E.
    apply (updated_ok _ t'). rewrite <- E. by apply ok_updated. }
  pose proof (eo_candidates s Hs) as Hcs. pose proof (po_promotion _ _ (eo_each s Hs _ _ Hp)) as Hpm.
  destruct Hm as [actor c w0 Hst Em _ Hgen Hc|actor m w0 Hst Em Hc|actor c r w0 Hst Hl Er Hc|actor c v w0 Hst Hl Ev Hc|actor c r f w0 Hst Hl Hnew Ef Hc
                 |actor d w0 Hst Ed Hc|approver comments t1 Hst Hc|approver comments t1 Hst Hc|en actor c v f t1 Hst Hl Ev Hv Ef Hf Hc
                 |promotion_id reason actor a r t1 Hfind Ha Hpid Hc];
    pose proof (Hok _ _ _ _ _ _ Hc) as Hpo; try apply find_promotion_heap in Hfind as Hr.
  1-8: eapply (unpromoted_ok proposal_id _ p _ _ _ s s'); [done|done| |exact Hc| | |done|by first [exact Hcs|apply dset_candidates_genuine]];
    [try (rewrite Hst; statuses); destruct Hst as [Hst|Hst]; rewrite Hst; statuses
    |by cbv zeta; unfold submitted; repeat case_match|by cbv zeta; unfold submitted; repeat case_match].
  - cbv zeta in Hc. set (r := new_promotion proposal_id en c t1) in *.
    destruct (latest_is_last s p c Hs (po_selected _ _ (eo_each s Hs _ _ Hp)) Hl) as [El _].
    assert (Hnone : ep_promotion p = None).
    { destruct (ep_promotion p) eqn:E; [|done]. exfalso. specialize (Hpm ltac:(done)). rewrite Hst in Hpm. revert Hpm. statuses. }
    eapply (changed_ok proposal_id _ p); [done|done|exact Hc|done|done|done| | |].
    + cbn. intros a [= <-]. exists r. split; [by rewrite lookup_app_r, Nat.sub_diag by lia|]. split; [done|done|by left].
    + intros k q' a Hne Hq' Ha. destruct (eo_promoted s Hs _ _ _ Hq' Ha) as (r' & Hr' & _).
      by rewrite lookup_app_l by (by eapply lookup_lt_Some).
    + intros a r'. rewrite lookup_app_Some. intros [Hr'|[Hlen Hr']].
      * destruct (decide (pm_proposal_id r' = proposal_id)) as [E|]; [|by right].
        destruct (eo_records s Hs a r' Hr') as (q' & Hq' & Ha). rewrite E, Hp in Hq'. injection Hq' as <-. congruence.
      * apply list_lookup_singleton_Some in Hr' as [Ea <-]. left. split; [done|]. cbn. f_equal. lia.
  - destruct (eo_records s Hs a r Hr) as (q' & Hq' & Hpa). rewrite Hpid, Hp in Hq'. injection Hq' as <-.
    destruct (eo_promoted s Hs _ _ _ Hp Hpa) as (r' & Hr' & [R1 R2 R3]). rewrite Hr in Hr'. injection Hr' as <-.
    eapply (changed_ok proposal_id _ p); [done|done|exact Hc|done|done|done| | |].
    + cbn. intros a' Ha'. rewrite Hpa in Ha'. injection Ha' as <-. eexists. split; [apply list_lookup_insert_eq; by eapply lookup_lt_Some|].
      split; [done|done|by right].
    + intros k q' a' Hne Hq' Ha'. destruct (decide (a = a')) as [<-|]; [|by rewrite list_lookup_insert_ne].
      destruct (eo_promoted s Hs _ _ _ Hq' Ha') as (r' & Hr' & [E _ _]). rewrite Hr in Hr'. injection Hr' as <-. congruence.
    + intros a' r'. destruct (decide (a = a')) as [<-|Hne].
      * rewrite list_lookup_insert_eq by (by eapply lookup_lt_Some). intros [= <-]. by left.
      * rewrite list_lookup_insert_ne by done. intros Hr'. destruct (decide (pm_proposal_id r' = proposal_id)) as [E|]; [|by right].
        destruct (eo_records s Hs a' r' Hr') as (q' & Hq' & Ha'). rewrite E, Hp in Hq'. injection Hq' as <-. congruence.
Qed.

(** ** Reachable states *)

Lemma quiet_ok s s' : engine_ok s -> quiet s s' -> engine_ok s'.
Proof. intros [? ? ? ? ?] [w ->]. by split. Qed.
Lemma moved_ok call raised s s' : engine_ok s -> moved call raised s s' -> engine_ok s'.
Proof. intros Hs (k & p & Hp & Hm). by eapply move_ok. Qed.
Lemma created_ok s p actor s' : engine_ok s -> drafted p -> dget (ep_id p) (se_proposals s) = None -> created p actor s s' -> engine_ok s'.
Proof.
  intros Hs [Dst Dc Dp Dsel] Hnew [Ep _ Ey Ec _ _ Eh].
  assert (Hget : forall k, dget k (se_proposals s') = if decide (k = ep_id p) then Some p else dget k (se_proposals s)).
  { intros k. rewrite Ep. apply dget_dset. }
  split.
  - intros k q. rewrite Hget. case_decide; [by intros [= <-]|by apply (eo_keyed s Hs)].
  - rewrite Ec. by apply (eo_candidates s Hs).
  - intros k q. rewrite Hget, Ey. case_decide; [|by apply (eo_each s Hs)]. intros [= <-].
    split; rewrite ?Dst; [done|statuses..|by rewrite Dp].
  - intros k q a. rewrite Hget, Eh. case_decide; [intros [= <-]; by rewrite Dp|by apply (eo_promoted s Hs)].
  - intros a r. rewrite Eh, Hget. intros Hr. destruct (eo_records s Hs a r Hr) as (q & Hq & Ha).
    rewrite decide_False by congruence. by exists q.
Qed.
(** The id of a proposal that is about to be made is not in use. *)
Definition unused_id (call : self_call) (s : SelfEvolutionEngine) : Prop :=
  match call with
  | C_propose request actor => match propose request actor s with
                               | (Ok p, _) => dget (ep_id p) (se_proposals s) = None
                               | _ => True
                               end
  | _ => True
  end.
Inductive reachable (policy : EvolutionPolicy) : SelfEvolutionEngine -> Prop :=
| re_new w : reachable policy (new_self_engine policy w)
| re_call call s s' r : reachable policy s -> unused_id call s -> perform call s = (r, s') -> reachable policy s'.

Lemma move_policy proposal_id s p s' call raised : move proposal_id s p s' call raised -> se_policy s' = se_policy s.
Proof.
  assert (Hc : forall ev p' cs sims pms heap, changed proposal_id ev p' cs sims pms heap s s' -> se_policy s' = se_policy s).
  { by intros ev p' cs sims pms heap []. }
  destruct 1; eauto.
Qed.
Lemma call_ok call s r s' : engine_ok s -> unused_id call s -> perform call s = (r, s') ->
  engine_ok s' /\ se_policy s' = se_policy s.
Proof.
  intros Hs Hu E.
  assert (Hmoved : forall raised s', moved call raised s s' -> engine_ok s' /\ se_policy s' = se_policy s).
  { intros raised s2 Hm. split; [by apply (moved_ok call raised s)|]. destruct Hm as (k & p & _ & Hm). by eapply move_policy. }
  assert (Hquiet : forall s', quiet s s' -> engine_ok s' /\ se_policy s' = se_policy s).
  { intros s2 Hq. split; [by apply (quiet_ok s)|]. by destruct Hq as [w ->]. }
  pose proof (call_shape call s (eo_keyed s Hs)) as Hw. unfold wp in Hw. rewrite E in Hw.
  destruct r; [|destruct Hw as [|(? & ? & ? & ? & _ & _ & ? & _)]; eauto].
  destruct Hw as [?|[(request & actor & p & -> & Ep & _ & Hd & Hc)|Ho]]; [by eapply Hmoved| |].
  - cbn in Hu. rewrite Ep in Hu. split; [by apply (created_ok s p actor)|by destruct Hc].
  - destruct Ho as (pid & reason & actor & a1 & r1 & t & w & _ & Hf & _ & Hnone & _). apply find_promotion_heap in Hf.
    destruct (eo_records s Hs a1 r1 Hf) as (q & Hq & _). congruence.
Qed.
Lemma reachable_ok policy s : reachable policy s -> engine_ok s /\ se_policy s = policy.
Proof.
  induction 1 as [w|call s s' r _ [IH <-] Hu E]; [|by eapply call_ok].
  split; [|done]. by split; cbn.
Qed.

(** C4: in every state the engine reaches (the id of a new proposal being unused,
    the verifier and the evaluator naming the candidate they judge), each promotion
    record belongs to the one proposal that points to it, with a valid verification
    and a passing fitness of the very candidate promoted, a governance decision that
    is not DENY and, where the policy or the decision asks for it, an approval; and
    the record is active exactly while the proposal is PROMOTED. *)
Theorem promotions_are_earned policy s a r : reachable policy s -> se_heap s !! a = Some r ->
  exists p v f d, dget (pm_proposal_id r) (se_proposals s) = Some p /\ ep_promotion p = Some a /\
    ep_verification p = Some v /\ vf_valid v = true /\ vf_candidate_id v = pm_candidate_id r /\
    ep_fitness p = Some f /\ fe_passed f = true /\ fe_candidate_id f = pm_candidate_id r /\
    ep_governance_decision p = Some d /\ gd_decision d <> "DENY" /\
    (approval_needed policy d (ep_request p) = true -> exists ap, ep_approval p = Some ap /\ ap_decision ap = "APPROVED") /\
    ((ep_status p = PROMOTED /\ pm_status r = "ACTIVE") \/ (ep_status p = ROLLED_BACK /\ pm_status r = "ROLLED_BACK")).
Proof.
  intros [Hs <-]%reachable_ok Hr. destruct (eo_records s Hs a r Hr) as (p & Hp & Ha).
  destruct (eo_promoted s Hs _ _ _ Hp Ha) as (r' & Hr' & [_ Hc Hst]). rewrite Hr in Hr'. injection Hr' as <-.
  destruct (eo_each s Hs _ _ Hp) as [_ P2 P3 _ P5 _].
  assert (Hst' : ep_status p ∈ [APPROVED; PROMOTED; ROLLED_BACK]) by (destruct Hst as [[-> _]|[-> _]]; statuses).
  destruct P2 as (v & c & ? & ? & Ev & _ & ? & _); [destruct Hst as [[-> _]|[-> _]]; statuses|].
  destruct P3 as (f & c' & ? & ? & Ef & _ & ? & _); [destruct Hst as [[-> _]|[-> _]]; statuses|].
  destruct (P5 Hst') as (d & ? & ? & ?). exists p, v, f, d. rewrite Hc in Ev, Ef. injection Ev as Ev. injection Ef as Ef. split_and!; try done; congruence.
Qed.
(** ** The candidate that was verified is still the one in the table

    Digests having no collision, no other proposal stores a candidate under its id. *)
Section Certified.
Context `{!DigestLaws}.

Definition certified (cs : list (string * CandidateArchitecture)) (p : EvolutionProposal) : Prop := exists c v,
  last (ep_candidate_ids p) = Some (ca_id c) /\ dget (ca_id c) cs = Some c /\
  ep_verification p = Some v /\ vf_valid v = true /\ judged v c (ep_request p).
Abbreviation checked := [VERIFIED; EVALUATED; PENDING_APPROVAL; APPROVED; PROMOTED; ROLLED_BACK].
Record kept (s : SelfEvolutionEngine) : Prop := {
  kt_owned k p id : dget k (se_proposals s) = Some p -> id ∈ ep_candidate_ids p ->
    exists c, dget id (se_candidates s) = Some c /\ ca_proposal_id c = k;
  kt_certified k p : dget k (se_proposals s) = Some p -> ep_status p ∈ checked -> certified (se_candidates s) p;
}.
(** The id of a candidate names its proposal and its content. *)
Lemma genuine_same c1 c2 : genuine c1 -> genuine c2 -> ca_id c1 = ca_id c2 ->
  ca_proposal_id c1 = ca_proposal_id c2 /\ ca_content_hash c1 = ca_content_hash c2.
Proof.
  intros [_ (m1 & E1)] [_ (m2 & E2)] E. rewrite E1, E2 in E. apply deterministic_id_injective in E. vm_compute in E.
  injection E as Eh _ Ep. split; [exact Ep|exact Eh].
Qed.
Lemma kept_changed proposal_id ev p p' sims pms heap s s' : kept s -> dget proposal_id (se_proposals s) = Some p ->
  changed proposal_id ev p' (se_candidates s) sims pms heap s s' -> ep_candidate_ids p' = ep_candidate_ids p ->
  (ep_status p' ∈ checked -> certified (se_candidates s) p') -> kept s'.
Proof.
  intros [Ho Hc] Hp [(t & Et) _ _ Ec _ _ _] Eids Hp'. split; intros k q; rewrite Et, Ec, dget_dset; case_decide as Ek; [|apply Ho| |apply Hc].
  - subst k. intros id [= <-]. cbn. rewrite Eids. by apply Ho.
  - intros [= <-]. exact Hp'.
Qed.
Lemma kept_mutated proposal_id ev p c sims pms heap s s' : engine_ok s -> kept s -> dget proposal_id (se_proposals s) = Some p ->
  (ep_status p = DRAFT \/ ep_status p = FAILED) -> ca_proposal_id c = proposal_id -> genuine c ->
  changed proposal_id ev (set_status MUTATED None (set_candidates (ep_candidate_ids p ++ [ca_id c]) p))
    (dset (ca_id c) c (se_candidates s)) sims pms heap s s' -> kept s'.
Proof.
  intros Hs [Ho Hc] Hp Hst Eid Hg [(t & Et) _ _ Ec _ _ _].
  assert (Hown : forall k q id, dget k (se_proposals s) = Some q -> id ∈ ep_candidate_ids q ->
            exists c', dget id (dset (ca_id c) c (se_candidates s)) = Some c' /\ ca_proposal_id c' = k).
  { intros k q id Hq Hid. destruct (Ho k q id Hq Hid) as (c0 & Hc0 & E0). rewrite dget_dset. case_decide; [|by exists c0].
    subst id. exists c. split; [done|]. destruct (eo_candidates s Hs _ _ Hc0) as [Ei Hg0]. rewrite <- E0. by apply genuine_same. }
  split; intros k q; rewrite Et, Ec, dget_dset; case_decide as Ek.
  - subst k. intros id [= <-]. cbn. rewrite elem_of_app, list_elem_of_singleton. intros [Hid| ->]; [by eapply Hown|].
    exists c. by rewrite dget_dset_eq.
  - intros id Hq. by apply Hown.
  - intros [= <-]. cbn. statuses.
  - intros Hq Hin. destruct (Hc k q Hq Hin) as (c0 & v & Hl & Hc0 & Hv). exists c0, v. split; [done|]. split; [|exact Hv].
    rewrite dget_dset_ne; [done|]. intros E. destruct Ek.
    destruct (Ho k q (ca_id c0) Hq) as (c1 & Hc1 & E1).
    { apply last_Some in Hl as [l ->]. apply elem_of_app. right. by left. }
    rewrite Hc0 in Hc1. injection Hc1 as <-. destruct (eo_candidates s Hs _ _ Hc0) as [_ Hg0].
    rewrite <- E1, <- Eid. by apply genuine_same.
Qed.
Lemma move_kept proposal_id s p s' call raised : engine_ok s -> kept s -> dget proposal_id (se_proposals s) = Some p ->
  move proposal_id s p s' call raised -> kept s'.
Proof.
  intros Hs Hk Hp Hm. pose proof (kt_certified s Hk _ _ Hp) as Hcert. pose proof (po_selected _ _ (eo_each s Hs _ _ Hp)) as Hsel.
  assert (Hgo : forall ev p' sims pms heap, changed proposal_id ev p' (se_candidates s) sims pms heap s s' ->
     ep_candidate_ids p' = ep_candidate_ids p -> (ep_status p' ∈ checked -> certified (se_candidates s) p') -> kept s').
  { intros ev p' sims pms heap. by eapply kept_changed. }
  destruct Hm as [actor c w0 Hst Em Eid Hgen Hc|actor m w0 Hst Em Hc|actor c r w0 Hst Hl Er Hc|actor c v w0 Hst Hl Ev Hc
                 |actor c r f w0 Hst Hl Hnew Ef Hc|actor d w0 Hst Ed Hc|approver comments t1 Hst Hc|approver comments t1 Hst Hc
                 |en actor c v f t1 Hst Hl Ev Hv Ef Hf Hc|promotion_id reason actor a r t1 Hfind Ha Hpid Hc].
  - by eapply kept_mutated.
  - eapply Hgo; [exact Hc|done|]. cbn. statuses.
  - eapply Hgo; [exact Hc|by case_match|]. case_match; cbn; statuses.
  - eapply Hgo; [exact Hc|by case_match|]. destruct (vf_valid v) eqn:Hv; cbn; [|statuses]. intros _.
    destruct (latest_is_last s p c Hs Hsel Hl) as [El _]. exists c, v. split_and!; [exact El| |done|done|by exists p, (se_world s), w0].
    unfold latest in Hl. rewrite Hsel, El in Hl. exact Hl.
  - eapply Hgo; [exact Hc|by case_match|]. destruct (fe_passed f); cbn; [|statuses]. intros _. apply Hcert. rewrite Hst. statuses.
  - eapply Hgo; [exact Hc|cbv zeta; unfold submitted; by repeat case_match|]. intros _.
    assert (Hq : certified (se_candidates s) p) by (apply Hcert; rewrite Hst; statuses).
    cbv zeta. unfold submitted. by repeat case_match.
  - eapply Hgo; [exact Hc|done|]. intros _. apply Hcert. rewrite Hst. statuses.
  - eapply Hgo; [exact Hc|done|]. cbn. statuses.
  - eapply Hgo; [exact Hc|done|]. intros _. apply Hcert. rewrite Hst. statuses.
  - eapply Hgo; [exact Hc|done|]. intros _. apply Hcert. apply find_promotion_heap in Hfind.
    destruct (eo_records s Hs a r Hfind) as (p0 & Hp0 & Ha0). rewrite Hpid, Hp in Hp0. injection Hp0 as <-.
    pose proof (po_promotion _ _ (eo_each s Hs _ _ Hp) ltac:(by rewrite Ha0)) as Hin. set_solver.
Qed.
Lemma call_kept call s r s' : engine_ok s -> kept s -> unused_id call s -> perform call s = (r, s') -> kept s'.
Proof.
  intros Hs Hk Hu E. pose proof (call_shape call s (eo_keyed s Hs)) as Hw. unfold wp in Hw. rewrite E in Hw.
  assert (Hmoved : forall raised, moved call raised s s' -> kept s') by (intros raised (k & p & Hp & Hm); by eapply move_kept).
  destruct r; [|destruct Hw as [[w ->]|(? & ? & ? & ? & _ & _ & ? & _)]; [by destruct Hk|eauto]].
  destruct Hw as [?|[(request & actor & p & -> & Ep & _ & [Dst Dc _ _] & [Es _ _ Ec _ _ _])|Ho]]; [by eapply Hmoved| |].
  - destruct Hk as [Ho Hc]. cbn in Hu. rewrite Ep in Hu.
    split; intros k q; rewrite Es, Ec, dget_dset; case_decide; [|apply Ho| |apply Hc].
    + intros id [= <-]. rewrite Dc. by intros ?%elem_of_nil.
    + intros [= <-]. rewrite Dst. statuses.
  - destruct Ho as (pid & reason & actor & a1 & r1 & t & w & _ & Hf & _ & Hnone & _). apply find_promotion_heap in Hf.
    destruct (eo_records s Hs a1 r1 Hf) as (q & Hq & _). congruence.
Qed.
Lemma reachable_kept policy s : reachable policy s -> kept s.
Proof.
  induction 1 as [w|call s s' r Hr IH Hu E]; [by split|]. apply (call_kept call s r); [by eapply reachable_ok|done..].
Qed.
(** The candidate of a promotion record is the one that was verified. *)
Lemma promoted_is_certified policy s a r c : reachable policy s -> se_heap s !! a = Some r ->
  dget (pm_candidate_id r) (se_candidates s) = Some c ->
  exists p v, dget (pm_proposal_id r) (se_proposals s) = Some p /\ vf_valid v = true /\ judged v c (ep_request p).
Proof.
  intros Hr Ha Hc. pose proof (reachable_kept _ _ Hr) as Hk. destruct (reachable_ok _ _ Hr) as [Hs _].
  destruct (eo_records s Hs a r Ha) as (p & Hp & Hpa). destruct (eo_promoted s Hs _ _ _ Hp Hpa) as (r' & Hr' & [_ Hl Hst]).
  rewrite Ha in Hr'. injection Hr' as <-.
  destruct (kt_certified s Hk _ _ Hp) as (c1 & v & Hl1 & Hc1 & _ & Hv & Hj); [destruct Hst as [[-> _]|[-> _]]; statuses|].
  rewrite Hl in Hl1. injection Hl1 as El. rewrite <- El, Hc in Hc1. injection Hc1 as <-. by exists p, v.
Qed.
End Certified.

(** The state a call leaves. *)
Definition run {A} (m : M SelfEvolutionEngine A) (s : SelfEvolutionEngine) : SelfEvolutionEngine := (m s).2.
Lemma run_reachable policy s call : reachable policy s -> unused_id call s -> reachable policy (run (perform call) s).
Proof. intros Hs Hu. unfold run. destruct (perform call s) as [r s'] eqn:E. by eapply re_call. Qed.
End Spec.

(** ** A sample engine

    A mutation is tagged by its operator, and the candidate tagged ["bad"] does not
    verify. *)
#[local] Existing Instance compact_digests.
#[local] Existing Instance counting_world.
Definition tagged (tag : string) (c : CandidateArchitecture) : bool :=
  match ca_isr c with [(_, VStr t)] => bool_decide (t = tag) | _ => false end.
Definition sample_parts : Parts := {|
  part_mutation _ spec := mret [("tag", VStr (ms_operator spec))];
  part_simulator c := mret {| sm_id := "sim_" +:+ ca_id c; sm_candidate_id := ca_id c; sm_status := "PASSED"; sm_metrics := [];
                              sm_issues := []; sm_logs := []; sm_created_at := "" |};
  part_verifier c _ := mret {| vf_candidate_id := ca_id c; vf_valid := negb (tagged "bad" c); vf_issues := []; vf_created_at := "" |};
  part_fitness c _ _ := mret {| fe_id := "fit_" +:+ ca_id c; fe_candidate_id := ca_id c; fe_objectives := []; fe_constraints := [];
                                fe_passed := true; fe_notes := []; fe_created_at := "" |};
  part_governance := Some (static_client "ALLOW" "fine") |}.
#[local] Existing Instance sample_parts.
Lemma sample_laws : PartLaws.
Proof. by split; intros; cbn in *; unfold_monad; simplify_eq. Qed.

Definition sample_mutation (tag : string) : MutationSpec := {|
  ms_id := None; ms_operator := tag; ms_chromosome_family := "family"; ms_gene_id := "gene"; ms_operations := [];
  ms_rationale := "" |}.
Definition sample_request : EvolutionProposalRequest := {|
  rq_title := "A change"; rq_description := ""; rq_target_type := APPLICATION_ARCHITECTURE; rq_target_ref := "app";
  rq_base_isr := []; rq_mutation := sample_mutation "good"; rq_high_impact := false; rq_allow_breaking_changes := false;
  rq_environment := "test" |}.
(** The run of a proposal from its creation to its promotion. *)
Definition start : SelfEvolutionEngine := run (perform (C_propose sample_request "me")) (new_self_engine default_policy world0).
Definition the_id : string := hd "" (dkeys (se_proposals start)).
Definition lifecycle : list self_call :=
  [C_mutate the_id "me"; C_simulate the_id "me"; C_verify the_id "me"; C_evaluate the_id "me"; C_submit the_id "me";
   C_promote the_id "production" "me"].
Definition promoted : SelfEvolutionEngine := fold_left (fun s c => run (perform c) s) lifecycle start.

Lemma start_reachable : reachable default_policy start.
Proof. apply run_reachable; [constructor|]. by vm_compute. Qed.
Lemma promoted_reachable : reachable default_policy promoted.
Proof. unfold promoted, lifecycle. cbn [fold_left]. repeat (apply run_reachable; [|exact I]). apply start_reachable. Qed.

Lemma promoted_record :
  option_map pm_proposal_id (se_heap promoted !! 0%nat) = Some the_id /\
  option_map pm_status (se_heap promoted !! 0%nat) = Some "ACTIVE".
Proof. vm_compute. split; reflexivity. Qed.

Lemma promotions_are_earned_witness : exists p v,
  dget the_id (se_proposals promoted) = Some p /\ ep_promotion p = Some 0%nat /\ ep_verification p = Some v /\
  vf_valid v = true /\ ep_status p = PROMOTED.
Proof.
  destruct (se_heap promoted !! 0%nat) as [r|] eqn:E; [|exfalso; revert E; by vm_compute].
  destruct (@promotions_are_earned _ _ _ sample_laws default_policy promoted 0 r promoted_reachable E)
    as (p & v & f & d & Hp & Ha & Hv & Hval & _ & _ & _ & _ & _ & _ & _ & Hst).
  assert (Er : pm_proposal_id r = the_id /\ pm_status r = "ACTIVE").
  { pose proof promoted_record as [Hi Hs]. rewrite E in Hi, Hs. cbn [option_map] in Hi, Hs. split; congruence. }
  exists p, v. destruct Er as [Er Es]. rewrite Er in Hp. rewrite Es in Hst. destruct Hst as [[Hst _]|[_ Hst]]; [split_and!; assumption|discriminate Hst].
Defined.
