(* ===== verification/SelfMultiSpec.v ===== *)
(** * Self-evolution: theorems on several candidates

    An evaluation recorded as feasible holds a valid verification and a passing
    fitness of its candidate, whatever sequence of calls was made; a selection hands
    just those to the proposal.  The last part shows what the methods leave open:
    generation, evaluation and selection do not look at where the proposal is. *)

From Stdlib Require Import SpecFloat.
From S2P Require Import Prelude PyFloat PyVal PyText PyJson EvoModels Pareto ParetoSpec SelfModels SelfEngine SelfMulti SelfEngineSpec.
Open Scope Z_scope.

Section Spec.
Context `{Surroundings, Digests, !Parts}.

(** ** The tables of the base engine *)

Record tables_ok (s : SelfEvolutionEngine) : Prop := {
  to_keyed : keyed s;
  to_candidates k c : dget k (se_candidates s) = Some c -> ca_id c = k /\ genuine c;
}.
Lemma tables_in_world {A} (m : M World A) : keeps tables_ok (in_world m).
Proof. apply keeps_of_wp. intros s [? ?]. by apply wp_in_world; intros; split. Qed.
Lemma keeps_stamp : keeps tables_ok stamp.
Proof. apply tables_in_world. Qed.
Lemma tables_update proposal_id f : (forall p, ep_id (f p) = ep_id p) -> keeps tables_ok (update_proposal proposal_id f).
Proof.
  intros Hf. apply keeps_modify. intros s [Hk Hc]. destruct (dget proposal_id (se_proposals s)) as [p|] eqn:Ep; [|by split].
  split; cbn; [|done]. intros k q. cbn. rewrite dget_dset. case_decide as Ek; [|apply Hk].
  intros [= <-]. rewrite Hf, Ek. by apply Hk.
Qed.
Lemma keeps_put_candidate c : genuine c -> keeps tables_ok (modify (put_candidate c)).
Proof.
  intros Hg. apply keeps_modify. intros s [Hk Hc]. split; [done|]. by apply dset_candidates_genuine.
Qed.
Lemma keeps_put_simulation r : keeps tables_ok (modify (put_simulation r)).
Proof. apply keeps_modify. intros s [Hk Hc]. by split. Qed.
Lemma keeps_put_history h : keeps tables_ok (modify (put_history h)).
Proof. apply keeps_modify. intros s [Hk Hc]. by split. Qed.
Hint Resolve tables_in_world keeps_stamp keeps_put_simulation keeps_put_history : keeps.
Ltac keep := repeat first [ solve [auto with keeps] | progress cbv zeta | apply keeps_bind; [|intros] | apply tables_update; intros | case_match ].
Lemma keeps_record proposal_id event_type actor details : keeps tables_ok (record_event proposal_id event_type actor details).
Proof. unfold record_event. by keep. Qed.
Lemma keeps_touch proposal_id : keeps tables_ok (touch proposal_id).
Proof. unfold touch. by keep. Qed.
Lemma keeps_get_proposal proposal_id : keeps tables_ok (get_proposal proposal_id).
Proof. unfold get_proposal. by keep. Qed.
Hint Resolve keeps_record keeps_touch keeps_get_proposal : keeps.

Lemma add_candidate_id_id id p : ep_id (add_candidate_id id p) = ep_id p.
Proof. unfold add_candidate_id. by case_match. Qed.
(** A body that makes a candidate and goes on. *)
Lemma keeps_make_candidate {B} (I : SelfEvolutionEngine -> Prop) proposal_id spec base_isr isr (k : CandidateArchitecture -> M SelfEvolutionEngine B) :
  (forall (m : M World string), keeps I (in_world m)) -> (forall c, genuine c -> keeps I (k c)) ->
  keeps I (c ← make_candidate proposal_id spec base_isr isr; k c).
Proof.
  intros Hw Hk s Hs. unfold make_candidate, stamp. specialize (Hw timestamp s Hs). unfold mbind, M_bind, in_world in *.
  destruct (zoom _ _ _ s) as [[t|x] s1]; [|done]. cbn in Hw. destruct (ms_id spec) as [m|] eqn:Em; [|done].
  unfold mret, M_ret. apply Hk; [|done]. split; [done|]. by eexists.
Qed.
Lemma keeps_generate_one proposal_id base_isr spec : keeps tables_ok (generate_one proposal_id base_isr spec).
Proof.
  unfold generate_one. apply keeps_bind; [auto with keeps|intros isr]. cbv zeta. apply keeps_bind; [auto with keeps|intros cs].
  destruct (dget _ cs); [keep; apply add_candidate_id_id|]. apply keeps_make_candidate; [auto with keeps|]. intros c Hg.
  apply keeps_bind; [by apply keeps_put_candidate|intros _]. keep. apply add_candidate_id_id.
Qed.
Lemma keeps_generate_loop proposal_id base_isr specs created : keeps tables_ok (generate_loop proposal_id base_isr specs created).
Proof.
  revert created. induction specs as [|spec specs IH]; intros created; cbn; [auto with keeps|].
  apply keeps_bind; [apply keeps_generate_one|auto].
Qed.
Hint Resolve keeps_generate_loop : keeps.
Lemma keeps_generate proposal_id request actor : keeps tables_ok (generate_candidates proposal_id request actor).
Proof. unfold generate_candidates. by keep. Qed.
Lemma tables_moved call raised s s' : tables_ok s -> moved call raised s s' -> tables_ok s'.
Proof.
  intros [Hk Hc] (id & p & Hp & Hm).
  assert (Hch : forall ev p' cs sims pms heap, changed id ev p' cs sims pms heap s s' -> ep_id p' = ep_id p ->
            (forall k c, dget k cs = Some c -> ca_id c = k /\ genuine c) -> tables_ok s').
  { intros ev p' cs sims pms heap [(t & Et) _ _ Ec _ _ _] Eid Hcs. split; [|by rewrite Ec].
    intros k q. rewrite Et, dget_dset. case_decide as E; [|apply Hk]. intros [= <-]. cbn. rewrite Eid, E. by apply Hk. }
  destruct Hm; (eapply Hch; [eassumption| |by first [exact Hc|apply dset_candidates_genuine]]); cbn; try done; unfold submitted; by repeat case_match.
Qed.
Lemma keeps_perform call : keeps tables_ok (perform call).
Proof.
  apply keeps_of_wp. intros s Hs. pose proof Hs as [Hk Hc].
  eapply wp_mono; [by apply call_shape| |].
  - intros _ s' [Hm|[(request & actor & p & _ & _ & _ & _ & [Ep _ _ Ec _ _ _])|(? & ? & ? & ? & ? & ? & ? & _ & _ & _ & _ & ->)]];
      [by eapply tables_moved| |by split].
    split; [|by rewrite Ec]. intros k q. rewrite Ep, dget_dset. case_decide; [by intros [= <-]|apply Hk].
  - intros x s' [[w ->]|(? & ? & ? & ? & _ & _ & Hm & _)]; [by split|by eapply tables_moved].
Qed.

(** ** What an evaluation records *)

(** The engine after the simulation of a candidate was stored. *)
Definition with_simulation (proposal_id : string) (r : SimulationResult) (s : SelfEvolutionEngine) : SelfEvolutionEngine :=
  (update_proposal proposal_id (add_simulation_id (sm_id r)) (put_simulation r s)).2.
Lemma with_simulation_proposal proposal_id r s : dget proposal_id (se_proposals (with_simulation proposal_id r s)) =
  option_map (add_simulation_id (sm_id r)) (dget proposal_id (se_proposals s)).
Proof.
  unfold with_simulation, update_proposal, modify. cbn. destruct (dget proposal_id (se_proposals s)) eqn:Ep; cbn.
  - by rewrite dget_dset_eq.
  - exact Ep.
Qed.
Lemma with_simulation_candidates proposal_id r s : se_candidates (with_simulation proposal_id r s) = se_candidates s.
Proof. unfold with_simulation, update_proposal, modify. cbn. by case_match. Qed.

(** What a round of the evaluation records, by the answers of the parts: the parts are
    asked in turn, about the candidate, the later ones only if the earlier ones
    were content; the first that is not, or raises, gives the reason. *)
Inductive outcome (proposal_id : string) (c : CandidateArchitecture) (s : SelfEvolutionEngine) :
    option SimulationResult -> option VerificationReport -> option FitnessEvaluation -> list string -> Prop :=
| oc_simulator_raised x w : part_simulator c (se_world s) = (Raise x, w) ->
    outcome proposal_id c s None None None [exn_text x]
| oc_simulation_failed r w : part_simulator c (se_world s) = (Ok r, w) -> sm_status r <> "PASSED" ->
    outcome proposal_id c s (Some r) None None ["simulation_failed"]
| oc_no_proposal r w : part_simulator c (se_world s) = (Ok r, w) -> sm_status r = "PASSED" ->
    dget proposal_id (se_proposals s) = None ->
    outcome proposal_id c s (Some r) None None ["Evolution proposal not found: " +:+ proposal_id]
| oc_verifier_raised r w p x w1 : part_simulator c (se_world s) = (Ok r, w) -> sm_status r = "PASSED" ->
    dget proposal_id (se_proposals (with_simulation proposal_id r s)) = Some p -> part_verifier c p w = (Raise x, w1) ->
    outcome proposal_id c s (Some r) None None [exn_text x]
| oc_verification_failed r w p v w1 : part_simulator c (se_world s) = (Ok r, w) -> sm_status r = "PASSED" ->
    dget proposal_id (se_proposals (with_simulation proposal_id r s)) = Some p -> part_verifier c p w = (Ok v, w1) ->
    vf_valid v = false -> outcome proposal_id c s (Some r) (Some v) None ["verification_failed"]
| oc_evaluator_raised r w p v w1 x w2 : part_simulator c (se_world s) = (Ok r, w) -> sm_status r = "PASSED" ->
    dget proposal_id (se_proposals (with_simulation proposal_id r s)) = Some p -> part_verifier c p w = (Ok v, w1) ->
    vf_valid v = true -> part_fitness c r (Some v) w1 = (Raise x, w2) ->
    outcome proposal_id c s (Some r) (Some v) None [exn_text x]
| oc_fitness_failed r w p v w1 f w2 : part_simulator c (se_world s) = (Ok r, w) -> sm_status r = "PASSED" ->
    dget proposal_id (se_proposals (with_simulation proposal_id r s)) = Some p -> part_verifier c p w = (Ok v, w1) ->
    vf_valid v = true -> part_fitness c r (Some v) w1 = (Ok f, w2) -> fe_passed f = false ->
    outcome proposal_id c s (Some r) (Some v) (Some f) ["fitness_failed"]
| oc_feasible r w p v w1 f w2 : part_simulator c (se_world s) = (Ok r, w) -> sm_status r = "PASSED" ->
    dget proposal_id (se_proposals (with_simulation proposal_id r s)) = Some p -> part_verifier c p w = (Ok v, w1) ->
    vf_valid v = true -> part_fitness c r (Some v) w1 = (Ok f, w2) -> fe_passed f = true ->
    outcome proposal_id c s (Some r) (Some v) (Some f) [].
(** The record of an outcome. *)
Record recorded_outcome (proposal_id : string) (c : CandidateArchitecture) (s : SelfEvolutionEngine)
    (e : CandidateEvaluationRecord) : Prop := {
  ro_outcome : exists simulation, outcome proposal_id c s simulation (ce_verification e) (ce_fitness e) (ce_reasons e) /\
    ce_simulation_id e = option_map sm_id simulation;
  ro_feasible : ce_feasible e = true <-> ce_reasons e = [];
}.
(** The engine afterwards: time has passed and a simulation may have been stored. *)
Definition trial_left (proposal_id : string) (c : CandidateArchitecture) (s s' : SelfEvolutionEngine) : Prop := exists w',
  match (part_simulator c (se_world s)).1 with
  | Ok r => s' = put_se_world w' (with_simulation proposal_id r s)
  | Raise _ => s' = put_se_world w' s
  end.
(** Ends a case of [trial_runs]: the record the round made, by a rule of [outcome]. *)
Ltac concludes rule :=
  eexists _, _; split; [reflexivity|]; split; [reflexivity|]; split;
  [split; cbn; [eexists; split; [eapply rule; first [eassumption|rewrite with_simulation_proposal; by match goal with Ep : dget _ _ = _ |- _ => rewrite Ep end]|reflexivity]
               |done]
  |by eexists].
Lemma trial_runs proposal_id candidate_id c s : exists e s', run_trial proposal_id candidate_id c s = (Ok e, s') /\
  ce_candidate_id e = candidate_id /\ recorded_outcome proposal_id c s e /\ trial_left proposal_id c s s'.
Proof.
  assert (Hget := fun r => with_simulation_proposal proposal_id r s).
  unfold trial_left, run_trial, trial_body, try_catch, in_engine, in_world, stamp, zoom, timestamp, now. unfold_monad. cbn.
  unfold with_simulation, update_proposal, get_proposal in *. cbn in Hget |- *.
  destruct (part_simulator c (se_world s)) as [[r|x] w] eqn:E1; cbn; [|concludes oc_simulator_raised].
  specialize (Hget r). destruct (decide (sm_status r = "PASSED")) as [Es|Es];
    [rewrite bool_decide_eq_false_2 by auto|rewrite bool_decide_eq_true_2 by done];
    (destruct (dget proposal_id (se_proposals s)) as [p0|] eqn:Ep; cbn in Hget |- *); try concludes oc_simulation_failed.
  2: { unfold_monad. cbn. rewrite Ep. cbn. concludes oc_no_proposal. }
  unfold_monad. cbn. rewrite Hget. cbn. unfold_monad.
  destruct (part_verifier c (add_simulation_id (sm_id r) p0) w) as [[v|x] w1] eqn:E2; cbn; [|concludes oc_verifier_raised].
  unfold_monad. destruct (vf_valid v) eqn:Ev; cbn; [|concludes oc_verification_failed]. unfold_monad.
  destruct (part_fitness c r (Some v) w1) as [[f|x] w2] eqn:E3; cbn; [|concludes oc_evaluator_raised].
  unfold_monad. destruct (fe_passed f) eqn:Ef; cbn; [concludes oc_feasible|concludes oc_fitness_failed].
Qed.

(** A feasible record holds what the verifier and the evaluator answered about its
    candidate. *)
Definition backed (c : CandidateArchitecture) (p : EvolutionProposal) (e : CandidateEvaluationRecord) : Prop :=
  exists r v f w w1 w2, ce_verification e = Some v /\ part_verifier c p w = (Ok v, w1) /\ vf_valid v = true /\
    ce_fitness e = Some f /\ part_fitness c r (Some v) w1 = (Ok f, w2) /\ fe_passed f = true.
Lemma feasible_backed proposal_id c s e : recorded_outcome proposal_id c s e -> ce_feasible e = true ->
  exists p r, dget proposal_id (se_proposals s) = Some p /\ backed c (add_simulation_id (sm_id r) p) e.
Proof.
  intros [(simulation & Ho & _) Hf] Hfe. apply Hf in Hfe. rewrite Hfe in Ho.
  remember [] as reasons eqn:Er. remember (ce_verification e) as ov eqn:Eov. remember (ce_fitness e) as ofit eqn:Eof.
  destruct Ho as [| | | | | | |r w p v w1 f w2 _ _ Hp Ev Hv Ef Hpass]; try discriminate Er.
  rewrite with_simulation_proposal in Hp. destruct (dget proposal_id (se_proposals s)) as [p0|]; [|done]. injection Hp as <-.
  exists p0, r. split; [done|]. by exists r, v, f, w, w1, w2.
Qed.
Lemma tables_world w s : tables_ok s -> tables_ok (put_se_world w s).
Proof. intros [? ?]. by split. Qed.
Lemma add_simulation_id_id id p : ep_id (add_simulation_id id p) = ep_id p.
Proof. unfold add_simulation_id. by case_match. Qed.
Lemma trial_left_keeps (I : SelfEvolutionEngine -> Prop) proposal_id c s s' :
  (forall w s, I s -> I (put_se_world w s)) -> (forall r s, I s -> I (put_simulation r s)) ->
  (forall r, keeps I (update_proposal proposal_id (add_simulation_id (sm_id r)))) -> trial_left proposal_id c s s' -> I s -> I s'.
Proof.
  intros Hw Hp Hu [w' E] Hs. destruct (part_simulator c (se_world s)).1 as [r|x]; subst; apply Hw; [|done]. by apply Hu, Hp.
Qed.
Lemma trial_left_tables proposal_id c s s' : trial_left proposal_id c s s' -> tables_ok s -> tables_ok s'.
Proof.
  apply trial_left_keeps; [by apply tables_world|by intros r s0 []|]. intros r. apply tables_update. intros. apply add_simulation_id_id.
Qed.
(** A feasible evaluation in the table is one of its candidate. *)
Record evaluation_ok (k : string) (e : CandidateEvaluationRecord) : Prop := {
  ev_key : ce_candidate_id e = k;
  ev_backed : ce_feasible e = true -> exists c p, ca_id c = k /\ genuine c /\ backed c p e;
}.

(** ** The table of evaluations *)

Record multi_ok (s : MultiCandidateEvolutionEngine) : Prop := {
  mo_tables : tables_ok (mc_base s);
  mo_dicts proposal_id es : dget proposal_id (mc_evaluations s) = Some es -> dict_ok es;
  mo_evaluations proposal_id es k e : dget proposal_id (mc_evaluations s) = Some es -> dget k es = Some e -> evaluation_ok k e;
}.
Lemma keeps_on_base {A} (m : M SelfEvolutionEngine A) : keeps tables_ok m -> keeps multi_ok (on_base m).
Proof. apply keeps_zoom; [by intros s []|]. intros c s Hc [_ ? ?]. by split. Qed.
Hint Resolve keeps_on_base : keeps.
Lemma evaluations_of_ok proposal_id s : multi_ok s -> dict_ok (evaluations_of proposal_id s) /\
  forall k e, dget k (evaluations_of proposal_id s) = Some e -> evaluation_ok k e.
Proof.
  intros [_ Hd He]. unfold evaluations_of, dget_or. destruct (dget proposal_id (mc_evaluations s)) as [es|] eqn:E.
  - split; [by apply (Hd proposal_id)|intros k e; by apply (He proposal_id es)].
  - split; [apply dict_ok_nil|done].
Qed.
Lemma put_evaluations_ok proposal_id es s : multi_ok s -> dict_ok es -> (forall k e, dget k es = Some e -> evaluation_ok k e) ->
  multi_ok (put_evaluations (dset proposal_id es (mc_evaluations s)) s).
Proof.
  intros [? Hd He] Hok Hes. split; cbn; [done| |].
  - intros id es'. rewrite dget_dset. case_decide; [by intros [= <-]|apply Hd].
  - intros id es' k e. rewrite dget_dset. case_decide; [by intros [= <-]; apply Hes|apply He].
Qed.
Lemma keeps_evaluate_one proposal_id force candidate_id : keeps multi_ok (evaluate_one proposal_id force candidate_id).
Proof.
  apply keeps_of_wp. intros s Hs. unfold evaluate_one. do 4 wp_step. wp_step; [by wp_step|].
  destruct (dget candidate_id (se_candidates (mc_base s))) as [c|] eqn:Ec; [|by wp_step].
  apply (to_candidates _ (mo_tables s Hs)) in Ec as [Eid Hg]. subst candidate_id. wp_step. unfold on_base. apply wp_zoom.
  destruct (trial_runs proposal_id (ca_id c) c (mc_base s)) as (e & b & -> & Ek & Ho & Hl). wp_step.
  assert (Hs' : multi_ok (put_base b s)) by (destruct Hs; split; [by eapply trial_left_tables|done..]).
  destruct (evaluations_of_ok proposal_id _ Hs') as [Hd Hes].
  apply (put_evaluations_ok proposal_id _ (put_base b s)); [done|by apply dset_ok|].
  intros k e'. rewrite dget_dset. case_decide; [intros [= <-]|apply Hes]. subst. split; [done|]. intros Hf.
  destruct (feasible_backed _ _ _ _ Ho Hf) as (p & r & _ & Hb). by eexists _, _.
Qed.
Lemma multi_keeps_evaluate proposal_id actor force : keeps multi_ok (evaluate_candidates proposal_id actor force).
Proof.
  unfold evaluate_candidates. apply keeps_bind; [auto with keeps|]. intros p.
  destruct (ep_candidate_ids p) as [|id ids]; [apply keeps_raise|].
  apply keeps_bind; [|intros _; apply keeps_bind; [apply keeps_for_each; apply keeps_evaluate_one|intros _]].
  - apply keeps_modify. intros s Hs. case_match; [done|]. apply put_evaluations_ok; [done|apply dict_ok_nil|done].
  - apply keeps_bind; [apply keeps_gets|]. intros es. cbv zeta.
    repeat (apply keeps_bind; [auto with keeps|intros _]); [apply keeps_on_base, tables_update; intros; by case_match|].
    repeat (apply keeps_bind; [auto with keeps|intros _]). apply keeps_ret.
Qed.
Lemma adopt_id e x p : ep_id (adopt e x p) = ep_id p.
Proof. unfold adopt, move_last. destruct e; by repeat case_match. Qed.
Lemma keeps_select proposal_id policy actor : keeps multi_ok (select_candidates proposal_id policy actor).
Proof.
  unfold select_candidates. apply keeps_bind; [auto with keeps|intros _]. apply keeps_bind; [apply keeps_gets|].
  intros [|e es]; [apply keeps_raise|]. apply keeps_bind; [auto with keeps|]. intros t. case_match; [|apply keeps_raise].
  apply keeps_bind; [apply keeps_modify; intros s []; by split|intros _].
  apply keeps_bind; [apply keeps_when, keeps_on_base, tables_update; intros; apply adopt_id|intros _].
  repeat (apply keeps_bind; [auto with keeps|intros _]). apply keeps_ret.
Qed.

(** ** Sequences of calls *)

Inductive multi_call : Set :=
| MC_base (c : self_call)
| MC_generate (proposal_id : string) (request : GenerateCandidatesRequest) (actor_id : string)
| MC_evaluate (proposal_id actor_id : string) (force : bool)
| MC_select (proposal_id : string) (policy : ParetoSelectionPolicy) (actor_id : string).
Definition multi_perform (c : multi_call) : M MultiCandidateEvolutionEngine unit :=
  match c with
  | MC_base c => on_base (perform c)
  | MC_generate id request actor => _ ← on_base (generate_candidates id request actor); mret tt
  | MC_evaluate id actor force => _ ← evaluate_candidates id actor force; mret tt
  | MC_select id policy actor => _ ← select_candidates id policy actor; mret tt
  end.
Lemma multi_perform_ok c : keeps multi_ok (multi_perform c).
Proof.
  destruct c; cbn [multi_perform]; [apply keeps_on_base, keeps_perform|..]; (apply keeps_bind; [|intros; apply keeps_ret]).
  - apply keeps_on_base, keeps_generate.
  - apply multi_keeps_evaluate.
  - apply keeps_select.
Qed.
(** The id of a proposal that is about to be made is not in use. *)
Definition multi_unused (c : multi_call) (s : MultiCandidateEvolutionEngine) : Prop :=
  match c with MC_base c => unused_id c (mc_base s) | _ => True end.
Inductive multi_reachable : MultiCandidateEvolutionEngine -> Prop :=
| mr_new policy w : multi_reachable (new_multi_engine (new_self_engine policy w))
| mr_call c s : multi_reachable s -> multi_unused c s -> multi_reachable (multi_perform c s).2.

Lemma multi_reachable_ok s : multi_reachable s -> multi_ok s.
Proof.
  induction 1 as [policy w|c s _ IH _]; [split; [by split|done..]|]. by apply multi_perform_ok.
Qed.

(** ** Only candidates of a proposal are evaluated for it *)

(** The proposals of a table are still there, with their candidates. *)
Definition grown (ps ps' : list (string * EvolutionProposal)) : Prop := forall id p, dget id ps = Some p ->
  exists p', dget id ps' = Some p' /\ forall k, k ∈ ep_candidate_ids p -> k ∈ ep_candidate_ids p'.
Abbreviation grows ps := (fun s => grown ps (se_proposals s)).
Lemma grown_proposals_refl ps : grown ps ps.
Proof. intros id p Hp. by exists p. Qed.
Lemma grown_set id p p' ps ps0 : dget id ps = Some p -> (forall k, k ∈ ep_candidate_ids p -> k ∈ ep_candidate_ids p') ->
  grown ps0 ps -> grown ps0 (dset id p' ps).
Proof.
  intros Hp Hk Hg i q Hq. destruct (Hg i q Hq) as (q1 & Hq1 & H1'). rewrite dget_dset. case_decide; [|by exists q1].
  subst i. rewrite Hp in Hq1. injection Hq1 as <-. exists p'. auto.
Qed.
Lemma grows_update ps i f : (forall p k, k ∈ ep_candidate_ids p -> k ∈ ep_candidate_ids (f p)) ->
  keeps (grows ps) (update_proposal i f).
Proof.
  intros Hf. apply keeps_modify. intros s Hs. destruct (dget i (se_proposals s)) as [p|] eqn:Ep; [|done].
  eapply grown_set; [exact Ep|apply Hf|done].
Qed.
Lemma grows_quietly ps {A} (m : M SelfEvolutionEngine A) : (forall s, se_proposals (m s).2 = se_proposals s) -> keeps (grows ps) m.
Proof. intros Hm s Hs. by rewrite Hm. Qed.
Lemma grows_in_world ps {A} (m : M World A) : keeps (grows ps) (in_world m).
Proof. apply grows_quietly. intros s. unfold in_world, zoom. by destruct (m _). Qed.
Lemma grows_stamp ps : keeps (grows ps) stamp.
Proof. apply grows_in_world. Qed.
Lemma grows_get ps i : keeps (grows ps) (get_proposal i).
Proof. apply grows_quietly. intros s. unfold get_proposal. unfold_monad. by case_match. Qed.
Lemma grows_history ps h : keeps (grows ps) (modify (put_history h)).
Proof. by apply grows_quietly. Qed.
Hint Resolve grows_in_world grows_stamp grows_get grows_history : keeps.
Ltac grow := repeat first [ solve [auto with keeps] | progress cbv zeta | apply keeps_bind; [|intros] | apply grows_update; intros | case_match ].
Lemma grows_record ps i event_type actor details : keeps (grows ps) (record_event i event_type actor details).
Proof. unfold record_event. by grow. Qed.
Lemma grows_touch ps i : keeps (grows ps) (touch i).
Proof. unfold touch. by grow. Qed.
Hint Resolve grows_record grows_touch : keeps.
Lemma add_candidate_grows i p k : k ∈ ep_candidate_ids p -> k ∈ ep_candidate_ids (add_candidate_id i p).
Proof. unfold add_candidate_id. case_match; [done|]. intros Hk. apply elem_of_app. by left. Qed.
Lemma add_simulation_grows i p k : k ∈ ep_candidate_ids p -> k ∈ ep_candidate_ids (add_simulation_id i p).
Proof. unfold add_simulation_id. by case_match. Qed.
Lemma remove_first_either x ids k : k ∈ ids -> k = x \/ k ∈ remove_first x ids.
Proof.
  induction ids as [|y ids IH]; cbn; [by intros ?%elem_of_nil|]. rewrite elem_of_cons. case_bool_decide; subst; [tauto|].
  rewrite elem_of_cons. intros [->|Hk]; [by right; left|]. destruct (IH Hk); auto.
Qed.
Lemma adopt_grows e x p k : k ∈ ep_candidate_ids p -> k ∈ ep_candidate_ids (adopt e x p).
Proof.
  intros Hk. unfold adopt, move_last. cbn [ep_candidate_ids set_selected]. destruct (mem x (ep_candidate_ids p)), e; cbn; try done;
    (rewrite elem_of_app, list_elem_of_singleton; destruct (remove_first_either x _ k Hk); auto).
Qed.
Lemma grows_generate_loop ps i base_isr specs created : keeps (grows ps) (generate_loop i base_isr specs created).
Proof.
  revert created. induction specs as [|spec specs IH]; intros created; cbn; [auto with keeps|]. apply keeps_bind; [|auto].
  unfold generate_one. apply keeps_bind; [auto with keeps|intros isr]. cbv zeta. apply keeps_bind; [auto with keeps|intros cs].
  destruct (dget _ cs); [grow; by apply add_candidate_grows|]. apply keeps_make_candidate; [auto with keeps|]. intros c _.
  apply keeps_bind; [by apply grows_quietly|intros _]. grow. by apply add_candidate_grows.
Qed.
Hint Resolve grows_generate_loop : keeps.
Lemma grows_generate ps i request actor : keeps (grows ps) (generate_candidates i request actor).
Proof. unfold generate_candidates. by grow. Qed.
Lemma grows_trial ps i c s s' : trial_left i c s s' -> grows ps s -> grows ps s'.
Proof. apply trial_left_keeps; [done|done|]. intros r. apply grows_update. intros. by apply add_simulation_grows. Qed.
Lemma moved_grows call raised s s' : moved call raised s s' -> grown (se_proposals s) (se_proposals s').
Proof.
  intros (id & p & Hp & Hm).
  assert (Hch : forall ev p' cs sims pms heap, changed id ev p' cs sims pms heap s s' ->
            (forall k, k ∈ ep_candidate_ids p -> k ∈ ep_candidate_ids p') -> grown (se_proposals s) (se_proposals s')).
  { intros ev p' cs sims pms heap [(t & ->) _ _ _ _ _ _] Hk. eapply grown_set; [exact Hp|done|apply grown_proposals_refl]. }
  destruct Hm; (eapply Hch; [eassumption|]); intros k Hk; cbv zeta; unfold submitted; repeat case_match; try exact Hk.
  cbn. apply elem_of_app. by left.
Qed.
Lemma perform_grows call s : tables_ok s -> unused_id call s -> grown (se_proposals s) (se_proposals (perform call s).2).
Proof.
  intros [Hk _] Hu. pose proof (call_shape call s Hk) as Hw. unfold wp in Hw.
  destruct (perform call s) as [[u|x] s']; cbn.
  - destruct Hw as [Hm|[(request & actor & p & -> & Ep & _ & _ & [-> _ _ _ _ _ _])|(? & ? & ? & ? & ? & ? & ? & _ & _ & _ & _ & ->)]];
      [by eapply moved_grows| |apply grown_proposals_refl].
    cbn in Hu. rewrite Ep in Hu. intros i q Hq. exists q. rewrite dget_dset_ne by congruence. done.
  - destruct Hw as [[w ->]|(? & ? & ? & ? & _ & _ & Hm & _)]; [apply grown_proposals_refl|by eapply moved_grows].
Qed.

(** A candidate evaluated for a proposal is one of its candidates. *)
Definition members (s : MultiCandidateEvolutionEngine) : Prop := forall id k e, dget k (evaluations_of id s) = Some e ->
  exists p, dget id (se_proposals (mc_base s)) = Some p /\ k ∈ ep_candidate_ids p.
Lemma members_base s b : members s -> grown (se_proposals (mc_base s)) (se_proposals b) -> members (put_base b s).
Proof. intros Hs Hg id k e He. destruct (Hs id k e He) as (p & Hp & Hk). destruct (Hg id p Hp) as (p' & Hp' & Hk'). exists p'. auto. Qed.
Lemma members_on_base {A} (m : M SelfEvolutionEngine A) : (forall ps, keeps (grows ps) m) -> keeps members (on_base m).
Proof.
  intros Hm s Hs. unfold on_base, zoom. pose proof (Hm (se_proposals (mc_base s)) (mc_base s) (grown_proposals_refl _)) as Hg.
  destruct (m (mc_base s)) as [r b]. by apply members_base.
Qed.
(** The same, with the candidates that are being evaluated. *)
Definition evaluating (id : string) (ids : list string) (s : MultiCandidateEvolutionEngine) : Prop := members s /\
  exists p, dget id (se_proposals (mc_base s)) = Some p /\ forall k, k ∈ ids -> k ∈ ep_candidate_ids p.
Lemma evaluating_base id ids s b : evaluating id ids s -> grown (se_proposals (mc_base s)) (se_proposals b) ->
  evaluating id ids (put_base b s).
Proof.
  intros [Hs (p & Hp & Hk)] Hg. split; [by apply members_base|]. destruct (Hg id p Hp) as (p' & Hp' & Hk'). exists p'. auto.
Qed.
Lemma evaluating_on_base id ids {A} (m : M SelfEvolutionEngine A) : (forall ps, keeps (grows ps) m) -> keeps (evaluating id ids) (on_base m).
Proof.
  intros Hm s Hs. unfold on_base, zoom. pose proof (Hm (se_proposals (mc_base s)) (mc_base s) (grown_proposals_refl _)) as Hg.
  destruct (m (mc_base s)) as [r b]. by apply evaluating_base.
Qed.
Lemma evaluating_one id ids force k : k ∈ ids -> keeps (evaluating id ids) (evaluate_one id force k).
Proof.
  intros Hk s Hs. unfold evaluate_one. unfold_monad. destruct (dmem k (evaluations_of id s) && negb force); [done|].
  destruct (dget k (se_candidates (mc_base s))) as [c|]; [|done]. unfold on_base, zoom.
  destruct (trial_runs id k c (mc_base s)) as (e & b & -> & _ & _ & Hl). cbn.
  pose proof (grows_trial (se_proposals (mc_base s)) _ _ _ _ Hl (grown_proposals_refl _)) as Hg.
  destruct (evaluating_base _ _ _ _ Hs Hg) as [Hm (p & Hp & Hks)]. split; [|by exists p].
  intros i j e'. unfold evaluations_of, dget_or. cbn. rewrite dget_dset. case_decide as Ei; [|apply (Hm i)].
  subst i. rewrite dget_dset. case_decide; [intros _; subst; exists p; auto|apply (Hm id)].
Qed.
Lemma keeps_with_proposal (I : MultiCandidateEvolutionEngine -> Prop) id {B} (k : EvolutionProposal -> M MultiCandidateEvolutionEngine B) :
  (forall p s, I s -> dget id (se_proposals (mc_base s)) = Some p -> I (k p s).2) -> keeps I (p ← on_base (get_proposal id); k p).
Proof.
  intros Hk s Hs. unfold on_base, zoom, get_proposal. unfold_monad. specialize (fun p => Hk p s Hs).
  destruct s as [b es sel]. cbn in *. destruct (dget id (se_proposals b)) as [p|]; cbn; [by apply Hk|done].
Qed.
Lemma keeps_for_each_in {S A} (I : S -> Prop) (xs : list A) body :
  (forall x, x ∈ xs -> keeps I (body x)) -> keeps I (for_each xs body).
Proof.
  intros Hb. induction xs as [|x xs IH]; [apply keeps_ret|].
  apply keeps_bind; [apply Hb; by left|intros _]. apply IH. intros y Hy. apply Hb. by right.
Qed.
Lemma members_evaluate id actor force : keeps members (evaluate_candidates id actor force).
Proof.
  unfold evaluate_candidates. apply keeps_with_proposal. intros p s Hs Ep. set (ids := ep_candidate_ids p).
  assert (He : evaluating id ids s) by (split; [done|]; by exists p).
  enough (Hr : forall m : M MultiCandidateEvolutionEngine (list CandidateEvaluationRecord), keeps (evaluating id ids) m -> members (m s).2).
  { clearbody ids. destruct ids as [|x xs]; [done|]. apply Hr.
    apply keeps_bind; [|intros _; apply keeps_bind; [apply keeps_for_each_in; intros; by apply evaluating_one|intros _]].
    - apply keeps_modify. intros s1 [Hm Hp]. case_match; [done|]. split; [|done]. intros i k e. unfold evaluations_of, dget_or. cbn.
      rewrite dget_dset. case_decide; [done|apply (Hm i)].
    - apply keeps_bind; [apply keeps_gets|intros es]. cbv zeta.
      apply keeps_bind; [apply evaluating_on_base; intros; apply grows_update; intros; by case_match|intros _].
      do 2 (apply keeps_bind; [apply evaluating_on_base; auto with keeps|intros _]). apply keeps_ret. }
  intros m Hm. by apply Hm.
Qed.
Lemma members_select id policy actor : keeps members (select_candidates id policy actor).
Proof.
  unfold select_candidates. apply keeps_bind; [apply members_on_base; auto with keeps|intros _]. apply keeps_bind; [apply keeps_gets|].
  intros [|e es]; [apply keeps_raise|]. apply keeps_bind; [apply members_on_base; auto with keeps|]. intros t. case_match; [|apply keeps_raise].
  apply keeps_bind; [by apply keeps_modify|intros _].
  apply keeps_bind; [apply keeps_when, members_on_base; intros; apply grows_update; intros; by apply adopt_grows|intros _].
  do 2 (apply keeps_bind; [apply members_on_base; auto with keeps|intros _]). apply keeps_ret.
Qed.
Lemma multi_reachable_members s : multi_reachable s -> members s.
Proof.
  induction 1 as [policy w|c s Hr IH Hu]; [done|]. destruct c as [c|id request actor|id actor force|id policy actor]; cbn [multi_perform].
  - unfold on_base, zoom. pose proof (perform_grows c (mc_base s) (mo_tables _ (multi_reachable_ok _ Hr)) Hu) as Hg.
    destruct (perform c (mc_base s)) as [r b]. by apply members_base.
  - revert s Hr IH Hu. intros s _ Hs _. revert s Hs. apply keeps_bind; [apply members_on_base; intros; apply grows_generate|intros; apply keeps_ret].
  - clear Hr Hu. revert s IH. apply keeps_bind; [apply members_evaluate|intros; apply keeps_ret].
  - clear Hr Hu. revert s IH. apply keeps_bind; [apply members_select|intros; apply keeps_ret].
Qed.

Lemma wp_on_base {A} (m : M SelfEvolutionEngine A) (Q : A -> MultiCandidateEvolutionEngine -> Prop) E s :
  wp m (fun a b => Q a (put_base b s)) (fun x b => E x (put_base b s)) (mc_base s) -> wp (on_base m) Q E s.
Proof. intros Hm. apply wp_zoom. unfold wp in Hm. by destruct (m (mc_base s)) as [[a|x] b]. Qed.
(** The proposal, up to the time of its update. *)
Definition holds (proposal_id : string) (p : EvolutionProposal) (s : SelfEvolutionEngine) : Prop :=
  exists t, dget proposal_id (se_proposals s) = Some (set_updated t p).
Lemma wp_touch_holds proposal_id p s E : holds proposal_id p s -> wp (touch proposal_id) (fun _ => holds proposal_id p) E s.
Proof.
  intros [t Ht]. unfold touch. apply wp_bind, wp_stamp. intros t1 w. unfold update_proposal. wp_step. cbn. rewrite Ht.
  exists t1. cbn. by rewrite dget_dset_eq.
Qed.
Lemma wp_record_holds proposal_id event_type actor details p s E :
  holds proposal_id p s -> wp (record_event proposal_id event_type actor details) (fun _ => holds proposal_id p) E s.
Proof. intros Ht. unfold record_event. apply wp_bind, wp_stamp. intros t2 w2. by do 3 wp_step. Qed.
Lemma adopted_reports e x p v f : ce_verification e = Some v -> ce_fitness e = Some f ->
  let q := adopt (Some e) x p in
  ep_selected_candidate_id q = Some x /\ ep_verification q = Some v /\ ep_fitness q = Some f /\
  (x ∈ ep_candidate_ids p -> last (ep_candidate_ids q) = Some x).
Proof.
  intros Ev Ef. unfold adopt, move_last. rewrite Ev, Ef. cbn [ep_candidate_ids set_selected]. cbv zeta.
  destruct (mem x (ep_candidate_ids p)) eqn:Em; cbn; (split_and!; [done..|]).
  - intros _. by rewrite last_snoc.
  - intros Hx%mem_true. congruence.
Qed.

Lemma wp_any {S A} (m : M S A) (Q : A -> S -> Prop) (E : exn -> S -> Prop) s :
  (forall a s', Q a s') -> (forall x s', E x s') -> wp m Q E s.
Proof. intros HQ HE. unfold wp. destruct (m s) as [[a|x] s']; auto. Qed.
Lemma select_adopts proposal_id policy actor s : multi_ok s ->
  wp (select_candidates proposal_id policy actor)
     (fun r s' => forall x, pr_selected_candidate_id r = Some x -> x <> "" -> exists p0 q e,
        dget proposal_id (se_proposals (mc_base s)) = Some p0 /\ holds proposal_id q (mc_base s') /\
        q = adopt (Some e) x p0 /\ evaluation_ok x e /\ ce_feasible e = true /\ dget x (evaluations_of proposal_id s) = Some e)
     (fun _ _ => True) s.
Proof.
  intros Hs. destruct (evaluations_of_ok proposal_id s Hs) as [Hd Hes]. unfold select_candidates.
  apply wp_bind, wp_on_base, wp_get_proposal; [|done]. intros p0 Hp0. do 2 wp_step. cbn [mc_base put_base].
  change (evaluations_of proposal_id (put_base (mc_base s) s)) with (evaluations_of proposal_id s).
  destruct (evaluations_of proposal_id s) as [|e0 es0] eqn:Ees; [by wp_step|]. rewrite <- Ees in *. clear e0 es0 Ees.
  apply wp_bind, wp_on_base, wp_stamp. intros t w.
  destruct (select_pareto_result proposal_id (dvalues (evaluations_of proposal_id s)) policy t) as (fronts & r & Er & _ & Hl & Hids & Hhd).
  rewrite Er. do 4 wp_step.
  - apply wp_on_base. unfold update_proposal. wp_step. cbn [mc_base put_base put_selection put_se_world se_proposals]. rewrite Hp0.
    set (q := adopt _ _ p0). apply wp_bind, wp_on_base. eapply wp_mono; [apply (wp_touch_holds _ q _ (fun _ _ => True))|intros [] b Hb|done].
    { exists (ep_updated_at q). cbn. rewrite dget_dset_eq. by destruct q. }
    apply wp_bind, wp_on_base. eapply wp_mono; [by apply (wp_record_holds _ _ _ _ q _ (fun _ _ => True))|intros [] b' Hb'|done]. subst q.
    wp_step. intros x Hx Hne. rewrite Hx in Hb'. cbn [or_empty] in Hb'.
    assert (Hin : x ∈ pr_selected_candidate_ids r) by (rewrite Hx in Hhd; destruct (pr_selected_candidate_ids r); [done|]; injection Hhd as ->; left).
    rewrite Hids in Hin. apply subseteq_take in Hin. rewrite concat_sorted_perm in Hin.
    apply (ly_sub _ _ _ _ Hl), candidate_values_keys in Hin as (e & He & Ex).
    apply list_elem_of_In, filter_In in He as [He Hsel]. apply list_elem_of_In, elem_dvalues in He as [k Hk].
    apply elem_dget in Hk; [|done]. pose proof (Hes _ _ Hk) as Hok. rewrite (ev_key _ _ Hok) in Ex. subst k.
    exists p0, (adopt (Some e) x p0), e. rewrite Hk in Hb'. split_and!; try done.
    unfold selectable in Hsel. destruct (ce_fitness e); [|done]. by destruct (ce_feasible e).
  - apply wp_bind, wp_any; [intros _ s1|done]. apply wp_bind, wp_any; [intros _ s2|done]. wp_step.
    intros x Hx Hne. rewrite Hx in *. by destruct x.
Qed.

(** C9: after any sequence of calls (the id of a new proposal being unused, the
    verifier and the evaluator naming the candidate they judge), a selection that
    picks a candidate makes it the selected and the last candidate of the proposal,
    and hands the proposal a valid verification and a passing fitness of that very
    candidate. *)
Theorem selection_is_backed `{!PartLaws} proposal_id policy actor s r s' x : multi_reachable s ->
  select_candidates proposal_id policy actor s = (Ok r, s') -> pr_selected_candidate_id r = Some x -> x <> "" ->
  exists p q v f, dget proposal_id (se_proposals (mc_base s)) = Some p /\ x ∈ ep_candidate_ids p /\
    dget proposal_id (se_proposals (mc_base s')) = Some q /\
    ep_selected_candidate_id q = Some x /\ last (ep_candidate_ids q) = Some x /\
    ep_verification q = Some v /\ vf_valid v = true /\ vf_candidate_id v = x /\
    ep_fitness q = Some f /\ fe_passed f = true /\ fe_candidate_id f = x.
Proof.
  intros Hr E Hx Hne. pose proof (multi_reachable_ok s Hr) as Hs.
  pose proof (wp_run _ _ _ _ _ _ (select_adopts proposal_id policy actor s Hs) E) as Hq.
  destruct (Hq x Hx Hne) as (p & q & e & Hp & [t Ht] & -> & He & Hf & Hin).
  destruct (multi_reachable_members s Hr _ _ _ Hin) as (p' & Hp' & Hk). rewrite Hp in Hp'. injection Hp' as <-.
  destruct (ev_backed _ _ He Hf) as (c & pc & Ec & _ & (r0 & v & f & w & w1 & w2 & Ev & Hver & Hv & Ef & Hfit & Hpass)).
  apply law_verifier in Hver. apply law_fitness in Hfit.
  destruct (adopted_reports e x p v f Ev Ef) as (Hsel & Hv' & Hfit' & Hlast).
  exists p, (set_updated t (adopt (Some e) x p)), v, f. cbn. split_and!; auto; congruence.
Qed.

(** C40: a round of the evaluation always returns a record, whatever the parts answer
    or raise.  The reports it holds and its reasons are those of [outcome]: the parts
    are asked in turn about the candidate, and the first that is not content, or
    raises, ends the round with its reason: "simulation_failed",
    "verification_failed", "fitness_failed" or the text of the exception.  The record is
    feasible exactly when there is no reason; of the engine only the stored
    simulation changes, and time. *)
Theorem evaluation_always_records proposal_id candidate_id c s :
  exists e s', run_trial proposal_id candidate_id c s = (Ok e, s') /\ ce_candidate_id e = candidate_id /\
    (exists simulation, outcome proposal_id c s simulation (ce_verification e) (ce_fitness e) (ce_reasons e) /\
       ce_simulation_id e = option_map sm_id simulation) /\
    (ce_feasible e = true <-> ce_reasons e = []) /\
    exists w', match (part_simulator c (se_world s)).1 with
               | Ok r => s' = put_se_world w' (with_simulation proposal_id r s)
               | Raise _ => s' = put_se_world w' s
               end.
Proof.
  destruct (trial_runs proposal_id candidate_id c s) as (e & s' & E & Ek & [Ho Hf] & Hl). exists e, s'. split_and!; done.
Qed.
End Spec.

(** ** What the methods leave open *)

#[local] Existing Instance compact_digests.
#[local] Existing Instance counting_world.
#[local] Existing Instance sample_parts.
Definition multi_run (cs : list multi_call) (s : MultiCandidateEvolutionEngine) : MultiCandidateEvolutionEngine :=
  fold_left (fun s c => (multi_perform c s).2) cs s.
Definition sample_policy : ParetoSelectionPolicy := {|
  po_objectives := []; po_max_selected := 1; po_min_objective_value := fzero; po_epsilon := fzero;
  po_require_constraints := true |}.
Definition multi_start : MultiCandidateEvolutionEngine := new_multi_engine (new_self_engine default_policy world0).
Definition chosen : list multi_call :=
  [MC_base (C_propose sample_request "me");
   MC_generate the_id {| gc_mutations := []; gc_include_base_mutation := true |} "me";
   MC_evaluate the_id "me" false; MC_select the_id sample_policy "me"].
Definition records (s : MultiCandidateEvolutionEngine) : list (string * string) :=
  map (fun r => (pm_environment r, pm_status r)) (se_heap (mc_base s)).
Definition feasibility (s : MultiCandidateEvolutionEngine) (candidate_id : string) : option bool :=
  option_map ce_feasible (dget candidate_id (evaluations_of the_id s)).

(** After a selection, generating one more candidate makes it the last: promotion
    takes it with the reports of the one that was selected, feasible or not. *)
Definition stale : MultiCandidateEvolutionEngine := multi_run
  (chosen ++ [MC_generate the_id {| gc_mutations := [sample_mutation "bad"]; gc_include_base_mutation := false |} "me";
              MC_evaluate the_id "me" false; MC_base (C_submit the_id "me"); MC_base (C_promote the_id "production" "me")])
  multi_start.
Lemma infeasible_candidate_promoted :
  map (feasibility stale ∘ pm_candidate_id) (se_heap (mc_base stale)) = [Some false] /\ records stale = [("production", "ACTIVE")].
Proof. vm_compute. split; reflexivity. Qed.

(** Evaluating again reopens a promoted proposal: it is promoted a second time while
    its first promotion stays active. *)
Definition reopened : MultiCandidateEvolutionEngine := multi_run
  (chosen ++ [MC_base (C_submit the_id "me"); MC_base (C_promote the_id "staging" "me");
              MC_evaluate the_id "me" false; MC_base (C_submit the_id "me"); MC_base (C_promote the_id "production" "me")])
  multi_start.
Lemma promoted_twice : records reopened = [("staging", "ACTIVE"); ("production", "ACTIVE")].
Proof. vm_compute. reflexivity. Qed.

(** Evaluation alone makes the proposal EVALUATED and lets it be approved, without the
    reports that promotion asks for. *)
Definition unselected : MultiCandidateEvolutionEngine := multi_run (take 3 chosen ++ [MC_base (C_submit the_id "me")]) multi_start.
Lemma approved_but_not_promotable :
  option_map ep_status (dget the_id (se_proposals (mc_base unselected))) = Some APPROVED /\
  (multi_perform (MC_base (C_promote the_id "production" "me")) unselected).1
  = Raise (InvalidStateError "Cannot promote without valid verification.").
Proof. vm_compute. split; reflexivity. Qed.

(** Governance that requires evidence is read as governance that allows. *)
Lemma required_evidence_approves p : forced_approval default_policy (ep_request p) = false ->
  ep_status (submitted default_policy (plain_decision "REQUIRE_EVIDENCE" "No evidence.") p) = APPROVED.
Proof. intros E. unfold submitted. cbn. by rewrite E. Qed.

(** ** Witnesses *)

(** The calls of a list make no proposal whose id is in use. *)
Fixpoint unused_along (cs : list multi_call) (s : MultiCandidateEvolutionEngine) : Prop :=
  match cs with [] => True | c :: cs => multi_unused c s /\ unused_along cs (multi_perform c s).2 end.
Lemma multi_run_reachable cs s : multi_reachable s -> unused_along cs s -> multi_reachable (multi_run cs s).
Proof. revert s. induction cs as [|c cs IH]; intros s Hs; [done|]. intros [Hu Hus]. by apply IH; [apply mr_call|]. Qed.
Definition ready : MultiCandidateEvolutionEngine := multi_run (take 3 chosen) multi_start.
Lemma ready_reachable : multi_reachable ready.
Proof.
  apply multi_run_reachable; [constructor|]. change (take 3 chosen) with
    [hd (MC_base (C_rollback "" "" "")) chosen; nth 1 chosen (MC_base (C_rollback "" "" "")); nth 2 chosen (MC_base (C_rollback "" "" ""))].
  split; [vm_compute; reflexivity|]. split; [exact I|]. split; exact I.
Qed.
Lemma selection_is_backed_witness : exists r s' x q v,
  select_candidates the_id sample_policy "me" ready = (Ok r, s') /\ pr_selected_candidate_id r = Some x /\
  dget the_id (se_proposals (mc_base s')) = Some q /\ ep_selected_candidate_id q = Some x /\ last (ep_candidate_ids q) = Some x /\
  ep_verification q = Some v /\ vf_valid v = true.
Proof.
  destruct (select_candidates the_id sample_policy "me" ready) as [[r|x] s'] eqn:E.
  - assert (Hx : match (select_candidates the_id sample_policy "me" ready).1 with
                 | Ok r => bool_decide (is_Some (pr_selected_candidate_id r)) && otruthy (pr_selected_candidate_id r) | _ => false end = true)
      by (vm_compute; reflexivity).
    rewrite E in Hx. cbn in Hx. destruct (pr_selected_candidate_id r) as [x|] eqn:Ex; [|discriminate Hx].
    assert (Hne : x <> "") by (intros ->; discriminate Hx).
    destruct (@selection_is_backed _ _ _ sample_laws the_id sample_policy "me" ready r s' x ready_reachable E Ex Hne)
      as (p & q & v & f & _ & _ & Hq & Hsel & Hlast & Hv & Hval & _).
    exists r, s', x, q, v. split_and!; first [reflexivity|assumption].
  - exfalso. assert (Hx : match (select_candidates the_id sample_policy "me" ready).1 with Ok _ => true | _ => false end = true)
      by (vm_compute; reflexivity). rewrite E in Hx. discriminate Hx.
Defined.
(** A part that raises leaves its message as the reason. *)
Definition sample_candidate : CandidateArchitecture := {|
  ca_id := "candidate_1"; ca_proposal_id := the_id; ca_mutation_spec_id := "mutation_1"; ca_base_isr_hash := "h0";
  ca_content_hash := "h1"; ca_isr := [("tag", VStr "bad")]; ca_created_at := "0" |}.
Definition raising_parts : Parts := {|
  part_mutation := @part_mutation _ sample_parts; part_simulator := @part_simulator _ sample_parts;
  part_verifier _ _ := raise (ValueError "no such field"); part_fitness := @part_fitness _ sample_parts;
  part_governance := None |}.
Definition reasons_of (r : res CandidateEvaluationRecord) : option (bool * list string) :=
  match r with Ok e => Some (ce_feasible e, ce_reasons e) | Raise _ => None end.
Example exceptions_are_reasons :
  reasons_of (@run_trial _ _ sample_parts the_id "candidate_1" sample_candidate start).1 = Some (false, ["verification_failed"]) /\
  reasons_of (@run_trial _ _ raising_parts the_id "candidate_1" sample_candidate start).1 = Some (false, ["no such field"]).
Proof. vm_compute. split; reflexivity. Qed.
