(* ===== verification/Promotion.v ===== *)
(** * Promotion control

    [evolution/governance_safety.py] and [evolution/promotion.py]: the safety
    interlocks, the life cycle of a promotion request, and the collector that reads
    the evidence off the evolution engines.  The governance gateway and the collector
    are injected and may answer or raise.  Texts of environments are ASCII. *)

From Stdlib Require Import SpecFloat.
From S2P Require Import Prelude PyFloat PyVal PyText PyJson IsrModel IsrValidation EvoModels Pareto SelfModels SelfEngine SelfMulti.
Open Scope Z_scope.

(** ** Safety interlocks *)

Record SafetyIssue : Set := { si_severity : string; si_code : string; si_message : string }.
Record SafetyInterlockPolicy : Set := {
  sp_require_simulation_passed : bool;
  sp_require_verification_valid : bool;
  sp_require_fitness_passed : bool;
  sp_require_compiler_evidence : bool;
  sp_require_feedback_evidence : bool;
  sp_require_pareto_selection : bool;
  sp_require_rollback_plan : bool;
  sp_forbid_critical_incidents : bool;
  sp_forbid_critical_security_findings : bool;
  sp_allow_breaking_changes : bool;
  sp_max_complexity : option float;
  sp_fail_on_fitness_constraints : bool;
}.
Definition default_safety_policy : SafetyInterlockPolicy := {|
  sp_require_simulation_passed := true; sp_require_verification_valid := true; sp_require_fitness_passed := true;
  sp_require_compiler_evidence := false; sp_require_feedback_evidence := false; sp_require_pareto_selection := true;
  sp_require_rollback_plan := true; sp_forbid_critical_incidents := true; sp_forbid_critical_security_findings := true;
  sp_allow_breaking_changes := false; sp_max_complexity := Some (of_Z 100); sp_fail_on_fitness_constraints := true |}.
Record EvolutionEvidence : Set := {
  ee_proposal_id : string;
  ee_candidate_id : string;
  ee_isr_content_hash : string;
  ee_simulation_status : option string;
  ee_verification_valid : option bool;
  ee_fitness_passed : option bool;
  ee_objectives : list (string * float);
  ee_constraints : list (string * bool);
  ee_compiler_passed : option bool;
  ee_feedback_passed : option bool;
  ee_critical_incident : bool;
  ee_critical_security_finding : bool;
  ee_pareto_selected : bool;
  ee_complexity : option float;
  ee_public_api_removed : bool;
  ee_breaking_changes_allowed : bool;
  ee_rollback_plan : option pydict;
}.
Record SafetyInterlockReport : Set := {
  sr_id : string;
  sr_proposal_id : string;
  sr_candidate_id : string;
  sr_passed : bool;
  sr_issues : list SafetyIssue;
  sr_error_count : Z;
  sr_warning_count : Z;
  sr_created_at : string;
}.

(** [x is True], [not d] for an optional dict. *)
Definition is_true_flag (o : option bool) : bool := bool_decide (o = Some true).
Definition no_entries (d : option pydict) : bool := match d with None | Some [] => true | Some _ => false end.

(** A check: the error it reports when it fails. *)
Definition check (failed : bool) (code message : string) : list SafetyIssue :=
  if failed then [{| si_severity := "ERROR"; si_code := code; si_message := message |}] else [].
Definition over_complexity (evidence : EvolutionEvidence) (policy : SafetyInterlockPolicy) : bool :=
  match ee_complexity evidence, sp_max_complexity policy with
  | Some c, Some m => fltb m c
  | _, _ => false
  end.
Definition safety_issues (e : EvolutionEvidence) (policy : SafetyInterlockPolicy) : list SafetyIssue :=
  check (sp_require_simulation_passed policy && negb (bool_decide (ee_simulation_status e = Some "PASSED")))
    "SIMULATION_NOT_PASSED" "Candidate simulation did not pass."
  ++ check (sp_require_verification_valid policy && negb (is_true_flag (ee_verification_valid e)))
    "VERIFICATION_NOT_VALID" "Candidate verification is not valid."
  ++ check (sp_require_fitness_passed policy && negb (is_true_flag (ee_fitness_passed e)))
    "FITNESS_NOT_PASSED" "Candidate fitness evaluation did not pass."
  ++ check (sp_require_compiler_evidence policy && negb (is_true_flag (ee_compiler_passed e)))
    "COMPILER_EVIDENCE_MISSING" "Compiler-in-the-loop evidence did not pass."
  ++ check (sp_require_feedback_evidence policy && negb (is_true_flag (ee_feedback_passed e)))
    "FEEDBACK_EVIDENCE_MISSING" "Production feedback evidence did not pass."
  ++ check (sp_require_pareto_selection policy && negb (ee_pareto_selected e))
    "NOT_PARETO_SELECTED" "Candidate was not selected through Pareto selection."
  ++ check (sp_require_rollback_plan policy && no_entries (ee_rollback_plan e))
    "ROLLBACK_PLAN_MISSING" "Candidate does not have a rollback plan."
  ++ check (sp_forbid_critical_incidents policy && ee_critical_incident e)
    "CRITICAL_INCIDENT_PRESENT" "Critical production incident evidence is present."
  ++ check (sp_forbid_critical_security_findings policy && ee_critical_security_finding e)
    "CRITICAL_SECURITY_FINDING_PRESENT" "Critical security finding evidence is present."
  ++ check (over_complexity e policy) "COMPLEXITY_LIMIT_EXCEEDED" "Candidate complexity exceeds the configured limit."
  ++ check (negb (ee_breaking_changes_allowed e || sp_allow_breaking_changes policy) && ee_public_api_removed e)
    "PUBLIC_API_REMOVED" "Public API removal detected without breaking-change approval."
  ++ (if sp_fail_on_fitness_constraints policy
      then concat (map (fun c => check (negb c.2) ("CONSTRAINT_FAILED:" +:+ c.1) ("Fitness constraint failed: " +:+ c.1))
                     (ee_constraints e))
      else []).

Definition with_severity (severity : string) (issues : list SafetyIssue) : list SafetyIssue :=
  List.filter (fun i => bool_decide (si_severity i = severity)) issues.
Definition count_severity (severity : string) (issues : list SafetyIssue) : Z := Z.of_nat (length (with_severity severity issues)).

(** ** Promotion records *)

Inductive Verdict : Set := ALLOW | DENY | REQUIRE_APPROVAL.
Definition verdict_value (v : Verdict) : string :=
  match v with ALLOW => "ALLOW" | DENY => "DENY" | REQUIRE_APPROVAL => "REQUIRE_APPROVAL" end.
Record GovernanceDecision : Set := {
  gd_decision : Verdict;
  gd_reason : string;
  gd_constraints : list pydict;
  gd_required_approvals : list pydict;
}.
Definition plain_verdict (v : Verdict) (reason : string) : GovernanceDecision :=
  {| gd_decision := v; gd_reason := reason; gd_constraints := []; gd_required_approvals := [] |}.
Record GovernancePromotionRequest : Set := {
  gr_promotion_request_id : string;
  gr_proposal_id : string;
  gr_candidate_id : string;
  gr_environment : string;
  gr_evidence : EvolutionEvidence;
  gr_safety_report : option SafetyInterlockReport;
}.
Inductive PromotionRequestStatus : Set :=
| PR_DRAFT | PR_SAFETY_CHECKS_PASSED | PR_SAFETY_FAILED | PR_GOVERNANCE_PENDING | PR_GOVERNANCE_DENIED
| PR_APPROVED | PR_PROMOTED | PR_ROLLED_BACK | PR_REJECTED.
Definition request_status_value (s : PromotionRequestStatus) : string :=
  match s with
  | PR_DRAFT => "DRAFT" | PR_SAFETY_CHECKS_PASSED => "SAFETY_CHECKS_PASSED" | PR_SAFETY_FAILED => "SAFETY_FAILED"
  | PR_GOVERNANCE_PENDING => "GOVERNANCE_PENDING" | PR_GOVERNANCE_DENIED => "GOVERNANCE_DENIED"
  | PR_APPROVED => "APPROVED" | PR_PROMOTED => "PROMOTED" | PR_ROLLED_BACK => "ROLLED_BACK" | PR_REJECTED => "REJECTED"
  end.
#[export] Instance PromotionRequestStatus_eq_dec : EqDecision PromotionRequestStatus.
Proof. solve_decision. Defined.
Record PromotionControlPolicy : Set := {
  cp_require_safety_checks : bool;
  cp_auto_submit_governance : bool;
  cp_governance_required_environments : list string;
  cp_allow_auto_approval_when_governance_allow : bool;
  cp_fail_closed_if_governance_unavailable : bool;
}.
Definition default_control_policy : PromotionControlPolicy := {|
  cp_require_safety_checks := true; cp_auto_submit_governance := true;
  cp_governance_required_environments := ["production"; "staging"];
  cp_allow_auto_approval_when_governance_allow := true; cp_fail_closed_if_governance_unavailable := true |}.
(** A request is only made with evidence. *)
Record PromotionRequest : Set := {
  rp_id : string;
  rp_proposal_id : string;
  rp_candidate_id : string;
  rp_environment : string;
  rp_actor_id : string;
  rp_status : PromotionRequestStatus;
  rp_evidence : EvolutionEvidence;
  rp_safety_report : option SafetyInterlockReport;
  rp_governance_decision : option GovernanceDecision;
  rp_approval : option pydict;
  rp_rollback_plan : option pydict;
  rp_error : option string;
  rp_created_at : string;
  rp_updated_at : string;
  rp_promoted_at : option string;
  rp_rolled_back_at : option string;
}.
Record PromotionPacket : Set := {
  pp_request : PromotionRequest;
  pp_evidence : EvolutionEvidence;
  pp_safety_report : option SafetyInterlockReport;
  pp_governance_decision : option GovernanceDecision;
  pp_created_at : string;
}.

(** ** The engine *)

Section Parts.
Context `{Surroundings}.

Definition GovernanceGateway : Type := GovernancePromotionRequest -> M World GovernanceDecision.
Definition EvidenceCollector : Type := string -> string -> M World EvolutionEvidence.
Class PromotionParts := {
  part_gateway : option GovernanceGateway;
  part_collector : option EvidenceCollector;
}.

(** The constructor refuses a decision that is none of the three. *)
Definition StaticGovernanceGateway (decision reason : string) : GovernanceGateway := fun _ =>
  match List.find (fun v => bool_decide (verdict_value v = decision)) [ALLOW; DENY; REQUIRE_APPROVAL] with
  | Some v => mret (plain_verdict v reason)
  | None => raise (ValueError "1 validation error for GovernanceDecision")
  end.
(** [post] is the request, the status check and the parsing of the answer. *)
Definition gateway_payload (r : GovernancePromotionRequest) : pydict :=
  [("subject_type", VStr "EVOLUTION_PROMOTION"); ("subject_id", VStr (gr_promotion_request_id r));
   ("action", VStr "PROMOTE_EVOLVED_ISR");
   ("actor", VDict [("actor_type", VStr "SERVICE"); ("actor_id", VStr "promotion_control_engine");
                    ("roles", VList []); ("delegated_authority", VList [])]);
   ("context", VDict [("proposal_id", VStr (gr_proposal_id r)); ("candidate_id", VStr (gr_candidate_id r));
                      ("environment", VStr (gr_environment r));
                      ("safety_passed", match gr_safety_report r with Some s => VBool (sr_passed s) | None => VNone end)]);
   ("evidence_refs", VList [VStr ("promotion_request:" +:+ gr_promotion_request_id r);
                            VStr ("proposal:" +:+ gr_proposal_id r); VStr ("candidate:" +:+ gr_candidate_id r)])].
Definition HttpGovernanceGateway (post : pydict -> M World GovernanceDecision) : GovernanceGateway := fun r =>
  try_catch (post (gateway_payload r))
    (fun e => mret (plain_verdict DENY ("Governance Kernel unavailable or error: " +:+ exn_text e))).
End Parts.

(** [base_engine] is known to the engine through its history only. *)
Record PromotionControlEngine : Set := {
  pe_world : World;
  pe_policy : PromotionControlPolicy;
  pe_safety_policy : SafetyInterlockPolicy;
  pe_history : option EvolutionHistory;
  pe_requests : list (string * PromotionRequest);
}.
Definition new_promotion_engine (policy : PromotionControlPolicy) (safety_policy : SafetyInterlockPolicy)
    (history : option EvolutionHistory) (w : World) : PromotionControlEngine := {|
  pe_world := w; pe_policy := policy; pe_safety_policy := safety_policy; pe_history := history; pe_requests := [] |}.
Definition put_pe_world (w : World) (s : PromotionControlEngine) : PromotionControlEngine := {|
  pe_world := w; pe_policy := pe_policy s; pe_safety_policy := pe_safety_policy s; pe_history := pe_history s;
  pe_requests := pe_requests s |}.
Definition put_pe_history (h : option EvolutionHistory) (s : PromotionControlEngine) : PromotionControlEngine := {|
  pe_world := pe_world s; pe_policy := pe_policy s; pe_safety_policy := pe_safety_policy s; pe_history := h;
  pe_requests := pe_requests s |}.
Definition put_request (id : string) (r : PromotionRequest) (s : PromotionControlEngine) : PromotionControlEngine := {|
  pe_world := pe_world s; pe_policy := pe_policy s; pe_safety_policy := pe_safety_policy s; pe_history := pe_history s;
  pe_requests := dset id r (pe_requests s) |}.

(** Attributes of a request. *)
Definition set_request_status (st : PromotionRequestStatus) (error : option string) (r : PromotionRequest) : PromotionRequest := {|
  rp_id := rp_id r; rp_proposal_id := rp_proposal_id r; rp_candidate_id := rp_candidate_id r; rp_environment := rp_environment r;
  rp_actor_id := rp_actor_id r; rp_status := st; rp_evidence := rp_evidence r; rp_safety_report := rp_safety_report r;
  rp_governance_decision := rp_governance_decision r; rp_approval := rp_approval r; rp_rollback_plan := rp_rollback_plan r;
  rp_error := error; rp_created_at := rp_created_at r; rp_updated_at := rp_updated_at r; rp_promoted_at := rp_promoted_at r;
  rp_rolled_back_at := rp_rolled_back_at r |}.
Definition set_request_updated (t : string) (r : PromotionRequest) : PromotionRequest := {|
  rp_id := rp_id r; rp_proposal_id := rp_proposal_id r; rp_candidate_id := rp_candidate_id r; rp_environment := rp_environment r;
  rp_actor_id := rp_actor_id r; rp_status := rp_status r; rp_evidence := rp_evidence r; rp_safety_report := rp_safety_report r;
  rp_governance_decision := rp_governance_decision r; rp_approval := rp_approval r; rp_rollback_plan := rp_rollback_plan r;
  rp_error := rp_error r; rp_created_at := rp_created_at r; rp_updated_at := t; rp_promoted_at := rp_promoted_at r;
  rp_rolled_back_at := rp_rolled_back_at r |}.
(** [safety_report], [governance_decision], [approval]. *)
Definition set_request_reviews (sr : option SafetyInterlockReport) (d : option GovernanceDecision) (a : option pydict)
    (r : PromotionRequest) : PromotionRequest := {|
  rp_id := rp_id r; rp_proposal_id := rp_proposal_id r; rp_candidate_id := rp_candidate_id r; rp_environment := rp_environment r;
  rp_actor_id := rp_actor_id r; rp_status := rp_status r; rp_evidence := rp_evidence r; rp_safety_report := sr;
  rp_governance_decision := d; rp_approval := a; rp_rollback_plan := rp_rollback_plan r;
  rp_error := rp_error r; rp_created_at := rp_created_at r; rp_updated_at := rp_updated_at r; rp_promoted_at := rp_promoted_at r;
  rp_rolled_back_at := rp_rolled_back_at r |}.
(** [rollback_plan], [promoted_at], [rolled_back_at]. *)
Definition set_request_times (plan : option pydict) (promoted rolled : option string) (r : PromotionRequest) : PromotionRequest := {|
  rp_id := rp_id r; rp_proposal_id := rp_proposal_id r; rp_candidate_id := rp_candidate_id r; rp_environment := rp_environment r;
  rp_actor_id := rp_actor_id r; rp_status := rp_status r; rp_evidence := rp_evidence r; rp_safety_report := rp_safety_report r;
  rp_governance_decision := rp_governance_decision r; rp_approval := rp_approval r; rp_rollback_plan := plan;
  rp_error := rp_error r; rp_created_at := rp_created_at r; rp_updated_at := rp_updated_at r; rp_promoted_at := promoted;
  rp_rolled_back_at := rolled |}.

Section Engine.
Context `{Surroundings, Digests, !PromotionParts}.

Definition safety_evaluate (evidence : EvolutionEvidence) (policy : SafetyInterlockPolicy) : M World SafetyInterlockReport :=
  let issues := safety_issues evidence policy in
  let codes severity := VList (map (fun i => VStr (si_code i)) (with_severity severity issues)) in
  let error_count := count_severity "ERROR" issues in
  let warning_count := count_severity "WARNING" issues in
  let report_id := deterministic_id "safety_interlock_report"
    [("proposal_id", VStr (ee_proposal_id evidence)); ("candidate_id", VStr (ee_candidate_id evidence));
     ("error_codes", codes "ERROR"); ("warning_codes", codes "WARNING")] in
  created_at ← timestamp;
  mret {| sr_id := report_id; sr_proposal_id := ee_proposal_id evidence; sr_candidate_id := ee_candidate_id evidence;
          sr_passed := bool_decide (error_count = 0); sr_issues := issues; sr_error_count := error_count;
          sr_warning_count := warning_count; sr_created_at := created_at |}.

Definition in_pe_world {A} (m : M World A) : M PromotionControlEngine A := zoom pe_world put_pe_world m.
Definition request_stamp : M PromotionControlEngine string := in_pe_world timestamp.
Definition get_request (request_id : string) : M PromotionControlEngine PromotionRequest :=
  rs ← gets pe_requests;
  match dget request_id rs with
  | Some r => mret r
  | None => raise (PromotionError ("Promotion request not found: " +:+ request_id))
  end.
(** [request.x = ...] on the request found under an id. *)
Definition update_request (request_id : string) (f : PromotionRequest -> PromotionRequest) : M PromotionControlEngine unit :=
  modify (fun s => match dget request_id (pe_requests s) with
                   | Some r => put_request request_id (f r) s
                   | None => s
                   end).
Definition touch_request (request_id : string) : M PromotionControlEngine unit :=
  t ← request_stamp; update_request request_id (set_request_updated t).
Definition governance_required (policy : PromotionControlPolicy) (environment : string) : bool :=
  mem (lower environment) (map lower (cp_governance_required_environments policy)).
Definition record_history (request_id event_type actor_id : string) : M PromotionControlEngine unit :=
  r ← get_request request_id;
  h ← gets pe_history;
  match h with
  | None => mret tt
  | Some h =>
      t ← request_stamp;
      modify (put_pe_history (Some (append_history
        (make_event (rp_proposal_id r) event_type actor_id
           [("promotion_request_id", VStr (rp_id r)); ("candidate_id", VStr (rp_candidate_id r));
            ("environment", VStr (rp_environment r)); ("status", VStr (request_status_value (rp_status r)))]
           t (hi_last_event_hash h)) h)))
  end.
(** The tail of a method: touch, record, return the request. *)
Definition conclude (request_id event_type actor_id : string) : M PromotionControlEngine PromotionRequest :=
  _ ← touch_request request_id;
  _ ← record_history request_id event_type actor_id;
  get_request request_id.

(** ** Governance, approval, promotion, rollback *)

Definition unavailable_decision (policy : PromotionControlPolicy) (environment : string) : GovernanceDecision :=
  if cp_fail_closed_if_governance_unavailable policy && governance_required policy environment
  then plain_verdict DENY "Governance gateway is unavailable."
  else plain_verdict ALLOW "Governance is not required.".
Definition gateway_request (r : PromotionRequest) : GovernancePromotionRequest := {|
  gr_promotion_request_id := rp_id r; gr_proposal_id := rp_proposal_id r; gr_candidate_id := rp_candidate_id r;
  gr_environment := rp_environment r; gr_evidence := rp_evidence r; gr_safety_report := rp_safety_report r |}.
Definition decide_promotion (policy : PromotionControlPolicy) (r : PromotionRequest) : M World GovernanceDecision :=
  match part_gateway with
  | None => mret (unavailable_decision policy (rp_environment r))
  | Some gateway => gateway (gateway_request r)
  end.
Definition decided (policy : PromotionControlPolicy) (d : GovernanceDecision) (r : PromotionRequest) : PromotionRequest :=
  match gd_decision d with
  | ALLOW => set_request_status (if cp_allow_auto_approval_when_governance_allow policy then PR_APPROVED else PR_GOVERNANCE_PENDING)
               (rp_error r) r
  | REQUIRE_APPROVAL => set_request_status PR_GOVERNANCE_PENDING (rp_error r) r
  | DENY => set_request_status PR_GOVERNANCE_DENIED (Some (gd_reason d)) r
  end.
Definition submit_governance (request_id actor_id : string) : M PromotionControlEngine PromotionRequest :=
  r ← get_request request_id;
  _ ← when (negb (bool_decide (rp_status r = PR_SAFETY_CHECKS_PASSED)))
        (raise (PromotionError "Governance submission is only allowed after safety checks pass."));
  policy ← gets pe_policy;
  decision ← in_pe_world (decide_promotion policy r);
  _ ← update_request request_id (fun r =>
        decided policy decision (set_request_reviews (rp_safety_report r) (Some decision) (rp_approval r) r));
  conclude request_id "promotion_governance_evaluated" actor_id.

Definition approve (request_id approver_id comments : string) : M PromotionControlEngine PromotionRequest :=
  r ← get_request request_id;
  _ ← when (negb (bool_decide (rp_status r = PR_GOVERNANCE_PENDING)))
        (raise (PromotionError "Approval is only allowed for GOVERNANCE_PENDING requests."));
  approved_at ← request_stamp;
  let approval := [("approver_id", VStr approver_id); ("comments", VStr comments); ("approved_at", VStr approved_at)] in
  _ ← update_request request_id (fun r => set_request_status PR_APPROVED (rp_error r)
        (set_request_reviews (rp_safety_report r) (rp_governance_decision r) (Some approval) r));
  conclude request_id "promotion_approved" approver_id.
Definition promote (request_id actor_id : string) : M PromotionControlEngine PromotionRequest :=
  r ← get_request request_id;
  _ ← when (negb (bool_decide (rp_status r = PR_APPROVED)))
        (raise (PromotionError "Promotion is only allowed for APPROVED requests."));
  promoted_at ← request_stamp;
  _ ← update_request request_id (fun r => set_request_status PR_PROMOTED (rp_error r)
        (set_request_times (rp_rollback_plan r) (Some promoted_at) (rp_rolled_back_at r) r));
  conclude request_id "promotion_completed" actor_id.
Definition rollback (request_id actor_id reason : string) : M PromotionControlEngine PromotionRequest :=
  r ← get_request request_id;
  _ ← when (negb (bool_decide (rp_status r = PR_PROMOTED)))
        (raise (PromotionError "Rollback is only allowed for PROMOTED requests."));
  rolled_back_at ← request_stamp;
  _ ← update_request request_id (fun r => set_request_status PR_ROLLED_BACK (rp_error r)
        (set_request_times (Some (dset "rollback_reason" (VStr reason) (default [] (rp_rollback_plan r))))
           (rp_promoted_at r) (Some rolled_back_at) r));
  conclude request_id "promotion_rolled_back" actor_id.

(** ** Creation *)

Definition new_request (id proposal_id candidate_id environment actor_id : string) (evidence : EvolutionEvidence) (t : string) :
    PromotionRequest := {|
  rp_id := id; rp_proposal_id := proposal_id; rp_candidate_id := candidate_id; rp_environment := environment;
  rp_actor_id := actor_id; rp_status := PR_DRAFT; rp_evidence := evidence; rp_safety_report := None;
  rp_governance_decision := None; rp_approval := None; rp_rollback_plan := ee_rollback_plan evidence; rp_error := None;
  rp_created_at := t; rp_updated_at := t; rp_promoted_at := None; rp_rolled_back_at := None |}.
Definition gather (proposal_id candidate_id : string) (evidence : option EvolutionEvidence) :
    M PromotionControlEngine EvolutionEvidence :=
  match evidence, part_collector with
  | Some e, _ => mret e
  | None, Some collect => in_pe_world (collect proposal_id candidate_id)
  | None, None => raise (PromotionError "Evolution evidence is required for promotion.")
  end.
(** What follows the safety checks. *)
Definition after_safety (request_id environment actor_id : string) : M PromotionControlEngine PromotionRequest :=
  _ ← update_request request_id (fun r => set_request_status PR_SAFETY_CHECKS_PASSED (rp_error r) r);
  _ ← touch_request request_id;
  policy ← gets pe_policy;
  if governance_required policy environment then
    if cp_auto_submit_governance policy then submit_governance request_id actor_id
    else
      _ ← update_request request_id (fun r => set_request_status PR_GOVERNANCE_PENDING (rp_error r) r);
      conclude request_id "promotion_governance_pending" actor_id
  else
    _ ← update_request request_id (fun r => set_request_status PR_APPROVED (rp_error r) r);
    conclude request_id "promotion_approved_without_governance_requirement" actor_id.
Definition create_promotion_request (proposal_id candidate_id environment actor_id : string) (evidence : option EvolutionEvidence) :
    M PromotionControlEngine PromotionRequest :=
  evidence ← gather proposal_id candidate_id evidence;
  created_at ← request_stamp;
  let request_id := deterministic_id "promotion_request"
    [("proposal_id", VStr proposal_id); ("candidate_id", VStr candidate_id); ("environment", VStr environment);
     ("created_at", VStr created_at)] in
  _ ← modify (put_request request_id (new_request request_id proposal_id candidate_id environment actor_id evidence created_at));
  policy ← gets pe_policy;
  safety_policy ← gets pe_safety_policy;
  if cp_require_safety_checks policy then
    report ← in_pe_world (safety_evaluate evidence safety_policy);
    _ ← update_request request_id (fun r =>
          set_request_reviews (Some report) (rp_governance_decision r) (rp_approval r) r);
    if negb (sr_passed report) then
      _ ← update_request request_id (set_request_status PR_SAFETY_FAILED (Some "Safety interlocks failed."));
      conclude request_id "promotion_safety_failed" actor_id
    else after_safety request_id environment actor_id
  else after_safety request_id environment actor_id.

Definition get_packet (request_id : string) : M PromotionControlEngine PromotionPacket :=
  r ← get_request request_id;
  t ← request_stamp;
  mret {| pp_request := r; pp_evidence := rp_evidence r; pp_safety_report := rp_safety_report r;
          pp_governance_decision := rp_governance_decision r; pp_created_at := t |}.
End Engine.

(** ** The evidence of the engines

    [optional_float] is the validation of a value for an optional float field. *)
Class FloatField := { optional_float : pyval -> res (option float) }.
Section Collector.
Context `{Surroundings, Digests, !FloatField}.

Definition collected_plan (c : CandidateArchitecture) : pydict :=
  [("parent_isr_hash", VStr (ca_base_isr_hash c));
   ("steps", VList [VStr "Restore parent ISR as authoritative ISR."; VStr "Mark promoted candidate as rolled back.";
                    VStr "Emit rollback audit event."; VStr "Notify governed systems."]);
   ("automated", VBool false)].
(** [collect], reading the base engine and, when there is one, the engine of several
    candidates. *)
Definition collect (candidate_engine : option MultiCandidateEvolutionEngine) (base : SelfEvolutionEngine)
    (proposal_id candidate_id : string) : res EvolutionEvidence :=
  proposal ← (SelfEngine.get_proposal proposal_id base).1;
  match dget candidate_id (se_candidates base) with
  | None => Raise (PromotionError ("Candidate not found: " +:+ candidate_id))
  | Some candidate =>
      evaluations ← (match candidate_engine with
                     | Some engine => (get_evaluations proposal_id engine).1
                     | None => Ok []
                     end);
      let evaluation := List.find (fun e => bool_decide (ce_candidate_id e = candidate_id)) evaluations in
      let simulation := e ← evaluation;
        if otruthy (ce_simulation_id e) then dget (or_empty (ce_simulation_id e)) (se_simulations base) else None in
      complexity ← optional_float (match simulation with Some r => dget_or "complexity" (sm_metrics r) VNone | None => VNone end);
      let verification := evaluation ≫= ce_verification in
      let fitness := evaluation ≫= ce_fitness in
      let constraints := match fitness with Some f => fe_constraints f | None => [] end in
      Ok {| ee_proposal_id := proposal_id; ee_candidate_id := candidate_id; ee_isr_content_hash := ca_content_hash candidate;
            ee_simulation_status := option_map sm_status simulation;
            ee_verification_valid := option_map vf_valid verification;
            ee_fitness_passed := option_map fe_passed fitness;
            ee_objectives := match fitness with Some f => fe_objectives f | None => [] end;
            ee_constraints := constraints;
            ee_compiler_passed := match dget "compiler_all_required_backends_succeeded" constraints with
                                  | Some b => Some b
                                  | None => dget "compiler_compiler_configuration_valid" constraints
                                  end;
            ee_feedback_passed := dget "feedback_sufficient_feedback_evidence" constraints;
            ee_critical_incident := bool_decide (dget "feedback_no_critical_incidents" constraints = Some false);
            ee_critical_security_finding := bool_decide (dget "feedback_no_critical_security_findings" constraints = Some false);
            ee_pareto_selected := bool_decide (ep_selected_candidate_id proposal = Some candidate_id);
            ee_complexity := complexity;
            ee_public_api_removed := match verification with
                                     | Some v => existsb (fun i => bool_decide (is_code i = "PUBLIC_API_REMOVED")) (vf_issues v)
                                     | None => false
                                     end;
            ee_breaking_changes_allowed := rq_allow_breaking_changes (ep_request proposal);
            ee_rollback_plan := Some (collected_plan candidate) |}
  end.
End Collector.

(** * Promotion control: the audit trail

    [evolution/promotion_audit.py]: the hash-chained trail of each request, and the
    engine that writes it around the calls of the promotion engine. *)

Record PromotionAuditEvent : Set := {
  ae_id : string;
  ae_promotion_request_id : string;
  ae_event_type : string;
  ae_actor_id : string;
  ae_details : pydict;
  ae_timestamp : string;
  ae_previous_event_hash : string;
  ae_event_hash : string;
}.
Record PromotionAuditVerificationReport : Set := {
  av_promotion_request_id : string;
  av_valid : bool;
  av_event_count : Z;
  av_first_invalid_event_id : option string;
}.
Record PromotionAuditTrail : Set := {
  at_events_by_request : list (string * list PromotionAuditEvent);
  at_last_hash_by_request : list (string * string);
}.
Definition empty_trail : PromotionAuditTrail := {| at_events_by_request := []; at_last_hash_by_request := [] |}.

Section Trail.
Context `{Surroundings, Digests}.

Definition audit_content (id request_id event_type actor_id : string) (details : pydict) (time previous : string) : pydict :=
  [("event_id", VStr id); ("promotion_request_id", VStr request_id); ("event_type", VStr event_type);
   ("actor_id", VStr actor_id); ("details", VDict details); ("timestamp", VStr time); ("previous_event_hash", VStr previous)].
Definition audit_hash (e : PromotionAuditEvent) : string :=
  digest (VDict (audit_content (ae_id e) (ae_promotion_request_id e) (ae_event_type e) (ae_actor_id e) (ae_details e)
                   (ae_timestamp e) (ae_previous_event_hash e))).
Definition audit_event (request_id event_type actor_id : string) (details : pydict) (time previous : string) : PromotionAuditEvent :=
  let event_id := deterministic_id "promotion_audit_event"
    [("promotion_request_id", VStr request_id); ("event_type", VStr event_type); ("timestamp", VStr time);
     ("previous_event_hash", VStr previous)] in
  {| ae_id := event_id; ae_promotion_request_id := request_id; ae_event_type := event_type; ae_actor_id := actor_id;
     ae_details := details; ae_timestamp := time; ae_previous_event_hash := previous;
     ae_event_hash := digest (VDict (audit_content event_id request_id event_type actor_id details time previous)) |}.

Definition list_audit_events (request_id : string) (tr : PromotionAuditTrail) : list PromotionAuditEvent :=
  dget_or request_id (at_events_by_request tr) [].
Definition last_hash (request_id : string) (tr : PromotionAuditTrail) : string :=
  dget_or request_id (at_last_hash_by_request tr) "genesis".
(** [record], at a time. *)
Definition record_audit (request_id event_type actor_id : string) (details : pydict) (time : string)
    (tr : PromotionAuditTrail) : PromotionAuditTrail :=
  let e := audit_event request_id event_type actor_id details time (last_hash request_id tr) in
  {| at_events_by_request := dset request_id (list_audit_events request_id tr ++ [e]) (at_events_by_request tr);
     at_last_hash_by_request := dset request_id (ae_event_hash e) (at_last_hash_by_request tr) |}.

(** The first event that breaks the chain that starts at a hash. *)
Fixpoint first_break (previous : string) (events : list PromotionAuditEvent) : option PromotionAuditEvent :=
  match events with
  | [] => None
  | e :: events =>
      if bool_decide (ae_previous_event_hash e <> previous) then Some e
      else if bool_decide (ae_event_hash e <> audit_hash e) then Some e
      else first_break (ae_event_hash e) events
  end.
Definition verify_audit (request_id : string) (tr : PromotionAuditTrail) : PromotionAuditVerificationReport :=
  let events := list_audit_events request_id tr in
  let broken := first_break "genesis" events in
  {| av_promotion_request_id := request_id; av_valid := match broken with None => true | Some _ => false end;
     av_event_count := Z.of_nat (length events); av_first_invalid_event_id := option_map ae_id broken |}.
Definition reconstruct (request_id : string) (tr : PromotionAuditTrail) : list PromotionAuditEvent :=
  list_audit_events request_id tr.
End Trail.

(** ** AuditedPromotionEngine *)

Record AuditedPromotionEngine : Set := { au_inner : PromotionControlEngine; au_trail : PromotionAuditTrail }.
Definition put_inner (i : PromotionControlEngine) (s : AuditedPromotionEngine) : AuditedPromotionEngine :=
  {| au_inner := i; au_trail := au_trail s |}.
Definition put_trail (t : PromotionAuditTrail) (s : AuditedPromotionEngine) : AuditedPromotionEngine :=
  {| au_inner := au_inner s; au_trail := t |}.

Section Audited.
Context `{Surroundings, Digests, !PromotionParts}.

Definition on_inner {A} (m : M PromotionControlEngine A) : M AuditedPromotionEngine A := zoom au_inner put_inner m.
Definition audit (request_id event_type actor_id : string) (details : pydict) : M AuditedPromotionEngine unit :=
  t ← on_inner request_stamp;
  modify (fun s => put_trail (record_audit request_id event_type actor_id details t (au_trail s)) s).
Definition request_state_details (r : PromotionRequest) : pydict :=
  [("proposal_id", VStr (rp_proposal_id r)); ("candidate_id", VStr (rp_candidate_id r)); ("environment", VStr (rp_environment r));
   ("status", VStr (request_status_value (rp_status r)))]
  ++ match rp_governance_decision r with
     | Some d => [("governance_decision", VStr (verdict_value (gd_decision d)))] | None => [] end
  ++ match rp_safety_report r with Some sr => [("safety_passed", VBool (sr_passed sr))] | None => [] end.
Definition record_request_state (r : PromotionRequest) (actor_id : string) : M AuditedPromotionEngine unit :=
  audit (rp_id r) ("PROMOTION_" +:+ request_status_value (rp_status r)) actor_id (request_state_details r).
Definition failure_details (operation : string) (more : pydict) (e : exn) : pydict :=
  [("operation", VStr operation)] ++ more ++ [("error", VStr (exn_text e))].
(** Run an operation of the inner engine and record how it ended. *)
Definition audited (failed_under operation actor_id : string) (more : pydict) (m : M PromotionControlEngine PromotionRequest) :
    M AuditedPromotionEngine PromotionRequest :=
  r ← try_catch (on_inner m) (fun e =>
        _ ← audit failed_under "PROMOTION_OPERATION_FAILED" actor_id (failure_details operation more e);
        raise e);
  _ ← record_request_state r actor_id;
  mret r.
Definition audited_operation (request_id actor_id operation : string) (m : M PromotionControlEngine PromotionRequest) :
    M AuditedPromotionEngine PromotionRequest := audited request_id operation actor_id [] m.

Definition audited_create_promotion_request (proposal_id candidate_id environment actor_id : string)
    (evidence : option EvolutionEvidence) : M AuditedPromotionEngine PromotionRequest :=
  audited "unknown" "create_promotion_request" actor_id
    [("proposal_id", VStr proposal_id); ("candidate_id", VStr candidate_id)]
    (create_promotion_request proposal_id candidate_id environment actor_id evidence).
Definition audited_submit_governance (request_id actor_id : string) : M AuditedPromotionEngine PromotionRequest :=
  audited_operation request_id actor_id "submit_governance" (submit_governance request_id actor_id).
Definition audited_approve (request_id approver_id comments : string) : M AuditedPromotionEngine PromotionRequest :=
  audited_operation request_id approver_id "approve" (approve request_id approver_id comments).
Definition audited_promote (request_id actor_id : string) : M AuditedPromotionEngine PromotionRequest :=
  audited_operation request_id actor_id "promote" (promote request_id actor_id).
Definition audited_rollback (request_id actor_id reason : string) : M AuditedPromotionEngine PromotionRequest :=
  audited_operation request_id actor_id "rollback" (rollback request_id actor_id reason).
Definition audited_get_request (request_id : string) : M AuditedPromotionEngine PromotionRequest := on_inner (get_request request_id).
Definition audited_get_packet (request_id : string) : M AuditedPromotionEngine PromotionPacket := on_inner (get_packet request_id).
End Audited.
