(* ===== verification/SelfPartsSpec.v ===== *)
(** * Self-evolution: theorems on the default parts

    The search for dependency cycles against the cycles of the graph; what the
    verifier and the evaluator answer; what a mutation leaves alone; and, put under
    the engine, what a promoted candidate is sure to have. *)

From Stdlib Require Import SpecFloat.
From S2P Require Import Prelude PyFloat PyVal PyText PyJson IsrModel IsrValidation EvoModels Pareto SelfModels SelfEngine SelfParts SelfEngineSpec.
Open Scope Z_scope.

(** ** Dependency cycles *)

Section Cycles.
Context (graph : dgraph).
Implicit Types (a b n : string) (color : colors).

(** A service depends on another one of the graph. *)
Definition depends a b : Prop := b ∈ dget_or a graph [] /\ dmem b graph = true.
Definition cyclic : Prop := exists a, tc depends a a.
Definition col color n : Color := dget_or n color WHITE.

(** The nodes being visited, the latest first, are the gray ones and each depends on
    the one after it; the black ones are listed so that what a node depends on comes
    later. *)
Record searching (path : list string) (done : list string) color : Prop := {
  se_gray n : col color n = GRAY <-> n ∈ path;
  se_black n : col color n = BLACK <-> n ∈ done;
  se_chain : forall (i : nat) a b, path !! i = Some b -> path !! S i = Some a -> depends a b;
  se_nodup : NoDup done;
  se_order : forall l1 l2 a b, done = l1 ++ a :: l2 -> depends a b -> b ∈ l2;
}.

Lemma col_dset color n x n' : col (dset n x color) n' = if decide (n' = n) then x else col color n'.
Proof. unfold col, dget_or. rewrite dget_dset. by case_decide. Qed.

Lemma chain_reaches (path : list string) a b i : (forall (i : nat) a b, path !! i = Some b -> path !! S i = Some a -> depends a b) ->
  path !! 0%nat = Some b -> path !! i = Some a -> a = b \/ tc depends a b.
Proof.
  intros Hc H0. revert a. induction i as [|i IH]; intros a Ha; [left; congruence|].
  destruct (lookup_lt_is_Some_2 path i) as [a' Ha']; [apply lookup_lt_Some in Ha; lia|].
  right. destruct (IH a' Ha') as [<-|Ht].
  - apply tc_once. by eapply Hc.
  - eapply tc_l; [|exact Ht]. by eapply Hc.
Qed.
(** An edge to a node being visited closes a cycle. *)
Lemma gray_edge_cycle path done color n b : searching (n :: path) done color ->
  depends n b -> col color b = GRAY -> cyclic.
Proof.
  intros [Hg _ Hc _ _] He Hb. apply Hg in Hb. apply list_elem_of_lookup in Hb as [i Hi]. exists n.
  destruct (chain_reaches _ b n i Hc eq_refl Hi) as [->|Ht]; [by apply tc_once|]. by eapply tc_l.
Qed.
(** When everything is black there is no cycle. *)
Lemma order_acyclic done : NoDup done -> (forall l1 l2 a b, done = l1 ++ a :: l2 -> depends a b -> b ∈ l2) ->
  (forall a b, depends a b -> a ∈ done) -> ~ cyclic.
Proof.
  intros Hnd Ho Hall [a Ha].
  assert (Hlater : forall x y, tc depends x y -> forall l1 l2, done = l1 ++ x :: l2 -> y ∈ l2).
  { intros x y Ht. induction Ht as [x y Hxy|x y z Hxy Ht IH]; intros l1 l2 E; [by eapply Ho|].
    assert (Hy : y ∈ l2) by (by eapply Ho). apply list_elem_of_split in Hy as (m1 & m2 & ->).
    specialize (IH (l1 ++ x :: m1) m2). rewrite <- app_assoc in IH. cbn in IH. specialize (IH E).
    apply elem_of_app. right. by right. }
  assert (Hin : a ∈ done). { inversion Ha; subst; by eapply Hall. }
  apply list_elem_of_split in Hin as (l1 & l2 & E). specialize (Hlater a a Ha l1 l2 E).
  rewrite E in Hnd. apply NoDup_app in Hnd as (_ & _ & Hnd). by apply NoDup_cons in Hnd as [? _].
Qed.

(** White nodes of the graph bound the depth. *)
Definition whites color : list string := List.filter (fun n => bool_decide (col color n = WHITE)) (dkeys graph).
Definition extends (done done' : list string) : Prop := exists l, done' = l ++ done.
(** How a visit ends. *)
Definition visited path done node (r : option (bool * colors)) : Prop :=
  match r with
  | None => False
  | Some (true, _) => cyclic
  | Some (false, color') => exists done', searching path done' color' /\ extends done done' /\ node ∈ done'
  end.

Lemma filter_shorter {A} (P Q : A -> bool) (xs : list A) : (forall x, P x = true -> Q x = true) ->
  (length (List.filter P xs) <= length (List.filter Q xs))%nat /\
  forall x, x ∈ xs -> Q x = true -> P x = false -> (length (List.filter P xs) < length (List.filter Q xs))%nat.
Proof.
  intros HPQ. induction xs as [|y ys [IH1 IH2]]; [split; [done|by intros x ?%elem_of_nil]|]. cbn. specialize (HPQ y). split.
  - destruct (P y), (Q y); cbn; naive_solver lia.
  - intros x [->|Hx]%elem_of_cons HQ HP; [rewrite HQ, HP; cbn; lia|]. specialize (IH2 x Hx HQ HP).
    destruct (P y), (Q y); cbn; naive_solver lia.
Qed.
Lemma whites_mono color color' : (forall n, col color' n = WHITE -> col color n = WHITE) ->
  (length (whites color') <= length (whites color))%nat.
Proof. intros Hw. apply filter_shorter. intros n. rewrite !bool_decide_eq_true. apply Hw. Qed.
Lemma whites_fewer color color' n : (forall n, col color' n = WHITE -> col color n = WHITE) -> n ∈ dkeys graph ->
  col color n = WHITE -> col color' n <> WHITE -> (length (whites color') < length (whites color))%nat.
Proof.
  intros Hw Hn Hc Hc'. eapply (proj2 (filter_shorter _ _ _ _)); [exact Hn|by apply bool_decide_eq_true|by apply bool_decide_eq_false].
  Unshelve. intros m. rewrite !bool_decide_eq_true. apply Hw.
Qed.

Lemma extended_trans d1 d2 d3 : extends d1 d2 -> extends d2 d3 -> extends d1 d3.
Proof. intros [l ->] [l' ->]. exists (l' ++ l). by rewrite app_assoc. Qed.
Lemma extends_in n d1 d2 : extends d1 d2 -> n ∈ d1 -> n ∈ d2.
Proof. intros [l ->] Hn. apply elem_of_app. by right. Qed.
Lemma searching_white path done color n : searching path done color ->
  col color n = WHITE <-> (n ∉ path) /\ (n ∉ done).
Proof.
  intros [Hg Hb _ _ _]. rewrite <- Hg, <- Hb. destruct (col color n); naive_solver.
Qed.
(** Enter a node. *)
Lemma searching_enter path done color n : searching path done color -> col color n = WHITE ->
  (forall b, path !! 0%nat = Some b -> depends b n) -> searching (n :: path) done (dset n GRAY color).
Proof.
  intros Hs Hn He. apply (searching_white _ _ _ n Hs) in Hn as Hw. destruct Hs as [Hg Hb Hc Hnd Ho]. split; [| | |done|done].
  - intros m. rewrite col_dset, elem_of_cons. case_decide; [naive_solver|]. rewrite Hg. naive_solver.
  - intros m. rewrite col_dset. case_decide; [subst; naive_solver|]. apply Hb.
  - intros [|i] a b; cbn; [intros [= <-] Ha; by apply He|apply Hc].
Qed.
(** Leave a node whose dependencies are all done. *)
Lemma searching_leave path done color n : searching (n :: path) done color -> (n ∉ path) ->
  (forall b, depends n b -> b ∈ done) -> searching path (n :: done) (dset n BLACK color).
Proof.
  intros [Hg Hb Hc Hnd Ho] Hn Hd.
  assert (Hnn : n ∉ done). { rewrite <- Hb. assert (col color n = GRAY) as -> by (apply Hg; by left). done. }
  split.
  - intros m. rewrite col_dset. case_decide; [subst; naive_solver|]. rewrite Hg, elem_of_cons. naive_solver.
  - intros m. rewrite col_dset, elem_of_cons. case_decide; [naive_solver|]. rewrite Hb. naive_solver.
  - intros i a b Hb' Ha. by apply (Hc (S i)).
  - by apply NoDup_cons.
  - intros [|x l1] l2 a b; cbn; intros [= -> E] He; [subst; by apply Hd|]. by eapply Ho.
Qed.

Lemma visit_each_spec (visit : colors -> string -> option (bool * colors)) path node done fuel :
  (forall done color n, searching (node :: path) done color -> col color n = WHITE -> depends node n ->
     (length (whites color) <= fuel)%nat -> visited (node :: path) done n (visit color n)) ->
  (node ∉ path) ->
  forall neighbors done' color, searching (node :: path) done' color -> extends done done' ->
    (length (whites color) <= fuel)%nat ->
    (forall b, b ∈ neighbors -> b ∈ dget_or node graph []) ->
    (forall b, depends node b -> (b ∈ neighbors) \/ b ∈ done') ->
    visited path done node (visit_each graph visit node neighbors color).
Proof.
  intros Hvisit Hnode. induction neighbors as [|n ns IH]; intros done' color Hs Hext Hfuel Hin Hrest; cbn [visit_each].
  - exists (node :: done'). split; [apply searching_leave; [done|done|]|split; [|by left]].
    + intros b Hb. by destruct (Hrest b Hb) as [?%elem_of_nil|].
    + destruct Hext as [l ->]. by exists (node :: l).
  - assert (Hin' : forall b, b ∈ ns -> b ∈ dget_or node graph []) by (intros b ?; apply Hin; by right).
    destruct (dmem n graph) eqn:Hm; cbn [negb].
    2: { apply (IH done'); [done|done|done|done|]. intros b Hb. destruct (Hrest b Hb) as [[->|?]%elem_of_cons|]; auto.
         destruct Hb as [_ Hb]. congruence. }
    assert (Hdep : depends node n) by (split; [apply Hin; by left|done]).
    assert (Hskip : n ∈ done' -> visited path done node (visit_each graph visit node ns color)).
    { intros Hn. apply (IH done'); [done|done|done|done|]. intros b Hb. destruct (Hrest b Hb) as [[->|?]%elem_of_cons|]; auto. }
    change (dget_or n color WHITE) with (col color n). destruct (col color n) eqn:Hcol.
    + specialize (Hvisit done' color n Hs Hcol Hdep Hfuel). destruct (visit color n) as [[[] color2]|]; [done| |done].
      destruct Hvisit as (done2 & Hs2 & He2 & Hn2). apply (IH done2); [done|by eapply extended_trans| |done|].
      * etransitivity; [|exact Hfuel]. apply whites_mono. intros m. rewrite (searching_white _ _ _ m Hs), (searching_white _ _ _ m Hs2).
        intros [? Hm2]. split; [done|]. intros Hm'. apply Hm2. by eapply extends_in.
      * intros b Hb. destruct (Hrest b Hb) as [[->|?]%elem_of_cons|]; [by right|by left|right; by eapply extends_in].
    + by eapply gray_edge_cycle.
    + apply Hskip. by apply (se_black _ _ _ Hs).
Qed.
Lemma visit_spec fuel path done color node : searching path done color -> col color node = WHITE ->
  (forall b, path !! 0%nat = Some b -> depends b node) -> node ∈ dkeys graph -> (length (whites color) <= fuel)%nat ->
  visited path done node (visit graph fuel color node).
Proof.
  revert path done color node. induction fuel as [|fuel IH]; intros path done color node Hs Hw He Hk Hfuel.
  - exfalso. assert (Hin : node ∈ whites color). { apply list_elem_of_In, filter_In. rewrite <- list_elem_of_In. by rewrite bool_decide_eq_true. }
    destruct (whites color); [by apply elem_of_nil in Hin|cbn in Hfuel; lia].
  - cbn [visit]. pose proof (searching_enter path done color node Hs Hw He) as Hs'.
    eapply (visit_each_spec (visit graph fuel) path node done fuel); [| |exact Hs'|by exists []| |done|by intros b []; left].
    + intros done2 color2 n Hs2 Hn2 Hd2 Hf2. apply IH; [done|done|by intros b [= <-]| |done].
      destruct Hd2 as [_ Hd2]. apply dmem_true in Hd2. done.
    + by apply (searching_white _ _ _ node Hs) in Hw as [? _].
    + enough (length (whites (dset node GRAY color)) < length (whites color))%nat by lia.
      apply (whites_fewer _ _ node); [|done|done|by rewrite col_dset, decide_True].
      intros m. rewrite col_dset. case_decide; [done|auto].
Qed.
Lemma whites_bound color : (length (whites color) <= length graph)%nat.
Proof.
  unfold whites. pose proof (List.filter_length_le (fun n => bool_decide (col color n = WHITE)) (dkeys graph)) as Hl.
  unfold dkeys in *. by rewrite length_map in Hl.
Qed.
Lemma visit_all_spec nodes done color : searching [] done color -> (forall n, n ∈ nodes -> n ∈ dkeys graph) ->
  (forall n, n ∈ dkeys graph -> (n ∈ nodes) \/ n ∈ done) ->
  match visit_all graph nodes color with Some true => cyclic | Some false => ~ cyclic | None => False end.
Proof.
  revert done color. induction nodes as [|n ns IH]; intros done color Hs Hk Hall; cbn [visit_all].
  - apply (order_acyclic done); [apply Hs|apply Hs|]. intros a b [Hb _].
    destruct (Hall a) as [[]%elem_of_nil|]; [|done]. unfold dget_or in Hb.
    destruct (dget a graph) eqn:E; [by eapply dget_Some_key|by apply elem_of_nil in Hb].
  - assert (Hk' : forall m, m ∈ ns -> m ∈ dkeys graph) by (intros m ?; apply Hk; by right).
    change (dget_or n color WHITE) with (col color n). case_bool_decide as Hw.
    + pose proof (visit_spec (S (length graph)) [] done color n Hs Hw) as Hv.
      destruct (visit graph (S (length graph)) color n) as [[[] color']|];
        [apply Hv; [done|apply Hk; by left|by etransitivity; [apply whites_bound|lia]]| |
         apply Hv; [done|apply Hk; by left|by etransitivity; [apply whites_bound|lia]]].
      destruct Hv as (done' & Hs' & He & Hn); [done|apply Hk; by left|etransitivity; [apply whites_bound|lia]|].
      apply (IH done'); [done|done|]. intros m Hm. destruct (Hall m Hm) as [[->|?]%elem_of_cons|]; [by right|by left|].
      right. by eapply extends_in.
    + apply (IH done); [done|done|]. intros m Hm. destruct (Hall m Hm) as [[->|?]%elem_of_cons|]; [|by left|by right].
      right. apply Hs. destruct (col color n) eqn:E; [done| |done]. apply Hs in E. by apply elem_of_nil in E.
Qed.
Lemma col_initial nodes n : col (map (fun n => (n, WHITE)) nodes) n = WHITE.
Proof.
  unfold col, dget_or. induction nodes as [|m ms IH]; [done|]. cbn. by case_decide.
Qed.
End Cycles.

(** C21: the search for a dependency cycle always ends within its fuel, and answers
    true exactly when some service of the graph depends on itself through services
    of the graph. *)
Theorem dependency_cycle_detected graph : exists b, has_dependency_cycle graph = Some b /\ (b = true <-> cyclic graph).
Proof.
  unfold has_dependency_cycle.
  pose proof (visit_all_spec graph (dkeys graph) [] (map (fun n => (n, WHITE)) (dkeys graph))) as Hv.
  destruct (visit_all _ _ _) as [[]|]; [exists true|exists false|exfalso; apply Hv].
  all: try (split; [reflexivity|]).
  - split; [|done]. intros _. apply Hv; [|done|by left].
    split; [intros n; rewrite col_initial; by split; [|intros ?%elem_of_nil]..|by intros []|constructor|by intros []].
  - split; [done|]. intros Hc. exfalso. revert Hc. apply Hv; [|done|by left].
    split; [intros n; rewrite col_initial; by split; [|intros ?%elem_of_nil]..|by intros []|constructor|by intros []].
  - split; [intros n; rewrite col_initial; by split; [|intros ?%elem_of_nil]..|by intros []|constructor|by intros []].
  - done.
  - by left.
Qed.

(** ** Mutations *)

(** The top-level key a path starts with. *)
Definition head_of (path : string) : option string := head (split_path path).
Definition same_beside (ks : list string) (d d' : pydict) : Prop :=
  (dict_ok d -> dict_ok d') /\ forall k, (k ∉ ks) -> dict_ok d -> dget k d' = dget k d.
Lemma same_beside_refl ks d : same_beside ks d d.
Proof. by split. Qed.
Lemma same_beside_trans ks ks' d d' d'' : same_beside ks d d' -> same_beside ks' d' d'' -> same_beside (ks ++ ks') d d''.
Proof.
  intros [O1 S1] [O2 S2]. split; [auto|]. intros k Hk Hd. rewrite not_elem_of_app in Hk. destruct Hk. rewrite S2, S1 by auto. done.
Qed.
Lemma dset_beside k v d : same_beside [k] d (dset k v d).
Proof. split; [apply dset_ok|]. intros k' Hk _. apply dget_dset_ne. intros ->. apply Hk. by left. Qed.
Lemma ddel_beside k d : same_beside [k] d (ddel k d).
Proof. split; [apply ddel_ok|]. intros k' Hk Hd. rewrite dget_ddel by done. case_decide; [|done]. subst. destruct Hk. by left. Qed.
Lemma dsetdefault_beside k v d : same_beside [k] d (dsetdefault k v d).
Proof. unfold dsetdefault. destruct (dmem k d); [split; done|apply dset_beside]. Qed.

Lemma child_beside s d child rebuild c : child_at s (VDict d) = Ok (child, rebuild) ->
  exists d', rebuild c = VDict d' /\ same_beside [s] d d'.
Proof. cbn. destruct (dget s d); [|done]. intros [= <- <-]. eexists. split; [done|apply dset_beside]. Qed.
Lemma update_beside s segments f d v : update_at (s :: segments) f (VDict d) = Ok v ->
  exists d', v = VDict d' /\ same_beside [s] d d'.
Proof.
  cbn [update_at]. unfold_monad. destruct (child_at s (VDict d)) as [[child rebuild]|] eqn:E; [|done].
  destruct (update_at segments f child) as [c|]; [|done]. intros [= <-]. by eapply child_beside.
Qed.
Lemma at_parent_beside path f d v :
  (forall key v, f key (VDict d) = Ok v -> exists d', v = VDict d' /\ same_beside [key] d d') ->
  at_parent path f (VDict d) = Ok v -> exists d', v = VDict d' /\ same_beside (option_list (head_of path)) d d'.
Proof.
  intros Hf. unfold at_parent, head_of. destruct (split_path path) as [|s [|s' ss]]; [done| |].
  - cbn. apply Hf.
  - destruct (last (s :: s' :: ss)) as [key|]; [|done]. cbn [length Nat.sub take head option_list]. apply update_beside.
Qed.
Lemma operation_beside o d v : apply_operation o (VDict d) = Ok v ->
  exists d', v = VDict d' /\ same_beside (option_list (head_of (os_path o))) d d'.
Proof.
  unfold apply_operation. destruct (os_operation o).
  - apply at_parent_beside. intros key v' [= <-]. eexists. split; [done|apply dset_beside].
  - unfold head_of. destruct (split_path (os_path o)) as [|s ss]; [done|apply update_beside].
  - apply at_parent_beside. intros key v'. cbn. destruct (dmem key d); [|done]. intros [= <-]. eexists. split; [done|apply ddel_beside].
  - apply at_parent_beside. intros key v' [= <-]. eexists. split; [done|apply dset_beside].
Qed.
Definition touched (os : list MutationOperationSpec) : list string := concat (map (fun o => option_list (head_of (os_path o))) os).
Lemma operations_beside os d v : apply_operations os (VDict d) = Ok v -> exists d', v = VDict d' /\ same_beside (touched os) d d'.
Proof.
  revert d. induction os as [|o os IH]; intros d; cbn [apply_operations].
  - intros [= <-]. exists d. split; [done|apply same_beside_refl].
  - unfold_monad. destruct (apply_operation o (VDict d)) as [c|] eqn:E; [|done].
    apply operation_beside in E as (d1 & -> & S1). intros (d2 & -> & S2)%IH. exists d2. split; [done|]. by eapply same_beside_trans.
Qed.
(** The list of mutations of an ISR. *)
Definition mutations_of (d : pydict) : option (list pyval) :=
  match dget "evolution" d with
  | Some (VDict e) => match dget "mutations" e with Some (VList ms) => Some ms | _ => None end
  | _ => None
  end.
Lemma provenance_recorded spec d d' : record_provenance spec d = Ok d' ->
  same_beside ["evolution"] d d' /\ mutations_of d' = Some (default [] (mutations_of d) ++ [mutation_entry spec]).
Proof.
  unfold record_provenance, dsetdefault, mutations_of, dget_or, dmem.
  destruct (dget "evolution" d) as [v|] eqn:E.
  - rewrite E. destruct v as [| | | | | |e]; try done. destruct (dget "mutations" e) as [w|] eqn:Em.
    + rewrite Em. destruct w; try done. intros [= <-]. rewrite !dget_dset_eq. split; [apply dset_beside|done].
    + rewrite dget_dset_eq. intros [= <-]. rewrite !dget_dset_eq. split; [apply dset_beside|done].
  - rewrite dget_dset_eq. cbn. intros [= <-]. rewrite dset_dset, !dget_dset_eq. split; [apply dset_beside|done].
Qed.
(** The evolution metadata after a mutation: the dict there was, or an empty one, with
    the record of the mutation after those in its list, or alone. *)
Lemma provenance_exact spec d d' : record_provenance spec d = Ok d' -> exists e ms,
  (dget "evolution" d = Some (VDict e) \/ (dget "evolution" d = None /\ e = [])) /\
  (dget "mutations" e = Some (VList ms) \/ (dget "mutations" e = None /\ ms = [])) /\
  dget "evolution" d' = Some (VDict (dset "mutations" (VList (ms ++ [mutation_entry spec])) e)).
Proof.
  unfold record_provenance, dsetdefault, dget_or, dmem. destruct (dget "evolution" d) as [v|] eqn:E.
  - rewrite E. destruct v as [| | | | | |e]; try done. destruct (dget "mutations" e) as [w|] eqn:Em.
    + rewrite Em in *. destruct w as [| | | | |ms|]; try done. intros [= <-]. exists e, ms. rewrite dget_dset_eq. auto.
    + rewrite dget_dset_eq. intros [= <-]. exists e, []. rewrite dget_dset_eq, dset_dset. auto.
  - rewrite dget_dset_eq. cbn. intros [= <-]. exists [], []. rewrite !dget_dset_eq. auto.
Qed.
(** C22: a mutation that succeeds changes only what its operations change, the evolution
    metadata and the governance design.  A top-level entry no path starts with is as
    in the base after the operations; then the record of the mutation is appended to
    the list of mutations, after the ones it holds, in the evolution metadata (both
    made when missing), whose other entries stay; a governance design is kept, and
    the baseline is filled in only when there is none. *)
Theorem mutation_is_local base spec d : dict_ok base -> apply_mutation base spec = Ok d ->
  exists d1 e ms, apply_operations (ms_operations spec) (VDict base) = Ok (VDict d1) /\
  (forall k, (k ∉ touched (ms_operations spec)) -> dget k d1 = dget k base) /\
  (forall k, k <> "evolution" -> k <> "governance" -> dget k d = dget k d1) /\
  (dget "evolution" d1 = Some (VDict e) \/ (dget "evolution" d1 = None /\ e = [])) /\
  (dget "mutations" e = Some (VList ms) \/ (dget "mutations" e = None /\ ms = [])) /\
  dget "evolution" d = Some (VDict (dset "mutations" (VList (ms ++ [mutation_entry spec])) e)) /\
  dget "governance" d = Some (default (VDict baseline_governance_design) (dget "governance" d1)) /\
  has_provenance d = Ok true.
Proof.
  intros Hok. unfold apply_mutation. unfold_monad. destruct (apply_operations _ _) as [v|] eqn:E1; [|done].
  apply operations_beside in E1 as (d1 & -> & [O1 S1]). destruct (record_provenance spec d1) as [d2|] eqn:E2; [|done].
  destruct (provenance_exact _ _ _ E2) as (e & ms & He & Hms & Hd2). apply provenance_recorded in E2 as [[O2 S2] _].
  intros [= <-]. exists d1, e, ms.
  assert (Hev : dget "evolution" (dsetdefault "governance" (VDict baseline_governance_design) d2)
                = Some (VDict (dset "mutations" (VList (ms ++ [mutation_entry spec])) e))).
  { unfold dsetdefault. destruct (dmem "governance" d2); [done|by rewrite dget_dset_ne]. }
  split_and!; [done|auto| |done|done|done| |].
  - intros k Hke Hkg. destruct (dsetdefault_beside "governance" (VDict baseline_governance_design) d2) as [_ S3].
    rewrite S3, S2; [done|by intros ->%list_elem_of_singleton|auto|by intros ->%list_elem_of_singleton|auto].
  - assert (Hg : dget "governance" d2 = dget "governance" d1) by (apply S2; [by intros ?%list_elem_of_singleton|auto]).
    unfold dsetdefault, dmem. rewrite Hg. destruct (dget "governance" d1) eqn:E; [by rewrite Hg|by rewrite dget_dset_eq].
  - unfold has_provenance, dget_or. rewrite Hev. set (ms' := ms ++ [mutation_entry spec]).
    assert (Hget : dget "mutations" (dset "mutations" (VList ms') e) = Some (VList ms')) by apply dget_dset_eq.
    destruct (dset "mutations" (VList ms') e) as [|kv e1]; [done|]. cbn [val_truthy get]. unfold dget_or. rewrite Hget.
    unfold_monad. unfold ms'. by destruct ms.
Qed.
(** A mutation without operations is a change all the same: the verifier's check for
    an unchanged architecture never fires on it. *)
Lemma empty_mutation_changes base spec d : ms_operations spec = [] -> apply_mutation base spec = Ok d -> d <> base.
Proof.
  intros Ho. unfold apply_mutation. rewrite Ho. cbn [apply_operations]. unfold_monad.
  destruct (record_provenance spec base) as [d2|] eqn:E2; [|done]. apply provenance_recorded in E2 as [_ Hm]. intros [= <-] E.
  assert (He : mutations_of (dsetdefault "governance" (VDict baseline_governance_design) d2) = mutations_of d2).
  { unfold mutations_of, dsetdefault. destruct (dmem "governance" d2); [done|by rewrite dget_dset_ne]. }
  rewrite E, Hm in He. destruct (mutations_of base) as [ms|]; [|done]. cbn in He. injection He as He.
  apply (f_equal length) in He. rewrite length_app in He. cbn in He. lia.
Qed.

(** ** What the parts answer *)

Section Answers.
Context `{Surroundings, Digests, Texts, FloatText}.
Context (client : option GovernanceClient).

Lemma verification_answer c p w v w' : run_verification c p w = (Ok v, w') ->
  vf_candidate_id v = ca_id c /\ exists issues,
  verification_issues c (rq_base_isr (ep_request p)) (rq_allow_breaking_changes (ep_request p)) = Ok issues /\
  vf_valid v = negb (has_error issues).
Proof.
  unfold run_verification, timestamp, now. unfold_monad. destruct (verification_issues _ _ _) as [issues|]; [|done].
  intros [= <- _]. split; [done|]. by exists issues.
Qed.
Lemma fitness_answer config c r v w f w' : governance_fitness config c r v w = (Ok f, w') ->
  fe_candidate_id f = ca_id c /\ (fe_passed f = true -> sm_status r = "PASSED").
Proof.
  unfold governance_fitness, base_fitness, timestamp, now. unfold_monad.
  destruct (py_float _ _) as [x|]; [|done]. destruct v as [v|]; [|done]. intros [= <- _]. cbn. split; [done|].
  intros Hp. apply andb_true_iff in Hp as [Hp _]. apply andb_true_iff in Hp as [Hp _]. by apply bool_decide_eq_true in Hp.
Qed.
#[export] Instance default_laws : @PartLaws _ (default_parts client).
Proof.
  split; [intros c p w v w' E|intros c r v w f w' E]; [exact (proj1 (verification_answer c p w v w' E))|exact (proj1 (fitness_answer _ c r v w f w' E))].
Qed.

Lemma has_error_app xs ys : has_error (xs ++ ys) = has_error xs || has_error ys.
Proof. apply existsb_app. Qed.
Lemma removed_nil base names : removed_names base names = [] <-> forall x, x ∈ base -> x ∈ names.
Proof.
  unfold removed_names. split.
  - intros E x Hx. destruct (mem x names) eqn:Em; [by apply mem_true|].
    assert (Hin : x ∈ sort_by str_leb (remove_dups (List.filter (fun x => negb (mem x names)) base))).
    { rewrite sort_by_elem, elem_of_remove_dups. apply list_elem_of_In, filter_In. rewrite <- list_elem_of_In. by rewrite Em. }
    rewrite E in Hin. by apply elem_of_nil in Hin.
  - intros Hall. destruct (sort_by _ _) as [|x xs] eqn:E; [done|].
    assert (Hin : x ∈ sort_by str_leb (remove_dups (List.filter (fun x => negb (mem x names)) base))) by (rewrite E; by left).
    rewrite sort_by_elem, elem_of_remove_dups in Hin. apply list_elem_of_In, filter_In in Hin as [Hin Hm].
    apply list_elem_of_In, Hall, mem_true in Hin. by rewrite Hin in Hm.
Qed.
Lemma missing_error isr : has_error (missing_fields isr) = false <-> forall k, k ∈ ["isr_id"; "version"; "name"] -> present k isr = true.
Proof.
  unfold missing_fields, present. cbn [map concat]. rewrite !has_error_app. setoid_rewrite elem_of_cons. setoid_rewrite elem_of_cons. setoid_rewrite elem_of_cons.
  setoid_rewrite elem_of_nil.
  destruct (val_truthy (dget_or "isr_id" isr VNone)) eqn:E1, (val_truthy (dget_or "version" isr VNone)) eqn:E2, (val_truthy (dget_or "name" isr VNone)) eqn:E3;
    cbn; (split; [try done; intros _; naive_solver|intros Hk; try done; exfalso]).
  all: first [rewrite (Hk "isr_id") in E1 by auto; discriminate E1|rewrite (Hk "version") in E2 by auto; discriminate E2|rewrite (Hk "name") in E3 by auto; discriminate E3].
Qed.
(** What a candidate without errors has. *)
Record compatible (c : CandidateArchitecture) (r : EvolutionProposalRequest) : Prop := {
  cm_fields k : k ∈ ["isr_id"; "version"; "name"] -> present k (ca_isr c) = true;
  cm_changed : ca_content_hash c <> ca_base_isr_hash c;
  cm_provenance : has_provenance (ca_isr c) = Ok true;
  cm_apis : exists base names, collect_api_names (rq_base_isr r) = Ok base /\ collect_api_names (ca_isr c) = Ok names /\
    (rq_allow_breaking_changes r = false -> forall x, x ∈ base -> x ∈ names);
}.
Lemma issues_compatible c r issues :
  verification_issues c (rq_base_isr r) (rq_allow_breaking_changes r) = Ok issues -> has_error issues = false <-> compatible c r.
Proof.
  unfold verification_issues. unfold_monad. destruct (has_provenance (ca_isr c)) as [b|] eqn:Eb; [|done].
  destruct (collect_api_names (rq_base_isr r)) as [base|] eqn:E1; [|done].
  destruct (collect_api_names (ca_isr c)) as [names|] eqn:E2; [|done]. intros [= <-].
  rewrite !has_error_app, !orb_false_iff, missing_error.
  assert (Hh : has_error (if bool_decide (ca_content_hash c = ca_base_isr_hash c)
      then [issue "ERROR" "NO_ARCHITECTURAL_CHANGE" "Candidate ISR is identical to base ISR."] else []) = false
      <-> ca_content_hash c <> ca_base_isr_hash c) by (by case_bool_decide).
  assert (Hp : has_error (if b then [] else [issue "ERROR" "MISSING_EVOLUTION_PROVENANCE" "Candidate ISR does not contain evolution provenance."]) = false
      <-> b = true) by (by destruct b).
  rewrite Hh, Hp.
  assert (Hr : has_error match removed_names base names with
         | [] => []
         | _ => [issue (if rq_allow_breaking_changes r then "WARNING" else "ERROR") "PUBLIC_API_REMOVED"
                   ("Public APIs were removed: " +:+ join_with ", " (removed_names base names))]
         end = false <-> (rq_allow_breaking_changes r = false -> forall x, x ∈ base -> x ∈ names)).
  { rewrite <- removed_nil. destruct (removed_names base names), (rq_allow_breaking_changes r); cbn; naive_solver. }
  rewrite Hr. split.
  - intros (Hf & ? & -> & Ha). split; [exact Hf|done|done|]. by exists base, names.
  - intros [Hf ? Hb (base' & names' & E1' & E2' & Ha)]. split_and!; [exact Hf|done|congruence|].
    rewrite E1 in E1'. rewrite E2 in E2'. injection E1' as <-. injection E2' as <-. exact Ha.
Qed.
(** C23: the default verifier, when the ISRs can be read, answers a report that is
    valid exactly for a candidate that has the required fields, differs from its base
    by its hash, records its mutations and, unless breaking changes are allowed,
    keeps every API name of the base. *)
Theorem valid_exactly_when_compatible c p w v w' : run_verification c p w = (Ok v, w') ->
  vf_valid v = true <-> compatible c (ep_request p).
Proof.
  intros E. apply verification_answer in E as (_ & issues & Ei & ->). rewrite <- (issues_compatible _ _ _ Ei).
  apply negb_true_iff.
Qed.

(** ** Under the engine *)

Context `{!DigestLaws}.

(** C13: under the engine with its default parts (digests having no collision), the
    candidate of a promotion has the required fields, records its mutations and, unless the proposal
    allows breaking changes, keeps every API name of the ISR the proposal started
    from. *)
Theorem promoted_candidates_keep_their_apis policy s a r c :
  @reachable _ _ (default_parts client) policy s -> se_heap s !! a = Some r ->
  dget (pm_candidate_id r) (se_candidates s) = Some c ->
  exists p base names, dget (pm_proposal_id r) (se_proposals s) = Some p /\
    (forall k, k ∈ ["isr_id"; "version"; "name"] -> present k (ca_isr c) = true) /\ has_provenance (ca_isr c) = Ok true /\
    collect_api_names (rq_base_isr (ep_request p)) = Ok base /\ collect_api_names (ca_isr c) = Ok names /\
    (rq_allow_breaking_changes (ep_request p) = false -> forall x, x ∈ base -> x ∈ names).
Proof.
  intros Hs Hr Hc.
  destruct (@promoted_is_certified _ _ (default_parts client) _ _ policy s a r c Hs Hr Hc) as (p & v & Hp & Hv & (p0 & w & w' & Ev & Eq)).
  apply verification_answer in Ev as (_ & issues & Ei & Evalid). rewrite Hv in Evalid. rewrite Eq in Ei.
  apply eq_sym, negb_true_iff, (issues_compatible _ _ _ Ei) in Evalid as [Hfields _ Hprov (base & names & Eb & En & Hapis)].
  exists p, base, names. done.
Qed.
End Answers.

(** ** A run with the default parts *)

#[local] Existing Instance compact_digests.
#[local] Existing Instance compact_digest_laws.
#[local] Existing Instance counting_world.
#[local] Instance plain_texts : Texts := {| py_str _ := ""; py_repr _ := "" |}.
#[local] Instance no_numbers : FloatText := {| parse_float _ := None |}.
Definition shop (apis : list string) : pyval :=
  VDict [("name", VStr "shop"); ("apis", VList (map VStr apis)); ("depends_on", VList [VStr "mail"])].
Definition shop_isr : pydict :=
  [("isr_id", VStr "isr_1"); ("version", VStr "1"); ("name", VStr "Shop"); ("services", VList [shop ["orders"]; VStr "mail"]);
   ("security", VStr "tls"); ("observability", VStr "logs"); ("deployment", VStr "k8s"); ("testing", VStr "unit")].
Definition add_api : MutationSpec := {|
  ms_id := None; ms_operator := "add"; ms_chromosome_family := "api"; ms_gene_id := "g";
  ms_operations := [{| os_operation := ADD_ITEM; os_path := "services.0.apis"; os_value := VStr "returns"; os_rationale := "" |}];
  ms_rationale := "" |}.
Definition shop_request : EvolutionProposalRequest := {|
  rq_title := "Returns"; rq_description := ""; rq_target_type := APPLICATION_ARCHITECTURE; rq_target_ref := "shop";
  rq_base_isr := shop_isr; rq_mutation := add_api; rq_high_impact := false; rq_allow_breaking_changes := false;
  rq_environment := "test" |}.
#[local] Instance shop_parts : Parts := default_parts (Some (static_client "ALLOW" "fine")).
Definition shop_start : SelfEvolutionEngine := run (perform (C_propose shop_request "me")) (new_self_engine default_policy world0).
Definition shop_id : string := hd "" (dkeys (se_proposals shop_start)).
Definition shop_calls : list self_call :=
  [C_mutate shop_id "me"; C_simulate shop_id "me"; C_verify shop_id "me"; C_evaluate shop_id "me"; C_submit shop_id "me";
   C_promote shop_id "production" "me"].
Definition shop_promoted : SelfEvolutionEngine := fold_left (fun s c => run (perform c) s) shop_calls shop_start.
Lemma shop_reachable : reachable default_policy shop_promoted.
Proof.
  unfold shop_promoted, shop_calls. cbn [fold_left]. repeat (apply run_reachable; [|exact I]).
  apply run_reachable; [constructor|]. vm_compute. reflexivity.
Qed.
Definition promoted_candidate (s : SelfEvolutionEngine) (a : nat) : option (PromotionRecord * CandidateArchitecture) :=
  match se_heap s !! a with
  | Some r => match dget (pm_candidate_id r) (se_candidates s) with Some c => Some (r, c) | None => None end
  | None => None
  end.
Lemma promoted_candidate_spec s a r c : promoted_candidate s a = Some (r, c) ->
  se_heap s !! a = Some r /\ dget (pm_candidate_id r) (se_candidates s) = Some c.
Proof.
  unfold promoted_candidate. destruct (se_heap s !! a) as [r'|]; [|done].
  destruct (dget (pm_candidate_id r') (se_candidates s)) as [c'|] eqn:E; [|done]. by intros [= <- <-].
Qed.
Lemma shop_is_promoted : match promoted_candidate shop_promoted 0 with Some _ => true | None => false end = true.
Proof. vm_compute. reflexivity. Qed.
Lemma promoted_candidates_keep_their_apis_witness : exists r c base names,
  se_heap shop_promoted !! 0%nat = Some r /\ dget (pm_candidate_id r) (se_candidates shop_promoted) = Some c /\
  collect_api_names (ca_isr c) = Ok names /\ (forall k, k ∈ ["isr_id"; "version"; "name"] -> present k (ca_isr c) = true) /\
  exists p, dget (pm_proposal_id r) (se_proposals shop_promoted) = Some p /\
    collect_api_names (rq_base_isr (ep_request p)) = Ok base /\
    (rq_allow_breaking_changes (ep_request p) = false -> forall x, x ∈ base -> x ∈ names).
Proof.
  pose proof shop_is_promoted as Hp. destruct (promoted_candidate shop_promoted 0) as [[r c]|] eqn:E; [|discriminate Hp].
  apply promoted_candidate_spec in E as [Er Ec].
  destruct (promoted_candidates_keep_their_apis (Some (static_client "ALLOW" "fine")) default_policy shop_promoted 0 r c shop_reachable Er Ec)
    as (p & base & names & Ep & Hf & _ & Eb & En & Ha).
  exists r, c, base, names. split_and!; [exact Er|exact Ec|exact En|exact Hf|]. exists p. split_and!; [exact Ep|exact Eb|exact Ha].
Defined.
Lemma shop_verifies :
  match hd None (map (fun q => Some q.2) (se_candidates shop_promoted)), dget shop_id (se_proposals shop_promoted) with
  | Some c, Some p => match (run_verification c p world0).1 with Ok _ => true | Raise _ => false end
  | _, _ => false
  end = true.
Proof. vm_compute. reflexivity. Qed.
Lemma valid_exactly_when_compatible_witness : exists c p v w',
  run_verification c p world0 = (Ok v, w') /\ (vf_valid v = true <-> compatible c (ep_request p)).
Proof.
  pose proof shop_verifies as Hok.
  destruct (hd None (map (fun q => Some q.2) (se_candidates shop_promoted))) as [c|]; [|discriminate Hok].
  destruct (dget shop_id (se_proposals shop_promoted)) as [p|]; [|discriminate Hok].
  destruct (run_verification c p world0) as [[v|x] w'] eqn:E; [|discriminate Hok].
  exists c, p, v, w'. split; [exact E|]. exact (valid_exactly_when_compatible c p world0 v w' E).
Defined.
Lemma mutation_is_local_witness : exists d, apply_mutation shop_isr add_api = Ok d /\
  dget "security" d = dget "security" shop_isr /\ dget "governance" d = Some (VDict baseline_governance_design) /\
  has_provenance d = Ok true.
Proof.
  assert (Hd : dict_ok shop_isr) by (apply (bool_decide_unpack _); vm_compute; exact I).
  assert (Hok : match apply_mutation shop_isr add_api with Ok _ => true | Raise _ => false end = true) by (vm_compute; reflexivity).
  destruct (apply_mutation shop_isr add_api) as [d|] eqn:E; [|discriminate Hok].
  destruct (mutation_is_local shop_isr add_api d Hd E) as (d1 & e & ms & _ & Ht & Hk & He & Hms & Hev & Hg & Hp).
  exists d. split; [reflexivity|]. split; [|split; [|exact Hp]].
  - transitivity (dget "security" d1); [apply Hk; discriminate|]. apply Ht. apply (bool_decide_unpack _); vm_compute; exact I.
  - transitivity (Some (default (VDict baseline_governance_design) (dget "governance" d1))); [exact Hg|].
    assert (Eg : dget "governance" d1 = dget "governance" shop_isr) by (apply Ht; apply (bool_decide_unpack _); vm_compute; exact I).
    transitivity (Some (default (VDict baseline_governance_design) (dget "governance" shop_isr))); [by f_equal; f_equal|reflexivity].
Defined.
(** Metadata of another shape is an error no one catches. *)
Lemma malformed_metadata_escapes spec : ms_operations spec = [] ->
  apply_mutation [("evolution", VStr "none")] spec = Raise (AttributeError "'str' object has no attribute 'setdefault'").
Proof. intros Ho. unfold apply_mutation. rewrite Ho. reflexivity. Qed.
