(* ===== verification/GenomeSpec.v ===== *)
(** * Self-evolution: theorems on genomes

    Refinement keeps priorities within their bounds; the generator takes, of each
    family, the best active gene, and of these the best ones. *)

From Stdlib Require Import SpecFloat.
From S2P Require Import Prelude PyFloat PyVal PyText PyJson EvoModels SelfModels SelfParts Genome.
Open Scope Z_scope.

(** ** Sums of floats that are not negative *)

(** Rounding keeps the sign. *)
Lemma round_aux_sign s m e l :
  match binary_round_aux f_prec f_emax s m e l with
  | S754_nan => True
  | S754_zero s' | S754_infinity s' | S754_finite s' _ _ => s' = s
  end.
Proof.
  unfold binary_round_aux. destruct (shr_fexp _ _ _ _ _) as [mrs e']. destruct (shr_fexp _ _ _ _ _) as [mrs' e''].
  destruct (shr_m mrs'); [done| |done]. by destruct (_ <=? _).
Qed.
Definition not_negative (x : float) : Prop := fleb fzero x = true.
Lemma not_negative_iff x : not_negative x <-> match x with
  | S754_nan => False | S754_zero _ => True | S754_infinity s | S754_finite s _ _ => s = false end.
Proof. unfold not_negative. destruct x as [[]|[]| |[] m e]; done. Qed.
Lemma sum_not_negative x y : not_negative x -> not_negative y -> is_nan (fadd x y) = true \/ not_negative (fadd x y).
Proof.
  rewrite !not_negative_iff. destruct x as [[]|[]| |[] m e], y as [[]|[]| |[] m' e']; try done; intros _ _; try (by right).
  cbn. set (a := Zpos (shl_align m e (Z.min e e')).1). set (b := Zpos (shl_align m' e' (Z.min e e')).1).
  assert (Hab : 0 < a + b) by (unfold a, b; lia). clearbody a b. unfold binary_normalize.
  destruct (a + b) as [|p|p]; [lia| |lia]. generalize (Z.min e e'). intros e0. unfold binary_round.
  destruct (shl_align p e0 _) as [mz ez]. pose proof (round_aux_sign false (Zpos mz) ez loc_Exact) as Hs.
  destruct (binary_round_aux _ _ _ _ _ _); auto.
Qed.

(** ** Refinement *)

(** What the fields of a policy are declared to be, as far as it matters. *)
Record policy_ok (p : GenomeRefinementPolicy) : Prop := {
  py_increment : not_negative (rf_priority_increment p);
  py_max : not_negative (rf_max_priority p);
  py_min : not_negative (rf_min_priority p);
  py_default : not_negative (rf_default_new_gene_priority p);
}.
Lemma new_priority_not_negative policy action old : policy_ok policy -> not_negative old ->
  not_negative (new_priority policy action old).
Proof.
  intros [Hi Hmax Hmin _] Ho. unfold new_priority. case_bool_decide; [|case_bool_decide; [|done]].
  - unfold fmin2. destruct (fltb _ _) eqn:E; [|done]. apply fltb_nan_false in E as [Hn _].
    destruct (sum_not_negative old (rf_priority_increment policy)) as [Hs|]; [done|done|congruence|done].
  - unfold fmax2. destruct (fltb _ _) eqn:E; [|done]. unfold not_negative. apply fltb_nan_false in E as Hn. destruct Hn as [H1 H2].
    apply fleb_trans with (rf_min_priority policy); [done|]. apply not_ltb_fleb; [done|done|by apply fltb_asym].
Qed.
(** A step upwards ends at most at the maximum, one downwards at least at the minimum. *)
Lemma new_priority_limits policy old : is_nan (rf_max_priority policy) = false -> is_nan (rf_min_priority policy) = false ->
  fleb (new_priority policy "STRENGTHEN" old) (rf_max_priority policy) = true /\
  fleb (rf_min_priority policy) (new_priority policy "DEPRIORITIZE" old) = true.
Proof.
  intros Hmax Hmin. unfold new_priority. rewrite !bool_decide_eq_true_2, bool_decide_eq_false_2 by done. unfold fmin2, fmax2. split.
  - destruct (fltb _ _) eqn:E; [|by apply fleb_refl]. apply fltb_nan_false in E as Hn. apply not_ltb_fleb; [done|apply Hn|by apply fltb_asym].
  - destruct (fltb _ _) eqn:E; [|by apply fleb_refl]. apply fltb_nan_false in E as Hn. apply not_ltb_fleb; [apply Hn|done|by apply fltb_asym].
Qed.

(** The parts of a gene no refinement assigns to. *)
Definition same_gene (g g' : GenomeGene) : Prop :=
  gn_gene_id g' = gn_gene_id g /\ gn_chromosome_family g' = gn_chromosome_family g /\
  gn_description g' = gn_description g /\ gn_tags g' = gn_tags g.
(** The loop, from the genes [base]. *)
Record refining (base : list (string * GenomeGene)) (s : Refinement) : Prop := {
  rg_keys : dkeys (re_genes s) = dkeys base ++ re_new s;
  rg_nodup : dict_ok (re_genes s);
  rg_ids k g : dget k (re_genes s) = Some g -> gn_gene_id g = k;
  rg_kept k g : dget k base = Some g -> exists g', dget k (re_genes s) = Some g' /\ same_gene g g' /\
    (gn_active g' = true <-> gn_active g = true /\ (k ∉ re_deactivated s));
  rg_priorities k g : dget k (re_genes s) = Some g -> not_negative (gn_priority g);
}.
Lemma find_or_create_refining base policy r gene_id s g s' : policy_ok policy -> refining base s ->
  find_or_create policy r gene_id s = Some (g, s') -> refining base s' /\ dget gene_id (re_genes s') = Some g.
Proof.
  intros Hp Hs. unfold find_or_create. destruct (dget gene_id (re_genes s)) as [g0|] eqn:E; [by intros [= <- <-]|].
  destruct (rf_create_missing_genes policy); [|done]. intros [= <- <-]. destruct Hs as [K N I R P]. split; [|apply dget_dset_eq].
  split; cbn [re_genes re_new re_deactivated].
  - rewrite dkeys_dset_fresh by (by apply dget_None). by rewrite K, app_assoc.
  - by apply dset_ok.
  - intros k g. rewrite dget_dset. case_decide; [by intros [= <-]|apply I].
  - intros k g Hk. destruct (R k g Hk) as (g' & Hg' & Hsame). exists g'. split; [|done].
    rewrite dget_dset_ne; [done|]. intros ->. congruence.
  - intros k g. rewrite dget_dset. case_decide; [by intros [= <-]; apply Hp|apply P].
Qed.
Lemma refine_gene_refining base policy s r : policy_ok policy -> refining base s -> refining base (refine_gene policy s r).
Proof.
  intros Hp Hs. unfold refine_gene. cbv zeta. set (id := if truthy _ then _ else _).
  destruct (find_or_create policy r id s) as [[g s1]|] eqn:E; [|done].
  destruct (find_or_create_refining base policy r id s g s1 Hp Hs E) as [[K N I R P] Hg].
  set (new := new_priority _ _ _). set (disable := bool_decide (upper (gr_action r) = "DISABLE")).
  set (g2 := if negb (feqb new (gn_priority g)) then _ else _).
  assert (Hnew : not_negative new) by (apply new_priority_not_negative; [done|by eapply P]).
  assert (Hg2 : same_gene g g2 /\ not_negative (gn_priority g2) /\ gn_active g2 = gn_active g && negb disable).
  { unfold g2, same_gene. destruct (feqb _ _), disable; cbn; rewrite ?andb_true_r, ?andb_false_r; split_and!; try done; by eapply P. }
  clearbody g2 new disable. destruct Hg2 as (Hsame & Hpos & Hact). split; cbn [re_genes re_new re_deactivated].
  - by rewrite dkeys_dset_in by (by eapply dget_Some_key).
  - by apply dset_ok.
  - intros k g'. rewrite dget_dset. case_decide; [|apply I]. intros [= <-]. subst. destruct Hsame as [-> _]. by eapply I.
  - intros k g0 Hk. destruct (R k g0 Hk) as (g' & Hg' & (S1 & S2 & S3 & S4) & Ha). rewrite dget_dset. case_decide as Ek.
    + subst k. rewrite Hg in Hg'. injection Hg' as <-. exists g2. split; [done|]. destruct Hsame as (T1 & T2 & T3 & T4).
      split; [unfold same_gene; split_and!; congruence|]. rewrite Hact, andb_true_iff, negb_true_iff, not_elem_of_app, Ha.
      destruct disable; cbn; [set_solver|]. rewrite elem_of_nil. naive_solver.
    + exists g'. split; [done|]. split; [done|]. rewrite Ha, not_elem_of_app. destruct disable; [set_solver|]. rewrite elem_of_nil. naive_solver.
  - intros k g'. rewrite dget_dset. case_decide; [by intros [= <-]|apply P].
Qed.
Lemma refine_all_refining base policy rs s : policy_ok policy -> refining base s -> refining base (fold_left (refine_gene policy) rs s).
Proof. intros Hp. revert s. induction rs as [|r rs IH]; intros s Hs; [done|]. apply IH. by apply refine_gene_refining. Qed.
Lemma genes_by_id_distinct genes : NoDup (map gn_gene_id genes) ->
  genes_by_id genes = map (fun g => (gn_gene_id g, g)) genes.
Proof.
  unfold genes_by_id. intros Hn.
  enough (Hg : forall acc, (forall g, g ∈ genes -> (gn_gene_id g ∉ dkeys acc)) ->
            fold_left (fun d g => dset (gn_gene_id g) g d) genes acc = acc ++ map (fun g => (gn_gene_id g, g)) genes).
  { apply (Hg []). intros g _. by apply not_elem_of_nil. }
  induction genes as [|g gs IH]; intros acc Hacc; cbn; [by rewrite app_nil_r|]. cbn in Hn. apply NoDup_cons in Hn as [Hg Hn].
  rewrite dset_fresh by (apply Hacc; by left). rewrite IH; [by rewrite <- app_assoc|done|].
  intros h Hh. rewrite dkeys_app, not_elem_of_app. split; [apply Hacc; by right|]. cbn. intros E%list_elem_of_singleton. apply Hg. rewrite <- E.
  by apply list_elem_of_fmap_2.
Qed.

Section Refine.
Context `{Surroundings, Digests}.

(** C25: refining a genome of distinct genes by some recommendations never fails; the
    result is the next version, with the genes of the genome in their order followed
    by the new genes of the plan, each gene unchanged but for its priority and
    whether it is active: it is active exactly when it was and the plan does not
    list it as deactivated.  No priority becomes negative. *)
Theorem refinement_keeps_genes genome rs policy w : policy_ok policy -> rs <> [] ->
  NoDup (map gn_gene_id (ag_genes genome)) -> (forall g, g ∈ ag_genes genome -> not_negative (gn_priority g)) ->
  exists plan refined w', refine genome rs policy w = (Ok (plan, refined), w') /\
    ag_version refined = ag_version genome + 1 /\ ag_base_ref refined = Some (ag_id genome) /\
    map gn_gene_id (ag_genes refined) = map gn_gene_id (ag_genes genome) ++ gp_new_genes plan /\
    NoDup (map gn_gene_id (ag_genes refined)) /\
    (forall g, g ∈ ag_genes genome -> exists g', g' ∈ ag_genes refined /\ same_gene g g' /\
       (gn_active g' = true <-> gn_active g = true /\ (gn_gene_id g ∉ gp_deactivated_genes plan))) /\
    (forall g, g ∈ ag_genes refined -> not_negative (gn_priority g)).
Proof.
  intros Hp Hne Hn Hpos. unfold refine. destruct rs as [|r rs]; [done|].
  set (s := fold_left _ _ _). assert (Hs : refining (map (fun g => (gn_gene_id g, g)) (ag_genes genome)) s).
  { apply refine_all_refining; [done|]. rewrite genes_by_id_distinct by done.
    assert (Hd : dict_ok (map (fun g => (gn_gene_id g, g)) (ag_genes genome))) by (unfold dict_ok, dkeys; by rewrite map_map).
    split; cbn [re_genes re_new re_deactivated].
    - by rewrite app_nil_r.
    - done.
    - intros k g Hg%dget_elem. apply list_elem_of_fmap in Hg as (g' & [= -> ->] & _). done.
    - intros k g Hg. exists g. split_and!; [done|by split_and!|]. by split; [intros ->; split; [done|apply not_elem_of_nil]|intros []].
    - intros k g Hg%dget_elem. apply list_elem_of_fmap in Hg as (g' & [= -> ->] & Hg). by apply Hpos. }
  clearbody s. destruct Hs as [K N I R P].
  assert (Hids : map gn_gene_id (dvalues (re_genes s)) = dkeys (re_genes s)).
  { unfold dvalues, dkeys. rewrite map_map. apply map_ext_in. intros [k g] Hkg. apply list_elem_of_In in Hkg. cbn.
    apply I. by apply elem_dget. }
  assert (Hin : forall g, g ∈ dvalues (re_genes s) <-> exists k, dget k (re_genes s) = Some g).
  { intros g. rewrite elem_dvalues. split; intros [k Hk]; exists k; [by apply elem_dget|by apply dget_elem]. }
  unfold timestamp, now. unfold_monad. do 3 eexists. split; [reflexivity|]. cbn [ag_version ag_base_ref ag_genes gp_new_genes gp_deactivated_genes].
  split_and!; [done|done| | | |].
  - rewrite Hids, K. f_equal. unfold dkeys. by rewrite map_map.
  - rewrite Hids. exact N.
  - intros g Hg. destruct (R (gn_gene_id g) g) as (g' & Hg' & Hsame & Ha).
    { apply elem_dget; [unfold dict_ok, dkeys; by rewrite map_map|]. by apply (list_elem_of_fmap_2 (fun g => (gn_gene_id g, g))). }
    exists g'. split_and!; [apply Hin; by eexists|done|exact Ha].
  - intros g [k Hk]%Hin. by eapply P.
Qed.
End Refine.

(** ** Targeted mutations *)

Definition template (f : ChromosomeFamily) : MutationTemplate :=
  match dget f DEFAULT_MUTATION_TEMPLATES with
  | Some t => t
  | None => {| mt_name := ""; mt_chromosome_family := f; mt_description := ""; mt_operations := [] |}
  end.
Lemma has_template f : dget f DEFAULT_MUTATION_TEMPLATES = Some (template f).
Proof. by destruct f. Qed.
Definition best_spec (g : GenomeGene) : MutationSpec := gene_spec g (template (gn_chromosome_family g)).
Definition fallback_spec : MutationSpec :=
  targeted_spec ARCHITECTURE "architecture_gene" "Fallback architecture strengthening mutation." (template ARCHITECTURE).

(** The first gene of every family that is not used yet. *)
Fixpoint firsts (used : list ChromosomeFamily) (genes : list GenomeGene) : list GenomeGene :=
  match genes with
  | [] => []
  | g :: genes => if mem (gn_chromosome_family g) used then firsts used genes
                  else g :: firsts (gn_chromosome_family g :: used) genes
  end.
(** The loop against its reference: the first genes, as many as the limit leaves. *)
Lemma generate_specs_firsts limit genes used specs :
  generate_specs DEFAULT_MUTATION_TEMPLATES limit genes used specs
  = specs ++ map best_spec (take (Z.to_nat (limit - Z.of_nat (length specs))) (firsts used genes)).
Proof.
  revert used specs. induction genes as [|g genes IH]; intros used specs; cbn [generate_specs firsts].
  - by rewrite take_nil, app_nil_r.
  - destruct (Z.leb_spec limit (Z.of_nat (length specs))) as [Hl|Hl].
    + replace (Z.to_nat _) with 0%nat by lia. by rewrite app_nil_r.
    + rewrite has_template. destruct (mem _ used); [apply IH|]. rewrite IH, length_app. cbn [length].
      replace (Z.to_nat (limit - Z.of_nat (length specs)))
        with (S (Z.to_nat (limit - Z.of_nat (length specs + 1)))) by lia.
      cbn. by rewrite <- app_assoc.
Qed.
Lemma firsts_elem used genes g : g ∈ firsts used genes -> g ∈ genes /\ (gn_chromosome_family g ∉ used).
Proof.
  revert used. induction genes as [|h genes IH]; intros used; cbn; [by intros ?%elem_of_nil|]. destruct (mem _ used) eqn:E.
  - intros [? ?]%IH. split; [by right|done].
  - intros [->|[? Hu]%IH]%elem_of_cons; [split; [by left|by apply mem_false]|]. split; [by right|set_solver].
Qed.
Lemma firsts_nodup used genes : NoDup (map gn_chromosome_family (firsts used genes)).
Proof.
  revert used. induction genes as [|h genes IH]; intros used; cbn; [constructor|]. destruct (mem _ used); [apply IH|].
  cbn. apply NoDup_cons. split; [|apply IH]. intros (g & E & [_ Hg]%firsts_elem)%list_elem_of_fmap. apply Hg. rewrite <- E. by left.
Qed.
(** The genes in the order of the generator. *)
Abbreviation before := (fun g h => gene_leb g h = true).
Lemma firsts_sorted used genes : StronglySorted before genes -> StronglySorted before (firsts used genes).
Proof.
  intros Hs. revert used. induction Hs as [|h genes _ IH Hh]; intros used; cbn; [constructor|]. destruct (mem _ used); [apply IH|].
  constructor; [apply IH|]. apply Forall_forall. intros g [Hg _]%firsts_elem. rewrite Forall_forall in Hh. by apply Hh.
Qed.
Lemma firsts_best used genes g : StronglySorted before genes -> (forall h, h ∈ genes -> gene_leb h h = true) -> g ∈ genes ->
  (gn_chromosome_family g ∉ used) -> exists h, h ∈ firsts used genes /\ gn_chromosome_family h = gn_chromosome_family g /\ gene_leb h g = true.
Proof.
  intros Hs Hr. revert used. induction Hs as [|h genes Hs IH Hh]; intros used Hg Hu; [by apply elem_of_nil in Hg|]. cbn.
  apply elem_of_cons in Hg as [->|Hg].
  - rewrite (proj2 (mem_false _ _) Hu). exists h. split_and!; [by left|done|apply Hr; by left].
  - destruct (mem (gn_chromosome_family h) used) eqn:E; [apply IH; auto; intros; apply Hr; by right|].
    destruct (decide (gn_chromosome_family h = gn_chromosome_family g)) as [Ef|Ef].
    + exists h. split_and!; [by left|done|]. rewrite Forall_forall in Hh. by apply Hh.
    + destruct (IH (fun x Hx => Hr x ltac:(by right)) (gn_chromosome_family h :: used) Hg) as (h' & Hh' & ? & ?); [set_solver|].
      exists h'. split_and!; [by right|done|done].
Qed.

(** On numbers the order of the generator is total and transitive. *)
Definition numeric_gene (g : GenomeGene) : Prop := is_nan (gn_priority g) = false.
Lemma fopp_number x : is_nan (fopp x) = is_nan x.
Proof. by destruct x. Qed.
Lemma gene_leb_spec g h : numeric_gene g -> numeric_gene h -> gene_leb g h = true <->
  klt (fkey (fopp (gn_priority g))) (fkey (fopp (gn_priority h))) \/
  (fkey (fopp (gn_priority g)) = fkey (fopp (gn_priority h)) /\ str_leb (gn_gene_id g) (gn_gene_id h) = true).
Proof.
  unfold numeric_gene, gene_leb. intros Hg Hh. rewrite <- fopp_number in Hg, Hh. cbv zeta.
  set (p := fopp (gn_priority g)) in *. set (q := fopp (gn_priority h)) in *.
  pose proof (feqb_spec p q) as He. pose proof (fltb_spec p q) as Hl. destruct (feqb p q).
  - destruct (proj1 He eq_refl) as (_ & _ & E). rewrite E. split; [by right|]. intros [H|[_ H]]; [|done]. by apply klt_irrefl in H.
  - rewrite Hl. split; [intros (_ & _ & ?); by left|]. intros [?|[E _]]; [done|]. exfalso.
    assert (false = true) by (by apply He). done.
Qed.
Lemma gene_leb_total g h : numeric_gene g -> numeric_gene h -> gene_leb g h = false -> gene_leb h g = true.
Proof.
  intros Hg Hh E. apply gene_leb_spec; [done|done|]. apply not_true_iff_false in E. rewrite gene_leb_spec in E by done.
  destruct (klt_dec (fkey (fopp (gn_priority h))) (fkey (fopp (gn_priority g)))) as [?|[Ek|?]]; [by left| |by destruct E; left].
  right. split; [done|]. apply str_leb_total, not_true_iff_false. intros Hs. apply E. by right.
Qed.
Lemma gene_leb_trans g h k : numeric_gene g -> numeric_gene h -> numeric_gene k ->
  gene_leb g h = true -> gene_leb h k = true -> gene_leb g k = true.
Proof.
  intros Hg Hh Hk. rewrite !gene_leb_spec by done. intros [H1|[E1 S1]] [H2|[E2 S2]].
  - left. by eapply klt_trans.
  - left. by rewrite <- E2.
  - left. by rewrite E1.
  - right. split; [congruence|]. by eapply str_leb_trans.
Qed.
Lemma gene_leb_refl g : numeric_gene g -> gene_leb g g = true.
Proof. intros Hg. apply gene_leb_spec; [done|done|]. right. split; [done|apply str_leb_refl]. Qed.
(** Sorting by the order gives a sorted list, on numbers. *)
Lemma insert_gene_sorted g genes : numeric_gene g -> (forall h, h ∈ genes -> numeric_gene h) ->
  StronglySorted before genes -> StronglySorted before (insert_by gene_leb g genes).
Proof.
  intros Hg Hn Hs. induction Hs as [|h genes Hs IH Hh]; cbn; [by repeat constructor|].
  assert (Hnh : numeric_gene h) by (apply Hn; by left). rewrite Forall_forall in Hh. destruct (gene_leb g h) eqn:E.
  - constructor; [constructor; [done|by apply Forall_forall]|]. apply Forall_forall. intros k [->|Hk]%elem_of_cons; [done|].
    eapply (gene_leb_trans g h k); auto. apply Hn. by right.
  - constructor; [apply IH; intros; apply Hn; by right|]. apply Forall_forall. intros k Hk. rewrite insert_by_perm in Hk.
    apply elem_of_cons in Hk as [->|Hk]; [by apply gene_leb_total|auto].
Qed.
Lemma sort_genes_sorted genes : (forall h, h ∈ genes -> numeric_gene h) -> StronglySorted before (sort_by gene_leb genes).
Proof.
  induction genes as [|g genes IH]; intros Hn; cbn; [constructor|]. apply insert_gene_sorted; [apply Hn; by left| |apply IH; intros; apply Hn; by right].
  intros h. rewrite sort_by_elem. intros Hh. apply Hn. by right.
Qed.
Lemma take_sorted {A} (R : A -> A -> Prop) n (xs : list A) : StronglySorted R xs -> StronglySorted R (take n xs).
Proof.
  intros Hs. revert n. induction Hs as [|z xs Hs IH Hz]; intros [|n]; cbn; try constructor; [apply IH|].
  apply Forall_forall. intros y Hy. rewrite Forall_forall in Hz. apply Hz. rewrite <- (take_drop n xs). apply elem_of_app. by left.
Qed.
Lemma take_below {A} (R : A -> A -> Prop) n (xs : list A) x y : StronglySorted R xs -> x ∈ drop n xs -> y ∈ take n xs -> R y x.
Proof.
  intros Hs. revert n. induction Hs as [|z xs Hs IH Hz]; intros [|n]; cbn; try (by intros ?%elem_of_nil); [by intros _ ?%elem_of_nil|].
  intros Hx [->|Hy]%elem_of_cons; [|by eapply IH]. rewrite Forall_forall in Hz. apply Hz. rewrite <- (take_drop n xs). apply elem_of_app. by right.
Qed.

(** C24: with the default templates and a positive limit the generator always answers.
    Its mutations are those of some chosen genes, or one fallback when no gene is
    active: the chosen genes are active genes of different families in order of
    falling priority, no more than the limit; and every active gene has a chosen one
    of its family that is at least as good, or the limit is reached by genes that are
    all at least as good. *)
Theorem generated_mutations_are_best genome limit : 0 < limit -> (forall g, g ∈ ag_genes genome -> numeric_gene g) ->
  exists chosen, generate DEFAULT_MUTATION_TEMPLATES genome limit
      = Ok (match chosen with [] => [fallback_spec] | _ => map best_spec chosen end) /\
    (chosen = [] <-> forall g, g ∈ ag_genes genome -> gn_active g = false) /\
    Z.of_nat (length chosen) <= limit /\ NoDup (map gn_chromosome_family chosen) /\
    (forall g, g ∈ chosen -> g ∈ ag_genes genome /\ gn_active g = true) /\ StronglySorted before chosen /\
    forall g, g ∈ ag_genes genome -> gn_active g = true ->
      (exists h, h ∈ chosen /\ gn_chromosome_family h = gn_chromosome_family g /\ gene_leb h g = true) \/
      (Z.of_nat (length chosen) = limit /\ forall h, h ∈ chosen -> gene_leb h g = true).
Proof.
  intros Hl Hn. set (n := Z.to_nat limit). set (fs := firsts [] (active_genes genome)). exists (take n fs).
  assert (Hin : forall g, g ∈ active_genes genome <-> g ∈ ag_genes genome /\ gn_active g = true).
  { intros g. unfold active_genes. rewrite sort_by_elem, list_elem_of_In, filter_In, <- list_elem_of_In. done. }
  assert (Hna : forall g, g ∈ active_genes genome -> numeric_gene g) by (intros g [? _]%Hin; by apply Hn).
  assert (Hs : StronglySorted before (active_genes genome)).
  { apply sort_genes_sorted. intros h. rewrite list_elem_of_In, filter_In, <- list_elem_of_In. intros [? _]. by apply Hn. }
  assert (Hfs : StronglySorted before fs) by (by apply firsts_sorted).
  assert (Hfin : forall g, g ∈ fs -> g ∈ active_genes genome) by (by intros g [? _]%firsts_elem).
  assert (Hbest : forall g, g ∈ active_genes genome ->
            exists h, h ∈ fs /\ gn_chromosome_family h = gn_chromosome_family g /\ gene_leb h g = true).
  { intros g Hg. apply firsts_best; [done|intros; by apply gene_leb_refl, Hna|done|by apply not_elem_of_nil]. }
  assert (Htake : forall g, g ∈ take n fs -> g ∈ fs) by (intros g Hg; rewrite <- (take_drop n fs); apply elem_of_app; by left).
  assert (Hnil : take n fs = [] <-> fs = []) by (destruct fs, n eqn:En; cbn; try done; lia).
  split_and!.
  - unfold generate. rewrite generate_specs_firsts. cbn [app length]. replace (Z.to_nat (limit - Z.of_nat 0)) with n by (unfold n; lia).
    fold fs. rewrite has_template. by destruct (take n fs).
  - rewrite Hnil. split.
    + intros E g Hg. destruct (gn_active g) eqn:Ea; [|done]. destruct (Hbest g) as (h & Hh & _); [by apply Hin|]. rewrite E in Hh. by apply elem_of_nil in Hh.
    + intros Hall. destruct fs as [|g fs'] eqn:E; [done|]. assert (Hg : g ∈ active_genes genome) by (apply Hfin; by left).
      apply Hin in Hg as [Hg Ha]. rewrite Hall in Ha by done. done.
  - rewrite length_take. unfold n. lia.
  - pose proof (firsts_nodup [] (active_genes genome)) as Hd. fold fs in Hd. rewrite <- (take_drop n fs), map_app in Hd.
    by apply NoDup_app in Hd as [? _].
  - intros g Hg. by apply Hin, Hfin, Htake.
  - by apply take_sorted.
  - intros g Hg Ha. destruct (Hbest g) as (h & Hh & Ef & Hb); [by apply Hin|].
    rewrite <- (take_drop n fs) in Hh. apply elem_of_app in Hh as [Hh|Hh]; [left; by exists h|]. right. split.
    + rewrite length_take. enough (n < length fs)%nat by (unfold n in *; lia). destruct (decide (length fs <= n)%nat); [|lia].
      rewrite drop_ge in Hh by done. by apply elem_of_nil in Hh.
    + intros k Hk. assert (Hkh : gene_leb k h = true) by (by eapply (take_below before)).
      eapply (gene_leb_trans k h g); [by apply Hna, Hfin, Htake| |by apply Hn|done|done].
      apply Hna, Hfin. rewrite <- (take_drop n fs). apply elem_of_app. by right.
Qed.

(** ** Witnesses *)

#[local] Existing Instance compact_digests.
#[local] Existing Instance counting_world.
Definition sample_genome : ArchitecturalGenome := {|
  ag_id := "g1"; ag_version := 1; ag_base_ref := None; ag_genes := map default_gene all_families; ag_created_at := "0" |}.
Definition sample_recommendation (action objective : string) : GenomeRefinementRecommendation := {|
  gr_id := "r"; gr_objective := objective; gr_chromosome_family := "Security"; gr_gene_id := ""; gr_action := action;
  gr_rationale := "Feedback."; gr_target_refs := []; gr_signal_ids := []; gr_evidence_refs := [] |}.
Lemma sample_priorities g : g ∈ ag_genes sample_genome -> gn_priority g = of_ratio 5 10.
Proof. intros (f & -> & _)%list_elem_of_fmap. reflexivity. Qed.
Lemma sample_distinct : NoDup (map gn_gene_id (ag_genes sample_genome)).
Proof. apply (bool_decide_unpack _). vm_compute. exact I. Qed.
Lemma refinement_keeps_genes_witness : exists plan refined w',
  refine sample_genome [sample_recommendation "strengthen" "posture"; sample_recommendation "DISABLE" "posture"]
    default_refinement_policy world0 = (Ok (plan, refined), w') /\
  map gn_gene_id (ag_genes refined) = map gn_gene_id (ag_genes sample_genome) ++ gp_new_genes plan /\ ag_version refined = 2.
Proof.
  destruct (refinement_keeps_genes sample_genome
      [sample_recommendation "strengthen" "posture"; sample_recommendation "DISABLE" "posture"] default_refinement_policy world0)
    as (plan & refined & w' & E & Hv & _ & Hids & _).
  - split; vm_compute; reflexivity.
  - discriminate.
  - exact sample_distinct.
  - intros g Hg. rewrite (sample_priorities g Hg). vm_compute. reflexivity.
  - exists plan, refined, w'. split_and!; [exact E|exact Hids|exact Hv].
Defined.
Lemma generated_mutations_are_best_witness : exists chosen,
  generate DEFAULT_MUTATION_TEMPLATES sample_genome 3
    = Ok (match chosen with [] => [fallback_spec] | _ => map best_spec chosen end) /\ Z.of_nat (length chosen) <= 3.
Proof.
  destruct (generated_mutations_are_best sample_genome 3) as (chosen & E & _ & Hl & _).
  - reflexivity.
  - intros g Hg. unfold numeric_gene. rewrite (sample_priorities g Hg). vm_compute. reflexivity.
  - exists chosen. split; [exact E|exact Hl].
Defined.
