(* ===== verification/CampaignSpec.v ===== *)
(** * Self-evolution: theorems on campaigns

    What the memory keeps; that a campaign completes; and that the ISR a campaign
    carries forward keeps the API names it started from. *)

From Stdlib Require Import SpecFloat.
From S2P Require Import Prelude PyFloat PyVal PyText PyJson IsrModel IsrValidation EvoModels Pareto ParetoSpec.
From S2P Require Import SelfModels SelfEngine SelfParts SelfMulti SelfEngineSpec SelfMultiSpec SelfPartsSpec.
From S2P Require Import Genome GenomeSpec Campaign.
Open Scope Z_scope.

(** ** A generation

    While a generation works on its proposal, the proposal stays in the table with
    its request, and a feasible evaluation is one the verifier passed. *)
Abbreviation anything := (fun _ : list (string * CandidateArchitecture) => True).
Section Generation.
Context `{Surroundings, Digests, !Parts}.

(** The table of candidates is as [K] says. *)
Record known (K : list (string * CandidateArchitecture) -> Prop) (id : string) (req : EvolutionProposalRequest)
    (s : SelfEvolutionEngine) : Prop := {
  kn_tables : tables_ok s;
  kn_request : exists p, dget id (se_proposals s) = Some p /\ ep_request p = req;
  kn_candidates : K (se_candidates s);
}.
Lemma known_and K id req {A} (m : M SelfEvolutionEngine A) : keeps tables_ok m ->
  keeps (fun s => exists p, dget id (se_proposals s) = Some p /\ ep_request p = req) m ->
  keeps (fun s => K (se_candidates s)) m -> keeps (known K id req) m.
Proof. intros Ht Hr Hc s [Hs Hp Hk]. split; [by apply Ht|by apply Hr|by apply Hc]. Qed.
Lemma keeps_quietly K id req {A} (m : M SelfEvolutionEngine A) : keeps tables_ok m ->
  (forall s, se_proposals (m s).2 = se_proposals s) -> (forall s, se_candidates (m s).2 = se_candidates s) -> keeps (known K id req) m.
Proof. intros Ht Hq Hc. apply known_and; [done| |]; intros s Hs; [by rewrite Hq|by rewrite Hc]. Qed.
Lemma known_in_world K id req {A} (m : M World A) : keeps (known K id req) (in_world m).
Proof. apply keeps_quietly; [apply tables_in_world|..]; intros s; unfold in_world, zoom; by destruct (m _) as [[] ?]. Qed.
Lemma known_world K id req w s : known K id req s -> known K id req (put_se_world w s).
Proof. intros [Ht Hp Hc]. split; [by apply tables_world|done..]. Qed.
Lemma known_stamp K id req : keeps (known K id req) stamp.
Proof. apply known_in_world. Qed.
Lemma known_history K id req h : keeps (known K id req) (modify (put_history h)).
Proof. by apply keeps_quietly; [apply keeps_put_history|..]. Qed.
Lemma known_simulation K id req r : keeps (known K id req) (modify (put_simulation r)).
Proof. by apply keeps_quietly; [apply keeps_put_simulation|..]. Qed.
Lemma known_candidate id req c : genuine c -> keeps (known anything id req) (modify (put_candidate c)).
Proof. intros Hg. apply known_and; [by apply keeps_put_candidate| |done]. intros s Hs. exact Hs. Qed.
Lemma known_update K id req i f : (forall p, ep_id (f p) = ep_id p) -> (forall p, ep_request (f p) = ep_request p) ->
  keeps (known K id req) (update_proposal i f).
Proof.
  intros Hi Hr. apply known_and; [by apply tables_update|..].
  - intros s (p & Hp & Er). unfold update_proposal, modify. cbn.
    destruct (dget i (se_proposals s)) as [q|] eqn:Eq; [|by exists p]. cbn. rewrite dget_dset. case_decide as Ei; [|by exists p].
    subst i. rewrite Hp in Eq. injection Eq as <-. exists (f p). by rewrite Hr.
  - intros s Hs. unfold update_proposal, modify. cbn. by case_match.
Qed.
Hint Resolve known_in_world known_stamp known_history known_simulation : keeps.
Ltac knows := repeat first [ solve [auto with keeps] | progress cbv zeta | apply keeps_bind; [|intros] | apply known_update; intros | case_match ].
Lemma known_record K id req i event_type actor details : keeps (known K id req) (record_event i event_type actor details).
Proof. unfold record_event. by knows. Qed.
Lemma known_touch K id req i : keeps (known K id req) (touch i).
Proof. unfold touch. by knows. Qed.
Lemma known_get_proposal K id req i : keeps (known K id req) (get_proposal i).
Proof. unfold get_proposal. by knows. Qed.
Hint Resolve known_record known_touch known_get_proposal : keeps.

Lemma add_candidate_id_request i p : ep_request (add_candidate_id i p) = ep_request p.
Proof. unfold add_candidate_id. by case_match. Qed.
Lemma add_simulation_id_request i p : ep_request (add_simulation_id i p) = ep_request p.
Proof. unfold add_simulation_id. by case_match. Qed.
Lemma adopt_request e x p : ep_request (adopt e x p) = ep_request p.
Proof. unfold adopt, move_last. destruct e; by repeat case_match. Qed.
Lemma submitted_request policy d p : ep_request (submitted policy d p) = ep_request p.
Proof. unfold submitted. by repeat case_match. Qed.
Lemma submitted_id policy d p : ep_id (submitted policy d p) = ep_id p.
Proof. unfold submitted. by repeat case_match. Qed.
Lemma known_generate_one id req i base_isr spec : keeps (known anything id req) (generate_one i base_isr spec).
Proof.
  unfold generate_one. apply keeps_bind; [auto with keeps|intros isr]. cbv zeta. apply keeps_bind; [auto with keeps|intros cs].
  destruct (dget _ cs); [knows; auto using add_candidate_id_id, add_candidate_id_request|].
  apply keeps_make_candidate; [auto with keeps|]. intros c Hg.
  apply keeps_bind; [by apply known_candidate|intros _]. knows; auto using add_candidate_id_id, add_candidate_id_request.
Qed.
Lemma known_generate_loop id req i base_isr specs created : keeps (known anything id req) (generate_loop i base_isr specs created).
Proof.
  revert created. induction specs as [|spec specs IH]; intros created; cbn; [auto with keeps|].
  apply keeps_bind; [apply known_generate_one|auto].
Qed.
Hint Resolve known_generate_loop : keeps.
Lemma known_generate id req i request actor : keeps (known anything id req) (generate_candidates i request actor).
Proof. unfold generate_candidates. by knows. Qed.
Lemma known_submit K id req i actor : keeps (known K id req) (submit_for_approval i actor).
Proof. unfold submit_for_approval, require_status. by knows; rewrite ?submitted_id, ?submitted_request. Qed.

(** *** Evaluations *)

(** A feasible evaluation is of the candidate of the table, which the verifier was
    asked about and found valid. *)
Definition proven (cs : list (string * CandidateArchitecture)) (k : string) (req : EvolutionProposalRequest)
    (e : CandidateEvaluationRecord) : Prop :=
  ce_feasible e = true -> exists c p v w w', dget k cs = Some c /\ ep_request p = req /\
    part_verifier c p w = (Ok v, w') /\ vf_valid v = true.
Lemma run_trial_proven K id req k c s : known K id req s -> dget k (se_candidates s) = Some c -> exists e s',
  run_trial id k c s = (Ok e, s') /\ known K id req s' /\ se_candidates s' = se_candidates s /\ proven (se_candidates s) k req e.
Proof.
  intros Hs Hc. destruct (trial_runs id k c s) as (e & s' & E & _ & Ho & Hl). exists e, s'. split; [done|]. split_and!.
  - revert Hl Hs. apply trial_left_keeps; [intros; by apply known_world|intros r s0 Hs; by apply (known_simulation K id req r)|].
    intros r. apply known_update; intros; [apply add_simulation_id_id|apply add_simulation_id_request].
  - apply (trial_left_keeps (fun b => se_candidates b = se_candidates s) id c s s'); [done|done| |exact Hl|done].
    intros r b Hb. unfold update_proposal, modify. cbn. by case_match.
  - intros Hf. destruct (feasible_backed _ _ _ _ Ho Hf) as (p & r & Hp & (_ & v & _ & w & w1 & _ & _ & Ev & Hv & _)).
    destruct (kn_request _ _ _ _ Hs) as (p' & Hp' & <-). rewrite Hp in Hp'. injection Hp' as <-.
    exists c, (add_simulation_id (sm_id r) p), v, w, w1. split_and!; [done|apply add_simulation_id_request|done|done].
Qed.

(** The state while a generation works on the proposal [id]; [P] says that the id was
    not in use before. *)
Record generating (P : Prop) (id : string) (req : EvolutionProposalRequest) (s : MultiCandidateEvolutionEngine) : Prop := {
  gg_multi : multi_ok s;
  gg_known : known anything id req (mc_base s);
  gg_proven : P -> forall k e, dget k (evaluations_of id s) = Some e -> proven (se_candidates (mc_base s)) k req e;
}.
Lemma multi_put b s : multi_ok s -> tables_ok b -> multi_ok (put_base b s).
Proof. intros [_ ? ?] Hb. by split. Qed.
Lemma generating_put P id req b s : generating P id req s ->
  known (fun cs => cs = se_candidates (mc_base s)) id req b -> generating P id req (put_base b s).
Proof.
  intros [Ho Hk Hp] [Ht Hr Hc]. split; [by apply multi_put|by split|]. cbn. rewrite Hc. exact Hp.
Qed.
Lemma generating_base P id req {A} (m : M SelfEvolutionEngine A) : (forall K, keeps (known K id req) m) ->
  keeps (generating P id req) (on_base m).
Proof.
  intros Hm s Hs. unfold on_base, zoom.
  assert (Hk : known (fun cs => cs = se_candidates (mc_base s)) id req (mc_base s)) by (destruct Hs as [_ [] _]; by split).
  apply Hm in Hk. destruct (m (mc_base s)) as [r b]. by apply generating_put.
Qed.
Lemma generating_evaluate_one P id req force k : keeps (generating P id req) (evaluate_one id force k).
Proof.
  intros s [Ho Hk Hp]. pose proof (keeps_evaluate_one id force k s Ho) as Ho'. revert Ho'. unfold evaluate_one. unfold_monad.
  destruct (dmem k (evaluations_of id s) && negb force); [done|].
  destruct (dget k (se_candidates (mc_base s))) as [c|] eqn:Ec; [|done]. unfold on_base, zoom.
  destruct (run_trial_proven anything id req k c (mc_base s) Hk Ec) as (e & b & -> & Hb & Eb & He). cbn. intros Ho'.
  split; [exact Ho'|exact Hb|]. intros HP k' e'. cbn. rewrite Eb. unfold evaluations_of, dget_or. cbn. rewrite dget_dset_eq, dget_dset.
  case_decide; [intros [= <-]; by subst|]. by apply Hp.
Qed.
Lemma generating_modify P id req f : (forall s, multi_ok s -> multi_ok (f s)) -> (forall s, mc_base (f s) = mc_base s) ->
  (forall s k e, dget k (evaluations_of id (f s)) = Some e -> dget k (evaluations_of id s) = Some e) ->
  keeps (generating P id req) (modify f).
Proof. intros Ho Hb He s [? ? Hp]. split; cbn; [auto|by rewrite Hb|]. intros HP k e Hk. rewrite Hb. apply (Hp HP). by apply He. Qed.
Lemma generating_evaluate P id req actor force : keeps (generating P id req) (evaluate_candidates id actor force).
Proof.
  unfold evaluate_candidates. apply keeps_bind; [apply generating_base; auto with keeps|intros p].
  destruct (ep_candidate_ids p) as [|k ks]; [apply keeps_raise|].
  apply keeps_bind; [|intros _; apply keeps_bind; [apply keeps_for_each; intros; apply generating_evaluate_one|intros _]].
  - apply generating_modify.
    + intros s Hs. case_match; [done|]. apply put_evaluations_ok; [done|apply dict_ok_nil|done].
    + intros s. by case_match.
    + intros s k' e. destruct (dmem id (mc_evaluations s)); [done|]. unfold evaluations_of, dget_or. cbn. by rewrite dget_dset_eq.
  - apply keeps_bind; [apply keeps_gets|]. intros es. cbv zeta.
    apply keeps_bind; [apply generating_base; intros; apply known_update; intros; by case_match|intros _].
    do 2 (apply keeps_bind; [apply generating_base; auto with keeps|intros _]). apply keeps_ret.
Qed.
Lemma generating_select P id req policy actor : keeps (generating P id req) (select_candidates id policy actor).
Proof.
  unfold select_candidates. apply keeps_bind; [apply generating_base; auto with keeps|intros _].
  apply keeps_bind; [apply keeps_gets|]. intros [|e es]; [apply keeps_raise|].
  apply keeps_bind; [apply generating_base; auto with keeps|]. intros t. case_match; [|apply keeps_raise].
  apply keeps_bind; [apply generating_modify; [intros s []; by split|done|done]|intros _].
  apply keeps_bind; [apply keeps_when, generating_base; intros; apply known_update; intros; [apply adopt_id|apply adopt_request]|intros _].
  do 2 (apply keeps_bind; [apply generating_base; auto with keeps|intros _]). apply keeps_ret.
Qed.

(** *** The whole of a generation *)

Lemma wp_keeps {S A} (I : S -> Prop) (m : M S A) (Q : A -> S -> Prop) (E : exn -> S -> Prop) s : keeps I m -> I s ->
  (forall a s', I s' -> m s = (Ok a, s') -> Q a s') -> (forall x s', I s' -> E x s') -> wp m Q E s.
Proof. intros Hm Hs HQ HE. specialize (Hm s Hs). unfold wp. destruct (m s) as [[a|x] s'] eqn:Em; auto. Qed.
Lemma keeps_evaluations {A} es (m : M SelfEvolutionEngine A) : keeps (fun s => mc_evaluations s = es) (on_base m).
Proof. intros s Hs. unfold on_base, zoom. by destruct (m (mc_base s)). Qed.
Lemma select_evaluations es id policy actor : keeps (fun s => mc_evaluations s = es) (select_candidates id policy actor).
Proof.
  unfold select_candidates. apply keeps_bind; [apply keeps_evaluations|intros _]. apply keeps_bind; [apply keeps_gets|].
  intros [|e es']; [apply keeps_raise|]. apply keeps_bind; [apply keeps_evaluations|]. intros t. case_match; [|apply keeps_raise].
  apply keeps_bind; [by apply keeps_modify|intros _]. apply keeps_bind; [apply keeps_when, keeps_evaluations|intros _].
  do 2 (apply keeps_bind; [apply keeps_evaluations|intros _]). apply keeps_ret.
Qed.
Lemma wp_propose request actor s : tables_ok s ->
  wp (propose request actor) (fun p s' => known anything (ep_id p) (with_mutation (with_mutation_id (rq_mutation request)) request) s')
     (fun _ => tables_ok) s.
Proof.
  intros [Hk Hc]. unfold propose. apply wp_bind, wp_stamp. intros t w. cbv zeta. do 2 wp_step. apply wp_record. intros t' w'. cbv zeta.
  wp_step. cbn [ep_id]. set (id := deterministic_id _ _). set (p := {| ep_id := id |}). split; [split| |done]; cbn.
  - intros k q. cbn. rewrite dget_dset. case_decide; [by intros [= <-]|apply Hk].
  - exact Hc.
  - exists p. by rewrite dget_dset_eq.
Qed.
Lemma wp_known_proposal K id req (Q : EvolutionProposal -> SelfEvolutionEngine -> Prop) (E : exn -> SelfEvolutionEngine -> Prop) s :
  known K id req s -> (forall p, ep_id p = id -> Q p s) -> wp (get_proposal id) Q E s.
Proof.
  intros Hs HQ. destruct (kn_request _ _ _ _ Hs) as (p & Hp & _). apply wp_get_proposal; [|congruence].
  intros q Hq. apply HQ. by apply (to_keyed _ (kn_tables _ _ _ _ Hs)).
Qed.
Lemma wp_known_submit K id req actor s : known K id req s ->
  wp (submit_for_approval id actor) (fun p s' => known K id req s' /\ ep_id p = id) (fun _ => known K id req) s.
Proof.
  intros Hs. unfold submit_for_approval.
  assert (Hstep : forall A B (m : M SelfEvolutionEngine A) (k : A -> M SelfEvolutionEngine B) Q s, keeps (known K id req) m -> known K id req s ->
            (forall a s', known K id req s' -> wp (k a) Q (fun _ => known K id req) s') -> wp (m ≫= k) Q (fun _ => known K id req) s).
  { intros A B m k Q s0 Hm H0' Hk. apply wp_bind. eapply wp_keeps; [exact Hm|done|auto|auto]. }
  apply Hstep; [auto with keeps|done|intros p s1 H1']. apply Hstep; [unfold require_status; auto with keeps|done|intros _ s2 H2'].
  apply Hstep; [auto with keeps|done|intros policy s3 H3']. apply Hstep; [auto with keeps|done|intros d s4 H4].
  apply Hstep; [apply known_update; intros; [by rewrite submitted_id|by rewrite submitted_request]|done|intros _ s5 H5].
  do 3 (apply Hstep; [auto with keeps|done|intros ? ? ?]). by eapply wp_known_proposal.
Qed.
Definition generation_proposal (c : EvolutionCampaign) (index : Z) (base : MutationSpec) : EvolutionProposalRequest :=
  with_mutation (with_mutation_id base) (generation_request c index base).
(** What a generation leaves about the proposal it made. *)
Definition evolved (c : EvolutionCampaign) (index : Z) (base : MutationSpec) (s : MultiCandidateEvolutionEngine)
    (o : EvolutionProposal * ParetoSelectionResult) (s' : MultiCandidateEvolutionEngine) : Prop :=
  let id := ep_id o.1 in
  generating (evaluations_of id s = []) id (generation_proposal c index base) s' /\
  forall x, pr_selected_candidate_id o.2 = Some x -> x <> "" ->
    exists e, dget x (evaluations_of id s') = Some e /\ ce_feasible e = true.
Lemma evolve_evolved c index base others actor s : multi_ok s ->
  wp (evolve c index base others actor) (evolved c index base s) (fun _ => multi_ok) s.
Proof.
  intros Hs. unfold evolve. apply wp_bind, wp_on_base. eapply wp_mono; [apply wp_propose, Hs|intros p b Hp|intros x b Hb; by destruct Hs].
  set (id := ep_id p) in *. set (req := generation_proposal c index base). set (P := evaluations_of id s = []).
  cbv zeta. apply wp_bind, wp_on_base. cbn [mc_base put_base].
  eapply (wp_keeps (known anything id req)); [apply known_generate|exact Hp| |intros x b1 Hb1; apply (multi_put b1 _ Hs), Hb1].
  intros _ b1 Hb1 _. assert (Hg : generating P id req (put_base b1 s)).
  { split; [apply multi_put; [done|apply Hb1]|exact Hb1|]. intros HP k e.
    change (evaluations_of id (put_base b1 s)) with (evaluations_of id s). by rewrite HP. }
  change (put_base b1 (put_base b s)) with (put_base b1 s). generalize (put_base b1 s), Hg. clear Hs b Hp Hg b1 Hb1. intros s1 H1'.
  apply wp_bind, (wp_keeps (generating P id req)); [apply generating_evaluate|done| |by intros ? ? []].
  intros _ s2 H2' _. apply wp_bind. pose proof (select_adopts id (ec_selection_policy c) actor s2 (gg_multi _ _ _ _ H2')) as Hsel.
  apply (wp_keeps (fun s => generating P id req s /\ mc_evaluations s = mc_evaluations s2)).
  { intros s' [Ha Hb]. split; [by apply generating_select|by apply select_evaluations]. }
  { done. }
  2: { by intros ? ? [[] _]. }
  intros r s3 [H3' E3] Er. unfold wp in Hsel. rewrite Er in Hsel.
  assert (Hr : forall x, pr_selected_candidate_id r = Some x -> x <> "" ->
            exists e, dget x (evaluations_of id s3) = Some e /\ ce_feasible e = true).
  { intros x Hx Hne. destruct (Hsel x Hx Hne) as (_ & _ & e & _ & _ & _ & _ & Hf & He). exists e. unfold evaluations_of in *. by rewrite E3. }
  clear Hsel Er E3. set (K := fun cs => cs = se_candidates (mc_base s3)).
  assert (Hk3 : known K id req (mc_base s3)) by (destruct H3' as [_ [] _]; by split).
  apply wp_bind, wp_on_base, (wp_known_proposal K id req); [exact Hk3|]. intros q Hq.
  assert (Hput : forall b, known K id req b -> generating P id req (put_base b s3)) by (intros b; by apply generating_put).
  apply wp_bind. wp_step.
  - apply wp_on_base. eapply wp_mono; [apply (wp_known_submit K id req), Hk3|intros q' b [Hb Eq]|intros x b Hb; by apply Hput].
    wp_step. unfold evolved. cbn. rewrite Eq. split; [by apply Hput|exact Hr].
  - do 2 wp_step. unfold evolved. cbn. rewrite Hq. split; [by apply Hput|exact Hr].
Qed.
End Generation.

(** ** The state of the orchestrator *)
Section Orchestrated.
Context `{Surroundings, Digests, !Parts}.

(** Nothing a generation is judged by has changed. *)
Record calm (m m' : MultiCandidateEvolutionEngine) : Prop := {
  ca_evaluations : mc_evaluations m' = mc_evaluations m;
  ca_proposals : se_proposals (mc_base m') = se_proposals (mc_base m);
  ca_table : se_candidates (mc_base m') = se_candidates (mc_base m);
}.
Lemma calm_refl m : calm m m.
Proof. done. Qed.
Lemma calm_trans m1 m2 m3 : calm m1 m2 -> calm m2 m3 -> calm m1 m3.
Proof. intros [? ? ?] [? ? ?]. split; congruence. Qed.
Lemma calm_ok m m' : calm m m' -> multi_ok m -> multi_ok m'.
Proof.
  intros [E1 E2 E3] [[Hk Hc] Hd He]. split; [split|rewrite E1; exact Hd|rewrite E1; exact He].
  - intros k p. rewrite E2. apply Hk.
  - intros k c. rewrite E3. apply Hc.
Qed.
Lemma calm_generating P id req m m' : calm m m' -> generating P id req m -> generating P id req m'.
Proof.
  intros Hc [Ho [Ht Hr _] Hp]. pose proof (calm_ok _ _ Hc Ho) as Ho'. destruct Hc as [E1 E2 E3]. split; [done| |].
  - split; [apply Ho'| |done]. rewrite E2. exact Hr.
  - intros HP k e. unfold evaluations_of. rewrite E1, E3. by apply Hp.
Qed.

Record orchestrator_ok (o : EvolutionOrchestrator) : Prop := {
  oo_multi : multi_ok (or_multi o);
  oo_campaigns k c : dget k (or_campaigns o) = Some c -> ec_id c = k;
}.
Lemma wp_on_multi {A} (m : M MultiCandidateEvolutionEngine A) (Q : A -> EvolutionOrchestrator -> Prop) E o :
  wp m (fun a b => Q a (put_multi b o)) (fun x b => E x (put_multi b o)) (or_multi o) -> wp (on_multi m) Q E o.
Proof. intros Hm. apply wp_zoom. unfold wp in Hm. by destruct (m (or_multi o)) as [[a|x] b]. Qed.
(** Reading the clock and recording an event are calm. *)
Lemma wp_calm_world {A} (m : M World A) (Q : A -> EvolutionOrchestrator -> Prop) (E : exn -> EvolutionOrchestrator -> Prop) o :
  (forall a m', calm (or_multi o) m' -> Q a (put_multi m' o)) -> (forall x m', calm (or_multi o) m' -> E x (put_multi m' o)) ->
  wp (on_engine (in_world m)) Q E o.
Proof. intros HQ HE. apply wp_on_multi, wp_on_base, wp_in_world; intros; [by apply HQ|by apply HE]. Qed.
Lemma wp_calm_stamp (Q : string -> EvolutionOrchestrator -> Prop) E o :
  (forall t m', calm (or_multi o) m' -> Q t (put_multi m' o)) -> wp (on_engine stamp) Q E o.
Proof. intros HQ. apply wp_on_multi, wp_on_base, wp_stamp. intros t w. by apply HQ. Qed.
Lemma wp_calm_record id event_type actor details (Q : unit -> EvolutionOrchestrator -> Prop) E o :
  (forall m', calm (or_multi o) m' -> Q tt (put_multi m' o)) -> wp (on_engine (record_event id event_type actor details)) Q E o.
Proof.
  intros HQ. apply wp_on_multi, wp_on_base. unfold record_event. apply wp_bind, wp_stamp. intros t w. do 3 wp_step. by apply HQ.
Qed.
Lemma wp_update_campaign id f c (Q : unit -> EvolutionOrchestrator -> Prop) E o : dget id (or_campaigns o) = Some c ->
  Q tt (put_campaigns (dset id (f c) (or_campaigns o)) o) -> wp (update_campaign id f) Q E o.
Proof. intros Hc HQ. unfold update_campaign. wp_step. by rewrite Hc. Qed.
Lemma wp_touch_campaign id c (Q : unit -> EvolutionOrchestrator -> Prop) E o : dget id (or_campaigns o) = Some c ->
  (forall t m', calm (or_multi o) m' -> Q tt (put_campaigns (dset id (set_campaign_updated t c) (or_campaigns o)) (put_multi m' o))) ->
  wp (touch_campaign id) Q E o.
Proof. intros Hc HQ. unfold touch_campaign. apply wp_bind, wp_calm_stamp. intros t m' Hm. by eapply wp_update_campaign, HQ. Qed.
Lemma wp_get_campaign id c (Q : EvolutionCampaign -> EvolutionOrchestrator -> Prop) E o : dget id (or_campaigns o) = Some c ->
  Q c o -> wp (get_campaign id) Q E o.
Proof. intros Hc HQ. unfold get_campaign. do 2 wp_step. rewrite Hc. by wp_step. Qed.

(** A campaign on its way: what no generation assigns to, but the list of generations. *)
Record same_course (gs : list GenerationResult) (isr : pydict) (status : string) (c c' : EvolutionCampaign) : Prop := {
  sc_id : ec_id c' = ec_id c;
  sc_breaking : ec_allow_breaking_changes c' = ec_allow_breaking_changes c;
  sc_isr : ec_base_isr c' = isr;
  sc_status : ec_status c' = status;
  sc_generations : ec_generations c' = gs;
}.
(** The orchestrator with its engine in [m'] and the campaign [id] changed. *)
Lemma orchestrator_put o m id c c' : orchestrator_ok o -> dget id (or_campaigns o) = Some c -> ec_id c' = ec_id c -> multi_ok m ->
  orchestrator_ok {| or_multi := m; or_policy := or_policy o; or_campaigns := dset id c' (or_campaigns o) |}.
Proof.
  intros [_ Hk] Hc Ei Hm. split; [done|]. cbn. intros k c0. rewrite dget_dset. case_decide; [|apply Hk]. intros [= <-]. subst.
  rewrite Ei. by apply Hk.
Qed.

(** What a generation leaves. *)
Record generated (id : string) (c : EvolutionCampaign) (o : EvolutionOrchestrator) (g : GenerationResult) (o' : EvolutionOrchestrator) : Prop := {
  gd_ok : orchestrator_ok o';
  gd_campaign : exists c', dget id (or_campaigns o') = Some c' /\
    same_course (ec_generations c ++ [g]) (ec_base_isr c) (ec_status c) c c';
  gd_proven : exists req, rq_base_isr req = ec_base_isr c /\ rq_allow_breaking_changes req = ec_allow_breaking_changes c /\
    generating (evaluations_of (ge_proposal_id g) (or_multi o) = []) (ge_proposal_id g) req (or_multi o');
  gd_selected x : ge_selected_candidate_id g = Some x -> x <> "" ->
    exists e, dget x (evaluations_of (ge_proposal_id g) (or_multi o')) = Some e /\ ce_feasible e = true;
}.
Definition ungenerated (id : string) (c : EvolutionCampaign) (o' : EvolutionOrchestrator) : Prop :=
  orchestrator_ok o' /\ exists c', dget id (or_campaigns o') = Some c' /\
    same_course (ec_generations c) (ec_base_isr c) (ec_status c) c c'.

Lemma run_generation_spec id actor feedback o c : orchestrator_ok o -> dget id (or_campaigns o) = Some c ->
  wp (run_generation id actor feedback) (generated id c o) (fun _ => ungenerated id c) o.
Proof.
  intros Ho Hc. unfold run_generation. apply wp_bind, (wp_get_campaign id c); [done|]. do 2 wp_step. cbv zeta.
  apply wp_bind, wp_calm_world; [intros [plan refined] m1 C1|].
  2: { intros x m1 C1. split; [|by exists c]. destruct Ho. split; [by eapply calm_ok|done]. }
  apply wp_bind, (wp_update_campaign id _ c); [done|]. cbn [or_campaigns put_multi].
  set (c1 := set_genome refined c). set (o1 := put_campaigns _ _).
  assert (Hc1 : dget id (or_campaigns o1) = Some c1) by apply dget_dset_eq.
  assert (Ho1 : orchestrator_ok o1) by (apply (orchestrator_put o m1 id c); [done|done|done|eapply calm_ok; [exact C1|apply Ho]]).
  assert (Hun : ungenerated id c o1) by (split; [done|]; by exists c1).
  apply wp_bind, wp_lift; [|done]. intros specs _. destruct specs as [|base others]; [by wp_step|]. cbv zeta.
  apply wp_bind, wp_on_multi. eapply wp_mono; [apply evolve_evolved, Ho1|intros [p r] m2 [Hg Hr]|].
  2: { intros x m2 Hm. split; [|by exists c1]. split; [done|]. apply Ho1. }
  cbn [fst snd] in *.
  apply wp_bind, wp_calm_stamp. intros t m3 C3. set (g := {| ge_generation_index := _ |}).
  apply wp_bind, (wp_update_campaign id _ c1); [done|]. apply wp_bind, (wp_touch_campaign id (add_generation g c1)); [apply dget_dset_eq|].
  intros t' m4 C4. apply wp_bind, wp_calm_record. intros m5 C5. wp_step.
  cbn [or_multi put_campaigns put_multi or_campaigns] in *.
  assert (C : calm m2 m5) by (eapply calm_trans; [exact C3|]; eapply calm_trans; [exact C4|exact C5]).
  assert (Hg' := calm_generating _ _ _ _ _ C Hg). split; cbn [put_multi put_campaigns or_campaigns or_multi ge_proposal_id ge_selected_candidate_id g].
  - rewrite dset_dset. apply (orchestrator_put o1 m5 id c1); [done|done|done|apply Hg'].
  - eexists. split; [apply dget_dset_eq|]. by split.
  - exists (generation_proposal c (Z.of_nat (length (ec_generations c)) + 1) base). split_and!; [done|done|].
    assert (E : evaluations_of (ep_id p) m1 = evaluations_of (ep_id p) (or_multi o)) by (unfold evaluations_of; by rewrite (ca_evaluations _ _ C1)).
    rewrite <- E. exact Hg'.
  - intros x Hx Hne. destruct (Hr x Hx Hne) as (e & He & Hf). exists e. unfold evaluations_of in *. by rewrite (ca_evaluations _ _ C).
Qed.
End Orchestrated.

(** ** The memory *)

Section Memory.
Context `{Surroundings, Digests, !Parts}.

(** An elite was earned: the verifier was asked about its candidate and answered a
    valid report, with which the fitness evaluator, asked next, answered a passing
    evaluation, and the elite holds its objectives and constraints.  (The candidate
    asked about has the id of the elite; digests having no collision, its content
    hash too.) *)
Definition earned (e : EliteRecord) : Prop := exists c p r v f w w1 w2,
  ca_id c = el_candidate_id e /\ (DigestLaws -> ca_content_hash c = el_isr_content_hash e) /\
  part_verifier c p w = (Ok v, w1) /\ vf_valid v = true /\
  part_fitness c r (Some v) w1 = (Ok f, w2) /\ fe_passed f = true /\
  el_objectives e = fe_objectives f /\ el_constraints e = fe_constraints f.
(** The elites of a campaign, their number bounded; with the removal of duplicates the
    set of hashes is that of the elites, which are all different. *)
Record elites_ok (policy : MemoryPolicy) (id : string) (es : list EliteRecord) (hs : list string) : Prop := {
  ek_earned e : e ∈ es -> earned e /\ el_campaign_id e = id;
  ek_bound : Z.of_nat (length es) <= Zpos (yp_max_elites policy);
  ek_hashes : yp_dedupe_by_content_hash policy = true -> NoDup (map el_isr_content_hash es) /\
    forall h, h ∈ hs <-> h ∈ map el_isr_content_hash es;
}.
Definition memory_ok (m : InMemoryEvolutionaryMemory) : Prop :=
  forall id, elites_ok (im_policy m) id (dget_or id (im_elites m) []) (dget_or id (im_hashes m) []).

Lemma set_discard_elem h hs x : x ∈ set_discard h hs <-> x ∈ hs /\ x <> h.
Proof. unfold set_discard. rewrite list_elem_of_In, filter_In, <- list_elem_of_In, negb_true_iff, bool_decide_eq_false. done. Qed.
Lemma set_add_elem h hs x : x ∈ set_add h hs <-> x ∈ hs \/ x = h.
Proof.
  unfold set_add. destruct (mem h hs) eqn:E; [apply mem_true in E; split; [by left|by intros [?| ->]]|].
  by rewrite elem_of_app, list_elem_of_singleton.
Qed.
(** Trimming drops from the front, and the hashes go along. *)
Lemma trim_spec n es hs : (forall h, h ∈ hs <-> h ∈ map el_isr_content_hash es) -> NoDup (map el_isr_content_hash es) ->
  let '(es', hs') := trim n es hs in
  NoDup (map el_isr_content_hash es') /\ forall h, h ∈ hs' <-> h ∈ map el_isr_content_hash es'.
Proof.
  revert hs. induction es as [|e es IH]; intros hs Hh Hn; cbn [trim length]; [by split|]. destruct (Nat.ltb n _); [|by split].
  cbn in Hn. apply NoDup_cons in Hn as [He Hn]. apply IH; [|done]. intros h. rewrite set_discard_elem, Hh. cbn. rewrite elem_of_cons. naive_solver.
Qed.
Lemma trim_sub n es hs : (exists l, es = l ++ (trim n es hs).1) /\ (length (trim n es hs).1 <= n \/ length es <= n)%nat.
Proof.
  revert hs. induction es as [|e es IH]; intros hs; cbn [trim length]; [split; [by exists []|cbn; lia]|].
  destruct (Nat.ltb_spec n (S (length es))) as [Hl|Hl]; [|split; [by exists []|cbn; lia]].
  destruct (IH (set_discard (el_isr_content_hash e) hs)) as [(l & El) Hb]. split; [exists (e :: l); cbn; by rewrite <- El|].
  destruct Hb as [?|Hb]; [by left|]. left. apply (f_equal length) in El. rewrite length_app in El. lia.
Qed.
Lemma save_elite_ok e m : memory_ok m -> earned e -> memory_ok (save_elite e m).2.
Proof.
  intros Hm He id. destruct (Hm (el_campaign_id e)) as [K B D]. unfold save_elite. set (es := dget_or _ (im_elites m) []) in *.
  set (hs := dget_or _ (im_hashes m) []) in *.
  assert (Hput : forall es' hs', elites_ok (im_policy m) (el_campaign_id e) es' hs' ->
            elites_ok (im_policy m) id (dget_or id (dset (el_campaign_id e) es' (im_elites m)) [])
              (dget_or id (dset (el_campaign_id e) hs' (im_hashes m)) [])).
  { intros es' hs' Hok. unfold dget_or. rewrite !dget_dset. case_decide; [by subst|]. apply (Hm id). }
  destruct (yp_dedupe_by_content_hash (im_policy m) && mem (el_isr_content_hash e) hs) eqn:Ed; [by apply Hput|].
  pose proof (trim_sub (Pos.to_nat (yp_max_elites (im_policy m))) (es ++ [e]) (set_add (el_isr_content_hash e) hs)) as [(l & El) Hb].
  pose proof (trim_spec (Pos.to_nat (yp_max_elites (im_policy m))) (es ++ [e]) (set_add (el_isr_content_hash e) hs)) as Hs.
  destruct (trim _ _ _) as [es' hs'] eqn:Et. cbn in El, Hb |- *. apply Hput. split.
  - intros x Hx. assert (Hin : x ∈ es ++ [e]) by (rewrite El; apply elem_of_app; by right).
    apply elem_of_app in Hin as [?| ->%list_elem_of_singleton]; [by apply K|done].
  - destruct Hb as [Hb|Hb]; [lia|]. apply (f_equal length) in El. rewrite !length_app in El. rewrite length_app in Hb. cbn [length] in El, Hb. lia.
  - intros Hd. destruct (D Hd) as [Dn Dh]. rewrite Hd in Ed. apply mem_false in Ed. rewrite Dh in Ed. rewrite map_app in Hs. apply Hs.
    + intros h. rewrite set_add_elem, Dh, elem_of_app. cbn. by rewrite list_elem_of_singleton.
    + apply NoDup_app. split_and!; [done| |apply NoDup_singleton]. intros h Hh ->%list_elem_of_singleton. done.
Qed.

End Memory.

(** ** The campaign engine *)
Section Campaigns.
Context `{Surroundings, Digests, !Parts}.

Record campaigns_ok (s : MultiGenerationCampaignEngine) : Prop := {
  co_orchestrator : orchestrator_ok (mg_orchestrator s);
  co_memory : memory_ok (mg_memory s);
}.
Lemma wp_orchestrate {A} (m : M EvolutionOrchestrator A) (Q : A -> MultiGenerationCampaignEngine -> Prop) E s :
  wp m (fun a o => Q a (put_orchestrator o s)) (fun x o => E x (put_orchestrator o s)) (mg_orchestrator s) -> wp (orchestrate m) Q E s.
Proof. intros Hm. apply wp_zoom. unfold wp in Hm. by destruct (m (mg_orchestrator s)) as [[a|x] o]. Qed.
Abbreviation engine_of := (fun s => or_multi (mg_orchestrator s)).
Abbreviation campaigns_of := (fun s => or_campaigns (mg_orchestrator s)).

Lemma wp_selected_evaluation g req P s (Q : option CandidateEvaluationRecord -> MultiGenerationCampaignEngine -> Prop) E :
  generating P (ge_proposal_id g) req (engine_of s) ->
  (forall e, (forall r, e = Some r -> exists k, dget k (evaluations_of (ge_proposal_id g) (engine_of s)) = Some r /\
      ge_selected_candidate_id g = Some k) -> Q e s) -> wp (get_selected_evaluation g) Q E s.
Proof.
  intros Hg HQ. unfold get_selected_evaluation. wp_step; [wp_step; by apply HQ|].
  apply wp_bind, wp_orchestrate, wp_on_multi. unfold get_evaluations. apply wp_bind, wp_on_base, (wp_known_proposal anything _ req); [apply Hg|].
  intros p _. do 2 wp_step. cbv beta.
  match goal with |- Q _ ?s' => replace s' with s by (destruct s as [[[] ? ?] ? ?]; done) end.
  apply HQ. intros r Hr. apply find_some in Hr as [Hin Er]. apply bool_decide_eq_true in Er.
  apply list_elem_of_In, elem_dvalues in Hin as [k Hk].
  destruct (evaluations_of_ok (ge_proposal_id g) (or_multi (mg_orchestrator s)) (gg_multi _ _ _ _ Hg)) as [Hd He].
  apply elem_dget in Hk; [|exact Hd]. exists k. split; [exact Hk|]. by rewrite <- Er, (ev_key _ _ (He _ _ Hk)).
Qed.
(** Recording a generation only fills the memory. *)
Record recorded_generation (s s' : MultiGenerationCampaignEngine) : Prop := {
  rg_ok : campaigns_ok s';
  rg_calm : calm (engine_of s) (engine_of s');
  rg_campaigns : campaigns_of s' = campaigns_of s;
}.
Lemma remembered s m o : campaigns_ok s -> memory_ok m -> calm (engine_of s) (or_multi o) -> or_campaigns o = campaigns_of s ->
  recorded_generation s (put_memory m (put_orchestrator o s)).
Proof.
  intros [[Hm Hk] _] Hmem Hc Ec. split; [|done|done]. split; [|done]. split; [by eapply calm_ok|]. cbn. intros k c. rewrite Ec. apply Hk.
Qed.
Lemma record_generation_spec id g req P s : campaigns_ok s -> generating P (ge_proposal_id g) req (engine_of s) ->
  wp (record_generation id g) (fun _ => recorded_generation s) (fun _ _ => False) s.
Proof.
  intros Hs Hg. unfold record_generation. apply wp_bind, (wp_selected_evaluation g req P); [done|]. intros e He. cbv zeta.
  do 2 wp_step. apply wp_bind, wp_orchestrate, wp_calm_stamp. intros t m1 C1.
  set (summary := {| gs_id := _ |}). apply wp_bind. unfold remember. apply wp_zoom. cbn [modify].
  set (s1 := put_memory _ _).
  assert (H1' : recorded_generation s s1) by (apply remembered; [done|apply Hs|done|done]).
  assert (Hdone : wp (mret summary) (fun _ => recorded_generation s) (fun _ _ => False) s1) by by wp_step.
  apply wp_bind. destruct e as [r|]; [|wp_step; apply wp_bind; by wp_step]. destruct (ce_feasible r) eqn:Ef; [|wp_step; apply wp_bind; by wp_step].
  destruct (He r eq_refl) as (k & Hk & Ek). unfold selected_candidate. rewrite Ek. cbn [otruthy or_empty].
  wp_step; wp_step; [|apply wp_bind; by wp_step].
  apply wp_bind. destruct (dget k (se_candidates _)) as [c|] eqn:Ec; [|by wp_step].
  apply wp_bind, wp_orchestrate, wp_calm_stamp. intros t2 m2 C2. apply wp_bind. apply wp_zoom.
  set (el := {| el_id := _ |}).
  assert (Hearned : earned el).
  { destruct (evaluations_of_ok (ge_proposal_id g) (engine_of s) (gg_multi _ _ _ _ Hg)) as [_ Hev].
    destruct (ev_backed _ _ (Hev _ _ Hk) Ef) as (c0 & p & Eid & Hg0 & (r0 & v & f & w & w1 & w2 & _ & Ev & Hv & Efit & Eq & Hp)).
    destruct (to_candidates _ (mo_tables _ (calm_ok _ _ C1 (oo_multi _ (co_orchestrator _ Hs)))) _ _ Ec) as [Eck Hgc].
    exists c0, p, r0, v, f, w, w1, w2. unfold el. cbn [el_candidate_id el_isr_content_hash el_objectives el_constraints].
    unfold fitness_objectives, fitness_constraints. rewrite Efit. split_and!; try done; [congruence|].
    intros Hd. apply (genuine_same c0 c Hg0 Hgc). congruence. }
  pose proof (save_elite_ok el (mg_memory s1) (co_memory _ (rg_ok _ _ H1')) Hearned) as Hmem.
  cbn [mg_memory put_orchestrator] in *. destruct (save_elite el (mg_memory s1)) as [[b|x] m3] eqn:Es; [|by unfold save_elite in Es; repeat case_match].
  do 2 wp_step. apply (remembered s m3 (put_multi m2 (mg_orchestrator s1))); [done|done| |done].
  cbn. eapply calm_trans; [exact C1|exact C2].
Qed.

(** *** A round of the loop *)

(** An ISR the verifier passed as a change of another one. *)
Definition verified_step (breaking : bool) (isr isr' : pydict) : Prop := exists c p v w w',
  ca_isr c = isr' /\ rq_base_isr (ep_request p) = isr /\ rq_allow_breaking_changes (ep_request p) = breaking /\
  part_verifier c p w = (Ok v, w') /\ vf_valid v = true.
(** The id the next generation gives its proposal is not in use. *)
Definition fresh_turn (id actor : string) (feedback : option (list GenomeRefinementRecommendation)) (s : MultiGenerationCampaignEngine) : Prop :=
  match run_generation id actor feedback (mg_orchestrator s) with
  | (Ok g, _) => evaluations_of (ge_proposal_id g) (engine_of s) = []
  | _ => True
  end.
(** The campaign after some rounds: [n] generations more, the ISR the same or a
    verified step further. *)
Record advanced (fresh : Prop) (id : string) (n : nat) (c : EvolutionCampaign) (s' : MultiGenerationCampaignEngine) : Prop := {
  ad_ok : campaigns_ok s';
  ad_campaign : exists c', dget id (campaigns_of s') = Some c' /\ ec_id c' = ec_id c /\
    ec_allow_breaking_changes c' = ec_allow_breaking_changes c /\
    length (ec_generations c') = (length (ec_generations c) + n)%nat /\
    (ec_status c' = ec_status c \/ ec_status c' = "FAILED") /\
    (fresh -> rtc (verified_step (ec_allow_breaking_changes c)) (ec_base_isr c) (ec_base_isr c'));
}.
Definition stop_ok (t : Turn) : Prop := match t with Stopped _ r => r <> "max_generations_reached" | Went _ _ _ => True end.
Definition turn_summaries (t : Turn) : list GenerationSummary :=
  match t with Stopped s _ => option_list s | Went s _ _ => [s] end.

Lemma wp_fail_campaign id c s (Q : unit -> MultiGenerationCampaignEngine -> Prop) E :
  dget id (campaigns_of s) = Some c ->
  (forall o c', calm (engine_of s) (or_multi o) -> or_campaigns o = dset id c' (campaigns_of s) ->
     same_course (ec_generations c) (ec_base_isr c) "FAILED" c c' -> Q tt (put_orchestrator o s)) ->
  wp (fail_campaign id) Q E s.
Proof.
  intros Hc HQ. unfold fail_campaign. apply wp_orchestrate, wp_bind, (wp_update_campaign id _ c); [done|].
  apply (wp_touch_campaign id (set_campaign_status "FAILED" c)); [apply dget_dset_eq|]. intros t m' C.
  apply (HQ _ (set_campaign_updated t (set_campaign_status "FAILED" c))); [exact C| |by split]. cbn. by rewrite dset_dset.
Qed.
(** Assigning to a campaign keeps the state in order. *)
Lemma campaigns_put s o id c c' : campaigns_ok s -> calm (engine_of s) (or_multi o) -> or_campaigns o = dset id c' (campaigns_of s) ->
  dget id (campaigns_of s) = Some c -> ec_id c' = ec_id c -> campaigns_ok (put_orchestrator o s).
Proof.
  intros [[Hm Hk] Hmem] C E Hc Ei. split; [|done]. split; [by eapply calm_ok|]. cbn. intros k c0. rewrite E, dget_dset.
  case_decide; [|apply Hk]. intros [= <-]. subst. rewrite Ei. by apply Hk.
Qed.
Lemma failed_advanced fresh id n c0 c s o c' : campaigns_ok s -> dget id (campaigns_of s) = Some c ->
  calm (engine_of s) (or_multi o) -> or_campaigns o = dset id c' (campaigns_of s) ->
  same_course (ec_generations c) (ec_base_isr c) "FAILED" c c' ->
  advanced fresh id n c0 s -> advanced fresh id n c0 (put_orchestrator o s).
Proof.
  intros Hs Hc C E [S1 S2 S3 S4 S5] [_ (c1 & Hc1 & E1 & E2 & E3 & _ & E5)]. split; [by apply (campaigns_put s o id c c')|].
  rewrite Hc in Hc1. injection Hc1 as <-. exists c'. cbn. rewrite E, dget_dset_eq. split_and!; [done|congruence|congruence| |by right|].
  - by rewrite S5.
  - intros Hf. rewrite S3. by apply E5.
Qed.

(** The candidate carried forward is the one the verifier passed. *)
Lemma carry_forward_spec id g req (fresh : Prop) c c1 s : campaigns_ok s -> dget id (campaigns_of s) = Some c1 ->
  advanced fresh id 1 c s -> ec_base_isr c1 = ec_base_isr c -> rq_base_isr req = ec_base_isr c ->
  rq_allow_breaking_changes req = ec_allow_breaking_changes c ->
  (fresh -> forall x, ge_selected_candidate_id g = Some x -> x <> "" ->
     exists e, ce_feasible e = true /\ proven (se_candidates (mc_base (engine_of s))) x req e) ->
  wp (carry_forward id g) (fun _ s' => advanced fresh id 1 c s') (fun _ _ => False) s.
Proof.
  intros Hs Hc1 Ha Eisr R1 R2 Hsel. unfold carry_forward, selected_candidate. apply wp_bind.
  destruct (ge_selected_candidate_id g) as [x|] eqn:Ex; [|by do 2 wp_step]. cbn [otruthy or_empty].
  destruct (truthy x) eqn:Et; [|by do 2 wp_step]. wp_step.
  destruct (dget x (se_candidates (mc_base (or_multi (mg_orchestrator s))))) as [cd|] eqn:Ecd; [|by wp_step].
  apply wp_orchestrate, (wp_update_campaign id _ c1); [done|].
  destruct (ad_campaign _ _ _ _ _ Ha) as (c1' & Hc1' & E1 & E2 & E3 & E4 & _). rewrite Hc1 in Hc1'. injection Hc1' as <-. split.
  { by apply (campaigns_put s _ id c1 (set_base_isr (ca_isr cd) c1)). }
  exists (set_base_isr (ca_isr cd) c1). cbn. rewrite dget_dset_eq. split_and!; try done. intros Hf.
  assert (Hne : x <> "") by (by intros ->). destruct (Hsel Hf x eq_refl Hne) as (e & Hfe & Hp).
  destruct (Hp Hfe) as (cc & p & v & w & w' & Ecc & Ereq & Ev & Hv). rewrite Ecd in Ecc. injection Ecc as <-.
  apply rtc_once. exists cd, p, v, w, w'. split_and!; [done|by rewrite Ereq|by rewrite Ereq|done|done].
Qed.

Lemma run_turn_spec id actor feedback policy previous count s c : campaigns_ok s -> dget id (campaigns_of s) = Some c ->
  wp (run_turn id actor feedback policy previous count)
     (fun t s' => advanced (fresh_turn id actor feedback s) id (length (turn_summaries t)) c s' /\ stop_ok t) (fun _ _ => False) s.
Proof.
  intros Hs Hc. unfold run_turn. apply wp_bind, wp_try, wp_bind, wp_orchestrate.
  pose proof (run_generation_spec id actor feedback (mg_orchestrator s) c (co_orchestrator _ Hs) Hc) as Hg.
  unfold fresh_turn. unfold wp in Hg |- *. destruct (run_generation _ _ _ _) as [[g|x] o].
  2: { change (wp (_ ← fail_campaign id; mret (Stopped None ("generation_failed: " +:+ exn_text x)))
         (fun t s' => advanced True id (length (turn_summaries t)) c s' /\ stop_ok t) (fun _ _ => False) (put_orchestrator o s)).
       destruct Hg as [Ho (c' & Hc' & [S1 S2 S3 S4 S5])].
       assert (Ha : advanced True id 0 c (put_orchestrator o s)).
       { split; [split; [done|apply Hs]|]. exists c'. split_and!; [done|done|done|by rewrite S5, Nat.add_0_r|by left|]. intros _. by rewrite S3. }
       apply wp_bind, (wp_fail_campaign id c'); [done|]. intros o' c2 C E S. wp_step. split; [|done]. by eapply failed_advanced; [apply Ha|..]. }
  set (fresh := evaluations_of (ge_proposal_id g) (engine_of s) = []).
  destruct Hg as [Ho (c1 & Hc1 & [S1 S2 S3 S4 S5]) (req & R1 & R2 & Hgen) Hsel]. fold fresh in Hgen.
  change (wp (campaign ← orchestrate (get_campaign id);
      summary ← record_generation (ec_id campaign) g;
      _ ← when (sp_carry_forward_selected_candidate policy) (carry_forward id g);
      if bool_decide (ge_selected_candidate_id g = None) && sp_require_feasible_candidate policy
      then _ ← fail_campaign id; mret (Stopped (Some summary) "no_feasible_candidate")
      else
        let diagnostic := diagnostic_score (gs_objectives summary) (gs_constraints summary) in
        let watch := (0 <? sp_stagnation_limit policy) && bool_decide (is_Some previous) in
        let count := if watch then stagnate policy previous diagnostic count else count in
        if watch && (sp_stagnation_limit policy <=? count) then mret (Stopped (Some summary) "stagnation")
        else mret (Went summary diagnostic count))
    (fun t s' => advanced fresh id (length (turn_summaries t)) c s' /\ stop_ok t) (fun _ _ => False) (put_orchestrator o s)).
  apply wp_bind, wp_orchestrate, (wp_get_campaign id c1); [done|]. apply wp_bind. cbn [mg_orchestrator put_orchestrator].
  set (s1 := put_orchestrator o _). assert (Hs1 : campaigns_ok s1) by (split; [done|apply Hs]).
  eapply wp_mono; [by apply (record_generation_spec (ec_id c1) g req fresh s1)|intros summary s2 [Hs2 C2 Ec2]|done].
  assert (Hc2 : dget id (campaigns_of s2) = Some c1) by (by rewrite Ec2).
  assert (Ha : advanced fresh id 1 c s2).
  { split; [done|]. exists c1. split_and!; [done|done|done|by rewrite S5, length_app|by left|]. intros _. by rewrite S3. }
  apply wp_bind. eapply (wp_mono _ (fun _ s' => advanced fresh id 1 c s') _ (fun _ _ => False)); [|intros [] s3 Ha3|done].
  - wp_step; [|done]. apply (carry_forward_spec id g req fresh c c1); try done. intros Hf x Hx Hne.
    destruct (Hsel x Hx Hne) as (e & He & Hfe). exists e. split; [done|].
    rewrite (ca_table _ _ C2). exact (gg_proven _ _ _ _ Hgen Hf x e He).
  - wp_step; [|cbv zeta; wp_step; wp_step; by split]. destruct (ad_campaign _ _ _ _ _ Ha3) as (c3 & Hc3 & _).
    apply wp_bind, (wp_fail_campaign id c3); [done|]. intros o' c4 C E S. wp_step. split; [|done]. by eapply failed_advanced; [apply Ha3|..].
Qed.

(** *** The loop *)

Fixpoint fresh_run (n : nat) (id actor : string) (feedback : option (list GenomeRefinementRecommendation))
    (policy : CampaignStopPolicy) (previous : option float) (count : Z) (s : MultiGenerationCampaignEngine) : Prop :=
  match n with
  | O => True
  | S n => fresh_turn id actor feedback s /\
      match run_turn id actor feedback policy previous count s with
      | (Ok (Went _ diagnostic count), s') => fresh_run n id actor feedback policy (Some diagnostic) count s'
      | _ => True
      end
  end.
Lemma advanced_trans f1 f2 id n1 n2 c s1 s2 c1 : advanced f1 id n1 c s1 -> dget id (campaigns_of s1) = Some c1 ->
  advanced f2 id n2 c1 s2 -> advanced (f1 /\ f2) id (n1 + n2) c s2.
Proof.
  intros [_ (c1' & Hc1 & A1 & A2 & A3 & A4 & A5)] Hc1' [Ho (c2 & Hc2 & B1 & B2 & B3 & B4 & B5)]. rewrite Hc1 in Hc1'. injection Hc1' as ->.
  split; [done|]. exists c2. split_and!; [done|congruence|congruence|lia| |].
  - destruct A4 as [A4|A4], B4 as [B4|B4]; rewrite ?B4, ?A4; auto.
  - intros [F1 F2]. rewrite A2 in B5. etransitivity; [by apply A5|by apply B5].
Qed.
Lemma advanced_weaken (f f' : Prop) id n c s : (f' -> f) -> advanced f id n c s -> advanced f' id n c s.
Proof. intros Hf [? (c' & ? & ? & ? & ? & ? & Hr)]. split; [done|]. exists c'. split_and!; auto. Qed.
Definition ran (n : nat) (id actor : string) (feedback : option (list GenomeRefinementRecommendation)) (policy : CampaignStopPolicy)
    (summaries : list GenerationSummary) (previous : option float) (count : Z) (s : MultiGenerationCampaignEngine) (c : EvolutionCampaign)
    (o : list GenerationSummary * option string) (s' : MultiGenerationCampaignEngine) : Prop :=
  exists k, advanced (fresh_run n id actor feedback policy previous count s) id k c s' /\
    length o.1 = (length summaries + k)%nat /\ (k <= n)%nat /\ (o.2 = None -> k = n) /\ o.2 <> Some "max_generations_reached".
Lemma run_generations_spec n id actor feedback policy summaries previous count s c : campaigns_ok s ->
  dget id (campaigns_of s) = Some c ->
  wp (run_generations n id actor feedback policy summaries previous count)
     (ran n id actor feedback policy summaries previous count s c) (fun _ _ => False) s.
Proof.
  revert summaries previous count s c. induction n as [|n IH]; intros summaries previous count s c Hs Hc; cbn [run_generations].
  - wp_step. exists 0%nat. split_and!; [|cbn; lia|done|done|done]. split; [done|]. exists c. split_and!; auto. intros _. apply rtc_refl.
  - apply wp_bind. pose proof (run_turn_spec id actor feedback policy previous count s c Hs Hc) as Ht. unfold wp in Ht |- *. unfold ran. cbn [fresh_run].
    destruct (run_turn id actor feedback policy previous count s) as [[t|x] s1]; [|done]. destruct Ht as [Ha Hst].
    destruct t as [sm r|sm d k].
    + change (exists k, advanced (fresh_turn id actor feedback s /\ True) id k c s1 /\
        length (summaries ++ option_list sm) = (length summaries + k)%nat /\ (k <= S n)%nat /\ (Some r = None -> k = S n) /\
        Some r <> Some "max_generations_reached").
      eexists. split_and!; [eapply advanced_weaken, Ha; by intros []|by rewrite length_app|destruct sm; cbn; lia|done|]. by intros [= ->].
    + destruct (ad_campaign _ _ _ _ _ Ha) as (c1 & Hc1 & _).
      specialize (IH (summaries ++ [sm]) (Some d) k s1 c1 (ad_ok _ _ _ _ _ Ha) Hc1). unfold wp in IH.
      destruct (run_generations n id actor feedback policy (summaries ++ [sm]) (Some d) k s1) as [[o|x] s2]; [|done].
      destruct IH as (j & Hj & Hl & Hjn & Hnone & Hr). exists (S j). split_and!.
      * by eapply (advanced_trans _ _ id 1 j).
      * rewrite Hl, length_app. cbn. lia.
      * lia.
      * intros E. by rewrite (Hnone E).
      * done.
Qed.

(** ** Sequences of calls *)

Inductive campaign_call : Set :=
| CC_multi (c : multi_call)
| CC_create (request : EvolutionCampaignRequest) (actor_id : string)
| CC_generation (campaign_id actor_id : string) (feedback : option (list GenomeRefinementRecommendation))
| CC_run (campaign_id actor_id : string) (feedback : option (list GenomeRefinementRecommendation))
    (stop_policy : option CampaignStopPolicy).
Definition campaign_perform (c : campaign_call) : M MultiGenerationCampaignEngine unit :=
  match c with
  | CC_multi c => orchestrate (on_multi (multi_perform c))
  | CC_create request actor => _ ← orchestrate (create_campaign request actor); mret tt
  | CC_generation id actor feedback => _ ← orchestrate (run_generation id actor feedback); mret tt
  | CC_run id actor feedback policy => _ ← run_campaign id actor feedback policy; mret tt
  end.
Inductive campaign_reachable : MultiGenerationCampaignEngine -> Prop :=
| cr_new policy w refinement memory stop : campaign_reachable
    (new_campaign_engine (new_orchestrator (new_multi_engine (new_self_engine policy w)) refinement) (new_memory memory) stop)
| cr_call c s : campaign_reachable s -> campaign_reachable (campaign_perform c s).2.

(** What [run_campaign] answers for a campaign of the table. *)
Record completed (id : string) (actor : string) (feedback : option (list GenomeRefinementRecommendation)) (policy : CampaignStopPolicy)
    (c : EvolutionCampaign) (s : MultiGenerationCampaignEngine) (r : CampaignRunResult) (s' : MultiGenerationCampaignEngine) : Prop := {
  cd_ok : campaigns_ok s';
  cd_summaries : Z.of_nat (length (cr_summaries r)) = cr_generations_run r;
  cd_bound : cr_generations_run r <= Z.max 0 (sp_max_generations policy);
  cd_reason : cr_generations_run r < Z.max 0 (sp_max_generations policy) -> cr_stop_reason r <> "max_generations_reached";
  cd_campaign : exists c', dget id (campaigns_of s') = Some c' /\ cr_campaign_id r = ec_id c /\ ec_id c' = ec_id c /\
    Z.of_nat (length (ec_generations c')) = Z.of_nat (length (ec_generations c)) + cr_generations_run r /\
    cr_status r = ec_status c' /\ (ec_status c' = "COMPLETED" \/ ec_status c' = "FAILED") /\
    (ec_status c = "FAILED" -> ec_status c' = "FAILED") /\
    (fresh_run (Z.to_nat (sp_max_generations policy)) id actor feedback policy None 0 s ->
       rtc (verified_step (ec_allow_breaking_changes c)) (ec_base_isr c) (ec_base_isr c'));
}.
Lemma run_campaign_spec id actor feedback stop s c : campaigns_ok s -> dget id (campaigns_of s) = Some c ->
  wp (run_campaign id actor feedback stop) (completed id actor feedback (default (mg_stop_policy s) stop) c s) (fun _ _ => False) s.
Proof.
  intros Hs Hc. unfold run_campaign. do 2 wp_step. cbv zeta. set (policy := default (mg_stop_policy s) stop).
  apply wp_bind, wp_orchestrate, (wp_get_campaign id c); [done|]. replace (put_orchestrator (mg_orchestrator s) s) with s by by destruct s.
  apply wp_bind. eapply wp_mono; [by apply (run_generations_spec _ id actor feedback policy [] None 0 s c)|intros [sums stopped] s1|done].
  intros (k & [Ho (c1 & Hc1 & E1 & _ & E3 & E4 & E5)] & Hl & Hk & Hnone & Hmax). cbn [fst snd] in *.
  apply wp_bind, wp_orchestrate, (wp_update_campaign id _ c1); [done|]. set (c2 := if bool_decide _ then _ else _). cbn [mg_orchestrator put_orchestrator].
  apply wp_bind, wp_orchestrate, (wp_touch_campaign id c2); [apply dget_dset_eq|]. intros t m1 C1.
  set (c3 := set_campaign_updated t c2). cbn [mg_orchestrator put_orchestrator or_campaigns put_campaigns put_multi] in *. rewrite dset_dset.
  assert (Hcs : ec_id c3 = ec_id c1 /\ ec_generations c3 = ec_generations c1 /\ ec_base_isr c3 = ec_base_isr c1 /\
            (ec_status c3 = "COMPLETED" \/ ec_status c3 = "FAILED") /\ (ec_status c1 = "FAILED" -> ec_status c3 = "FAILED")).
  { unfold c3, c2. case_bool_decide as Eb; cbn; [by split_and!; auto|]. rewrite Eb. by split_and!; auto. }
  clearbody c3. destruct Hcs as (Hid & Hgens & Hisr & Hst & Hfail).
  apply wp_bind, wp_orchestrate, (wp_get_campaign id c3); [apply dget_dset_eq|]. do 2 wp_step. cbv zeta.
  apply wp_bind, wp_orchestrate, wp_calm_stamp. intros t' m2 C2. apply wp_bind, wp_orchestrate, wp_calm_record. intros m3 C3. wp_step.
  cbn [mg_orchestrator put_orchestrator or_campaigns put_campaigns put_multi or_multi] in *.
  split; cbn [cr_summaries cr_generations_run cr_stop_reason cr_campaign_id cr_status].
  - apply (campaigns_put s1 {| or_multi := m3; or_policy := _; or_campaigns := _ |} id c1 c3); [done| |done|done|done].
    eapply calm_trans; [exact C1|]. eapply calm_trans; [exact C2|exact C3].
  - done.
  - rewrite Hl. cbn. lia.
  - rewrite Hl. cbn. intros Hlt E. destruct stopped as [r|]; cbn in E; [by subst|]. specialize (Hnone eq_refl). lia.
  - exists c3. cbn. rewrite dget_dset_eq. split_and!; [done|congruence|congruence| |done| | |].
    + rewrite Hl, Hgens. cbn. lia.
    + exact Hst.
    + intros Ef. rewrite Ef in E4. apply Hfail. by destruct E4.
    + intros Hf. rewrite Hisr. by apply E5.
Qed.

Lemma run_campaign_returns id actor feedback stop s c : campaigns_ok s -> dget id (campaigns_of s) = Some c ->
  exists r s', run_campaign id actor feedback stop s = (Ok r, s').
Proof.
  intros Hs Hc. pose proof (run_campaign_spec id actor feedback stop s c Hs Hc) as Hr. unfold wp in Hr.
  destruct (run_campaign id actor feedback stop s) as [[r|x] s']; [|done]. by exists r, s'.
Qed.
Lemma keeps_orchestrate {A} (m : M EvolutionOrchestrator A) : keeps orchestrator_ok m -> keeps campaigns_ok (orchestrate m).
Proof. apply keeps_zoom; [by intros s []|]. intros o s Ho [_ ?]. by split. Qed.
Lemma keeps_create request actor : keeps orchestrator_ok (create_campaign request actor).
Proof.
  apply keeps_of_wp. intros o Ho. unfold create_campaign.
  assert (Hcalm : forall m, calm (or_multi o) m -> orchestrator_ok (put_multi m o)) by (intros m C; destruct Ho; split; [by eapply calm_ok|done]).
  apply wp_bind. eapply (wp_mono _ (fun _ o' => exists m, calm (or_multi o) m /\ o' = put_multi m o) _ (fun _ _ => False)); [|intros g o' (m & C & ->)|done].
  { destruct (cq_initial_genome request); [wp_step; exists (or_multi o); by destruct o|].
    apply wp_on_multi, wp_on_base. unfold create_default_genome, timestamp, now, in_world, zoom, wp. unfold_monad. eexists. split; [|reflexivity]. done. }
  apply wp_bind, wp_calm_stamp. intros t m2 C2. cbv zeta. set (id := deterministic_id _ _). do 2 wp_step.
  apply wp_bind, wp_calm_record. intros m3 C3. wp_step. split; cbn.
  - apply (calm_ok (or_multi o)); [|apply Ho]. eapply calm_trans; [exact C|]. eapply calm_trans; [exact C2|exact C3].
  - intros k c. rewrite dget_dset. case_decide; [by intros [= <-]|apply Ho].
Qed.
Lemma keeps_generation id actor feedback : keeps orchestrator_ok (run_generation id actor feedback).
Proof.
  apply keeps_of_wp. intros o Ho. destruct (dget id (or_campaigns o)) as [c|] eqn:Ec.
  - eapply wp_mono; [by apply (run_generation_spec id actor feedback o c)|by intros g o' []|by intros x o' []].
  - unfold run_generation, get_campaign. apply wp_bind, wp_bind. wp_step. rewrite Ec. by wp_step.
Qed.
Lemma campaigns_keep_run id actor feedback stop : keeps campaigns_ok (run_campaign id actor feedback stop).
Proof.
  apply keeps_of_wp. intros s Hs. destruct (dget id (campaigns_of s)) as [c|] eqn:Ec.
  - eapply wp_mono; [by apply (run_campaign_spec id actor feedback stop s c)|by intros r s' []|done].
  - unfold run_campaign. do 2 wp_step. cbv zeta. apply wp_bind, wp_orchestrate. unfold get_campaign. do 2 wp_step. rewrite Ec. wp_step. by destruct s, Hs.
Qed.
Lemma campaign_reachable_ok s : campaign_reachable s -> campaigns_ok s.
Proof.
  induction 1 as [policy w refinement memory stop|c s _ IH].
  - split; [split; [split; [by split|done..]|done]|]. intros id. split; cbn; [by intros e ?%elem_of_nil|lia|].
    intros _. split; [constructor|]. by intros h; split; intros ?%elem_of_nil.
  - revert s IH. change (keeps campaigns_ok (campaign_perform c)). destruct c; cbn [campaign_perform].
    + apply keeps_orchestrate. apply keeps_zoom with (J := multi_ok); [by intros o []|intros m o Hm []; by split|apply multi_perform_ok].
    + apply keeps_bind; [apply keeps_orchestrate, keeps_create|intros; apply keeps_ret].
    + apply keeps_bind; [apply keeps_orchestrate, keeps_generation|intros; apply keeps_ret].
    + apply keeps_bind; [apply campaigns_keep_run|intros; apply keeps_ret].
Qed.

(** C11: running a campaign of the table always returns, whatever the parts of the
    engine answer or raise: at most as many generations as the policy allows are
    recorded, each with its summary, the reason [max_generations_reached] is given
    only when all of them were, and the campaign ends COMPLETED or FAILED.  A
    campaign that was FAILED before stays FAILED. *)
Theorem campaign_completes id actor feedback stop s c : campaign_reachable s -> dget id (campaigns_of s) = Some c ->
  let limit := Z.max 0 (sp_max_generations (default (mg_stop_policy s) stop)) in
  exists r s' c', run_campaign id actor feedback stop s = (Ok r, s') /\ dget id (campaigns_of s') = Some c' /\
    Z.of_nat (length (cr_summaries r)) = cr_generations_run r /\
    Z.of_nat (length (ec_generations c')) = Z.of_nat (length (ec_generations c)) + cr_generations_run r /\
    cr_generations_run r <= limit /\
    (cr_generations_run r < limit -> cr_stop_reason r <> "max_generations_reached") /\
    cr_status r = ec_status c' /\ (ec_status c' = "COMPLETED" \/ ec_status c' = "FAILED") /\
    (ec_status c = "FAILED" -> ec_status c' = "FAILED").
Proof.
  intros Hs Hc. pose proof (run_campaign_spec id actor feedback stop s c (campaign_reachable_ok s Hs) Hc) as Hr. unfold wp in Hr.
  destruct (run_campaign id actor feedback stop s) as [[r|x] s']; [|done].
  destruct Hr as [_ H1' H2' H3' (c' & Hc' & _ & _ & H4 & H5 & H6 & H7 & _)]. by exists r, s', c'.
Qed.

(** C12: in every state the campaign engine reaches, over any calls of it, of the
    orchestrator and of the engines below, the elites of a campaign are no more than
    the policy of the memory allows; each one was earned: the verifier answered a
    valid report about its candidate and the fitness evaluator a passing evaluation,
    whose objectives and constraints it holds; and when the memory removes duplicates
    no two have the same content hash. *)
Theorem elites_are_earned s id : campaign_reachable s ->
  let elites := list_elites id (mg_memory s) in
  Z.of_nat (length elites) <= Zpos (yp_max_elites (im_policy (mg_memory s))) /\
  (forall e, e ∈ elites -> earned e /\ el_campaign_id e = id) /\
  (yp_dedupe_by_content_hash (im_policy (mg_memory s)) = true -> NoDup (map el_isr_content_hash elites)).
Proof.
  intros Hs. destruct (co_memory _ (campaign_reachable_ok s Hs) id) as [K B D]. split_and!; [exact B|exact K|].
  intros Hd. by apply D.
Qed.
End Campaigns.

(** ** With the default parts *)
Section Default.
Context `{Surroundings, Digests, Texts, FloatText}.
Context (client : option GovernanceClient).
#[local] Hint Extern 0 Parts => exact (default_parts client) : typeclass_instances.

Lemma verified_step_keeps isr isr' names : verified_step false isr isr' -> collect_api_names isr = Ok names ->
  exists names', collect_api_names isr' = Ok names' /\ forall x, x ∈ names -> x ∈ names'.
Proof.
  intros (c & p & v & w & w' & <- & <- & Hb & Ev & Hv) Hn.
  apply verification_answer in Ev as (_ & issues & Ei & E). rewrite Hv in E. apply eq_sym, negb_true_iff, (issues_compatible _ _ _ Ei) in E as [_ _ _ Ha].
  destruct Ha as (base & names' & Eb & En & Hsub). rewrite Hn in Eb. injection Eb as <-. exists names'. split; [done|]. by apply Hsub.
Qed.
Lemma verified_steps_keep isr isr' names : rtc (verified_step false) isr isr' -> collect_api_names isr = Ok names ->
  exists names', collect_api_names isr' = Ok names' /\ forall x, x ∈ names -> x ∈ names'.
Proof.
  intros Hr. revert names. induction Hr as [isr|isr isr1 isr' Hs _ IH]; intros names Hn; [by exists names|].
  destruct (verified_step_keeps _ _ _ Hs Hn) as (names1 & H1' & S1). destruct (IH _ H1') as (names2 & H2' & S2).
  exists names2. split; [done|]. auto.
Qed.
(** C10: with the default parts (the ids of new proposals not being in use), a campaign
    that does not allow breaking changes, and whose ISR can be read, never loses an
    API name: whatever mutations its generations try, and however the run ends, the
    ISR it carries forward has every API name of the ISR it started from. *)
Theorem campaign_keeps_apis id actor feedback stop s c r s' names : campaign_reachable s ->
  dget id (or_campaigns (mg_orchestrator s)) = Some c -> ec_allow_breaking_changes c = false ->
  (let policy := default (mg_stop_policy s) stop in
   fresh_run (Z.to_nat (sp_max_generations policy)) id actor feedback policy None 0 s) ->
  collect_api_names (ec_base_isr c) = Ok names -> run_campaign id actor feedback stop s = (Ok r, s') ->
  exists c' names', dget id (or_campaigns (mg_orchestrator s')) = Some c' /\
    collect_api_names (ec_base_isr c') = Ok names' /\ forall x, x ∈ names -> x ∈ names'.
Proof.
  intros Hs Hc Hb Hf Hn E. pose proof (run_campaign_spec id actor feedback stop s c (campaign_reachable_ok s Hs) Hc) as Hr. unfold wp in Hr.
  rewrite E in Hr. destruct Hr as [_ _ _ _ (c' & Hc' & _ & _ & _ & _ & _ & _ & Hsteps)].
  specialize (Hsteps Hf). rewrite Hb in Hsteps. destruct (verified_steps_keep _ _ _ Hsteps Hn) as (names' & Hn' & Hsub).
  by exists c', names'.
Qed.
End Default.

(** ** A sample campaign *)

#[local] Existing Instance compact_digests.
#[local] Existing Instance compact_digest_laws.
#[local] Existing Instance counting_world.
#[local] Existing Instance plain_texts.
#[local] Existing Instance no_numbers.
Definition any_policy : ParetoSelectionPolicy := {|
  po_objectives := []; po_max_selected := 1; po_min_objective_value := fzero; po_epsilon := fzero;
  po_require_constraints := true |}.
Definition shop_campaign : EvolutionCampaignRequest := {|
  cq_name := "c"; cq_description := ""; cq_target_ref := "s"; cq_target_type := APPLICATION_ARCHITECTURE;
  cq_base_isr := shop_isr; cq_feedback_recommendations := []; cq_initial_genome := None;
  cq_max_mutations_per_generation := 1; cq_selection_policy := any_policy; cq_high_impact := false;
  cq_allow_breaking_changes := false; cq_auto_submit_for_approval := true |}.
Definition campaign_start : MultiGenerationCampaignEngine := new_campaign_engine
  (new_orchestrator (new_multi_engine (new_self_engine default_policy world0)) default_refinement_policy)
  (new_memory default_memory_policy) default_stop_policy.
Definition fine_client : option GovernanceClient := Some (static_client "ALLOW" "fine").
Abbreviation fine_parts := (default_parts fine_client).
#[local] Hint Extern 0 Parts => exact fine_parts : typeclass_instances.
Definition campaign_made : MultiGenerationCampaignEngine := (campaign_perform (CC_create shop_campaign "me") campaign_start).2.
Definition the_campaign : string := hd "" (dkeys (or_campaigns (mg_orchestrator campaign_made))).
Lemma made_reachable : @campaign_reachable _ _ fine_parts campaign_made.
Proof. apply cr_call. constructor. Qed.
Lemma made_campaign : match dget the_campaign (or_campaigns (mg_orchestrator campaign_made)) with
  | Some c => ec_allow_breaking_changes c = false /\ collect_api_names (ec_base_isr c) = Ok ["orders"] | None => False end.
Proof. vm_compute. split; reflexivity. Qed.
Lemma made_fresh actor feedback : fresh_turn the_campaign actor feedback campaign_made.
Proof.
  unfold fresh_turn. destruct (run_generation _ _ _ _) as [[g|x] o]; [|exact I].
  assert (E : mc_evaluations (or_multi (mg_orchestrator campaign_made)) = []) by (vm_compute; reflexivity).
  unfold evaluations_of. rewrite E. reflexivity.
Qed.
Definition one_generation : CampaignStopPolicy := {|
  sp_max_generations := 1; sp_require_feasible_candidate := true; sp_min_objective_improvement := fzero;
  sp_stagnation_limit := 0; sp_carry_forward_selected_candidate := true |}.
Lemma made_fresh_run actor : let policy := default (mg_stop_policy campaign_made) (Some one_generation) in
  fresh_run (Z.to_nat (sp_max_generations policy)) the_campaign actor None policy None 0 campaign_made.
Proof.
  assert (E1 : default (mg_stop_policy campaign_made) (Some one_generation) = one_generation) by reflexivity.
  assert (E2 : Z.to_nat (sp_max_generations one_generation) = 1%nat) by reflexivity. cbv zeta. rewrite E1, E2.
  split; [apply made_fresh|]. destruct (run_turn _ _ _ _ _ _ _) as [[[sm r|sm d k]|x] s']; exact I.
Qed.
Lemma campaign_completes_witness : exists c r s' c',
  dget the_campaign (or_campaigns (mg_orchestrator campaign_made)) = Some c /\
  run_campaign the_campaign "me" None None campaign_made = (Ok r, s') /\
  dget the_campaign (or_campaigns (mg_orchestrator s')) = Some c' /\ cr_generations_run r <= 2 /\ cr_status r = ec_status c'.
Proof.
  pose proof made_campaign as Hm. destruct (dget the_campaign (or_campaigns (mg_orchestrator campaign_made))) as [c|] eqn:Ec; [|destruct Hm].
  destruct (@campaign_completes _ _ fine_parts the_campaign "me" None None campaign_made c made_reachable Ec)
    as (r & s' & c' & E & Ec' & _ & _ & Hb & _ & Hst & _).
  exists c, r, s', c'. split_and!; [reflexivity|exact E|exact Ec'|exact Hb|exact Hst].
Defined.
Lemma campaign_keeps_apis_witness : exists c r s' c' names',
  dget the_campaign (or_campaigns (mg_orchestrator campaign_made)) = Some c /\
  run_campaign the_campaign "me" None (Some one_generation) campaign_made = (Ok r, s') /\
  dget the_campaign (or_campaigns (mg_orchestrator s')) = Some c' /\
  collect_api_names (ec_base_isr c') = Ok names' /\ "orders" ∈ names'.
Proof.
  pose proof made_campaign as Hm. destruct (dget the_campaign (or_campaigns (mg_orchestrator campaign_made))) as [c|] eqn:Ec; [|destruct Hm].
  destruct Hm as [Hb Hn].
  destruct (@run_campaign_returns _ _ fine_parts the_campaign "me" None (Some one_generation) campaign_made c
    (@campaign_reachable_ok _ _ fine_parts campaign_made made_reachable) Ec) as (r & s' & E).
  destruct (campaign_keeps_apis fine_client the_campaign "me" None (Some one_generation) campaign_made c r s' ["orders"]
    made_reachable Ec Hb (made_fresh_run "me") Hn E) as (c' & names' & Ec' & En & Hsub).
  exists c, r, s', c', names'. split; [reflexivity|]. split; [exact E|]. split; [exact Ec'|]. split; [exact En|]. apply Hsub. left.
Defined.

(** ** What a campaign leaves open *)

(** Short digests, for running a campaign. *)
Fixpoint text_sum (s : string) : Z := match s with EmptyString => 7 | String c s => (text_sum s * 31 + code c) mod 1009 end.
Definition short_digests : Digests := {|
  sha256_hex t := t; canonical_json v := str_of_int (text_sum (compact_text v)); iso_format := str_of_int |}.
Definition denying_parts : Parts := {|
  part_mutation := @part_mutation _ sample_parts; part_simulator := @part_simulator _ sample_parts;
  part_verifier := @part_verifier _ sample_parts; part_fitness := @part_fitness _ sample_parts;
  part_governance := Some (static_client "DENY" "no") |}.
Definition denied_made : MultiGenerationCampaignEngine :=
  (@campaign_perform _ short_digests denying_parts (CC_create shop_campaign "me") campaign_start).2.
Definition denied_id : string := hd "" (dkeys (or_campaigns (mg_orchestrator denied_made))).
Definition denied_run : MultiGenerationCampaignEngine :=
  (@campaign_perform _ short_digests denying_parts (CC_run denied_id "me" None None) denied_made).2.
(** A candidate governance refused is carried forward all the same: the next
    generation builds on it, and the campaign completes. *)
Lemma rejected_candidate_carried_forward :
  map (fun c => (ec_status c, map ge_status (ec_generations c), ec_base_isr c)) (dvalues (or_campaigns (mg_orchestrator denied_run)))
  = [("COMPLETED", ["REJECTED"; "REJECTED"], [("tag", VStr "genome_targeted_mutator")])].
Proof. vm_compute. reflexivity. Qed.
(** The candidates of its two generations have the same ISR: the memory keeps the first
    as an elite. *)
Lemma denied_elites : match list_elites denied_id (mg_memory denied_run) with [] => false | _ => true end = true.
Proof. vm_compute. reflexivity. Qed.
Lemma denied_reachable : @campaign_reachable _ short_digests denying_parts denied_run.
Proof. do 2 apply cr_call. constructor. Qed.
Lemma elites_are_earned_witness : exists e, e ∈ list_elites denied_id (mg_memory denied_run) /\
  @earned _ short_digests denying_parts e /\ el_campaign_id e = denied_id /\
  Z.of_nat (length (list_elites denied_id (mg_memory denied_run))) <= Zpos (yp_max_elites (im_policy (mg_memory denied_run))).
Proof.
  destruct (@elites_are_earned _ short_digests denying_parts denied_run denied_id denied_reachable) as (Hb & He & _).
  pose proof denied_elites as Hn. destruct (list_elites denied_id (mg_memory denied_run)) as [|e es]; [discriminate Hn|].
  exists e. assert (Hin : e ∈ e :: es) by left. destruct (He e Hin) as [H1 H2].
  split; [exact Hin|]. split; [exact H1|]. split; [exact H2|exact Hb].
Defined.
