(* ===== verification/PromotionSpec.v ===== *)
(** * Promotion control: theorems

    What a safety report says of the evidence; what holds of every promotion request
    after any sequence of calls; the engine with an audit trail against the one
    without; and what a verified trail rules out. *)

From S2P Require Import Prelude PyFloat PyVal PyText PyJson IsrValidation EvoModels SelfModels Promotion.
Open Scope Z_scope.

(** ** Safety interlocks *)

(** Every interlock the policy enables is met. *)
Record interlocks_met (e : EvolutionEvidence) (policy : SafetyInterlockPolicy) : Prop := {
  im_simulation : sp_require_simulation_passed policy = true -> ee_simulation_status e = Some "PASSED";
  im_verification : sp_require_verification_valid policy = true -> ee_verification_valid e = Some true;
  im_fitness : sp_require_fitness_passed policy = true -> ee_fitness_passed e = Some true;
  im_compiler : sp_require_compiler_evidence policy = true -> ee_compiler_passed e = Some true;
  im_feedback : sp_require_feedback_evidence policy = true -> ee_feedback_passed e = Some true;
  im_pareto : sp_require_pareto_selection policy = true -> ee_pareto_selected e = true;
  im_rollback : sp_require_rollback_plan policy = true -> exists k v d, ee_rollback_plan e = Some ((k, v) :: d);
  im_incidents : sp_forbid_critical_incidents policy = true -> ee_critical_incident e = false;
  im_findings : sp_forbid_critical_security_findings policy = true -> ee_critical_security_finding e = false;
  im_complexity c m : ee_complexity e = Some c -> sp_max_complexity policy = Some m -> fltb m c = false;
  im_breaking : ee_public_api_removed e = true ->
    ee_breaking_changes_allowed e = true \/ sp_allow_breaking_changes policy = true;
  im_constraints : sp_fail_on_fitness_constraints policy = true -> Forall (fun c => c.2 = true) (ee_constraints e);
}.

Lemma check_nil b code message : check b code message = [] <-> b = false.
Proof. by destruct b. Qed.
Lemma flag_true o : is_true_flag o = true <-> o = Some true.
Proof. apply bool_decide_eq_true. Qed.
Lemma no_entries_false d : no_entries d = false <-> exists k v d', d = Some ((k, v) :: d').
Proof. destruct d as [[|[k v] d]|]; cbn; split; naive_solver. Qed.
Lemma enabled_false (a b : bool) : a && negb b = false <-> (a = true -> b = true).
Proof. destruct a, b; cbn; naive_solver. Qed.
Lemma forbidden_false (a b : bool) : a && b = false <-> (a = true -> b = false).
Proof. destruct a, b; cbn; naive_solver. Qed.
Lemma constraints_nil cs :
  concat (map (fun c : string * bool => check (negb c.2) ("CONSTRAINT_FAILED:" +:+ c.1) ("Fitness constraint failed: " +:+ c.1)) cs) = []
  <-> Forall (fun c => c.2 = true) cs.
Proof.
  induction cs as [|[k b] cs IH]; cbn; [by split; constructor|]. rewrite Forall_cons, <- IH. destruct b; cbn; naive_solver.
Qed.
Lemma safety_issues_nil e policy : safety_issues e policy = [] <-> interlocks_met e policy.
Proof.
  unfold safety_issues. rewrite !app_nil, !check_nil, !enabled_false, !forbidden_false, !flag_true, no_entries_false, bool_decide_eq_true.
  assert (Hc : over_complexity e policy = false <->
    forall c m, ee_complexity e = Some c -> sp_max_complexity policy = Some m -> fltb m c = false).
  { unfold over_complexity. destruct (ee_complexity e), (sp_max_complexity policy); naive_solver. }
  assert (Hb : (negb (ee_breaking_changes_allowed e || sp_allow_breaking_changes policy) = true -> ee_public_api_removed e = false)
    <-> (ee_public_api_removed e = true -> ee_breaking_changes_allowed e = true \/ sp_allow_breaking_changes policy = true)).
  { destruct (ee_breaking_changes_allowed e), (sp_allow_breaking_changes policy), (ee_public_api_removed e); cbn; naive_solver. }
  assert (Hf : (if sp_fail_on_fitness_constraints policy
      then concat (map (fun c : string * bool => check (negb c.2) ("CONSTRAINT_FAILED:" +:+ c.1) ("Fitness constraint failed: " +:+ c.1)) (ee_constraints e))
      else []) = [] <-> (sp_fail_on_fitness_constraints policy = true -> Forall (fun c => c.2 = true) (ee_constraints e))).
  { destruct (sp_fail_on_fitness_constraints policy); [rewrite constraints_nil|]; naive_solver. }
  rewrite Hc, Hb, Hf. split; [intros (?&?&?&?&?&?&?&?&?&?&?&?); by split|intros []; by split_and!].
Qed.
(** Every issue is an error. *)
Lemma check_errors b code message : with_severity "ERROR" (check b code message) = check b code message.
Proof. by destruct b. Qed.
Lemma with_severity_app s l1 l2 : with_severity s (l1 ++ l2) = with_severity s l1 ++ with_severity s l2.
Proof. apply List.filter_app. Qed.
Lemma constraint_errors cs : with_severity "ERROR"
  (concat (map (fun c : string * bool => check (negb c.2) ("CONSTRAINT_FAILED:" +:+ c.1) ("Fitness constraint failed: " +:+ c.1)) cs))
  = concat (map (fun c : string * bool => check (negb c.2) ("CONSTRAINT_FAILED:" +:+ c.1) ("Fitness constraint failed: " +:+ c.1)) cs).
Proof. induction cs as [|c cs IH]; [done|]. cbn [map concat]. by rewrite with_severity_app, check_errors, IH. Qed.
Lemma safety_issues_errors e policy : with_severity "ERROR" (safety_issues e policy) = safety_issues e policy.
Proof.
  unfold safety_issues. rewrite !with_severity_app, !check_errors. by destruct (sp_fail_on_fitness_constraints policy); rewrite ?constraint_errors.
Qed.

Section Spec.
Context `{Surroundings, Digests, !PromotionParts}.

Lemma evaluate_report e policy w : exists sr w', safety_evaluate e policy w = (Ok sr, w') /\
  sr_issues sr = safety_issues e policy /\ (sr_passed sr = true <-> safety_issues e policy = []) /\
  sr_error_count sr = Z.of_nat (length (safety_issues e policy)).
Proof.
  unfold safety_evaluate, timestamp, now. unfold_monad. do 2 eexists. split; [reflexivity|]. cbn. split; [done|].
  unfold count_severity. rewrite safety_issues_errors. split; [|done]. rewrite bool_decide_eq_true.
  split; [|by intros ->]. destruct (safety_issues e policy); [done|cbn; lia].
Qed.
(** The evaluation of evidence always returns a report, which passes exactly
    when every interlock the policy enables is met; its issues are the failed
    interlocks, all of them errors and all of them counted. *)
Theorem safety_passes_exactly_when_met e policy w : exists sr w', safety_evaluate e policy w = (Ok sr, w') /\
  (sr_passed sr = true <-> interlocks_met e policy) /\
  Forall (fun i => si_severity i = "ERROR") (sr_issues sr) /\ sr_error_count sr = Z.of_nat (length (sr_issues sr)).
Proof.
  destruct (evaluate_report e policy w) as (sr & w' & E & Ei & Hp & Hn). exists sr, w'. rewrite Hp, safety_issues_nil, Ei.
  split_and!; try done. apply Forall_forall. intros i Hi. rewrite <- safety_issues_errors in Hi.
  apply list_elem_of_In, filter_In in Hi as [_ Hi]. by apply bool_decide_eq_true in Hi.
Qed.

(** ** The life cycle of a request *)

Record request_ok (policy : PromotionControlPolicy) (sp : SafetyInterlockPolicy) (r : PromotionRequest) : Prop := {
  ro_safety : cp_require_safety_checks policy = true -> rp_status r <> PR_DRAFT -> rp_status r <> PR_SAFETY_FAILED ->
    interlocks_met (rp_evidence r) sp;
  ro_decision d : rp_governance_decision r = Some d -> rp_status r <> PR_GOVERNANCE_DENIED -> gd_decision d <> DENY;
  ro_pending : rp_status r = PR_GOVERNANCE_PENDING -> cp_auto_submit_governance policy = true ->
    is_Some (rp_governance_decision r);
  ro_approval : is_Some (rp_approval r) -> cp_auto_submit_governance policy = true -> is_Some (rp_governance_decision r);
  ro_cleared : rp_status r ∈ [PR_APPROVED; PR_PROMOTED; PR_ROLLED_BACK] ->
    governance_required policy (rp_environment r) = false \/ is_Some (rp_approval r) \/
    exists d, rp_governance_decision r = Some d /\ gd_decision d = ALLOW /\
      cp_allow_auto_approval_when_governance_allow policy = true;
  ro_promoted : is_Some (rp_promoted_at r) <-> rp_status r ∈ [PR_PROMOTED; PR_ROLLED_BACK];
  ro_rolled : is_Some (rp_rolled_back_at r) <-> rp_status r = PR_ROLLED_BACK;
}.
(** The policies do not change and every request is in order. *)
Record promotions_ok (policy : PromotionControlPolicy) (sp : SafetyInterlockPolicy) (s : PromotionControlEngine) : Prop := {
  ps_policy : pe_policy s = policy;
  ps_safety : pe_safety_policy s = sp;
  ps_keyed k r : dget k (pe_requests s) = Some r -> rp_id r = k;
  ps_each k r : dget k (pe_requests s) = Some r -> request_ok policy sp r;
}.
Context (policy : PromotionControlPolicy) (sp : SafetyInterlockPolicy).
Implicit Types (s : PromotionControlEngine) (r : PromotionRequest).

Lemma updated_request_ok t r : request_ok policy sp r -> request_ok policy sp (set_request_updated t r).
Proof. intros []. by split. Qed.
Lemma world_ok w s : promotions_ok policy sp s -> promotions_ok policy sp (put_pe_world w s).
Proof. intros []. by split. Qed.
Lemma put_request_ok id r s : promotions_ok policy sp s -> rp_id r = id -> request_ok policy sp r ->
  promotions_ok policy sp (put_request id r s).
Proof.
  intros [? ? Hk He] Hid Hr. split; cbn; [done|done|..]; intros k r'; rewrite dget_dset; case_decide; try (by intros [= <-]; subst); eauto.
Qed.
Lemma wp_in_pe_world {A} (m : M World A) (Q : A -> PromotionControlEngine -> Prop) (E : exn -> PromotionControlEngine -> Prop) s :
  (forall a w, m (pe_world s) = (Ok a, w) -> Q a (put_pe_world w s)) -> (forall x w, E x (put_pe_world w s)) ->
  wp (in_pe_world m) Q E s.
Proof. intros HQ HE. apply wp_zoom_any; auto. Qed.
Lemma wp_request_stamp (Q : string -> PromotionControlEngine -> Prop) E s :
  (forall t w, Q t (put_pe_world w s)) -> wp request_stamp Q E s.
Proof. intros HQ. unfold request_stamp. apply wp_zoom_any; [auto|]. intros e w. unfold timestamp. by unfold_monad. Qed.
Lemma wp_get_request id (Q : PromotionRequest -> PromotionControlEngine -> Prop) (E : exn -> PromotionControlEngine -> Prop) s :
  (forall r, dget id (pe_requests s) = Some r -> Q r s) ->
  (dget id (pe_requests s) = None -> forall m, E (PromotionError m) s) -> wp (get_request id) Q E s.
Proof. intros HQ HE. unfold get_request. do 2 wp_step. wp_step; wp_step; auto. Qed.
Lemma wp_update_request id f (Q : unit -> PromotionControlEngine -> Prop) E s r :
  dget id (pe_requests s) = Some r -> Q tt (put_request id (f r) s) -> wp (update_request id f) Q E s.
Proof. intros Hr HQ. unfold update_request. wp_step. by rewrite Hr. Qed.

(** The request found under an id after a call, with the invariant. *)
Definition stands (id : string) (r : PromotionRequest) s : Prop :=
  promotions_ok policy sp s /\ dget id (pe_requests s) = Some r.
Lemma put_stands id r s : promotions_ok policy sp s -> rp_id r = id -> request_ok policy sp r -> stands id r (put_request id r s).
Proof. intros. split; [by apply put_request_ok|]. cbn. apply dget_dset_eq. Qed.
Lemma wp_touch_request id r s E : stands id r s ->
  wp (touch_request id) (fun _ s' => exists t, stands id (set_request_updated t r) s') E s.
Proof.
  intros [Hs Hr]. unfold touch_request. apply wp_bind, wp_request_stamp. intros t w.
  eapply wp_update_request; [exact Hr|]. exists t. apply put_stands; [by apply world_ok|exact (ps_keyed _ _ _ Hs _ _ Hr)|].
  by apply updated_request_ok, (ps_each _ _ _ Hs id).
Qed.
Lemma wp_record_history id event_type actor r s E : stands id r s ->
  wp (record_history id event_type actor) (fun _ => stands id r) E s.
Proof.
  intros [Hs Hr]. unfold record_history. apply wp_bind, wp_get_request; [|by rewrite Hr]. intros r' _. do 2 wp_step.
  wp_step; [|by wp_step]. apply wp_bind, wp_request_stamp. intros t w. wp_step. split; [|done]. destruct Hs. by split.
Qed.
Lemma wp_conclude_request id event_type actor r s E : stands id r s ->
  wp (conclude id event_type actor) (fun r' s' => (exists t, r' = set_request_updated t r) /\ stands id r' s') E s.
Proof.
  intros Hs. unfold conclude. wp_step. eapply wp_mono; [by apply (wp_touch_request id r s E)| |done]. intros [] s1 [t H1'].
  wp_step. eapply wp_mono; [by apply (wp_record_history id event_type actor (set_request_updated t r) s1 E)| |done]. intros [] s2 H2'.
  apply wp_get_request; [|by destruct H2' as [_ ->]]. intros r' Hr'. destruct H2' as [? Hd]. rewrite Hd in Hr'. injection Hr' as <-.
  split; [by exists t|done].
Qed.
Definition stays {A} (m : M PromotionControlEngine A) s : Prop :=
  wp m (fun _ => promotions_ok policy sp) (fun _ => promotions_ok policy sp) s.
(** Assign in order and conclude. *)
Lemma assign_stays id f event_type actor r s : stands id r s -> rp_id (f r) = rp_id r -> request_ok policy sp (f r) ->
  stays (_ ← update_request id f; conclude id event_type actor) s.
Proof.
  intros [Hs Hr] Hid Hf. unfold stays. wp_step. eapply wp_update_request; [exact Hr|].
  eapply wp_mono; [apply (wp_conclude_request id event_type actor (f r) _ (fun _ => promotions_ok policy sp)), put_stands| |].
  - done.
  - rewrite Hid. by apply (ps_keyed _ _ _ Hs).
  - done.
  - by intros r' s' [_ [? _]].
  - done.
Qed.
Lemma guarded_stays {A} id (st : PromotionRequestStatus) msg (k : PromotionRequest -> M PromotionControlEngine A) s :
  promotions_ok policy sp s -> (forall r, stands id r s -> rp_status r = st -> request_ok policy sp r -> stays (k r) s) ->
  stays (r ← get_request id; _ ← when (negb (bool_decide (rp_status r = st))) (raise (PromotionError msg)); k r) s.
Proof.
  intros Hs Hk. apply wp_bind, wp_get_request; [|done]. intros r Hr. wp_step. apply wp_when; [by intros _|].
  intros Hst%negb_false_iff%bool_decide_eq_true. apply Hk; [done|done|]. by apply (ps_each _ _ _ Hs id).
Qed.

(** Statuses that are before a promotion. *)
Lemma not_promoted r : request_ok policy sp r -> (rp_status r ∉ [PR_PROMOTED; PR_ROLLED_BACK]) ->
  rp_promoted_at r = None /\ rp_rolled_back_at r = None.
Proof.
  intros Hr Hst. split; apply eq_None_not_Some; intros Hs; apply Hst.
  - by apply (ro_promoted _ _ _ Hr).
  - apply (ro_rolled _ _ _ Hr) in Hs. rewrite Hs. do 2 constructor.
Qed.
Ltac statuses :=
  first
    [ apply (bool_decide_unpack _); vm_compute; exact I
    | intros; match goal with
      | Hin : _ ∈ _ :: _ |- _ => exfalso; apply (bool_decide_eq_true_2 _) in Hin; vm_compute in Hin; discriminate Hin
      end ].
Lemma no_promotion r (Q : Prop) : rp_promoted_at r = None -> ~ Q -> (is_Some (rp_promoted_at r) <-> Q).
Proof. intros -> HQ. split; [by intros []|done]. Qed.
Lemma no_rollback r (Q : Prop) : rp_rolled_back_at r = None -> ~ Q -> (is_Some (rp_rolled_back_at r) <-> Q).
Proof. intros -> HQ. split; [by intros []|done]. Qed.

Lemma submit_stays id actor s : promotions_ok policy sp s -> stays (submit_governance id actor) s.
Proof.
  intros Hs. apply guarded_stays; [done|]. intros r Hr Hst Hok. unfold stays. do 2 wp_step.
  apply wp_bind, wp_in_pe_world; [|intros; by apply world_ok]. intros d w _.
  assert (Hr' : stands id r (put_pe_world w s)) by (destruct Hr as [Ho Hd]; split; [by apply world_ok|exact Hd]).
  apply (assign_stays id _ _ _ r); [exact Hr'|unfold decided; destruct (gd_decision d); done|].
  destruct (not_promoted r Hok) as [Hp Hb]; [rewrite Hst; statuses|]. rewrite (ps_policy _ _ _ Hs).
  assert (Hsafe := ro_safety _ _ _ Hok). rewrite Hst in Hsafe. unfold decided.
  destruct (gd_decision d) eqn:Ed; [destruct (cp_allow_auto_approval_when_governance_allow policy) eqn:Ea|..];
    (split; cbn; [intros ? _ _; by apply Hsafe|intros d' [= <-] ?; congruence|done|by eexists|try statuses
                 |apply no_promotion; [done|statuses]|by apply no_rollback]).
  intros _. right. right. by exists d.
Qed.
Lemma approve_stays id approver comments s : promotions_ok policy sp s -> stays (approve id approver comments) s.
Proof.
  intros Hs. apply guarded_stays; [done|]. intros r Hr Hst Hok. unfold stays. apply wp_bind, wp_request_stamp. intros t w.
  assert (Hr' : stands id r (put_pe_world w s)) by (destruct Hr as [Ho Hd]; split; [by apply world_ok|exact Hd]).
  apply (assign_stays id _ _ _ r); [exact Hr'|done|].
  destruct (not_promoted r Hok) as [Hp Hb]; [rewrite Hst; statuses|]. destruct Hok as [O1 O2 O3 O4 O5 O6 O7]. rewrite Hst in *.
  split; cbn; [by intros; apply O1|by intros; eapply O2|done|by intros; apply O3|by right; left; eexists
              |apply no_promotion; [done|statuses]|by apply no_rollback].
Qed.
Lemma promote_stays id actor s : promotions_ok policy sp s -> stays (promote id actor) s.
Proof.
  intros Hs. apply guarded_stays; [done|]. intros r Hr Hst Hok. unfold stays. apply wp_bind, wp_request_stamp. intros t w.
  assert (Hr' : stands id r (put_pe_world w s)) by (destruct Hr as [Ho Hd]; split; [by apply world_ok|exact Hd]).
  apply (assign_stays id _ _ _ r); [exact Hr'|done|].
  destruct (not_promoted r Hok) as [Hp Hb]; [rewrite Hst; statuses|]. destruct Hok as [O1 O2 O3 O4 O5 O6 O7]. rewrite Hst in *.
  split; cbn; [by intros; apply O1|by intros; eapply O2|done|done|intros _; apply O5; statuses
              |split; [intros _; statuses|by eexists]|by apply no_rollback].
Qed.
Lemma rollback_stays id actor reason s : promotions_ok policy sp s -> stays (rollback id actor reason) s.
Proof.
  intros Hs. apply guarded_stays; [done|]. intros r Hr Hst Hok. unfold stays. apply wp_bind, wp_request_stamp. intros t w.
  assert (Hr' : stands id r (put_pe_world w s)) by (destruct Hr as [Ho Hd]; split; [by apply world_ok|exact Hd]).
  apply (assign_stays id _ _ _ r); [exact Hr'|done|]. destruct Hok as [O1 O2 O3 O4 O5 O6 O7]. rewrite Hst in *.
  split; cbn; [by intros; apply O1|by intros; eapply O2|done|done|intros _; apply O5; statuses| |split; [done|by eexists]].
  split; [intros _; statuses|]. intros _. apply O6. statuses.
Qed.

(** A request that governance and approvers have not seen. *)
Record unreviewed r : Prop := {
  ur_decision : rp_governance_decision r = None;
  ur_approval : rp_approval r = None;
  ur_promoted : rp_promoted_at r = None;
  ur_rolled : rp_rolled_back_at r = None;
}.
Definition passed_checks r : Prop := cp_require_safety_checks policy = true -> interlocks_met (rp_evidence r) sp.
Lemma unreviewed_ok st e r : unreviewed r ->
  st = PR_DRAFT \/ st = PR_SAFETY_FAILED \/ passed_checks r /\
    (st = PR_SAFETY_CHECKS_PASSED \/ (st = PR_GOVERNANCE_PENDING /\ cp_auto_submit_governance policy = false) \/
     (st = PR_APPROVED /\ governance_required policy (rp_environment r) = false)) ->
  request_ok policy sp (set_request_status st e r).
Proof.
  intros [U2 U3 U4 U5] Hst.
  assert (Hn : (st ∉ [PR_PROMOTED; PR_ROLLED_BACK]) /\ st <> PR_ROLLED_BACK).
  { destruct Hst as [->|[->|[_ [->|[[-> _]|[-> _]]]]]]; split; statuses || done. }
  destruct Hn as [Hn1 Hn2].
  split; cbn; [ |by rewrite U2|intros -> Ha|by rewrite U3; intros []| |by apply no_promotion|by apply no_rollback].
  - intros Hc ? ?. destruct Hst as [?|[?|[Hp _]]]; [done..|by apply Hp].
  - destruct Hst as [?|[?|[_ [?|[[_ ?]|[? _]]]]]]; congruence.
  - destruct Hst as [->|[->|[_ [->|[[-> _]|[-> He]]]]]]; [statuses..|]. by left.
Qed.
Lemma after_safety_stays id environment actor r s : stands id r s -> unreviewed r -> passed_checks r -> rp_environment r = environment ->
  stays (after_safety id environment actor) s.
Proof.
  intros [Hs Hr] Hu Hc He. unfold stays, after_safety. wp_step. eapply wp_update_request; [exact Hr|].
  set (r1 := set_request_status PR_SAFETY_CHECKS_PASSED (rp_error r) r).
  assert (Hu1 : unreviewed r1) by (by destruct Hu).
  assert (H1' : stands id r1 (put_request id r1 s)).
  { apply put_stands; [done|exact (ps_keyed _ _ _ Hs _ _ Hr)|]. apply unreviewed_ok; auto 10. }
  wp_step. eapply wp_mono; [apply (wp_touch_request id r1 _ (fun _ => promotions_ok policy sp) H1')|intros [] s2 [t Hs2]|done].
  do 2 wp_step. rewrite (ps_policy _ _ _ (proj1 Hs2)). set (r2 := set_request_updated t r1) in *.
  assert (Hu2 : unreviewed r2) by (by destruct Hu1).
  assert (Hc2 : passed_checks r2) by exact Hc.
  destruct (governance_required policy environment) eqn:Hg; [destruct (cp_auto_submit_governance policy) eqn:Ha|].
  - by apply submit_stays, Hs2.
  - apply (assign_stays id _ _ _ r2); [done|done|]. apply unreviewed_ok; auto 10.
  - apply (assign_stays id _ _ _ r2); [done|done|]. apply unreviewed_ok; [done|]. do 2 right. split; [done|].
    right. right. split; [done|]. cbn. by rewrite He.
Qed.
Lemma gather_stays proposal_id candidate_id evidence s : promotions_ok policy sp s -> stays (gather proposal_id candidate_id evidence) s.
Proof.
  intros Hs. unfold stays, gather. destruct evidence; [by wp_step|]. destruct part_collector; [|by wp_step].
  apply wp_in_pe_world; intros; by apply world_ok.
Qed.
Lemma create_stays proposal_id candidate_id environment actor evidence s : promotions_ok policy sp s ->
  stays (create_promotion_request proposal_id candidate_id environment actor evidence) s.
Proof.
  intros Hs. unfold stays, create_promotion_request. wp_step. eapply wp_mono; [by apply gather_stays| |done].
  intros e s1 Hs1. apply wp_bind, wp_request_stamp. intros t w. cbv zeta. do 2 wp_step.
  set (id := deterministic_id _ _). set (r := new_request id proposal_id candidate_id environment actor e t).
  assert (Hu : unreviewed r) by done.
  assert (Hr : stands id r (put_request id r (put_pe_world w s1))).
  { apply put_stands; [by apply world_ok|done|]. apply (unreviewed_ok PR_DRAFT (rp_error r) r); auto. }
  do 4 wp_step. rewrite (ps_policy _ _ _ (proj1 Hr)), (ps_safety _ _ _ (proj1 Hr)).
  destruct (cp_require_safety_checks policy) eqn:Hreq; [|apply (after_safety_stays id _ _ r); [done|done| |done]; intros ?; congruence].
  set (s2 := put_request id r _) in *. wp_step. apply wp_in_pe_world; [|intros; apply world_ok, Hr]. intros sr w' Esr.
  assert (Hr2 : stands id r (put_pe_world w' s2)) by (destruct Hr; split; [by apply world_ok|done]).
  set (r2 := set_request_reviews (Some sr) (rp_governance_decision r) (rp_approval r) r).
  assert (Hu2 : unreviewed r2) by done.
  assert (Hr3 : stands id r2 (put_request id r2 (put_pe_world w' s2))).
  { apply put_stands; [apply Hr2|done|]. apply (unreviewed_ok PR_DRAFT (rp_error r2) r2); auto. }
  wp_step. eapply wp_update_request; [exact (proj2 Hr2)|]. fold r2.
  destruct (sr_passed sr) eqn:Hp; cbn [negb].
  - apply (after_safety_stays id _ _ r2); [done|done| |done]. intros _. apply safety_issues_nil.
    destruct (evaluate_report e sp (pe_world s2)) as (sr' & w2 & E & _ & Hpass & _).
    rewrite E in Esr. injection Esr as -> _. by apply Hpass.
  - apply (assign_stays id _ _ _ r2); [done|done|]. apply unreviewed_ok; auto 10.
Qed.

End Spec.

(** ** Sequences of calls *)

Inductive promo_call : Set :=
| PC_create (proposal_id candidate_id environment actor_id : string) (evidence : option EvolutionEvidence)
| PC_submit (request_id actor_id : string)
| PC_approve (request_id approver_id comments : string)
| PC_promote (request_id actor_id : string)
| PC_rollback (request_id actor_id reason : string).

Section Calls.
Context `{Surroundings, Digests, !PromotionParts}.

Definition promo_perform (c : promo_call) : M PromotionControlEngine PromotionRequest :=
  match c with
  | PC_create proposal candidate environment actor evidence => create_promotion_request proposal candidate environment actor evidence
  | PC_submit id actor => submit_governance id actor
  | PC_approve id approver comments => approve id approver comments
  | PC_promote id actor => promote id actor
  | PC_rollback id actor reason => rollback id actor reason
  end.
Inductive promo_reachable (policy : PromotionControlPolicy) (sp : SafetyInterlockPolicy) : PromotionControlEngine -> Prop :=
| pr_new h w : promo_reachable policy sp (new_promotion_engine policy sp h w)
| pr_call c s : promo_reachable policy sp s -> promo_reachable policy sp (promo_perform c s).2.
Lemma stays_state policy sp {A} (m : M PromotionControlEngine A) s : stays policy sp m s -> promotions_ok policy sp (m s).2.
Proof. unfold stays, wp. by destruct (m s) as [[a|x] s']. Qed.
Lemma promo_reachable_ok policy sp s : promo_reachable policy sp s -> promotions_ok policy sp s.
Proof.
  induction 1 as [h w|c s _ IH]; [by split|]. apply stays_state. destruct c;
    [by apply create_stays|by apply submit_stays|by apply approve_stays|by apply promote_stays|by apply rollback_stays].
Qed.

(** C6: after any sequence of calls, a request that is approved, promoted or rolled
    back met every safety interlock (where the policy requires the checks), was never
    denied by governance, and in an environment that requires governance has an
    approval or was allowed by it; with automatic submission an approval was given on
    a decision.  A request has a promotion time exactly when it was promoted and a
    rollback time exactly when it was rolled back. *)
Theorem promoted_requests_are_cleared policy sp s k r : promo_reachable policy sp s -> dget k (pe_requests s) = Some r ->
  rp_status r ∈ [PR_APPROVED; PR_PROMOTED; PR_ROLLED_BACK] ->
  (cp_require_safety_checks policy = true -> interlocks_met (rp_evidence r) sp) /\
  (forall d, rp_governance_decision r = Some d -> gd_decision d <> DENY) /\
  (governance_required policy (rp_environment r) = false \/ is_Some (rp_approval r) \/
   exists d, rp_governance_decision r = Some d /\ gd_decision d = ALLOW) /\
  (is_Some (rp_approval r) -> cp_auto_submit_governance policy = true -> is_Some (rp_governance_decision r)) /\
  (is_Some (rp_promoted_at r) <-> rp_status r <> PR_APPROVED) /\ (is_Some (rp_rolled_back_at r) <-> rp_status r = PR_ROLLED_BACK).
Proof.
  intros Hs%promo_reachable_ok Hr Hst. destruct (ps_each _ _ _ Hs _ _ Hr) as [O1 O2 _ O4 O5 O6 O7].
  assert (Hcases : rp_status r = PR_APPROVED \/ rp_status r = PR_PROMOTED \/ rp_status r = PR_ROLLED_BACK)
    by (rewrite !elem_of_cons, elem_of_nil in Hst; tauto).
  split_and!; [intros; apply O1; destruct Hcases as [?|[?|?]]; congruence|intros d Hd; apply O2; [done|destruct Hcases as [?|[?|?]]; congruence]
              | |done| |done].
  - destruct (O5 Hst) as [?|[?|(d & ? & ? & _)]]; eauto.
  - rewrite O6. destruct Hcases as [->|[->| ->]]; split; try done; [intros Hin|intros _; left|intros _; right; left].
    exfalso. rewrite !elem_of_cons, elem_of_nil in Hin. by destruct Hin as [?|[?|?]].
Qed.

(** ** The audited engine *)

Definition audited_perform (c : promo_call) : M AuditedPromotionEngine PromotionRequest :=
  match c with
  | PC_create proposal candidate environment actor evidence => audited_create_promotion_request proposal candidate environment actor evidence
  | PC_submit id actor => audited_submit_governance id actor
  | PC_approve id approver comments => audited_approve id approver comments
  | PC_promote id actor => audited_promote id actor
  | PC_rollback id actor reason => audited_rollback id actor reason
  end.
(** What is recorded of a call: under which id, and the content. *)
Definition call_actor (c : promo_call) : string :=
  match c with
  | PC_create _ _ _ actor _ | PC_submit _ actor | PC_approve _ actor _ | PC_promote _ actor | PC_rollback _ actor _ => actor
  end.
Definition entry (c : promo_call) (result : res PromotionRequest) : string * string * pydict :=
  match result with
  | Ok r => (rp_id r, "PROMOTION_" +:+ request_status_value (rp_status r), request_state_details r)
  | Raise e =>
      let failed id operation more := (id, "PROMOTION_OPERATION_FAILED", failure_details operation more e) in
      match c with
      | PC_create proposal candidate _ _ _ =>
          failed "unknown" "create_promotion_request" [("proposal_id", VStr proposal); ("candidate_id", VStr candidate)]
      | PC_submit id _ => failed id "submit_governance" []
      | PC_approve id _ _ => failed id "approve" []
      | PC_promote id _ => failed id "promote" []
      | PC_rollback id _ _ => failed id "rollback" []
      end
  end.
Lemma audited_run under operation actor more m s :
  exists w t, audited under operation actor more m s =
    ((m (au_inner s)).1,
     {| au_inner := put_pe_world w (m (au_inner s)).2;
        au_trail := match (m (au_inner s)).1 with
                    | Ok r => record_audit (rp_id r) ("PROMOTION_" +:+ request_status_value (rp_status r)) actor (request_state_details r) t (au_trail s)
                    | Raise e => record_audit under "PROMOTION_OPERATION_FAILED" actor (failure_details operation more e) t (au_trail s)
                    end |}).
Proof.
  unfold audited, record_request_state, audit, on_inner, request_stamp, in_pe_world, timestamp, now, try_catch. unfold_monad.
  destruct (m (au_inner s)) as [[r|e] i]; cbn; do 2 eexists; reflexivity.
Qed.
(** C7: the audited engine answers, raises and changes its requests exactly as the
    engine it wraps, and each call, whether it returns or raises, appends exactly one
    event to the trail of one request. *)
Theorem audited_engine_refines c s : let '(result, inner) := promo_perform c (au_inner s) in
  let '(id, event_type, details) := entry c result in
  exists w t, audited_perform c s =
    (result, {| au_inner := put_pe_world w inner; au_trail := record_audit id event_type (call_actor c) details t (au_trail s) |}) /\
  let trail := record_audit id event_type (call_actor c) details t (au_trail s) in
  list_audit_events id trail
  = list_audit_events id (au_trail s) ++ [audit_event id event_type (call_actor c) details t (last_hash id (au_trail s))] /\
  (forall other, other <> id -> list_audit_events other trail = list_audit_events other (au_trail s)).
Proof.
  destruct (promo_perform c (au_inner s)) as [result inner] eqn:E. destruct (entry c result) as [[id event_type] details] eqn:Ee.
  assert (Hrun : exists w t, audited_perform c s =
    (result, {| au_inner := put_pe_world w inner; au_trail := record_audit id event_type (call_actor c) details t (au_trail s) |})).
  { destruct c; cbn [audited_perform promo_perform call_actor] in *;
      unfold audited_create_promotion_request, audited_submit_governance, audited_approve, audited_promote, audited_rollback, audited_operation;
      match goal with |- context [audited ?u ?o ?a ?m ?k s] => destruct (audited_run u o a m k s) as (w & t & Hrun) end;
      exists w, t; rewrite Hrun, E; cbn [fst snd]; destruct result; cbn in Ee; by simplify_eq. }
  destruct Hrun as (w & t & Hrun). exists w, t. split; [exact Hrun|]. unfold list_audit_events, dget_or, record_audit. cbn.
  rewrite dget_dset_eq. split; [done|]. intros other Hne. by rewrite dget_dset_ne.
Qed.
End Calls.

(** ** The trail *)

Section Trail.
Context `{Surroundings, Digests}.

(** The hash a chain ends with. *)
Definition final (previous : string) (events : list PromotionAuditEvent) : string :=
  match last events with Some e => ae_event_hash e | None => previous end.
Lemma final_snoc p events e : final p (events ++ [e]) = ae_event_hash e.
Proof. unfold final. by rewrite last_snoc. Qed.
Lemma final_cons p e events : final p (e :: events) = final (ae_event_hash e) events.
Proof. destruct events as [|x events _] using rev_ind; [done|]. by rewrite app_comm_cons, !final_snoc. Qed.
Lemma first_break_app p events e : first_break p events = None ->
  ae_previous_event_hash e = final p events -> ae_event_hash e = audit_hash e -> first_break p (events ++ [e]) = None.
Proof.
  revert p. induction events as [|e0 events IH]; intros p; cbn [first_break app].
  - intros _ Hp Hh. cbn in Hp. rewrite !bool_decide_eq_false_2 by (intros Hn; apply Hn; congruence). done.
  - repeat case_bool_decide; try done. rewrite final_cons. apply IH.
Qed.
(** Every chain of a trail is intact and ends with the hash kept for it. *)
Definition trail_ok (tr : PromotionAuditTrail) : Prop := forall id,
  first_break "genesis" (list_audit_events id tr) = None /\ last_hash id tr = final "genesis" (list_audit_events id tr).
Lemma record_audit_ok id event_type actor details t tr : trail_ok tr -> trail_ok (record_audit id event_type actor details t tr).
Proof.
  intros Htr id'. unfold record_audit, list_audit_events, last_hash, dget_or. cbn. rewrite !dget_dset.
  destruct (decide (id' = id)) as [->|]; [|apply Htr]. destruct (Htr id) as [Hb Hl]. rewrite final_snoc. split; [|done].
  by apply first_break_app.
Qed.
(** A verified chain is determined by the hash it ends with. *)
Lemma intact_cons p e events : first_break p (e :: events) = None ->
  ae_previous_event_hash e = p /\ ae_event_hash e = audit_hash e /\ first_break (ae_event_hash e) events = None.
Proof. cbn. do 2 (case_bool_decide; [done|]). intros. by split_and!. Qed.
Lemma intact_snoc p events e : first_break p (events ++ [e]) = None ->
  first_break p events = None /\ ae_previous_event_hash e = final p events /\ ae_event_hash e = audit_hash e.
Proof.
  revert p. induction events as [|e0 events IH]; intros p.
  - intros (? & ? & ?)%intact_cons. done.
  - intros (Hp & Hh & Hb)%intact_cons. apply IH in Hb as (Hb & Hf & He). split_and!; [|by rewrite final_cons|done].
    cbn. by rewrite !bool_decide_eq_false_2 by (intros Hn; by apply Hn).
Qed.
(** The same event: equal but for the order of the keys in its details, which no JSON
    reader sees. *)
Record same_event (e1 e2 : PromotionAuditEvent) : Prop := {
  sv_id : ae_id e1 = ae_id e2;
  sv_request : ae_promotion_request_id e1 = ae_promotion_request_id e2;
  sv_type : ae_event_type e1 = ae_event_type e2;
  sv_actor : ae_actor_id e1 = ae_actor_id e2;
  sv_details : sort_keys (VDict (ae_details e1)) = sort_keys (VDict (ae_details e2));
  sv_time : ae_timestamp e1 = ae_timestamp e2;
  sv_previous : ae_previous_event_hash e1 = ae_previous_event_hash e2;
  sv_hash : ae_event_hash e1 = ae_event_hash e2;
}.
Definition content_of (e : PromotionAuditEvent) : pyval :=
  VDict (audit_content (ae_id e) (ae_promotion_request_id e) (ae_event_type e) (ae_actor_id e) (ae_details e)
           (ae_timestamp e) (ae_previous_event_hash e)).
Lemma same_content e1 e2 : sort_keys (content_of e1) = sort_keys (content_of e2) -> ae_event_hash e1 = ae_event_hash e2 ->
  same_event e1 e2.
Proof.
  destruct e1 as [i1 r1 y1 a1 d1 t1 p1 h1], e2 as [i2 r2 y2 a2 d2 t2 p2 h2]. unfold content_of. cbn [ae_id ae_promotion_request_id
    ae_event_type ae_actor_id ae_details ae_timestamp ae_previous_event_hash ae_event_hash].
  intros E Eh. set (v1 := sort_keys (VDict d1)). set (v2 := sort_keys (VDict d2)).
  assert (E' : [VStr a1; v1; VStr i1; VStr y1; VStr p1; VStr r1; VStr t1] = [VStr a2; v2; VStr i2; VStr y2; VStr p2; VStr r2; VStr t2]).
  { apply (f_equal (fun v => match v with VDict d => map snd d | _ => [] end)) in E. exact E. }
  injection E' as -> Ev -> -> -> -> ->. split; first [reflexivity|exact (f_equal VDict Ev)|exact Eh].
Qed.
(** Two chains that verify and end with the same hash, the digest having no collision
    among their events. *)
Definition collision_free (xs ys : list PromotionAuditEvent) : Prop :=
  (forall x y, x ∈ xs -> y ∈ ys -> audit_hash x = audit_hash y -> sort_keys (content_of x) = sort_keys (content_of y)) /\
  (forall x, x ∈ xs \/ x ∈ ys -> audit_hash x <> "genesis").
Lemma intact_determined xs ys : collision_free xs ys -> first_break "genesis" xs = None -> first_break "genesis" ys = None ->
  final "genesis" xs = final "genesis" ys -> Forall2 same_event xs ys.
Proof.
  revert ys. induction xs as [|x xs IH] using rev_ind; intros ys [Hcol Hgen] Hx Hy E.
  - destruct ys as [|y ys _] using rev_ind; [done|]. apply intact_snoc in Hy as (_ & _ & Hy). rewrite final_snoc in E. cbn in E.
    destruct (Hgen y); [right; set_solver|congruence].
  - apply intact_snoc in Hx as (Hx & Px & Ex). destruct ys as [|y ys _] using rev_ind.
    + rewrite final_snoc in E. cbn in E. destruct (Hgen x); [left; set_solver|congruence].
    + apply intact_snoc in Hy as (Hy & Py & Ey). rewrite !final_snoc in E.
      assert (Hs : same_event x y) by (apply same_content; [apply Hcol; [set_solver..|congruence]|done]).
      apply Forall2_app; [|by constructor]. pose proof (sv_previous _ _ Hs) as Hp.
      apply IH; [split|done|done|congruence]; [intros; apply Hcol; set_solver|intros; apply Hgen; set_solver].
Qed.
End Trail.

Section AuditedCalls.
Context `{Surroundings, Digests, !PromotionParts}.

Inductive audited_reachable : AuditedPromotionEngine -> Prop :=
| ar_new policy sp h w : audited_reachable {| au_inner := new_promotion_engine policy sp h w; au_trail := empty_trail |}
| ar_call c s : audited_reachable s -> audited_reachable (audited_perform c s).2.
Lemma audited_trail_ok s : audited_reachable s -> trail_ok (au_trail s).
Proof.
  induction 1 as [policy sp h w|c s _ IH]; [done|].
  assert (Hrun : forall u o a m k, trail_ok (au_trail (audited u o a m k s).2)).
  { intros u o a m k. destruct (audited_run u o a m k s) as (w & t & ->). cbn. case_match; by apply record_audit_ok. }
  destruct c; apply Hrun.
Qed.
(** C8: the trail of every request verifies after any sequence of audited calls, with
    as many events as were recorded; and a list of events that verifies and ends with
    the hash the trail keeps holds the events of the trail, one by one and in order,
    equal but for the order of the keys in their details, provided the digest has no
    collision among the events of the two and is never the word "genesis": no event
    was changed, moved, added or dropped. *)
Theorem audit_trail_is_tamper_evident s id : audited_reachable s ->
  verify_audit id (au_trail s) = {| av_promotion_request_id := id; av_valid := true;
    av_event_count := Z.of_nat (length (list_audit_events id (au_trail s))); av_first_invalid_event_id := None |} /\
  forall events, collision_free events (list_audit_events id (au_trail s)) ->
    first_break "genesis" events = None -> final "genesis" events = last_hash id (au_trail s) ->
    Forall2 same_event events (list_audit_events id (au_trail s)).
Proof.
  intros Hs%audited_trail_ok. destruct (Hs id) as [Hb Hl]. split.
  - unfold verify_audit. by rewrite Hb.
  - intros events Hc He Hf. apply intact_determined; [done|done|done|congruence].
Qed.
End AuditedCalls.

(** ** Examples *)

#[local] Existing Instance compact_digests.
#[local] Existing Instance compact_digest_laws.
#[local] Existing Instance counting_world.
#[local] Instance allowing : PromotionParts := {|
  part_gateway := Some (StaticGovernanceGateway "ALLOW" "Allowed."); part_collector := None |}.
Definition good_evidence : EvolutionEvidence := {|
  ee_proposal_id := "p1"; ee_candidate_id := "c1"; ee_isr_content_hash := "h"; ee_simulation_status := Some "PASSED";
  ee_verification_valid := Some true; ee_fitness_passed := Some true; ee_objectives := []; ee_constraints := [("safe", true)];
  ee_compiler_passed := None; ee_feedback_passed := None; ee_critical_incident := false; ee_critical_security_finding := false;
  ee_pareto_selected := true; ee_complexity := Some (of_Z 7); ee_public_api_removed := false;
  ee_breaking_changes_allowed := false; ee_rollback_plan := Some [("automated", VBool false)] |}.
Definition fresh_engine (policy : PromotionControlPolicy) : PromotionControlEngine :=
  new_promotion_engine policy default_safety_policy None world0.
Definition one_request (s : PromotionControlEngine) : string := hd "" (dkeys (pe_requests s)).
Definition create_call : promo_call := PC_create "p1" "c1" "production" "me" (Some good_evidence).
Definition created_state : PromotionControlEngine := (promo_perform create_call (fresh_engine default_control_policy)).2.
Definition promoted_state : PromotionControlEngine := (promo_perform (PC_promote (one_request created_state) "me") created_state).2.

(** Without automatic submission a request waits for governance in a status that
    submission refuses, and any approver can approve it without a decision. *)
Definition manual_policy : PromotionControlPolicy := {|
  cp_require_safety_checks := true; cp_auto_submit_governance := false;
  cp_governance_required_environments := ["production"]; cp_allow_auto_approval_when_governance_allow := true;
  cp_fail_closed_if_governance_unavailable := true |}.
Definition waiting_state : PromotionControlEngine := (promo_perform create_call (fresh_engine manual_policy)).2.
Lemma manual_submission_is_refused :
  (promo_perform (PC_submit (one_request waiting_state) "me") waiting_state).1
  = Raise (PromotionError "Governance submission is only allowed after safety checks pass.").
Proof. vm_compute. reflexivity. Qed.
Lemma approved_without_governance :
  option_map (fun r => (rp_status r, rp_governance_decision r))
    (dget (one_request waiting_state) (pe_requests (promo_perform (PC_approve (one_request waiting_state) "anyone" "") waiting_state).2))
  = Some (PR_APPROVED, None).
Proof. vm_compute. reflexivity. Qed.
(** Verification alone does not notice that the last events of a trail are gone. *)
Lemma truncation_verifies xs ys : first_break "genesis" (xs ++ ys) = None -> first_break "genesis" xs = None.
Proof. induction ys as [|y ys IH] using rev_ind; [by rewrite app_nil_r|]. rewrite app_assoc. by intros (? & _)%intact_snoc; auto. Qed.

(** ** Witnesses *)

Lemma promoted_state_reachable : promo_reachable default_control_policy default_safety_policy promoted_state.
Proof. do 2 apply pr_call. constructor. Qed.
Lemma promoted_requests_are_cleared_witness : exists r,
  dget (one_request promoted_state) (pe_requests promoted_state) = Some r /\ interlocks_met (rp_evidence r) default_safety_policy /\
  (is_Some (rp_promoted_at r) <-> rp_status r <> PR_APPROVED).
Proof.
  assert (Hst : option_map rp_status (dget (one_request promoted_state) (pe_requests promoted_state)) = Some PR_PROMOTED)
    by (vm_compute; reflexivity).
  destruct (dget (one_request promoted_state) (pe_requests promoted_state)) as [r|] eqn:E; [|discriminate Hst].
  assert (Hin : rp_status r ∈ [PR_APPROVED; PR_PROMOTED; PR_ROLLED_BACK]) by (injection Hst as ->; right; left).
  destruct (promoted_requests_are_cleared _ _ _ _ r promoted_state_reachable E Hin) as (Hsafe & _ & _ & _ & Hp & _).
  exists r. split; [reflexivity|]. split; [apply Hsafe; reflexivity|exact Hp].
Defined.
Definition audited_state : AuditedPromotionEngine :=
  (audited_perform create_call {| au_inner := fresh_engine default_control_policy; au_trail := empty_trail |}).2.
(** Its request and the events recorded about it. *)
Definition audited_request : string := hd "" (dkeys (at_events_by_request (au_trail audited_state))).
Abbreviation audited_events := (list_audit_events audited_request (au_trail audited_state)).
Lemma audited_count : length audited_events <> 0%nat.
Proof. vm_compute. discriminate. Qed.
Lemma audited_collision_free : collision_free audited_events audited_events.
Proof.
  split.
  - intros x y _ _ E. apply law_digest_injective in E. exact E.
  - intros x _ E. unfold audit_hash, digest in E. discriminate E.
Qed.
Lemma audited_verifies : first_break "genesis" audited_events = None.
Proof. vm_compute. reflexivity. Qed.
Lemma audited_last : final "genesis" audited_events = last_hash audited_request (au_trail audited_state).
Proof. vm_compute. reflexivity. Qed.
Lemma audit_trail_is_tamper_evident_witness : audited_reachable audited_state /\ length audited_events <> 0%nat /\
  av_valid (verify_audit audited_request (au_trail audited_state)) = true /\ Forall2 same_event audited_events audited_events.
Proof.
  assert (Hs : audited_reachable audited_state) by (apply ar_call; constructor). split; [exact Hs|]. split; [exact audited_count|].
  destruct (audit_trail_is_tamper_evident audited_state audited_request Hs) as [Hv Ht]. split.
  - rewrite Hv. reflexivity.
  - apply (Ht _); [exact audited_collision_free|exact audited_verifies|exact audited_last].
Defined.
