(* ===== verification/EvoPopulation.v ===== *)
(** * Evolution engine: population, selection, elites, lineage

    [constitutional_architecture/engine/population_manager.py],
    [elite_manager.py] and the engine's [lineage_tracker.py].  The random
    generator is shared by the whole engine, so the selection methods are
    actions on the world; the managers themselves are values. *)

From Stdlib Require Import SpecFloat.
From S2P Require Import Prelude PyFloat PyVal PyText IsrModel TypedGraph EvoModels.
Open Scope Z_scope.

Section Population.
Context {I : Set} `{Surroundings}.
Implicit Types (x : Individual I).

(** ** PopulationManager *)

Record PopulationStats : Set := {
  ps_size : Z;
  ps_generation : Z;
  ps_mean_fitness : float;
  ps_max_fitness : float;
  ps_min_fitness : float;
  ps_diversity : float;
  ps_species_count : Z;
  ps_elite_count : Z;
}.

Definition default_stats : PopulationStats := {|
  ps_size := 0; ps_generation := 0; ps_mean_fitness := fzero; ps_max_fitness := fzero;
  ps_min_fitness := fzero; ps_diversity := fzero; ps_species_count := 0; ps_elite_count := 0 |}.

Record PopulationManager : Set := {
  pm_config : EvolutionConfig;
  pm_population : list (Individual I);
  pm_generation : Z;
}.

Definition set_population (individuals : list (Individual I)) (pm : PopulationManager)
    : PopulationManager :=
  {| pm_config := pm_config pm; pm_population := individuals; pm_generation := pm_generation pm |}.

(** [for i in range(n)]: n new individuals. *)
Fixpoint initial_population (n : nat) (seed_isr : I) (dims : list string)
    : M World (list (Individual I)) :=
  match n with
  | O => mret []
  | S n' =>
      id ← new_id "ind" 12;
      individual ← new_individual id seed_isr (fitness_zero dims) [] 0 [];
      rest ← initial_population n' seed_isr dims;
      mret (individual :: rest)
  end.
Definition pm_initialise (seed_isr : I) (pm : PopulationManager) : M World PopulationManager :=
  population ← initial_population (Z.to_nat (cf_population_size (pm_config pm))) seed_isr
                 (cf_fitness_dimensions (pm_config pm));
  mret {| pm_config := pm_config pm; pm_population := population; pm_generation := 0 |}.

Definition add (individual : Individual I) (pm : PopulationManager) : PopulationManager :=
  set_population (pm_population pm ++ [individual]) pm.

Definition advance_generation (pm : PopulationManager) : PopulationManager :=
  {| pm_config := pm_config pm;
     pm_population := map (fun x => with_age (in_age x + 1) x) (pm_population pm);
     pm_generation := pm_generation pm + 1 |}.

(** *** Selection *)

Definition select_tournament (k : option Z) (pm : PopulationManager) : M World (Individual I) :=
  let k := match k with
           | Some k => if k =? 0 then cf_tournament_size (pm_config pm) else k
           | None => cf_tournament_size (pm_config pm)
           end in
  contestants ← rng_sample (pm_population pm) (Z.min k (Z.of_nat (length (pm_population pm))));
  lift_res (max_by composite_fitness contestants).

(** [for ind, fit in zip(...)]: the first individual at which the running total
    reaches [r], or the last one. *)
Fixpoint wheel (r cumulative : float) (slices : list (Individual I * float)) : option (Individual I) :=
  match slices with
  | [] => None
  | (ind, fit) :: rest =>
      let cumulative := fadd cumulative fit in
      if fleb r cumulative then Some ind else wheel r cumulative rest
  end.
Definition wheel_or_last (r : float) (slices : list (Individual I * float)) : res (Individual I) :=
  match wheel r fzero slices with
  | Some ind => Ok ind
  | None => match last slices with
            | Some (ind, _) => Ok ind
            | None => Raise (IndexError "list index out of range")
            end
  end.

Definition select_roulette (pm : PopulationManager) : M World (Individual I) :=
  let fitnesses := map (fun x => fmax2 (composite_fitness x) (of_ratio 1 1000)) (pm_population pm) in
  let total := fsum fitnesses in
  if feqb total fzero then rng_choice (pm_population pm)
  else r ← rng_uniform total;
       lift_res (wheel_or_last r (combine (pm_population pm) fitnesses)).

Definition select_rank (pm : PopulationManager) : M World (Individual I) :=
  let sorted_pop := sorted_by composite_fitness (pm_population pm) in
  let ranks := map of_nat (seq 1 (length sorted_pop)) in
  let n := Z.of_nat (length sorted_pop) in
  r ← rng_uniform (of_Z (n * (n + 1) / 2));
  lift_res (wheel_or_last r (combine sorted_pop ranks)).

Definition select (pm : PopulationManager) : M World (Individual I) :=
  let algorithm := cf_selection_algorithm (pm_config pm) in
  if bool_decide (algorithm = "tournament") then select_tournament None pm
  else if bool_decide (algorithm = "roulette") then select_roulette pm
  else if bool_decide (algorithm = "rank") then select_rank pm
  else select_tournament None pm.

(** [while b.id == a.id and attempts < 10]. *)
Fixpoint another (attempts : nat) (a b : Individual I) (pm : PopulationManager)
    : M World (Individual I) :=
  match attempts with
  | O => mret b
  | S attempts' =>
      if bool_decide (in_id b = in_id a) then
        b ← select pm; another attempts' a b pm
      else mret b
  end.

Definition select_pair (pm : PopulationManager) : M World (Individual I * Individual I) :=
  if Z.of_nat (length (pm_population pm)) <? 2
  then raise (ValueError "Population too small for pair selection")
  else a ← select pm;
       b ← select pm;
       b ← another 10 a b pm;
       mret (a, b).

Definition get_best (n : Z) (pm : PopulationManager) : list (Individual I) :=
  first_items n (sorted_down composite_fitness (pm_population pm)).
Definition get_worst (n : Z) (pm : PopulationManager) : list (Individual I) :=
  first_items n (sorted_by composite_fitness (pm_population pm)).
Definition get_elites (pm : PopulationManager) : list (Individual I) :=
  List.filter in_is_elite (pm_population pm).

Definition replace (old_id : string) (new_individual : Individual I) (pm : PopulationManager)
    : PopulationManager :=
  set_population
    (map (fun x => if bool_decide (in_id x = old_id) then new_individual else x) (pm_population pm)) pm.

Definition stats (pm : PopulationManager) : PopulationStats :=
  match map composite_fitness (pm_population pm) with
  | [] => default_stats
  | f :: fs =>
      {| ps_size := Z.of_nat (length (pm_population pm)); ps_generation := pm_generation pm;
         ps_mean_fitness := fdiv (fsum (f :: fs)) (of_nat (length (f :: fs)));
         ps_max_fitness := max_of f fs; ps_min_fitness := min_of f fs; ps_diversity := fzero;
         ps_species_count := Z.of_nat (length (remove_dups
           (List.filter truthy (map in_species_id (pm_population pm)))));
         ps_elite_count := Z.of_nat (length (List.filter in_is_elite (pm_population pm))) |}
  end.

(** ** EliteManager *)

Record EliteManager : Set := {
  em_elite_count : Z;
  em_elites : list (Individual I);
  em_historical_best : option (Individual I);
}.

Definition new_elite_manager (elite_count : Z) : EliteManager :=
  {| em_elite_count := elite_count; em_elites := []; em_historical_best := None |}.

Definition elite_update (population : list (Individual I)) (em : EliteManager) : EliteManager :=
  let sorted_pop := sorted_down composite_fitness population in
  let elites := map (with_elite true) (first_items (em_elite_count em) sorted_pop) in
  {| em_elite_count := em_elite_count em; em_elites := elites;
     em_historical_best :=
       match elites with
       | [] => em_historical_best em
       | best :: _ =>
           match em_historical_best em with
           | None => Some best
           | Some b => if fltb (composite_fitness b) (composite_fitness best) then Some best else Some b
           end
       end |}.

(** [result[i] = elite] while the list lasts, then [append]. *)
Fixpoint overwrite (elites result : list (Individual I)) : list (Individual I) :=
  match elites, result with
  | elite :: elites', _ :: result' => elite :: overwrite elites' result'
  | [], _ => result
  | _, [] => elites
  end.
Definition inject (population : list (Individual I)) (em : EliteManager) : list (Individual I) :=
  match em_elites em with
  | [] => population
  | elites => overwrite elites (sorted_by composite_fitness population)
  end.

Definition best_fitness_ever (em : EliteManager) : float :=
  match em_historical_best em with None => fzero | Some b => composite_fitness b end.

(** ** LineageTracker *)

Record LineageEntry : Set := {
  le_individual_id : string;
  le_isr_hash : string;
  le_parent_ids : list string;
  le_generation : Z;
  le_mutation_applied : string;
  le_eir_id : string;
  le_fitness_before : option (list (string * float));
  le_fitness_after : option (list (string * float));
  le_timestamp : Z;
  le_evolution_run_id : string;
  le_reasoning : string;
}.

Record LineageTracker : Set := {
  ln_entries : list (string * LineageEntry);
  ln_children : list (string * list string);
  ln_by_generation : list (Z * list string);
}.
Definition empty_lineage : LineageTracker :=
  {| ln_entries := []; ln_children := []; ln_by_generation := [] |}.

(** [d.setdefault(k, []).append(v)]. *)
Definition append_under {K} `{EqDecision K} (k : K) (v : string) (d : list (K * list string))
    : list (K * list string) := dset k (dget_or k d [] ++ [v]) d.

Definition record_entry (entry : LineageEntry) (t : LineageTracker) : LineageTracker :=
  let id := le_individual_id entry in
  {| ln_entries := dset id entry (ln_entries t);
     ln_children := fold_left (fun d p => append_under p id d) (le_parent_ids entry) (ln_children t);
     ln_by_generation := append_under (le_generation entry) id (ln_by_generation t) |}.

Definition lineage_record (isr_hash : I -> string) (x : Individual I)
    (mutation_applied eir_id : string) (fitness_before : option (list (string * float)))
    (reasoning run_id : string) (t : LineageTracker) : M World LineageTracker :=
  timestamp ← now;
  mret (record_entry
    {| le_individual_id := in_id x; le_isr_hash := isr_hash (in_isr x);
       le_parent_ids := in_parent_ids x; le_generation := in_generation x;
       le_mutation_applied := mutation_applied; le_eir_id := eir_id;
       le_fitness_before := fitness_before;
       le_fitness_after := Some (fitness_to_dict (in_fitness x)); le_timestamp := timestamp;
       le_evolution_run_id := run_id; le_reasoning := reasoning |} t).

Section Queries.
Variable t : LineageTracker.

Definition get_entry (id : string) : option LineageEntry := dget id (ln_entries t).
Definition get_parents (id : string) : list LineageEntry :=
  match get_entry id with None => [] | Some e => omap get_entry (le_parent_ids e) end.
Definition get_children (id : string) : list LineageEntry :=
  omap get_entry (dget_or id (ln_children t) []).
Definition get_generation (generation : Z) : list LineageEntry :=
  omap get_entry (dget_or generation (ln_by_generation t) []).

(** The parents an entry adds to the ancestors and to the queue. *)
Definition unvisited (visited : list string) (e : LineageEntry) : list string :=
  List.filter (fun pid => negb (mem pid visited)) (le_parent_ids e).

Fixpoint ancestors_loop (fuel : nat) (queue visited : list string) (ancestors : list LineageEntry)
    : option (list LineageEntry) :=
  match queue with
  | [] => Some ancestors
  | current :: queue' =>
      match fuel with
      | O => None
      | S fuel' =>
          if mem current visited then ancestors_loop fuel' queue' visited ancestors
          else
            let visited' := current :: visited in
            match get_entry current with
            | None => ancestors_loop fuel' queue' visited' ancestors
            | Some e =>
                let pids := unvisited visited' e in
                ancestors_loop fuel' (queue' ++ pids) visited' (ancestors ++ omap get_entry pids)
            end
      end
  end.

(** Every step takes one id from the queue; an id gets there once from the start
    or as a parent of an entry. *)
Definition parent_links : nat := list_sum (map (fun p => length (le_parent_ids p.2)) (ln_entries t)).
Definition get_ancestors (id : string) : option (list LineageEntry) :=
  match ancestors_loop (S parent_links) [id] [] [] with Some found => Some (rev found) | None => None end.

Definition get_mutation_history (id : string) : option (list string) :=
  match get_ancestors id with
  | None => None
  | Some ancestors =>
      let mutations := List.filter truthy (map le_mutation_applied ancestors) in
      Some match get_entry id with
           | Some e => if truthy (le_mutation_applied e) then mutations ++ [le_mutation_applied e]
                       else mutations
           | None => mutations
           end
  end.

Definition total_records : Z := Z.of_nat (length (ln_entries t)).
Definition max_generation : Z :=
  match dkeys (ln_by_generation t) with [] => 0 | g :: gs => fold_left Z.max gs g end.
End Queries.
End Population.

Arguments PopulationManager : clear implicits.
Arguments EliteManager : clear implicits.
