(* ===== verification/EvoControl.v ===== *)
(** * Evolution engine: events, convergence, phases, metrics, weights

    [constitutional_architecture/engine/evolution_events.py] (EventBus),
    [convergence_detector.py], [evolution_scheduler.py], [evolution_metrics.py]
    and [adaptive_mutation.py].  A subscribed handler is its name, and a delivery is
    recorded; what handlers do is not modelled. *)

From Stdlib Require Import SpecFloat.
From S2P Require Import Prelude PyFloat PyVal PyText IsrModel TypedGraph EvoModels EvoPopulation.
Open Scope Z_scope.

(** ** EventBus *)

Inductive EventType : Set :=
| POPULATION_CREATED | GENERATION_STARTED | GENERATION_COMPLETED | MUTATION_APPLIED
| MUTATION_REJECTED | CROSSOVER_APPLIED | NEW_ELITE_FOUND | PARETO_UPDATED
| NOVEL_ARCHITECTURE_DISCOVERED | CONVERGENCE_DETECTED | PHASE_TRANSITION
| ADAPTIVE_WEIGHTS_UPDATED | SPECIES_CREATED | SPECIES_EXTINCT | EVOLUTION_COMPLETED
| EVOLUTION_STOPPED | FITNESS_EVALUATED | KNOWLEDGE_BASE_CONSULTED.

#[export] Instance EventType_eq_dec : EqDecision EventType.
Proof. solve_decision. Defined.

Record EvolutionEvent : Set := {
  ee_event_type : EventType;
  ee_timestamp : Z;
  ee_generation : Z;
  ee_data : pydict;
}.

Record EventBus : Set := {
  eb_handlers : list (EventType * list string);
  eb_global_handlers : list string;
  eb_history : list EvolutionEvent;
  (** Every call of a handler, in order. *)
  eb_delivered : list (string * EvolutionEvent);
}.
Definition empty_bus : EventBus :=
  {| eb_handlers := []; eb_global_handlers := []; eb_history := []; eb_delivered := [] |}.

Definition max_history : nat := Z.to_nat 10000.

Definition subscribe (event_type : EventType) (handler : string) (b : EventBus) : EventBus :=
  {| eb_handlers := append_under event_type handler (eb_handlers b);
     eb_global_handlers := eb_global_handlers b; eb_history := eb_history b;
     eb_delivered := eb_delivered b |}.
Definition subscribe_all (handler : string) (b : EventBus) : EventBus :=
  {| eb_handlers := eb_handlers b; eb_global_handlers := eb_global_handlers b ++ [handler];
     eb_history := eb_history b; eb_delivered := eb_delivered b |}.

Definition publish (event : EvolutionEvent) (b : EventBus) : EventBus :=
  {| eb_handlers := eb_handlers b; eb_global_handlers := eb_global_handlers b;
     eb_history := last_items max_history (eb_history b ++ [event]);
     eb_delivered := eb_delivered b ++
       map (fun h => (h, event)) (dget_or (ee_event_type event) (eb_handlers b) [] ++ eb_global_handlers b) |}.

Definition get_events (event_type : EventType) (b : EventBus) : list EvolutionEvent :=
  List.filter (fun e => bool_decide (ee_event_type e = event_type)) (eb_history b).
Definition clear_history (b : EventBus) : EventBus :=
  {| eb_handlers := eb_handlers b; eb_global_handlers := eb_global_handlers b; eb_history := [];
     eb_delivered := eb_delivered b |}.

(** [self._event_bus.publish(EvolutionEvent(...))]: an event reads the clock. *)
Definition publish_event `{Surroundings} (event_type : EventType) (generation : Z) (data : pydict)
    (b : EventBus) : M World EventBus :=
  timestamp ← now;
  mret (publish {| ee_event_type := event_type; ee_timestamp := timestamp;
                   ee_generation := generation; ee_data := data |} b).

(** ** ConvergenceDetector *)

Record ConvergenceStatus : Set := {
  cs_is_converged : bool;
  cs_is_stagnant : bool;
  cs_generations_since_improvement : Z;
  cs_fitness_variance : float;
  cs_improvement_rate : float;
  cs_recommendation : string;
}.

Record ConvergenceDetector : Set := {
  cd_config : EvolutionConfig;
  cd_fitness_history : list float;
  cd_best_history : list float;
  cd_generations_since_improvement : Z;
  cd_previous_best : float;
}.
Definition new_detector (config : EvolutionConfig) : ConvergenceDetector :=
  {| cd_config := config; cd_fitness_history := []; cd_best_history := [];
     cd_generations_since_improvement := 0; cd_previous_best := fzero |}.

(** [append] on a deque with [maxlen]. *)
Definition deque_append (maxlen : Z) (v : float) (xs : list float) : list float :=
  last_items (Z.to_nat maxlen) (xs ++ [v]).

Section Outside.
Context `{Surroundings}.

Definition compute_variance (history : list float) : res float :=
  if (length history <? 2)%nat then Ok fone
  else
    let n := of_nat (length history) in
    let mean := fdiv (fsum history) n in
    squares ← map_res (fun v => power (fsub v mean) ftwo) history;
    Ok (fdiv (fsum squares) n).

Definition compute_improvement_rate (history : list float) : float :=
  match history, last history with
  | first :: _ :: _, Some v => fdiv (fsub v first) (of_nat (length history))
  | _, _ => fzero
  end.

Definition observe (mean_fitness best_fitness : float) (d : ConvergenceDetector) : ConvergenceDetector :=
  {| cd_config := cd_config d;
     cd_fitness_history := deque_append (cf_convergence_window (cd_config d)) mean_fitness (cd_fitness_history d);
     cd_best_history := deque_append (cf_stagnation_limit (cd_config d)) best_fitness (cd_best_history d);
     cd_generations_since_improvement :=
       if fltb (fadd (cd_previous_best d) (cf_convergence_threshold (cd_config d))) best_fitness then 0
       else cd_generations_since_improvement d + 1;
     cd_previous_best := best_fitness |}.

Definition convergence_update (mean_fitness best_fitness : float) : M ConvergenceDetector ConvergenceStatus :=
  _ ← modify (observe mean_fitness best_fitness);
  d ← gets id;
  variance ← lift_res (compute_variance (cd_fitness_history d));
  let is_converged := fltb variance (cf_convergence_threshold (cd_config d)) in
  let is_stagnant := cf_stagnation_limit (cd_config d) <=? cd_generations_since_improvement d in
  mret {| cs_is_converged := is_converged; cs_is_stagnant := is_stagnant;
          cs_generations_since_improvement := cd_generations_since_improvement d;
          cs_fitness_variance := variance;
          cs_improvement_rate := compute_improvement_rate (cd_fitness_history d);
          cs_recommendation := if is_stagnant then "diversify"
                               else if is_converged then "increase_mutation_rate" else "continue" |}.

Definition convergence_reset (d : ConvergenceDetector) : ConvergenceDetector :=
  {| cd_config := cd_config d; cd_fitness_history := []; cd_best_history := [];
     cd_generations_since_improvement := 0; cd_previous_best := cd_previous_best d |}.

(** ** EvolutionScheduler *)

Inductive EvolutionPhase : Set := EXPLORATION | EXPLOITATION | DIVERSIFICATION | REFINEMENT.

#[export] Instance EvolutionPhase_eq_dec : EqDecision EvolutionPhase.
Proof. solve_decision. Defined.

Definition phase_value (p : EvolutionPhase) : string :=
  match p with
  | EXPLORATION => "exploration" | EXPLOITATION => "exploitation"
  | DIVERSIFICATION => "diversification" | REFINEMENT => "refinement"
  end.

Record PhaseConfig : Set := {
  ph_mutation_rate_multiplier : float;
  ph_crossover_rate_multiplier : float;
  ph_selection_pressure : float;
  ph_novelty_weight : float;
  ph_allow_structural_mutations : bool;
  ph_allow_parametric_mutations : bool;
}.

Definition PHASE_CONFIGS (p : EvolutionPhase) : PhaseConfig :=
  match p with
  | EXPLORATION =>
      {| ph_mutation_rate_multiplier := of_ratio 15 10; ph_crossover_rate_multiplier := of_ratio 8 10;
         ph_selection_pressure := of_ratio 5 10; ph_novelty_weight := of_ratio 3 10;
         ph_allow_structural_mutations := true; ph_allow_parametric_mutations := true |}
  | EXPLOITATION =>
      {| ph_mutation_rate_multiplier := of_ratio 7 10; ph_crossover_rate_multiplier := of_ratio 12 10;
         ph_selection_pressure := of_Z 2; ph_novelty_weight := of_ratio 5 100;
         ph_allow_structural_mutations := false; ph_allow_parametric_mutations := true |}
  | DIVERSIFICATION =>
      {| ph_mutation_rate_multiplier := of_Z 2; ph_crossover_rate_multiplier := of_ratio 5 10;
         ph_selection_pressure := of_ratio 3 10; ph_novelty_weight := of_ratio 5 10;
         ph_allow_structural_mutations := true; ph_allow_parametric_mutations := true |}
  | REFINEMENT =>
      {| ph_mutation_rate_multiplier := of_ratio 3 10; ph_crossover_rate_multiplier := of_ratio 5 10;
         ph_selection_pressure := of_ratio 15 10; ph_novelty_weight := fzero;
         ph_allow_structural_mutations := false; ph_allow_parametric_mutations := true |}
  end.

Record EvolutionScheduler : Set := {
  sc_config : EvolutionConfig;
  sc_current_phase : EvolutionPhase;
  sc_generation_in_phase : Z;
  sc_phase_history : list (Z * EvolutionPhase);
}.
Definition new_scheduler (config : EvolutionConfig) : EvolutionScheduler :=
  {| sc_config := config; sc_current_phase := EXPLORATION; sc_generation_in_phase := 0;
     sc_phase_history := [(0, EXPLORATION)] |}.

(** The event bus is the engine's: its state goes in and comes out. *)
Definition transition_to (new_phase : EvolutionPhase) (generation : Z) (reason : string)
    (s : EvolutionScheduler) (bus : EventBus) : M World (EvolutionScheduler * EventBus) :=
  if bool_decide (new_phase = sc_current_phase s) then mret (s, bus)
  else
    bus ← publish_event PHASE_TRANSITION generation
            [("from_phase", VStr (phase_value (sc_current_phase s)));
             ("to_phase", VStr (phase_value new_phase)); ("reason", VStr reason)] bus;
    mret ({| sc_config := sc_config s; sc_current_phase := new_phase; sc_generation_in_phase := 0;
             sc_phase_history := sc_phase_history s ++ [(generation, new_phase)] |}, bus).

Definition scheduler_update (generation : Z) (diversity : float) (convergence : ConvergenceStatus)
    (fitness_near_max : bool) (s : EvolutionScheduler) (bus : EventBus)
    : M World (EvolutionScheduler * EventBus) :=
  let s := {| sc_config := sc_config s; sc_current_phase := sc_current_phase s;
              sc_generation_in_phase := sc_generation_in_phase s + 1;
              sc_phase_history := sc_phase_history s |} in
  let threshold := cf_diversity_threshold (sc_config s) in
  let phase := sc_current_phase s in
  if cs_is_stagnant convergence then transition_to DIVERSIFICATION generation "stagnation detected" s bus
  else if cs_is_converged convergence && negb fitness_near_max
  then transition_to DIVERSIFICATION generation "premature convergence" s bus
  else if fitness_near_max then transition_to REFINEMENT generation "fitness near maximum" s bus
  else if fltb diversity threshold && bool_decide (phase = EXPLORATION)
  then transition_to EXPLOITATION generation "diversity dropped" s bus
  else if fltb (fmul threshold ftwo) diversity && bool_decide (phase = EXPLOITATION)
  then transition_to EXPLORATION generation "diversity restored" s bus
  else if bool_decide (phase = DIVERSIFICATION) && (10 <? sc_generation_in_phase s)
          && fltb threshold diversity
  then transition_to EXPLOITATION generation "diversification successful" s bus
  else mret (s, bus).

Definition effective_mutation_rate (s : EvolutionScheduler) : float :=
  fmul (cf_mutation_rate (sc_config s)) (ph_mutation_rate_multiplier (PHASE_CONFIGS (sc_current_phase s))).
Definition effective_crossover_rate (s : EvolutionScheduler) : float :=
  fmul (cf_crossover_rate (sc_config s)) (ph_crossover_rate_multiplier (PHASE_CONFIGS (sc_current_phase s))).
End Outside.

(** ** MetricsCollector *)

Record GenerationMetrics : Set := {
  gm_generation : Z;
  gm_population_size : Z;
  gm_mean_fitness : float;
  gm_max_fitness : float;
  gm_min_fitness : float;
  gm_diversity : float;
  gm_entropy : float;
  gm_mutation_success_rate : float;
  gm_crossover_count : Z;
  gm_mutation_count : Z;
  gm_novel_architectures : Z;
  gm_species_count : Z;
  gm_convergence_status : string;
  gm_generation_time_ms : float;
}.

Record EvolutionMetrics : Set := {
  mt_total_generations : Z;
  mt_total_mutations : Z;
  mt_total_crossovers : Z;
  mt_total_mutation_successes : Z;
  mt_total_mutation_failures : Z;
  mt_best_fitness_ever : float;
  mt_mean_fitness_trend : list float;
  mt_max_fitness_trend : list float;
  mt_diversity_trend : list float;
  mt_generation_history : list GenerationMetrics;
}.
Definition no_metrics : EvolutionMetrics :=
  {| mt_total_generations := 0; mt_total_mutations := 0; mt_total_crossovers := 0;
     mt_total_mutation_successes := 0; mt_total_mutation_failures := 0;
     mt_best_fitness_ever := fzero; mt_mean_fitness_trend := []; mt_max_fitness_trend := [];
     mt_diversity_trend := []; mt_generation_history := [] |}.

Definition overall_mutation_success_rate (m : EvolutionMetrics) : float :=
  let total := mt_total_mutation_successes m + mt_total_mutation_failures m in
  if 0 <? total then fdiv (of_Z (mt_total_mutation_successes m)) (of_Z total) else fzero.
Definition fitness_improvement (m : EvolutionMetrics) : float :=
  match mt_max_fitness_trend m, last (mt_max_fitness_trend m) with
  | first :: _ :: _, Some v => fsub v first
  | _, _ => fzero
  end.

(** The window of the collector the engine builds. *)
Definition history_window : nat := 1000%nat.

Definition record_generation (gen_metrics : GenerationMetrics) (pop_stats : PopulationStats)
    (m : EvolutionMetrics) : EvolutionMetrics :=
  {| mt_total_generations := mt_total_generations m + 1; mt_total_mutations := mt_total_mutations m;
     mt_total_crossovers := mt_total_crossovers m;
     mt_total_mutation_successes := mt_total_mutation_successes m;
     mt_total_mutation_failures := mt_total_mutation_failures m;
     mt_best_fitness_ever := if fltb (mt_best_fitness_ever m) (ps_max_fitness pop_stats)
                             then ps_max_fitness pop_stats else mt_best_fitness_ever m;
     mt_mean_fitness_trend := mt_mean_fitness_trend m ++ [ps_mean_fitness pop_stats];
     mt_max_fitness_trend := mt_max_fitness_trend m ++ [ps_max_fitness pop_stats];
     mt_diversity_trend := mt_diversity_trend m;
     mt_generation_history := last_items history_window (mt_generation_history m ++ [gen_metrics]) |}.
Definition record_mutation (success : bool) (m : EvolutionMetrics) : EvolutionMetrics :=
  {| mt_total_generations := mt_total_generations m; mt_total_mutations := mt_total_mutations m + 1;
     mt_total_crossovers := mt_total_crossovers m;
     mt_total_mutation_successes := mt_total_mutation_successes m + (if success then 1 else 0);
     mt_total_mutation_failures := mt_total_mutation_failures m + (if success then 0 else 1);
     mt_best_fitness_ever := mt_best_fitness_ever m; mt_mean_fitness_trend := mt_mean_fitness_trend m;
     mt_max_fitness_trend := mt_max_fitness_trend m; mt_diversity_trend := mt_diversity_trend m;
     mt_generation_history := mt_generation_history m |}.
Definition record_crossover (m : EvolutionMetrics) : EvolutionMetrics :=
  {| mt_total_generations := mt_total_generations m; mt_total_mutations := mt_total_mutations m;
     mt_total_crossovers := mt_total_crossovers m + 1;
     mt_total_mutation_successes := mt_total_mutation_successes m;
     mt_total_mutation_failures := mt_total_mutation_failures m;
     mt_best_fitness_ever := mt_best_fitness_ever m; mt_mean_fitness_trend := mt_mean_fitness_trend m;
     mt_max_fitness_trend := mt_max_fitness_trend m; mt_diversity_trend := mt_diversity_trend m;
     mt_generation_history := mt_generation_history m |}.

(** ** AdaptiveMutation *)

Record OperatorStats : Set := {
  os_applications : Z;
  os_acceptances : Z;
  os_rejections : Z;
  os_mean_fitness_delta : float;
  os_variance : float;
  os_weight : float;
  os_last_applied_generation : Z;
  os_sum_delta : float;
  os_sum_delta_sq : float;
}.
Definition new_operator_stats (weight : float) : OperatorStats :=
  {| os_applications := 0; os_acceptances := 0; os_rejections := 0; os_mean_fitness_delta := fzero;
     os_variance := fzero; os_weight := weight; os_last_applied_generation := 0;
     os_sum_delta := fzero; os_sum_delta_sq := fzero |}.

Definition success_rate (s : OperatorStats) : float :=
  if os_applications s =? 0 then fzero else fdiv (of_Z (os_acceptances s)) (of_Z (os_applications s)).

Record MutationSequence : Set := {
  ms_operator_ids : list string;
  ms_fitness_delta : float;
  ms_success : bool;
  ms_generation : Z;
}.

Record AdaptiveMutation : Set := {
  am_config : EvolutionConfig;
  am_operator_stats : list (string * OperatorStats);
  am_category_stats : list (string * OperatorStats);
  am_successful_sequences : list MutationSequence;
  am_failed_sequences : list MutationSequence;
  am_compatibility : list ((string * string) * float);
}.
Definition new_adaptive (config : EvolutionConfig) : AdaptiveMutation :=
  {| am_config := config; am_operator_stats := []; am_category_stats := [];
     am_successful_sequences := []; am_failed_sequences := []; am_compatibility := [] |}.

Definition put_operator_stats (stats : list (string * OperatorStats)) (a : AdaptiveMutation)
    : AdaptiveMutation :=
  {| am_config := am_config a; am_operator_stats := stats; am_category_stats := am_category_stats a;
     am_successful_sequences := am_successful_sequences a; am_failed_sequences := am_failed_sequences a;
     am_compatibility := am_compatibility a |}.
Definition put_category_stats (stats : list (string * OperatorStats)) (a : AdaptiveMutation)
    : AdaptiveMutation :=
  {| am_config := am_config a; am_operator_stats := am_operator_stats a; am_category_stats := stats;
     am_successful_sequences := am_successful_sequences a; am_failed_sequences := am_failed_sequences a;
     am_compatibility := am_compatibility a |}.

Definition register_operator (operator_id : string) (initial_weight : float) (a : AdaptiveMutation)
    : AdaptiveMutation :=
  put_operator_stats (dset operator_id (new_operator_stats initial_weight) (am_operator_stats a)) a.

Section Adaptive.
Context `{Surroundings}.

(** [OperatorStats.record]: what is assigned before [**] raises stays. *)
Definition stats_record (accepted : bool) (fitness_delta : float) (generation : Z)
    : M OperatorStats unit :=
  _ ← modify (fun s =>
    {| os_applications := os_applications s + 1;
       os_acceptances := os_acceptances s + (if accepted then 1 else 0);
       os_rejections := os_rejections s + (if accepted then 0 else 1);
       os_mean_fitness_delta := os_mean_fitness_delta s; os_variance := os_variance s;
       os_weight := os_weight s; os_last_applied_generation := os_last_applied_generation s;
       os_sum_delta := fadd (os_sum_delta s) fitness_delta; os_sum_delta_sq := os_sum_delta_sq s |});
  square ← lift_res (power fitness_delta ftwo);
  _ ← modify (fun s =>
    {| os_applications := os_applications s; os_acceptances := os_acceptances s;
       os_rejections := os_rejections s;
       os_mean_fitness_delta := fdiv (os_sum_delta s) (of_Z (os_applications s));
       os_variance := os_variance s; os_weight := os_weight s;
       os_last_applied_generation := os_last_applied_generation s; os_sum_delta := os_sum_delta s;
       os_sum_delta_sq := fadd (os_sum_delta_sq s) square |});
  s ← gets id;
  mean_square ← lift_res (power (os_mean_fitness_delta s) ftwo);
  modify (fun s =>
    {| os_applications := os_applications s; os_acceptances := os_acceptances s;
       os_rejections := os_rejections s; os_mean_fitness_delta := os_mean_fitness_delta s;
       os_variance := fsub (fdiv (os_sum_delta_sq s) (of_Z (os_applications s))) mean_square;
       os_weight := os_weight s; os_last_applied_generation := generation;
       os_sum_delta := os_sum_delta s; os_sum_delta_sq := os_sum_delta_sq s |}).

Definition record_result (operator_id : string) (accepted : bool) (fitness_delta : float)
    (generation : Z) (category : option string) : M AdaptiveMutation unit :=
  _ ← modify (fun a => if dmem operator_id (am_operator_stats a) then a
                       else register_operator operator_id fone a);
  _ ← zoom (fun a => dget_or operator_id (am_operator_stats a) (new_operator_stats fone))
        (fun s a => put_operator_stats (dset operator_id s (am_operator_stats a)) a)
        (stats_record accepted fitness_delta generation);
  if otruthy category then
    zoom (fun a => dget_or (or_empty category) (am_category_stats a) (new_operator_stats fone))
      (fun s a => put_category_stats (dset (or_empty category) s (am_category_stats a)) a)
      (stats_record accepted fitness_delta generation)
  else mret tt.
End Adaptive.

Fixpoint update_pairs (success : bool) (operator_ids : list string)
    (compatibility : list ((string * string) * float)) : list ((string * string) * float) :=
  match operator_ids with
  | a :: ((b :: _) as rest) =>
      let current := dget_or (a, b) compatibility fhalf in
      let update := if success then of_ratio 1 10 else of_ratio (-1) 10 in
      update_pairs success rest
        (dset (a, b) (fmax2 fzero (fmin2 fone (fadd current update))) compatibility)
  | _ => compatibility
  end.
Definition record_sequence (operator_ids : list string) (fitness_delta : float) (success : bool)
    (generation : Z) (a : AdaptiveMutation) : AdaptiveMutation :=
  let seq := {| ms_operator_ids := operator_ids; ms_fitness_delta := fitness_delta;
                ms_success := success; ms_generation := generation |} in
  {| am_config := am_config a; am_operator_stats := am_operator_stats a;
     am_category_stats := am_category_stats a;
     am_successful_sequences := am_successful_sequences a ++ (if success then [seq] else []);
     am_failed_sequences := am_failed_sequences a ++ (if success then [] else [seq]);
     am_compatibility := update_pairs success operator_ids (am_compatibility a) |}.

Definition put_weight (w : float) (s : OperatorStats) : OperatorStats :=
  {| os_applications := os_applications s; os_acceptances := os_acceptances s;
     os_rejections := os_rejections s; os_mean_fitness_delta := os_mean_fitness_delta s;
     os_variance := os_variance s; os_weight := w;
     os_last_applied_generation := os_last_applied_generation s; os_sum_delta := os_sum_delta s;
     os_sum_delta_sq := os_sum_delta_sq s |}.
Definition adapted (config : EvolutionConfig) (s : OperatorStats) : OperatorStats :=
  if os_applications s <? 5 then s
  else
    let adjustment := fadd fone (fmul (cf_adaptive_learning_rate config)
                                   (fsub (success_rate s) fhalf)) in
    let new_weight := fmul (os_weight s) adjustment in
    let new_weight := fmax2 (cf_adaptive_min_weight config) new_weight in
    put_weight (fmin2 (cf_adaptive_max_weight config) new_weight) s.

(** Reading the weights adjusts them. *)
Definition get_weights (a : AdaptiveMutation) : list (string * float) * AdaptiveMutation :=
  let stats := map (fun p => (p.1, adapted (am_config a) p.2)) (am_operator_stats a) in
  (map (fun p => (p.1, os_weight p.2)) stats, put_operator_stats stats a).

Definition get_compatibility (op_a op_b : string) (a : AdaptiveMutation) : float :=
  dget_or (op_a, op_b) (am_compatibility a) fhalf.
Definition get_best_sequences (n : Z) (a : AdaptiveMutation) : list MutationSequence :=
  first_items n (sorted_down ms_fitness_delta (am_successful_sequences a)).
