(* ===== verification/EvoDiversity.v ===== *)
(** * Evolution engine: species, novelty, Pareto fronts

    [constitutional_architecture/engine/diversity_manager.py],
    [novelty_search.py] and [pareto_optimizer.py].  NaN fitness values, for
    which Python's sorts follow no order, are outside the theorems but not
    outside the definitions. *)

From Stdlib Require Import SpecFloat.
From S2P Require Import Prelude PyFloat PyVal PyText IsrModel TypedGraph EvoModels.
Open Scope Z_scope.

Section Diversity.
Context {I : Set} `{Surroundings}.
Variable content_hash : I -> string.
Implicit Types (x : Individual I).

(** ** DiversityManager *)

Record Species : Set := {
  sp_id : string;
  sp_representative_id : string;
  sp_members : list string;
  sp_mean_fitness : float;
  sp_age : Z;
  sp_stagnation : Z;
}.
Definition put_members (members : list string) (sp : Species) : Species :=
  {| sp_id := sp_id sp; sp_representative_id := sp_representative_id sp; sp_members := members;
     sp_mean_fitness := sp_mean_fitness sp; sp_age := sp_age sp; sp_stagnation := sp_stagnation sp |}.
Definition put_mean (mean : float) (sp : Species) : Species :=
  {| sp_id := sp_id sp; sp_representative_id := sp_representative_id sp; sp_members := sp_members sp;
     sp_mean_fitness := mean; sp_age := sp_age sp; sp_stagnation := sp_stagnation sp |}.

Abbreviation species_table := (list (string * Species)).

Record DiversityManager : Set := {
  dm_config : EvolutionConfig;
  dm_species : species_table;
  dm_archive : list (Individual I);
}.
Definition put_species (species : species_table) (dm : DiversityManager) : DiversityManager :=
  {| dm_config := dm_config dm; dm_species := species; dm_archive := dm_archive dm |}.
Definition species_count (dm : DiversityManager) : Z := Z.of_nat (length (dm_species dm)).

Definition get_representative_fitness (species : Species) : option FitnessVector := None.

(** The id of the first species near enough. *)
Fixpoint find_species (config : EvolutionConfig) (x : Individual I) (species : species_table)
    : res (option string) :=
  match species with
  | [] => Ok None
  | (_, sp) :: rest =>
      match get_representative_fitness sp with
      | Some rep_fitness =>
          d ← distance (in_fitness x) rep_fitness;
          if fltb d (cf_species_compatibility_threshold config) then Ok (Some (sp_id sp))
          else find_species config x rest
      | None => find_species config x rest
      end
  end.

Definition new_species (id : string) (x : Individual I) : Species :=
  {| sp_id := id; sp_representative_id := in_id x; sp_members := []; sp_mean_fitness := fzero;
     sp_age := 0; sp_stagnation := 0 |}.

(** [species.members.append(ind.id)]. *)
Definition add_member (id member : string) (species : species_table) : species_table :=
  match dget id species with
  | Some sp => dset id (put_members (sp_members sp ++ [member]) sp) species
  | None => species
  end.

Fixpoint assign (config : EvolutionConfig) (population : list (Individual I)) (species : species_table)
    : M World (list (Individual I) * species_table) :=
  match population with
  | [] => mret ([], species)
  | x :: rest =>
      found ← lift_res (find_species config x species);
      placed ← match found with
               | Some sid => mret (sid, species)
               | None => sid ← new_id "species" 8; mret (sid, dset sid (new_species sid x) species)
               end;
      let '(sid, species) := placed in
      result ← assign config rest (add_member sid (in_id x) species);
      let '(assigned, species) := result in
      mret (with_species sid x :: assigned, species)
  end.

(** The fitness values of each species, in the order of the population. *)
Definition species_fitness (population : list (Individual I)) : list (string * list float) :=
  fold_left (fun d x =>
    if truthy (in_species_id x)
    then dset (in_species_id x) (dget_or (in_species_id x) d [] ++ [composite_fitness x]) d
    else d) population [].
Definition update_species_stats (population : list (Individual I)) (species : species_table)
    : species_table :=
  fold_left (fun species p =>
    match dget p.1 species with
    | Some sp => dset p.1 (put_mean (fdiv (fsum p.2) (of_nat (length p.2))) sp) species
    | None => species
    end) (species_fitness population) species.

Definition speciate (population : list (Individual I)) (dm : DiversityManager)
    : M World (list (Individual I) * DiversityManager) :=
  if negb (cf_speciation_enabled (dm_config dm)) then mret (population, dm)
  else
    result ← assign (dm_config dm) population
               (map (fun p => (p.1, put_members [] p.2)) (dm_species dm));
    let '(assigned, species) := result in
    let species := List.filter (fun p => negb (bool_decide (sp_members p.2 = []))) species in
    mret (assigned, put_species (update_species_stats assigned species) dm).

(** [for j in range(i + 1, len(sample))] for every [i]. *)
Fixpoint distances_from (x : Individual I) (others : list (Individual I)) (total : float) : res float :=
  match others with
  | [] => Ok total
  | y :: rest => d ← distance (in_fitness x) (in_fitness y); distances_from x rest (fadd total d)
  end.
Fixpoint total_distance (sample : list (Individual I)) (total : float) : res float :=
  match sample with
  | [] => Ok total
  | x :: rest => total ← distances_from x rest total; total_distance rest total
  end.

Definition compute_diversity (population : list (Individual I)) : res float :=
  match population with
  | first :: _ :: _ =>
      let sample := take 50 population in
      let n := Z.of_nat (length sample) in
      total ← total_distance sample fzero;
      let avg_distance := fdiv total (of_Z (n * (n - 1) / 2)) in
      let max_distance := sqrt (of_Z (Z.max (dimension_count (in_fitness first)) 1)) in
      Ok (if fltb fzero max_distance then fmin2 (fdiv avg_distance max_distance) fone else fzero)
  | _ => Ok fzero
  end.

Definition entropy_term (total : Z) (entropy : float) (sp : Species) : float :=
  match sp_members sp with
  | [] => entropy
  | members =>
      let p := fdiv (of_nat (length members)) (of_Z total) in
      fsub entropy (fmul p (log2 p))
  end.
Definition compute_entropy (dm : DiversityManager) : float :=
  match dvalues (dm_species dm) with
  | [] => fzero
  | species =>
      let total := Z.of_nat (list_sum (map (fun sp => length (sp_members sp)) species)) in
      if total =? 0 then fzero
      else
        let entropy := fold_left (entropy_term total) species fzero in
        let n := Z.of_nat (length species) in
        let max_entropy := if 1 <? n then log2 (of_Z n) else fone in
        if fltb fzero max_entropy then fdiv entropy max_entropy else fzero
  end.

Definition max_archive_size : nat := 1000%nat.
Definition archive_individual (x : Individual I) (dm : DiversityManager) : bool * DiversityManager :=
  if mem (content_hash (in_isr x)) (map (fun y => content_hash (in_isr y)) (dm_archive dm))
  then (false, dm)
  else (true, {| dm_config := dm_config dm; dm_species := dm_species dm;
                 dm_archive := last_items max_archive_size (dm_archive dm ++ [x]) |}).

Definition is_diverse_enough (population : list (Individual I)) (dm : DiversityManager) : res bool :=
  diversity ← compute_diversity population;
  Ok (fleb (cf_diversity_threshold (dm_config dm)) diversity).

(** ** NoveltySearch *)

Record NoveltyResult : Set := {
  nr_novelty_score : float;
  nr_nearest_neighbors : list string;
  nr_is_novel : bool;
}.

Record NoveltySearch : Set := {
  ns_k : Z;
  ns_threshold : float;
  ns_archive : list (Individual I);
  ns_archive_limit : nat;
}.
Definition new_novelty_search : NoveltySearch :=
  {| ns_k := 15; ns_threshold := of_ratio 3 10; ns_archive := []; ns_archive_limit := 5000%nat |}.

Definition most_novel : NoveltyResult :=
  {| nr_novelty_score := fone; nr_nearest_neighbors := []; nr_is_novel := true |}.

(** The distances that can be computed: a ValueError skips the reference. *)
Fixpoint reference_distances (x : Individual I) (references : list (Individual I))
    : res (list (float * string)) :=
  match references with
  | [] => Ok []
  | ref :: rest =>
      if bool_decide (in_id ref = in_id x) then reference_distances x rest
      else match distance (in_fitness x) (in_fitness ref) with
           | Ok d => ds ← reference_distances x rest; Ok ((d, in_id ref) :: ds)
           | Raise (ValueError _) => reference_distances x rest
           | Raise e => Raise e
           end
  end.

Definition compute_novelty (x : Individual I) (population : list (Individual I)) (ns : NoveltySearch)
    : res NoveltyResult :=
  let references := ns_archive ns ++ population in
  if Z.of_nat (length references) <? ns_k ns then Ok most_novel
  else
    distances ← reference_distances x references;
    match distances with
    | [] => Ok most_novel
    | _ =>
        let k_nearest := first_items (ns_k ns) (sorted_by fst distances) in
        match k_nearest with
        | [] => Raise (ZeroDivisionError "division by zero")
        | _ =>
            let avg_distance := fdiv (fsum (map fst k_nearest)) (of_nat (length k_nearest)) in
            Ok {| nr_novelty_score := avg_distance;
                  nr_nearest_neighbors := map snd (take 5 k_nearest);
                  nr_is_novel := fleb (ns_threshold ns) avg_distance |}
        end
    end.

Definition add_to_archive (x : Individual I) (ns : NoveltySearch) : NoveltySearch :=
  {| ns_k := ns_k ns; ns_threshold := ns_threshold ns;
     ns_archive := last_items (ns_archive_limit ns) (ns_archive ns ++ [x]);
     ns_archive_limit := ns_archive_limit ns |}.

(** [for ind in population]: [todo] is what is left of it. *)
Fixpoint novelty_loop (population todo : list (Individual I)) : M NoveltySearch (list (Individual I)) :=
  match todo with
  | [] => mret []
  | x :: rest =>
      ns ← gets id;
      result ← lift_res (compute_novelty x population ns);
      _ ← when (nr_is_novel result) (modify (add_to_archive x));
      updated ← novelty_loop population rest;
      mret (with_novelty (nr_novelty_score result) x :: updated)
  end.
Definition update_novelty_scores (population : list (Individual I))
    : M NoveltySearch (list (Individual I)) := novelty_loop population population.

(** ** ParetoOptimizer *)

Record ParetoFront : Set := { pf_individuals : list (Individual I); pf_generation : Z }.
Definition front_size (f : ParetoFront) : Z := Z.of_nat (length (pf_individuals f)).
Definition contains (individual_id : string) (f : ParetoFront) : bool :=
  existsb (fun x => bool_decide (in_id x = individual_id)) (pf_individuals f).

Definition COMPOSITE_OBJECTIVES : list (string * list string) :=
  [("structural_quality", ["complexity"; "coupling"; "cohesion"; "maintainability"; "extensibility"]);
   ("operational_quality", ["reliability"; "scalability"; "observability"]);
   ("security_compliance", ["security_coverage"; "deployment_completeness"]);
   ("knowledge_quality", ["documentation"; "architecture_quality"])].

Record ParetoOptimizer : Set := { op_use_composite : bool; op_history : list ParetoFront }.

Definition reduce_fitness (fitness : FitnessVector) : FitnessVector :=
  {| fv_values := map (fun p =>
       let values := map (fun d => fitness_get d fzero fitness) p.2 in
       (p.1, match values with [] => fzero | _ => fdiv (fsum values) (of_nat (length values)) end))
       COMPOSITE_OBJECTIVES |}.

Abbreviation valued := (Individual I * FitnessVector)%type.

(** The loop over [j]: how often the vector of [i] is dominated. *)
Fixpoint domination_count (i : nat) (a : FitnessVector) (j : nat) (individuals : list valued) (count : Z)
    : res Z :=
  match individuals with
  | [] => Ok count
  | (_, b) :: rest =>
      if (i =? j)%nat then domination_count i a (S j) rest count
      else match dominates a b with
           | Ok true => domination_count i a (S j) rest count
           | Ok false =>
               b_dominates ← dominates b a;
               domination_count i a (S j) rest (if (b_dominates : bool) then count + 1 else count)
           | Raise e => Raise e
           end
  end.
Fixpoint front_loop (all : list valued) (i : nat) (todo : list valued) : res (list (Individual I)) :=
  match todo with
  | [] => Ok []
  | (x, a) :: rest =>
      count ← domination_count i a 0 all 0;
      front ← front_loop all (S i) rest;
      Ok (if count =? 0 then x :: front else front)
  end.
Definition fast_non_dominated_sort (individuals : list valued) : res (list (Individual I)) :=
  front_loop individuals 0 individuals.

Definition compute_front (population : list (Individual I)) (generation : Z)
    : M ParetoOptimizer ParetoFront :=
  match population with
  | [] => mret {| pf_individuals := []; pf_generation := generation |}
  | _ =>
      use_composite ← gets op_use_composite;
      non_dominated ← lift_res (fast_non_dominated_sort
        (map (fun x => (x, if (use_composite : bool) then reduce_fitness (in_fitness x) else in_fitness x)) population));
      let front := {| pf_individuals := non_dominated; pf_generation := generation |} in
      _ ← modify (fun o => {| op_use_composite := op_use_composite o;
                              op_history := op_history o ++ [front] |});
      mret front
  end.

(** *** Crowding distance *)

Fixpoint add_gaps (dim : string) (range_f : float) (sorted_inds : list (Individual I))
    (distances : list (string * float)) : list (string * float) :=
  match sorted_inds with
  | a :: ((b :: ((c :: _) as rest')) as rest) =>
      let gap := fdiv (fsub (fitness_get dim fzero (in_fitness c)) (fitness_get dim fzero (in_fitness a))) range_f in
      add_gaps dim range_f rest
        (dset (in_id b) (fadd (dget_or (in_id b) distances fzero) gap) distances)
  | _ => distances
  end.
Definition crowd_dimension (front : ParetoFront) (distances : list (string * float)) (dim : string)
    : list (string * float) :=
  let sorted_inds := sorted_by (fun x => fitness_get dim fzero (in_fitness x)) (pf_individuals front) in
  match sorted_inds, last sorted_inds with
  | lo :: _, Some hi =>
      let distances := dset (in_id hi) (S754_infinity false)
                         (dset (in_id lo) (S754_infinity false) distances) in
      let range_f := fsub (fitness_get dim fzero (in_fitness hi)) (fitness_get dim fzero (in_fitness lo)) in
      if feqb range_f fzero then distances else add_gaps dim range_f sorted_inds distances
  | _, _ => distances
  end.
Definition crowding_distance (front : ParetoFront) : list (string * float) :=
  if front_size front <=? 2
  then fold_left (fun d x => dset (in_id x) (S754_infinity false) d) (pf_individuals front) []
  else
    let distances := fold_left (fun d x => dset (in_id x) fzero d) (pf_individuals front) [] in
    let dims := match pf_individuals front with x :: _ => dimensions (in_fitness x) | [] => [] end in
    fold_left (crowd_dimension front) dims distances.

(** *** Preference *)

Definition preference_map : list (string * string) :=
  [("lowest_cost", "deployment_completeness"); ("highest_scalability", "scalability");
   ("highest_maintainability", "maintainability"); ("highest_security", "security_coverage");
   ("balanced", "")].
Definition select_by_preference (front : ParetoFront) (preference : string)
    : res (option (Individual I)) :=
  if front_size front =? 0 then Ok None
  else
    let dim := dget_or preference preference_map "" in
    best ← (if negb (truthy dim) || bool_decide (preference = "balanced")
            then max_by composite_fitness (pf_individuals front)
            else max_by (fun x => fitness_get dim fzero (in_fitness x)) (pf_individuals front));
    Ok (Some best).
End Diversity.

Arguments DiversityManager : clear implicits.
Arguments NoveltySearch : clear implicits.
Arguments ParetoFront : clear implicits.
Arguments ParetoOptimizer : clear implicits.
