(* ===== verification/EvoEngine.v ===== *)
(** * Evolution engine: the orchestrator

    [constitutional_architecture/engine/evolution_engine.py] with
    [mutation_registry.py].  What the engine uses of the ISR and of
    isr_adapter.py is the interface [Adapter]; operators are records of
    functions.  The engine builds a mutation engine, a crossover engine, a
    planner, a validator and a memory that no method of it uses: they are left
    out.  The loop that fills a generation carries fuel. *)

From Stdlib Require Import SpecFloat.
From S2P Require Import Prelude PyFloat PyVal PyText IsrModel TypedGraph EvoModels EvoPopulation.
From S2P Require Import EvoControl EvoDiversity.
Open Scope Z_scope.

(** ** MutationRegistry *)

Record MutationOperatorSpec : Type := {
  mo_identifier : string;
  mo_category : MutationCategory;
  mo_mutation_class : MutationClass;
  mo_description : string;
  mo_risk_level : string;
  mo_affected_node_types : list string;
  mo_affected_edge_types : list string;
  mo_estimated_complexity : float;
  mo_expected_fitness_impact : list (string * float);
  mo_reversible : bool;
  mo_inverse_operator : option string;
  mo_required_capabilities : list string;
  mo_precondition_fn : option (TypedGraph -> string -> res bool);
  mo_apply_fn : option (TypedGraph -> string -> pydict -> M World (TypedGraph * pydict));
  mo_postcondition_fn : option (TypedGraph -> res bool);
  mo_explain_fn : option (TypedGraph -> string -> pydict -> res string);
}.

Record MutationRegistry : Type := {
  mr_operators : list (string * MutationOperatorSpec);
  mr_by_category : list (MutationCategory * list string);
  mr_by_class : list (MutationClass * list string);
}.
Definition empty_registry : MutationRegistry :=
  {| mr_operators := []; mr_by_category := []; mr_by_class := [] |}.

Definition register (op : MutationOperatorSpec) : M MutationRegistry unit :=
  present ← gets (fun r => dmem (mo_identifier op) (mr_operators r));
  if (present : bool)
  then raise (ValueError ("Operator '" +:+ mo_identifier op +:+ "' already registered"))
  else modify (fun r =>
    {| mr_operators := dset (mo_identifier op) op (mr_operators r);
       mr_by_category := append_under (mo_category op) (mo_identifier op) (mr_by_category r);
       mr_by_class := append_under (mo_mutation_class op) (mo_identifier op) (mr_by_class r) |}).

(** [xs.remove(v)] when [v in xs]. *)
Fixpoint remove_one (v : string) (xs : list string) : list string :=
  match xs with
  | [] => []
  | x :: xs' => if bool_decide (x = v) then xs' else x :: remove_one v xs'
  end.
Definition remove_under {K} `{EqDecision K} (k : K) (v : string) (d : list (K * list string)) :
    list (K * list string) :=
  match dget k d with Some xs => dset k (remove_one v xs) d | None => d end.

Definition unregister (identifier : string) : M MutationRegistry unit :=
  found ← gets (fun r => dget identifier (mr_operators r));
  match found with
  | None => raise (ValueError ("Operator '" +:+ identifier +:+ "' not found"))
  | Some op => modify (fun r =>
      {| mr_operators := ddel identifier (mr_operators r);
         mr_by_category := remove_under (mo_category op) identifier (mr_by_category r);
         mr_by_class := remove_under (mo_mutation_class op) identifier (mr_by_class r) |})
  end.

Definition registry_get (identifier : string) (r : MutationRegistry) : option MutationOperatorSpec :=
  dget identifier (mr_operators r).
Definition operators_of (r : MutationRegistry) (ids : list string) : res (list MutationOperatorSpec) :=
  map_res (fun i => match registry_get i r with Some op => Ok op | None => Raise (KeyError i) end) ids.
Definition get_by_category (category : MutationCategory) (r : MutationRegistry) : res (list MutationOperatorSpec) :=
  operators_of r (dget_or category (mr_by_category r) []).
Definition get_by_class (mutation_class : MutationClass) (r : MutationRegistry)
    : res (list MutationOperatorSpec) :=
  operators_of r (dget_or mutation_class (mr_by_class r) []).
Definition risk_order : list (string * Z) := [("low", 0); ("medium", 1); ("high", 2); ("critical", 3)].
Definition get_by_risk (max_risk : string) (r : MutationRegistry) : list MutationOperatorSpec :=
  let max_level := dget_or max_risk risk_order 3 in
  List.filter (fun op => dget_or (mo_risk_level op) risk_order 1 <=? max_level) (dvalues (mr_operators r)).
Definition all_identifiers (r : MutationRegistry) : list string := dkeys (mr_operators r).

(** ** The ISR and its adapter *)

(** [ISR.content_hash], [isr.with_system(isr.system)], and the functions of
    isr_adapter.py. *)
Class Adapter (I : Set) := {
  content_hash : I -> string;
  restamped : I -> M World I;
  isr_to_graph : I -> M World TypedGraph;
  graph_to_isr : TypedGraph -> I -> M World I;
  evaluate_fitness : I -> M World FitnessVector;
}.

Section Engine.
Context {I : Set} `{Surroundings} `{Adapter I}.

(** ** EvolutionEngine *)

Record Engine : Type := {
  en_config : EvolutionConfig;
  en_world : World;
  en_event_bus : EventBus;
  en_registry : MutationRegistry;
  en_population_manager : PopulationManager I;
  en_pareto : ParetoOptimizer I;
  en_elite_manager : EliteManager I;
  en_diversity_manager : DiversityManager I;
  en_novelty_search : NoveltySearch I;
  en_adaptive : AdaptiveMutation;
  en_convergence_detector : ConvergenceDetector;
  en_scheduler : EvolutionScheduler;
  en_lineage : LineageTracker;
  en_metrics : EvolutionMetrics;
  en_initialised : bool;
  en_stopped : bool;
  en_current_pareto_front : option (ParetoFront I);
}.

Definition new_engine (config : EvolutionConfig) (registry : MutationRegistry) (bus : EventBus)
    (w : World) : Engine := {|
  en_config := config; en_world := w; en_event_bus := bus; en_registry := registry;
  en_population_manager := {| pm_config := config; pm_population := []; pm_generation := 0 |};
  en_pareto := {| op_use_composite := true; op_history := [] |};
  en_elite_manager := new_elite_manager (cf_elite_count config);
  en_diversity_manager := {| dm_config := config; dm_species := []; dm_archive := [] |};
  en_novelty_search := new_novelty_search; en_adaptive := new_adaptive config;
  en_convergence_detector := new_detector config; en_scheduler := new_scheduler config;
  en_lineage := empty_lineage; en_metrics := no_metrics; en_initialised := false;
  en_stopped := false; en_current_pareto_front := None |}.

(** Assignments to the attributes. *)
Definition put_world (w : World) (e : Engine) : Engine :=
  {| en_config := en_config e; en_world := w; en_event_bus := en_event_bus e;
     en_registry := en_registry e; en_population_manager := en_population_manager e;
     en_pareto := en_pareto e; en_elite_manager := en_elite_manager e;
     en_diversity_manager := en_diversity_manager e; en_novelty_search := en_novelty_search e;
     en_adaptive := en_adaptive e; en_convergence_detector := en_convergence_detector e;
     en_scheduler := en_scheduler e; en_lineage := en_lineage e; en_metrics := en_metrics e;
     en_initialised := en_initialised e; en_stopped := en_stopped e;
     en_current_pareto_front := en_current_pareto_front e |}.
Definition put_event_bus (b : EventBus) (e : Engine) : Engine :=
  {| en_config := en_config e; en_world := en_world e; en_event_bus := b;
     en_registry := en_registry e; en_population_manager := en_population_manager e;
     en_pareto := en_pareto e; en_elite_manager := en_elite_manager e;
     en_diversity_manager := en_diversity_manager e; en_novelty_search := en_novelty_search e;
     en_adaptive := en_adaptive e; en_convergence_detector := en_convergence_detector e;
     en_scheduler := en_scheduler e; en_lineage := en_lineage e; en_metrics := en_metrics e;
     en_initialised := en_initialised e; en_stopped := en_stopped e;
     en_current_pareto_front := en_current_pareto_front e |}.
Definition put_population_manager (pm : PopulationManager I) (e : Engine) : Engine :=
  {| en_config := en_config e; en_world := en_world e; en_event_bus := en_event_bus e;
     en_registry := en_registry e; en_population_manager := pm; en_pareto := en_pareto e;
     en_elite_manager := en_elite_manager e; en_diversity_manager := en_diversity_manager e;
     en_novelty_search := en_novelty_search e; en_adaptive := en_adaptive e;
     en_convergence_detector := en_convergence_detector e; en_scheduler := en_scheduler e;
     en_lineage := en_lineage e; en_metrics := en_metrics e; en_initialised := en_initialised e;
     en_stopped := en_stopped e; en_current_pareto_front := en_current_pareto_front e |}.
Definition put_pareto (o : ParetoOptimizer I) (e : Engine) : Engine :=
  {| en_config := en_config e; en_world := en_world e; en_event_bus := en_event_bus e;
     en_registry := en_registry e; en_population_manager := en_population_manager e;
     en_pareto := o; en_elite_manager := en_elite_manager e;
     en_diversity_manager := en_diversity_manager e; en_novelty_search := en_novelty_search e;
     en_adaptive := en_adaptive e; en_convergence_detector := en_convergence_detector e;
     en_scheduler := en_scheduler e; en_lineage := en_lineage e; en_metrics := en_metrics e;
     en_initialised := en_initialised e; en_stopped := en_stopped e;
     en_current_pareto_front := en_current_pareto_front e |}.
Definition put_elite_manager (em : EliteManager I) (e : Engine) : Engine :=
  {| en_config := en_config e; en_world := en_world e; en_event_bus := en_event_bus e;
     en_registry := en_registry e; en_population_manager := en_population_manager e;
     en_pareto := en_pareto e; en_elite_manager := em;
     en_diversity_manager := en_diversity_manager e; en_novelty_search := en_novelty_search e;
     en_adaptive := en_adaptive e; en_convergence_detector := en_convergence_detector e;
     en_scheduler := en_scheduler e; en_lineage := en_lineage e; en_metrics := en_metrics e;
     en_initialised := en_initialised e; en_stopped := en_stopped e;
     en_current_pareto_front := en_current_pareto_front e |}.
Definition put_diversity_manager (dm : DiversityManager I) (e : Engine) : Engine :=
  {| en_config := en_config e; en_world := en_world e; en_event_bus := en_event_bus e;
     en_registry := en_registry e; en_population_manager := en_population_manager e;
     en_pareto := en_pareto e; en_elite_manager := en_elite_manager e; en_diversity_manager := dm;
     en_novelty_search := en_novelty_search e; en_adaptive := en_adaptive e;
     en_convergence_detector := en_convergence_detector e; en_scheduler := en_scheduler e;
     en_lineage := en_lineage e; en_metrics := en_metrics e; en_initialised := en_initialised e;
     en_stopped := en_stopped e; en_current_pareto_front := en_current_pareto_front e |}.
Definition put_novelty_search (ns : NoveltySearch I) (e : Engine) : Engine :=
  {| en_config := en_config e; en_world := en_world e; en_event_bus := en_event_bus e;
     en_registry := en_registry e; en_population_manager := en_population_manager e;
     en_pareto := en_pareto e; en_elite_manager := en_elite_manager e;
     en_diversity_manager := en_diversity_manager e; en_novelty_search := ns;
     en_adaptive := en_adaptive e; en_convergence_detector := en_convergence_detector e;
     en_scheduler := en_scheduler e; en_lineage := en_lineage e; en_metrics := en_metrics e;
     en_initialised := en_initialised e; en_stopped := en_stopped e;
     en_current_pareto_front := en_current_pareto_front e |}.
Definition put_adaptive (a : AdaptiveMutation) (e : Engine) : Engine :=
  {| en_config := en_config e; en_world := en_world e; en_event_bus := en_event_bus e;
     en_registry := en_registry e; en_population_manager := en_population_manager e;
     en_pareto := en_pareto e; en_elite_manager := en_elite_manager e;
     en_diversity_manager := en_diversity_manager e; en_novelty_search := en_novelty_search e;
     en_adaptive := a; en_convergence_detector := en_convergence_detector e;
     en_scheduler := en_scheduler e; en_lineage := en_lineage e; en_metrics := en_metrics e;
     en_initialised := en_initialised e; en_stopped := en_stopped e;
     en_current_pareto_front := en_current_pareto_front e |}.
Definition put_convergence_detector (d : ConvergenceDetector) (e : Engine) : Engine :=
  {| en_config := en_config e; en_world := en_world e; en_event_bus := en_event_bus e;
     en_registry := en_registry e; en_population_manager := en_population_manager e;
     en_pareto := en_pareto e; en_elite_manager := en_elite_manager e;
     en_diversity_manager := en_diversity_manager e; en_novelty_search := en_novelty_search e;
     en_adaptive := en_adaptive e; en_convergence_detector := d; en_scheduler := en_scheduler e;
     en_lineage := en_lineage e; en_metrics := en_metrics e; en_initialised := en_initialised e;
     en_stopped := en_stopped e; en_current_pareto_front := en_current_pareto_front e |}.
Definition put_scheduler (sc : EvolutionScheduler) (e : Engine) : Engine :=
  {| en_config := en_config e; en_world := en_world e; en_event_bus := en_event_bus e;
     en_registry := en_registry e; en_population_manager := en_population_manager e;
     en_pareto := en_pareto e; en_elite_manager := en_elite_manager e;
     en_diversity_manager := en_diversity_manager e; en_novelty_search := en_novelty_search e;
     en_adaptive := en_adaptive e; en_convergence_detector := en_convergence_detector e;
     en_scheduler := sc; en_lineage := en_lineage e; en_metrics := en_metrics e;
     en_initialised := en_initialised e; en_stopped := en_stopped e;
     en_current_pareto_front := en_current_pareto_front e |}.
Definition put_lineage (t : LineageTracker) (e : Engine) : Engine :=
  {| en_config := en_config e; en_world := en_world e; en_event_bus := en_event_bus e;
     en_registry := en_registry e; en_population_manager := en_population_manager e;
     en_pareto := en_pareto e; en_elite_manager := en_elite_manager e;
     en_diversity_manager := en_diversity_manager e; en_novelty_search := en_novelty_search e;
     en_adaptive := en_adaptive e; en_convergence_detector := en_convergence_detector e;
     en_scheduler := en_scheduler e; en_lineage := t; en_metrics := en_metrics e;
     en_initialised := en_initialised e; en_stopped := en_stopped e;
     en_current_pareto_front := en_current_pareto_front e |}.
Definition put_metrics (m : EvolutionMetrics) (e : Engine) : Engine :=
  {| en_config := en_config e; en_world := en_world e; en_event_bus := en_event_bus e;
     en_registry := en_registry e; en_population_manager := en_population_manager e;
     en_pareto := en_pareto e; en_elite_manager := en_elite_manager e;
     en_diversity_manager := en_diversity_manager e; en_novelty_search := en_novelty_search e;
     en_adaptive := en_adaptive e; en_convergence_detector := en_convergence_detector e;
     en_scheduler := en_scheduler e; en_lineage := en_lineage e; en_metrics := m;
     en_initialised := en_initialised e; en_stopped := en_stopped e;
     en_current_pareto_front := en_current_pareto_front e |}.
Definition put_current_pareto_front (f : option (ParetoFront I)) (e : Engine) : Engine :=
  {| en_config := en_config e; en_world := en_world e; en_event_bus := en_event_bus e;
     en_registry := en_registry e; en_population_manager := en_population_manager e;
     en_pareto := en_pareto e; en_elite_manager := en_elite_manager e;
     en_diversity_manager := en_diversity_manager e; en_novelty_search := en_novelty_search e;
     en_adaptive := en_adaptive e; en_convergence_detector := en_convergence_detector e;
     en_scheduler := en_scheduler e; en_lineage := en_lineage e; en_metrics := en_metrics e;
     en_initialised := en_initialised e; en_stopped := en_stopped e;
     en_current_pareto_front := f |}.
Definition put_flags (initialised stopped : bool) (e : Engine) : Engine :=
  {| en_config := en_config e; en_world := en_world e; en_event_bus := en_event_bus e;
     en_registry := en_registry e; en_population_manager := en_population_manager e;
     en_pareto := en_pareto e; en_elite_manager := en_elite_manager e;
     en_diversity_manager := en_diversity_manager e; en_novelty_search := en_novelty_search e;
     en_adaptive := en_adaptive e; en_convergence_detector := en_convergence_detector e;
     en_scheduler := en_scheduler e; en_lineage := en_lineage e; en_metrics := en_metrics e;
     en_initialised := initialised; en_stopped := stopped;
     en_current_pareto_front := en_current_pareto_front e |}.

Definition in_world {A} (m : M World A) : M Engine A := zoom en_world put_world m.

Definition publish_engine (event_type : EventType) (generation : Z) (data : pydict) : M Engine unit :=
  bus ← gets en_event_bus;
  bus ← in_world (publish_event event_type generation data bus);
  modify (put_event_bus bus).

Definition initialise (seed_isr : I) : M Engine unit :=
  pm ← gets en_population_manager;
  pm ← in_world (pm_initialise seed_isr pm);
  _ ← modify (put_population_manager pm);
  _ ← modify (put_flags true false);
  ids ← gets (fun e => all_identifiers (en_registry e));
  _ ← modify (fun e => put_adaptive (fold_left (fun a op_id => register_operator op_id fone a) ids
                                       (en_adaptive e)) e);
  size ← gets (fun e => cf_population_size (en_config e));
  publish_engine POPULATION_CREATED 0 [("population_size", VInt size)].

Definition stop : M Engine unit :=
  _ ← modify (fun e => put_flags (en_initialised e) true e);
  generation ← gets (fun e => pm_generation (en_population_manager e));
  publish_engine EVOLUTION_STOPPED generation [].

(** *** Evaluation *)

Fixpoint evaluate_all (population : list (Individual I)) : M World (list (Individual I)) :=
  match population with
  | [] => mret []
  | ind :: rest =>
      fitness ← evaluate_fitness (in_isr ind);
      evaluated ← evaluate_all rest;
      mret (with_fitness fitness ind :: evaluated)
  end.
Definition evaluate_population : M Engine unit :=
  population ← gets (fun e => pm_population (en_population_manager e));
  evaluated ← in_world (evaluate_all population);
  modify (fun e => put_population_manager (set_population evaluated (en_population_manager e)) e).

(** *** Production *)

(** The child of a mutation that is not applied. *)
Definition unmutated_child (parent : Individual I) (generation : Z) : M Engine (Individual I) :=
  new_isr ← in_world (restamped (in_isr parent));
  id ← in_world (new_id "ind" 12);
  in_world (new_individual id new_isr (in_fitness parent) [in_id parent] (generation + 1)
              (in_mutation_history parent)).

(** [except (ValueError, KeyError, IndexError)]. *)
Definition or_restamped (m : M World I) (isr : I) : M World I :=
  try_catch m (fun ex => match ex with
                         | ValueError _ | KeyError _ | IndexError _ => restamped isr
                         | _ => raise ex
                         end).

Definition record_child (child : Individual I) (mutation_applied : string)
    (fitness_before : option (list (string * float))) (reasoning run_id : string) : M Engine unit :=
  lineage ← gets en_lineage;
  lineage ← in_world (lineage_record content_hash child mutation_applied "" fitness_before reasoning
                        run_id lineage);
  modify (put_lineage lineage).

Definition choose_target (candidates : list string) : M Engine string :=
  match candidates with [] => mret "" | _ => in_world (rng_choice candidates) end.

(** [[nid for nid in candidates if op_spec.precondition_fn(graph, nid)]]. *)
Fixpoint filter_res (f : string -> res bool) (xs : list string) : res (list string) :=
  match xs with
  | [] => Ok []
  | x :: rest => b ← f x; ys ← filter_res f rest; Ok (if (b : bool) then x :: ys else ys)
  end.

(** A target of the operator, or none. *)
Definition find_target (op_spec : MutationOperatorSpec) (graph : TypedGraph) : M Engine (option string) :=
  let candidates := dkeys (g_nodes graph) in
  target_id ← choose_target candidates;
  match mo_precondition_fn op_spec with
  | None => mret (Some target_id)
  | Some pre =>
      holds ← lift_res (pre graph target_id);
      if (holds : bool) then mret (Some target_id)
      else
        candidates ← lift_res (filter_res (pre graph) candidates);
        target_id ← choose_target candidates;
        mret (if truthy target_id then Some target_id else None)
  end.

Definition apply_operator (parent : Individual I) (generation : Z) (op_id : string)
    (op_spec : MutationOperatorSpec)
    (apply_fn : TypedGraph -> string -> pydict -> M World (TypedGraph * pydict))
    (graph : TypedGraph) (target_id : string) : M Engine (Individual I) :=
  applied ← in_world (apply_fn graph target_id []);
  let '(new_graph, _) := applied in
  new_isr ← in_world (or_restamped (graph_to_isr new_graph (in_isr parent)) (in_isr parent));
  id ← in_world (new_id "ind" 12);
  child ← in_world (new_individual id new_isr (in_fitness parent) [in_id parent] (generation + 1)
                      (in_mutation_history parent ++ [op_id]));
  run_id ← gets (fun e => cf_run_id (en_config e));
  _ ← record_child child op_id (Some (fitness_to_dict (in_fitness parent)))
        ("Applied '" +:+ mo_description op_spec +:+ "' to " +:+ target_id) run_id;
  _ ← publish_engine MUTATION_APPLIED generation
        [("operator", VStr op_id); ("target", VStr target_id); ("parent_id", VStr (in_id parent));
         ("child_id", VStr (in_id child)); ("success", VBool true)];
  mret child.

Definition mutate_individual (parent : Individual I) (generation : Z) : M Engine (Individual I) :=
  graph ← in_world (isr_to_graph (in_isr parent));
  operator_ids ← gets (fun e => all_identifiers (en_registry e));
  match operator_ids with
  | [] => unmutated_child parent generation
  | _ =>
      op_id ← in_world (rng_choice operator_ids);
      op_spec ← gets (fun e => registry_get op_id (en_registry e));
      match op_spec with
      | None => unmutated_child parent generation
      | Some op_spec =>
          match mo_apply_fn op_spec with
          | None => unmutated_child parent generation
          | Some apply_fn =>
              target ← find_target op_spec graph;
              match target with
              | None => unmutated_child parent generation
              | Some target_id =>
                  apply_operator parent generation op_id op_spec apply_fn graph target_id
              end
          end
      end
  end.

(** The child of a crossover: a copy of the first parent. *)
Definition crossover_child (generation : Z) : M Engine (Individual I) :=
  pm ← gets en_population_manager;
  parents ← in_world (select_pair pm);
  let '(parent_a, parent_b) := parents in
  id ← in_world (new_id "ind" 12);
  in_world (new_individual id (in_isr parent_a) (in_fitness parent_a) [in_id parent_a; in_id parent_b]
              (generation + 1) []).

(** [try: ... except ValueError: pass]: the child, if there is one. *)
Definition try_crossover (generation : Z) : M Engine (option (Individual I)) :=
  try_catch
    (child ← crossover_child generation;
     _ ← modify (fun e => put_metrics (record_crossover (en_metrics e)) e);
     _ ← record_child child "" None "crossover" "";
     mret (Some child))
    (fun ex => match ex with ValueError _ => mret None | _ => raise ex end).

Definition mutation_child (generation : Z) : M Engine (Individual I) :=
  pm ← gets en_population_manager;
  parent ← in_world (select pm);
  mutate_individual parent generation.

(** [while len(new_population) < target_size]; [None] is fuel that ran out. *)
Fixpoint produce_loop (fuel : nat) (target_size : Z) (generation : Z) (new_population : list (Individual I))
    : M Engine (option (list (Individual I))) :=
  if target_size <=? Z.of_nat (length new_population) then mret (Some new_population)
  else match fuel with
       | O => mret None
       | S fuel' =>
           r ← in_world rng_random;
           rate ← gets (fun e => effective_crossover_rate (en_scheduler e));
           child ← (if fltb r rate then try_crossover generation
                    else child ← mutation_child generation; mret (Some child));
           produce_loop fuel' target_size generation
             match child with Some child => new_population ++ [child] | None => new_population end
       end.

Definition produce_next_generation (fuel : nat) (generation : Z) : M Engine (option (list (Individual I))) :=
  target_size ← gets (fun e => cf_population_size (en_config e));
  produced ← produce_loop fuel target_size generation [];
  mret match produced with Some xs => Some (first_items target_size xs) | None => None end.

(** *** A generation *)

Record GenerationResult : Type := {
  gr_generation : Z;
  gr_population_size : Z;
  gr_best_fitness : float;
  gr_mean_fitness : float;
  gr_diversity : float;
  gr_pareto_front_size : Z;
  gr_phase : string;
  gr_convergence : ConvergenceStatus;
  gr_metrics : GenerationMetrics;
}.

Definition check_convergence (pop_stats : PopulationStats) : M Engine ConvergenceStatus :=
  zoom en_convergence_detector put_convergence_detector
    (convergence_update (ps_mean_fitness pop_stats) (ps_max_fitness pop_stats)).

(** The population with its species, which becomes the engine's. *)
Definition speciate_population : M Engine (list (Individual I)) :=
  population ← gets (fun e => pm_population (en_population_manager e));
  dm ← gets en_diversity_manager;
  speciated ← in_world (speciate population dm);
  _ ← modify (put_diversity_manager speciated.2);
  _ ← modify (fun e => put_population_manager (set_population speciated.1 (en_population_manager e)) e);
  mret speciated.1.

(** [update_novelty_scores] and the assignment of its result. *)
Definition score_novelty (population : list (Individual I)) : M Engine unit :=
  population ← zoom en_novelty_search put_novelty_search (update_novelty_scores population);
  modify (fun e => put_population_manager (set_population population (en_population_manager e)) e).

(** [phase = self._scheduler.update(generation, diversity, convergence)]. *)
Definition update_phase (generation : Z) (diversity : float) (convergence : ConvergenceStatus)
    : M Engine unit :=
  sc ← gets en_scheduler;
  bus ← gets en_event_bus;
  updated ← in_world (scheduler_update generation diversity convergence false sc bus);
  _ ← modify (put_scheduler updated.1);
  modify (put_event_bus updated.2).

(** From the evaluation to the phase of the generation. *)
Definition assess (generation : Z)
    : M Engine (PopulationStats * float * float * ConvergenceStatus) :=
  _ ← evaluate_population;
  population ← gets (fun e => pm_population (en_population_manager e));
  _ ← modify (fun e => put_elite_manager (elite_update population (en_elite_manager e)) e);
  front ← zoom en_pareto put_pareto (compute_front population generation);
  _ ← modify (put_current_pareto_front (Some front));
  population ← speciate_population;
  diversity ← lift_res (compute_diversity population);
  entropy ← gets (fun e => compute_entropy (en_diversity_manager e));
  _ ← score_novelty population;
  pop_stats ← gets (fun e => stats (en_population_manager e));
  convergence ← check_convergence pop_stats;
  _ ← update_phase generation diversity convergence;
  mret (pop_stats, diversity, entropy, convergence).

(** [None] is fuel that ran out. *)
Definition step (fuel : nat) : M Engine (option GenerationResult) :=
  initialised ← gets en_initialised;
  if negb initialised then raise (RuntimeError "Engine not initialised.")
  else
    start_time ← in_world read_perf;
    generation ← gets (fun e => pm_generation (en_population_manager e));
    _ ← publish_engine GENERATION_STARTED generation [];
    assessed ← assess generation;
    let '(pop_stats, diversity, entropy, convergence) := assessed in
    produced ← produce_next_generation fuel generation;
    match produced with
    | None => mret None
    | Some new_population =>
        em ← gets en_elite_manager;
        _ ← modify (fun e => put_population_manager (advance_generation
              (set_population (inject new_population em) (en_population_manager e))) e);
        end_time ← in_world read_perf;
        phase ← gets (fun e => phase_value (sc_current_phase (en_scheduler e)));
        rate ← gets (fun e => overall_mutation_success_rate (en_metrics e));
        species ← gets (fun e => species_count (en_diversity_manager e));
        let gen_metrics := {|
          gm_generation := generation; gm_population_size := ps_size pop_stats;
          gm_mean_fitness := ps_mean_fitness pop_stats; gm_max_fitness := ps_max_fitness pop_stats;
          gm_min_fitness := ps_min_fitness pop_stats; gm_diversity := diversity;
          gm_entropy := entropy; gm_mutation_success_rate := rate; gm_crossover_count := 0;
          gm_mutation_count := 0; gm_novel_architectures := 0; gm_species_count := species;
          gm_convergence_status := cs_recommendation convergence;
          gm_generation_time_ms := fmul (fsub end_time start_time) (of_Z 1000) |} in
        _ ← modify (fun e => put_metrics (record_generation gen_metrics pop_stats (en_metrics e)) e);
        _ ← publish_engine GENERATION_COMPLETED generation
              [("best_fitness", VFloat (ps_max_fitness pop_stats)); ("diversity", VFloat diversity);
               ("phase", VStr phase)];
        front ← gets (fun e => match en_current_pareto_front e with Some f => front_size f | None => 0 end);
        mret (Some {|
          gr_generation := generation; gr_population_size := ps_size pop_stats;
          gr_best_fitness := ps_max_fitness pop_stats; gr_mean_fitness := ps_mean_fitness pop_stats;
          gr_diversity := diversity; gr_pareto_front_size := front; gr_phase := phase;
          gr_convergence := convergence; gr_metrics := gen_metrics |})
    end.

(** *** A run *)

Record EvolutionResult : Type := {
  er_run_id : string;
  er_generations_completed : Z;
  er_best_individual : option (Individual I);
  er_pareto_front : ParetoFront I;
  er_total_mutations : Z;
  er_mutation_success_rate : float;
  er_fitness_improvement : float;
  er_final_phase : string;
  er_lineage_records : Z;
}.

Definition build_result (run_id : string) (e : Engine) : EvolutionResult := {|
  er_run_id := run_id;
  er_generations_completed := pm_generation (en_population_manager e);
  er_best_individual := head (get_best 1 (en_population_manager e));
  er_pareto_front := match en_current_pareto_front e with
                     | Some f => f
                     | None => {| pf_individuals := []; pf_generation := 0 |}
                     end;
  er_total_mutations := mt_total_mutations (en_metrics e);
  er_mutation_success_rate := overall_mutation_success_rate (en_metrics e);
  er_fitness_improvement := fitness_improvement (en_metrics e);
  er_final_phase := phase_value (sc_current_phase (en_scheduler e));
  er_lineage_records := total_records (en_lineage e) |}.

(** [for _ in range(max_gen)]; [false] is fuel that ran out. *)
Fixpoint run_loop (fuel generations : nat) : M Engine bool :=
  match generations with
  | O => mret true
  | S generations' =>
      stopped ← gets en_stopped;
      if (stopped : bool) then mret true
      else
        stepped ← step fuel;
        match stepped with
        | None => mret false
        | Some _ =>
            pop_stats ← gets (fun e => stats (en_population_manager e));
            convergence ← check_convergence pop_stats;
            phase ← gets (fun e => sc_current_phase (en_scheduler e));
            if cs_is_stagnant convergence && bool_decide (phase = REFINEMENT) then mret true
            else run_loop fuel generations'
        end
  end.

Definition run (fuel : nat) (generations : option Z) : M Engine (option EvolutionResult) :=
  initialised ← gets en_initialised;
  if negb initialised then raise (RuntimeError "Engine not initialised. Call initialise() first.")
  else
    config ← gets en_config;
    let max_gen := match generations with
                   | Some g => if g =? 0 then cf_max_generations config else g
                   | None => cf_max_generations config
                   end in
    run_id ← (if truthy (cf_run_id config) then mret (cf_run_id config) else in_world (new_id "run" 12));
    finished ← run_loop fuel (Z.to_nat max_gen);
    if (finished : bool) then e ← gets id; mret (Some (build_result run_id e)) else mret None.

(** *** Queries *)

Definition get_elites_of (e : Engine) : list (Individual I) := em_elites (en_elite_manager e).
Definition get_best_of (e : Engine) : option (Individual I) := head (get_best 1 (en_population_manager e)).
Definition explain (repr_list : list string -> string) (individual_id : string) (e : Engine)
    : option string :=
  match get_entry (en_lineage e) individual_id with
  | None => Some ("No lineage record for '" +:+ individual_id +:+ "'")
  | Some entry =>
      match get_mutation_history (en_lineage e) individual_id with
      | None => None
      | Some mutations =>
          Some ("Individual " +:+ individual_id +:+ " (gen " +:+ str_of_int (le_generation entry) +:+ "): "
                +:+ "ISR hash=" +:+ String.substring 0 12 (le_isr_hash entry) +:+ ", "
                +:+ "mutations=" +:+ repr_list mutations +:+ ", "
                +:+ "reasoning=" +:+ le_reasoning entry)
      end
  end.
End Engine.
