(* ===== verification/IsrAdapter.v ===== *)
(** * The adapter between an ISR and the graph the engine evolves

    [constitutional_architecture/engine/isr_adapter.py], and [ISR.content_hash]
    and [ISR.with_system] of isr/model/isr.py: the instance of [EvoEngine.Adapter]
    for ISRs.  Names and ids are texts, as the annotations say; any other value is
    taken as its text.  The hash of the content is an argument. *)

From Stdlib Require Import SpecFloat.
From S2P Require Import Prelude PyFloat PyVal PyText PyJson IsrModel IsrRecords IsrSerial TypedGraph.
From S2P Require Import IsrValidation IsrMetrics EvoModels EvoEngine.
Open Scope Z_scope.

(** ** Texts *)

(** [s.replace(pat, '')] for a pattern that is not empty; [skip] characters of
    an occurrence are still to be dropped. *)
Fixpoint drop_all (pat : string) (skip : nat) (s : string) : string :=
  match s with
  | EmptyString => EmptyString
  | String c s' =>
      match skip with
      | S skip' => drop_all pat skip' s'
      | O => if String.prefix pat s then drop_all pat (String.length pat - 1) s'
             else String c (drop_all pat 0 s')
      end
  end.
Definition remove_all (pat s : string) : string := drop_all pat 0 s.

(** [n + 1]. *)
Definition py_succ (v : pyval) : res pyval :=
  match v with
  | VInt n => Ok (VInt (n + 1))
  | VBool b => Ok (VInt (if b then 2 else 1))
  | VFloat x => Ok (VFloat (fadd x (of_Z 1)))
  | _ => Raise (TypeError "unsupported operand type(s) for +")
  end.

(** [semantic_content_hash]. *)
Class ContentHash := semantic_content_hash : ISR -> string.

Section Adapter.
Context `{Surroundings, Texts, ContentHash}.

Definition isr_content_hash (i : ISR) : pyval :=
  match is_content_hash i with VNone => VStr (semantic_content_hash i) | v => v end.

Definition with_system (new_system : System) (i : ISR) : M World ISR :=
  version ← lift_res (py_succ (is_version i));
  created_at ← now;
  generation ← lift_res (py_succ (pv_generation (is_provenance i)));
  mret {| is_system := new_system; is_version := version;
          is_provenance := {| pv_created_at := created_at; pv_created_by := VStr "";
            pv_parent_hash := isr_content_hash i; pv_mutation_description := VStr "";
            pv_evolution_run_id := VNone; pv_generation := generation |};
          is_content_hash := VNone |}.

(** ** From the ISR to the graph *)

(** The graph under construction, and the world. *)
Record Building : Set := { b_world : World; b_graph : TypedGraph }.
Definition put_graph (g : TypedGraph) (b : Building) : Building := {| b_world := b_world b; b_graph := g |}.
Definition on_graph {A} (m : M TypedGraph A) : M Building A := zoom b_graph put_graph m.

Definition node (t : NodeType) (id label : string) (attributes : pydict) (parent : option string) : GraphNode :=
  {| n_id := id; node_type := t; label := label; n_attributes := attributes; parent_id := parent |}.

(** [uuid.uuid4().hex[:4]]. *)
Definition short_hex : M Building string := fun b =>
  (Ok (String.substring 0 4 (uuid_hex (w_uuids (b_world b)))),
   {| b_world := {| w_uuids := S (w_uuids (b_world b)); w_clock := w_clock (b_world b);
                    w_perf := w_perf (b_world b); w_random := w_random (b_world b) |};
      b_graph := b_graph b |}).
Definition link (src tgt : string) (t : EdgeType) (attrs : EdgeAttributes) : M Building unit :=
  hex ← short_hex;
  on_graph (add_edge {| e_id := "e:" +:+ src +:+ "->" +:+ tgt +:+ ":" +:+ hex; source_id := src;
                        target_id := tgt; edge_type := t; e_attributes := attrs; e_metadata := [] |}).
Definition owns (src tgt : string) : M Building unit := link src tgt E_OWNS default_edge_attributes.

(** A node and the edge from its owner. *)
Definition owned_node (owner : string) (n : GraphNode) : M Building unit :=
  _ ← on_graph (add_node n); owns owner (n_id n).

Definition sys_key (s : System) : string := "sys:" +:+ text_of (sy_id s).
Definition mod_key (m : ModuleISR) : string := "mod:" +:+ text_of (md_id m).
Definition ent_key (e : Entity) : string := "ent:" +:+ text_of (en_id e).
Definition svc_key (id : pyval) : string := "svc:" +:+ text_of id.
Definition pol_key (id : pyval) : string := "pol:" +:+ text_of id.

Definition field_node (parent : string) (f : Field) : GraphNode :=
  node N_FIELD ("fld:" +:+ parent +:+ "." +:+ text_of (fl_name f)) (text_of (fl_name f))
    [("name", fl_name f); ("field_type", VStr (field_type_value (fl_field_type f)));
     ("cardinality", VStr (field_cardinality_value (fl_cardinality f)));
     ("description", fl_description f)] (Some parent).
Definition fields_to_graph (parent : string) (fields : list Field) : M Building unit :=
  for_each fields (fun f => owned_node parent (field_node parent f)).

Definition entity_node (mod_id : string) (e : Entity) : GraphNode :=
  node N_ENTITY (ent_key e) (text_of (en_name e)) [("name", en_name e); ("id", en_id e)] (Some mod_id).
Definition entity_to_graph (mod_id : string) (e : Entity) : M Building unit :=
  _ ← owned_node mod_id (entity_node mod_id e);
  fields_to_graph (ent_key e) (en_fields e).

Definition service_node (mod_id : string) (s : Service) : GraphNode :=
  node N_SERVICE (svc_key (sv_id s)) (text_of (sv_name s))
    [("name", sv_name s); ("is_stateless", sv_is_stateless s)] (Some mod_id).
Definition operation_node (sid : string) (op : Operation) : GraphNode :=
  node N_OPERATION ("op:" +:+ text_of (op_id op)) (text_of (op_name op))
    [("name", op_name op); ("operation_type", VStr (operation_type_value (op_operation_type op)))] (Some sid).
(** An edge to [tgt] if the graph has it by now. *)
Definition link_if_present (src tgt : string) (t : EdgeType) : M Building unit :=
  b ← gets b_graph;
  when (match get_node b tgt with Some _ => true | None => false end)
    (link src tgt t default_edge_attributes).
Definition service_to_graph (mod_id : string) (s : Service) : M Building unit :=
  let sid := svc_key (sv_id s) in
  _ ← owned_node mod_id (service_node mod_id s);
  _ ← for_each (sv_operations s) (fun op => owned_node sid (operation_node sid op));
  for_each (sv_dependencies s) (fun d => link_if_present sid (svc_key (sd_target_service_id d)) E_DEPENDS_ON).

Definition interface_node (mod_id : string) (i : Interface) : GraphNode :=
  node N_INTERFACE ("iface:" +:+ text_of (if_id i)) (text_of (if_name i))
    [("name", if_name i); ("interface_type", VStr (interface_type_value (if_interface_type i)));
     ("is_internal", if_is_internal i)] (Some mod_id).
Definition endpoint_node (i : Interface) (ep : Endpoint) : GraphNode :=
  node N_ENDPOINT ("ep:" +:+ text_of (if_id i) +:+ ":" +:+ text_of (ep_id ep))
    (http_method_value (ep_method ep) +:+ " " +:+ text_of (ep_path ep))
    [("path", ep_path ep); ("method", VStr (http_method_value (ep_method ep))); ("name", ep_name ep)]
    (Some ("iface:" +:+ text_of (if_id i))).
Definition interface_to_graph (mod_id : string) (i : Interface) : M Building unit :=
  let iid := "iface:" +:+ text_of (if_id i) in
  _ ← owned_node mod_id (interface_node mod_id i);
  _ ← for_each (if_endpoints i) (fun ep => owned_node iid (endpoint_node i ep));
  when (val_truthy (if_secured_by_policy_id i))
    (link_if_present iid (pol_key (if_secured_by_policy_id i)) E_SECURED_BY).

Definition policy_node (mod_id : string) (p : Policy) : GraphNode :=
  node N_POLICY (pol_key (po_id p)) (text_of (po_name p))
    [("name", po_name p); ("strategy", po_strategy p);
     ("policy_type", VStr (policy_type_value (po_policy_type p)))] (Some mod_id).
Definition event_to_graph (mod_id : string) (ev : Event) : M Building unit :=
  match ev_pattern ev with
  | None => raise (AttributeError "'NoneType' object has no attribute 'value'")
  | Some p =>
      owned_node mod_id
        (node N_EVENT ("evt:" +:+ text_of (ev_id ev)) (text_of (ev_name ev))
           [("name", ev_name ev); ("pattern", VStr (event_pattern_value p))] (Some mod_id))
  end.

Definition module_node (sys_id : string) (m : ModuleISR) : GraphNode :=
  node N_MODULE (mod_key m) (text_of (md_name m))
    [("name", md_name m); ("description", md_description m)] (Some sys_id).
Definition module_to_graph (sys_id : string) (m : ModuleISR) : M Building unit :=
  let mod_id := mod_key m in
  _ ← owned_node sys_id (module_node sys_id m);
  _ ← for_each (md_entities m) (entity_to_graph mod_id);
  _ ← for_each (md_services m) (service_to_graph mod_id);
  _ ← for_each (md_interfaces m) (interface_to_graph mod_id);
  _ ← for_each (md_policies m) (fun p => owned_node mod_id (policy_node mod_id p));
  for_each (md_events m) (event_to_graph mod_id).

Definition system_node (i : ISR) : GraphNode :=
  node N_SYSTEM (sys_key (is_system i)) (text_of (sy_name (is_system i)))
    [("name", sy_name (is_system i)); ("description", sy_description (is_system i));
     ("isr_version", is_version i)] None.
Definition build_graph (i : ISR) : M Building unit :=
  _ ← on_graph (add_node (system_node i));
  for_each (sy_modules (is_system i)) (module_to_graph (sys_key (is_system i))).
Definition convert_isr (i : ISR) : M World TypedGraph := fun w =>
  match build_graph i {| b_world := w; b_graph := empty_graph |} with
  | (Ok _, b) => (Ok (b_graph b), b_world b)
  | (Raise e, b) => (Raise e, b_world b)
  end.

(** ** From the graph back to the ISR *)

Definition attr (k : string) (default : pyval) (n : GraphNode) : pyval := dget_or k (n_attributes n) default.

(** [[n for n in graph.get_nodes_by_type(t) if n.parent_id == parent]]. *)
Definition children (g : TypedGraph) (t : NodeType) (parent : string) : list GraphNode :=
  List.filter (fun n => bool_decide (parent_id n = Some parent)) (get_nodes_by_type g t).

Definition lower_of (v : pyval) : res string :=
  match v with
  | VStr s => Ok (lower s)
  | _ => Raise (AttributeError ("'" +:+ type_name v +:+ "' object has no attribute 'lower'"))
  end.
Definition field_type_mapping : list (string * FieldType) :=
  [("uuid", FT_UUID); ("string", FT_STRING); ("text", FT_TEXT); ("integer", FT_INTEGER);
   ("int", FT_INTEGER); ("float", FT_FLOAT); ("decimal", FT_DECIMAL); ("bool", FT_BOOLEAN);
   ("boolean", FT_BOOLEAN); ("datetime", FT_DATETIME); ("date", FT_DATE); ("email", FT_EMAIL);
   ("json", FT_JSON)].
Definition parse_field_type (raw : pyval) : res FieldType :=
  s ← lower_of raw; Ok (dget_or s field_type_mapping FT_STRING).
Definition cardinality_mapping : list (string * FieldCardinality) :=
  [("required", FC_REQUIRED); ("optional", FC_OPTIONAL); ("list", FC_LIST)].
Definition parse_cardinality (raw : pyval) : res FieldCardinality :=
  s ← lower_of raw; Ok (dget_or s cardinality_mapping FC_REQUIRED).

(** The constructors with the arguments the adapter gives; the rest is default. *)
Definition new_field (name : pyval) (t : FieldType) (c : FieldCardinality) : res Field :=
  check_field {| fl_name := name; fl_field_type := t; fl_cardinality := c; fl_description := VStr "";
    fl_default_value := VNone; fl_constraints := []; fl_enum_values := []; fl_reference_target := VNone;
    fl_is_primary_key := VBool false; fl_is_indexed := VBool false; fl_metadata := VDict [];
    fl_abstract_source_type := VNone |}.
Definition new_entity (id name : pyval) (fields : list Field) : Entity :=
  {| en_id := id; en_name := name; en_description := VStr ""; en_fields := fields;
     en_relationships := []; en_constraints := []; en_is_aggregate_root := VBool false;
     en_is_value_object := VBool false; en_metadata := VDict []; en_owning_service_id := VNone;
     en_invariants := []; en_consistency_posture := VStr "strong" |}.
Definition new_operation (id name : pyval) (t : OperationType) : Operation :=
  {| op_id := id; op_name := name; op_operation_type := t; op_description := VStr "";
     op_input_schema := []; op_output_schema := []; op_is_idempotent := VBool false;
     op_is_public := VBool true; op_required_permissions := []; op_metadata := VDict [] |}.
Definition new_dependency (target : pyval) : ServiceDependency :=
  {| sd_target_service_id := target; sd_dependency_type := VStr "runtime"; sd_is_required := VBool true;
     sd_description := VStr "" |}.
Definition new_service (id name : pyval) (ops : list Operation) (deps : list ServiceDependency)
    (is_stateless : pyval) : Service :=
  {| sv_id := id; sv_name := name; sv_description := VStr ""; sv_operations := ops;
     sv_dependencies := deps; sv_emitted_events := []; sv_consumed_events := [];
     sv_is_stateless := is_stateless; sv_metadata := VDict []; sv_domain_id := VNone;
     sv_responsibility_refs := []; sv_exposed_capability_refs := []; sv_communication_styles := [] |}.
Definition new_endpoint (id name path : pyval) (m : HttpMethod) : Endpoint :=
  {| ep_id := id; ep_name := name; ep_path := path; ep_method := m; ep_description := VStr "";
     ep_input_schema := []; ep_output_schema := []; ep_required_permissions := [];
     ep_is_public := VBool false; ep_rate_limit := VNone; ep_metadata := VDict [] |}.
Definition new_interface (id name : pyval) (t : InterfaceType) (eps : list Endpoint)
    (secured_by is_internal : pyval) : Interface :=
  {| if_id := id; if_name := name; if_interface_type := t; if_description := VStr "";
     if_version := VStr "1.0"; if_endpoints := eps; if_secured_by_policy_id := secured_by;
     if_is_internal := is_internal; if_metadata := VDict [] |}.
Definition new_policy (id name : pyval) (t : PolicyType) (strategy : pyval) : Policy :=
  {| po_id := id; po_name := name; po_policy_type := t; po_description := VStr "";
     po_strategy := strategy; po_roles := []; po_rules := []; po_permissions := []; po_metadata := VDict [] |}.
Definition new_event (id name : pyval) (p : EventPattern) : Event :=
  {| ev_id := id; ev_name := name; ev_description := VStr ""; ev_schema := []; ev_pattern := Some p;
     ev_guarantee := EG_AT_LEAST_ONCE; ev_ordering_required := VBool false; ev_ttl_seconds := VNone;
     ev_metadata := VDict []; ev_ordering_semantics := VStr "none"; ev_producer_service_id := VNone;
     ev_consumer_service_ids := []; ev_payload_model_id := VNone |}.
Definition new_module (id name description : pyval) (entities : list Entity) (services : list Service)
    (interfaces : list Interface) (policies : list Policy) (events : list Event) : ModuleISR :=
  {| md_id := id; md_name := name; md_description := description; md_entities := entities;
     md_services := services; md_workflows := []; md_policies := policies; md_interfaces := interfaces;
     md_events := events; md_dependencies := []; md_metadata := VDict []; md_temporal_constraints := [];
     md_data_migrations := []; md_components := []; md_capability_refs := []; md_api_contracts := [];
     md_ubiquitous_language := [] |}.
Definition new_system (id name : pyval) (modules : list ModuleISR) : System :=
  {| sy_id := id; sy_name := name; sy_description := VStr ""; sy_modules := modules;
     sy_deployment := None;
     sy_metadata := {| sm_version := VStr "1.0"; sm_authors := []; sm_license := VStr "";
                       sm_description := VStr ""; sm_tags := [] |};
     sy_global_policies := []; sy_constraints := []; sy_business_capabilities := [];
     sy_reliability_requirements := []; sy_architectural_boundaries := []; sy_requirements := [];
     sy_requirement_graph_ref := VNone; sy_requirement_source_metadata := [];
     sy_requirement_relations := []; sy_intent_architecture_ref := VNone; sy_security_posture := VNone;
     sy_infrastructure_posture := VNone; sy_deployment_posture := VNone; sy_testing_posture := VNone;
     sy_documentation_posture := VNone; sy_operational_posture := VNone; sy_acceptance_criteria := [];
     sy_deployment_intents := []; sy_testing_anchors := []; sy_documentation_intents := [];
     sy_evolution_objectives := []; sy_protected_regions := []; sy_evolution_policies := [];
     sy_architectural_decisions := []; sy_security_threats := [] |}.

Definition graph_to_fields (g : TypedGraph) (parent : string) : res (list Field) :=
  map_res (fun n =>
    t ← parse_field_type (attr "field_type" (VStr "string") n);
    c ← parse_cardinality (attr "cardinality" (VStr "required") n);
    new_field (attr "name" (VStr (label n)) n) t c) (children g N_FIELD parent).

Definition graph_to_entities (g : TypedGraph) (mnode : GraphNode) : res (list Entity) :=
  map_res (fun en =>
    fields ← graph_to_fields g (n_id en);
    Ok (new_entity (attr "id" (VStr (remove_all "ent:" (n_id en))) en) (VStr (label en)) fields))
    (children g N_ENTITY (n_id mnode)).

(** The nodes the outgoing edges of a type lead to. *)
Definition linked_nodes (g : TypedGraph) (t : EdgeType) (es : list GraphEdge) : list GraphNode :=
  omap (fun e => if bool_decide (edge_type e = t) then get_node g (target_id e) else None) es.

Definition graph_to_services (g : TypedGraph) (mnode : GraphNode) : res (list Service) :=
  map_res (fun sn =>
    ops ← map_res (fun n =>
      t ← enum_of "OperationType" operation_type_members (attr "operation_type" (VStr "command") n);
      Ok (new_operation (VStr (remove_all "op:" (n_id n))) (attr "name" (VStr (label n)) n) t))
      (children g N_OPERATION (n_id sn));
    outgoing ← get_outgoing_edges g (n_id sn);
    let deps := map (fun target => new_dependency (VStr (remove_all "svc:" (n_id target))))
                  (linked_nodes g E_DEPENDS_ON outgoing) in
    Ok (new_service (VStr (remove_all "svc:" (n_id sn))) (VStr (label sn)) ops deps
          (attr "is_stateless" (VBool true) sn)))
    (children g N_SERVICE (n_id mnode)).

(** [for i, n in enumerate(epnodes)]. *)
Fixpoint graph_to_endpoints (i : nat) (epnodes : list GraphNode) : res (list Endpoint) :=
  match epnodes with
  | [] => Ok []
  | n :: rest =>
      m ← enum_of "HttpMethod" http_method_members (attr "method" (VStr "GET") n);
      eps ← graph_to_endpoints (S i) rest;
      Ok (new_endpoint (VStr ("ep-" +:+ str_of_int (Z.of_nat i))) (attr "name" (VStr (label n)) n)
            (attr "path" (VStr "/") n) m :: eps)
  end.
Definition graph_to_interfaces (g : TypedGraph) (mnode : GraphNode) : res (list Interface) :=
  map_res (fun inn =>
    eps ← graph_to_endpoints 0 (children g N_ENDPOINT (n_id inn));
    outgoing ← get_outgoing_edges g (n_id inn);
    let secured_by := match last (linked_nodes g E_SECURED_BY outgoing) with
                      | Some target => remove_all "pol:" (n_id target)
                      | None => ""
                      end in
    t ← enum_of "InterfaceType" interface_type_members (attr "interface_type" (VStr "rest") inn);
    Ok (new_interface (VStr (remove_all "iface:" (n_id inn))) (VStr (label inn)) t eps
          (if truthy secured_by then VStr secured_by else VNone)
          (attr "is_internal" (VBool false) inn)))
    (children g N_INTERFACE (n_id mnode)).

Definition graph_to_policies (g : TypedGraph) (mnode : GraphNode) : res (list Policy) :=
  map_res (fun n =>
    t ← enum_of "PolicyType" policy_type_members (attr "policy_type" (VStr "authentication") n);
    Ok (new_policy (VStr (remove_all "pol:" (n_id n))) (VStr (label n)) t (attr "strategy" (VStr "") n)))
    (children g N_POLICY (n_id mnode)).
Definition graph_to_events (g : TypedGraph) (mnode : GraphNode) : res (list Event) :=
  map_res (fun n =>
    p ← enum_of "EventPattern" event_pattern_members (attr "pattern" (VStr "publish_subscribe") n);
    Ok (new_event (VStr (remove_all "evt:" (n_id n))) (VStr (label n)) p))
    (children g N_EVENT (n_id mnode)).

Definition graph_to_module (g : TypedGraph) (mnode : GraphNode) : res ModuleISR :=
  entities ← graph_to_entities g mnode;
  services ← graph_to_services g mnode;
  interfaces ← graph_to_interfaces g mnode;
  policies ← graph_to_policies g mnode;
  events ← graph_to_events g mnode;
  Ok (new_module (VStr (remove_all "mod:" (n_id mnode))) (VStr (label mnode))
        (attr "description" (VStr "") mnode) entities services interfaces policies events).

Definition graph_to_system (g : TypedGraph) (parent : ISR) : res System :=
  match get_nodes_by_type g N_SYSTEM with
  | [] => Raise (ValueError "Graph has no System node")
  | root :: _ =>
      modules ← map_res (graph_to_module g) (children g N_MODULE (n_id root));
      Ok (new_system (sy_id (is_system parent)) (attr "name" (sy_name (is_system parent)) root) modules)
  end.

Definition convert_graph (g : TypedGraph) (parent : ISR) : M World ISR :=
  system ← lift_res (graph_to_system g parent);
  version ← lift_res (py_succ (is_version parent));
  created_at ← now;
  mret {| is_system := system; is_version := version;
          is_provenance := {| pv_created_at := created_at; pv_created_by := VStr "";
            pv_parent_hash := isr_content_hash parent;
            pv_mutation_description := VStr ("Graph-to-ISR conversion from v" +:+ text_of (is_version parent));
            pv_evolution_run_id := VNone; pv_generation := VInt 0 |};
          is_content_hash := VNone |}.

(** ** Evaluation *)

(** The sort behind the evaluation never runs out of fuel on a graph that was
    built by the mutators ([IsrMetricsSpec.evaluate_total]). *)
Definition evaluate_isr (i : ISR) : M World FitnessVector :=
  graph ← convert_isr i;
  match evaluate graph with
  | Some (Ok sf) => mret {| fv_values := static_to_dict sf |}
  | Some (Raise e) => raise e
  | None => raise RecursionError
  end.

(** ** Records of changes *)

Definition eir_from_transformations (source_isr target_isr : ISR) (transformations : list Transformation)
    (proposed_by : string) (generation : Z) : M World EIR :=
  id ← new_id "eir" 12;
  created_at ← now;
  mret {| ei_id := id; ei_source_isr_hash := text_of (isr_content_hash source_isr);
          ei_target_isr_hash := text_of (isr_content_hash target_isr);
          ei_transformations := transformations; ei_proposed_by := proposed_by;
          ei_generation := generation; ei_fitness_delta := []; ei_created_at := created_at;
          ei_metadata := [] |}.

Definition build_transformation (transform_type target_node_id : string) (parameters : option pydict)
    (description : string) : M World Transformation :=
  let '(cat, cls, default_desc) :=
    dget_or transform_type KNOWN_TRANSFORMATIONS (MC_STRUCTURAL, CL_ADDITIVE, "Architectural transformation") in
  id ← new_id "t" 8;
  mret {| tf_id := id; tf_transformation_type := transform_type; tf_category := cat;
          tf_mutation_class := cls; tf_target_node_id := target_node_id;
          tf_description := if truthy description then description else default_desc;
          tf_parameters := default [] parameters; tf_fitness_impact := []; tf_reversible := true;
          tf_inverse_transformation := None; tf_rationale := VStr ""; tf_confidence := VFloat fzero |}.

(** ** The interface of the engine *)

#[export] Instance isr_adapter : Adapter ISR := {|
  content_hash i := text_of (isr_content_hash i);
  restamped i := with_system (is_system i) i;
  isr_to_graph := convert_isr; graph_to_isr := convert_graph; evaluate_fitness := evaluate_isr |}.
End Adapter.
