(* ===== verification/IsrAdapterSpec.v ===== *)
(** * The adapter between an ISR and its graph: theorems

    The construction of the graph is a script of instructions, a compilation of
    the ISR; the nodes and the ends of the edges it leaves are functions of the
    script.  From these: which ISR comes back from the graph, when the
    construction succeeds, and that the fitness of an ISR does not depend on the
    world it is evaluated in. *)

From Stdlib Require Import SpecFloat.
From S2P Require Import Prelude PyFloat PyVal PyText PyJson IsrModel IsrRecords IsrSerial TypedGraph.
From S2P Require Import IsrValidation IsrMetrics IsrMetricsSpec EvoModels EvoEngine IsrAdapter.
Open Scope Z_scope.

(** ** Lists *)

Lemma for_each_app {A S} (xs ys : list A) (body : A -> M S unit) s :
  for_each (xs ++ ys) body s = (_ ← for_each xs body; for_each ys body) s.
Proof.
  revert s. induction xs as [|x xs IH]; intros s; [done|]. cbn [app for_each]. unfold_monad.
  destruct (body x s) as [[[]|e] s']; [|done]. by rewrite IH.
Qed.

Section Lists.
Context {A B : Type}.

Lemma filter_flat_map (p : B -> bool) (f : A -> list B) xs :
  List.filter p (flat_map f xs) = flat_map (fun x => List.filter p (f x)) xs.
Proof. induction xs as [|x xs IH]; [done|]. cbn [flat_map]. by rewrite List.filter_app, IH. Qed.
Lemma flat_map_nil (f : A -> list B) xs : (forall x, f x = []) -> flat_map f xs = [].
Proof. intros Hf. induction xs as [|x xs IH]; [done|]. cbn [flat_map]. by rewrite Hf, IH. Qed.
Lemma map_flat_map {C} (g : B -> C) (f : A -> list B) xs : map g (flat_map f xs) = flat_map (fun x => map g (f x)) xs.
Proof. induction xs as [|x xs IH]; [done|]. cbn [flat_map]. by rewrite map_app, IH. Qed.
Lemma flat_map_singleton (f : A -> B) xs : flat_map (fun x => [f x]) xs = map f xs.
Proof. induction xs as [|x xs IH]; [done|]. cbn [flat_map map app]. by rewrite IH. Qed.
Lemma flat_map_flat_map {C} (g : B -> list C) (f : A -> list B) xs :
  flat_map g (flat_map f xs) = flat_map (fun x => flat_map g (f x)) xs.
Proof. induction xs as [|x xs IH]; [done|]. cbn [flat_map]. by rewrite flat_map_app, IH. Qed.
Lemma filter_map_const (p : B -> bool) (b : bool) (f : A -> B) xs :
  (forall x, p (f x) = b) -> List.filter p (map f xs) = if b then map f xs else [].
Proof.
  intros Hp. induction xs as [|x xs IH]; [by destruct b|]. cbn [map List.filter]. rewrite Hp, IH. by destruct b.
Qed.
(** Of the blocks of a list, those of one owner. *)
Lemma flat_map_owner `{EqDecision K} (key : A -> K) (f : A -> list B) (g : A -> list B) xs x :
  NoDup (map key xs) -> x ∈ xs -> g x = f x -> (forall y, key y <> key x -> g y = []) ->
  flat_map g xs = f x.
Proof.
  intros Hnd Hx Hg Ho. induction xs as [|y xs IH]; [by apply elem_of_nil in Hx|].
  cbn [map flat_map] in *. apply NoDup_cons in Hnd as [Hy Hnd]. apply elem_of_cons in Hx as [->|Hx].
  - rewrite Hg. rewrite <- (app_nil_r (f y)) at 2. f_equal.
    assert (Hn : forall z, z ∈ xs -> g z = []).
    { intros z Hz. apply Ho. intros E. apply Hy. rewrite <- E. by apply list_elem_of_fmap_2. }
    clear -Hn. induction xs as [|z xs IH]; [done|]. cbn [flat_map]. rewrite Hn by left.
    apply IH. intros z' Hz'. apply Hn. by right.
  - rewrite Ho; [by apply IH|]. intros E. apply Hy. rewrite E. by apply list_elem_of_fmap_2.
Qed.
End Lists.

Lemma map_res_map {A B C} (f : B -> res C) (h : A -> B) (g : A -> C) xs :
  (forall x, x ∈ xs -> f (h x) = Ok (g x)) -> map_res f (map h xs) = Ok (map g xs).
Proof.
  induction xs as [|x xs IH]; intros Hf; [done|]. cbn [map map_res]. rewrite Hf by left. unfold_monad.
  by rewrite IH by (intros; apply Hf; by right).
Qed.

(** ** The construction as a script *)

Inductive instruction : Set :=
| I_node (n : GraphNode)
| I_link (src tgt : string) (t : EdgeType)
| I_link_if_present (src tgt : string) (t : EdgeType)
| I_no_pattern.

Section Script.
Context `{Surroundings, Texts, ContentHash}.

Definition perform (c : instruction) : M Building unit :=
  match c with
  | I_node n => on_graph (add_node n)
  | I_link src tgt t => link src tgt t default_edge_attributes
  | I_link_if_present src tgt t => link_if_present src tgt t
  | I_no_pattern => raise (AttributeError "'NoneType' object has no attribute 'value'")
  end.
Definition perform_all (script : list instruction) : M Building unit := for_each script perform.

Definition owned (owner : string) (n : GraphNode) : list instruction :=
  [I_node n; I_link owner (n_id n) E_OWNS].
Definition fields_script (parent : string) (fields : list Field) : list instruction :=
  flat_map (fun f => owned parent (field_node parent f)) fields.
Definition entity_script (mid : string) (e : Entity) : list instruction :=
  owned mid (entity_node mid e) ++ fields_script (ent_key e) (en_fields e).
Definition service_script (mid : string) (s : Service) : list instruction :=
  owned mid (service_node mid s) ++
  flat_map (fun op => owned (svc_key (sv_id s)) (operation_node (svc_key (sv_id s)) op)) (sv_operations s) ++
  map (fun d => I_link_if_present (svc_key (sv_id s)) (svc_key (sd_target_service_id d)) E_DEPENDS_ON)
    (sv_dependencies s).
Definition iface_key (i : Interface) : string := "iface:" +:+ text_of (if_id i).
Definition interface_script (mid : string) (i : Interface) : list instruction :=
  owned mid (interface_node mid i) ++
  flat_map (fun ep => owned (iface_key i) (endpoint_node i ep)) (if_endpoints i) ++
  (if val_truthy (if_secured_by_policy_id i)
   then [I_link_if_present (iface_key i) (pol_key (if_secured_by_policy_id i)) E_SECURED_BY] else []).
Definition event_node (mid : string) (ev : Event) (p : EventPattern) : GraphNode :=
  node N_EVENT ("evt:" +:+ text_of (ev_id ev)) (text_of (ev_name ev))
    [("name", ev_name ev); ("pattern", VStr (event_pattern_value p))] (Some mid).
Definition event_script (mid : string) (ev : Event) : list instruction :=
  match ev_pattern ev with Some p => owned mid (event_node mid ev p) | None => [I_no_pattern] end.
Definition module_script (sid : string) (m : ModuleISR) : list instruction :=
  owned sid (module_node sid m) ++
  flat_map (entity_script (mod_key m)) (md_entities m) ++
  flat_map (service_script (mod_key m)) (md_services m) ++
  flat_map (interface_script (mod_key m)) (md_interfaces m) ++
  flat_map (fun p => owned (mod_key m) (policy_node (mod_key m) p)) (md_policies m) ++
  flat_map (event_script (mod_key m)) (md_events m).
Definition isr_script (i : ISR) : list instruction :=
  I_node (system_node i) :: flat_map (module_script (sys_key (is_system i))) (sy_modules (is_system i)).

Lemma perform_one c b : perform_all [c] b = perform c b.
Proof. unfold perform_all. cbn [for_each]. unfold_monad. by destruct (perform c b) as [[[]|e] b']. Qed.
Lemma perform_seq (m1 m2 : M Building unit) s1 s2 b :
  (forall b, m1 b = perform_all s1 b) -> (forall b, m2 b = perform_all s2 b) ->
  (m1 ≫= fun _ => m2) b = perform_all (s1 ++ s2) b.
Proof.
  intros Ha Hb. unfold perform_all. rewrite for_each_app. unfold_monad. rewrite Ha. unfold perform_all.
  destruct (for_each s1 perform b) as [[[]|e] b']; [|done]. apply Hb.
Qed.
Lemma perform_flat {A} (xs : list A) (f : A -> list instruction) (step : A -> M Building unit) b :
  (forall x b, step x b = perform_all (f x) b) -> for_each xs step b = perform_all (flat_map f xs) b.
Proof.
  intros Hf. revert b. induction xs as [|x xs IH]; intros b; [done|]. cbn [flat_map for_each].
  apply perform_seq; [apply Hf|apply IH].
Qed.
Lemma owned_script owner n b : owned_node owner n b = perform_all (owned owner n) b.
Proof. apply (perform_seq _ _ [I_node n] [_]); intros b'; by rewrite perform_one. Qed.

Lemma entity_scripted mid e b : entity_to_graph mid e b = perform_all (entity_script mid e) b.
Proof. apply perform_seq; intros b'; [apply owned_script|]. apply perform_flat. intros. apply owned_script. Qed.
Lemma service_scripted mid s b : service_to_graph mid s b = perform_all (service_script mid s) b.
Proof.
  apply perform_seq; intros b'; [apply owned_script|]. apply perform_seq; intros b2.
  - apply perform_flat. intros. apply owned_script.
  - rewrite <- flat_map_singleton. apply perform_flat. intros. by rewrite perform_one.
Qed.
Lemma interface_scripted mid i b : interface_to_graph mid i b = perform_all (interface_script mid i) b.
Proof.
  apply perform_seq; intros b'; [apply owned_script|]. apply perform_seq; intros b2.
  - apply perform_flat. intros. apply owned_script.
  - destruct (val_truthy (if_secured_by_policy_id i)); [|done]. by rewrite perform_one.
Qed.
Lemma event_scripted mid ev b : event_to_graph mid ev b = perform_all (event_script mid ev) b.
Proof. unfold event_to_graph, event_script. destruct (ev_pattern ev); [apply owned_script|done]. Qed.
Lemma module_scripted sid m b : module_to_graph sid m b = perform_all (module_script sid m) b.
Proof.
  apply perform_seq; intros b1; [apply owned_script|].
  repeat (apply perform_seq; intros ?b); apply perform_flat; intros;
    first [apply entity_scripted|apply service_scripted|apply interface_scripted|apply owned_script|
           apply event_scripted].
Qed.
Lemma isr_scripted i b : build_graph i b = perform_all (isr_script i) b.
Proof.
  apply (perform_seq _ _ [_]); intros b1; [by rewrite perform_one|]. apply perform_flat, module_scripted.
Qed.

(** ** What a script leaves *)

Definition added_nodes (script : list instruction) : list GraphNode :=
  flat_map (fun c => match c with I_node n => [n] | _ => [] end) script.
Definition added_ids (script : list instruction) : list string := map n_id (added_nodes script).
(** Source, target and type of the edges, when the nodes [known] are there. *)
Fixpoint added_links (known : list string) (script : list instruction) : list (string * string * EdgeType) :=
  match script with
  | [] => []
  | I_node n :: script => added_links (known ++ [n_id n]) script
  | I_link a b t :: script => (a, b, t) :: added_links known script
  | I_link_if_present a b t :: script =>
      if mem b known then (a, b, t) :: added_links known script else added_links known script
  | I_no_pattern :: script => added_links known script
  end.
Definition edge_for (uuids : nat) (l : string * string * EdgeType) : GraphEdge :=
  {| e_id := "e:" +:+ l.1.1 +:+ "->" +:+ l.1.2 +:+ ":" +:+ String.substring 0 4 (uuid_hex uuids);
     source_id := l.1.1; target_id := l.1.2; edge_type := l.2;
     e_attributes := default_edge_attributes; e_metadata := [] |}.
Fixpoint edges_from (uuids : nat) (links : list (string * string * EdgeType)) : list GraphEdge :=
  match links with [] => [] | l :: links => edge_for uuids l :: edges_from (S uuids) links end.

(** The ends of the links are there when they are added. *)
Fixpoint closed (known : list string) (script : list instruction) : Prop :=
  match script with
  | [] => True
  | I_node n :: script => closed (known ++ [n_id n]) script
  | I_link a b t :: script => a ∈ known /\ b ∈ known /\ closed known script
  | I_link_if_present a b t :: script => a ∈ known /\ closed known script
  | I_no_pattern :: script => closed known script
  end.

(** From a graph with the nodes [ns] and the edges [es]: ids are not repeated and
    events have patterns. *)
Record performable (ns es : list string) (uuids : nat) (script : list instruction) : Prop := {
  pf_nodes : NoDup (ns ++ added_ids script);
  pf_edges : NoDup (es ++ map e_id (edges_from uuids (added_links ns script)));
  pf_patterns : I_no_pattern ∉ script;
}.
Record performed (g : TypedGraph) (uuids : nat) (script : list instruction) (g' : TypedGraph) : Prop := {
  pd_ok : graph_ok g';
  pd_nodes : g_nodes g' = g_nodes g ++ map (fun n => (n_id n, n)) (added_nodes script);
  pd_edges : g_edges g' = g_edges g ++
    map (fun e => (e_id e, e)) (edges_from uuids (added_links (dkeys (g_nodes g)) script));
}.

Lemma closed_app known s1 s2 : closed known (s1 ++ s2) <-> closed known s1 /\ closed (known ++ added_ids s1) s2.
Proof.
  revert known. induction s1 as [|c s1 IH]; intros known.
  { unfold added_ids. cbn. rewrite app_nil_r. tauto. }
  destruct c as [n|a b t|a b t|]; cbn [app closed]; rewrite IH; [|tauto..].
  unfold added_ids. cbn. by rewrite <- app_assoc.
Qed.
Lemma closed_more known known' s : (forall k, k ∈ known -> k ∈ known') -> closed known s -> closed known' s.
Proof.
  revert known known'. induction s as [|c s IH]; intros known known' Hk Hs; [done|].
  destruct c as [n|a b t|a b t|]; cbn [closed] in *; [|naive_solver..].
  eapply IH; [|exact Hs]. intros k. rewrite !elem_of_app. naive_solver.
Qed.
Lemma added_links_app known s1 s2 :
  added_links known (s1 ++ s2) = added_links known s1 ++ added_links (known ++ added_ids s1) s2.
Proof.
  revert known. induction s1 as [|c s1 IH]; intros known.
  { unfold added_ids. cbn. by rewrite app_nil_r. }
  destruct c as [n|a b t|a b t|]; cbn [app added_links]; rewrite ?IH; [|done| |done].
  - unfold added_ids. cbn. by rewrite <- app_assoc.
  - by destruct (mem b known).
Qed.
Lemma edges_from_app k l1 l2 : edges_from k (l1 ++ l2) = edges_from k l1 ++ edges_from (k + length l1) l2.
Proof.
  revert k. induction l1 as [|l l1 IH]; intros k; cbn [app edges_from length].
  - by rewrite Nat.add_0_r.
  - rewrite IH. by rewrite Nat.add_succ_r.
Qed.
Lemma added_nodes_app s1 s2 : added_nodes (s1 ++ s2) = added_nodes s1 ++ added_nodes s2.
Proof. apply flat_map_app. Qed.
Lemma added_ids_app s1 s2 : added_ids (s1 ++ s2) = added_ids s1 ++ added_ids s2.
Proof. unfold added_ids. by rewrite added_nodes_app, map_app. Qed.

Lemma performable_node ns es k n s :
  performable ns es k (I_node n :: s) <-> performable (ns ++ [n_id n]) es k s.
Proof.
  split; intros [Hn He Hp]; split; unfold added_ids in *; cbn in *; rewrite <- ?app_assoc in *; try done.
  - intros Hin. apply Hp. by right.
  - intros [?|?]%elem_of_cons; done.
Qed.
Lemma performable_link ns es k a b t s :
  performable ns es k (I_link a b t :: s) <->
  performable ns (es ++ [e_id (edge_for k (a, b, t))]) (S k) s.
Proof.
  split; intros [Hn He Hp]; split; cbn in *; rewrite <- ?app_assoc in *; try done.
  - intros Hin. apply Hp. by right.
  - intros [?|?]%elem_of_cons; done.
Qed.
Lemma performable_present ns es k a b t s :
  performable ns es k (I_link_if_present a b t :: s) <->
  performable ns es k (if mem b ns then I_link a b t :: s else s).
Proof.
  destruct (mem b ns) eqn:E; (split; intros [Hn He Hp]; split; cbn in *; rewrite ?E in *; try done).
  - intros [?|?]%elem_of_cons; [done|]. apply Hp. by right.
  - intros [?|?]%elem_of_cons; [done|]. apply Hp. by right.
  - intros Hin. apply Hp. by right.
  - intros [?|?]%elem_of_cons; done.
Qed.

(** The run of a script whose links have their ends. *)
Lemma link_spec a t' t b :
  graph_ok (b_graph b) -> a ∈ dkeys (g_nodes (b_graph b)) -> t' ∈ dkeys (g_nodes (b_graph b)) ->
  let e := edge_for (w_uuids (b_world b)) (a, t', t) in
  match link a t' t default_edge_attributes b with
  | (Ok _, b') => (e_id e ∉ dkeys (g_edges (b_graph b))) /\ graph_ok (b_graph b') /\
      w_uuids (b_world b') = S (w_uuids (b_world b)) /\
      g_nodes (b_graph b') = g_nodes (b_graph b) /\ g_edges (b_graph b') = g_edges (b_graph b) ++ [(e_id e, e)]
  | (Raise x, _) => e_id e ∈ dkeys (g_edges (b_graph b)) /\ exists m, x = ValueError m
  end.
Proof.
  intros Hg Ha Ht e. unfold link, short_hex, on_graph, zoom. unfold_monad. cbn [b_graph b_world].
  pose proof (add_edge_spec (b_graph b) e Hg) as Hs. change (add_edge _ (b_graph b)) with (add_edge e (b_graph b)).
  destruct (add_edge e (b_graph b)) as [[[]|x] g'].
  - destruct Hs as (Hf & _ & _ & Hg' & En & Ee). cbn. done.
  - destruct Hs as (_ & Hm & [Hf|[Hf|Hf]]); [done|by destruct Hf..].
Qed.

Definition runs (script : list instruction) : Prop := forall b,
  graph_ok (b_graph b) -> closed (dkeys (g_nodes (b_graph b))) script ->
  match perform_all script b with
  | (Ok _, b') =>
      performable (dkeys (g_nodes (b_graph b))) (dkeys (g_edges (b_graph b))) (w_uuids (b_world b)) script /\
      performed (b_graph b) (w_uuids (b_world b)) script (b_graph b')
  | (Raise x, _) =>
      ~ performable (dkeys (g_nodes (b_graph b))) (dkeys (g_edges (b_graph b))) (w_uuids (b_world b)) script /\
      exists m, x = ValueError m \/ x = AttributeError m
  end.

Lemma runs_nil : runs [].
Proof.
  intros b Hg _. cbn. split.
  - split; [cbn; rewrite app_nil_r; apply Hg..|]. apply not_elem_of_nil.
  - split; cbn; by rewrite ?app_nil_r.
Qed.
Lemma runs_node n s : runs s -> runs (I_node n :: s).
Proof.
  intros IH b Hg Hc. unfold perform_all. cbn [for_each perform closed] in *. unfold on_graph, zoom. unfold_monad.
  pose proof (add_node_spec (b_graph b) n Hg) as Hs. destruct (add_node n (b_graph b)) as [[[]|x] g1].
  - destruct Hs as (Hn & Hg1 & En & Ee).
    specialize (IH (put_graph g1 b) Hg1). cbn [put_graph b_graph b_world] in IH.
    rewrite En, Ee, dkeys_app in IH. specialize (IH Hc).
    fold (perform_all s (put_graph g1 b)). destruct (perform_all s (put_graph g1 b)) as [[[]|x] b'].
    + destruct IH as [Hp [Hok Hpn Hpe]]. rewrite performable_node. split; [done|]. split; [done| |].
      * rewrite Hpn, En. cbn. by rewrite <- app_assoc.
      * rewrite Hpe, Ee. cbn. by rewrite En, dkeys_app.
    + by rewrite performable_node.
  - destruct Hs as (-> & Hin & ->). split; [|by eauto]. intros [Hn _ _]. unfold added_ids in Hn. cbn in Hn.
    apply NoDup_app in Hn as (_ & Hd & _). apply (Hd _ Hin). by left.
Qed.
Lemma runs_link x y t s : runs s -> runs (I_link x y t :: s).
Proof.
  intros IH b Hg (Hx & Hy & Hc). pose proof (link_spec x y t b Hg Hx Hy) as Hs. cbn zeta in Hs.
  unfold perform_all. cbn [for_each perform]. unfold_monad.
  destruct (link x y t default_edge_attributes b) as [[[]|ex] b1].
  - destruct Hs as (Hf & Hg1 & Eu & En & Ee). specialize (IH b1 Hg1). rewrite En, Ee, Eu, dkeys_app in IH.
    specialize (IH Hc). fold (perform_all s b1).
    destruct (perform_all s b1) as [[[]|ex] b2]; rewrite performable_link; [|done].
    destruct IH as [Hp [Hok Hpn Hpe]]. split; [done|]. split; [done| |].
    + rewrite Hpn, En. done.
    + rewrite Hpe, Ee, En. cbn. by rewrite <- app_assoc.
  - destruct Hs as [Hin (m & ->)]. split; [|by eauto]. intros [_ He _]. cbn in He.
    apply NoDup_app in He as (_ & Hd & _). apply (Hd _ Hin). by left.
Qed.
(** A conditional link is the link or nothing. *)
Definition resolved (ns : list string) (x y : string) (t : EdgeType) (s : list instruction) : list instruction :=
  if mem y ns then I_link x y t :: s else s.
Lemma perform_resolved x y t s b :
  perform_all (I_link_if_present x y t :: s) b =
  perform_all (resolved (dkeys (g_nodes (b_graph b))) x y t s) b.
Proof.
  unfold perform_all, resolved. cbn [for_each perform]. unfold link_if_present, get_node. unfold_monad.
  destruct (dget y (g_nodes (b_graph b))) eqn:E.
  - rewrite (proj2 (mem_true _ _)) by (by eapply dget_Some_key). done.
  - apply dget_None in E. by rewrite (proj2 (mem_false _ _) E).
Qed.
Lemma links_resolved ns x y t s : added_links ns (I_link_if_present x y t :: s) = added_links ns (resolved ns x y t s).
Proof. unfold resolved. cbn. by destruct (mem y ns). Qed.
Lemma runs_present x y t s : runs s -> runs (I_link_if_present x y t :: s).
Proof.
  intros IH b Hg [Hx Hc]. rewrite perform_resolved. pose proof (performable_present
    (dkeys (g_nodes (b_graph b))) (dkeys (g_edges (b_graph b))) (w_uuids (b_world b)) x y t s) as Hp.
  fold (resolved (dkeys (g_nodes (b_graph b))) x y t s) in Hp.
  assert (Hr : runs (resolved (dkeys (g_nodes (b_graph b))) x y t s)).
  { unfold resolved. destruct (mem y _); [by apply runs_link|done]. }
  assert (Hc' : closed (dkeys (g_nodes (b_graph b))) (resolved (dkeys (g_nodes (b_graph b))) x y t s)).
  { unfold resolved. destruct (mem y _) eqn:E; [|done]. apply mem_true in E. done. }
  specialize (Hr b Hg Hc'). destruct (perform_all _ b) as [[[]|ex] b']; rewrite Hp; [|done].
  destruct Hr as [Hr [Hok Hn He]]. split; [done|]. split; [done| |].
  - rewrite Hn. unfold resolved. by destruct (mem y _).
  - by rewrite He, links_resolved.
Qed.
Lemma runs_all script : runs script.
Proof.
  induction script as [|[n|x y t|x y t|] s IH];
    [apply runs_nil|by apply runs_node|by apply runs_link|by apply runs_present|].
  intros b _ _. split; [|by eauto]. intros [_ _ Hp]. apply Hp. by left.
Qed.

(** ** The conversion of an ISR *)

Lemma closed_flat {A} known (f : A -> list instruction) xs :
  (forall x, closed known (f x)) -> closed known (flat_map f xs).
Proof.
  intros Hf. induction xs as [|x xs IH]; [done|]. cbn [flat_map]. apply closed_app. split; [apply Hf|].
  eapply closed_more; [|exact IH]. intros k Hk. apply elem_of_app. by left.
Qed.
Lemma closed_owned known owner n : owner ∈ known -> closed known (owned owner n).
Proof.
  intros Ho. cbn. split_and!; [|apply elem_of_app; right; by left|done]. apply elem_of_app. by left.
Qed.
(** An owner, then what it owns. *)
Lemma closed_owner known owner n s :
  owner ∈ known -> (forall known', n_id n ∈ known' -> closed known' s) -> closed known (owned owner n ++ s).
Proof.
  intros Ho Hs. apply closed_app. split; [by apply closed_owned|]. apply Hs, elem_of_app. right. by left.
Qed.

Lemma closed_entity known mid e : mid ∈ known -> closed known (entity_script mid e).
Proof.
  intros Hm. apply closed_owner; [done|]. intros known' Hk. apply closed_flat. intros f. by apply closed_owned.
Qed.
Lemma closed_both known s1 s2 : closed known s1 -> closed known s2 -> closed known (s1 ++ s2).
Proof.
  intros H1' H2'. apply closed_app. split; [done|]. eapply closed_more; [|exact H2'].
  intros k Hk. apply elem_of_app. by left.
Qed.
Lemma closed_service known mid s : mid ∈ known -> closed known (service_script mid s).
Proof.
  intros Hm. apply closed_owner; [done|]. intros known' Hk. apply closed_both.
  - apply closed_flat. intros op. by apply closed_owned.
  - rewrite <- flat_map_singleton. apply closed_flat. intros d. by split.
Qed.
Lemma closed_interface known mid i : mid ∈ known -> closed known (interface_script mid i).
Proof.
  intros Hm. apply closed_owner; [done|]. intros known' Hk. apply closed_both.
  - apply closed_flat. intros ep. by apply closed_owned.
  - destruct (val_truthy _); [by split|done].
Qed.
Lemma closed_event known mid ev : mid ∈ known -> closed known (event_script mid ev).
Proof. intros Hm. unfold event_script. destruct (ev_pattern ev); [by apply closed_owned|done]. Qed.
Lemma closed_module known sid m : sid ∈ known -> closed known (module_script sid m).
Proof.
  intros Hs. apply closed_owner; [done|]. intros known' Hk.
  repeat apply closed_both; apply closed_flat; intros.
  - by apply closed_entity.
  - by apply closed_service.
  - by apply closed_interface.
  - by apply closed_owned.
  - by apply closed_event.
Qed.
Lemma closed_isr i : closed [] (isr_script i).
Proof. cbn. apply closed_flat. intros m. apply closed_module. by left. Qed.

Definition convertible (i : ISR) (w : World) : Prop := performable [] [] (w_uuids w) (isr_script i).
Definition isr_nodes (i : ISR) : list GraphNode := added_nodes (isr_script i).
Definition isr_links (i : ISR) : list (string * string * EdgeType) := added_links [] (isr_script i).

Lemma convert_run i w :
  match convert_isr i w with
  | (Ok g, _) => convertible i w /\ graph_ok g /\
                 g_nodes g = map (fun n => (n_id n, n)) (isr_nodes i) /\
                 edges g = edges_from (w_uuids w) (isr_links i)
  | (Raise x, _) => ~ convertible i w /\ exists m, x = ValueError m \/ x = AttributeError m
  end.
Proof.
  unfold convert_isr. rewrite isr_scripted.
  pose proof (runs_all (isr_script i) {| b_world := w; b_graph := empty_graph |} empty_graph_ok (closed_isr i)) as Hr.
  destruct (perform_all _ _) as [[[]|x] b]; [|done]. destruct Hr as [Hp [Hok Hn He]].
  split; [done|]. split; [done|]. split; [done|]. unfold edges. rewrite He. cbn. unfold dvalues.
  rewrite !map_map. cbn. by rewrite !map_id.
Qed.

(** ** Fitness *)

Lemma edges_from_ends k k' links : Forall2 same_ends (edges_from k links) (edges_from k' links).
Proof.
  revert k k'. induction links as [|l links IH]; intros k k'; cbn [edges_from]; constructor; [done|]. apply IH.
Qed.
Lemma converted_alike i w1 w2 g1 g2 w1' w2' :
  convert_isr i w1 = (Ok g1, w1') -> convert_isr i w2 = (Ok g2, w2') -> alike g1 g2.
Proof.
  intros E1 E2. pose proof (convert_run i w1) as R1. pose proof (convert_run i w2) as R2.
  rewrite E1 in R1. rewrite E2 in R2. destruct R1 as (_ & Hg1 & Hn1 & He1), R2 as (_ & Hg2 & Hn2 & He2).
  split; [done|done|congruence|]. rewrite He1, He2. apply edges_from_ends.
Qed.

(** Evaluating an ISR returns exactly when its ids are distinct, its events
    have patterns and the ids drawn for its edges are distinct; otherwise it
    raises a ValueError or an AttributeError.  What it returns does not depend on
    the world it is evaluated in: every evaluation of the ISR that returns gives
    the same fitness. *)
Theorem fitness_is_a_function_of_the_isr i w :
  match evaluate_isr i w with
  | (Ok v, _) => convertible i w /\ forall w' v' w'', evaluate_isr i w' = (Ok v', w'') -> v' = v
  | (Raise x, _) => ~ convertible i w /\ exists m, x = ValueError m \/ x = AttributeError m
  end.
Proof.
  assert (Hev : forall w, match convert_isr i w with
    | (Ok g, w') => exists sf, evaluate g = Some (Ok sf) /\
                      evaluate_isr i w = (Ok {| fv_values := static_to_dict sf |}, w')
    | (Raise x, w') => evaluate_isr i w = (Raise x, w')
    end).
  { intros w0. pose proof (convert_run i w0) as R. unfold evaluate_isr. unfold_monad.
    destruct (convert_isr i w0) as [[g|x] w0']; [|done]. destruct R as (_ & Hg & _).
    destruct (evaluate_total g Hg) as [sf E]. exists sf. by rewrite E. }
  pose proof (convert_run i w) as R. pose proof (Hev w) as E1.
  destruct (convert_isr i w) as [[g|x] w1] eqn:Ec; [|by rewrite E1].
  destruct E1 as (sf & Es & ->). destruct R as [Hc _]. split; [done|]. intros w' v' w''.
  specialize (Hev w'). destruct (convert_isr i w') as [[g'|x] w2] eqn:Ec'; [|by rewrite Hev].
  destruct Hev as (sf' & Es' & ->). intros [= <- _].
  rewrite <- (evaluate_alike g g') in Es' by (by eapply converted_alike). congruence.
Qed.

(** ** The nodes of a converted ISR by type *)

Definition of_type (t : NodeType) (ns : list GraphNode) : list GraphNode :=
  List.filter (fun n => bool_decide (node_type n = t)) ns.
Definition event_nodes (mid : string) (ev : Event) : list GraphNode :=
  match ev_pattern ev with Some p => [event_node mid ev p] | None => [] end.
Definition module_nodes (sid : string) (m : ModuleISR) : list GraphNode :=
  module_node sid m ::
  flat_map (fun e => entity_node (mod_key m) e :: map (field_node (ent_key e)) (en_fields e)) (md_entities m) ++
  flat_map (fun s => service_node (mod_key m) s ::
    map (operation_node (svc_key (sv_id s))) (sv_operations s)) (md_services m) ++
  flat_map (fun i => interface_node (mod_key m) i :: map (endpoint_node i) (if_endpoints i)) (md_interfaces m) ++
  map (policy_node (mod_key m)) (md_policies m) ++
  flat_map (event_nodes (mod_key m)) (md_events m).

Lemma added_nodes_flat {A} (f : A -> list instruction) xs :
  added_nodes (flat_map f xs) = flat_map (fun x => added_nodes (f x)) xs.
Proof. apply flat_map_flat_map. Qed.
Lemma added_nodes_owned {A} owner (f : A -> GraphNode) xs :
  added_nodes (flat_map (fun x => owned owner (f x)) xs) = map f xs.
Proof. rewrite added_nodes_flat. apply flat_map_singleton. Qed.
Lemma added_nodes_links {A} (f : A -> string * string * EdgeType) xs :
  added_nodes (map (fun x => I_link_if_present (f x).1.1 (f x).1.2 (f x).2) xs) = [].
Proof. induction xs as [|x xs IH]; [done|]. apply IH. Qed.

Lemma flat_map_eq {A B} (f g : A -> list B) xs : (forall x, f x = g x) -> flat_map f xs = flat_map g xs.
Proof. intros E. induction xs as [|x xs IH]; [done|]. cbn [flat_map]. by rewrite E, IH. Qed.
Lemma nodes_of_entities mid es : added_nodes (flat_map (entity_script mid) es) =
  flat_map (fun e => entity_node mid e :: map (field_node (ent_key e)) (en_fields e)) es.
Proof.
  rewrite added_nodes_flat. apply flat_map_eq. intros e. unfold entity_script, fields_script.
  rewrite added_nodes_app. cbn. f_equal. apply added_nodes_owned.
Qed.
Lemma nodes_of_services mid ss : added_nodes (flat_map (service_script mid) ss) =
  flat_map (fun s => service_node mid s :: map (operation_node (svc_key (sv_id s))) (sv_operations s)) ss.
Proof.
  rewrite added_nodes_flat. apply flat_map_eq. intros s. unfold service_script.
  rewrite !added_nodes_app, added_nodes_owned. cbn. f_equal. rewrite <- (app_nil_r (map _ _)) at 2. f_equal.
  apply (added_nodes_links (fun d => (svc_key (sv_id s), svc_key (sd_target_service_id d), E_DEPENDS_ON))).
Qed.
Lemma nodes_of_interfaces mid xs : added_nodes (flat_map (interface_script mid) xs) =
  flat_map (fun i => interface_node mid i :: map (endpoint_node i) (if_endpoints i)) xs.
Proof.
  rewrite added_nodes_flat. apply flat_map_eq. intros x. unfold interface_script.
  rewrite !added_nodes_app, added_nodes_owned. cbn. f_equal. rewrite <- (app_nil_r (map _ _)) at 2. f_equal.
  by destruct (val_truthy _).
Qed.
Lemma nodes_of_events mid evs : added_nodes (flat_map (event_script mid) evs) = flat_map (event_nodes mid) evs.
Proof.
  rewrite added_nodes_flat. apply flat_map_eq. intros ev. unfold event_script, event_nodes.
  by destruct (ev_pattern ev).
Qed.
Lemma nodes_of_modules sid ms : added_nodes (flat_map (module_script sid) ms) = flat_map (module_nodes sid) ms.
Proof.
  rewrite added_nodes_flat. apply flat_map_eq. intros m. unfold module_script, module_nodes.
  rewrite !added_nodes_app, nodes_of_entities, nodes_of_services, nodes_of_interfaces, added_nodes_owned,
    nodes_of_events. done.
Qed.
Lemma isr_nodes_eq i :
  isr_nodes i = system_node i ::
    flat_map (module_nodes (sys_key (is_system i))) (sy_modules (is_system i)).
Proof. unfold isr_nodes, isr_script. rewrite <- nodes_of_modules. done. Qed.

Lemma of_type_app t xs ys : of_type t (xs ++ ys) = of_type t xs ++ of_type t ys.
Proof. apply List.filter_app. Qed.
Lemma of_type_blocks {A B} t tA tB (own : A -> GraphNode) (f : A -> B -> GraphNode) (sub : A -> list B) xs :
  (forall x, node_type (own x) = tA) -> (forall x y, node_type (f x y) = tB) ->
  of_type t (flat_map (fun x => own x :: map (f x) (sub x)) xs) =
  if decide (tA = t) then if decide (tB = t) then flat_map (fun x => own x :: map (f x) (sub x)) xs else map own xs
  else if decide (tB = t) then flat_map (fun x => map (f x) (sub x)) xs else [].
Proof.
  intros HA HB. unfold of_type. rewrite filter_flat_map. rewrite <- flat_map_singleton.
  destruct (decide (tA = t)) as [EA|EA], (decide (tB = t)) as [EB|EB]; [| | |apply flat_map_nil; intros x];
    try (apply flat_map_eq; intros x); cbn [List.filter]; rewrite HA;
    (rewrite (filter_map_const _ (bool_decide (tB = t))) by (intros y; by rewrite HB));
    by repeat case_bool_decide.
Qed.
Lemma of_type_same {A} t tA (own : A -> GraphNode) xs :
  (forall x, node_type (own x) = tA) ->
  of_type t (map own xs) = if decide (tA = t) then map own xs else [].
Proof.
  intros HA. unfold of_type. rewrite (filter_map_const _ (bool_decide (tA = t))) by (intros x; by rewrite HA).
  by case_bool_decide; case_decide.
Qed.
Lemma of_type_events t mid evs :
  of_type t (flat_map (event_nodes mid) evs) = if decide (N_EVENT = t) then flat_map (event_nodes mid) evs else [].
Proof.
  unfold of_type. destruct (decide (N_EVENT = t)) as [<-|Ht].
  - apply filter_all. intros n (ev & Hev & Hn)%list_elem_of_In%in_flat_map. unfold event_nodes in Hn.
    destruct (ev_pattern ev); [|done]. by destruct Hn as [<-|[]].
  - apply filter_none. intros n (ev & Hev & Hn)%list_elem_of_In%in_flat_map. unfold event_nodes in Hn.
    destruct (ev_pattern ev); [|done]. destruct Hn as [<-|[]]. cbn. by rewrite bool_decide_eq_false_2.
Qed.

Lemma module_nodes_of_type t sid m : of_type t (module_nodes sid m) =
  match t with
  | N_MODULE => [module_node sid m]
  | N_ENTITY => map (entity_node (mod_key m)) (md_entities m)
  | N_FIELD => flat_map (fun e => map (field_node (ent_key e)) (en_fields e)) (md_entities m)
  | N_SERVICE => map (service_node (mod_key m)) (md_services m)
  | N_OPERATION => flat_map (fun s => map (operation_node (svc_key (sv_id s))) (sv_operations s)) (md_services m)
  | N_INTERFACE => map (interface_node (mod_key m)) (md_interfaces m)
  | N_ENDPOINT => flat_map (fun i => map (endpoint_node i) (if_endpoints i)) (md_interfaces m)
  | N_POLICY => map (policy_node (mod_key m)) (md_policies m)
  | N_EVENT => flat_map (event_nodes (mod_key m)) (md_events m)
  | _ => []
  end.
Proof.
  unfold module_nodes. change (of_type t (?n :: ?xs)) with (of_type t ([n] ++ xs)).
  rewrite !of_type_app, (of_type_blocks t N_ENTITY N_FIELD), (of_type_blocks t N_SERVICE N_OPERATION),
    (of_type_blocks t N_INTERFACE N_ENDPOINT), (of_type_same t N_POLICY), of_type_events by done.
  destruct t; cbn; by rewrite ?app_nil_r.
Qed.

Lemma isr_nodes_of_type t i : t <> N_SYSTEM ->
  of_type t (isr_nodes i) =
  flat_map (fun m => of_type t (module_nodes (sys_key (is_system i)) m)) (sy_modules (is_system i)).
Proof.
  intros Ht. rewrite isr_nodes_eq. unfold of_type at 1. cbn [List.filter]. cbn [node_type system_node node].
  rewrite bool_decide_eq_false_2 by done. apply filter_flat_map.
Qed.
Lemma isr_nodes_system i : of_type N_SYSTEM (isr_nodes i) = [system_node i].
Proof.
  rewrite isr_nodes_eq. unfold of_type at 1. cbn [List.filter].
  cbn [node_type system_node node]. rewrite bool_decide_eq_true_2 by done. f_equal. rewrite filter_flat_map.
  apply flat_map_nil. intros m. apply (module_nodes_of_type N_SYSTEM).
Qed.

(** ** The links of a converted ISR *)

(** What the links of type [t] from [k] lead to. *)
Definition targets (k : string) (t : EdgeType) (links : list (string * string * EdgeType)) : list string :=
  map (fun l => l.1.2) (List.filter (fun l => bool_decide (l.1.1 = k) && bool_decide (l.2 = t)) links).
(** An instruction that adds no such link. *)
Definition quiet (k : string) (t : EdgeType) (c : instruction) : Prop :=
  match c with I_link x _ t' | I_link_if_present x _ t' => ~ (x = k /\ t' = t) | _ => True end.

Lemma targets_app k t l1 l2 : targets k t (l1 ++ l2) = targets k t l1 ++ targets k t l2.
Proof. unfold targets. by rewrite List.filter_app, map_app. Qed.
Lemma targets_quiet k t known s : Forall (quiet k t) s -> targets k t (added_links known s) = [].
Proof.
  intros Hq. revert known. induction Hq as [|c s Hc _ IH]; intros known; [done|].
  destruct c as [n|x y t'|x y t'|]; cbn [added_links quiet] in *; [done| | |done].
  - unfold targets. cbn [List.filter fst snd].
    destruct (_ && _) eqn:E; [|apply IH]. bool_hyps. by destruct Hc.
  - destruct (mem y known); [|apply IH]. unfold targets. cbn [List.filter fst snd].
    destruct (_ && _) eqn:E; [|apply IH]. bool_hyps. by destruct Hc.
Qed.
Lemma quiet_flat {A} k t (f : A -> list instruction) xs :
  (forall x, x ∈ xs -> Forall (quiet k t) (f x)) -> Forall (quiet k t) (flat_map f xs).
Proof.
  induction xs as [|x xs IH]; intros Hf; [constructor|]. apply Forall_app. split; [apply Hf; by left|].
  apply IH. intros y Hy. apply Hf. by right.
Qed.
Lemma quiet_owned k t owner n : t <> E_OWNS -> Forall (quiet k t) (owned owner n).
Proof. intros Ht. repeat constructor. cbn. naive_solver. Qed.
Lemma quiet_entity k t mid e : t <> E_OWNS -> Forall (quiet k t) (entity_script mid e).
Proof.
  intros Ht. apply Forall_app. split; [by apply quiet_owned|]. apply quiet_flat. intros. by apply quiet_owned.
Qed.
Lemma quiet_service k t mid s :
  t <> E_OWNS -> (t = E_DEPENDS_ON -> svc_key (sv_id s) <> k) -> Forall (quiet k t) (service_script mid s).
Proof.
  intros Ht Hk. repeat (apply Forall_app; split); [by apply quiet_owned|apply quiet_flat; intros; by apply quiet_owned|].
  apply Forall_forall. intros c (d & -> & _)%list_elem_of_fmap. cbn. naive_solver.
Qed.
Lemma quiet_interface k t mid i :
  t <> E_OWNS -> (t = E_SECURED_BY -> iface_key i <> k) -> Forall (quiet k t) (interface_script mid i).
Proof.
  intros Ht Hk. repeat (apply Forall_app; split); [by apply quiet_owned|apply quiet_flat; intros; by apply quiet_owned|].
  destruct (val_truthy _); repeat constructor. cbn. naive_solver.
Qed.
Lemma quiet_module k t sid m :
  t <> E_OWNS -> (t = E_DEPENDS_ON -> forall s, s ∈ md_services m -> svc_key (sv_id s) <> k) ->
  (t = E_SECURED_BY -> forall i, i ∈ md_interfaces m -> iface_key i <> k) ->
  Forall (quiet k t) (module_script sid m).
Proof.
  intros Ht Hs Hi. unfold module_script. rewrite !Forall_app. split_and!.
  - by apply quiet_owned.
  - apply quiet_flat. intros. by apply quiet_entity.
  - apply quiet_flat. intros. apply quiet_service; auto.
  - apply quiet_flat. intros. apply quiet_interface; auto.
  - apply quiet_flat. intros. by apply quiet_owned.
  - apply quiet_flat. intros ev _. unfold event_script. destruct (ev_pattern ev); [by apply quiet_owned|].
    by repeat constructor.
Qed.

(** The conditional links of one node. *)
Lemma targets_present {A} k t known (f : A -> string) xs :
  targets k t (added_links known (map (fun x => I_link_if_present k (f x) t) xs)) =
  List.filter (fun y => mem y known) (map f xs).
Proof.
  induction xs as [|x xs IH]; [done|]. cbn [map added_links List.filter].
  destruct (mem (f x) known); [|done]. unfold targets. cbn [List.filter fst snd].
  rewrite !bool_decide_eq_true_2 by done. cbn. by f_equal.
Qed.

Lemma linked_targets g u links k t :
  linked_nodes g t (List.filter (fun e => bool_decide (source_id e = k)) (edges_from u links)) =
  omap (get_node g) (targets k t links).
Proof.
  unfold linked_nodes, targets. revert u. induction links as [|l links IH]; intros u; [done|].
  cbn [edges_from List.filter]. cbn [edge_for source_id].
  destruct (bool_decide (l.1.1 = k)); cbn [andb]; [|apply IH]. cbn [omap list_omap edge_type edge_for target_id].
  destruct (bool_decide (l.2 = t)); [|apply IH]. cbn [map omap list_omap]. by rewrite IH.
Qed.

(** *** The keys of a type *)

Definition service_keys (ss : list Service) : list string := map (fun s => svc_key (sv_id s)) ss.
Definition policy_keys (ps : list Policy) : list string := map (fun p => pol_key (po_id p)) ps.

(** The ids of services and policies tell their type. *)
Definition keyed (n : GraphNode) : Prop :=
  (forall v, n_id n = svc_key v -> node_type n = N_SERVICE) /\
  (forall v, n_id n = pol_key v -> node_type n = N_POLICY).

Lemma keyed_isr i n : n ∈ isr_nodes i -> keyed n.
Proof.
  rewrite isr_nodes_eq. intros [->|Hn]%elem_of_cons; [by split|].
  apply list_elem_of_In, in_flat_map in Hn as (m & _ & [<-|Hn]); [by split|].
  rewrite !in_app_iff, !in_flat_map, in_map_iff in Hn.
  destruct Hn as [(e & _ & Hn)|[(s & _ & Hn)|[(x & _ & Hn)|[(p & <- & _)|(ev & _ & Hn)]]]]; [| | |by split|].
  - destruct Hn as [<-|(f & <- & _)%in_map_iff]; by split.
  - destruct Hn as [<-|(op & <- & _)%in_map_iff]; by split.
  - destruct Hn as [<-|(ep & <- & _)%in_map_iff]; by split.
  - unfold event_nodes in Hn. destruct (ev_pattern ev); [|done]. destruct Hn as [<-|[]]. by split.
Qed.
Lemma mem_of_type t k ns :
  (forall n, n ∈ ns -> n_id n = k -> node_type n = t) -> mem k (map n_id ns) = mem k (map n_id (of_type t ns)).
Proof.
  intros Hk. unfold mem. apply bool_decide_ext. split; intros (n & -> & Hn)%list_elem_of_fmap.
  - apply list_elem_of_fmap_2. apply list_elem_of_In, filter_In. rewrite <- list_elem_of_In. split; [done|].
    apply bool_decide_eq_true_2. by apply Hk.
  - apply list_elem_of_In, filter_In in Hn as [Hn _]. apply list_elem_of_fmap_2. by apply list_elem_of_In.
Qed.
Lemma distinct_around {A} (key : A -> string) xs x ys y :
  NoDup (map key (xs ++ x :: ys)) -> y ∈ xs ++ ys -> key y <> key x.
Proof.
  rewrite map_app. cbn [map]. intros (_ & Hd & [Hx _]%NoDup_cons)%NoDup_app [Hy|Hy]%elem_of_app E.
  - apply (Hd (key y)); [by apply list_elem_of_fmap_2|]. rewrite E. by left.
  - apply Hx. rewrite <- E. by apply list_elem_of_fmap_2.
Qed.
Lemma filter_ext_map {A} (f : A -> string) (p q : string -> bool) xs :
  (forall x, p (f x) = q (f x)) -> List.filter p (map f xs) = List.filter q (map f xs).
Proof. intros E. induction xs as [|x xs IH]; [done|]. cbn [map List.filter]. by rewrite E, IH. Qed.

Lemma nodes_of_type_in t (f : ModuleISR -> list GraphNode) sid ms :
  (forall m, of_type t (module_nodes sid m) = f m) ->
  of_type t (flat_map (module_nodes sid) ms) = flat_map f ms.
Proof. intros Hf. unfold of_type. rewrite filter_flat_map. by apply flat_map_eq. Qed.

Lemma isr_service_nodes i : map n_id (of_type N_SERVICE (isr_nodes i)) =
  service_keys (flat_map md_services (sy_modules (is_system i))).
Proof.
  rewrite isr_nodes_of_type by done. unfold service_keys. rewrite !map_flat_map. apply flat_map_eq. intros m.
  rewrite (module_nodes_of_type N_SERVICE), map_map. done.
Qed.
Lemma distinct_of_type t i : NoDup (map n_id (isr_nodes i)) -> NoDup (map n_id (of_type t (isr_nodes i))).
Proof.
  unfold of_type. generalize (isr_nodes i) as ns. induction ns as [|n ns IH]; [done|]. cbn.
  intros [Hn Hnd]%NoDup_cons. destruct (bool_decide _); [|by apply IH]. cbn. apply NoDup_cons. split; [|by apply IH].
  intros (y & Ey & Hy)%list_elem_of_fmap. apply Hn. rewrite Ey. apply list_elem_of_fmap_2.
  apply list_elem_of_In, filter_In in Hy as [Hy _]. by apply list_elem_of_In.
Qed.

(** A link is resolved against the nodes that were added before. *)
Lemma links_around i before mine after k t :
  isr_script i = before ++ mine ++ after -> Forall (quiet k t) before -> Forall (quiet k t) after ->
  targets k t (isr_links i) = targets k t (added_links (added_ids before) mine).
Proof.
  intros E Hb Ha. unfold isr_links. rewrite E, !added_links_app, !targets_app.
  rewrite (targets_quiet k t [] before Hb), (targets_quiet k t _ after Ha). by rewrite app_nil_r.
Qed.

(** The script before and after the dependencies of a service. *)
Definition before_dependencies (i : ISR) (mpre : list ModuleISR) (m : ModuleISR) (spre : list Service)
    (s : Service) : list instruction :=
  let sid := sys_key (is_system i) in
  let mid := mod_key m in
  I_node (system_node i) :: flat_map (module_script sid) mpre ++ owned sid (module_node sid m) ++
  flat_map (entity_script mid) (md_entities m) ++ flat_map (service_script mid) spre ++
  owned mid (service_node mid s) ++
  flat_map (fun op => owned (svc_key (sv_id s)) (operation_node (svc_key (sv_id s)) op)) (sv_operations s).
Definition after_dependencies (i : ISR) (m : ModuleISR) (mpost : list ModuleISR) (spost : list Service) :
    list instruction :=
  let mid := mod_key m in
  flat_map (service_script mid) spost ++ flat_map (interface_script mid) (md_interfaces m) ++
  flat_map (fun p => owned mid (policy_node mid p)) (md_policies m) ++
  flat_map (event_script mid) (md_events m) ++ flat_map (module_script (sys_key (is_system i))) mpost.

Section Dependencies.
Context (i : ISR) (mpre mpost : list ModuleISR) (m : ModuleISR) (spre spost : list Service) (s : Service).
Hypothesis Hdistinct : NoDup (map n_id (isr_nodes i)).
Hypothesis Hmodules : sy_modules (is_system i) = mpre ++ m :: mpost.
Hypothesis Hservices : md_services m = spre ++ s :: spost.

Lemma script_around_service : isr_script i =
  before_dependencies i mpre m spre s ++
  map (fun d => I_link_if_present (svc_key (sv_id s)) (svc_key (sd_target_service_id d)) E_DEPENDS_ON)
    (sv_dependencies s) ++
  after_dependencies i m mpost spost.
Proof.
  unfold isr_script, before_dependencies, after_dependencies. cbn zeta. rewrite Hmodules, flat_map_app.
  cbn [flat_map]. unfold module_script at 2. rewrite Hservices, flat_map_app. cbn [flat_map].
  unfold service_script at 2. cbn [app]. by rewrite <- !app_assoc.
Qed.

Lemma other_services x : x ∈ (flat_map md_services mpre ++ spre) ++ spost ++ flat_map md_services mpost ->
  svc_key (sv_id x) <> svc_key (sv_id s).
Proof.
  apply (distinct_around (fun s => svc_key (sv_id s))). pose proof (distinct_of_type N_SERVICE i Hdistinct) as Hk.
  rewrite isr_service_nodes, Hmodules, flat_map_app in Hk. cbn [flat_map] in Hk.
  by rewrite Hservices, <- !app_assoc, app_assoc in Hk.
Qed.
Lemma quiet_before : Forall (quiet (svc_key (sv_id s)) E_DEPENDS_ON) (before_dependencies i mpre m spre s).
Proof.
  unfold before_dependencies. constructor; [done|]. repeat (apply Forall_app; split).
  - apply quiet_flat. intros m' Hm'. apply quiet_module; [done| |done]. intros _ x Hx. apply other_services.
    rewrite !elem_of_app. left. left. apply list_elem_of_In, in_flat_map. exists m'.
    by rewrite <- !list_elem_of_In.
  - by apply quiet_owned.
  - apply quiet_flat. intros. by apply quiet_entity.
  - apply quiet_flat. intros x Hx. apply quiet_service; [done|]. intros _. apply other_services.
    rewrite !elem_of_app. auto.
  - by apply quiet_owned.
  - apply quiet_flat. intros. by apply quiet_owned.
Qed.
Lemma quiet_after : Forall (quiet (svc_key (sv_id s)) E_DEPENDS_ON) (after_dependencies i m mpost spost).
Proof.
  unfold after_dependencies. repeat (apply Forall_app; split).
  - apply quiet_flat. intros x Hx. apply quiet_service; [done|]. intros _. apply other_services.
    rewrite !elem_of_app. auto.
  - apply quiet_flat. intros. by apply quiet_interface.
  - apply quiet_flat. intros. by apply quiet_owned.
  - apply quiet_flat. intros ev _. unfold event_script. destruct (ev_pattern ev); [by apply quiet_owned|].
    by repeat constructor.
  - apply quiet_flat. intros m' Hm'. apply quiet_module; [done| |done]. intros _ x Hx. apply other_services.
    rewrite !elem_of_app. right. right. apply list_elem_of_In, in_flat_map. exists m'.
    by rewrite <- !list_elem_of_In.
Qed.
Lemma services_before : map n_id (of_type N_SERVICE (added_nodes (before_dependencies i mpre m spre s))) =
  service_keys (flat_map md_services mpre ++ spre ++ [s]).
Proof.
  unfold before_dependencies. change (I_node ?n :: ?xs) with ([I_node n] ++ xs).
  rewrite !added_nodes_app, nodes_of_modules, nodes_of_entities, nodes_of_services, added_nodes_owned.
  rewrite !of_type_app, (of_type_blocks N_SERVICE N_ENTITY N_FIELD), (of_type_blocks N_SERVICE N_SERVICE N_OPERATION),
    (of_type_same N_SERVICE N_OPERATION) by done.
  rewrite (nodes_of_type_in N_SERVICE (fun m => map (service_node (mod_key m)) (md_services m)))
    by (intros x; apply (module_nodes_of_type N_SERVICE)).
  change (of_type N_SERVICE (added_nodes [I_node (system_node i)])) with (@nil GraphNode).
  change (of_type N_SERVICE (added_nodes (owned ?o (module_node ?d m)))) with (@nil GraphNode).
  change (of_type N_SERVICE (added_nodes (owned ?o (service_node ?d s)))) with [service_node d s].
  unfold service_keys. rewrite !map_app, !map_flat_map.
  rewrite !(decide_False (P := N_ENTITY = N_SERVICE)), !(decide_False (P := N_FIELD = N_SERVICE)),
    !(decide_False (P := N_OPERATION = N_SERVICE)), (decide_True (P := N_SERVICE = N_SERVICE)) by done.
  rewrite map_map. cbn. f_equal. apply flat_map_eq. intros x. by rewrite map_map.
Qed.

Lemma service_targets :
  targets (svc_key (sv_id s)) E_DEPENDS_ON (isr_links i) =
  List.filter (fun k => mem k (service_keys (flat_map md_services mpre ++ spre ++ [s])))
    (map (fun d => svc_key (sd_target_service_id d)) (sv_dependencies s)).
Proof.
  rewrite (links_around i _ _ _ _ E_DEPENDS_ON script_around_service quiet_before quiet_after).
  rewrite targets_present. apply filter_ext_map. intros d. unfold added_ids. rewrite <- services_before.
  apply mem_of_type. intros n Hn. apply (keyed_isr i). unfold isr_nodes. rewrite script_around_service, added_nodes_app.
  apply elem_of_app. by left.
Qed.
End Dependencies.

(** The script before and after the policy of an interface. *)
Definition before_policy (i : ISR) (mpre : list ModuleISR) (m : ModuleISR) (ipre : list Interface)
    (x : Interface) : list instruction :=
  let sid := sys_key (is_system i) in
  let mid := mod_key m in
  I_node (system_node i) :: flat_map (module_script sid) mpre ++ owned sid (module_node sid m) ++
  flat_map (entity_script mid) (md_entities m) ++ flat_map (service_script mid) (md_services m) ++
  flat_map (interface_script mid) ipre ++ owned mid (interface_node mid x) ++
  flat_map (fun ep => owned (iface_key x) (endpoint_node x ep)) (if_endpoints x).
Definition after_policy (i : ISR) (m : ModuleISR) (mpost : list ModuleISR) (ipost : list Interface) :
    list instruction :=
  let mid := mod_key m in
  flat_map (interface_script mid) ipost ++
  flat_map (fun p => owned mid (policy_node mid p)) (md_policies m) ++
  flat_map (event_script mid) (md_events m) ++ flat_map (module_script (sys_key (is_system i))) mpost.
Definition policy_link (x : Interface) : list instruction :=
  if val_truthy (if_secured_by_policy_id x)
  then [I_link_if_present (iface_key x) (pol_key (if_secured_by_policy_id x)) E_SECURED_BY] else [].

Lemma isr_interface_nodes i : map n_id (of_type N_INTERFACE (isr_nodes i)) =
  map iface_key (flat_map md_interfaces (sy_modules (is_system i))).
Proof.
  rewrite isr_nodes_of_type by done. rewrite !map_flat_map. apply flat_map_eq. intros m.
  rewrite (module_nodes_of_type N_INTERFACE), map_map. done.
Qed.

Section Secured.
Context (i : ISR) (mpre mpost : list ModuleISR) (m : ModuleISR) (ipre ipost : list Interface) (x : Interface).
Hypothesis Hdistinct : NoDup (map n_id (isr_nodes i)).
Hypothesis Hmodules : sy_modules (is_system i) = mpre ++ m :: mpost.
Hypothesis Hinterfaces : md_interfaces m = ipre ++ x :: ipost.

Lemma script_around_interface :
  isr_script i = before_policy i mpre m ipre x ++ policy_link x ++ after_policy i m mpost ipost.
Proof.
  unfold isr_script, before_policy, after_policy. cbn zeta. rewrite Hmodules, flat_map_app.
  cbn [flat_map]. unfold module_script at 2. rewrite Hinterfaces, flat_map_app. cbn [flat_map].
  unfold interface_script at 2. fold (policy_link x). cbn [app]. by rewrite <- !app_assoc.
Qed.
Lemma other_interfaces y : y ∈ (flat_map md_interfaces mpre ++ ipre) ++ ipost ++ flat_map md_interfaces mpost ->
  iface_key y <> iface_key x.
Proof.
  apply distinct_around. pose proof (distinct_of_type N_INTERFACE i Hdistinct) as Hk.
  rewrite isr_interface_nodes, Hmodules, flat_map_app in Hk. cbn [flat_map] in Hk.
  by rewrite Hinterfaces, <- !app_assoc, app_assoc in Hk.
Qed.
Lemma quiet_before_policy : Forall (quiet (iface_key x) E_SECURED_BY) (before_policy i mpre m ipre x).
Proof.
  unfold before_policy. constructor; [done|]. repeat (apply Forall_app; split).
  - apply quiet_flat. intros m' Hm'. apply quiet_module; [done|done|]. intros _ y Hy. apply other_interfaces.
    rewrite !elem_of_app. left. left. apply list_elem_of_In, in_flat_map. exists m'.
    by rewrite <- !list_elem_of_In.
  - by apply quiet_owned.
  - apply quiet_flat. intros. by apply quiet_entity.
  - apply quiet_flat. intros. by apply quiet_service.
  - apply quiet_flat. intros y Hy. apply quiet_interface; [done|]. intros _. apply other_interfaces.
    rewrite !elem_of_app. auto.
  - by apply quiet_owned.
  - apply quiet_flat. intros. by apply quiet_owned.
Qed.
Lemma quiet_after_policy : Forall (quiet (iface_key x) E_SECURED_BY) (after_policy i m mpost ipost).
Proof.
  unfold after_policy. repeat (apply Forall_app; split).
  - apply quiet_flat. intros y Hy. apply quiet_interface; [done|]. intros _. apply other_interfaces.
    rewrite !elem_of_app. auto.
  - apply quiet_flat. intros. by apply quiet_owned.
  - apply quiet_flat. intros ev _. unfold event_script. destruct (ev_pattern ev); [by apply quiet_owned|].
    by repeat constructor.
  - apply quiet_flat. intros m' Hm'. apply quiet_module; [done|done|]. intros _ y Hy. apply other_interfaces.
    rewrite !elem_of_app. right. right. apply list_elem_of_In, in_flat_map. exists m'.
    by rewrite <- !list_elem_of_In.
Qed.
Lemma policies_before : map n_id (of_type N_POLICY (added_nodes (before_policy i mpre m ipre x))) =
  policy_keys (flat_map md_policies mpre).
Proof.
  unfold before_policy. change (I_node ?n :: ?xs) with ([I_node n] ++ xs).
  rewrite !added_nodes_app, nodes_of_modules, nodes_of_entities, nodes_of_services, nodes_of_interfaces, added_nodes_owned.
  rewrite !of_type_app, (of_type_blocks N_POLICY N_ENTITY N_FIELD), (of_type_blocks N_POLICY N_SERVICE N_OPERATION),
    (of_type_blocks N_POLICY N_INTERFACE N_ENDPOINT), (of_type_same N_POLICY N_ENDPOINT) by done.
  rewrite (nodes_of_type_in N_POLICY (fun m => map (policy_node (mod_key m)) (md_policies m)))
    by (intros y; apply (module_nodes_of_type N_POLICY)).
  change (of_type N_POLICY (added_nodes [I_node (system_node i)])) with (@nil GraphNode).
  change (of_type N_POLICY (added_nodes (owned ?o (module_node ?d m)))) with (@nil GraphNode).
  change (of_type N_POLICY (added_nodes (owned ?o (interface_node ?d x)))) with (@nil GraphNode).
  unfold policy_keys. rewrite !map_app, !map_flat_map. rewrite !decide_False by done.
  cbn. rewrite app_nil_r. apply flat_map_eq. intros y. by rewrite map_map.
Qed.

Lemma interface_targets :
  targets (iface_key x) E_SECURED_BY (isr_links i) =
  if val_truthy (if_secured_by_policy_id x)
  then List.filter (fun k => mem k (policy_keys (flat_map md_policies mpre))) [pol_key (if_secured_by_policy_id x)]
  else [].
Proof.
  rewrite (links_around i _ _ _ _ E_SECURED_BY script_around_interface quiet_before_policy quiet_after_policy).
  unfold policy_link. destruct (val_truthy (if_secured_by_policy_id x)); [|done].
  etransitivity; [apply (targets_present (iface_key x) E_SECURED_BY _ pol_key [if_secured_by_policy_id x])|].
  apply (filter_ext_map pol_key _ _ [if_secured_by_policy_id x]). intros v. unfold added_ids. rewrite <- policies_before.
  apply mem_of_type. intros n Hn. apply (keyed_isr i). unfold isr_nodes. rewrite script_around_interface, added_nodes_app.
  apply elem_of_app. by left.
Qed.
End Secured.
End Script.
