(* ===== verification/IsrRoundTrip.v ===== *)
(** * From an ISR to its graph and back

    What [graph_to_isr] makes of the graph [isr_to_graph] built: an explicit
    restriction of the ISR, and which parts of an ISR do not survive. *)

From Stdlib Require Import SpecFloat.
From S2P Require Import Prelude PyFloat PyVal PyText PyJson IsrModel IsrRecords IsrSerial TypedGraph.
From S2P Require Import IsrValidation IsrMetrics IsrMetricsSpec EvoModels EvoEngine IsrAdapter IsrAdapterSpec.
Open Scope Z_scope.

Section RoundTrip.
Context `{Surroundings, Texts, ContentHash}.

(** ** What is kept

    Ids lose every occurrence of the prefix of their kind; a field keeps the
    types the adapter can read; a service keeps the dependencies on itself and on
    services that come before it, an interface the policy of an earlier module;
    everything else of the system gets its default. *)
Definition kept_id (prefix : string) (id : pyval) : pyval := VStr (remove_all prefix (text_of id)).
Definition kept_name (name : pyval) : pyval := VStr (text_of name).
Definition kept_type (t : FieldType) : FieldType :=
  match t with
  | FT_TIME | FT_IDENTIFIER | FT_URL | FT_ENUM | FT_BINARY | FT_ARRAY | FT_REFERENCE => FT_STRING
  | t => t
  end.
Definition kept_field (f : Field) : Field :=
  {| fl_name := fl_name f; fl_field_type := kept_type (fl_field_type f); fl_cardinality := fl_cardinality f;
     fl_description := VStr ""; fl_default_value := VNone; fl_constraints := []; fl_enum_values := [];
     fl_reference_target := VNone; fl_is_primary_key := VBool false; fl_is_indexed := VBool false;
     fl_metadata := VDict []; fl_abstract_source_type := VNone |}.
Definition kept_entity (e : Entity) : Entity :=
  new_entity (en_id e) (kept_name (en_name e)) (map kept_field (en_fields e)).
Definition kept_operation (op : Operation) : Operation :=
  new_operation (kept_id "op:" (op_id op)) (op_name op) (op_operation_type op).
Definition kept_dependencies (known : list Service) (ds : list ServiceDependency) : list ServiceDependency :=
  map (fun d => new_dependency (kept_id "svc:" (sd_target_service_id d)))
    (List.filter (fun d => mem (svc_key (sd_target_service_id d)) (service_keys known)) ds).
Definition kept_service (known : list Service) (s : Service) : Service :=
  new_service (kept_id "svc:" (sv_id s)) (kept_name (sv_name s)) (map kept_operation (sv_operations s))
    (kept_dependencies known (sv_dependencies s)) (sv_is_stateless s).
Fixpoint kept_services (known ss : list Service) : list Service :=
  match ss with
  | [] => []
  | s :: ss => kept_service (known ++ [s]) s :: kept_services (known ++ [s]) ss
  end.
Fixpoint kept_endpoints (n : nat) (eps : list Endpoint) : list Endpoint :=
  match eps with
  | [] => []
  | ep :: eps => new_endpoint (VStr ("ep-" +:+ str_of_int (Z.of_nat n))) (ep_name ep) (ep_path ep) (ep_method ep)
                   :: kept_endpoints (S n) eps
  end.
Definition kept_policy_id (known : list Policy) (id : pyval) : pyval :=
  if val_truthy id && mem (pol_key id) (policy_keys known) && truthy (remove_all "pol:" (text_of id))
  then kept_id "pol:" id else VNone.
Definition kept_interface (known : list Policy) (i : Interface) : Interface :=
  new_interface (kept_id "iface:" (if_id i)) (kept_name (if_name i)) (if_interface_type i)
    (kept_endpoints 0 (if_endpoints i)) (kept_policy_id known (if_secured_by_policy_id i)) (if_is_internal i).
Definition kept_policy (p : Policy) : Policy :=
  new_policy (kept_id "pol:" (po_id p)) (kept_name (po_name p)) (po_policy_type p) (po_strategy p).
Definition kept_events (evs : list Event) : list Event :=
  omap (fun ev => p ← ev_pattern ev; Some (new_event (kept_id "evt:" (ev_id ev)) (kept_name (ev_name ev)) p)) evs.
Definition kept_module (services : list Service) (policies : list Policy) (m : ModuleISR) : ModuleISR :=
  new_module (kept_id "mod:" (md_id m)) (kept_name (md_name m)) (md_description m)
    (map kept_entity (md_entities m)) (kept_services services (md_services m))
    (map (kept_interface policies) (md_interfaces m)) (map kept_policy (md_policies m))
    (kept_events (md_events m)).
Fixpoint kept_modules (services : list Service) (policies : list Policy) (ms : list ModuleISR) : list ModuleISR :=
  match ms with
  | [] => []
  | m :: ms => kept_module services policies m ::
                 kept_modules (services ++ md_services m) (policies ++ md_policies m) ms
  end.
Definition kept_system (s : System) : System :=
  new_system (sy_id s) (sy_name s) (kept_modules [] [] (sy_modules s)).

(** ** Texts *)

Lemma drop_all_skip pat p t : drop_all pat (String.length p) (p +:+ t) = drop_all pat 0 t.
Proof. induction p as [|c p IH]; [done|]. exact IH. Qed.
Lemma prefix_app p t : String.prefix p (p +:+ t) = true.
Proof. induction p as [|c p IH]; [by destruct t|]. rewrite str_cons_app. cbn. by destruct (Ascii.ascii_dec c c). Qed.
Lemma remove_all_prefix c p t : remove_all (String c p) (String c p +:+ t) = remove_all (String c p) t.
Proof.
  unfold remove_all. rewrite str_cons_app. cbn [drop_all]. rewrite <- str_cons_app, prefix_app.
  cbn [String.length]. replace (S (String.length p) - 1)%nat with (String.length p) by lia. apply drop_all_skip.
Qed.

Lemma parse_kept_type t : parse_field_type (VStr (field_type_value t)) = Ok (kept_type t).
Proof. by destruct t. Qed.
Lemma parse_kept_cardinality c : parse_cardinality (VStr (field_cardinality_value c)) = Ok c.
Proof. by destruct c. Qed.

(** ** The graph of a conversion *)

Section Back.
Context (i : ISR) (g : TypedGraph) (w w' : World).
Hypothesis Hconverted : convert_isr i w = (Ok g, w').

Lemma converted_graph : graph_ok g /\ g_nodes g = map (fun n => (n_id n, n)) (isr_nodes i) /\
  edges g = edges_from (w_uuids w) (isr_links i) /\ NoDup (map n_id (isr_nodes i)).
Proof.
  pose proof (convert_run i w) as R. rewrite Hconverted in R. destruct R as (Hc & Hg & Hn & He).
  split_and!; [done..|]. apply (pf_nodes _ _ _ _ Hc).
Qed.
Lemma nodes_of t : get_nodes_by_type g t = of_type t (isr_nodes i).
Proof.
  unfold get_nodes_by_type, nodes, of_type. destruct converted_graph as (_ & -> & _). unfold dvalues.
  by rewrite map_map, map_id.
Qed.
Lemma node_found k : k ∈ map n_id (isr_nodes i) -> exists n, get_node g k = Some n /\ n_id n = k.
Proof.
  intros (n & -> & Hn)%list_elem_of_fmap. exists n. split; [|done]. destruct converted_graph as (Hg & En & _).
  unfold get_node. apply elem_dget; [apply Hg|]. rewrite En. by apply (list_elem_of_fmap_2 (fun n => (n_id n, n))).
Qed.
Lemma nodes_found {A} (F : string -> A) ks : (forall k, k ∈ ks -> k ∈ map n_id (isr_nodes i)) ->
  map (fun n => F (n_id n)) (omap (get_node g) ks) = map F ks.
Proof.
  induction ks as [|k ks IH]; intros Hk; [done|]. destruct (node_found k) as (n & E & En); [apply Hk; by left|].
  cbn [omap list_omap map]. rewrite E. cbn [map]. rewrite En, IH; [done|]. intros. apply Hk. by right.
Qed.
Lemma linked k t : exists es, get_outgoing_edges g k = Ok es /\
  linked_nodes g t es = omap (get_node g) (targets k t (isr_links i)).
Proof.
  destruct converted_graph as (Hg & _ & He & _). eexists. split; [by apply get_outgoing_edges_spec|].
  unfold out_edges. rewrite He. apply linked_targets.
Qed.

(** The children of one owner, when the nodes of a type are listed by owner. *)
Lemma children_of {O} t (key : O -> string) (block : O -> list GraphNode) owners o :
  of_type t (isr_nodes i) = flat_map block owners ->
  (forall o n, n ∈ block o -> parent_id n = Some (key o)) ->
  NoDup (map key owners) -> o ∈ owners -> children g t (key o) = block o.
Proof.
  intros Eb Hp Hnd Ho. unfold children. rewrite nodes_of, Eb, filter_flat_map.
  apply (flat_map_owner key block _ owners o Hnd Ho).
  - apply filter_all. intros n Hn. apply bool_decide_eq_true_2. by apply Hp.
  - intros o' Hne. apply filter_none. intros n Hn. apply bool_decide_eq_false_2. rewrite (Hp o' n Hn). congruence.
Qed.

Abbreviation ms := (sy_modules (is_system i)).
Abbreviation sid := (sys_key (is_system i)).

Lemma distinct t : NoDup (map n_id (of_type t (isr_nodes i))).
Proof. apply distinct_of_type, converted_graph. Qed.
Lemma typed_blocks t (f : ModuleISR -> list GraphNode) : t <> N_SYSTEM ->
  (forall m, of_type t (module_nodes sid m) = f m) -> of_type t (isr_nodes i) = flat_map f ms.
Proof. intros Ht Hf. rewrite isr_nodes_of_type by done. by apply flat_map_eq. Qed.

Lemma distinct_modules : NoDup (map mod_key ms).
Proof.
  pose proof (distinct N_MODULE) as Hd.
  rewrite (typed_blocks N_MODULE (fun m => [module_node sid m])) in Hd;
    [|done|intros m; apply (module_nodes_of_type N_MODULE)].
  by rewrite flat_map_singleton, map_map in Hd.
Qed.
(** The children of a module. *)
Lemma module_children t (f : ModuleISR -> list GraphNode) m : t <> N_SYSTEM ->
  (forall m, of_type t (module_nodes sid m) = f m) ->
  (forall m n, n ∈ f m -> parent_id n = Some (mod_key m)) -> m ∈ ms -> children g t (mod_key m) = f m.
Proof. intros Ht Hf Hp Hm. eapply children_of; [by apply typed_blocks|done|apply distinct_modules|done]. Qed.

(** Owners below the modules. *)
Lemma distinct_owners {O} t (key : O -> string) (mk : string -> O -> GraphNode) (sub : ModuleISR -> list O) :
  t <> N_SYSTEM -> (forall m, of_type t (module_nodes sid m) = map (mk (mod_key m)) (sub m)) ->
  (forall mid o, n_id (mk mid o) = key o) -> NoDup (map key (flat_map sub ms)).
Proof.
  intros Ht Hf Hk. pose proof (distinct t) as Hd. rewrite (typed_blocks t _ Ht Hf), map_flat_map in Hd.
  rewrite map_flat_map. rewrite (flat_map_eq _ (fun m => map n_id (map (mk (mod_key m)) (sub m)))); [exact Hd|].
  intros m. rewrite map_map. apply map_ext. intros o. by rewrite Hk.
Qed.
Lemma owner_children {O X} t tO (key : O -> string) (mk : string -> O -> GraphNode) (sub : ModuleISR -> list O)
    (f : O -> X -> GraphNode) (xs : O -> list X) m o :
  t <> N_SYSTEM -> tO <> N_SYSTEM ->
  (forall m, of_type tO (module_nodes sid m) = map (mk (mod_key m)) (sub m)) ->
  (forall mid o, n_id (mk mid o) = key o) ->
  (forall m, of_type t (module_nodes sid m) = flat_map (fun o => map (f o) (xs o)) (sub m)) ->
  (forall o x, parent_id (f o x) = Some (key o)) ->
  m ∈ ms -> o ∈ sub m -> children g t (key o) = map (f o) (xs o).
Proof.
  intros Ht HtO Hf Hk Hx Hp Hm Ho.
  eapply (children_of t key (fun o => map (f o) (xs o)) (flat_map sub ms)).
  - rewrite (typed_blocks t _ Ht Hx). symmetry. apply flat_map_flat_map.
  - intros o' n (x & -> & _)%list_elem_of_fmap. apply Hp.
  - by eapply distinct_owners.
  - apply list_elem_of_In, in_flat_map. exists m. by rewrite <- !list_elem_of_In.
Qed.

(** ** Part by part *)

Lemma fields_back m e : m ∈ ms -> e ∈ md_entities m ->
  graph_to_fields g (ent_key e) = Ok (map kept_field (en_fields e)).
Proof.
  intros Hm He. unfold graph_to_fields.
  rewrite (owner_children N_FIELD N_ENTITY ent_key entity_node md_entities (fun e => field_node (ent_key e))
             en_fields m e); [|done|done|apply (module_nodes_of_type N_ENTITY)|done|
             apply (module_nodes_of_type N_FIELD)|done..].
  apply map_res_map. intros f _.
  change (attr "field_type" _ _) with (VStr (field_type_value (fl_field_type f))).
  change (attr "cardinality" _ _) with (VStr (field_cardinality_value (fl_cardinality f))).
  change (attr "name" _ _) with (fl_name f). rewrite parse_kept_type, parse_kept_cardinality.
  unfold new_field, check_field, field_ok, kept_field. by destruct (fl_field_type f).
Qed.
Lemma entities_back m : m ∈ ms -> graph_to_entities g (module_node sid m) = Ok (map kept_entity (md_entities m)).
Proof.
  intros Hm. unfold graph_to_entities. change (n_id (module_node sid m)) with (mod_key m).
  rewrite (module_children N_ENTITY (fun m => map (entity_node (mod_key m)) (md_entities m))); [|done|apply (module_nodes_of_type N_ENTITY)| |done].
  2: { intros m' n (e & -> & _)%list_elem_of_fmap. done. }
  apply map_res_map. intros e He. change (n_id (entity_node (mod_key m) e)) with (ent_key e).
  rewrite (fields_back m e Hm He). done.
Qed.

Lemma operations_back m s : m ∈ ms -> s ∈ md_services m ->
  map_res (fun n =>
      t ← enum_of "OperationType" operation_type_members (attr "operation_type" (VStr "command") n);
      Ok (new_operation (VStr (remove_all "op:" (n_id n))) (attr "name" (VStr (label n)) n) t))
      (children g N_OPERATION (svc_key (sv_id s))) = Ok (map kept_operation (sv_operations s)).
Proof.
  intros Hm Hs.
  rewrite (owner_children N_OPERATION N_SERVICE (fun s => svc_key (sv_id s)) service_node md_services
             (fun s => operation_node (svc_key (sv_id s))) sv_operations m s);
    [|done|done|apply (module_nodes_of_type N_SERVICE)|done|apply (module_nodes_of_type N_OPERATION)|done..].
  apply map_res_map. intros op _. unfold attr, kept_operation, kept_id. cbn [n_id operation_node node].
  rewrite <- (remove_all_prefix _ _ (text_of (op_id op))). by destruct op as [? ? []].
Qed.

Lemma filter_map_swap {A B} (p : B -> bool) (f : A -> B) xs :
  List.filter p (map f xs) = map f (List.filter (fun x => p (f x)) xs).
Proof. induction xs as [|x xs IH]; [done|]. cbn. rewrite IH. by destruct (p (f x)). Qed.

Lemma dependencies_back mpre m mpost spre s spost :
  ms = mpre ++ m :: mpost -> md_services m = spre ++ s :: spost ->
  exists es, get_outgoing_edges g (svc_key (sv_id s)) = Ok es /\
    map (fun target => new_dependency (VStr (remove_all "svc:" (n_id target)))) (linked_nodes g E_DEPENDS_ON es) =
    kept_dependencies (flat_map md_services mpre ++ spre ++ [s]) (sv_dependencies s).
Proof.
  intros Em Es. destruct (linked (svc_key (sv_id s)) E_DEPENDS_ON) as (es & Ees & El). exists es. split; [done|]. rewrite El.
  destruct converted_graph as (_ & _ & _ & Hnd). rewrite (service_targets i mpre mpost m spre spost s Hnd Em Es).
  rewrite (nodes_found (fun k => new_dependency (VStr (remove_all "svc:" k)))).
  - rewrite filter_map_swap, map_map. unfold kept_dependencies. apply map_ext. intros d. unfold kept_id, svc_key.
    by rewrite remove_all_prefix.
  - intros k Hk. apply list_elem_of_In, filter_In in Hk as [_ Hk%mem_true].
    apply (list_elem_of_In (map n_id (isr_nodes i))). pose proof (isr_service_nodes i) as Ek.
    assert (Hk2 : k ∈ map n_id (of_type N_SERVICE (isr_nodes i))).
    { rewrite Ek, Em, flat_map_app. cbn [flat_map]. rewrite Es. unfold service_keys in *.
      rewrite !map_app in *. cbn [map] in *. rewrite !elem_of_app in *. rewrite !elem_of_cons in *.
      rewrite elem_of_nil in Hk. tauto. }
    apply list_elem_of_fmap in Hk2 as (n & -> & Hn). apply in_map. apply list_elem_of_In, filter_In in Hn. tauto.
Qed.

Section Module.
Context (mpre mpost : list ModuleISR) (m : ModuleISR).
Hypothesis Hm : ms = mpre ++ m :: mpost.

Lemma this_module : m ∈ ms.
Proof. rewrite Hm. apply elem_of_app. right. by left. Qed.

Lemma services_back : graph_to_services g (module_node sid m) = Ok (kept_services (flat_map md_services mpre) (md_services m)).
Proof.
  unfold graph_to_services. change (n_id (module_node sid m)) with (mod_key m).
  rewrite (module_children N_SERVICE (fun m => map (service_node (mod_key m)) (md_services m)));
    [|done|apply (module_nodes_of_type N_SERVICE)| |apply this_module].
  2: { intros m' n (s & -> & _)%list_elem_of_fmap. done. }
  match goal with |- map_res ?F _ = _ =>
    assert (Hsuf : forall ss spre, md_services m = spre ++ ss -> map_res F (map (service_node (mod_key m)) ss) =
              Ok (kept_services (flat_map md_services mpre ++ spre) ss)) end;
    [|rewrite <- (app_nil_r (flat_map md_services mpre)); by apply (Hsuf _ [])].
  induction ss as [|s ss IH]; intros spre Es; [done|]. cbn [map map_res kept_services].
  change (n_id (service_node (mod_key m) s)) with (svc_key (sv_id s)).
  rewrite (operations_back m s this_module) by (rewrite Es; apply elem_of_app; right; by left).
  destruct (dependencies_back mpre m mpost spre s ss Hm Es) as (es & Ees & Ed). rewrite Ees. unfold_monad.
  rewrite Ed, (IH (spre ++ [s])) by (by rewrite Es, <- app_assoc). unfold kept_service, kept_id, kept_name.
  rewrite <- app_assoc. rewrite <- (remove_all_prefix _ _ (text_of (sv_id s))). done.
Qed.

Lemma endpoints_back x eps n :
  graph_to_endpoints n (map (endpoint_node x) eps) = Ok (kept_endpoints n eps).
Proof.
  revert n. induction eps as [|ep eps IH]; intros n; [done|]. cbn [map graph_to_endpoints kept_endpoints].
  change (attr "method" _ _) with (VStr (http_method_value (ep_method ep))). rewrite IH. by destruct ep as [? ? ? []].
Qed.

Lemma policy_back x ipre ipost : md_interfaces m = ipre ++ x :: ipost ->
  exists es, get_outgoing_edges g (iface_key x) = Ok es /\
    (let secured_by := match last (linked_nodes g E_SECURED_BY es) with
                       | Some target => remove_all "pol:" (n_id target) | None => "" end in
     if truthy secured_by then VStr secured_by else VNone) =
    kept_policy_id (flat_map md_policies mpre) (if_secured_by_policy_id x).
Proof.
  intros Ei. destruct (linked (iface_key x) E_SECURED_BY) as (es & Ees & El). exists es. split; [done|].
  rewrite El. destruct converted_graph as (_ & _ & _ & Hnd).
  rewrite (interface_targets i mpre mpost m ipre ipost x Hnd Hm Ei). unfold kept_policy_id, kept_id.
  destruct (val_truthy (if_secured_by_policy_id x)); [|done]. cbn [List.filter andb].
  destruct (mem _ _) eqn:Ek; [|done]. apply mem_true in Ek.
  destruct (node_found (pol_key (if_secured_by_policy_id x))) as (n & En & Eid).
  { apply list_elem_of_fmap in Ek as (p & -> & Hp). rewrite isr_nodes_eq, Hm, flat_map_app. cbn [map].
    apply elem_of_cons. right. rewrite map_app. apply elem_of_app. left. apply list_elem_of_In, in_flat_map in Hp as (m0 & Hm0 & Hp).
    apply list_elem_of_In, in_map_iff. exists (policy_node (mod_key m0) p). split; [done|]. apply in_flat_map.
    exists m0. split; [done|]. right. rewrite !in_app_iff, (in_map_iff (policy_node _)). do 3 right. left. by exists p. }
  cbn [omap list_omap]. rewrite En. cbn [last]. rewrite Eid. unfold pol_key. rewrite remove_all_prefix. done.
Qed.

Lemma interfaces_back : graph_to_interfaces g (module_node sid m) =
  Ok (map (kept_interface (flat_map md_policies mpre)) (md_interfaces m)).
Proof.
  unfold graph_to_interfaces. change (n_id (module_node sid m)) with (mod_key m).
  rewrite (module_children N_INTERFACE (fun m => map (interface_node (mod_key m)) (md_interfaces m)));
    [|done|apply (module_nodes_of_type N_INTERFACE)| |apply this_module].
  2: { intros m' n (s & -> & _)%list_elem_of_fmap. done. }
  apply map_res_map. intros x Hx. change (n_id (interface_node (mod_key m) x)) with (iface_key x).
  rewrite (owner_children N_ENDPOINT N_INTERFACE iface_key interface_node md_interfaces endpoint_node if_endpoints m x);
    [|done|done|apply (module_nodes_of_type N_INTERFACE)|done|apply (module_nodes_of_type N_ENDPOINT)|done|apply this_module|done].
  rewrite endpoints_back. unfold_monad. apply list_elem_of_split in Hx as (ipre & ipost & Ei).
  destruct (policy_back x ipre ipost Ei) as (es & -> & Ep). cbn zeta in Ep. cbn zeta. rewrite Ep.
  change (attr "interface_type" _ _) with (VStr (interface_type_value (if_interface_type x))).
  unfold kept_interface, kept_id, kept_name. rewrite <- (remove_all_prefix _ _ (text_of (if_id x))).
  unfold iface_key. by destruct x as [? ? []].
Qed.
End Module.

Lemma policies_back m : m ∈ ms -> graph_to_policies g (module_node sid m) = Ok (map kept_policy (md_policies m)).
Proof.
  intros Hm. unfold graph_to_policies. change (n_id (module_node sid m)) with (mod_key m).
  rewrite (module_children N_POLICY (fun m => map (policy_node (mod_key m)) (md_policies m)));
    [|done|apply (module_nodes_of_type N_POLICY)| |done].
  2: { intros m' n (s & -> & _)%list_elem_of_fmap. done. }
  apply map_res_map. intros p _. change (attr "policy_type" _ _) with (VStr (policy_type_value (po_policy_type p))).
  unfold kept_policy, kept_id, kept_name. rewrite <- (remove_all_prefix _ _ (text_of (po_id p))).
  by destruct p as [? ? []].
Qed.
Lemma events_back m : m ∈ ms -> graph_to_events g (module_node sid m) = Ok (kept_events (md_events m)).
Proof.
  intros Hm. unfold graph_to_events. change (n_id (module_node sid m)) with (mod_key m).
  rewrite (module_children N_EVENT (fun m => flat_map (event_nodes (mod_key m)) (md_events m)));
    [|done|apply (module_nodes_of_type N_EVENT)| |done].
  2: { intros m' n Hn. apply list_elem_of_In, in_flat_map in Hn as (ev & _ & Hn). unfold event_nodes in Hn.
       destruct (ev_pattern ev); [|done]. by destruct Hn as [<-|[]]. }
  unfold kept_events. induction (md_events m) as [|ev evs IH]; [done|]. cbn [flat_map omap list_omap].
  unfold event_nodes at 1. destruct (ev_pattern ev) as [p|]; [|exact IH]. cbn [app map_res]. rewrite IH.
  change (attr "pattern" _ (event_node _ _ _)) with (VStr (event_pattern_value p)). unfold kept_id, kept_name.
  rewrite <- (remove_all_prefix _ _ (text_of (ev_id ev))). by destruct p.
Qed.

Lemma module_back mpre m mpost : ms = mpre ++ m :: mpost ->
  graph_to_module g (module_node sid m) =
  Ok (kept_module (flat_map md_services mpre) (flat_map md_policies mpre) m).
Proof.
  intros Em. pose proof (this_module mpre mpost m Em) as Hm. unfold graph_to_module.
  rewrite entities_back, (services_back mpre mpost m Em), (interfaces_back mpre mpost m Em), policies_back, events_back by done.
  unfold_monad. unfold kept_module, kept_id, kept_name. rewrite <- (remove_all_prefix _ _ (text_of (md_id m))). done.
Qed.
Lemma system_back parent :
  graph_to_system g parent =
  Ok (new_system (sy_id (is_system parent)) (sy_name (is_system i)) (kept_modules [] [] ms)).
Proof.
  unfold graph_to_system. rewrite nodes_of, isr_nodes_system.
  assert (Ec : children g N_MODULE (n_id (system_node i)) = map (module_node sid) ms).
  { unfold children. rewrite nodes_of, (typed_blocks N_MODULE (fun m => [module_node sid m]));
      [|done|apply (module_nodes_of_type N_MODULE)].
    rewrite flat_map_singleton. apply filter_all. intros n (m & -> & _)%list_elem_of_fmap. by apply bool_decide_eq_true_2. }
  rewrite Ec.
  assert (Hsuf : forall suf pre, ms = pre ++ suf -> map_res (graph_to_module g) (map (module_node sid) suf) =
            Ok (kept_modules (flat_map md_services pre) (flat_map md_policies pre) suf));
    [|by rewrite (Hsuf _ [])].
  induction suf as [|m suf IH]; intros pre Em; [done|]. cbn [map map_res kept_modules].
  rewrite (module_back pre m suf Em), (IH (pre ++ [m])) by (by rewrite Em, <- app_assoc).
  rewrite !flat_map_app. cbn [flat_map]. by rewrite !app_nil_r.
Qed.
End Back.

(** C17: turning an ISR into a graph and back, with any parent, returns whenever
    the ISR can be converted and the parent's version is a number, and gives the
    restriction [kept_system] of the ISR, under the parent's system id, with the
    parent's version plus one and the parent's content hash as its parent. *)
Theorem round_trip_restricts i parent w1 w2 :
  match convert_isr i w1 with
  | (Raise _, _) => ~ convertible i w1
  | (Ok g, _) => convertible i w1 /\
      match convert_graph g parent w2, py_succ (is_version parent) with
      | (Ok j, _), Ok v =>
          is_system j = new_system (sy_id (is_system parent)) (sy_name (is_system i))
                          (kept_modules [] [] (sy_modules (is_system i))) /\
          is_version j = v /\ pv_parent_hash (is_provenance j) = isr_content_hash parent
      | (Raise x, _), Raise y => x = y
      | _, _ => False
      end
  end.
Proof.
  pose proof (convert_run i w1) as R. destruct (convert_isr i w1) as [[g|x] w'] eqn:E; [|by destruct R].
  split; [by destruct R|]. unfold convert_graph. rewrite (system_back i g w1 w' E parent). unfold_monad.
  by destruct (py_succ (is_version parent)).
Qed.

(** *** What never comes back *)

Lemma workflows_are_dropped services policies ms :
  Forall (fun m => md_workflows m = []) (kept_modules services policies ms).
Proof. revert services policies. induction ms as [|m ms IH]; intros; constructor; [done|apply IH]. Qed.
Lemma carriers_are_dropped s : sy_deployment (kept_system s) = None /\ sy_constraints (kept_system s) = [] /\
  sy_global_policies (kept_system s) = [] /\ sy_description (kept_system s) = VStr "".
Proof. done. Qed.

(** An interface of the first module never keeps its policy: policies are added
    after the interfaces. *)
Lemma first_module_is_unsecured s m ms : sy_modules s = m :: ms ->
  Forall (fun i => if_secured_by_policy_id i = VNone)
    (from_option md_interfaces [] (head (sy_modules (kept_system s)))).
Proof.
  intros E. unfold kept_system. cbn [sy_modules new_system]. rewrite E. cbn. apply Forall_forall.
  intros x (i & -> & _)%list_elem_of_fmap. cbn. unfold kept_policy_id. cbn. by rewrite andb_false_r.
Qed.
End RoundTrip.

(** ** An example

    One module: an order service that depends on a payment service listed after
    it, an interface secured by a policy, a field of type URL. *)

#[local] Instance sample_texts : Texts := {| py_str _ := "value"; py_repr _ := "value" |}.
#[local] Instance sample_hash : ContentHash := fun _ => "hash".
#[local] Instance sample_surroundings : Surroundings := {|
  uuid_hex n := "a" +:+ str_of_int (Z.of_nat n) +:+ "00"; clock n := Z.of_nat n; perf_counter _ := fzero;
  random_bits _ := 0%nat; random_unit _ := fzero; power x _ := Ok x; sqrt x := x; log2 x := x |}.

Definition url_field : Field :=
  {| fl_name := VStr "site"; fl_field_type := FT_URL; fl_cardinality := FC_OPTIONAL;
     fl_description := VStr "home page"; fl_default_value := VNone; fl_constraints := []; fl_enum_values := [];
     fl_reference_target := VNone; fl_is_primary_key := VBool false; fl_is_indexed := VBool true;
     fl_metadata := VDict []; fl_abstract_source_type := VNone |}.
Definition shop : System := new_system (VStr "shop") (VStr "Shop")
  [new_module (VStr "m") (VStr "Orders") (VStr "")
     [new_entity (VStr "e") (VStr "Customer") [url_field]]
     [new_service (VStr "s1") (VStr "Order") [] [new_dependency (VStr "s2")] (VBool true);
      new_service (VStr "s2") (VStr "Payment") [new_operation (VStr "o") (VStr "Pay") OT_COMMAND]
        [new_dependency (VStr "s1")] (VBool true)]
     [new_interface (VStr "i") (VStr "API") IT_REST [new_endpoint (VStr "pay") (VStr "Pay") (VStr "/pay") HM_POST]
        (VStr "p") (VBool false)]
     [new_policy (VStr "p") (VStr "Auth") PT_AUTHENTICATION (VStr "OAuth2")]
     [new_event (VStr "v") (VStr "Paid") EP_PUBLISH_SUBSCRIBE]].
Definition isr_of (s : System) : ISR :=
  {| is_system := s; is_version := VInt 1;
     is_provenance := {| pv_created_at := 0; pv_created_by := VStr ""; pv_parent_hash := VStr "";
       pv_mutation_description := VStr ""; pv_evolution_run_id := VNone; pv_generation := VInt 0 |};
     is_content_hash := VNone |}.

(** The dependency on the later service, the policy of the interface and the type
    of the field are gone, the endpoint has a new id. *)
Example shop_comes_back :
  match convert_isr (isr_of shop) world0 with
  | (Ok g, w) => match convert_graph g (isr_of shop) w with
    | (Ok j, _) =>
        is_version j = VInt 2 /\
        match sy_modules (is_system j) with
        | [m] =>
            map (fun s => map sd_target_service_id (sv_dependencies s)) (md_services m) = [[]; [VStr "s1"]] /\
            map if_secured_by_policy_id (md_interfaces m) = [VNone] /\
            map (fun i => map ep_id (if_endpoints i)) (md_interfaces m) = [[VStr "ep-0"]] /\
            map (fun e => map fl_field_type (en_fields e)) (md_entities m) = [[FT_STRING]]
        | _ => False
        end
    | _ => False
    end
  | _ => False
  end.
Proof. vm_compute. split_and!; reflexivity. Qed.
(** The interface is secured, but its security coverage is 0. *)
Example secured_interface_scores_zero :
  match evaluate_isr (isr_of shop) world0 with
  | (Ok v, _) => dget "security_coverage" (fv_values v) = Some fzero
  | _ => False
  end.
Proof. vm_compute. reflexivity. Qed.
(** An id that contains the prefix of its kind changes on the way. *)
Example prefixed_id_changes : kept_id "mod:" (VStr "order-mod:1") = VStr "order-1".
Proof. reflexivity. Qed.
