(* ===== verification/EvoOperators.v ===== *)
(** * Evolution engine: the mutation operators

    [constitutional_architecture/engine/mutation_operators.py]: the ten operators
    [register_all_operators] registers, each a precondition and a function from a
    graph to a changed copy, with the writes to the dicts of the copy as the code
    makes them.  Names among the parameters are texts; any other value is taken
    as its text. *)

From Stdlib Require Import SpecFloat.
From S2P Require Import Prelude PyFloat PyVal PyText PyJson IsrModel TypedGraph IsrValidation EvoModels.
From S2P Require Import EvoPopulation EvoControl EvoEngine IsrAdapter.
Open Scope Z_scope.

Section Operators.
Context `{Surroundings, Texts}.

(** ** Helpers *)

(** [_clone]: the metadata of edge attributes is not copied. *)
Definition copy_attributes (a : EdgeAttributes) : EdgeAttributes := {|
  coupling_strength := coupling_strength a; communication_mode := communication_mode a;
  criticality := criticality a; latency_budget_ms := latency_budget_ms a;
  ea_description := ea_description a; ea_metadata := [] |}.
Definition copy_edge (e : GraphEdge) : GraphEdge := {|
  e_id := e_id e; source_id := source_id e; target_id := target_id e; edge_type := edge_type e;
  e_attributes := copy_attributes (e_attributes e); e_metadata := e_metadata e |}.
Definition copy_graph (g : TypedGraph) : TypedGraph := {|
  g_nodes := fold_left (fun d n => dset (n_id n) n d) (nodes g) [];
  g_edges := map (fun p => (p.1, copy_edge p.2)) (g_edges g);
  g_adjacency := g_adjacency g; g_reverse := g_reverse g |}.

(** [uuid.uuid4().hex[:n]]. *)
Definition hex (n : nat) : M World string := fun w =>
  (Ok (String.substring 0 n (uuid_hex (w_uuids w))),
   {| w_uuids := S (w_uuids w); w_clock := w_clock w; w_perf := w_perf w; w_random := w_random w |}).

(** A method of the graph under change. *)
Definition applied (m : M TypedGraph unit) (g : TypedGraph) : M World TypedGraph :=
  match m g with (Ok _, g') => mret g' | (Raise e, _) => raise e end.
Definition new_edge (id src tgt : string) (t : EdgeType) : GraphEdge :=
  {| e_id := id; source_id := src; target_id := tgt; edge_type := t;
     e_attributes := default_edge_attributes; e_metadata := [] |}.
(** [g.add_edge(GraphEdge(id=f"e:{src}->{tgt}{tag}:{uuid.uuid4().hex[:4]}", ...))]. *)
Definition add_new_edge (src tgt tag : string) (t : EdgeType) (g : TypedGraph) : M World TypedGraph :=
  h ← hex 4;
  applied (add_edge (new_edge ("e:" +:+ src +:+ "->" +:+ tgt +:+ tag +:+ ":" +:+ h) src tgt t)) g.
Definition add_new_node (id : string) (t : NodeType) (label : string) (attributes : pydict)
    (parent : option string) (g : TypedGraph) : M World TypedGraph :=
  applied (add_node (node t id label attributes parent)) g.

Definition has_type (t : NodeType) (n : GraphNode) : bool := bool_decide (node_type n = t).
(** [n.parent_id == target] over [g._nodes.values()]. *)
Definition children_in (g : TypedGraph) (target : string) : list GraphNode :=
  List.filter (fun n => bool_decide (parent_id n = Some target)) (nodes g).
Definition has_edge_of (t : EdgeType) (es : list GraphEdge) : bool :=
  existsb (fun e => bool_decide (edge_type e = t)) es.

Definition Apply : Type := TypedGraph -> string -> pydict -> M World (TypedGraph * pydict).
Definition not_found : pydict := [("error", VStr "target not found")].

(** ** The operators *)

Definition target_exists (g : TypedGraph) (target : string) : res bool :=
  Ok (match get_node g target with Some _ => true | None => false end).
(** [_add_entity_precondition] and [_add_service_precondition]. *)
Definition target_is_module (g : TypedGraph) (target : string) : res bool :=
  match get_node g target with
  | None => Ok false
  | Some n => match get_node g (n_id n) with
              | Some n' => Ok (has_type N_MODULE n')
              | None => Raise (AttributeError "'NoneType' object has no attribute 'node_type'")
              end
  end.

Definition add_entity_apply : Apply := fun graph target params =>
  let g := copy_graph graph in
  let name := dget_or "name" params (VStr "NewEntity") in
  h ← hex 8;
  let eid := "ent:" +:+ h in
  g ← add_new_node eid N_ENTITY (text_of name) [("name", name)] (Some target) g;
  g ← add_new_edge target eid "" E_OWNS g;
  mret (g, [("entity_id", VStr eid); ("entity_name", name)]).

Definition add_service_apply : Apply := fun graph target params =>
  let g := copy_graph graph in
  let name := dget_or "name" params (VStr "NewService") in
  h ← hex 8;
  let sid := "svc:" +:+ h in
  g ← add_new_node sid N_SERVICE (text_of name) [("name", name); ("is_stateless", VBool true)] (Some target) g;
  g ← add_new_edge target sid "" E_OWNS g;
  mret (g, [("service_id", VStr sid); ("service_name", name)]).

Definition split_module_precondition (g : TypedGraph) (target : string) : res bool :=
  Ok (match get_node g target with
      | None => false
      | Some n => has_type N_MODULE n &&
                  (2 <=? length (List.filter (has_type N_ENTITY) (children_in g target)))%nat
      end).
(** [g._nodes[child.id] = GraphNode(..., parent_id=new_mod_id)]. *)
Definition reparent (new_parent : string) (child : GraphNode) (g : TypedGraph) : TypedGraph :=
  {| g_nodes := dset (n_id child)
       (node (node_type child) (n_id child) (label child) (n_attributes child) (Some new_parent)) (g_nodes g);
     g_edges := g_edges g; g_adjacency := g_adjacency g; g_reverse := g_reverse g |}.
Fixpoint move_children (new_parent : string) (extract_names : pyval) (children : list GraphNode)
    (g : TypedGraph) (moved : list pyval) : res (TypedGraph * list pyval) :=
  match children with
  | [] => Ok (g, moved)
  | child :: children =>
      by_label ← py_in (VStr (label child)) extract_names;
      chosen ← (if (by_label : bool) then Ok true else py_in (VStr (n_id child)) extract_names);
      if (chosen : bool)
      then move_children new_parent extract_names children (reparent new_parent child g) (moved ++ [VStr (n_id child)])
      else move_children new_parent extract_names children g moved
  end.
Definition split_module_apply : Apply := fun graph target params =>
  let g := copy_graph graph in
  let extract_names := dget_or "extract_entities" params (VList []) in
  let new_mod_name := dget_or "new_module_name" params (VStr "SplitModule") in
  match get_node g target with
  | None => mret (g, not_found)
  | Some orig =>
      let children := children_in g target in
      h ← hex 8;
      let new_mod_id := "mod:" +:+ h in
      let sys_id := or_empty (parent_id orig) in
      g ← add_new_node new_mod_id N_MODULE (text_of new_mod_name) [] (Some sys_id) g;
      g ← add_new_edge sys_id new_mod_id "" E_OWNS g;
      r ← lift_res (move_children new_mod_id extract_names children g []);
      mret (r.1, [("new_module_id", VStr new_mod_id); ("new_module_name", new_mod_name);
                  ("moved_nodes", VList r.2)])
  end.

Definition extract_iface_precondition (g : TypedGraph) (target : string) : res bool :=
  match get_node g target with
  | None => Ok false
  | Some n =>
      if negb (has_type N_SERVICE n) then Ok false
      else es ← get_outgoing_edges g target; Ok (negb (has_edge_of E_IMPLEMENTS es))
  end.
Definition extract_iface_apply : Apply := fun graph target params =>
  let g := copy_graph graph in
  match get_node g target with
  | None => mret (g, not_found)
  | Some svc =>
      let mod_id := or_empty (parent_id svc) in
      h ← hex 8;
      let iface_id := "iface:" +:+ h in
      let iface_name := dget_or "name" params (VStr (label svc +:+ "API")) in
      g ← add_new_node iface_id N_INTERFACE (text_of iface_name)
            [("name", iface_name); ("interface_type", VStr "REST")] (Some mod_id) g;
      g ← add_new_edge mod_id iface_id "" E_OWNS g;
      g ← add_new_edge target iface_id ":impl" E_IMPLEMENTS g;
      mret (g, [("interface_id", VStr iface_id); ("interface_name", iface_name)])
  end.

(** [graph.get_node(v)] for a value: a list or a dict cannot be looked up. *)
Definition node_named (g : TypedGraph) (v : pyval) : res (option GraphNode) :=
  match v with
  | VStr s => Ok (get_node g s)
  | VList _ | VDict _ => Raise (TypeError "unhashable type")
  | _ => Ok None
  end.
Definition add_depends_on_apply : Apply := fun graph target params =>
  let g := copy_graph graph in
  let dep_target := dget_or "depends_on" params (VStr "") in
  found ← lift_res (if val_truthy dep_target then node_named g dep_target else Ok None);
  match found with
  | None => mret (g, [("error", VStr ("dependency target '" +:+ text_of dep_target +:+ "' not found"))])
  | Some _ =>
      g ← add_new_edge target (text_of dep_target) ":dep" E_DEPENDS_ON g;
      mret (g, [("source", VStr target); ("target", dep_target)])
  end.

Definition add_policy_precondition (g : TypedGraph) (target : string) : res bool :=
  match get_node g target with
  | None => Ok false
  | Some n =>
      if negb (has_type N_INTERFACE n) then Ok false
      else es ← get_outgoing_edges g target; Ok (negb (has_edge_of E_SECURED_BY es))
  end.
Definition add_policy_apply : Apply := fun graph target params =>
  let g := copy_graph graph in
  let mod_id := match get_node g target with Some iface => parent_id iface | None => Some "" end in
  let pol_name := dget_or "policy" params (VStr "AuthPolicy") in
  h ← hex 8;
  let pol_id := "pol:" +:+ h in
  g ← add_new_node pol_id N_POLICY (text_of pol_name)
        [("name", pol_name); ("strategy", dget_or "strategy" params (VStr "OAuth2"));
         ("policy_type", VStr "authentication")] mod_id g;
  g ← (if otruthy mod_id then add_new_edge (or_empty mod_id) pol_id "" E_OWNS g else mret g);
  g ← add_new_edge target pol_id ":sec" E_SECURED_BY g;
  mret (g, [("policy_id", VStr pol_id); ("policy_name", pol_name)]).

Definition add_event_precondition (g : TypedGraph) (target : string) : res bool :=
  Ok (match get_node g target with Some n => has_type N_SERVICE n | None => false end).
Definition add_event_apply : Apply := fun graph target params =>
  let g := copy_graph graph in
  let mod_id := match get_node g target with Some svc => parent_id svc | None => Some "" end in
  let evt_name := dget_or "name" params
    (VStr (match get_node g target with Some svc => label svc +:+ "Event" | None => "DomainEvent" end)) in
  h ← hex 8;
  let evt_id := "evt:" +:+ h in
  routing_key ← lift_res (lower_of evt_name);
  g ← add_new_node evt_id N_EVENT (text_of evt_name)
        [("name", evt_name); ("routing_key", VStr routing_key)] mod_id g;
  g ← (if otruthy mod_id then add_new_edge (or_empty mod_id) evt_id "" E_OWNS g else mret g);
  g ← add_new_edge target evt_id ":emit" E_EMITS g;
  mret (g, [("event_id", VStr evt_id); ("event_name", evt_name)]).

Definition add_doc_apply : Apply := fun graph target params =>
  let g := copy_graph graph in
  let doc_name := dget_or "name" params (VStr "ADR") in
  h ← hex 8;
  let doc_id := "doc:" +:+ h in
  g ← add_new_node doc_id N_DOCUMENTATION (text_of doc_name) [("name", doc_name)] (Some target) g;
  g ← add_new_edge target doc_id ":doc" E_DOCUMENTS g;
  mret (g, [("doc_id", VStr doc_id); ("doc_name", doc_name)]).

(** [g._nodes[target] = GraphNode(...)] with one more attribute. *)
Definition set_attribute (target key : string) (value : pyval) (n : GraphNode) (g : TypedGraph) : TypedGraph :=
  {| g_nodes := dset target
       (node (node_type n) (n_id n) (label n) (dset key value (n_attributes n)) (parent_id n)) (g_nodes g);
     g_edges := g_edges g; g_adjacency := g_adjacency g; g_reverse := g_reverse g |}.
Definition change_attr_apply : Apply := fun graph target params =>
  let g := copy_graph graph in
  match get_node g target with
  | None => mret (g, not_found)
  | Some n =>
      let key := dget_or "attribute" params (VStr "") in
      let value := dget_or "value" params VNone in
      let answer := [("attribute", key); ("new_value", value)] in
      if val_truthy key then
        match key with
        | VList _ | VDict _ => raise (TypeError "unhashable type")
        | _ => mret (set_attribute target (text_of key) value n g, answer)
        end
      else mret (g, answer)
  end.

(** [_remove_node_recursive]: below a node first, then the node itself; its edges
    and its entries in the two adjacency dicts stay.  The depth of the recursion
    is the fuel. *)
Definition drop_node (node_id : string) (g : TypedGraph) : TypedGraph :=
  {| g_nodes := ddel node_id (g_nodes g); g_edges := g_edges g;
     g_adjacency := g_adjacency g; g_reverse := g_reverse g |}.
Fixpoint remove_node_recursive (fuel : nat) (node_id : string) : M TypedGraph unit :=
  match fuel with
  | O => raise RecursionError
  | S fuel =>
      children ← gets (fun g => map n_id (children_in g node_id));
      _ ← for_each children (remove_node_recursive fuel);
      modify (drop_node node_id)
  end.
Definition drop_edge (eid : string) (g : TypedGraph) : TypedGraph :=
  {| g_nodes := g_nodes g; g_edges := ddel eid (g_edges g);
     g_adjacency := g_adjacency g; g_reverse := g_reverse g |}.
Definition drop_entries (target : string) (g : TypedGraph) : TypedGraph :=
  {| g_nodes := ddel target (g_nodes g); g_edges := g_edges g;
     g_adjacency := ddel target (g_adjacency g); g_reverse := ddel target (g_reverse g) |}.
Definition remove_node (target : string) : M TypedGraph unit :=
  children ← gets (fun g => map n_id (children_in g target));
  count ← gets (fun g => length (g_nodes g));
  _ ← for_each children (remove_node_recursive (S count));
  outgoing ← gets (fun g => dget_or target (g_adjacency g) []);
  incoming ← gets (fun g => dget_or target (g_reverse g) []);
  _ ← modify (fun g => fold_left (fun g eid => drop_edge eid g) (outgoing ++ incoming) g);
  modify (drop_entries target).
Definition remove_node_apply : Apply := fun graph target params =>
  let g := copy_graph graph in
  match get_node g target with
  | None => mret (g, not_found)
  | Some n => g ← applied (remove_node target) g;
              mret (g, [("removed_id", VStr target); ("label", VStr (label n))])
  end.

(** ** Registration *)

Definition operator_spec (identifier : string) (category : MutationCategory) (mutation_class : MutationClass)
    (description risk_level : string) (affected_node_types : list string) (impact : list (string * float))
    (reversible : bool) (precondition : TypedGraph -> string -> res bool) (apply : Apply) : MutationOperatorSpec :=
  {| mo_identifier := identifier; mo_category := category; mo_mutation_class := mutation_class;
     mo_description := description; mo_risk_level := risk_level;
     mo_affected_node_types := affected_node_types; mo_affected_edge_types := [];
     mo_estimated_complexity := fhalf; mo_expected_fitness_impact := impact; mo_reversible := reversible;
     mo_inverse_operator := None; mo_required_capabilities := [];
     mo_precondition_fn := Some precondition; mo_apply_fn := Some apply;
     mo_postcondition_fn := None; mo_explain_fn := None |}.

Definition all_operators : list MutationOperatorSpec :=
  [operator_spec "structural_add_entity" MC_STRUCTURAL CL_ADDITIVE "Add a new entity to a module" "low"
     ["entity"] [("complexity", of_ratio 2 100); ("maintainability", of_ratio (-1) 100)] true
     target_is_module add_entity_apply;
   operator_spec "structural_add_service" MC_STRUCTURAL CL_ADDITIVE "Add a new service to a module" "low"
     ["service"] [("complexity", of_ratio 3 100); ("scalability", of_ratio 2 100)] true
     target_is_module add_service_apply;
   operator_spec "structural_split_module" MC_STRUCTURAL CL_STRUCTURAL
     "Split a module into two by extracting entities/services" "high" ["module"; "entity"]
     [("maintainability", of_ratio 1 10); ("cohesion", of_ratio 8 100); ("complexity", of_ratio 5 100)] true
     split_module_precondition split_module_apply;
   operator_spec "structural_extract_interface" MC_STRUCTURAL CL_STRUCTURAL
     "Extract an interface from a service" "medium" ["service"; "interface"]
     [("extensibility", of_ratio 12 100); ("maintainability", of_ratio 5 100)] true
     extract_iface_precondition extract_iface_apply;
   operator_spec "topological_add_dependency" MC_TOPOLOGICAL CL_ADDITIVE
     "Add a depends-on edge between two nodes" "medium" ["service"; "module"]
     [("coupling", of_ratio (-5) 100)] true target_exists add_depends_on_apply;
   operator_spec "security_add_policy" MC_SECURITY CL_ADDITIVE "Add a security policy to an interface" "low"
     ["interface"; "policy"] [("security_coverage", of_ratio 15 100)] true
     add_policy_precondition add_policy_apply;
   operator_spec "performance_add_event" MC_PERFORMANCE CL_ADDITIVE "Add a domain event to a service" "low"
     ["service"; "event"] [("scalability", of_ratio 5 100); ("reliability", of_ratio 3 100)] true
     add_event_precondition add_event_apply;
   operator_spec "operational_add_documentation" MC_OPERATIONAL CL_ADDITIVE
     "Add an ADR or documentation node to an architectural element" "low" ["documentation"]
     [("documentation", of_ratio 1 10)] true target_exists add_doc_apply;
   operator_spec "parametric_change_attribute" MC_MAINTAINABILITY CL_PARAMETRIC
     "Change a node attribute value" "low" [] [] true target_exists change_attr_apply;
   operator_spec "structural_remove_node" MC_STRUCTURAL CL_STRUCTURAL
     "Remove a node and its children from the graph" "high" []
     [("complexity", of_ratio (-5) 100)] false target_exists remove_node_apply].
Definition register_all_operators : M MutationRegistry unit := for_each all_operators register.
End Operators.

(** * Evolution engine: the crossover engine

    [constitutional_architecture/engine/crossover_engine.py].  A set of node ids
    is iterated in an order that is a parameter; the walk over the owned nodes
    carries fuel, one more than the edges. *)

(** The order in which a set of texts is iterated. *)
Class SetOrder := set_order : list string -> list string.

Record CrossoverResult : Type := {
  xr_success : bool;
  xr_child_graph : option TypedGraph;
  xr_parent_a_id : string;
  xr_parent_b_id : string;
  xr_crossover_point : string;
  xr_explanation : string;
}.

(** ** The owned subgraph *)

Definition is_ownership (e : GraphEdge) : bool := mem (edge_type e) [E_OWNS; E_CONTAINS].
(** One round of the inner loop: [owned] and the queue after the edges of a node. *)
Fixpoint own_targets (es : list GraphEdge) (owned queue : list string) : list string * list string :=
  match es with
  | [] => (owned, queue)
  | e :: es =>
      if is_ownership e && negb (mem (target_id e) owned)
      then own_targets es (owned ++ [target_id e]) (queue ++ [target_id e])
      else own_targets es owned queue
  end.
Fixpoint owned_loop (fuel : nat) (g : TypedGraph) (owned queue : list string) : res (list string) :=
  match fuel, queue with
  | O, _ => Raise RecursionError
  | S _, [] => Ok owned
  | S fuel, current :: queue =>
      es ← get_outgoing_edges g current;
      let (owned, queue) := own_targets es owned queue in
      owned_loop fuel g owned queue
  end.
Definition get_owned_subgraph (g : TypedGraph) (module_id : string) : res (list string) :=
  owned_loop (S (S (length (edges g)))) g [module_id] [module_id].

Section Crossover.
Context `{Surroundings, SetOrder}.

(** [{n.label: n.id for n in ...}]: the last module of a label. *)
Definition modules_by_label (g : TypedGraph) : list (string * string) :=
  fold_left (fun d n => dset (label n) (n_id n) d) (get_nodes_by_type g N_MODULE) [].

(** [child.remove_node(node_id)] under [except ValueError]: [TypedGraph] has no
    such method. *)
Definition remove_owned (module_a_id : string) (node_id : string) : M TypedGraph unit :=
  when (negb (bool_decide (node_id = module_a_id)))
    (raise (AttributeError "'TypedGraph' object has no attribute 'remove_node'")).

(** The graph of the child, and the world. *)
Record Crossing : Set := { cr_world : World; cr_child : TypedGraph }.
Definition put_cr_world (w : World) (c : Crossing) : Crossing := {| cr_world := w; cr_child := cr_child c |}.
Definition put_child (g : TypedGraph) (c : Crossing) : Crossing := {| cr_world := cr_world c; cr_child := g |}.
Definition on_child {A} (m : M TypedGraph A) : M Crossing A := zoom cr_child put_child m.

(** The nodes of B below its module are copied directly under the module of A. *)
Fixpoint copy_nodes (parent_b : TypedGraph) (module_b_id module_a_id : string) (ids : list string)
    (id_mapping : list (string * string)) : M Crossing (list (string * string)) :=
  match ids with
  | [] => mret id_mapping
  | node_id :: ids =>
      if bool_decide (node_id = module_b_id) then copy_nodes parent_b module_b_id module_a_id ids id_mapping
      else match get_node parent_b node_id with
           | None => copy_nodes parent_b module_b_id module_a_id ids id_mapping
           | Some n =>
               h ← zoom cr_world put_cr_world (hex 6);
               let new_id := node_id +:+ "-x-" +:+ h in
               _ ← on_child (add_node {| n_id := new_id; node_type := node_type n; label := label n;
                                         n_attributes := n_attributes n; parent_id := Some module_a_id |});
               copy_nodes parent_b module_b_id module_a_id ids (dset node_id new_id id_mapping)
           end
  end.
Definition copy_owned_edge (owned : list string) (id_mapping : list (string * string)) (e : GraphEdge) :
    M Crossing unit :=
  if mem (source_id e) owned && mem (target_id e) owned then
    let new_source := dget_or (source_id e) id_mapping (source_id e) in
    let new_target := dget_or (target_id e) id_mapping (target_id e) in
    child ← gets cr_child;
    if dmem new_source (g_nodes child) && dmem new_target (g_nodes child) then
      h ← zoom cr_world put_cr_world (hex 8);
      on_child (add_edge {| e_id := "edge-x-" +:+ h; source_id := new_source; target_id := new_target;
                            edge_type := edge_type e; e_attributes := e_attributes e; e_metadata := [] |})
    else mret tt
  else mret tt.

(** The engine: its event bus and the world its random generator reads. *)
Record CrossoverEngine : Type := { ce_event_bus : EventBus; ce_world : World }.

(** The child at a module both parents have. *)
Definition cross_body (parent_b : TypedGraph) (module_a_id module_b_id : string) (a_owned b_owned : list string) :
    M Crossing unit :=
  _ ← for_each (set_order a_owned) (fun node_id => on_child (remove_owned module_a_id node_id));
  id_mapping ← copy_nodes parent_b module_b_id module_a_id (set_order b_owned) [(module_b_id, module_a_id)];
  for_each (edges parent_b) (copy_owned_edge b_owned id_mapping).
Definition run_crossing (child : TypedGraph) (m : M Crossing unit) : M World TypedGraph := fun w =>
  match m {| cr_world := w; cr_child := child |} with
  | (Ok _, c) => (Ok (cr_child c), cr_world c)
  | (Raise e, c) => (Raise e, cr_world c)
  end.
Definition cross_at (parent_a parent_b : TypedGraph) (module_a_id module_b_id : string) : M World TypedGraph :=
  child ← lift_res (clone parent_a);
  b_owned ← lift_res (get_owned_subgraph parent_b module_b_id);
  a_owned ← lift_res (get_owned_subgraph parent_a module_a_id);
  run_crossing child (cross_body parent_b module_a_id module_b_id a_owned b_owned).

Definition put_ce_world (w : World) (e : CrossoverEngine) : CrossoverEngine :=
  {| ce_event_bus := ce_event_bus e; ce_world := w |}.
Definition put_ce_bus (b : EventBus) (e : CrossoverEngine) : CrossoverEngine :=
  {| ce_event_bus := b; ce_world := ce_world e |}.
Definition ce_in_world {A} (m : M World A) : M CrossoverEngine A := zoom ce_world put_ce_world m.

Definition crossover (parent_a parent_b : TypedGraph) (parent_a_id parent_b_id : string) (generation : Z) :
    M CrossoverEngine CrossoverResult :=
  let modules_a := modules_by_label parent_a in
  let modules_b := modules_by_label parent_b in
  match sort_by str_leb (List.filter (fun l => mem l (dkeys modules_b)) (dkeys modules_a)) with
  | [] => mret {| xr_success := false; xr_child_graph := None; xr_parent_a_id := parent_a_id;
                  xr_parent_b_id := parent_b_id; xr_crossover_point := "";
                  xr_explanation := "No common modules found for crossover" |}
  | common =>
      crossover_module ← ce_in_world (rng_choice common);
      let module_a_id := dget_or crossover_module modules_a "" in
      let module_b_id := dget_or crossover_module modules_b "" in
      child ← ce_in_world (cross_at parent_a parent_b module_a_id module_b_id);
      bus ← gets ce_event_bus;
      bus ← ce_in_world (publish_event CROSSOVER_APPLIED generation
        [("parent_a", VStr parent_a_id); ("parent_b", VStr parent_b_id);
         ("crossover_point", VStr crossover_module)] bus);
      _ ← modify (put_ce_bus bus);
      mret {| xr_success := true; xr_child_graph := Some child; xr_parent_a_id := parent_a_id;
              xr_parent_b_id := parent_b_id; xr_crossover_point := crossover_module;
              xr_explanation := "Crossover at module '" +:+ crossover_module +:+
                "': replaced internals from Parent B into Parent A structure" |}
  end.
End Crossover.
