(* ===== verification/EvoMutation.v ===== *)
(** * Evolution engine: the mutation pipeline and its memory

    [constitutional_architecture/engine/mutation_validator.py],
    [mutation_engine.py] and [mutation_planner.py].  Sets of node types and of
    node ids are iterated in an order that is a parameter; the text of a number
    with three decimals is one too. *)

From Stdlib Require Import SpecFloat.
From S2P Require Import Prelude PyFloat PyVal PyText PyJson IsrModel TypedGraph.
From S2P Require Import IsrValidation EvoModels EvoPopulation EvoControl EvoEngine.
Open Scope Z_scope.

(** * Evolution engine: the memory

    [constitutional_architecture/engine/evolution_memory.py]: the entries, their
    file and the queries.  A dataclass does not check its fields, so what a file
    gives an entry is a dynamically typed value.  The JSON text of a document and
    the text of a time are parameters; the file is written without failure. *)

(** [json.dumps(data, indent=2)], [json.loads], [isoformat]. *)
Class Json := {
  json_dumps : pyval -> string;
  json_read : string -> res pyval;
  iso_time : Z -> string;
}.

Record MemoryEntry : Set := {
  me_entry_type : pyval;
  me_content : pyval;
  me_fitness_impact : pyval;
  me_generation : pyval;
  me_run_id : pyval;
  me_timestamp : pyval;
  me_confidence : pyval;
}.

(** [mm_file] is the text of the file, if the memory has a path and the file is there. *)
Record EvolutionMemory : Set := {
  mm_persistent : bool;
  mm_file : option string;
  mm_entries : list MemoryEntry;
}.
Definition max_entries : nat := Z.to_nat 10000.
Definition saved_entries : nat := Z.to_nat 1000.

(** ** Comparison of values *)

(** [x < n] and [n < x] by the exact value of the float. *)
Definition float_ltb_Z (x : float) (n : Z) : bool :=
  match x with
  | S754_zero _ => 0 <? n
  | S754_infinity s => s
  | S754_nan => false
  | S754_finite s m e =>
      let v := if s then Zneg m else Zpos m in
      if 0 <=? e then v * 2 ^ e <? n else v <? n * 2 ^ (- e)
  end.
Definition Z_ltb_float (n : Z) (x : float) : bool :=
  match x with
  | S754_zero _ => n <? 0
  | S754_infinity s => negb s
  | S754_nan => false
  | S754_finite s m e =>
      let v := if s then Zneg m else Zpos m in
      if 0 <=? e then n <? v * 2 ^ e else n * 2 ^ (- e) <? v
  end.
Definition num_ltb (a b : Z + float) : bool :=
  match a, b with
  | inl m, inl n => m <? n
  | inl n, inr x => Z_ltb_float n x
  | inr x, inl n => float_ltb_Z x n
  | inr x, inr y => fltb x y
  end.
(** [a < b]: numbers and texts. *)
Definition py_ltb (a b : pyval) : option bool :=
  match num_of a, num_of b, a, b with
  | Some m, Some n, _, _ => Some (num_ltb m n)
  | _, _, VStr s, VStr t => Some (str_ltb s t)
  | _, _, _, _ => None
  end.

Section Memory.
Context `{Surroundings, Texts, Json}.

(** ** Recording *)

Definition save_memory (m : EvolutionMemory) : EvolutionMemory :=
  let data := VList (map (fun e => VDict
    [("entry_type", me_entry_type e); ("content", me_content e); ("fitness_impact", me_fitness_impact e);
     ("generation", me_generation e); ("run_id", me_run_id e); ("timestamp", me_timestamp e);
     ("confidence", me_confidence e)]) (last_items saved_entries (mm_entries m))) in
  {| mm_persistent := mm_persistent m; mm_file := Some (json_dumps data); mm_entries := mm_entries m |}.

Definition put_entries (es : list MemoryEntry) (m : EvolutionMemory) : EvolutionMemory :=
  {| mm_persistent := mm_persistent m; mm_file := mm_file m; mm_entries := es |}.
Definition record_entry (entry : MemoryEntry) (m : EvolutionMemory) : EvolutionMemory :=
  let m := put_entries (last_items max_entries (mm_entries m ++ [entry])) m in
  if mm_persistent m then save_memory m else m.

Definition stamped (entry_type : string) (content : pydict) (fitness_impact : float) (generation : Z)
    (run_id : string) (confidence : float) : M World MemoryEntry :=
  t ← now;
  mret {| me_entry_type := VStr entry_type; me_content := VDict content;
          me_fitness_impact := VFloat fitness_impact; me_generation := VInt generation;
          me_run_id := VStr run_id; me_timestamp := VStr (iso_time t); me_confidence := VFloat confidence |}.

Definition record_success (mutation_type : string) (fitness_delta : float) (context : string)
    (generation : Z) (run_id : string) (m : EvolutionMemory) : M World EvolutionMemory :=
  e ← stamped "successful_mutation" [("mutation_type", VStr mutation_type); ("context", VStr context)]
        fitness_delta generation run_id (fmin2 fone (fmul (fabs fitness_delta) (of_Z 10)));
  mret (record_entry e m).
Definition record_failure (mutation_type reason : string) (generation : Z) (run_id : string)
    (m : EvolutionMemory) : M World EvolutionMemory :=
  e ← stamped "failed_mutation" [("mutation_type", VStr mutation_type); ("reason", VStr reason)]
        fzero generation run_id fzero;
  mret (record_entry e m).
Definition record_pattern (pattern_name description : string) (fitness_impact : float)
    (m : EvolutionMemory) : M World EvolutionMemory :=
  e ← stamped "pattern" [("name", VStr pattern_name); ("description", VStr description)]
        fitness_impact 0 "" fzero;
  mret (record_entry e m).

(** ** Loading *)

Definition load_entry (d : pyval) : res MemoryEntry :=
  entry_type ← get "entry_type" (VStr "") d;
  content ← get "content" (VDict []) d;
  fitness_impact ← get "fitness_impact" (VFloat fzero) d;
  generation ← get "generation" (VInt 0) d;
  run_id ← get "run_id" (VStr "") d;
  timestamp ← get "timestamp" (VStr "") d;
  confidence ← get "confidence" (VFloat fzero) d;
  mret {| me_entry_type := entry_type; me_content := content; me_fitness_impact := fitness_impact;
          me_generation := generation; me_run_id := run_id; me_timestamp := timestamp;
          me_confidence := confidence |}.

(** [EvolutionMemory(storage_path)]: a text that is no JSON is an empty memory. *)
Definition open_memory (persistent : bool) (file : option string) : res EvolutionMemory :=
  match persistent, file with
  | true, Some text =>
      match json_read text with
      | Raise _ => Ok {| mm_persistent := persistent; mm_file := file; mm_entries := [] |}
      | Ok data =>
          ds ← iter_of data;
          es ← map_res load_entry ds;
          Ok {| mm_persistent := persistent; mm_file := file; mm_entries := es |}
      end
  | _, _ => Ok {| mm_persistent := persistent; mm_file := file; mm_entries := [] |}
  end.

(** ** Queries *)

Definition of_kind (kind : string) (e : MemoryEntry) : bool := py_eq (me_entry_type e) (VStr kind).
Fixpoint filter_res {A} (p : A -> res bool) (xs : list A) : res (list A) :=
  match xs with
  | [] => Ok []
  | x :: xs => b ← p x; rest ← filter_res p xs; Ok (if (b : bool) then x :: rest else rest)
  end.
Definition about (mutation_type : string) (e : MemoryEntry) : res bool :=
  v ← get "mutation_type" VNone (me_content e); Ok (py_eq v (VStr mutation_type)).
Definition with_type (mutation_type : option string) (es : list MemoryEntry) : res (list MemoryEntry) :=
  if otruthy mutation_type then filter_res (about (or_empty mutation_type)) es else Ok es.

(** [sorted(entries, key=fitness_impact, reverse=True)]: a TypeError when two
    impacts cannot be compared. *)
Definition comparable (vs : list pyval) : bool :=
  forallb (fun v => match num_of v with Some _ => true | None => false end) vs
  || forallb (fun v => match v with VStr _ => true | _ => false end) vs
  || (length vs <? 2)%nat.
Definition by_impact_down (es : list MemoryEntry) : res (list MemoryEntry) :=
  if comparable (map me_fitness_impact es)
  then Ok (sort_by (fun a b => match py_ltb (me_fitness_impact a) (me_fitness_impact b) with
                               | Some true => false | _ => true end) es)
  else Raise (TypeError "'<' not supported between instances").

Definition query_successful (mutation_type : option string) (limit : Z) (m : EvolutionMemory) :
    res (list MemoryEntry) :=
  es ← with_type mutation_type (List.filter (of_kind "successful_mutation") (mm_entries m));
  sorted ← by_impact_down es;
  Ok (first_items limit sorted).
Definition query_failures (mutation_type : option string) (limit : Z) (m : EvolutionMemory) :
    res (list MemoryEntry) :=
  es ← with_type mutation_type (List.filter (of_kind "failed_mutation") (mm_entries m));
  Ok (first_items limit es).
Definition get_success_rate (mutation_type : string) (m : EvolutionMemory) : res float :=
  successes ← filter_res (about mutation_type) (List.filter (of_kind "successful_mutation") (mm_entries m));
  failures ← filter_res (about mutation_type) (List.filter (of_kind "failed_mutation") (mm_entries m));
  let total := (length successes + length failures)%nat in
  Ok (if (0 <? total)%nat then fdiv (of_nat (length successes)) (of_nat total) else of_ratio 5 10).
Definition entry_count (m : EvolutionMemory) : Z := Z.of_nat (length (mm_entries m)).
End Memory.

(** * Planning, validation and the mutation engine *)

Class Iteration := {
  type_order : list NodeType -> list NodeType;
  node_order : TypedGraph -> list string;
}.

(** ** MutationValidator *)

Record MutationValidationResult : Set := {
  mv_is_valid : bool;
  mv_preconditions_met : bool;
  mv_postconditions_met : bool;
  mv_type_check_passed : bool;
  mv_invariants_passed : bool;
  mv_rejection_reason : string;
  mv_diagnostics : list string;
}.
Definition accepted : MutationValidationResult :=
  {| mv_is_valid := true; mv_preconditions_met := true; mv_postconditions_met := true;
     mv_type_check_passed := true; mv_invariants_passed := true; mv_rejection_reason := "";
     mv_diagnostics := [] |}.

(** The rules of its validator. *)
Record MutationValidator : Type := { mv_rules : list ValidationRule }.

Section Pipeline.
Context `{Surroundings, Texts, Iteration}.

Definition check_preconditions (operator : MutationOperatorSpec) (g : TypedGraph) (target_id : string) : res bool :=
  match mo_precondition_fn operator with
  | Some precondition => precondition g target_id
  | None => Ok (match get_node g target_id with Some _ => true | None => false end)
  end.

(** The loops of the validator do not run out of fuel on a graph the mutators
    built; if they did, the recursion error stands for it. *)
Definition run_validator (v : MutationValidator) (g : TypedGraph) : res ValidationResult :=
  match validate type_order (mv_rules v) g (node_order g) with
  | Some r => r
  | None => Raise RecursionError
  end.

Definition check_postconditions (v : MutationValidator) (operator : MutationOperatorSpec) (g : TypedGraph) :
    res MutationValidationResult :=
  let type_result := type_check type_order g in
  if negb (tc_is_valid type_result) then
    Ok {| mv_is_valid := false; mv_preconditions_met := true; mv_postconditions_met := true;
          mv_type_check_passed := false; mv_invariants_passed := true;
          mv_rejection_reason := "Type violations: " +:+
            str_of_int (Z.of_nat (length (tc_violations type_result))) +:+ " errors";
          mv_diagnostics := map tv_message (take 10 (tc_violations type_result)) |}
  else
    validation_result ← run_validator v g;
    if negb (vr_is_valid validation_result) then
      Ok {| mv_is_valid := false; mv_preconditions_met := true; mv_postconditions_met := true;
            mv_type_check_passed := true; mv_invariants_passed := false;
            mv_rejection_reason := "Architectural invariant violation";
            mv_diagnostics := map dg_message (take 10 (errors validation_result)) |}
    else
      holds ← match mo_postcondition_fn operator with Some post => post g | None => Ok true end;
      if negb (holds : bool) then
        Ok {| mv_is_valid := false; mv_preconditions_met := true; mv_postconditions_met := false;
              mv_type_check_passed := true; mv_invariants_passed := true;
              mv_rejection_reason := "Operator '" +:+ mo_identifier operator +:+ "' postcondition failed";
              mv_diagnostics := [] |}
      else Ok accepted.

Definition validate_mutation (v : MutationValidator) (operator : MutationOperatorSpec)
    (source_graph result_graph : TypedGraph) (target_id : string) : res MutationValidationResult :=
  met ← check_preconditions operator source_graph target_id;
  if negb (met : bool) then
    Ok {| mv_is_valid := false; mv_preconditions_met := false; mv_postconditions_met := true;
          mv_type_check_passed := true; mv_invariants_passed := true;
          mv_rejection_reason := "Preconditions not met for '" +:+ mo_identifier operator +:+ "' on '" +:+
            target_id +:+ "'";
          mv_diagnostics := [] |}
  else check_postconditions v operator result_graph.

(** ** MutationEngine *)

Record MutationResult : Type := {
  mt_success : bool;
  mt_new_graph : option TypedGraph;
  mt_eir : option EIR;
  mt_transformation : option Transformation;
  mt_explanation : string;
  mt_validation : option MutationValidationResult;
  mt_operator_id : string;
  mt_target_id : string;
}.
Definition failed_mutation (explanation operator_id target_id : string)
    (validation : option MutationValidationResult) : MutationResult :=
  {| mt_success := false; mt_new_graph := None; mt_eir := None; mt_transformation := None;
     mt_explanation := explanation; mt_validation := validation; mt_operator_id := operator_id;
     mt_target_id := target_id |}.

(** The engine, its event bus and the world its random generator reads. *)
Record MutationEngine : Type := {
  mu_registry : MutationRegistry;
  mu_validator : MutationValidator;
  mu_event_bus : EventBus;
  mu_world : World;
}.
Definition put_mu_world (w : World) (e : MutationEngine) : MutationEngine :=
  {| mu_registry := mu_registry e; mu_validator := mu_validator e; mu_event_bus := mu_event_bus e;
     mu_world := w |}.
Definition put_mu_bus (b : EventBus) (e : MutationEngine) : MutationEngine :=
  {| mu_registry := mu_registry e; mu_validator := mu_validator e; mu_event_bus := b;
     mu_world := mu_world e |}.
Definition mu_in_world {A} (m : M World A) : M MutationEngine A := zoom mu_world put_mu_world m.
Definition mu_publish (event_type : EventType) (generation : Z) (data : pydict) : M MutationEngine unit :=
  bus ← gets mu_event_bus;
  bus ← mu_in_world (publish_event event_type generation data bus);
  modify (put_mu_bus bus).

Definition mu_reject (generation : Z) (operator_id target_id reason : string) : M MutationEngine unit :=
  mu_publish MUTATION_REJECTED generation
    [("operator", VStr operator_id); ("target", VStr target_id); ("reason", VStr reason)].

(** [operator.apply_fn(new_graph, target_id, params)] under [except Exception]:
    the graph and its data, or the text of the exception. *)
Definition try_apply (operator : MutationOperatorSpec) (g : TypedGraph) (target_id : string) (params : pydict) :
    M World ((TypedGraph * pydict) + string) :=
  match mo_apply_fn operator with
  | None => mret (inl (g, []))
  | Some apply => try_catch (r ← apply g target_id params; mret (inl r)) (fun e => mret (inr (exn_text e)))
  end.

Definition transformation_of (operator : MutationOperatorSpec) (operator_id id target_id : string)
    (params transformation_data : pydict) : Transformation :=
  {| tf_id := id; tf_transformation_type := operator_id; tf_category := mo_category operator;
     tf_mutation_class := mo_mutation_class operator; tf_target_node_id := target_id;
     tf_description := mo_description operator; tf_parameters := params;
     tf_fitness_impact := mo_expected_fitness_impact operator; tf_reversible := mo_reversible operator;
     tf_inverse_transformation := mo_inverse_operator operator;
     tf_rationale := dget_or "rationale" transformation_data (VStr "");
     tf_confidence := dget_or "confidence" transformation_data (VFloat fzero) |}.

(** What follows an accepted validation. *)
Definition record_mutation (graph new_graph : TypedGraph) (operator : MutationOperatorSpec)
    (operator_id target_id : string) (params transformation_data : pydict) (isr_source_hash : string)
    (generation : Z) (validation : MutationValidationResult) : M MutationEngine MutationResult :=
  tid ← mu_in_world (new_id "transform" 12);
  let transformation := transformation_of operator operator_id tid target_id params transformation_data in
  eid ← mu_in_world (new_id "eir" 12);
  created_at ← mu_in_world now;
  let eir := {| ei_id := eid; ei_source_isr_hash := isr_source_hash; ei_target_isr_hash := "";
                ei_transformations := [transformation]; ei_proposed_by := "mutation_engine";
                ei_generation := generation; ei_fitness_delta := []; ei_created_at := created_at;
                ei_metadata := [] |} in
  explanation ← lift_res match mo_explain_fn operator with
                         | Some explain => explain graph target_id params
                         | None => Ok (mo_description operator)
                         end;
  _ ← mu_publish MUTATION_APPLIED generation
        [("operator", VStr operator_id); ("target", VStr target_id); ("eir_id", VStr eid);
         ("explanation", VStr explanation)];
  mret {| mt_success := true; mt_new_graph := Some new_graph; mt_eir := Some eir;
          mt_transformation := Some transformation; mt_explanation := explanation;
          mt_validation := Some validation; mt_operator_id := operator_id; mt_target_id := target_id |}.

Definition mutate (graph : TypedGraph) (operator_id target_id : string) (params : pydict)
    (isr_source_hash : string) (generation : Z) : M MutationEngine MutationResult :=
  operator ← gets (fun e => registry_get operator_id (mu_registry e));
  match operator with
  | None => mret (failed_mutation ("Unknown operator: " +:+ operator_id) operator_id target_id None)
  | Some operator =>
      met ← lift_res (check_preconditions operator graph target_id);
      if negb (met : bool) then
        _ ← mu_reject generation operator_id target_id "precondition_failed";
        mret (failed_mutation ("Preconditions not met for '" +:+ operator_id +:+ "' on '" +:+ target_id +:+ "'")
                operator_id target_id None)
      else
        copy ← lift_res (clone graph);
        outcome ← mu_in_world (try_apply operator copy target_id params);
        match outcome with
        | inr text =>
            mret (failed_mutation ("Mutation application failed: " +:+ text) operator_id target_id None)
        | inl (new_graph, transformation_data) =>
            v ← gets mu_validator;
            validation ← lift_res (validate_mutation v operator graph new_graph target_id);
            if negb (mv_is_valid validation) then
              _ ← mu_reject generation operator_id target_id (mv_rejection_reason validation);
              mret (failed_mutation (mv_rejection_reason validation) operator_id target_id (Some validation))
            else record_mutation graph new_graph operator operator_id target_id params transformation_data
                   isr_source_hash generation validation
        end
  end.

(** ** Choosing *)

(** [bisect.bisect(cum, x, lo, hi)]. *)
Fixpoint bisect (fuel : nat) (cum : list float) (x : float) (lo hi : nat) : nat :=
  match fuel with
  | O => lo
  | S fuel =>
      if (lo <? hi)%nat then
        let mid := ((lo + hi) / 2)%nat in
        if fltb x (nth mid cum fzero) then bisect fuel cum x lo mid else bisect fuel cum x (S mid) hi
      else lo
  end.
Fixpoint running_totals (total : float) (ws : list float) : list float :=
  match ws with [] => [] | w :: ws => fadd total w :: running_totals (fadd total w) ws end.
Definition accumulate (ws : list float) : list float :=
  match ws with [] => [] | w :: ws => w :: running_totals w ws end.
Definition is_finite (x : float) : bool :=
  match x with S754_infinity _ | S754_nan => false | _ => true end.

(** [rng.choices(xs, weights=ws, k=1)[0]]. *)
Definition rng_choices {A} (xs : list A) (ws : list float) : M World A :=
  match xs, accumulate ws with
  | x :: _, (_ :: _) as cum =>
      let total := fadd (List.last cum fzero) fzero in
      if fleb total fzero then raise (ValueError "Total of weights must be greater than zero")
      else if negb (is_finite total) then raise (ValueError "Total of weights must be finite")
      else u ← rng_random;
           mret (nth (bisect (length cum) cum (fmul u total) 0 (length xs - 1)) xs x)
  | _, _ => raise (IndexError "list index out of range")
  end.

(** The nodes of a type the operator says it affects. *)
Definition candidates (g : TypedGraph) (operator : MutationOperatorSpec) : list string :=
  map n_id (List.filter (fun n =>
    mem (node_type_value (node_type n)) (mo_affected_node_types operator)
    || match mo_affected_node_types operator with [] => true | _ => false end) (nodes g)).
Definition select_random_target (g : TypedGraph) (operator : MutationOperatorSpec) : M World (option string) :=
  match candidates g operator with
  | [] => mret None
  | ids => t ← rng_choice ids; mret (Some t)
  end.

Definition random_mutation (g : TypedGraph) (operator_weights : list (string * float)) (isr_source_hash : string)
    (generation : Z) : M MutationEngine MutationResult :=
  match operator_weights with
  | [] => mret (failed_mutation "No operators available" "" "" None)
  | _ =>
      if feqb (fsum (map snd operator_weights)) fzero
      then mret (failed_mutation "All operator weights are zero" "" "" None)
      else
        selected_id ← mu_in_world (rng_choices (dkeys operator_weights) (map snd operator_weights));
        operator ← gets (fun e => registry_get selected_id (mu_registry e));
        match operator with
        | None => mret (failed_mutation ("Operator '" +:+ selected_id +:+ "' not found") "" "" None)
        | Some operator =>
            target ← mu_in_world (select_random_target g operator);
            match target with
            | None => mret (failed_mutation ("No valid target for operator '" +:+ selected_id +:+ "'")
                              selected_id "" None)
            | Some target => mutate g selected_id target [] isr_source_hash generation
            end
        end
  end.
End Pipeline.

(** ** MutationPlanner *)

Record MutationStep : Set := { st_operator_id : string; st_target_id : string; st_parameters : pydict }.
Record MutationPlan : Set := {
  pn_steps : list MutationStep;
  pn_rationale : string;
  pn_expected_impact : list (string * pyval);
  pn_intermediate_validation : bool;
  pn_source : string;
}.
Definition empty_plan : MutationPlan :=
  {| pn_steps := []; pn_rationale := ""; pn_expected_impact := []; pn_intermediate_validation := true;
     pn_source := "" |}.
Definition step_count (p : MutationPlan) : Z := Z.of_nat (length (pn_steps p)).

Record MutationPlanner : Type := {
  pl_registry : MutationRegistry;
  pl_adaptive : AdaptiveMutation;
  pl_memory : EvolutionMemory;
  pl_world : World;
}.
Definition put_pl_adaptive (a : AdaptiveMutation) (p : MutationPlanner) : MutationPlanner :=
  {| pl_registry := pl_registry p; pl_adaptive := a; pl_memory := pl_memory p; pl_world := pl_world p |}.
Definition put_pl_world (w : World) (p : MutationPlanner) : MutationPlanner :=
  {| pl_registry := pl_registry p; pl_adaptive := pl_adaptive p; pl_memory := pl_memory p; pl_world := w |}.

(** [f"{x:.3f}"]: fails on what is no number. *)
Class Formats := { format_3f : pyval -> res string }.

Section Planner.
Context `{Surroundings, Texts, Json, Formats}.

Definition pl_in_world {A} (m : M World A) : M MutationPlanner A := zoom pl_world put_pl_world m.

(** [not mutation_type or mutation_type not in self._registry] is false. *)
Definition registered (r : MutationRegistry) (mutation_type : pyval) : res (option MutationOperatorSpec) :=
  if val_truthy mutation_type then
    match mutation_type with
    | VStr s => Ok (registry_get s r)
    | VList _ | VDict _ => Raise (TypeError "unhashable type")
    | _ => Ok None
    end
  else Ok None.

Definition plan_from_memory (g : TypedGraph) : M MutationPlanner (option MutationPlan) :=
  successful ← gets (fun p => query_successful None 20 (pl_memory p));
  successful ← lift_res successful;
  match successful with
  | [] => mret None
  | _ =>
      entry ← pl_in_world (rng_choice successful);
      mutation_type ← lift_res (get "mutation_type" (VStr "") (me_content entry));
      found ← gets (fun p => registered (pl_registry p) mutation_type);
      found ← lift_res found;
      match found with
      | None => mret None
      | Some operator =>
          target ← pl_in_world (select_random_target g operator);
          match target with
          | None => mret None
          | Some target =>
              delta ← lift_res (format_3f (me_fitness_impact entry));
              mret (Some {| pn_steps := [{| st_operator_id := text_of mutation_type; st_target_id := target;
                                            st_parameters := [] |}];
                            pn_rationale := "From memory: '" +:+ text_of mutation_type +:+
                              "' succeeded with delta=" +:+ delta;
                            pn_expected_impact := [("composite", me_fitness_impact entry)];
                            pn_intermediate_validation := true; pn_source := "memory" |})
          end
      end
  end.

Definition allowed_weights (r : MutationRegistry) (allowed_classes : list MutationClass)
    (weights : list (string * float)) : list (string * float) :=
  match allowed_classes with
  | [] => weights
  | _ => List.filter (fun p => match registry_get p.1 r with
                               | Some op => mem (mo_mutation_class op) allowed_classes
                               | None => false
                               end) weights
  end.
Fixpoint plan_steps (n : nat) (g : TypedGraph) (weights : list (string * float)) (steps : list MutationStep) :
    M MutationPlanner (list MutationStep) :=
  match n with
  | O => mret steps
  | S n =>
      selected ← pl_in_world (rng_choices (dkeys weights) (map snd weights));
      operator ← gets (fun p => registry_get selected (pl_registry p));
      match operator with
      | None => plan_steps n g weights steps
      | Some operator =>
          target ← pl_in_world (select_random_target g operator);
          match target with
          | None => plan_steps n g weights steps
          | Some target => plan_steps n g weights
              (steps ++ [{| st_operator_id := selected; st_target_id := target; st_parameters := [] |}])
          end
      end
  end.

(** [allowed_classes] that is None or empty allows every class. *)
Definition plan_random (g : TypedGraph) (max_steps : Z) (allowed_classes : list MutationClass) :
    M MutationPlanner MutationPlan :=
  adaptive ← gets pl_adaptive;
  let (weights, adaptive) := get_weights adaptive in
  _ ← modify (put_pl_adaptive adaptive);
  registry ← gets pl_registry;
  let weights := match weights with
                 | [] => map (fun id => (id, fone)) (all_identifiers registry)
                 | _ => weights
                 end in
  match allowed_weights registry allowed_classes weights with
  | [] => mret empty_plan
  | weights =>
      steps ← plan_steps (Z.to_nat max_steps) g weights [];
      mret {| pn_steps := steps; pn_rationale := "Adaptive-weighted random selection";
              pn_expected_impact := []; pn_intermediate_validation := true; pn_source := "planner" |}
  end.

Definition plan (g : TypedGraph) (max_steps : Z) (allowed_classes : list MutationClass) :
    M MutationPlanner MutationPlan :=
  found ← plan_from_memory g;
  match found with
  | Some p => if 0 <? step_count p then mret p else plan_random g max_steps allowed_classes
  | None => plan_random g max_steps allowed_classes
  end.
End Planner.
