(* ===== verification/Recombination.v ===== *)
(** * Recombination of architectures

    [evolution/recombination.py] and [evolution/population.py]: the crossover
    operators on the documents of two parents, the engine that runs them, the
    registration of an offspring with the evolution engine, and the measure and
    selection of diverse candidates.  A set is the list of its members, without
    repetition; names of domains and services are dynamically typed values, as a
    document may hold anything under them.  Lower case is that of ASCII. *)

From Stdlib Require Import SpecFloat.
From S2P Require Import Prelude PyFloat PyVal PyText PyJson IsrModel TypedGraph IsrValidation EvoModels EvoPopulation.
From S2P Require Import EvoControl EvoEngine EvoMutation Pareto SelfModels SelfEngine SelfParts.
Open Scope Z_scope.

(** ** Records *)

Definition ARCHITECTURAL_BLOCKS : list string :=
  ["architecture"; "persistence"; "infrastructure"; "security"; "messaging"; "observability"; "ai"; "testing";
   "deployment"; "frontend"; "backend"; "governance"; "documentation"; "performance"; "reliability"].
Definition BLOCK_TO_OBJECTIVE : list (string * string) :=
  [("reliability", "reliability"); ("security", "security_posture"); ("performance", "performance_efficiency");
   ("observability", "operational_stability"); ("infrastructure", "cost_efficiency"); ("frontend", "user_satisfaction");
   ("testing", "testability"); ("deployment", "deployment_readiness"); ("documentation", "documentation_quality");
   ("governance", "governance_readiness")].

Record RecombinationPolicy : Set := {
  rn_operator : string;
  rn_max_offspring : nat;
  rn_preserve_base_identity : bool;
  rn_objective_prefix : string;
  rn_seed : Z;
}.
Definition default_recombination : RecombinationPolicy := {|
  rn_operator := "policy_block"; rn_max_offspring := 2; rn_preserve_base_identity := true;
  rn_objective_prefix := "feedback_"; rn_seed := 0 |}.
Record RecombinationContext : Set := {
  rx_parent_candidate_ids : list string;
  rx_objectives_by_parent : list (string * list (string * float));
  rx_genome : option pydict;
  rx_generation : Z;
}.
Definition context_of (ids : list string) : RecombinationContext := {|
  rx_parent_candidate_ids := ids; rx_objectives_by_parent := []; rx_genome := None; rx_generation := 0 |}.
Record OffspringCandidate : Set := {
  of_id : string;
  of_operator : string;
  of_parent_candidate_ids : list string;
  of_base_parent_candidate_id : option string;
  of_base_parent_content_hash : option string;
  of_isr : pydict;
  of_content_hash : string;
  of_created_at : string;
}.
Record RecombinationResult : Set := {
  rr_operator : string;
  rr_parent_candidate_ids : list string;
  rr_offspring : list OffspringCandidate;
  rr_notes : list string;
}.

(** ** Helpers *)

(** [s.endswith(t)]. *)
Definition ends_with (t s : string) : bool :=
  (String.length t <=? String.length s)%nat
  && String.eqb (String.substring (String.length s - String.length t) (String.length t) s) t.
Fixpoint first_of {A B} (f : A -> option B) (xs : list A) : option B :=
  match xs with [] => None | x :: xs => match f x with Some y => Some y | None => first_of f xs end end.
Definition objective_value (objectives : list (string * float)) (name : string) : option float :=
  match first_of (fun k => dget k objectives) [name; "feedback_" +:+ name; "compiler_" +:+ name] with
  | Some x => Some x
  | None => first_of (fun p => if ends_with name p.1 then Some p.2 else None) objectives
  end.
(** [isr.setdefault("evolution", {}).setdefault("crossovers", []).append(...)]. *)
Definition crossover_entry (operator_name : string) (context : RecombinationContext) (role : string) : pyval :=
  VDict [("operator", VStr operator_name); ("parent_candidate_ids", VList (map VStr (rx_parent_candidate_ids context)));
         ("generation", VInt (rx_generation context)); ("offspring_role", VStr role)].
Definition add_crossover_metadata (isr : pydict) (operator_name : string) (context : RecombinationContext)
    (role : string) : res pydict :=
  let isr := dsetdefault "evolution" (VDict []) isr in
  match dget_or "evolution" isr VNone with
  | VDict evolution =>
      let evolution := dsetdefault "crossovers" (VList []) evolution in
      match dget_or "crossovers" evolution VNone with
      | VList crossovers =>
          let entry := crossover_entry operator_name context role in
          Ok (dset "evolution" (VDict (dset "crossovers" (VList (crossovers ++ [entry])) evolution)) isr)
      | v => Raise (AttributeError ("'" +:+ type_name v +:+ "' object has no attribute 'append'"))
      end
  | v => Raise (AttributeError ("'" +:+ type_name v +:+ "' object has no attribute 'setdefault'"))
  end.

(** ** PolicyBlockCrossover *)

Definition select_blocks (parent_a parent_b : pydict) : list string :=
  sort_by str_leb (List.filter (fun block => dmem block parent_a || dmem block parent_b) ARCHITECTURAL_BLOCKS).
Definition choose_better_parent (block id_a id_b : string) (objectives : list (string * list (string * float)))
    (default_parent_id : string) : string :=
  let name := dget_or block BLOCK_TO_OBJECTIVE block in
  match objective_value (dget_or id_a objectives []) name, objective_value (dget_or id_b objectives []) name with
  | None, None => default_parent_id
  | None, Some _ => id_b
  | Some _, None => id_a
  | Some x, Some y => if feqb x y then default_parent_id else if fltb y x then id_a else id_b
  end.
(** What the two children take for a block: the ids of the parents chosen. *)
Definition choose_block (parent_a parent_b : pydict) (id_a id_b : string) (context : RecombinationContext)
    (index : nat) (block : string) : string * string :=
  if dmem block parent_a && dmem block parent_b then
    let chosen := choose_better_parent block id_a id_b (rx_objectives_by_parent context)
                    (if Nat.even index then id_a else id_b) in
    (chosen, if bool_decide (chosen = id_a) then id_b else id_a)
  else if dmem block parent_a then (id_a, id_a) else (id_b, id_b).
Definition block_choices (parent_a parent_b : pydict) (id_a id_b : string) (context : RecombinationContext)
    (blocks : list string) : list (string * (string * string)) :=
  imap (fun index block => (block, choose_block parent_a parent_b id_a id_b context index block)) blocks.

Definition take_block (parent_a parent_b : pydict) (id_a : string) (child : pydict) (choice : string * string) : pydict :=
  match dget choice.1 (if bool_decide (choice.2 = id_a) then parent_a else parent_b) with
  | None | Some VNone => child
  | Some value => dset choice.1 value child
  end.
Definition without_blocks (base : pydict) : pydict := fold_left (fun child block => ddel block child) ARCHITECTURAL_BLOCKS base.
Definition build_offspring (parent_a parent_b : pydict) (id_a : string) (choices : list (string * string))
    (name : string) (policy : RecombinationPolicy) (context : RecombinationContext) (role : string) : res pydict :=
  let base_parent := if rn_preserve_base_identity policy then parent_a else parent_b in
  let child := fold_left (take_block parent_a parent_b id_a) choices (without_blocks base_parent) in
  add_crossover_metadata child name context role.

(** [recombine] of the class and of its subclass, which selects other blocks. *)
Definition recombine_blocks (name : string)
    (select : pydict -> pydict -> RecombinationContext -> res (list string))
    (parent_a parent_b : pydict) (policy : RecombinationPolicy) (context : RecombinationContext) : res (list pydict) :=
  let id_a := default "parent_a" (rx_parent_candidate_ids context !! 0%nat) in
  let id_b := default "parent_b" (rx_parent_candidate_ids context !! 1%nat) in
  blocks ← select parent_a parent_b context;
  let choices := block_choices parent_a parent_b id_a id_b context blocks in
  child_one ← build_offspring parent_a parent_b id_a (map (fun c => (c.1, c.2.1)) choices) name policy context
                "policy_block_child_one";
  child_two ← build_offspring parent_a parent_b id_a (map (fun c => (c.1, c.2.2)) choices) name policy context
                "policy_block_child_two";
  Ok [child_one; child_two].
Definition policy_block_crossover : pydict -> pydict -> RecombinationPolicy -> RecombinationContext -> res (list pydict) :=
  recombine_blocks "policy_block" (fun a b _ => Ok (select_blocks a b)).

Section Genome.
Context `{Texts}.

(** *** GenomeGuidedCrossover *)

Definition active_family (gene : pyval) : list string :=
  match gene with
  | VDict g =>
      if val_truthy (dget_or "active" g (VBool true)) then
        let family := lower (text_of (dget_or "chromosome_family" g (VStr ""))) in
        if mem family ARCHITECTURAL_BLOCKS then [family] else []
      else []
  | _ => []
  end.
Definition active_blocks (genome : pydict) : res (list string) :=
  genes ← iter_of (get_or_empty "genes" genome); Ok (concat (map active_family genes)).
Definition select_genome_blocks (parent_a parent_b : pydict) (context : RecombinationContext) : res (list string) :=
  let blocks := select_blocks parent_a parent_b in
  match rx_genome context with
  | None | Some [] => Ok blocks
  | Some genome =>
      active ← active_blocks genome;
      Ok (match active with [] => blocks | _ => List.filter (fun block => mem block active) blocks end)
  end.
Definition genome_guided_crossover : pydict -> pydict -> RecombinationPolicy -> RecombinationContext -> res (list pydict) :=
  recombine_blocks "genome_guided" select_genome_blocks.
End Genome.

(** ** DomainCrossover

    A table by name: names that are equal share a row, and a name that is no
    hashable value is refused. *)

Definition hashed (v : pyval) : res pyval :=
  match v with
  | VList _ | VDict _ => Raise (TypeError ("unhashable type: '" +:+ type_name v +:+ "'"))
  | _ => Ok v
  end.
Fixpoint tget (k : pyval) (t : list (pyval * pydict)) : option pydict :=
  match t with [] => None | (k', d) :: t => if py_eq k k' then Some d else tget k t end.
Fixpoint tset (k : pyval) (d : pydict) (t : list (pyval * pydict)) : list (pyval * pydict) :=
  match t with
  | [] => [(k, d)]
  | (k', d') :: t => if py_eq k k' then (k', d) :: t else (k', d') :: tset k d t
  end.
(** [sorted(values)] and [sorted(values, key=...)]: a TypeError when two of them
    cannot be compared. *)
Definition sorted_on {A} (key : A -> pyval) (xs : list A) : res (list A) :=
  if comparable (map key xs)
  then Ok (sort_by (fun a b => match py_ltb (key b) (key a) with Some true => false | _ => true end) xs)
  else Raise (TypeError "'<' not supported between instances").
(** [set(v)], and the union of two sets. *)
Definition add_member (s : list pyval) (v : pyval) : list pyval := if existsb (py_eq v) s then s else s ++ [v].
Definition py_set (v : pyval) : res (list pyval) :=
  xs ← iter_of v; xs ← map_res hashed xs; Ok (fold_left add_member xs []).
Definition set_union (s t : list pyval) : list pyval := fold_left add_member t s.

(** The loops over the base items and over the other items, and the sorting. *)
Section MergeNamed.
Context (normalize : pyval -> pydict) (merge : pydict -> pydict -> res pydict).
Definition name_of (d : pydict) : pyval := dget_or "name" d (VStr "").
Fixpoint add_base (xs : list pyval) (t : list (pyval * pydict)) : res (list (pyval * pydict)) :=
  match xs with
  | [] => Ok t
  | x :: xs => k ← hashed (name_of (normalize x)); add_base xs (tset k (normalize x) t)
  end.
Fixpoint add_other (xs : list pyval) (t : list (pyval * pydict)) : res (list (pyval * pydict)) :=
  match xs with
  | [] => Ok t
  | x :: xs =>
      k ← hashed (name_of (normalize x));
      match tget k t with
      | None => add_other xs (tset k (normalize x) t)
      | Some existing => merged ← merge existing (normalize x); add_other xs (tset k merged t)
      end
  end.
Definition merge_named (base other : pyval) : res (list pyval) :=
  xs ← iter_of base; t ← add_base xs [];
  ys ← iter_of other; t ← add_other ys t;
  ds ← sorted_on name_of (dvalues t);
  Ok (map VDict ds).
End MergeNamed.

Definition normalize_domain (domain : pyval) : pydict :=
  match domain with
  | VStr s => [("name", VStr s); ("services", VList [])]
  | VDict d => dsetdefault "services" (VList []) (dsetdefault "name" (VStr "UnnamedDomain") d)
  | _ => [("name", VStr "UnnamedDomain"); ("services", VList [])]
  end.
Definition normalize_service (service : pyval) : pydict :=
  match service with
  | VStr s => [("name", VStr s); ("apis", VList []); ("depends_on", VList [])]
  | VDict d => dsetdefault "depends_on" (VList []) (dsetdefault "apis" (VList [])
                 (dsetdefault "name" (VStr "UnnamedService") d))
  | _ => [("name", VStr "UnnamedService"); ("apis", VList []); ("depends_on", VList [])]
  end.

Section Domains.
Context `{Texts}.

Definition api_name (api : pyval) : string :=
  match api with
  | VStr s => s
  | VDict d => text_of (dget_or "name" d (VStr ""))
  | _ => ""
  end.
Definition merge_apis (base other : pyval) : res (list pyval) :=
  xs ← iter_of base;
  ys ← iter_of other;
  Ok (fold_left (fun acc api => if mem (api_name api) acc.2 then acc else (acc.1 ++ [api], acc.2 ++ [api_name api]))
        ys (xs, map api_name xs)).1.
Definition merge_service (existing service : pydict) : res pydict :=
  apis ← merge_apis (get_or_empty "apis" existing) (get_or_empty "apis" service);
  let existing := dset "apis" (VList apis) existing in
  mine ← py_set (get_or_empty "depends_on" existing);
  theirs ← py_set (get_or_empty "depends_on" service);
  depends_on ← sorted_on id (set_union mine theirs);
  Ok (dset "depends_on" (VList depends_on) existing).
Definition merge_services : pyval -> pyval -> res (list pyval) := merge_named normalize_service merge_service.
Definition merge_domain (existing domain : pydict) : res pydict :=
  services ← merge_services (get_or_empty "services" existing) (get_or_empty "services" domain);
  Ok (dset "services" (VList services) existing).
Definition merge_domains : pyval -> pyval -> res (list pyval) := merge_named normalize_domain merge_domain.

Definition domain_crossover (parent_a parent_b : pydict) (policy : RecombinationPolicy) (context : RecombinationContext) :
    res (list pydict) :=
  let domains_a := get_or_empty "domains" parent_a in
  let domains_b := get_or_empty "domains" parent_b in
  one ← merge_domains domains_a domains_b;
  two ← merge_domains domains_b domains_a;
  child_one ← add_crossover_metadata (dset "domains" (VList one) parent_a) "domain" context "domain_child_one";
  child_two ← add_crossover_metadata (dset "domains" (VList two) parent_b) "domain" context "domain_child_two";
  Ok [child_one; child_two].
End Domains.

(** ** RecombinationEngine

    What is recombined: a document, an object with one, or an object without. *)
Inductive Parent : Set :=
| ParentDocument (isr : pydict)
| ParentCandidate (c : CandidateArchitecture)
| ParentOffspring (o : OffspringCandidate)
| ParentOther.

Section Engine.
Context `{Surroundings, Digests, Texts}.

Record CrossoverOperator := {
  xo_name : string;
  xo_recombine : pydict -> pydict -> RecombinationPolicy -> RecombinationContext -> M World (list pydict);
}.
Definition default_operators : list (string * CrossoverOperator) :=
  [("policy_block", {| xo_name := "policy_block"; xo_recombine a b p c := lift_res (policy_block_crossover a b p c) |});
   ("domain", {| xo_name := "domain"; xo_recombine a b p c := lift_res (domain_crossover a b p c) |});
   ("genome_guided", {| xo_name := "genome_guided"; xo_recombine a b p c := lift_res (genome_guided_crossover a b p c) |})].
(** [operators or {...}]. *)
Definition engine_operators (operators : list (string * CrossoverOperator)) : list (string * CrossoverOperator) :=
  match operators with [] => default_operators | _ => operators end.

Definition extract_isr (p : Parent) : res pydict :=
  match p with
  | ParentDocument isr => Ok isr
  | ParentCandidate c => Ok (ca_isr c)
  | ParentOffspring o => Ok (of_isr o)
  | ParentOther => Raise (ValueError "Candidate does not contain an ISR payload.")
  end.
Definition extract_candidate_id (p : Parent) (fallback : string) : string :=
  let candidate_id := match p with ParentCandidate c => ca_id c | ParentOffspring o => of_id o | _ => "" end in
  if truthy candidate_id then candidate_id else fallback.
Definition extract_content_hash (p : Parent) (isr : pydict) : string :=
  let content_hash := match p with ParentCandidate c => ca_content_hash c | ParentOffspring o => of_content_hash o | _ => "" end in
  if truthy content_hash then content_hash else digest (VDict isr).

(** The caller's context, which is filled in when it names no parents. *)
Record Recombining : Set := { rb_world : World; rb_context : option RecombinationContext }.
Definition put_rb_world (w : World) (s : Recombining) : Recombining := {| rb_world := w; rb_context := rb_context s |}.
Definition fill_context (ids : list string) (c : RecombinationContext) : RecombinationContext :=
  match rx_parent_candidate_ids c with
  | [] => {| rx_parent_candidate_ids := ids; rx_objectives_by_parent := rx_objectives_by_parent c;
             rx_genome := rx_genome c; rx_generation := rx_generation c |}
  | _ => c
  end.

Definition make_offspring (operator id_a id_b base_hash : string) (index : nat) (isr : pydict) : M World OffspringCandidate :=
  let content_hash := digest (VDict isr) in
  let offspring_id := deterministic_id "offspring_candidate"
    [("operator", VStr operator); ("parent_a_id", VStr id_a); ("parent_b_id", VStr id_b);
     ("index", VInt (Z.of_nat index)); ("content_hash", VStr content_hash)] in
  created_at ← timestamp;
  mret {| of_id := offspring_id; of_operator := operator; of_parent_candidate_ids := [id_a; id_b];
          of_base_parent_candidate_id := Some id_a; of_base_parent_content_hash := Some base_hash;
          of_isr := isr; of_content_hash := content_hash; of_created_at := created_at |}.
(** The loop, which stops when there are enough. *)
Fixpoint all_offspring (operator id_a id_b base_hash : string) (max_offspring index : nat) (isrs : list pydict) :
    M World (list OffspringCandidate) :=
  match isrs with
  | [] => mret []
  | isr :: isrs =>
      if (max_offspring <=? index)%nat then mret []
      else o ← make_offspring operator id_a id_b base_hash index isr;
           os ← all_offspring operator id_a id_b base_hash max_offspring (S index) isrs;
           mret (o :: os)
  end.
Definition recombine_candidates (operators : list (string * CrossoverOperator)) (parent_a parent_b : Parent)
    (policy : option RecombinationPolicy) : M Recombining RecombinationResult :=
  let policy := default default_recombination policy in
  isr_a ← lift_res (extract_isr parent_a);
  isr_b ← lift_res (extract_isr parent_b);
  let id_a := extract_candidate_id parent_a "parent_a" in
  let id_b := extract_candidate_id parent_b "parent_b" in
  given ← gets rb_context;
  let context := match given with None => context_of [id_a; id_b] | Some c => fill_context [id_a; id_b] c end in
  _ ← modify (fun s => {| rb_world := rb_world s; rb_context := fill_context [id_a; id_b] <$> rb_context s |});
  match dget (rn_operator policy) operators with
  | None => raise (ValueError ("Unknown recombination operator: " +:+ rn_operator policy))
  | Some operator =>
      isrs ← zoom rb_world put_rb_world (xo_recombine operator isr_a isr_b policy context);
      offspring ← zoom rb_world put_rb_world
        (all_offspring (xo_name operator) id_a id_b (extract_content_hash parent_a isr_a) (rn_max_offspring policy) 0 isrs);
      mret {| rr_operator := xo_name operator; rr_parent_candidate_ids := [id_a; id_b]; rr_offspring := offspring;
              rr_notes := ["Produced " +:+ str_of_int (Z.of_nat (length offspring)) +:+ " offspring using "
                           +:+ xo_name operator +:+ " crossover."] |}
  end.

(** ** Registration with the evolution engine *)

Definition offspring_candidate (proposal_id : string) (o : OffspringCandidate) (created_at : string) : CandidateArchitecture := {|
  ca_id := deterministic_id "candidate" [("proposal_id", VStr proposal_id); ("offspring_id", VStr (of_id o))];
  ca_proposal_id := proposal_id; ca_mutation_spec_id := "crossover:" +:+ of_operator o;
  ca_base_isr_hash := or_empty (oor (of_base_parent_content_hash o) (Some (of_content_hash o)));
  ca_content_hash := of_content_hash o; ca_isr := of_isr o; ca_created_at := created_at |}.
Definition register_offspring_candidate `{!Parts} (proposal_id : string) (o : OffspringCandidate) :
    M SelfEvolutionEngine CandidateArchitecture :=
  p ← get_proposal proposal_id;
  created_at ← stamp;
  let candidate := offspring_candidate proposal_id o created_at in
  _ ← modify (put_candidate candidate);
  _ ← when (negb (mem (ca_id candidate) (ep_candidate_ids p)))
        (update_proposal proposal_id (fun p => set_candidates (ep_candidate_ids p ++ [ca_id candidate]) p));
  _ ← record_event proposal_id "offspring_candidate_registered" "recombination_engine"
        [("candidate_id", VStr (ca_id candidate)); ("offspring_id", VStr (of_id o)); ("operator", VStr (of_operator o));
         ("parent_candidate_ids", VList (map VStr (of_parent_candidate_ids o)))];
  mret candidate.
End Engine.

(** ** PopulationDiversityController *)

Section Features.
Context `{Texts}.

Definition service_features (service : pyval) : res (list string) :=
  match service with
  | VStr s => Ok ["service:" +:+ s]
  | VDict d =>
      let service_name := text_of (dget_or "name" d (VStr "")) in
      apis ← iter_of (get_or_empty "apis" d);
      let api_feature api := if truthy (api_name api) then ["api:" +:+ service_name +:+ ":" +:+ api_name api] else [] in
      Ok ((if truthy service_name then ["service:" +:+ service_name] else []) ++ concat (map api_feature apis))
  | _ => Ok []
  end.
Definition services_features (d : pydict) : res (list string) :=
  services ← iter_of (get_or_empty "services" d);
  features ← map_res service_features services;
  Ok (concat features).
Definition domain_features (domain : pyval) : res (list string) :=
  match domain with
  | VStr s => Ok ["domain:" +:+ s]
  | VDict d =>
      let domain_name := text_of (dget_or "name" d (VStr "")) in
      features ← services_features d;
      Ok ((if truthy domain_name then ["domain:" +:+ domain_name] else []) ++ features)
  | _ => Ok []
  end.
Definition extract_isr_features (isr : pydict) : res (list string) :=
  domains ← iter_of (get_or_empty "domains" isr);
  of_domains ← map_res domain_features domains;
  of_services ← services_features isr;
  Ok (remove_dups (map (fun block => "block:" +:+ block) (List.filter (fun block => dmem block isr) ARCHITECTURAL_BLOCKS)
                   ++ concat of_domains ++ of_services)).
End Features.

Definition jaccard_similarity (mine theirs : list string) : float :=
  match mine, theirs with
  | [], [] => fone
  | _, _ =>
      let shared := List.filter (fun x => mem x theirs) mine in
      let union := mine ++ List.filter (fun x => negb (mem x mine)) theirs in
      of_ratio (Z.of_nat (length shared)) (Pos.of_nat (length union))
  end.

(** The features of the registered candidates. *)
Abbreviation feature_table := (list (string * list string)).
Definition register_candidate `{Texts} (candidate_id : string) (isr : pydict) (features : feature_table) : res feature_table :=
  f ← extract_isr_features isr; Ok (dset candidate_id f features).
Definition register_offspring `{Texts} (o : OffspringCandidate) (features : feature_table) : res feature_table :=
  register_candidate (of_id o) (of_isr o) features.
Definition similarity (features : feature_table) (a b : string) : float :=
  match dget a features, dget b features with
  | Some mine, Some theirs => jaccard_similarity mine theirs
  | _, _ => fzero
  end.

(** The similarity of each item to the later ones. *)
Fixpoint pair_similarities (features : feature_table) (ids : list string) : list float :=
  match ids with
  | [] => []
  | a :: ids => map (similarity features a) ids ++ pair_similarities features ids
  end.
Definition diversity_report (features : feature_table) (ids : list string) : list (string * float) :=
  let count := of_nat (length ids) in
  if (length ids <? 2)%nat then [("candidate_count", count); ("average_pairwise_similarity", fzero)]
  else
    let similarities := pair_similarities features ids in
    let average := match similarities with [] => fzero | _ => fdiv (fsum similarities) (of_nat (length similarities)) end in
    [("candidate_count", count); ("average_pairwise_similarity", average)].

(** The smallest distance to the references, at most one. *)
Definition min_distance (features : feature_table) (references : list string) (id : string) : float :=
  fold_left (fun best reference =>
    let distance := fsub fone (similarity features id reference) in if fltb distance best then distance else best)
    references fone.
(** The pass over the sorted remaining candidates. *)
Definition better (features : feature_table) (references : list string) (best : option string * float) (id : string) :
    option string * float :=
  let d := min_distance features references id in
  if fltb best.2 d
     || (feqb d best.2 && match best.1 with None => true | Some b => str_ltb id b end)
  then (Some id, d) else best.
Definition best_candidate (features : feature_table) (references remaining : list string) : option string :=
  (fold_left (better features references) (sort_by str_leb remaining) (None, of_Z (-1))).1.
(** Every pass takes one candidate away: as many passes as candidates are enough. *)
Fixpoint select_loop (features : feature_table) (max_select : Z) (fuel : nat) (remaining selected references : list string) :
    list string :=
  match fuel with
  | O => selected
  | S fuel =>
      match remaining with
      | [] => selected
      | _ =>
          if max_select <=? Z.of_nat (length selected) then selected
          else match best_candidate features references remaining with
               | None => selected
               | Some id =>
                   select_loop features max_select fuel (List.filter (fun x => negb (bool_decide (x = id))) remaining)
                     (selected ++ [id]) (references ++ [id])
               end
      end
  end.
Definition select_diverse (features : feature_table) (candidate_ids : list string) (max_select : Z) (existing_ids : list string) :
    list string :=
  let remaining := remove_dups candidate_ids in
  select_loop features max_select (length remaining) remaining [] existing_ids.
