(* ===== verification/RecombinationSpec.v ===== *)
(** * Recombination: theorems

    What the children of two architectures hold of each, what the domain crossover
    keeps of the APIs, which offspring an engine makes, and what the selection of
    diverse candidates selects. *)

From Stdlib Require Import SpecFloat.
From S2P Require Import Prelude PyFloat PyVal PyText PyJson IsrModel TypedGraph IsrValidation EvoModels EvoPopulation.
From S2P Require Import EvoControl EvoEngine EvoMutation Pareto SelfModels SelfEngine SelfParts SelfEngineSpec SelfPartsSpec Recombination.
Open Scope Z_scope.

(** ** Children made of blocks *)

(** What [get] finds that is not None. *)
Definition present_value (o : option pyval) : option pyval := match o with Some VNone => None | _ => o end.
(** The document a choice names. *)
Definition chosen_parent (a b : pydict) (id_a id : string) : pydict := if bool_decide (id = id_a) then a else b.

Lemma evolution_not_block : ("evolution" ∉ ARCHITECTURAL_BLOCKS).
Proof. by apply mem_false. Qed.
Lemma blocks_distinct : NoDup ARCHITECTURAL_BLOCKS.
Proof. apply (bool_decide_eq_true_1 _). vm_compute. reflexivity. Qed.

Lemma dels_get ks (d : pydict) k : dict_ok d ->
  dget k (fold_left (fun c block => ddel block c) ks d) = if decide (k ∈ ks) then None else dget k d.
Proof.
  revert d. induction ks as [|k' ks IH]; intros d Hd; cbn [fold_left]; [by rewrite decide_False by apply not_elem_of_nil|].
  rewrite IH, dget_ddel by auto using ddel_ok. repeat case_decide; set_solver.
Qed.
Lemma take_block_get a b id_a child k' id k : dget k (take_block a b id_a child (k', id)) =
  if decide (k = k') then match present_value (dget k' (chosen_parent a b id_a id)) with Some v => Some v | None => dget k child end
  else dget k child.
Proof.
  unfold take_block, present_value, chosen_parent. cbn.
  destruct (dget k' _) as [[]|]; rewrite ?dget_dset; by case_decide.
Qed.
Lemma take_blocks_get a b id_a choices child k : NoDup (map fst choices) ->
  dget k (fold_left (take_block a b id_a) choices child) =
  match dget k choices with
  | Some id => match present_value (dget k (chosen_parent a b id_a id)) with Some v => Some v | None => dget k child end
  | None => dget k child
  end.
Proof.
  revert child. induction choices as [|[k' id] cs IH]; intros child; cbn [fold_left map fst dget]; [done|].
  intros [Hk Hnd]%NoDup_cons. rewrite IH, take_block_get by done. destruct (decide (k = k')) as [->|]; [|done].
  assert (dget k' cs = None) as -> by (by apply dget_None). done.
Qed.
Lemma metadata_beside isr name ctx role d : add_crossover_metadata isr name ctx role = Ok d ->
  forall k, k <> "evolution" -> dget k d = dget k isr.
Proof.
  unfold add_crossover_metadata, dsetdefault. intros E k Hk.
  destruct (dmem "evolution" isr); case_match; try done; case_match; try done; injection E as <-;
    by rewrite !dget_dset_ne.
Qed.

(** A child holds the chosen blocks, and the rest of its base. *)
Lemma built_offspring_get a b id_a choices name policy ctx role d base :
  base = (if rn_preserve_base_identity policy then a else b) -> dict_ok base ->
  NoDup (map fst choices) -> (forall k, k ∈ map fst choices -> k ∈ ARCHITECTURAL_BLOCKS) ->
  build_offspring a b id_a choices name policy ctx role = Ok d ->
  forall k, k <> "evolution" ->
    dget k d = if decide (k ∈ ARCHITECTURAL_BLOCKS)
               then match dget k choices with Some id => present_value (dget k (chosen_parent a b id_a id)) | None => None end
               else dget k base.
Proof.
  intros -> Hb Hnd Hks E k Hk. unfold build_offspring in E. rewrite (metadata_beside _ _ _ _ _ E k Hk).
  rewrite take_blocks_get by done. unfold without_blocks. rewrite dels_get by done. case_decide as Hin.
  - destruct (dget k choices) as [id|]; [|done]. by destruct (present_value _).
  - destruct (dget k choices) as [id|] eqn:Ec; [|done]. exfalso. apply Hin, Hks. by apply dget_Some_key in Ec.
Qed.

Lemma imap_fst {B} (f : nat -> string -> B) (xs : list string) : map fst (imap (fun i x => (x, f i x)) xs) = xs.
Proof. revert f. induction xs as [|x xs IH]; intros f; [done|]. cbn. f_equal. exact (IH (fun i => f (S i))). Qed.
Lemma imap_dget {B} (f : nat -> string -> B) (xs : list string) k : k ∈ xs ->
  exists i, xs !! i = Some k /\ dget k (imap (fun i x => (x, f i x)) xs) = Some (f i k).
Proof.
  revert f. induction xs as [|x xs IH]; intros f; [by intros ?%elem_of_nil|]. cbn [imap dget].
  destruct (decide (k = x)) as [->|]; [intros _; by exists 0%nat|].
  intros [?|Hk]%elem_of_cons; [done|]. destruct (IH (fun i => f (S i)) Hk) as (i & Hi & E). by exists (S i).
Qed.
Lemma choices_side {B} (g : string * string -> B) (cs : list (string * (string * string))) k :
  dget k (map (fun c => (c.1, g c.2)) cs) = g <$> dget k cs.
Proof. induction cs as [|[k' c] cs IH]; [done|]. cbn. case_decide; [done|exact IH]. Qed.

(** What a child is: every block selected is that of one parent, or the block of the
    only parent with one; blocks that are not selected are gone; the rest is that
    of the base.  The two children take a block both parents have from different
    parents. *)
Record crossed (a b base : pydict) (blocks : list string) (one two : pydict) : Prop := {
  cr_rest k : (k ∉ ARCHITECTURAL_BLOCKS) -> k <> "evolution" -> dget k one = dget k base /\ dget k two = dget k base;
  cr_lost k : k ∈ ARCHITECTURAL_BLOCKS -> (k ∉ blocks) -> dget k one = None /\ dget k two = None;
  cr_shared k : k ∈ blocks -> dmem k a = true -> dmem k b = true ->
    (dget k one = present_value (dget k a) /\ dget k two = present_value (dget k b)) \/
    (dget k one = present_value (dget k b) /\ dget k two = present_value (dget k a));
  cr_only_a k : k ∈ blocks -> dmem k b = false ->
    dget k one = present_value (dget k a) /\ dget k two = present_value (dget k a);
  cr_only_b k : k ∈ blocks -> dmem k a = false ->
    dget k one = present_value (dget k b) /\ dget k two = present_value (dget k b);
}.

Lemma select_blocks_elem a b k : k ∈ select_blocks a b <-> k ∈ ARCHITECTURAL_BLOCKS /\ (dmem k a || dmem k b) = true.
Proof. unfold select_blocks. rewrite sort_by_elem, !list_elem_of_In, filter_In. done. Qed.
Lemma select_blocks_distinct a b : NoDup (select_blocks a b).
Proof.
  unfold select_blocks. rewrite sort_by_perm. apply NoDup_ListNoDup, List.NoDup_filter, NoDup_ListNoDup, blocks_distinct.
Qed.

Lemma better_parent_cases block id_a id_b objectives d : d = id_a \/ d = id_b ->
  choose_better_parent block id_a id_b objectives d = id_a \/ choose_better_parent block id_a id_b objectives d = id_b.
Proof. intros Hd. unfold choose_better_parent. repeat case_match; auto. Qed.
Lemma chosen_a a b id_a : chosen_parent a b id_a id_a = a.
Proof. unfold chosen_parent. by rewrite bool_decide_eq_true_2. Qed.
Lemma chosen_b a b id_a id_b : id_a <> id_b -> chosen_parent a b id_a id_b = b.
Proof. intros Hne. unfold chosen_parent. by rewrite bool_decide_eq_false_2 by congruence. Qed.

Definition first_id (ctx : RecombinationContext) : string := default "parent_a" (rx_parent_candidate_ids ctx !! 0%nat).
Definition second_id (ctx : RecombinationContext) : string := default "parent_b" (rx_parent_candidate_ids ctx !! 1%nat).
Definition base_of (a b : pydict) (policy : RecombinationPolicy) : pydict := if rn_preserve_base_identity policy then a else b.

Lemma recombined_blocks name select a b policy ctx blocks cs :
  dict_ok (base_of a b policy) -> first_id ctx <> second_id ctx -> select a b ctx = Ok blocks -> NoDup blocks ->
  (forall k, k ∈ blocks -> k ∈ select_blocks a b) ->
  recombine_blocks name select a b policy ctx = Ok cs ->
  exists one two, cs = [one; two] /\ crossed a b (base_of a b policy) blocks one two /\
    forall k, k ∈ blocks -> exists i, blocks !! i = Some k /\ dget k one =
      present_value (dget k (chosen_parent a b (first_id ctx)
                               (choose_block a b (first_id ctx) (second_id ctx) ctx i k).1)).
Proof.
  intros Hb Hne Hsel Hnd Hsub. unfold recombine_blocks. unfold_monad. rewrite Hsel.
  fold (first_id ctx) (second_id ctx). set (choices := block_choices a b _ _ ctx blocks).
  assert (Hfst : forall g : string * string -> string, map fst (map (fun c => (c.1, g c.2)) choices) = blocks).
  { intros g. rewrite map_map. cbn. unfold choices, block_choices. apply imap_fst. }
  destruct (build_offspring _ _ _ _ _ _ _ "policy_block_child_one") as [one|] eqn:E1; [|done].
  destruct (build_offspring _ _ _ _ _ _ _ "policy_block_child_two") as [two|] eqn:E2; [|done]. intros [= <-].
  assert (Hks : forall k, k ∈ blocks -> k ∈ ARCHITECTURAL_BLOCKS) by (intros k Hk; by apply Hsub, select_blocks_elem in Hk as [? _]).
  assert (Hget : forall g role d, build_offspring a b (first_id ctx) (map (fun c => (c.1, g c.2)) choices) name policy ctx role = Ok d ->
    forall k, k <> "evolution" -> dget k d = if decide (k ∈ ARCHITECTURAL_BLOCKS)
      then match g <$> dget k choices with Some id => present_value (dget k (chosen_parent a b (first_id ctx) id)) | None => None end
      else dget k (base_of a b policy)).
  { intros g role d E k Hk. rewrite <- (choices_side g). eapply built_offspring_get; [done|done| | |exact E|done].
    - by rewrite Hfst.
    - intros k'. rewrite Hfst. apply Hks. }
  specialize (Hget fst) as G1. specialize (G1 _ _ E1). specialize (Hget snd) as G2. specialize (G2 _ _ E2). clear Hget E1 E2.
  assert (Hblock : forall k, k ∈ blocks -> exists i, blocks !! i = Some k /\
    dget k one = present_value (dget k (chosen_parent a b (first_id ctx) (choose_block a b (first_id ctx) (second_id ctx) ctx i k).1)) /\
    dget k two = present_value (dget k (chosen_parent a b (first_id ctx) (choose_block a b (first_id ctx) (second_id ctx) ctx i k).2))).
  { intros k Hk. pose proof (Hks k Hk) as Hin. assert (k <> "evolution") by (intros ->; by apply evolution_not_block).
    rewrite G1, G2, !decide_True by done.
    destruct (imap_dget (choose_block a b (first_id ctx) (second_id ctx) ctx) blocks k Hk) as (i & Hi & Ec).
    exists i. unfold choices, block_choices. by rewrite Ec. }
  exists one, two. split; [done|]. split; [|intros k Hk; destruct (Hblock k Hk) as (i & ? & ? & _); by exists i]. split.
  - intros k Hk Hke. by rewrite G1, G2, !decide_False.
  - intros k Hin Hk. assert (k <> "evolution") by (intros ->; by apply evolution_not_block).
    rewrite G1, G2, !decide_True by done. assert (dget k choices = None) as ->; [|done].
    apply dget_None. unfold choices, block_choices, dkeys. by rewrite imap_fst.
  - intros k Hk Ha Hb'. destruct (Hblock k Hk) as (i & _ & -> & ->). unfold choose_block. rewrite Ha, Hb'. cbn.
    destruct (better_parent_cases k (first_id ctx) (second_id ctx) (rx_objectives_by_parent ctx)
                (if Nat.even i then first_id ctx else second_id ctx)) as [->| ->]; [by case_match; [left|right]| |].
    + rewrite bool_decide_eq_true_2, chosen_a, chosen_b by done. by left.
    + rewrite bool_decide_eq_false_2, chosen_a, chosen_b by congruence. by right.
  - intros k Hk Hb'. destruct (Hblock k Hk) as (i & _ & -> & ->). unfold choose_block. rewrite Hb', andb_false_r.
    apply Hsub, select_blocks_elem in Hk as [_ Hk]. rewrite Hb', orb_false_r in Hk. rewrite Hk. cbn. by rewrite chosen_a.
  - intros k Hk Ha. destruct (Hblock k Hk) as (i & _ & -> & ->). unfold choose_block. rewrite Ha. cbn. by rewrite chosen_b.
Qed.

(** The crossover metadata can be added. *)
Definition takes_metadata (isr : pydict) : Prop :=
  match dget "evolution" isr with
  | None => True
  | Some (VDict e) => match dget "crossovers" e with None | Some (VList _) => True | _ => False end
  | Some _ => False
  end.
Lemma metadata_added isr name ctx role : takes_metadata isr -> exists d, add_crossover_metadata isr name ctx role = Ok d.
Proof.
  unfold takes_metadata, add_crossover_metadata, dsetdefault, dget_or, dmem.
  destruct (dget "evolution" isr) as [v|] eqn:E.
  - rewrite E. destruct v as [| | | | | |e]; try done. destruct (dget "crossovers" e) as [w|] eqn:Ec.
    + rewrite Ec. destruct w; try done. by eexists.
    + rewrite dget_dset_eq. by eexists.
  - rewrite dget_dset_eq. cbn. by eexists.
Qed.
Lemma offspring_built a b id_a choices name policy ctx role : dict_ok (base_of a b policy) -> takes_metadata (base_of a b policy) ->
  NoDup (map fst choices) -> (forall k, k ∈ map fst choices -> k ∈ ARCHITECTURAL_BLOCKS) ->
  exists d, build_offspring a b id_a choices name policy ctx role = Ok d.
Proof.
  intros Hb Ht Hnd Hks. apply metadata_added. unfold takes_metadata in *. fold (base_of a b policy).
  rewrite take_blocks_get by done. unfold without_blocks. rewrite dels_get, decide_False by (done || apply evolution_not_block).
  assert (dget "evolution" choices = None) as ->; [|done].
  apply dget_None. intros Hin. by apply evolution_not_block, Hks.
Qed.
Lemma recombined name select a b policy ctx blocks : dict_ok (base_of a b policy) -> takes_metadata (base_of a b policy) ->
  select a b ctx = Ok blocks -> NoDup blocks -> (forall k, k ∈ blocks -> k ∈ select_blocks a b) ->
  exists cs, recombine_blocks name select a b policy ctx = Ok cs.
Proof.
  intros Hb Ht Hsel Hnd Hsub. unfold recombine_blocks. unfold_monad. rewrite Hsel.
  set (choices := block_choices a b _ _ ctx blocks).
  assert (Hfst : forall g : string * string -> string, map fst (map (fun c => (c.1, g c.2)) choices) = blocks).
  { intros g. rewrite map_map. cbn. unfold choices, block_choices. apply imap_fst. }
  assert (Hbuild : forall (g : string * string -> string) role, exists d,
    build_offspring a b (default "parent_a" (rx_parent_candidate_ids ctx !! 0%nat)) (map (fun c => (c.1, g c.2)) choices) name policy ctx role = Ok d).
  { intros g role. apply offspring_built; [done|done|by rewrite Hfst|]. intros k. rewrite Hfst.
    by intros [? _]%Hsub%select_blocks_elem. }
  destruct (Hbuild fst "policy_block_child_one") as [one ->]. destruct (Hbuild snd "policy_block_child_two") as [two ->].
  by eexists.
Qed.

(** The value of the objective of a block for a parent. *)
Definition block_value (ctx : RecombinationContext) (id block : string) : option float :=
  objective_value (dget_or id (rx_objectives_by_parent ctx) []) (dget_or block BLOCK_TO_OBJECTIVE block).
Lemma better_parent_first a b ctx i k x y : dmem k a = true -> dmem k b = true ->
  block_value ctx (first_id ctx) k = Some x -> block_value ctx (second_id ctx) k = Some y ->
  (fltb y x = true -> (choose_block a b (first_id ctx) (second_id ctx) ctx i k).1 = first_id ctx) /\
  (fltb x y = true -> (choose_block a b (first_id ctx) (second_id ctx) ctx i k).1 = second_id ctx).
Proof.
  intros Ha Hb Hx Hy. unfold choose_block, choose_better_parent. rewrite Ha, Hb. cbn [andb].
  unfold block_value in Hx, Hy. rewrite Hx, Hy. cbn. split; intros Hlt.
  - destruct (feqb x y) eqn:E; [|by rewrite Hlt]. exfalso. apply feqb_spec in E. apply fltb_spec in Hlt. 
    destruct E as (? & ? & E), Hlt as (? & ? & Hlt). rewrite E in Hlt. by apply klt_irrefl in Hlt.
  - rewrite (fltb_asym _ _ Hlt). destruct (feqb x y) eqn:E; [|done]. exfalso. apply feqb_spec in E. apply fltb_spec in Hlt. 
    destruct E as (? & ? & E), Hlt as (? & ? & Hlt). rewrite E in Hlt. by apply klt_irrefl in Hlt.
Qed.

(** The policy-block crossover of two documents with different ids gives two
    children: each block comes from one parent, a block both parents have comes from
    different parents in the two children and, in the first, from the parent whose
    objective is better; a block one parent has comes from that parent in both;
    everything else but the evolution metadata is the base parent's. *)
Theorem policy_block_children a b policy ctx : dict_ok (base_of a b policy) -> takes_metadata (base_of a b policy) ->
  first_id ctx <> second_id ctx ->
  exists one two, policy_block_crossover a b policy ctx = Ok [one; two] /\
    crossed a b (base_of a b policy) (select_blocks a b) one two /\
    forall k x y, k ∈ ARCHITECTURAL_BLOCKS -> dmem k a = true -> dmem k b = true ->
      block_value ctx (first_id ctx) k = Some x -> block_value ctx (second_id ctx) k = Some y ->
      (fltb y x = true -> dget k one = present_value (dget k a)) /\
      (fltb x y = true -> dget k one = present_value (dget k b)).
Proof.
  intros Hb Ht Hne. set (select := fun a b (_ : RecombinationContext) => Ok (select_blocks a b)).
  destruct (recombined "policy_block" select a b policy ctx (select_blocks a b)) as [cs E]; try done; [apply select_blocks_distinct|].
  destruct (recombined_blocks "policy_block" select a b policy ctx (select_blocks a b) cs)
    as (one & two & -> & Hc & Hone); try done; [apply select_blocks_distinct|].
  exists one, two. split; [exact E|]. split; [done|]. intros k x y Hk Ha Hb' Hx Hy.
  destruct (Hone k) as (i & _ & ->); [apply select_blocks_elem; by rewrite Ha|].
  destruct (better_parent_first a b ctx i k x y Ha Hb' Hx Hy) as [H1 H2].
  split; intros Hlt; [rewrite H1, chosen_a by done|rewrite H2, chosen_b by done]; done.
Qed.

Section Genome.
Context `{Texts}.
(** Recombination guided by a genome loses every block whose family is not active
    in the genome: neither child has it, though the base parent may. *)
Theorem inactive_families_are_lost a b policy ctx g active cs : dict_ok (base_of a b policy) -> first_id ctx <> second_id ctx ->
  rx_genome ctx = Some g -> active_blocks g = Ok active -> active <> [] ->
  genome_guided_crossover a b policy ctx = Ok cs ->
  exists one two, cs = [one; two] /\
    crossed a b (base_of a b policy) (List.filter (fun block => mem block active) (select_blocks a b)) one two /\
    forall k, k ∈ ARCHITECTURAL_BLOCKS -> (k ∉ active) -> dget k one = None /\ dget k two = None.
Proof.
  intros Hb Hne Hg Ha Hact E. set (blocks := List.filter _ _).
  assert (Hsel : select_genome_blocks a b ctx = Ok blocks).
  { unfold select_genome_blocks. rewrite Hg. unfold_monad. destruct g as [|kv g]; [by injection Ha as <-|]. rewrite Ha.
    by destruct active. }
  destruct (recombined_blocks "genome_guided" select_genome_blocks a b policy ctx blocks cs)
    as (one & two & -> & Hc & _); try done.
  - apply NoDup_ListNoDup, List.NoDup_filter, NoDup_ListNoDup, select_blocks_distinct.
  - intros k. unfold blocks. rewrite !list_elem_of_In, filter_In. by intros [? _].
  - exists one, two. split; [done|]. split; [done|]. intros k Hk Hk'. apply (cr_lost _ _ _ _ _ _ Hc); [done|].
    unfold blocks. rewrite list_elem_of_In, filter_In, mem_true. by intros [_ ?].
Qed.
End Genome.

(** ** The offspring an engine makes *)

Section Offspring.
Context `{Surroundings, Digests, !DigestLaws, Texts}.

(** An offspring of the parents, at its place. *)
Definition offspring_id (operator id_a id_b : string) (index : nat) (isr : pydict) : string :=
  deterministic_id "offspring_candidate"
    [("operator", VStr operator); ("parent_a_id", VStr id_a); ("parent_b_id", VStr id_b);
     ("index", VInt (Z.of_nat index)); ("content_hash", VStr (digest (VDict isr)))].
Record offspring_of (operator id_a id_b base_hash : string) (index : nat) (isr : pydict) (o : OffspringCandidate) : Prop := {
  oo_isr : of_isr o = isr;
  oo_id : of_id o = offspring_id operator id_a id_b index isr;
  oo_hash : of_content_hash o = digest (VDict isr);
  oo_parents : of_parent_candidate_ids o = [id_a; id_b];
  oo_base : of_base_parent_candidate_id o = Some id_a /\ of_base_parent_content_hash o = Some base_hash;
}.
Lemma all_offspring_made operator id_a id_b base_hash max_offspring index isrs w : exists os w',
  all_offspring operator id_a id_b base_hash max_offspring index isrs w = (Ok os, w') /\
  map of_isr os = take (max_offspring - index) isrs /\
  forall j o, os !! j = Some o -> offspring_of operator id_a id_b base_hash (index + j) (of_isr o) o.
Proof.
  revert index w. induction isrs as [|isr isrs IH]; intros index w; cbn [all_offspring].
  - exists [], w. by rewrite take_nil.
  - destruct (Nat.leb_spec max_offspring index) as [Hle|Hlt].
    + exists [], w. replace (max_offspring - index)%nat with 0%nat by lia. done.
    + unfold make_offspring, timestamp, now. unfold_monad. cbn. set (w1 := _ : World).
      destruct (IH (S index) w1) as (os & w' & -> & Hos & Hj). do 2 eexists. split; [reflexivity|]. cbn [map of_isr]. split.
      * replace (max_offspring - index)%nat with (S (max_offspring - S index)) by lia. cbn. by rewrite Hos.
      * intros [|j] o; cbn [lookup list_lookup]; [intros [= <-]; rewrite Nat.add_0_r; by split|].
        intros Ho. replace (index + S j)%nat with (S index + j)%nat by lia. by apply Hj.
Qed.

(** Whatever operator an engine runs, the offspring it returns are its first
    documents, as many as the policy allows, each with the digest of its document
    and an id no other one has; they name the first parent as their base. *)
Theorem offspring_are_distinct operators parent_a parent_b policy s r s' :
  recombine_candidates operators parent_a parent_b policy s = (Ok r, s') ->
  let id_a := extract_candidate_id parent_a "parent_a" in
  let id_b := extract_candidate_id parent_b "parent_b" in
  exists operator isr_a isr_b context isrs w,
    dget (rn_operator (default default_recombination policy)) operators = Some operator /\
    xo_recombine operator isr_a isr_b (default default_recombination policy) context (rb_world s) = (Ok isrs, w) /\
    map of_isr (rr_offspring r) = take (rn_max_offspring (default default_recombination policy)) isrs /\
    NoDup (map of_id (rr_offspring r)) /\
    forall j o, rr_offspring r !! j = Some o ->
      offspring_of (xo_name operator) id_a id_b (extract_content_hash parent_a isr_a) j (of_isr o) o.
Proof.
  intros E id_a id_b. revert E. unfold recombine_candidates. unfold_monad. fold id_a id_b.
  destruct (extract_isr parent_a) as [isr_a|]; [|done]. destruct (extract_isr parent_b) as [isr_b|]; [|done].
  set (context := match rb_context s with None => _ | Some c => _ end).
  destruct (dget _ operators) as [operator|]; [|done]. cbn [rb_world].
  destruct (xo_recombine operator isr_a isr_b _ context (rb_world s)) as [[isrs|] w] eqn:Ex; [|done]. cbn [rb_world put_rb_world].
  destruct (all_offspring_made (xo_name operator) id_a id_b (extract_content_hash parent_a isr_a)
              (rn_max_offspring (default default_recombination policy)) 0 isrs w) as (os & w' & -> & Hos & Hj).
  intros [= <- <-]. exists operator, isr_a, isr_b, context, isrs, w. cbn [rr_offspring]. split_and!; try done.
  - by rewrite Nat.sub_0_r in Hos.
  - apply NoDup_alt. intros i j x. change (map of_id os) with (of_id <$> os). rewrite !list_lookup_fmap.
    destruct (os !! i) as [oi|] eqn:Ei; [|done]. destruct (os !! j) as [oj|] eqn:Ej; [|done]. cbn. intros [= <-] [= Eid].
    rewrite (oo_id _ _ _ _ _ _ _ (Hj _ _ Ei)), (oo_id _ _ _ _ _ _ _ (Hj _ _ Ej)) in Eid.
    apply deterministic_id_injective in Eid.
    assert (E' : VInt (Z.of_nat (0 + j)) = VInt (Z.of_nat (0 + i))).
    { exact (f_equal (fun v => match v with VDict d => nth 1 (map snd d) VNone | _ => VNone end) Eid). }
    injection E'. lia.
Qed.
End Offspring.

(** ** Diverse candidates *)

Lemma shared_count (l r : list string) :
  (length (List.filter (fun x => mem x r) l) <= length (l ++ List.filter (fun x => negb (mem x l)) r))%nat.
Proof. rewrite length_app. pose proof (List.filter_length_le (fun x => mem x r) l). lia. Qed.
(** The similarity of two sets is between 0 and 1. *)
Lemma jaccard_in_unit l r : in_unit (jaccard_similarity l r).
Proof.
  assert (Hone : in_unit fone) by (vm_compute; split; [done|done]).
  unfold jaccard_similarity. pose proof (shared_count l r) as Hc.
  assert (Hu : l <> [] \/ r <> [] -> (0 < length (l ++ List.filter (fun x => negb (mem x l)) r))%nat).
  { intros Hne. rewrite length_app. destruct l as [|x l]; [|cbn; lia]. rewrite filter_all by (intros z _; by apply negb_true_iff, mem_false, not_elem_of_nil).
    destruct r; [naive_solver|cbn; lia]. }
  revert Hc Hu. set (n := length (List.filter _ _)). set (u := length (_ ++ _)). intros Hc Hu.
  assert (Hr : (0 < u)%nat -> in_unit (of_ratio (Z.of_nat n) (Pos.of_nat u))) by (intros; apply ratio_in_unit; lia).
  destruct l as [|x l], r as [|y r]; [exact Hone|apply Hr, Hu; by right|apply Hr, Hu; by left..].
Qed.
Lemma similarity_in_unit features a b : in_unit (similarity features a b).
Proof. unfold similarity. destruct (dget a features); [|done]. destruct (dget b features); [apply jaccard_in_unit|done]. Qed.

(** A distance is a number that is at least -1. *)
Definition distance (d : float) : Prop := is_nan d = false /\ fltb d (of_Z (-1)) = false.
Lemma min_distance_ok features references id : distance (min_distance features references id).
Proof.
  unfold min_distance. assert (Hone : distance fone) by (split; vm_compute; reflexivity). revert Hone.
  match goal with |- context [fold_left ?f] => set (nearer := f) end. generalize fone.
  induction references as [|r rs IH]; intros best Hb; cbn [fold_left]; [done|]. apply IH. unfold nearer.
  destruct (fltb _ best) eqn:E; [|done]. split; [by apply fltb_nan_false in E as [? _]|].
  apply nonneg_above, one_minus_unit, similarity_in_unit.
Qed.

Section Best.
Context (features : feature_table) (references : list string).
Let d := min_distance features references.

(** The candidate is at least as far away as the others, and the first of those that
    are as far. *)
Definition beats (x y : string) : Prop := fltb (d x) (d y) = false /\ (feqb (d y) (d x) = true -> str_leb x y = true).
Definition best_of (seen : list string) (best : option string * float) : Prop :=
  match best.1 with
  | None => seen = [] /\ best.2 = of_Z (-1)
  | Some x => best.2 = d x /\ x ∈ seen /\ forall y, y ∈ seen -> beats x y
  end.

Lemma not_less x y z : ~ is_nan (d y) = true -> fltb (d x) (d y) = false -> fltb (d x) (d z) = true -> fltb (d y) (d z) = true.
Proof.
  intros Hy Hxy Hxz. apply not_true_is_false in Hy. pose proof (fltb_nan_false _ _ Hxz) as [Hx _].
  eapply fleb_fltb_trans; [by apply not_ltb_fleb; [exact Hx|exact Hy|exact Hxy]|done].
Qed.
Lemma equal_not_less x y : feqb x y = true -> fltb x y = false /\ fltb y x = false.
Proof.
  intros (_ & _ & E)%feqb_spec. split; apply not_true_is_false; intros (_ & _ & Hl)%fltb_spec; rewrite E in Hl; by apply klt_irrefl in Hl.
Qed.
Lemma trichotomy x y : is_nan x = false -> is_nan y = false -> fltb x y = true \/ feqb x y = true \/ fltb y x = true.
Proof.
  intros Hx Hy. rewrite !fltb_spec, feqb_spec. destruct (klt_dec (fkey x) (fkey y)) as [|[|]]; auto.
Qed.
Lemma better_step seen best id : best_of seen best -> best_of (seen ++ [id]) (better features references best id).
Proof.
  unfold better. fold (d id). destruct (min_distance_ok features references id) as [Hn Hl]. fold (d id) in Hn, Hl.
  assert (Hself : forall x, beats x x).
  { intros x. split; [apply fltb_irrefl|intros _; apply str_leb_refl]. }
  destruct best as [[x|] b]; unfold best_of at 1; cbn [fst snd].
  - intros (-> & Hx & Hb). destruct (min_distance_ok features references x) as [Hnx _]. fold (d x) in Hnx.
    destruct (fltb (d x) (d id)) eqn:E1; [|destruct (feqb (d id) (d x)) eqn:E2; [destruct (str_ltb id x) eqn:E3|]]; cbn [orb andb].
    + split; [done|]. split; [apply elem_of_app; right; by left|]. intros y [Hy|Hy%list_elem_of_singleton]%elem_of_app; [|subst y; apply Hself].
      destruct (Hb y Hy) as [Hxy _]. destruct (min_distance_ok features references y) as [Hny _]. fold (d y) in Hny.
      assert (Hlt : fltb (d y) (d id) = true) by (apply (not_less x y id); congruence).
      split; [by apply fltb_asym|]. intros Heq. apply equal_not_less in Heq as [? _]. congruence.
    + split; [done|]. split; [apply elem_of_app; right; by left|]. intros y [Hy|Hy%list_elem_of_singleton]%elem_of_app; [|subst y; apply Hself].
      destruct (Hb y Hy) as [Hxy Hty]. apply feqb_spec in E2 as (_ & _ & Ek). split.
      * apply not_true_is_false. intros (? & ? & Hlt)%fltb_spec. rewrite Ek in Hlt.
        assert (fltb (d x) (d y) = true) by (by apply fltb_spec). congruence.
      * intros (? & ? & Eky)%feqb_spec. assert (Hxy' : str_leb x y = true) by (apply Hty, feqb_spec; split_and!; congruence).
        apply (str_leb_trans id x y); [|done]. revert E3. unfold str_ltb, str_leb. by destruct (String.compare id x).
    + split; [done|]. split; [apply elem_of_app; by left|]. intros y [Hy|Hy%list_elem_of_singleton]%elem_of_app; [by apply Hb|subst y].
      split; [done|]. intros _. revert E3. unfold str_ltb, str_leb. rewrite (String.compare_antisym id x). by destruct (String.compare x id).
    + split; [done|]. split; [apply elem_of_app; by left|]. intros y [Hy|Hy%list_elem_of_singleton]%elem_of_app; [by apply Hb|subst y].
      split; [done|]. congruence.
  - intros [-> ->]. assert (Hpick : fltb (of_Z (-1)) (d id) || feqb (d id) (of_Z (-1)) && true = true).
    { destruct (trichotomy (d id) (of_Z (-1))) as [E|[E|E]]; [done|by vm_compute|congruence|by rewrite E, orb_true_r|by rewrite E]. }
    rewrite Hpick. split; [done|]. split; [by left|]. intros y Hy%list_elem_of_singleton. subst y. apply Hself.
Qed.
Lemma best_fold ids seen best : best_of seen best -> best_of (seen ++ ids) (fold_left (better features references) ids best).
Proof.
  revert seen best. induction ids as [|id ids IH]; intros seen best Hb; cbn [fold_left]; [by rewrite app_nil_r|].
  replace (seen ++ id :: ids) with ((seen ++ [id]) ++ ids) by (by rewrite <- app_assoc). apply IH. by apply better_step.
Qed.
Lemma best_candidate_spec remaining : remaining <> [] -> exists x, best_candidate features references remaining = Some x /\
  x ∈ remaining /\ forall y, y ∈ remaining -> beats x y.
Proof.
  intros Hr. unfold best_candidate. pose proof (best_fold (sort_by str_leb remaining) [] (None, of_Z (-1))) as Hb.
  specialize (Hb (conj eq_refl eq_refl)). cbn [app] in Hb. destruct (fold_left _ _ _) as [[x|] b]; cbn [fst]; unfold best_of in Hb; cbn [fst snd] in Hb.
  - destruct Hb as (_ & Hx & Hb). exists x. split; [done|]. setoid_rewrite sort_by_elem in Hb. by rewrite sort_by_elem in Hx.
  - destruct Hb as [Hs _]. exfalso. apply Hr. pose proof (sort_by_perm str_leb remaining) as Hp. rewrite Hs in Hp. by apply Permutation_nil_l in Hp.
Qed.
End Best.

(** The candidates picked from the remaining ones, after the references. *)
Record picked (features : feature_table) (count : Z) (references remaining picks : list string) : Prop := {
  pk_distinct : NoDup picks;
  pk_members x : x ∈ picks -> x ∈ remaining;
  pk_count : Z.of_nat (length picks) = Z.min (Z.max 0 count) (Z.of_nat (length remaining));
  pk_best i x y : picks !! i = Some x -> y ∈ remaining -> (y ∉ take i picks) -> beats features (references ++ take i picks) x y;
}.
Lemma filter_one (x : string) (xs : list string) : NoDup xs -> x ∈ xs ->
  NoDup (List.filter (fun y => negb (bool_decide (y = x))) xs) /\
  (forall y, y ∈ List.filter (fun y => negb (bool_decide (y = x))) xs <-> y ∈ xs /\ y <> x) /\
  length xs = S (length (List.filter (fun y => negb (bool_decide (y = x))) xs)).
Proof.
  intros Hnd Hx. assert (Hin : forall y, y ∈ List.filter (fun y => negb (bool_decide (y = x))) xs <-> y ∈ xs /\ y <> x).
  { intros y. rewrite !list_elem_of_In, filter_In. by rewrite negb_true_iff, bool_decide_eq_false. }
  assert (Hf : NoDup (List.filter (fun y => negb (bool_decide (y = x))) xs)) by (by apply NoDup_ListNoDup, List.NoDup_filter, NoDup_ListNoDup).
  split; [done|]. split; [done|]. set (f := List.filter _ xs) in *. change (length xs = length (x :: f)).
  apply Permutation_length, NoDup_Permutation; [done| |].
  - apply NoDup_cons. split; [|done]. rewrite Hin. by intros [_ ?].
  - intros y. rewrite elem_of_cons, Hin. destruct (decide (y = x)) as [->|]; naive_solver.
Qed.
Lemma select_loop_picks features max_select fuel remaining selected references : NoDup remaining -> (length remaining <= fuel)%nat ->
  exists picks, select_loop features max_select fuel remaining selected references = selected ++ picks /\
    picked features (max_select - Z.of_nat (length selected)) references remaining picks.
Proof.
  revert remaining selected references. induction fuel as [|fuel IH]; intros remaining selected references Hnd Hf; cbn [select_loop].
  - exists []. rewrite app_nil_r. split; [done|]. destruct remaining; [|cbn in Hf; lia].
    split; [constructor|done|cbn; lia|done].
  - assert (Hnone : (max_select - Z.of_nat (length selected) <= 0 \/ remaining = []) ->
      picked features (max_select - Z.of_nat (length selected)) references remaining []).
    { intros Hz. split; [constructor|by intros ? ?%elem_of_nil|destruct Hz as [|Hz]; [|rewrite Hz]; cbn; lia|done]. }
    destruct remaining as [|r rs] eqn:Er; [exists []; rewrite app_nil_r; auto|]. rewrite <- Er in *.
    assert (Hne : remaining <> []) by (by rewrite Er). clear Er r rs.
    destruct (Z.leb_spec max_select (Z.of_nat (length selected))) as [Hle|Hlt]; [exists []; rewrite app_nil_r; split; [done|apply Hnone; left; lia]|].
    destruct (best_candidate_spec features references remaining Hne) as (x & -> & Hx & Hbest).
    destruct (filter_one x remaining Hnd Hx) as (Hnd' & Hin & Hlen).
    destruct (IH (List.filter (fun y => negb (bool_decide (y = x))) remaining) (selected ++ [x]) (references ++ [x]) Hnd')
      as (picks & -> & [P1 P2 P3 P4]); [lia|]. exists (x :: picks). rewrite <- app_assoc. split; [done|]. split.
    + apply NoDup_cons. split; [|done]. intros [_ Hn]%P2%Hin. done.
    + intros y [->|Hy]%elem_of_cons; [done|]. by apply P2, Hin in Hy as [? _].
    + rewrite length_app in P3. cbn [length] in *. lia.
    + intros [|i] z y; cbn [lookup list_lookup take].
      * intros [= <-] Hy _. rewrite app_nil_r. by apply Hbest.
      * intros Hz Hy Hn. replace (references ++ x :: take i picks) with ((references ++ [x]) ++ take i picks) by (by rewrite <- app_assoc).
        apply P4; [done|apply Hin; split; [done|]|]; [|intros ?; apply Hn; by right]. intros ->. apply Hn. by left.
Qed.

(** The selection of diverse candidates ends with distinct candidates, as many as
    asked for or else all of them; each is, when it is selected, at least as far
    from the references and the candidates selected before as every candidate that
    is left, and the first by name of those as far. *)
Theorem selection_is_greedy features ids max_select existing :
  picked features max_select existing (remove_dups ids) (select_diverse features ids max_select existing).
Proof.
  unfold select_diverse. destruct (select_loop_picks features max_select (length (remove_dups ids)) (remove_dups ids) [] existing)
    as (picks & -> & Hp); [apply NoDup_remove_dups|done|]. cbn [app length Z.of_nat] in *. by rewrite Z.sub_0_r in Hp.
Qed.

(** ** The domain crossover keeps APIs *)

(** *** Tables by name *)

Definition is_text (v : pyval) : Prop := exists s, v = VStr s.
Lemma text_eq s t : py_eq (VStr s) (VStr t) = bool_decide (s = t).
Proof. done. Qed.
Lemma texts_comparable vs : Forall is_text vs -> comparable vs = true.
Proof.
  intros Hv. unfold comparable. assert (forallb (fun v => match v with VStr _ => true | _ => false end) vs = true) as ->; [|by rewrite orb_true_r].
  apply forallb_forall. intros v Hin%list_elem_of_In. rewrite Forall_forall in Hv. by destruct (Hv v Hin) as [s ->].
Qed.
Lemma sorted_on_texts {A} (key : A -> pyval) xs : Forall is_text (map key xs) -> exists ys, sorted_on key xs = Ok ys /\ ys ≡ₚ xs.
Proof. intros Hk. unfold sorted_on. rewrite texts_comparable by done. eexists. split; [done|apply sort_by_perm]. Qed.

Section Table.
Context (t : list (pyval * pydict)) (Ht : Forall is_text (map fst t)).
Lemma tget_some s d : tget (VStr s) t = Some d -> (VStr s, d) ∈ t.
Proof.
  clear -Ht. induction t as [|[k d'] t' IH]; cbn [tget]; [done|]. cbn in Ht. inversion Ht as [|? ? [s' ->] Ht']; subst.
  rewrite text_eq. case_bool_decide; [intros [= ->]; subst; by left|]. intros ?. right. auto.
Qed.
Lemma tget_none s : tget (VStr s) t = None -> VStr s ∉ map fst t.
Proof.
  clear -Ht. induction t as [|[k d'] t' IH]; cbn [tget]; [intros _; apply not_elem_of_nil|]. cbn in Ht. inversion Ht as [|? ? [s' ->] Ht']; subst.
  rewrite text_eq. case_bool_decide; [done|]. intros Hn. cbn. apply not_elem_of_cons. split; [congruence|auto].
Qed.
Lemma tset_fresh s d : VStr s ∉ map fst t -> tset (VStr s) d t = t ++ [(VStr s, d)].
Proof.
  clear -Ht. induction t as [|[k d'] t' IH]; cbn [tset]; [done|]. cbn in Ht. inversion Ht as [|? ? [s' ->] Ht']; subst.
  cbn [map fst]. intros [Hne Hn]%not_elem_of_cons. rewrite text_eq, bool_decide_eq_false_2 by congruence. by rewrite IH.
Qed.
Lemma tset_present s d : VStr s ∈ map fst t -> NoDup (map fst t) -> map fst (tset (VStr s) d t) = map fst t /\
  forall k d', (k, d') ∈ tset (VStr s) d t <-> (k = VStr s /\ d' = d) \/ (k <> VStr s /\ (k, d') ∈ t).
Proof.
  clear -Ht. induction t as [|[k d0] t' IH]; cbn [tset map fst]; [by intros ?%elem_of_nil|]. cbn in Ht. inversion Ht as [|? ? [s' ->] Ht']; subst.
  intros Hin [Hn Hnd]%NoDup_cons. rewrite text_eq. case_bool_decide as Hs.
  - subst s'. split; [done|]. intros k d'. rewrite !elem_of_cons.
    assert (Hk : (k, d') ∈ t' -> k <> VStr s) by (intros Hk ->; apply Hn; by apply (list_elem_of_fmap_2 fst) in Hk).
    naive_solver.
  - apply elem_of_cons in Hin as [Hin|Hin]; [congruence|]. destruct (IH Ht' Hin Hnd) as [E1 E2]. cbn [map fst]. rewrite E1. split; [done|].
    intros k d'. rewrite !elem_of_cons, E2. naive_solver.
Qed.
End Table.

(** *** Merging named items *)

Section Merging.
Context (normalize : pyval -> pydict) (merge : pydict -> pydict -> res pydict).
(** Well-formed items, and what they offer. *)
Context (P : pydict -> Prop) (offers : pydict -> string -> Prop).
Context (P_named : forall d, P d -> is_text (name_of d)).
Context (merge_good : forall d e, P d -> P e -> exists m, merge d e = Ok m /\ P m /\ name_of m = name_of d /\
  (forall x, offers d x -> offers m x) /\ forall x, offers e x -> offers m x).

Definition names (xs : list pyval) : list pyval := map (fun x => name_of (normalize x)) xs.
Record table_ok (t : list (pyval * pydict)) : Prop := {
  tk_rows k d : (k, d) ∈ t -> P d /\ name_of d = k;
  tk_distinct : NoDup (map fst t);
}.
Definition covers (t : list (pyval * pydict)) (d : pydict) : Prop :=
  exists k d', (k, d') ∈ t /\ forall x, offers d x -> offers d' x.
Lemma table_texts t : table_ok t -> Forall is_text (map fst t).
Proof.
  intros [Hr _]. apply Forall_forall. intros k ([k' d] & -> & Hk)%list_elem_of_fmap. destruct (Hr _ _ Hk) as [Hd <-]. by apply P_named.
Qed.
Lemma hashed_text v : is_text v -> hashed v = Ok v.
Proof. by intros [s ->]. Qed.

Lemma add_base_good xs t : table_ok t -> Forall (fun x => P (normalize x)) xs -> NoDup (names xs) ->
  (forall k, k ∈ names xs -> k ∉ map fst t) ->
  exists t', add_base normalize xs t = Ok t' /\ table_ok t' /\
    (forall r, r ∈ t -> r ∈ t') /\ forall x, x ∈ xs -> (name_of (normalize x), normalize x) ∈ t'.
Proof.
  revert t. induction xs as [|x xs IH]; intros t Hok HP Hnd Hfresh; cbn [add_base].
  - exists t. split_and!; [done|done|auto|by intros ? ?%elem_of_nil].
  - inversion HP as [|? ? Hx HP']; subst. cbn in Hnd. apply NoDup_cons in Hnd as [Hx' Hnd].
    pose proof (P_named _ Hx) as [s Es]. rewrite hashed_text by (by eexists). unfold_monad. rewrite Es in *.
    assert (Hs : VStr s ∉ map fst t) by (apply Hfresh; cbn; rewrite Es; by left).
    rewrite tset_fresh by (done || by apply table_texts).
    destruct (IH (t ++ [(VStr s, normalize x)])) as (t' & E & Hok' & Hk & Hin); [| |done| |].
    + split.
      * intros k d [Hr|[= -> ->]%list_elem_of_singleton]%elem_of_app; [by apply Hok|done].
      * rewrite map_app. apply NoDup_app. split_and!; [apply Hok| |by apply NoDup_singleton].
        by intros k Hk ->%list_elem_of_singleton.
    + done.
    + intros k Hk. rewrite map_app. intros [Hr| ->%list_elem_of_singleton]%elem_of_app; [|done]. revert Hr. apply Hfresh. by right.
    + exists t'. split_and!; [done|done|intros r Hr; apply Hk, elem_of_app; by left|].
      intros y [->|Hy]%elem_of_cons; [|by apply Hin]. rewrite Es. apply Hk, elem_of_app. right. by left.
Qed.

Lemma covers_mono t t' d : (forall k d, (k, d) ∈ t -> exists d', (k, d') ∈ t' /\ forall x, offers d x -> offers d' x) ->
  covers t d -> covers t' d.
Proof. intros Ht (k & d' & Hd & Ho). destruct (Ht _ _ Hd) as (d2 & ? & ?). exists k, d2. auto. Qed.
Lemma add_other_good ys t : table_ok t -> Forall (fun y => P (normalize y)) ys ->
  exists t', add_other normalize merge ys t = Ok t' /\ table_ok t' /\
    (forall d, covers t d -> covers t' d) /\ forall y, y ∈ ys -> covers t' (normalize y).
Proof.
  revert t. induction ys as [|y ys IH]; intros t Hok HP; cbn [add_other].
  - exists t. split_and!; [done|done|auto|by intros ? ?%elem_of_nil].
  - inversion HP as [|? ? Hy HP']; subst. pose proof (P_named _ Hy) as [s Es]. rewrite hashed_text by (by eexists).
    unfold_monad. pose proof (table_texts t Hok) as Htext. rewrite Es.
    assert (Hnext : forall t1, table_ok t1 -> (forall k d, (k, d) ∈ t -> exists d', (k, d') ∈ t1 /\ forall x, offers d x -> offers d' x) ->
      covers t1 (normalize y) -> exists t', add_other normalize merge ys t1 = Ok t' /\ table_ok t' /\
        (forall d, covers t d -> covers t' d) /\ forall z, z ∈ y :: ys -> covers t' (normalize z)).
    { intros t1 Hok1 Hmono Hcov. destruct (IH t1 Hok1 HP') as (t' & E & Hok' & Hc & Hall). exists t'.
      split_and!; [done|done|intros d Hd; by eapply Hc, covers_mono|]. intros z [->|Hz]%elem_of_cons; auto. }
    destruct (tget (VStr s) t) as [d|] eqn:Et.
    + apply tget_some in Et; [|done]. destruct (tk_rows _ Hok _ _ Et) as [Hd Hdn].
      destruct (merge_good d (normalize y) Hd Hy) as (m & -> & Hm & Hmn & Hdm & Hym).
      assert (Hin : VStr s ∈ map fst t) by (by apply (list_elem_of_fmap_2 fst) in Et).
      destruct (tset_present t Htext s m Hin (tk_distinct _ Hok)) as [Ek Hset]. apply Hnext.
      * split; [|rewrite Ek; apply Hok]. intros k d'. rewrite Hset. intros [[-> ->]|[_ Hr]]; [split; [done|congruence]|by apply Hok].
      * intros k d' Hr. destruct (P_named d') as [s' Es']; [by apply (tk_rows _ Hok _ _ Hr)|].
        assert (k = VStr s') as -> by (rewrite <- Es'; symmetry; by apply (tk_rows _ Hok _ _ Hr)).
        destruct (decide (s' = s)) as [->|Hne]; [|exists d'; split; [apply Hset; right; split; [congruence|done]|auto]].
        exists m. split; [apply Hset; by left|]. intros x Hx.
        assert (d' = d) as ->; [|auto]. pose proof (tk_distinct _ Hok) as Hnd. clear -Hr Et Hnd.
        induction t as [|[k0 d0] t IH]; [by apply elem_of_nil in Hr|]. cbn in Hnd. apply NoDup_cons in Hnd as [Hn Hnd].
        rewrite elem_of_cons in Hr, Et. destruct Hr as [Hr|Hr], Et as [Et|Et]; [congruence| | |auto]; exfalso; apply Hn.
        -- injection Hr as <- <-. by apply (list_elem_of_fmap_2 fst) in Et.
        -- injection Et as <- <-. by apply (list_elem_of_fmap_2 fst) in Hr.
      * exists (VStr s), m. split; [apply Hset; by left|done].
    + apply tget_none in Et; [|done]. rewrite tset_fresh by done. apply Hnext.
      * split; [intros k d [Hr|[= -> ->]%list_elem_of_singleton]%elem_of_app; [by apply Hok|done]|].
        rewrite map_app. apply NoDup_app. split_and!; [apply Hok| |by apply NoDup_singleton]. by intros k Hk ->%list_elem_of_singleton.
      * intros k d Hr. exists d. split; [apply elem_of_app; by left|auto].
      * exists (VStr s), (normalize y). split; [apply elem_of_app; right; by left|auto].
Qed.

Lemma merge_named_good base other xs ys : iter_of base = Ok xs -> iter_of other = Ok ys ->
  Forall (fun x => P (normalize x)) xs -> Forall (fun y => P (normalize y)) ys -> NoDup (names xs) ->
  exists ds, merge_named normalize merge base other = Ok (map VDict ds) /\ Forall P ds /\ NoDup (map name_of ds) /\
    forall z, (z ∈ xs) \/ z ∈ ys -> exists d, d ∈ ds /\ forall x, offers (normalize z) x -> offers d x.
Proof.
  intros Ex Ey Hx Hy Hnd. unfold merge_named. unfold_monad. rewrite Ex.
  destruct (add_base_good xs []) as (t & -> & Hok & _ & Hbase); [split; [by intros ? ? ?%elem_of_nil|constructor]|done|done|intros; apply not_elem_of_nil|].
  rewrite Ey. destruct (add_other_good ys t Hok Hy) as (t' & -> & Hok' & Hmono & Hother).
  assert (Hrow : forall d, d ∈ dvalues t' -> exists k, (k, d) ∈ t') by (intros d Hd; by apply elem_dvalues in Hd).
  destruct (sorted_on_texts name_of (dvalues t')) as (ds & -> & Hp).
  { apply Forall_forall. intros k (d & -> & Hd)%list_elem_of_fmap. apply Hrow in Hd as [k Hd]. by apply P_named, (tk_rows _ Hok' _ _ Hd). }
  exists ds. split; [done|]. split; [|split].
  - rewrite Hp. apply Forall_forall. intros d [k Hd]%Hrow. by apply (tk_rows _ Hok' _ _ Hd).
  - rewrite Hp. assert (map name_of (dvalues t') = map fst t') as ->; [|apply Hok'].
    unfold dvalues. rewrite map_map. apply map_ext_in. intros [k d] Hd%list_elem_of_In. by apply (tk_rows _ Hok' _ _ Hd).
  - assert (Hcov : forall d0, covers t' d0 -> exists d, d ∈ ds /\ forall x, offers d0 x -> offers d x).
    { intros d0 (k & d & Hd & Ho). exists d. split; [|done]. rewrite Hp. apply elem_dvalues. by exists k. }
    intros z [Hz|Hz]; apply Hcov; [|by apply Hother]. apply Hmono. exists (name_of (normalize z)), (normalize z). auto.
Qed.
End Merging.

(** *** Services and domains *)

Section Keeps.
Context `{Texts}.

(** An API is a text or a dict with a name. *)
Definition plain_api (api : pyval) : Prop :=
  match api with VStr _ => True | VDict d => val_truthy (dget_or "name" d VNone) = true | _ => False end.
Record plain_service (d : pydict) : Prop := {
  ps_name : exists s, dget "name" d = Some (VStr s);
  ps_apis : exists xs, iter_of (get_or_empty "apis" d) = Ok xs /\ Forall plain_api xs;
  ps_depends : exists ds, iter_of (get_or_empty "depends_on" d) = Ok ds /\ Forall is_text ds;
}.
Definition service_offers (d : pydict) (x : string) : Prop :=
  exists xs api, iter_of (get_or_empty "apis" d) = Ok xs /\ api ∈ xs /\ x ∈ (api_names api).1.
Record plain_domain (d : pydict) : Prop := {
  pd_name : exists s, dget "name" d = Some (VStr s);
  pd_services : exists ss, iter_of (get_or_empty "services" d) = Ok ss /\
    Forall (fun s => plain_service (normalize_service s)) ss /\ NoDup (names normalize_service ss);
}.
Definition domain_offers (d : pydict) (x : string) : Prop :=
  exists ss s, iter_of (get_or_empty "services" d) = Ok ss /\ s ∈ ss /\ service_offers (normalize_service s) x.

Lemma plain_api_name api : plain_api api -> api_names api = ([api_name api], None).
Proof.
  destruct api as [| | | |s| |d]; try done. cbn. unfold dget_or. destruct (dget "name" d) as [v|]; [|done]. by intros ->.
Qed.
Lemma get_or_empty_list k vs d : get_or_empty k (dset k (VList vs) d) = VList vs.
Proof. unfold get_or_empty, dget_or. rewrite dget_dset_eq. by destruct vs. Qed.
Lemma get_or_empty_other k k' v d : k <> k' -> get_or_empty k (dset k' v d) = get_or_empty k d.
Proof. intros Hk. unfold get_or_empty, dget_or. by rewrite dget_dset_ne. Qed.
Lemma name_other k v d : "name" <> k -> name_of (dset k v d) = name_of d.
Proof. intros Hk. unfold name_of, dget_or. by rewrite dget_dset_ne. Qed.

Lemma merged_apis base other xs ys : iter_of base = Ok xs -> iter_of other = Ok ys -> Forall plain_api xs -> Forall plain_api ys ->
  exists zs, merge_apis base other = Ok zs /\ Forall plain_api zs /\
    forall api, (api ∈ xs) \/ api ∈ ys -> exists api', api' ∈ zs /\ api_name api' = api_name api.
Proof.
  intros Ex Ey Hx Hy. unfold merge_apis. unfold_monad. rewrite Ex, Ey.
  set (step := fun (acc : list pyval * list string) api => _).
  assert (Hall : forall ys zs, Forall plain_api ys -> Forall plain_api zs ->
    let r := (fold_left step ys (zs, map api_name zs)).1 in
    Forall plain_api r /\ (forall api, api ∈ zs -> api ∈ r) /\
    forall api, api ∈ ys -> exists api', api' ∈ r /\ api_name api' = api_name api).
  { clear. induction ys as [|y ys IH]; intros zs Hy Hz; cbn [fold_left]; [split_and!; [done|auto|by intros ? ?%elem_of_nil]|].
    inversion Hy as [|? ? Py Hy']; subst. unfold step at 2 4 6. cbn [fst snd]. case_match eqn:Em.
    - destruct (IH zs Hy' Hz) as (H1 & H2 & H3). split_and!; [done|done|]. intros api [->|Ha]%elem_of_cons; [|by apply H3].
      apply mem_true, list_elem_of_fmap in Em as (api' & E & Hin). exists api'. auto.
    - replace (map api_name zs ++ [api_name y]) with (map api_name (zs ++ [y])) by (by rewrite map_app).
      destruct (IH (zs ++ [y]) Hy') as (H1 & H2 & H3); [by apply Forall_app; auto|]. split_and!; [done| |].
      + intros api Ha. apply H2, elem_of_app. by left.
      + intros api [->|Ha]%elem_of_cons; [|by apply H3]. exists y. split; [apply H2, elem_of_app; right; by left|done]. }
  destruct (Hall ys xs Hy Hx) as (H1 & H2 & H3). eexists. split; [done|]. split; [done|].
  intros api [Ha|Ha]; [exists api; auto|by apply H3].
Qed.

Lemma text_set v xs : iter_of v = Ok xs -> Forall is_text xs -> exists s, py_set v = Ok s /\ Forall is_text s.
Proof.
  intros Ev Hx. unfold py_set. unfold_monad. rewrite Ev. assert (map_res hashed xs = Ok xs) as ->.
  { rewrite (map_res_ok hashed id); [by rewrite map_id|]. intros v' Hin. rewrite Forall_forall in Hx. by destruct (Hx v' Hin) as [s ->]. }
  eexists. split; [done|]. assert (Hs : Forall is_text []) by constructor. revert Hs. generalize (@nil pyval). clear Ev.
  induction xs as [|x xs IH]; intros s Hs; cbn [fold_left]; [done|]. inversion Hx; subst. apply IH; [done|].
  unfold add_member. case_match; [done|]. apply Forall_app. auto.
Qed.
Lemma text_union s t : Forall is_text s -> Forall is_text t -> Forall is_text (set_union s t).
Proof.
  unfold set_union. revert s. induction t as [|x t IH]; intros s Hs Ht; cbn [fold_left]; [done|]. inversion Ht; subst. apply IH; [|done].
  unfold add_member. case_match; [done|]. apply Forall_app. auto.
Qed.

Lemma merged_service d e : plain_service d -> plain_service e -> exists m, merge_service d e = Ok m /\ plain_service m /\
  name_of m = name_of d /\ (forall x, service_offers d x -> service_offers m x) /\ forall x, service_offers e x -> service_offers m x.
Proof.
  intros [Dn (xs & Ex & Hx) (ds & Ed & Hd)] [En (ys & Ey & Hy) (es & Ee & He)]. unfold merge_service. unfold_monad.
  destruct (merged_apis _ _ _ _ Ex Ey Hx Hy) as (zs & -> & Hz & Hin). rewrite get_or_empty_other by done.
  destruct (text_set _ _ Ed Hd) as (s & -> & Hs). destruct (text_set _ _ Ee He) as (t & -> & Ht).
  destruct (sorted_on_texts id (set_union s t)) as (u & -> & Hu); [rewrite map_id; by apply text_union|].
  eexists. split; [done|].
  assert (Hapis : iter_of (get_or_empty "apis" (dset "depends_on" (VList u) (dset "apis" (VList zs) d))) = Ok zs)
    by (rewrite get_or_empty_other, get_or_empty_list by done; done).
  assert (Hoffer : forall api x, (api ∈ xs) \/ api ∈ ys -> x ∈ (api_names api).1 ->
    service_offers (dset "depends_on" (VList u) (dset "apis" (VList zs) d)) x).
  { intros api x Ha Hxa. destruct (Hin api Ha) as (api' & Ha' & Eapi). exists zs, api'. split_and!; [done|done|].
    rewrite Forall_forall in Hx, Hy, Hz. assert (Hp : plain_api api) by (destruct Ha; auto).
    rewrite (plain_api_name _ Hp) in Hxa. rewrite (plain_api_name _ (Hz _ Ha')), Eapi. done. }
  split_and!.
  - split; [by rewrite !dget_dset_ne|by exists zs|]. exists u. rewrite get_or_empty_list. split; [done|]. rewrite Hu. by apply text_union.
  - by rewrite !name_other.
  - intros x (xs' & api & E & Ha & Hxa). rewrite Ex in E. injection E as <-. eapply Hoffer; [by left|done].
  - intros x (ys' & api & E & Ha & Hxa). rewrite Ey in E. injection E as <-. eapply Hoffer; [by right|done].
Qed.

Lemma named_text d s : dget "name" d = Some (VStr s) -> is_text (name_of d).
Proof. intros E. unfold name_of, dget_or. rewrite E. by exists s. Qed.

(** Filling in what is missing changes nothing that is read. *)
Lemma setdefault_list k k' d : get_or_empty k (dsetdefault k' (VList []) d) = get_or_empty k d.
Proof.
  unfold dsetdefault, dmem. destruct (dget k' d) eqn:E; [done|]. destruct (decide (k = k')) as [->|Hne]; [|by apply get_or_empty_other].
  rewrite get_or_empty_list. unfold get_or_empty, dget_or. by rewrite E.
Qed.
Lemma setdefault_get k k' v d : k <> k' -> dget k (dsetdefault k' v d) = dget k d.
Proof. intros Hk. unfold dsetdefault. destruct (dmem k' d); [done|by rewrite dget_dset_ne]. Qed.
Lemma setdefault_present k v w d : dget k d = Some w -> dsetdefault k v d = d.
Proof. intros E. unfold dsetdefault, dmem. by rewrite E. Qed.
Lemma normalized_service d : plain_service d -> plain_service (normalize_service (VDict d)) /\
  name_of (normalize_service (VDict d)) = name_of d /\ forall x, service_offers d x -> service_offers (normalize_service (VDict d)) x.
Proof.
  intros [[s Es] Ha Hd]. cbn [normalize_service]. rewrite (setdefault_present "name" _ _ _ Es). split; [split|split].
  - exists s. by rewrite !setdefault_get.
  - by rewrite !setdefault_list.
  - by rewrite !setdefault_list.
  - unfold name_of, dget_or. by rewrite !setdefault_get.
  - intros x. unfold service_offers. by rewrite !setdefault_list.
Qed.
Lemma normalized_domain d : plain_domain d -> plain_domain (normalize_domain (VDict d)) /\
  name_of (normalize_domain (VDict d)) = name_of d /\ forall x, domain_offers d x -> domain_offers (normalize_domain (VDict d)) x.
Proof.
  intros [[s Es] Hs]. cbn [normalize_domain]. rewrite (setdefault_present "name" _ _ _ Es). split; [split|split].
  - exists s. by rewrite !setdefault_get.
  - by rewrite !setdefault_list.
  - unfold name_of, dget_or. by rewrite !setdefault_get.
  - intros x. unfold domain_offers. by rewrite !setdefault_list.
Qed.

Lemma merged_domain d e : plain_domain d -> plain_domain e -> exists m, merge_domain d e = Ok m /\ plain_domain m /\
  name_of m = name_of d /\ (forall x, domain_offers d x -> domain_offers m x) /\ forall x, domain_offers e x -> domain_offers m x.
Proof.
  intros [Dn (ss & Es & Hs & Hnd)] [En (ts & Et & Ht & Hnd')]. unfold merge_domain, merge_services. unfold_monad.
  destruct (merge_named_good normalize_service merge_service plain_service service_offers) with (base := get_or_empty "services" d)
    (other := get_or_empty "services" e) (xs := ss) (ys := ts) as (us & -> & Hu & Hndu & Hoff); try done.
  { intros s [[t E] _ _]. by eapply named_text. }
  { apply merged_service. }
  eexists. split; [done|].
  assert (Hserv : iter_of (get_or_empty "services" (dset "services" (VList (map VDict us)) d)) = Ok (map VDict us))
    by (by rewrite get_or_empty_list).
  rewrite Forall_forall in Hu.
  assert (Hoffer : forall s x, (s ∈ ss) \/ s ∈ ts -> service_offers (normalize_service s) x ->
    domain_offers (dset "services" (VList (map VDict us)) d) x).
  { intros s x Hin Hx. destruct (Hoff s Hin) as (u & Hu' & Ho). exists (map VDict us), (VDict u). split; [done|].
    split; [by apply list_elem_of_fmap_2|]. apply (normalized_service u (Hu u Hu')). auto. }
  split_and!.
  - split; [by rewrite dget_dset_ne|]. exists (map VDict us). split; [done|]. split.
    + apply Forall_forall. intros v (u & -> & Hu')%list_elem_of_fmap. by apply normalized_service, Hu.
    + unfold names. rewrite map_map. erewrite map_ext_in; [exact Hndu|]. intros u Hu'%list_elem_of_In. by apply normalized_service, Hu.
  - by rewrite name_other.
  - intros x (ss' & s & E & Hin & Hx). rewrite Es in E. injection E as <-. eapply Hoffer; [by left|done].
  - intros x (ts' & s & E & Hin & Hx). rewrite Et in E. injection E as <-. eapply Hoffer; [by right|done].
Qed.

(** *** Documents *)

(** Domains and services have names, those of a list distinct ones; APIs are texts or
    have a name; dependencies are texts.  The services beside the domains can be read. *)
Record plain_isr (isr : pydict) : Prop := {
  pi_domains : exists ds, iter_of (get_or_empty "domains" isr) = Ok ds /\
    Forall (fun d => plain_domain (normalize_domain d)) ds /\ NoDup (names normalize_domain ds);
  pi_services : exists ss, iter_of (get_or_empty "services" isr) = Ok ss /\
    Forall (fun s => plain_service (normalize_service s)) ss;
}.
Definition isr_offers (isr : pydict) (x : string) : Prop :=
  (exists ds d, iter_of (get_or_empty "domains" isr) = Ok ds /\ d ∈ ds /\ domain_offers (normalize_domain d) x) \/
  (exists ss s, iter_of (get_or_empty "services" isr) = Ok ss /\ s ∈ ss /\ service_offers (normalize_service s) x).

Lemma gen_concat_ok {A B} (f : A -> gen B) xs : (forall x, x ∈ xs -> (f x).2 = None) ->
  gen_concat f xs = (concat (map (fun x => (f x).1) xs), None).
Proof.
  induction xs as [|x xs IH]; intros Hf; cbn; [done|]. rewrite IH by (intros; apply Hf; by right).
  assert (Hx : (f x).2 = None) by (apply Hf; by left). by destruct (f x) as [ys [e|]].
Qed.
Lemma gen_bind_ok {A B} (g : gen A) (f : A -> gen B) : g.2 = None -> (forall x, x ∈ g.1 -> (f x).2 = None) ->
  gen_bind g f = (concat (map (fun x => (f x).1) g.1), None).
Proof. intros Hg Hf. unfold gen_bind. rewrite gen_concat_ok by done. cbn. by rewrite app_nil_r, Hg. Qed.
Lemma elem_concat_map {A B} (f : A -> list B) xs y : y ∈ concat (map f xs) <-> exists x, x ∈ xs /\ y ∈ f x.
Proof.
  rewrite list_elem_of_In, in_concat. split.
  - intros (l & (x & <- & Hx)%in_map_iff & Hy). exists x. by rewrite !list_elem_of_In.
  - intros (x & Hx & Hy). exists (f x). split; [by apply in_map, list_elem_of_In|by apply list_elem_of_In].
Qed.

(** What [iter_services] yields for a service, and what it offers. *)
Definition reads (sd : pydict) (x : string) : Prop :=
  exists xs api, iter_of (get_or_empty "apis" sd) = Ok xs /\ api ∈ xs /\ x ∈ (api_names api).1.
Lemma service_read s : plain_service (normalize_service s) -> (as_service s).2 = None /\
  (forall sd, sd ∈ (as_service s).1 -> exists xs, iter_of (get_or_empty "apis" sd) = Ok xs /\ Forall plain_api xs) /\
  forall x, (exists sd, sd ∈ (as_service s).1 /\ reads sd x) <-> service_offers (normalize_service s) x.
Proof.
  intros [_ (xs & Ex & Hx) _].
  assert (Hnil : forall x d, get_or_empty "apis" d = VList [] -> service_offers d x -> False).
  { intros x d E (ys & api & Ey & Ha & _). rewrite E in Ey. injection Ey as <-. by apply elem_of_nil in Ha. }
  destruct s as [|b|n|z|s|vs|d]; cbn [as_service fst snd].
  1-4, 6: split; [done|]; split; [by intros ? ?%elem_of_nil|]; intros x; split;
    [by intros (? & ?%elem_of_nil & _)|intros Hs; exfalso; eapply Hnil; [|exact Hs]; done].
  - split; [done|]. split; [intros sd ->%list_elem_of_singleton; by exists []|]. intros x. split.
    + intros (sd & ->%list_elem_of_singleton & ys & api & Ey & Ha & _). injection Ey as <-. by apply elem_of_nil in Ha.
    + intros Hs; exfalso; eapply Hnil; [|exact Hs]; done.
  - assert (Eg : get_or_empty "apis" (normalize_service (VDict d)) = get_or_empty "apis" d).
    { cbn [normalize_service]. rewrite !setdefault_list. unfold get_or_empty, dget_or. by rewrite setdefault_get. }
    rewrite Eg in Ex. split; [done|]. split; [intros sd ->%list_elem_of_singleton; eauto|]. intros x. unfold service_offers. rewrite Eg.
    split; [by intros (sd & ->%list_elem_of_singleton & ?)|]. intros Hs. exists d. split; [by left|done].
Qed.
Lemma services_read d ss : iter_of (get_or_empty "services" d) = Ok ss -> Forall (fun s => plain_service (normalize_service s)) ss ->
  (services_in d).2 = None /\
  (forall sd, sd ∈ (services_in d).1 -> exists xs, iter_of (get_or_empty "apis" sd) = Ok xs /\ Forall plain_api xs) /\
  forall x, (exists sd, sd ∈ (services_in d).1 /\ reads sd x) <-> exists s, s ∈ ss /\ service_offers (normalize_service s) x.
Proof.
  intros Es Hs. rewrite Forall_forall in Hs. unfold services_in. rewrite Es. cbn [gen_of].
  rewrite gen_bind_ok by (done || intros s Hin; by apply service_read, Hs). cbn [fst snd]. split; [done|]. split.
  - intros sd (s & Hin & Hsd)%elem_concat_map. by eapply service_read, Hsd; apply Hs.
  - intros x. setoid_rewrite elem_concat_map. split.
    + intros (sd & (s & Hin & Hsd) & Hx). exists s. split; [done|]. apply service_read; [by apply Hs|]. by exists sd.
    + intros (s & Hin & (sd & Hsd & Hx)%service_read); [|by apply Hs]. exists sd. split; [by exists s|done].
Qed.

(** The names the verifier collects are those offered. *)
Lemma collected isr : plain_isr isr -> exists ns, collect_api_names isr = Ok ns /\ forall x, x ∈ ns <-> isr_offers isr x.
Proof.
  intros [(ds & Ed & Hd & _) (ss & Es & Hs)]. rewrite Forall_forall in Hd.
  destruct (services_read isr ss Es Hs) as (Tn & Tr & To).
  set (f := fun domain : pyval => match domain with VDict d => services_in d | _ => ([], None) end).
  assert (Hf : forall d, d ∈ ds -> (f d).2 = None /\
    (forall sd, sd ∈ (f d).1 -> exists xs, iter_of (get_or_empty "apis" sd) = Ok xs /\ Forall plain_api xs) /\
    forall x, (exists sd, sd ∈ (f d).1 /\ reads sd x) <-> domain_offers (normalize_domain d) x).
  { intros d Hin. destruct (Hd d Hin) as [_ (ts & Et & Ht & _)].
    assert (Hnil : forall x e, get_or_empty "services" e = VList [] -> domain_offers e x -> False).
    { intros x e E (ys & s & Ey & Ha & _). rewrite E in Ey. injection Ey as <-. by apply elem_of_nil in Ha. }
    destruct d as [|b|n|z|s|vs|d]; cbn [f fst snd].
    1-6: split; [done|]; split; [by intros ? ?%elem_of_nil|]; intros x; split;
      [by intros (? & ?%elem_of_nil & _)|intros Ho; exfalso; eapply Hnil; [|exact Ho]; done].
    assert (Eg : get_or_empty "services" (normalize_domain (VDict d)) = get_or_empty "services" d).
    { cbn [normalize_domain]. rewrite setdefault_list. unfold get_or_empty, dget_or. by rewrite setdefault_get. }
    rewrite Eg in Et. destruct (services_read d ts Et Ht) as (H1 & H2 & H3). split; [done|]. split; [done|]. intros x.
    rewrite H3. unfold domain_offers. rewrite Eg, Et. split; [intros (s & ? & ?); by exists ts, s|].
    intros (ts' & s & [= <-] & ? & ?). by exists s. }
  assert (Ei : iter_services isr = (concat (map (fun d => (f d).1) ds) ++ (services_in isr).1, None)).
  { unfold iter_services. fold f. rewrite Ed. cbn [gen_of]. rewrite gen_bind_ok by (done || intros d Hin; by apply Hf).
    cbn [gen_app fst]. by rewrite Tn. }
  assert (Hread : forall sd, sd ∈ (iter_services isr).1 -> exists xs, iter_of (get_or_empty "apis" sd) = Ok xs /\ Forall plain_api xs).
  { rewrite Ei. cbn [fst]. intros sd [(d & Hin & Hsd)%elem_concat_map|Hsd]%elem_of_app; [by eapply (Hf d)|by apply Tr]. }
  set (g := fun s => gen_of (iter_of (get_or_empty "apis" s))).
  unfold collect_api_names. fold g. rewrite (gen_bind_ok (iter_services isr) g).
  2: by rewrite Ei. 2: { intros sd Hsd. unfold g. by destruct (Hread sd Hsd) as (xs & -> & _). }
  rewrite gen_bind_ok; [|done|]; cbn [fst].
  2: { intros api (sd & Hsd & Ha)%elem_concat_map. destruct (Hread sd Hsd) as (xs & E & Hx). unfold g in Ha. rewrite E in Ha.
       rewrite Forall_forall in Hx. by rewrite (plain_api_name api) by (by apply Hx). }
  cbn [gen_list]. eexists. split; [done|]. intros x. rewrite elem_concat_map. setoid_rewrite elem_concat_map.
  transitivity (exists sd, sd ∈ (iter_services isr).1 /\ reads sd x).
  { split.
    - intros (api & (sd & Hsd & Ha) & Hx). exists sd. split; [done|]. destruct (Hread sd Hsd) as (xs & E & _). unfold g in Ha.
      rewrite E in Ha. by exists xs, api.
    - intros (sd & Hsd & xs & api & E & Ha & Hx). exists api. split; [|done]. exists sd. split; [done|]. unfold g. by rewrite E. }
  rewrite Ei. cbn [fst]. unfold isr_offers. rewrite Ed, Es. setoid_rewrite elem_of_app. split.
  - intros (sd & [(d & Hin & Hsd)%elem_concat_map|Hsd] & Hx).
    + left. exists ds, d. split_and!; [done|done|]. apply Hf; [done|]. by exists sd.
    + right. destruct (proj1 (To x)) as (s & ? & ?); [by exists sd|]. by exists ss, s.
  - intros [(ds' & d & [= <-] & Hin & (sd & Hsd & Hx)%Hf)|(ss' & s & [= <-] & Hin & Hx)]; [|done|].
    + exists sd. split; [left; apply elem_concat_map; by exists d|done].
    + destruct (proj2 (To x)) as (sd & Hsd & ?); [by exists s|]. exists sd. auto.
Qed.

(** The domains of a child are those of a merge of the domains of the parents. *)
Lemma merged_domains a b name ctx role : plain_isr a -> plain_isr b -> takes_metadata a ->
  exists ds d, merge_domains (get_or_empty "domains" a) (get_or_empty "domains" b) = Ok ds /\
    add_crossover_metadata (dset "domains" (VList ds) a) name ctx role = Ok d /\ plain_isr d /\
    (forall x, isr_offers a x -> isr_offers d x) /\
    forall es e x, iter_of (get_or_empty "domains" b) = Ok es -> e ∈ es -> domain_offers (normalize_domain e) x -> isr_offers d x.
Proof.
  intros [(ds & Ed & Hd & Hnd) (ss & Es & Hs)] [(es & Ee & He & _) _] Hm.
  destruct (merge_named_good normalize_domain merge_domain plain_domain domain_offers) with (base := get_or_empty "domains" a)
    (other := get_or_empty "domains" b) (xs := ds) (ys := es) as (us & Eu & Hu & Hndu & Hoff); try done.
  { intros d [[s E] _]. by eapply named_text. }
  { apply merged_domain. }
  destruct (metadata_added (dset "domains" (VList (map VDict us)) a) name ctx role) as [d E].
  { unfold takes_metadata in *. by rewrite dget_dset_ne. }
  exists (map VDict us), d. split; [exact Eu|]. split; [exact E|].
  assert (Hget : forall k, k <> "evolution" -> get_or_empty k d = get_or_empty k (dset "domains" (VList (map VDict us)) a)).
  { intros k Hk. unfold get_or_empty, dget_or. by rewrite (metadata_beside _ _ _ _ _ E). }
  assert (Edom : iter_of (get_or_empty "domains" d) = Ok (map VDict us)) by (by rewrite Hget, get_or_empty_list).
  assert (Eserv : get_or_empty "services" d = get_or_empty "services" a) by (by rewrite Hget, get_or_empty_other).
  rewrite Forall_forall in Hu.
  assert (Hoffer : forall z x, (z ∈ ds) \/ z ∈ es -> domain_offers (normalize_domain z) x -> isr_offers d x).
  { intros z x Hz Hx. destruct (Hoff z Hz) as (u & Hin & Ho). left. exists (map VDict us), (VDict u). split; [done|].
    split; [by apply list_elem_of_fmap_2|]. apply (normalized_domain u (Hu u Hin)). auto. }
  split_and!.
  - split.
    + exists (map VDict us). split; [done|]. split.
      * apply Forall_forall. intros v (u & -> & Hin)%list_elem_of_fmap. by apply normalized_domain, Hu.
      * unfold names. rewrite map_map. erewrite map_ext_in; [exact Hndu|]. intros u Hin%list_elem_of_In. by apply normalized_domain, Hu.
    + exists ss. by rewrite Eserv.
  - intros x [(ds' & z & Ez & Hz & Hx)|(ss' & s & Ez & Hz & Hx)].
    + rewrite Ed in Ez. injection Ez as <-. eapply Hoffer; [by left|done].
    + right. exists ss', s. by rewrite Eserv.
  - intros es' e x Ez Hz Hx. rewrite Ee in Ez. injection Ez as <-. eapply Hoffer; [by right|done].
Qed.

(** The domain crossover of two documents whose domains, services and APIs are
    named, those of a list distinctly, always gives two children, documents of the
    same kind: the first has every API name of the first parent that the verifier
    collects and every one in the domains of the second, the second the other way
    round. *)
Theorem domain_crossover_keeps_apis a b policy ctx : plain_isr a -> plain_isr b -> takes_metadata a -> takes_metadata b ->
  exists one two names_a names_b names_one names_two, domain_crossover a b policy ctx = Ok [one; two] /\
    plain_isr one /\ plain_isr two /\
    collect_api_names a = Ok names_a /\ collect_api_names b = Ok names_b /\
    collect_api_names one = Ok names_one /\ collect_api_names two = Ok names_two /\
    (forall x, x ∈ names_a -> x ∈ names_one) /\ (forall x, x ∈ names_b -> x ∈ names_two) /\
    (forall es e x, iter_of (get_or_empty "domains" b) = Ok es -> e ∈ es -> domain_offers (normalize_domain e) x -> x ∈ names_one) /\
    (forall ds d x, iter_of (get_or_empty "domains" a) = Ok ds -> d ∈ ds -> domain_offers (normalize_domain d) x -> x ∈ names_two).
Proof.
  intros Ha Hb Ma Mb. destruct (merged_domains a b "domain" ctx "domain_child_one" Ha Hb Ma) as (ds & one & Ed & E1 & P1 & O1 & B1).
  destruct (merged_domains b a "domain" ctx "domain_child_two" Hb Ha Mb) as (es & two & Ee & E2 & P2 & O2 & B2).
  destruct (collected a Ha) as (na & Ea & Ca). destruct (collected b Hb) as (nb & Eb & Cb).
  destruct (collected one P1) as (n1 & En1 & C1). destruct (collected two P2) as (n2 & En2 & C2).
  exists one, two, na, nb, n1, n2. unfold domain_crossover. unfold_monad. rewrite Ed, Ee, E1, E2. split_and!; try done.
  - intros x. rewrite Ca, C1. apply O1.
  - intros x. rewrite Cb, C2. apply O2.
  - intros es' e x ? ? ?. rewrite C1. by eapply B1.
  - intros ds' d x ? ? ?. rewrite C2. by eapply B2.
Qed.
End Keeps.

(** ** Samples *)

#[local] Existing Instance compact_digests.
#[local] Existing Instance compact_digest_laws.
#[local] Existing Instance counting_world.
#[local] Existing Instance plain_texts.
#[local] Existing Instance shop_parts.

Definition one_domain (domain service api : string) : pyval :=
  VDict [("name", VStr domain);
         ("services", VList [VDict [("name", VStr service); ("apis", VList [VDict [("name", VStr api)]])]])].
Definition invoices : pydict :=
  [("isr_id", VStr "parent_a"); ("domains", VList [one_domain "billing" "BillingService" "createInvoice"]);
   ("security", VStr "OIDC"); ("testing", VStr "unit")].
Definition payments : pydict :=
  [("isr_id", VStr "parent_b"); ("domains", VList [one_domain "payments" "PaymentService" "authorizePayment"]);
   ("performance", VStr "caching"); ("testing", VStr "contract")].
Definition testers (genome : option pydict) : RecombinationContext := {|
  rx_parent_candidate_ids := ["parent_a"; "parent_b"];
  rx_objectives_by_parent := [("parent_a", [("testability", of_ratio 4 10)]); ("parent_b", [("feedback_testability", of_ratio 7 10)])];
  rx_genome := genome; rx_generation := 1 |}.
Lemma invoices_ok : dict_ok invoices /\ takes_metadata invoices.
Proof. split; [apply (bool_decide_eq_true_1 _); vm_compute; reflexivity|exact I]. Qed.

Lemma policy_block_children_witness : exists one two,
  policy_block_crossover invoices payments default_recombination (testers None) = Ok [one; two] /\
  dget "isr_id" two = Some (VStr "parent_a") /\ dget "performance" two = Some (VStr "caching") /\
  dget "testing" one = Some (VStr "contract") /\ dget "testing" two = Some (VStr "unit").
Proof.
  destruct (policy_block_children invoices payments default_recombination (testers None)) as (one & two & E & Hc & Hbetter).
  - exact (proj1 invoices_ok).
  - exact (proj2 invoices_ok).
  - discriminate.
  - exists one, two. split; [exact E|].
    assert (Hone : dget "testing" one = Some (VStr "contract")).
    { destruct (Hbetter "testing" (of_ratio 4 10) (of_ratio 7 10)) as [_ H2]; try (vm_compute; reflexivity).
      - apply (bool_decide_eq_true_1 _). vm_compute. reflexivity.
      - rewrite H2; [reflexivity|vm_compute; reflexivity]. }
    split; [|split; [|split; [exact Hone|]]].
    + assert (Hid : "isr_id" ∉ ARCHITECTURAL_BLOCKS) by (apply mem_false; vm_compute; reflexivity).
      destruct (cr_rest _ _ _ _ _ _ Hc "isr_id" Hid) as [_ H2]; [discriminate|]. exact H2.
    + destruct (cr_only_b _ _ _ _ _ _ Hc "performance") as [_ H2]; [|reflexivity|exact H2].
      apply mem_true. vm_compute. reflexivity.
    + destruct (cr_shared _ _ _ _ _ _ Hc "testing") as [[H1 _]|[_ H2]]; [apply mem_true; vm_compute; reflexivity|reflexivity|reflexivity| |exact H2].
      rewrite Hone in H1. discriminate H1.
Defined.

Definition testing_genome : pydict :=
  [("genes", VList [VDict [("chromosome_family", VStr "Testing")]; VDict [("chromosome_family", VStr "Security"); ("active", VBool false)]])].
Lemma guided_children : exists cs,
  genome_guided_crossover invoices payments default_recombination (testers (Some testing_genome)) = Ok cs.
Proof. eexists. vm_compute. reflexivity. Qed.
Lemma inactive_families_are_lost_witness : exists one two,
  genome_guided_crossover invoices payments default_recombination (testers (Some testing_genome)) = Ok [one; two] /\
  dget "security" invoices = Some (VStr "OIDC") /\ dget "security" one = None /\ dget "security" two = None.
Proof.
  destruct guided_children as [cs E].
  destruct (inactive_families_are_lost invoices payments default_recombination (testers (Some testing_genome)) testing_genome ["testing"] cs)
    as (one & two & Ecs & _ & Hlost).
  - exact (proj1 invoices_ok).
  - discriminate.
  - reflexivity.
  - vm_compute. reflexivity.
  - discriminate.
  - exact E.
  - exists one, two. destruct (Hlost "security") as [H1 H2].
    + apply mem_true. vm_compute. reflexivity.
    + apply mem_false. vm_compute. reflexivity.
    + split; [rewrite E, Ecs; reflexivity|]. split; [reflexivity|]. split; [exact H1|exact H2].
Defined.

Definition quiet : Recombining := {| rb_world := world0; rb_context := None |}.
Definition by_domain : RecombinationPolicy := {|
  rn_operator := "domain"; rn_max_offspring := 2; rn_preserve_base_identity := true; rn_objective_prefix := "feedback_"; rn_seed := 0 |}.
Lemma sample_recombination : exists r s',
  recombine_candidates default_operators (ParentDocument invoices) (ParentDocument payments) (Some by_domain) quiet = (Ok r, s') /\
  length (rr_offspring r) = 2%nat.
Proof. do 2 eexists. split; [vm_compute; reflexivity|reflexivity]. Qed.
Lemma offspring_are_distinct_witness : exists r s',
  recombine_candidates default_operators (ParentDocument invoices) (ParentDocument payments) (Some by_domain) quiet = (Ok r, s') /\
  length (rr_offspring r) = 2%nat /\ NoDup (map of_id (rr_offspring r)).
Proof.
  destruct sample_recombination as (r & s' & E & Hl). exists r, s'. split; [exact E|]. split; [exact Hl|].
  destruct (offspring_are_distinct default_operators (ParentDocument invoices) (ParentDocument payments) (Some by_domain) quiet r s' E)
    as (_ & _ & _ & _ & _ & _ & _ & _ & _ & Hnd & _). exact Hnd.
Defined.

Lemma one_domain_plain domain service api : truthy api = true ->
  plain_domain (normalize_domain (one_domain domain service api)).
Proof.
  intros Ha. split; [by exists domain|]. eexists. split; [reflexivity|]. split.
  - apply Forall_singleton. split; [by exists service| |].
    + eexists. split; [reflexivity|]. by apply Forall_singleton.
    + exists []. split; [reflexivity|constructor].
  - apply NoDup_singleton.
Qed.
Lemma one_domain_isr k v rest domain service api :
  v = k :: ("domains", VList [one_domain domain service api]) :: rest -> k.1 <> "domains" -> k.1 <> "services" ->
  dget "services" rest = None -> truthy api = true -> plain_isr v.
Proof.
  intros -> Hd Hs Hr Ha. destruct k as [k w]. cbn in Hd, Hs. split.
  - exists [one_domain domain service api]. unfold get_or_empty, dget_or. cbn [dget]. rewrite decide_False, decide_True by done.
    split; [reflexivity|]. split; [|apply NoDup_singleton]. constructor; [by apply one_domain_plain|constructor].
  - exists []. unfold get_or_empty, dget_or. cbn [dget]. rewrite !decide_False by done. rewrite Hr. split; [reflexivity|constructor].
Qed.
Lemma invoices_plain : plain_isr invoices.
Proof. eapply one_domain_isr; [reflexivity|done..]. Qed.
Lemma payments_plain : plain_isr payments.
Proof. eapply one_domain_isr; [reflexivity|done..]. Qed.
Lemma domain_crossover_keeps_apis_witness : exists one two names_one,
  domain_crossover invoices payments by_domain (testers None) = Ok [one; two] /\
  collect_api_names one = Ok names_one /\ forall x, x ∈ ["createInvoice"] -> x ∈ names_one.
Proof.
  destruct (domain_crossover_keeps_apis invoices payments by_domain (testers None) invoices_plain payments_plain I I)
    as (one & two & na & nb & n1 & n2 & E & _ & _ & Ea & _ & E1 & _ & Hk & _).
  exists one, two, n1. split; [exact E|]. split; [exact E1|]. intros x Hx. apply Hk.
  assert (Hna : collect_api_names invoices = Ok ["createInvoice"]) by (vm_compute; reflexivity).
  rewrite Hna in Ea. injection Ea as <-. exact Hx.
Defined.

(** *** What recombination leaves open *)

(** Domains of one name in one document overwrite each other: the APIs of the first
    are gone from the child. *)
Definition split_billing : pydict :=
  [("domains", VList [one_domain "billing" "BillingService" "createInvoice"; one_domain "billing" "Dunning" "remind"])].
Lemma same_name_loses_apis : exists one two,
  domain_crossover split_billing payments by_domain (testers None) = Ok [one; two] /\
  collect_api_names split_billing = Ok ["createInvoice"; "remind"] /\
  collect_api_names one = Ok ["remind"; "authorizePayment"].
Proof. do 2 eexists. split_and!; vm_compute; reflexivity. Qed.

(** An offspring is registered without any check, and as the latest candidate of an
    approved proposal: it is promoted with the verification, the fitness and the
    approval of another one. *)
Definition shop_approved : SelfEvolutionEngine := fold_left (fun s c => run (perform c) s) (take 5 shop_calls) shop_start.
Definition bare_offspring : OffspringCandidate := {|
  of_id := "offspring_1"; of_operator := "policy_block"; of_parent_candidate_ids := ["a"; "b"];
  of_base_parent_candidate_id := Some "a"; of_base_parent_content_hash := Some "h"; of_isr := [("name", VStr "bare")];
  of_content_hash := "unchecked"; of_created_at := "0" |}.
Definition offspring_promoted : SelfEvolutionEngine :=
  run (perform (C_promote shop_id "production" "me")) (run (register_offspring_candidate shop_id bare_offspring) shop_approved).
Definition promoted_unverified (s : SelfEvolutionEngine) : bool :=
  match promoted_candidate s 0, dget shop_id (se_proposals s) with
  | Some (r, c), Some p =>
      bool_decide (pm_promoted_content_hash r = "unchecked") && bool_decide (ca_content_hash c = "unchecked")
      && bool_decide (ep_status p = PROMOTED)
      && match ep_verification p with Some v => negb (bool_decide (vf_candidate_id v = ca_id c)) | None => true end
  | _, _ => false
  end.
Lemma offspring_promoted_unverified : promoted_unverified offspring_promoted = true.
Proof. vm_compute. reflexivity. Qed.
