(* ===== verification/EvoOperatorsSpec.v ===== *)
(** * Evolution engine: theorems on the mutation operators

    What an operator adds to a graph, which operators keep the graph well typed,
    and what the removal of a node leaves behind. *)

From Stdlib Require Import SpecFloat.
From S2P Require Import Prelude PyFloat PyVal PyText PyJson IsrModel IsrRecords TypedGraph.
From S2P Require Import IsrValidation IsrValidationSpec IsrMetricsSpec EvoModels EvoPopulation EvoEngine.
From S2P Require Import IsrAdapter IsrAdapterSpec IsrRoundTrip EvoOperators EvoMutation.
Open Scope Z_scope.

(** ** Copies *)

Lemma fold_dset_id {A} (f : A -> string) (xs : list A) d :
  NoDup (dkeys d ++ map f xs) -> fold_left (fun d x => dset (f x) x d) xs d = d ++ map (fun x => (f x, x)) xs.
Proof.
  revert d. induction xs as [|x xs IH]; intros d Hd; cbn [fold_left map]; [by rewrite app_nil_r|].
  cbn [map] in Hd. rewrite dset_fresh.
  - rewrite IH; [by rewrite <- app_assoc|]. by rewrite dkeys_app, <- app_assoc.
  - apply NoDup_app in Hd as (_ & Hd & _). intros Hin. apply (Hd _ Hin). by left.
Qed.
Lemma nodes_by_id g : graph_ok g -> map (fun n => (n_id n, n)) (nodes g) = g_nodes g.
Proof.
  intros Hg. unfold nodes, dvalues. rewrite map_map. rewrite <- (map_id (g_nodes g)) at 2. apply map_ext_in.
  intros [k n] Hp. cbn. f_equal. symmetry. by apply (proj1 (Forall_forall _ _) (ok_node_ids g Hg) (k, n)), list_elem_of_In.
Qed.

Lemma copy_nodes_same g : graph_ok g -> g_nodes (copy_graph g) = g_nodes g.
Proof.
  intros Hg. cbn. rewrite fold_dset_id; [by apply nodes_by_id|]. cbn. by apply node_ids_distinct.
Qed.
Lemma copy_edges g : edges (copy_graph g) = map copy_edge (edges g).
Proof. unfold edges, dvalues. cbn. by rewrite !map_map. Qed.
Lemma copy_ends g : Forall2 same_ends (edges g) (edges (copy_graph g)).
Proof. rewrite copy_edges. induction (edges g) as [|e es IH]; cbn; constructor; done. Qed.
Lemma copy_filter (p : GraphEdge -> bool) es :
  (forall e, p (copy_edge e) = p e) -> List.filter p (map copy_edge es) = map copy_edge (List.filter p es).
Proof. intros Hp. induction es as [|e es IH]; [done|]. cbn. rewrite Hp. destruct (p e); cbn; by rewrite IH. Qed.
Lemma copy_ok g : graph_ok g -> graph_ok (copy_graph g).
Proof.
  intros Hg. pose proof (copy_nodes_same g Hg) as En. pose proof (copy_edges g) as Ee.
  assert (Ek : dkeys (g_edges (copy_graph g)) = dkeys (g_edges g)).
  { cbn. unfold dkeys. by rewrite map_map. }
  split.
  - rewrite En. apply Hg.
  - unfold dict_ok. rewrite Ek. apply Hg.
  - rewrite En. apply Hg.
  - cbn. apply Forall_map. apply (Forall_impl _ _ _ (ok_edge_ids g Hg)). by intros [k e].
  - rewrite Ee, En. apply Forall_map. apply (Forall_impl _ _ _ (ok_sources g Hg)). done.
  - rewrite Ee, En. apply Forall_map. apply (Forall_impl _ _ _ (ok_targets g Hg)). done.
  - rewrite En. cbn [copy_graph g_adjacency]. rewrite (ok_adjacency g Hg). apply dtable_ext. intros k _.
    unfold out_edges. rewrite Ee, copy_filter by done. by rewrite map_map.
  - rewrite En. cbn [copy_graph g_reverse]. rewrite (ok_reverse g Hg). apply dtable_ext. intros k _.
    unfold in_edges. rewrite Ee, copy_filter by done. by rewrite map_map.
Qed.
Lemma copy_alike g : graph_ok g -> alike g (copy_graph g).
Proof.
  intros Hg. split; [done|by apply copy_ok| |apply copy_ends]. by rewrite copy_nodes_same.
Qed.
Lemma copy_get_node g k : graph_ok g -> get_node (copy_graph g) k = get_node g k.
Proof. intros Hg. unfold get_node. by rewrite copy_nodes_same. Qed.

(** ** Growth

    [grown g g' ns links]: [g'] is [g] with the nodes [ns] and edges with these
    ends after those of [g]. *)
Definition ends_of (e : GraphEdge) : string * string * EdgeType := (source_id e, target_id e, edge_type e).
Record grown (g g' : TypedGraph) (ns : list GraphNode) (links : list (string * string * EdgeType)) : Prop := {
  gr_ok : graph_ok g';
  gr_nodes : g_nodes g' = g_nodes g ++ map (fun n => (n_id n, n)) ns;
  gr_edges : exists es, edges g' = edges g ++ es /\ map ends_of es = links;
}.

Lemma grown_refl g : graph_ok g -> grown g g [] [].
Proof. intros Hg. split; [done|by rewrite app_nil_r|]. exists []. by rewrite app_nil_r. Qed.
Lemma grown_trans g1 g2 g3 ns1 ns2 ls1 ls2 :
  grown g1 g2 ns1 ls1 -> grown g2 g3 ns2 ls2 -> grown g1 g3 (ns1 ++ ns2) (ls1 ++ ls2).
Proof.
  intros [_ N1 (es1 & E1 & <-)] [Hok N2 (es2 & E2 & <-)]. split; [done| |].
  - by rewrite N2, N1, <- app_assoc, <- map_app.
  - exists (es1 ++ es2). by rewrite E2, E1, <- app_assoc, map_app.
Qed.

Section Operators.
Context `{Surroundings, Texts}.

Definition value_error (x : exn) (w : World) : Prop := exists m, x = ValueError m.

Lemma wp_new_node id t l at_ parent g (Q : TypedGraph -> World -> Prop) w :
  graph_ok g ->
  (forall g', grown g g' [node t id l at_ parent] [] -> Q g' w) ->
  wp (add_new_node id t l at_ parent g) Q value_error w.
Proof.
  intros Hg HQ. unfold add_new_node, applied. pose proof (add_node_spec g (node t id l at_ parent) Hg) as Hs.
  destruct (add_node _ g) as [[[]|x] g'].
  - destruct Hs as (_ & Hg' & En & Ee). apply wp_ret, HQ. split; [done|done|]. exists [].
    unfold edges. by rewrite Ee, app_nil_r.
  - destruct Hs as (-> & _). apply wp_raise. by eexists.
Qed.
Lemma wp_new_edge src tgt tag t g (Q : TypedGraph -> World -> Prop) w :
  graph_ok g ->
  (forall g' w', grown g g' [] [(src, tgt, t)] -> src ∈ dkeys (g_nodes g) -> tgt ∈ dkeys (g_nodes g) -> Q g' w') ->
  wp (add_new_edge src tgt tag t g) Q value_error w.
Proof.
  intros Hg HQ. unfold add_new_edge. apply wp_bind. unfold wp at 1, hex. unfold applied.
  match goal with |- context [add_edge ?e g] => pose proof (add_edge_spec g e Hg) as Hs;
    destruct (add_edge e g) as [[[]|x] g'] end.
  - destruct Hs as (_ & Hsrc & Htgt & Hg' & En & Ee). apply wp_ret, HQ; [|done|done].
    split; [done|by rewrite app_nil_r|]. eexists. unfold edges. rewrite Ee. split; [apply dvalues_app|done].
  - destruct Hs as (_ & (m & ->) & _). apply wp_raise. by exists m.
Qed.
Lemma wp_hex n (Q : string -> World -> Prop) E w : (forall h w', Q h w') -> wp (hex n) Q E w.
Proof. intros HQ. apply HQ. Qed.

(** What an operator adds at a target: the new node, if any, and the links. *)
Definition owner_link (owner : option string) (id : string) : list (string * string * EdgeType) :=
  if otruthy owner then [(or_empty owner, id, E_OWNS)] else [].
(** The node the parameters name as the dependency. *)
Definition depends_on (g : TypedGraph) (params : pydict) : option string :=
  match dget_or "depends_on" params (VStr "") with
  | VStr d => if truthy d && dmem d (g_nodes g) then Some d else None
  | _ => None
  end.
Inductive adds (g : TypedGraph) (target : string) (params : pydict) :
    string -> list GraphNode -> list (string * string * EdgeType) -> Prop :=
| adds_entity n : n_id n <> "" -> node_type n = N_ENTITY -> parent_id n = Some target ->
    adds g target params "structural_add_entity" [n] [(target, n_id n, E_OWNS)]
| adds_service n : n_id n <> "" -> node_type n = N_SERVICE -> parent_id n = Some target ->
    adds g target params "structural_add_service" [n] [(target, n_id n, E_OWNS)]
| adds_interface n svc : get_node g target = Some svc -> n_id n <> "" -> node_type n = N_INTERFACE ->
    parent_id n = Some (or_empty (parent_id svc)) ->
    adds g target params "structural_extract_interface" [n]
      [(or_empty (parent_id svc), n_id n, E_OWNS); (target, n_id n, E_IMPLEMENTS)]
| adds_dependency :
    adds g target params "topological_add_dependency" []
      (match depends_on g params with Some d => [(target, d, E_DEPENDS_ON)] | None => [] end)
| adds_policy n iface : get_node g target = Some iface -> n_id n <> "" -> node_type n = N_POLICY ->
    parent_id n = parent_id iface ->
    adds g target params "security_add_policy" [n]
      (owner_link (parent_id iface) (n_id n) ++ [(target, n_id n, E_SECURED_BY)])
| adds_event n svc : get_node g target = Some svc -> n_id n <> "" -> node_type n = N_EVENT ->
    parent_id n = parent_id svc ->
    adds g target params "performance_add_event" [n]
      (owner_link (parent_id svc) (n_id n) ++ [(target, n_id n, E_EMITS)])
| adds_documentation n : n_id n <> "" -> node_type n = N_DOCUMENTATION -> parent_id n = Some target ->
    adds g target params "operational_add_documentation" [n] [(target, n_id n, E_DOCUMENTS)].

(** The result of an operator that adds. *)
Definition grows (identifier : string) (apply : Apply) : Prop := forall g target params w, graph_ok g -> target ∈ dkeys (g_nodes g) ->
  wp (apply g target params)
    (fun r _ => exists ns links, adds g target params identifier ns links /\ grown (copy_graph g) r.1 ns links)
    (fun x _ => exists m, x = ValueError m \/ x = TypeError m \/ x = AttributeError m) w.

Lemma value_error_grows x w : value_error x w -> exists m, x = ValueError m \/ x = TypeError m \/ x = AttributeError m.
Proof. intros [m ->]. exists m. by left. Qed.

(** Steps of the body. *)
Lemma step_node id t l at_ parent g g0 (Q : TypedGraph -> World -> Prop) w ns ls :
  grown g0 g ns ls ->
  (forall g', grown g0 g' (ns ++ [node t id l at_ parent]) ls -> Q g' w) ->
  wp (add_new_node id t l at_ parent g) Q
    (fun x _ => exists m, x = ValueError m \/ x = TypeError m \/ x = AttributeError m) w.
Proof.
  intros Hg HQ. eapply wp_mono; [apply (wp_new_node id t l at_ parent g Q)| |apply value_error_grows]; [apply Hg| |done].
  intros g' Hg'. apply HQ. rewrite <- (app_nil_r ls). by eapply grown_trans.
Qed.
Lemma step_edge src tgt tag t g g0 (Q : TypedGraph -> World -> Prop) w ns ls :
  grown g0 g ns ls ->
  (forall g' w', grown g0 g' ns (ls ++ [(src, tgt, t)]) -> Q g' w') ->
  wp (add_new_edge src tgt tag t g) Q
    (fun x _ => exists m, x = ValueError m \/ x = TypeError m \/ x = AttributeError m) w.
Proof.
  intros Hg HQ. eapply wp_mono; [apply (wp_new_edge src tgt tag t g Q)| |apply value_error_grows]; [apply Hg| |done].
  intros g' w' Hg' _ _. apply HQ. rewrite <- (app_nil_r ns). by eapply grown_trans.
Qed.

Ltac grow_step :=
  cbv zeta;
  lazymatch goal with
  | |- wp (hex _ ≫= _) _ _ _ => apply wp_bind, wp_hex; intros
  | Hg : grown ?g0 ?g _ _ |- wp (add_new_node _ _ _ _ _ ?g ≫= _) _ _ _ =>
      apply wp_bind; eapply (step_node _ _ _ _ _ g g0); [exact Hg|]; clear Hg; intros
  | Hg : grown ?g0 ?g _ _ |- wp (add_new_edge _ _ _ _ ?g ≫= _) _ _ _ =>
      apply wp_bind; eapply (step_edge _ _ _ _ g g0); [exact Hg|]; clear Hg; intros
  | |- wp (mret _) _ _ _ => apply wp_ret; cbn [fst]; do 2 eexists; split; [|eassumption]; cbn [app]
  end.
Lemma target_found g target : target ∈ dkeys (g_nodes g) -> exists n, get_node g target = Some n.
Proof.
  intros Ht. unfold get_node. destruct (dget target (g_nodes g)) as [n|] eqn:E; [by exists n|].
  by apply dget_None in E.
Qed.
Ltac grow_start g Hg :=
  intros g target params w Hg Ht; pose proof (grown_refl (copy_graph g) (copy_ok g Hg)) as Hgrown;
  cbv zeta; rewrite ?copy_get_node by done.

Lemma grows_entity : grows "structural_add_entity" add_entity_apply.
Proof. unfold add_entity_apply. grow_start g Hg. repeat grow_step. by constructor. Qed.
Lemma grows_service : grows "structural_add_service" add_service_apply.
Proof. unfold add_service_apply. grow_start g Hg. repeat grow_step. by constructor. Qed.
Lemma grows_interface : grows "structural_extract_interface" extract_iface_apply.
Proof.
  unfold extract_iface_apply. grow_start g Hg. destruct (target_found g target Ht) as [svc E]. rewrite E.
  repeat grow_step. by apply (adds_interface _ _ _ (node _ _ _ _ _) svc E).
Qed.
Lemma grows_documentation : grows "operational_add_documentation" add_doc_apply.
Proof. unfold add_doc_apply. grow_start g Hg. repeat grow_step. by constructor. Qed.
(** The edge from the owner, if there is one. *)
Lemma step_owner (owner : option string) tgt g g0 (Q : TypedGraph -> World -> Prop) w ns ls :
  grown g0 g ns ls ->
  (forall g' w', grown g0 g' ns (ls ++ owner_link owner tgt) -> Q g' w') ->
  wp (if otruthy owner then add_new_edge (or_empty owner) tgt "" E_OWNS g else mret g) Q
    (fun x _ => exists m, x = ValueError m \/ x = TypeError m \/ x = AttributeError m) w.
Proof.
  intros Hg HQ. unfold owner_link in HQ. destruct (otruthy owner).
  - by eapply (step_edge (or_empty owner)).
  - apply wp_ret, HQ. by rewrite app_nil_r.
Qed.
Lemma grows_policy : grows "security_add_policy" add_policy_apply.
Proof.
  unfold add_policy_apply. grow_start g Hg. destruct (target_found g target Ht) as [iface E]. rewrite E.
  do 2 grow_step. apply wp_bind. eapply (step_owner (parent_id iface)); [eassumption|]. intros.
  repeat grow_step. by apply (adds_policy _ _ _ (node _ _ _ _ _) iface E).
Qed.
Lemma grows_event : grows "performance_add_event" add_event_apply.
Proof.
  unfold add_event_apply. grow_start g Hg. destruct (target_found g target Ht) as [svc E]. rewrite E.
  grow_step. apply wp_bind, wp_lift; [|unfold lower_of; intros x; case_match; try done; intros [= <-]; eauto].
  intros key _. grow_step. apply wp_bind. eapply (step_owner (parent_id svc)); [eassumption|]. intros.
  repeat grow_step. by apply (adds_event _ _ _ (node _ _ _ _ _) svc E).
Qed.
Lemma grows_dependency : grows "topological_add_dependency" add_depends_on_apply.
Proof.
  unfold add_depends_on_apply. grow_start g Hg. pose proof (adds_dependency g target params) as Hadds.
  unfold depends_on in Hadds. set (v := dget_or "depends_on" params (VStr "")) in *.
  apply wp_bind, wp_lift; [|intros x; unfold node_named; repeat case_match; try done; intros [= <-]; eauto].
  intros found E. destruct v as [| | | |d|vs|d]; try (destruct (val_truthy _); cbn in E;
    injection E as <-; grow_step; exact Hadds).
  - cbn [val_truthy node_named] in E. rewrite copy_get_node in E by done. unfold dmem in Hadds.
    destruct (truthy d); injection E as <-; [|grow_step; exact Hadds].
    change (dget d (g_nodes g)) with (get_node g d) in Hadds. cbn [andb] in Hadds.
    destruct (get_node g d); repeat grow_step; exact Hadds.
  - destruct vs; cbn in E; [|done]. injection E as <-. grow_step. exact Hadds.
  - destruct d; cbn in E; [|done]. injection E as <-. grow_step. exact Hadds.
Qed.

(** The operators that only add, by their identifier. *)
Definition only_adds (op : MutationOperatorSpec) : bool :=
  bool_decide (mo_mutation_class op = CL_ADDITIVE)
  || bool_decide (mo_identifier op = "structural_extract_interface").
Lemma only_adds_grows op : op ∈ all_operators -> only_adds op = true ->
  exists apply, mo_apply_fn op = Some apply /\ grows (mo_identifier op) apply.
Proof.
  intros Hop Ho. unfold all_operators in Hop. rewrite !elem_of_cons, elem_of_nil in Hop.
  destruct_or! Hop; subst op; try (vm_compute in Ho; discriminate Ho); try done; (eexists; split; [done|]).
  - apply grows_entity.
  - apply grows_service.
  - apply grows_interface.
  - apply grows_dependency.
  - apply grows_policy.
  - apply grows_event.
  - apply grows_documentation.
Qed.

(** ** Well-typed graphs *)

Definition allowed (g : TypedGraph) (l : string * string * EdgeType) : Prop := exists s t d,
  get_node g l.1.1 = Some s /\ get_node g l.1.2 = Some t /\
  dget l.2 EDGE_DEFINITIONS = Some d /\ is_valid_connection d (node_type s) (node_type t) = true.
(** What [type_check] accepts ([type_check_valid]). *)
Definition typed (g : TypedGraph) : Prop := forall e, e ∈ edges g -> allowed g (ends_of e).
(** Parents are nodes of the graph that may own. *)
Record sound (g : TypedGraph) : Prop := {
  so_typed : typed g;
  so_parents n p : n ∈ nodes g -> parent_id n = Some p ->
    exists m, get_node g p = Some m /\ is_container (node_type m) = true;
  so_no_empty_id : get_node g "" = None;
}.
Lemma typed_checked order g : typed g <-> tc_is_valid (type_check order g) = true.
Proof. rewrite type_check_valid. unfold typed. by setoid_rewrite check_edge_none. Qed.

Lemma grown_lookup g g' ns ls k n : grown g g' ns ls -> get_node g k = Some n -> get_node g' k = Some n.
Proof.
  intros [Hok En _] E. unfold get_node in *. rewrite En. apply dget_elem in E. apply elem_dget.
  - unfold dict_ok. rewrite <- En. apply Hok.
  - apply elem_of_app. by left.
Qed.
Lemma grown_new g g' ns ls n : grown g g' ns ls -> n ∈ ns -> get_node g' (n_id n) = Some n.
Proof.
  intros [Hok En _] Hn. unfold get_node. apply elem_dget; [apply Hok|]. rewrite En. apply elem_of_app. right.
  by apply (list_elem_of_fmap_2 (fun n => (n_id n, n))).
Qed.
Lemma allowed_grown g g' ns ls l : grown g g' ns ls -> allowed g l -> allowed g' l.
Proof. intros Hg (s & t & d & Es & Et & Hd). exists s, t, d. split_and!; [by eapply grown_lookup..|apply Hd|apply Hd]. Qed.

Lemma grown_typed g g' ns ls : graph_ok g -> typed g -> grown (copy_graph g) g' ns ls ->
  (typed g' <-> Forall (allowed g') ls).
Proof.
  intros Hok Ht Hg. pose proof Hg as [_ En (es & Ee & <-)]. unfold typed. rewrite Ee, copy_edges. split.
  - intros Hall. apply Forall_map, Forall_forall. intros e He. apply Hall, elem_of_app. by right.
  - intros Hall e [He|He]%elem_of_app; [|by apply (proj1 (Forall_forall _ _) (proj1 (Forall_map _ _ _) Hall))].
    apply list_elem_of_fmap in He as (e0 & -> & He0). eapply allowed_grown; [exact Hg|].
    destruct (Ht e0 He0) as (s & t & d & Es & Et & Hd). exists s, t, d.
    by rewrite !copy_get_node by done.
Qed.
Lemma grown_sound g g' ns ls : graph_ok g -> sound g -> grown (copy_graph g) g' ns ls ->
  Forall (allowed g') ls ->
  Forall (fun n => n_id n <> "" /\ forall p, parent_id n = Some p ->
            exists m, get_node g p = Some m /\ is_container (node_type m) = true) ns ->
  sound g'.
Proof.
  intros Hok [Ht Hp He] Hg Hls Hns. pose proof (proj2 (grown_typed g g' ns ls Hok Ht Hg) Hls) as Ht'.
  assert (Hup : forall p m, get_node g p = Some m -> get_node g' p = Some m).
  { intros p m E. eapply grown_lookup; [exact Hg|]. by rewrite copy_get_node. }
  pose proof Hg as [Hok' En _]. rewrite copy_nodes_same in En by done. split; [done| |].
  - intros n p Hn Epar. unfold nodes in Hn. rewrite En, dvalues_app in Hn. apply elem_of_app in Hn as [Hn|Hn].
    + destruct (Hp n p Hn Epar) as (m & Em & Hm). exists m. auto.
    + unfold dvalues in Hn. rewrite map_map, map_id in Hn. rewrite Forall_forall in Hns.
      destruct (Hns n Hn) as [_ Hn']. destruct (Hn' p Epar) as (m & Em & Hm). exists m. auto.
  - unfold get_node in *. apply dget_None. rewrite En, dkeys_app. intros [Hin|Hin]%elem_of_app.
    + by apply dget_None in He.
    + unfold dkeys in Hin. rewrite map_map in Hin. apply list_elem_of_fmap in Hin as (n & E & Hn). cbn in E.
      rewrite Forall_forall in Hns. by destruct (Hns n Hn).
Qed.

(** A container may own a module's parts. *)
Lemma owner_allowed g' owner n m : get_node g' owner = Some m -> is_container (node_type m) = true ->
  get_node g' (n_id n) = Some n ->
  mem (node_type n) [N_ENTITY; N_SERVICE; N_INTERFACE; N_POLICY; N_EVENT] = true ->
  allowed g' (owner, n_id n, E_OWNS).
Proof.
  intros Em Hm En Hn. eexists m, n, _. split_and!; [done|done|reflexivity|].
  unfold is_valid_connection. apply andb_true_iff. split.
  - unfold is_container in Hm. by destruct (node_type m).
  - by destruct (node_type n).
Qed.

(** *** What an addition means for the types *)

Lemma precondition_type op g target : op ∈ all_operators ->
  check_preconditions op g target = Ok true -> graph_ok g ->
  exists n, get_node g target = Some n /\
    (mo_identifier op = "structural_add_entity" \/ mo_identifier op = "structural_add_service" ->
     node_type n = N_MODULE) /\
    (mo_identifier op = "structural_extract_interface" \/ mo_identifier op = "performance_add_event" ->
     node_type n = N_SERVICE) /\
    (mo_identifier op = "security_add_policy" -> node_type n = N_INTERFACE).
Proof.
  intros Hop Hpre Hg. unfold all_operators in Hop. rewrite !elem_of_cons, elem_of_nil in Hop.
  destruct_or! Hop; subst op; try done; unfold check_preconditions in Hpre; cbn [mo_precondition_fn operator_spec mo_identifier] in *;
    unfold target_is_module, split_module_precondition, extract_iface_precondition, target_exists,
      add_policy_precondition, add_event_precondition in Hpre;
    destruct (get_node g target) as [n|] eqn:E; try done; exists n; (split; [done|]).
  1,2: pose proof (dget_elem _ _ _ E) as Hin; pose proof (proj1 (Forall_forall _ _) (ok_node_ids g Hg) _ Hin) as Hid;
    cbn in Hid; rewrite <- Hid, E in Hpre; injection Hpre as Hpre%bool_decide_eq_true; naive_solver.
  all: try (injection Hpre as Hpre).
  - naive_solver.
  - destruct (has_type N_SERVICE n) eqn:Et; [|done]. apply bool_decide_eq_true in Et. naive_solver.
  - naive_solver.
  - destruct (has_type N_INTERFACE n) eqn:Et; [|done]. apply bool_decide_eq_true in Et. naive_solver.
  - apply bool_decide_eq_true in Hpre. naive_solver.
  - naive_solver.
  - naive_solver.
  - naive_solver.
Qed.

(** A new node of a type that may be owned, under a container. *)
Lemma one_more g g' n owner ls : graph_ok g -> sound g -> grown (copy_graph g) g' [n] ls ->
  n_id n <> "" -> parent_id n = owner ->
  mem (node_type n) [N_ENTITY; N_SERVICE; N_INTERFACE; N_POLICY; N_EVENT] = true ->
  (forall p, owner = Some p -> exists m, get_node g p = Some m /\ is_container (node_type m) = true) ->
  Forall (allowed g') (owner_link owner (n_id n)) /\ (Forall (allowed g') ls -> sound g').
Proof.
  intros Hok Hs Hg Hid Ep Hn Ho. split.
  - unfold owner_link. destruct owner as [p|]; [|constructor]. cbn. destruct (truthy p); constructor; [|constructor].
    destruct (Ho p eq_refl) as (m & Em & Hm). eapply owner_allowed; [|exact Hm|by eapply grown_new; [|left]|exact Hn].
    eapply grown_lookup; [exact Hg|]. by rewrite copy_get_node.
  - intros Hls. eapply grown_sound; [done|done|exact Hg|done|]. constructor; [|constructor].
    split; [done|]. intros p E. apply Ho. congruence.
Qed.
Lemma truthy_link (p id : string) : truthy p = true -> owner_link (Some p) id = [(p, id, E_OWNS)].
Proof. intros E. unfold owner_link. cbn. by rewrite E. Qed.

(** The connection from the target to the new node. *)
Lemma link_allowed g g' target s n t d ls : graph_ok g -> grown (copy_graph g) g' [n] ls ->
  get_node g target = Some s -> dget t EDGE_DEFINITIONS = Some d ->
  is_valid_connection d (node_type s) (node_type n) = true -> allowed g' (target, n_id n, t).
Proof.
  intros Hok Hg Es Ed Hv. exists s, n, d. split_and!; [|by eapply grown_new; [|left]|done|done].
  eapply grown_lookup; [exact Hg|]. by rewrite copy_get_node.
Qed.

(** No new edge leaves the empty id. *)
Lemma empty_source g g' ns ls n t : graph_ok g -> sound g -> grown (copy_graph g) g' ns ls ->
  Forall (fun n => n_id n <> "") ns -> ~ ("", n_id n, t) ∈ ls.
Proof.
  intros Hok Hs [Hok' En (es & Ee & <-)] Hns Hin. apply list_elem_of_fmap in Hin as (e & Ends & He).
  assert (Hsrc : source_id e ∈ dkeys (g_nodes g')).
  { apply (edge_endpoints g' e Hok'). rewrite Ee. apply elem_of_app. by right. }
  injection Ends as Esrc _ _. rewrite <- Esrc, En, copy_nodes_same, dkeys_app in Hsrc by done.
  apply elem_of_app in Hsrc as [Hsrc|Hsrc].
  - pose proof (so_no_empty_id g Hs) as He0. by apply dget_None in He0.
  - unfold dkeys in Hsrc. rewrite map_map in Hsrc. apply list_elem_of_fmap in Hsrc as (m & Em & Hm). cbn in Em.
    rewrite Forall_forall in Hns. by apply (Hns m Hm).
Qed.
Lemma same_nodes_allowed g g' ls l : graph_ok g -> grown (copy_graph g) g' [] ls -> allowed g' l <-> allowed g l.
Proof.
  intros Hok [_ En _]. unfold allowed, get_node. rewrite En, copy_nodes_same, app_nil_r by done. done.
Qed.

(** C18: on a graph whose indexes agree that is well typed and whose parents are
    containers, at a target its precondition accepts, an operator that only adds
    (the additive ones and extract_interface) either raises a ValueError, TypeError
    or AttributeError, or copies the graph and adds what [adds] says.  The result is
    well typed again, with parents that are containers, for every operator but two:
    adding documentation never gives a well-typed graph, and adding a dependency
    does exactly when the table of connections allows it. *)
Theorem adding_operators_keep_types g op target params w :
  graph_ok g -> sound g -> op ∈ all_operators -> only_adds op = true ->
  check_preconditions op g target = Ok true ->
  exists apply, mo_apply_fn op = Some apply /\
  match apply g target params w with
  | (Raise x, _) => exists m, x = ValueError m \/ x = TypeError m \/ x = AttributeError m
  | (Ok (g', _), _) =>
      exists ns links, adds g target params (mo_identifier op) ns links /\ grown (copy_graph g) g' ns links /\
      if bool_decide (mo_identifier op = "operational_add_documentation") then ~ typed g'
      else if bool_decide (mo_identifier op = "topological_add_dependency") then
        (typed g' <-> forall d, depends_on g params = Some d -> allowed g (target, d, E_DEPENDS_ON)) /\
        (typed g' -> sound g')
      else sound g'
  end.
Proof.
  intros Hok Hs Hop Ho Hpre. destruct (only_adds_grows op Hop Ho) as (apply & Ea & Hgr).
  exists apply. split; [done|]. destruct (precondition_type op g target Hop Hpre Hok) as (tn & Et & Hm & Hsv & Hi).
  specialize (Hgr g target params w Hok ltac:(by eapply dget_Some_key)). unfold wp in Hgr.
  destruct (apply g target params w) as [[[g' data]|x] w']; [|exact Hgr].
  destruct Hgr as (ns & links & Hadds & Hg). exists ns, links. split; [done|]. split; [done|]. cbn [fst] in Hg.
  pose proof (so_parents g Hs) as Hpar.
  assert (Htn : tn ∈ nodes g) by (apply elem_dvalues; exists target; by apply dget_elem).
  revert Hm Hsv Hi.
  destruct Hadds as [n Hid Hn Ep|n Hid Hn Ep|n svc Esv Hid Hn Ep| |n i Ei Hid Hn Ep|n svc Esv Hid Hn Ep|n Hid Hn Ep];
    intros Hm Hsv Hi; repeat (rewrite bool_decide_eq_false_2 by done); try rewrite bool_decide_eq_true_2 by done;
    rewrite ?Et in *; simplify_eq.
  - destruct (one_more g g' n (Some target) _ Hok Hs Hg Hid Ep) as [_ Hso]; [by rewrite Hn| |].
    { intros p [= <-]. exists tn. split; [done|]. by rewrite Hm by auto. }
    apply Hso. constructor; [|constructor]. eapply link_allowed; [done|exact Hg|exact Et|reflexivity|].
    rewrite Hm, Hn by auto. done.
  - destruct (one_more g g' n (Some target) _ Hok Hs Hg Hid Ep) as [_ Hso]; [by rewrite Hn| |].
    { intros p [= <-]. exists tn. split; [done|]. by rewrite Hm by auto. }
    apply Hso. constructor; [|constructor]. eapply link_allowed; [done|exact Hg|exact Et|reflexivity|].
    rewrite Hm, Hn by auto. done.
  - assert (Hown : forall p, Some (or_empty (parent_id svc)) = Some p ->
        exists m, get_node g p = Some m /\ is_container (node_type m) = true).
    { intros p [= <-]. destruct (parent_id svc) as [p|] eqn:Epar; [by apply (Hpar svc)|].
      destruct (empty_source g g' [n] _ n E_OWNS Hok Hs Hg); [|by left]. by constructor. }
    destruct (one_more g g' n (Some (or_empty (parent_id svc))) _ Hok Hs Hg Hid Ep) as [_ Hso];
      [by rewrite Hn|done|]. apply Hso. constructor.
    { destruct (Hown _ eq_refl) as (m & Em & Hm'). eapply owner_allowed; [|exact Hm'|eapply grown_new; [exact Hg|by left]|by rewrite Hn].
      eapply grown_lookup; [exact Hg|]. by rewrite copy_get_node. }
    constructor; [|constructor]. eapply link_allowed; [done|exact Hg|exact Et|reflexivity|]. rewrite Hsv, Hn by auto. done.
  - rewrite (grown_typed g g' _ _ Hok (so_typed g Hs) Hg).
    assert (Hsame : forall l, allowed g' l <-> allowed g l) by (intros l; by eapply same_nodes_allowed).
    split.
    + destruct (depends_on g params) as [d|]; [|by split; [|constructor]].
      rewrite Forall_singleton, Hsame. naive_solver.
    + intros Hls. eapply grown_sound; [done|done|exact Hg|exact Hls|constructor].
  - destruct (one_more g g' n (parent_id i) _ Hok Hs Hg Hid Ep) as [Hown Hso]; [by rewrite Hn|exact (fun p => Hpar i p Htn)|].
    apply Hso, Forall_app. split; [done|]. constructor; [|constructor].
    eapply link_allowed; [done|exact Hg|exact Et|reflexivity|]. rewrite Hi, Hn by auto. done.
  - destruct (one_more g g' n (parent_id svc) _ Hok Hs Hg Hid Ep) as [Hown Hso]; [by rewrite Hn|exact (fun p => Hpar svc p Htn)|].
    apply Hso, Forall_app. split; [done|]. constructor; [|constructor].
    eapply link_allowed; [done|exact Hg|exact Et|reflexivity|]. rewrite Hsv, Hn by auto. done.
  - rewrite (grown_typed g g' _ _ Hok (so_typed g Hs) Hg). intros [(s & t & d & Es & Et' & Ed & Hv) _]%Forall_cons.
    cbn [fst snd] in *. rewrite (grown_new _ _ _ _ n Hg) in Et' by (by left). injection Et' as <-.
    vm_compute in Ed. injection Ed as <-. unfold is_valid_connection in Hv. rewrite Hn in Hv.
    apply andb_true_iff in Hv as [_ Hv]. vm_compute in Hv. discriminate Hv.
Qed.

(** ** Removal *)

(** Parents form a forest: a rank that grows towards the roots, not above the
    number of nodes. *)
Definition ranked (rank : string -> nat) (g : TypedGraph) : Prop :=
  forall n p, n ∈ nodes g -> parent_id n = Some p -> (rank (n_id n) < rank p)%nat.
Definition forest (g : TypedGraph) : Prop := exists rank,
  ranked rank g /\ forall n, n ∈ nodes g -> (rank (n_id n) <= length (g_nodes g))%nat.

(** What the recursion does: nodes go, all else stays. *)
Record pruned (g g' : TypedGraph) : Prop := {
  pr_nodes n : n ∈ nodes g' -> n ∈ nodes g;
  pr_dict : dict_ok (g_nodes g) -> dict_ok (g_nodes g');
  pr_edges : g_edges g' = g_edges g;
  pr_adjacency : g_adjacency g' = g_adjacency g;
  pr_reverse : g_reverse g' = g_reverse g;
}.
Lemma pruned_refl g : pruned g g.
Proof. done. Qed.
Lemma pruned_trans g1 g2 g3 : pruned g1 g2 -> pruned g2 g3 -> pruned g1 g3.
Proof. intros [N1 D1 E1 A1 R1] [N2 D2 E2 A2 R2]. split; [auto|auto|congruence..]. Qed.
Lemma pruned_ranked rank g g' : pruned g g' -> ranked rank g -> ranked rank g'.
Proof. intros [Hn _ _ _ _] Hr n p Hin. apply Hr. auto. Qed.
Lemma ddel_values {V} k (d : list (string * V)) v : v ∈ dvalues (ddel k d) -> v ∈ dvalues d.
Proof.
  induction d as [|[k' v'] d IH]; [done|]. cbn. destruct (decide _); cbn; rewrite !elem_of_cons; naive_solver.
Qed.
Lemma drop_node_pruned k g : pruned g (drop_node k g).
Proof. split; [|apply ddel_ok|done..]. intros n. apply ddel_values. Qed.

Lemma prune_list (f : string -> M TypedGraph unit) rank (P : string -> Prop) ids g :
  (forall k g, P k -> ranked rank g -> exists g', f k g = (Ok tt, g') /\ pruned g g') ->
  Forall P ids -> ranked rank g -> exists g', for_each ids f g = (Ok tt, g') /\ pruned g g'.
Proof.
  intros Hf Hids. revert g. induction Hids as [|k ids Hk _ IH]; intros g Hr; [by exists g|].
  cbn [for_each]. unfold_monad. destruct (Hf k g Hk Hr) as (g1 & -> & H1').
  destruct (IH g1) as (g2 & -> & H2'); [by eapply pruned_ranked|]. exists g2. split; [done|]. by eapply pruned_trans.
Qed.
Lemma children_ranked rank g k : ranked rank g -> Forall (fun id => rank id < rank k)%nat (map n_id (children_in g k)).
Proof.
  intros Hr. apply Forall_map, Forall_forall. intros n Hn. apply list_elem_of_In, filter_In in Hn as [Hn Hp].
  apply bool_decide_eq_true in Hp. apply Hr; [by apply list_elem_of_In|done].
Qed.
Lemma remove_recursive_run rank fuel k g : ranked rank g -> (rank k < fuel)%nat ->
  exists g', remove_node_recursive fuel k g = (Ok tt, g') /\ pruned g g'.
Proof.
  revert k g. induction fuel as [|fuel IH]; intros k g Hr Hk; [lia|]. cbn [remove_node_recursive]. unfold_monad.
  destruct (prune_list (remove_node_recursive fuel) rank (fun id => rank id < fuel)%nat (map n_id (children_in g k)) g)
    as (g1 & -> & Hg1).
  - intros k' g' Hk' Hr'. by apply IH.
  - eapply Forall_impl; [by apply children_ranked|]. cbn. intros. lia.
  - done.
  - eexists. split; [done|]. eapply pruned_trans; [exact Hg1|apply drop_node_pruned].
Qed.

Lemma drop_edges_spec ids g :
  let g' := fold_left (fun g eid => drop_edge eid g) ids g in
  g_nodes g' = g_nodes g /\ g_adjacency g' = g_adjacency g /\ g_reverse g' = g_reverse g /\
  (dict_ok (g_edges g) -> forall eid, eid ∈ ids -> dget eid (g_edges g') = None).
Proof.
  revert g. induction ids as [|i ids IH]; intros g; cbn zeta; cbn [fold_left].
  { split_and!; [done..|]. intros _ eid Hin. by apply not_elem_of_nil in Hin. }
  destruct (IH (drop_edge i g)) as (-> & -> & -> & He). split_and!; [done..|].
  intros Hd eid Hin. destruct (decide (eid ∈ ids)) as [Hi|Hi].
  - apply He; [|done]. by apply ddel_ok.
  - apply elem_of_cons in Hin as [->|Hin]; [|done].
    assert (Hgone : forall ids g, dget i (g_edges g) = None -> dget i (g_edges (fold_left (fun g eid => drop_edge eid g) ids g)) = None).
    { clear. induction ids as [|j ids IH]; intros g Hg; [done|]. cbn [fold_left]. apply IH. cbn.
      apply dget_None. intros Hin%dkeys_ddel. by apply dget_None in Hg. }
    apply Hgone. cbn. rewrite dget_ddel by done. by rewrite decide_True.
Qed.
Lemma missing_edge_raises g ids : (exists eid, eid ∈ ids /\ dget eid (g_edges g) = None) ->
  exists eid, edges_of_ids g ids = Raise (KeyError eid).
Proof.
  induction ids as [|i ids IH]; intros (eid & Hin & He); [by apply not_elem_of_nil in Hin|]. cbn [edges_of_ids].
  destruct (dget i (g_edges g)) as [e|] eqn:E; [|by exists i]. destruct IH as [x ->]; [|by exists x].
  exists eid. split; [|done]. apply elem_of_cons in Hin as [->|Hin]; [congruence|done].
Qed.

(** On a graph whose indexes agree and whose parents form a forest,
    structural_remove_node of a node returns, and the node is gone; but every other
    node that had an edge to it keeps the id of the edge among its own, so asking
    for its outgoing edges raises a KeyError from then on. *)
Theorem removal_breaks_neighbours g target params w :
  graph_ok g -> forest g -> target ∈ dkeys (g_nodes g) ->
  exists g' data, remove_node_apply g target params w = (Ok (g', data), w) /\
    (target ∉ dkeys (g_nodes g')) /\
    forall e, e ∈ edges g -> target_id e = target -> source_id e <> target ->
      exists eid, get_outgoing_edges g' (source_id e) = Raise (KeyError eid).
Proof.
  intros Hok (rank & Hr & Hb) Ht. unfold remove_node_apply.
  pose proof (copy_ok g Hok) as Hc. set (c := copy_graph g) in *.
  assert (En : g_nodes c = g_nodes g) by (by apply copy_nodes_same).
  assert (Hnc : nodes c = nodes g) by (unfold nodes; by rewrite En).
  unfold c at 1. rewrite copy_get_node by done. destruct (target_found g target Ht) as [n ->].
  assert (Hrc : ranked rank c) by (intros m p; rewrite Hnc; apply Hr).
  destruct (prune_list (remove_node_recursive (S (length (g_nodes c)))) rank (fun id => rank id < S (length (g_nodes c)))%nat
              (map n_id (children_in c target)) c) as (g1 & E1 & Hp1).
  { intros k' g' Hk' Hr'. by eapply remove_recursive_run. }
  { apply Forall_map, Forall_forall. intros m Hm. apply list_elem_of_In, filter_In in Hm as [Hm _].
    rewrite En. apply list_elem_of_In in Hm. rewrite Hnc in Hm. specialize (Hb m Hm). lia. }
  { done. }
  unfold applied, remove_node. unfold_monad. rewrite E1. do 2 eexists. split; [reflexivity|].
  destruct Hp1 as [Hpn Hpd Hpe Hpa Hpr].
  match goal with |- context [fold_left _ ?ids g1] => pose proof (drop_edges_spec ids g1) as Hd; set (g2 := fold_left _ ids g1) in * end.
  destruct Hd as (Dn & Da & Dr & De). split.
  - cbn. apply dget_None. rewrite Dn, dget_ddel by (apply Hpd, Hc). by rewrite decide_True.
  - intros e He Et Es.
    assert (Hce : copy_edge e ∈ edges c) by (unfold c; rewrite copy_edges; by apply list_elem_of_fmap_2).
    destruct (edge_endpoints g e Hok He) as [Hsrc _].
    unfold get_outgoing_edges. cbn [drop_entries g_adjacency]. rewrite Da, Hpa, (ok_adjacency c Hc).
    unfold dget_or at 1. rewrite dget_ddel by (unfold dict_ok, table_for; rewrite dkeys_dtable; apply Hc).
    rewrite decide_False by done. unfold table_for. rewrite dget_dtable by (by rewrite En).
    apply missing_edge_raises. exists (e_id e). split.
    + change (e_id e) with (e_id (copy_edge e)). apply list_elem_of_fmap_2, list_elem_of_In, filter_In.
      rewrite <- list_elem_of_In. split; [done|]. by apply bool_decide_eq_true_2.
    + cbn [drop_entries g_edges]. apply De; [rewrite Hpe; apply Hc|]. apply elem_of_app. right.
      rewrite Hpr, (ok_reverse c Hc). unfold dget_or, table_for. rewrite dget_dtable by (by rewrite En).
      change (e_id e) with (e_id (copy_edge e)). apply list_elem_of_fmap_2, list_elem_of_In, filter_In.
      rewrite <- list_elem_of_In. split; [done|]. by apply bool_decide_eq_true_2.
Qed.
End Operators.

(** ** Examples

    A system with a module and an entity in it. *)

#[local] Existing Instance IsrRoundTrip.sample_texts.
#[local] Existing Instance IsrRoundTrip.sample_surroundings.

Definition small_graph : TypedGraph := graph_of
  [node N_SYSTEM "sys:a" "A" [] None; node N_MODULE "mod:b" "B" [] (Some "sys:a");
   node N_ENTITY "ent:c" "C" [] (Some "mod:b")]
  [edge "e1" "sys:a" "mod:b" E_OWNS; edge "e2" "mod:b" "ent:c" E_OWNS].
Lemma small_graph_ok : graph_ok small_graph.
Proof. apply built_ok, graph_of_built. Qed.
Lemma small_nodes n : n ∈ nodes small_graph ->
  n = node N_SYSTEM "sys:a" "A" [] None \/ n = node N_MODULE "mod:b" "B" [] (Some "sys:a") \/
  n = node N_ENTITY "ent:c" "C" [] (Some "mod:b").
Proof.
  change (nodes small_graph) with [node N_SYSTEM "sys:a" "A" [] None; node N_MODULE "mod:b" "B" [] (Some "sys:a");
    node N_ENTITY "ent:c" "C" [] (Some "mod:b")]. rewrite !elem_of_cons, elem_of_nil. tauto.
Qed.
Lemma small_graph_sound : sound small_graph.
Proof.
  split; [apply (typed_checked id); by vm_compute| |done].
  intros n p [->|[->| ->]]%small_nodes; cbn; try done; intros [= <-]; by eexists.
Qed.
Lemma small_graph_forest : forest small_graph.
Proof.
  exists (fun k => if decide (k = "sys:a") then 2 else if decide (k = "mod:b") then 1 else 0)%nat. split.
  - intros n p [->|[->| ->]]%small_nodes; cbn; try done; intros [= <-]; vm_compute; lia.
  - intros n [->|[->| ->]]%small_nodes; vm_compute; lia.
Qed.

Definition add_entity : MutationOperatorSpec :=
  operator_spec "structural_add_entity" MC_STRUCTURAL CL_ADDITIVE "Add a new entity to a module" "low"
    ["entity"] [("complexity", of_ratio 2 100); ("maintainability", of_ratio (-1) 100)] true
    target_is_module add_entity_apply.
Lemma adding_operators_keep_types_witness :
  match add_entity_apply small_graph "mod:b" [] world0 with
  | (Ok (g', _), _) => sound g' /\ length (nodes g') = 4%nat
  | _ => False
  end.
Proof.
  destruct (adding_operators_keep_types small_graph add_entity "mod:b" [] world0 small_graph_ok small_graph_sound)
    as (apply & Ea & Hs); [by left|done|done|].
  injection Ea as <-. destruct (add_entity_apply small_graph "mod:b" [] world0) as [[[g' data]|x] w'] eqn:E.
  - split; [by destruct Hs as (ns & links & _ & _ & Hs)|]. vm_compute in E. by injection E as <- _ _.
  - exfalso. vm_compute in E. discriminate E.
Defined.
Lemma removal_breaks_neighbours_witness : exists g' data eid,
  remove_node_apply small_graph "ent:c" [] world0 = (Ok (g', data), world0) /\
  get_outgoing_edges g' "mod:b" = Raise (KeyError eid).
Proof.
  destruct (removal_breaks_neighbours small_graph "ent:c" [] world0 small_graph_ok small_graph_forest)
    as (g' & data & E & _ & Hr); [by vm_compute; right; right; left|].
  destruct (Hr (edge "e2" "mod:b" "ent:c" E_OWNS)) as [eid Eo]; [by vm_compute; right; left|done|done|].
  by exists g', data, eid.
Defined.

(** * Evolution engine: operators on the graphs of ISRs

    The graph of an ISR is well typed, its parents are containers and form a
    forest, so the theorems on operators apply to it. *)

Section Converted.
Context `{Surroundings, Texts, ContentHash}.

(** ** The links of the script *)

Lemma link_in_script known s a b t : (a, b, t) ∈ added_links known s ->
  I_link a b t ∈ s \/ (I_link_if_present a b t ∈ s /\ b ∈ known ++ added_ids s).
Proof.
  revert known. induction s as [|c s IH]; intros known Hin; [by apply not_elem_of_nil in Hin|].
  unfold added_ids in *. destruct c as [n|x y t'|x y t'|]; cbn [added_links added_nodes flat_map app map] in *.
  - destruct (IH _ Hin) as [Hl|[Hl Hb]]; [left; by right|right]. split; [by right|]. by rewrite <- app_assoc in Hb.
  - apply elem_of_cons in Hin as [[= -> -> ->]|Hin]; [left; by left|].
    destruct (IH _ Hin) as [Hl|[Hl Hb]]; [left; by right|right]. split; [by right|done].
  - destruct (mem y known) eqn:Ey.
    + apply elem_of_cons in Hin as [[= -> -> ->]|Hin].
      * right. split; [by left|]. apply elem_of_app. left. by apply mem_true.
      * destruct (IH _ Hin) as [Hl|[Hl Hb]]; [left; by right|right]. split; [by right|done].
    + destruct (IH _ Hin) as [Hl|[Hl Hb]]; [left; by right|right]. split; [by right|done].
  - destruct (IH _ Hin) as [Hl|[Hl Hb]]; [left; by right|right]. split; [by right|done].
Qed.

(** Levels: the system, modules, their parts, the parts of those. *)
Definition level (t : NodeType) : nat :=
  match t with N_SYSTEM => 3 | N_MODULE => 2 | N_ENTITY | N_SERVICE | N_INTERFACE => 1 | _ => 0 end%nat.

(** An instruction whose ends have the types its edge needs, a node whose parent
    owns it and is a level above. *)
Record owned_by (ns : list GraphNode) (owner : string) (n : GraphNode) : Prop := {
  ob_owner : exists o, o ∈ ns /\ n_id o = owner /\ is_container (node_type o) = true /\
                       (level (node_type n) < level (node_type o))%nat;
  ob_parent : parent_id n = Some owner;
  ob_target : mem (node_type n) [N_MODULE; N_ENTITY; N_SERVICE; N_INTERFACE; N_POLICY; N_EVENT;
                                 N_FIELD; N_OPERATION; N_ENDPOINT] = true;
}.
Definition fits (ns : list GraphNode) (c : instruction) : Prop :=
  match c with
  | I_node n => parent_id n = None \/ exists owner, owned_by ns owner n
  | I_link a b t => t = E_OWNS /\ exists n, n ∈ ns /\ n_id n = b /\ owned_by ns a n
  | I_link_if_present a b t =>
      (t = E_DEPENDS_ON /\ (exists n, n ∈ ns /\ n_id n = a /\ node_type n = N_SERVICE) /\ exists v, b = svc_key v) \/
      (t = E_SECURED_BY /\ (exists n, n ∈ ns /\ n_id n = a /\ node_type n = N_INTERFACE) /\ exists v, b = pol_key v)
  | I_no_pattern => True
  end.

Definition has (ns : list GraphNode) (k : string) (t : NodeType) : Prop :=
  exists o, o ∈ ns /\ n_id o = k /\ node_type o = t.
Definition within (ns : list GraphNode) (s : list instruction) : Prop := forall n, n ∈ added_nodes s -> n ∈ ns.

Lemma within_app ns s1 s2 : within ns (s1 ++ s2) -> within ns s1 /\ within ns s2.
Proof. unfold within. rewrite added_nodes_app. intros Hw. split; intros n Hn; apply Hw, elem_of_app; auto. Qed.
Lemma fits_flat {A} ns (f : A -> list instruction) xs : within ns (flat_map f xs) ->
  (forall x, x ∈ xs -> within ns (f x) -> Forall (fits ns) (f x)) -> Forall (fits ns) (flat_map f xs).
Proof.
  intros Hw Hf. induction xs as [|x xs IH]; [constructor|]. cbn [flat_map] in *. apply within_app in Hw as [Hx Hw].
  apply Forall_app. split; [by apply Hf; [left|]|]. apply IH; [done|]. intros y Hy. apply Hf. by right.
Qed.
Lemma fits_owned ns owner t n : within ns (owned owner n) -> has ns owner t -> is_container t = true ->
  parent_id n = Some owner ->
  (level (node_type n) < level t)%nat ->
  mem (node_type n) [N_MODULE; N_ENTITY; N_SERVICE; N_INTERFACE; N_POLICY; N_EVENT; N_FIELD; N_OPERATION; N_ENDPOINT] = true ->
  Forall (fits ns) (owned owner n).
Proof.
  intros Hw (o & Ho & Ek & <-) Hc Hp Hl Ht. assert (Hb : owned_by ns owner n) by (split; [by exists o|done|done]).
  constructor; [by right; exists owner|]. constructor; [|constructor]. split; [done|]. exists n.
  split_and!; [|done|done]. apply Hw. by left.
Qed.
Lemma has_new ns owner n t : within ns (owned owner n) -> node_type n = t -> has ns (n_id n) t.
Proof. intros Hw Ht. exists n. split_and!; [|done|done]. apply Hw. by left. Qed.

(** An owner with its parts. *)
Lemma fits_block ns owner t n s : within ns (owned owner n ++ s) -> has ns owner t -> is_container t = true ->
  parent_id n = Some owner -> (level (node_type n) < level t)%nat ->
  mem (node_type n) [N_MODULE; N_ENTITY; N_SERVICE; N_INTERFACE; N_POLICY; N_EVENT; N_FIELD; N_OPERATION; N_ENDPOINT] = true ->
  (has ns (n_id n) (node_type n) -> within ns s -> Forall (fits ns) s) ->
  Forall (fits ns) (owned owner n ++ s).
Proof.
  intros [Hn Hs]%within_app Ho Hc Hp Hl Ht Hrest. apply Forall_app. split; [by eapply fits_owned|].
  apply Hrest; [|done]. by eapply has_new.
Qed.
Lemma fits_entity ns mid e : within ns (entity_script mid e) -> has ns mid N_MODULE ->
  Forall (fits ns) (entity_script mid e).
Proof.
  intros Hw Hm. eapply fits_block; [done|exact Hm|done|done|cbn; lia|done|]. intros He Hf. apply fits_flat; [done|].
  intros f _ Hwf. eapply fits_owned; [done|exact He|done|done|cbn; lia|done].
Qed.
Lemma fits_service ns mid s : within ns (service_script mid s) -> has ns mid N_MODULE ->
  Forall (fits ns) (service_script mid s).
Proof.
  intros Hw Hm. eapply fits_block; [done|exact Hm|done|done|cbn; lia|done|]. intros Hs [Ho _]%within_app.
  apply Forall_app. split.
  - apply fits_flat; [done|]. intros op _ Hwo. eapply fits_owned; [done|exact Hs|done|done|cbn; lia|done].
  - apply Forall_forall. intros c (d & -> & _)%list_elem_of_fmap. left. split_and!; [done|exact Hs|by eexists].
Qed.
Lemma fits_interface ns mid x : within ns (interface_script mid x) -> has ns mid N_MODULE ->
  Forall (fits ns) (interface_script mid x).
Proof.
  intros Hw Hm. eapply fits_block; [done|exact Hm|done|done|cbn; lia|done|]. intros Hi [Ho _]%within_app.
  apply Forall_app. split.
  - apply fits_flat; [done|]. intros ep _ Hwo. eapply fits_owned; [done|exact Hi|done|done|cbn; lia|done].
  - destruct (val_truthy _); constructor; [|constructor]. right. split_and!; [done|exact Hi|by eexists].
Qed.
Lemma fits_module ns sid m : within ns (module_script sid m) -> has ns sid N_SYSTEM ->
  Forall (fits ns) (module_script sid m).
Proof.
  intros Hw Hs. eapply fits_block; [done|exact Hs|done|done|cbn; lia|done|]. intros Hm Hr.
  apply within_app in Hr as [He Hr]. apply within_app in Hr as [Hsv Hr]. apply within_app in Hr as [Hi Hr].
  apply within_app in Hr as [Hp Hev]. rewrite !Forall_app. split_and!; (apply fits_flat; [done|]); intros x _ Hx.
  - by apply fits_entity.
  - by apply fits_service.
  - by apply fits_interface.
  - eapply fits_owned; [done|exact Hm|done|done|cbn; lia|done].
  - unfold event_script in *. destruct (ev_pattern x); [|by repeat constructor].
    eapply fits_owned; [done|exact Hm|done|done|cbn; lia|done].
Qed.
Lemma fits_isr i : Forall (fits (isr_nodes i)) (isr_script i).
Proof.
  assert (Hw : within (isr_nodes i) (isr_script i)) by (intros n Hn; exact Hn).
  unfold isr_script in *. constructor; [by left|]. apply fits_flat.
  - intros n Hn. apply Hw. by right.
  - intros m _ Hm. apply fits_module; [done|]. exists (system_node i). split_and!; [|done|done]. apply Hw. by left.
Qed.

(** A node that may own is not alone: its owners are before it. *)
Lemma owners_before i n : n ∈ isr_nodes i -> (0 < level (node_type n))%nat ->
  (3 - level (node_type n) < length (isr_nodes i))%nat.
Proof.
  rewrite isr_nodes_eq. intros [->|Hn]%elem_of_cons Hl; [cbn; lia|].
  apply list_elem_of_In, in_flat_map in Hn as (m & (m1 & m2 & ->)%in_split & Hn). cbn [length].
  rewrite flat_map_app, length_app. cbn [flat_map]. rewrite length_app. unfold module_nodes at 2. cbn [length].
  destruct Hn as [<-|(l1 & l2 & E)%in_split]; [cbn; lia|].
  match type of E with ?tail = _ => assert (0 < length tail)%nat by (rewrite E, length_app; cbn; lia) end.
  lia.
Qed.

Section Graph.
Context (i : ISR) (g : TypedGraph) (w w' : World).
Hypothesis Hconverted : convert_isr i w = (Ok g, w').

Lemma converted_nodes n : n ∈ nodes g <-> n ∈ isr_nodes i.
Proof.
  destruct (converted_graph i g w w' Hconverted) as (_ & En & _). unfold nodes, dvalues.
  by rewrite En, map_map, map_id.
Qed.
Lemma converted_get n : n ∈ isr_nodes i -> get_node g (n_id n) = Some n.
Proof.
  destruct (converted_graph i g w w' Hconverted) as (Hok & En & _). intros Hn. unfold get_node.
  apply elem_dget; [apply Hok|]. rewrite En. by apply (list_elem_of_fmap_2 (fun n => (n_id n, n))).
Qed.
Lemma converted_owner n p : n ∈ isr_nodes i -> parent_id n = Some p ->
  exists o, o ∈ isr_nodes i /\ n_id o = p /\ is_container (node_type o) = true /\
            (level (node_type n) < level (node_type o))%nat.
Proof.
  intros Hn Ep. pose proof (proj1 (Forall_forall _ _) (fits_isr i) (I_node n)) as Hf.
  destruct Hf as [Hp|(owner & [Ho Hp _])]; [|congruence|simplify_eq; done].
  apply list_elem_of_In, in_flat_map in Hn as ([m| | |] & Hm & Hin); try done.
  destruct Hin as [->|[]]. by apply list_elem_of_In.
Qed.
Lemma converted_typed : typed g.
Proof.
  destruct (converted_graph i g w w' Hconverted) as (Hok & _ & Ee & _).
  intros e He. rewrite Ee in He.
  assert (Hl : (source_id e, target_id e, edge_type e) ∈ isr_links i).
  { clear Ee. revert He. generalize (w_uuids w). induction (isr_links i) as [|l ls IH]; intros k He; [by apply not_elem_of_nil in He|].
    apply elem_of_cons in He as [->|He]; [destruct l as [[a b] t]; by left|right; by eapply IH]. }
  pose proof (proj1 (Forall_forall _ _) (fits_isr i)) as Hf.
  unfold ends_of, allowed. cbn [fst snd]. apply link_in_script in Hl as [Hl|[Hl Hb]].
  - destruct (Hf _ Hl) as (Et & n & Hn & <- & [(o & Ho & <- & Hc & _) _ Ht]). rewrite Et.
    exists o, n. eexists. split_and!; [by apply converted_get|by apply converted_get|reflexivity|].
    unfold is_valid_connection. apply andb_true_iff. split.
    + revert Hc. by destruct (node_type o).
    + revert Ht. by destruct (node_type n).
  - cbn [app] in Hb. apply list_elem_of_fmap in Hb as (n & Eb & Hn). pose proof (keyed_isr i n Hn) as [Hs Hp].
    destruct (Hf _ Hl) as [(Et & (o & Ho & <- & Eo) & v & Ev)|(Et & (o & Ho & <- & Eo) & v & Ev)];
      rewrite Et, Eb; exists o, n; (eexists; split_and!; [by apply converted_get|by apply converted_get|reflexivity|]).
    + rewrite Eo, (Hs v) by congruence. reflexivity.
    + rewrite Eo, (Hp v) by congruence. reflexivity.
Qed.
Lemma converted_no_empty_id : get_node g "" = None.
Proof.
  destruct (converted_graph i g w w' Hconverted) as (Hok & En & _). apply dget_None. rewrite En.
  unfold dkeys. rewrite map_map. intros (n & E & Hn)%list_elem_of_fmap. revert Hn. rewrite isr_nodes_eq.
  cbn in E. intros [->|Hn]%elem_of_cons; [done|].
  apply list_elem_of_In, in_flat_map in Hn as (m & _ & [<-|Hn]); [done|].
  rewrite !in_app_iff, !in_flat_map, in_map_iff in Hn.
  destruct Hn as [(x & _ & Hn)|[(x & _ & Hn)|[(x & _ & Hn)|[(x & <- & _)|(x & _ & Hn)]]]]; [| | |done|].
  1-3: destruct Hn as [<-|(y & <- & _)%in_map_iff]; done.
  unfold event_nodes in Hn. destruct (ev_pattern x); [|done]. by destruct Hn as [<-|[]].
Qed.
Lemma converted_forest : forest g.
Proof.
  destruct (converted_graph i g w w' Hconverted) as (_ & En & _).
  exists (fun k => match get_node g k with
           | Some n => length (isr_nodes i) - (3 - level (node_type n)) | None => 0 end)%nat.
  split.
  - intros n p Hn Ep. apply converted_nodes in Hn. destruct (converted_owner n p Hn Ep) as (o & Ho & <- & _ & Hl).
    rewrite !converted_get by done. pose proof (owners_before i o Ho ltac:(lia)).
    assert (level (node_type o) <= 3)%nat by (destruct (node_type o); cbn; lia). lia.
  - intros n Hn. apply converted_nodes in Hn. rewrite converted_get by done. rewrite En, length_map. lia.
Qed.
End Graph.

Lemma converted_sound i w g w' : convert_isr i w = (Ok g, w') -> sound g.
Proof.
  intros E. split; [by eapply converted_typed| |by eapply converted_no_empty_id].
  intros n p Hn Ep. apply (converted_nodes i g w w' E) in Hn. destruct (converted_owner i n p Hn Ep) as (o & Ho & <- & Hc & _).
  exists o. split; [by eapply converted_get|done].
Qed.

(** C37: whatever ISR it is given, a graph that [isr_to_graph] returns keeps the
    invariant of the graph's indexes, it is well typed (the table of connections
    allows every edge), every parent is a container of the graph, and parents form a
    forest: the hypotheses of the theorems on operators hold of it. *)
Theorem converted_graph_sound i w g w' : convert_isr i w = (Ok g, w') ->
  graph_ok g /\ sound g /\ forest g.
Proof.
  intros E. split_and!; [by apply (converted_graph i g w w')|by eapply converted_sound|by eapply converted_forest].
Qed.
End Converted.

(** ** The operators on an example *)

#[local] Existing Instance IsrRoundTrip.sample_texts.
#[local] Existing Instance IsrRoundTrip.sample_hash.
#[local] Existing Instance IsrRoundTrip.sample_surroundings.

Definition shop_graph : TypedGraph :=
  match convert_isr (isr_of shop) world0 with (Ok g, _) => g | (Raise _, _) => empty_graph end.
Lemma shop_converts : convert_isr (isr_of shop) world0 = (Ok shop_graph, snd (convert_isr (isr_of shop) world0)).
Proof. vm_compute. reflexivity. Qed.
Lemma converted_graph_sound_witness : graph_ok shop_graph /\ sound shop_graph /\ forest shop_graph.
Proof. exact (converted_graph_sound _ _ _ _ shop_converts). Defined.
