(* ===== verification/EvoSelectSpec.v ===== *)
(** * Evolution engine: theorems on selection, elites and lineage

    Selection always returns a member of the population, a tournament its best
    contestant; elites are the best of a population and replace the worst of the
    next; the ancestors of an individual. *)

From Stdlib Require Import SpecFloat.
From S2P Require Import Prelude PyFloat PyVal PyText IsrModel TypedGraph EvoModels EvoPopulation.
Open Scope Z_scope.

#[local] Opaque fltb fleb fadd fmul fsub fdiv.

(** ** Sorting and maxima by a key *)

Section ByKey.
Context {A : Type} (key : A -> float).
Implicit Types (xs : list A).

(** Keys that are numbers. *)
Definition keyed xs : Prop := forall x, x ∈ xs -> is_nan (key x) = false.

Lemma keyed_cons x xs : keyed (x :: xs) <-> is_nan (key x) = false /\ keyed xs.
Proof.
  unfold keyed. setoid_rewrite elem_of_cons. split; [naive_solver|]. intros [? ?] y [->|]; auto.
Qed.

Lemma keyed_perm xs ys : xs ≡ₚ ys -> keyed xs -> keyed ys.
Proof. intros HP Hx y Hy. apply Hx. by rewrite HP. Qed.

Lemma sorted_down_perm xs : sorted_down key xs ≡ₚ xs.
Proof. apply sort_by_perm. Qed.
Lemma sorted_by_perm xs : sorted_by key xs ≡ₚ xs.
Proof. apply sort_by_perm. Qed.

Lemma sorted_strongly xs (R : A -> A -> bool) :
  (forall x y, x ∈ xs -> y ∈ xs -> R x y = true -> fleb (key y) (key x) = true) -> keyed xs ->
  Sorted (fun a b => R a b = true) xs -> StronglySorted (fun a b => fleb (key b) (key a) = true) xs.
Proof.
  intros HR Hk Hs. apply Sorted_StronglySorted; [intros x y z ? ?; by eapply fleb_trans|].
  induction Hs as [|x xs Hs IH Hhd]; constructor.
  - apply IH; [|by apply keyed_cons in Hk as [_ ?]]. intros; apply HR; [by right..|done].
  - destruct Hhd as [|y xs Hxy]; constructor. apply HR; [by left|by right; left|done].
Qed.

(** The first of the sorted list is the best. *)
Lemma sorted_down_head xs h rest : keyed xs -> sorted_down key xs = h :: rest ->
  forall y, y ∈ xs -> fleb (key y) (key h) = true.
Proof.
  intros Hk E y Hy. rewrite <- (sorted_down_perm xs), E in Hy.
  assert (Hk' : keyed (h :: rest)).
  { eapply keyed_perm; [|exact Hk]. rewrite <- E. by rewrite sorted_down_perm. }
  assert (Hs : StronglySorted (fun a b => fleb (key b) (key a) = true) (h :: rest)).
  { apply (sorted_strongly _ (fun a b => negb (fltb (key a) (key b)))); [|done|].
    - intros a b Ha Hb H%negb_true_iff. apply not_ltb_fleb; auto.
    - rewrite <- E. apply sort_by_sorted. intros a b H%negb_false_iff.
      by rewrite (fltb_asym _ _ H). }
  apply StronglySorted_inv in Hs as [_ Hf]. rewrite Forall_forall in Hf.
  apply elem_of_cons in Hy as [->|Hy]; [|by apply Hf]. apply fleb_refl, Hk'. by left.
Qed.

Lemma fold_max_spec xs best :
  let m := fold_left (fun best y => if fltb (key best) (key y) then y else best) xs best in
  (m = best \/ m ∈ xs) /\
  (keyed (best :: xs) -> forall y, y ∈ best :: xs -> fleb (key y) (key m) = true).
Proof.
  revert best. induction xs as [|x xs IH]; intros best; cbn [fold_left].
  - split; [by left|]. intros Hk y ->%list_elem_of_singleton. apply fleb_refl, Hk. by left.
  - destruct (IH (if fltb (key best) (key x) then x else best)) as [Hin Htop]. split.
    + rewrite elem_of_cons. destruct (fltb _ _); naive_solver.
    + intros Hk. apply keyed_cons in Hk as [Hb Hk]. pose proof Hk as Hk'. apply keyed_cons in Hk as [Hx Hk].
      assert (Hn : keyed ((if fltb (key best) (key x) then x else best) :: xs))
        by (apply keyed_cons; by destruct (fltb _ _)).
      specialize (Htop Hn). intros y Hy.
      assert (Hstep : y ∈ xs \/ fleb (key y) (key (if fltb (key best) (key x) then x else best)) = true).
      { apply elem_of_cons in Hy as [->|[->|Hy]%elem_of_cons]; [right|right|by left].
        - destruct (fltb (key best) (key x)) eqn:E; [|by apply fleb_refl].
          apply not_ltb_fleb; auto using fltb_asym.
        - destruct (fltb (key best) (key x)) eqn:E; [by apply fleb_refl|]. by apply not_ltb_fleb. }
      destruct Hstep as [Hin'|Hle]; [apply Htop; by right|].
      eapply fleb_trans; [exact Hle|]. apply Htop. by left.
Qed.

Lemma max_by_spec xs m : max_by key xs = Ok m ->
  m ∈ xs /\ (keyed xs -> forall y, y ∈ xs -> fleb (key y) (key m) = true).
Proof.
  destruct xs as [|x xs]; [done|]. cbn [max_by]. intros [= <-].
  destruct (fold_max_spec xs x) as [Hin Htop]. split; [|done].
  apply elem_of_cons. destruct Hin as [->|]; auto.
Qed.

Lemma max_by_ok xs : xs <> [] -> exists m, max_by key xs = Ok m.
Proof. destruct xs; [done|]. by eexists. Qed.
End ByKey.

Lemma max_of_spec x xs :
  max_of x xs ∈ x :: xs /\
  (keyed id (x :: xs) -> forall y, y ∈ x :: xs -> fleb y (max_of x xs) = true).
Proof. apply (max_by_spec id (x :: xs)). reflexivity. Qed.

Lemma first_items_pos {A} n (x : A) xs : 0 < n -> exists k, first_items n (x :: xs) = x :: take k xs.
Proof.
  intros Hn. unfold first_items. replace (n <? 0) with false by lia.
  destruct (Z.to_nat n) as [|k] eqn:E; [lia|]. by exists k.
Qed.
Lemma take_sub {A} n (xs : list A) x : x ∈ take n xs -> x ∈ xs.
Proof. intros Hx. rewrite <- (take_drop n xs). apply elem_of_app. by left. Qed.
Lemma first_items_sub {A} n (xs : list A) x : x ∈ first_items n xs -> x ∈ xs.
Proof. apply take_sub. Qed.

(** ** The random generator *)

Section Selection.
Context {I : Set} `{Surroundings}.
Implicit Types (pm : PopulationManager I).

Lemma choice_member {A} (xs : list A) (w : World) : xs <> [] ->
  exists x w', rng_choice xs w = (Ok x, w') /\ x ∈ xs.
Proof.
  intros Hn. destruct xs as [|x xs]; [done|]. eexists _, _. split; [reflexivity|].
  apply list_elem_of_In, nth_In, Nat.mod_upper_bound. simpl. lia.
Qed.

Lemma nth_split_perm {A} (xs : list A) j d : (j < length xs)%nat ->
  nth j xs d :: take j xs ++ drop (S j) xs ≡ₚ xs.
Proof.
  intros [y Hy]%lookup_lt_is_Some_2. rewrite (nth_lookup_Some _ _ d _ Hy).
  rewrite <- (take_drop_middle xs j _ Hy) at 3. by rewrite Permutation_middle.
Qed.

(** A sample is a selection of as many positions. *)
Lemma sample_loop_spec {A} k (pool : list A) (w : World) : (k <= length pool)%nat ->
  exists ys w', sample_loop k pool w = (Ok ys, w') /\ length ys = k /\ ys ⊆+ pool.
Proof.
  revert pool w. induction k as [|k IH]; intros pool w Hk.
  { exists [], w. destruct pool; (split; [reflexivity|split; [done|apply submseteq_nil_l]]). }
  destruct pool as [|x pool]; [simpl in Hk; lia|]. cbn [sample_loop].
  set (j := (random_bits (w_random w) mod length (x :: pool))%nat).
  assert (Hj : (j < length (x :: pool))%nat) by (apply Nat.mod_upper_bound; simpl; lia).
  pose proof (nth_split_perm (x :: pool) j x Hj) as HP.
  unfold_monad. unfold draw at 1. fold j.
  destruct (IH (take j (x :: pool) ++ drop (S j) (x :: pool))
              {| w_uuids := w_uuids w; w_clock := w_clock w; w_perf := w_perf w; w_random := S (w_random w) |})
    as (ys & w' & E & Hl & Hs).
  { apply Permutation_length in HP. simpl length in HP, Hk |- *. lia. }
  rewrite E. eexists _, _. split; [reflexivity|]. split; [by rewrite <- Hl|].
  eapply submseteq_trans; [apply submseteq_skip, Hs|]. by apply Permutation_submseteq.
Qed.

Lemma sample_spec {A} (xs : list A) k (w : World) : 0 <= k <= Z.of_nat (length xs) ->
  exists ys w', rng_sample xs k w = (Ok ys, w') /\ Z.of_nat (length ys) = k /\ ys ⊆+ xs.
Proof.
  intros Hk. unfold rng_sample.
  replace ((0 <=? k) && (k <=? Z.of_nat (length xs))) with true by lia.
  destruct (sample_loop_spec (Z.to_nat k) xs w) as (ys & w' & E & Hl & Hs); [lia|].
  exists ys, w'. split; [done|]. split; [lia|done].
Qed.

(** ** Selection *)

Lemma tournament_run pm w : pm_population pm <> [] -> 1 <= cf_tournament_size (pm_config pm) ->
  exists x w' contestants, select_tournament None pm w = (Ok x, w') /\ x ∈ contestants /\
    contestants ⊆+ pm_population pm /\
    Z.of_nat (length contestants)
    = Z.min (cf_tournament_size (pm_config pm)) (Z.of_nat (length (pm_population pm))) /\
    max_by composite_fitness contestants = Ok x.
Proof.
  intros Hn Ht. unfold select_tournament. cbn zeta.
  assert (Hl : (0 < length (pm_population pm))%nat) by (destruct (pm_population pm); [done|simpl; lia]).
  destruct (sample_spec (pm_population pm)
              (Z.min (cf_tournament_size (pm_config pm)) (Z.of_nat (length (pm_population pm)))) w)
    as (ys & w' & E & Hys & Hs); [lia|].
  assert (Hy : ys <> []) by (intros ->; simpl in Hys; lia).
  destruct (max_by_ok composite_fitness ys Hy) as [x Hx].
  exists x, w', ys. unfold_monad. rewrite E, Hx. split_and!; [done| |done..].
  by apply (max_by_spec composite_fitness ys).
Qed.

Lemma wheel_member r c (slices : list (Individual I * float)) x :
  wheel r c slices = Some x -> x ∈ slices.*1.
Proof.
  revert c. induction slices as [|[y f] slices IH]; intros c; [done|]. cbn [wheel].
  destruct (fleb _ _); [intros [= <-]; by left|]. intros Hx%IH. by right.
Qed.
Lemma wheel_or_last_member r (slices : list (Individual I * float)) : slices <> [] ->
  exists x, wheel_or_last r slices = Ok x /\ x ∈ slices.*1.
Proof.
  intros Hn. unfold wheel_or_last. destruct (wheel r fzero slices) as [x|] eqn:E.
  - exists x. split; [done|]. by eapply wheel_member.
  - destruct (last slices) as [[x f]|] eqn:El; [|by apply last_None in El].
    exists x. split; [done|]. apply last_Some_elem_of in El. by apply (list_elem_of_fmap_2 fst _ (x, f)).
Qed.

Lemma combine_fst {A B} (xs : list A) (ys : list B) : length xs = length ys -> (combine xs ys).*1 = xs.
Proof. revert ys. induction xs as [|x xs IH]; intros [|y ys]; simpl; try done. intros [= E]. f_equal. auto. Qed.

(** The configurations under which the method of selection has what it needs. *)
Definition selects (config : EvolutionConfig) : Prop :=
  cf_selection_algorithm config = "roulette" \/ cf_selection_algorithm config = "rank" \/
  1 <= cf_tournament_size config.

Lemma select_member pm w : pm_population pm <> [] -> selects (pm_config pm) ->
  exists x w', select pm w = (Ok x, w') /\ x ∈ pm_population pm.
Proof.
  intros Hn Hs.
  assert (Htour : 1 <= cf_tournament_size (pm_config pm) ->
    exists x w', select_tournament None pm w = (Ok x, w') /\ x ∈ pm_population pm).
  { intros Ht. destruct (tournament_run pm w Hn Ht) as (x & w' & ys & E & Hx & Hsub & _).
    exists x, w'. split; [done|]. by eapply elem_of_submseteq. }
  assert (Hwheel : forall r slices, slices.*1 ≡ₚ pm_population pm ->
    exists x, wheel_or_last r slices = Ok x /\ x ∈ pm_population pm).
  { intros r slices HP. destruct (wheel_or_last_member r slices) as (x & E & Hx).
    - intros ->. apply Permutation_nil_l in HP. done.
    - exists x. by rewrite <- HP. }
  unfold select. repeat case_bool_decide; [| | |].
  - apply Htour. destruct Hs as [Hs|[Hs|Hs]]; [congruence|congruence|done].
  - unfold select_roulette. destruct (feqb _ _); [by apply choice_member|].
    unfold_monad. unfold rng_uniform, draw. unfold_monad.
    match goal with |- context [wheel_or_last ?r ?s] => destruct (Hwheel r s) as (x & E & Hx) end.
    { rewrite combine_fst; [done|]. by rewrite length_map. }
    rewrite E. by eexists _, _.
  - unfold select_rank. unfold_monad. unfold rng_uniform, draw. unfold_monad.
    match goal with |- context [wheel_or_last ?r ?s] => destruct (Hwheel r s) as (x & E & Hx) end.
    { rewrite combine_fst; [apply sorted_by_perm|]. by rewrite length_map, length_seq. }
    rewrite E. by eexists _, _.
  - apply Htour. destruct Hs as [Hs|[Hs|Hs]]; [congruence|congruence|done].
Qed.

Lemma another_member n a b pm w : pm_population pm <> [] -> selects (pm_config pm) ->
  b ∈ pm_population pm -> exists x w', another n a b pm w = (Ok x, w') /\ x ∈ pm_population pm.
Proof.
  intros Hn Hs. revert b w. induction n as [|n IH]; intros b w Hb; cbn [another]; [by eexists _, _|].
  case_bool_decide; [|by eexists _, _].
  destruct (select_member pm w Hn Hs) as (x & w' & E & Hx). unfold_monad. rewrite E. by apply IH.
Qed.

Lemma select_pair_members pm w : (2 <= length (pm_population pm))%nat -> selects (pm_config pm) ->
  exists a b w', select_pair pm w = (Ok (a, b), w') /\ a ∈ pm_population pm /\ b ∈ pm_population pm.
Proof.
  intros Hl Hs. assert (Hn : pm_population pm <> []) by (intros E; rewrite E in Hl; simpl in Hl; lia).
  unfold select_pair. replace (Z.of_nat (length (pm_population pm)) <? 2) with false by lia.
  destruct (select_member pm w Hn Hs) as (a & w1 & Ea & Ha).
  destruct (select_member pm w1 Hn Hs) as (b & w2 & Eb & Hb).
  destruct (another_member 10 a b pm w2 Hn Hs Hb) as (b' & w3 & Eb' & Hb').
  exists a, b', w3. unfold_monad. by rewrite Ea, Eb, Eb'.
Qed.
End Selection.

(** ** Elites *)

Section Elites.
Context {I : Set}.
Implicit Types (population : list (Individual I)) (em : EliteManager I).

Lemma composite_elite (x : Individual I) : composite_fitness (with_elite true x) = composite_fitness x.
Proof. done. Qed.

Lemma overwrite_eq (elites result : list (Individual I)) :
  overwrite elites result = elites ++ drop (length elites) result.
Proof.
  revert result. induction elites as [|x elites IH]; intros [|y result]; simpl; try done.
  - by rewrite app_nil_r.
  - by rewrite IH.
Qed.

Lemma inject_eq population em :
  em_elites em <> [] ->
  inject population em
  = em_elites em ++ drop (length (em_elites em)) (sorted_by composite_fitness population).
Proof. intros Hn. unfold inject. destruct (em_elites em) eqn:E; [done|]. by rewrite overwrite_eq. Qed.

Lemma inject_keeps population em x : x ∈ em_elites em -> x ∈ inject population em.
Proof.
  intros Hx. rewrite inject_eq; [apply elem_of_app; by left|]. intros E. rewrite E in Hx.
  by apply not_elem_of_nil in Hx.
Qed.

(** The first elite is the best of the population. *)
Lemma elite_update_best population em :
  population <> [] -> 0 < em_elite_count em -> keyed composite_fitness population ->
  exists h rest, em_elites (elite_update population em) = with_elite true h :: rest /\
    h ∈ population /\
    forall y, y ∈ population -> fleb (composite_fitness y) (composite_fitness h) = true.
Proof.
  intros Hn Hc Hk. unfold elite_update. cbn [em_elites].
  destruct (sorted_down composite_fitness population) as [|h t] eqn:E.
  { pose proof (sorted_down_perm composite_fitness population) as HP. rewrite E in HP.
    by apply Permutation_nil_l in HP. }
  destruct (first_items_pos (em_elite_count em) h t Hc) as [k Ek]. rewrite Ek.
  exists h, (map (with_elite true) (take k t)). split; [done|]. split.
  - rewrite <- (sorted_down_perm composite_fitness population), E. by left.
  - by apply (sorted_down_head composite_fitness population h t).
Qed.

(** The historical best is a member of some population passed, and no worse
    than any. *)
Lemma historical_best_spec pops em :
  0 < em_elite_count em ->
  (forall population, population ∈ pops -> population <> [] /\ keyed composite_fitness population) ->
  match em_historical_best em with Some b => is_nan (composite_fitness b) = false | None => True end ->
  let em' := fold_left (fun em population => elite_update population em) pops em in
  (forall b, em_historical_best em = Some b ->
    exists b', em_historical_best em' = Some b' /\ fleb (composite_fitness b) (composite_fitness b') = true) /\
  (forall population x, population ∈ pops -> x ∈ population ->
    exists b', em_historical_best em' = Some b' /\ fleb (composite_fitness x) (composite_fitness b') = true).
Proof.
  revert em. induction pops as [|population pops IH]; intros em Hc Hp Hb; cbn [fold_left].
  { split; [|intros ? ? Hx; by apply not_elem_of_nil in Hx]. intros b E. exists b.
    rewrite E in Hb. split; [done|by apply fleb_refl]. }
  destruct (Hp population) as [Hn Hk]; [by left|].
  destruct (elite_update_best population em Hn Hc Hk) as (h & rest & E & Hh & Htop).
  set (em1 := elite_update population em).
  assert (H1 : exists b1, em_historical_best em1 = Some b1 /\
    is_nan (composite_fitness b1) = false /\
    fleb (composite_fitness h) (composite_fitness b1) = true /\
    forall b, em_historical_best em = Some b -> fleb (composite_fitness b) (composite_fitness b1) = true).
  { unfold em1, elite_update in E |- *. cbn [em_elites em_historical_best] in *. rewrite E.
    destruct (em_historical_best em) as [b|]; [|exists (with_elite true h)].
    - rewrite composite_elite. destruct (fltb (composite_fitness b) (composite_fitness h)) eqn:El.
      + exists (with_elite true h). rewrite composite_elite. split_and!; [done|by apply Hk|by apply fleb_refl, Hk|].
        intros ? [= <-]. apply not_ltb_fleb; auto using fltb_asym.
      + exists b. split_and!; [done|done|by apply not_ltb_fleb; auto|]. intros ? [= <-]. by apply fleb_refl.
    - rewrite composite_elite. split_and!; [done|by apply Hk|by apply fleb_refl, Hk|done]. }
  destruct H1 as (b1 & Eb1 & Hnan & Hh1 & Hold).
  destruct (IH em1) as [HA HB]; [done|intros; apply Hp; by right|by rewrite Eb1|].
  destruct (HA b1 Eb1) as (b' & Eb' & Hle). split.
  - intros b Eb. exists b'. split; [done|]. eapply fleb_trans; [by apply Hold|done].
  - intros p x [->|Hin]%elem_of_cons Hx; [|by apply (HB p)].
    exists b'. split; [done|]. eapply fleb_trans; [by apply Htop|]. by eapply fleb_trans.
Qed.
End Elites.

(** ** Ancestors *)

Section Ancestors.
Variable t : LineageTracker.

Definition parent_of (x y : string) : Prop :=
  exists e, get_entry t x = Some e /\ y ∈ le_parent_ids e.

(** The parents not yet accounted for: a bound on what the queue can still get. *)
Definition pending_in (entries : list (string * LineageEntry)) (visited : list string) : nat :=
  list_sum (map (fun p => if mem p.1 visited then 0%nat else length (le_parent_ids p.2)) entries).
Abbreviation pending := (pending_in (ln_entries t)).

Lemma mem_cons x y (visited : list string) : mem y (x :: visited) = bool_decide (y = x) || mem y visited.
Proof.
  apply eq_true_iff_eq. rewrite orb_true_iff, bool_decide_eq_true, !mem_true. apply elem_of_cons.
Qed.

Lemma pending_mono entries x visited : (pending_in entries (x :: visited) <= pending_in entries visited)%nat.
Proof.
  unfold pending_in. induction entries as [|p l IH]; simpl; [lia|]. rewrite mem_cons.
  destruct (mem p.1 visited); [rewrite orb_true_r; lia|]. destruct (bool_decide _); simpl; lia.
Qed.

Lemma pending_visit entries visited x e : (x ∉ visited) -> dget x entries = Some e ->
  (pending_in entries (x :: visited) + length (le_parent_ids e) <= pending_in entries visited)%nat.
Proof.
  intros Hx%mem_false. induction entries as [|[k e'] l IH]; [done|]. simpl. intros He.
  unfold pending_in in *. simpl. rewrite mem_cons. case_decide as Ek.
  - injection He as ->. subst k. rewrite bool_decide_true, Hx by done. simpl.
    pose proof (pending_mono l x visited). unfold pending_in in *. lia.
  - specialize (IH He). rewrite bool_decide_false by done. destruct (mem k visited); simpl; lia.
Qed.

Record searched (start : string) (queue visited : list string) (acc : list LineageEntry) : Prop := {
  sr_start : start ∈ visited \/ (queue = [start] /\ visited = [] /\ acc = []);
  sr_reach y : y ∈ queue \/ y ∈ visited -> rtc parent_of start y;
  sr_found y e : y ∈ queue \/ y ∈ visited -> y <> start -> get_entry t y = Some e -> e ∈ acc;
  sr_sound e : e ∈ acc -> exists y, y <> start /\ rtc parent_of start y /\ get_entry t y = Some e;
  sr_closed x y : x ∈ visited -> parent_of x y -> y ∈ queue \/ y ∈ visited;
}.

Lemma searched_init start : searched start [start] [] [].
Proof.
  split; try (intros; exfalso; by eapply not_elem_of_nil).
  - by right.
  - intros y [->%list_elem_of_singleton|Hy]; [done|by apply not_elem_of_nil in Hy].
  - intros y e [->%list_elem_of_singleton|Hy]; [done|by apply not_elem_of_nil in Hy].
Qed.

Lemma searched_skip start x queue visited acc : x ∈ visited ->
  searched start (x :: queue) visited acc -> searched start queue visited acc.
Proof.
  intros Hx [Hs Hr Hf Hd Hc]. split.
  - destruct Hs as [|(E & -> & _)]; [by left|by apply not_elem_of_nil in Hx].
  - intros y Hy. apply Hr. rewrite elem_of_cons. tauto.
  - intros y e Hy. apply Hf. rewrite elem_of_cons. tauto.
  - done.
  - intros u y Hu Hy. destruct (Hc u y Hu Hy) as [[->|]%elem_of_cons|]; auto.
Qed.

Lemma elem_unvisited visited e y : y ∈ unvisited visited e <-> y ∈ le_parent_ids e /\ (y ∉ visited).
Proof.
  unfold unvisited. rewrite list_elem_of_In, filter_In, <- list_elem_of_In, negb_true_iff, mem_false. done.
Qed.

Lemma searched_visit start x queue visited acc : (x ∉ visited) ->
  searched start (x :: queue) visited acc ->
  let pids := match get_entry t x with Some e => unvisited (x :: visited) e | None => [] end in
  searched start (queue ++ pids) (x :: visited) (acc ++ omap (get_entry t) pids).
Proof.
  intros Hx [Hs Hr Hf Hd Hc] pids.
  assert (Hp : forall y, y ∈ pids -> parent_of x y /\ y <> x /\ (y ∉ visited)).
  { intros y Hy. unfold pids in Hy. destruct (get_entry t x) as [e|] eqn:E; [|by apply not_elem_of_nil in Hy].
    apply elem_unvisited in Hy as [Hy Hn]. split; [by exists e|]. rewrite elem_of_cons in Hn. tauto. }
  assert (Hsx : start ∈ x :: visited).
  { destruct Hs as [|(E & _)]; [by right|]. injection E as -> _. by left. }
  assert (Hrx : rtc parent_of start x) by (apply Hr; left; by left).
  split.
  - by left.
  - intros y. rewrite elem_of_app, elem_of_cons. intros [[Hy|Hy]|[->|Hy]]; [|by eapply rtc_r; [|apply Hp]|done|].
    + apply Hr. left. by right.
    + apply Hr. by right.
  - intros y e. rewrite !elem_of_app, elem_of_cons, list_elem_of_omap. intros [[Hy|Hy]|[->|Hy]] Hne He.
    + left. apply (Hf y); [left; by right|done..].
    + right. by exists y.
    + left. apply (Hf x); [left; by left|done..].
    + left. apply (Hf y); [by right|done..].
  - intros e. rewrite elem_of_app, list_elem_of_omap. intros [He|(y & Hy & He)]; [by apply Hd|].
    destruct (Hp y Hy) as (Hpar & Hyx & Hyv). exists y. split; [|split; [by eapply rtc_r|done]].
    intros ->. apply elem_of_cons in Hsx as [|]; congruence || done.
  - intros u y Hu Hy. rewrite elem_of_app, elem_of_cons. apply elem_of_cons in Hu as [->|Hu].
    + destruct Hy as (e & He & Hin). destruct (decide (y = x)); [tauto|].
      destruct (decide (y ∈ visited)); [tauto|]. left. right. unfold pids. rewrite He.
      apply elem_unvisited. split; [done|]. rewrite elem_of_cons. tauto.
    + destruct (Hc u y Hu Hy) as [[->|]%elem_of_cons|]; tauto.
Qed.

Lemma reached_in (V : string -> Prop) x y :
  (forall u v, V u -> parent_of u v -> V v) -> V x -> rtc parent_of x y -> V y.
Proof. intros Hc Hx. induction 1; eauto. Qed.

Lemma searched_end start visited acc : searched start [] visited acc ->
  forall e, e ∈ acc <-> exists y, y <> start /\ rtc parent_of start y /\ get_entry t y = Some e.
Proof.
  intros Hs e. split; [apply (sr_sound _ _ _ _ Hs)|]. intros (y & Hne & Hy & He).
  apply (sr_found _ _ _ _ Hs y); [right|done..].
  apply (reached_in (fun y => y ∈ visited) start); [| |done].
  - intros u v Hu Huv. destruct (sr_closed _ _ _ _ Hs u v Hu Huv) as [Hv|]; [by apply not_elem_of_nil in Hv|done].
  - by destruct (sr_start _ _ _ _ Hs) as [|(E & _)].
Qed.

Lemma engine_ancestors_loop start fuel queue visited acc :
  searched start queue visited acc -> (length queue + pending visited <= fuel)%nat ->
  exists found, ancestors_loop t fuel queue visited acc = Some found /\
    forall e, e ∈ found <-> exists y, y <> start /\ rtc parent_of start y /\ get_entry t y = Some e.
Proof.
  revert queue visited acc. induction fuel as [|fuel IH]; intros queue visited acc Hs Hf.
  all: destruct queue as [|x queue].
  1, 3: exists acc; split; [done|by eapply searched_end].
  - simpl in Hf. lia.
  - cbn [ancestors_loop]. destruct (mem x visited) eqn:Em.
    { apply mem_true in Em. apply IH; [by eapply searched_skip|]. simpl in Hf. lia. }
    apply mem_false in Em. pose proof (searched_visit start x queue visited acc Em Hs) as Hv. cbv zeta in Hv.
    destruct (get_entry t x) as [e|] eqn:He.
    + apply IH; [exact Hv|]. pose proof (pending_visit (ln_entries t) visited x e Em He).
      assert (length (unvisited (x :: visited) e) <= length (le_parent_ids e))%nat by apply List.filter_length_le.
      rewrite length_app. simpl in Hf. lia.
    + cbn [omap list_omap] in Hv. rewrite !app_nil_r in Hv. apply IH; [exact Hv|].
      simpl in Hf. pose proof (pending_mono (ln_entries t) x visited). lia.
Qed.
End Ancestors.

(** ** Theorems *)

Section Theorems.
Context {I : Set} `{Surroundings}.

(** Selection of a pair never fails on a population of two or more, whatever
    the random draws, for the roulette, the rank and every other (tournament)
    method with a positive tournament size; both parents are members.  With a
    tournament the winner is at least as fit as every one of the contestants,
    which are as many positions of the population as the tournament size, or
    all of them. *)
Theorem selection_of_parents (pm : PopulationManager I) w :
  (2 <= length (pm_population pm))%nat -> selects (pm_config pm) ->
  (exists a b w', select_pair pm w = (Ok (a, b), w') /\ a ∈ pm_population pm /\ b ∈ pm_population pm) /\
  (keyed composite_fitness (pm_population pm) -> 1 <= cf_tournament_size (pm_config pm) ->
   exists x w' contestants, select_tournament None pm w = (Ok x, w') /\ x ∈ contestants /\
     contestants ⊆+ pm_population pm /\
     Z.of_nat (length contestants)
     = Z.min (cf_tournament_size (pm_config pm)) (Z.of_nat (length (pm_population pm))) /\
     forall y, y ∈ contestants -> fleb (composite_fitness y) (composite_fitness x) = true).
Proof.
  intros Hl Hs. split; [by apply select_pair_members|]. intros Hk Ht.
  assert (Hn : pm_population pm <> []) by (intros E; rewrite E in Hl; simpl in Hl; lia).
  destruct (tournament_run pm w Hn Ht) as (x & w' & ys & E & Hx & Hsub & Hlen & Hm).
  exists x, w', ys. split_and!; [done..|]. apply (max_by_spec composite_fitness ys x Hm).
  intros y Hy. apply Hk. by eapply elem_of_submseteq.
Qed.

(** Asking the engine's lineage for the ancestors of an individual always
    terminates, whatever the parent links, cycles included; the answer holds the
    entries of exactly the recorded individuals, other than the individual
    itself, that parent links lead to from it. *)
Theorem engine_ancestors (t : LineageTracker) id :
  exists found, get_ancestors t id = Some found /\
    forall e, e ∈ found <-> exists y, y <> id /\ rtc (parent_of t) id y /\ get_entry t y = Some e.
Proof.
  unfold get_ancestors.
  destruct (engine_ancestors_loop t id (S (parent_links t)) [id] [] []) as (found & E & Hf).
  - apply searched_init.
  - unfold parent_links, pending_in. simpl. apply le_n_S. clear.
    induction (ln_entries t) as [|p l IH]; simpl; lia.
  - exists (rev found). rewrite E. split; [done|]. intros e. by rewrite list_elem_of_In, <- in_rev, <- list_elem_of_In.
Qed.

(** After any sequence of updates with populations whose fitness are
    numbers, the best fitness ever reported is at least the fitness of every
    individual of every one of them. *)
Theorem best_ever_bounds_history n (pops : list (list (Individual I))) population x :
  0 < n ->
  (forall p, p ∈ pops -> p <> [] /\ keyed composite_fitness p) ->
  population ∈ pops -> x ∈ population ->
  fleb (composite_fitness x)
    (best_fitness_ever (fold_left (fun em p => elite_update p em) pops (new_elite_manager n))) = true.
Proof.
  intros Hn Hp Hpop Hx. destruct (historical_best_spec pops (new_elite_manager n) Hn Hp Logic.I) as [_ HB].
  destruct (HB population x Hpop Hx) as (b & Eb & Hle). unfold best_fitness_ever. by rewrite Eb.
Qed.
End Theorems.

(** An ancestor reached along two lines is listed once for each: the history of
    mutations of a child of two parents with one ancestor has its mutation twice. *)
Definition entry (id : string) (parents : list string) (mutation : string) : LineageEntry :=
  {| le_individual_id := id; le_isr_hash := ""; le_parent_ids := parents; le_generation := 0;
     le_mutation_applied := mutation; le_eir_id := ""; le_fitness_before := None;
     le_fitness_after := None; le_timestamp := 0; le_evolution_run_id := ""; le_reasoning := "" |}.

Definition diamond : LineageTracker :=
  fold_left (fun t e => record_entry e t)
    [entry "root" [] "split"; entry "left" ["root"] ""; entry "right" ["root"] "";
     entry "child" ["left"; "right"] "merge"] empty_lineage.

Theorem diamond_history_repeats :
  get_mutation_history diamond "child" = Some ["split"; "split"; "merge"].
Proof. vm_compute. reflexivity. Qed.

(** ** Examples *)

#[local] Instance sample_surroundings : Surroundings := {|
  uuid_hex n := str_of_int (Z.of_nat n) +:+ "00000000000"; clock n := Z.of_nat n;
  perf_counter n := of_nat n; random_bits n := n; random_unit _ := fhalf;
  power x y := Ok (fmul x x); sqrt x := x; log2 x := x |}.

Definition sample_individual (id : string) (score : Z) : Individual string :=
  {| in_id := id; in_isr := id; in_fitness := {| fv_values := [("quality", of_Z score)] |};
     in_parent_ids := []; in_generation := 0; in_mutation_history := []; in_species_id := "";
     in_novelty_score := fzero; in_age := 0; in_created_at := 0; in_is_elite := false; in_tags := [];
     in_fitness_history := [] |}.
Definition sample_population : list (Individual string) :=
  [sample_individual "a" 1; sample_individual "b" 3; sample_individual "c" 2].
Definition sample_manager : PopulationManager string :=
  {| pm_config := default_config 0; pm_population := sample_population; pm_generation := 0 |}.

Lemma sample_keyed : keyed composite_fitness sample_population.
Proof.
  intros x Hx. unfold sample_population in Hx.
  repeat (apply elem_of_cons in Hx as [->|Hx]; [vm_compute; reflexivity|]). by apply not_elem_of_nil in Hx.
Qed.

Lemma selection_of_parents_witness :
  (exists a b w', select_pair sample_manager world0 = (Ok (a, b), w') /\
     a ∈ sample_population /\ b ∈ sample_population) /\
  (keyed composite_fitness sample_population -> 1 <= 5 ->
   exists x w' contestants, select_tournament None sample_manager world0 = (Ok x, w') /\
     x ∈ contestants /\ contestants ⊆+ sample_population /\
     Z.of_nat (length contestants) = Z.min 5 3 /\
     forall y, y ∈ contestants -> fleb (composite_fitness y) (composite_fitness x) = true).
Proof.
  apply (selection_of_parents sample_manager world0); [simpl; lia|]. right; right. simpl. lia.
Defined.

Lemma best_ever_bounds_history_witness :
  fleb (composite_fitness (sample_individual "b" 3))
    (best_fitness_ever (fold_left (fun em p => elite_update p em)
       [sample_population; [sample_individual "d" 0]] (new_elite_manager 2))) = true.
Proof.
  apply (best_ever_bounds_history 2 _ sample_population).
  - lia.
  - intros p [->|[->|Hp]%elem_of_cons]%elem_of_cons.
    + split; [done|]. exact sample_keyed.
    + split; [done|]. intros x ->%list_elem_of_singleton. vm_compute. reflexivity.
    + by apply not_elem_of_nil in Hp.
  - by left.
  - right. by left.
Defined.
