(* ===== verification/EvoDiversitySpec.v ===== *)
(** * Evolution engine: theorems on species, Pareto fronts and weights

    Speciation puts every individual in a species of its own; a Pareto front is
    what nobody outperforms, and is never empty; adapted weights and
    compatibilities keep to their bounds. *)

From Stdlib Require Import SpecFloat.
From S2P Require Import Prelude PyFloat PyVal PyText IsrModel TypedGraph EvoModels EvoPopulation.
From S2P Require Import EvoControl EvoDiversity EvoSelectSpec.
Open Scope Z_scope.

#[local] Opaque fltb fleb fadd fmul fsub fdiv.

(** ** Maximal members *)

Lemma maximal_exists {A} (R : A -> A -> bool) (l : list A) :
  (forall x y z, x ∈ l -> y ∈ l -> z ∈ l -> R x y = true -> R y z = true -> R x z = true) ->
  (forall x, R x x = false) -> l <> [] ->
  exists x, x ∈ l /\ forall y, y ∈ l -> R y x = false.
Proof.
  intros Htr Hirr. induction l as [|x l IH]; [done|]. intros _.
  destruct (decide (l = [])) as [->|Hl].
  { exists x. split; [by left|]. by intros y ->%list_elem_of_singleton. }
  destruct IH as (m & Hm & Hmax); [|done|].
  { intros a b c Ha Hb Hc. apply Htr; by right. }
  destruct (R x m) eqn:E.
  - exists x. split; [by left|]. intros y [->|Hy]%elem_of_cons; [done|].
    apply not_true_iff_false. intros Hyx. pose proof (Hmax y Hy) as Hym.
    rewrite (Htr y x m) in Hym; try done; [by right|by left|by right].
  - exists m. split; [by right|]. intros y [->|Hy]%elem_of_cons; auto.
Qed.

(** ** Pareto fronts *)

Definition objectives : list string := map fst COMPOSITE_OBJECTIVES.
Definition objective_value {I} (d : string) (x : Individual I) : float :=
  fitness_get d fzero (reduce_fitness (in_fitness x)).

(** [x] is nowhere worse than [y], and somewhere better. *)
Definition outperforms {I} (x y : Individual I) : bool :=
  forallb (fun d => negb (fltb (objective_value d x) (objective_value d y))) objectives
  && existsb (fun d => fltb (objective_value d y) (objective_value d x)) objectives.

Lemma reduced_values a :
  fv_values (reduce_fitness a) = map (fun d => (d, fitness_get d fzero (reduce_fitness a))) objectives.
Proof. reflexivity. Qed.

Lemma dominates_values (ds : list string) (va vb : string -> float) (other : list (string * float)) better :
  (forall d, d ∈ ds -> dget_or d other fzero = vb d) ->
  dominates_loop (map (fun d => (d, va d)) ds) other better
  = forallb (fun d => negb (fltb (va d) (vb d))) ds
    && (better || existsb (fun d => fltb (vb d) (va d)) ds).
Proof.
  intros Ho. revert better. induction ds as [|d ds IH]; intros better; [by rewrite orb_false_r|].
  cbn [map dominates_loop forallb existsb]. rewrite Ho by (by left).
  destruct (fltb (va d) (vb d)) eqn:E; [done|]. rewrite IH by (intros; apply Ho; by right). cbn [negb andb].
  f_equal. destruct (fltb (vb d) (va d)), better; done.
Qed.

Lemma dominates_reduced {I} (x y : Individual I) :
  dominates (reduce_fitness (in_fitness x)) (reduce_fitness (in_fitness y)) = Ok (outperforms x y).
Proof.
  unfold dominates. change (negb _) with false. cbn [negb]. f_equal.
  rewrite (reduced_values (in_fitness x)).
  rewrite (dominates_values _ _ (fun d => objective_value d y)); [done|done].
Qed.

Lemma outperforms_true {I} (x y : Individual I) : outperforms x y = true <->
  (forall d, d ∈ objectives -> fltb (objective_value d x) (objective_value d y) = false) /\
  (exists d, d ∈ objectives /\ fltb (objective_value d y) (objective_value d x) = true).
Proof.
  unfold outperforms. rewrite andb_true_iff, forallb_forall, existsb_exists.
  setoid_rewrite negb_true_iff. by setoid_rewrite list_elem_of_In.
Qed.

Lemma outperforms_irrefl {I} (x : Individual I) : outperforms x x = false.
Proof.
  apply not_true_iff_false. intros [_ (d & _ & Hd)]%outperforms_true. by rewrite fltb_irrefl in Hd.
Qed.

Lemma outperforms_asym {I} (x y : Individual I) : outperforms x y = true -> outperforms y x = false.
Proof.
  intros [_ (d & Hin & Hd)]%outperforms_true. apply not_true_iff_false.
  intros [Hf _]%outperforms_true. rewrite (Hf d Hin) in Hd. done.
Qed.

(** Objective values that are numbers. *)
Definition numeric {I} (x : Individual I) : Prop :=
  forall d, d ∈ objectives -> is_nan (objective_value d x) = false.

Lemma outperforms_trans {I} (x y z : Individual I) : numeric x -> numeric y -> numeric z ->
  outperforms x y = true -> outperforms y z = true -> outperforms x z = true.
Proof.
  intros Hx Hy Hz [H1 (d & Hd & Hlt)]%outperforms_true [H2 _]%outperforms_true.
  apply outperforms_true.
  assert (Hle : forall d, d ∈ objectives -> fleb (objective_value d z) (objective_value d x) = true).
  { intros d' Hd'. apply (fleb_trans _ (objective_value d' y)); apply not_ltb_fleb; auto. }
  split; [intros d' Hd'; by apply fleb_not_lt, Hle|].
  exists d. split; [done|]. eapply fleb_fltb_trans; [|exact Hlt]. apply not_ltb_fleb; auto.
Qed.

Section Fronts.
Context {I : Set}.
Implicit Types (x : Individual I).

Abbreviation reduced := (fun x : Individual I => (x, reduce_fitness (in_fitness x))).

Lemma domination_count_spec i x j todo count :
  (forall k y, todo !! k = Some y -> (j + k)%nat = i -> y = x) ->
  exists n, domination_count i (reduce_fitness (in_fitness x)) j (map reduced todo) count = Ok (count + n) /\
    0 <= n /\ (n = 0 <-> forallb (fun y => negb (outperforms y x)) todo = true).
Proof.
  revert j count. induction todo as [|y todo IH]; intros j count Hi; cbn [map domination_count forallb].
  { exists 0. rewrite Z.add_0_r. done. }
  assert (Hi' : forall k z, todo !! k = Some z -> (S j + k)%nat = i -> z = x).
  { intros k z Hk E. apply (Hi (S k)); [done|lia]. }
  destruct (Nat.eqb_spec i j) as [<-|Hne].
  { rewrite (Hi 0%nat y) by (done || lia). rewrite outperforms_irrefl. by apply IH. }
  rewrite !dominates_reduced. unfold_monad. destruct (outperforms x y) eqn:Exy.
  { rewrite (outperforms_asym _ _ Exy). by apply IH. }
  destruct (outperforms y x); [|by apply IH].
  destruct (IH (S j) (count + 1) Hi') as (n & E & Hn & _). exists (n + 1). rewrite E. cbn [negb andb].
  split; [f_equal; lia|]. split; [lia|]. split; [lia|done].
Qed.

Lemma front_loop_spec population i todo :
  (forall k x, todo !! k = Some x -> population !! (i + k)%nat = Some x) ->
  front_loop (map reduced population) i (map reduced todo)
  = Ok (List.filter (fun x => forallb (fun y => negb (outperforms y x)) population) todo).
Proof.
  revert i. induction todo as [|x todo IH]; intros i Hi; [done|]. cbn [map front_loop List.filter].
  destruct (domination_count_spec i x 0 population 0) as (n & E & _ & Hn).
  { intros k y Hk <-. pose proof (Hi 0%nat x eq_refl) as Hx. rewrite Nat.add_0_r in Hx. simpl in Hx.
    rewrite Hx in Hk. by injection Hk. }
  rewrite E. unfold_monad. rewrite IH.
  2:{ intros k y Hk. replace (S i + k)%nat with (i + S k)%nat by lia. by apply (Hi (S k)). }
  rewrite Z.add_0_l. f_equal. destruct (Z.eqb_spec n 0) as [Ez|Ez].
  - by rewrite (proj1 Hn Ez).
  - destruct (forallb _ population); [by destruct Ez; apply Hn|done].
Qed.

Lemma compute_front_run population generation o : op_use_composite o = true -> population <> [] ->
  compute_front population generation o
  = let front := {| pf_individuals :=
        List.filter (fun x => forallb (fun y => negb (outperforms y x)) population) population;
        pf_generation := generation |} in
    (Ok front, {| op_use_composite := op_use_composite o; op_history := op_history o ++ [front] |}).
Proof.
  intros Ho Hn. pose proof (front_loop_spec population 0 population ltac:(done)) as E.
  unfold compute_front. destruct population as [|x0 rest]; [done|].
  unfold_monad. rewrite Ho. unfold fast_non_dominated_sort. by rewrite E.
Qed.

(** The front of a population, in the composite mode the engine uses, is
    computed without an exception and is, in the order of the population, the
    individuals that nobody outperforms: nobody is at least as good in all four
    composite objectives and better in one.  A population whose objective values
    are numbers has a front that is not empty. *)
Theorem front_is_unbeaten (population : list (Individual I)) generation o :
  op_use_composite o = true ->
  exists front o', compute_front population generation o
    = (Ok {| pf_individuals := front; pf_generation := generation |}, o') /\
    front = List.filter (fun x => forallb (fun y => negb (outperforms y x)) population) population /\
    (population <> [] -> (forall x, x ∈ population -> numeric x) -> front <> []).
Proof.
  intros Ho. set (front := List.filter _ population).
  assert (Hne : population <> [] -> (forall x, x ∈ population -> numeric x) -> front <> []).
  { intros Hn Hnum. destruct (maximal_exists outperforms population) as (x & Hx & Hmax); [|apply outperforms_irrefl|done|].
    { intros x y z Hx Hy Hz. apply outperforms_trans; auto. }
    intros E. assert (Hin : In x front).
    { apply filter_In. split; [by apply list_elem_of_In|]. apply forallb_forall.
      intros y Hy%list_elem_of_In. by rewrite Hmax. }
    by rewrite E in Hin. }
  destruct (decide (population = [])) as [->|Hn]; [by exists [], o|].
  rewrite compute_front_run by done. by eexists _, _.
Qed.
End Fronts.

(** ** Species *)

Section Speciation.
Context {I : Set} `{Surroundings}.
Implicit Types (population : list (Individual I)) (species : list (string * Species)).

(** The id drawn as the k-th. *)
Definition drawn_id (prefix : string) (n k : nat) : string :=
  prefix +:+ "-" +:+ String.substring 0 n (uuid_hex k).
Definition species_ids (w : World) (n : nat) : list string :=
  map (drawn_id "species" 8) (seq (w_uuids w) n).

(** A species with one member. *)
Definition singleton (sid : string) (x : Individual I) : string * Species :=
  (sid, put_members [in_id x] (new_species sid x)).

Lemma find_species_none config (x : Individual I) species : find_species config x species = Ok None.
Proof. induction species as [|[sid sp] species IH]; [done|exact IH]. Qed.

Lemma add_member_new sid m sp species : (sid ∉ dkeys species) ->
  add_member sid m (dset sid sp species) = species ++ [(sid, put_members (sp_members sp ++ [m]) sp)].
Proof.
  intros Hn. unfold add_member. rewrite dget_dset_eq, dset_dset. by apply dset_fresh.
Qed.

Lemma assign_run config population species w :
  let sids := species_ids w (length population) in
  NoDup sids -> (forall s, s ∈ sids -> s ∉ dkeys species) ->
  exists w', assign config population species w
    = (Ok (zip_with with_species sids population, species ++ zip_with singleton sids population), w').
Proof.
  revert species w. induction population as [|x population IH]; intros species w sids Hnd Hfresh.
  { exists w. cbn. by rewrite app_nil_r. }
  unfold sids, species_ids in *. cbn [length seq map] in *. apply NoDup_cons in Hnd as [Hn Hnd].
  cbn [assign]. unfold_monad. rewrite find_species_none. unfold new_id.
  set (sid := drawn_id "species" 8 (w_uuids w)).
  set (w1 := {| w_uuids := S (w_uuids w); w_clock := w_clock w; w_perf := w_perf w; w_random := w_random w |}).
  change ("species" +:+ _) with sid. rewrite add_member_new by (apply Hfresh; by left).
  change (sp_members (new_species sid x) ++ [in_id x]) with [in_id x].
  destruct (IH (species ++ [singleton sid x]) w1) as [w' E].
  - exact Hnd.
  - intros s Hs. rewrite dkeys_app, elem_of_app. intros [Hin|Hin].
    + apply (Hfresh s); [by right|done].
    + apply list_elem_of_singleton in Hin. subst s. by apply Hn.
  - exists w'. change (sid, put_members [in_id x] (new_species sid x)) with (singleton sid x).
    rewrite E. cbn [zip_with]. by rewrite <- app_assoc.
Qed.

(** The statistics change neither the keys nor the members. *)
Lemma stats_keep population species :
  dkeys (update_species_stats population species) = dkeys species /\
  map sp_members (dvalues (update_species_stats population species)) = map sp_members (dvalues species).
Proof.
  unfold update_species_stats. generalize (species_fitness population). intros fs. revert species.
  induction fs as [|[sid f] fs IH]; intros species; [done|]. cbn [fold_left fst snd].
  destruct (dget sid species) as [sp|] eqn:E; [|apply IH].
  destruct (IH (dset sid (put_mean (fdiv (fsum f) (of_nat (length f))) sp) species)) as [-> ->].
  split; [by apply dkeys_dset_in, (dget_Some_key _ sp)|].
  clear IH fs. revert E. generalize (fdiv (fsum f) (of_nat (length f))). intros m.
  induction species as [|[k v] species IH]; [done|]. simpl. case_decide; simpl; [by intros [= ->]|].
  intros E. f_equal. by apply IH.
Qed.

Lemma zip_singletons sids population : length sids = length population ->
  dkeys (zip_with singleton sids population) = sids /\
  map sp_members (dvalues (zip_with singleton sids population)) = map (fun x => [in_id x]) population.
Proof.
  revert population. induction sids as [|s sids IH]; intros [|x population]; try done. intros [= E].
  destruct (IH population E) as [H1 H2]. unfold dkeys, dvalues in *. simpl. by rewrite H1, H2.
Qed.

(** With speciation on, and species ids that are new, every individual is
    put in a species of its own, however close it is to the others: the
    threshold of the configuration is never used, and there are as many species
    as individuals. *)
Theorem every_individual_its_own_species population (dm : DiversityManager I) w :
  cf_speciation_enabled (dm_config dm) = true ->
  let sids := species_ids w (length population) in
  NoDup sids -> (forall s, s ∈ sids -> s ∉ dkeys (dm_species dm)) ->
  exists dm' w', speciate population dm w = (Ok (zip_with with_species sids population, dm'), w') /\
    dkeys (dm_species dm') = sids /\
    map sp_members (dvalues (dm_species dm')) = map (fun x => [in_id x]) population /\
    species_count dm' = Z.of_nat (length population).
Proof.
  intros He sids Hnd Hfresh. unfold speciate. rewrite He. cbn [negb].
  set (cleared := map (fun p => (p.1, put_members [] p.2)) (dm_species dm)).
  assert (Hk : dkeys cleared = dkeys (dm_species dm)).
  { unfold cleared, dkeys. by rewrite map_map. }
  destruct (assign_run (dm_config dm) population cleared w) as [w' E]; [done|by rewrite Hk|].
  unfold_monad. fold cleared. rewrite E. eexists _, w'. split; [reflexivity|].
  assert (Hl : length sids = length population).
  { unfold sids, species_ids. by rewrite length_map, length_seq. }
  fold sids. rewrite List.filter_app, (filter_none _ cleared), (filter_all _ (zip_with _ _ _)).
  3:{ intros p Hp. unfold cleared in Hp. apply list_elem_of_fmap in Hp as (q & -> & _). done. }
  2:{ intros p Hp. apply elem_of_lookup_zip_with in Hp as (i & s & x & -> & _). done. }
  cbn [app]. set (assigned := zip_with with_species sids population).
  destruct (stats_keep assigned (zip_with singleton sids population)) as [Hs Hm].
  destruct (zip_singletons sids population Hl) as [Hzk Hzm].
  cbn [put_species dm_species]. rewrite Hs, Hm. split_and!; [done..|].
  unfold species_count. cbn [dm_species put_species].
  assert (Hlen : length (dkeys (update_species_stats assigned (zip_with singleton sids population))) = length population)
    by (by rewrite Hs, Hzk).
  unfold dkeys in Hlen. rewrite length_map in Hlen. by rewrite Hlen.
Qed.
End Speciation.

(** ** Weights *)

(** [max(lo, min(hi, v))] and [min(hi, max(lo, v))], whatever [v] is. *)
Lemma clamp_low lo hi v : fleb lo hi = true ->
  let c := fmax2 lo (fmin2 hi v) in fleb lo c = true /\ fleb c hi = true.
Proof.
  intros Hlh. pose proof (proj1 (fleb_spec lo hi) Hlh) as (Hl & Hh & _). unfold fmin2, fmax2. cbv zeta.
  destruct (fltb v hi) eqn:E1; destruct (fltb lo _) eqn:E2; split; auto using fleb_refl.
  - pose proof (fltb_nan_false _ _ E2) as [_ ?]. apply not_ltb_fleb; auto using fltb_asym.
  - pose proof (fltb_nan_false _ _ E1) as [? _]. apply not_ltb_fleb; auto using fltb_asym.
Qed.
Lemma clamp_high lo hi v : fleb lo hi = true ->
  let c := fmin2 hi (fmax2 lo v) in fleb lo c = true /\ fleb c hi = true.
Proof.
  intros Hlh. pose proof (proj1 (fleb_spec lo hi) Hlh) as (Hl & Hh & _). unfold fmin2, fmax2. cbv zeta.
  destruct (fltb lo v) eqn:E1; destruct (fltb _ hi) eqn:E2; split; auto using fleb_refl.
  - pose proof (fltb_nan_false _ _ E1) as [_ ?]. apply not_ltb_fleb; auto using fltb_asym.
  - pose proof (fltb_nan_false _ _ E2) as [? _]. apply not_ltb_fleb; auto using fltb_asym.
Qed.

Definition in_unit (v : float) : Prop := fleb fzero v = true /\ fleb v fone = true.

Lemma update_pairs_unit success ids (d : list ((string * string) * float)) :
  (forall k v, dget k d = Some v -> in_unit v) ->
  forall k v, dget k (update_pairs success ids d) = Some v -> in_unit v.
Proof.
  revert d. induction ids as [|a ids IH]; intros d Hd; [done|]. destruct ids as [|b rest]; [done|].
  apply IH. intros k v. rewrite dget_dset. case_decide; [|by apply Hd]. intros [= <-].
  apply clamp_low. vm_compute. reflexivity.
Qed.

(** C39: after any successes and failures of sequences of operators, recorded in
    any order, every compatibility is between 0 and 1; and whenever the weights
    are read, the weight of every operator with five or more applications is
    between the bounds of the configuration, whatever its statistics are, and is
    the weight that is kept. *)
Theorem adaptation_bounds config (sequences : list (list string * float * bool * Z)) stats cats :
  fleb (cf_adaptive_min_weight config) (cf_adaptive_max_weight config) = true ->
  let a := fold_left (fun a '(ids, delta, success, generation) =>
             record_sequence ids delta success generation a) sequences
             (put_category_stats cats (put_operator_stats stats (new_adaptive config))) in
  (forall op_a op_b, in_unit (get_compatibility op_a op_b a)) /\
  (forall op s, (op, s) ∈ stats -> 5 <= os_applications s ->
    exists w, (op, w) ∈ (get_weights a).1 /\
      (op, w) ∈ map (fun p => (p.1, os_weight p.2)) (am_operator_stats (get_weights a).2) /\
      fleb (cf_adaptive_min_weight config) w = true /\ fleb w (cf_adaptive_max_weight config) = true).
Proof.
  intros Hb a.
  assert (Ha : am_config a = config /\ am_operator_stats a = stats /\
               forall k v, dget k (am_compatibility a) = Some v -> in_unit v).
  { unfold a. set (a0 := put_category_stats _ _).
    assert (H0 : am_config a0 = config /\ am_operator_stats a0 = stats /\
                 forall k v, dget k (am_compatibility a0) = Some v -> in_unit v) by done.
    revert H0. generalize a0. clear. induction sequences as [|[[[ids delta] success] g] seqs IH]; intros a0 H0; [done|].
    apply IH. destruct H0 as (H1 & H2 & H3). split_and!; [done|done|]. by apply update_pairs_unit. }
  destruct Ha as (Hc & Hs & Hu). split.
  - intros op_a op_b. unfold get_compatibility, dget_or.
    destruct (dget _ _) as [v|] eqn:E; [by apply (Hu (op_a, op_b))|]. split; vm_compute; reflexivity.
  - intros op s Hin H5. exists (os_weight (adapted config s)).
    assert (Hmap : (op, os_weight (adapted config s)) ∈ map (fun p => (p.1, os_weight p.2))
                     (map (fun p => (p.1, adapted config p.2)) stats)).
    { rewrite map_map. apply list_elem_of_fmap. by exists (op, s). }
    unfold get_weights. rewrite Hc, Hs. cbn [fst snd am_operator_stats put_operator_stats].
    split_and!; [done|done| |]; unfold adapted; replace (os_applications s <? 5) with false by lia;
      cbn [put_weight os_weight]; by apply clamp_high.
Qed.

(** ** Stagnation *)

(** Best values that never exceed the one before by more than the threshold,
    from [previous] on. *)
Fixpoint creeping (threshold previous : float) (bests : list float) : Prop :=
  match bests with
  | [] => True
  | b :: rest => fltb (fadd previous threshold) b = false /\ creeping threshold b rest
  end.

(** A best fitness that grows at every update, but by no more than the threshold
    at a time, counts as no improvement: after [stagnation_limit] such updates
    the detector has counted as many, and it declares stagnation. *)
Theorem creeping_growth_is_stagnation (d : ConvergenceDetector) (updates : list (float * float)) :
  creeping (cf_convergence_threshold (cd_config d)) (cd_previous_best d) (map snd updates) ->
  cd_generations_since_improvement (fold_left (fun d u => observe u.1 u.2 d) updates d)
  = cd_generations_since_improvement d + Z.of_nat (length updates).
Proof.
  revert d. induction updates as [|[m b] updates IH]; intros d; cbn [map creeping fold_left].
  - intros _. simpl. lia.
  - intros [Hb Hrest]. cbn [fst snd] in *. rewrite IH by exact Hrest.
    unfold observe. cbn [cd_generations_since_improvement snd]. rewrite Hb. simpl length. lia.
Qed.

(** ** Examples *)

#[local] Existing Instance sample_surroundings.

Definition scored (id : string) (a b : Z) : Individual string :=
  {| in_id := id; in_isr := id;
     in_fitness := {| fv_values := [("security_coverage", of_Z a); ("documentation", of_Z b)] |};
     in_parent_ids := []; in_generation := 0; in_mutation_history := []; in_species_id := "";
     in_novelty_score := fzero; in_age := 0; in_created_at := 0; in_is_elite := false; in_tags := [];
     in_fitness_history := [] |}.
Definition scored_population : list (Individual string) :=
  [scored "a" 1 4; scored "b" 1 2; scored "c" 3 1].

(** The second is outperformed by the first. *)
Lemma front_is_unbeaten_witness :
  exists front o', compute_front scored_population 0 {| op_use_composite := true; op_history := [] |}
    = (Ok {| pf_individuals := front; pf_generation := 0 |}, o') /\
    front = List.filter (fun x => forallb (fun y => negb (outperforms y x)) scored_population) scored_population /\
    (scored_population <> [] -> (forall x, x ∈ scored_population -> numeric x) -> front <> []).
Proof. apply front_is_unbeaten. reflexivity. Defined.

Example scored_front :
  List.filter (fun x => forallb (fun y => negb (outperforms y x)) scored_population) scored_population
  = [scored "a" 1 4; scored "c" 3 1].
Proof. vm_compute. reflexivity. Qed.

Lemma every_individual_its_own_species_witness :
  let dm := {| dm_config := default_config 0; dm_species := []; dm_archive := [] |} in
  let sids := species_ids world0 3 in
  sids = ["species-00000000"; "species-10000000"; "species-20000000"] /\
  exists dm' w', speciate scored_population dm world0
      = (Ok (zip_with with_species sids scored_population, dm'), w') /\
    dkeys (dm_species dm') = sids /\
    map sp_members (dvalues (dm_species dm')) = [["a"]; ["b"]; ["c"]] /\
    species_count dm' = 3.
Proof.
  split; [vm_compute; reflexivity|].
  apply (every_individual_its_own_species scored_population
           {| dm_config := default_config 0; dm_species := []; dm_archive := [] |} world0).
  - reflexivity.
  - apply (bool_decide_unpack _). vm_compute. exact I.
  - intros s _ Hs. by apply not_elem_of_nil in Hs.
Defined.

Definition busy_operator : OperatorStats :=
  {| os_applications := 9; os_acceptances := 9; os_rejections := 0; os_mean_fitness_delta := fone;
     os_variance := fzero; os_weight := of_Z 40; os_last_applied_generation := 3;
     os_sum_delta := of_Z 9; os_sum_delta_sq := of_Z 9 |}.

Lemma adaptation_bounds_witness :
  let a := fold_left (fun a '(ids, delta, success, generation) =>
             record_sequence ids delta success generation a)
             [(["split"; "merge"], fone, true, 1); (["merge"; "split"; "merge"], fone, false, 2)]
             (put_category_stats [] (put_operator_stats [("split", busy_operator)]
                (new_adaptive (default_config 0)))) in
  (forall op_a op_b, in_unit (get_compatibility op_a op_b a)) /\
  (forall op s, (op, s) ∈ [("split", busy_operator)] -> 5 <= os_applications s ->
    exists w, (op, w) ∈ (get_weights a).1 /\
      (op, w) ∈ map (fun p => (p.1, os_weight p.2)) (am_operator_stats (get_weights a).2) /\
      fleb (of_ratio 1 100) w = true /\ fleb w fone = true).
Proof. apply (adaptation_bounds (default_config 0)). vm_compute. reflexivity. Defined.
