(* ===== verification/EvoSpec.v ===== *)
(** * Evolution engine: theorems on the orchestrator

    A generation is filled with the fuel of its size; a run makes all its
    generations, since no step can bring the scheduler to the phase in which a
    run stops early; no mutation is ever counted. *)

From Stdlib Require Import SpecFloat.
From S2P Require Import Prelude PyFloat PyVal PyText IsrModel TypedGraph EvoModels EvoPopulation.
From S2P Require Import EvoControl EvoDiversity EvoEngine EvoSelectSpec EvoDiversitySpec.
Open Scope Z_scope.

#[local] Opaque fltb fleb fadd fmul fsub fdiv.

Section Engine.
Context {I : Set} `{Surroundings} `{Adapter I}.
Implicit Types (e : Engine (I := I)) (x : Individual I).

Abbreviation population e := (pm_population (en_population_manager e)).
Abbreviation trend e := (mt_max_fitness_trend (en_metrics e)).

(** ** What parts of a step leave alone *)

Lemma wp_of_keeps {S A} (P : S -> Prop) (m : M S A) s :
  keeps P m -> P s -> wp m (fun _ s' => P s') (fun _ s' => P s') s.
Proof. intros Hm Hs. unfold wp. specialize (Hm s Hs). by destruct (m s) as [[a|ex] s']. Qed.

(** [stable P]: [P] does not depend on what the production of a generation, the
    event bus and the world change. *)
Record stable (P : Engine -> Prop) : Prop := {
  st_world w e : P e -> P (put_world w e);
  st_bus b e : P e -> P (put_event_bus b e);
  st_lineage t e : P e -> P (put_lineage t e);
  st_crossover e : P e -> P (put_metrics (record_crossover (en_metrics e)) e);
}.

Section Stable.
Variable P : Engine (I := I) -> Prop.
Hypothesis HP : stable P.

Lemma keeps_in_world {A} (m : M World A) : keeps P (in_world m).
Proof. intros e He. unfold in_world, zoom. destruct (m (en_world e)). by apply st_world. Qed.

Lemma keeps_publish t g d : keeps P (publish_engine t g d).
Proof.
  unfold publish_engine. keeps_steps; [apply keeps_in_world|]. apply keeps_modify. intros e. by apply st_bus.
Qed.

Lemma keeps_record_child child m fb r run_id : keeps P (record_child child m fb r run_id).
Proof.
  unfold record_child. keeps_steps; [apply keeps_in_world|]. apply keeps_modify. intros e. by apply st_lineage.
Qed.

Lemma keeps_choose_target cs : keeps P (choose_target cs).
Proof. destruct cs; [apply keeps_ret|apply keeps_in_world]. Qed.

Lemma keeps_find_target op g : keeps P (find_target op g).
Proof. unfold find_target. keeps_steps; apply keeps_choose_target. Qed.

Lemma keeps_unmutated x g : keeps P (unmutated_child x g).
Proof. unfold unmutated_child. keeps_steps; apply keeps_in_world. Qed.

Lemma keeps_apply_operator x g op_id op f graph target :
  keeps P (apply_operator x g op_id op f graph target).
Proof.
  unfold apply_operator. keeps_steps; try apply keeps_in_world; [apply keeps_record_child|apply keeps_publish].
Qed.

Lemma keeps_mutate x g : keeps P (mutate_individual x g).
Proof.
  unfold mutate_individual. keeps_steps; auto using keeps_in_world, keeps_unmutated, keeps_find_target, keeps_apply_operator.
Qed.

Lemma keeps_crossover_child g : keeps P (crossover_child g).
Proof. unfold crossover_child. keeps_steps; apply keeps_in_world. Qed.

Lemma keeps_try {A} (m : M Engine A) h : keeps P m -> (forall ex, keeps P (h ex)) -> keeps P (try_catch m h).
Proof.
  intros Hm Hh e He. unfold try_catch. specialize (Hm e He). destruct (m e) as [[a|ex] e']; [done|by apply Hh].
Qed.

Lemma keeps_try_crossover g : keeps P (try_crossover g).
Proof.
  unfold try_crossover. apply keeps_try; [|intros []; auto using keeps_ret, keeps_raise].
  keeps_steps; auto using keeps_crossover_child, keeps_record_child. apply keeps_modify. intros e. by apply st_crossover.
Qed.

Lemma keeps_mutation_child g : keeps P (mutation_child g).
Proof. unfold mutation_child. keeps_steps; auto using keeps_in_world, keeps_mutate. Qed.

Lemma keeps_produce_loop fuel target g acc : keeps P (produce_loop fuel target g acc).
Proof.
  revert acc. induction fuel as [|fuel IH]; intros acc; cbn [produce_loop]; keeps_steps;
    auto using keeps_in_world, keeps_try_crossover, keeps_mutation_child.
Qed.

Lemma keeps_produce fuel g : keeps P (produce_next_generation fuel g).
Proof. unfold produce_next_generation. keeps_steps; apply keeps_produce_loop. Qed.
End Stable.

(** ** Phases *)

(** At generation [g], stopped or not, and not refining. *)
Definition at_generation (g : Z) (stopped : bool) e : Prop :=
  pm_generation (en_population_manager e) = g /\ en_stopped e = stopped /\
  sc_current_phase (en_scheduler e) <> REFINEMENT.

Lemma at_generation_stable g st : stable (at_generation g st).
Proof. by split. Qed.

Lemma scheduler_phase generation diversity convergence s bus w :
  sc_current_phase s <> REFINEMENT ->
  match scheduler_update generation diversity convergence false s bus w with
  | (Ok (s', _), _) => sc_current_phase s' <> REFINEMENT
  | (Raise _, _) => True
  end.
Proof.
  intros Hs. unfold scheduler_update, transition_to. cbn [sc_current_phase].
  destruct (cs_is_stagnant convergence); [by case_bool_decide|].
  rewrite andb_true_r. destruct (cs_is_converged convergence); [by case_bool_decide|].
  repeat match goal with |- context [if ?b then _ else _] => destruct b eqn:? end; done.
Qed.

Lemma keeps_zoom_to (P : Engine -> Prop) {C A} get put (m : M C A) :
  (forall c e, P e -> P (put c e)) -> keeps P (zoom get put m).
Proof. intros Hp e He. unfold zoom. destruct (m (get e)). by apply Hp. Qed.

Lemma keeps_update_phase g st generation diversity convergence :
  keeps (at_generation g st) (update_phase generation diversity convergence).
Proof.
  intros e (Hg & Hst & Hp). unfold update_phase. unfold_monad. unfold in_world. unfold_monad.
  pose proof (scheduler_phase generation diversity convergence (en_scheduler e) (en_event_bus e) (en_world e) Hp) as Hs.
  destruct (scheduler_update _ _ _ _ _ _ _) as [[[sc bus]|ex] w']; by split_and!.
Qed.

Lemma keeps_evaluate g st : keeps (at_generation g st) evaluate_population.
Proof.
  unfold evaluate_population. keeps_steps; [apply keeps_in_world, at_generation_stable|by apply keeps_modify].
Qed.

Lemma keeps_check_convergence g st ps : keeps (at_generation g st) (check_convergence ps).
Proof. by apply keeps_zoom_to. Qed.

Lemma keeps_assess g st generation : keeps (at_generation g st) (assess generation).
Proof.
  unfold assess, speciate_population, score_novelty. keeps_steps;
    auto using keeps_evaluate, keeps_check_convergence, keeps_update_phase, keeps_in_world, at_generation_stable;
    (by apply keeps_modify) || (by apply keeps_zoom_to).
Qed.

(** A completed step is one generation. *)
Lemma step_generation g st fuel e : at_generation g st e ->
  wp (step fuel) (fun r e' => match r with Some _ => at_generation (g + 1) st e' | None => True end)
    (fun _ _ => True) e.
Proof.
  assert (Hk : forall A (m : M Engine A) (Q : A -> Engine -> Prop) g' e,
    keeps (at_generation g' st) m -> at_generation g' st e ->
    (forall a e', at_generation g' st e' -> Q a e') -> wp m Q (fun _ _ => True) e).
  { intros A m Q g' e' Hm He Hq. unfold wp. specialize (Hm e' He). destruct (m e') as [[a|ex] e'']; auto. }
  intros He. unfold step. repeat wp_step; [done|].
  eapply Hk; [apply keeps_in_world, at_generation_stable|exact He|]. intros t0 e1 H1. repeat wp_step.
  eapply Hk; [apply keeps_publish, at_generation_stable|exact H1|]. intros _ e2 H2. repeat wp_step.
  eapply Hk; [apply keeps_assess|exact H2|]. intros [[[ps div] ent] conv] e3 H3. repeat wp_step.
  eapply Hk; [apply keeps_produce, at_generation_stable|exact H3|]. intros [xs|] e4 H4; [|done].
  repeat wp_step.
  assert (H5 : at_generation (g + 1) st
    (put_population_manager (advance_generation (set_population (inject xs (en_elite_manager e4))
       (en_population_manager e4))) e4)).
  { destruct H4 as (Hg & Hs & Hp). split_and!; [|done|done]. cbn. by rewrite Hg. }
  eapply Hk; [apply keeps_in_world, at_generation_stable|exact H5|]. intros t1 e5 H6. repeat wp_step.
  eapply Hk; [apply keeps_publish, at_generation_stable|exact H6|]. intros _ e6 H7. by repeat wp_step.
Qed.

Lemma run_loop_generation g fuel n e : at_generation g false e ->
  wp (run_loop fuel n) (fun b e' => b = true -> at_generation (g + Z.of_nat n) false e') (fun _ _ => True) e.
Proof.
  revert g e. induction n as [|n IH]; intros g e He; cbn [run_loop]; repeat wp_step.
  - intros _. by rewrite Z.add_0_r.
  - destruct He as (_ & Hs & _). congruence.
  - eapply wp_mono; [apply (step_generation g false fuel e He)| |done]. intros r e1 H1. cbn beta in H1.
    destruct r as [r|]; [|by repeat wp_step]. repeat wp_step.
    eapply wp_mono; [apply (wp_of_keeps _ _ _ (keeps_check_convergence (g + 1) false _) H1)| |done].
    intros conv e2 H2. repeat wp_step.
    + destruct H2 as (_ & _ & Hp). bool_hyps. done.
    + eapply wp_mono; [apply IH, H2| |done]. intros b e3 H3 Hb. cbn beta in H3.
      replace (g + Z.of_nat (S n)) with (g + 1 + Z.of_nat n) by lia. auto.
Qed.

(** *** Every call keeps the scheduler from refining *)

Definition not_refining e : Prop := sc_current_phase (en_scheduler e) <> REFINEMENT.

Lemma not_refining_stable : stable not_refining.
Proof. by split. Qed.

Lemma keeps_not_refining {A} (m : M Engine A) :
  (forall g st, keeps (at_generation g st) m) -> keeps not_refining m.
Proof.
  intros Hm e He. destruct (Hm _ _ e (conj eq_refl (conj eq_refl He))) as (_ & _ & Hp). exact Hp.
Qed.

Ltac keeps_phase :=
  keeps_steps;
  auto using keeps_in_world, keeps_publish, keeps_produce, not_refining_stable;
  (by apply keeps_modify) || (by apply keeps_zoom_to) || idtac.

Lemma keeps_initialise seed : keeps not_refining (initialise seed).
Proof. unfold initialise. keeps_phase. Qed.
Lemma keeps_stop : keeps not_refining stop.
Proof. unfold stop. keeps_phase. Qed.
Lemma keeps_step fuel : keeps not_refining (step fuel).
Proof. unfold step. keeps_phase. apply keeps_not_refining. intros g st. apply keeps_assess. Qed.
Lemma keeps_run_loop fuel n : keeps not_refining (run_loop fuel n).
Proof.
  induction n as [|n IH]; cbn [run_loop]; keeps_phase. apply keeps_step.
Qed.
Lemma keeps_run fuel generations : keeps not_refining (run fuel generations).
Proof. unfold run. keeps_phase. apply keeps_run_loop. Qed.

(** The calls that change an engine, however they end. *)
Inductive engine_call e : Engine -> Prop :=
| EC_initialise seed : engine_call e (initialise seed e).2
| EC_stop : engine_call e (stop e).2
| EC_step fuel : engine_call e (step fuel e).2
| EC_run fuel generations : engine_call e (run fuel generations e).2.

Lemma reached_not_refining config registry bus w e :
  rtc engine_call (new_engine config registry bus w) e -> not_refining e.
Proof.
  intros Hr. assert (H1 : not_refining (new_engine config registry bus w)) by done. revert H1.
  induction Hr as [|e1 e2 e3 Hc _ IH]; [done|]. intros H1. apply IH.
  destruct Hc; [by apply keeps_initialise|by apply keeps_stop|by apply keeps_step|by apply keeps_run].
Qed.

(** No call counts a mutation: [record_mutation] has no caller. *)
Definition no_mutation_counted e : Prop :=
  mt_total_mutations (en_metrics e) = 0 /\
  mt_total_mutation_successes (en_metrics e) + mt_total_mutation_failures (en_metrics e) = 0.

Lemma no_mutation_stable : stable no_mutation_counted.
Proof. by split. Qed.

Ltac keeps_uncounted :=
  keeps_steps; try unfold check_convergence;
  auto using keeps_in_world, keeps_publish, keeps_produce, no_mutation_stable;
  (by apply keeps_modify) || (by apply keeps_zoom_to) || idtac.

Lemma keeps_step_uncounted fuel : keeps no_mutation_counted (step fuel).
Proof.
  unfold step, assess, evaluate_population, speciate_population, score_novelty, update_phase. keeps_uncounted.
Qed.

Lemma keeps_initialise_uncounted seed : keeps no_mutation_counted (initialise seed).
Proof. unfold initialise. keeps_uncounted. Qed.
Lemma keeps_stop_uncounted : keeps no_mutation_counted stop.
Proof. unfold stop. keeps_uncounted. Qed.
Lemma keeps_run_uncounted fuel generations : keeps no_mutation_counted (run fuel generations).
Proof.
  assert (Hloop : forall n, keeps no_mutation_counted (run_loop fuel n)).
  { induction n as [|n IHn]; cbn [run_loop]; keeps_uncounted; apply keeps_step_uncounted. }
  unfold run. by keeps_uncounted.
Qed.

(** The results report no mutation, whatever the operators did. *)
Theorem results_report_no_mutations config registry bus w e run_id :
  rtc engine_call (new_engine config registry bus w) e ->
  er_total_mutations (build_result run_id e) = 0 /\
  er_mutation_success_rate (build_result run_id e) = fzero.
Proof.
  intros Hr. assert (He : no_mutation_counted e).
  { assert (H1 : no_mutation_counted (new_engine config registry bus w)) by done. revert H1.
    induction Hr as [|e1 e2 e3 Hc _ IH]; [done|]. intros H1. apply IH.
    destruct Hc; [by apply keeps_initialise_uncounted|by apply keeps_stop_uncounted|by apply keeps_step_uncounted
                 |by apply keeps_run_uncounted]. }
  unfold build_result, overall_mutation_success_rate. cbn. destruct He as [-> ->]. by vm_compute.
Qed.

Lemma finish_run g fuel max_gen run_id e : at_generation g false e ->
  let Q := fun (r : option EvolutionResult) (_ : Engine) =>
    match r with
    | Some r => er_generations_completed r = g + Z.max 0 max_gen /\ er_final_phase r <> "refinement"
    | None => True end in
  wp (run_loop fuel (Z.to_nat max_gen))
    (fun finished => wp (if (finished : bool) then e ← gets id; mret (Some (build_result run_id e))
                         else mret None) Q (fun _ _ => True)) (fun _ _ => True) e.
Proof.
  intros He Q. eapply wp_mono; [apply (run_loop_generation _ _ _ _ He)| |done].
  intros b e1 H1. repeat wp_step; [|done]. destruct (H1 eq_refl) as (Hg & _ & Hp).
  unfold id, Q. cbn [build_result er_generations_completed er_final_phase]. split; [lia|].
  by destruct (sc_current_phase (en_scheduler e1)).
Qed.

(** In every engine reached from a new one by any calls, a run that returns
    has made all the generations it was asked for (the maximum of the
    configuration when none or zero is given), unless the engine was stopped:
    the early stop on stagnation waits for the refinement phase, which no call
    can reach, so it never happens. *)
Theorem run_generations config registry bus w e fuel generations r e' :
  rtc engine_call (new_engine config registry bus w) e -> en_stopped e = false ->
  run fuel generations e = (Ok (Some r), e') ->
  er_generations_completed r
  = pm_generation (en_population_manager e)
    + Z.max 0 (match generations with
               | Some g => if g =? 0 then cf_max_generations (en_config e) else g
               | None => cf_max_generations (en_config e)
               end) /\
  er_final_phase r <> "refinement".
Proof.
  intros Hr Hst Hrun.
  assert (He : at_generation (pm_generation (en_population_manager e)) false e)
    by (split_and!; [done..|by eapply reached_not_refining]).
  revert Hrun. set (n := Z.max 0 _).
  enough (Hw : wp (run fuel generations)
    (fun r _ => match r with
                | Some r => er_generations_completed r = pm_generation (en_population_manager e) + n /\
                            er_final_phase r <> "refinement"
                | None => True end) (fun _ _ => True) e).
  { intros Hrun. exact (wp_run _ _ _ _ _ _ Hw Hrun). }
  unfold run. repeat wp_step; try done; [by apply finish_run|].
  eapply wp_mono; [apply (wp_of_keeps _ _ _ (keeps_in_world _ (at_generation_stable _ _) _) He)| |done].
  intros run_id e1 He1. wp_step. by apply finish_run.
Qed.

Lemma initial_population_length n (seed : I) dims w :
  exists xs w', initial_population n seed dims w = (Ok xs, w') /\ length xs = n.
Proof.
  revert w. induction n as [|n IH]; intros w; [by exists [], w|]. cbn [initial_population]. unfold_monad.
  unfold new_id, new_individual, now. unfold_monad.
  match goal with |- context [initial_population n seed dims ?w'] => destruct (IH w') as (xs & w2 & E & Hl) end.
  rewrite E. eexists _, w2. split; [reflexivity|]. simpl. by rewrite Hl.
Qed.

Lemma pm_initialise_run (seed : I) config w :
  exists xs w', pm_initialise seed {| pm_config := config; pm_population := []; pm_generation := 0 |} w
    = (Ok {| pm_config := config; pm_population := xs; pm_generation := 0 |}, w') /\
    length xs = Z.to_nat (cf_population_size config).
Proof.
  destruct (initial_population_length (Z.to_nat (cf_population_size config)) seed
              (cf_fitness_dimensions config) w) as (xs & w' & E & Hl).
  exists xs, w'. split; [|done]. unfold pm_initialise. unfold_monad. cbn [pm_config]. by rewrite E.
Qed.

(** ** Filling a generation *)

(** What the production asks of the adapter and of the operators: they return,
    except that [graph_to_isr] may raise what the engine catches. *)
Record adapter_returns : Prop := {
  ar_graph (i : I) w : exists g w', isr_to_graph i w = (Ok g, w');
  ar_restamped (i : I) w : exists j w', restamped i w = (Ok j, w');
  ar_back g (i : I) w : match graph_to_isr g i w with
                        | (Raise ex, _) => exists m, ex = ValueError m \/ ex = KeyError m \/ ex = IndexError m
                        | _ => True
                        end;
}.
Definition operators_return (r : MutationRegistry) : Prop :=
  forall id op, registry_get id r = Some op ->
    (forall pre, mo_precondition_fn op = Some pre -> forall g t, exists b, pre g t = Ok b) /\
    (forall f, mo_apply_fn op = Some f -> forall g t d w, exists a w', f g t d w = (Ok a, w')).

(** The call returns, and what it returns satisfies [Q]; [P] is kept. *)
Definition returns {A} (P : Engine -> Prop) (m : M Engine A) (Q : A -> Prop) : Prop :=
  forall e, P e -> wp m (fun a e' => P e' /\ Q a) (fun _ _ => False) e.

Section Returns.
Variable P : Engine (I := I) -> Prop.
Hypothesis HP : stable P.

Lemma returns_ret {A} (a : A) (Q : A -> Prop) : Q a -> returns P (mret a) Q.
Proof. intros Ha e He. by apply wp_ret. Qed.
Lemma returns_gets {A} (f : Engine -> A) (Q : A -> Prop) : (forall e, P e -> Q (f e)) -> returns P (gets f) Q.
Proof. intros Hf e He. apply wp_gets. auto. Qed.
Lemma returns_modify f : (forall e, P e -> P (f e)) -> returns P (modify f) (fun _ => True).
Proof. intros Hf e He. apply wp_modify. auto. Qed.
Lemma returns_bind {A B} (m : M Engine A) (f : A -> M Engine B) Q R :
  returns P m Q -> (forall a, Q a -> returns P (f a) R) -> returns P (m ≫= f) R.
Proof.
  intros Hm Hf e He. apply wp_bind. eapply wp_mono; [apply Hm, He| |done].
  intros a e' [He' Ha]. by apply Hf.
Qed.
Lemma returns_weaken {A} (m : M Engine A) (Q R : A -> Prop) :
  returns P m Q -> (forall a, Q a -> R a) -> returns P m R.
Proof. intros Hm HQ e He. eapply wp_mono; [apply Hm, He| |done]. naive_solver. Qed.
Lemma returns_lift {A} (r : res A) a (Q : A -> Prop) : r = Ok a -> Q a -> returns P (lift_res r) Q.
Proof. intros -> Ha e He. by split. Qed.
Lemma returns_in_world {A} (m : M World A) (Q : A -> Prop) :
  (forall w, exists a w', m w = (Ok a, w') /\ Q a) -> returns P (in_world m) Q.
Proof.
  intros Hm e He. destruct (Hm (en_world e)) as (a & w' & E & Ha). unfold wp, in_world, zoom. rewrite E.
  split; [by apply st_world|done].
Qed.

Lemma returns_new_id prefix n : returns P (in_world (new_id prefix n)) (fun _ => True).
Proof. apply returns_in_world. intros w. by eexists _, _. Qed.
Lemma returns_new_individual id (i : I) f ps g h :
  returns P (in_world (new_individual id i f ps g h)) (fun _ => True).
Proof. apply returns_in_world. intros w. by eexists _, _. Qed.

Lemma returns_publish t g d : returns P (publish_engine t g d) (fun _ => True).
Proof.
  unfold publish_engine. eapply returns_bind; [by apply (returns_gets _ (fun _ => True))|]. intros bus _.
  eapply returns_bind; [by apply (returns_in_world _ (fun _ => True)); intros w; eexists _, _|].
  intros b _. apply returns_modify. intros e. by apply st_bus.
Qed.
Lemma returns_record_child c m fb r run_id : returns P (record_child c m fb r run_id) (fun _ => True).
Proof.
  unfold record_child. eapply returns_bind; [by apply (returns_gets _ (fun _ => True))|]. intros t _.
  eapply returns_bind; [by apply (returns_in_world _ (fun _ => True)); intros w; eexists _, _|].
  intros t' _. apply returns_modify. intros e. by apply st_lineage.
Qed.

Hypothesis Hadapter : adapter_returns.

Lemma returns_unmutated x g : returns P (unmutated_child x g) (fun _ => True).
Proof.
  unfold unmutated_child. eapply returns_bind.
  { apply (returns_in_world _ (fun _ => True)). intros w.
    destruct (ar_restamped Hadapter (in_isr x) w) as (j & w' & E). by exists j, w'. }
  intros j _. eapply returns_bind; [apply returns_new_id|]. intros id _. apply returns_new_individual.
Qed.

Lemma returns_choose cs : returns P (choose_target cs) (fun _ => True).
Proof.
  destruct cs as [|c cs]; [by apply returns_ret|]. apply returns_in_world. intros w.
  destruct (choice_member (c :: cs) w) as (y & w' & E & _); [done|]. by exists y, w'.
Qed.

Lemma filter_res_ok (f : string -> res bool) xs : (forall s, exists b, f s = Ok b) -> exists ys, filter_res f xs = Ok ys.
Proof.
  intros Hf. induction xs as [|s xs [ys IH]]; [by eexists|]. cbn [filter_res].
  destruct (Hf s) as [b E]. unfold_monad. rewrite E, IH. by eexists.
Qed.

Lemma returns_find_target op g :
  (forall pre, mo_precondition_fn op = Some pre -> forall g t, exists b, pre g t = Ok b) ->
  returns P (find_target op g) (fun _ => True).
Proof.
  intros Hpre. unfold find_target. eapply returns_bind; [apply returns_choose|]. intros tid _.
  destruct (mo_precondition_fn op) as [pre|]; [|by apply returns_ret].
  destruct (Hpre pre eq_refl g tid) as [b E]. eapply returns_bind; [by apply (returns_lift _ b (fun _ => True))|].
  intros [] _; [by apply returns_ret|].
  destruct (filter_res_ok (pre g) (dkeys (g_nodes g))) as [ys Ey]; [by apply Hpre|].
  eapply returns_bind; [by apply (returns_lift _ ys (fun _ => True))|]. intros zs _.
  eapply returns_bind; [apply returns_choose|]. intros t' _. by apply returns_ret.
Qed.

Lemma returns_apply_operator x g op_id op f graph target :
  (forall g t d w, exists a w', f g t d w = (Ok a, w')) ->
  returns P (apply_operator x g op_id op f graph target) (fun _ => True).
Proof.
  intros Hf. unfold apply_operator. eapply returns_bind.
  { apply (returns_in_world _ (fun _ => True)). intros w.
    destruct (Hf graph target [] w) as (a & w' & E). by exists a, w'. }
  intros [new_graph meta] _. eapply returns_bind.
  { apply (returns_in_world _ (fun _ => True)). intros w. unfold or_restamped, try_catch.
    pose proof (ar_back Hadapter new_graph (in_isr x) w) as Hb.
    destruct (graph_to_isr new_graph (in_isr x) w) as [[j|ex] w']; [by exists j, w'|].
    destruct Hb as (m & Hb). destruct (ar_restamped Hadapter (in_isr x) w') as (j & w2 & E2).
    exists j, w2. destruct Hb as [->|[->| ->]]; by rewrite E2. }
  intros j _. eapply returns_bind; [apply returns_new_id|]. intros id _.
  eapply returns_bind; [apply returns_new_individual|]. intros child _.
  eapply returns_bind; [by apply (returns_gets _ (fun _ => True))|]. intros run_id _.
  eapply returns_bind; [apply returns_record_child|]. intros _ _.
  eapply returns_bind; [apply returns_publish|]. intros _ _. by apply returns_ret.
Qed.

Variable registry : MutationRegistry.
Hypothesis Hoperators : operators_return registry.
Hypothesis Hregistry : forall e, P e -> en_registry e = registry.

Lemma returns_mutate x g : returns P (mutate_individual x g) (fun _ => True).
Proof.
  unfold mutate_individual. eapply returns_bind.
  { apply (returns_in_world _ (fun _ => True)). intros w.
    destruct (ar_graph Hadapter (in_isr x) w) as (gr & w' & E). by exists gr, w'. }
  intros graph _. eapply returns_bind; [by apply (returns_gets _ (fun _ => True))|]. intros ids _.
  destruct ids as [|i ids]; [apply returns_unmutated|]. eapply returns_bind.
  { apply (returns_in_world _ (fun _ => True)). intros w.
    destruct (choice_member (i :: ids) w) as (y & w' & E & _); [done|]. by exists y, w'. }
  intros op_id _. eapply returns_bind.
  { apply (returns_gets _ (fun o => o = registry_get op_id registry)). intros e He. by rewrite (Hregistry e He). }
  intros o ->. destruct (registry_get op_id registry) as [op|] eqn:Eo; [|apply returns_unmutated].
  destruct (Hoperators op_id op Eo) as [Hpre Hf].
  destruct (mo_apply_fn op) as [f|]; [|apply returns_unmutated].
  eapply returns_bind; [by apply returns_find_target|]. intros [tid|] _; [|apply returns_unmutated].
  apply returns_apply_operator. by apply Hf.
Qed.

Variable pm : PopulationManager I.
Hypothesis Hpm : forall e, P e -> en_population_manager e = pm.
Hypothesis Htwo : (2 <= length (pm_population pm))%nat.
Hypothesis Hselects : selects (pm_config pm).

Lemma returns_mutation_child g : returns P (mutation_child g) (fun _ => True).
Proof.
  unfold mutation_child. eapply returns_bind; [by apply (returns_gets _ (fun p => p = pm))|]. intros p ->.
  eapply returns_bind; [|intros parent _; apply returns_mutate].
  apply (returns_in_world _ (fun _ => True)). intros w.
  destruct (select_member pm w) as (y & w' & E & _); [by intros E; rewrite E in Htwo; simpl in Htwo; lia|done|].
  by exists y, w'.
Qed.

Lemma returns_try_crossover g : returns P (try_crossover g) (fun r => is_Some r).
Proof.
  assert (Hc : returns P (crossover_child g) (fun _ => True)).
  { unfold crossover_child. eapply returns_bind; [by apply (returns_gets _ (fun p => p = pm))|]. intros p ->.
    eapply returns_bind.
    { apply (returns_in_world _ (fun _ => True)). intros w.
      destruct (select_pair_members pm w Htwo Hselects) as (a & b & w' & E & _). by exists (a, b), w'. }
    intros [a b] _. eapply returns_bind; [apply returns_new_id|]. intros id _. apply returns_new_individual. }
  assert (Hall : returns P (child ← crossover_child g;
      _ ← modify (fun e => put_metrics (record_crossover (en_metrics e)) e);
      _ ← record_child child "" None "crossover" ""; mret (Some child)) (fun r => is_Some r)).
  { eapply returns_bind; [exact Hc|]. intros child _.
    eapply returns_bind; [apply returns_modify; intros e1; by apply st_crossover|]. intros _ _.
    eapply returns_bind; [apply returns_record_child|]. intros _ _. by apply returns_ret. }
  intros e He. unfold try_crossover. apply wp_try.
  eapply wp_mono; [exact (Hall e He)|done|intros ex e' []].
Qed.

Lemma returns_produce_loop fuel target g acc :
  target <= Z.of_nat (length acc) + Z.of_nat fuel ->
  returns P (produce_loop fuel target g acc)
    (fun r => exists xs, r = Some xs /\ Z.of_nat (length xs) = Z.max target (Z.of_nat (length acc))).
Proof.
  revert acc. induction fuel as [|fuel IH]; intros acc Hf; cbn [produce_loop];
    destruct (Z.leb_spec target (Z.of_nat (length acc))) as [Hl|Hl].
  1, 3: apply returns_ret; exists acc; split; [done|lia].
  - lia.
  - eapply returns_bind; [by apply (returns_in_world _ (fun _ => True)); intros w; eexists _, _|]. intros r _.
    eapply returns_bind; [by apply (returns_gets _ (fun _ => True))|]. intros rate _.
    eapply (returns_bind _ _ (fun c => is_Some c)).
    + destruct (fltb r rate); [apply returns_try_crossover|].
      eapply returns_bind; [apply returns_mutation_child|]. intros c _. by apply returns_ret.
    + intros c [child ->]. eapply returns_weaken; [apply IH; rewrite length_app; simpl; lia|].
      intros o (xs & -> & Hxs). exists xs. split; [done|]. rewrite length_app in Hxs. simpl in Hxs. lia.
Qed.
End Returns.

(** C32: with a population of two or more, a way of selecting, an adapter and
    operators that return, the production of a generation always terminates,
    within as many iterations as the size of the population, without an
    exception, and gives exactly that many individuals. *)
Theorem generation_is_filled fuel generation e :
  adapter_returns -> operators_return (en_registry e) ->
  (2 <= length (pm_population (en_population_manager e)))%nat ->
  selects (pm_config (en_population_manager e)) ->
  cf_population_size (en_config e) <= Z.of_nat fuel ->
  exists xs e', produce_next_generation fuel generation e = (Ok (Some xs), e') /\
    Z.of_nat (length xs) = Z.max 0 (cf_population_size (en_config e)).
Proof.
  intros Ha Ho H2 Hs Hf.
  set (P := fun e' : Engine => en_registry e' = en_registry e /\
                               en_population_manager e' = en_population_manager e).
  assert (HP : stable P) by (by split).
  pose proof (returns_produce_loop P HP Ha (en_registry e) Ho ltac:(by intros ? [])
                (en_population_manager e) ltac:(by intros ? []) H2 Hs fuel
                (cf_population_size (en_config e)) generation [] ltac:(simpl; lia) e (conj eq_refl eq_refl)) as Hw.
  unfold produce_next_generation. unfold_monad. unfold wp in Hw.
  destruct (produce_loop _ _ _ _ e) as [[r|ex] e']; [|done]. destruct Hw as (_ & xs & -> & Hxs).
  eexists _, e'. split; [reflexivity|]. unfold first_items. rewrite length_take. simpl in Hxs.
  destruct (Z.ltb_spec (cf_population_size (en_config e)) 0); lia.
Qed.
End Engine.

(** ** Witnesses: three individuals named by their ISR, whose length, up to four, is the fitness *)

#[local] Existing Instance sample_surroundings.

Definition sample_fitness (i : string) : FitnessVector :=
  {| fv_values := [("quality", of_nat (String.length i `min` 4))] |}.
#[export] Instance sample_adapter : Adapter string := {|
  content_hash i := i; restamped i := mret i; isr_to_graph _ := mret empty_graph;
  graph_to_isr _ i := mret (i +:+ "+"); evaluate_fitness i := mret (sample_fitness i) |}.

(** An operator that leaves the graph as it is; the child's ISR is longer. *)
Definition sample_operator : MutationOperatorSpec := {|
  mo_identifier := "extend"; mo_category := MC_STRUCTURAL; mo_mutation_class := CL_ADDITIVE;
  mo_description := ""; mo_risk_level := "low"; mo_affected_node_types := [];
  mo_affected_edge_types := []; mo_estimated_complexity := fone; mo_expected_fitness_impact := [];
  mo_reversible := true; mo_inverse_operator := None; mo_required_capabilities := [];
  mo_precondition_fn := None; mo_apply_fn := Some (fun g _ d => mret (g, d));
  mo_postcondition_fn := None; mo_explain_fn := None |}.
Definition sample_registry : MutationRegistry := (EvoEngine.register sample_operator empty_registry).2.
Definition sample_config : EvolutionConfig :=
  {| cf_run_id := "run"; cf_seed := 1; cf_population_size := 3; cf_elite_count := 1;
     cf_max_generations := 2; cf_mutation_rate := fone; cf_crossover_rate := fhalf;
     cf_max_mutations_per_individual := 1; cf_selection_algorithm := "tournament";
     cf_tournament_size := 2; cf_diversity_threshold := fhalf; cf_novelty_weight := fzero;
     cf_speciation_enabled := true; cf_species_compatibility_threshold := fhalf;
     cf_convergence_window := 2; cf_convergence_threshold := fhalf; cf_stagnation_limit := 1;
     cf_fitness_dimensions := ["quality"]; cf_adaptive_learning_rate := fhalf;
     cf_adaptive_min_weight := fzero; cf_adaptive_max_weight := fone;
     cf_knowledge_base_enabled := true; cf_knowledge_base_version := ""; cf_deterministic := true;
     cf_created_at := 0; cf_description := "" |}.
Definition sample_new : Engine (I := string) := new_engine sample_config sample_registry empty_bus world0.
Definition sample_engine : Engine (I := string) := (initialise "x" sample_new).2.

Lemma sample_reached : rtc engine_call sample_new sample_engine.
Proof. apply rtc_once, EC_initialise. Qed.

Lemma run_generations_example :
  exists r e', run 3 None sample_engine = (Ok (Some r), e') /\
    er_generations_completed r = 2 /\ er_final_phase r <> "refinement".
Proof.
  destruct (run 3 None sample_engine) as [o e'] eqn:E.
  assert (Eo : match o with Ok (Some _) => true | _ => false end = true)
    by (change o with (fst (o, e')); rewrite <- E; vm_compute; reflexivity).
  destruct o as [[r|]|ex]; [|discriminate Eo..]. exists r, e'. split; [reflexivity|].
  exact (run_generations sample_config sample_registry empty_bus world0 sample_engine
           3 None r e' sample_reached eq_refl E).
Defined.

Lemma sample_adapter_returns : adapter_returns (I := string).
Proof.
  split; [intros i w; exists empty_graph, w; reflexivity|intros i w; exists i, w; reflexivity|].
  intros g i w. exact I.
Qed.
Lemma sample_operators_return : operators_return sample_registry.
Proof.
  intros id op Hop. change (dget id [("extend", sample_operator)] = Some op) in Hop.
  cbn [dget] in Hop. destruct (decide (id = "extend")); [injection Hop as <-|discriminate].
  split; [discriminate|]. intros f [= <-] g t d w. exists (g, d), w. reflexivity.
Qed.

Lemma generation_is_filled_witness :
  exists xs e', produce_next_generation 3 0 sample_engine = (Ok (Some xs), e') /\
    Z.of_nat (length xs) = 3.
Proof.
  apply (generation_is_filled 3 0 sample_engine).
  - exact sample_adapter_returns.
  - exact sample_operators_return.
  - vm_compute. lia.
  - right; right. vm_compute. discriminate.
  - vm_compute. discriminate.
Defined.
