(* ===== verification/EvoTrendSpec.v ===== *)
(** * Evolution engine: the best fitness never decreases

    Elitism at work: the best individual of a generation is an elite, elites
    replace the worst of the next generation, and their ISRs are evaluated to the
    same fitness again. *)

From Stdlib Require Import SpecFloat.
From S2P Require Import Prelude PyFloat PyVal PyText IsrModel TypedGraph EvoModels EvoPopulation.
From S2P Require Import EvoControl EvoDiversity EvoEngine EvoSelectSpec EvoDiversitySpec EvoSpec.
Open Scope Z_scope.

#[local] Opaque fltb fleb fadd fmul fsub fdiv.

Abbreviation ascending := (Sorted (fun a b : float => fleb a b = true)).

Lemma ascending_snoc l v : ascending l -> (forall u, last l = Some u -> fleb u v = true) -> ascending (l ++ [v]).
Proof.
  induction 1 as [|a l Hs IH Hhd]; intros Hv; [by repeat constructor|]. cbn [app]. constructor.
  - apply IH. intros u Hu. apply Hv. by destruct l.
  - destruct l as [|b l]; constructor; [by apply Hv|by inversion Hhd].
Qed.

Section Trend.
Context {I : Set} `{Surroundings} `{Adapter I}.
Implicit Types (e : Engine (I := I)) (x : Individual I).

Abbreviation population e := (pm_population (en_population_manager e)).
Abbreviation trend e := (mt_max_fitness_trend (en_metrics e)).

(** ** Steady evaluation

    An ISR evaluates to the same fitness whenever it is evaluated, and its
    composite is a number. *)
Variable fitness_of : I -> FitnessVector.
Definition score (i : I) : float := composite_score None (fitness_of i).

Record steady : Prop := {
  sd_value i w v w' : evaluate_fitness i w = (Ok v, w') -> v = fitness_of i;
  sd_number i : is_nan (score i) = false;
}.
Hypothesis Hsteady : steady.

(** What the theorem needs of an individual: its ISR and its fitness. *)
Definition essence x : I * FitnessVector := (in_isr x, in_fitness x).

Lemma composite_essence x : composite_fitness x = composite_score None (essence x).2.
Proof. done. Qed.

(** ** The steps of an assessment *)

Lemma evaluate_all_run (xs : list (Individual I)) w :
  match evaluate_all xs w with
  | (Ok ys, _) => map essence ys = map (fun x => (in_isr x, fitness_of (in_isr x))) xs
  | (Raise _, _) => True
  end.
Proof.
  revert w. induction xs as [|x xs IH]; intros w; [done|]. cbn [evaluate_all]. unfold_monad.
  destruct (evaluate_fitness (in_isr x) w) as [[v|ex] w1] eqn:E; [|done].
  specialize (IH w1). destruct (evaluate_all xs w1) as [[ys|ex] w2]; [|done].
  cbn [map]. rewrite IH, (sd_value Hsteady _ _ _ _ E). done.
Qed.

Lemma assign_essence config (xs : list (Individual I)) species w :
  match assign config xs species w with
  | (Ok (ys, _), _) => map essence ys = map essence xs
  | (Raise _, _) => True
  end.
Proof.
  revert species w. induction xs as [|x xs IH]; intros species w; [done|]. cbn [assign]. unfold_monad.
  rewrite find_species_none. unfold new_id.
  match goal with |- context [assign config xs ?sp ?w'] => specialize (IH sp w'); destruct (assign config xs sp w') as [[[ys sp']|ex] w2] end; [|done].
  cbn [map]. by rewrite IH.
Qed.

Lemma speciate_essence (xs : list (Individual I)) dm w :
  match speciate xs dm w with
  | (Ok (ys, _), _) => map essence ys = map essence xs
  | (Raise _, _) => True
  end.
Proof.
  unfold speciate. destruct (negb _); [done|]. unfold_monad.
  match goal with |- context [assign ?c xs ?sp ?w'] => pose proof (assign_essence c xs sp w') as Ha; destruct (assign c xs sp w') as [[[ys sp']|ex] w2] end; done.
Qed.

Lemma novelty_essence (all_ todo : list (Individual I)) ns :
  match novelty_loop all_ todo ns with
  | (Ok ys, _) => map essence ys = map essence todo
  | (Raise _, _) => True
  end.
Proof.
  revert ns. induction todo as [|x todo IH]; intros ns; [done|]. cbn [novelty_loop]. unfold_monad.
  destruct (compute_novelty x all_ (id ns)) as [r|ex]; [|done].
  destruct (nr_is_novel r); unfold mret, M_ret; cbn beta iota;
    match goal with |- context [novelty_loop all_ todo ?n] =>
      specialize (IH n); destruct (novelty_loop all_ todo n) as [[ys|ex] ns'] end; try done;
    cbn [map]; by rewrite IH.
Qed.

(** The best value of the statistics is the best composite. *)
Lemma stats_max (pm : PopulationManager I) (h : Individual I) :
  pm_population pm <> [] -> keyed composite_fitness (pm_population pm) ->
  (forall y, y ∈ pm_population pm -> fleb (composite_fitness y) (composite_fitness h) = true) ->
  (forall y, y ∈ pm_population pm -> fleb (composite_fitness y) (ps_max_fitness (stats pm)) = true) /\
  fleb (ps_max_fitness (stats pm)) (composite_fitness h) = true.
Proof.
  intros Hn Hk Hh. unfold stats. destruct (pm_population pm) as [|x xs] eqn:E; [done|].
  cbn [map ps_max_fitness].
  destruct (max_of_spec (composite_fitness x) (map composite_fitness xs)) as [Hin Htop].
  change (composite_fitness x :: map composite_fitness xs) with (map composite_fitness (x :: xs)) in *.
  split.
  - intros y Hy. apply Htop; [|by apply list_elem_of_fmap_2].
    intros f (z & -> & Hz)%list_elem_of_fmap. by apply Hk.
  - apply list_elem_of_fmap in Hin as (z & -> & Hz). by apply Hh.
Qed.

(** ** The invariant *)

Record healthy e : Prop := {
  hl_population : population e <> [];
  hl_elites : 0 < em_elite_count (en_elite_manager e);
  hl_trend : ascending (trend e);
  hl_last v : last (trend e) = Some v ->
    exists x, x ∈ population e /\ fleb v (score (in_isr x)) = true;
}.

(** The population, up to what does not matter, the elites and the trend. *)
Record outline : Type := {
  ol_essence : list (I * FitnessVector);
  ol_count : Z;
  ol_elites : list (Individual I);
  ol_trend : list float;
}.
Definition outline_of e : outline :=
  {| ol_essence := map essence (population e); ol_count := em_elite_count (en_elite_manager e);
     ol_elites := em_elites (en_elite_manager e); ol_trend := trend e |}.

Lemma essence_in_map x (xs ys : list (Individual I)) :
  map essence xs = map essence ys -> x ∈ xs -> exists y, y ∈ ys /\ essence y = essence x.
Proof.
  intros E Hx. assert (Hin : essence x ∈ map essence ys) by (rewrite <- E; by apply list_elem_of_fmap_2).
  apply list_elem_of_fmap in Hin as (y & Ey & Hy). by exists y.
Qed.

Lemma healthy_outline e e' : outline_of e' = outline_of e -> healthy e -> healthy e'.
Proof.
  intros E [Hn Hc Ht Hl]. injection E as Ee Ec _ Et. split.
  - intros En. rewrite En in Ee. symmetry in Ee. by apply map_eq_nil in Ee.
  - by rewrite Ec.
  - by rewrite Et.
  - intros v. rewrite Et. intros Hv. destruct (Hl v Hv) as (x & Hx & Hle).
    destruct (essence_in_map x (population e) (population e')) as (y & Hy & Exy); [done|done|].
    exists y. split; [done|]. injection Exy as -> _. exact Hle.
Qed.

(** [like o]: what keeps the outline. *)
Definition like (o : outline) e : Prop := outline_of e = o.

Lemma like_stable o : stable (like o).
Proof. by split. Qed.

Lemma keeps_speciate o :
  forall e, like o e -> wp speciate_population (fun ys e' => like o e' /\ map essence ys = ol_essence o)
                          (fun _ e' => like o e') e.
Proof.
  intros e <-. unfold speciate_population. repeat wp_step. apply wp_zoom.
  pose proof (speciate_essence (population e) (en_diversity_manager e) (en_world e)) as Hs.
  destruct (speciate _ _ _) as [[[ys dm]|ex] w']; [|done]. repeat wp_step.
  unfold like, outline_of. cbn. by rewrite Hs.
Qed.

Lemma keeps_score_novelty o xs : map essence xs = ol_essence o -> keeps (like o) (score_novelty xs).
Proof.
  intros Hxs e <-. unfold score_novelty. unfold_monad.
  pose proof (novelty_essence xs xs (en_novelty_search e)) as Hs. unfold update_novelty_scores.
  destruct (novelty_loop xs xs _) as [[ys|ex] ns']; [|done].
  unfold like, outline_of in *. cbn in *. by rewrite Hs, Hxs.
Qed.

Lemma keeps_update_phase_like o g d c : keeps (like o) (update_phase g d c).
Proof.
  unfold update_phase. keeps_steps; [apply keeps_in_world, like_stable|by apply keeps_modify..].
Qed.

(** ** A step *)

(** The best value of a generation reaches that of the one before, and its
    first elite has it. *)
Definition assessed (ps : PopulationStats) (o : outline) : Prop :=
  exists h rest, ol_elites o = h :: rest /\
    fleb (ps_max_fitness ps) (score (in_isr h)) = true /\
    forall v, last (ol_trend o) = Some v -> fleb v (ps_max_fitness ps) = true.

(** Everyone has the fitness of their ISR. *)
Definition evaluated (xs : list (Individual I)) : Prop :=
  map essence xs = map (fun x => (in_isr x, fitness_of (in_isr x))) xs.

Lemma evaluated_score xs x : evaluated xs -> x ∈ xs -> composite_fitness x = score (in_isr x).
Proof.
  intros Hev Hx. unfold evaluated in Hev. induction xs as [|y xs IH]; [by apply not_elem_of_nil in Hx|].
  injection Hev as Ey Hev. apply elem_of_cons in Hx as [->|Hx]; [|by apply IH].
  unfold composite_fitness. by rewrite Ey.
Qed.

Lemma evaluated_same xs ys : map essence xs = map essence ys -> evaluated ys -> evaluated xs.
Proof.
  unfold evaluated. intros E Hys.
  assert (Hf : forall zs : list (Individual I),
    map (fun x => (in_isr x, fitness_of (in_isr x))) zs = map (fun p => (p.1, fitness_of p.1)) (map essence zs)).
  { intros zs. by rewrite map_map. }
  rewrite Hf, E, Hys at 1. rewrite Hf, <- E. by rewrite E, Hys, Hf, map_map.
Qed.

Lemma evaluated_keyed xs : evaluated xs -> keyed composite_fitness xs.
Proof. intros Hev x Hx. rewrite (evaluated_score xs) by done. apply (sd_number Hsteady). Qed.

Lemma evaluate_population_spec e : healthy e ->
  wp evaluate_population (fun _ e' => healthy e' /\ evaluated (population e')) (fun _ e' => healthy e') e.
Proof.
  intros He. unfold evaluate_population. repeat wp_step. apply wp_zoom.
  pose proof (evaluate_all_run (population e) (en_world e)) as Hr.
  destruct (evaluate_all _ _) as [[ys|ex] w']; [|by apply (healthy_outline e)].
  repeat wp_step. cbn. destruct He as [Hn Hc Ht Hl].
  assert (Hisr : map in_isr ys = map in_isr (population e)).
  { apply (f_equal (map fst)) in Hr. by rewrite !map_map in Hr. }
  split; [split; cbn|].
  - intros ->. destruct (population e); done.
  - done.
  - done.
  - intros v Hv. destruct (Hl v Hv) as (x & Hx & Hle).
    assert (Hin : in_isr x ∈ map in_isr ys) by (rewrite Hisr; by apply list_elem_of_fmap_2).
    apply list_elem_of_fmap in Hin as (y & Ey & Hy). exists y. by rewrite <- Ey.
  - unfold evaluated. rewrite Hr. clear -Hisr. revert ys Hisr.
    induction (population e) as [|x xs IH]; intros [|y ys] E; try done. injection E as Ey E.
    cbn [map]. by rewrite Ey, (IH ys E).
Qed.

Lemma wp_keeps_bind {A B} (P : Engine -> Prop) (m : M Engine A) (f : A -> M Engine B) Q (E : exn -> Engine -> Prop) e :
  P e -> keeps P m -> (forall ex e', P e' -> E ex e') -> (forall a e', P e' -> wp (f a) Q E e') ->
  wp (m ≫= f) Q E e.
Proof.
  intros He Hm HE Hf. apply wp_bind. eapply wp_mono; [apply (wp_of_keeps _ _ _ Hm He)|exact Hf|exact HE].
Qed.

(** The rest of an assessment, in an outline whose first elite is the best. *)
Lemma assess_rest generation o h rest e :
  like o e -> healthy e -> evaluated (population e) ->
  ol_elites o = h :: rest ->
  (forall y, y ∈ population e -> fleb (composite_fitness y) (score (in_isr h)) = true) ->
  (exists h0, h0 ∈ population e /\ in_isr h0 = in_isr h) ->
  let after := fun e' => healthy e' /\ like o e' in
  wp (population ← speciate_population;
      diversity ← lift_res (compute_diversity population);
      entropy ← gets (fun e => compute_entropy (en_diversity_manager e));
      _ ← score_novelty population;
      pop_stats ← gets (fun e => stats (en_population_manager e));
      convergence ← check_convergence pop_stats;
      _ ← update_phase generation diversity convergence;
      mret (pop_stats, diversity, entropy, convergence))
    (fun r e' => after e' /\ assessed r.1.1.1 o) (fun _ e' => after e') e.
Proof.
  intros Ho He Hev Hel Htop (h0 & Hh0 & Eh0) after.
  assert (Hafter : forall e', like o e' -> after e').
  { intros e' He'. split; [|done]. apply (healthy_outline e); [|done]. by rewrite He', <- Ho. }
  apply wp_bind. eapply wp_mono; [apply (keeps_speciate o e Ho)| |intros ex e' He'; by apply Hafter].
  intros ys e1 [He1 Hys]. apply wp_bind, wp_lift; [|intros; by apply Hafter]. intros diversity _.
  apply wp_bind, wp_gets. eapply wp_keeps_bind; [exact He1|by apply keeps_score_novelty|intros; by apply Hafter|].
  intros _ e2 He2. apply wp_bind, wp_gets.
  assert (Hes : map essence (population e2) = map essence (population e)).
  { unfold like in *. rewrite <- Ho in He2. by injection He2. }
  assert (Hstats : assessed (stats (en_population_manager e2)) o).
  { assert (Hev2 : evaluated (population e2)) by (by eapply evaluated_same).
    destruct (stats_max (en_population_manager e2) h0) as [Hall Hbest].
    - intros E. rewrite E in Hes. symmetry in Hes. apply map_eq_nil in Hes. by apply (hl_population e He).
    - by apply evaluated_keyed.
    - intros y Hy. destruct (essence_in_map y _ _ Hes Hy) as (z & Hz & Ez).
      rewrite (composite_essence y), <- Ez, <- composite_essence.
      rewrite (evaluated_score (population e) h0), Eh0 by done. by apply Htop.
    - exists h, rest. split; [done|]. split.
      + rewrite <- Eh0, <- (evaluated_score (population e) h0) by done. exact Hbest.
      + intros v Hv. assert (Hv' : last (trend e) = Some v) by (by rewrite <- Hv, <- Ho).
        destruct (hl_last e He v Hv') as (x & Hx & Hle).
        symmetry in Hes. destruct (essence_in_map x _ _ Hes Hx) as (z & Hz & Ez).
        eapply fleb_trans; [exact Hle|]. injection Ez as Ez _. rewrite <- Ez.
        rewrite <- (evaluated_score (population e2) z) by done. by apply Hall. }
  eapply wp_keeps_bind; [exact He2|by apply keeps_zoom_to|intros; by apply Hafter|]. intros conv e3 He3.
  eapply wp_keeps_bind; [exact He3|apply keeps_update_phase_like|intros; by apply Hafter|]. intros _ e4 He4.
  apply wp_ret. split; [by apply Hafter|done].
Qed.

Lemma assess_spec generation e : healthy e ->
  wp (assess generation) (fun r e' => healthy e' /\ assessed r.1.1.1 (outline_of e')) (fun _ e' => healthy e') e.
Proof.
  intros He. unfold assess. apply wp_bind.
  eapply wp_mono; [apply (evaluate_population_spec e He)| |done]. intros _ e1 [He1 Hev].
  apply wp_bind, wp_gets, wp_bind, wp_modify.
  destruct (elite_update_best (population e1) (en_elite_manager e1)) as (h & rest & Eel & Hh & Htop);
    [apply He1|apply He1|by apply evaluated_keyed|].
  set (e2 := put_elite_manager (elite_update (population e1) (en_elite_manager e1)) e1).
  assert (He2 : healthy e2) by (by destruct He1).
  assert (Hk : like (outline_of e2) e2) by done.
  eapply wp_keeps_bind; [exact Hk|by apply (keeps_zoom_to (like (outline_of e2)))| |].
  { intros ex e' He'. by apply (healthy_outline e2). }
  intros front e3 He3. apply wp_bind, wp_modify.
  set (e4 := put_current_pareto_front (Some front) e3).
  assert (He4 : like (outline_of e2) e4) by exact He3.
  assert (Hpop : map essence (population e4) = map essence (population e1)).
  { unfold like in He4. by injection He4. }
  eapply wp_mono; [apply (assess_rest generation (outline_of e2) (with_elite true h) rest e4)| |].
  - done.
  - by apply (healthy_outline e2).
  - by eapply evaluated_same.
  - exact Eel.
  - intros y Hy. destruct (essence_in_map y _ _ Hpop Hy) as (z & Hz & Ez).
    rewrite (composite_essence y), <- Ez, <- composite_essence.
    change (in_isr (with_elite true h)) with (in_isr h).
    rewrite <- (evaluated_score (population e1) h) by done. by apply Htop.
  - symmetry in Hpop. destruct (essence_in_map h _ _ Hpop Hh) as (z & Hz & Ez). exists z. split; [done|].
    by injection Ez.
  - intros r e' [[H1 H2] H3]. split; [done|]. by rewrite H2.
  - intros ex e' [H1 _]. exact H1.
Qed.

Lemma healthy_stable : stable healthy.
Proof. split; intros; by apply (healthy_outline e). Qed.

(** Between the injection of the elites and the record of the generation. *)
Record injected (ps : PopulationStats) e : Prop := {
  ij_healthy : healthy e;
  ij_reaches : exists x, x ∈ population e /\ fleb (ps_max_fitness ps) (score (in_isr x)) = true;
  ij_above v : last (trend e) = Some v -> fleb v (ps_max_fitness ps) = true;
}.

Lemma injected_stable ps : stable (injected ps).
Proof. split; intros ? e [Hh Hr Ha] || intros e [Hh Hr Ha]; (split; [by apply healthy_stable|done..]). Qed.

(** The elites are in the next population. *)
Lemma inject_injected ps (xs : list (Individual I)) e :
  healthy e -> assessed ps (outline_of e) ->
  injected ps (put_population_manager (advance_generation (set_population
    (inject xs (en_elite_manager e)) (en_population_manager e))) e).
Proof.
  intros [Hn Hc Ht Hl] (h & rest & Eel & Hh & Ha). cbn in Eel, Ha.
  assert (Hin : exists x, x ∈ map (fun x => with_age (in_age x + 1) x) (inject xs (en_elite_manager e)) /\
                          in_isr x = in_isr h).
  { exists (with_age (in_age h + 1) h). split; [|done]. apply list_elem_of_fmap. exists h. split; [done|].
    apply inject_keeps. rewrite Eel. by left. }
  destruct Hin as (x & Hx & Ex). assert (Hreach : fleb (ps_max_fitness ps) (score (in_isr x)) = true)
    by (by rewrite Ex).
  split; [split| |].
  - cbn. intros En. rewrite En in Hx. by apply not_elem_of_nil in Hx.
  - done.
  - done.
  - intros v Hv. exists x. split; [done|]. eapply fleb_trans; [by apply Ha|done].
  - by exists x.
  - done.
Qed.

Lemma record_healthy gm ps e : injected ps e ->
  healthy (put_metrics (record_generation gm ps (en_metrics e)) e).
Proof.
  intros [[Hn Hc Ht Hl] Hr Ha]. split; [done|done| |].
  - by apply ascending_snoc.
  - intros v. cbn. rewrite last_snoc. intros [= <-]. exact Hr.
Qed.

Lemma step_healthy fuel e : healthy e -> wp (step fuel) (fun _ e' => healthy e') (fun _ e' => healthy e') e.
Proof.
  intros He. pose proof healthy_stable as Hst. unfold step. apply wp_bind, wp_gets. wp_step; [done|].
  eapply wp_keeps_bind; [exact He|by apply keeps_in_world|done|]. intros t0 e1 H1. apply wp_bind, wp_gets.
  eapply wp_keeps_bind; [exact H1|by apply keeps_publish|done|]. intros _ e2 H2. apply wp_bind.
  eapply wp_mono; [apply (assess_spec _ e2 H2)| |done]. intros [[[ps div] ent] conv] e3 [H3 Has]. cbn [fst] in Has.
  apply wp_bind. set (S := fun e' => healthy e' /\ assessed ps (outline_of e')).
  assert (HS : stable S).
  { split; intros ? e' [Hh Ha] || intros e' [Hh Ha]; (split; [by apply healthy_stable|done]). }
  eapply wp_mono; [apply (wp_of_keeps S _ _ (keeps_produce S HS fuel _) (conj H3 Has))| |by intros ex e' []].
  intros [xs|] e4 [H4 Has4]; [|by apply wp_ret]. repeat wp_step.
  pose proof (injected_stable ps) as Hij.
  eapply wp_mono; [apply (wp_of_keeps (injected ps) _ _ (keeps_in_world _ Hij _)
                            (inject_injected ps xs e4 H4 Has4))| |by intros ex e' []].
  intros t1 e5 H5. repeat wp_step.
  eapply wp_mono; [apply (wp_of_keeps healthy _ _ (keeps_publish _ Hst _ _ _) (record_healthy _ ps e5 H5))| |done].
  intros u e6 H6. by repeat wp_step.
Qed.

Lemma keeps_step_healthy fuel : keeps healthy (step fuel).
Proof. apply keeps_of_wp, step_healthy. Qed.

Lemma keeps_stop_healthy : keeps healthy stop.
Proof.
  unfold stop. keeps_steps; [|apply keeps_publish, healthy_stable].
  apply keeps_modify. intros e He. by apply (healthy_outline e).
Qed.

Lemma keeps_check_healthy ps : keeps healthy (check_convergence ps).
Proof. apply keeps_zoom_to. intros c e He. by apply (healthy_outline e). Qed.

Lemma keeps_run_healthy fuel generations : keeps healthy (run fuel generations).
Proof.
  assert (Hloop : forall n, keeps healthy (run_loop fuel n)).
  { induction n as [|n IH]; cbn [run_loop]; keeps_steps; auto using keeps_step_healthy, keeps_check_healthy. }
  unfold run. keeps_steps; auto. apply keeps_in_world, healthy_stable.
Qed.

(** The calls of an evolution under way. *)
Inductive evolve_call e : Engine -> Prop :=
| EV_step fuel : evolve_call e (step fuel e).2
| EV_run fuel generations : evolve_call e (run fuel generations e).2
| EV_stop : evolve_call e (stop e).2.

Lemma initialise_healthy config registry bus w seed :
  0 < cf_elite_count config -> 0 < cf_population_size config ->
  healthy (initialise seed (new_engine config registry bus w)).2.
Proof.
  intros Hc Hp.
  assert (Hw : wp (initialise seed) (fun _ e => healthy e) (fun _ e => healthy e)
                 (new_engine config registry bus w)).
  { unfold initialise. apply wp_bind, wp_gets, wp_bind, wp_zoom. cbn [new_engine en_population_manager en_world].
    destruct (pm_initialise_run seed config w) as (xs & w' & -> & Hl).
    do 2 apply wp_bind, wp_modify. apply wp_bind, wp_gets, wp_bind, wp_modify, wp_bind, wp_gets.
    apply (wp_of_keeps healthy _ _ (keeps_publish _ healthy_stable _ _ _)).
    split; cbn; [intros ->; simpl in Hl; lia|done|constructor|done]. }
  unfold wp in Hw. by destruct (initialise seed _) as [[a|ex] e'].
Qed.

(** C31: take an engine made by any configuration that keeps at least one elite,
    with any operators, and initialised; let the evaluation of an ISR give the
    same fitness each time it returns, with a composite that is a number.  Then
    after any steps, runs and stops, however they end and whatever the random
    draws, the recorded best fitness of the generations never decreases. *)
Theorem best_fitness_never_decreases config registry bus w seed e :
  0 < cf_elite_count config -> 0 < cf_population_size config ->
  rtc evolve_call (initialise seed (new_engine config registry bus w)).2 e ->
  ascending (mt_max_fitness_trend (en_metrics e)).
Proof.
  intros Hc Hp Hr. apply hl_trend. pose proof (initialise_healthy config registry bus w seed Hc Hp) as H1.
  revert H1. induction Hr as [|e1 e2 e3 Hcall _ IH]; [done|]. intros H1. apply IH.
  destruct Hcall; [by apply keeps_step_healthy|by apply keeps_run_healthy|by apply keeps_stop_healthy].
Qed.
End Trend.

(** ** Witness *)

#[local] Existing Instance sample_surroundings.

Lemma sample_steady : steady sample_fitness.
Proof.
  split; [by intros i w v w' [= <- _]|]. intros i. unfold score, sample_fitness.
  assert (Hn : (String.length i `min` 4 <= 4)%nat) by lia. revert Hn.
  generalize (String.length i `min` 4)%nat as n. intros n Hn.
  do 5 (destruct n as [|n]; [vm_compute; reflexivity|]). lia.
Qed.

Lemma best_fitness_never_decreases_witness :
  ascending (mt_max_fitness_trend (en_metrics (run 3 (Some 6) sample_engine).2)).
Proof.
  apply (best_fitness_never_decreases sample_fitness sample_steady sample_config sample_registry
           empty_bus world0 "x"); [reflexivity|reflexivity|].
  apply rtc_once. apply EV_run.
Defined.
