(* ===== verification/EvoRunSpec.v ===== *)
(** * Evolution engine: a run completes

    With an adapter and operators that return, and fitness of one set of
    dimensions, no step raises but what [**] raises: a run makes its generations and
    gives its result. *)

From Stdlib Require Import SpecFloat.
From S2P Require Import Prelude PyFloat PyVal PyText IsrModel TypedGraph EvoModels EvoPopulation.
From S2P Require Import EvoControl EvoDiversity EvoEngine EvoSelectSpec EvoDiversitySpec EvoSpec.
Open Scope Z_scope.

#[local] Opaque fltb fleb fadd fmul fsub fdiv.

Section Completes.
Context {I : Set} `{Surroundings} `{Adapter I}.
Implicit Types (e : Engine (I := I)) (x : Individual I).

Abbreviation population e := (pm_population (en_population_manager e)).

(** ** What the run relies on *)

(** Every ISR evaluates to a fitness of the dimensions [dims]. *)
Definition evaluates (dims : list string) : Prop :=
  forall (i : I) w, exists v w', evaluate_fitness i w = (Ok v, w') /\ dimensions v = dims.
(** The exception is one that [**] raises on some operands: an overflow. *)
Definition overflowed (x : exn) : Prop := exists a b, power a b = Raise x.

Variable dims : list string.
Hypothesis Hfitness : evaluates dims.

Definition measured (xs : list (Individual I)) : Prop :=
  forall x, x ∈ xs -> dimensions (in_fitness x) = dims.

(** A value, unless [**] overflowed. *)
Definition settles {A} (r : res A) : Prop := match r with Ok _ => True | Raise x => overflowed x end.
Lemma settles_power a b : settles (power a b).
Proof. unfold settles. destruct (power a b) eqn:E; [done|]. by exists a, b. Qed.
Lemma settles_bind {A B} (r : res A) (f : A -> res B) : settles r -> (forall a, settles (f a)) -> settles (r ≫= f).
Proof. destruct r as [a|x]; [intros _ Hf; exact (Hf a)|done]. Qed.
Lemma settles_map {A B} (f : A -> res B) xs : (forall a, settles (f a)) -> settles (map_res f xs).
Proof. intros Hf. induction xs as [|x xs IH]; [done|]. apply settles_bind; [auto|]. intros b. by apply settles_bind. Qed.

(** ** Distances *)

Lemma same_dimensions_eq a b : dimensions a = dimensions b -> same_dimensions a b = true.
Proof.
  intros E. unfold same_dimensions. apply andb_true_iff. split; apply forallb_forall; intros d Hd;
    apply dmem_true, list_elem_of_In; unfold dimensions in *; congruence.
Qed.

Lemma distance_settles a b :
  settles (distance a b) \/ (same_dimensions a b = false /\ exists m, distance a b = Raise (ValueError m)).
Proof.
  unfold distance. destruct (same_dimensions a b) eqn:E; [left|right; split; [done|by eexists]].
  apply settles_bind; [apply settles_map; intros p; apply settles_power|]. intros squares. apply settles_power.
Qed.

Lemma distance_measured a b : dimensions a = dims -> dimensions b = dims -> settles (distance a b).
Proof.
  intros Ha Hb. destruct (distance_settles a b) as [E|[E _]]; [done|].
  rewrite same_dimensions_eq in E; congruence.
Qed.

Lemma distances_from_settles x ys total : measured (x :: ys) -> settles (distances_from x ys total).
Proof.
  intros Hm. assert (Hx : dimensions (in_fitness x) = dims) by (apply Hm; by left).
  assert (Hys : measured ys) by (intros y Hy; apply Hm; by right). clear Hm. revert total.
  induction ys as [|y ys IH]; intros total; [done|]. cbn [distances_from].
  apply settles_bind; [apply distance_measured; [done|by apply Hys; left]|]. intros d.
  apply IH. intros z Hz. apply Hys. by right.
Qed.

Lemma total_distance_settles xs total : measured xs -> settles (total_distance xs total).
Proof.
  revert total. induction xs as [|x xs IH]; intros total Hm; [done|]. cbn [total_distance].
  apply settles_bind; [by apply distances_from_settles|]. intros t. apply IH. intros y Hy. apply Hm. by right.
Qed.

Lemma diversity_settles xs : measured xs -> settles (compute_diversity xs).
Proof.
  intros Hm. destruct xs as [|x [|y xs]]; [done..|]. unfold compute_diversity.
  apply settles_bind; [|done]. apply total_distance_settles.
  intros z Hz. apply Hm. by eapply elem_of_take in Hz as (? & Hz & _); apply list_elem_of_lookup_2 in Hz.
Qed.

(** ** Novelty *)

Lemma reference_distances_settles x refs : settles (reference_distances x refs).
Proof.
  induction refs as [|r refs IH]; [done|]. cbn [reference_distances].
  case_bool_decide; [done|].
  destruct (distance_settles (in_fitness x) (in_fitness r)) as [Hd|[_ [m ->]]]; [|done].
  destruct (distance _ _) as [d|ex]; [by apply settles_bind|]. by destruct ex.
Qed.

Lemma novelty_settles x xs (ns : NoveltySearch I) : 0 < ns_k ns -> settles (compute_novelty x xs ns).
Proof.
  intros Hk. unfold compute_novelty. destruct (_ <? _); [done|].
  apply settles_bind; [apply reference_distances_settles|]. intros [|d ds]; [done|].
  destruct (first_items (ns_k ns) (sorted_by fst (d :: ds))) eqn:Ef; [|done]. exfalso.
  pose proof (Permutation_length (sorted_by_perm fst (d :: ds))) as Hl.
  apply (f_equal length) in Ef. unfold first_items in Ef. rewrite length_take, Hl in Ef. cbn [length] in Ef.
  replace (ns_k ns <? 0) with false in Ef by lia. lia.
Qed.

Lemma novelty_loop_settles all_ (todo : list (Individual I)) ns : 0 < ns_k ns ->
  wp (novelty_loop all_ todo) (fun ys ns' => 0 < ns_k ns' /\ length ys = length todo)
     (fun ex ns' => 0 < ns_k ns' /\ overflowed ex) ns.
Proof.
  revert ns. induction todo as [|x todo IH]; intros ns Hk; cbn [novelty_loop]; [by apply wp_ret|].
  apply wp_bind, wp_gets, wp_bind, wp_lift.
  2: { intros ex E. split; [done|]. pose proof (novelty_settles x all_ (id ns) Hk) as Hs. by rewrite E in Hs. }
  intros r _. apply wp_bind.
  assert (Hrest : forall ns1, 0 < ns_k ns1 ->
    wp (updated ← novelty_loop all_ todo; mret (with_novelty (nr_novelty_score r) x :: updated))
       (fun ys ns' => 0 < ns_k ns' /\ length ys = S (length todo)) (fun ex ns' => 0 < ns_k ns' /\ overflowed ex) ns1).
  { intros ns1 Hk1. apply wp_bind. eapply wp_mono; [by apply IH| |done]. intros ys ns2 [Hk2 Hl]. apply wp_ret. cbn. by rewrite Hl. }
  apply wp_when; [intros _; apply wp_modify; by apply Hrest|intros _; by apply Hrest].
Qed.

(** ** Evaluation, speciation, convergence *)

Lemma evaluate_all_returns (xs : list (Individual I)) w :
  exists ys w', evaluate_all xs w = (Ok ys, w') /\ length ys = length xs /\ measured ys.
Proof.
  revert w. induction xs as [|x xs IH]; intros w.
  { exists [], w. split_and!; [done..|]. intros y Hy. by apply not_elem_of_nil in Hy. }
  cbn [evaluate_all]. destruct (Hfitness (in_isr x) w) as (v & w1 & E & Ev).
  destruct (IH w1) as (ys & w2 & E2 & Hl & Hm). unfold_monad. rewrite E, E2. eexists _, w2.
  split_and!; [reflexivity|simpl; by rewrite Hl|].
  intros y Hy. apply elem_of_cons in Hy as [->|Hy]; [exact Ev|by apply Hm].
Qed.

Lemma assign_returns config (xs : list (Individual I)) species w :
  exists ys sp w', assign config xs species w = (Ok (ys, sp), w') /\ map in_fitness ys = map in_fitness xs.
Proof.
  revert species w. induction xs as [|x xs IH]; intros species w; [by exists [], species, w|].
  cbn [assign]. unfold_monad. rewrite find_species_none. unfold new_id.
  match goal with |- context [assign config xs ?sp ?w'] => destruct (IH sp w') as (ys & sp' & w2 & -> & E) end.
  eexists _, sp', w2. split; [reflexivity|]. simpl. by rewrite E.
Qed.

Lemma speciate_returns (xs : list (Individual I)) dm w :
  exists ys dm' w', speciate xs dm w = (Ok (ys, dm'), w') /\ map in_fitness ys = map in_fitness xs.
Proof.
  unfold speciate. destruct (negb _); [by exists xs, dm, w|]. unfold_monad.
  match goal with |- context [assign ?c xs ?sp ?w'] => destruct (assign_returns c xs sp w') as (ys & sp' & w2 & -> & E) end.
  by eexists ys, _, w2.
Qed.

Lemma measured_fitness xs ys : map in_fitness ys = map in_fitness xs -> measured xs -> measured ys.
Proof.
  intros E Hm y Hy. assert (Hin : in_fitness y ∈ map in_fitness xs) by (rewrite <- E; by apply list_elem_of_fmap_2).
  apply list_elem_of_fmap in Hin as (x & -> & Hx). by apply Hm.
Qed.

Lemma convergence_settles mean best d : settles (convergence_update mean best d).1.
Proof.
  unfold convergence_update. unfold_monad.
  assert (Hv : settles (compute_variance (cd_fitness_history (observe mean best d)))).
  { unfold compute_variance. destruct (_ <? _)%nat; [done|].
    apply settles_bind; [apply settles_map; intros v; apply settles_power|done]. }
  unfold id. by destruct (compute_variance _).
Qed.

Lemma transition_returns p g r sc bus w : exists a w', transition_to p g r sc bus w = (Ok a, w').
Proof. unfold transition_to. case_bool_decide; by eexists _, _. Qed.

Lemma scheduler_returns g d c near sc bus w : exists a w', scheduler_update g d c near sc bus w = (Ok a, w').
Proof.
  unfold scheduler_update. cbv zeta.
  repeat match goal with |- context [if ?b then _ else _] => destruct b end;
    first [apply transition_returns|by eexists _, _].
Qed.

(** ** The state between steps *)

Variable config : EvolutionConfig.
Variable registry : MutationRegistry.
Hypothesis Hconfig : check_config config = Ok tt.
Hypothesis Hselects : selects config.
Hypothesis Hadapter : adapter_returns (I := I).
Hypothesis Hoperators : operators_return registry.

Record running e : Prop := {
  rn_initialised : en_initialised e = true;
  rn_config : en_config e = config;
  rn_registry : en_registry e = registry;
  rn_pm_config : pm_config (en_population_manager e) = config;
  rn_many : (2 <= length (population e))%nat;
  rn_k : 0 < ns_k (en_novelty_search e);
  rn_composite : op_use_composite (en_pareto e) = true;
}.

Lemma running_stable : stable running.
Proof. split; intros; (split; [..]; by (destruct e; cbn in *)) || (by destruct H1; split). Qed.

Lemma size_two : 2 <= cf_population_size config.
Proof.
  revert Hconfig. unfold check_config. destruct (Z.ltb_spec (cf_population_size config) 2); [done|lia].
Qed.

(** [ends m Q]: from a running engine [m] returns unless [**] overflows, and leaves a
    running engine. *)
Abbreviation ends m Q e := (wp m (fun a e' => running e' /\ Q a e') (fun ex e' => running e' /\ overflowed ex) e).

Lemma ends_bind {A B} (m : M Engine A) (f : A -> M Engine B) Q (R : B -> Engine -> Prop) e :
  ends m Q e -> (forall a e', running e' -> Q a e' -> ends (f a) R e') -> ends (m ≫= f) R e.
Proof. intros Hm Hf. apply wp_bind. eapply wp_mono; [exact Hm| |done]. intros a e' [He' Ha]. by apply Hf. Qed.

Lemma evaluate_population_ends e : running e -> ends evaluate_population (fun _ e' => measured (population e')) e.
Proof.
  intros []. unfold evaluate_population. apply wp_bind, wp_gets, wp_bind, wp_zoom.
  destruct (evaluate_all_returns (population e) (en_world e)) as (ys & w' & -> & Hl & Hm).
  apply wp_modify. split; [|exact Hm]. split; try done. cbn. by rewrite Hl.
Qed.

Lemma front_ends generation e : running e -> measured (population e) ->
  ends (zoom en_pareto put_pareto (compute_front (population e) generation)) (fun _ e' => measured (population e')) e.
Proof.
  intros [] Hm. apply wp_zoom. rewrite compute_front_run; [|done|by intros E; rewrite E in *; simpl in *; lia].
  cbn beta iota zeta. by split.
Qed.

Lemma speciate_ends e : running e -> measured (population e) ->
  ends speciate_population (fun ys e' => measured ys /\ length ys = length (population e')) e.
Proof.
  intros [] Hm. unfold speciate_population. apply wp_bind, wp_gets, wp_bind, wp_gets, wp_bind, wp_zoom.
  destruct (speciate_returns (population e) (en_diversity_manager e) (en_world e)) as (ys & dm & w' & -> & E).
  pose proof (f_equal length E) as El. rewrite !length_map in El.
  apply wp_bind, wp_modify, wp_bind, wp_modify, wp_ret. split; [|split; [by eapply measured_fitness|done]].
  split; try done. cbn. by rewrite El.
Qed.

Lemma score_novelty_ends ys e : running e -> length ys = length (population e) ->
  ends (score_novelty ys) (fun _ _ => True) e.
Proof.
  intros [] El. unfold score_novelty. apply wp_bind, wp_zoom.
  eapply wp_mono; [by apply (novelty_loop_settles ys ys)|..].
  - intros zs ns [Hk Hl]. apply wp_modify. split; [|done]. split; try done. cbn. by rewrite Hl, El.
  - intros x ns [Hk Ho]. split; [by split|done].
Qed.

Lemma check_convergence_ends ps e : running e -> ends (check_convergence ps) (fun _ _ => True) e.
Proof.
  intros []. unfold check_convergence. apply wp_zoom.
  pose proof (convergence_settles (ps_mean_fitness ps) (ps_max_fitness ps) (en_convergence_detector e)) as Hs.
  destruct (convergence_update _ _ _) as [[s|x] d]; (split; [by split|done]).
Qed.

Lemma update_phase_ends g d c e : running e -> ends (update_phase g d c) (fun _ _ => True) e.
Proof.
  intros []. unfold update_phase. apply wp_bind, wp_gets, wp_bind, wp_gets, wp_bind, wp_zoom.
  destruct (scheduler_returns g d c false (en_scheduler e) (en_event_bus e) (en_world e)) as ([sc bus] & w' & ->).
  apply wp_bind, wp_modify, wp_modify. split; [|done]. by split.
Qed.

Lemma assess_ends generation e : running e -> ends (assess generation) (fun _ _ => True) e.
Proof.
  intros He. unfold assess. eapply ends_bind; [by apply evaluate_population_ends|cbn beta]. intros _ e1 H1 Hm1.
  apply wp_bind, wp_gets, wp_bind, wp_modify.
  set (e2 := put_elite_manager (elite_update (population e1) (en_elite_manager e1)) e1).
  assert (H2 : running e2) by (by destruct H1).
  eapply ends_bind; [by apply (front_ends generation e2)|cbn beta]. intros front e3 H3 Hm3. apply wp_bind, wp_modify.
  eapply ends_bind; [apply speciate_ends; [by destruct H3|exact Hm3]|cbn beta]. intros ys e4 H4 [Hm4 Hl4].
  pose proof (diversity_settles ys Hm4) as Hd.
  apply wp_bind, wp_lift; [intros d _|intros ex Ex; by rewrite Ex in Hd]. apply wp_bind, wp_gets.
  eapply ends_bind; [by apply score_novelty_ends|cbn beta]. intros _ e5 H5 _. apply wp_bind, wp_gets.
  eapply ends_bind; [by apply check_convergence_ends|cbn beta]. intros conv e6 H6 _.
  eapply ends_bind; [by apply update_phase_ends|cbn beta]. intros _ e7 H7 _. by apply wp_ret.
Qed.

Lemma inject_many (xs : list (Individual I)) em : (2 <= length xs)%nat -> (2 <= length (inject xs em))%nat.
Proof.
  intros Hl. destruct (decide (em_elites em = [])) as [E|E].
  - unfold inject. by rewrite E.
  - rewrite inject_eq by done. rewrite length_app, length_drop.
    pose proof (Permutation_length (sorted_by_perm composite_fitness xs)). lia.
Qed.

Lemma produce_ends fuel generation e : cf_population_size config <= Z.of_nat fuel -> running e ->
  ends (produce_next_generation fuel generation)
    (fun r _ => exists xs, r = Some xs /\ (2 <= length xs)%nat) e.
Proof.
  intros Hf He. set (P := fun e' => running e' /\ en_population_manager e' = en_population_manager e).
  assert (HP : stable P).
  { split; intros ? e' [Hr Hp] || intros e' [Hr Hp]; (split; [by apply running_stable|done]). }
  unfold produce_next_generation. apply wp_bind, wp_gets, wp_bind.
  assert (Hl : returns P (produce_loop fuel (cf_population_size (en_config e)) generation [])
                 (fun r => exists xs, r = Some xs /\ Z.of_nat (length xs) = Z.max (cf_population_size config) 0)).
  { rewrite (rn_config e He).
    apply (returns_produce_loop P HP Hadapter registry) with (pm := en_population_manager e); try done.
    - by intros e' [[] _].
    - by intros e' [].
    - by apply rn_many.
    - by rewrite (rn_pm_config e He). }
  eapply wp_mono; [exact (Hl e (conj He eq_refl))| |by intros ex e' []]. cbn beta.
  intros r e' [[Hr _] (xs & -> & Hxs)]. apply wp_ret. split; [done|]. eexists. split; [done|].
  rewrite (rn_config e He). pose proof size_two. unfold first_items. rewrite length_take.
  replace (cf_population_size config <? 0) with false by lia. lia.
Qed.

Lemma in_world_ends {A} (m : M World A) e : (forall w, exists a w', m w = (Ok a, w')) -> running e ->
  ends (in_world m) (fun _ _ => True) e.
Proof.
  intros Hm He. apply wp_zoom. destruct (Hm (en_world e)) as (a & w' & ->). split; [|done].
  by apply running_stable.
Qed.

Lemma publish_ends t g d e : running e -> ends (publish_engine t g d) (fun _ _ => True) e.
Proof. intros He. apply (returns_publish running running_stable t g d e He). Qed.

Lemma step_ends fuel e : cf_population_size config <= Z.of_nat fuel -> running e ->
  ends (step fuel) (fun r _ => is_Some r) e.
Proof.
  intros Hf He. unfold step. apply wp_bind, wp_gets. rewrite (rn_initialised e He). cbn [negb].
  eapply ends_bind; [by apply in_world_ends; [intros w; eexists _, _|]|cbn beta]. intros t0 e1 H1 _. apply wp_bind, wp_gets.
  eapply ends_bind; [by apply publish_ends|cbn beta]. intros _ e2 H2 _.
  eapply ends_bind; [by apply assess_ends|cbn beta]. intros [[[ps div] ent] conv] e3 H3 _.
  eapply ends_bind; [by apply produce_ends|cbn beta]. intros o e4 H4 (xs & -> & Hxs).
  apply wp_bind, wp_gets, wp_bind, wp_modify.
  match goal with |- wp _ _ _ ?s => assert (H5 : running s) end.
  { destruct H4. split; try done. cbn. rewrite length_map. by apply inject_many. }
  eapply ends_bind; [by apply in_world_ends; [intros w; eexists _, _|exact H5]|cbn beta]. intros t1 e6 H6 _.
  do 3 apply wp_bind, wp_gets. cbn zeta. apply wp_bind, wp_modify.
  eapply ends_bind; [by apply publish_ends; destruct H6|cbn beta]. intros _ e7 H7 _. apply wp_bind, wp_gets, wp_ret.
  by split.
Qed.

Lemma run_loop_ends fuel n e : cf_population_size config <= Z.of_nat fuel -> running e ->
  ends (run_loop fuel n) (fun b _ => b = true) e.
Proof.
  intros Hf. revert e. induction n as [|n IH]; intros e He; cbn [run_loop]; [by apply wp_ret|].
  apply wp_bind, wp_gets. destruct (en_stopped e); [by apply wp_ret|].
  eapply ends_bind; [by apply step_ends|cbn beta]. intros o e1 H1 [r ->]. apply wp_bind, wp_gets.
  eapply ends_bind; [by apply check_convergence_ends|cbn beta]. intros conv e2 H2 _. apply wp_bind, wp_gets.
  destruct (_ && _); [by apply wp_ret|by apply IH].
Qed.

Lemma run_ends fuel generations e : cf_population_size config <= Z.of_nat fuel -> running e ->
  ends (run fuel generations) (fun r _ => is_Some r) e.
Proof.
  intros Hf He. unfold run. apply wp_bind, wp_gets. rewrite (rn_initialised e He). cbn [negb].
  apply wp_bind, wp_gets. cbv zeta.
  assert (Hid : ends (if truthy (cf_run_id (en_config e)) then mret (cf_run_id (en_config e))
                      else in_world (new_id "run" 12)) (fun _ _ => True) e).
  { destruct (truthy _); [by apply wp_ret|]. apply in_world_ends; [|done]. intros w. by eexists _, _. }
  eapply ends_bind; [exact Hid|cbn beta]. intros run_id e1 H1 _.
  eapply ends_bind; [by apply run_loop_ends|cbn beta]. intros b e2 H2 ->. apply wp_bind, wp_gets. by apply wp_ret.
Qed.
Lemma initialise_running bus w (seed : I) : running (initialise seed (new_engine config registry bus w)).2.
Proof.
  assert (Hw : wp (initialise seed) (fun _ e => running e) (fun _ e => running e) (new_engine config registry bus w)).
  { unfold initialise. apply wp_bind, wp_gets, wp_bind, wp_zoom. cbn [new_engine en_population_manager en_world].
    destruct (pm_initialise_run seed config w) as (xs & w' & -> & Hl).
    do 2 apply wp_bind, wp_modify. apply wp_bind, wp_gets, wp_bind, wp_modify, wp_bind, wp_gets.
    eapply wp_mono; [apply publish_ends|by intros a e' []|by intros ex e' []].
    pose proof size_two. split; try done. cbn. lia. }
  unfold wp in Hw. by destruct (initialise seed _) as [[a|ex] e'].
Qed.

Lemma stop_ends e : running e -> ends stop (fun _ _ => True) e.
Proof.
  intros He. unfold stop. apply wp_bind, wp_modify, wp_bind, wp_gets. apply publish_ends. by destruct He.
Qed.

(** The calls of an evolution under way, the fuel of each enough for a generation. *)
Inductive advance e : Engine -> Prop :=
| AD_step fuel : cf_population_size config <= Z.of_nat fuel -> advance e (step fuel e).2
| AD_run fuel generations : cf_population_size config <= Z.of_nat fuel -> advance e (run fuel generations e).2
| AD_stop : advance e (stop e).2.

Lemma advance_engine_call e e' : advance e e' -> engine_call e e'.
Proof. intros []; constructor. Qed.

Lemma advance_running e e' : advance e e' -> running e -> running e'.
Proof.
  assert (Hends : forall A (m : M Engine A) Q, ends m Q e -> running (m e).2).
  { intros A m Q. unfold wp. by destruct (m e) as [[a|ex] s]; intros []. }
  intros [] He; eapply Hends; [by apply step_ends|by apply run_ends|by apply stop_ends].
Qed.

(** C33: take an engine of any accepted configuration whose selection can select (by
    roulette or rank, or with tournaments of at least one), initialised and advanced
    by any steps, runs and stops.  If the adapter and the operators return and all
    ISRs evaluate to fitness of the same dimensions, a run terminates, with no more
    attempts per generation than the size of the population, and raises nothing but
    what [**] raised on some operands: an overflow.  Unless the engine was stopped,
    a run that returns has made all the generations it was asked for (the maximum of
    the configuration when none or zero is given): the early stop on stagnation waits
    for the refinement phase, which no call can reach. *)
Theorem run_completes bus w (seed : I) e fuel generations :
  rtc advance (initialise seed (new_engine config registry bus w)).2 e ->
  cf_population_size config <= Z.of_nat fuel ->
  match run fuel generations e with
  | (Ok o, _) => exists r, o = Some r /\
      (en_stopped e = false ->
       er_generations_completed r
       = pm_generation (en_population_manager e)
         + Z.max 0 (match generations with
                    | Some g => if g =? 0 then cf_max_generations config else g
                    | None => cf_max_generations config
                    end) /\
       er_final_phase r <> "refinement")
  | (Raise x, _) => exists a b, power a b = Raise x
  end.
Proof.
  intros Hr Hf. set (e0 := (initialise seed (new_engine config registry bus w)).2) in *.
  assert (He : running e).
  { pose proof (initialise_running bus w seed) as H1. fold e0 in H1. revert H1.
    clearbody e0. induction Hr as [|e1 e2 e3 Hc _ IH]; [done|]. intros H1.
    by apply IH, (advance_running e1). }
  pose proof (run_ends fuel generations e Hf He) as Hw. unfold wp in Hw.
  destruct (run fuel generations e) as [[o|ex] e'] eqn:E; [|apply Hw]. destruct Hw as [_ [r ->]].
  exists r. split; [done|]. intros Hst. rewrite <- (rn_config e He).
  eapply (run_generations config registry bus w); [|done|exact E].
  eapply rtc_l; [apply (EC_initialise _ seed)|].
  change (rtc engine_call e0 e). clear -Hr. clearbody e0. induction Hr as [|e1 e2 e3 Hc _ IH]; [done|]. eapply rtc_l; [|exact IH].
  by apply advance_engine_call.
Qed.
End Completes.

(** ** Witness *)

#[local] Instance whole_surroundings : Surroundings := sample_surroundings.

Lemma run_completes_witness :
  exists r e', run 3 (Some 2) (step 3 sample_engine).2 = (Ok (Some r), e') /\
    (en_stopped (step 3 sample_engine).2 = false ->
     er_generations_completed r = pm_generation (en_population_manager (step 3 sample_engine).2) + 2 /\
     er_final_phase r <> "refinement").
Proof.
  assert (Hr : match run 3 (Some 2) (step 3 sample_engine).2 with
    | (Ok o, _) => exists r, o = Some r /\
        (en_stopped (step 3 sample_engine).2 = false ->
         er_generations_completed r = pm_generation (en_population_manager (step 3 sample_engine).2) + 2 /\
         er_final_phase r <> "refinement")
    | (Raise x, _) => exists a b, power a b = Raise x
    end).
  { apply (run_completes ["quality"]) with (config := sample_config) (registry := sample_registry)
      (bus := empty_bus) (w := world0) (seed := "x") (generations := Some 2).
    - intros i w. eexists _, w. split; reflexivity.
    - vm_compute. reflexivity.
    - right; right. vm_compute. discriminate.
    - exact sample_adapter_returns.
    - exact sample_operators_return.
    - apply rtc_once. apply AD_step. vm_compute. discriminate.
    - vm_compute. discriminate. }
  destruct (run 3 (Some 2) (step 3 sample_engine).2) as [[o|x] e'].
  - destruct Hr as (r & -> & Hr). exists r, e'. split; [reflexivity|exact Hr].
  - destruct Hr as (a & b & E). discriminate E.
Defined.
